(* ===== verification/_CoqProject ===== *)
-Q . S2P
Prelude.v
Search.v
Sort.v
Radix.v
Rkl.v
RklPush.v
RklOps.v
Pnl.v
PnlFacts.v
PnlMerge.v
PnlCut.v
Repnl.v
PnlRuns.v
PnlProps.v
Dpl.v
DplFacts.v
DplOps.v
DplProps.v
Packing.v
Meta.v
MetaProps.v
Troika.v
TroikaProps.v
Txl.v
Cmp.v
CmpProps.v
Keys.v
Page.v
PageFacts.v
PageOps.v
PageProps.v
Foliage.v
FoliageFacts.v
FoliageProps.v
FoliageDispatch.v
Cursor.v
CursorTree.v
CursorOps.v
CursorFacts.v
CursorSteps.v
CursorSeek.v
CursorProps.v
CursorTable.v
Limits.v
LimitsProps.v
Split.v
SplitFacts.v
SplitMove.v
SplitKey.v
SplitProps.v
SplitDup.v
SplitTree.v
SplitTreeFacts.v
SplitTreeLink.v
SplitTreeClose.v
SplitTreeUnder.v
SplitTreeProps.v
SplitTreeLeaf.v
SplitTreeInsert.v
PageCheck.v
PageCheckProps.v
Readers.v
ReadersWriter.v
ReadersInv.v
ReadersSteps.v
ReadersWorld.v
ReadersProps.v
Reaper.v
ReaperProps.v
Loose.v
LooseFacts.v
LooseSpill.v
LooseRefund.v
LooseTxn.v
LooseRetire.v
LooseNew.v
LooseMerge.v
LooseProps.v
