(* ===== verification/Prelude.v ===== *)
(** * A verification development of libmdbx

    libmdbx is an embedded key-value store: a copy-on-write B-tree in one file,
    with one writer and many readers.  This library models the parts of its
    amalgamated source (mdbx.c with mdbx-internals.h and mdbx.h) that make up its
    core: the B-tree with its pages, cursors and splits, the lists from which a
    write transaction takes its pages, the choice and validation of the meta
    pages, the protection of snapshots against the writer, the limits of a
    database, and the comparison and conversion of keys.  The definitions keep
    the names of the source.

    ** The program and the files of the library

    A transaction reads a snapshot: a root page, from which cursors descend through
    branches to leaves.  A write transaction copies the pages it changes, collects
    the copies in a list of dirty pages ([dpl_t]) and splits the pages that
    overflow.  It takes pages from the garbage collector: the ids of the records
    it has read are kept in [rkl_t] lists, the ids of transactions in [txl_t]
    lists and the page numbers in [pnl_t] lists, from which single pages and
    sequences are cut; which records may be taken depends on the oldest snapshot in the
    table of readers.  The commit sorts and writes the dirty pages and then one of the
    three meta pages.  Whoever opens the file validates the meta pages and chooses
    between them.

    - Prelude: result codes, machine integers, checked access to buffers and the
      lemmas the components share.
    - Search, Sort, Radix: the templates [SEARCH_IMPL], [SORT_IMPL] and
      [RADIXSORT_IMPL], for any type of elements.  The list components use
      their theorems through the class of strict weak orders (Search, Sort).
    - Rkl, RklPush, RklOps: [rkl_push], [rkl_pop], [rkl_merge], iterators and
      holes.  An [rkl_t] is a solid interval and a sorted buffer.
    - Pnl with PnlFacts, PnlMerge, PnlCut, and Repnl with PnlRuns: lists
      of page numbers in descending order, their sorting, merging, cutting and
      shifting, and the search for runs of adjacent pages
      ([gc_repnl_get_sequence], [scan4seq_fallback]).  PnlProps has the theorems.
    - Dpl, DplFacts, DplOps, DplProps: the list of dirty pages with its sorted and
      its unsorted part, stubs at both ends and a least recently used counter.
    - Packing: page counts as 16-bit floating point numbers.
    - Meta, MetaProps: the meta page, [meta_validate] and [meta_model].
    - Troika, TroikaProps: the choice between the three meta pages
      ([meta_tap_shadow] and the table [troika_fsm_map]) and the target of a commit in [dxb_sync_locked].
    - Txl: lists of transaction ids.
    - Cmp, CmpProps: the builtin comparators and the unaligned loads below them.
    - Keys: numbers as keys ([mdbx_key_from_double] and relatives).
    - Page, PageFacts, PageOps, PageProps: the bytes of a page with its table of
      entries and its nodes; [node_add_leaf], [node_add_branch], [node_add_dupfix], [node_del], [page_copy].
      [page_holds] says which list of items a page has.
    - Foliage, FoliageFacts, FoliageProps, FoliageDispatch: the searches in a page,
      generated for each comparator, and the choice between them.
    - Cursor, CursorOps: the stack of a cursor, [tree_search],
      siblings, [cursor_seek] and [cursor_ops].  CursorTree has the tree that a
      root leads to and the search through it, CursorFacts, CursorSteps and CursorSeek the lemmas on movement
      and search in it, CursorProps and CursorTable the theorems for a table.
    - Limits, LimitsProps: the sizes of keys and values that a page size allows and
      [env_setup_pagesize].
    - Split, SplitFacts, SplitMove, SplitKey, SplitProps, SplitDup: the split of one page
      (the choice of the cut, the parent, the nodes) and [tree_propagate_key].
    - SplitTree: [page_split] with its recursion up to a new root and the stacks of all cursors of
      the table, and the insertion of [cursor_put] that calls it.  SplitTreeFacts has the levels of a
      tree and the stacks that lead to their entries, SplitTreeLink how a new page comes
      into its parent, SplitTreeClose the end of a split with the other cursors, SplitTreeUnder
      and SplitTreeProps the recursion; SplitTreeLeaf has the tree as the list of its entries and
      SplitTreeInsert the theorems.
    - PageCheck, PageCheckProps: [page_check], which refuses pages that are damaged.
    - Readers with ReadersWriter: the table of readers as a step relation, one
      step for each access to the shared memory, of readers that start, end, reset,
      renew, park and unpark transactions, and of the writer that looks for the oldest snapshot.
      ReadersInv, ReadersSteps, ReadersWorld: its invariant and the measure of the readers' steps; ReadersProps: the theorems.
    - Reaper, ReaperProps: [mvcc_cleanup_dead], the slots of processes that have died.
    - Loose: the life of a page in a write transaction.  [page_new_txn] takes it from
      the chain of loose pages or from [repnl] ([gc_alloc_single], [page_dirty]),
      [page_retire] gives it back, [txn_refund] lowers the end of the allocated space
      over the pages in front of it, [gc_merge_loose] empties the chain before a commit;
      [wr_txn] has the fields of a write transaction that they use, and the headers of
      the pages in memory as a map from their addresses.  LooseFacts has the
      invariant [wr_ok], LooseSpill the list of spilled pages, LooseRefund and
      LooseTxn the refund, LooseRetire, LooseNew and LooseMerge the other operations,
      LooseProps the theorems.

    ** How state and operations correspond

    A buffer of C is the list of its cells, with the cells behind the data that a
    block of memory has; reading and writing go through [rd] and [wr], which give
    [None] outside of it.  That an operation gives [Some] therefore says that it
    stays inside its buffers.  Structures are records with the fields of the
    source, pointers into a buffer are indices.  Unsigned arithmetic wraps
    ([u64], [u32], [u16], [u8]) where the source relies on it or where a theorem
    has to show that it does not.  Allocation is a function [malloc] from the bytes asked for to the
    usable bytes given, or [None]; [malloc_ok] says that it gives at least what
    was asked.  The configuration is that of a 64-bit POSIX build: descending page
    lists, room for the radix sort, no debugging checks; [have_cmov] and
    [MDBX_UNALIGNED_OK] are parameters, so that their variants are all covered.

    ** The theorems

    - Refinement: the reclaimed ids are a set ([rkl_refines_set], with
      [rkl_push_adds], [rkl_merge_union] and [rkl_walk_all]), the dirty pages a
      finite map from page numbers ([dpl_refines_map]), the transaction ids a bag
      ([txl_refines_bag]), the three kinds of pages are lists of items
      ([leaf_refines_list], [branch_refines_list], [dupfix_refines_list]) and a cursor
      is an index in the list of the entries of its table ([cursor_refines_list]).
    - The B-tree: searches find the partition point in a page ([searches_correct])
      and in the tree ([cursor_search_correct], [cursor_to_key_nearest]), a scan
      visits every entry once ([cursor_scan_complete]), a split distributes the nodes
      and never fails for want of room ([split_distributes], [split_dupfix_distributes], [split_links],
      [propagate_key_correct]), the splits of a page and its parents leave a tree with one more page in
      the level ([page_split_correct]), and so an insertion into a tree is one into the list of its entries, with all
      cursors of the table at the entries they were at ([insert_node_refines]).
    - Concurrency: no page of a snapshot that a reader holds is ever reused
      ([readers_protected], also across parking: [unpark_correct]) and readers do not wait for the writer
      ([reader_wait_free]), in all histories without clones of reading transactions and without
      [mdbx_txn_break]; for clones this is not so, which [clone_loses_snapshot] and
      [parked_clone_unparks_to_nothing] show.  The
      oldest snapshot only advances ([oldest_advances]), in all histories.
    - The pages of a write transaction: every operation keeps the invariant that a page is in one
      place (in use, loose, reusable, behind the end) and moves the pages it is to move and no others
      ([page_new_correct], [page_retire_correct], [page_retire_spilled_correct], [txn_refund_correct],
      [gc_merge_loose_correct]), a page of an older snapshot only goes to the list of the
      retired ones ([page_retire_frozen_correct]), and taking a page and retiring it gives
      the free pages of before ([page_new_retire_roundtrip]).
    - Functional behaviour against a plain specification: the templates
      ([SORT_sorts], [radixsort_sorts], [bsearch_partition_point]), the operations
      of the page lists ([pnl_merge_correct], [pnl_cut_range_correct],
      [repnl_get_sequence_correct] and others) and of the dirty pages.
    - Equivalence of optimised code with its plain form: [scan4seq_is_reference],
      [troika_fsm_map_correct], [eq_fast_correct], [clz64_portable_correct],
      [old_search_equivalent], [search_choice_correct].
    - Safety: what [meta_validate] and [page_check] accept is consistent
      ([meta_validate_safe], [page_check_sound]), and a crash at any point of
      writing the meta page leaves a good one ([commit_survives_crash]).
    - Bounds: the limits of a database fit its pages ([limits_fit], [branch_takes_three]), and
      [page_check] reads nothing outside of the page whatever is in it, but for nested pages of
      duplicates that reach outside ([page_check_stays_inside]).
    - Order and round trips: [builtin_keycmp_orders], [number_keys_correct],
      [json_key_nearest], [pages2pv_correct].
    - Errors of the code, as theorems about what it does:
      [rkl_push_duplicate], [repnl_exactly_cuts_longer_run], [meta_now_is_cut],
      [json_zero_key], [cursor_behind_end_filled], [clone_loses_snapshot],
      [parked_clone_unparks_to_nothing], [freed_slots_not_taken], [page_check_reads_outside],
      [pure_right_loses_parent].

    ** Parameters

    What a definition needs from code that is not modelled is an argument: reading a
    page ([read]), copying it before a change ([page_touch]), the allocators, memcmp
    with the sign that the C standard gives it, the checks of other processes
    ([rpid_check]).  The theorems hold for every such function, or name what they
    need of it as a hypothesis.

    ** Loops

    Loops that are not structural run on fuel, which the callers choose from the
    length of the list (a loop that moves one cell per turn) or from the bits of a
    word (the radix sort); out of fuel is [None], and as the theorems show that
    the result is [Some] the fuel is enough.  The stack of the quicksort is
    modelled with its bound, and [SORT_sorts] shows that it does not overflow.

    A descent in the tree takes at most one turn for each level of the stack of a
    cursor (32), the loops of a split run once for each node and the new one, and [page_split] once for each
    level above the page and one more for the root ([length up < fuel] in its theorems).  The start
    of a reading transaction gives up after 42 turns, which makes at most 402 steps.  The walks over the
    chain of loose pages take at most one turn for each dirty page and one more, the loop of
    [txn_refund] one for each page of [repnl] and one more, as each turn but the last takes a page from it.

    ** Not modelled

    The calls of the system (files, locks, memory maps), the tools, the C++
    interface and diagnostics are left out, and the SIMD scanners, which are
    intrinsics of compilers.  Of the core these are missing: the inner cursors of
    tables with duplicates (their results are [None] here), merging and
    rebalancing of pages, allocation from the records of the garbage collector ([gc_alloc_ex]) and
    its update at commit, the choice and writing of the pages to spill, [page_kill]
    ([MDBX_PAGEPERTURB] is off; [page_retire_page_get] is the argument [fetched]), the states of a transaction and of the handles
    of tables, and of the readers the modes without a lock file and the callback
    for slow readers. *)

From Stdlib Require Export ZArith Lia.
From stdpp Require Export base tactics option list numbers sorting sets gmap.

#[global] Open Scope Z_scope.

(** ** Result codes, page numbers and transaction ids (mdbx.h, mdbx-internals.h) *)

Definition MDBX_SUCCESS : Z := 0.
Definition MDBX_RESULT_TRUE : Z := -1.
Definition MDBX_NOTFOUND : Z := -30798.
Definition MDBX_TXN_FULL : Z := -30788.
Definition MDBX_PROBLEM : Z := -30779.
Definition MDBX_BAD_TXN : Z := -30782.
Definition MDBX_EINVAL : Z := 22.
Definition MDBX_ENOMEM : Z := 12.

Definition UINT64_MAX : Z := 2 ^ 64 - 1.
Definition UINT32_MAX : Z := 2 ^ 32 - 1.
Definition NUM_METAS : Z := 3.
Definition MAX_PAGENO : Z := 0x7FFFFFFF.
Definition MIN_PAGENO : Z := NUM_METAS.
Definition P_INVALID : Z := UINT32_MAX.
Definition PAGELIST_LIMIT : Z := MAX_PAGENO.
Definition SAFE64_INVALID_THRESHOLD : Z := 0xFFFFFFFF00000000.
Definition MIN_TXNID : Z := 1.
Definition MAX_TXNID : Z := SAFE64_INVALID_THRESHOLD - 1.
Definition INVALID_TXNID : Z := UINT64_MAX.
Definition MDBX_ASSUME_MALLOC_OVERHEAD : Z := 16.

(** Wrap-around of the unsigned machine types. *)
Definition u64 (x : Z) : Z := x mod 2 ^ 64.
Definition u32 (x : Z) : Z := x mod 2 ^ 32.
Definition u16 (x : Z) : Z := x mod 2 ^ 16.
Definition u8 (x : Z) : Z := x mod 2 ^ 8.

(** [floor_powerof2] and [ceil_powerof2] of mdbx-internals.h on [size_t]. *)
Definition floor_powerof2 (value granularity : Z) : Z :=
  Z.land value (u64 (Z.lnot (u64 (granularity - 1)))).
Definition ceil_powerof2 (value granularity : Z) : Z :=
  floor_powerof2 (u64 (value + granularity - 1)) granularity.
Definition is_powerof2 (x : Z) : bool := Z.land x (u64 (x - 1)) =? 0.

Lemma u64_small x : 0 <= x <= UINT64_MAX -> u64 x = x.
Proof. intros H. unfold u64. rewrite Z.mod_small; unfold UINT64_MAX in *; lia. Qed.

Lemma u32_small x : 0 <= x <= UINT32_MAX -> u32 x = x.
Proof. intros H. unfold u32. rewrite Z.mod_small; unfold UINT32_MAX in *; lia. Qed.

Lemma floor_powerof2_spec x k :
  0 <= k < 64 -> 0 <= x < 2 ^ 64 -> floor_powerof2 x (2 ^ k) = 2 ^ k * (x / 2 ^ k).
Proof.
  intros Hk Hx. unfold floor_powerof2, u64.
  assert (0 < 2 ^ k < 2 ^ 64) as Hp by (split; [apply Z.pow_pos_nonneg|apply Z.pow_lt_mono_r]; lia).
  rewrite (Z.mod_small (2 ^ k - 1)) by lia.
  rewrite <- Z.land_ones, Z.land_assoc, Z.land_ones by lia.
  replace (2 ^ k - 1) with (Z.ones k) by (rewrite Z.ones_equiv; lia).
  change (Z.land x (Z.lnot (Z.ones k))) with (Z.ldiff x (Z.ones k)) || rewrite <- Z.ldiff_land.
  rewrite Z.ldiff_ones_r, Z.shiftl_mul_pow2, Z.shiftr_div_pow2 by lia.
  pose proof (Z.div_mod x (2 ^ k) ltac:(lia)). pose proof (Z.mod_pos_bound x (2 ^ k) ltac:(lia)).
  rewrite Z.mod_small, Z.mul_comm; [done|].
  assert (0 <= x / 2 ^ k * 2 ^ k) by (apply Z.mul_nonneg_nonneg; [apply Z.div_pos|]; lia). lia.
Qed.

Lemma ceil_powerof2_spec x k :
  0 <= k < 64 -> 0 <= x -> x + 2 ^ k <= 2 ^ 64 ->
  x <= ceil_powerof2 x (2 ^ k) < x + 2 ^ k /\ (2 ^ k | ceil_powerof2 x (2 ^ k)).
Proof.
  intros Hk Hx Hmax. unfold ceil_powerof2. assert (0 < 2 ^ k) by (apply Z.pow_pos_nonneg; lia).
  rewrite u64_small by (unfold UINT64_MAX; lia). rewrite floor_powerof2_spec by lia.
  pose proof (Z.div_mod (x + 2 ^ k - 1) (2 ^ k) ltac:(lia)).
  pose proof (Z.mod_pos_bound (x + 2 ^ k - 1) (2 ^ k) ltac:(lia)).
  split; [lia|]. eexists. apply Z.mul_comm.
Qed.

(** ** Checked access to a C buffer

    A buffer is the list of its cells.  Reading or writing outside of it is
    undefined behaviour in C and [None] here, so a theorem which says that an
    operation returns [Some _] also says that it stays inside its buffers. *)

Definition rd {A} (buf : list A) (i : nat) : option A := buf !! i.

Definition wr {A} (buf : list A) (i : nat) (v : A) : option (list A) :=
  if decide (i < length buf)%nat then Some (<[i := v]> buf) else None.

(** The same through a pointer difference, which may be negative. *)
Definition rdz {A} (buf : list A) (p : Z) : option A :=
  if decide (0 <= p) then rd buf (Z.to_nat p) else None.
Definition wrz {A} (buf : list A) (p : Z) (v : A) : option (list A) :=
  if decide (0 <= p) then wr buf (Z.to_nat p) v else None.

(** [memmove]/[memcpy] of [n] cells from [src + from] to [dst + to]. *)
Definition blit {A} (src : list A) (from : nat) (dst : list A) (to n : nat) : option (list A) :=
  if decide (from + n <= length src /\ to + n <= length dst)%nat
  then Some (take to dst ++ take n (drop from src) ++ drop (to + n) dst)
  else None.

Create HintDb mdbx.

(** Appends nested to the right, with the heads of lists pulled out. *)
Ltac app_norm := simpl; repeat (rewrite <- app_assoc; simpl).

Section buffers.
Context {A : Type}.
Implicit Types (buf l : list A) (i j n : nat) (v : A).

Lemma rd_Some buf i : (i < length buf)%nat -> exists v, rd buf i = Some v.
Proof. intros H. destruct (lookup_lt_is_Some_2 buf i H) as [v Hv]. eauto. Qed.

Lemma wr_Some buf i v : (i < length buf)%nat -> wr buf i v = Some (<[i := v]> buf).
Proof. intros H. unfold wr. by rewrite decide_True. Qed.

Lemma wr_inv buf i v buf' :
  wr buf i v = Some buf' -> (i < length buf)%nat /\ buf' = <[i := v]> buf.
Proof. unfold wr. case_decide; naive_solver. Qed.

Lemma rdz_Some buf (p : Z) :
  0 <= p < Z.of_nat (length buf) -> exists v, rdz buf p = Some v /\ buf !! Z.to_nat p = Some v.
Proof.
  intros H. unfold rdz. rewrite decide_True by lia.
  destruct (rd_Some buf (Z.to_nat p)) as [v Hv]; [lia|]. eauto.
Qed.

Lemma rdz_lookup buf (p : Z) v : 0 <= p -> buf !! Z.to_nat p = Some v -> rdz buf p = Some v.
Proof. intros H Hv. unfold rdz. by rewrite decide_True by lia. Qed.

Lemma wrz_Some buf (p : Z) v :
  0 <= p < Z.of_nat (length buf) -> wrz buf p v = Some (<[Z.to_nat p := v]> buf).
Proof. intros H. unfold wrz. rewrite decide_True by lia. apply wr_Some. lia. Qed.

Lemma blit_length src from dst to n dst' :
  @blit A src from dst to n = Some dst' -> length dst' = length dst.
Proof.
  unfold blit. case_decide; [|done]. intros [= <-].
  rewrite !length_app, !length_take, !length_drop. lia.
Qed.

Lemma blit_app (S1 X S2 D1 Y D2 : list A) from to n :
  from = length S1 -> to = length D1 -> length X = n -> length Y = n ->
  blit (S1 ++ X ++ S2) from (D1 ++ Y ++ D2) to n = Some (D1 ++ X ++ D2).
Proof.
  intros -> -> HX HY. unfold blit. rewrite decide_True by (rewrite !length_app; lia).
  rewrite take_app_length, drop_app_length. rewrite <- HX at 1. rewrite take_app_length.
  rewrite drop_app_add. replace n with (length Y) by done. by rewrite drop_app_length.
Qed.

(** Lists are determined by their lookups below a common length. *)
Lemma list_eq_same_length' l1 l2 :
  length l1 = length l2 ->
  (forall i, (i < length l1)%nat -> l1 !! i = l2 !! i) -> l1 = l2.
Proof.
  intros Hlen H. apply list_eq. intros i.
  destruct (decide (i < length l1)%nat) as [Hi|Hi]; [auto|].
  rewrite !lookup_ge_None_2 by lia. done.
Qed.

Lemma take_insert_S buf n v :
  (n < length buf)%nat -> take (S n) (<[n := v]> buf) = take n buf ++ [v].
Proof.
  intros Hn. rewrite (take_S_r _ _ v) by (by rewrite list_lookup_insert_eq).
  by rewrite take_insert_ge by lia.
Qed.
End buffers.

(** A buffer that differs from [P ++ L ++ Q] in the middle only. *)
Lemma same_outside {A} (P L Q buf : list A) :
  length buf = length (P ++ L ++ Q) ->
  (forall k, (k < length P \/ length P + length L <= k)%nat -> buf !! k = (P ++ L ++ Q) !! k) ->
  exists N, buf = P ++ N ++ Q /\ length N = length L.
Proof.
  rewrite !length_app. intros Hlen Hout. exists (take (length L) (drop (length P) buf)).
  rewrite length_take, length_drop. split; [|lia]. apply list_eq_same_length'.
  - rewrite !length_app, length_take, length_drop. lia.
  - intros i Hi. destruct (decide (i < length P)%nat).
    + rewrite Hout by lia. by rewrite !lookup_app_l by lia.
    + rewrite (lookup_app_r P) by lia. destruct (decide (i - length P < length L)%nat).
      * rewrite lookup_app_l by (rewrite length_take, length_drop; lia). rewrite lookup_take_lt, lookup_drop by lia. f_equal. lia.
      * rewrite Hout, !(lookup_app_r P) by lia.
        rewrite !lookup_app_r by (rewrite ?length_take, ?length_drop; lia). f_equal. rewrite length_take, length_drop. lia.
Qed.

(** Strictly ascending lists of integers: the order of the lists of transaction
    ids and (reversed) of page numbers. *)
Definition ascending (l : list Z) : Prop :=
  forall i j x y, (i < j)%nat -> l !! i = Some x -> l !! j = Some y -> x < y.

Section ascending.
Implicit Types (l : list Z) (x y : Z).

Lemma ascending_nil : ascending [].
Proof. intros i j x y _ H. by rewrite lookup_nil in H. Qed.

Lemma ascending_cons x l : ascending (x :: l) <-> Forall (Z.lt x) l /\ ascending l.
Proof.
  split.
  - intros H. split.
    + apply Forall_lookup. intros i y Hi. apply (H 0%nat (S i) x y); [lia|done|done].
    + intros i j y z Hij Hi Hj. apply (H (S i) (S j) y z); [lia|done|done].
  - intros [Hx Hl] i j y z Hij Hi Hj.
    destruct j as [|j]; [lia|]. destruct i as [|i]; simpl in *; simplify_eq.
    + by eapply Forall_lookup_1 in Hx.
    + apply (Hl i j); [lia|done|done].
Qed.

Lemma ascending_app l1 l2 :
  ascending (l1 ++ l2) <->
  ascending l1 /\ ascending l2 /\ (forall x y, x ∈ l1 -> y ∈ l2 -> x < y).
Proof.
  induction l1 as [|a l1 IH]; simpl.
  - split; [|tauto]. intros H. split_and!; [apply ascending_nil|done|].
    intros x y Hx. by apply elem_of_nil in Hx.
  - rewrite !ascending_cons, Forall_app, IH, !Forall_forall. split.
    + intros [[H1 H2] (H3 & H4 & H5)]. split_and!; try done.
      intros x y [->|Hx]%elem_of_cons Hy; eauto.
    + intros ((H1 & H2) & H3 & H4). repeat split; try done.
      * intros y Hy. apply H4; [left|done].
      * intros x y Hx Hy. apply H4; [by right|done].
Qed.

Lemma ascending_NoDup l : ascending l -> NoDup l.
Proof.
  induction l as [|x l IH]; [by constructor|].
  rewrite ascending_cons, Forall_forall. intros [Hx Hl].
  constructor; [|auto]. intros Hin. specialize (Hx _ Hin). lia.
Qed.

Lemma ascending_lookup_inj l i j x :
  ascending l -> l !! i = Some x -> l !! j = Some x -> i = j.
Proof. intros Hl Hi Hj. exact (NoDup_lookup _ _ _ _ (ascending_NoDup _ Hl) Hi Hj). Qed.

Lemma ascending_take l n : ascending l -> ascending (take n l).
Proof. intros H. rewrite <- (take_drop n l) in H. by apply ascending_app in H as [? _]. Qed.

Lemma ascending_drop l n : ascending l -> ascending (drop n l).
Proof. intros H. rewrite <- (take_drop n l) in H. by apply ascending_app in H as (_ & ? & _). Qed.
End ascending.

#[export] Hint Resolve ascending_nil ascending_take ascending_drop : mdbx.

Lemma list_split_at {A} (l : list A) i x : l !! i = Some x -> exists l1 l2, l = l1 ++ x :: l2 /\ length l1 = i.
Proof.
  intros H. exists (take i l), (drop (S i) l). split; [by rewrite take_drop_middle|].
  rewrite length_take. apply lookup_lt_Some in H. lia.
Qed.

(** [n >> 1] on a length. *)
Definition half (n : nat) : nat := Nat.div2 n.

Lemma half_spec n : (2 * half n <= n <= 2 * half n + 1)%nat.
Proof.
  unfold half. induction n as [n IH] using lt_wf_ind.
  destruct n as [|[|n]]; [simpl; lia|simpl; lia|]. specialize (IH n ltac:(lia)). simpl in *. lia.
Qed.

Lemma half_bounds n : (half n + half (n + 1) = n /\ half n <= half (n + 1))%nat.
Proof. pose proof (half_spec n). pose proof (half_spec (n + 1)). lia. Qed.

Lemma half_lt n : (0 < n -> half n < n)%nat.
Proof. pose proof (half_spec n). lia. Qed.

#[global] Opaque half.

(** Close goals about bounds of lists whose lengths were normalised. *)
Ltac len :=
  repeat (rewrite ?length_app, ?length_take, ?length_drop, ?length_insert,
            ?length_replicate, ?length_cons, ?length_nil in *); simpl in *; try lia.
