(* ===== verification/Search.v ===== *)
(** * Binary search

    [SEARCH_IMPL] of mdbx.c generates one binary search per element type
    ([rkl_bsearch], [pgno_bsearch], [dp_bsearch], ...).  It is modelled once,
    generic in the element and the argument type; both variants of the loop are
    modelled, the one for processors with a conditional move ([have_cmov]) and
    the one with a conditional jump.  The result is an index into the buffer, as
    the C code returns a pointer. *)

From S2P Require Import Prelude.

Section search.
Context {T I : Type} (cmp : T -> I -> bool).

(** [do ... while (length > 2)]: may look at one element when [length] is 0. *)
Fixpoint bsearch_cmov (fuel : nat) (buf : list T) (it len : nat) (item : I) : option (nat * nat) :=
  match fuel with
  | O => None
  | S fuel =>
      let middle := (it + half len)%nat in
      let len := half (len + 1) in
      x ← rd buf middle;
      let flag := cmp x item in
      let it := if flag then middle else it in
      if decide (2 < len)%nat then bsearch_cmov fuel buf it len item else Some (it, len)
  end.

(** [while (length > 2)] *)
Fixpoint bsearch_jump (fuel : nat) (buf : list T) (it len : nat) (item : I) : option (nat * nat) :=
  match fuel with
  | O => None
  | S fuel =>
      if decide (2 < len)%nat then
        let middle := (it + half len)%nat in
        let len := half (len + 1) in
        x ← rd buf middle;
        if cmp x item then bsearch_jump fuel buf (middle + 1) (len - 1) item
        else bsearch_jump fuel buf it len item
      else Some (it, len)
  end.

(** One more step over the element at [it] when [length > k] and it is ordered before [item]. *)
Definition bsearch_last (k : nat) (buf : list T) (it len : nat) (item : I) : option nat :=
  if decide (k < len)%nat then
    x ← rd buf it; Some (if cmp x item then (it + 1)%nat else it)
  else Some it.

Definition bsearch (have_cmov : bool) (buf : list T) (begin length : nat) (item : I) : option nat :=
  '(it, len) ← (if have_cmov then bsearch_cmov (S length) buf begin length item
                else bsearch_jump (S length) buf begin length item);
  it ← bsearch_last 1 buf it len item;
  bsearch_last 0 buf it len item.

(** [p] is the partition point of the [n] elements at [begin]: exactly the
    first [p] of them are ordered before [item]. *)
Definition partition_point (buf : list T) (begin n : nat) (item : I) (p : nat) : Prop :=
  (begin <= p <= begin + n)%nat /\
  forall i x, (begin <= i < begin + n)%nat -> buf !! i = Some x -> cmp x item = bool_decide (i < p)%nat.

Variables (buf : list T) (begin n p : nat) (item : I).
Hypothesis Hpart : partition_point buf begin n item p.
Hypothesis Hbuf : (begin + n <= length buf)%nat.

Lemma cmp_at (i : nat) (x : T) :
  rd buf i = Some x -> (begin <= i < begin + n)%nat -> cmp x item = bool_decide (i < p)%nat.
Proof. intros ??. by apply Hpart. Qed.

Lemma bsearch_cmov_spec (fuel it len : nat) :
  (len < fuel)%nat -> (begin <= it <= p)%nat -> (p <= it + len <= begin + n)%nat ->
  (it + half len < length buf)%nat ->
  exists it' len', bsearch_cmov fuel buf it len item = Some (it', len') /\
  (begin <= it' <= p)%nat /\ (p <= it' + len' <= begin + n)%nat /\ (len' <= 2)%nat.
Proof.
  revert it len. induction fuel as [|fuel IH]; intros it len Hf Hit Hlen Hmid; [lia|].
  simpl. pose proof (half_bounds len) as Hd. pose proof (half_spec len) as Hs.
  destruct (rd_Some buf (it + half len)) as [x Hx]; [lia|]. rewrite Hx; simpl.
  set (it1 := if cmp x item then (it + half len)%nat else it).
  assert (begin <= it1 <= p /\ p <= it1 + half (len + 1) <= begin + n)%nat as [H1 H2].
  { destruct (decide (len <= 1)%nat).
    - assert (half len = 0%nat) as E by lia. subst it1. rewrite E, Nat.add_0_r.
      destruct (cmp x item); lia.
    - assert (half len < len)%nat by (apply half_lt; lia).
      subst it1. rewrite (cmp_at _ _ Hx ltac:(lia)). case_bool_decide; lia. }
  clearbody it1. case_decide as Hgt; [|eauto 10 with lia].
  pose proof (half_lt (half (len + 1)) ltac:(lia)). apply IH; lia.
Qed.

Lemma bsearch_jump_spec (fuel it len : nat) :
  (len < fuel)%nat -> (begin <= it <= p)%nat -> (p <= it + len <= begin + n)%nat ->
  exists it' len', bsearch_jump fuel buf it len item = Some (it', len') /\
  (begin <= it' <= p)%nat /\ (p <= it' + len' <= begin + n)%nat /\ (len' <= 2)%nat.
Proof.
  revert it len. induction fuel as [|fuel IH]; intros it len Hf Hit Hlen; [lia|].
  simpl. pose proof (half_bounds len) as Hd. pose proof (half_spec len) as Hs.
  case_decide as Hgt; [|eauto 10 with lia].
  assert (half len < len)%nat by (apply half_lt; lia).
  assert (0 < half len)%nat by (pose proof (half_spec len); lia).
  destruct (rd_Some buf (it + half len)) as [x Hx]; [lia|]. rewrite Hx; simpl.
  rewrite (cmp_at _ _ Hx ltac:(lia)). case_bool_decide; apply IH; lia.
Qed.

Lemma bsearch_last_spec (k it len : nat) :
  (begin <= it <= p)%nat -> (p <= it + len <= begin + n)%nat -> (len <= S k)%nat ->
  exists it' len', bsearch_last k buf it len item = Some it' /\
  (begin <= it' <= p)%nat /\ (p <= it' + len' <= begin + n)%nat /\ (len' <= k)%nat /\
  (len <= k -> it' = it /\ len' = len)%nat.
Proof.
  intros Hit Hlen Hk. unfold bsearch_last. case_decide.
  - destruct (rd_Some buf it) as [x Hx]; [lia|]. rewrite Hx; simpl.
    rewrite (cmp_at _ _ Hx ltac:(lia)). case_bool_decide.
    + exists (it + 1)%nat, (len - 1)%nat. split_and!; (done || lia).
    + exists it, 0%nat. split_and!; (done || lia).
  - exists it, len. split_and!; (done || lia).
Qed.

Lemma bsearch_correct (have_cmov : bool) :
  (n = 0 -> have_cmov = true -> begin < length buf)%nat ->
  bsearch have_cmov buf begin n item = Some p.
Proof.
  intros H0. unfold bsearch. destruct Hpart as [Hp _].
  assert (exists it len, (if have_cmov then bsearch_cmov (S n) buf begin n item
    else bsearch_jump (S n) buf begin n item) = Some (it, len) /\
    (begin <= it <= p)%nat /\ (p <= it + len <= begin + n)%nat /\ (len <= 2)%nat)
    as (it & len & -> & H1 & H2 & H3).
  { destruct have_cmov; [apply bsearch_cmov_spec | apply bsearch_jump_spec]; try lia.
    pose proof (half_spec n). destruct (decide (n = 0%nat)) as [->|]; [|lia].
    specialize (H0 eq_refl eq_refl). lia. }
  simpl. destruct (bsearch_last_spec 1 it len) as (it1 & len1 & E1 & A1 & A2 & A3 & A4); try lia.
  rewrite E1. simpl.
  destruct (decide (len <= 1)%nat) as [Hl|Hl].
  - destruct A4 as [-> ->]; [lia|].
    destruct (bsearch_last_spec 0 it len) as (it2 & len2 & -> & B1 & B2 & B3 & _); try lia.
    f_equal. lia.
  - (* [len] is 2: the second test sees either the partition point or the last element. *)
    unfold bsearch_last in E1 |- *. rewrite decide_True in E1 by lia.
    rewrite decide_True by lia.
    destruct (rd_Some buf it) as [x Hx]; [lia|]. rewrite Hx in E1; simpl in E1.
    rewrite (cmp_at _ _ Hx ltac:(lia)) in E1. case_bool_decide; simplify_eq.
    + destruct (decide (p = it + 1)%nat).
      * destruct (decide (it + 1 < length buf)%nat) as [Hb|Hb].
        -- destruct (rd_Some buf (it + 1)) as [y Hy]; [lia|]. rewrite Hy; simpl.
          rewrite (cmp_at _ _ Hy ltac:(lia)). case_bool_decide; f_equal; lia.
        -- lia.
      * destruct (rd_Some buf (it + 1)) as [y Hy]; [lia|]. rewrite Hy; simpl.
        rewrite (cmp_at _ _ Hy ltac:(lia)). case_bool_decide; f_equal; lia.
    + rewrite Hx; simpl. rewrite (cmp_at _ _ Hx ltac:(lia)). case_bool_decide; f_equal; lia.
Qed.
End search.

Arguments partition_point {T I} cmp buf begin n item p.

(** ** Property *)

(** Both variants of the binary search, the branchless and the jumping one,
    read only cells of the array and end at the partition point: the number of
    leading elements that are ordered before the item. *)
Theorem bsearch_partition_point {T I} (cmp : T -> I -> bool) (have_cmov : bool) (buf : list T) begin n p item :
  partition_point cmp buf begin n item p -> (begin + n <= length buf)%nat ->
  (n = 0 -> have_cmov = true -> begin < length buf)%nat ->
  bsearch cmp have_cmov buf begin n item = Some p.
Proof. intros Hp Hb H0. by apply bsearch_correct. Qed.

Lemma bsearch_partition_point_witness : bsearch Z.ltb true [9; 10; 20; 30; 40] 1 4 25 = Some 3%nat.
Proof.
  apply bsearch_partition_point; simpl; try lia. split; [lia|].
  intros i x Hi Hx. do 5 (destruct i as [|i]; [simplify_eq/=; first [lia|done]|]). lia.
Defined.
