(* ===== verification/Sort.v ===== *)
(** * Sorting networks and the quicksort

    [SORT_IMPL] of mdbx.c generates a quicksort with an internal stack for
    [pgno_t] ([pgno_sort]) and for [dp_t] ([dp_sort]); chunks of at most eight
    elements are sorted by the networks [SORT_NETWORK_3] ... [SORT_NETWORK_8].
    Both are modelled generically in the element type and in [CMP], on a buffer
    and with pointers as (possibly negative) offsets into it. *)

From S2P Require Import Prelude.

(** [CMP] is a strict weak order. *)
Class StrictWeak {T} (cmp : T -> T -> bool) : Prop := {
  cmp_irrefl x : cmp x x = false;
  cmp_trans x y z : cmp x y = true -> cmp y z = true -> cmp x z = true;
  cmp_split x y z : cmp x z = true -> cmp x y = true \/ cmp y z = true
}.

Section operations.
Context {T : Type} (cmp : T -> T -> bool).

(** [SORT_CMP_SWAP(TYPE, CMP, a, b)] with [a] and [b] the cells [i] and [j]. *)
Definition SORT_CMP_SWAP (buf : list T) (i j : Z) : option (list T) :=
  swap_tmp ← rdz buf i;
  b ← rdz buf j;
  let swap_cmp := cmp swap_tmp b in
  buf ← wrz buf i (if swap_cmp then swap_tmp else b);
  wrz buf j (if swap_cmp then b else swap_tmp).

Fixpoint run_network (net : list (Z * Z)) (buf : list T) (begin : Z) : option (list T) :=
  match net with
  | [] => Some buf
  | (i, j) :: net =>
      buf ← SORT_CMP_SWAP buf (begin + i) (begin + j);
      run_network net buf begin
  end.
End operations.

Definition SORT_NETWORK_3 : list (Z * Z) := [(1, 2); (0, 2); (0, 1)].

Definition SORT_NETWORK_4 : list (Z * Z) := [(0, 1); (2, 3); (0, 2); (1, 3); (1, 2)].

Definition SORT_NETWORK_5 : list (Z * Z) :=
  [(0, 4); (1, 3); (0, 2); (2, 4); (0, 1); (2, 3); (1, 4); (1, 2); (3, 4)].

Definition SORT_NETWORK_6 : list (Z * Z) :=
  [(1, 2); (4, 5); (0, 2); (3, 5); (0, 1); (3, 4); (2, 5); (0, 3); (1, 4); (2, 4); (1, 3); (2, 3)].

Definition SORT_NETWORK_7 : list (Z * Z) :=
  [(0, 4); (1, 5); (2, 6); (0, 2); (1, 3); (4, 6); (2, 4); (3, 5); (0, 1); (2, 3); (4, 5);
    (1, 4); (3, 6); (1, 2); (3, 4); (5, 6)].

Definition SORT_NETWORK_8 : list (Z * Z) :=
  [(0, 4); (1, 5); (2, 6); (3, 7); (0, 2); (1, 3); (4, 6); (5, 7); (2, 4); (3, 5); (0, 1);
    (6, 7); (2, 3); (4, 5); (1, 4); (3, 6); (1, 2); (3, 4); (5, 6)].

(** The [switch (len)] of [SORT_INNER]; its [default] is unreachable. *)
Definition SORT_INNER_network (len : Z) : option (list (Z * Z)) :=
  match len with
  | 0 | 1 => Some []
  | 2 => Some [(0, 1)]
  | 3 => Some SORT_NETWORK_3
  | 4 => Some SORT_NETWORK_4
  | 5 => Some SORT_NETWORK_5
  | 6 => Some SORT_NETWORK_6
  | 7 => Some SORT_NETWORK_7
  | 8 => Some SORT_NETWORK_8
  | _ => None
  end.

Section quicksort.
Context {T : Type} (cmp : T -> T -> bool).

Definition SORT_INNER (buf : list T) (begin len : Z) : option (list T) :=
  net ← SORT_INNER_network len; run_network cmp net buf begin.

Definition SORT_SWAP (buf : list T) (a b : Z) : option (list T) :=
  swap_tmp ← rdz buf a;
  v ← rdz buf b;
  buf ← wrz buf a v;
  wrz buf b swap_tmp.

(** [while (CMP( *left, *mid)) ++left;] and [while (CMP( *mid, *right)) --right;] *)
Fixpoint scan_left (fuel : nat) (buf : list T) (left mid : Z) : option Z :=
  match fuel with
  | O => None
  | S fuel =>
      x ← rdz buf left; m ← rdz buf mid;
      if cmp x m then scan_left fuel buf (left + 1) mid else Some left
  end.

Fixpoint scan_right (fuel : nat) (buf : list T) (right mid : Z) : option Z :=
  match fuel with
  | O => None
  | S fuel =>
      m ← rdz buf mid; x ← rdz buf right;
      if cmp m x then scan_right fuel buf (right - 1) mid else Some right
  end.

(** The inner [while (1)]; both instances have
    [EXPECT_LOW_CARDINALITY_OR_PRESORTED] = false. *)
Fixpoint partition_loop (fuel : nat) (buf : list T) (left right mid : Z) : option (list T * Z * Z) :=
  match fuel with
  | O => None
  | S fuel' =>
      left ← scan_left fuel buf left mid;
      right ← scan_right fuel buf right mid;
      if decide (left > right) then Some (buf, left, right)
      else
        buf ← SORT_SWAP buf left right;
        let mid := if decide (mid = left) then right else if decide (mid = right) then left else mid in
        partition_loop fuel' buf (left + 1) (right - 1) mid
  end.

Definition partition_step (buf : list T) (lo hi : Z) : option (list T * Z * Z) :=
  let len := hi - lo in
  let mid := lo + Z.shiftr len 1 in
  buf ← SORT_CMP_SWAP cmp buf lo mid;
  buf ← SORT_CMP_SWAP cmp buf mid hi;
  buf ← SORT_CMP_SWAP cmp buf lo mid;
  partition_loop (Z.to_nat (len + 2)) buf (lo + 1) (hi - 1) mid.

(** [NAME##_stack stack[sizeof(size_t) * CHAR_BIT]] *)
Definition SORT_STACK_LIMIT : nat := 64.

Definition SORT_PUSH (stack : list (Z * Z)) (low high : Z) : option (list (Z * Z)) :=
  if decide (length stack < SORT_STACK_LIMIT)%nat then Some ((low, high) :: stack) else None.

Fixpoint sort_loop (fuel : nat) (buf : list T) (lo hi : Z) (stack : list (Z * Z)) : option (list T) :=
  match fuel with
  | O => None
  | S fuel =>
      let len := hi - lo in
      if decide (len < 8) then
        buf ← SORT_INNER buf lo (len + 1);
        match stack with
        | [] => Some buf
        | (lo, hi) :: stack => sort_loop fuel buf lo hi stack
        end
      else
        '(buf, left_, right_) ← partition_step buf lo hi;
        if decide (right_ - lo > hi - left_) then
          stack ← SORT_PUSH stack lo right_;
          sort_loop fuel buf left_ hi stack
        else
          stack ← SORT_PUSH stack left_ hi;
          sort_loop fuel buf lo right_ stack
  end.

(** [NAME(begin, end)] *)
Definition SORT (buf : list T) (begin end_ : Z) : option (list T) :=
  sort_loop (S (Z.to_nat (2 * (end_ - begin)))) buf begin (end_ - 1) [].
End quicksort.

(** ** Segments of a buffer *)

Section segments.
Context {T : Type}.
Implicit Types (buf : list T) (lo hi i j k : Z).

Definition cell buf i : option T := buf !! Z.to_nat i.

(** [buf'] permutes the cells [lo .. hi] of [buf] and leaves the others alone. *)
Definition seg_perm lo hi buf buf' : Prop :=
  exists pre s s' post, buf = pre ++ s ++ post /\ buf' = pre ++ s' ++ post /\
  Z.of_nat (length pre) = lo /\ Z.of_nat (length s) = hi - lo + 1 /\ s ≡ₚ s'.

Definition in_seg lo hi buf : Prop := 0 <= lo /\ lo <= hi + 1 /\ hi < Z.of_nat (length buf).

Lemma seg_perm_refl lo hi buf : in_seg lo hi buf -> seg_perm lo hi buf buf.
Proof.
  intros (H1 & H2 & H3).
  exists (take (Z.to_nat lo) buf), (take (Z.to_nat (hi - lo + 1)) (drop (Z.to_nat lo) buf)),
    (take (Z.to_nat (hi - lo + 1)) (drop (Z.to_nat lo) buf)), (drop (Z.to_nat (hi + 1)) buf).
  assert (buf = take (Z.to_nat lo) buf ++ take (Z.to_nat (hi - lo + 1)) (drop (Z.to_nat lo) buf)
    ++ drop (Z.to_nat (hi + 1)) buf) as E.
  { replace (Z.to_nat (hi + 1)) with (Z.to_nat lo + Z.to_nat (hi - lo + 1))%nat by lia.
    rewrite <- drop_drop, take_drop, take_drop. done. }
  split_and!; [exact E|exact E| | |done]; rewrite ?length_take, ?length_drop; lia.
Qed.

Lemma seg_perm_trans lo hi buf1 buf2 buf3 :
  seg_perm lo hi buf1 buf2 -> seg_perm lo hi buf2 buf3 -> seg_perm lo hi buf1 buf3.
Proof.
  intros (p1 & s1 & s1' & q1 & -> & -> & Hp1 & Hs1 & H1) (p2 & s2 & s2' & q2 & E & -> & Hp2 & Hs2 & H2).
  pose proof (Permutation_length H1). pose proof (Permutation_length H2).
  apply app_inj_1 in E as [<- E]; [|lia]. apply app_inj_1 in E as [<- <-]; [|lia].
  exists p1, s1, s2', q1. split_and!; try done. by rewrite H1.
Qed.

Lemma seg_perm_length lo hi buf buf' : seg_perm lo hi buf buf' -> length buf' = length buf.
Proof.
  intros (p & s & s' & q & -> & -> & _ & _ & H). rewrite !length_app, (Permutation_length H). done.
Qed.

Lemma seg_perm_Permutation lo hi buf buf' : seg_perm lo hi buf buf' -> buf ≡ₚ buf'.
Proof. intros (p & s & s' & q & -> & -> & _ & _ & H). by rewrite H. Qed.

Lemma seg_perm_out lo hi buf buf' k :
  seg_perm lo hi buf buf' -> 0 <= k -> k < lo \/ hi < k -> cell buf' k = cell buf k.
Proof.
  intros (p & s & s' & q & -> & -> & Hp & Hs & H) Hk Hout. unfold cell.
  pose proof (Permutation_length H).
  destruct (decide (k < lo)).
  - rewrite !lookup_app_l by lia. done.
  - rewrite !(lookup_app_r p) by lia. rewrite !lookup_app_r by lia. f_equal. lia.
Qed.

Lemma seg_perm_in lo hi buf buf' k x :
  seg_perm lo hi buf buf' -> lo <= k <= hi -> cell buf' k = Some x ->
  exists k', lo <= k' <= hi /\ cell buf k' = Some x.
Proof.
  intros (p & s & s' & q & -> & -> & Hp & Hs & H) Hk Hx. unfold cell in *.
  pose proof (Permutation_length H).
  rewrite lookup_app_r, lookup_app_l in Hx by lia.
  apply list_elem_of_lookup_2 in Hx. rewrite <- H in Hx.
  apply list_elem_of_lookup_1 in Hx as [n Hn]. pose proof (lookup_lt_Some _ _ _ Hn).
  exists (lo + Z.of_nat n). split; [lia|].
  rewrite lookup_app_r, lookup_app_l by lia. rewrite <- Hn. f_equal. lia.
Qed.

Lemma seg_perm_widen lo hi lo' hi' buf buf' :
  seg_perm lo hi buf buf' -> 0 <= lo' <= lo -> hi <= hi' < Z.of_nat (length buf) ->
  seg_perm lo' hi' buf buf'.
Proof.
  intros (p & s & s' & q & -> & -> & Hp & Hs & H) Hlo Hhi. rewrite !length_app in Hhi.
  exists (take (Z.to_nat lo') p), (drop (Z.to_nat lo') p ++ s ++ take (Z.to_nat (hi' - hi)) q),
    (drop (Z.to_nat lo') p ++ s' ++ take (Z.to_nat (hi' - hi)) q), (drop (Z.to_nat (hi' - hi)) q).
  split_and!.
  - rewrite <- !app_assoc, take_drop. rewrite (app_assoc (take _ p)), take_drop. done.
  - rewrite <- !app_assoc, take_drop. rewrite (app_assoc (take _ p)), take_drop. done.
  - rewrite length_take. lia.
  - rewrite !length_app, length_drop, length_take. lia.
  - by rewrite H.
Qed.

(** Swapping two cells. *)
Definition swapped i j buf buf' : Prop :=
  exists a b, cell buf i = Some a /\ cell buf j = Some b /\
  buf' = <[Z.to_nat j := a]> (<[Z.to_nat i := b]> buf).

Lemma swapped_cell i j buf buf' k :
  swapped i j buf buf' -> 0 <= i -> 0 <= j -> 0 <= k ->
  cell buf' k = if decide (k = j) then cell buf i else if decide (k = i) then cell buf j else cell buf k.
Proof.
  intros (a & b & Ha & Hb & ->) Hi Hj Hk. unfold cell in *.
  pose proof (lookup_lt_Some _ _ _ Ha). pose proof (lookup_lt_Some _ _ _ Hb).
  destruct (decide (k = j)) as [->|Hkj].
  - rewrite list_lookup_insert_eq by (rewrite length_insert; lia). done.
  - rewrite list_lookup_insert_ne by lia.
    destruct (decide (k = i)) as [->|Hki].
    + rewrite list_lookup_insert_eq by lia. done.
    + by rewrite list_lookup_insert_ne by lia.
Qed.

Lemma insert_swap_perm (l : list T) (i j : nat) (a b : T) :
  l !! i = Some a -> l !! j = Some b -> <[j := a]> (<[i := b]> l) ≡ₚ l.
Proof.
  intros Hi Hj. destruct (decide (i = j)) as [->|Hne].
  - simplify_eq. rewrite list_insert_insert_eq. by rewrite list_insert_id.
  - symmetry. apply Permutation_inj. rewrite !length_insert. split; [done|].
    exists (fun k : nat => if decide (k = i) then j else if decide (k = j) then i else k). split.
    + intros x y. repeat case_decide; congruence.
    + intros k. pose proof (lookup_lt_Some _ _ _ Hi). pose proof (lookup_lt_Some _ _ _ Hj).
      repeat case_decide; subst.
      * rewrite list_lookup_insert_eq by (rewrite length_insert; lia). done.
      * rewrite list_lookup_insert_ne, list_lookup_insert_eq by lia. done.
      * rewrite !list_lookup_insert_ne by lia. done.
Qed.

Lemma swapped_seg_perm i j lo hi buf buf' :
  swapped i j buf buf' -> in_seg lo hi buf -> lo <= i <= hi -> lo <= j <= hi -> seg_perm lo hi buf buf'.
Proof.
  intros (a & b & Ha & Hb & ->) Hin Hi Hj. unfold cell in *.
  destruct (seg_perm_refl _ _ _ Hin) as (p & s & s' & q & -> & _ & Hp & Hs & _).
  destruct Hin as (H1 & H2 & H3).
  rewrite lookup_app_r, lookup_app_l in Ha, Hb by lia.
  exists p, s, (<[Z.to_nat j - length p := a]> (<[Z.to_nat i - length p := b]> s))%nat, q.
  split_and!; try done.
  - rewrite !(insert_app_r_alt p) by lia.
    rewrite !(insert_app_l s) by (rewrite ?length_insert; lia).
    rewrite insert_app_l by (rewrite length_insert; lia). done.
  - symmetry. by apply insert_swap_perm.
Qed.
End segments.

(** ** Compare-and-swap *)

Section cmp_swap.
Context {T : Type} (cmp : T -> T -> bool) `{!StrictWeak cmp}.
Implicit Types (buf : list T) (i j : Z).

(** [y] is not ordered before [x]. *)
Definition cle (x y : T) : Prop := cmp y x = false.

Lemma cle_refl x : cle x x.
Proof. apply cmp_irrefl. Qed.

Lemma cle_trans x y z : cle x y -> cle y z -> cle x z.
Proof.
  unfold cle. intros H1 H2. destruct (cmp z x) eqn:E; [|done].
  destruct (cmp_split z y x E); congruence.
Qed.

Lemma cmp_cle x y : cmp x y = true -> cle x y.
Proof.
  unfold cle. intros H. destruct (cmp y x) eqn:E; [|done].
  pose proof (cmp_trans _ _ _ H E). by rewrite cmp_irrefl in H0.
Qed.

Lemma SORT_CMP_SWAP_spec buf i j :
  0 <= i < Z.of_nat (length buf) -> 0 <= j < Z.of_nat (length buf) -> i <> j ->
  exists buf' a b, SORT_CMP_SWAP cmp buf i j = Some buf' /\
  cell buf' i = Some a /\ cell buf' j = Some b /\ cle a b /\
  (buf' = buf \/ swapped i j buf buf').
Proof using Type*.
  intros Hi Hj Hij. unfold SORT_CMP_SWAP.
  destruct (rdz_Some buf i Hi) as (a & -> & Ha). destruct (rdz_Some buf j Hj) as (b & -> & Hb). simpl.
  rewrite (wrz_Some buf) by lia. simpl. rewrite wrz_Some by (rewrite length_insert; lia).
  destruct (cmp a b) eqn:E.
  - exists buf, a, b. rewrite (list_insert_id buf), list_insert_id by done.
    split_and!; try done; [by apply cmp_cle|by left].
  - exists (<[Z.to_nat j := a]> (<[Z.to_nat i := b]> buf)), b, a. unfold cell.
    rewrite list_lookup_insert_ne by lia. rewrite list_lookup_insert_eq by lia.
    rewrite list_lookup_insert_eq by (rewrite length_insert; lia).
    split_and!; try done. right. by exists a, b.
Qed.

Lemma SORT_CMP_SWAP_perm buf i j lo hi buf' :
  SORT_CMP_SWAP cmp buf i j = Some buf' -> in_seg lo hi buf ->
  lo <= i <= hi -> lo <= j <= hi -> i <> j -> seg_perm lo hi buf buf'.
Proof using Type*.
  intros E (H1 & H2 & H3) Hi Hj Hij.
  destruct (SORT_CMP_SWAP_spec buf i j) as (buf2 & a & b & E2 & _ & _ & _ & [->|Hs]); try lia.
  - assert (buf' = buf) as -> by congruence. by apply seg_perm_refl.
  - assert (buf' = buf2) as -> by congruence. by apply (swapped_seg_perm i j).
Qed.
End cmp_swap.

(** ** The networks sort: the zero-one principle *)

Definition cmpb (x y : bool) : bool := negb x && y.

Definition sorted_bits (s : list bool) : bool :=
  forallb (fun '(x, y) => implb x y) (zip s (tail s)).

Fixpoint all_bits (n : nat) : list (list bool) :=
  match n with
  | O => [[]]
  | S n => map (cons false) (all_bits n) ++ map (cons true) (all_bits n)
  end.

Definition network_in (n : Z) (net : list (Z * Z)) : bool :=
  forallb (fun '(i, j) => (0 <=? i) && (i <? n) && (0 <=? j) && (j <? n) && negb (i =? j)) net.

Definition network_sorts_bits (n : nat) (net : list (Z * Z)) : bool :=
  forallb (fun s => match run_network cmpb net s 0 with
                    | Some s' => sorted_bits s' | None => false end) (all_bits n).

Lemma all_bits_spec (s : list bool) : s ∈ all_bits (length s).
Proof.
  induction s as [|b s IH]; simpl; [by left|].
  apply elem_of_app. destruct b; [right|left]; apply list_elem_of_fmap; eauto.
Qed.

Lemma sorted_bits_lookup (s : list bool) (i j : nat) :
  sorted_bits s = true -> (i <= j)%nat -> s !! i = Some true -> s !! j = Some false -> False.
Proof.
  revert i j. induction s as [|x s IH]; intros i j Hs Hij Hi Hj; [by destruct i|].
  destruct s as [|y s].
  { destruct i as [|i]; [|by destruct i]. destruct j as [|j]; [congruence|by destruct j]. }
  unfold sorted_bits in Hs. simpl in Hs. apply andb_prop in Hs as [Hxy Hs].
  destruct j as [|j]; [replace i with 0%nat in Hi by lia; congruence|].
  destruct i as [|i]; simpl in *; simplify_eq.
  - destruct y; [|done]. apply (IH 0%nat j); (done || lia).
  - apply (IH i j); (done || lia).
Qed.

Section zero_one.
Context {T : Type} (cmp : T -> T -> bool) `{!StrictWeak cmp}.

Lemma rdz_map {A B} (f : A -> B) (buf : list A) i : rdz (map f buf) i = f <$> rdz buf i.
Proof. unfold rdz, rd. case_decide; [apply list_lookup_fmap|done]. Qed.

Lemma wrz_map {A B} (f : A -> B) (buf : list A) i v : wrz (map f buf) i (f v) = map f <$> wrz buf i v.
Proof.
  unfold wrz, wr. case_decide; [|done]. rewrite length_map. case_decide; [|done].
  simpl. f_equal. symmetry. apply list_fmap_insert.
Qed.

(** [f] respects the order. *)
Definition monotone (f : T -> bool) : Prop := forall a b, cle cmp a b -> f a = true -> f b = true.

Lemma SORT_CMP_SWAP_map (f : T -> bool) buf i j :
  monotone f -> SORT_CMP_SWAP cmpb (map f buf) i j = map f <$> SORT_CMP_SWAP cmp buf i j.
Proof using Type*.
  intros Hf. unfold SORT_CMP_SWAP. rewrite !rdz_map.
  destruct (rdz buf i) as [a|]; [|done]. destruct (rdz buf j) as [b|]; [|done]. simpl.
  assert (forall x y : T, (if cmpb (f a) (f b) then f a else f b) = f x ->
    (if cmpb (f a) (f b) then f b else f a) = f y ->
    (buf' ← wrz (map f buf) i (if cmpb (f a) (f b) then f a else f b);
    wrz buf' j (if cmpb (f a) (f b) then f b else f a)) =
    map f <$> (buf' ← wrz buf i x; wrz buf' j y)) as Hgen.
  { intros x y -> ->. rewrite wrz_map. destruct (wrz buf i x) as [buf'|]; [|done]. simpl. apply wrz_map. }
  apply Hgen; unfold cmpb; destruct (cmp a b) eqn:E.
  - apply cmp_cle in E; [|done]. pose proof (Hf _ _ E). destruct (f a), (f b); naive_solver.
  - pose proof (Hf b a E). destruct (f a), (f b); naive_solver.
  - apply cmp_cle in E; [|done]. pose proof (Hf _ _ E). destruct (f a), (f b); naive_solver.
  - pose proof (Hf b a E). destruct (f a), (f b); naive_solver.
Qed.

Lemma run_network_map (f : T -> bool) net buf begin :
  monotone f -> run_network cmpb net (map f buf) begin = map f <$> run_network cmp net buf begin.
Proof using Type*.
  intros Hf. revert buf. induction net as [|[i j] net IH]; intros buf; simpl; [done|].
  rewrite SORT_CMP_SWAP_map by done. destruct (SORT_CMP_SWAP cmp buf _ _); simpl; auto.
Qed.

Lemma rdz_app (pre s post : list T) i :
  0 <= i < Z.of_nat (length s) -> rdz (pre ++ s ++ post) (Z.of_nat (length pre) + i) = rdz s i.
Proof.
  intros Hi. unfold rdz, rd. rewrite !decide_True by lia.
  rewrite lookup_app_r, lookup_app_l by lia. f_equal. lia.
Qed.

Lemma wrz_app (pre s post : list T) i v :
  0 <= i < Z.of_nat (length s) ->
  wrz (pre ++ s ++ post) (Z.of_nat (length pre) + i) v = (fun s' => pre ++ s' ++ post) <$> wrz s i v.
Proof.
  intros Hi. rewrite !wrz_Some by (rewrite ?length_app; lia). simpl. f_equal.
  rewrite insert_app_r_alt by lia. f_equal. rewrite insert_app_l by lia. do 2 f_equal. lia.
Qed.

Lemma wrz_length {A} (s s' : list A) i v : wrz s i v = Some s' -> length s' = length s.
Proof. unfold wrz, wr. repeat case_decide; intros; simplify_eq. apply length_insert. Qed.

Lemma run_network_app net (pre s post : list T) :
  network_in (Z.of_nat (length s)) net = true ->
  run_network cmp net (pre ++ s ++ post) (Z.of_nat (length pre)) =
  (fun s' => pre ++ s' ++ post) <$> run_network cmp net s 0.
Proof using Type*.
  revert s. induction net as [|[i j] net IH]; intros s Hnet; simpl; [done|].
  simpl in Hnet. apply andb_prop in Hnet as [Hij Hnet].
  assert (0 <= i < Z.of_nat (length s) /\ 0 <= j < Z.of_nat (length s)) as [Hi Hj] by lia.
  unfold SORT_CMP_SWAP. rewrite !Z.add_0_l, !rdz_app by lia.
  destruct (rdz s i) as [a|]; [|done]. destruct (rdz s j) as [b|]; [|done]. simpl.
  rewrite wrz_app by lia. destruct (wrz s i _) as [s1|] eqn:E1; [|done]. simpl.
  pose proof (wrz_length _ _ _ _ E1). rewrite wrz_app by lia.
  destruct (wrz s1 j _) as [s2|] eqn:E2; [|done]. simpl.
  pose proof (wrz_length _ _ _ _ E2). rewrite IH by (by replace (length s2) with (length s) by congruence). done.
Qed.

Lemma run_network_perm net (s : list T) :
  network_in (Z.of_nat (length s)) net = true ->
  exists s', run_network cmp net s 0 = Some s' /\ s ≡ₚ s'.
Proof using Type*.
  revert s. induction net as [|[i j] net IH]; intros s Hnet; [simpl; eauto|].
  cbn [run_network]. rewrite !Z.add_0_l. simpl in Hnet. apply andb_prop in Hnet as [Hij Hnet].
  destruct (SORT_CMP_SWAP_spec cmp s i j) as (s1 & _ & _ & E1 & _); [lia..|].
  rewrite E1. simpl.
  assert (s ≡ₚ s1) as Hp.
  { apply (seg_perm_Permutation 0 (Z.of_nat (length s) - 1)).
    apply (SORT_CMP_SWAP_perm cmp s i j); [done| |lia..]. unfold in_seg. lia. }
  destruct (IH s1) as (s2 & E2 & Hp2); [by rewrite <- (Permutation_length Hp)|].
  exists s2. split; [done|]. by rewrite Hp.
Qed.

(** A network that sorts every string of bits sorts every input. *)
Lemma zero_one_principle net (s : list T) :
  network_in (Z.of_nat (length s)) net = true ->
  network_sorts_bits (length s) net = true ->
  exists s', run_network cmp net s 0 = Some s' /\ s ≡ₚ s' /\
  forall i j x y, (i <= j)%nat -> s' !! i = Some x -> s' !! j = Some y -> cle cmp x y.
Proof using Type*.
  intros Hnet Hbits. destruct (run_network_perm net s Hnet) as (s' & E & Hp).
  exists s'. split_and!; [done|done|]. intros i j x y Hij Hx Hy.
  destruct (cmp y x) eqn:Exy; [|done]. exfalso.
  set (f := fun v => negb (cmp v x)).
  assert (monotone f) as Hf.
  { intros a b Hab. unfold f. rewrite !negb_true_iff. fold (cle cmp x a) (cle cmp x b).
    intros Ha. by apply (cle_trans cmp x a b). }
  unfold network_sorts_bits in Hbits. rewrite forallb_forall in Hbits.
  specialize (Hbits (map f s)). rewrite <- list_elem_of_In in Hbits.
  rewrite run_network_map, E in Hbits by done. simpl in Hbits.
  apply (sorted_bits_lookup (map f s') i j); [|done| |].
  - apply Hbits. rewrite <- (length_map f s). apply all_bits_spec.
  - rewrite list_lookup_fmap, Hx. simpl. unfold f. by rewrite cmp_irrefl.
  - rewrite list_lookup_fmap, Hy. simpl. unfold f. by rewrite Exy.
Qed.
End zero_one.

Lemma SORT_INNER_networks (len : nat) :
  (len <= 8)%nat ->
  exists net, SORT_INNER_network (Z.of_nat len) = Some net /\
  network_in (Z.of_nat len) net = true /\ network_sorts_bits len net = true.
Proof.
  intros H. do 9 (destruct len as [|len]; [eexists; split; [reflexivity|split; vm_compute; reflexivity]|]).
  lia.
Qed.

(** ** The quicksort *)

Section quicksort_spec.
Context {T : Type} (cmp : T -> T -> bool) `{!StrictWeak cmp}.
Implicit Types (buf : list T) (lo hi i j k : Z).

Definition ordered_at buf i j : Prop :=
  forall x y, cell buf i = Some x -> cell buf j = Some y -> cle cmp x y.

Lemma scan_left_spec fuel buf left_ mid hi pv :
  0 <= left_ <= hi -> hi < Z.of_nat (length buf) -> 0 <= mid -> cell buf mid = Some pv ->
  (forall y, cell buf hi = Some y -> cle cmp pv y) -> hi - left_ < Z.of_nat fuel ->
  exists l', scan_left cmp fuel buf left_ mid = Some l' /\ left_ <= l' <= hi /\
  (forall y, cell buf l' = Some y -> cle cmp pv y) /\
  (forall k x, left_ <= k < l' -> cell buf k = Some x -> cle cmp x pv).
Proof using Type*.
  intros Hl Hhi Hm Hpv Hs Hf. revert left_ Hl Hf.
  induction fuel as [|fuel IH]; intros left_ Hl Hf; [lia|]. simpl.
  destruct (rdz_Some buf left_) as (x & -> & Hx); [lia|]. rewrite (rdz_lookup _ _ _ Hm Hpv). simpl.
  destruct (cmp x pv) eqn:E.
  - assert (left_ <> hi) as Hne. { intros ->. specialize (Hs _ Hx). unfold cle in Hs. congruence. }
    destruct (IH (left_ + 1)) as (l' & -> & H1 & H2 & H3); [lia..|].
    exists l'. split_and!; [done|lia|lia|done|]. intros k y Hk Hy.
    destruct (decide (k = left_)) as [->|]; [|apply (H3 k); [lia|done]].
    unfold cell in Hy. rewrite Hx in Hy. injection Hy as <-. by apply cmp_cle.
  - exists left_. split_and!; [done|lia|lia| |lia]. intros y Hy.
    unfold cell in Hy. rewrite Hx in Hy. by injection Hy as <-.
Qed.

Lemma scan_right_spec fuel buf right_ mid lo pv :
  0 <= lo <= right_ -> right_ < Z.of_nat (length buf) -> 0 <= mid -> cell buf mid = Some pv ->
  (forall y, cell buf lo = Some y -> cle cmp y pv) -> right_ - lo < Z.of_nat fuel ->
  exists r', scan_right cmp fuel buf right_ mid = Some r' /\ lo <= r' <= right_ /\
  (forall y, cell buf r' = Some y -> cle cmp y pv) /\
  (forall k x, r' < k <= right_ -> cell buf k = Some x -> cle cmp pv x).
Proof using Type*.
  intros Hr Hlen Hm Hpv Hs Hf. revert right_ Hr Hlen Hf.
  induction fuel as [|fuel IH]; intros right_ Hr Hlen Hf; [lia|]. simpl.
  rewrite (rdz_lookup _ _ _ Hm Hpv). destruct (rdz_Some buf right_) as (x & -> & Hx); [lia|]. simpl.
  destruct (cmp pv x) eqn:E.
  - assert (right_ <> lo) as Hne. { intros ->. specialize (Hs _ Hx). unfold cle in Hs. congruence. }
    destruct (IH (right_ - 1)) as (r' & -> & H1 & H2 & H3); [lia..|].
    exists r'. split_and!; [done|lia|lia|done|]. intros k y Hk Hy.
    destruct (decide (k = right_)) as [->|]; [|apply (H3 k); [lia|done]].
    unfold cell in Hy. rewrite Hx in Hy. injection Hy as <-. by apply cmp_cle.
  - exists right_. split_and!; [done|lia|lia| |lia]. intros y Hy.
    unfold cell in Hy. rewrite Hx in Hy. by injection Hy as <-.
Qed.

Lemma SORT_SWAP_spec buf i j :
  0 <= i < Z.of_nat (length buf) -> 0 <= j < Z.of_nat (length buf) ->
  exists buf', SORT_SWAP buf i j = Some buf' /\ swapped i j buf buf'.
Proof.
  intros Hi Hj. unfold SORT_SWAP.
  destruct (rdz_Some buf i Hi) as (a & -> & Ha). destruct (rdz_Some buf j Hj) as (b & -> & Hb). simpl.
  rewrite (wrz_Some buf) by lia. simpl. rewrite wrz_Some by (rewrite length_insert; lia).
  eexists. split; [done|]. by exists a, b.
Qed.

Lemma seg_perm_in_seg lo hi buf buf' : seg_perm lo hi buf buf' -> in_seg lo hi buf -> in_seg lo hi buf'.
Proof. intros H. unfold in_seg. by rewrite (seg_perm_length _ _ _ _ H). Qed.

(** The partition of [lo .. hi] around the value [pv], which is at [mid]. *)
Record partitioning lo hi (pv : T) buf0 buf left_ right_ mid : Prop := {
  part_perm : seg_perm lo hi buf0 buf;
  part_mid : lo <= mid <= hi /\ cell buf mid = Some pv;
  part_left : lo < left_ <= hi;
  part_right : lo <= right_ < hi;
  part_low k x : lo <= k < left_ -> cell buf k = Some x -> cle cmp x pv;
  part_high k x : right_ < k <= hi -> cell buf k = Some x -> cle cmp pv x
}.

Lemma partition_swap lo hi pv buf0 buf left_ right_ mid :
  in_seg lo hi buf0 -> partitioning lo hi pv buf0 buf left_ right_ mid -> left_ <= right_ ->
  (forall y, cell buf left_ = Some y -> cle cmp pv y) ->
  (forall y, cell buf right_ = Some y -> cle cmp y pv) ->
  exists buf', SORT_SWAP buf left_ right_ = Some buf' /\
  partitioning lo hi pv buf0 buf' (left_ + 1) (right_ - 1)
  (if decide (mid = left_) then right_ else if decide (mid = right_) then left_ else mid).
Proof.
  intros Hin [Hp [Hm Hpv] Hl Hr Hlow Hhigh] Hlr Hyl Hyr.
  pose proof (seg_perm_length _ _ _ _ Hp) as Hlen. destruct Hin as (Hin1 & Hin2 & Hin3).
  destruct (SORT_SWAP_spec buf left_ right_) as (buf' & -> & Hs); [lia..|].
  exists buf'. split; [done|].
  assert (forall k, 0 <= k -> cell buf' k = if decide (k = right_) then cell buf left_
    else if decide (k = left_) then cell buf right_ else cell buf k) as Hc.
  { intros k Hk. apply (swapped_cell left_ right_); (done || lia). }
  split; [| |lia|lia| |].
  - apply (seg_perm_trans _ _ _ buf); [done|]. apply (swapped_seg_perm left_ right_); [done| |lia..].
    unfold in_seg. lia.
  - split; [repeat case_decide; lia|]. rewrite Hc by (repeat case_decide; lia).
    rewrite <- Hpv. repeat case_decide; subst; congruence || lia.
  - intros k x Hk Hx. rewrite Hc in Hx by lia. repeat case_decide; subst.
    + replace right_ with left_ in * by lia. by apply Hyr.
    + by apply Hyr.
    + apply (Hlow k); [lia|done].
  - intros k x Hk Hx. rewrite Hc in Hx by lia. repeat case_decide; subst.
    + by apply Hyl.
    + replace left_ with right_ in * by lia. by apply Hyl.
    + apply (Hhigh k); [lia|done].
Qed.

Lemma partition_loop_spec fuel lo hi pv buf0 buf left_ right_ mid :
  in_seg lo hi buf0 -> partitioning lo hi pv buf0 buf left_ right_ mid ->
  hi - left_ < Z.of_nat fuel -> right_ - lo < Z.of_nat fuel ->
  exists buf' l r m, partition_loop cmp fuel buf left_ right_ mid = Some (buf', l, r) /\
  r < l /\ partitioning lo hi pv buf0 buf' l r m.
Proof using Type*.
  intros Hin. revert buf left_ right_ mid.
  induction fuel as [|fuel IH]; intros buf left_ right_ mid HI Hf1 Hf2.
  { destruct HI as [_ _ ? ? _ _]. lia. }
  pose proof HI as [Hp [Hm Hpv] Hl Hr Hlow Hhigh].
  pose proof (seg_perm_length _ _ _ _ Hp) as Hlen. pose proof Hin as (Hin1 & Hin2 & Hin3).
  cbn [partition_loop].
  destruct (scan_left_spec (S fuel) buf left_ mid hi pv) as (l & -> & L1 & L2 & L3);
    [lia|lia|lia|done|intros y; apply Hhigh; lia|lia|].
  destruct (scan_right_spec (S fuel) buf right_ mid lo pv) as (r & -> & R1 & R2 & R3);
    [lia|lia|lia|done|intros y; apply Hlow; lia|lia|]. cbn [mbind option_bind].
  assert (partitioning lo hi pv buf0 buf l r mid) as HI'.
  { split; [done|done|lia|lia| |].
    - intros k x Hk. destruct (decide (k < left_)); [apply Hlow; lia|apply L3; lia].
    - intros k x Hk. destruct (decide (right_ < k)); [apply Hhigh; lia|apply R3; lia]. }
  case_decide as Hlr; [exists buf, l, r, mid; split_and!; [done|lia|done]|].
  destruct (partition_swap lo hi pv buf0 buf l r mid) as (buf' & -> & HI2); [done..|lia|done|done|].
  apply (IH buf' (l + 1) (r - 1)); [exact HI2|lia|lia].
Qed.

Lemma partition_step_spec buf lo hi :
  in_seg lo hi buf -> 8 <= hi - lo ->
  exists buf' l r, partition_step cmp buf lo hi = Some (buf', l, r) /\
  seg_perm lo hi buf buf' /\ r < l /\ lo < l <= hi /\ lo <= r < hi /\
  (forall i j, lo <= i < l -> r < j <= hi -> ordered_at buf' i j).
Proof using Type*.
  intros Hin Hlen. pose proof Hin as (H1 & H2 & H3). unfold partition_step.
  set (mid := lo + Z.shiftr (hi - lo) 1).
  assert (lo < mid < hi) as Hmid.
  { subst mid. rewrite Z.shiftr_div_pow2 by lia. change (2 ^ 1) with 2.
    pose proof (Z.div_mod (hi - lo) 2 ltac:(lia)). pose proof (Z.mod_pos_bound (hi - lo) 2 ltac:(lia)). lia. }
  clearbody mid.
  destruct (SORT_CMP_SWAP_spec cmp buf lo mid) as (b1 & x1 & y1 & E1 & C1 & D1 & L1 & _); [lia..|].
  pose proof (SORT_CMP_SWAP_perm cmp _ _ _ lo hi _ E1 Hin ltac:(lia) ltac:(lia) ltac:(lia)) as P1.
  pose proof (seg_perm_length _ _ _ _ P1). pose proof (seg_perm_in_seg _ _ _ _ P1 Hin) as Hin1.
  destruct (SORT_CMP_SWAP_spec cmp b1 mid hi) as (b2 & x2 & y2 & E2 & C2 & D2 & L2 & Hb2); [lia..|].
  pose proof (SORT_CMP_SWAP_perm cmp _ _ _ lo hi _ E2 Hin1 ltac:(lia) ltac:(lia) ltac:(lia)) as P2.
  pose proof (seg_perm_length _ _ _ _ P2). pose proof (seg_perm_in_seg _ _ _ _ P2 Hin1) as Hin2.
  destruct (SORT_CMP_SWAP_spec cmp b2 lo mid) as (b3 & x3 & y3 & E3 & C3 & D3 & L3 & Hb3); [lia..|].
  pose proof (SORT_CMP_SWAP_perm cmp _ _ _ lo hi _ E3 Hin2 ltac:(lia) ltac:(lia) ltac:(lia)) as P3.
  rewrite E1. simpl. rewrite E2. simpl. rewrite E3. simpl.
  (* the pivot is the middle one of the three: it is not above the cell [hi] *)
  assert (cell b2 lo = Some x1 /\ cle cmp x1 y2) as [C2' L12].
  { destruct Hb2 as [->|Hs].
    - rewrite D1 in C2. injection C2 as ->. split; [done|]. by apply (cle_trans cmp x1 x2 y2).
    - rewrite (swapped_cell mid hi b1 b2) by (done || lia).
      rewrite (swapped_cell mid hi b1 b2 hi), decide_True in D2 by (done || lia).
      rewrite D1 in D2. injection D2 as ->. rewrite !decide_False by lia. done. }
  assert (forall y, cell b3 hi = Some y -> cle cmp y3 y) as Hhi.
  { intros y Hy. destruct Hb3 as [->|Hs].
    - rewrite C2 in D3. injection D3 as <-. rewrite D2 in Hy. by injection Hy as <-.
    - rewrite (swapped_cell lo mid b2 b3 hi), !decide_False, D2 in Hy by (done || lia).
      rewrite (swapped_cell lo mid b2 b3 mid), decide_True, C2' in D3 by (done || lia).
      injection D3 as <-. by injection Hy as <-. }
  destruct (partition_loop_spec (Z.to_nat (hi - lo + 2)) lo hi y3 buf b3 (lo + 1) (hi - 1) mid)
    as (buf' & l & r & m & -> & Hlr & [Hp _ Hl Hr Hlow Hhigh]); [done| |lia|lia|].
  - split; [|by split; [lia|]|lia|lia| |].
    + by eapply seg_perm_trans, seg_perm_trans.
    + intros k x Hk Hx. replace k with lo in Hx by lia. rewrite C3 in Hx. by injection Hx as <-.
    + intros k x Hk Hx. replace k with hi in Hx by lia. by apply Hhi.
  - exists buf', l, r. split_and!; try done; try lia.
    intros i j Hi Hj x y Hx Hy. apply (cle_trans cmp x y3 y); [by apply (Hlow i)|by apply (Hhigh j)].
Qed.
End quicksort_spec.

(** ** The loop with the explicit stack *)

Section sort_loop_spec.
Context {T : Type} (cmp : T -> T -> bool) `{!StrictWeak cmp}.
Implicit Types (buf : list T) (lo hi i j k : Z) (segs : list (Z * Z)).

Definition seg_in (s : Z * Z) k : Prop := s.1 <= k <= s.2.
Definition seg_disj (s t : Z * Z) : Prop := forall k, ~ (seg_in s k /\ seg_in t k).
Definition seg_size (s : Z * Z) : Z := s.2 - s.1 + 1.

(** The segments [segs] are disjoint parts of [begin .. end_ - 1], and two
    cells which are not in a common segment of [segs] are in order already. *)
Record pending (begin end_ : Z) buf segs : Prop := {
  pend_range : 0 <= begin /\ end_ <= Z.of_nat (length buf);
  pend_in : Forall (fun s => begin <= s.1 /\ s.2 < end_ /\ 0 <= seg_size s) segs;
  pend_disj : ForallOrdPairs seg_disj segs;
  pend_ord i j : begin <= i -> i < j -> j < end_ ->
    Exists (fun s => seg_in s i /\ seg_in s j) segs \/ ordered_at cmp buf i j
}.

Lemma pending_step begin end_ buf buf' lo hi segs new :
  pending begin end_ buf ((lo, hi) :: segs) ->
  seg_perm lo hi buf buf' ->
  Forall (fun s => lo <= s.1 /\ s.2 <= hi /\ 0 <= seg_size s) new ->
  ForallOrdPairs seg_disj new ->
  (forall i j, lo <= i -> i < j -> j <= hi ->
    Exists (fun s => seg_in s i /\ seg_in s j) new \/ ordered_at cmp buf' i j) ->
  pending begin end_ buf' (new ++ segs).
Proof.
  intros [Hr Hin Hd Ho] Hp Hnew Hnd Hno.
  apply Forall_cons in Hin as [(Hlo & Hhi & Hsz) Hin]. unfold seg_size in Hsz. simpl in *.
  inversion Hd as [|? ? Hd1 Hd2]; subst.
  split.
  - by rewrite (seg_perm_length _ _ _ _ Hp).
  - apply Forall_app. split; [|exact Hin]. eapply Forall_impl; [exact Hnew|]. simpl. lia.
  - clear Hno. induction new as [|s new IH]; simpl; [done|].
    apply Forall_cons in Hnew as [Hs Hnew]. inversion Hnd; subst. constructor; [|by apply IH].
    apply Forall_app. split; [assumption|]. eapply Forall_impl; [exact Hd1|].
    intros t Ht k [Hk1 Hk2]. apply (Ht k). split; [|done]. unfold seg_in in *. simpl. lia.
  - intros i j Hi Hij Hj. rewrite Exists_app.
    (* a cell of the segment comes from a cell of the segment *)
    assert (forall k s, s ∈ segs -> seg_in s k -> lo <= k <= hi -> False) as Hout.
    { intros k s Hs Hk Hk'. rewrite Forall_forall in Hd1. by apply (Hd1 s Hs k). }
    destruct (decide (lo <= i <= hi)) as [Hsi|Hsi]; destruct (decide (lo <= j <= hi)) as [Hsj|Hsj].
    + destruct (Hno i j) as [?|?]; [lia..|by left; left|by right].
    + right. intros x y Hx Hy. destruct (seg_perm_in _ _ _ _ _ _ Hp Hsi Hx) as (i' & Hi' & Hx').
      rewrite (seg_perm_out _ _ _ _ j Hp) in Hy by lia.
      destruct (Ho i' j) as [He|He]; [lia..| |by apply He].
      apply Exists_exists in He as (s & [->|Hs]%elem_of_cons & H1 & H2).
      * unfold seg_in in H2. simpl in H2. lia.
      * exfalso. exact (Hout i' s Hs H1 Hi').
    + right. intros x y Hx Hy. destruct (seg_perm_in _ _ _ _ _ _ Hp Hsj Hy) as (j' & Hj' & Hy').
      rewrite (seg_perm_out _ _ _ _ i Hp) in Hx by lia.
      destruct (Ho i j') as [He|He]; [lia..| |by apply He].
      apply Exists_exists in He as (s & [->|Hs]%elem_of_cons & H1 & H2).
      * unfold seg_in in H1. simpl in H1. lia.
      * exfalso. exact (Hout j' s Hs H2 Hj').
    + destruct (Ho i j) as [He|He]; [lia..| |].
      * left. right. apply Exists_cons in He as [[H1 H2]|He]; [|done].
        unfold seg_in in H1. simpl in H1. lia.
      * right. intros x y. rewrite !(seg_perm_out _ _ _ _ _ Hp) by lia. apply He.
Qed.

(** The depth of the stack: a segment below [k] others is at most [n / 2 ^ k] long. *)
Fixpoint stack_ok (n : Z) segs : Prop :=
  match segs with
  | [] => True
  | s :: segs => seg_size s * 2 ^ Z.of_nat (length segs) <= n /\ stack_ok n segs
  end.

Fixpoint potential segs : Z :=
  match segs with
  | [] => 0
  | s :: segs => Z.max 1 (2 * seg_size s - 1) + potential segs
  end.

Lemma SORT_PUSH_ok n s segs lo hi :
  stack_ok n (s :: segs) -> 8 <= seg_size s -> n < 2 ^ 64 ->
  SORT_PUSH segs lo hi = Some ((lo, hi) :: segs).
Proof.
  intros [Hs _] H8 Hn. unfold SORT_PUSH. rewrite decide_True; [done|].
  unfold SORT_STACK_LIMIT. destruct (decide (length segs < 64)%nat); [done|].
  assert (2 ^ 64 <= 2 ^ Z.of_nat (length segs)) by (apply Z.pow_le_mono_r; lia). nia.
Qed.

Lemma stack_ok_push n s segs s1 s2 :
  stack_ok n (s :: segs) -> 0 <= seg_size s1 <= seg_size s -> 2 * seg_size s2 <= seg_size s ->
  stack_ok n (s2 :: s1 :: segs).
Proof.
  intros [Hs Hsegs] H1 H2. simpl length. cbn [stack_ok length].
  rewrite Nat2Z.inj_succ, Z.pow_succ_r by lia.
  assert (0 < 2 ^ Z.of_nat (length segs)) by (apply Z.pow_pos_nonneg; lia).
  split_and!; [nia|nia|done].
Qed.

Lemma SORT_INNER_spec buf lo hi :
  in_seg lo hi buf -> hi - lo < 8 ->
  exists buf', SORT_INNER cmp buf lo (hi - lo + 1) = Some buf' /\ seg_perm lo hi buf buf' /\
  forall i j, lo <= i -> i <= j -> j <= hi -> ordered_at cmp buf' i j.
Proof using Type*.
  intros Hin Hlen. destruct (seg_perm_refl _ _ _ Hin) as (p & s & _ & q & -> & _ & Hp & Hs & _).
  destruct (SORT_INNER_networks (length s)) as (net & En & Hnet & Hbits); [lia|].
  destruct (zero_one_principle cmp net s Hnet Hbits) as (s' & E & Hperm & Hsort).
  unfold SORT_INNER. replace (hi - lo + 1) with (Z.of_nat (length s)) by lia.
  rewrite En. simpl. subst lo. rewrite run_network_app by done. rewrite E. simpl.
  eexists. split; [done|]. split; [by exists p, s, s', q|].
  pose proof (Permutation_length Hperm).
  intros i j Hi Hij Hj x y Hx Hy. unfold cell in *.
  rewrite lookup_app_r, lookup_app_l in Hx, Hy by lia. eapply Hsort; [|exact Hx|exact Hy]. lia.
Qed.

Lemma sort_loop_spec fuel begin end_ buf lo hi stack :
  pending begin end_ buf ((lo, hi) :: stack) ->
  stack_ok (end_ - begin) ((lo, hi) :: stack) -> end_ - begin < 2 ^ 64 ->
  potential ((lo, hi) :: stack) <= Z.of_nat fuel ->
  exists buf', sort_loop cmp fuel buf lo hi stack = Some buf' /\ buf ≡ₚ buf' /\
  (forall k, 0 <= k -> k < begin \/ end_ <= k -> cell buf' k = cell buf k) /\
  pending begin end_ buf' [].
Proof using Type*.
  revert buf lo hi stack. induction fuel as [|fuel IH]; intros buf lo hi stack HP HS Hn Hf.
  { exfalso. cbn [potential] in Hf. assert (0 <= potential stack); [|lia].
    clear. induction stack; cbn [potential]; lia. }
  pose proof HP as [[Hr1 Hr2] Hin _ _]. apply Forall_cons in Hin as [(Hb & He & Hsz) _].
  unfold seg_size in Hsz. cbn [fst snd] in Hb, He, Hsz.
  assert (in_seg lo hi buf) as Hseg by (unfold in_seg; lia).
  cbn [sort_loop]. case_decide as H8.
  - destruct (SORT_INNER_spec buf lo hi Hseg H8) as (buf1 & -> & Hp & Hord). cbn [mbind option_bind].
    assert (pending begin end_ buf1 stack) as HP1.
    { apply (pending_step begin end_ buf buf1 lo hi stack []); [done|done|constructor|constructor|].
      intros i j ???. right. apply Hord; lia. }
    assert (forall k, 0 <= k -> k < begin \/ end_ <= k -> cell buf1 k = cell buf k) as Hout.
    { intros k ??. apply (seg_perm_out _ _ _ _ _ Hp); lia. }
    pose proof (seg_perm_Permutation _ _ _ _ Hp).
    destruct stack as [|[lo2 hi2] stack]; [by eauto|].
    destruct (IH buf1 lo2 hi2 stack) as (buf2 & -> & P2 & O2 & HP2); [done|apply HS|done| |].
    { cbn [potential] in *. lia. }
    exists buf2. split_and!; [done|by etransitivity| |done].
    intros k ??. rewrite O2 by done. by apply Hout.
  - destruct (partition_step_spec cmp buf lo hi Hseg) as (buf1 & l & r & -> & Hp & Hlr & Hl & Hr & Hord); [lia|].
    cbn [mbind option_bind].
    assert (forall k, 0 <= k -> k < begin \/ end_ <= k -> cell buf1 k = cell buf k) as Hout.
    { intros k ??. apply (seg_perm_out _ _ _ _ _ Hp); lia. }
    pose proof (seg_perm_Permutation _ _ _ _ Hp).
    assert (forall new, new = [(l, hi); (lo, r)] \/ new = [(lo, r); (l, hi)] ->
      pending begin end_ buf1 (new ++ stack)) as HP1.
    { intros new Hnew. apply (pending_step begin end_ buf buf1 lo hi stack new); [done|done| | |].
      - destruct Hnew as [-> | ->]; repeat constructor; unfold seg_size; simpl; lia.
      - destruct Hnew as [-> | ->]; repeat constructor; unfold seg_disj, seg_in; simpl; lia.
      - intros i j ???. assert (Exists (fun s => seg_in s i /\ seg_in s j) [(l, hi); (lo, r)] \/
          (i < l /\ r < j)) as [Hex|?].
        { rewrite !Exists_cons. unfold seg_in. simpl. lia. }
        + left. destruct Hnew as [-> | ->]; [done|]. rewrite !Exists_cons in *. tauto.
        + right. apply Hord; lia. }
    assert (seg_size (lo, hi) = hi - lo + 1 /\ seg_size (l, hi) = hi - l + 1 /\ seg_size (lo, r) = r - lo + 1)
      as (Z0 & Z1 & Z2) by done.
    case_decide as Hbig; rewrite (SORT_PUSH_ok (end_ - begin) (lo, hi)) by (done || lia); cbn [mbind option_bind].
    + destruct (IH buf1 l hi ((lo, r) :: stack)) as (buf2 & -> & P2 & O2 & HP2).
      * apply (HP1 [(l, hi); (lo, r)]). by left.
      * apply (stack_ok_push _ (lo, hi)); (done || lia).
      * done.
      * cbn [potential] in *. lia.
      * exists buf2. split_and!; [done|by etransitivity| |done].
        intros k ??. rewrite O2 by done. by apply Hout.
    + destruct (IH buf1 lo r ((l, hi) :: stack)) as (buf2 & -> & P2 & O2 & HP2).
      * apply (HP1 [(lo, r); (l, hi)]). by right.
      * apply (stack_ok_push _ (lo, hi)); (done || lia).
      * done.
      * cbn [potential] in *. lia.
      * exists buf2. split_and!; [done|by etransitivity| |done].
        intros k ??. rewrite O2 by done. by apply Hout.
Qed.

Lemma SORT_spec buf begin end_ :
  0 <= begin <= end_ -> end_ <= Z.of_nat (length buf) -> end_ - begin < 2 ^ 64 ->
  exists buf', SORT cmp buf begin end_ = Some buf' /\ buf ≡ₚ buf' /\
  (forall k, 0 <= k -> k < begin \/ end_ <= k -> cell buf' k = cell buf k) /\
  (forall i j, begin <= i -> i < j -> j < end_ -> ordered_at cmp buf' i j).
Proof using Type*.
  intros Hb He Hn. unfold SORT.
  destruct (sort_loop_spec (S (Z.to_nat (2 * (end_ - begin)))) begin end_ buf begin (end_ - 1) [])
    as (buf' & -> & Hp & Hout & [_ _ _ Hord]).
  - split; [lia| | |].
    + repeat constructor; unfold seg_size; simpl; lia.
    + repeat constructor.
    + intros i j ???. left. constructor. unfold seg_in. simpl. lia.
  - cbn [stack_ok length]. unfold seg_size. simpl. lia.
  - done.
  - cbn [potential]. unfold seg_size. simpl. lia.
  - exists buf'. split_and!; [done..|]. intros i j ???.
    destruct (Hord i j) as [He'%Exists_nil|]; done.
Qed.
End sort_loop_spec.

(** ** Property *)

(** Sorting the middle part of a buffer. *)
Lemma SORT_middle {T} (cmp : T -> T -> bool) `{!StrictWeak cmp} (P L Q : list T) :
  Z.of_nat (length L) < 2 ^ 64 ->
  exists N, SORT cmp (P ++ L ++ Q) (Z.of_nat (length P)) (Z.of_nat (length P) + Z.of_nat (length L)) = Some (P ++ N ++ Q) /\
  N ≡ₚ L /\ (forall i j x y, (i < j)%nat -> N !! i = Some x -> N !! j = Some y -> cmp y x = false).
Proof.
  intros Hmax.
  destruct (SORT_spec cmp (P ++ L ++ Q) (Z.of_nat (length P)) (Z.of_nat (length P) + Z.of_nat (length L)))
    as (buf' & E & Hp & Hout & Hord); [lia|rewrite !length_app; lia|lia|].
  destruct (same_outside P L Q buf') as (N & -> & HN).
  - by rewrite <- (Permutation_length Hp).
  - intros k Hk. specialize (Hout (Z.of_nat k) ltac:(lia) ltac:(lia)). unfold cell in Hout. by rewrite Nat2Z.id in Hout.
  - exists N. split; [exact E|]. split.
    + apply Permutation_app_inv_l in Hp. apply Permutation_app_inv_r in Hp. by symmetry.
    + intros i j x y Hij Hi Hj. pose proof (lookup_lt_Some _ _ _ Hi). pose proof (lookup_lt_Some _ _ _ Hj).
      specialize (Hord (Z.of_nat (length P + i)) (Z.of_nat (length P + j)) ltac:(lia) ltac:(lia) ltac:(lia) x y).
      assert (forall k z, (k < length N)%nat -> N !! k = Some z -> cell (P ++ N ++ Q) (Z.of_nat (length P + k)) = Some z) as Hc.
      { intros k z Hk Hz. unfold cell. rewrite Nat2Z.id, lookup_app_r, Nat.add_sub', lookup_app_l by lia. done. }
      by apply Hord; apply Hc.
Qed.

Lemma Zltb_strict_weak : StrictWeak Z.ltb.
Proof. split; intros; [lia|lia|]. destruct (Z.ltb_spec x y); lia. Qed.

(** The quicksort with sorting networks for short segments and an explicit
    stack of 64 entries returns, never leaves its array nor its stack, permutes
    the cells of the array and leaves no later element ordered before an earlier one. *)
Theorem SORT_sorts {T} (cmp : T -> T -> bool) (buf : list T) (begin end_ : Z) :
  StrictWeak cmp -> 0 <= begin <= end_ -> end_ <= Z.of_nat (length buf) -> end_ - begin < 2 ^ 64 ->
  exists buf', SORT cmp buf begin end_ = Some buf' /\ buf ≡ₚ buf' /\
  (forall k, 0 <= k -> k < begin \/ end_ <= k -> cell buf' k = cell buf k) /\
  (forall i j, begin <= i -> i < j -> j < end_ -> ordered_at cmp buf' i j).
Proof. intros Hw. by apply SORT_spec. Qed.

Lemma SORT_sorts_witness :
  exists buf', SORT Z.ltb [7; 3; 9; 1; 8; 2; 6; 5; 4; 0] 1 9 = Some buf' /\ cell buf' 0 = Some 7.
Proof.
  destruct (SORT_sorts Z.ltb [7; 3; 9; 1; 8; 2; 6; 5; 4; 0] 1 9 Zltb_strict_weak) as (b & E & _ & H & _);
    [lia|simpl; lia|lia|]. exists b. split; [exact E|]. apply H; lia.
Defined.
