(* ===== verification/Radix.v ===== *)
(** * The radix sort for large chunks

    [RADIXSORT_IMPL] of mdbx.c, instantiated for page-number lists
    ([pgno_radixsort]) and dirty-page lists ([dp_radixsort]): two passes of a
    counting sort on eight bits per iteration, with an early exit as soon as the
    remaining bits of all keys are equal.  Both instances are built with the
    scratch space preallocated behind the data ([BUFFER_PREALLOCATED] = 1). *)

From S2P Require Import Prelude.

Section operations.
Context {T : Type} (EXTRACT_KEY : T -> Z).

(** [EXTRACT_KEY(r) >> key_shift], and one digit of it as an index. *)
Definition radix_key (key_shift : Z) (x : T) : Z := Z.shiftr (EXTRACT_KEY x) key_shift.
Definition digit_a (key : Z) : nat := Z.to_nat (Z.land key 255).
Definition digit_b (key : Z) : nat := Z.to_nat (Z.land (Z.shiftr key 8) 255).

(** [counters[i]++] on the [pgno_t] counters. *)
Definition counter_inc (c : list Z) (i : nat) : option (list Z) :=
  v ← rd c i; wr c i (u32 (v + 1)).

(** The first [do ... while (++r != end)], over the remaining [n] elements. *)
Fixpoint radix_count (n : nat) (buf : list T) (r : nat) (key_shift : Z)
  (a b : list Z) (key_diff_mask prev_key : Z) : option (list Z * list Z * Z) :=
    match n with
    | O => None
    | S n =>
        x ← rd buf r;
        let key := radix_key key_shift x in
        a ← counter_inc a (digit_a key);
        b ← counter_inc b (digit_b key);
        let key_diff_mask := Z.lor key_diff_mask (Z.lxor prev_key key) in
        match n with
        | O => Some (a, b, key_diff_mask)
        | S _ => radix_count n buf (S r) key_shift a b key_diff_mask key
        end
    end.

(** [for (i = 0; i < 256; ++i)]: the counters become starting positions. *)
Fixpoint radix_starts (n i : nat) (c : list Z) (t : Z) : option (list Z) :=
  match n with
  | O => Some c
  | S n =>
      ic ← rd c i;
      c ← wr c i t;
      radix_starts n (S i) c (u32 (t + ic))
  end.

(** One distribution loop, from the [n] elements at [r] to the ones at [dst]. *)
Fixpoint radix_scatter (n : nat) (buf : list T) (r dst : nat) (key_shift : Z)
  (digit : Z -> nat) (c : list Z) : option (list T) :=
    match n with
    | O => None
    | S n =>
        x ← rd buf r;
        let d := digit (radix_key key_shift x) in
        p ← rd c d;
        buf ← wr buf (dst + Z.to_nat p) x;
        c ← counter_inc c d;
        match n with
        | O => Some buf
        | S _ => radix_scatter n buf (S r) dst key_shift digit c
        end
    end.

Fixpoint radix_loop (fuel : nat) (buf : list T) (begin tmp length : nat) (key_shift : Z)
  : option (list T) :=
  match fuel with
  | O => None
  | S fuel =>
      first ← rd buf begin;
      let zeros := replicate 256 0 in
      '(a, b, key_diff_mask) ← radix_count length buf begin key_shift zeros zeros 0 (radix_key key_shift first);
      a ← radix_starts 256 0 a 0;
      b ← radix_starts 256 0 b 0;
      buf ← radix_scatter length buf begin tmp key_shift digit_a a;
      if decide (key_diff_mask < 256) then blit buf tmp buf begin length
      else
        buf ← radix_scatter length buf tmp begin key_shift digit_b b;
        if decide (Z.shiftr key_diff_mask 16 <> 0)
        then radix_loop fuel buf begin tmp length (key_shift + 16)
        else Some buf
  end.

(** [NAME##_radixsort(begin, length)]; the scratch space starts [END_GAP]
    elements behind the data.  Keys have at most 64 bits: four iterations. *)
Definition radixsort (END_GAP : nat) (buf : list T) (begin length : nat) : option (list T) :=
  radix_loop 4 buf begin (begin + length + END_GAP) length 0.
End operations.

(** ** One distribution pass is a stable bucket sort *)

Section buckets.
Context {T : Type} (dig : T -> nat).
Implicit Types (l : list T) (i n : nat).

Definition bucket i l : list T := filter (fun x => dig x = i) l.

Fixpoint buckets n l : list T :=
  match n with O => [] | S n => buckets n l ++ bucket n l end.

Lemma bucket_app i l1 l2 : bucket i (l1 ++ l2) = bucket i l1 ++ bucket i l2.
Proof. apply filter_app. Qed.

Lemma bucket_cons_eq x l : bucket (dig x) (x :: l) = x :: bucket (dig x) l.
Proof. unfold bucket. by rewrite filter_cons_True. Qed.

Lemma bucket_cons_ne i x l : dig x <> i -> bucket i (x :: l) = bucket i l.
Proof. intros H. unfold bucket. by rewrite filter_cons_False. Qed.

Lemma buckets_cons n x l :
  buckets n (x :: l) ≡ₚ (if decide (dig x < n)%nat then [x] else []) ++ buckets n l.
Proof.
  induction n as [|n IH]; cbn [buckets]; [by rewrite decide_False by lia|].
  rewrite IH. destruct (decide (dig x = n)) as [<-|Hne].
  - rewrite bucket_cons_eq. repeat case_decide; try lia. simpl.
    symmetry. apply Permutation_middle.
  - rewrite bucket_cons_ne by done. repeat case_decide; done || lia.
Qed.

Lemma buckets_perm n l : Forall (fun x => dig x < n)%nat l -> buckets n l ≡ₚ l.
Proof.
  induction l as [|x l IH]; intros Hl.
  - clear Hl. induction n as [|n IHn]; simpl; [done|]. by rewrite IHn.
  - apply Forall_cons in Hl as [Hx Hl]. rewrite buckets_cons, decide_True by done. simpl. by rewrite IH.
Qed.

Lemma buckets_prefix i n l : (i <= n)%nat -> exists t, buckets n l = buckets i l ++ t.
Proof.
  intros H. induction H as [|n H [t IH]]; [exists []; by rewrite app_nil_r|].
  exists (t ++ bucket n l). simpl. by rewrite IH, app_assoc.
Qed.

Lemma buckets_length_le i n l : (i <= n)%nat -> (length (buckets i l) <= length (buckets n l))%nat.
Proof. intros H. destruct (buckets_prefix i n l H) as [t ->]. rewrite length_app. lia. Qed.

Lemma buckets_lookup i n l k :
  (i < n)%nat -> (k < length (bucket i l))%nat ->
  buckets n l !! (length (buckets i l) + k)%nat = bucket i l !! k.
Proof.
  intros Hi Hk. destruct (buckets_prefix (S i) n l Hi) as [t ->]. simpl.
  rewrite lookup_app_l by (rewrite length_app; lia).
  rewrite lookup_app_r by lia. f_equal. lia.
Qed.

(** Every position belongs to one bucket. *)
Lemma buckets_position n l p :
  (p < length (buckets n l))%nat ->
  exists i, (i < n)%nat /\ (length (buckets i l) <= p < length (buckets i l) + length (bucket i l))%nat.
Proof.
  induction n as [|n IH]; simpl; [lia|]. rewrite length_app. intros Hp.
  destruct (decide (p < length (buckets n l))%nat) as [Hlt|Hge].
  - destruct (IH Hlt) as (i & ? & ?). exists i. lia.
  - exists n. lia.
Qed.
End buckets.

Lemma bucket_ext {T} (d1 d2 : T -> nat) i l : (forall x, d1 x = d2 x) -> bucket d1 i l = bucket d2 i l.
Proof. intros H. apply list_filter_iff. intros x. by rewrite H. Qed.

Lemma buckets_ext {T} (d1 d2 : T -> nat) n l : (forall x, d1 x = d2 x) -> buckets d1 n l = buckets d2 n l.
Proof. intros H. induction n as [|n IH]; simpl; [done|]. by rewrite IH, (bucket_ext d1 d2). Qed.

Lemma bucket_length_perm {T} (d : T -> nat) i l1 l2 : l1 ≡ₚ l2 -> length (bucket d i l1) = length (bucket d i l2).
Proof. intros H. apply Permutation_length. unfold bucket. by rewrite H. Qed.

Section sorted_buckets.
Context {T : Type} (key : T -> Z).
Hypothesis key_nonneg : forall x, 0 <= key x.

(** The order of the low [s] bits of the key. *)
Definition low_le (s : Z) (x y : T) : Prop := key x mod 2 ^ s <= key y mod 2 ^ s.

Definition dig_at (s : Z) (x : T) : nat := Z.to_nat (Z.land (Z.shiftr (key x) s) 255).

Lemma dig_at_spec s x : 0 <= s -> Z.of_nat (dig_at s x) = key x / 2 ^ s mod 256 /\ (dig_at s x < 256)%nat.
Proof.
  intros Hs. unfold dig_at. change 255 with (Z.ones 8). rewrite Z.land_ones, Z.shiftr_div_pow2 by lia.
  change (2 ^ 8) with 256. pose proof (Z.mod_pos_bound (key x / 2 ^ s) 256 ltac:(lia)). lia.
Qed.

Lemma low_bits_split s x : 0 <= s ->
  key x mod 2 ^ (s + 8) = key x mod 2 ^ s + 2 ^ s * Z.of_nat (dig_at s x).
Proof.
  intros Hs. destruct (dig_at_spec s x Hs) as [-> _].
  rewrite Z.pow_add_r by lia. change (2 ^ 8) with 256.
  apply Z.rem_mul_r; [|lia]. pose proof (Z.pow_pos_nonneg 2 s). lia.
Qed.

Lemma StronglySorted_filter_weaken {R R' : T -> T -> Prop} (P : T -> Prop) `{forall x, Decision (P x)} l :
  (forall x y, P x -> P y -> R x y -> R' x y) ->
  StronglySorted R l -> StronglySorted R' (filter P l).
Proof.
  intros HR. induction 1 as [|x l Hl IH Hx]; [constructor|].
  destruct (decide (P x)); [rewrite filter_cons_True by done|by rewrite filter_cons_False by done].
  constructor; [done|]. apply Forall_forall. intros y [Hy ?]%list_elem_of_filter.
  rewrite Forall_forall in Hx. auto.
Qed.

Lemma StronglySorted_app_intro {R : T -> T -> Prop} l1 l2 :
  StronglySorted R l1 -> StronglySorted R l2 -> (forall x y, x ∈ l1 -> y ∈ l2 -> R x y) ->
  StronglySorted R (l1 ++ l2).
Proof.
  intros H1 H2 H12. induction H1 as [|x l Hl IH Hx]; simpl; [done|].
  constructor.
  - apply IH. intros y z Hy. apply H12. by right.
  - apply Forall_app. split; [done|]. apply Forall_forall. intros y. apply H12. by left.
Qed.

Lemma buckets_elem n dig (l : list T) x : x ∈ buckets dig n l -> (dig x < n)%nat /\ x ∈ l.
Proof.
  induction n as [|n IH]; simpl; [by intros ?%elem_of_nil|].
  rewrite elem_of_app. unfold bucket. rewrite list_elem_of_filter. intros [[? ?]%IH|[-> ?]]; split; (done || lia).
Qed.

(** A stable bucket sort by the next digit extends the order by eight bits. *)
Lemma buckets_sorted s n l :
  0 <= s -> StronglySorted (low_le s) l -> StronglySorted (low_le (s + 8)) (buckets (dig_at s) n l).
Proof.
  intros Hs Hl. assert (0 < 2 ^ s) by (apply Z.pow_pos_nonneg; lia).
  induction n as [|n IH]; simpl; [constructor|].
  apply StronglySorted_app_intro; [done| |].
  - apply (StronglySorted_filter_weaken (R := low_le s)); [|done].
    intros x y Hx Hy Hxy. unfold low_le in *. rewrite !low_bits_split by done. rewrite Hx, Hy. lia.
  - intros x y [Hx _]%buckets_elem [Hy _]%list_elem_of_filter. unfold low_le.
    rewrite !low_bits_split by done.
    pose proof (Z.mod_pos_bound (key x) (2 ^ s) ltac:(lia)).
    pose proof (Z.mod_pos_bound (key y) (2 ^ s) ltac:(lia)). nia.
Qed.
End sorted_buckets.

(** ** The passes on the buffer *)

Section passes.
Context {T : Type} (EXTRACT_KEY : T -> Z).
Implicit Types (buf l : list T) (c : list Z) (r dst n : nat).

(** The elements [l] are in [buf] from cell [r] on. *)
Definition holds buf r l : Prop :=
  (r + length l <= length buf)%nat /\ forall k, (k < length l)%nat -> buf !! (r + k)%nat = l !! k.

Definition counters c (f : nat -> Z) : Prop := length c = 256%nat /\ forall i, (i < 256)%nat -> c !! i = Some (f i).

Lemma counter_inc_spec c f d :
  counters c f -> (d < 256)%nat -> 0 <= f d < 2 ^ 32 - 1 ->
  exists c', counter_inc c d = Some c' /\ counters c' (fun i => if decide (i = d) then f d + 1 else f i).
Proof.
  intros [Hlen Hc] Hd Hf. unfold counter_inc, rd. rewrite Hc by done. simpl.
  rewrite wr_Some by lia. eexists. split; [done|]. split; [by rewrite length_insert|].
  intros i Hi. unfold u32. rewrite Z.mod_small by lia. case_decide as E.
  - subst. by rewrite list_lookup_insert_eq by lia.
  - rewrite list_lookup_insert_ne by done. by apply Hc.
Qed.

Lemma counters_ext c f g : counters c f -> (forall i, (i < 256)%nat -> f i = g i) -> counters c g.
Proof. intros [H1 H2] H. split; [done|]. intros i Hi. by rewrite <- H, H2. Qed.

Lemma counters_zeros : counters (replicate 256 0) (fun _ => 0).
Proof. split; [apply length_replicate|]. intros i Hi. by apply lookup_replicate_2. Qed.

Section one_pass.
Context (key_shift : Z) (digit : Z -> nat) (l : list T).
Let dig (x : T) : nat := digit (radix_key EXTRACT_KEY key_shift x).
Hypothesis Hdig : forall x, (dig x < 256)%nat.
Hypothesis Hlen : Z.of_nat (length l) < 2 ^ 32.

Lemma buckets_length_le_l i : (i <= 256)%nat -> (length (buckets dig i l) <= length l)%nat.
Proof.
  intros Hi. transitivity (length (buckets dig 256 l)); [by apply buckets_length_le|].
  rewrite (Permutation_length (buckets_perm dig 256 l ltac:(by apply Forall_forall))). done.
Qed.

Lemma radix_starts_spec n i c t :
  (i + n = 256)%nat -> t = Z.of_nat (length (buckets dig i l)) ->
  counters c (fun j => Z.of_nat (length (if decide (j < i)%nat then buckets dig j l else bucket dig j l))) ->
  exists c', radix_starts n i c t = Some c' /\ counters c' (fun j => Z.of_nat (length (buckets dig j l))).
Proof.
  revert i c t. induction n as [|n IH]; intros i c t Hi -> Hc; simpl.
  - exists c. split; [done|]. eapply counters_ext; [exact Hc|]. intros j Hj. simpl. by rewrite decide_True by lia.
  - destruct Hc as [Hc1 Hc2]. unfold rd. rewrite Hc2, decide_False by lia. simpl.
    rewrite wr_Some by lia. simpl. apply IH; [lia| |].
    + pose proof (buckets_length_le_l (S i) ltac:(lia)) as Hle. simpl in Hle. rewrite length_app in Hle.
      unfold u32. rewrite Z.mod_small by lia. simpl. rewrite length_app. lia.
    + split; [by rewrite length_insert|]. intros j Hj. destruct (decide (j = i)) as [->|Hne].
      * rewrite list_lookup_insert_eq, decide_True by lia. done.
      * rewrite list_lookup_insert_ne, Hc2 by lia. repeat case_decide; done || lia.
Qed.

(** The position of the next element of bucket [dig x] after the prefix [P]. *)
Lemma scatter_position P x R :
  l = P ++ x :: R ->
  let p := (length (buckets dig (dig x) l) + length (bucket dig (dig x) P))%nat in
  (p < length l)%nat /\ bucket dig (dig x) l !! length (bucket dig (dig x) P) = Some x.
Proof.
  intros E p. assert (bucket dig (dig x) l = bucket dig (dig x) P ++ x :: bucket dig (dig x) R) as Eb.
  { rewrite E, bucket_app, bucket_cons_eq. done. }
  split.
  - pose proof (buckets_length_le_l (S (dig x)) ltac:(specialize (Hdig x); lia)) as Hle. simpl in Hle.
    rewrite length_app, Eb, length_app in Hle. simpl in Hle. lia.
  - rewrite Eb. rewrite lookup_app_r, Nat.sub_diag by lia. done.
Qed.

Lemma radix_scatter_loop R : forall P buf r dst c,
  l = P ++ R -> R <> [] -> holds buf r R -> (dst + length l <= length buf)%nat ->
  (r + length R <= dst \/ dst + length l <= r)%nat ->
  counters c (fun i => Z.of_nat (length (buckets dig i l) + length (bucket dig i P))) ->
  (forall i k, (i < 256)%nat -> (k < length (bucket dig i P))%nat ->
    buf !! (dst + (length (buckets dig i l) + k))%nat = bucket dig i l !! k) ->
  exists buf', radix_scatter EXTRACT_KEY (length R) buf r dst key_shift digit c = Some buf' /\
  length buf' = length buf /\
  (forall i k, (i < 256)%nat -> (k < length (bucket dig i l))%nat ->
    buf' !! (dst + (length (buckets dig i l) + k))%nat = bucket dig i l !! k) /\
  (forall p, (p < dst \/ dst + length l <= p)%nat -> buf' !! p = buf !! p).
Proof.
  induction R as [|x R IH]; intros P buf r dst c E Hne [Hh1 Hh2] Hdst Hdisj Hc Hfill; [done|].
  cbn [radix_scatter length]. simpl length in *.
  assert (rd buf r = Some x) as Hx.
  { unfold rd. specialize (Hh2 0%nat ltac:(lia)). by rewrite Nat.add_0_r in Hh2. }
  rewrite Hx. cbn [mbind option_bind]. fold (dig x).
  destruct (scatter_position P x R E) as [Hp Hpx].
  set (p := (length (buckets dig (dig x) l) + length (bucket dig (dig x) P))%nat) in *.
  pose proof Hc as [Hc1 Hc2]. unfold rd at 1. rewrite Hc2 by apply Hdig. cbn [mbind option_bind].
  fold p. rewrite Nat2Z.id. rewrite wr_Some by lia. cbn [mbind option_bind].
  destruct (counter_inc_spec c _ (dig x) Hc (Hdig x)) as (c' & -> & Hc').
  { pose proof (Nat2Z.is_nonneg p). fold p. lia. }
  cbn [mbind option_bind].
  assert (forall i k, (i < 256)%nat -> (k < length (bucket dig i (P ++ [x])))%nat ->
    <[(dst + p)%nat := x]> buf !! (dst + (length (buckets dig i l) + k))%nat = bucket dig i l !! k) as Hfill'.
  { intros i k Hi Hk. rewrite bucket_app, length_app in Hk.
    assert (length (bucket dig i P) <= length (bucket dig i l))%nat as HiP.
    { rewrite E, bucket_app, length_app. lia. }
    destruct (decide (i = dig x)) as [->|Hne'].
    - rewrite bucket_cons_eq in Hk. simpl in Hk.
      destruct (decide (k = length (bucket dig (dig x) P))) as [->|].
      + fold p. rewrite list_lookup_insert_eq by lia. done.
      + rewrite list_lookup_insert_ne by lia. apply Hfill; [done|]. simpl in Hk. lia.
    - rewrite bucket_cons_ne in Hk by done. simpl in Hk.
      rewrite list_lookup_insert_ne; [apply Hfill; [done|lia]|].
      assert (length (bucket dig (dig x) P) < length (bucket dig (dig x) l))%nat.
      { by eapply lookup_lt_Some. }
      destruct (decide (i < dig x)%nat).
      + pose proof (buckets_length_le dig (S i) (dig x) l ltac:(lia)) as Hle. simpl in Hle.
        rewrite length_app in Hle. lia.
      + pose proof (buckets_length_le dig (S (dig x)) i l ltac:(lia)) as Hle. simpl in Hle.
        rewrite length_app in Hle. lia. }
  destruct R as [|y R].
  - eexists. split; [done|]. split; [by rewrite length_insert|]. rewrite E in Hfill' |- *.
    split; [exact Hfill'|]. intros q Hq. rewrite <- E in Hq. apply list_lookup_insert_ne. lia.
  - destruct (IH (P ++ [x]) (<[(dst + p)%nat := x]> buf) (S r) dst c') as (buf' & E' & Hl' & Hf' & Ho').
    + by rewrite <- app_assoc.
    + done.
    + split; [rewrite length_insert; simpl in *; lia|]. intros k Hk. simpl length in *.
      rewrite list_lookup_insert_ne by lia. transitivity (buf !! (r + S k)%nat); [f_equal; lia|apply (Hh2 (S k)); lia].
    + by rewrite length_insert.
    + simpl length in *. lia.
    + eapply counters_ext; [exact Hc'|]. intros i Hi. cbv beta. rewrite bucket_app, length_app.
      case_decide as Ei; [subst; rewrite bucket_cons_eq|rewrite bucket_cons_ne by done]; simpl; lia.
    + done.
    + exists buf'. split_and!; [exact E'|by rewrite Hl', length_insert|exact Hf'|].
      intros q Hq. rewrite Ho' by done. apply list_lookup_insert_ne. lia.
Qed.

Lemma radix_scatter_spec buf r dst c :
  l <> [] -> holds buf r l -> (dst + length l <= length buf)%nat ->
  (r + length l <= dst \/ dst + length l <= r)%nat ->
  counters c (fun i => Z.of_nat (length (buckets dig i l))) ->
  exists buf', radix_scatter EXTRACT_KEY (length l) buf r dst key_shift digit c = Some buf' /\
  length buf' = length buf /\ holds buf' dst (buckets dig 256 l) /\
  (forall p, (p < dst \/ dst + length l <= p)%nat -> buf' !! p = buf !! p).
Proof.
  intros Hne Hh Hdst Hdisj Hc.
  assert (length (buckets dig 256 l) = length l) as Hlb.
  { apply Permutation_length, buckets_perm. by apply Forall_forall. }
  destruct (radix_scatter_loop l [] buf r dst c) as (buf' & E & Hl & Hf & Ho); try done.
  - eapply counters_ext; [exact Hc|]. intros i Hi. simpl. lia.
  - intros i k Hi Hk. simpl in Hk. lia.
  - exists buf'. split_and!; [done|done| |done]. split; [lia|]. intros k Hk.
    destruct (buckets_position dig 256 l k) as (i & Hi & Hik); [lia|].
    replace k with (length (buckets dig i l) + (k - length (buckets dig i l)))%nat by lia.
    rewrite Hf by lia. symmetry. apply buckets_lookup; lia.
Qed.
End one_pass.
End passes.

(** ** The whole sort *)

Section radix_spec.
Context {T : Type} (EXTRACT_KEY : T -> Z).
Hypothesis key_range : forall x, 0 <= EXTRACT_KEY x < 2 ^ 64.
Implicit Types (buf l R : list T) (r : nat) (s : Z).

Abbreviation rkey := (radix_key EXTRACT_KEY).

Lemma digit_a_dig s x : digit_a (rkey s x) = dig_at EXTRACT_KEY s x.
Proof. done. Qed.

Lemma digit_b_dig s x : 0 <= s -> digit_b (rkey s x) = dig_at EXTRACT_KEY (s + 8) x.
Proof. intros Hs. unfold digit_b, dig_at, radix_key. rewrite Z.shiftr_shiftr by lia. done. Qed.

Lemma dig_lt s x : (dig_at EXTRACT_KEY s x < 256)%nat.
Proof.
  unfold dig_at. change 255 with (Z.ones 8). rewrite Z.land_ones by lia.
  pose proof (Z.mod_pos_bound (Z.shiftr (EXTRACT_KEY x) s) (2 ^ 8) ltac:(lia)). change (2 ^ 8) with 256 in *. lia.
Qed.

Lemma shiftr_mask_zero mask prev key m :
  Z.shiftr (Z.lor mask (Z.lxor prev key)) m = 0 <-> Z.shiftr mask m = 0 /\ Z.shiftr key m = Z.shiftr prev m.
Proof.
  rewrite Z.shiftr_lor, Z.lor_eq_0_iff, Z.shiftr_lxor, Z.lxor_eq_0_iff. intuition congruence.
Qed.

Lemma radix_count_spec s R : forall buf r a b fa fb mask prev,
  0 <= s -> R <> [] -> holds buf r R -> counters a fa -> counters b fb ->
  (forall i, 0 <= fa i /\ 0 <= fb i /\ fa i + Z.of_nat (length R) < 2 ^ 32 /\ fb i + Z.of_nat (length R) < 2 ^ 32) ->
  exists a' b' mask', radix_count EXTRACT_KEY (length R) buf r s a b mask prev = Some (a', b', mask') /\
  counters a' (fun i => fa i + Z.of_nat (length (bucket (dig_at EXTRACT_KEY s) i R))) /\
  counters b' (fun i => fb i + Z.of_nat (length (bucket (dig_at EXTRACT_KEY (s + 8)) i R))) /\
  (forall m, Z.shiftr mask' m = 0 <-> Z.shiftr mask m = 0 /\
    forall x, x ∈ R -> Z.shiftr (rkey s x) m = Z.shiftr prev m).
Proof.
  induction R as [|x R IH]; intros buf r a b fa fb mask prev Hs Hne [Hh1 Hh2] Ha Hb Hf; [done|].
  cbn [radix_count length]. simpl length in *.
  assert (rd buf r = Some x) as Hx.
  { unfold rd. specialize (Hh2 0%nat ltac:(lia)). by rewrite Nat.add_0_r in Hh2. }
  rewrite Hx. cbn [mbind option_bind]. rewrite digit_a_dig, digit_b_dig by done.
  destruct (counter_inc_spec a fa _ Ha (dig_lt s x)) as (a1 & -> & Ha1).
  { specialize (Hf (dig_at EXTRACT_KEY s x)). lia. }
  destruct (counter_inc_spec b fb _ Hb (dig_lt (s + 8) x)) as (b1 & -> & Hb1).
  { specialize (Hf (dig_at EXTRACT_KEY (s + 8) x)). lia. }
  cbn [mbind option_bind].
  assert (forall (f : nat -> Z) (d : T -> nat) (i : nat) (l : list T), (if decide (i = d x) then f (d x) + 1 else f i)
    + Z.of_nat (length (bucket d i l)) = f i + Z.of_nat (length (bucket d i (x :: l)))) as Hcount.
  { intros f d i l. case_decide as E; [subst; rewrite bucket_cons_eq|rewrite bucket_cons_ne by done]; simpl; lia. }
  destruct R as [|y R].
  - do 3 eexists. split; [done|]. split_and!.
    + eapply counters_ext; [exact Ha1|]. intros i Hi. cbv beta. rewrite <- Hcount. simpl. lia.
    + eapply counters_ext; [exact Hb1|]. intros i Hi. cbv beta. rewrite <- Hcount. simpl. lia.
    + intros m. rewrite shiftr_mask_zero. split.
      * intros [H1 H2]. split; [done|]. by intros z ->%list_elem_of_singleton.
      * intros [H1 H2]. split; [done|]. apply H2. by left.
  - edestruct (IH buf (S r) a1 b1) as (a2 & b2 & mask2 & E & Ha2 & Hb2 & Hm2); [done|done| |exact Ha1|exact Hb1| |].
    + split; [simpl in *; lia|]. intros k Hk.
      transitivity (buf !! (r + S k)%nat); [f_equal; lia|apply (Hh2 (S k)); cbn [length] in *; lia].
    + intros i. cbv beta. pose proof (Hf i). pose proof (Hf (dig_at EXTRACT_KEY s x)).
      pose proof (Hf (dig_at EXTRACT_KEY (s + 8) x)). simpl length in *. repeat case_decide; subst; lia.
    + exists a2, b2, mask2. split; [exact E|]. split_and!.
      * eapply counters_ext; [exact Ha2|]. intros i Hi. cbv beta. by rewrite <- Hcount.
      * eapply counters_ext; [exact Hb2|]. intros i Hi. cbv beta. by rewrite <- Hcount.
      * intros m. rewrite Hm2, shiftr_mask_zero. split.
        -- intros [[H1 H2] H3]. split; [done|]. intros z [->|Hz]%elem_of_cons; [done|]. by rewrite H3.
        -- intros [H1 H2]. assert (Z.shiftr (rkey s x) m = Z.shiftr prev m) as Hxp by (apply H2; by left).
          split; [done|]. intros z Hz. rewrite H2 by by right. done.
Qed.

(** Keys which agree above bit [s] are ordered by their low [s] bits. *)
Lemma low_le_key_le s l :
  0 <= s -> (forall x y, x ∈ l -> y ∈ l -> Z.shiftr (EXTRACT_KEY x) s = Z.shiftr (EXTRACT_KEY y) s) ->
  StronglySorted (low_le EXTRACT_KEY s) l ->
  StronglySorted (fun x y => EXTRACT_KEY x <= EXTRACT_KEY y) l.
Proof.
  intros Hs Heq. induction 1 as [|x l Hl IH Hx]; [constructor|]. constructor.
  - apply IH. intros y z ??. apply Heq; by right.
  - rewrite Forall_forall in *. intros y Hy. specialize (Hx y Hy).
    specialize (Heq x y ltac:(by left) ltac:(by right)). rewrite !Z.shiftr_div_pow2 in Heq by done.
    unfold low_le in Hx. assert (0 < 2 ^ s) by (apply Z.pow_pos_nonneg; lia).
    rewrite (Z.div_mod (EXTRACT_KEY x) (2 ^ s)), (Z.div_mod (EXTRACT_KEY y) (2 ^ s)) by lia.
    rewrite Heq. lia.
Qed.

Lemma holds_blit buf src dst l :
  holds buf src l -> (dst + length l <= length buf)%nat ->
  exists buf', blit buf src buf dst (length l) = Some buf' /\ length buf' = length buf /\ holds buf' dst l /\
  (forall p, (p < dst \/ dst + length l <= p)%nat -> buf' !! p = buf !! p).
Proof.
  intros [H1 H2] Hd. unfold blit. rewrite decide_True by lia. eexists. split; [done|].
  assert (take (length l) (drop src buf) = l) as ->.
  { apply list_eq_same_length'.
    - rewrite length_take, length_drop. lia.
    - rewrite length_take, length_drop. intros i Hi. rewrite lookup_take_lt, lookup_drop by lia. apply H2. lia. }
  assert (length (take dst buf) = dst) as Ht by (rewrite length_take; lia).
  split_and!.
  - rewrite !length_app, length_drop. lia.
  - split; [rewrite !length_app, length_drop; lia|]. intros k Hk.
    rewrite lookup_app_r, lookup_app_l by lia. f_equal. lia.
  - intros p [Hp|Hp].
    + rewrite lookup_app_l, lookup_take_lt by lia. done.
    + rewrite !lookup_app_r by lia. rewrite lookup_drop. f_equal. lia.
Qed.

Lemma radix_loop_spec fuel : forall buf begin tmp s l,
  0 <= s -> s < 64 -> 64 <= s + 16 * Z.of_nat fuel ->
  l <> [] -> Z.of_nat (length l) < 2 ^ 32 -> holds buf begin l ->
  (begin + length l <= tmp)%nat -> (tmp + length l <= length buf)%nat ->
  StronglySorted (low_le EXTRACT_KEY s) l ->
  exists buf' l', radix_loop EXTRACT_KEY fuel buf begin tmp (length l) s = Some buf' /\
  length buf' = length buf /\ holds buf' begin l' /\ l' ≡ₚ l /\
  StronglySorted (fun x y => EXTRACT_KEY x <= EXTRACT_KEY y) l' /\
  (forall p, (p < begin \/ begin + length l <= p < tmp \/ tmp + length l <= p)%nat -> buf' !! p = buf !! p).
Proof.
  induction fuel as [|fuel IH]; intros buf begin tmp s l Hs1 Hs2 Hf Hne Hlen Hh Hbt Ht Hsort; [lia|].
  cbn [radix_loop].
  assert (exists x0, rd buf begin = Some x0 /\ x0 ∈ l) as (x0 & Hx0 & Hin0).
  { destruct l as [|x0 l0]; [done|]. exists x0. split; [|by left]. destruct Hh as [_ Hh].
    specialize (Hh 0%nat ltac:(simpl; lia)). by rewrite Nat.add_0_r in Hh. }
  rewrite Hx0. cbn [mbind option_bind].
  destruct (radix_count_spec s l buf begin (replicate 256 0) (replicate 256 0) (fun _ => 0) (fun _ => 0) 0 (rkey s x0))
    as (a & b & mask & -> & Ha & Hb & Hm); [done|done|done|apply counters_zeros|apply counters_zeros|lia|].
  cbn [mbind option_bind].
  destruct (radix_starts_spec EXTRACT_KEY s digit_a l (dig_lt s) Hlen 256 0 a 0) as (a1 & -> & Ha1); [done|done| |].
  { eapply counters_ext; [exact Ha|]. intros i Hi. simpl. done. }
  destruct (radix_starts_spec EXTRACT_KEY s digit_b l (fun x => eq_ind_r (fun d => d < 256)%nat (dig_lt (s + 8) x) (digit_b_dig s x Hs1)) Hlen 256 0 b 0)
    as (b1 & -> & Hb1); [done|done| |].
  { eapply counters_ext; [exact Hb|]. intros i Hi. simpl. rewrite Z.add_0_l. do 2 f_equal.
    apply bucket_ext. intros x. by rewrite <- digit_b_dig. }
  cbn [mbind option_bind].
  destruct (radix_scatter_spec EXTRACT_KEY s digit_a l (dig_lt s) Hlen buf begin tmp a1)
    as (buf1 & -> & Hl1 & Hh1 & Ho1); [done|done|lia|lia|done|].
  cbn [mbind option_bind].
  set (la := buckets (fun x => digit_a (rkey s x)) 256 l) in *.
  assert (la ≡ₚ l) as Hpa by (apply buckets_perm, Forall_forall; intros x _; apply dig_lt).
  assert (StronglySorted (low_le EXTRACT_KEY (s + 8)) la) as Hsa.
  { apply (buckets_sorted EXTRACT_KEY s 256 l); done. }
  pose proof (Permutation_length Hpa) as Hla.
  assert (forall m l', 0 <= m -> Z.shiftr mask m = 0 -> l' ≡ₚ l -> forall x y, x ∈ l' -> y ∈ l' ->
    Z.shiftr (EXTRACT_KEY x) (s + m) = Z.shiftr (EXTRACT_KEY y) (s + m)) as Hagree.
  { intros m l' Hm0 Hz Hp x y Hx Hy. rewrite Hp in Hx, Hy. apply Hm in Hz as [_ Hz].
    pose proof (Hz x Hx) as E1. pose proof (Hz y Hy) as E2. unfold radix_key in E1, E2.
    rewrite !Z.shiftr_shiftr in E1, E2 by done. congruence. }
  case_decide as H256.
  - rewrite <- Hla. destruct (holds_blit buf1 tmp begin la) as (buf2 & -> & Hl2 & Hh2 & Ho2); [done|lia|].
    exists buf2, la. split_and!; try done; [lia| |].
    + apply (low_le_key_le (s + 8)); [lia| |done]. apply Hagree; [lia| |done].
      rewrite Z.shiftr_div_pow2 by lia. destruct (decide (0 <= mask)); [apply Z.div_small; lia|].
      exfalso. assert (Z.shiftr mask 64 = 0) as Hz.
      { apply Hm. split; [done|]. intros x Hx. unfold radix_key. rewrite !Z.shiftr_shiftr, !Z.shiftr_div_pow2 by lia.
        pose proof (key_range x). pose proof (key_range x0).
        assert (2 ^ 64 <= 2 ^ (s + 64)) by (apply Z.pow_le_mono_r; lia). rewrite !Z.div_small by lia. done. }
      apply Z.shiftr_eq_0_iff in Hz. lia.
    + intros p Hp. rewrite Ho2 by lia. apply Ho1. lia.
  - rewrite <- Hla.
    assert (forall x : T, digit_b (rkey s x) < 256)%nat as Hdb.
    { intros x. rewrite digit_b_dig by done. apply dig_lt. }
    destruct (radix_scatter_spec EXTRACT_KEY s digit_b la Hdb ltac:(lia) buf1 tmp begin b1)
      as (buf2 & -> & Hl2 & Hh2 & Ho2); [by intros E0; rewrite E0 in Hla; destruct l|done|lia|lia| |].
    { eapply counters_ext; [exact Hb1|]. intros i Hi. simpl. f_equal.
      clear - Hpa. induction i as [|i IH]; simpl; [done|]. rewrite !length_app, IH. f_equal.
      symmetry. by apply bucket_length_perm. }
    cbn [mbind option_bind].
    set (lb := buckets (fun x => digit_b (rkey s x)) 256 la) in *.
    assert (lb ≡ₚ la) as Hpb by (apply buckets_perm, Forall_forall; intros x _; apply Hdb).
    assert (StronglySorted (low_le EXTRACT_KEY (s + 16)) lb) as Hsb.
    { pose proof (buckets_sorted EXTRACT_KEY (s + 8) 256 la ltac:(lia) Hsa) as HH.
      replace (s + 8 + 8) with (s + 16) in HH by lia.
      replace lb with (buckets (dig_at EXTRACT_KEY (s + 8)) 256 la); [done|].
      apply buckets_ext. intros x. by rewrite digit_b_dig. }
    assert (lb ≡ₚ l) as Hpbl by by rewrite Hpb.
    pose proof (Permutation_length Hpbl) as Hlb.
    case_decide as H16.
    + assert (s + 16 < 64) as Hs16.
      { destruct (decide (s + 16 < 64)); [done|]. exfalso. apply H16, Hm. split; [done|].
        intros x Hx. unfold radix_key. rewrite !Z.shiftr_shiftr, !Z.shiftr_div_pow2 by lia.
        pose proof (key_range x). pose proof (key_range x0).
        assert (2 ^ 64 <= 2 ^ (s + 16)) by (apply Z.pow_le_mono_r; lia). rewrite !Z.div_small by lia. done. }
      rewrite Hla, <- Hlb. destruct (IH buf2 begin tmp (s + 16) lb) as (buf3 & l3 & -> & Hl3 & Hh3 & Hp3 & Hs3 & Ho3);
        [lia|lia|lia| |lia|done|lia|lia|done|].
      { intros E0. rewrite E0 in Hlb. by destruct l. }
      exists buf3, l3. split_and!; try done; [lia|by rewrite Hp3|].
      intros p Hp. rewrite Ho3, Ho2, Ho1 by lia. done.
    + exists buf2, lb. split_and!; try done; [lia| |].
      * apply (low_le_key_le (s + 16)); [lia| |done].
        apply Hagree; [lia|lia|done].
      * intros p Hp. rewrite Ho2, Ho1 by lia. done.
Qed.

Lemma radixsort_spec END_GAP buf begin l :
  l <> [] -> Z.of_nat (length l) < 2 ^ 32 -> holds buf begin l ->
  (begin + length l + END_GAP + length l <= length buf)%nat ->
  exists buf' l', radixsort EXTRACT_KEY END_GAP buf begin (length l) = Some buf' /\
  length buf' = length buf /\ holds buf' begin l' /\ l' ≡ₚ l /\
  StronglySorted (fun x y => EXTRACT_KEY x <= EXTRACT_KEY y) l' /\
  (forall p, (p < begin \/ begin + length l <= p < begin + length l + END_GAP \/
    begin + length l + END_GAP + length l <= p)%nat -> buf' !! p = buf !! p).
Proof.
  intros Hne Hlen Hh Hroom. unfold radixsort. apply radix_loop_spec; try done; try lia.
  clear - l. induction l as [|x l IH]; constructor; [done|]. apply Forall_forall. intros y _.
  unfold low_le. rewrite !Z.mod_1_r. done.
Qed.
End radix_spec.

(** Sorting the middle part of a buffer, with the gap behind it. *)
Lemma radixsort_middle {T} (key : T -> Z) (gap : nat) (P L Q : list T) :
  (forall x, 0 <= key x < 2 ^ 64) -> L <> [] -> Z.of_nat (length L) < 2 ^ 32 -> (gap + length L <= length Q)%nat ->
  exists N Q', radixsort key gap (P ++ L ++ Q) (length P) (length L) = Some (P ++ N ++ Q') /\
  N ≡ₚ L /\ (forall i j x y, (i < j)%nat -> N !! i = Some x -> N !! j = Some y -> key x <= key y) /\
  length Q' = length Q /\ take gap Q' = take gap Q.
Proof.
  intros Hk Hne Hmax HQ. set (buf := P ++ L ++ Q).
  assert (length buf = length P + (length L + length Q))%nat as Hl by (unfold buf; by rewrite !length_app).
  destruct (radixsort_spec key Hk gap buf (length P) L) as (buf' & N & E & Hlen & [HN1 HN2] & Hp & Hs & Hout); try done.
  - split; [lia|]. intros k Hk'. unfold buf. rewrite lookup_app_r, lookup_app_l by lia. f_equal. lia.
  - lia.
  - pose proof (Permutation_length Hp) as HpN. exists N, (drop (length P + length L) buf'). rewrite E. split_and!.
    + f_equal. apply list_eq_same_length'; [rewrite !length_app, length_drop; lia|]. intros i Hi.
      destruct (decide (i < length P)%nat).
      { rewrite Hout by lia. unfold buf. by rewrite !lookup_app_l by lia. }
      rewrite lookup_app_r by lia. destruct (decide (i - length P < length N)%nat).
      { rewrite lookup_app_l, <- HN2 by lia. f_equal. lia. }
      rewrite lookup_app_r, lookup_drop by lia. f_equal. lia.
    + done.
    + intros i j x y Hij Hi Hj. rewrite <- (take_drop (S i) N) in Hs. apply (StronglySorted_app_1_elem_of _ _ _ x y Hs).
      * apply (list_elem_of_lookup_2 _ i). by rewrite lookup_take_lt by lia.
      * apply (list_elem_of_lookup_2 _ (j - S i)). rewrite lookup_drop. by replace (S i + (j - S i))%nat with j by lia.
    + rewrite length_drop. lia.
    + apply list_eq_same_length'; [rewrite !length_take, length_drop; lia|]. intros i Hi. rewrite length_take, length_drop in Hi.
      rewrite !lookup_take_lt, lookup_drop, Hout by lia. unfold buf. rewrite !lookup_app_r by lia. f_equal. lia.
Qed.

(** ** Property *)

(** The radix sort returns, stays inside the data and its scratch space,
    permutes the data and orders it by the extracted key; the gap behind the
    data and everything else in the buffer are untouched. *)
Theorem radixsort_sorts {T} (EXTRACT_KEY : T -> Z) (END_GAP : nat) (buf : list T) begin (l : list T) :
  (forall x, 0 <= EXTRACT_KEY x < 2 ^ 64) ->
  l <> [] -> Z.of_nat (length l) < 2 ^ 32 -> holds buf begin l ->
  (begin + length l + END_GAP + length l <= length buf)%nat ->
  exists buf' l', radixsort EXTRACT_KEY END_GAP buf begin (length l) = Some buf' /\
  length buf' = length buf /\ holds buf' begin l' /\ l' ≡ₚ l /\
  StronglySorted (fun x y => EXTRACT_KEY x <= EXTRACT_KEY y) l' /\
  (forall p, (p < begin \/ begin + length l <= p < begin + length l + END_GAP \/
    begin + length l + END_GAP + length l <= p)%nat -> buf' !! p = buf !! p).
Proof. intros Hk. by apply radixsort_spec. Qed.

Lemma radixsort_sorts_witness :
  exists buf' l', radixsort (fun x => x mod 2 ^ 64) 1 [5; 70000; 3; 9; 9; 9; 9] 0 3 = Some buf' /\
  holds buf' 0 l' /\ l' ≡ₚ [5; 70000; 3].
Proof.
  destruct (radixsort_sorts (fun x => x mod 2 ^ 64) 1 [5; 70000; 3; 9; 9; 9; 9] 0 [5; 70000; 3])
    as (b & l & E & _ & H & Hp & _).
  - intros x. apply Z.mod_pos_bound. lia.
  - done.
  - simpl. lia.
  - split; [simpl; lia|]. intros k Hk. simpl in Hk. do 3 (destruct k as [|k]; [done|]). lia.
  - simpl. lia.
  - exists b, l. split; [exact E|]. split; [exact H|exact Hp].
Defined.
