(* ===== verification/Rkl.v ===== *)
(** * Lists of reclaimed transaction ids (rkl)

    [rkl_t] of mdbx.c is a set of transaction ids kept as one continuous
    interval [solid_begin .. solid_end - 1] and an ascending list of the other
    ids.  The list lives in a buffer which starts as the array [inplace] of the
    structure and moves to the heap when it grows.  The model keeps the buffer
    (all [list_limit] cells of it), because the code inserts, removes and swaps
    by moving cells in place; cells nobody has written are 0. *)

From S2P Require Import Prelude Search.

Definition txl_granulate : Z := 32.
Definition txl_max : Z := 2 ^ 26 - 2 - MDBX_ASSUME_MALLOC_OVERHEAD / 8.

(** [ARRAY_LENGTH(rkl->inplace)] *)
Definition inplace_length : nat := 12.

Record rkl_t := mk_rkl {
  solid_begin : Z;
  solid_end : Z;
  list_length : nat;
  list_limit : nat;
  (** the cells of [list] *)
  list_buf : list Z;
  (** [list == inplace] *)
  list_inplace : bool
}.

Definition rkl_empty (r : rkl_t) : bool := solid_begin r >? solid_end r.
Definition solid_empty (r : rkl_t) : bool := negb (solid_begin r <? solid_end r).

Definition set_solid (b e : Z) (r : rkl_t) : rkl_t :=
  mk_rkl b e (list_length r) (list_limit r) (list_buf r) (list_inplace r).
Definition set_list (n : nat) (buf : list Z) (r : rkl_t) : rkl_t :=
  mk_rkl (solid_begin r) (solid_end r) n (list_limit r) buf (list_inplace r).

Definition rkl_clear (r : rkl_t) : rkl_t :=
  mk_rkl UINT64_MAX 0 0 (list_limit r) (list_buf r) (list_inplace r).

(** [rkl_init]; the array [inplace] of the structure is the argument. *)
Definition rkl_init (inplace : list Z) : rkl_t := mk_rkl UINT64_MAX 0 0 inplace_length inplace true.

Definition rkl_size2bytes (size : Z) : Z :=
  ceil_powerof2 (MDBX_ASSUME_MALLOC_OVERHEAD + 8 * size) (txl_granulate * 8) - MDBX_ASSUME_MALLOC_OVERHEAD.
Definition rkl_bytes2size (bytes : Z) : Z := bytes / 8.

Definition RKL_ORDERED (first last : Z) : bool := first <? last.

Definition rkl_len (r : rkl_t) : Z :=
  if rkl_empty r then 0 else u64 (solid_end r - solid_begin r + Z.of_nat (list_length r)).

(** [i > 0 && list[i - 1] == v] and [i < n && list[i] == v] *)
Definition prev_is (buf : list Z) (i : nat) (v : Z) : option bool :=
  match i with O => Some false | S i => x ← rd buf i; Some (bool_decide (x = v)) end.
Definition next_is (buf : list Z) (n i : nat) (v : Z) : option bool :=
  if decide (i < n)%nat then x ← rd buf i; Some (bool_decide (x = v)) else Some false.

(** ** Loops over the cells of the list *)

(** [while (f > list && f[-1] >= solid_begin - 1)] of [extend_solid]; [inr tt] is
    the return of [MDBX_RESULT_TRUE]. *)
Fixpoint extend_left (f : nat) (buf : list Z) (sb : Z) : option ((nat * Z) + unit) :=
  match f with
  | O => Some (inl (O, sb))
  | S f' =>
      x ← rd buf f';
      if decide (x >= u64 (sb - 1)) then
        let sb := u64 (sb - 1) in
        if decide (x <> sb) then Some (inr tt) else extend_left f' buf sb
      else Some (inl (f, sb))
  end.

(** [while (t < end && *t <= solid_end)]: [n] is [end - t]. *)
Fixpoint extend_right (n t : nat) (buf : list Z) (se : Z) : option ((nat * Z) + unit) :=
  match n with
  | O => Some (inl (t, se))
  | S n =>
      x ← rd buf t;
      if decide (x <= se) then
        if decide (x <> se) then Some (inr tt) else extend_right n (S t) buf (u64 (se + 1))
      else Some (inl (t, se))
  end.

(** [n] times [list[dst++] = list[src++]] *)
Fixpoint move_down (n : nat) (buf : list Z) (dst src : nat) : option (list Z) :=
  match n with
  | O => Some buf
  | S n => x ← rd buf src; buf ← wr buf dst x; move_down n buf (S dst) (S src)
  end.

(** [n] times [from -= 1; list[from + gap] = list[from]] *)
Fixpoint move_up (n : nat) (buf : list Z) (from gap : nat) : option (list Z) :=
  match n with
  | O => Some buf
  | S n =>
      let from := Nat.pred from in
      x ← rd buf from; buf ← wr buf (from + gap) x; move_up n buf from gap
  end.

(** [list[from++] = solid_begin + i++] while [i] is not the length [n + i]. *)
Fixpoint fill_solid (n : nat) (buf : list Z) (from : nat) (v : Z) : option (list Z) :=
  match n with
  | O => Some buf
  | S n => buf ← wr buf from v; fill_solid n buf (S from) (v + 1)
  end.

(** The loop of [rkl_push] that looks for the place of [id] from the end of the
    list and moves the greater elements up; the flag says that [id] was found. *)
Fixpoint insert_scan (i : nat) (buf : list Z) (id : Z) : option (nat * list Z * bool) :=
  match i with
  | O => Some (O, buf, false)
  | S i' =>
      x ← rd buf i';
      if RKL_ORDERED id x then buf ← wr buf i x; insert_scan i' buf id
      else if decide (id = x) then Some (i, buf, true)
      else Some (i, buf, false)
  end.

(** [while (++i < list_length) list[i - 1] = list[i]] after a duplicate was found. *)
Fixpoint dup_restore (fuel : nat) (buf : list Z) (i len : nat) : option (list Z) :=
  match fuel with
  | O => None
  | S fuel =>
      let i := S i in
      if decide (i < len)%nat then x ← rd buf i; buf ← wr buf (i - 1) x; dup_restore fuel buf i len
      else Some buf
  end.

(** [while (from > 0 && list[from - 1] == new_solid_begin - 1)] *)
Fixpoint run_left (from : nat) (buf : list Z) (nb : Z) : option (nat * Z) :=
  match from with
  | O => Some (O, nb)
  | S from' =>
      x ← rd buf from';
      if decide (x = u64 (nb - 1)) then run_left from' buf (u64 (nb - 1)) else Some (from, nb)
  end.

(** [while (to < list_length && list[to] == new_solid_end)]: [n] is [list_length - to]. *)
Fixpoint run_right (n to : nat) (buf : list Z) (ne : Z) : option (nat * Z) :=
  match n with
  | O => Some (to, ne)
  | S n =>
      x ← rd buf to;
      if decide (x = ne) then run_right n (S to) buf (u64 (ne + 1)) else Some (to, ne)
  end.

Section operations.
(** [MDBX_HAVE_CMOV], and what the allocator answers to a request: the usable
    size of the block, or [None] when there is no memory. *)
Context (have_cmov : bool) (alloc : Z -> option Z).

Definition rkl_bsearch (r : rkl_t) (id : Z) : option nat :=
  bsearch RKL_ORDERED have_cmov (list_buf r) 0 (list_length r) id.

Definition rkl_resize (r : rkl_t) (wanna_size : Z) : Z * rkl_t :=
  if decide (wanna_size > txl_max) then (MDBX_TXN_FULL, r)
  else if decide (wanna_size < Z.of_nat (list_length r)) then (MDBX_PROBLEM, r)
  else if decide (wanna_size <= Z.of_nat inplace_length) then
    if list_inplace r then (MDBX_SUCCESS, r)
    else (MDBX_SUCCESS, mk_rkl (solid_begin r) (solid_end r) (list_length r) inplace_length
      (take inplace_length (list_buf r)) true)
  else if decide (wanna_size <> Z.of_nat (list_limit r)) then
    match alloc (rkl_size2bytes wanna_size) with
    | None => (MDBX_ENOMEM, r)
    | Some bytes =>
        let limit := Z.to_nat (rkl_bytes2size bytes) in
        (MDBX_SUCCESS, mk_rkl (solid_begin r) (solid_end r) (list_length r) limit
          (resize limit 0 (list_buf r)) false)
    end
  else (MDBX_SUCCESS, r).

Definition rkl_reserve (r : rkl_t) (wanna_size : Z) : Z * rkl_t :=
  if decide (wanna_size > Z.of_nat (list_limit r)) then rkl_resize r wanna_size else (MDBX_SUCCESS, r).

(** [rkl_copy(src, dst)] gives the new [dst]; [inplace] is the array of [dst]. *)
Definition rkl_copy (src : rkl_t) (inplace : list Z) : option (Z * rkl_t) :=
  let dst := rkl_init inplace in
  if rkl_empty src then Some (MDBX_SUCCESS, dst)
  else
    let '(err, dst) := if decide (list_limit dst < list_length src)%nat
                       then rkl_resize dst (Z.of_nat (list_limit src)) else (MDBX_SUCCESS, dst) in
    if decide (err <> MDBX_SUCCESS) then Some (err, dst)
    else
      buf ← blit (list_buf src) 0 (list_buf dst) 0 (list_length src);
      Some (MDBX_SUCCESS, mk_rkl (solid_begin src) (solid_end src) (list_length src)
        (list_limit dst) buf (list_inplace dst)).

(** [rkl_destructive_move(src, dst)] gives the new [src] and [dst]; the arrays
    [inplace] of the two structures are the other arguments. *)
Definition rkl_destructive_move (src : rkl_t) (src_inplace dst_inplace : list Z) : option (rkl_t * rkl_t) :=
  dst ← (if list_inplace src then
           buf ← blit (list_buf src) 0 dst_inplace 0 inplace_length;
           Some (mk_rkl (solid_begin src) (solid_end src) (list_length src) inplace_length buf true)
         else Some (mk_rkl (solid_begin src) (solid_end src) (list_length src)
           (list_limit src) (list_buf src) false));
  Some (rkl_init (if list_inplace src then list_buf src else src_inplace), dst).

Definition rkl_contain (r : rkl_t) (id : Z) : option bool :=
  if (id >=? solid_begin r) && (id <? solid_end r) then Some true
  else if decide (list_length r <> 0)%nat then
    it ← rkl_bsearch r id;
    if decide (it <> list_length r) then x ← rd (list_buf r) it; Some (bool_decide (x = id))
    else Some false
  else Some false.

(** ** Pushing an id *)

Definition extend_solid (r : rkl_t) (sb se id : Z) : option (Z * rkl_t) :=
  if decide (list_length r <> 0)%nat then
    i ← rkl_bsearch r id;
    left_ ← extend_left i (list_buf r) sb;
    match left_ with
    | inr _ => Some (MDBX_RESULT_TRUE, r)
    | inl (f, sb) =>
        right_ ← extend_right (list_length r - i) i (list_buf r) se;
        match right_ with
        | inr _ => Some (MDBX_RESULT_TRUE, r)
        | inl (t, se) =>
            if decide (f < t)%nat then
              buf ← move_down (list_length r - t) (list_buf r) f t;
              Some (MDBX_SUCCESS, set_solid sb se (set_list (list_length r - (t - f)) buf r))
            else Some (MDBX_SUCCESS, set_solid sb se r)
        end
    end
  else Some (MDBX_SUCCESS, set_solid sb se r).

(** The exchange of the interval with a longer run of the list. *)
Definition swap_solid (r : rkl_t) (from to : nat) (new_solid_begin new_solid_end : Z)
  (old_solid_pos : nat) : option rkl_t :=
    let len := list_length r in
  let new_solid_len := (to - from)%nat in
  let old_solid_len := Z.to_nat (solid_end r - solid_begin r) in
  '(buf, from, to, moved) ←
    (if decide (old_solid_pos < from)%nat then
       let moved := (from - old_solid_pos)%nat in
       buf ← move_up moved (list_buf r) from old_solid_len;
       Some (buf, old_solid_pos, to, moved)
     else if decide (from + new_solid_len < old_solid_pos)%nat then
       let n := (old_solid_pos - new_solid_len - from)%nat in
       buf ← move_down n (list_buf r) from to;
       Some (buf, (from + n)%nat, (to + n)%nat, O)
     else Some (list_buf r, from, to, O));
  buf ← fill_solid old_solid_len buf from (solid_begin r);
  let from := (from + old_solid_len)%nat in
  buf ← move_down (len - to) buf (moved + from) to;
  Some (mk_rkl new_solid_begin new_solid_end (len - new_solid_len + old_solid_len)
    (list_limit r) buf (list_inplace r)).

(** What follows the insertion of [id] at position [i]. *)
Definition push_tail (r : rkl_t) (i : nat) (id : Z) : option rkl_t :=
  let len := list_length r in
  let buf := list_buf r in
  near ← (if decide (16 < len)%nat then
            p ← prev_is buf i (u64 (id - 1));
            if p : bool then Some true else next_is buf len (i + 1) (u64 (id + 1))
          else Some false);
  if near : bool then
    '(from, new_solid_begin) ← run_left i buf id;
    '(to, new_solid_end) ← run_right (len - (i + 1)) (i + 1) buf (u64 (id + 1));
    let new_solid_len := (to - from)%nat in
    if decide (3 < new_solid_len)%nat then
      let old_solid_len := u64 (solid_end r - solid_begin r) in
      if decide (Z.of_nat new_solid_len > old_solid_len) then
        old_solid_pos ← rkl_bsearch r (solid_begin r);
        let swap_cost := Z.of_nat (len - to) +
          (if decide (old_solid_pos < from)%nat then Z.of_nat (from - old_solid_pos) else 0) + old_solid_len in
        let new_insert_cost := Z.of_nat (len - i) in
        if decide (swap_cost < new_insert_cost) then
          swap_solid r from to new_solid_begin new_solid_end old_solid_pos
        else Some r
      else Some r
    else Some r
  else Some r.

(** [x2]: the new size when the buffer is full. *)
Definition push_size (r : rkl_t) : Z :=
  let x2 := Z.shiftl (Z.of_nat (list_limit r) + 1) 1 in
  let x2 := if decide (x2 > 62) then x2 else 62 in
  let x2 := if decide (x2 < txl_max) then x2 else txl_max in
  if decide (x2 > Z.of_nat (list_length r)) then x2 else Z.of_nat (list_length r) + 42.

Definition push_list (r : rkl_t) (id : Z) : option (Z * rkl_t) :=
  couple ← (if decide (list_length r = 1%nat /\ solid_end r = u64 (solid_begin r + 1)) then
              x ← rd (list_buf r) 0;
              Some (if decide (x = u64 (id + 1)) then Some id
                    else if decide (x = u64 (id - 1)) then Some (u64 (id - 1)) else None)
            else Some None);
  match couple with
  | Some couple =>
      buf ← wr (list_buf r) 0 (solid_begin r);
      Some (MDBX_SUCCESS, set_solid couple (u64 (couple + 2)) (set_list (list_length r) buf r))
  | None =>
      let '(err, r) := if decide (list_length r = list_limit r) then rkl_resize r (push_size r)
                       else (MDBX_SUCCESS, r) in
      if decide (err <> MDBX_SUCCESS) then Some (err, r)
      else
        '(i, buf, dup) ← insert_scan (list_length r) (list_buf r) id;
        if dup : bool then
          buf ← dup_restore (S (list_length r)) buf i (list_length r);
          Some (MDBX_RESULT_TRUE, set_list (list_length r) buf r)
        else
          buf ← wr buf i id;
          r ← push_tail (set_list (S (list_length r)) buf r) i id;
          Some (MDBX_SUCCESS, r)
  end.

Definition rkl_push (r : rkl_t) (id : Z) : option (Z * rkl_t) :=
  if decide (solid_begin r >= solid_end r) then extend_solid r id (u64 (id + 1)) id
  else if decide (id < solid_begin r) then
    if decide (u64 (id + 1) = solid_begin r) then extend_solid r id (solid_end r) id else push_list r id
  else if decide (id >= solid_end r) then
    if decide (id = solid_end r) then extend_solid r (solid_begin r) (u64 (id + 1)) id else push_list r id
  else Some (MDBX_RESULT_TRUE, r).

(** ** Taking an id from one of the ends *)

Definition list_remove_first (r : rkl_t) : option (Z * rkl_t) :=
  first ← rd (list_buf r) 0;
  buf ← move_down (list_length r - 1) (list_buf r) 0 1;
  Some (first, set_list (list_length r - 1) buf r).

Definition after_cut (r : rkl_t) (out : Z) : Z * rkl_t :=
  if decide (list_length r = 0%nat /\ solid_begin r = solid_end r)
  then (out, set_solid UINT64_MAX 0 r) else (out, r).

Definition rkl_pop (r : rkl_t) (highest_not_lowest : bool) : option (Z * rkl_t) :=
  let pop_solid :=
    if solid_empty r then Some (0, r)
    else if highest_not_lowest
    then Some (after_cut (set_solid (solid_begin r) (solid_end r - 1) r) (solid_end r - 1))
    else Some (after_cut (set_solid (solid_begin r + 1) (solid_end r) r) (solid_begin r)) in
  if decide (list_length r <> 0)%nat then
    last ← rd (list_buf r) (list_length r - 1);
    first ← rd (list_buf r) 0;
    if highest_not_lowest && (solid_empty r || (solid_end r <? last)) then
      Some (after_cut (set_list (list_length r - 1) (list_buf r) r) last)
    else if negb highest_not_lowest && (solid_empty r || (solid_begin r >? first)) then
      '(out, r) ← list_remove_first r; Some (after_cut r out)
    else pop_solid
  else pop_solid.

Definition rkl_lowest (r : rkl_t) : option Z :=
  if decide (list_length r <> 0)%nat then
    x ← rd (list_buf r) 0;
    Some (if solid_empty r || (x <? solid_begin r) then x else solid_begin r)
  else Some (if solid_empty r then INVALID_TXNID else solid_begin r).

Definition rkl_highest (r : rkl_t) : option Z :=
  if decide (list_length r <> 0)%nat then
    x ← rd (list_buf r) (list_length r - 1);
    Some (if solid_empty r || (x >=? solid_end r) then x else solid_end r - 1)
  else Some (if solid_empty r then 0 else solid_end r - 1).

(** ** Merging *)

Definition push_err_fatal (err : Z) (ignore_duplicates : bool) : bool :=
  negb (err =? MDBX_SUCCESS) && (negb ignore_duplicates || negb (err =? MDBX_RESULT_TRUE)).

(** [do ... while (--i)] over the list of [src], from its end *)
Fixpoint merge_list (i : nat) (src : list Z) (dst : rkl_t) (ignore_duplicates : bool) : option (Z * rkl_t) :=
  match i with
  | O => Some (MDBX_SUCCESS, dst)
  | S i =>
      x ← rd src i;
      '(err, dst) ← rkl_push dst x;
      if push_err_fatal err ignore_duplicates then Some (err, dst)
      else merge_list i src dst ignore_duplicates
  end.

Fixpoint merge_solid (n : nat) (id : Z) (dst : rkl_t) (ignore_duplicates : bool) : option (Z * rkl_t) :=
  match n with
  | O => Some (MDBX_SUCCESS, dst)
  | S n =>
      '(err, dst) ← rkl_push dst id;
      if push_err_fatal err ignore_duplicates then Some (err, dst)
      else merge_solid n (id + 1) dst ignore_duplicates
  end.

Definition rkl_merge (src dst : rkl_t) (ignore_duplicates : bool) : option (Z * rkl_t) :=
  '(err, dst) ← merge_list (list_length src) (list_buf src) dst ignore_duplicates;
  if decide (err <> MDBX_SUCCESS) then Some (err, dst)
  else merge_solid (Z.to_nat (solid_end src - solid_begin src)) (solid_begin src) dst ignore_duplicates.

(** ** Iterators *)

Record rkl_iter_t := mk_iter { iter_pos : Z; solid_offset : Z }.

Definition rkl_iterator (r : rkl_t) (reverse : bool) : option rkl_iter_t :=
  let pos := if reverse then u32 (rkl_len r) else 0 in
  if negb (solid_empty r) && negb (Nat.eqb (list_length r) 0) then
    it ← rkl_bsearch r (solid_begin r);
    Some (mk_iter pos (u32 (Z.of_nat it)))
  else Some (mk_iter pos 0).

Definition rkl_find (r : rkl_t) (id : Z) : option (bool * rkl_iter_t) :=
  iter ← rkl_iterator r false;
  let in_list (iter : rkl_iter_t) :=
    if decide (list_length r <> 0)%nat then
      it ← rkl_bsearch r id;
      let iter := mk_iter (u32 (iter_pos iter + Z.of_nat it)) (solid_offset iter) in
      if decide (it <> list_length r) then x ← rd (list_buf r) it; Some (bool_decide (x = id), iter)
      else Some (false, iter)
    else Some (false, iter) in
  if decide (id >= solid_begin r) then
    if decide (id < solid_end r) then
      Some (true, mk_iter (u32 (solid_offset iter + u32 (id - solid_begin r))) (solid_offset iter))
    else in_list (mk_iter (u32 (solid_end r - solid_begin r)) (solid_offset iter))
  else in_list iter.

Definition rkl_turn (r : rkl_t) (iter : rkl_iter_t) (reverse : bool) : option (Z * rkl_iter_t) :=
  let pos := u64 (iter_pos iter - Z.b2z reverse) in
  if decide (pos >= rkl_len r) then Some (0, iter)
  else
    let iter' := mk_iter (u32 (pos + Z.b2z (negb reverse))) (solid_offset iter) in
    let solid_len := u64 (solid_end r - solid_begin r) in
    if decide (list_length r <> 0)%nat then
      if decide (pos < solid_offset iter) then x ← rdz (list_buf r) pos; Some (x, iter')
      else if decide (pos < u64 (solid_offset iter + solid_len)) then
        Some (u64 (solid_begin r + pos - solid_offset iter), iter')
      else x ← rdz (list_buf r) (u64 (pos - solid_len)); Some (x, iter')
    else Some (u64 (solid_begin r + pos), iter').

Definition rkl_left (r : rkl_t) (iter : rkl_iter_t) (reverse : bool) : Z :=
  if reverse then iter_pos iter else u64 (rkl_len r - iter_pos iter).

Record rkl_hole_t := mk_hole { hole_begin : Z; hole_end : Z }.

(** The [for] loop of [rkl_hole]; [iter_pos] of the result is the new position. *)
Fixpoint hole_loop (fuel : nat) (r : rkl_t) (iter : rkl_iter_t) (reverse : bool) (pos : Z)
  : option (rkl_hole_t * rkl_iter_t) :=
  match fuel with
  | O => None
  | S fuel =>
      let len := rkl_len r in
      let solid_len := u64 (solid_end r - solid_begin r) in
      let offset := solid_offset iter in
      let at_pos p := mk_iter (u32 p) offset in
      let finish here :=
        if reverse then Some (mk_hole 1 here, at_pos 0)
        else Some (mk_hole (u64 (here + 1)) MAX_TXNID, at_pos len) in
      let step here next there :=
        let hole := mk_hole (u64 ((if reverse then there else here) + 1)) (if reverse then here else there) in
      if decide (hole_begin hole < hole_end hole) then Some (hole, at_pos next)
      else hole_loop fuel r iter reverse next in
      let next := if reverse then u64 (pos - 1) else u64 (pos + 1) in
      if decide (pos < offset) then
        here ← rdz (list_buf r) pos;
        if decide (next = offset) then
          Some (mk_hole (u64 (here + 1)) (solid_begin r), at_pos (u64 (next + solid_len - 1)))
        else if decide (next >= len) then finish here
        else there ← rdz (list_buf r) next; step here next there
      else if decide (pos >= u64 (offset + solid_len)) then
        here ← (if decide (pos < len) then rdz (list_buf r) (u64 (pos - solid_len)) else Some MAX_TXNID);
        if decide (next >= len) then finish here
        else if decide (next = u64 (offset + solid_len - 1)) then
          Some (mk_hole (solid_end r) here, at_pos offset)
        else there ← rdz (list_buf r) (u64 (next - solid_len)); step here next there
      else if reverse then
        let next := u64 (offset - 1) in
        let here := solid_begin r in
        if decide (next >= len) then finish here
        else there ← rdz (list_buf r) next; step here next there
      else
        let next := u64 (offset + solid_len) in
        let here := u64 (solid_end r - 1) in
        if decide (next >= len) then finish here
        else there ← rdz (list_buf r) (u64 (next - solid_len)); step here next there
  end.

Definition rkl_hole (r : rkl_t) (iter : rkl_iter_t) (reverse : bool) : option (rkl_hole_t * rkl_iter_t) :=
  let len := rkl_len r in
  let pos := iter_pos iter in
  let at_pos p := mk_iter (u32 p) (solid_offset iter) in
  let inside :=
    if decide (list_length r <> 0)%nat then hole_loop (S (S (list_length r))) r iter reverse pos
    else if reverse && (pos <? len) then Some (mk_hole 1 (solid_begin r), at_pos 0)
    else Some (mk_hole (solid_end r) MAX_TXNID, at_pos (if reverse then 0 else len)) in
  if decide (pos >= len) then
    if decide (len = 0) then Some (mk_hole 1 MAX_TXNID, at_pos 0)
    else if decide (pos = len /\ reverse = true) then inside
    else if reverse then Some (mk_hole 1 1, at_pos 0)
    else Some (mk_hole MAX_TXNID MAX_TXNID, at_pos len)
  else inside.

(** ** The self-check *)

Fixpoint ordered_cells (n i : nat) (buf : list Z) : option bool :=
  match n with
  | O => Some true
  | S n =>
      a ← rd buf (i - 1); b ← rd buf i;
      if RKL_ORDERED a b then ordered_cells n (S i) buf else Some false
  end.

Definition rkl_check (r : rkl_t) : option bool :=
  if list_inplace r && negb (Nat.eqb (list_limit r) inplace_length) then Some false
  else if decide (list_limit r < inplace_length)%nat then Some false
  else if rkl_empty r then Some (Nat.eqb (list_length r) 0 && solid_empty r)
  else if decide (list_length r <> 0)%nat then
    ordered ← ordered_cells (list_length r - 1) 1 (list_buf r);
    if ordered : bool then
      last ← rd (list_buf r) (list_length r - 1);
      first ← rd (list_buf r) 0;
      if negb (solid_empty r) && (u64 (solid_begin r - 1) <=? last) && (solid_end r >=? first) then
        it ← rkl_bsearch r (solid_begin r);
        below ← match it with O => Some false | S it => x ← rd (list_buf r) it; Some (x >=? solid_begin r) end;
        if below : bool then Some false
        else if decide (it < list_length r)%nat then
          x ← rd (list_buf r) it; Some (negb (x <=? solid_end r))
        else Some true
      else Some true
    else Some false
  else Some true.
End operations.
