(* ===== verification/RklPush.v ===== *)
(** * The invariant of an rkl and pushing an id *)

From S2P Require Import Prelude Search Rkl.

(** The ids of the list, and all ids of an rkl. *)
Definition elems (r : rkl_t) : list Z := take (list_length r) (list_buf r).
Definition member (r : rkl_t) (x : Z) : Prop := x ∈ elems r \/ solid_begin r <= x < solid_end r.

Definition txnid_ok (x : Z) : Prop := MIN_TXNID <= x < INVALID_TXNID.

(** [x] is neither in the interval [b .. e - 1] nor next to it. *)
Definition apart (b e x : Z) : Prop := x < b - 1 \/ e < x.

(** The three shapes of the interval: reset, empty behind a list, or real. *)
Definition solid_ok (b e : Z) (l : list Z) : Prop :=
  (b = UINT64_MAX /\ e = 0 /\ l = []) \/
  (b = e /\ 0 <= b <= UINT64_MAX /\ l <> []) \/
  (MIN_TXNID <= b /\ b < e /\ e <= UINT64_MAX /\ Forall (apart b e) l).

Record rkl_wf (r : rkl_t) : Prop := {
  wf_limit : length (list_buf r) = list_limit r;
  wf_length : (list_length r <= list_limit r)%nat;
  wf_inplace : (inplace_length <= list_limit r)%nat /\ (list_inplace r = true -> list_limit r = inplace_length);
  wf_ascending : ascending (elems r);
  wf_txnid : Forall txnid_ok (elems r);
  wf_solid : solid_ok (solid_begin r) (solid_end r) (elems r)
}.

(** The allocator gives blocks at least as large as asked for. *)
Definition alloc_ok (alloc : Z -> option Z) : Prop := forall bytes usable, alloc bytes = Some usable -> bytes <= usable.

(** ** Lists of consecutive ids *)

Lemma ascending_split (l : list Z) (v : Z) :
  ascending l -> exists A B, l = A ++ B /\ Forall (fun x => x < v) A /\ Forall (fun x => v <= x) B.
Proof.
  induction l as [|x l IH]; intros Hl; [by exists [], []|].
  apply ascending_cons in Hl as [Hx Hl]. destruct (IH Hl) as (A & B & -> & HA & HB).
  destruct (decide (x < v)).
  - exists (x :: A), B. split_and!; [done|by constructor|done].
  - exists [], (x :: A ++ B). split_and!; [done|constructor|].
    constructor; [lia|]. eapply Forall_impl; [exact Hx|]. intros y. lia.
Qed.

Lemma ascending_seqZ m n : ascending (seqZ m n).
Proof. intros i j x y Hij Hi Hj. apply lookup_seqZ in Hi, Hj. lia. Qed.

Lemma seqZ_snoc m n : 0 <= n -> seqZ m (n + 1) = seqZ m n ++ [m + n].
Proof. intros H. by rewrite seqZ_app by lia. Qed.

Lemma seqZ_unsnoc m n : 0 < n -> seqZ m n = seqZ m (n - 1) ++ [m + n - 1].
Proof. intros H. replace n with (n - 1 + 1) at 1 by lia. rewrite seqZ_snoc by lia. do 2 f_equal. lia. Qed.

Lemma ascending_seqZ_between A m n B :
  ascending A -> ascending B -> Forall (fun x => x < m) A -> Forall (fun x => m + n <= x) B -> 0 <= n ->
  ascending (A ++ seqZ m n ++ B).
Proof.
  rewrite !Forall_forall. intros HA HB H1 H2 Hn. rewrite !ascending_app. split_and!; try done.
  - apply ascending_seqZ.
  - intros x y Hx%elem_of_seqZ Hy%H2. lia.
  - intros x y Hx%H1 [Hy%elem_of_seqZ|Hy%H2]%elem_of_app; lia.
Qed.

Lemma rkl_bsearch_spec have_cmov r id A B :
  rkl_wf r -> elems r = A ++ B -> Forall (fun x => x < id) A -> Forall (fun x => id <= x) B ->
  rkl_bsearch have_cmov r id = Some (length A).
Proof.
  intros Hwf E HA HB. unfold rkl_bsearch.
  pose proof (wf_limit _ Hwf) as H1. pose proof (wf_length _ Hwf) as H2. pose proof (wf_inplace _ Hwf) as [H3 _].
  unfold inplace_length in H3.
  assert (length A + length B = list_length r)%nat as Hlen.
  { rewrite <- length_app, <- E. unfold elems. rewrite length_take. lia. }
  apply bsearch_correct; [|lia|lia].
  split; [lia|]. intros i x Hi Hx. simpl in Hi.
  assert (elems r !! i = Some x) as Hx' by (unfold elems; rewrite lookup_take_lt by lia; done).
  rewrite E in Hx'. unfold RKL_ORDERED. case_bool_decide as Hlt.
  - rewrite lookup_app_l in Hx' by lia. eapply Forall_lookup_1 in HA; [|exact Hx']. simpl in HA. lia.
  - rewrite lookup_app_r in Hx' by lia. eapply Forall_lookup_1 in HB; [|exact Hx']. simpl in HB. lia.
Qed.

(** ** The loops *)

Section loops.
Implicit Types (X Y G W A B : list Z).

Lemma rd_middle X x Y : rd (X ++ x :: Y) (length X) = Some x.
Proof. unfold rd. rewrite lookup_app_r, Nat.sub_diag by lia. done. Qed.

Lemma wr_middle X x Y v : wr (X ++ x :: Y) (length X) v = Some (X ++ v :: Y).
Proof.
  rewrite wr_Some by (rewrite length_app; simpl; lia). f_equal.
  rewrite insert_app_r_alt, Nat.sub_diag by lia. done.
Qed.

Lemma rd_at X x Y i : i = length X -> rd (X ++ x :: Y) i = Some x.
Proof. intros ->. apply rd_middle. Qed.
Lemma wr_at X x Y v i : i = length X -> wr (X ++ x :: Y) i v = Some (X ++ v :: Y).
Proof. intros ->. apply wr_middle. Qed.

(** The block [Y] moves over the gap [G] below it. *)
Lemma move_down_spec Y : forall X G W dst src,
  dst = length X -> src = (length X + length G)%nat ->
  exists G', length G' = length G /\ move_down (length Y) (X ++ G ++ Y ++ W) dst src = Some (X ++ Y ++ G' ++ W).
Proof.
  induction Y as [|y Y IH]; intros X G W dst src -> ->; simpl.
  - by exists G.
  - rewrite (app_assoc X G), rd_at by (rewrite length_app; done). simpl. rewrite <- app_assoc.
    destruct G as [|g G]; simpl.
    + rewrite wr_middle. simpl. destruct (IH (X ++ [y]) [] W (S (length X)) (S (length X + 0)))
        as (G' & HG & E); [by rewrite length_app; simpl; lia..|].
      destruct G'; [|done]. exists []. split; [done|]. simpl in E. rewrite <- !app_assoc in E. exact E.
    + rewrite wr_middle. simpl.
      destruct (IH (X ++ [y]) (G ++ [y]) W (S (length X)) (S (length X + S (length G)))) as (G' & HG & E);
        [rewrite !length_app; simpl; lia..|].
      rewrite length_app in HG. simpl in HG. exists G'. split; [lia|].
      rewrite <- !app_assoc in E. simpl in E. exact E.
Qed.

(** The block [Y] moves over the gap [G] above it. *)
Lemma move_up_spec Y : forall X G W from gap,
  from = (length X + length Y)%nat -> gap = length G ->
  exists G', length G' = length G /\ move_up (length Y) (X ++ Y ++ G ++ W) from gap = Some (X ++ G' ++ Y ++ W).
Proof.
  induction Y as [|y Y IH] using rev_ind; intros X G W from gap -> ->; simpl.
  - by exists G.
  - rewrite length_app, Nat.add_1_r. cbn [move_up].
    replace (Nat.pred (length X + S (length Y)))%nat with (length (X ++ Y)) by (rewrite length_app; lia).
    destruct G as [|g G _] using rev_ind.
    + replace (X ++ (Y ++ [y]) ++ [] ++ W) with ((X ++ Y) ++ y :: W) by by rewrite <- !app_assoc.
      rewrite rd_middle. cbn [mbind option_bind length]. rewrite Nat.add_0_r, wr_middle.
      destruct (IH X [] (y :: W) (length (X ++ Y)) 0%nat) as (G' & HG & E); [by rewrite length_app|done|].
      destruct G'; [|done]. exists []. split; [done|]. rewrite <- app_assoc. simpl in *.
      by rewrite <- app_assoc.
    + replace (X ++ (Y ++ [y]) ++ (G ++ [g]) ++ W) with ((X ++ Y) ++ y :: G ++ g :: W)
        by by rewrite <- !app_assoc.
      rewrite rd_middle. cbn [mbind option_bind].
      replace ((X ++ Y) ++ y :: G ++ g :: W) with (((X ++ Y) ++ y :: G) ++ g :: W) by by rewrite <- !app_assoc.
      rewrite wr_at by (rewrite !length_app; simpl; lia). cbn [mbind option_bind].
      destruct (IH X (y :: G) (y :: W) (length (X ++ Y)) (length (G ++ [g]))) as (G' & HG & E);
        [by rewrite length_app|rewrite length_app; simpl; lia|].
      exists G'. simpl in HG. split; [rewrite length_app; simpl; lia|]. rewrite <- !app_assoc. exact E.
Qed.

Lemma fill_solid_spec G : forall X W from v,
  from = length X -> fill_solid (length G) (X ++ G ++ W) from v = Some (X ++ seqZ v (Z.of_nat (length G)) ++ W).
Proof.
  induction G as [|g G IH]; intros X W from v ->; simpl; [done|].
  rewrite wr_middle. simpl. specialize (IH (X ++ [v]) W (S (length X)) (v + 1)).
  rewrite <- !app_assoc in IH. simpl in IH. rewrite IH by (rewrite length_app; simpl; lia).
  rewrite (seqZ_cons v) by lia.
  replace (Z.pred (Z.of_nat (S (length G)))) with (Z.of_nat (length G)) by lia. done.
Qed.

(** The maximal run of consecutive ids that ends at [sb - 1]. *)
Lemma run_split_left A sb :
  ascending A -> Forall (fun x => x < sb) A ->
  exists A1 k, A = A1 ++ seqZ (sb - k) k /\ 0 <= k /\ Forall (fun x => x < sb - k - 1) A1.
Proof.
  revert sb. induction A as [|x A IH] using rev_ind; intros sb Hasc HA; [by exists [], 0|].
  apply Forall_app in HA as [HA Hx]. apply Forall_cons in Hx as [Hx _].
  apply ascending_app in Hasc as (Hasc & _ & Hlt).
  destruct (decide (x = sb - 1)) as [->|Hne].
  - destruct (IH (sb - 1) Hasc) as (A1 & k & -> & Hk & H1).
    { apply Forall_forall. intros y Hy. specialize (Hlt y (sb - 1) Hy ltac:(by left)). lia. }
    exists A1, (k + 1). split_and!; [|lia|].
    + rewrite <- app_assoc. f_equal. rewrite seqZ_snoc by lia. f_equal; [f_equal; lia|f_equal; lia].
    + eapply Forall_impl; [exact H1|]. simpl. lia.
  - exists (A ++ [x]), 0. split_and!; [by rewrite app_nil_r|lia|].
    apply Forall_app. split; [|repeat constructor; lia]. apply Forall_forall. intros y Hy.
    specialize (Hlt y x Hy ltac:(by left)). lia.
Qed.

Lemma run_split_right B se :
  ascending B -> Forall (fun x => se <= x) B ->
  exists B2 k, B = seqZ se k ++ B2 /\ 0 <= k /\ Forall (fun x => se + k < x) B2.
Proof.
  revert se. induction B as [|x B IH]; intros se Hasc HB; [by exists [], 0|].
  apply Forall_cons in HB as [Hx HB]. apply ascending_cons in Hasc as [Hlt Hasc].
  rewrite Forall_forall in Hlt.
  destruct (decide (x = se)) as [->|Hne].
  - destruct (IH (se + 1) Hasc) as (B2 & k & -> & Hk & H2).
    { apply Forall_forall. intros y Hy%Hlt. lia. }
    exists B2, (k + 1). split_and!; [|lia|].
    + rewrite (seqZ_cons se (k + 1)) by lia. simpl. do 2 f_equal. f_equal; lia.
    + eapply Forall_impl; [exact H2|]. simpl. lia.
  - exists (x :: B), 0. split_and!; [done|lia|].
    constructor; [lia|]. apply Forall_forall. intros y Hy%Hlt. lia.
Qed.

Lemma extend_left_spec A1 k W sb :
  0 <= k -> Forall (fun x => x < sb - k - 1) A1 -> Forall txnid_ok (A1 ++ seqZ (sb - k) k) ->
  0 < sb <= UINT64_MAX ->
  extend_left (length A1 + Z.to_nat k) (A1 ++ seqZ (sb - k) k ++ W) sb = Some (inl (length A1, sb - k)).
Proof.
  intros Hk. revert W sb. pattern k. apply natlike_ind; [| |done]; clear k Hk.
  - intros W sb HA1 Hok Hsb. rewrite Nat.add_0_r. simpl. rewrite Z.sub_0_r.
    destruct A1 as [|x A1] using rev_ind; [done|]. clear IHA1.
    rewrite length_app, Nat.add_1_r. cbn [extend_left]. rewrite <- app_assoc. simpl. rewrite rd_middle. simpl.
    apply Forall_app in HA1 as [_ Hx]. apply Forall_cons in Hx as [Hx _].
    rewrite decide_False; [done|]. unfold u64. rewrite Z.mod_small; unfold UINT64_MAX in *; lia.
  - intros k Hk IH W sb HA1 Hok Hsb. rewrite Z2Nat.inj_succ, <- plus_n_Sm by done. cbn [extend_left].
    rewrite seqZ_unsnoc by lia. rewrite <- app_assoc, app_assoc. simpl.
    replace (sb - Z.succ k + Z.succ k - 1) with (sb - 1) by lia.
    assert (1 <= sb - Z.succ k) as Hpos.
    { apply Forall_app in Hok as [_ Hok]. rewrite Forall_forall in Hok.
      specialize (Hok (sb - Z.succ k) ltac:(apply elem_of_seqZ; lia)). unfold txnid_ok, MIN_TXNID in Hok. lia. }
    rewrite rd_at by (rewrite length_app, length_seqZ; lia). simpl.
    assert (u64 (sb - 1) = sb - 1) as Hu by (unfold u64; rewrite Z.mod_small; unfold UINT64_MAX in *; lia).
    rewrite Hu, decide_True, decide_False by lia. rewrite <- app_assoc.
    specialize (IH (sb - 1 :: W) (sb - 1)).
    replace (sb - Z.succ k) with (sb - 1 - k) by lia. replace (Z.succ k - 1) with k by lia.
    apply IH; [|  |lia].
    + eapply Forall_impl; [exact HA1|]. simpl. lia.
    + rewrite seqZ_unsnoc in Hok by lia.
      replace (sb - Z.succ k) with (sb - 1 - k) in Hok by lia. replace (Z.succ k - 1) with k in Hok by lia.
      rewrite app_assoc in Hok. by apply Forall_app in Hok as [? _].
Qed.

Lemma extend_right_spec k X B2 W se :
  0 <= k -> Forall (fun x => se + k < x) B2 -> 0 <= se -> se + k <= UINT64_MAX ->
  extend_right (Z.to_nat k + length B2) (length X) (X ++ (seqZ se k ++ B2) ++ W) se =
  Some (inl ((length X + Z.to_nat k)%nat, se + k)).
Proof.
  intros Hk. revert X se. pattern k. apply natlike_ind; [| |done]; clear k Hk.
  - intros X se HB2 H1 H2. simpl. rewrite Z.add_0_r, Nat.add_0_r.
    destruct B2 as [|y B2]; simpl; [done|]. rewrite rd_middle. simpl.
    apply Forall_cons in HB2 as [Hy _]. rewrite decide_False by lia. done.
  - intros k Hk IH X se HB2 H1 H2. rewrite Z2Nat.inj_succ by done. cbn [extend_right Nat.add].
    rewrite (seqZ_cons se) by lia. simpl. rewrite rd_middle. simpl.
    rewrite decide_True, decide_False by lia.
    assert (u64 (se + 1) = se + 1) as -> by (unfold u64; rewrite Z.mod_small; unfold UINT64_MAX in *; lia).
    specialize (IH (X ++ [se]) (se + 1)). rewrite <- app_assoc in IH. simpl in IH.
    replace (Z.succ se) with (se + 1) by lia. replace (Z.pred (Z.succ k)) with k by lia.
    rewrite length_app in IH. simpl in IH. rewrite Nat.add_1_r in IH.
    rewrite IH; [do 3 f_equal; lia| |lia|lia]. eapply Forall_impl; [exact HB2|]. simpl. lia.
Qed.
End loops.

(** ** Views of a well-formed rkl *)

Lemma elems_length r : rkl_wf r -> length (elems r) = list_length r.
Proof. intros H. unfold elems. rewrite length_take. destruct H. lia. Qed.

Lemma buf_split r : rkl_wf r -> exists W, list_buf r = elems r ++ W /\ length W = (list_limit r - list_length r)%nat.
Proof.
  intros H. exists (drop (list_length r) (list_buf r)). unfold elems. rewrite take_drop, length_drop.
  destruct H. split; [done|lia].
Qed.

Lemma elems_mk b e (n : nat) lim L W ip : n = length L -> elems (mk_rkl b e n lim (L ++ W) ip) = L.
Proof. intros ->. unfold elems. simpl. by rewrite take_app_length. Qed.

(** A well-formed rkl from its parts. *)
Lemma rkl_wf_mk b e L W lim ip :
  length (L ++ W) = lim -> (inplace_length <= lim)%nat -> (ip = true -> lim = inplace_length) ->
  ascending L -> Forall txnid_ok L -> solid_ok b e L ->
  rkl_wf (mk_rkl b e (length L) lim (L ++ W) ip).
Proof.
  intros H1 H2 H3 H4 H5 H6. split; simpl; rewrite ?elems_mk; try done.
  rewrite length_app in H1. lia.
Qed.

Lemma Forall_seqZ_ok m n : 0 <= n -> MIN_TXNID <= m -> m + n <= INVALID_TXNID -> Forall txnid_ok (seqZ m n).
Proof. intros. apply Forall_forall. intros x Hx%elem_of_seqZ. unfold txnid_ok. lia. Qed.

Section extend.
Context (have_cmov : bool).

Lemma extend_solid_spec r A B sb se id :
  rkl_wf r -> elems r = A ++ B -> Forall (fun x => x < sb) A -> Forall (fun x => se <= x) B ->
  MIN_TXNID <= sb -> sb <= id < se -> se <= UINT64_MAX ->
  exists r', extend_solid have_cmov r sb se id = Some (MDBX_SUCCESS, r') /\ rkl_wf r' /\
  (forall x, member r' x <-> x ∈ elems r \/ sb <= x < se).
Proof.
  intros Hwf E HA HB Hsb Hid Hse. unfold MIN_TXNID in Hsb.
  pose proof (wf_ascending _ Hwf) as Hasc. pose proof (wf_txnid _ Hwf) as Hok. rewrite E in Hasc, Hok.
  pose proof Hasc as (HascA & HascB & Hlt)%ascending_app. pose proof Hok as [HokA HokB]%Forall_app.
  destruct (run_split_left A sb HascA HA) as (A1 & k & EA & Hk & HA1).
  destruct (run_split_right B se HascB HB) as (B2 & j & EB & Hj & HB2).
  destruct (buf_split r Hwf) as (W & HW & HlW). pose proof (elems_length r Hwf) as Hlen.
  pose proof (wf_limit _ Hwf) as Hlim. pose proof (wf_length _ Hwf) as Hle. pose proof (wf_inplace _ Hwf) as [Hip1 Hip2].
  assert (se + j <= UINT64_MAX) as Hmax.
  { destruct (decide (j = 0)); [lia|]. rewrite EB in HokB. apply Forall_app in HokB as [HokB _].
    rewrite Forall_forall in HokB. specialize (HokB (se + j - 1) ltac:(apply elem_of_seqZ; lia)).
    unfold txnid_ok, INVALID_TXNID in HokB. lia. }
  assert (1 <= sb - k) as Hmin.
  { destruct (decide (k = 0)); [lia|]. rewrite EA in HokA. apply Forall_app in HokA as [_ HokA].
    rewrite Forall_forall in HokA. specialize (HokA (sb - k) ltac:(apply elem_of_seqZ; lia)).
    unfold txnid_ok, MIN_TXNID in HokA. lia. }
  assert (ascending (A1 ++ B2)) as Hasc'.
  { rewrite EA in HascA. rewrite EB in HascB. apply ascending_app in HascA as (H1 & _ & _).
    apply ascending_app in HascB as (_ & H2 & _). apply ascending_app. split_and!; [done|done|].
    intros x y Hx Hy. apply Hlt; [rewrite EA|rewrite EB]; apply elem_of_app; tauto. }
  assert (Forall txnid_ok (A1 ++ B2)) as Hok'.
  { rewrite EA in HokA. rewrite EB in HokB. apply Forall_app in HokA as [? _]. apply Forall_app in HokB as [_ ?].
    by apply Forall_app. }
  assert (solid_ok (sb - k) (se + j) (A1 ++ B2)) as Hsol'.
  { right. right. unfold MIN_TXNID. split_and!; [lia|lia|lia|]. apply Forall_app. unfold apart.
    split; [eapply Forall_impl; [exact HA1|]|eapply Forall_impl; [exact HB2|]]; simpl; lia. }
  assert (length A = (length A1 + Z.to_nat k)%nat) as HlA by (rewrite EA, length_app, length_seqZ; done).
  assert (length B = (Z.to_nat j + length B2)%nat) as HlB by (rewrite EB, length_app, length_seqZ; done).
  assert (list_length r = length A + length B)%nat as HlAB by (rewrite <- Hlen, E, length_app; done).
  exists (mk_rkl (sb - k) (se + j) (length (A1 ++ B2)) (list_limit r)
    ((A1 ++ B2) ++ drop (length (A1 ++ B2)) (match move_down (list_length r - (length A + Z.to_nat j)) (list_buf r)
    (length A1) (length A + Z.to_nat j) with Some b => b | None => [] end)) (list_inplace r)).
  destruct (move_down_spec B2 A1 (seqZ (sb - k) k ++ seqZ se j) W (length A1) (length A + Z.to_nat j))
    as (G' & HG' & Emove); [done|rewrite length_app, !length_seqZ; lia|].
  replace (A1 ++ (seqZ (sb - k) k ++ seqZ se j) ++ B2 ++ W) with (list_buf r) in Emove
    by (rewrite HW, E, EA, EB, <- !app_assoc; done).
  replace (list_length r - (length A + Z.to_nat j))%nat with (length B2) by lia.
  rewrite Emove, app_assoc, drop_app_length. rewrite app_assoc in Emove.
  rewrite length_app, !length_seqZ in HG'.
  split_and!.
  - unfold extend_solid.
    assert (forall b, b = (A1 ++ B2) ++ G' ++ W -> Some (MDBX_SUCCESS,
      set_solid (sb - k) (se + j) (set_list (length A1 + length B2)%nat b r)) =
      Some (MDBX_SUCCESS, mk_rkl (sb - k) (se + j) (length (A1 ++ B2)) (list_limit r) ((A1 ++ B2) ++ G' ++ W)
      (list_inplace r))) as Hdone.
    { intros b ->. unfold set_solid, set_list. simpl. by rewrite length_app. }
    case_decide as Hn0.
    + rewrite (rkl_bsearch_spec have_cmov r id A B); [|done|done| |];
        [|eapply Forall_impl; [exact HA|]; simpl; lia|eapply Forall_impl; [exact HB|]; simpl; lia].
      simpl.
      pose proof (extend_left_spec A1 k (B ++ W) sb Hk HA1) as EL.
      rewrite <- EA in EL. specialize (EL HokA ltac:(lia)). rewrite HlA.
      replace (A1 ++ seqZ (sb - k) k ++ B ++ W) with (list_buf r) in EL by (rewrite HW, E, EA, <- !app_assoc; done).
      rewrite EL. simpl.
      pose proof (extend_right_spec j A B2 W se Hj HB2 ltac:(lia) ltac:(lia)) as ER.
      rewrite <- EB in ER. rewrite HlA in ER.
      replace (A ++ B ++ W) with (list_buf r) in ER by (rewrite HW, E, <- !app_assoc; done).
      replace (list_length r - (length A1 + Z.to_nat k))%nat with (Z.to_nat j + length B2)%nat by lia.
      rewrite ER. simpl. case_decide as Hft.
      * replace (list_length r - (length A1 + Z.to_nat k + Z.to_nat j))%nat with (length B2) by lia.
        rewrite <- HlA, Emove. simpl.
        replace (list_length r - (length A + Z.to_nat j - length A1))%nat with (length A1 + length B2)%nat by lia.
        by apply Hdone.
      * assert (k = 0 /\ j = 0) as [-> ->] by lia. rewrite <- (Hdone (list_buf r)).
        -- unfold set_solid, set_list. simpl. do 3 f_equal. lia.
        -- destruct G'; [|simpl in HG'; lia]. rewrite HW, E, EA, EB. simpl. by rewrite app_nil_r.
    + assert (A1 = [] /\ B2 = [] /\ k = 0 /\ j = 0) as (-> & -> & -> & ->).
      { destruct A1, B2; simpl in *; split_and!; (done || lia). }
      rewrite <- (Hdone (list_buf r)).
      * unfold set_solid, set_list. simpl. do 3 f_equal; lia.
      * destruct G'; [|simpl in HG'; lia]. rewrite HW, E, EA, EB. done.
  - apply rkl_wf_mk; try done. rewrite !length_app. rewrite HW, !length_app in Hlim. lia.
  - intros x. unfold member. rewrite elems_mk by done. simpl. rewrite E, EA, EB.
    rewrite !elem_of_app, !elem_of_seqZ. split; intros Hx; [|].
    + destruct Hx as [[?|?]|?]; [tauto|tauto|]. destruct (decide (x < sb)); [lia|]. destruct (decide (x < se)); lia.
    + destruct Hx as [[[?|?]|[?|?]]|?]; (tauto || lia).
Qed.

Lemma extend_solid_dup r A B id :
  rkl_wf r -> elems r = A ++ id :: B -> Forall (fun x => x < id) A ->
  extend_solid have_cmov r id (u64 (id + 1)) id = Some (MDBX_RESULT_TRUE, r).
Proof.
  intros Hwf E HA. pose proof (wf_ascending _ Hwf) as Hasc. pose proof (wf_txnid _ Hwf) as Hok. rewrite E in Hasc, Hok.
  pose proof Hasc as (HascA & HascB & _)%ascending_app. apply ascending_cons in HascB as [HB _].
  pose proof Hok as [HokA HokB]%Forall_app. apply Forall_cons in HokB as [Hid _].
  unfold txnid_ok, MIN_TXNID, INVALID_TXNID in Hid.
  destruct (run_split_left A id HascA HA) as (A1 & k & EA & Hk & HA1).
  destruct (buf_split r Hwf) as (W & HW & _). pose proof (elems_length r Hwf) as Hlen.
  rewrite E, length_app in Hlen. simpl in Hlen.
  unfold extend_solid. rewrite decide_True by lia.
  rewrite (rkl_bsearch_spec have_cmov r id A (id :: B));
    [|done|done|done|constructor; [lia|eapply Forall_impl; [exact HB|]; simpl; lia]].
  simpl. pose proof (extend_left_spec A1 k (id :: B ++ W) id Hk HA1) as EL.
  rewrite <- EA in EL. specialize (EL HokA ltac:(lia)).
  replace (length A1 + Z.to_nat k)%nat with (length A) in EL by (rewrite EA, length_app, length_seqZ; done).
  replace (A1 ++ seqZ (id - k) k ++ id :: B ++ W) with (list_buf r) in EL
    by (rewrite HW, E, EA, <- !app_assoc; done).
  rewrite EL. simpl. replace (list_length r - length A)%nat with (S (length B)) by lia. simpl.
  rewrite HW, E, <- app_assoc. simpl. rewrite rd_middle. simpl.
  assert (u64 (id + 1) = id + 1) as -> by (unfold u64; rewrite Z.mod_small; unfold UINT64_MAX in *; lia).
  by rewrite decide_True, decide_True by lia.
Qed.
End extend.

(** ** Inserting into the list *)

Section insert.
Implicit Types (A B W X Y : list Z).

Lemma insert_scan_spec B : forall A c W id,
  Forall (fun x => id < x) B -> Forall (fun x => x < id) A ->
  exists c', insert_scan (length A + length B) (A ++ B ++ c :: W) id = Some (length A, A ++ c' :: B ++ W, false).
Proof.
  induction B as [|b B IH] using rev_ind; intros A c W id HB HA.
  - exists c. simpl. rewrite Nat.add_0_r. destruct A as [|a A _] using rev_ind; [done|].
    apply Forall_app in HA as [_ Ha]. apply Forall_cons in Ha as [Ha _].
    rewrite length_app, Nat.add_1_r. cbn [insert_scan]. rewrite <- app_assoc. simpl. rewrite rd_middle. simpl.
    unfold RKL_ORDERED. replace (id <? a) with false by lia. by rewrite decide_False by lia.
  - apply Forall_app in HB as [HB Hb]. apply Forall_cons in Hb as [Hb _].
    rewrite length_app, Nat.add_1_r, <- plus_n_Sm. cbn [insert_scan].
    replace (A ++ (B ++ [b]) ++ c :: W) with ((A ++ B) ++ b :: c :: W) by by rewrite <- !app_assoc.
    rewrite rd_at by (rewrite length_app; done). cbn [mbind option_bind].
    unfold RKL_ORDERED. replace (id <? b) with true by lia.
    replace ((A ++ B) ++ b :: c :: W) with (((A ++ B) ++ [b]) ++ c :: W) by by rewrite <- !app_assoc.
    rewrite wr_at by (rewrite !length_app; simpl; lia). cbn [mbind option_bind].
    destruct (IH A b (b :: W) id HB HA) as (c' & E). exists c'. rewrite <- !app_assoc. exact E.
Qed.

Lemma insert_scan_dup B : forall A c W id,
  Forall (fun x => id < x) B ->
  insert_scan (length A + S (length B)) (A ++ id :: B ++ c :: W) id =
  Some (S (length A), A ++ id :: hd c B :: B ++ W, true).
Proof.
  induction B as [|b B IH] using rev_ind; intros A c W id HB.
  - rewrite <- plus_n_Sm. simpl. rewrite Nat.add_0_r, rd_middle. simpl.
    unfold RKL_ORDERED. rewrite Z.ltb_irrefl, decide_True by done. done.
  - apply Forall_app in HB as [HB Hb]. apply Forall_cons in Hb as [Hb _].
    rewrite length_app, Nat.add_1_r, <- plus_n_Sm. cbn [insert_scan].
    replace (A ++ id :: (B ++ [b]) ++ c :: W) with ((A ++ id :: B) ++ b :: c :: W) by by rewrite <- !app_assoc.
    rewrite rd_at by (rewrite length_app; simpl; lia). cbn [mbind option_bind].
    unfold RKL_ORDERED. replace (id <? b) with true by lia.
    replace ((A ++ id :: B) ++ b :: c :: W) with (((A ++ id :: B) ++ [b]) ++ c :: W) by by rewrite <- !app_assoc.
    rewrite wr_at by (rewrite !length_app; simpl; lia). cbn [mbind option_bind].
    specialize (IH A b (b :: W) id HB). rewrite <- !app_assoc. simpl. rewrite IH.
    by destruct B.
Qed.

Lemma last_cons_default y Y g : List.last (y :: Y) g = List.last Y y.
Proof. revert y. induction Y as [|z Y IH]; intros y; [done|]. cbn in *. destruct Y; [done|]. apply (IH y). Qed.

Lemma move_down_one Y : forall X g W dst src,
  dst = length X -> src = S (length X) ->
  move_down (length Y) (X ++ g :: Y ++ W) dst src = Some (X ++ Y ++ List.last Y g :: W).
Proof.
  induction Y as [|y Y IH]; intros X g W dst src -> ->; cbn [move_down length]; [done|].
  rewrite last_cons_default.
  replace (X ++ g :: (y :: Y) ++ W) with ((X ++ [g]) ++ y :: Y ++ W) by by rewrite <- app_assoc.
  rewrite rd_at by (rewrite length_app; simpl; lia). cbn [mbind option_bind].
  rewrite <- app_assoc. simpl. rewrite wr_middle. simpl.
  specialize (IH (X ++ [y]) y W (S (length X)) (S (S (length X)))). rewrite <- !app_assoc in IH. simpl in IH.
  rewrite IH by (rewrite length_app; simpl; lia). done.
Qed.

Lemma dup_restore_move fuel buf i len :
  (len - S i < fuel)%nat -> dup_restore fuel buf i len = move_down (len - S i) buf i (S i).
Proof.
  revert buf i. induction fuel as [|fuel IH]; intros buf i Hf; [lia|]. cbn [dup_restore].
  case_decide as Hlt.
  - destruct (len - S i)%nat as [|n] eqn:En; [lia|]. cbn [move_down].
    destruct (rd buf (S i)) as [x|]; [|done]. cbn [mbind option_bind].
    replace (S i - 1)%nat with i by lia. destruct (wr buf i x) as [buf'|]; [|done]. cbn [mbind option_bind].
    rewrite IH by lia. f_equal. lia.
  - by replace (len - S i)%nat with 0%nat by lia.
Qed.

Lemma run_left_spec A1 k W nb :
  0 <= k -> Forall (fun x => x < nb - k - 1) A1 -> 1 <= nb - k -> nb <= UINT64_MAX ->
  run_left (length A1 + Z.to_nat k) (A1 ++ seqZ (nb - k) k ++ W) nb = Some (length A1, nb - k).
Proof.
  intros Hk. revert W nb. pattern k. apply natlike_ind; [| |done]; clear k Hk.
  - intros W nb HA1 H1 H2. rewrite Nat.add_0_r. simpl. rewrite Z.sub_0_r.
    destruct A1 as [|x A1 _] using rev_ind; [done|].
    rewrite length_app, Nat.add_1_r. cbn [run_left]. rewrite <- app_assoc. simpl. rewrite rd_middle. simpl.
    apply Forall_app in HA1 as [_ Hx]. apply Forall_cons in Hx as [Hx _].
    rewrite u64_small by lia. by rewrite decide_False by lia.
  - intros k Hk IH W nb HA1 H1 H2. rewrite Z2Nat.inj_succ, <- plus_n_Sm by done. cbn [run_left].
    rewrite seqZ_unsnoc by lia. rewrite <- app_assoc, app_assoc. simpl.
    replace (nb - Z.succ k + Z.succ k - 1) with (nb - 1) by lia.
    rewrite rd_at by (rewrite length_app, length_seqZ; lia). simpl.
    rewrite u64_small, decide_True by lia. rewrite <- app_assoc.
    specialize (IH (nb - 1 :: W) (nb - 1)).
    replace (nb - Z.succ k) with (nb - 1 - k) by lia. replace (Z.succ k - 1) with k by lia.
    apply IH; [|lia|lia]. eapply Forall_impl; [exact HA1|]. simpl. lia.
Qed.

Lemma run_right_spec k X B2 W ne :
  0 <= k -> Forall (fun x => ne + k < x) B2 -> 0 <= ne -> ne + k <= UINT64_MAX ->
  run_right (Z.to_nat k + length B2) (length X) (X ++ (seqZ ne k ++ B2) ++ W) ne =
  Some ((length X + Z.to_nat k)%nat, ne + k).
Proof.
  intros Hk. revert X ne. pattern k. apply natlike_ind; [| |done]; clear k Hk.
  - intros X ne HB2 H1 H2. simpl. rewrite Z.add_0_r, Nat.add_0_r.
    destruct B2 as [|y B2]; simpl; [done|]. rewrite rd_middle. simpl.
    apply Forall_cons in HB2 as [Hy _]. by rewrite decide_False by lia.
  - intros k Hk IH X ne HB2 H1 H2. rewrite Z2Nat.inj_succ by done. cbn [run_right Nat.add].
    rewrite (seqZ_cons ne) by lia. simpl. rewrite rd_middle. simpl.
    rewrite decide_True, u64_small by lia.
    specialize (IH (X ++ [ne]) (ne + 1)). rewrite <- app_assoc in IH. simpl in IH.
    replace (Z.succ ne) with (ne + 1) by lia. replace (Z.pred (Z.succ k)) with k by lia.
    rewrite length_app in IH. simpl in IH. rewrite Nat.add_1_r in IH.
    rewrite IH; [do 2 f_equal; lia| |lia|lia]. eapply Forall_impl; [exact HB2|]. simpl. lia.
Qed.
End insert.

(** ** Growing the list *)

Lemma resize_ge (n : nat) (v : Z) (l : list Z) : (length l <= n)%nat -> exists V, resize n v l = l ++ V.
Proof. intros H. rewrite resize_ge by done. eauto. Qed.

Definition push_grown (alloc : Z -> option Z) (r : rkl_t) : Z * rkl_t :=
  if decide (list_length r = list_limit r) then rkl_resize alloc r (push_size r) else (MDBX_SUCCESS, r).

(** [r'] is [r] with a larger buffer. *)
Definition same_ids (r r' : rkl_t) : Prop :=
  rkl_wf r' /\ elems r' = elems r /\ list_length r' = list_length r /\
  solid_begin r' = solid_begin r /\ solid_end r' = solid_end r.

Lemma txl_max_val : txl_max = 67108860.
Proof. reflexivity. Qed.

Lemma rkl_size2bytes_ge size : 0 <= size <= txl_max -> 8 * size <= rkl_size2bytes size.
Proof.
  intros H. rewrite txl_max_val in H. unfold rkl_size2bytes, txl_granulate, MDBX_ASSUME_MALLOC_OVERHEAD.
  change (32 * 8) with (2 ^ 8).
  destruct (ceil_powerof2_spec (16 + 8 * size) 8); lia.
Qed.

Lemma push_grown_spec alloc r err r' :
  alloc_ok alloc -> rkl_wf r -> push_grown alloc r = (err, r') ->
  (err = MDBX_SUCCESS /\ same_ids r r' /\ (list_length r' < list_limit r')%nat) \/
  ((err = MDBX_ENOMEM \/ err = MDBX_TXN_FULL) /\ r' = r).
Proof.
  intros Ha Hwf. unfold push_grown. pose proof (wf_length _ Hwf). pose proof (wf_limit _ Hwf) as Hlim.
  pose proof (wf_inplace _ Hwf) as [Hip _].
  case_decide as Hfull; [|intros [= <- <-]; left; split_and!; try done; lia].
  assert (62 <= push_size r \/ Z.of_nat (list_length r) + 42 = push_size r) as Hps0.
  { unfold push_size. rewrite txl_max_val. repeat case_decide; lia. }
  assert (push_size r > Z.of_nat (list_length r)) as Hps.
  { unfold push_size. generalize txl_max. intros m. repeat case_decide; lia. }
  unfold rkl_resize. unfold inplace_length in *.
  case_decide as Hmax; [intros [= <- <-]; right; tauto|].
  rewrite decide_False by lia. rewrite decide_False by lia. rewrite decide_True by lia.
  destruct (alloc _) as [usable|] eqn:Ealloc; [|intros [= <- <-]; right; tauto].
  apply Ha in Ealloc. pose proof (rkl_size2bytes_ge (push_size r) ltac:(lia)).
  assert (push_size r <= usable / 8) as Hu by (apply Z.div_le_lower_bound; lia).
  unfold rkl_bytes2size.
  destruct (resize_ge (Z.to_nat (usable / 8)) 0 (list_buf r)) as [V HV]; [lia|]. rewrite HV.
  assert (length (list_buf r ++ V) = Z.to_nat (usable / 8)) as HlV by (rewrite <- HV; apply length_resize).
  intros [= <- <-]. left. split; [done|]. split; [|simpl; lia].
  assert (elems (mk_rkl (solid_begin r) (solid_end r) (list_length r) (Z.to_nat (usable / 8)) (list_buf r ++ V) false)
    = elems r) as Hel by (unfold elems; simpl; rewrite take_app_le by lia; done).
  split_and!; try done. destruct Hwf. split; simpl; rewrite ?Hel; try done; unfold inplace_length; lia.
Qed.

(** ** Exchanging the interval with a run of the list *)

Section swap.
Implicit Types (A B P Q R W S : list Z).

Lemma block_split R (n : nat) : (n <= length R)%nat -> exists R1 R2, R = R1 ++ R2 /\ length R1 = n.
Proof. intros H. exists (take n R), (drop n R). rewrite take_drop, length_take. split; [done|lia]. Qed.

(** Writing the ids of the interval over the block [R] and closing the gap. *)
Lemma fill_and_close X R Y W (o : nat) sb from to :
  (o <= length R)%nat -> from = length X -> to = (length X + length R)%nat ->
  exists W', length W' = (length W + length R - o)%nat /\
  (buf ← fill_solid o (X ++ R ++ Y ++ W) from sb; move_down (length Y) buf (from + o) to) =
  Some ((X ++ seqZ sb (Z.of_nat o) ++ Y) ++ W').
Proof.
  intros Ho -> ->. destruct (block_split R o Ho) as (R1 & R2 & -> & <-).
  rewrite <- (app_assoc R1), fill_solid_spec by done. cbn [mbind option_bind].
  destruct (move_down_spec Y (X ++ seqZ sb (Z.of_nat (length R1))) R2 W (length X + length R1) (length X + length (R1 ++ R2)))
    as (G & HG & E); [rewrite length_app, length_seqZ; lia|rewrite !length_app, length_seqZ; lia|].
  rewrite <- !app_assoc in E. rewrite E. exists (G ++ W). rewrite <- !app_assoc.
  split; [rewrite !length_app; lia|done].
Qed.

Lemma swap_solid_spec r A R B W nb ne P Q pos :
  list_buf r = (A ++ R ++ B) ++ W -> list_length r = length (A ++ R ++ B) ->
  solid_begin r <= solid_end r -> solid_end r - solid_begin r <= Z.of_nat (length R) ->
  A ++ B = P ++ Q ->
  (pos = length P /\ length P <= length A \/ pos = length P + length R /\ length A <= length P)%nat ->
  exists W', length W' = (length W + length R - Z.to_nat (solid_end r - solid_begin r))%nat /\
  swap_solid r (length A) (length A + length R) nb ne pos =
  Some (mk_rkl nb ne (length (P ++ seqZ (solid_begin r) (solid_end r - solid_begin r) ++ Q)) (list_limit r)
    ((P ++ seqZ (solid_begin r) (solid_end r - solid_begin r) ++ Q) ++ W') (list_inplace r)).
Proof.
  intros Hbuf Hlen Hse Ho HPQ Hpos0. set (sb := solid_begin r) in *. set (o := Z.to_nat (solid_end r - sb)).
  replace (solid_end r - sb) with (Z.of_nat o) by lia.
  assert (o <= length R)%nat as HoR by lia.
  unfold swap_solid. replace (length A + length R - length A)%nat with (length R) by lia.
  fold sb o. rewrite Hlen, Hbuf.
  assert (forall n1 b1 n2 b2, n1 = n2 -> b1 = b2 ->
    Some (mk_rkl nb ne n1 (list_limit r) b1 (list_inplace r)) = Some (mk_rkl nb ne n2 (list_limit r) b2 (list_inplace r)))
    as Heq by (intros; congruence).
  destruct (decide (length P = length A)) as [HPA|HPA]; [|destruct Hpos0 as [[-> Hpos]|[-> Hpos]]].
  - (* nothing moves before the interval is written *)
    apply app_inj_1 in HPQ as [-> ->]; [|done].
    rewrite decide_False by lia. rewrite decide_False by lia. cbn [mbind option_bind].
    destruct (fill_and_close P R Q W o sb (length P) (length P + length R)) as (W' & HW' & E); try done.
    replace (length (P ++ R ++ Q) - (length P + length R))%nat with (length Q) by (rewrite !length_app; lia).
    rewrite <- app_assoc, <- app_assoc.
    destruct (fill_solid o (P ++ R ++ Q ++ W) (length P) sb) as [buf|]; [|done]. cbn [mbind option_bind] in *.
    rewrite Nat.add_0_l, E. cbn [mbind option_bind]. exists W'. split; [done|].
    apply Heq; [rewrite !length_app, length_seqZ; lia|done].
  - (* [P] is a prefix of [A] *)
    destruct (block_split A (length P) Hpos) as (P' & Q1 & -> & HP).
    rewrite <- app_assoc in HPQ. apply app_inj_1 in HPQ as [-> <-]; [|done]. clear HP.
    case_decide as Hlt.
    + destruct (block_split R o HoR) as (R1 & R2 & -> & HR1).
      rewrite length_app in Hlt.
      destruct (move_up_spec Q1 P R1 (R2 ++ B ++ W) (length (P ++ Q1)) o) as (G & HG & E);
        [by rewrite length_app|done|].
      replace (length (P ++ Q1) - length P)%nat with (length Q1) by (rewrite length_app; lia).
      replace (((P ++ Q1) ++ (R1 ++ R2) ++ B) ++ W) with (P ++ Q1 ++ R1 ++ R2 ++ B ++ W) by by rewrite <- !app_assoc.
      rewrite E. cbn [mbind option_bind].
      rewrite <- HR1, <- HG, fill_solid_spec by done. cbn [mbind option_bind].
      destruct (move_down_spec B (P ++ seqZ sb (Z.of_nat (length G)) ++ Q1) R2 W (length Q1 + (length P + length G))
        (length P + length Q1 + length (R1 ++ R2))) as (G2 & HG2 & E2);
        [rewrite !length_app, length_seqZ; lia|rewrite !length_app, length_seqZ; lia|].
      replace (length ((P ++ Q1) ++ (R1 ++ R2) ++ B) - (length (P ++ Q1) + length (R1 ++ R2)))%nat with (length B)
        by (rewrite !length_app; lia).
      rewrite (length_app P Q1). rewrite <- !app_assoc in E2. rewrite E2. cbn [mbind option_bind].
      exists (G2 ++ W). split; [rewrite !length_app; lia|]. apply Heq.
      * rewrite !length_app, length_seqZ. lia.
      * by rewrite <- !app_assoc.
    + rewrite length_app in *. lia.
  - (* [P] goes beyond [A] *)
    assert (exists P1, P = A ++ P1 /\ B = P1 ++ Q) as (P1 & -> & ->).
    { destruct (block_split P (length A)) as (A' & P1 & -> & HA'); [lia|]. exists P1.
      rewrite <- app_assoc in HPQ. apply app_inj_1 in HPQ as [-> ->]; [|done]. done. }
    rewrite length_app in HPA. rewrite !length_app. rewrite decide_False by lia. rewrite decide_True by lia.
    replace (length A + length P1 + length R - length R - length A)%nat with (length P1) by lia.
    destruct (move_down_spec P1 A R (Q ++ W) (length A) (length A + length R)) as (G & HG & E); [done|done|].
    replace ((A ++ R ++ P1 ++ Q) ++ W) with (A ++ R ++ P1 ++ Q ++ W) by by rewrite <- !app_assoc.
    rewrite E. cbn [mbind option_bind].
    destruct (fill_and_close (A ++ P1) G Q W o sb (length A + length P1) (length A + length R + length P1))
      as (W' & HW' & E2); [lia|rewrite length_app; lia|rewrite length_app; lia|].
    rewrite <- !app_assoc in E2.
    replace (length A + (length R + (length P1 + length Q)) - (length A + length R + length P1))%nat
      with (length Q) by lia.
    destruct (fill_solid o _ _ sb) as [buf|]; [|done]. cbn [mbind option_bind] in *.
    rewrite Nat.add_0_l, E2. cbn [mbind option_bind]. exists W'. split; [lia|].
    apply Heq; [rewrite length_seqZ; lia|by rewrite <- !app_assoc].
Qed.
End swap.

(** ** What follows the insertion *)

Lemma run_apart nb ne b e :
  nb < ne -> b < e -> (forall x, nb <= x < ne -> apart b e x) -> ne < b \/ e < nb.
Proof.
  unfold apart. intros H1 H2 H. destruct (decide (ne < b)); [tauto|]. right.
  destruct (decide (e < nb)); [done|]. exfalso.
  destruct (decide (b - 1 <= nb)); [specialize (H nb)|specialize (H (b - 1))]; lia.
Qed.

Section tail.
Context (have_cmov : bool).
Implicit Types (A B P Q W : list Z).

Lemma swapped_wf r A B W nb ne P Q :
  rkl_wf r -> elems r = A ++ seqZ nb (ne - nb) ++ B -> MIN_TXNID <= nb -> nb < ne -> ne <= UINT64_MAX ->
  Forall (fun x => x < nb - 1) A -> Forall (fun x => ne < x) B ->
  solid_begin r < solid_end r -> A ++ B = P ++ Q ->
  Forall (fun x => x < solid_begin r) P -> Forall (fun x => solid_begin r <= x) Q ->
  let L := P ++ seqZ (solid_begin r) (solid_end r - solid_begin r) ++ Q in
  length (L ++ W) = list_limit r ->
  let r' := mk_rkl nb ne (length L) (list_limit r) (L ++ W) (list_inplace r) in
  rkl_wf r' /\ forall x, member r' x <-> member r x.
Proof.
  intros Hwf E Hnb Hne Hmax HA HB Hse HPQ HP HQ L HL r'.
  pose proof (wf_solid _ Hwf) as [(? & ? & Hnil)|[(? & ? & ?)|(Hsb & _ & Hse2 & Hap)]];
    [rewrite H, H0 in Hse; unfold UINT64_MAX in Hse; lia|lia|].
  pose proof (wf_inplace _ Hwf) as [Hip1 Hip2]. pose proof (wf_ascending _ Hwf) as Hasc. pose proof (wf_txnid _ Hwf) as Hok.
  rewrite E in Hasc, Hok, Hap.
  apply ascending_app in Hasc as (HascA & (HascS & HascB & HltSB)%ascending_app & HltA).
  apply Forall_app in Hok as [HokA [HokS HokB]%Forall_app]. apply Forall_app in Hap as [HapA [HapS HapB]%Forall_app].
  rewrite Forall_forall in HapS.
  assert (ne < solid_begin r \/ solid_end r < nb) as Hside.
  { apply run_apart; [done|done|]. intros x Hx. apply HapS, elem_of_seqZ. lia. }
  assert (ascending (P ++ Q)) as HascPQ.
  { rewrite <- HPQ. apply ascending_app. split_and!; [done|done|]. intros x y Hx Hy. apply HltA; [done|].
    apply elem_of_app. tauto. }
  assert (Forall (apart (solid_begin r) (solid_end r)) (P ++ Q)) as HapPQ by (rewrite <- HPQ; by apply Forall_app).
  assert (Forall txnid_ok (P ++ Q)) as HokPQ by (rewrite <- HPQ; by apply Forall_app).
  apply ascending_app in HascPQ as (HascP & HascQ & _).
  apply Forall_app in HapPQ as [HapP HapQ]. apply Forall_app in HokPQ as [HokP HokQ].
  split.
  - apply rkl_wf_mk; try done.
    + unfold L. apply ascending_seqZ_between; [done|done|done| |lia].
      apply Forall_forall. intros x Hx. rewrite Forall_forall in HQ, HapQ. specialize (HQ x Hx).
      specialize (HapQ x Hx). unfold apart in HapQ. lia.
    + unfold L. rewrite !Forall_app. split_and!; [done| |done].
      apply Forall_seqZ_ok; [lia|done|]. unfold INVALID_TXNID. lia.
    + right. right. split_and!; [done|done|done|].
      assert (Forall (apart nb ne) (P ++ Q)) as HPQ'.
      { rewrite <- HPQ. apply Forall_app. unfold apart.
        split; [eapply Forall_impl; [exact HA|]|eapply Forall_impl; [exact HB|]]; simpl; lia. }
      apply Forall_app in HPQ' as [HP' HQ']. unfold L. rewrite !Forall_app. split_and!; [done| |done].
      apply Forall_forall. intros x Hx%elem_of_seqZ. unfold apart. lia.
  - intros x. unfold member. rewrite E. unfold r'. rewrite elems_mk by done. simpl. unfold L.
    assert (x ∈ A ++ B <-> x ∈ P ++ Q) as HAB by by rewrite HPQ.
    rewrite !elem_of_app, !elem_of_seqZ in *. clear -HAB Hne Hse.
    replace (nb + (ne - nb)) with ne by lia. replace (solid_begin r + (solid_end r - solid_begin r)) with (solid_end r) by lia.
    tauto.
Qed.

Lemma swap_place A R B P0 Q0 nb ne b e :
  A ++ R ++ B = P0 ++ Q0 -> R = seqZ nb (ne - nb) -> nb < ne -> b < e ->
  Forall (apart b e) (A ++ R ++ B) -> ascending (A ++ R ++ B) ->
  Forall (fun x => x < b) P0 -> Forall (fun x => b <= x) Q0 ->
  exists P Q, A ++ B = P ++ Q /\ Forall (fun x => x < b) P /\ Forall (fun x => b <= x) Q /\
  (length P0 = length P /\ length P <= length A \/
    length P0 = length P + length R /\ length A <= length P)%nat.
Proof.
  intros E -> Hne Hbe Hap Hasc HP HQ. set (R := seqZ nb (ne - nb)) in *.
  apply Forall_app in Hap as [HapA [HapR HapB]%Forall_app]. rewrite Forall_forall in HapR.
  destruct (run_apart nb ne b e) as [Hside|Hside]; [done|done| | |].
  - intros x Hx. apply HapR, elem_of_seqZ. lia.
  - (* the run is below the interval *)
    assert (length A + length R <= length P0)%nat as Hlen.
    { destruct (decide (length A + length R <= length P0)%nat); [done|]. exfalso.
      assert ((A ++ R ++ B) !! (length A + length R - 1)%nat = Some (ne - 1)) as Hl.
      { rewrite lookup_app_r by (unfold R; rewrite length_seqZ; lia). rewrite lookup_app_l by (unfold R; rewrite length_seqZ; lia).
        apply lookup_seqZ. unfold R. rewrite length_seqZ. lia. }
      rewrite E, lookup_app_r in Hl by lia. eapply Forall_lookup_1 in HQ; [|exact Hl]. simpl in HQ. lia. }
    destruct (block_split P0 (length (A ++ R))) as (AR & P1 & -> & HAR); [rewrite length_app; lia|].
    rewrite app_assoc, <- (app_assoc AR) in E. apply app_inj_1 in E as [<- ->]; [|done].
    apply Forall_app in HP as [[HPA _]%Forall_app HP1].
    exists (A ++ P1), Q0. rewrite <- app_assoc. split_and!; [done|by apply Forall_app|done|].
    right. rewrite !length_app. lia.
  - (* the run is above the interval *)
    assert (length P0 <= length A)%nat as Hlen.
    { destruct (decide (length P0 <= length A)%nat); [done|]. exfalso.
      assert ((A ++ R ++ B) !! length A = Some nb) as Hl.
      { rewrite lookup_app_r, Nat.sub_diag by lia. unfold R. by rewrite seqZ_cons by lia. }
      rewrite E, lookup_app_l in Hl by lia. eapply Forall_lookup_1 in HP; [|exact Hl]. simpl in HP. lia. }
    destruct (block_split A (length P0) Hlen) as (P' & A2 & -> & HP').
    rewrite <- app_assoc in E. apply app_inj_1 in E as [-> <-]; [|done].
    exists P0, (A2 ++ B). rewrite <- app_assoc. split_and!; [done|done| |].
    + rewrite !Forall_app in *. tauto.
    + left. rewrite length_app. lia.
Qed.

Lemma push_tail_spec r A B id :
  rkl_wf r -> elems r = A ++ id :: B -> solid_begin r < solid_end r ->
  exists r', push_tail have_cmov r (length A) id = Some r' /\ rkl_wf r' /\ forall x, member r' x <-> member r x.
Proof.
  intros Hwf E Hse.
  pose proof (wf_solid _ Hwf) as [(H1 & H2 & _)|[(? & _)|(Hsb & _ & Hse2 & Hap)]];
    [rewrite H1, H2 in Hse; unfold UINT64_MAX in Hse; lia|lia|].
  pose proof (wf_ascending _ Hwf) as Hasc. pose proof (wf_txnid _ Hwf) as Hok.
  destruct (buf_split r Hwf) as (W & HW & HlW). pose proof (elems_length r Hwf) as Hlen.
  pose proof (wf_limit _ Hwf) as Hlim. pose proof (wf_length _ Hwf) as Hle. rewrite E in *.
  rewrite length_app in Hlen. simpl in Hlen.
  pose proof Hasc as (HascA & HascB & HltA)%ascending_app. apply ascending_cons in HascB as [HltB HascB].
  pose proof Hok as [HokA HokB]%Forall_app. apply Forall_cons in HokB as [Hid HokB].
  unfold txnid_ok, MIN_TXNID, INVALID_TXNID in Hid.
  assert (Forall (fun x => x < id) A) as HA by (apply Forall_forall; intros x Hx; apply HltA; [done|by left]).
  assert (Forall (fun x => id + 1 <= x) B) as HB by (eapply Forall_impl; [exact HltB|]; simpl; lia).
  destruct (run_split_left A id HascA HA) as (A1 & k & EA & Hk & HA1).
  destruct (run_split_right B (id + 1) HascB HB) as (B2 & j & EB & Hj & HB2).
  assert (MIN_TXNID <= id - k) as Hlow.
  { destruct (decide (k = 0)); [unfold MIN_TXNID; lia|]. rewrite EA in HokA. apply Forall_app in HokA as [_ HokA].
    rewrite Forall_forall in HokA. specialize (HokA (id - k) ltac:(apply elem_of_seqZ; lia)). apply HokA. }
  assert (id + 1 + j <= UINT64_MAX) as Hhigh.
  { destruct (decide (j = 0)); [lia|]. rewrite EB in HokB. apply Forall_app in HokB as [HokB _].
    rewrite Forall_forall in HokB. specialize (HokB (id + j) ltac:(apply elem_of_seqZ; lia)).
    unfold txnid_ok, INVALID_TXNID in HokB. lia. }
  assert (exists c : bool, (if decide (16 < list_length r)%nat then
    p ← prev_is (list_buf r) (length A) (u64 (id - 1));
    if p : bool then Some true else next_is (list_buf r) (list_length r) (length A + 1) (u64 (id + 1))
    else Some false) = Some c) as [near Hnear].
  { case_decide; [|eauto].
    assert (exists p, prev_is (list_buf r) (length A) (u64 (id - 1)) = Some p) as [p ->].
    { unfold prev_is. destruct A as [|a A _] using rev_ind; [eauto|]. rewrite length_app, Nat.add_1_r.
      rewrite HW, <- !app_assoc. simpl. rewrite rd_middle. simpl. eauto. }
    simpl. destruct p; [eauto|]. unfold next_is. case_decide; [|eauto].
    destruct (rd_Some (list_buf r) (length A + 1)) as [x ->]; [lia|]. simpl. eauto. }
  unfold push_tail. rewrite Hnear. cbn [mbind option_bind]. destruct near; [|eauto]. clear Hnear.
  pose proof (run_left_spec A1 k (id :: B ++ W) id Hk HA1 ltac:(unfold MIN_TXNID in *; lia) ltac:(lia)) as EL.
  pose proof (run_right_spec j (A ++ [id]) B2 W (id + 1) Hj HB2 ltac:(lia) Hhigh) as ER.
  assert (length A = (length A1 + Z.to_nat k)%nat) as HlA by (rewrite EA, length_app, length_seqZ; done).
  assert (length B = (Z.to_nat j + length B2)%nat) as HlB by (rewrite EB, length_app, length_seqZ; done).
  rewrite <- HlA, app_assoc, <- EA in EL.
  replace (A ++ id :: B ++ W) with (list_buf r) in EL by (rewrite HW, <- app_assoc; done).
  rewrite <- HlB, <- EB, length_app, <- app_assoc in ER. cbn [length app] in ER.
  replace (A ++ id :: B ++ W) with (list_buf r) in ER by (rewrite HW, <- app_assoc; done).
  rewrite EL. cbn [mbind option_bind]. rewrite (u64_small (id + 1)) by lia.
  replace (list_length r - (length A + 1))%nat with (length B) by lia.
  rewrite ER. cbn [mbind option_bind].
  case_decide; [|eauto]. case_decide as Hlonger; [|eauto]. rewrite u64_small in * by (unfold MIN_TXNID in *; lia).
  destruct (ascending_split (A ++ id :: B) (solid_begin r) Hasc) as (P0 & Q0 & EPQ & HP0 & HQ0).
  rewrite (rkl_bsearch_spec have_cmov r (solid_begin r) P0 Q0); [|done|by rewrite E|done|done].
  cbn [mbind option_bind]. case_decide; [|eauto]. clear H0.
  set (R := seqZ (id - k) (id + 1 + j - (id - k))).
  assert (A ++ id :: B = A1 ++ R ++ B2) as ER'.
  { unfold R. replace (id + 1 + j - (id - k)) with (k + (1 + j)) by lia. rewrite seqZ_app by lia.
    rewrite (seqZ_cons _ (1 + j)) by lia. rewrite EA, EB, <- !app_assoc. simpl. do 5 f_equal; lia. }
  assert (length R = Z.to_nat (k + 1 + j)) as HlR by (unfold R; rewrite length_seqZ; lia).
  assert (exists P Q, A1 ++ B2 = P ++ Q /\ Forall (fun x => x < solid_begin r) P /\
    Forall (fun x => solid_begin r <= x) Q /\ (length P0 = length P /\ length P <= length A1 \/
    length P0 = length P + length R /\ length A1 <= length P)%nat) as (P & Q & HPQ & HP & HQ & Hpos).
  { apply (swap_place A1 R B2 P0 Q0 (id - k) (id + 1 + j) (solid_begin r) (solid_end r));
      rewrite <- ?ER'; (done || lia). }
  destruct (swap_solid_spec r A1 R B2 W (id - k) (id + 1 + j) P Q (length P0)) as (W' & HW' & ES);
    [by rewrite HW, ER'|rewrite <- ER', length_app; simpl; lia|lia|lia|done|done|].
  replace (length A + 1 + Z.to_nat j)%nat with (length A1 + length R)%nat by lia.
  rewrite ES. eexists. split; [reflexivity|].
  eapply (swapped_wf r A1 B2); try done; try lia.
  - by rewrite E, ER'.
  - rewrite length_app, HW', <- Hlim, HW, ER', !length_app, length_seqZ.
    apply (f_equal length) in HPQ. rewrite !length_app in HPQ. lia.
Qed.
End tail.

(** ** The whole push *)

(** What a push of a new id does: it succeeds, or changes nothing because the
    buffer cannot grow. *)
Definition pushed (r : rkl_t) (id : Z) (res : option (Z * rkl_t)) : Prop :=
  exists err r', res = Some (err, r') /\
  ((err = MDBX_SUCCESS /\ rkl_wf r' /\ forall x, member r' x <-> member r x \/ x = id) \/
    ((err = MDBX_ENOMEM \/ err = MDBX_TXN_FULL) /\ r' = r)).

Lemma pushed_intro r id r' :
  rkl_wf r' -> (forall x, member r' x <-> member r x \/ x = id) -> pushed r id (Some (MDBX_SUCCESS, r')).
Proof. intros. exists MDBX_SUCCESS, r'. tauto. Qed.

(** An ascending list split around a value which is not in it. *)
Lemma split_around (l : list Z) id :
  ascending l -> id ∉ l ->
  exists A B, l = A ++ B /\ Forall (fun x => x < id) A /\ Forall (fun x => id < x) B.
Proof.
  intros Hasc Hid. destruct (ascending_split l id Hasc) as (A & B & -> & HA & HB). exists A, B. split_and!; [done..|].
  apply Forall_forall. intros x Hx. rewrite Forall_forall in HB. specialize (HB x Hx). simpl in HB.
  destruct (decide (x = id)) as [->|]; [|lia]. exfalso. apply Hid, elem_of_app. tauto.
Qed.

Lemma ascending_insert A B id :
  ascending (A ++ B) -> Forall (fun x => x < id) A -> Forall (fun x => id < x) B -> ascending (A ++ id :: B).
Proof.
  rewrite !Forall_forall, !ascending_app. intros (HA & HB & HAB) H1 H2. split_and!; [done| |].
  - apply ascending_cons. split; [by apply Forall_forall|done].
  - intros x y Hx [->|Hy]%elem_of_cons; [by apply H1|]. by apply HAB.
Qed.

Section push.
Context (have_cmov : bool) (alloc : Z -> option Z) (Halloc : alloc_ok alloc).

Lemma push_room_spec r id :
  rkl_wf r -> txnid_ok id -> solid_begin r < solid_end r -> apart (solid_begin r) (solid_end r) id ->
  id ∉ elems r -> (list_length r < list_limit r)%nat ->
  exists r', ('(i, buf, dup) ← insert_scan (list_length r) (list_buf r) id;
    if dup : bool then
      buf ← dup_restore (S (list_length r)) buf i (list_length r);
      Some (MDBX_RESULT_TRUE, set_list (list_length r) buf r)
    else
      buf ← wr buf i id;
      r ← push_tail have_cmov (set_list (S (list_length r)) buf r) i id;
      Some (MDBX_SUCCESS, r)) = Some (MDBX_SUCCESS, r') /\
  rkl_wf r' /\ forall x, member r' x <-> member r x \/ x = id.
Proof.
  intros Hwf Hid Hse Hap Hnin Hroom.
  destruct (split_around (elems r) id (wf_ascending _ Hwf) Hnin) as (A & B & E & HA & HB).
  destruct (buf_split r Hwf) as (W & HW & HlW). pose proof (elems_length r Hwf) as Hlen.
  destruct W as [|c W]; [simpl in HlW; lia|]. rewrite E in Hlen, HW. rewrite length_app in Hlen.
  destruct (insert_scan_spec B A c W id HB HA) as [c' Escan].
  rewrite HW, <- app_assoc, <- Hlen, Escan. cbn [mbind option_bind]. rewrite wr_middle. cbn [mbind option_bind].
  set (r1 := set_list (S (length A + length B)) (A ++ id :: B ++ W) r).
  assert (elems r1 = A ++ id :: B) as E1.
  { unfold elems, r1. simpl. replace (A ++ id :: B ++ W) with ((A ++ id :: B) ++ W) by by rewrite <- app_assoc.
    apply take_app_length'. rewrite length_app. simpl. lia. }
  pose proof (wf_limit _ Hwf) as Hlim.
  assert (rkl_wf r1) as Hwf1.
  { destruct Hwf as [H1 H2 H3 H4 H5 H6]. rewrite E in *. split; rewrite ?E1; simpl; try done; try lia.
    - rewrite HW, !length_app in Hlim. simpl in Hlim. rewrite !length_app. simpl. rewrite length_app. simpl. lia.
    - by apply ascending_insert.
    - rewrite Forall_app in *. split; [tauto|]. constructor; tauto.
    - destruct H6 as [(Hb & He & _)|[(Hb & _)|(Hb & _ & He & Hl)]];
        [rewrite Hb, He in Hse; unfold UINT64_MAX in Hse; lia|lia|].
      right. right. split_and!; try done. rewrite Forall_app in *. split; [tauto|]. constructor; tauto. }
  destruct (push_tail_spec have_cmov r1 A B id Hwf1 E1 Hse) as (r' & Et & Hwf' & Hm).
  rewrite Et. cbn [mbind option_bind]. exists r'. split_and!; [done|done|].
  intros x. rewrite Hm. unfold member. rewrite E1, E. simpl. rewrite !elem_of_app, elem_of_cons. tauto.
Qed.

Lemma push_list_spec r id :
  rkl_wf r -> txnid_ok id -> solid_begin r < solid_end r -> apart (solid_begin r) (solid_end r) id ->
  id ∉ elems r -> pushed r id (push_list have_cmov alloc r id).
Proof.
  intros Hwf Hid Hse Hap Hnin. unfold push_list. pose proof (elems_length r Hwf) as Hlen.
  destruct (buf_split r Hwf) as (W & HW & HlW).
  pose proof (wf_txnid _ Hwf) as Hok. pose proof (wf_solid _ Hwf) as Hsol.
  destruct Hsol as [(Hb & He & _)|[(Hb & _)|(Hb & _ & He & Hl)]];
    [rewrite Hb, He in Hse; unfold UINT64_MAX in Hse; lia|lia|].
  assert (exists couple : option Z, (if decide (list_length r = 1%nat /\ solid_end r = u64 (solid_begin r + 1)) then
    x ← rd (list_buf r) 0;
    Some (if decide (x = u64 (id + 1)) then Some id
    else if decide (x = u64 (id - 1)) then Some (u64 (id - 1)) else None)
    else Some None) = Some couple /\
    (forall c, couple = Some c -> solid_end r = solid_begin r + 1 /\
    ((elems r = [id + 1] /\ c = id) \/ (elems r = [id - 1] /\ c = id - 1)))) as (couple & -> & Hcouple).
  { case_decide as Hone; [|eexists; split; [done|]; intros c ?; done]. destruct Hone as [Hone Hse1].
    destruct (elems r) as [|x [|]] eqn:E; simpl in *; try lia.
    rewrite HW. simpl. eexists. split; [done|]. intros c Hc. apply Forall_cons in Hok as [Hx _].
    unfold txnid_ok, MIN_TXNID, INVALID_TXNID in *.
    rewrite u64_small in Hse1 by lia. rewrite !u64_small in Hc by lia.
    split; [done|]. repeat case_decide; simplify_eq; [left|right]; split; f_equal; lia. }
  cbn [mbind option_bind]. destruct couple as [c|].
  - destruct (Hcouple c eq_refl) as [Hse1 Hc]. clear Hcouple.
    assert (exists x, elems r = [x] /\ (x = id + 1 /\ c = id \/ x = id - 1 /\ c = id - 1)) as (x & E & Hx)
      by (destruct Hc as [[? ?]|[? ?]]; eauto 10).
    rewrite HW, E. simpl. unfold txnid_ok, apart, MIN_TXNID, INVALID_TXNID in *. rewrite E in Hok, Hl, Hlen.
    apply Forall_cons in Hok as [Hokx _]. apply Forall_cons in Hl as [Hlx _].
    rewrite u64_small by lia. apply pushed_intro.
    + unfold set_solid, set_list. simpl. rewrite <- Hlen.
      pose proof (wf_inplace _ Hwf). pose proof (wf_limit _ Hwf) as Hlim. rewrite HW, E in Hlim.
      apply (rkl_wf_mk _ _ [solid_begin r] W); try tauto.
      * intros i j y z Hij Hi Hj. destruct i as [|i], j as [|j]; simplify_eq/=; lia.
      * constructor; [|done]. unfold txnid_ok, MIN_TXNID, INVALID_TXNID in *. lia.
      * right. right. unfold MIN_TXNID, apart. split_and!; [lia..|]. constructor; [lia|done].
    + intros y. unfold member. rewrite E. unfold elems. simpl. rewrite <- Hlen. simpl. rewrite !list_elem_of_singleton. lia.
  - destruct (if decide (list_length r = list_limit r) then _ else _) as [err r1] eqn:Egrow.
    change (push_grown alloc r = (err, r1)) in Egrow.
    destruct (push_grown_spec alloc r err r1 Halloc Hwf Egrow)
      as [(-> & (Hwf1 & E1 & Hn & Hb1 & He1) & Hroom)|[Herr ->]].
    + rewrite decide_False by (intros []; done).
      destruct (push_room_spec r1 id) as (r' & -> & Hwf' & Hm); rewrite ?E1, ?Hb1, ?He1; try done.
      apply pushed_intro; [done|]. intros x. rewrite Hm. unfold member. by rewrite E1, Hb1, He1.
    + rewrite decide_True by (destruct Herr as [-> | ->]; done). exists err, r. split; [done|]. tauto.
Qed.

(** A new id. *)
Lemma rkl_push_new r id :
  rkl_wf r -> txnid_ok id -> ~ member r id -> pushed r id (rkl_push have_cmov alloc r id).
Proof.
  intros Hwf Hid Hnew. unfold rkl_push, member in *.
  pose proof Hid as [Hid1 Hid2]. unfold MIN_TXNID, INVALID_TXNID in Hid1, Hid2.
  destruct (split_around (elems r) id (wf_ascending _ Hwf) ltac:(tauto)) as (A & B & E & HA & HB).
  assert (Forall (fun x => id + 1 <= x) B) as HB' by (eapply Forall_impl; [exact HB|]; simpl; lia).
  rewrite (u64_small (id + 1)) by lia.
  case_decide as Hempty.
  - destruct (extend_solid_spec have_cmov r A B id (id + 1) id) as (r' & -> & Hwf' & Hm); try done; try (unfold MIN_TXNID; lia).
    apply pushed_intro; [done|]. intros x. rewrite Hm. unfold member. intuition lia.
  - destruct (wf_solid _ Hwf) as [(Hb & He & _)|[(Hb & _)|(Hb & _ & He & Hl)]];
      [rewrite Hb, He in Hempty; unfold UINT64_MAX in Hempty; lia|lia|].
    unfold MIN_TXNID in Hb. rewrite E in Hl. apply Forall_app in Hl as [HlA HlB].
    assert (forall x, x ∈ B -> id < x /\ apart (solid_begin r) (solid_end r) x) as HB2.
    { rewrite !Forall_forall in *. intros x Hx. split; [by apply HB|by apply HlB]. }
    assert (forall x, x ∈ A -> x < id /\ apart (solid_begin r) (solid_end r) x) as HA2.
    { rewrite !Forall_forall in *. intros x Hx. split; [by apply HA|by apply HlA]. }
    unfold apart in HA2, HB2.
    case_decide as Hlow; [case_decide as Hadj|case_decide as Hhigh; [case_decide as Hadj|]].
    + destruct (extend_solid_spec have_cmov r A B id (solid_end r) id) as (r' & -> & Hwf' & Hm); try done; try (unfold MIN_TXNID; lia).
      * apply Forall_forall. intros x Hx%HB2. lia.
      * apply pushed_intro; [done|]. intros x. rewrite Hm. unfold member. intuition lia.
    + apply push_list_spec; try done; [lia|unfold apart; lia|tauto].
    + destruct (extend_solid_spec have_cmov r A B (solid_begin r) (id + 1) id) as (r' & -> & Hwf' & Hm);
        try done; try (unfold MIN_TXNID; lia).
      * apply Forall_forall. intros x Hx%HA2. lia.
      * apply pushed_intro; [done|]. intros x. rewrite Hm. unfold member. intuition lia.
    + apply push_list_spec; try done; [lia|unfold apart; lia|tauto].
    + exfalso. apply Hnew. right. lia.
Qed.

(** A duplicate of an id of the interval, or while the interval is empty. *)
Lemma rkl_push_dup r id :
  rkl_wf r -> member r id -> solid_begin r <= id < solid_end r \/ solid_begin r >= solid_end r ->
  rkl_push have_cmov alloc r id = Some (MDBX_RESULT_TRUE, r).
Proof.
  intros Hwf Hm Hcase. unfold rkl_push. case_decide as Hempty.
  - destruct Hm as [Hm|]; [|lia]. apply list_elem_of_split in Hm as (A & B & E).
    eapply extend_solid_dup; [done|exact E|]. apply Forall_forall. intros x Hx.
    pose proof (wf_ascending _ Hwf) as Hasc. rewrite E, ascending_app in Hasc.
    apply Hasc; [done|by left].
  - by rewrite decide_False, decide_False by lia.
Qed.

(** A duplicate of an id of the list, as the code handles it: the ids behind
    the duplicate were already moved up, and the loop that moves them back
    stops one cell too early. *)
Lemma rkl_push_list_dup r A id B :
  rkl_wf r -> solid_begin r < solid_end r -> elems r = A ++ id :: B -> (list_length r < list_limit r)%nat ->
  exists r', rkl_push have_cmov alloc r id = Some (MDBX_RESULT_TRUE, r') /\
  elems r' = A ++ id :: removelast B ++ (if B is [] then [] else [List.last (removelast B) (hd 0 B)]) /\
  solid_begin r' = solid_begin r /\ solid_end r' = solid_end r.
Proof.
  intros Hwf Hse E Hroom. pose proof (wf_ascending _ Hwf) as Hasc. pose proof (wf_txnid _ Hwf) as Hok.
  destruct (wf_solid _ Hwf) as [(Hb & He & _)|[(Hb & _)|(Hb & _ & He & Hl)]];
    [rewrite Hb, He in Hse; unfold UINT64_MAX in Hse; lia|lia|].
  destruct (buf_split r Hwf) as (W & HW & HlW). pose proof (elems_length r Hwf) as Hlen.
  rewrite E in *. rewrite length_app in Hlen. simpl in Hlen.
  apply Forall_app in Hok as [_ [Hid _]%Forall_cons]. apply Forall_app in Hl as [_ [Hl _]%Forall_cons].
  apply ascending_app in Hasc as (_ & [HB _]%ascending_cons & _).
  unfold txnid_ok, MIN_TXNID, INVALID_TXNID, apart in *.
  destruct W as [|c W]; [simpl in HlW; lia|].
  assert (rkl_push have_cmov alloc r id = push_list have_cmov alloc r id) as ->.
  { unfold rkl_push. rewrite u64_small by lia. rewrite decide_False by lia.
    case_decide; [by rewrite decide_False by lia|]. by rewrite decide_True, decide_False by lia. }
  unfold push_list.
  assert ((if decide (list_length r = 1%nat /\ solid_end r = u64 (solid_begin r + 1)) then
    x ← rd (list_buf r) 0;
    Some (if decide (x = u64 (id + 1)) then Some id
    else if decide (x = u64 (id - 1)) then Some (u64 (id - 1)) else None)
    else Some None) = Some None) as ->.
  { case_decide as H1; [|done]. destruct A, B; simpl in Hlen; try lia. rewrite HW. simpl.
    by rewrite !u64_small, decide_False, decide_False by lia. }
  cbn [mbind option_bind]. rewrite (decide_False (P := list_length r = list_limit r)) by lia.
  rewrite decide_False by (intros []; done). rewrite HW, <- app_assoc, <- Hlen. cbn [app].
  rewrite (insert_scan_dup B A c W id HB). cbn [mbind option_bind].
  rewrite dup_restore_move by lia. replace (length A + S (length B) - S (S (length A)))%nat with (pred (length B)) by lia.
  destruct B as [|b B _] using rev_ind.
  - simpl. eexists. split; [reflexivity|]. split; [|done]. unfold elems. simpl.
    replace (A ++ id :: c :: W) with ((A ++ [id]) ++ c :: W) by by rewrite <- app_assoc.
    apply take_app_length'. by rewrite length_app.
  - rewrite length_app, Nat.add_1_r. cbn [pred].
    set (g := hd c (B ++ [b])).
    replace (A ++ id :: g :: (B ++ [b]) ++ W) with ((A ++ [id]) ++ g :: B ++ b :: W) by by rewrite <- !app_assoc.
    rewrite move_down_one by (rewrite length_app; simpl; lia). cbn [mbind option_bind].
    eexists. split; [reflexivity|]. split; [|done]. rewrite removelast_last. unfold elems. simpl.
    assert (exists B', B ++ [b] = g :: B') as [B' EB] by (unfold g; destruct B; simpl; eauto).
    rewrite EB. simpl.
    replace ((A ++ [id]) ++ B ++ List.last B g :: b :: W) with ((A ++ id :: B ++ [List.last B g]) ++ b :: W)
      by by rewrite <- !app_assoc; simpl; rewrite <- app_assoc.
    apply take_app_length'. rewrite !length_app. simpl. rewrite length_app. simpl. lia.
Qed.
End push.
