(* ===== verification/RklOps.v ===== *)
(** * Looking up, taking out, merging and walking an rkl *)

From S2P Require Import Prelude Search Rkl RklPush.

(** All ids in ascending order. *)
Definition ids (r : rkl_t) : list Z :=
  filter (fun x => x < solid_begin r) (elems r) ++ seqZ (solid_begin r) (solid_end r - solid_begin r) ++
    filter (fun x => ~ x < solid_begin r) (elems r).

(** The ids of the list below and above the interval. *)
Record view (r : rkl_t) (P Q : list Z) : Prop := {
  view_elems : elems r = P ++ Q;
  view_low : Forall (fun x => x < solid_begin r) P;
  view_high : Forall (fun x => solid_end r <= x /\ solid_begin r <= x) Q;
  view_apart : solid_begin r < solid_end r -> Forall (apart (solid_begin r) (solid_end r)) (P ++ Q)
}.

Section views.
Context (r : rkl_t) (Hwf : rkl_wf r).

Lemma view_exists : exists P Q, view r P Q.
Proof.
  destruct (ascending_split (elems r) (solid_begin r) (wf_ascending _ Hwf)) as (P & Q & E & HP & HQ).
  exists P, Q. pose proof (wf_solid _ Hwf) as Hs. rewrite E in Hs. split; [done|done| |].
  - rewrite Forall_forall in *. intros x Hx. specialize (HQ x Hx). simpl in HQ.
    destruct Hs as [(_ & _ & Hnil)|[(He & _)|(_ & _ & _ & Hap)]]; [|lia|].
    + apply app_eq_nil in Hnil as [_ ->]. by apply elem_of_nil in Hx.
    + rewrite Forall_forall in Hap. specialize (Hap x ltac:(apply elem_of_app; tauto)). unfold apart in Hap. lia.
  - intros Hlt. destruct Hs as [(Hb & He & _)|[(He & _)|(_ & _ & _ & Hap)]]; [|lia|done].
    rewrite Hb, He in Hlt. unfold UINT64_MAX in Hlt. lia.
Qed.

Lemma ids_view P Q : view r P Q -> ids r = P ++ seqZ (solid_begin r) (solid_end r - solid_begin r) ++ Q.
Proof.
  intros [E HP HQ _]. unfold ids. rewrite E, !filter_app.
  assert (forall l, Forall (fun x => x < solid_begin r) l -> filter (fun x => x < solid_begin r) l = l /\
    filter (fun x => ~ x < solid_begin r) l = []) as H1.
  { induction 1 as [|x l Hx _ [IH1 IH2]]; [done|].
    rewrite !filter_cons, decide_True by done. rewrite decide_False by lia. by rewrite IH1, IH2. }
  assert (forall l, Forall (fun x => solid_end r <= x /\ solid_begin r <= x) l ->
    filter (fun x => ~ x < solid_begin r) l = l /\ filter (fun x => x < solid_begin r) l = []) as H2.
  { induction 1 as [|x l Hx _ [IH1 IH2]]; [done|].
    rewrite !filter_cons, decide_True by lia. rewrite decide_False by lia. by rewrite IH1, IH2. }
  destruct (H1 P HP) as [-> ->]. destruct (H2 Q HQ) as [-> ->]. by rewrite app_nil_r.
Qed.

Lemma elem_of_ids x : x ∈ ids r <-> member r x.
Proof.
  destruct view_exists as (P & Q & V). rewrite (ids_view P Q V). unfold member. rewrite (view_elems _ _ _ V).
  rewrite !elem_of_app, elem_of_seqZ. intuition lia.
Qed.

Lemma ids_ascending : ascending (ids r).
Proof.
  destruct view_exists as (P & Q & V). rewrite (ids_view P Q V). destruct V as [E HP HQ _].
  pose proof (wf_ascending _ Hwf) as Hasc. rewrite E in Hasc.
  destruct (decide (solid_begin r <= solid_end r)).
  - apply ascending_app in Hasc as (HascP & HascQ & _). apply ascending_seqZ_between; [done|done|done| |lia].
    eapply Forall_impl; [exact HQ|]. simpl. lia.
  - rewrite seqZ_nil by lia. done.
Qed.

Lemma ids_txnid : Forall txnid_ok (ids r).
Proof.
  apply Forall_forall. intros x [Hx|Hx]%elem_of_ids.
  - pose proof (wf_txnid _ Hwf) as H. rewrite Forall_forall in H. by apply H.
  - destruct (wf_solid _ Hwf) as [(Hb & He & _)|[(He & _)|(Hb & _ & He & _)]]; [|lia|unfold txnid_ok, INVALID_TXNID; lia].
    rewrite Hb, He in Hx. unfold UINT64_MAX in Hx. lia.
Qed.
End views.

(** An ascending list of numbers below [m] and from [k] on has at most [m - k] of them. *)
Lemma ascending_bound (l : list Z) k m :
  ascending l -> Forall (fun x => k <= x < m) l -> k <= m -> k + Z.of_nat (length l) <= m.
Proof.
  revert k. induction l as [|x l IH]; intros k Hasc Hl Hkm; simpl; [lia|].
  apply ascending_cons in Hasc as [Hlt Hasc]. apply Forall_cons in Hl as [Hx Hl].
  specialize (IH (k + 1) Hasc). rewrite !Forall_forall in *.
  assert (k + 1 + Z.of_nat (length l) <= m); [|lia]. apply IH; [|lia].
  intros y Hy. specialize (Hlt y Hy). specialize (Hl y Hy). simpl in *. lia.
Qed.

Lemma rkl_len_spec r : rkl_wf r -> rkl_len r = Z.of_nat (length (ids r)) /\ Z.of_nat (length (ids r)) < UINT64_MAX.
Proof.
  intros Hwf. pose proof (ascending_bound (ids r) 1 UINT64_MAX (ids_ascending r Hwf) (ids_txnid r Hwf)
    ltac:(unfold UINT64_MAX; lia)) as Hb.
  split; [|lia]. destruct (view_exists r Hwf) as (P & Q & V). pose proof (elems_length r Hwf) as Hlen.
  rewrite (view_elems _ _ _ V) in Hlen. rewrite (ids_view r P Q V) in *. rewrite !length_app, length_seqZ in *.
  unfold rkl_len, rkl_empty.
  destruct (solid_begin r >? solid_end r) eqn:Hcmp.
  - destruct (wf_solid _ Hwf) as [(H1 & H2 & Hnil)|[(?&?)|(?&?&?)]]; [|lia|lia].
    rewrite (view_elems _ _ _ V) in Hnil. apply app_eq_nil in Hnil as [-> ->]. rewrite H1, H2. done.
  - rewrite u64_small by lia. lia.
Qed.

Section queries.
Context (have_cmov : bool) (r : rkl_t) (Hwf : rkl_wf r).

Lemma view_bsearch P Q : view r P Q -> rkl_bsearch have_cmov r (solid_begin r) = Some (length P).
Proof.
  intros [E HP HQ _]. apply (rkl_bsearch_spec have_cmov r _ P Q); try done.
  eapply Forall_impl; [exact HQ|]. simpl. lia.
Qed.

Lemma list_search id :
  exists A B, elems r = A ++ B /\ Forall (fun x => x < id) A /\ Forall (fun x => id <= x) B /\
  rkl_bsearch have_cmov r id = Some (length A).
Proof.
  destruct (ascending_split (elems r) id (wf_ascending _ Hwf)) as (A & B & E & HA & HB).
  exists A, B. split_and!; try done. by apply (rkl_bsearch_spec have_cmov r id A B).
Qed.

Lemma buf_lookup i : (i < list_length r)%nat -> rd (list_buf r) i = elems r !! i.
Proof. intros H. unfold rd, elems. by rewrite lookup_take_lt by lia. Qed.

Lemma nonempty_length : list_length r <> 0%nat <-> elems r <> [].
Proof. rewrite <- (elems_length r Hwf). destruct (elems r); simpl; [tauto|]. split; [done|lia]. Qed.

Lemma empty_length : list_length r = 0%nat -> elems r = [].
Proof. intros H. pose proof (elems_length r Hwf) as Hlen. destruct (elems r); [done|]. simpl in Hlen. lia. Qed.

Lemma list_probe id A B :
  elems r = A ++ B -> Forall (fun x => x < id) A -> Forall (fun x => id <= x) B ->
  (if decide (length A <> list_length r) then x ← rd (list_buf r) (length A); Some (bool_decide (x = id))
   else Some false) = Some (bool_decide (id ∈ elems r)).
Proof.
  intros E HA HB. pose proof (elems_length r Hwf) as Hlen. rewrite E in *. rewrite length_app in Hlen.
  destruct B as [|b B]; simpl in Hlen.
  - rewrite decide_False by lia. rewrite app_nil_r, bool_decide_eq_false_2; [done|].
    intros Hin. rewrite Forall_forall in HA. specialize (HA _ Hin). simpl in HA. lia.
  - rewrite decide_True by lia. rewrite buf_lookup by lia. rewrite E, lookup_app_r, Nat.sub_diag by lia. simpl. f_equal.
    apply bool_decide_ext. rewrite elem_of_app, elem_of_cons. split; [auto|].
    pose proof (wf_ascending _ Hwf) as Hasc. rewrite E in Hasc.
    apply ascending_app in Hasc as (_ & [Hlt _]%ascending_cons & _).
    apply Forall_cons in HB as [Hb _]. rewrite Forall_forall in HA, Hlt.
    intros [Hin|[->|Hin]]; [specialize (HA _ Hin); simpl in HA; lia|done|specialize (Hlt _ Hin); lia].
Qed.

Lemma rkl_contain_spec id : exists b, rkl_contain have_cmov r id = Some b /\ (b = true <-> member r id).
Proof.
  unfold rkl_contain. destruct ((id >=? solid_begin r) && (id <? solid_end r)) eqn:Hin.
  - exists true. split; [done|]. split; [|done]. intros _. right. lia.
  - assert (~ solid_begin r <= id < solid_end r) as Hout by lia.
    exists (bool_decide (id ∈ elems r)). rewrite bool_decide_eq_true. unfold member. split; [|tauto].
    case_decide as Hne.
    + destruct (list_search id) as (A & B & E & HA & HB & ->). cbn [mbind option_bind]. by apply (list_probe id A B).
    + f_equal. symmetry. apply bool_decide_eq_false_2. rewrite (empty_length Hne). apply not_elem_of_nil.
Qed.

Lemma list_ends : list_length r <> 0%nat ->
  exists first last L, elems r = first :: L /\ rd (list_buf r) 0 = Some first /\
  (exists L', elems r = L' ++ [last]) /\ rd (list_buf r) (list_length r - 1) = Some last.
Proof.
  intros Hne. pose proof (elems_length r Hwf) as Hlen.
  assert (elems r <> []) as Hne' by by apply nonempty_length.
  destruct (elems r) as [|x L] eqn:E; [done|]. destruct (exists_last Hne') as (L' & y & E').
  exists x, y, L. split_and!; [done| |by exists L'|].
  - rewrite buf_lookup by lia. by rewrite E.
  - rewrite buf_lookup by lia. rewrite E, E'. rewrite E', length_app in Hlen. simpl in Hlen.
    rewrite lookup_app_r by lia. by replace (list_length r - 1 - length L')%nat with 0%nat by lia.
Qed.

(** With an empty interval the list is everything. *)
Lemma solid_empty_spec : if solid_empty r then solid_begin r >= solid_end r /\ ids r = elems r
  else solid_begin r < solid_end r /\ MIN_TXNID <= solid_begin r /\ solid_end r <= UINT64_MAX.
Proof.
  unfold solid_empty. destruct (solid_begin r <? solid_end r) eqn:H; simpl.
  - destruct (wf_solid _ Hwf) as [(Hb & He & _)|[(He & _)|(?&?&?&?)]]; [|lia|lia].
    rewrite Hb, He in H. done.
  - split; [lia|]. destruct (view_exists r Hwf) as (P & Q & V). rewrite (ids_view r P Q V), (view_elems _ _ _ V).
    by rewrite seqZ_nil by lia.
Qed.

Lemma rkl_lowest_ids : rkl_lowest r = Some (hd INVALID_TXNID (ids r)).
Proof.
  unfold rkl_lowest. pose proof solid_empty_spec as Hs.
  destruct (view_exists r Hwf) as (P & Q & V). rewrite (ids_view r P Q V) in *. destruct V as [E HP HQ Hap].
  case_decide as Hne.
  - destruct (list_ends Hne) as (first & last & L & E1 & -> & _). cbn [mbind option_bind]. f_equal.
    destruct (solid_empty r) eqn:Hse; simpl.
    + destruct Hs as [_ ->]. by rewrite E1.
    + destruct Hs as [Hlt _]. rewrite E1 in E. destruct P as [|p P]; simplify_eq/=.
      * rewrite seqZ_cons by lia. simpl. apply Forall_cons in HQ as [Hq _].
        destruct (first <? solid_begin r) eqn:?; [lia|done].
      * apply Forall_cons in HP as [Hp _]. by replace (p <? solid_begin r) with true by lia.
  - rewrite (empty_length Hne) in E. destruct P, Q; simplify_eq/=. f_equal. rewrite app_nil_r.
    destruct (solid_empty r); [by rewrite seqZ_nil by lia|by rewrite seqZ_cons by lia].
Qed.

Lemma rkl_highest_ids : rkl_highest r = Some (List.last (ids r) 0).
Proof.
  unfold rkl_highest. pose proof solid_empty_spec as Hs.
  destruct (view_exists r Hwf) as (P & Q & V). rewrite (ids_view r P Q V) in *. destruct V as [E HP HQ Hap].
  case_decide as Hne.
  - destruct (list_ends Hne) as (first & last & L & _ & _ & [L' E1] & ->). cbn [mbind option_bind]. f_equal.
    destruct (solid_empty r) eqn:Hse; simpl.
    + destruct Hs as [_ ->]. by rewrite E1, last_last.
    + destruct Hs as [Hlt _]. rewrite E1 in E. destruct Q as [|q Q _] using rev_ind.
      * rewrite app_nil_r in *. rewrite seqZ_unsnoc, app_assoc, last_last by lia.
        rewrite <- E in HP. apply Forall_app in HP as [_ [Hp _]%Forall_cons].
        replace (last >=? solid_end r) with false by lia. lia.
      * rewrite !app_assoc, last_last. rewrite app_assoc in E. apply app_inj_tail in E as [_ ->].
        apply Forall_app in HQ as [_ [Hp _]%Forall_cons]. by replace (q >=? solid_end r) with true by lia.
  - rewrite (empty_length Hne) in E. destruct P, Q; simplify_eq/=. f_equal. rewrite app_nil_r.
    destruct (solid_empty r); [by rewrite seqZ_nil by lia|]. rewrite seqZ_unsnoc, last_last by lia. lia.
Qed.
End queries.

(** ** Taking an id from one of the ends *)

Section pop.
Implicit Types (L W : list Z).

Lemma after_cut_spec b e L W lim ip out :
  length (L ++ W) = lim -> (inplace_length <= lim)%nat -> (ip = true -> lim = inplace_length) ->
  ascending L -> Forall txnid_ok L -> (b = e /\ 0 <= b <= UINT64_MAX) \/ solid_ok b e L ->
  exists r', after_cut (mk_rkl b e (length L) lim (L ++ W) ip) out = (out, r') /\ rkl_wf r' /\
  (forall x, member r' x <-> x ∈ L \/ b <= x < e).
Proof.
  intros H1 H2 H3 H4 H5 H6. unfold after_cut. simpl. case_decide as H.
  - destruct H as [HL ->]. destruct L; [|done]. eexists. split; [done|]. split.
    + apply (rkl_wf_mk UINT64_MAX 0 [] W lim ip); try done. by left.
    + intros x. unfold member, elems. simpl. rewrite take_0. unfold UINT64_MAX.
      rewrite elem_of_nil. intuition lia.
  - eexists. split; [done|]. split.
    + apply rkl_wf_mk; try done. destruct H6 as [[-> Hb]|H6]; [|done]. right. left. split_and!; try done; try lia.
      intros ->. by apply H.
    + intros x. unfold member. by rewrite elems_mk.
Qed.

Context (r : rkl_t) (Hwf : rkl_wf r).

(** The interval loses an id at one of its ends. *)
Lemma cut_solid b e out :
  solid_begin r < solid_end r ->
  (b = solid_begin r + 1 /\ e = solid_end r /\ out = solid_begin r) \/
  (b = solid_begin r /\ e = solid_end r - 1 /\ out = solid_end r - 1) ->
  exists r', after_cut (set_solid b e r) out = (out, r') /\ rkl_wf r' /\
  (forall x, member r' x <-> member r x /\ x <> out).
Proof.
  intros Hse Hcut. destruct (buf_split r Hwf) as (W & HW & HlW). pose proof (elems_length r Hwf) as Hlen.
  destruct (wf_solid _ Hwf) as [(Hb & He & _)|[(He & _)|(Hb & _ & He & Hap)]];
    [rewrite Hb, He in Hse; unfold UINT64_MAX in Hse; lia|lia|].
  unfold MIN_TXNID in Hb. pose proof (wf_inplace _ Hwf) as [Hi1 Hi2]. pose proof (wf_limit _ Hwf) as Hlim.
  destruct (after_cut_spec b e (elems r) W (list_limit r) (list_inplace r) out) as (r' & E & Hwf' & Hm); try done.
  - by rewrite <- HW.
  - apply wf_ascending; done.
  - apply wf_txnid; done.
  - destruct (decide (b = e)); [left; lia|]. right. right. right. unfold MIN_TXNID.
    split_and!; [lia..|]. eapply Forall_impl; [exact Hap|]. unfold apart. simpl. lia.
  - exists r'. unfold set_solid. rewrite <- Hlen, HW. split; [done|]. split; [done|].
    intros x. rewrite Hm. unfold member. rewrite Forall_forall in Hap. unfold apart in Hap.
    specialize (Hap x). intuition lia.
Qed.

(** The list becomes [L] when it loses [out]. *)
Lemma cut_list L V out :
  list_length r <> 0%nat -> length L = (list_length r - 1)%nat -> length (L ++ V) = list_limit r ->
  (exists A B, elems r = A ++ out :: B /\ L = A ++ B) ->
  exists r', after_cut (set_list (list_length r - 1) (L ++ V) r) out = (out, r') /\ rkl_wf r' /\
  (forall x, member r' x <-> member r x /\ x <> out).
Proof.
  intros Hne HlL HlV (A & B & E & ->). pose proof (wf_inplace _ Hwf) as [Hi1 Hi2].
  pose proof (wf_ascending _ Hwf) as Hasc. pose proof (wf_txnid _ Hwf) as Hok. pose proof (wf_solid _ Hwf) as Hs.
  rewrite E in Hasc, Hok, Hs. pose proof (ascending_NoDup _ Hasc) as Hnd.
  apply ascending_app in Hasc as (HA & [_ HB]%ascending_cons & HAB).
  apply Forall_app in Hok as [HokA [Hout HokB]%Forall_cons]. apply NoDup_app in Hnd as (_ & HnAB & [HnB _]%NoDup_cons).
  destruct (after_cut_spec (solid_begin r) (solid_end r) (A ++ B) V (list_limit r) (list_inplace r) out)
    as (r' & E' & Hwf' & Hm); try done.
  - apply ascending_app. split_and!; [done..|]. intros x y Hx Hy. apply HAB; [done|by right].
  - by apply Forall_app.
  - destruct Hs as [(_ & _ & Hn)|[(He & Hb & _)|(?&?&?&Hap)]]; [by destruct A|by left|].
    right. right. right. split_and!; [done..|]. rewrite Forall_app, Forall_cons in Hap. rewrite Forall_app. tauto.
  - exists r'. unfold set_list. rewrite <- HlL. split; [done|]. split; [done|].
    intros x. rewrite Hm. unfold member. rewrite E, !elem_of_app, elem_of_cons.
    assert (~ solid_begin r <= out < solid_end r) as Hno.
    { destruct Hs as [(_ & _ & Hn)|[(He & _)|(_&_&_&[_ [Hap _]%Forall_cons]%Forall_app)]];
        [by destruct A|lia|unfold apart in Hap; lia]. }
    assert (x ∈ A -> x <> out) by (intros Hx ->; by apply (HnAB out Hx); left).
    assert (x ∈ B -> x <> out) by (intros Hx ->; done).
    intuition (subst; try done; try lia; tauto).
Qed.

(** The last and the first id of the list. *)
Lemma remove_last_spec last :
  list_length r <> 0%nat -> (exists L, elems r = L ++ [last]) ->
  exists r', after_cut (set_list (list_length r - 1) (list_buf r) r) last = (last, r') /\ rkl_wf r' /\
  (forall x, member r' x <-> member r x /\ x <> last).
Proof.
  intros Hne [L E]. destruct (buf_split r Hwf) as (W & HW & HlW). pose proof (elems_length r Hwf) as Hlen.
  pose proof (wf_limit _ Hwf) as Hlim. rewrite E, length_app in *. simpl in Hlen. rewrite <- app_assoc in HW.
  rewrite HW. apply cut_list; [done|lia| |].
  - by rewrite <- Hlim, HW.
  - exists L, []. rewrite E. by rewrite app_nil_r.
Qed.

Lemma remove_first_spec first L :
  elems r = first :: L ->
  exists r1 r', list_remove_first r = Some (first, r1) /\ after_cut r1 first = (first, r') /\ rkl_wf r' /\
  (forall x, member r' x <-> member r x /\ x <> first).
Proof.
  intros E. destruct (buf_split r Hwf) as (W & HW & HlW). pose proof (elems_length r Hwf) as Hlen.
  pose proof (wf_limit _ Hwf) as Hlim. rewrite E in *. simpl in Hlen.
  destruct (move_down_spec L [] [first] W 0 1) as ([|g [|]] & HG & Em); try done.
  unfold list_remove_first. rewrite HW. simpl. simpl in Em. replace (list_length r - 1)%nat with (length L) by lia.
  rewrite Em. simpl. eexists.
  destruct (cut_list L (g :: W) first) as (r' & Ec & Hwf' & Hm); [lia|lia| |by exists [], L|].
  - rewrite <- Hlim, HW. simpl. rewrite !length_app. simpl. lia.
  - exists r'. replace (list_length r - 1)%nat with (length L) in Ec by lia. done.
Qed.

Lemma rkl_pop_spec high :
  ids r <> [] ->
  exists out r', rkl_pop r high = Some (out, r') /\ member r out /\
  (forall x, member r x -> if high : bool then x <= out else out <= x) /\
  rkl_wf r' /\ (forall x, member r' x <-> member r x /\ x <> out).
Proof.
  intros Hne. pose proof (solid_empty_spec r Hwf) as Hs. destruct (view_exists r Hwf) as (P & Q & V).
  pose proof (view_elems _ _ _ V) as E. pose proof (view_low _ _ _ V) as HP. pose proof (view_high _ _ _ V) as HQ.
  pose proof (view_apart _ _ _ V) as Hap. rewrite <- E in Hap. rewrite (ids_view r P Q V) in Hne.
  assert (forall pop, (list_length r <> 0%nat -> solid_empty r = false) -> pop = (if solid_empty r then Some (0, r) else if high
    then Some (after_cut (set_solid (solid_begin r) (solid_end r - 1) r) (solid_end r - 1))
    else Some (after_cut (set_solid (solid_begin r + 1) (solid_end r) r) (solid_begin r))) ->
    (forall x, x ∈ elems r -> if high then x < solid_end r else solid_begin r <= x) ->
    exists out r', pop = Some (out, r') /\ member r out /\
    (forall x, member r x -> if high then x <= out else out <= x) /\
    rkl_wf r' /\ (forall x, member r' x <-> member r x /\ x <> out)) as Hsolid.
  { intros pop Hsome -> Hl. destruct (solid_empty r) eqn:Hse.
    - exfalso. destruct (decide (list_length r = 0%nat)) as [Hz|Hz]; [|by specialize (Hsome Hz)].
      apply (empty_length r Hwf) in Hz. rewrite Hz in E. destruct P, Q; try done. rewrite seqZ_nil in Hne by lia. done.
    - destruct Hs as (Hlt & Hb & He). destruct high.
      + destruct (cut_solid (solid_begin r) (solid_end r - 1) (solid_end r - 1)) as (r' & -> & Hwf' & Hm); [done|tauto|].
        eexists _, r'. split_and!; [done|right; lia| |done|done].
        intros x [Hx|Hx]; [specialize (Hl x Hx); simpl in Hl|]; lia.
      + destruct (cut_solid (solid_begin r + 1) (solid_end r) (solid_begin r)) as (r' & -> & Hwf' & Hm); [done|tauto|].
        eexists _, r'. split_and!; [done|right; lia| |done|done].
        intros x [Hx|Hx]; [specialize (Hl x Hx); simpl in Hl|]; lia. }
  unfold rkl_pop. case_decide as Hz.
  - destruct (list_ends r Hwf Hz) as (first & last & L & E1 & Ef & (L' & E2) & El).
    rewrite Ef, El. cbn [mbind option_bind].
    pose proof (wf_ascending _ Hwf) as Hasc. rewrite E2 in Hasc. apply ascending_app in Hasc as (_ & _ & Hlast).
    pose proof (wf_ascending _ Hwf) as Hasc. rewrite E1 in Hasc. apply ascending_cons in Hasc as [Hfirst _].
    rewrite Forall_forall in Hfirst.
    assert (solid_empty r = false -> apart (solid_begin r) (solid_end r) last /\ apart (solid_begin r) (solid_end r) first) as Hapart.
    { intros Hse. rewrite Hse in Hs. destruct Hs as [Hlt _]. specialize (Hap Hlt). rewrite Forall_forall in Hap. split.
      - apply Hap. rewrite E2. apply elem_of_app. right. by left.
      - apply Hap. rewrite E1. by left. }
    unfold apart in Hapart.
    destruct (high && (solid_empty r || (solid_end r <? last))) eqn:C1;
      [|destruct (negb high && (solid_empty r || (solid_begin r >? first))) eqn:C2].
    + destruct high; [|done]. simpl in C1.
      destruct (remove_last_spec last Hz ltac:(eauto)) as (r' & -> & Hwf' & Hm). eexists last, r'. split_and!; try done.
      * left. rewrite E2. apply elem_of_app. right. by left.
      * intros x [Hx|Hx].
        -- rewrite E2 in Hx. apply elem_of_app in Hx as [Hx| ->%list_elem_of_singleton]; [|lia].
          specialize (Hlast x last Hx ltac:(by left)). lia.
        -- destruct (solid_empty r); simpl in C1; lia.
    + destruct high; [done|]. simpl in C2.
      destruct (remove_first_spec first L E1) as (r1 & r' & -> & Ec & Hwf' & Hm). cbn [mbind option_bind].
      exists first, r'. rewrite Ec. split_and!; try done.
      * left. rewrite E1. by left.
      * intros x [Hx|Hx].
        -- rewrite E1 in Hx. apply elem_of_cons in Hx as [->|Hx]; [lia|]. specialize (Hfirst x Hx). lia.
        -- destruct (solid_empty r); simpl in C2; lia.
    + apply Hsolid; [|done|].
      * intros _. destruct high, (solid_empty r); done.
      * intros x Hx. destruct high.
        -- simpl in C1. destruct (solid_empty r); [done|]. simpl in C1.
          rewrite E2 in Hx. apply elem_of_app in Hx as [Hx| ->%list_elem_of_singleton]; [|lia].
          specialize (Hlast x last Hx ltac:(by left)). lia.
        -- simpl in C2. destruct (solid_empty r); [done|]. simpl in C2.
          rewrite E1 in Hx. apply elem_of_cons in Hx as [->|Hx]; [lia|]. specialize (Hfirst x Hx). lia.
  - apply Hsolid; [intros; lia|done|]. intros x. rewrite (empty_length r Hwf Hz). by intros ?%elem_of_nil.
Qed.
End pop.

(** ** Merging *)

Section merge.
Context (have_cmov : bool) (alloc : Z -> option Z) (Halloc : alloc_ok alloc).

(** Pushing the ids of a list one after another. *)
Fixpoint push_all (l : list Z) (dst : rkl_t) (ignore : bool) : option (Z * rkl_t) :=
  match l with
  | [] => Some (MDBX_SUCCESS, dst)
  | x :: l =>
      '(err, dst) ← rkl_push have_cmov alloc dst x;
      if push_err_fatal err ignore then Some (err, dst) else push_all l dst ignore
  end.

Lemma merge_list_all i src dst ignore :
  (i <= length src)%nat -> merge_list have_cmov alloc i src dst ignore = push_all (rev (take i src)) dst ignore.
Proof.
  revert dst. induction i as [|i IH]; intros dst Hi; simpl; [done|].
  destruct (rd_Some src i ltac:(lia)) as [x Hx]. rewrite Hx. unfold rd in Hx. erewrite take_S_r by exact Hx.
  rewrite rev_app_distr. simpl. destruct (rkl_push _ _ _ _) as [[err d]|]; simpl; [|done].
  destruct push_err_fatal; [done|]. apply IH. lia.
Qed.

Lemma merge_solid_all n id dst ignore :
  merge_solid have_cmov alloc n id dst ignore = push_all (seqZ id (Z.of_nat n)) dst ignore.
Proof.
  revert id dst. induction n as [|n IH]; intros id dst; simpl; [done|].
  rewrite (seqZ_cons id) by lia. simpl. destruct (rkl_push _ _ _ _) as [[err d]|]; simpl; [|done].
  destruct push_err_fatal; [done|]. rewrite IH. do 2 f_equal; lia.
Qed.

Lemma push_all_app l1 l2 dst ignore :
  push_all (l1 ++ l2) dst ignore =
  ('(err, dst) ← push_all l1 dst ignore;
    if decide (err <> MDBX_SUCCESS) then Some (err, dst) else push_all l2 dst ignore).
Proof.
  revert dst. induction l1 as [|x l1 IH]; intros dst; cbn [push_all app].
  - cbn [mbind option_bind]. rewrite decide_False; [done|]. intros []. done.
  - destruct (rkl_push _ _ _ _) as [[err d]|]; cbn [mbind option_bind]; [|done].
    unfold push_err_fatal. destruct (err =? MDBX_SUCCESS) eqn:He; simpl; [apply IH|].
    destruct (negb ignore || negb (err =? MDBX_RESULT_TRUE)) eqn:H; [|apply IH].
    cbn [mbind option_bind]. rewrite decide_True; [done|]. lia.
Qed.

Lemma push_all_spec l : forall dst ignore,
  rkl_wf dst -> Forall txnid_ok l -> NoDup l -> (forall x, x ∈ l -> ~ member dst x) ->
  exists err r', push_all l dst ignore = Some (err, r') /\ rkl_wf r' /\
  (err = MDBX_SUCCESS /\ (forall x, member r' x <-> member dst x \/ x ∈ l) \/
    (err = MDBX_ENOMEM \/ err = MDBX_TXN_FULL) /\
    exists done, done `prefix_of` l /\ (forall x, member r' x <-> member dst x \/ x ∈ done)).
Proof.
  induction l as [|x l IH]; intros dst ignore Hwf Hok Hnd Hnew; cbn [push_all].
  - exists MDBX_SUCCESS, dst. split_and!; [done..|]. left. split; [done|]. intros x. rewrite elem_of_nil. tauto.
  - apply Forall_cons in Hok as [Hx Hok]. apply NoDup_cons in Hnd as [Hxl Hnd].
    destruct (rkl_push_new have_cmov alloc Halloc dst x Hwf Hx ltac:(apply Hnew; by left))
      as (err & d & -> & [(-> & Hwf' & Hm)|[Herr ->]]); cbn [mbind option_bind].
    + unfold push_err_fatal. rewrite Z.eqb_refl. simpl.
      destruct (IH d ignore Hwf' Hok Hnd) as (err & r' & -> & Hwf'' & Hres).
      { intros y Hy [Hy'| ->]%Hm; [|done]. by apply (Hnew y); [right|]. }
      exists err, r'. split_and!; [done..|]. destruct Hres as [[-> Hm2]|[Herr (dn & Hdn & Hm2)]].
      * left. split; [done|]. intros y. rewrite Hm2, Hm, elem_of_cons. tauto.
      * right. split; [done|]. exists (x :: dn). split; [by apply prefix_cons|].
        intros y. rewrite Hm2, Hm, elem_of_cons. tauto.
    + assert (push_err_fatal err ignore = true) as -> by (destruct Herr as [-> | ->]; by destruct ignore).
      exists err, dst. split_and!; [done..|]. right. split; [done|]. exists []. split; [apply prefix_nil|].
      intros y. rewrite elem_of_nil. tauto.
Qed.

Lemma rkl_merge_all src dst ignore :
  rkl_wf src -> rkl_merge have_cmov alloc src dst ignore =
  push_all (rev (elems src) ++ seqZ (solid_begin src) (solid_end src - solid_begin src)) dst ignore.
Proof.
  intros Hwf. unfold rkl_merge. pose proof (wf_limit _ Hwf). pose proof (wf_length _ Hwf).
  rewrite merge_list_all by lia. fold (elems src). rewrite push_all_app.
  destruct (push_all (rev _) _ _) as [[err d]|]; cbn [mbind option_bind]; [|done].
  case_decide; [done|]. rewrite merge_solid_all.
  destruct (decide (solid_begin src <= solid_end src)).
  - do 2 f_equal. lia.
  - rewrite !seqZ_nil by lia. done.
Qed.

Lemma merge_ids src : rkl_wf src ->
  let l := rev (elems src) ++ seqZ (solid_begin src) (solid_end src - solid_begin src) in
  NoDup l /\ Forall txnid_ok l /\ (forall x, x ∈ l <-> member src x).
Proof.
  intros Hwf l.
  assert (l ≡ₚ ids src) as Hp.
  { destruct (view_exists src Hwf) as (P & Q & V). rewrite (ids_view src P Q V). unfold l.
    rewrite <- Permutation_rev, (view_elems _ _ _ V). rewrite <- !app_assoc. apply Permutation_app_head, Permutation_app_comm. }
  split_and!.
  - rewrite Hp. apply ascending_NoDup, ids_ascending, Hwf.
  - rewrite Hp. by apply ids_txnid.
  - intros x. rewrite Hp. by apply elem_of_ids.
Qed.
End merge.

(** ** Walking *)

Section walk.
Context (have_cmov : bool) (r : rkl_t) (Hwf : rkl_wf r).
(** [iter_pos] has 32 bits. *)
Context (Hsize : Z.of_nat (length (ids r)) <= UINT32_MAX).

(** The offset which [rkl_iterator] puts into an iterator. *)
Definition offset_ok (o : Z) (P : list Z) : Prop :=
  o = if decide (solid_begin r < solid_end r /\ elems r <> []) then Z.of_nat (length P) else 0.

Lemma rkl_iterator_spec P Q reverse : view r P Q ->
  exists it, rkl_iterator have_cmov r reverse = Some it /\ offset_ok (solid_offset it) P /\
  iter_pos it = if reverse then Z.of_nat (length (ids r)) else 0.
Proof.
  intros V. unfold rkl_iterator, offset_ok. destruct (rkl_len_spec r Hwf) as [Hlen _]. rewrite Hlen, u32_small by lia.
  pose proof (ids_view r P Q V) as Hids. apply (f_equal length) in Hids. rewrite !length_app in Hids.
  unfold solid_empty. rewrite negb_involutive.
  destruct (solid_begin r <? solid_end r) eqn:Hse; simpl.
  - destruct (Nat.eqb_spec (list_length r) 0) as [Hz|Hz]; simpl.
    + rewrite decide_False by (rewrite (empty_length r Hwf Hz); tauto). eexists. split_and!; done.
    + rewrite (view_bsearch have_cmov r Hwf P Q V). simpl. rewrite decide_True.
      * eexists. split_and!; [done| |done]. simpl. apply u32_small. lia.
      * split; [lia|]. by apply (nonempty_length r Hwf).
  - rewrite decide_False by lia. eexists. split_and!; done.
Qed.

Lemma rkl_turn_spec P Q (p o : Z) (reverse : bool) :
  view r P Q -> offset_ok o P -> 0 <= p <= Z.of_nat (length (ids r)) ->
  let q := if reverse then p - 1 else p in
  rkl_turn r (mk_iter p o) reverse =
    if decide (0 <= q < Z.of_nat (length (ids r)))
    then x ← ids r !! Z.to_nat q; Some (x, mk_iter (if reverse : bool then p - 1 else p + 1) o)
    else Some (0, mk_iter p o).
Proof.
  intros V Ho Hp q. unfold rkl_turn. destruct (rkl_len_spec r Hwf) as [Hlen Hmax]. rewrite Hlen. cbn [iter_pos solid_offset].
  assert (p - Z.b2z reverse = q) as -> by (unfold q; destruct reverse; simpl; lia).
  unfold UINT32_MAX in Hsize. unfold UINT64_MAX in Hmax.
  assert (-1 <= q <= p) as Hqp by (unfold q; destruct reverse; lia).
  assert (0 <= q < Z.of_nat (length (ids r)) -> u32 (q + Z.b2z (negb reverse)) = (if reverse then p - 1 else p + 1)) as Hnext.
  { intros Hq. unfold q in *. destruct reverse; simpl; rewrite ?Z.add_0_r; apply u32_small; unfold UINT32_MAX; lia. }
  clearbody q.
  assert (0 <= u64 q) as Hpos by (apply Z.mod_pos_bound; lia).
  destruct (decide (0 <= q < Z.of_nat (length (ids r)))) as [Hq|Hq].
  2: { rewrite decide_True; [done|]. unfold u64. assert (q = -1 \/ 0 <= q) as [->|] by lia.
    - change (-1 mod 2 ^ 64) with (2 ^ 64 - 1). lia.
    - rewrite Z.mod_small; lia. }
  rewrite (u64_small q) by (unfold UINT64_MAX; lia). rewrite decide_False by lia.
  rewrite (Hnext Hq).
  pose proof (elems_length r Hwf) as HlenE. rewrite (view_elems _ _ _ V) in HlenE. rewrite length_app in HlenE.
  pose proof (ids_view r P Q V) as Hids. pose proof (f_equal length Hids) as Hl.
  rewrite !length_app, length_seqZ in Hl. pose proof (solid_empty_spec r Hwf) as Hs. unfold solid_empty in Hs.
  destruct (buf_split r Hwf) as (W & HW & _). rewrite (view_elems _ _ _ V) in HW.
  assert (forall i, (i < length P)%nat -> rdz (list_buf r) (Z.of_nat i) = ids r !! i) as HreadP.
  { intros i Hi. unfold rdz. rewrite decide_True, Nat2Z.id by lia. unfold rd.
    rewrite HW, Hids, <- app_assoc, !(lookup_app_l P) by lia. done. }
  assert (forall i, (i < length Q)%nat ->
    rdz (list_buf r) (Z.of_nat (length P + i)) = ids r !! (length P + Z.to_nat (solid_end r - solid_begin r) + i)%nat) as HreadQ.
  { intros i Hi. unfold rdz. rewrite decide_True, Nat2Z.id by lia. unfold rd.
    rewrite HW, Hids, <- app_assoc, !(lookup_app_r P) by lia.
    rewrite lookup_app_l by lia. rewrite lookup_app_r by (rewrite length_seqZ; lia). rewrite length_seqZ. f_equal. lia. }
  assert (forall i, 0 <= i < solid_end r - solid_begin r ->
    Some (solid_begin r + i) = ids r !! (length P + Z.to_nat i)%nat) as HreadS.
  { intros i Hi. rewrite Hids, lookup_app_r, lookup_app_l by (rewrite ?length_seqZ; lia). symmetry.
    replace (length P + Z.to_nat i - length P)%nat with (Z.to_nat i) by lia. apply lookup_seqZ. lia. }
  unfold offset_ok in Ho. destruct (solid_begin r <? solid_end r) eqn:Hse; simpl in Hs.
  - destruct Hs as (Hlt & Hb & He). unfold MIN_TXNID, UINT64_MAX in *. rewrite (u64_small (solid_end r - solid_begin r)) by (unfold UINT64_MAX; lia).
    destruct (decide (list_length r <> 0%nat)) as [Hne|Hne].
    + rewrite decide_True in Ho by (split; [done|]; by apply (nonempty_length r Hwf)). subst o.
      case_decide as H1; [|case_decide as H2].
      * rewrite <- (Z2Nat.id q) by lia. rewrite HreadP by lia. by rewrite Nat2Z.id.
      * rewrite u64_small in H2 by (unfold UINT64_MAX; lia). rewrite u64_small by (unfold UINT64_MAX; lia).
        replace (solid_begin r + q - Z.of_nat (length P)) with (solid_begin r + (q - Z.of_nat (length P))) by lia.
        specialize (HreadS (q - Z.of_nat (length P)) ltac:(lia)).
        replace (length P + Z.to_nat (q - Z.of_nat (length P)))%nat with (Z.to_nat q) in HreadS by lia. by rewrite <- HreadS.
      * rewrite u64_small in H2 by (unfold UINT64_MAX; lia). rewrite u64_small by (unfold UINT64_MAX; lia).
        specialize (HreadQ (Z.to_nat q - length P - Z.to_nat (solid_end r - solid_begin r))%nat ltac:(lia)).
        replace (Z.of_nat (length P + (Z.to_nat q - length P - Z.to_nat (solid_end r - solid_begin r))))
          with (q - (solid_end r - solid_begin r)) in HreadQ by lia.
        rewrite HreadQ. do 2 f_equal. lia.
    + assert (P = []) as -> by (destruct P; simpl in *; [done|lia]). rewrite u64_small by (unfold UINT64_MAX; simpl in *; lia).
      specialize (HreadS q ltac:(simpl in *; lia)). simpl in HreadS. by rewrite <- HreadS.
  - rewrite decide_False in Ho by lia. subst o. destruct Hs as [Hge HidsE].
    rewrite decide_True by (rewrite HidsE, (elems_length r Hwf) in Hq; lia).
    assert (solid_begin r = solid_end r) as Hbe.
    { destruct (wf_solid _ Hwf) as [(_&_&Hn)|[(He & _)|(?&?&_)]]; [|done|lia].
      rewrite HidsE, Hn in Hq. simpl in Hq. lia. }
    rewrite Hbe, Z.sub_diag. change (u64 0) with 0. rewrite !Z.sub_0_r, Z.add_0_l. change (u64 0) with 0.
    rewrite decide_False by lia. rewrite decide_False by lia. rewrite (u64_small q) by (unfold UINT64_MAX; lia).
    unfold rdz. rewrite decide_True by lia. rewrite buf_lookup by (rewrite HidsE, (elems_length r Hwf) in Hq; lia). by rewrite HidsE.
Qed.
End walk.

(** ** The self-check *)

Lemma ordered_cells_spec l i n : ascending l -> (0 < i)%nat -> (i + n <= length l)%nat -> ordered_cells n i l = Some true.
Proof.
  intros Hasc. revert i. induction n as [|n IH]; intros i Hi Hn; cbn [ordered_cells]; [done|].
  destruct (rd_Some l (i - 1)) as [a Ha]; [lia|]. destruct (rd_Some l i) as [b Hb]; [lia|].
  rewrite Ha, Hb. cbn [mbind option_bind]. unfold RKL_ORDERED, rd in *.
  specialize (Hasc (i - 1)%nat i a b ltac:(lia) Ha Hb). replace (a <? b) with true by lia. apply IH; lia.
Qed.

Lemma ordered_cells_prefix l W n i : (i + n <= length l)%nat -> ordered_cells n i (l ++ W) = ordered_cells n i l.
Proof.
  revert i. induction n as [|n IH]; intros i Hn; cbn [ordered_cells]; [done|].
  unfold rd. rewrite !lookup_app_l by lia. destruct (l !! (i - 1)%nat); cbn [mbind option_bind]; [|done].
  destruct (l !! i); cbn [mbind option_bind]; [|done]. destruct RKL_ORDERED; [|done]. apply IH. lia.
Qed.

Lemma rkl_check_wf have_cmov r : rkl_wf r -> rkl_check have_cmov r = Some true.
Proof.
  intros Hwf. unfold rkl_check. pose proof (wf_inplace _ Hwf) as [Hi1 Hi2].
  assert (list_inplace r && negb (Nat.eqb (list_limit r) inplace_length) = false) as ->.
  { destruct (list_inplace r); [|done]. by rewrite Hi2, Nat.eqb_refl. }
  rewrite decide_False by lia. destruct (view_exists r Hwf) as (P & Q & V).
  destruct (rkl_empty r) eqn:Hem; unfold rkl_empty in Hem.
  - destruct (wf_solid _ Hwf) as [(Hb & He & Hn)|[(?&?)|(?&?&?)]]; [|lia|lia].
    unfold solid_empty. pose proof (elems_length r Hwf) as Hl. rewrite Hn in Hl. simpl in Hl. by rewrite <- Hl, Hb, He.
  - case_decide as Hne; [|done]. destruct (buf_split r Hwf) as (W & HW & _). pose proof (elems_length r Hwf) as Hl.
    rewrite HW at 1. rewrite ordered_cells_prefix by lia.
    rewrite ordered_cells_spec; [|by apply wf_ascending|lia|lia]. cbn [mbind option_bind].
    destruct (list_ends r Hwf Hne) as (first & last & L & _ & -> & _ & ->). cbn [mbind option_bind].
    destruct (negb (solid_empty r) && _ && _) eqn:C; [|done].
    assert (solid_begin r < solid_end r) as Hlt.
    { unfold solid_empty in C. destruct (solid_begin r <? solid_end r) eqn:?; [lia|done]. }
    rewrite (view_bsearch have_cmov r Hwf P Q V). cbn [mbind option_bind].
    pose proof (view_apart _ _ _ V Hlt) as [_ HQ]%Forall_app. pose proof (view_low _ _ _ V) as HP.
    pose proof (view_high _ _ _ V) as HQ2.
    pose proof (view_elems _ _ _ V) as E. rewrite E, length_app in Hl.
    assert ((match length P with O => Some false | S it => x ← rd (list_buf r) it; Some (x >=? solid_begin r) end) =
      Some false) as ->.
    { destruct P as [|p P _] using rev_ind; [done|]. rewrite length_app, Nat.add_1_r in *. rewrite buf_lookup by lia.
      rewrite E, <- app_assoc. simpl. rewrite lookup_app_r, Nat.sub_diag by lia. simpl.
      apply Forall_app in HP as [_ [Hp _]%Forall_cons]. f_equal. lia. }
    cbn [mbind option_bind]. case_decide as HQl; [|done]. rewrite buf_lookup by lia.
    rewrite E, lookup_app_r, Nat.sub_diag by lia. destruct Q as [|q Q]; [simpl in *; lia|]. simpl.
    apply Forall_cons in HQ as [Hq _]. apply Forall_cons in HQ2 as [Hq2 _]. unfold apart in Hq. do 2 f_equal. lia.
Qed.

(** ** An rkl is a set of transaction ids *)

Lemma rkl_init_wf cells : length cells = inplace_length -> rkl_wf (rkl_init cells).
Proof.
  intros H. apply (rkl_wf_mk UINT64_MAX 0 [] cells inplace_length true); try done. by left.
Qed.

Lemma rkl_clear_wf r : rkl_wf r -> rkl_wf (rkl_clear r).
Proof.
  intros Hwf. pose proof (wf_inplace _ Hwf) as [? ?]. apply (rkl_wf_mk UINT64_MAX 0 [] (list_buf r)); try done.
  - by apply wf_limit.
  - by left.
Qed.

(** The ids as a finite set. *)
Definition abs (r : rkl_t) : gset Z := list_to_set (ids r).

Lemma elem_of_abs r x : rkl_wf r -> x ∈ abs r <-> member r x.
Proof. intros Hwf. unfold abs. rewrite elem_of_list_to_set. by apply elem_of_ids. Qed.

Inductive rkl_op :=
  | Push (id : Z) | Pop (highest_not_lowest : bool) | Contain (id : Z) | Lowest | Highest | Clear.

(** What the operations promise on sets: the value they return and the new set. *)
Inductive set_step (s : gset Z) : rkl_op -> Z -> gset Z -> Prop :=
  | push_ok id : id ∉ s -> set_step s (Push id) MDBX_SUCCESS ({[id]} ∪ s)
  | push_error id err : err = MDBX_ENOMEM \/ err = MDBX_TXN_FULL -> set_step s (Push id) err s
  | pop_none high : s = ∅ -> set_step s (Pop high) 0 s
  | pop_one (high : bool) out : out ∈ s -> (forall x, x ∈ s -> if high then x <= out else out <= x) ->
      set_step s (Pop high) out (s ∖ {[out]})
  | contain_iff id : set_step s (Contain id) (Z.b2z (bool_decide (id ∈ s))) s
  | lowest_none : s = ∅ -> set_step s Lowest INVALID_TXNID s
  | lowest_one out : out ∈ s -> (forall x, x ∈ s -> out <= x) -> set_step s Lowest out s
  | highest_none : s = ∅ -> set_step s Highest 0 s
  | highest_one out : out ∈ s -> (forall x, x ∈ s -> x <= out) -> set_step s Highest out s
  | clear_all : set_step s Clear 0 ∅.

Section refinement.
Context (have_cmov : bool) (alloc : Z -> option Z) (Halloc : alloc_ok alloc).

Definition rkl_step (r : rkl_t) (op : rkl_op) : option (Z * rkl_t) :=
  match op with
  | Push id => rkl_push have_cmov alloc r id
  | Pop high => rkl_pop r high
  | Contain id => b ← rkl_contain have_cmov r id; Some (Z.b2z b, r)
  | Lowest => x ← rkl_lowest r; Some (x, r)
  | Highest => x ← rkl_highest r; Some (x, r)
  | Clear => Some (0, rkl_clear r)
  end.

(** The caller pushes valid ids it has not pushed before. *)
Definition op_ok (s : gset Z) (op : rkl_op) : Prop :=
  match op with Push id => txnid_ok id /\ id ∉ s | _ => True end.

Lemma ids_nil_abs r : rkl_wf r -> ids r = [] <-> abs r = ∅.
Proof.
  intros Hwf. unfold abs. split; [by intros ->|]. intros H. destruct (ids r) as [|x l]; [done|]. set_solver.
Qed.

Lemma rkl_step_refines r op :
  rkl_wf r -> op_ok (abs r) op ->
  exists v r', rkl_step r op = Some (v, r') /\ rkl_wf r' /\ set_step (abs r) op v (abs r').
Proof.
  intros Hwf Hop. destruct op as [id|high|id| | |]; cbn [rkl_step op_ok] in *.
  - destruct Hop as [Hid Hnew]. rewrite elem_of_abs in Hnew by done.
    destruct (rkl_push_new have_cmov alloc Halloc r id Hwf Hid Hnew) as (err & r' & -> & [(-> & Hwf' & Hm)|[Herr ->]]).
    + eexists _, _. split_and!; [done..|]. replace (abs r') with ({[id]} ∪ abs r); [constructor; by rewrite elem_of_abs|].
      apply set_eq. intros x. rewrite elem_of_union, elem_of_singleton, !elem_of_abs, Hm by done. tauto.
    + eexists _, _. split_and!; [done..|]. by constructor.
  - destruct (ids r) as [|y l] eqn:E.
    + exists 0, r. split_and!; [|done|constructor; by apply ids_nil_abs].
      destruct (view_exists r Hwf) as (P & Q & V). rewrite (ids_view r P Q V) in E. unfold rkl_pop.
      assert (P = [] /\ Q = []) as [-> ->] by (destruct P, Q; try done; destruct (seqZ _ _); done).
      pose proof (elems_length r Hwf) as Hl. rewrite (view_elems _ _ _ V) in Hl. simpl in Hl, E. rewrite <- Hl. simpl.
      rewrite app_nil_r in E. unfold solid_empty. destruct (solid_begin r <? solid_end r) eqn:Hs; [|done].
      rewrite seqZ_cons in E by lia. done.
    + destruct (rkl_pop_spec r Hwf high) as (out & r' & -> & Hout & Hext & Hwf' & Hm); [by rewrite E|].
      eexists _, _. split_and!; [done..|]. replace (abs r') with (abs r ∖ {[out]}).
      * constructor; [by apply elem_of_abs|]. intros x Hx%elem_of_abs; [|done]. by apply Hext.
      * apply set_eq. intros x. rewrite elem_of_difference, elem_of_singleton, !elem_of_abs, Hm by done. tauto.
  - destruct (rkl_contain_spec have_cmov r Hwf id) as (b & -> & Hb). eexists _, _. split_and!; [done..|].
    replace b with (bool_decide (id ∈ abs r)); [constructor|].
    destruct b; case_bool_decide as H; try done; rewrite elem_of_abs in H by done.
    + exfalso. apply H. by apply Hb.
    + by apply Hb in H.
  - rewrite (rkl_lowest_ids r Hwf). eexists _, _. split_and!; [done..|].
    destruct (ids r) as [|y l] eqn:E; [constructor; by apply ids_nil_abs|].
    apply lowest_one; [unfold abs; rewrite E; set_solver|]. unfold abs. rewrite E. intros x Hx. simpl.
    apply elem_of_list_to_set in Hx. pose proof (ids_ascending r Hwf) as Hasc. rewrite E in Hasc.
    apply ascending_cons in Hasc as [Hlt _]. rewrite Forall_forall in Hlt.
    apply elem_of_cons in Hx as [->|Hx]; [lia|]. specialize (Hlt x Hx). lia.
  - rewrite (rkl_highest_ids r Hwf). eexists _, _. split_and!; [done..|].
    destruct (ids r) as [|y l _] eqn:E using rev_ind; [constructor; by apply ids_nil_abs|].
    apply highest_one; unfold abs; rewrite E, last_last; [set_solver|]. intros x Hx.
    apply elem_of_list_to_set in Hx. pose proof (ids_ascending r Hwf) as Hasc. rewrite E in Hasc.
    apply ascending_app in Hasc as (_ & _ & Hlt).
    apply elem_of_app in Hx as [Hx| ->%list_elem_of_singleton]; [|lia]. specialize (Hlt x y Hx ltac:(by left)). lia.
  - eexists _, _. split_and!; [done|by apply rkl_clear_wf|].
    replace (abs (rkl_clear r)) with (∅ : gset Z); [constructor|].
    symmetry. apply ids_nil_abs; [by apply rkl_clear_wf|]. unfold ids, elems. simpl. by rewrite take_0.
Qed.

(** A client that keeps to [op_ok], from an rkl it has just initialised. *)
Inductive run (cells : list Z) : list (rkl_op * Z) -> rkl_t -> Prop :=
| run_init : run cells [] (rkl_init cells)
| run_step tr r op v r' : run cells tr r -> op_ok (abs r) op -> rkl_step r op = Some (v, r') ->
run cells (tr ++ [(op, v)]) r'.

Inductive set_run : list (rkl_op * Z) -> gset Z -> Prop :=
| set_run_init : set_run [] ∅
| set_run_step tr s op v s' : set_run tr s -> set_step s op v s' -> set_run (tr ++ [(op, v)]) s'.
End refinement.

(** ** The whole walk *)

(** The loop of a caller: turn until the iterator gives 0. *)
Fixpoint walk (fuel : nat) (r : rkl_t) (it : rkl_iter_t) (reverse : bool) : option (list Z) :=
  match fuel with
  | O => None
  | S fuel =>
      '(id, it) ← rkl_turn r it reverse;
      if decide (id = 0) then Some [] else l ← walk fuel r it reverse; Some (id :: l)
  end.

Section walk_all.
Context (r : rkl_t) (Hwf : rkl_wf r) (Hsize : Z.of_nat (length (ids r)) <= UINT32_MAX).
Context (P Q : list Z) (V : view r P Q) (o : Z) (Ho : offset_ok r o P).

Lemma ids_nonzero i x : ids r !! i = Some x -> x <> 0.
Proof.
  intros Hx. pose proof (ids_txnid r Hwf) as Hok. eapply Forall_lookup_1 in Hok; [|exact Hx].
  unfold txnid_ok, MIN_TXNID in Hok. lia.
Qed.

Lemma walk_forward n p :
  (p + n = length (ids r))%nat -> walk (S n) r (mk_iter (Z.of_nat p) o) false = Some (drop p (ids r)).
Proof.
  revert p. induction n as [|n IH]; intros p Hp.
  - cbn [walk]. rewrite (rkl_turn_spec r Hwf Hsize P Q) by (done || lia). cbn [mbind option_bind].
    rewrite decide_False by lia. cbn [mbind option_bind]. rewrite decide_True, drop_ge by (done || lia). done.
  - remember (S n) as m. cbn [walk]. subst m.
    rewrite (rkl_turn_spec r Hwf Hsize P Q) by (done || lia). rewrite decide_True by lia. rewrite Nat2Z.id.
    destruct (lookup_lt_is_Some_2 (ids r) p) as [x Hx]; [lia|]. rewrite Hx. cbn [mbind option_bind].
    rewrite decide_False by (by apply (ids_nonzero p)). replace (Z.of_nat p + 1) with (Z.of_nat (S p)) by lia.
    rewrite IH by lia. cbn [mbind option_bind]. by rewrite (drop_S (ids r) x p Hx).
Qed.

Lemma walk_backward p :
  (p <= length (ids r))%nat -> walk (S p) r (mk_iter (Z.of_nat p) o) true = Some (rev (take p (ids r))).
Proof.
  induction p as [|p IH]; intros Hp.
  - cbn [walk]. rewrite (rkl_turn_spec r Hwf Hsize P Q) by (done || lia).
    rewrite decide_False by lia. cbn [mbind option_bind]. by rewrite decide_True.
  - remember (S p) as m. cbn [walk]. subst m.
    rewrite (rkl_turn_spec r Hwf Hsize P Q) by (done || lia). rewrite decide_True by lia.
    replace (Z.to_nat (Z.of_nat (S p) - 1)) with p by lia. replace (Z.of_nat (S p) - 1) with (Z.of_nat p) by lia.
    destruct (lookup_lt_is_Some_2 (ids r) p) as [x Hx]; [lia|]. rewrite Hx. cbn [mbind option_bind].
    rewrite decide_False by (by apply (ids_nonzero p)). rewrite IH by lia. cbn [mbind option_bind].
    rewrite (take_S_r _ _ _ Hx), rev_app_distr. done.
Qed.
End walk_all.

(** ** Properties *)

(** A concrete rkl: the interval 5 .. 6 and the list 10, 20, 30, 40. *)
Definition rkl_sample : rkl_t := mk_rkl 5 7 4 12 [10; 20; 30; 40; 0; 0; 0; 0; 0; 0; 0; 0] true.

Lemma rkl_sample_wf : rkl_wf rkl_sample.
Proof.
  apply (rkl_wf_mk 5 7 [10; 20; 30; 40] [0; 0; 0; 0; 0; 0; 0; 0] 12%nat true); try done.
  - repeat (apply ascending_cons; split; [repeat constructor; lia|]). apply ascending_nil.
  - repeat constructor; unfold txnid_ok, MIN_TXNID, INVALID_TXNID, UINT64_MAX; lia.
  - right. right. unfold MIN_TXNID, UINT64_MAX. split_and!; [lia..|]. repeat constructor; unfold apart; lia.
Qed.

(** C21. An rkl refines a finite set of transaction ids: after any run of
    operations of a client which does not push an id twice, the structure is
    well formed, the values returned are those of the operations on sets, and
    every further operation succeeds inside its buffers. *)
Theorem rkl_refines_set (have_cmov : bool) (alloc : Z -> option Z) (cells : list Z) tr r :
  alloc_ok alloc -> length cells = inplace_length -> run have_cmov alloc cells tr r ->
  rkl_wf r /\ set_run tr (abs r) /\
  forall op, op_ok (abs r) op -> exists v r', rkl_step have_cmov alloc r op = Some (v, r').
Proof.
  intros Halloc Hcells Hrun.
  assert (rkl_wf r /\ set_run tr (abs r)) as [Hwf Hset].
  { induction Hrun as [|tr r op v r' Hrun [Hwf Hset] Hop Hstep].
    - split; [by apply rkl_init_wf|]. constructor.
    - destruct (rkl_step_refines have_cmov alloc Halloc r op Hwf Hop) as (v2 & r2 & E & Hwf' & Hs).
      rewrite Hstep in E. injection E as <- <-. split; [done|]. by econstructor. }
  split_and!; [done..|]. intros op Hop.
  destruct (rkl_step_refines have_cmov alloc Halloc r op Hwf Hop) as (v & r' & E & _). eauto.
Qed.

Lemma rkl_refines_set_witness :
  exists r, set_run [(Push 7, 0); (Push 9, 0)] (abs r) /\ elems r = [9].
Proof.
  assert (alloc_ok Some) as Ha by (intros ? ? [= <-]; lia).
  destruct (rkl_refines_set true Some (replicate 12 0) [(Push 7, 0); (Push 9, 0)]
    (mk_rkl 7 8 1 12 [9; 0; 0; 0; 0; 0; 0; 0; 0; 0; 0; 0] true) Ha eq_refl) as (_ & H & _).
  - apply (run_step _ _ _ [(Push 7, 0)] (mk_rkl 7 8 0 12 (replicate 12 0) true)).
    + apply (run_step _ _ _ [] (rkl_init (replicate 12 0))); [constructor| |vm_compute; reflexivity].
      vm_compute. split; [split; congruence|intros ?; congruence].
    + split; [split; vm_compute; congruence|]. vm_compute. congruence.
    + vm_compute. reflexivity.
  - eexists. split; [exact H|reflexivity].
Defined.

(** Pushing an id which is not in the rkl keeps it well formed and adds
    exactly this id, whichever of the paths is taken (extending the interval,
    the couple, the sorted insertion, the exchange with a longer run), or fails
    for lack of memory or room and changes nothing. *)
Theorem rkl_push_adds (have_cmov : bool) (alloc : Z -> option Z) r id :
  alloc_ok alloc -> rkl_wf r -> txnid_ok id -> ~ member r id -> pushed r id (rkl_push have_cmov alloc r id).
Proof. intros Ha. by apply rkl_push_new. Qed.

Lemma rkl_push_adds_witness : pushed rkl_sample 25 (rkl_push true Some rkl_sample 25).
Proof.
  apply rkl_push_adds; [intros ? ? [= <-]; lia|apply rkl_sample_wf|split; vm_compute; congruence|].
  intros [H|H]; simpl in *; [|lia]. unfold elems in H. simpl in H. rewrite !elem_of_cons, elem_of_nil in H. lia.
Defined.

(** Pushing a duplicate: with the id in the interval, or with an empty
    interval, nothing changes.  With the id in the list in front of two or more
    others, the list loses its greatest id and holds the one before it twice,
    because the loop that moves the elements back stops one cell early. *)
Theorem rkl_push_duplicate (have_cmov : bool) (alloc : Z -> option Z) r id :
  alloc_ok alloc -> rkl_wf r -> member r id -> (list_length r < list_limit r)%nat ->
  exists r', rkl_push have_cmov alloc r id = Some (MDBX_RESULT_TRUE, r') /\
  (solid_begin r <= id < solid_end r \/ solid_begin r >= solid_end r -> r' = r) /\
  (forall A B x y, solid_begin r < solid_end r -> elems r = A ++ id :: B ++ [x; y] -> elems r' = A ++ id :: B ++ [x; x]).
Proof.
  intros Ha Hwf Hm Hroom.
  destruct (decide (solid_begin r <= id < solid_end r \/ solid_begin r >= solid_end r)) as [H|H].
  - rewrite rkl_push_dup by done. exists r. split_and!; try done. intros A B x y Hlt E. exfalso.
    destruct (wf_solid _ Hwf) as [(Hb & He & _)|[(?&?&_)|(_&_&_&Hap)]];
      [rewrite Hb, He in Hlt; unfold UINT64_MAX in Hlt; lia|lia|].
    rewrite E in Hap. apply Forall_app in Hap as [_ [Hap _]%Forall_cons]. unfold apart in Hap. lia.
  - destruct Hm as [Hm|]; [|lia]. apply list_elem_of_split in Hm as (A & B & E).
    destruct (rkl_push_list_dup have_cmov alloc r A id B Hwf ltac:(lia) E Hroom) as (r' & -> & E' & _).
    exists r'. split_and!; [done|tauto|]. intros A2 B2 x y _ E2. rewrite E' . rewrite E2 in E.
    assert (A = A2 /\ B = B2 ++ [x; y]) as [-> ->].
    { pose proof (wf_ascending _ Hwf) as Hasc. rewrite E2 in Hasc. pose proof Hasc as Hasc2. rewrite E in Hasc2.
      assert (length A2 = length A) as HlA.
      { eapply (ascending_lookup_inj _ _ _ id Hasc); [|rewrite E]; rewrite lookup_app_r, Nat.sub_diag by lia; done. }
      symmetry in E. apply app_inj_1 in E as [-> E]; [|done]. by injection E as ->. }
    replace (B2 ++ [x; y]) with ((B2 ++ [x]) ++ [y]) by by rewrite <- app_assoc.
    rewrite removelast_last, last_last. destruct ((B2 ++ [x]) ++ [y]) eqn:Ee; [by destruct B2|].
    by rewrite <- app_assoc.
Qed.

Lemma rkl_push_duplicate_witness :
  exists r', rkl_push true Some rkl_sample 20 = Some (MDBX_RESULT_TRUE, r') /\ elems r' = [10; 20; 30; 30].
Proof.
  destruct (rkl_push_duplicate true Some rkl_sample 20) as (r' & H1 & _ & H2).
  - intros ? ? [= <-]. lia.
  - apply rkl_sample_wf.
  - left. vm_compute. right. left.
  - simpl. lia.
  - exists r'. split; [exact H1|]. exact (H2 [10] [] 30 40 eq_refl eq_refl).
Defined.

(** Merging an rkl into a disjoint one gives the union; when memory or room
    runs out on the way, the destination is well formed, keeps its ids and has
    got only ids of the source. *)
Theorem rkl_merge_union (have_cmov : bool) (alloc : Z -> option Z) src dst ignore :
  alloc_ok alloc -> rkl_wf src -> rkl_wf dst -> (forall x, member src x -> ~ member dst x) ->
  exists err r', rkl_merge have_cmov alloc src dst ignore = Some (err, r') /\ rkl_wf r' /\
  (err = MDBX_SUCCESS /\ (forall x, member r' x <-> member dst x \/ member src x) \/
    (err = MDBX_ENOMEM \/ err = MDBX_TXN_FULL) /\
    (forall x, member dst x -> member r' x) /\ (forall x, member r' x -> member dst x \/ member src x)).
Proof.
  intros Ha Hsrc Hdst Hdisj. rewrite rkl_merge_all by done. destruct (merge_ids src Hsrc) as (Hnd & Hok & Hm).
  destruct (push_all_spec have_cmov alloc Ha _ dst ignore Hdst Hok Hnd) as (err & r' & -> & Hwf & Hres).
  - intros x Hx. by apply Hdisj, Hm.
  - exists err, r'. split_and!; [done..|]. destruct Hres as [[-> H]|[Herr (dn & Hdn & H)]]; [left|right].
    + split; [done|]. intros x. by rewrite H, Hm.
    + split_and!; [done|intros x ?; rewrite H; tauto|]. intros x [Hx|Hx]%H; [tauto|]. right. apply Hm.
      eapply elem_of_prefix; done.
Qed.

Lemma rkl_merge_union_witness :
  exists r', rkl_merge true Some rkl_sample (rkl_init (replicate 12 0)) false = Some (MDBX_SUCCESS, r') /\ rkl_wf r'.
Proof.
  destruct (rkl_merge_union true Some rkl_sample (rkl_init (replicate 12 0)) false) as (err & r' & E & Hwf & _).
  - intros ? ? [= <-]. lia.
  - apply rkl_sample_wf.
  - by apply rkl_init_wf.
  - intros x _ [H|H]; simpl in H; [by apply elem_of_nil in H|unfold UINT64_MAX in H; lia].
  - exists r'. split; [|exact Hwf]. rewrite E. f_equal. f_equal.
    assert (fst <$> rkl_merge true Some rkl_sample (rkl_init (replicate 12 0)) false = Some MDBX_SUCCESS) as H
      by (vm_compute; reflexivity).
    rewrite E in H. simpl in H. by injection H.
Defined.

(** A forward walk with the iterator visits all ids in ascending order and a
    reverse walk in descending order, and then the iterator gives 0. *)
Theorem rkl_walk_all (have_cmov : bool) r (reverse : bool) :
  rkl_wf r -> Z.of_nat (length (ids r)) <= UINT32_MAX ->
  exists it, rkl_iterator have_cmov r reverse = Some it /\
  walk (S (length (ids r))) r it reverse = Some (if reverse then rev (ids r) else ids r) /\
  ascending (ids r) /\ (forall x, x ∈ ids r <-> member r x).
Proof.
  intros Hwf Hsize. destruct (view_exists r Hwf) as (P & Q & V).
  destruct (rkl_iterator_spec have_cmov r Hwf Hsize P Q reverse V) as ([p o] & E & Ho & Hp). simpl in Ho, Hp. subst p.
  exists (mk_iter (if reverse then Z.of_nat (length (ids r)) else 0) o). split; [done|]. split; [|split].
  - destruct reverse.
    + rewrite (walk_backward r Hwf Hsize P Q V o Ho) by lia. by rewrite take_ge.
    + apply (walk_forward r Hwf Hsize P Q V o Ho (length (ids r)) 0). lia.
  - by apply ids_ascending.
  - intros x. by apply elem_of_ids.
Qed.

Lemma rkl_walk_all_witness :
  exists it, rkl_iterator true rkl_sample true = Some it /\
  walk 7 rkl_sample it true = Some [40; 30; 20; 10; 6; 5].
Proof.
  destruct (rkl_walk_all true rkl_sample true rkl_sample_wf) as (it & E & W & _); [vm_compute; congruence|].
  exists it. split; [exact E|exact W].
Defined.

(** The self-check accepts every well-formed rkl; in particular it accepts
    what every push and every pop leaves behind. *)
Theorem rkl_check_accepts (have_cmov : bool) r : rkl_wf r -> rkl_check have_cmov r = Some true.
Proof. apply rkl_check_wf. Qed.

Lemma rkl_check_accepts_witness : rkl_check true rkl_sample = Some true.
Proof. apply rkl_check_accepts, rkl_sample_wf. Defined.
