(* ===== verification/Pnl.v ===== *)
(** * Page number lists (pnl)

    [pnl_t] of mdbx.c: an array of 32-bit page numbers in strictly descending
    order behind its own length.  The pointer [pnl] addresses the length
    [pnl[0]]; the allocated capacity is one cell in front of it.  The model keeps
    the capacity apart and all cells from [pnl[0]] on as one list, because the
    code merges, cuts, sifts and sorts in place and uses cell 0 and the cells
    behind the data.  The built configuration is modelled: descending order and
    room for the radix sort behind the data. *)

From S2P Require Import Prelude Search Sort Radix.

Definition MDBX_PNL_ORDERED (first last : Z) : bool := first >? last.
Definition MDBX_PNL_DISORDERED (first last : Z) : bool := first <=? last.
Definition MDBX_PNL_REVERSED (first last : Z) : bool := first <? last.
(** The difference of two [pgno_t] is taken modulo 2{^32}. *)
Definition MDBX_PNL_CONTIGUOUS (prev next span : Z) : bool := u32 (prev - next) =? span.
Definition MDBX_PNL_GRANULATE : Z := 1024.
Definition MDBX_PNL_INITIAL : Z := MDBX_PNL_GRANULATE - 2 - MDBX_ASSUME_MALLOC_OVERHEAD / 4.
Definition MDBX_CACHELINE_SIZE : Z := 64.
Definition MDBX_RADIXSORT_THRESHOLD : Z := 142.

Record pnl_t := mk_pnl { pnl_alloclen : Z; cells : list Z }.

(** [pnl[0]] *)
Definition pnl_size (c : list Z) : nat := Z.to_nat (hd 0 c).
Definition pnl_setsize (c : list Z) (len : nat) : option (list Z) := wr c 0 (Z.of_nat len).

Definition pnl_bytes2size (bytes : Z) : Z := u32 (Z.shiftr (bytes / 4 - 3) 1).
Definition pnl_size2bytes (wanna_size : Z) : Z :=
  ceil_powerof2 (MDBX_ASSUME_MALLOC_OVERHEAD + 4 * (wanna_size + wanna_size + 3)) (MDBX_PNL_GRANULATE * 4)
    - MDBX_ASSUME_MALLOC_OVERHEAD.

(** A block of [bytes] bytes holds the capacity and these cells. *)
Definition block_cells (bytes : Z) : nat := Z.to_nat (bytes / 4 - 1).

Section memory.
(** The usable size of a new or resized block, or [None]. *)
Context (malloc : Z -> option Z).

Definition pnl_alloc (size : Z) : option pnl_t :=
  bytes ← malloc (pnl_size2bytes size);
  Some (mk_pnl (pnl_bytes2size bytes) (replicate (block_cells bytes) 0)).

(** [osal_realloc] of the block of [p] *)
Definition pnl_realloc (p : pnl_t) (size : Z) : option pnl_t :=
  bytes ← malloc (pnl_size2bytes size);
  Some (mk_pnl (pnl_bytes2size bytes) (resize (block_cells bytes) 0 (cells p))).

Definition pnl_clone (src : pnl_t) : option (option pnl_t) :=
  match pnl_alloc (pnl_alloclen src) with
  | None => Some None
  | Some pl =>
      c ← blit (cells src) 0 (cells pl) 0 (pnl_size (cells src) + 1);
      Some (Some (mk_pnl (pnl_alloclen pl) c))
  end.

Definition pnl_shrink (p : pnl_t) : option pnl_t :=
  c ← pnl_setsize (cells p) 0;
  let p := mk_pnl (pnl_alloclen p) c in
  Some (if decide (pnl_alloclen p > MDBX_PNL_INITIAL * 8 - MDBX_CACHELINE_SIZE / 4)
        then default p (pnl_realloc p (MDBX_PNL_INITIAL * 2)) else p).

Definition pnl_reserve (ppnl : option pnl_t) (wanna : Z) : Z * option pnl_t :=
  match ppnl with
  | None => match pnl_alloc wanna with Some p => (MDBX_SUCCESS, Some p) | None => (MDBX_ENOMEM, None) end
  | Some p =>
      let allocated := pnl_alloclen p in
      if decide (allocated >= wanna) then (MDBX_SUCCESS, Some p)
      else if decide (wanna > PAGELIST_LIMIT) then (MDBX_TXN_FULL, Some p)
      else
        let size := if decide (wanna + wanna - allocated < PAGELIST_LIMIT)
                    then wanna + wanna - allocated else PAGELIST_LIMIT in
        match pnl_realloc p size with
        | Some p => (MDBX_SUCCESS, Some p)
        | None => (MDBX_ENOMEM, Some p)
        end
  end.

Definition pnl_need (ppnl : option pnl_t) (more : Z) : Z * option pnl_t :=
  match ppnl with
  | Some p =>
      let more := more + Z.of_nat (pnl_size (cells p)) in
      if decide (pnl_alloclen p >= more) then (MDBX_SUCCESS, Some p) else pnl_reserve (Some p) more
  | None => pnl_reserve None more
  end.

Definition pnl_append_prereserved (c : list Z) (pgno : Z) : option (list Z) :=
  let w := S (pnl_size c) in
  c ← pnl_setsize c w;
  wr c w pgno.

(** What the callers of [pnl_need] do on success with the list. *)
Definition on_success (res : Z * option pnl_t) (f : list Z -> option (list Z)) : option (Z * option pnl_t) :=
  let '(rc, ppnl) := res in
  if decide (rc <> MDBX_SUCCESS) then Some (rc, ppnl)
  else p ← ppnl; c ← f (cells p); Some (MDBX_SUCCESS, Some (mk_pnl (pnl_alloclen p) c)).

Definition pnl_append (ppnl : option pnl_t) (pgno : Z) : option (Z * option pnl_t) :=
  on_success (pnl_need ppnl 1) (fun c => pnl_append_prereserved c pgno).

(** [do { pnl[w--] = pgno; pgno += step; } while (--n)] *)
Fixpoint fill_back (n : nat) (c : list Z) (w : nat) (pgno step : Z) : option (list Z) :=
  match n with
  | O => Some c
  | S n => c ← wr c w pgno; fill_back n c (Nat.pred w) (u32 (pgno + step)) step
  end.

Definition pnl_append_stepped (step : Z) (ppnl : option pnl_t) (pgno : Z) (n : nat) : option (Z * option pnl_t) :=
  on_success (pnl_need ppnl (Z.of_nat n)) (fun c =>
    if decide (n = 1%nat) then pnl_append_prereserved c pgno
    else
      let w := (pnl_size c + n)%nat in
      c ← pnl_setsize c w;
      fill_back n c w pgno step).

Definition spill_append_span (ppnl : option pnl_t) (pgno : Z) (n : nat) : option (Z * option pnl_t) :=
  pnl_append_stepped 2 ppnl (u32 (Z.shiftl pgno 1)) n.
Definition pnl_append_span (ppnl : option pnl_t) (pgno : Z) (n : nat) : option (Z * option pnl_t) :=
  pnl_append_stepped 1 ppnl pgno n.

Definition pnl_append_pnl (dst : pnl_t) (src : list Z) : option (Z * option pnl_t) :=
  if decide (0 < pnl_size src)%nat then
    let size := (pnl_size (cells dst) + pnl_size src)%nat in
    on_success (pnl_reserve (Some dst) (Z.of_nat size)) (fun c =>
      c ← blit src 1 c (pnl_size c + 1) (pnl_size src);
      pnl_setsize c size)
  else Some (MDBX_SUCCESS, Some dst).

(** [while (r && DISORDERED(pnl[r], pgno)) pnl[w--] = pnl[r--]] *)
Fixpoint open_gap (r : nat) (c : list Z) (w : nat) (pgno : Z) : option (list Z * nat * nat) :=
  match r with
  | O => Some (c, O, w)
  | S r' =>
      x ← rd c r;
      if MDBX_PNL_DISORDERED x pgno then c ← wr c w x; open_gap r' c (Nat.pred w) pgno
      else Some (c, r, w)
  end.

Definition pnl_insert_span (ppnl : option pnl_t) (pgno : Z) (n : nat) : option (Z * option pnl_t) :=
  on_success (pnl_need ppnl (Z.of_nat n)) (fun c =>
    let r := pnl_size c in
    let w := (r + n)%nat in
    c ← pnl_setsize c w;
    '(c, r, w) ← open_gap r c w pgno;
    fill_back (w - r) c w pgno 1).
End memory.

(** ** Searching *)

Section search.
Context (have_cmov : bool).

Definition pgno_bsearch (c : list Z) (begin length : nat) (pgno : Z) : option nat :=
  bsearch MDBX_PNL_ORDERED have_cmov c begin length pgno.

Definition pnl_search_nochk (c : list Z) (pgno : Z) : option nat := pgno_bsearch c 1 (pnl_size c) pgno.

Definition pnl_search := pnl_search_nochk.

Definition pnl_search_exact (c : list Z) (pgno : Z) : option nat :=
  n ← pnl_search_nochk c pgno;
  if decide (n <= pnl_size c)%nat then x ← rd c n; Some (if decide (x = pgno) then n else O) else Some O.

Definition pnl_contains (c : list Z) (pgno : Z) : option bool :=
  n ← pnl_search_nochk c pgno;
  if decide (n <= pnl_size c)%nat then x ← rd c n; Some (bool_decide (x = pgno)) else Some false.

Definition pnl_contains_span (c : list Z) (pgno : Z) (span : nat) : option bool :=
  n ← pnl_search_nochk c pgno;
  if decide (span <= n)%nat then
    x ← rd c n;
    if decide (x = pgno) then
      y ← rd c (n - span + 1); Some (MDBX_PNL_CONTIGUOUS y x (Z.of_nat span - 1))
    else Some false
  else Some false.
End search.

(** [while (from + span <= size && CONTIGUOUS(pnl[from], pnl[from + span], span)) ++span] *)
Fixpoint scan_span_loop (fuel : nat) (c : list Z) (from span len : nat) : option nat :=
  match fuel with
  | O => None
  | S fuel =>
      if decide (from + span <= len)%nat then
        a ← rd c from; b ← rd c (from + span);
        if MDBX_PNL_CONTIGUOUS a b (Z.of_nat span) then scan_span_loop fuel c from (S span) len else Some span
      else Some span
  end.

Definition pnl_scan_span (c : list Z) (from : nat) : option nat :=
  scan_span_loop (S (pnl_size c)) c from 1 (pnl_size c).

Fixpoint pnl_ordered_cells (n : nat) (c : list Z) (prev : Z) (scan : nat) : option bool :=
  match n with
  | O => Some true
  | S n => x ← rd c scan; if MDBX_PNL_ORDERED prev x then pnl_ordered_cells n c x (S scan) else Some false
  end.

Definition pnl_check (c : list Z) (limit : Z) : option bool :=
  let size := pnl_size c in
  if decide (size <> 0)%nat then
    if decide (Z.of_nat size > PAGELIST_LIMIT) then Some false
    else
      least ← rd c size;
      if decide (least < MIN_PAGENO) then Some false
      else
        most ← rd c 1;
        if decide (most >= limit) then Some false
        else if decide (1 < size)%nat then pnl_ordered_cells (size - 1) c most 2 else Some true
  else Some true.

(** ** Merging and sorting *)

(** The loop of [pnl_merge_inner]: [d], [a] and [b] are the cells that [dst],
    [src_a] and [src_b] point to; [dst] and [src_a] are in the same list, and
    [src_b_detent] is cell 0 of the other. *)
Fixpoint pnl_merge_inner (fuel : nat) (c src : list Z) (d a b : nat) : option (list Z) :=
  match fuel with
  | O => None
  | S fuel =>
      x ← rd c a; y ← rd src b;
      let flag := MDBX_PNL_ORDERED y x in
      c ← wr c d (if flag then x else y);
      let b := if flag then b else Nat.pred b in
      let a := if flag then Nat.pred a else a in
      if decide (0 < b)%nat then pnl_merge_inner fuel c src (Nat.pred d) a b else Some c
  end.

Section sort.
Context (have_cmov : bool).

Definition pnl_merge (dst src : list Z) : option (list Z * nat) :=
  let src_len := pnl_size src in
  let dst_len := pnl_size dst in
  if decide (0 < src_len)%nat then
    let total := (dst_len + src_len)%nat in
    let inner :=
      dst ← wr dst 0 P_INVALID;
    pnl_merge_inner (S total) dst src total dst_len src_len in
    dst ← (if decide (total < (if have_cmov then 21 else 12))%nat then inner
           else
             last_dst ← rd dst dst_len; first_src ← rd src 1;
             if Nat.eqb dst_len 0 || MDBX_PNL_ORDERED last_dst first_src
             then blit src 1 dst (dst_len + 1) src_len
             else
               last_src ← rd src src_len; first_dst ← rd dst 1;
               if MDBX_PNL_ORDERED last_src first_dst then
                 dst ← blit dst 1 dst (1 + src_len) dst_len;
                 blit src 1 dst 1 src_len
               else inner);
    dst ← pnl_setsize dst total;
    Some (dst, total)
  else Some (dst, dst_len).

Definition MDBX_PNL_EXTRACT_KEY (x : Z) : Z := u32 (P_INVALID - x).
Definition pgno_radixsort (c : list Z) (begin length : nat) : option (list Z) :=
  radixsort MDBX_PNL_EXTRACT_KEY 0 c begin length.
Definition pgno_sort (c : list Z) (begin end_ : Z) : option (list Z) := SORT MDBX_PNL_ORDERED c begin end_.

Definition pnl_sort_nochk (c : list Z) : option (list Z) :=
  let size := pnl_size c in
  if decide (Z.of_nat size < MDBX_RADIXSORT_THRESHOLD) then pgno_sort c 1 (Z.of_nat size + 1)
  else pgno_radixsort c 1 size.

(** ** Cutting *)

(** [n] times [pnl[i] = pnl[i + span]; ++i] *)
Fixpoint shift_cells (n : nat) (c : list Z) (i span : nat) : option (list Z) :=
  match n with
  | O => Some c
  | S n => x ← rd c (i + span); c ← wr c i x; shift_cells n c (S i) span
  end.

Definition pnl_cut (c : list Z) (pos span : nat) : option (list Z) :=
  if decide (0 < span)%nat then
    let len := (pnl_size c - span)%nat in
    c ← pnl_setsize c len;
    shift_cells (S len - pos) c pos span
  else Some c.

(** The loop of [pnl_cut_range] gives the error, the first cell not moved and [pdest]. *)
Fixpoint cut_range_loop (malloc : Z -> option Z) (n : nat) (c : list Z) (to : nat) (pdest : option pnl_t)
  (range_begin : Z) : option (Z * nat * option pnl_t) :=
    match n with
    | O => Some (MDBX_SUCCESS, to, pdest)
    | S n =>
        pgno ← rd c to;
        if decide (pgno < range_begin) then Some (MDBX_SUCCESS, to, pdest)
        else
          '(err, pdest) ← pnl_append malloc pdest pgno;
          if decide (err <> MDBX_SUCCESS) then Some (err, to, pdest)
          else cut_range_loop malloc n c (S to) pdest range_begin
    end.

Definition pnl_cut_range (malloc : Z -> option Z) (c : list Z) (pdest : option pnl_t) (range_begin range_end : Z)
  : option (Z * list Z * option pnl_t) :=
  from ← pnl_search have_cmov c (range_end - 1);
  let len := pnl_size c in
  '(err, to, pdest) ← cut_range_loop malloc (S len - from) c from pdest range_begin;
  if decide (err <> MDBX_SUCCESS) then Some (err, c, pdest)
  else
    c ← (if decide (from < to)%nat then pnl_cut c from (to - from) else Some c);
    Some (MDBX_SUCCESS, c, pdest).

(** The update loop of [pnl_sift]: [n] cells from [r] on are left to look at;
    [f] is the cell of [fo] and the labels are the three ways through the loop. *)
Fixpoint sift_update (fuel : nat) (c fo : list Z) (w r f fe len : nat) : option (list Z * nat) :=
  match fuel with
  | O => None
  | S fuel =>
      if decide (r <= len)%nat then
        if decide (f = fe) then
          pl_pgno ← rd c r;
          c ← wr c w pl_pgno;
          sift_update fuel c fo (S w) (S r) f fe len
        else
          fo_pgno ← rd fo f;
          pl_pgno ← rd c r;
          if MDBX_PNL_ORDERED pl_pgno fo_pgno then
            c ← wr c w pl_pgno;
            sift_update fuel c fo (S w) (S r) f fe len
          else if MDBX_PNL_REVERSED pl_pgno fo_pgno then sift_update fuel c fo w r (S f) fe len
          else sift_update fuel c fo w (S r) (S f) fe len
      else Some (c, w)
  end.

(** The scan loop: [inr] are the cells [r] and [f] of the first common page. *)
Fixpoint sift_scan (fuel : nat) (c fo : list Z) (r f fe len : nat) : option (unit + (nat * nat)) :=
  match fuel with
  | O => None
  | S fuel =>
      if decide (r <= len)%nat then
        fo_pgno ← rd fo f;
        pl_pgno ← rd c r;
        if decide (pl_pgno <> fo_pgno) then
          let cmp := MDBX_PNL_ORDERED pl_pgno fo_pgno in
          let r := if cmp then S r else r in
          let f := if cmp then f else S f in
          if decide (f <> fe) then sift_scan fuel c fo r f fe len else Some (inl tt)
        else Some (inr (r, f))
      else Some (inl tt)
  end.

Definition pnl_sift (c fo : list Z) : option (list Z) :=
  if decide (pnl_size c <> 0 /\ pnl_size fo <> 0)%nat then
    let fe := S (pnl_size fo) in
    let len := pnl_size c in
    fo1 ← rd fo 1;
    r ← pnl_search have_cmov c fo1;
    found ← sift_scan (S (len + fe)) c fo r 1 fe len;
    match found with
    | inl _ => Some c
    | inr (r, f) =>
        '(c, w) ← sift_update (S (len + fe)) c fo r (S r) (S f) fe len;
        pnl_setsize c (w - 1)
    end
  else Some c.
End sort.

(** ** Runs of consecutive pages *)

Fixpoint maxspan_loop (left_ : nat) (c : list Z) (scan span : nat) : option nat :=
  match left_ with
  | O => Some span
  | S left_ =>
      a ← rd c scan; b ← rd c (scan + span);
      if MDBX_PNL_CONTIGUOUS a b (Z.of_nat span) then maxspan_loop left_ c scan (S span)
      else maxspan_loop left_ c (S scan) span
  end.

Definition pnl_maxspan (c : list Z) : option nat :=
  let len := pnl_size c in
  if decide (1 < len)%nat then maxspan_loop (len - 1) c 1 1 else Some len.

(** [while (CONTIGUOUS(pnl[i - span], pnl[i], span) && i - span > 0) ++span] *)
Fixpoint span_back (fuel : nat) (c : list Z) (i span : nat) : option nat :=
  match fuel with
  | O => None
  | S fuel =>
      a ← rdz c (Z.of_nat i - Z.of_nat span); b ← rd c i;
      if MDBX_PNL_CONTIGUOUS a b (Z.of_nat span) && (0 <? Z.of_nat i - Z.of_nat span)
      then span_back fuel c i (S span) else Some span
  end.

Fixpoint best_loop (fuel : nat) (c : list Z) (seq : nat) (defrag_detent : Z) (i best_pos : nat) (best_extra : Z)
  : option nat :=
  match fuel with
  | O => None
  | S fuel =>
      if decide (seq <= i)%nat then
        x ← rd c i;
        if decide (x <= u64 (defrag_detent - Z.of_nat seq)) then
          span ← span_back (S i) c i 1;
          let extra := Z.of_nat span - Z.of_nat seq in
          if decide (seq <= span)%nat then
            if decide (extra < best_extra) then
              if decide (extra = 0) then Some i else best_loop fuel c seq defrag_detent (i - span) i extra
            else best_loop fuel c seq defrag_detent (i - span) best_pos best_extra
          else best_loop fuel c seq defrag_detent (i - span) best_pos best_extra
        else Some best_pos
      else Some best_pos
  end.

Definition pnl_get_best_sequence (c : list Z) (seq : nat) (defrag_detent : Z) : option (Z * list Z) :=
  let len := pnl_size c in
  best_pos ← best_loop (S len) c seq defrag_detent len 0 MAX_PAGENO;
  if decide (best_pos <> 0)%nat then
    pgno ← rd c best_pos;
    c ← pnl_cut c (best_pos - seq + 1) seq;
    Some (pgno, c)
  else Some (0, c).

Definition pnl_crop_tail_sequence (c : list Z) : option (nat * list Z) :=
  span ← scan_span_loop (S (pnl_size c)) c 1 1 (pnl_size c);
  c ← pnl_cut c 1 span;
  Some (span, c).
