(* ===== verification/PnlFacts.v ===== *)
(** * Page number lists: the invariant, capacity, appending and searching *)

From S2P Require Import Prelude Search Sort Radix Pnl.

(** ** Descending lists *)

Definition descending (l : list Z) : Prop := ascending (Z.opp <$> l).

Section descending.
Implicit Types (l : list Z).

Lemma descending_nil : descending [].
Proof. apply ascending_nil. Qed.

Lemma descending_cons x l : descending (x :: l) <-> Forall (fun y => y < x) l /\ descending l.
Proof.
  unfold descending. rewrite fmap_cons, ascending_cons, Forall_fmap. f_equiv.
  apply Forall_proper; [|done]. intros y. simpl. lia.
Qed.

Lemma descending_app l1 l2 :
  descending (l1 ++ l2) <-> descending l1 /\ descending l2 /\ (forall x y, x ∈ l1 -> y ∈ l2 -> y < x).
Proof.
  unfold descending. rewrite fmap_app, ascending_app. split; intros (H1 & H2 & H3); split_and!; try done.
  - intros x y Hx Hy. specialize (H3 (- x) (- y)). rewrite !list_elem_of_fmap in H3. apply Z.opp_lt_mono, H3; eauto.
  - intros x y (x' & -> & Hx)%list_elem_of_fmap (y' & -> & Hy)%list_elem_of_fmap. specialize (H3 _ _ Hx Hy). lia.
Qed.

Lemma descending_NoDup l : descending l -> NoDup l.
Proof. intros H%ascending_NoDup. by eapply NoDup_fmap_1. Qed.

Lemma descending_lookup l i j x y : descending l -> (i < j)%nat -> l !! i = Some x -> l !! j = Some y -> y < x.
Proof.
  intros Hl Hij Hi Hj. specialize (Hl i j (- x) (- y) Hij). rewrite !list_lookup_fmap, Hi, Hj in Hl. simpl in Hl.
  specialize (Hl eq_refl eq_refl). lia.
Qed.

Lemma descending_intro l :
  (forall i j x y, (i < j)%nat -> l !! i = Some x -> l !! j = Some y -> y < x) -> descending l.
Proof.
  intros H i j x y Hij. rewrite !list_lookup_fmap. intros Hi Hj.
  destruct (l !! i) as [x'|] eqn:Ei; [|done]. destruct (l !! j) as [y'|] eqn:Ej; [|done].
  simplify_eq/=. specialize (H _ _ _ _ Hij Ei Ej). lia.
Qed.

Lemma descending_split l v :
  descending l -> exists A B, l = A ++ B /\ Forall (fun x => v < x) A /\ Forall (fun x => x <= v) B.
Proof.
  induction l as [|x l IH]; intros Hl; [by exists [], []|].
  apply descending_cons in Hl as [Hx Hl]. destruct (IH Hl) as (A & B & -> & HA & HB).
  destruct (decide (v < x)).
  - exists (x :: A), B. split_and!; [done|by constructor|done].
  - exists [], (x :: A ++ B). split_and!; [done|constructor|].
    constructor; [lia|]. eapply Forall_impl; [exact Hx|]. simpl. lia.
Qed.
End descending.

(** ** The cells *)

(** The list [L] is in the cells. *)
Definition holding (c L : list Z) : Prop := exists W, c = Z.of_nat (length L) :: L ++ W.

Record pnl_holds (p : pnl_t) (L : list Z) : Prop := {
  ph_cells : holding (cells p) L;
  ph_cap : Z.of_nat (length L) <= pnl_alloclen p;
  ph_room : 2 * pnl_alloclen p + 2 <= Z.of_nat (length (cells p));
  ph_limit : pnl_alloclen p < 2 ^ 32
}.

(** A list, or the null pointer for an empty one. *)
Definition opnl_holds (p : option pnl_t) (L : list Z) : Prop :=
  match p with Some p => pnl_holds p L | None => L = [] end.

Definition pgno_ok (x : Z) : Prop := 0 <= x < P_INVALID.

Section cells.
Implicit Types (c L W : list Z).

Lemma holding_size c L : holding c L -> pnl_size c = length L.
Proof. intros [W ->]. unfold pnl_size. simpl. lia. Qed.

Lemma holding_rd c L i : holding c L -> (i < length L)%nat -> rd c (S i) = L !! i.
Proof. intros [W ->] Hi. unfold rd. simpl. by rewrite lookup_app_l. Qed.

Lemma holding_rd_nth c L i x : holding c L -> L !! i = Some x -> rd c (S i) = Some x.
Proof. intros Hc Hx. rewrite (holding_rd c L) by (done || by eapply lookup_lt_Some). done. Qed.

Lemma pnl_size_cons n W : pnl_size (Z.of_nat n :: W) = n.
Proof. apply Nat2Z.id. Qed.

Lemma pnl_setsize_spec x L W n : pnl_setsize (x :: L ++ W) n = Some (Z.of_nat n :: L ++ W).
Proof. done. Qed.

Lemma rd_app_at L x W i : i = length L -> rd (L ++ x :: W) i = Some x.
Proof. intros ->. unfold rd. rewrite lookup_app_r, Nat.sub_diag by lia. done. Qed.

Lemma wr_app_at L x W i v : i = length L -> wr (L ++ x :: W) i v = Some (L ++ v :: W).
Proof.
  intros ->. rewrite wr_Some by (rewrite length_app; simpl; lia). f_equal.
  rewrite insert_app_r_alt, Nat.sub_diag by lia. done.
Qed.
End cells.

(** ** Capacity *)

(** The allocator gives usable blocks of at least the size asked for, and not
    absurdly larger ones. *)
Definition malloc_ok (malloc : Z -> option Z) : Prop :=
  forall bytes usable, malloc bytes = Some usable -> bytes <= usable <= bytes + 2 ^ 20.

Lemma pnl_size2bytes_spec n :
  0 < n <= PAGELIST_LIMIT ->
  4 * (2 * n + 3) <= pnl_size2bytes n <= 4 * (2 * n + 3) + 2 ^ 12.
Proof.
  intros H. unfold pnl_size2bytes, PAGELIST_LIMIT, MAX_PAGENO, MDBX_ASSUME_MALLOC_OVERHEAD, MDBX_PNL_GRANULATE in *.
  change (1024 * 4) with (2 ^ 12).
  destruct (ceil_powerof2_spec (16 + 4 * (n + n + 3)) 12); lia.
Qed.

Lemma block_spec n usable :
  0 < n <= PAGELIST_LIMIT -> pnl_size2bytes n <= usable <= pnl_size2bytes n + 2 ^ 20 ->
  n <= pnl_bytes2size usable < 2 ^ 32 /\ 2 * pnl_bytes2size usable + 2 <= Z.of_nat (block_cells usable).
Proof.
  intros Hn Hu. pose proof (pnl_size2bytes_spec n Hn) as Hb. unfold PAGELIST_LIMIT, MAX_PAGENO in Hn.
  unfold pnl_bytes2size, block_cells. rewrite Z.shiftr_div_pow2 by lia. change (2 ^ 1) with 2.
  pose proof (Z.div_mod usable 4 ltac:(lia)). pose proof (Z.mod_pos_bound usable 4 ltac:(lia)).
  set (q := usable / 4) in *. clearbody q.
  pose proof (Z.div_mod (q - 3) 2 ltac:(lia)). pose proof (Z.mod_pos_bound (q - 3) 2 ltac:(lia)).
  set (h := (q - 3) / 2) in *. clearbody h. rewrite u32_small by (unfold UINT32_MAX; lia). lia.
Qed.

Section capacity.
Context (malloc : Z -> option Z) (Hmalloc : malloc_ok malloc).

Lemma pnl_alloc_spec n p : 0 < n <= PAGELIST_LIMIT -> pnl_alloc malloc n = Some p -> pnl_holds p [] /\ n <= pnl_alloclen p.
Proof.
  intros Hn. unfold pnl_alloc. destruct (malloc _) as [u|] eqn:E; simpl; [|done]. intros [= <-].
  apply Hmalloc in E. destruct (block_spec n u Hn E) as [H1 H2]. split; [|simpl; lia].
  destruct (block_cells u) as [|k] eqn:Ek; [lia|].
  split; cbn [cells pnl_alloclen].
  - exists (replicate k 0). done.
  - simpl. lia.
  - rewrite length_replicate. lia.
  - lia.
Qed.

Lemma pnl_realloc_spec p L n q :
  0 < n <= PAGELIST_LIMIT -> pnl_holds p L -> Z.of_nat (length L) <= n ->
  pnl_realloc malloc p n = Some q -> pnl_holds q L /\ n <= pnl_alloclen q.
Proof.
  intros Hn [[W Hc] _ _ _] HL. unfold pnl_realloc. destruct (malloc _) as [u|] eqn:E; simpl; [|done]. intros [= <-].
  apply Hmalloc in E. destruct (block_spec n u Hn E) as [H1 H2]. split; [|simpl; lia].
  split; cbn [cells pnl_alloclen]; [|lia|rewrite length_resize; lia|lia].
  rewrite Hc. destruct (decide (length (Z.of_nat (length L) :: L ++ W) <= block_cells u)%nat).
  - rewrite resize_ge by done. eexists. by rewrite <- !app_comm_cons, <- app_assoc.
  - rewrite resize_le by lia. destruct (block_cells u) as [|k]; [lia|]. simpl. rewrite take_app_ge by lia. by eexists.
Qed.

(** What [pnl_reserve] and [pnl_need] promise. *)
Definition grown (L : list Z) (wanna : Z) (p : option pnl_t) (res : Z * option pnl_t) : Prop :=
  (exists q, res = (MDBX_SUCCESS, Some q) /\ pnl_holds q L /\ wanna <= pnl_alloclen q) \/
  (exists err, res = (err, p) /\ (err = MDBX_ENOMEM \/ err = MDBX_TXN_FULL)).

Lemma pnl_reserve_spec p L wanna :
  opnl_holds p L -> Z.of_nat (length L) <= wanna -> 0 < wanna -> (p = None -> wanna <= PAGELIST_LIMIT) ->
  grown L wanna p (pnl_reserve malloc p wanna).
Proof.
  intros Hp HL Hw Hnull. unfold pnl_reserve, grown. destruct p as [p|]; simpl in Hp.
  - case_decide; [left; exists p; split_and!; (done || lia)|].
    case_decide; [right; eauto|]. pose proof (ph_cap _ _ Hp) as Hcap.
    set (n := if decide _ then _ else _).
    assert (wanna <= n <= PAGELIST_LIMIT) as Hn by (unfold n; case_decide; lia). clearbody n.
    destruct (pnl_realloc malloc p n) as [q|] eqn:E; [|right; eauto].
    destruct (pnl_realloc_spec p L n q) as [H1 H2]; [lia|done|lia|done|]. left. exists q. split_and!; (done || lia).
  - subst L. destruct (pnl_alloc malloc wanna) as [q|] eqn:E; [|right; eauto].
    destruct (pnl_alloc_spec wanna q) as [H1 H2]; [specialize (Hnull eq_refl); lia|done|]. left. eauto.
Qed.

Lemma pnl_need_spec p L more :
  opnl_holds p L -> 0 < more <= PAGELIST_LIMIT -> grown L (Z.of_nat (length L) + more) p (pnl_need malloc p more).
Proof.
  intros Hp Hm. unfold pnl_need. destruct p as [p|]; simpl in Hp.
  - rewrite (holding_size _ _ (ph_cells _ _ Hp)). rewrite Z.add_comm.
    case_decide; [left; exists p; split_and!; (done || lia)|]. apply pnl_reserve_spec; (done || lia).
  - subst L. apply pnl_reserve_spec; simpl; (done || lia).
Qed.
End capacity.

(** ** Appending and inserting *)

(** An operation that adds to a list: it gives the list [L'], or an error and
    the list as it was. *)
Definition adds (L' : list Z) (p : option pnl_t) (res : option (Z * option pnl_t)) : Prop :=
  (exists q, res = Some (MDBX_SUCCESS, Some q) /\ pnl_holds q L') \/
  (exists err, res = Some (err, p) /\ (err = MDBX_ENOMEM \/ err = MDBX_TXN_FULL)).

Section adding.
Context (malloc : Z -> option Z) (Hmalloc : malloc_ok malloc).
Implicit Types (L W : list Z).

Lemma on_success_spec L L' wanna p res f :
  grown L wanna p res -> Z.of_nat (length L') <= wanna ->
  (forall W, (length L' <= length L + length W)%nat ->
    exists W', f (Z.of_nat (length L) :: L ++ W) = Some (Z.of_nat (length L') :: L' ++ W') /\
    (length L' + length W' = length L + length W)%nat) ->
  adds L' p (on_success res f).
Proof.
  intros [(q & -> & [[W Hc] Hcap Hroom Hlim] & Hw)|(err & -> & Herr)] HL Hf; unfold on_success.
  - rewrite decide_False by (intros []; done). cbn [mbind option_bind]. rewrite Hc.
    rewrite Hc in Hroom. simpl in Hroom. rewrite length_app in Hroom.
    destruct (Hf W) as (W' & -> & HW'); [lia|]. cbn [mbind option_bind]. left. eexists. split; [reflexivity|].
    split; cbn [cells pnl_alloclen]; [by eexists|lia| |done]. simpl. rewrite length_app. lia.
  - rewrite decide_True by (destruct Herr as [-> | ->]; done). right. eauto.
Qed.

Lemma append_prereserved_spec L W x :
  (0 < length W)%nat ->
  exists W', pnl_append_prereserved (Z.of_nat (length L) :: L ++ W) x = Some (Z.of_nat (length (L ++ [x])) :: (L ++ [x]) ++ W')
  /\ (S (length W') = length W)%nat.
Proof.
  intros HW. destruct W as [|w W]; [simpl in HW; lia|]. exists W. split; [|done].
  unfold pnl_append_prereserved. rewrite pnl_size_cons, pnl_setsize_spec. cbn [mbind option_bind].
  change (wr ((Z.of_nat (S (length L)) :: L) ++ w :: W) (S (length L)) x = Some (Z.of_nat (length (L ++ [x])) :: (L ++ [x]) ++ W)).
  rewrite wr_app_at by done. rewrite length_app, Nat.add_1_r, <- app_assoc. done.
Qed.

Lemma pnl_append_spec p L x : opnl_holds p L -> adds (L ++ [x]) p (pnl_append malloc p x).
Proof.
  intros Hp. unfold pnl_append. eapply on_success_spec; [apply (pnl_need_spec malloc Hmalloc p L 1 Hp)| |].
  - unfold PAGELIST_LIMIT, MAX_PAGENO. lia.
  - rewrite length_app. simpl. lia.
  - intros W HW. rewrite length_app in HW. simpl in HW.
    destruct (append_prereserved_spec L W x) as (W' & E & HW'); [lia|]. exists W'. split; [exact E|].
    rewrite length_app. simpl. lia.
Qed.

(** The pages [pgno], [pgno + step], ... in descending order. *)
Definition steps_down (pgno step : Z) (n : nat) : list Z := rev ((fun i => pgno + step * i) <$> seqZ 0 (Z.of_nat n)).

Lemma steps_down_S pgno step n : steps_down pgno step (S n) = steps_down (pgno + step) step n ++ [pgno].
Proof.
  unfold steps_down. rewrite (seqZ_cons 0) by lia. cbn [fmap list_fmap rev].
  replace (Z.pred (Z.of_nat (S n))) with (Z.of_nat n) by lia. f_equal; [|f_equal; lia]. f_equal.
  apply list_eq. intros i. rewrite !list_lookup_fmap.
  destruct (decide (i < n)%nat).
  - assert (seqZ 0 (Z.of_nat n) !! i = Some (Z.of_nat i)) as -> by (apply lookup_seqZ; lia).
    assert (seqZ (Z.succ 0) (Z.of_nat n) !! i = Some (Z.of_nat i + 1)) as -> by (apply lookup_seqZ; lia).
    simpl. f_equal. lia.
  - rewrite !lookup_ge_None_2 by (rewrite length_seqZ; lia). done.
Qed.

Lemma length_steps_down pgno step n : length (steps_down pgno step n) = n.
Proof. unfold steps_down. rewrite length_rev, length_fmap, length_seqZ. lia. Qed.

Lemma lookup_steps_down step n : forall pgno k, (k < n)%nat ->
  steps_down pgno step n !! k = Some (pgno + step * Z.of_nat (n - 1 - k)).
Proof.
  induction n as [|n IH]; intros pgno k Hk; [lia|]. rewrite steps_down_S. destruct (decide (k = n)) as [->|].
  - rewrite lookup_app_r, length_steps_down, Nat.sub_diag by (rewrite length_steps_down; lia). simpl. f_equal.
    replace (n - 0 - n)%nat with 0%nat by lia. lia.
  - rewrite lookup_app_l, IH by (rewrite ?length_steps_down; lia). f_equal.
    replace (Z.of_nat (S n - 1 - k)) with (Z.of_nat (n - 1 - k) + 1) by lia. lia.
Qed.

Lemma elem_of_steps_down pgno step n x : x ∈ steps_down pgno step n <-> exists i, 0 <= i < Z.of_nat n /\ x = pgno + step * i.
Proof.
  unfold steps_down. rewrite list_elem_of_In, <- in_rev, <- list_elem_of_In, list_elem_of_fmap. setoid_rewrite elem_of_seqZ. split.
  - intros (i & -> & Hi). exists i. split; [lia|done].
  - intros (i & Hi & ->). exists i. split; [done|lia].
Qed.

Lemma descending_steps_down pgno step n : 0 < step -> descending (steps_down pgno step n).
Proof.
  intros Hs. revert pgno. induction n as [|n IH]; intros pgno; [apply descending_nil|].
  rewrite steps_down_S. apply descending_app. split_and!; [apply IH| |].
  - apply descending_cons. split; [constructor|apply descending_nil].
  - intros x y (i & Hi & ->)%elem_of_steps_down ->%list_elem_of_singleton. nia.
Qed.

Lemma fill_back_spec step n : forall X G Y w pgno,
  length G = n -> w = (length X + n - 1)%nat -> 0 <= pgno -> 0 < step -> pgno + step * Z.of_nat n < 2 ^ 32 + step ->
  fill_back n (X ++ G ++ Y) w pgno step = Some (X ++ steps_down pgno step n ++ Y).
Proof.
  induction n as [|n IH]; intros X G Y w pgno HG Hw H0 Hs Hmax.
  - destruct G; [|done]. done.
  - destruct G as [|g G _] using rev_ind; [done|]. rewrite length_app in HG. simpl in HG.
    cbn [fill_back]. replace (X ++ (G ++ [g]) ++ Y) with ((X ++ G) ++ g :: Y) by by rewrite <- !app_assoc.
    rewrite wr_app_at by (rewrite length_app; lia). cbn [mbind option_bind]. rewrite <- app_assoc.
    destruct n as [|n].
    + destruct G; [|simpl in HG; lia]. cbn [fill_back app]. rewrite steps_down_S. done.
    + rewrite (u32_small (pgno + step)) by (unfold UINT32_MAX; nia). rewrite (IH X G (pgno :: Y)) by (lia || nia).
      rewrite (steps_down_S pgno step (S n)), <- !app_assoc. done.
Qed.

Lemma pnl_append_stepped_spec step p L x n :
  opnl_holds p L -> (0 < n)%nat -> Z.of_nat n <= PAGELIST_LIMIT -> 0 <= x -> 0 < step -> x + step * Z.of_nat n < 2 ^ 32 + step ->
  adds (L ++ steps_down x step n) p (pnl_append_stepped malloc step p x n).
Proof.
  intros Hp Hn HnL Hx Hs Hmax. unfold pnl_append_stepped.
  eapply on_success_spec; [apply (pnl_need_spec malloc Hmalloc p L (Z.of_nat n) Hp); lia| |].
  - rewrite length_app, length_steps_down. lia.
  - intros W HW. rewrite length_app, length_steps_down in HW. case_decide as Hone.
    + subst n. destruct (append_prereserved_spec L W x) as (W' & E & HW'); [lia|]. exists W'.
      split; [|rewrite length_app; simpl; lia]. rewrite E. rewrite steps_down_S. done.
    + assert (exists G W', W = G ++ W' /\ length G = n) as (G & W' & -> & HG).
      { exists (take n W), (drop n W). rewrite take_drop, length_take. split; [done|lia]. }
      exists W'. rewrite pnl_size_cons, pnl_setsize_spec. cbn [mbind option_bind]. split; [|rewrite length_app, !length_steps_down, length_app; lia].
      change (fill_back n ((Z.of_nat (length L + n) :: L) ++ G ++ W') (length L + n) x step =
        Some (Z.of_nat (length (L ++ steps_down x step n)) :: (L ++ steps_down x step n) ++ W')).
      rewrite (fill_back_spec step n); [|done|simpl; lia|done|done|done].
      rewrite length_app, length_steps_down, <- app_assoc. done.
Qed.

Lemma open_gap_spec B : forall A G W pg r w c0,
  r = (length A + length B)%nat -> w = (r + length G)%nat ->
  Forall (fun x => pg < x) A -> Forall (fun x => x <= pg) B ->
  exists G', length G' = length G /\
  open_gap r (c0 :: A ++ B ++ G ++ W) w pg = Some (c0 :: A ++ G' ++ B ++ W, length A, length A + length G)%nat.
Proof.
  induction B as [|b B IH] using rev_ind; intros A G W pg r w c0 -> -> HA HB.
  - exists G. split; [done|]. simpl. rewrite Nat.add_0_r. destruct A as [|a A _] using rev_ind; [done|].
    rewrite length_app, Nat.add_1_r. cbn [open_gap Nat.add]. unfold rd. simpl.
    rewrite <- app_assoc, lookup_app_r, Nat.sub_diag by lia. simpl.
    apply Forall_app in HA as [_ [Ha _]%Forall_cons]. unfold MDBX_PNL_DISORDERED. replace (a <=? pg) with false by lia.
    done.
  - apply Forall_app in HB as [HB [Hb _]%Forall_cons].
    rewrite length_app, Nat.add_1_r, <- plus_n_Sm. cbn [open_gap].
    replace (c0 :: A ++ (B ++ [b]) ++ G ++ W) with ((c0 :: A ++ B) ++ b :: G ++ W) by by app_norm.
    rewrite rd_app_at by (simpl; rewrite length_app; lia). cbn [mbind option_bind].
    unfold MDBX_PNL_DISORDERED. replace (b <=? pg) with true by lia.
    destruct G as [|g G _] using rev_ind.
    + simpl. rewrite Nat.add_0_r. change (c0 :: (A ++ B) ++ b :: W) with ((c0 :: A ++ B) ++ b :: W).
      rewrite wr_app_at by (simpl; rewrite length_app; lia). cbn [mbind option_bind].
      destruct (IH A [] (b :: W) pg (length A + length B)%nat (length A + length B)%nat c0) as (G' & HG & E); try done; try (simpl; lia).
      destruct G'; [|done]. exists []. split; [done|]. simpl in *. rewrite <- !app_assoc. simpl. rewrite E.
      by rewrite Nat.add_0_r.
    + replace ((c0 :: A ++ B) ++ b :: (G ++ [g]) ++ W) with ((c0 :: A ++ B ++ b :: G) ++ g :: W)
        by by app_norm.
      rewrite wr_app_at by (simpl; rewrite !length_app; simpl; lia). cbn [mbind option_bind].
      destruct (IH A (b :: G) (b :: W) pg (length A + length B)%nat (length A + length B + length (b :: G))%nat c0)
        as (G' & HG & E); try done.
      exists G'. rewrite length_app. simpl in *. split; [lia|]. app_norm.
      replace (length A + length B + (length G + 1))%nat with (length A + length B + S (length G))%nat by lia.
      rewrite E. do 2 f_equal. lia.
Qed.
End adding.

Section inserting.
Context (malloc : Z -> option Z) (Hmalloc : malloc_ok malloc).

Lemma pnl_insert_span_spec p A B x n :
  opnl_holds p (A ++ B) -> Forall (fun y => x < y) A -> Forall (fun y => y <= x) B ->
  (0 < n)%nat -> Z.of_nat n <= PAGELIST_LIMIT -> 0 <= x -> x + Z.of_nat n <= 2 ^ 32 ->
  adds (A ++ steps_down x 1 n ++ B) p (pnl_insert_span malloc p x n).
Proof.
  intros Hp HA HB Hn HnL Hx Hmax. unfold pnl_insert_span.
  eapply on_success_spec; [apply (pnl_need_spec malloc Hmalloc p (A ++ B) (Z.of_nat n) Hp); lia| |].
  - rewrite !length_app, length_steps_down. lia.
  - intros W HW. rewrite !length_app, length_steps_down in HW.
    assert (exists G W', W = G ++ W' /\ length G = n) as (G & W' & -> & HG).
    { exists (take n W), (drop n W). rewrite take_drop, length_take. split; [done|lia]. }
    exists W'. rewrite pnl_size_cons, pnl_setsize_spec. cbn [mbind option_bind].
    split; [|rewrite !length_app, length_steps_down; lia].
    destruct (open_gap_spec B A G W' x (length (A ++ B)) (length (A ++ B) + n) (Z.of_nat (length (A ++ B) + n)))
      as (G' & HG' & E); [by rewrite length_app|lia|done|done|].
    rewrite <- (app_assoc A). rewrite E. cbn [mbind option_bind].
    replace (length A + length G - length A)%nat with n by lia.
    change (fill_back n ((Z.of_nat (length (A ++ B) + n) :: A) ++ G' ++ B ++ W') (length A + length G) x 1 =
      Some (Z.of_nat (length (A ++ steps_down x 1 n ++ B)) :: (A ++ steps_down x 1 n ++ B) ++ W')).
    rewrite (fill_back_spec 1 n); [|lia|simpl; lia|done|lia|lia].
    rewrite !length_app, length_steps_down. app_norm. do 2 f_equal. lia.
Qed.

Lemma pnl_append_pnl_spec dst src L M :
  pnl_holds dst L -> holding src M ->
  adds (L ++ M) (Some dst) (pnl_append_pnl malloc dst src).
Proof.
  intros Hd Hs. unfold pnl_append_pnl. rewrite (holding_size _ _ Hs).
  case_decide as HM.
  - rewrite (holding_size _ _ (ph_cells _ _ Hd)).
    eapply on_success_spec; [apply (pnl_reserve_spec malloc Hmalloc (Some dst) L); [done|lia|lia|done]| |].
    + rewrite length_app. lia.
    + intros W HW. rewrite length_app in HW. destruct Hs as [V ->].
      exists (drop (length M) W). split; [|rewrite length_app, length_drop; lia].
      rewrite pnl_size_cons. unfold blit.
      rewrite decide_True by (simpl; rewrite !length_app; lia). cbn [mbind option_bind].
      change (drop 1 (Z.of_nat (length M) :: M ++ V)) with (drop 0 (M ++ V)). rewrite drop_0, take_app_length.
      rewrite Nat.add_1_r. cbn [take Nat.add drop]. rewrite take_app_length.
      rewrite drop_app_ge by lia. replace (length L + length M - length L)%nat with (length M) by lia.
      cbn [app]. rewrite app_assoc, pnl_setsize_spec, length_app. done.
  - destruct M; [|simpl in HM; lia]. rewrite app_nil_r. left. by exists dst.
Qed.

Lemma descending_insert_span A B x n :
  descending (A ++ B) -> Forall (fun y => x < y) A -> Forall (fun y => y <= x) B ->
  (forall y, x <= y < x + Z.of_nat n -> y ∉ A ++ B) -> (0 < n)%nat ->
  descending (A ++ steps_down x 1 n ++ B).
Proof.
  rewrite !Forall_forall. intros (HdA & HdB & HAB)%descending_app HA HB Hfresh Hn.
  assert (forall y, y ∈ A -> x + Z.of_nat n <= y) as HA'.
  { intros y Hy. destruct (decide (x + Z.of_nat n <= y)); [done|]. exfalso. specialize (HA _ Hy). simpl in HA.
    apply (Hfresh y); [lia|]. apply elem_of_app. tauto. }
  assert (forall y, y ∈ B -> y < x) as HB'.
  { intros y Hy. destruct (decide (y = x)) as [->|]; [|specialize (HB _ Hy); simpl in HB; lia]. exfalso.
    apply (Hfresh x); [lia|]. apply elem_of_app. tauto. }
  rewrite !descending_app. split_and!; try done.
  - by apply descending_steps_down.
  - intros y z (i & Hi & ->)%elem_of_steps_down Hz%HB'. lia.
  - intros y z Hy%HA' [(i & Hi & ->)%elem_of_steps_down|Hz%HB']%elem_of_app; lia.
Qed.
End inserting.

(** ** Searching *)

Section searching.
Context (have_cmov : bool) (c L : list Z) (Hc : holding c L).
(** The branchless variant may look at the cell behind the data. *)
Context (Hroom : (length L + 2 <= length c)%nat).

Lemma pnl_search_spec A B x :
  L = A ++ B -> Forall (fun y => x < y) A -> Forall (fun y => y <= x) B ->
  pnl_search have_cmov c x = Some (S (length A)).
Proof.
  intros E HA HB. unfold pnl_search, pnl_search_nochk, pgno_bsearch. rewrite (holding_size _ _ Hc).
  apply bsearch_correct; [|lia|lia]. split; [rewrite E, length_app; lia|].
  intros i y Hi Hy. destruct i as [|i]; [lia|].
  assert (L !! i = Some y) as Hy' by (rewrite <- (holding_rd c L i Hc) by lia; done). rewrite E in Hy'.
  unfold MDBX_PNL_ORDERED. case_bool_decide as Hlt.
  - rewrite lookup_app_l in Hy' by lia. eapply Forall_lookup_1 in HA; [|exact Hy']. simpl in HA. lia.
  - rewrite lookup_app_r in Hy' by lia. eapply Forall_lookup_1 in HB; [|exact Hy']. simpl in HB. lia.
Qed.

Lemma pnl_contains_spec x : descending L -> pnl_contains have_cmov c x = Some (bool_decide (x ∈ L)).
Proof.
  intros Hd. destruct (descending_split L x Hd) as (A & B & E & HA & HB).
  unfold pnl_contains. fold (pnl_search have_cmov c x). rewrite (pnl_search_spec A B x E HA HB). cbn [mbind option_bind].
  rewrite (holding_size _ _ Hc). rewrite Forall_forall in HA. rewrite E in Hd |- *. rewrite length_app.
  destruct B as [|b B]; simpl.
  - rewrite decide_False by lia. f_equal. symmetry. apply bool_decide_eq_false_2. rewrite app_nil_r.
    intros Hx. specialize (HA x Hx). simpl in HA. lia.
  - rewrite decide_True by lia. rewrite (holding_rd_nth c L (length A) b Hc) by (by rewrite E, lookup_app_r, Nat.sub_diag by lia).
    simpl. f_equal. apply bool_decide_ext. rewrite elem_of_app, elem_of_cons. split; [auto|].
    apply descending_app in Hd as (_ & [Hb _]%descending_cons & _). rewrite Forall_forall in Hb.
    apply Forall_cons in HB as [Hbx _].
    intros [Hx|[->|Hx]]; [specialize (HA x Hx); simpl in HA; lia|done|specialize (Hb x Hx); simpl in Hb; lia].
Qed.
End searching.
