(* ===== verification/PnlMerge.v ===== *)
(** * Page number lists: merging, sorting, cutting and sifting *)

From S2P Require Import Prelude Search Sort Radix Pnl PnlFacts.

(** ** Merging *)

Section merge_inner.
Implicit Types (A B G M V W : list Z).

(** [A] and [B] are still to be merged in front of [M]; [G] are the cells between. *)
Lemma pnl_merge_inner_spec fuel : forall A B G M V W s0,
  (length A + length B < fuel)%nat -> length G = length B -> B <> [] ->
  Forall pgno_ok B -> descending A -> descending B -> descending M ->
  (forall x, x ∈ A -> x ∉ B) -> (forall x m, x ∈ A ++ B -> m ∈ M -> m < x) ->
  exists A' M', pnl_merge_inner fuel (P_INVALID :: A ++ G ++ M ++ W) (s0 :: B ++ V) (length A + length B) (length A) (length B)
  = Some (P_INVALID :: A' ++ M' ++ W) /\
  A' ++ M' ≡ₚ A ++ B ++ M /\ descending (A' ++ M').
Proof.
  induction fuel as [|fuel IH]; intros A B G M V W s0 Hf HG HB Hok HdA HdB HdM Hdis Hlt; [lia|].
  destruct B as [|y B _] using rev_ind; [done|]. clear HB. rewrite length_app in *. cbn [length] in *.
  apply Forall_app in Hok as [HokB [Hy _]%Forall_cons]. unfold pgno_ok in Hy.
  destruct G as [|g G _] using rev_ind; [simpl in HG; lia|]. rewrite length_app in HG. simpl in HG.
  cbn [pnl_merge_inner].
  assert (rd (s0 :: (B ++ [y]) ++ V) (length B + 1) = Some y) as ->.
  { replace (s0 :: (B ++ [y]) ++ V) with ((s0 :: B) ++ y :: V) by by app_norm. apply rd_app_at. simpl. lia. }
  apply descending_app in HdB as (HdB & _ & HBy).
  set (d := (length A + (length B + 1))%nat).
  assert (forall v, wr (P_INVALID :: A ++ (G ++ [g]) ++ M ++ W) d v = Some (P_INVALID :: A ++ G ++ (v :: M) ++ W)) as Hwr.
  { intros v. replace (P_INVALID :: A ++ (G ++ [g]) ++ M ++ W) with ((P_INVALID :: A ++ G) ++ g :: M ++ W) by by app_norm.
    rewrite wr_app_at by (unfold d; simpl; rewrite length_app; lia). by app_norm. }
  assert (y ∉ A) as HyA by (intros Hx; apply (Hdis y Hx), elem_of_app; right; by left).
  assert ((exists A0 a, A = A0 ++ [a] /\ a < y) \/ forall A0 a, A = A0 ++ [a] -> ~ a < y) as [(A0 & a & -> & Hay)|Htake].
  { destruct A as [|a A0 _] using rev_ind; [right; by intros [|]|]. destruct (decide (a < y)); [left; eauto|].
    right. intros A1 a1 [_ ->]%app_inj_tail. done. }
  - (* the last element of the destination goes first *)
    apply descending_app in HdA as (HdA & _ & HAa).
    assert (forall x, x ∈ A0 ++ B ++ [y] -> a < x) as Ha.
    { intros x [Hx|[Hx| ->%list_elem_of_singleton]%elem_of_app]%elem_of_app; [apply HAa; [done|by left]| |done].
      specialize (HBy x y Hx ltac:(by left)). lia. }
    assert (rd (P_INVALID :: (A0 ++ [a]) ++ (G ++ [g]) ++ M ++ W) (length (A0 ++ [a])) = Some a) as ->.
    { replace (P_INVALID :: (A0 ++ [a]) ++ (G ++ [g]) ++ M ++ W) with ((P_INVALID :: A0) ++ a :: (G ++ [g]) ++ M ++ W) by by app_norm.
      apply rd_app_at. rewrite length_app. simpl. lia. }
    cbn [mbind option_bind].
    unfold MDBX_PNL_ORDERED. replace (y >? a) with true by lia. rewrite Hwr. cbn [mbind option_bind].
    rewrite decide_True by lia.
    destruct (IH A0 (B ++ [y]) (a :: G) (a :: M) V W s0) as (A' & M' & E & Hp & Hd); try done.
    + rewrite !length_app in *. simpl in *. lia.
    + rewrite length_app. simpl. lia.
    + by destruct B.
    + apply Forall_app. split; [done|]. by constructor.
    + apply descending_app. split_and!; [done| |done]. apply descending_cons. split; [constructor|apply descending_nil].
    + apply descending_cons. split; [|done]. apply Forall_forall. intros m Hm. apply Hlt; [|done].
      rewrite !elem_of_app. left. right. by left.
    + intros x Hx. apply Hdis, elem_of_app. tauto.
    + intros x m Hx [->|Hm]%elem_of_cons; [by apply Ha|]. apply Hlt; [|done]. rewrite !elem_of_app in *. tauto.
    + exists A', M'. split_and!; [|rewrite Hp; solve_Permutation|done].
      replace (Nat.pred d) with (length A0 + length (B ++ [y]))%nat by (unfold d; rewrite !length_app; simpl; lia).
      replace (Nat.pred (length (A0 ++ [a]))) with (length A0) by (rewrite length_app; simpl; lia).
      replace (length B + 1)%nat with (length (B ++ [y])) by by rewrite length_app.
      rewrite <- E. app_norm. done.
  - (* the last element of the source goes first *)
    assert (forall x, x ∈ A ++ B -> y < x) as Hy'.
    { intros x [Hx|Hx]%elem_of_app; [|apply HBy; [done|by left]].
      destruct A as [|a A0 _] using rev_ind; [by apply elem_of_nil in Hx|].
      assert (y < a) as Hya.
      { destruct (decide (a < y)); [exfalso; by eapply Htake|]. destruct (decide (a = y)) as [->|]; [|lia].
        exfalso. apply HyA, elem_of_app. right. by left. }
      apply descending_app in HdA as (_ & _ & HAa).
      apply elem_of_app in Hx as [Hx| ->%list_elem_of_singleton]; [|done]. specialize (HAa x a Hx ltac:(by left)). lia. }
    assert (exists x, rd (P_INVALID :: A ++ (G ++ [g]) ++ M ++ W) (length A) = Some x /\ MDBX_PNL_ORDERED y x = false) as (x & -> & Hflag).
    { destruct A as [|a A0 _] using rev_ind.
      - exists P_INVALID. split; [done|]. unfold MDBX_PNL_ORDERED. lia.
      - exists a. split; [|unfold MDBX_PNL_ORDERED; specialize (Hy' a ltac:(rewrite !elem_of_app; left; right; by left)); lia].
        replace (P_INVALID :: (A0 ++ [a]) ++ (G ++ [g]) ++ M ++ W) with ((P_INVALID :: A0) ++ a :: (G ++ [g]) ++ M ++ W) by by app_norm.
        apply rd_app_at. rewrite length_app. simpl. lia. }
    cbn [mbind option_bind]. rewrite Hflag, Hwr. cbn [mbind option_bind].
    assert (descending (y :: M)) as HdM'.
    { apply descending_cons. split; [|done]. apply Forall_forall. intros m Hm. apply Hlt; [|done].
      rewrite !elem_of_app. right. right. by left. }
    replace (Nat.pred (length B + 1)) with (length B) by lia. case_decide as HB.
    + replace (Nat.pred d) with (length A + length B)%nat by (unfold d; lia).
      destruct (IH A B G (y :: M) ([y] ++ V) W s0) as (A' & M' & E & Hp & Hd); try done; try lia; [intros ->; simpl in HB; lia| | |].
      * intros x' Hx Hx'. apply (Hdis x' Hx), elem_of_app. tauto.
      * intros x' m Hx [->|Hm]%elem_of_cons; [by apply Hy'|]. apply Hlt; [|done]. rewrite !elem_of_app in *. tauto.
      * exists A', M'. split_and!; [by rewrite <- E; app_norm|rewrite Hp; solve_Permutation|done].
    + assert (B = []) as -> by (destruct B; [done|simpl in HB; lia]). destruct G; [|simpl in HG; lia].
      exists A, (y :: M). split_and!; [done|simpl; solve_Permutation|].
      apply descending_app. split_and!; [done..|]. intros x' m Hx [->|Hm]%elem_of_cons; [apply Hy', elem_of_app; tauto|].
      apply Hlt; [apply elem_of_app; tauto|done].
Qed.
End merge_inner.

Section merge.
Context (have_cmov : bool).
Implicit Types (L M W : list Z).

(** The list [N] merges the descending lists [L] and [M]. *)
Definition merges N L M : Prop := N ≡ₚ L ++ M /\ descending N.

Lemma pnl_merge_spec dst src L M W :
  dst = Z.of_nat (length L) :: L ++ W -> holding src M -> (length M <= length W)%nat ->
  descending L -> descending M -> (forall x, x ∈ L -> x ∉ M) -> Forall pgno_ok M ->
  exists N W', pnl_merge have_cmov dst src = Some (Z.of_nat (length N) :: N ++ W', length N) /\
  merges N L M /\ (length N + length W' = length L + length W)%nat.
Proof.
  intros -> Hsrc HW HdL HdM Hdis Hok. unfold pnl_merge. rewrite (holding_size _ _ Hsrc), pnl_size_cons.
  case_decide as HM.
  2: { assert (M = []) as -> by (destruct M; [done|simpl in HM; lia]). exists L, W. split_and!; [done| |done].
    split; [by rewrite app_nil_r|done]. }
  assert (exists G V, W = G ++ V /\ length G = length M) as (G & V & -> & HG).
  { exists (take (length M) W), (drop (length M) W). rewrite take_drop, length_take. split; [done|lia]. }
  clear HW. destruct Hsrc as [U Esrc].
  set (c := Z.of_nat (length L) :: L ++ G ++ V).
  set (inner := dst ← wr c 0 P_INVALID; pnl_merge_inner _ dst src _ _ _).
  assert (forall c1 N c0, c1 = c0 :: N ++ V -> merges N L M ->
    exists N' W', (dst ← Some c1; dst ← pnl_setsize dst (length L + length M); Some (dst, (length L + length M)%nat)) =
    Some (Z.of_nat (length N') :: N' ++ W', length N') /\ merges N' L M /\
    (length N' + length W' = length L + length (G ++ V))%nat) as Hfin.
  { intros c1 N c0 -> HN. exists N, V. cbn [mbind option_bind]. rewrite pnl_setsize_spec. cbn [mbind option_bind].
    assert (length N = (length L + length M)%nat) as HlN by (destruct HN as [Hp _]; by rewrite (Permutation_length Hp), length_app).
    rewrite HlN. split_and!; [done|done|]. rewrite length_app. lia. }
  assert (exists N, inner = Some (P_INVALID :: N ++ V) /\ merges N L M) as (Ni & Hinner & HNi).
  { unfold inner, c. cbn [wr mbind option_bind decide]. rewrite wr_Some by (simpl; lia). cbn [mbind option_bind].
    rewrite Esrc.
    destruct (pnl_merge_inner_spec (S (length L + length M)) L M G [] U V (Z.of_nat (length M)))
      as (A' & M' & E & Hp & Hd); try done; [lia|intros ->; simpl in HM; lia| |].
    - intros x m _ Hm. by apply elem_of_nil in Hm.
    - exists (A' ++ M'). rewrite <- app_assoc. split; [exact E|]. split; [|done]. by rewrite Hp, app_nil_r. }
  assert (exists m M', M = m :: M') as (m & M' & EM) by (destruct M; [simpl in HM; lia|eauto]).
  case_decide; [rewrite Hinner; by eapply Hfin|].
  assert (exists x, rd c (length L) = Some x /\ (forall L0 y, L = L0 ++ [y] -> x = y)) as (lastd & -> & Hlastd).
  { destruct L as [|y L0 _] using rev_ind; [eexists; split; [done|by intros [|]]|]. exists y.
    split; [|by intros L1 y1 [_ ->]%app_inj_tail].
    unfold c. replace (Z.of_nat (length (L0 ++ [y])) :: (L0 ++ [y]) ++ G ++ V) with
      ((Z.of_nat (length (L0 ++ [y])) :: L0) ++ y :: G ++ V) by by app_norm.
    apply rd_app_at. rewrite length_app. simpl. lia. }
  assert (rd src 1 = Some m) as -> by (by rewrite Esrc, EM). cbn [mbind option_bind].
  destruct (Nat.eqb (length L) 0 || MDBX_PNL_ORDERED lastd m) eqn:Eappend.
  - assert (blit src 1 c (length L + 1) (length M) = Some (Z.of_nat (length L) :: (L ++ M) ++ V)) as ->.
    { rewrite Esrc. unfold c. change (Z.of_nat (length M) :: M ++ U) with ([Z.of_nat (length M)] ++ M ++ U).
      change (Z.of_nat (length L) :: L ++ G ++ V) with ((Z.of_nat (length L) :: L) ++ G ++ V).
      rewrite blit_app; [by app_norm|done|simpl; lia|done|done]. }
    eapply Hfin; [done|]. split; [done|]. apply descending_app. split_and!; [done..|].
    intros x y Hx Hy. destruct L as [|z L0 _] using rev_ind; [by apply elem_of_nil in Hx|].
    assert (m < z) as Hmz.
    { rewrite length_app, Nat.add_1_r in Eappend. simpl in Eappend. rewrite (Hlastd L0 z eq_refl) in Eappend.
      unfold MDBX_PNL_ORDERED in Eappend. lia. }
    rewrite EM in HdM, Hy. apply descending_cons in HdM as [Hm _]. rewrite Forall_forall in Hm.
    apply descending_app in HdL as (_ & _ & Hz).
    assert (y <= m) by (apply elem_of_cons in Hy as [->|Hy]; [lia|specialize (Hm y Hy); simpl in Hm; lia]).
    apply elem_of_app in Hx as [Hx| ->%list_elem_of_singleton]; [specialize (Hz x z Hx ltac:(by left)); lia|lia].
  - assert (exists l L0, L = l :: L0) as (l & L0 & EL) by (destruct L; [done|eauto]).
    assert (exists Ml ml, M = Ml ++ [ml]) as (Ml & ml & EMl) by (destruct (exists_last (l := M)) as (?&?&?); [by rewrite EM|eauto]).
    assert (rd src (length M) = Some ml) as ->.
    { rewrite Esrc, EMl. replace (Z.of_nat (length (Ml ++ [ml])) :: (Ml ++ [ml]) ++ U) with
        ((Z.of_nat (length (Ml ++ [ml])) :: Ml) ++ ml :: U) by by app_norm.
      apply rd_app_at. rewrite length_app. simpl. lia. }
    assert (rd c 1 = Some l) as -> by (unfold c; by rewrite EL). cbn [mbind option_bind].
    destruct (MDBX_PNL_ORDERED ml l) eqn:Eprep; [|rewrite Hinner; by eapply Hfin].
    assert (exists G', length G' = length M /\
      blit c 1 c (1 + length M) (length L) = Some (Z.of_nat (length L) :: G' ++ L ++ V)) as (G' & HG' & ->).
    { assert (exists X Y, L ++ G = X ++ Y /\ length X = length M) as (X & Y & EXY & HX).
      { exists (take (length M) (L ++ G)), (drop (length M) (L ++ G)). rewrite take_drop, length_take, length_app. split; [done|lia]. }
      exists X. split; [done|]. pose proof (f_equal length EXY) as Hl. rewrite !length_app in Hl.
      assert (c = [Z.of_nat (length L)] ++ L ++ G ++ V) as Ec1 by done.
      assert (c = (Z.of_nat (length L) :: X) ++ Y ++ V) as Ec2 by (unfold c; rewrite (app_assoc L), EXY; app_norm; done).
      rewrite Ec1 at 1. rewrite Ec2. rewrite blit_app; [done|done|simpl; lia|done|lia]. }
    cbn [mbind option_bind].
    assert (blit src 1 (Z.of_nat (length L) :: G' ++ L ++ V) 1 (length M) = Some (Z.of_nat (length L) :: (M ++ L) ++ V)) as ->.
    { rewrite Esrc. change (Z.of_nat (length M) :: M ++ U) with ([Z.of_nat (length M)] ++ M ++ U).
      change (Z.of_nat (length L) :: G' ++ L ++ V) with ([Z.of_nat (length L)] ++ G' ++ L ++ V).
      rewrite blit_app; [by app_norm|done|done|done|done]. }
    eapply Hfin; [done|]. split; [apply Permutation_app_comm|]. apply descending_app. split_and!; [done..|].
    unfold MDBX_PNL_ORDERED in Eprep.
    intros x y Hx Hy. rewrite EMl in Hx, HdM. rewrite EL in HdL, Hy.
    apply descending_app in HdM as (_ & _ & Hml). apply descending_cons in HdL as [Hl _]. rewrite Forall_forall in Hl.
    assert (y <= l) by (apply elem_of_cons in Hy as [->|Hy]; [lia|specialize (Hl y Hy); simpl in Hl; lia]).
    apply elem_of_app in Hx as [Hx| ->%list_elem_of_singleton]; [specialize (Hml x ml Hx ltac:(by left)); lia|lia].
Qed.
End merge.

(** ** Sorting *)

Section sort.
Implicit Types (L N W : list Z).

#[local] Instance ordered_strict_weak : StrictWeak MDBX_PNL_ORDERED.
Proof. unfold MDBX_PNL_ORDERED. split; intros; [lia|lia|]. destruct (Z.gtb_spec x y); lia. Qed.

Lemma descending_of_weak N :
  NoDup N -> (forall i j x y, (i < j)%nat -> N !! i = Some x -> N !! j = Some y -> y <= x) -> descending N.
Proof.
  intros Hnd H. apply descending_intro. intros i j x y Hij Hi Hj. specialize (H i j x y Hij Hi Hj).
  destruct (decide (x = y)) as [->|]; [|lia]. rewrite NoDup_alt in Hnd. specialize (Hnd i j y Hi Hj). lia.
Qed.

(** A buffer which differs from [x :: L ++ W] only in the cells of [L]. *)
Lemma middle_changed (buf : list Z) x L W :
  length buf = length (x :: L ++ W) ->
  (forall k, (k = 0 \/ S (length L) <= k)%nat -> buf !! k = (x :: L ++ W) !! k) ->
  exists N, buf = x :: N ++ W /\ length N = length L.
Proof.
  intros Hlen Hout. destruct buf as [|x' buf]; [done|]. pose proof (Hout 0%nat ltac:(lia)) as [= ->].
  exists (take (length L) buf). simpl in Hlen. rewrite length_app in Hlen. rewrite length_take. split; [|lia]. f_equal.
  rewrite <- (take_drop (length L) buf) at 1. f_equal. apply list_eq. intros k. rewrite lookup_drop.
  specialize (Hout (S (length L + k)) ltac:(lia)). simpl in Hout. rewrite Hout, lookup_app_r by lia. f_equal. lia.
Qed.

Lemma pgno_sort_spec L W :
  NoDup L -> Z.of_nat (length L) < 2 ^ 63 ->
  exists N, pgno_sort (Z.of_nat (length L) :: L ++ W) 1 (Z.of_nat (length L) + 1) = Some (Z.of_nat (length N) :: N ++ W) /\
  N ≡ₚ L /\ descending N.
Proof.
  intros Hnd Hmax. set (buf := Z.of_nat (length L) :: L ++ W).
  assert (length buf = S (length L + length W)) as Hl by (unfold buf; simpl; by rewrite length_app).
  destruct (SORT_spec MDBX_PNL_ORDERED buf 1 (Z.of_nat (length L) + 1)) as (buf' & E & Hp & Hout & Hord); [lia|lia|lia|].
  destruct (middle_changed buf' (Z.of_nat (length L)) L W) as (N & -> & HN).
  - by rewrite <- (Permutation_length Hp).
  - intros k Hk. specialize (Hout (Z.of_nat k) ltac:(lia) ltac:(lia)). unfold cell in Hout. by rewrite Nat2Z.id in Hout.
  - exists N. unfold pgno_sort. rewrite E, HN. split; [done|].
    assert (L ≡ₚ N) as HLN by (unfold buf in Hp; apply Permutation_cons_inv in Hp; by apply Permutation_app_inv_r in Hp).
    split; [done|]. apply descending_of_weak; [by rewrite <- HLN|]. intros i j x y Hij Hi Hj.
    pose proof (lookup_lt_Some _ _ _ Hi). pose proof (lookup_lt_Some _ _ _ Hj).
    specialize (Hord (1 + Z.of_nat i) (1 + Z.of_nat j) ltac:(lia) ltac:(lia) ltac:(lia) x y).
    unfold cell in Hord. replace (Z.to_nat (1 + Z.of_nat i)) with (S i) in Hord by lia.
    replace (Z.to_nat (1 + Z.of_nat j)) with (S j) in Hord by lia. simpl in Hord. rewrite !lookup_app_l in Hord by lia.
    specialize (Hord Hi Hj). unfold cle, MDBX_PNL_ORDERED in Hord. lia.
Qed.

Lemma pgno_radixsort_spec L W :
  L <> [] -> Forall pgno_ok L -> NoDup L -> Z.of_nat (length L) < 2 ^ 32 -> (length L <= length W)%nat ->
  exists N W', pgno_radixsort (Z.of_nat (length L) :: L ++ W) 1 (length L) = Some (Z.of_nat (length N) :: N ++ W') /\
  N ≡ₚ L /\ descending N /\ length W' = length W.
Proof.
  intros Hne Hok Hnd Hmax HW. set (buf := Z.of_nat (length L) :: L ++ W).
  assert (length buf = S (length L + length W)) as Hl by (unfold buf; simpl; by rewrite length_app).
  destruct (radixsort_spec MDBX_PNL_EXTRACT_KEY) with (END_GAP := 0%nat) (buf := buf) (begin := 1%nat) (l := L)
    as (buf' & N & E & Hlen' & [HNl HN] & Hp & Hsorted & Hout); try done.
  - intros x. unfold MDBX_PNL_EXTRACT_KEY, u32. pose proof (Z.mod_pos_bound (P_INVALID - x) (2 ^ 32)). lia.
  - split; [lia|]. intros k Hk. unfold buf. simpl. by rewrite lookup_app_l.
  - lia.
  - exists N, (drop (S (length N)) buf'). unfold pgno_radixsort. rewrite E. pose proof (Permutation_length Hp) as HpN.
    assert (buf' = Z.of_nat (length N) :: N ++ drop (S (length N)) buf') as <-.
    { apply list_eq. intros k. destruct k as [|k]; simpl.
      - rewrite Hout by lia. unfold buf. simpl. by rewrite HpN.
      - destruct (decide (k < length N)%nat); [rewrite lookup_app_l by lia; apply HN; lia|].
        rewrite lookup_app_r, lookup_drop by lia. f_equal. lia. }
    split; [done|]. split; [done|]. split; [|rewrite length_drop, Hlen', Hl, HpN; lia].
    apply descending_of_weak; [by rewrite Hp|]. intros i j x y Hij Hi Hj.
    assert (MDBX_PNL_EXTRACT_KEY x <= MDBX_PNL_EXTRACT_KEY y) as Hxy.
    { rewrite <- (take_drop (S i) N) in Hsorted. apply (StronglySorted_app_1_elem_of _ _ _ x y Hsorted).
      - apply (list_elem_of_lookup_2 _ i). by rewrite lookup_take_lt by lia.
      - apply (list_elem_of_lookup_2 _ (j - S i)). rewrite lookup_drop. by replace (S i + (j - S i))%nat with j by lia. }
    rewrite <- Hp in Hok. pose proof (Forall_lookup_1 _ _ _ _ Hok Hi) as Hx. pose proof (Forall_lookup_1 _ _ _ _ Hok Hj) as Hy.
    unfold MDBX_PNL_EXTRACT_KEY, pgno_ok, P_INVALID in *. rewrite !u32_small in Hxy by lia. lia.
Qed.

Lemma pnl_sort_nochk_spec L W :
  Forall pgno_ok L -> NoDup L -> Z.of_nat (length L) < 2 ^ 32 -> (length L <= length W)%nat ->
  exists N W', pnl_sort_nochk (Z.of_nat (length L) :: L ++ W) = Some (Z.of_nat (length N) :: N ++ W') /\
  N ≡ₚ L /\ descending N /\ length W' = length W.
Proof.
  intros Hok Hnd Hmax HW. unfold pnl_sort_nochk. rewrite pnl_size_cons. case_decide as Hsmall.
  - destruct (pgno_sort_spec L W) as (N & E & Hp & Hd); [done|lia|]. exists N, W. done.
  - apply pgno_radixsort_spec; try done. intros ->. unfold MDBX_RADIXSORT_THRESHOLD in Hsmall. simpl in Hsmall. lia.
Qed.
End sort.
