(* ===== verification/PnlCut.v ===== *)
(** * Page number lists: cutting, sifting and runs of consecutive pages *)

From S2P Require Import Prelude Search Sort Radix Pnl PnlFacts PnlMerge.

(** ** Cutting *)

Section cut.
Implicit Types (L M X Y G W : list Z).

Lemma shift_cells_spec Y : forall X G W i span,
  i = length X -> span = length G ->
  exists G', length G' = length G /\ shift_cells (length Y) (X ++ G ++ Y ++ W) i span = Some (X ++ Y ++ G' ++ W).
Proof.
  induction Y as [|y Y IH]; intros X G W i span -> ->; cbn [shift_cells length]; [by exists G|].
  replace (X ++ G ++ (y :: Y) ++ W) with ((X ++ G) ++ y :: Y ++ W) by by app_norm.
  rewrite rd_app_at by by rewrite length_app. cbn [mbind option_bind]. rewrite <- app_assoc.
  destruct G as [|g G]; simpl.
  - rewrite wr_app_at by done. cbn [mbind option_bind].
    destruct (IH (X ++ [y]) [] W (S (length X)) 0%nat) as ([|] & HG & E); try done; [by rewrite length_app, Nat.add_1_r|].
    exists []. split; [done|]. simpl in E. rewrite <- !app_assoc in E. exact E.
  - rewrite wr_app_at by done. cbn [mbind option_bind].
    destruct (IH (X ++ [y]) (G ++ [y]) W (S (length X)) (S (length G))) as (G' & HG & E);
      [by rewrite length_app, Nat.add_1_r|rewrite length_app; simpl; lia|].
    rewrite length_app in HG. simpl in HG. exists G'. split; [lia|].
    rewrite <- !app_assoc in E. exact E.
Qed.

Lemma pnl_cut_spec X G Y W pos :
  pos = S (length X) ->
  exists W', pnl_cut (Z.of_nat (length (X ++ G ++ Y)) :: (X ++ G ++ Y) ++ W) pos (length G) =
  Some (Z.of_nat (length (X ++ Y)) :: (X ++ Y) ++ W') /\ length W' = (length G + length W)%nat.
Proof.
  intros ->. unfold pnl_cut. rewrite pnl_size_cons. case_decide as HG.
  - rewrite pnl_setsize_spec. cbn [mbind option_bind].
    replace (length (X ++ G ++ Y) - length G)%nat with (length (X ++ Y)) by (rewrite !length_app; lia).
    replace (S (length (X ++ Y)) - S (length X))%nat with (length Y) by (rewrite !length_app; lia).
    destruct (shift_cells_spec Y (Z.of_nat (length (X ++ Y)) :: X) G W (S (length X)) (length G)) as (G' & HG' & E); [done..|].
    exists (G' ++ W). split; [|rewrite length_app; lia]. rewrite <- !app_assoc. simpl in E. exact E.
  - assert (G = []) as -> by (destruct G; [done|simpl in HG; lia]). by exists W.
Qed.
End cut.

(** ** Moving a range of pages to another list *)

Section cut_range.
Context (malloc : Z -> option Z) (Hmalloc : malloc_ok malloc).
Implicit Types (L M X Y W : list Z).

Lemma cut_range_loop_spec rb R : forall c X p M n to,
  holding c X -> (exists Q, X = Q ++ R /\ to = S (length Q)) -> n = length R -> opnl_holds p M ->
  exists A B, R = A ++ B /\ Forall (fun y => rb <= y) A /\
  ((exists q, cut_range_loop malloc n c to p rb = Some (MDBX_SUCCESS, to + length A, q)%nat /\ opnl_holds q (M ++ A) /\
    (forall b B', B = b :: B' -> b < rb)) \/
    (exists err q, cut_range_loop malloc n c to p rb = Some (err, to + length A, q)%nat /\ opnl_holds q (M ++ A) /\
      (err = MDBX_ENOMEM \/ err = MDBX_TXN_FULL))).
Proof.
  induction R as [|y R IH]; intros c X p M n to Hc (Q & -> & ->) -> Hp; cbn [cut_range_loop length].
  - exists [], []. split; [done|]. split; [done|]. left. exists p. rewrite Nat.add_0_r, app_nil_r. done.
  - rewrite (holding_rd_nth c _ (length Q) y Hc) by (by rewrite lookup_app_r, Nat.sub_diag by lia).
    cbn [mbind option_bind]. case_decide as Hy.
    + exists [], (y :: R). split; [done|]. split; [done|]. left. exists p. rewrite Nat.add_0_r, app_nil_r.
      split_and!; [done..|]. by intros b B' [= <- _].
    + destruct (pnl_append_spec malloc Hmalloc p M y Hp) as [(q & -> & Hq)|(err & -> & Herr)]; cbn [mbind option_bind].
      * rewrite decide_False by (intros []; done).
        destruct (IH c (Q ++ y :: R) (Some q) (M ++ [y]) (length R) (S (S (length Q)))) as (A & B & -> & HA & Hres); try done.
        { exists (Q ++ [y]). rewrite <- app_assoc, length_app, Nat.add_1_r. done. }
        exists (y :: A), B. split; [done|]. split; [constructor; [lia|done]|].
        cbn [length]. rewrite <- Nat.add_succ_comm. replace (M ++ y :: A) with ((M ++ [y]) ++ A) by by app_norm. exact Hres.
      * rewrite decide_True by (destruct Herr as [-> | ->]; done). exists [], (y :: R). split; [done|]. split; [done|].
        right. exists err, p. rewrite Nat.add_0_r, app_nil_r. done.
Qed.

Lemma pnl_cut_range_spec have_cmov c L p M rb re :
  (exists W, c = Z.of_nat (length L) :: L ++ W /\ W <> []) -> descending L -> opnl_holds p M -> rb < re ->
  exists A R B, L = A ++ R ++ B /\ Forall (fun y => re <= y) A /\ Forall (fun y => rb <= y < re) R /\
  ((exists c' q, pnl_cut_range have_cmov malloc c p rb re = Some (MDBX_SUCCESS, c', q) /\ holding c' (A ++ B) /\
    length c' = length c /\ opnl_holds q (M ++ R) /\ Forall (fun y => y < rb) B) \/
    (exists err q, pnl_cut_range have_cmov malloc c p rb re = Some (err, c, q) /\ opnl_holds q (M ++ R) /\
      (err = MDBX_ENOMEM \/ err = MDBX_TXN_FULL))).
Proof.
  intros (W & Hcw & HW) Hd Hp Hr. assert (holding c L) as Hc by by exists W.
  destruct (descending_split L (re - 1) Hd) as (A & R0 & E & HA & HR0).
  assert (length L + 2 <= length c)%nat as Hroom.
  { rewrite Hcw. simpl. rewrite length_app. destruct W; [done|]. simpl. lia. }
  unfold pnl_cut_range. rewrite (pnl_search_spec have_cmov c L Hc Hroom A R0) by done. cbn [mbind option_bind].
  rewrite (holding_size _ _ Hc).
  destruct (cut_range_loop_spec rb R0 c L p M (S (length L) - S (length A)) (S (length A))) as (R & B & -> & HR & Hres); try done.
  { by exists A. }
  { rewrite E, length_app. lia. }
  exists A, R, B. split; [done|]. split; [eapply Forall_impl; [exact HA|]; simpl; lia|].
  apply Forall_app in HR0 as [HR' _]. split.
  { rewrite Forall_forall in *. intros y Hy. specialize (HR y Hy). specialize (HR' y Hy). simpl in *. lia. }
  destruct Hres as [(q & -> & Hq & HB)|(err & q & -> & Hq & Herr)]; cbn [mbind option_bind]; [left|right].
  - rewrite decide_False by (intros []; done).
    assert (Forall (fun y => y < rb) B) as HB'.
    { rewrite E in Hd. apply descending_app in Hd as (_ & (_ & Hd & _)%descending_app & _).
      destruct B as [|b B']; [constructor|]. specialize (HB b B' eq_refl). apply descending_cons in Hd as [Hd _].
      constructor; [done|]. eapply Forall_impl; [exact Hd|]. simpl. lia. }
    case_decide as Hlt.
    + replace (S (length A) + length R - S (length A))%nat with (length R) by lia. rewrite Hcw, E.
      destruct (pnl_cut_spec A R B W (S (length A)) eq_refl) as (W' & -> & HW'). cbn [mbind option_bind].
      exists (Z.of_nat (length (A ++ B)) :: (A ++ B) ++ W'), q. split_and!; [done|by eexists| |done|done].
      simpl. rewrite !length_app. lia.
    + assert (R = []) as -> by (destruct R; [done|simpl in Hlt; lia]). cbn [mbind option_bind].
      exists c, q. split_and!; try done. by rewrite E in Hc.
  - rewrite decide_True by (destruct Herr as [-> | ->]; done). by exists err, q.
Qed.
End cut_range.

(** ** Sifting out the pages of another list *)

Definition without (F L : list Z) : list Z := filter (fun x => x ∉ F) L.

Section sift.
Implicit Types (F L N G R W : list Z).

Lemma without_app F L1 L2 : without F (L1 ++ L2) = without F L1 ++ without F L2.
Proof. apply filter_app. Qed.
Lemma without_keep F x L : x ∉ F -> without F (x :: L) = x :: without F L.
Proof. intros H. unfold without. by rewrite filter_cons, decide_True. Qed.
Lemma without_drop F x L : x ∈ F -> without F (x :: L) = without F L.
Proof. intros H. unfold without. rewrite filter_cons, decide_False; [done|]. intros Hn. by apply Hn. Qed.
Lemma without_all F L : (forall x, x ∈ L -> x ∉ F) -> without F L = L.
Proof.
  induction L as [|x L IH]; intros H; [done|]. rewrite without_keep by (apply H; by left). f_equal. apply IH.
  intros y Hy. apply H. by right.
Qed.

(** The head of what is left of [F] and the head of [R] decide. *)
Lemma not_in_split Fd Fr x : Forall (fun d => x < d) Fd -> Forall (fun d => d < x) Fr -> x ∉ Fd ++ Fr.
Proof. rewrite !Forall_forall. intros H1 H2 [H%H1|H%H2]%elem_of_app; simpl in H; lia. Qed.

Lemma sift_copy x N G R W s :
  exists G', length G' = length G /\
  wr (s :: N ++ G ++ (x :: R) ++ W) (S (length N)) x = Some (s :: (N ++ [x]) ++ G' ++ R ++ W).
Proof.
  destruct G as [|g G].
  - exists []. split; [done|].
    replace (s :: N ++ [] ++ (x :: R) ++ W) with ((s :: N) ++ x :: R ++ W) by by app_norm.
    rewrite wr_app_at by done. by app_norm.
  - exists (G ++ [x]). split; [rewrite length_app; simpl; lia|].
    replace (s :: N ++ (g :: G) ++ (x :: R) ++ W) with ((s :: N) ++ g :: G ++ x :: R ++ W) by by app_norm.
    rewrite wr_app_at by done. by app_norm.
Qed.

Lemma sift_update_spec fuel : forall R Fd Fr N G W (s : Z) fo,
  (length R + length Fr < fuel)%nat -> holding fo (Fd ++ Fr) -> descending R -> descending (Fd ++ Fr) ->
  (forall x d, x ∈ R -> d ∈ Fd -> x < d) ->
  exists W', (length (N ++ without (Fd ++ Fr) R) + length W' = length N + length G + length R + length W)%nat /\
  sift_update fuel (s :: N ++ G ++ R ++ W) fo (S (length N)) (S (length N + length G)) (S (length Fd))
  (S (length (Fd ++ Fr))) (length N + length G + length R)%nat =
  Some (s :: (N ++ without (Fd ++ Fr) R) ++ W', S (length (N ++ without (Fd ++ Fr) R))).
Proof.
  induction fuel as [|fuel IH]; intros R Fd Fr N G W s fo Hf Hfo HdR HdF Hlt; [lia|]. cbn [sift_update].
  destruct R as [|x R].
  - rewrite decide_False by (simpl; lia). exists (G ++ W). rewrite app_nil_r, !length_app. split; [simpl; lia|by app_norm].
  - rewrite decide_True by (simpl; lia). apply descending_cons in HdR as [HxR HdR]. rewrite Forall_forall in HxR.
    assert (rd (s :: N ++ G ++ (x :: R) ++ W) (S (length N + length G)) = Some x) as Erd.
    { replace (s :: N ++ G ++ (x :: R) ++ W) with ((s :: N ++ G) ++ x :: R ++ W) by by app_norm.
      apply rd_app_at. simpl. rewrite length_app. lia. }
    assert (Forall (fun d => x < d) Fd) as HxFd by (apply Forall_forall; intros d Hd; apply Hlt; [by left|done]).
    (* copying [x] *)
    assert (x ∉ Fd ++ Fr -> exists W', (length (N ++ without (Fd ++ Fr) (x :: R)) + length W' =
      length N + length G + length (x :: R) + length W)%nat /\
      (c ← wr (s :: N ++ G ++ (x :: R) ++ W) (S (length N)) x;
      sift_update fuel c fo (S (S (length N))) (S (S (length N + length G))) (S (length Fd)) (S (length (Fd ++ Fr)))
      (length N + length G + length (x :: R))%nat) =
      Some (s :: (N ++ without (Fd ++ Fr) (x :: R)) ++ W', S (length (N ++ without (Fd ++ Fr) (x :: R))))) as Hcopy.
    { intros Hx. destruct (sift_copy x N G R W s) as (G' & HG' & ->). cbn [mbind option_bind].
      destruct (IH R Fd Fr (N ++ [x]) G' W s fo) as (W' & HW' & E); try done; [simpl in Hf; lia| |].
      { intros y d Hy. apply Hlt. by right. }
      rewrite without_keep by done. exists W'.
      replace (N ++ x :: without (Fd ++ Fr) R) with ((N ++ [x]) ++ without (Fd ++ Fr) R) by by app_norm.
      split; [rewrite HW', !length_app; simpl; lia|]. rewrite <- E. rewrite (length_app N [x]), HG'. cbn [length]. f_equal; (done || lia). }
    destruct Fr as [|h Fr].
    + rewrite decide_True by (rewrite app_nil_r; done). rewrite Erd. cbn [mbind option_bind]. apply Hcopy.
      apply not_in_split; [done|constructor].
    + rewrite decide_False by (rewrite length_app; simpl; lia).
      rewrite (holding_rd_nth fo _ (length Fd) h Hfo) by (by rewrite lookup_app_r, Nat.sub_diag by lia).
      rewrite Erd. cbn [mbind option_bind]. pose proof HdF as (_ & [Hh _]%descending_cons & _)%descending_app.
      unfold MDBX_PNL_ORDERED, MDBX_PNL_REVERSED. destruct (x >? h) eqn:E1; [|destruct (x <? h) eqn:E2].
      * apply Hcopy, not_in_split; [done|]. constructor; [lia|]. eapply Forall_impl; [exact Hh|]. simpl. lia.
      * replace (Fd ++ h :: Fr) with ((Fd ++ [h]) ++ Fr) in * by by app_norm.
        destruct (IH (x :: R) (Fd ++ [h]) Fr N G W s fo) as (W' & HW' & E); try done; [simpl in *; lia| | |].
        -- apply descending_cons. split; [by apply Forall_forall|done].
        -- intros y d Hy [Hd| ->%list_elem_of_singleton]%elem_of_app; [by apply Hlt|].
          apply elem_of_cons in Hy as [->|Hy]; [lia|]. specialize (HxR y Hy). simpl in HxR. lia.
        -- exists W'. split; [done|]. rewrite <- E. rewrite (length_app Fd [h]). simpl. by rewrite Nat.add_1_r.
      * assert (x = h) as -> by lia. replace (Fd ++ h :: Fr) with ((Fd ++ [h]) ++ Fr) in * by by app_norm.
        rewrite without_drop by (rewrite !elem_of_app; left; right; by left).
        destruct (IH R (Fd ++ [h]) Fr N (G ++ [h]) W s fo) as (W' & HW' & E); try done; [simpl in *; lia| |].
        -- intros y d Hy [Hd| ->%list_elem_of_singleton]%elem_of_app; [apply Hlt; [by right|done]|by apply HxR].
        -- exists W'. split; [rewrite HW', length_app; simpl; lia|]. rewrite <- E. rewrite !(length_app _ [h]). simpl.
          rewrite !Nat.add_1_r. f_equal; [app_norm; done|lia|lia].
Qed.
End sift.

Section sift_whole.
Implicit Types (F L P R W : list Z).

Lemma sift_scan_spec fuel : forall P R Fd Fr c fo,
  (length R + length Fr < fuel)%nat -> holding c (P ++ R) -> holding fo (Fd ++ Fr) -> Fr <> [] ->
  descending (P ++ R) -> descending (Fd ++ Fr) ->
  (forall x d, x ∈ R -> d ∈ Fd -> x < d) -> (forall x, x ∈ P -> x ∉ Fd ++ Fr) ->
  (sift_scan fuel c fo (S (length P)) (S (length Fd)) (S (length (Fd ++ Fr))) (length (P ++ R)) = Some (inl tt) /\
    (forall x, x ∈ P ++ R -> x ∉ Fd ++ Fr)) \/
  (exists P' x R' Fd' Fr', P ++ R = P' ++ x :: R' /\ Fd ++ Fr = Fd' ++ x :: Fr' /\ (forall y, y ∈ P' -> y ∉ Fd ++ Fr) /\
    sift_scan fuel c fo (S (length P)) (S (length Fd)) (S (length (Fd ++ Fr))) (length (P ++ R)) =
    Some (inr (S (length P'), S (length Fd')))).
Proof.
  induction fuel as [|fuel IH]; intros P R Fd Fr c fo Hf Hc Hfo Hne HdL HdF Hlt Hout; [lia|]. cbn [sift_scan].
  destruct R as [|x R].
  - left. rewrite app_nil_r in *. rewrite decide_False by lia. done.
  - rewrite decide_True by (rewrite length_app; simpl; lia). destruct Fr as [|h Fr]; [done|].
    rewrite (holding_rd_nth fo _ (length Fd) h Hfo) by (by rewrite lookup_app_r, Nat.sub_diag by lia).
    rewrite (holding_rd_nth c _ (length P) x Hc) by (by rewrite lookup_app_r, Nat.sub_diag by lia). cbn [mbind option_bind].
    pose proof HdL as (_ & [HxR HdR]%descending_cons & _)%descending_app.
    pose proof HdF as (_ & [HhF HdFr]%descending_cons & _)%descending_app. rewrite Forall_forall in HxR.
    destruct (decide (x = h)) as [->|Hxh].
    { rewrite decide_False by tauto. right. exists P, h, R, Fd, Fr. done. }
    rewrite decide_True by done. unfold MDBX_PNL_ORDERED. destruct (x >? h) eqn:Ecmp.
    + rewrite decide_True by (rewrite length_app; simpl; lia).
      destruct (IH (P ++ [x]) R Fd (h :: Fr) c fo) as [[E HE]|(P' & y & R' & Fd' & Fr' & EL & EF & HP' & E)];
        try (by rewrite <- ?app_assoc); [simpl in *; lia| | | |].
      * intros y d Hy. apply Hlt. by right.
      * intros y [Hy| ->%list_elem_of_singleton]%elem_of_app; [by apply Hout|]. apply not_in_split.
        -- apply Forall_forall. intros d Hd. apply Hlt; [by left|done].
        -- constructor; [lia|]. eapply Forall_impl; [exact HhF|]. simpl. lia.
      * left. rewrite <- app_assoc in E, HE. rewrite length_app, Nat.add_1_r in E. done.
      * right. exists P', y, R', Fd', Fr'. rewrite <- app_assoc in EL, E. rewrite length_app, Nat.add_1_r in E. done.
    + assert (forall y d, y ∈ x :: R -> d ∈ Fd ++ [h] -> y < d) as Hlt'.
      { intros y d Hy [Hd| ->%list_elem_of_singleton]%elem_of_app; [by apply Hlt|].
        apply elem_of_cons in Hy as [->|Hy]; [lia|]. specialize (HxR y Hy). simpl in HxR. lia. }
      case_decide as Hfe.
      * assert (Fr <> []) as HFr by (intros ->; apply Hfe; by rewrite length_app, Nat.add_1_r).
        replace (Fd ++ h :: Fr) with ((Fd ++ [h]) ++ Fr) in * by by app_norm.
        destruct (IH P (x :: R) (Fd ++ [h]) Fr c fo) as [[E HE]|(P' & y & R' & Fd' & Fr' & EL & EF & HP' & E)];
          try done; [simpl in *; lia| |].
        -- left. rewrite (length_app Fd [h]), Nat.add_1_r in E. done.
        -- right. exists P', y, R', Fd', Fr'. rewrite (length_app Fd [h]), Nat.add_1_r in E. done.
      * left. split; [done|]. assert (Fr = []) as -> by (destruct Fr; [done|rewrite length_app in Hfe; simpl in Hfe; lia]).
        intros y [Hy|Hy]%elem_of_app; [by apply Hout|]. intros Hd. specialize (Hlt' y y Hy Hd). lia.
Qed.

Lemma pnl_sift_spec have_cmov c fo L F W :
  c = Z.of_nat (length L) :: L ++ W -> W <> [] -> holding fo F -> descending L -> descending F ->
  exists W', pnl_sift have_cmov c fo = Some (Z.of_nat (length (without F L)) :: without F L ++ W') /\
  (length (without F L) + length W' = length L + length W)%nat.
Proof.
  intros Hc HW Hfo HdL HdF. assert (holding c L) as Hh by by exists W.
  unfold pnl_sift. rewrite (holding_size _ _ Hh), (holding_size _ _ Hfo).
  case_decide as Hne.
  2: { exists W. assert (without F L = L) as ->; [|by rewrite Hc]. apply without_all. intros x Hx HxF.
    destruct L; [by apply elem_of_nil in Hx|]. destruct F; [by apply elem_of_nil in HxF|]. simpl in Hne. lia. }
  destruct F as [|f1 F]; [simpl in Hne; lia|].
  assert (rd fo 1 = Some f1) as -> by (by rewrite (holding_rd_nth fo _ 0 f1 Hfo)). cbn [mbind option_bind].
  destruct (descending_split L f1 HdL) as (A & B & E & HA & HB).
  assert (length L + 2 <= length c)%nat as Hroom.
  { rewrite Hc. simpl. rewrite length_app. destruct W; [done|]. simpl. lia. }
  rewrite (pnl_search_spec have_cmov c L Hh Hroom A B) by done. cbn [mbind option_bind].
  pose proof HdF as [Hf1 _]%descending_cons.
  destruct (sift_scan_spec (S (length L + S (length (f1 :: F)))) A B [] (f1 :: F) c fo)
    as [[Es Hno]|(P' & x & R' & Fd & Fr & EL & EF & HP' & Es)]; try done.
  - rewrite E, length_app. simpl. lia.
  - by rewrite <- E.
  - by rewrite <- E.
  - intros x d _ Hd. by apply elem_of_nil in Hd.
  - intros x Hx. rewrite Forall_forall in HA. specialize (HA x Hx). simpl in HA.
    apply (not_in_split []); [constructor|]. constructor; [lia|]. eapply Forall_impl; [exact Hf1|]. simpl. lia.
  - rewrite <- E in Es. simpl in Es |- *. rewrite Es. cbn [mbind option_bind].
    exists W. rewrite without_all by (rewrite E; done). by rewrite Hc.
  - rewrite <- E in Es, EL. cbn [length app Nat.add] in Es |- *. rewrite Es. cbn [mbind option_bind]. cbn [app] in EF, HP'.
    pose proof HdL as HdL'. rewrite EL in HdL'. apply descending_app in HdL' as (_ & [HxR HdR]%descending_cons & _).
    rewrite Forall_forall in HxR.
    destruct (sift_update_spec (S (length L + S (S (length F)))) R' (Fd ++ [x]) Fr P' [x] W (Z.of_nat (length L)) fo)
      as (W' & HW' & Eu); try done.
    + rewrite EL, length_app. apply (f_equal length) in EF. rewrite length_app in EF. simpl in EF |- *. lia.
    + rewrite <- app_assoc. simpl. by rewrite <- EF.
    + rewrite <- app_assoc. simpl. by rewrite <- EF.
    + intros y d Hy Hd. specialize (HxR y Hy). simpl in HxR. rewrite EF in HdF.
      apply descending_app in HdF as (_ & _ & HFd).
      apply elem_of_app in Hd as [Hd| ->%list_elem_of_singleton]; [|done]. specialize (HFd d x Hd ltac:(by left)). lia.
    + replace ((Fd ++ [x]) ++ Fr) with (f1 :: F) in Eu, HW' by (rewrite EF; by app_norm).
      assert (without (f1 :: F) L = P' ++ without (f1 :: F) R') as Ew.
      { rewrite EL, without_app, without_drop, (without_all _ P'); [done|done|]. rewrite EF. apply elem_of_app. right. by left. }
      rewrite Ew. exists W'.
      assert (c = Z.of_nat (length L) :: P' ++ [x] ++ R' ++ W) as -> by (rewrite Hc; f_equal; rewrite EL; by app_norm).
      assert (length L = length P' + 1 + length R')%nat as HL by (rewrite EL, length_app; simpl; lia).
      rewrite (length_app Fd [x]) in Eu. cbn [length] in Eu. rewrite !Nat.add_1_r in Eu.
      replace (length L) with (S (length P') + length R')%nat at 3 by lia. rewrite Eu. cbn [mbind option_bind].
      rewrite Nat.sub_succ, Nat.sub_0_r. split; [by app_norm|]. simpl in HW'. lia.
Qed.
End sift_whole.
