(* ===== verification/Repnl.v ===== *)
(** * Taking pages out of the list of reusable pages

    [repnl_get_single], [gc_repnl_get_sequence] and the scanner
    [scan4seq_fallback] (four comparisons per iteration) of mdbx.c, with its
    reference [scan4range_checker].  Pointers into the list are its cell numbers;
    the nested option of the scanners is the null pointer. *)

From S2P Require Import Prelude Search Sort Radix Pnl PnlFacts PnlMerge PnlCut.

Definition ALLOC_RESERVE : Z := 2.
Definition ALLOC_EXACTLY : Z := 32.

(** [*range - range[offset] == target] in [pgno_t] arithmetic *)
Definition seq_at (c : list Z) (seq range : Z) : option bool :=
  x ← rdz c range; y ← rdz c (range - seq);
  Some (u32 (x - y) =? u32 (- seq)).

(** The loop over four cells at a time; [inr] is the cell where it stops. *)
Fixpoint scan4_quads (fuel : nat) (c : list Z) (seq range detent : Z) : option (Z + Z) :=
  match fuel with
  | O => None
  | S fuel =>
      d0 ← seq_at c seq range;
      d1 ← seq_at c seq (range - 1);
      d2 ← seq_at c seq (range - 2);
      d3 ← seq_at c seq (range - 3);
      if d0 : bool then Some (inl range)
      else if d1 : bool then Some (inl (range - 1))
      else if d2 : bool then Some (inl (range - 2))
      else if d3 : bool then Some (inl (range - 3))
      else
        let range := range - 4 in
        if decide (range > detent + 3) then scan4_quads fuel c seq range detent else Some (inr range)
  end.

Fixpoint scan4_tail (fuel : nat) (c : list Z) (seq range detent : Z) : option (option Z) :=
  match fuel with
  | O => None
  | S fuel =>
      d ← seq_at c seq range;
      if d : bool then Some (Some range)
      else
        let range := range - 1 in
        if decide (range > detent) then scan4_tail fuel c seq range detent else Some None
  end.

Definition scan4seq_fallback (c : list Z) (range len seq : Z) : option (option Z) :=
  let detent := range - len + seq in
  let fuel := S (length c) in
  if decide (len > seq + 3) then
    res ← scan4_quads fuel c seq range detent;
    match res with
    | inl r => Some (Some r)
    | inr range => if decide (range = detent) then Some None else scan4_tail fuel c seq range detent
    end
  else scan4_tail fuel c seq range detent.

Fixpoint checker_loop (begin : nat) (c : list Z) (seq : nat) : option (option Z) :=
  match begin with
  | O => Some None
  | S begin' =>
      if decide (seq < begin)%nat then
        a ← rd c (begin - seq); b ← rd c begin;
        if u32 (a - b) =? Z.of_nat seq then Some (Some (Z.of_nat begin)) else checker_loop begin' c seq
      else Some None
  end.
Definition scan4range_checker (c : list Z) (seq : nat) : option (option Z) := checker_loop (pnl_size c) c seq.

Definition repnl_get_single (c : list Z) : option (Z * list Z) :=
  let len := pnl_size c in
  pgno ← rd c len;
  c ← pnl_setsize c (len - 1);
  Some (pgno, c).

Definition gc_repnl_get_single (c : list Z) : option (Z * list Z) :=
  if decide (pnl_size c <> 0)%nat then repnl_get_single c else Some (0, c).

(** [do { target += 1; if (--left < num) return 0; } while (target[1] - target[0] == 1)] *)
Fixpoint skip_longer (fuel : nat) (c : list Z) (target left_ num : Z) : option (option (Z * Z)) :=
  match fuel with
  | O => None
  | S fuel =>
      let target := target + 1 in
      let left_ := u64 (left_ - 1) in
      if decide (left_ < num) then Some None
      else
        a ← rdz c (target + 1); b ← rdz c target;
        if u32 (a - b) =? 1 then skip_longer fuel c target left_ num else Some (Some (target, left_))
  end.

(** [n] times [++target; target[-num] = *target] *)
Fixpoint close_hole (n : nat) (c : list Z) (target num : Z) : option (list Z) :=
  match n with
  | O => Some c
  | S n =>
      let target := target + 1 in
      x ← rdz c target; c ← wrz c (target - num) x; close_hole n c target num
  end.

Fixpoint sequence_loop (fuel : nat) (c : list Z) (len num flags : Z) (target : option Z) : option (Z * list Z) :=
  match fuel, target with
  | O, _ => None
  | S _, None => Some (0, c)
  | S fuel, Some target =>
      let take_it :=
        pgno ← rdz c target;
      if decide (Z.land flags ALLOC_RESERVE = 0) then
        c ← pnl_setsize c (Z.to_nat (len - num));
        c ← close_hole (Z.to_nat (len - target)) c target num;
        Some (pgno, c)
      else Some (pgno, c) in
      if decide (Z.land flags ALLOC_EXACTLY <> 0 /\ len > num) then
        a ← rdz c (target + 1); b ← rdz c target;
        if u32 (a - b) =? 1 then
          skipped ← skip_longer fuel c target (len - target) num;
          match skipped with
          | None => Some (0, c)
          | Some (target, left_) =>
              target ← scan4seq_fallback c target left_ (num - 1);
              sequence_loop fuel c len num flags target
          end
        else take_it
      else take_it
  end.

Definition gc_repnl_get_sequence (c : list Z) (num : nat) (flags : Z) : option (Z * list Z) :=
  let len := pnl_size c in
  let seq := (num - 1)%nat in
  edge ← rd c len;
  far ← rdz c (Z.of_nat len - Z.of_nat seq);
  fast ← (if u32 (far - edge) =? Z.of_nat seq then
            if decide (Z.land flags ALLOC_EXACTLY = 0 \/ len = num) then Some true
            else x ← rdz c (Z.of_nat len - Z.of_nat num); Some (negb (u32 (x - edge) =? Z.of_nat num))
          else Some false);
  if fast : bool then
    if decide (Z.land flags ALLOC_RESERVE = 0) then c ← pnl_setsize c (len - num); Some (edge, c) else Some (edge, c)
  else
    target ← scan4seq_fallback c (Z.of_nat len) (Z.of_nat len) (Z.of_nat seq);
    sequence_loop (S (length c)) c (Z.of_nat len) (Z.of_nat num) flags target.

Definition gc_repnl_has_span (c : list Z) (num : nat) : option bool :=
  if decide (1 < num)%nat then
    '(pgno, _) ← gc_repnl_get_sequence c num ALLOC_RESERVE; Some (bool_decide (pgno <> 0))
  else Some (negb (Nat.eqb (pnl_size c) 0)).

(** ** The scanner *)

Section scan.
Context (c L : list Z) (Hc : holding c L) (Hd : descending L) (Hok : Forall pgno_ok L).

Lemma cell_rd i : (0 < i <= length L)%nat -> rd c i = Some (L !!! (i - 1)%nat).
Proof.
  intros Hi. destruct i as [|i]; [lia|]. rewrite (holding_rd c L i Hc) by lia. rewrite Nat.sub_succ, Nat.sub_0_r.
  by rewrite list_lookup_lookup_total_lt by lia.
Qed.

Lemma cells_ordered i j : (i < j < length L)%nat -> L !!! j < L !!! i /\ 0 <= L !!! j /\ L !!! i < P_INVALID.
Proof.
  intros Hij. assert (L !! i = Some (L !!! i)) as Hi by (apply list_lookup_lookup_total_lt; lia).
  assert (L !! j = Some (L !!! j)) as Hj by (apply list_lookup_lookup_total_lt; lia).
  split; [eapply (descending_lookup L i j); (done || lia)|].
  pose proof (Forall_lookup_1 _ _ _ _ Hok Hi) as H1. pose proof (Forall_lookup_1 _ _ _ _ Hok Hj) as H2.
  unfold pgno_ok in *. lia.
Qed.

Context (seq : nat) (Hseq : (0 < seq)%nat).

(** The cells [i - seq] and [i] are [seq] pages apart. *)
Definition is_seq (i : nat) : bool := bool_decide (L !!! (i - 1 - seq)%nat - L !!! (i - 1)%nat = Z.of_nat seq).

Lemma seq_at_spec i : (seq < i <= length L)%nat -> Z.of_nat seq < 2 ^ 32 ->
  seq_at c (Z.of_nat seq) (Z.of_nat i) = Some (is_seq i).
Proof.
  intros Hi Hs. unfold seq_at. unfold rdz. rewrite !decide_True by lia.
  replace (Z.to_nat (Z.of_nat i - Z.of_nat seq)) with (i - seq)%nat by lia. rewrite Nat2Z.id.
  rewrite !cell_rd by lia. cbn [mbind option_bind]. f_equal. unfold is_seq.
  replace (i - seq - 1)%nat with (i - 1 - seq)%nat by lia.
  destruct (cells_ordered (i - 1 - seq) (i - 1) ltac:(lia)) as (H1 & H2 & H3). unfold P_INVALID, UINT32_MAX in H3.
  set (x := L !!! (i - 1 - seq)%nat) in *. set (y := L !!! (i - 1)%nat) in *. clearbody x y.
  unfold u32. replace (y - x) with ((y - x + 2 ^ 32) + (-1) * 2 ^ 32) by lia.
  replace (- Z.of_nat seq) with ((2 ^ 32 - Z.of_nat seq) + (-1) * 2 ^ 32) by lia.
  rewrite !Z.mod_add, !Z.mod_small by lia. case_bool_decide; lia.
Qed.

Lemma checker_loop_step i : (seq < i <= length L)%nat ->
  checker_loop i c seq = if is_seq i then Some (Some (Z.of_nat i)) else checker_loop (i - 1) c seq.
Proof.
  intros Hi. destruct i as [|i]; [lia|]. cbn [checker_loop]. rewrite decide_True by lia. rewrite !cell_rd by lia.
  cbn [mbind option_bind]. rewrite Nat.sub_succ, Nat.sub_0_r. unfold is_seq. rewrite Nat.sub_succ, Nat.sub_0_r.
  replace (S i - seq - 1)%nat with (i - seq)%nat by lia.
  destruct (cells_ordered (i - seq) i ltac:(lia)) as (H1 & H2 & H3). unfold P_INVALID, UINT32_MAX in H3.
  rewrite u32_small by (unfold UINT32_MAX; lia). case_bool_decide as H.
  - by rewrite H, Z.eqb_refl.
  - by replace (_ =? _) with false by lia.
Qed.

Lemma checker_loop_stop i : (i <= seq)%nat -> checker_loop i c seq = Some None.
Proof. intros Hi. destruct i; cbn [checker_loop]; [done|]. by rewrite decide_False by lia. Qed.

Lemma checker_loop_spec i : (i <= length L)%nat ->
  (exists k, checker_loop i c seq = Some (Some (Z.of_nat k)) /\ (seq < k <= i)%nat /\ is_seq k = true /\
    forall j, (k < j <= i)%nat -> is_seq j = false) \/
  (checker_loop i c seq = Some None /\ forall j, (seq < j <= i)%nat -> is_seq j = false).
Proof.
  induction i as [|i IH]; intros Hi; [right; split; [done|lia]|].
  destruct (decide (seq < S i)%nat); [|right; rewrite checker_loop_stop by lia; split; [done|lia]].
  rewrite checker_loop_step, Nat.sub_succ, Nat.sub_0_r by lia. destruct (is_seq (S i)) eqn:E.
  - left. exists (S i). split_and!; [done|lia|lia|done|lia].
  - destruct IH as [(k & -> & Hk & Hm & Hno)|[-> Hno]]; [lia| |].
    + left. exists k. split_and!; [done|lia|lia|done|]. intros j Hj.
      destruct (decide (j = S i)) as [->|]; [done|]. apply Hno. lia.
    + right. split; [done|]. intros j Hj. destruct (decide (j = S i)) as [->|]; [done|]. apply Hno. lia.
Qed.

Context (Hmax : Z.of_nat (length L) < 2 ^ 32).

Lemma scan4_tail_spec fuel : forall i, (seq < i <= length L)%nat -> (i - seq < fuel)%nat ->
  scan4_tail fuel c (Z.of_nat seq) (Z.of_nat i) (Z.of_nat seq) = checker_loop i c seq.
Proof.
  induction fuel as [|fuel IH]; intros i Hi Hf; [lia|]. cbn [scan4_tail].
  rewrite seq_at_spec, checker_loop_step by lia. cbn [mbind option_bind]. destruct (is_seq i); [done|].
  replace (Z.of_nat i - 1) with (Z.of_nat (i - 1)) by lia. case_decide; [apply IH; lia|].
  by rewrite checker_loop_stop by lia.
Qed.

Lemma scan4_quads_spec fuel : forall i, (seq + 3 < i <= length L)%nat -> (i < fuel)%nat ->
  (exists k, scan4_quads fuel c (Z.of_nat seq) (Z.of_nat i) (Z.of_nat seq) = Some (inl k) /\
    checker_loop i c seq = Some (Some k)) \/
  (exists k, scan4_quads fuel c (Z.of_nat seq) (Z.of_nat i) (Z.of_nat seq) = Some (inr (Z.of_nat k)) /\
    (seq <= k < i)%nat /\ checker_loop i c seq = checker_loop k c seq).
Proof.
  induction fuel as [|fuel IH]; intros i Hi Hf; [lia|]. cbn [scan4_quads].
  replace (Z.of_nat i - 1) with (Z.of_nat (i - 1)) by lia. replace (Z.of_nat i - 2) with (Z.of_nat (i - 2)) by lia.
  replace (Z.of_nat i - 3) with (Z.of_nat (i - 3)) by lia. replace (Z.of_nat i - 4) with (Z.of_nat (i - 4)) by lia.
  rewrite !seq_at_spec by lia. cbn [mbind option_bind].
  rewrite (checker_loop_step i) by lia. destruct (is_seq i); [left; eauto|].
  rewrite (checker_loop_step (i - 1)) by lia. destruct (is_seq (i - 1)); [left; eauto|].
  replace (i - 1 - 1)%nat with (i - 2)%nat by lia.
  rewrite (checker_loop_step (i - 2)) by lia. destruct (is_seq (i - 2)); [left; eauto|].
  replace (i - 2 - 1)%nat with (i - 3)%nat by lia.
  rewrite (checker_loop_step (i - 3)) by lia. destruct (is_seq (i - 3)); [left; eauto|].
  replace (i - 3 - 1)%nat with (i - 4)%nat by lia. case_decide.
  - destruct (IH (i - 4)%nat) as [(k & E1 & E2)|(k & E1 & Hk & E2)]; [lia|lia|left|right]; eauto 10 with lia.
  - right. exists (i - 4)%nat. split_and!; [done|lia|lia|done].
Qed.

Lemma scan4seq_is_checker : (seq < length L)%nat ->
  scan4seq_fallback c (Z.of_nat (length L)) (Z.of_nat (length L)) (Z.of_nat seq) = scan4range_checker c seq.
Proof.
  intros Hlen. unfold scan4seq_fallback, scan4range_checker. rewrite (holding_size c L Hc).
  assert (length L < length c)%nat as Hlc by (destruct Hc as [W ->]; simpl; rewrite length_app; lia).
  replace (Z.of_nat (length L) - Z.of_nat (length L) + Z.of_nat seq) with (Z.of_nat seq) by lia. case_decide.
  - destruct (scan4_quads_spec (S (length c)) (length L)) as [(k & -> & ->)|(k & -> & Hk & ->)]; [lia|lia|done|].
    cbn [mbind option_bind]. case_decide; [by rewrite checker_loop_stop by lia|]. apply scan4_tail_spec; lia.
  - apply scan4_tail_spec; lia.
Qed.
End scan.

(** ** Runs of consecutive pages in a descending list *)

Section runs.
Context (L : list Z) (Hd : descending L).

(** The pages [p], ..., [p + n - 1] are in the list. *)
Definition has_run (p : Z) (n : nat) : Prop := forall k, 0 <= k < Z.of_nat n -> p + k ∈ L.

Lemma descending_gap i j x y : (i <= j)%nat -> L !! i = Some x -> L !! j = Some y -> Z.of_nat (j - i) <= x - y.
Proof.
  intros Hij Hi. revert y. induction Hij as [|j Hij IH]; intros y Hj; [simplify_eq; lia|].
  destruct (lookup_lt_is_Some_2 L j) as [z Hz]; [apply lookup_lt_Some in Hj; lia|].
  specialize (IH z Hz). pose proof (descending_lookup L j (S j) z y Hd ltac:(lia) Hz Hj). lia.
Qed.

(** Cells [n] apart that hold pages [n] apart enclose a run. *)
Lemma gap_is_run i n x y : L !! i = Some x -> L !! (i + n)%nat = Some y -> x - y = Z.of_nat n ->
  exists A B, L = A ++ steps_down y 1 (S n) ++ B /\ length A = i.
Proof.
  intros Hi Hj Hxy. exists (take i L), (drop (i + S n) L). pose proof (lookup_lt_Some _ _ _ Hj).
  split; [|rewrite length_take; lia].
  rewrite <- (take_drop i L) at 1. f_equal. rewrite <- (take_drop (S n) (drop i L)) at 1. rewrite drop_drop. f_equal.
  apply list_eq_same_length'.
  - rewrite length_take, length_drop, length_steps_down. lia.
  - intros k Hk. rewrite length_take, length_drop in Hk. rewrite lookup_take_lt, lookup_drop by lia.
    destruct (lookup_lt_is_Some_2 L (i + k)) as [z Hz]; [lia|]. rewrite Hz.
    pose proof (descending_gap i (i + k) x z ltac:(lia) Hi Hz). pose proof (descending_gap (i + k) (i + n) z y ltac:(lia) Hz Hj).
    rewrite lookup_steps_down by lia. f_equal. lia.
Qed.

Lemma run_is_gap p n i : has_run p (S n) -> L !! i = Some p -> (n <= i)%nat /\ L !! (i - n)%nat = Some (p + Z.of_nat n).
Proof.
  intros Hrun Hi. induction n as [|n IH].
  - split; [lia|]. rewrite Nat.sub_0_r, Hi. f_equal. lia.
  - destruct IH as [Hn Hl]; [intros k Hk; apply Hrun; lia|].
    pose proof (Hrun (Z.of_nat (S n)) ltac:(lia)) as Hin. apply list_elem_of_lookup_1 in Hin as [j Hj].
    assert (j = i - S n /\ S n <= i)%nat as [-> ?]; [|split; [lia|done]].
    destruct (decide (j < i - n)%nat) as [Hlt|Hge].
    + pose proof (descending_gap j (i - n) _ _ ltac:(lia) Hj Hl). lia.
    + exfalso. destruct (decide (j = i - n)%nat) as [->|]; [rewrite Hl in Hj; simplify_eq; lia|].
      pose proof (descending_lookup L (i - n) j _ _ Hd ltac:(lia) Hl Hj). lia.
Qed.
End runs.

(** ** Taking pages *)

Section take.
Context (c L W : list Z) (Hcw : c = Z.of_nat (length L) :: L ++ W).
Context (Hd : descending L) (Hok : Forall (fun x => MIN_PAGENO <= x < P_INVALID) L).

Lemma take_pgno_ok : Forall pgno_ok L.
Proof. eapply Forall_impl; [exact Hok|]. unfold pgno_ok, MIN_PAGENO, NUM_METAS. simpl. lia. Qed.

Lemma length_small : Z.of_nat (length L) < 2 ^ 32.
Proof.
  destruct L as [|x L0] eqn:E; [simpl; lia|]. rewrite <- E in *.
  assert (exists y, L !! 0%nat = Some x /\ L !! (length L - 1)%nat = Some y) as (y & Hx & Hy).
  { rewrite E. simpl. destruct (lookup_lt_is_Some_2 (x :: L0) (S (length L0) - 1)) as [y Hy]; [simpl; lia|]. by exists y. }
  pose proof (descending_gap L Hd 0 (length L - 1) x y ltac:(lia) Hx Hy).
  pose proof (Forall_lookup_1 _ _ _ _ Hok Hx) as H1. pose proof (Forall_lookup_1 _ _ _ _ Hok Hy) as H2.
  unfold P_INVALID, UINT32_MAX, MIN_PAGENO, NUM_METAS in *. simpl in *. lia.
Qed.

Lemma close_hole_move n : forall b t num, (num <= t)%nat ->
  close_hole n b (Z.of_nat t) (Z.of_nat num) = shift_cells n b (S t - num) num.
Proof.
  induction n as [|n IH]; intros b t num Ht; cbn [close_hole shift_cells]; [done|].
  unfold rdz. rewrite decide_True by lia. replace (Z.to_nat (Z.of_nat t + 1)) with (S t - num + num)%nat by lia.
  destruct (rd b _); cbn [mbind option_bind]; [|done]. unfold wrz. rewrite decide_True by lia.
  replace (Z.to_nat (Z.of_nat t + 1 - Z.of_nat num)) with (S t - num)%nat by lia.
  destruct (wr b _ _); cbn [mbind option_bind]; [|done].
  replace (Z.of_nat t + 1) with (Z.of_nat (S t)) by lia. rewrite IH by lia. f_equal. lia.
Qed.

Lemma setsize_c n : pnl_setsize c n = Some (Z.of_nat n :: L ++ W).
Proof. by rewrite Hcw. Qed.

(** What a request for [num] pages does with the list. *)
Definition took (num : nat) (flags pgno : Z) (c' : list Z) : Prop :=
  exists A B, L = A ++ steps_down pgno 1 num ++ B /\ pgno <> 0 /\
  if decide (Z.land flags ALLOC_RESERVE = 0) then holding c' (A ++ B) /\ length c' = length c else c' = c.

Lemma get_sequence_spec num flags :
  (1 < num <= length L)%nat -> Z.land flags ALLOC_EXACTLY = 0 ->
  exists pgno c', gc_repnl_get_sequence c num flags = Some (pgno, c') /\
  ((pgno = 0 /\ c' = c /\ forall p, ~ has_run L p num) \/
    (took num flags pgno c' /\ forall p, has_run L p num -> pgno <= p)).
Proof.
  intros Hnum Hflags. assert (holding c L) as Hc by by exists W. pose proof length_small as Hmax.
  unfold gc_repnl_get_sequence. rewrite (holding_size c L Hc).
  assert (rdz c (Z.of_nat (length L) - Z.of_nat (num - 1)) = Some (L !!! (length L - 1 - (num - 1))%nat)) as ->.
  { unfold rdz. rewrite decide_True by lia. replace (Z.to_nat _) with (length L - (num - 1))%nat by lia.
    rewrite (cell_rd c L Hc) by lia. do 2 f_equal. lia. }
  rewrite (cell_rd c L Hc) by lia. cbn [mbind option_bind].
  destruct (cells_ordered L Hd take_pgno_ok (length L - 1 - (num - 1)) (length L - 1)) as (H1 & H2 & H3); [lia|].
  unfold P_INVALID, UINT32_MAX in H3. rewrite u32_small by (unfold UINT32_MAX; lia).
  assert (forall i, (num - 1 < i <= length L)%nat -> is_seq L (num - 1) i = true ->
    exists A B, L = A ++ steps_down (L !!! (i - 1)%nat) 1 num ++ B /\ length A = (i - num)%nat) as Hrun.
  { intros i Hi Hs. unfold is_seq in Hs. apply bool_decide_eq_true in Hs.
    destruct (gap_is_run L Hd (i - num) (num - 1) (L !!! (i - num)%nat) (L !!! (i - 1)%nat)) as (A & B & E & HA);
      [apply list_lookup_lookup_total_lt; lia| | |].
    - replace (i - num + (num - 1))%nat with (i - 1)%nat by lia. apply list_lookup_lookup_total_lt; lia.
    - rewrite <- Hs. do 2 f_equal. lia.
    - exists A, B. split; [|done]. replace num with (S (num - 1)) at 1 by lia. done. }
  assert (forall i, (0 < i <= length L)%nat -> L !!! (i - 1)%nat <> 0) as Hnz.
  { intros i Hi. pose proof (Forall_lookup_1 _ _ _ _ Hok (list_lookup_lookup_total_lt L (i - 1) ltac:(lia))) as H.
    unfold MIN_PAGENO, NUM_METAS in H. simpl in H. lia. }
  assert (forall p, has_run L p num -> exists i, (num - 1 < i <= length L)%nat /\ is_seq L (num - 1) i = true /\
    L !!! (i - 1)%nat = p) as Hback.
  { intros p Hp. assert (p ∈ L) as Hin by (replace p with (p + 0) by lia; apply Hp; lia).
    apply list_elem_of_lookup_1 in Hin as [j Hj]. pose proof (lookup_lt_Some _ _ _ Hj).
    destruct (run_is_gap L Hd p (num - 1) j) as [Hn Hl]; [by replace (S (num - 1)) with num by lia|done|].
    exists (S j). split; [lia|]. rewrite Nat.sub_succ, Nat.sub_0_r. apply list_lookup_total_correct in Hj, Hl.
    split; [|done]. unfold is_seq. rewrite Nat.sub_succ, Nat.sub_0_r, Hl, Hj. apply bool_decide_eq_true. lia. }
  assert (forall i j, (i <= j)%nat -> (0 < i)%nat -> (j <= length L)%nat -> L !!! (j - 1)%nat <= L !!! (i - 1)%nat) as Hmono.
  { intros i j Hij Hi Hj. destruct (decide (i = j)) as [->|]; [lia|].
    destruct (cells_ordered L Hd take_pgno_ok (i - 1) (j - 1)); lia. }
  destruct (L !!! (length L - 1 - (num - 1))%nat - L !!! (length L - 1)%nat =? Z.of_nat (num - 1)) eqn:Efast.
  - rewrite (decide_True (P := Z.land flags ALLOC_EXACTLY = 0 \/ length L = num)) by (left; done). cbn [mbind option_bind].
    destruct (Hrun (length L)) as (A & B & E & HA); [lia|unfold is_seq; apply bool_decide_eq_true, Z.eqb_eq, Efast|].
    assert (B = []) as ->.
    { apply (f_equal length) in E. rewrite !length_app, length_steps_down in E. destruct B; [done|simpl in E; lia]. }
    set (edge := L !!! (length L - 1)%nat) in *.
    assert (forall c', (if decide (Z.land flags ALLOC_RESERVE = 0) then c' = Z.of_nat (length L - num) :: L ++ W else c' = c) ->
      (edge = 0 /\ c' = c /\ forall p, ~ has_run L p num) \/
      (took num flags edge c' /\ forall p, has_run L p num -> edge <= p)) as Hdone.
    { intros c' Hc'. right. split.
      - exists A, []. split; [done|]. split; [apply Hnz; lia|]. case_decide; [|done]. rewrite Hc'. split.
        + exists (steps_down edge 1 num ++ W). rewrite app_nil_r. rewrite E at 2. rewrite app_nil_r, <- app_assoc.
          do 2 f_equal. lia.
        + rewrite Hcw. done.
      - intros p Hp. destruct (Hback p Hp) as (i & Hi & _ & <-). apply Hmono; lia. }
    case_decide.
    + rewrite setsize_c. cbn [mbind option_bind]. eexists _, _. split; [done|]. by apply Hdone.
    + eexists _, _. split; [done|]. by apply Hdone.
  - cbn [mbind option_bind]. rewrite (scan4seq_is_checker c L Hc Hd take_pgno_ok (num - 1)) by lia.
    unfold scan4range_checker. rewrite (holding_size c L Hc).
    destruct (checker_loop_spec c L Hc Hd take_pgno_ok (num - 1) ltac:(lia) (length L) ltac:(lia))
      as [(k & -> & Hk & Hs & Hno)|[-> Hno]]; cbn [mbind option_bind sequence_loop].
    + destruct (Hrun k Hk Hs) as (A & B & E & HA).
      rewrite decide_False by (intros [Hx _]; done). unfold rdz. rewrite decide_True, Nat2Z.id by lia.
      rewrite (cell_rd c L Hc) by lia. cbn [mbind option_bind]. set (pg := L !!! (k - 1)%nat) in *.
      assert (forall p, has_run L p num -> pg <= p) as Hmin.
      { intros p Hp. destruct (Hback p Hp) as (i & Hi & Hsi & <-). apply Hmono; [|lia|lia].
        destruct (decide (i <= k)%nat); [done|]. rewrite Hno in Hsi by lia. done. }
      case_decide as Hres.
      * assert (length B = length L - k)%nat as HB.
        { apply (f_equal length) in E. rewrite !length_app, length_steps_down in E. lia. }
        rewrite setsize_c. cbn [mbind option_bind].
        replace (Z.to_nat (Z.of_nat (length L) - Z.of_nat k)) with (length B) by lia. rewrite close_hole_move by lia.
        set (s := Z.of_nat (Z.to_nat (Z.of_nat (length L) - Z.of_nat num))).
        destruct (shift_cells_spec B (s :: A) (steps_down pg 1 num) W (S k - num) num) as (G & HG & Es);
          [simpl; lia|by rewrite length_steps_down|].
        replace ((s :: A) ++ steps_down pg 1 num ++ B ++ W) with (s :: L ++ W) in Es by (rewrite E at 1; by app_norm).
        rewrite Es. cbn [mbind option_bind]. eexists _, _. split; [done|]. right. split; [|done].
        exists A, B. split; [done|]. split; [apply Hnz; lia|]. rewrite decide_True by done. split.
        -- exists (G ++ W). unfold s. app_norm. f_equal. rewrite E, !length_app, length_steps_down. lia.
        -- rewrite Hcw. app_norm. rewrite !length_app, HG, length_steps_down, E, !length_app, length_steps_down. lia.
      * eexists _, _. split; [done|]. right. split; [|done]. exists A, B. split; [done|]. split; [apply Hnz; lia|].
        by rewrite decide_False.
    + eexists _, _. split; [done|]. left. split_and!; try done. intros p Hp.
      destruct (Hback p Hp) as (i & Hi & Hsi & _). rewrite Hno in Hsi by lia. done.
Qed.
End take.
