(* ===== verification/PnlRuns.v ===== *)
(** * Page number lists: the longest run and the best fitting sequence *)

From S2P Require Import Prelude Search Sort Radix Pnl PnlFacts PnlMerge PnlCut Repnl.

(** A run which cannot be extended on either side. *)
Definition maxrun (L : list Z) (p : Z) (n : nat) : Prop :=
  (0 < n)%nat /\ has_run L p n /\ ~ (p - 1 ∈ L) /\ ~ (p + Z.of_nat n ∈ L).

(** The page in cell [i]. *)
Definition page_at (L : list Z) (i : nat) : Z := L !!! (i - 1)%nat.

Section runs.
Context (c L : list Z) (Hc : holding c L) (Hd : descending L) (Hok : Forall pgno_ok L).
#[local] Abbreviation V := (page_at L).

Lemma V_lookup i : (0 < i <= length L)%nat -> L !! (i - 1)%nat = Some (V i).
Proof. intros. apply list_lookup_lookup_total_lt. lia. Qed.

Lemma V_gap i j : (0 < i <= j)%nat -> (j <= length L)%nat -> Z.of_nat (j - i) <= V i - V j.
Proof.
  intros Hi Hj. pose proof (descending_gap L Hd (i - 1) (j - 1) (V i) (V j) ltac:(lia) (V_lookup i ltac:(lia)) (V_lookup j ltac:(lia))). lia.
Qed.

Lemma V_ok i : (0 < i <= length L)%nat -> 0 <= V i < 2 ^ 32 - 1.
Proof. intros Hi. exact (Forall_lookup_1 _ _ _ _ Hok (V_lookup i Hi)). Qed.

Lemma contiguous_spec i j n : (0 < i < j)%nat -> (j <= length L)%nat ->
  MDBX_PNL_CONTIGUOUS (V i) (V j) n = bool_decide (V i - V j = n).
Proof.
  intros Hi Hj. pose proof (V_gap i j ltac:(lia) Hj). pose proof (V_ok i ltac:(lia)). pose proof (V_ok j ltac:(lia)).
  unfold MDBX_PNL_CONTIGUOUS. rewrite u32_small by (unfold UINT32_MAX; lia). case_bool_decide; lia.
Qed.

Lemma elem_V x : x ∈ L <-> exists i, (0 < i <= length L)%nat /\ V i = x.
Proof.
  split.
  - intros [i Hi]%list_elem_of_lookup_1. exists (S i). pose proof (lookup_lt_Some _ _ _ Hi). split; [lia|].
    unfold page_at. rewrite Nat.sub_succ, Nat.sub_0_r. by apply list_lookup_total_correct.
  - intros (i & Hi & <-). eapply list_elem_of_lookup_2, V_lookup, Hi.
Qed.

(** Cells [n - 1] apart with pages [n - 1] apart are a run of [n] pages, and conversely. *)
Lemma run_cells i n : (0 < n <= i)%nat -> (i <= length L)%nat ->
  V (i - (n - 1)) - V i = Z.of_nat (n - 1) -> has_run L (V i) n.
Proof.
  intros Hn Hi Hv k Hk. apply elem_V. exists (i - Z.to_nat k)%nat. split; [lia|].
  pose proof (V_gap (i - Z.to_nat k) i ltac:(lia) Hi). pose proof (V_gap (i - (n - 1)) (i - Z.to_nat k) ltac:(lia) ltac:(lia)). lia.
Qed.

Lemma run_cells_inv i n : (0 < i <= length L)%nat -> (0 < n)%nat -> has_run L (V i) n ->
  (n <= i)%nat /\ forall k, (k < n)%nat -> V (i - k) = V i + Z.of_nat k.
Proof.
  intros Hi Hn Hrun. assert (forall k, (k < n)%nat -> (k <= i - 1)%nat /\ V (i - k) = V i + Z.of_nat k) as H.
  { intros k Hk. destruct (run_is_gap L Hd (V i) k (i - 1)) as [H1 H2].
    - intros m Hm. apply Hrun. lia.
    - by apply V_lookup.
    - split; [lia|]. unfold page_at at 1. apply list_lookup_total_correct. rewrite <- H2. f_equal. lia. }
  split; [|intros k Hk; by apply H]. destruct (H (n - 1)%nat ltac:(lia)). lia.
Qed.

Lemma run_start p n : (0 < n)%nat -> has_run L p n -> exists i, (0 < i <= length L)%nat /\ V i = p.
Proof. intros Hn Hrun. apply elem_V. specialize (Hrun 0 ltac:(lia)). by rewrite Z.add_0_r in Hrun. Qed.

(** ** The longest run *)

Lemma maxspan_loop_spec left_ : forall scan span,
  (0 < scan)%nat -> (0 < span)%nat -> (scan + span + left_ = S (length L))%nat ->
  (exists p, has_run L p span) ->
  (forall i n, (0 < i)%nat -> (i < scan)%nat -> has_run L (V (i + (n - 1))) n -> (i + (n - 1) <= length L)%nat -> (0 < n)%nat -> (n <= span)%nat) ->
  exists m, maxspan_loop left_ c scan span = Some m /\ (exists p, has_run L p m) /\ (forall p n, has_run L p n -> (n <= m)%nat).
Proof.
  induction left_ as [|left_ IH]; intros scan span Hsc Hsp Hsum Hex Hall; cbn [maxspan_loop].
  - exists span. split_and!; [done..|]. intros p n Hrun. destruct (decide (n = 0%nat)); [lia|].
    destruct (run_start p n ltac:(lia) Hrun) as (i & Hi & <-). destruct (run_cells_inv i n Hi ltac:(lia) Hrun) as [Hni _].
    destruct (decide (i - (n - 1) < scan)%nat).
    + apply (Hall (i - (n - 1))%nat n); try lia. by replace (i - (n - 1) + (n - 1))%nat with i by lia.
    + lia.
  - rewrite (cell_rd c L Hc), (cell_rd c L Hc) by lia. fold (V scan) (V (scan + span)). cbn [mbind option_bind].
    rewrite contiguous_spec by lia. case_bool_decide as Hcont.
    + apply IH; try lia.
      * exists (V (scan + span)). apply run_cells; [lia|lia|].
        replace (scan + span - (S span - 1))%nat with scan by lia. rewrite Hcont. f_equal. lia.
      * intros i n Hi Hlt Hrun Hle Hn. assert (n <= span)%nat by (apply (Hall i n); try done; lia). lia.
    + apply IH; try lia; [done|]. intros i n Hi Hlt Hrun Hle Hn.
      destruct (decide (i < scan)%nat); [apply (Hall i n); try done; lia|]. assert (i = scan) as -> by lia.
      destruct (decide (n <= span)%nat); [done|]. exfalso. apply Hcont.
      destruct (run_cells_inv (scan + (n - 1)) n ltac:(lia) Hn Hrun) as [_ Hk].
      pose proof (Hk (n - 1)%nat ltac:(lia)) as H1. pose proof (Hk (n - 1 - span)%nat ltac:(lia)) as H2.
      replace (scan + (n - 1) - (n - 1))%nat with scan in H1 by lia.
      replace (scan + (n - 1) - (n - 1 - span))%nat with (scan + span)%nat in H2 by lia. lia.
Qed.

Lemma pnl_maxspan_spec : exists m, pnl_maxspan c = Some m /\
  (L <> [] -> exists p, has_run L p m) /\ (forall p n, has_run L p n -> (n <= m)%nat).
Proof.
  unfold pnl_maxspan. rewrite (holding_size c L Hc). case_decide.
  - destruct (maxspan_loop_spec (length L - 1) 1 1) as (m & E & H1 & H2); try lia.
    + exists (V 1). apply run_cells; [lia|lia|]. simpl. lia.
    + by exists m.
  - exists (length L). split; [done|]. split.
    + intros Hne. destruct L as [|x [|]] eqn:E; try done; [|simpl in *; lia]. exists x. intros k Hk. simpl in Hk.
      replace (x + k) with x by lia. by left.
    + intros p n Hrun. destruct (decide (n = 0%nat)); [lia|]. destruct (run_start p n ltac:(lia) Hrun) as (i & Hi & <-).
      destruct (run_cells_inv i n Hi ltac:(lia) Hrun). lia.
Qed.
End runs.

(** ** The best fitting sequence *)

Section best.
Context (c L W : list Z) (Hcw : c = Z.of_nat (length L) :: L ++ W).
Context (Hd : descending L) (Hok : Forall (fun x => MIN_PAGENO <= x <= MAX_PAGENO) L).
Context (seq : nat) (detent : Z) (Hseq : (0 < seq)%nat) (Hdetent : Z.of_nat seq <= detent < 2 ^ 64).
#[local] Abbreviation V := (page_at L).
#[local] Abbreviation n := (length L).

Lemma best_holding : holding c L.
Proof. by exists W. Qed.
Let Hc := best_holding.

Lemma best_pgno_ok : Forall pgno_ok L.
Proof. eapply Forall_impl; [exact Hok|]. unfold pgno_ok, MIN_PAGENO, NUM_METAS, MAX_PAGENO, P_INVALID, UINT32_MAX. lia. Qed.
Let Hok' := best_pgno_ok.

Lemma span_back_spec fuel : forall i span,
  (0 < span <= i)%nat -> (i <= n)%nat -> (i - span < fuel)%nat ->
  (forall k, (k < span)%nat -> V (i - k) = V i + Z.of_nat k) ->
  exists s, span_back fuel c i span = Some s /\ (span <= s <= i)%nat /\
  (forall k, (k < s)%nat -> V (i - k) = V i + Z.of_nat k) /\
  (s = i \/ V (i - s) <> V i + Z.of_nat s).
Proof.
  induction fuel as [|fuel IH]; intros i span Hsp Hi Hf Hrun; [lia|]. cbn [span_back].
  rewrite (cell_rd c L Hc i) by lia. fold (V i).
  destruct (decide (span = i)) as [->|Hne].
  - rewrite Z.sub_diag. assert (exists x, rdz c 0 = Some x) as [x ->] by (rewrite Hcw; by eexists).
    cbn [mbind option_bind]. rewrite Z.ltb_irrefl, andb_false_r. exists i. split_and!; (done || lia || auto).
  - unfold rdz. rewrite decide_True by lia. replace (Z.to_nat _) with (i - span)%nat by lia.
    rewrite (cell_rd c L Hc) by lia. fold (V (i - span)). cbn [mbind option_bind].
    rewrite (contiguous_spec L Hd Hok') by lia.
    replace (0 <? Z.of_nat i - Z.of_nat span) with true by lia. rewrite andb_true_r.
    case_bool_decide as Hv.
    + destruct (IH i (S span)) as (s & E & Hs & H1 & H2); try lia.
      * intros k Hk. destruct (decide (k = span)) as [->|]; [lia|]. apply Hrun. lia.
      * exists s. split_and!; (done || lia).
    + exists span. split; [done|]. split; [lia|]. split; [done|]. right. lia.
Qed.

(** The maximal runs that begin behind cell [i] (with smaller pages). *)
Definition seen (i : nat) (p : Z) (m : nat) : Prop :=
  maxrun L p m /\ exists j, (i < j <= n)%nat /\ V j = p.

(** A maximal run is good when it holds [seq] pages below the limit. *)
Definition good (p : Z) (m : nat) : Prop := (seq <= m)%nat /\ p + Z.of_nat seq <= detent.

Definition best_inv (i best_pos : nat) (best_extra : Z) : Prop :=
  (best_pos = O /\ best_extra = MAX_PAGENO /\ forall p m, seen i p m -> ~ good p m) \/
  ((0 < best_pos <= n)%nat /\ 0 <= best_extra /\ maxrun L (V best_pos) (seq + Z.to_nat best_extra) /\
    V best_pos + Z.of_nat seq <= detent /\
    forall p m, seen i p m -> good p m -> (seq + Z.to_nat best_extra <= m)%nat).

(** The answer of the loop. *)
Definition best_answer (b : nat) : Prop :=
  (b = O /\ forall p m, maxrun L p m -> ~ good p m) \/
  ((0 < b <= n)%nat /\ exists m, maxrun L (V b) m /\ good (V b) m /\ forall p m', maxrun L p m' -> good p m' -> (m <= m')%nat).

Lemma maxrun_start p m : maxrun L p m -> exists j, (0 < j <= n)%nat /\ V j = p /\ (m <= j)%nat.
Proof.
  intros (Hm & Hrun & _). destruct (run_start L p m Hm Hrun) as (j & Hj & E). exists j. split; [done|]. split; [exact E|].
  subst p. by destruct (run_cells_inv L Hd j m Hj Hm Hrun).
Qed.

(** No more good runs can begin at or before cell [i]. *)
Lemma best_stop i best_pos best_extra :
  best_inv i best_pos best_extra ->
  (forall p m j, maxrun L p m -> (0 < j <= i)%nat -> V j = p -> (m <= j)%nat -> ~ good p m) -> best_answer best_pos.
Proof.
  intros Hinv Hrest.
  assert (forall p m, maxrun L p m -> good p m -> seen i p m) as Hseen.
  { intros p m Hr Hg. split; [done|]. destruct (maxrun_start p m Hr) as (j & Hj & Ej & Hmj). exists j.
    destruct (decide (i < j)%nat); [split; [lia|done]|]. exfalso. by apply (Hrest p m j); [done|lia|..]. }
  destruct Hinv as [(-> & _ & Hno)|(Hb & He & Hr & Hlim & Hmin)].
  - left. split; [done|]. intros p m Hr Hg. apply (Hno p m); [by apply Hseen|done].
  - right. split; [done|]. eexists. split; [exact Hr|]. split; [split; [lia|done]|].
    intros p m' Hr' Hg. apply Hmin with p; [by apply Hseen|done].
Qed.

Lemma V_maxrun i s : (0 < s <= i)%nat -> (i <= n)%nat -> V i - 1 ∉ L ->
  (forall k, (k < s)%nat -> V (i - k) = V i + Z.of_nat k) -> (s = i \/ V (i - s) <> V i + Z.of_nat s) -> maxrun L (V i) s.
Proof.
  intros Hs Hi Hlow Hrun Hend. split; [lia|]. split; [|split; [done|]].
  - apply (run_cells L Hd); [lia|done|]. fold (V (i - (s - 1))) (V i). rewrite Hrun by lia. lia.
  - intros (j & Hj & Ej)%(elem_V L).
    pose proof (Hrun (s - 1)%nat ltac:(lia)) as Htop.
    destruct (decide (i - (s - 1) <= j)%nat) as [H|H].
    + pose proof (V_gap L Hd (i - (s - 1)) j ltac:(lia) ltac:(lia)) as Hg. lia.
    + pose proof (V_gap L Hd j (i - (s - 1)) ltac:(lia) ltac:(lia)) as Hg.
      destruct Hend as [->|Hend]; [lia|]. apply Hend. replace (i - s)%nat with j by lia. lia.
Qed.

Lemma run_below i s : (0 < s <= i)%nat -> (i <= n)%nat ->
  (forall k, (k < s)%nat -> V (i - k) = V i + Z.of_nat k) -> (s = i \/ V (i - s) <> V i + Z.of_nat s) ->
  (forall j, (i - s < j < i)%nat -> V j - 1 ∈ L) /\ ((i - s = 0)%nat \/ V (i - s) - 1 ∉ L).
Proof.
  intros Hs Hi Hrun Hend. split.
  - intros j Hj. apply (elem_V L). exists (S j). split; [lia|]. fold (V (S j)).
    pose proof (Hrun (i - j)%nat ltac:(lia)) as H1. pose proof (Hrun (i - S j)%nat ltac:(lia)) as H2.
    replace (i - (i - j))%nat with j in H1 by lia. replace (i - (i - S j))%nat with (S j) in H2 by lia. lia.
  - destruct (decide (s = i)) as [->|]; [left; lia|]. right. destruct Hend as [->|Hend]; [lia|].
    intros (j & Hj & Ej)%(elem_V L). pose proof (Hrun (s - 1)%nat ltac:(lia)) as Htop.
    destruct (decide (j <= i - s)%nat).
    + pose proof (V_gap L Hd j (i - s) ltac:(lia) ltac:(lia)) as Hg. lia.
    + pose proof (V_gap L Hd (i - s) (i - (s - 1)) ltac:(lia) ltac:(lia)) as Hg.
      pose proof (V_gap L Hd (i - (s - 1)) j ltac:(lia) ltac:(lia)) as Hg2. lia.
Qed.

Lemma length_below_max : Z.of_nat n < MAX_PAGENO.
Proof.
  destruct (decide (n = 0%nat)) as [E0|E0]; [by rewrite E0|]. pose proof (V_gap L Hd 1 n ltac:(lia) ltac:(lia)).
  pose proof (Forall_lookup_1 _ _ _ _ Hok (V_lookup L 1 ltac:(lia))) as H1.
  pose proof (Forall_lookup_1 _ _ _ _ Hok (V_lookup L n ltac:(lia))) as H2.
  unfold MIN_PAGENO, NUM_METAS, MAX_PAGENO in *. simpl in H1, H2. lia.
Qed.

Lemma maxrun_unique p m m' : maxrun L p m -> maxrun L p m' -> m = m'.
Proof.
  intros (Hm & Hr & _ & He) (Hm' & Hr' & _ & He').
  destruct (Nat.lt_trichotomy m m') as [H|[H|H]]; [|done|]; exfalso; [apply He, Hr'|apply He', Hr]; lia.
Qed.

(** What is seen after the run that begins in cell [i]. *)
Lemma seen_after i s p m : (0 < s <= i)%nat -> (i <= n)%nat ->
  (forall j, (i - s < j < i)%nat -> V j - 1 ∈ L) -> maxrun L (V i) s ->
  seen (i - s) p m -> seen i p m \/ (p = V i /\ m = s).
Proof.
  intros Hs Hi Hin Hrun [Hm (j & Hj & <-)]. destruct (decide (i < j)%nat); [left; split; [done|]; exists j; split; [lia|done]|].
  right. destruct (decide (j = i)) as [->|]; [split; [done|by eapply maxrun_unique]|].
  exfalso. destruct Hm as (_ & _ & Hlow & _). apply Hlow, Hin. lia.
Qed.

Lemma best_inv_skip i s best_pos best_extra : (0 < s <= i)%nat -> (i <= n)%nat ->
  (forall j, (i - s < j < i)%nat -> V j - 1 ∈ L) -> maxrun L (V i) s ->
  best_inv i best_pos best_extra -> ((seq <= s)%nat -> best_extra <= Z.of_nat s - Z.of_nat seq) ->
  best_inv (i - s) best_pos best_extra.
Proof.
  intros Hs Hi Hin Hrun Hinv Hextra. pose proof length_below_max as Hmax.
  destruct Hinv as [(-> & -> & Hno)|(Hb & He & Hr & Hlim & Hmin)]; [left|right].
  - split; [done|]. split; [done|]. intros p m Hseen [Hsm Hg].
    destruct (seen_after i s p m Hs Hi Hin Hrun Hseen) as [H|[-> ->]]; [by apply (Hno p m)|]. specialize (Hextra Hsm). lia.
  - do 4 (split; [done|]). intros p m Hseen [Hsm Hg].
    destruct (seen_after i s p m Hs Hi Hin Hrun Hseen) as [H|[-> ->]]; [by apply (Hmin p m)|]. specialize (Hextra Hsm). lia.
Qed.

Lemma best_loop_spec fuel : forall i best_pos best_extra,
  (i < fuel)%nat -> (i <= n)%nat -> (i = 0%nat \/ V i - 1 ∉ L) -> best_inv i best_pos best_extra ->
  exists b, best_loop fuel c seq detent i best_pos best_extra = Some b /\ best_answer b.
Proof.
  induction fuel as [|fuel IH]; intros i best_pos best_extra Hf Hi Hlow Hinv; [lia|]. cbn [best_loop].
  case_decide as Hsi; [|exists best_pos; split; [done|]; apply (best_stop i _ best_extra Hinv)].
  2: { intros p m j Hr Hj <- Hmj [Hsm _]. lia. }
  destruct Hlow as [->|Hlow]; [lia|].
  rewrite (cell_rd c L Hc) by lia. fold (V i). cbn [mbind option_bind]. rewrite u64_small by (unfold UINT64_MAX; lia).
  case_decide as Hlim; [|exists best_pos; split; [done|]; apply (best_stop i _ best_extra Hinv)].
  2: { intros p m j Hr Hj <- _ [_ Hg]. pose proof (V_gap L Hd j i ltac:(lia) Hi). lia. }
  destruct (span_back_spec (S i) i 1) as (s & -> & Hs & Hrun & Hend); [lia|lia|lia| |].
  { intros k Hk. replace k with 0%nat by lia. rewrite Nat.sub_0_r. lia. }
  cbn [mbind option_bind]. pose proof (V_maxrun i s ltac:(lia) Hi Hlow Hrun Hend) as Hmr.
  destruct (run_below i s ltac:(lia) Hi Hrun Hend) as [Hin Hnext].
  assert ((i - s < fuel)%nat /\ (i - s <= n)%nat) as [Hf' Hi'] by lia.
  case_decide as Hbig; [case_decide as Hbetter; [case_decide as Hzero|]|].
  - exists i. split; [done|]. right. split; [lia|]. exists s. split; [done|]. split; [split; [lia|lia]|].
    intros p m' _ [Hm' _]. lia.
  - apply IH; try done. right. split; [lia|]. split; [lia|].
    replace (seq + Z.to_nat (Z.of_nat s - Z.of_nat seq))%nat with s by lia. split; [done|]. split; [lia|].
    intros p m Hseen [Hsm Hg]. destruct (seen_after i s p m ltac:(lia) Hi Hin Hmr Hseen) as [H|[-> ->]]; [|done].
    destruct Hinv as [(_ & _ & Hno)|(_ & _ & _ & _ & Hmin)].
    + exfalso. by apply (Hno p m).
    + specialize (Hmin p m H (conj Hsm Hg)). lia.
  - apply IH; try done. apply best_inv_skip; try done; lia.
  - apply IH; try done. apply best_inv_skip; try done; lia.
Qed.

(** The best fitting sequence: the pages are taken from the lowest end of one
    of the shortest maximal runs that are long enough. *)
Lemma best_sequence_spec :
  exists pgno c', pnl_get_best_sequence c seq detent = Some (pgno, c') /\
  ((pgno = 0 /\ c' = c /\ forall p m, maxrun L p m -> ~ good p m) \/
    (exists A B m, L = A ++ steps_down pgno 1 seq ++ B /\ pgno <> 0 /\ holding c' (A ++ B) /\ length c' = length c /\
      maxrun L pgno m /\ good pgno m /\ forall p m', maxrun L p m' -> good p m' -> (m <= m')%nat)).
Proof.
  unfold pnl_get_best_sequence. rewrite (holding_size c L Hc).
  destruct (best_loop_spec (S n) n 0 MAX_PAGENO) as (b & -> & Hb); [lia|lia| | |].
  - destruct (decide (n = 0%nat)) as [E0|E0]; [tauto|]. right. intros (j & Hj & Ej)%(elem_V L).
    pose proof (V_gap L Hd j n ltac:(lia) ltac:(lia)). lia.
  - left. split; [done|]. split; [done|]. intros p m [_ (j & Hj & _)]. lia.
  - cbn [mbind option_bind]. destruct Hb as [[-> Hno]|(Hb & m & Hmr & Hg & Hmin)].
    + rewrite decide_False by tauto. exists 0, c. split; [done|]. by left.
    + rewrite decide_True by lia. rewrite (cell_rd c L Hc) by lia. fold (V b). cbn [mbind option_bind].
      pose proof Hmr as (Hm0 & Hrun & _). pose proof Hg as [Hsm _].
      destruct (run_cells_inv L Hd b m ltac:(lia) Hm0 Hrun) as [Hmb Hk].
      destruct (gap_is_run L Hd (b - seq) (seq - 1) (V (b - (seq - 1))) (V b)) as (A & B & E & HA).
      { replace (b - seq)%nat with (b - (seq - 1) - 1)%nat by lia. apply V_lookup. lia. }
      { replace (b - seq + (seq - 1))%nat with (b - 1)%nat by lia. apply V_lookup. lia. }
      { rewrite Hk by lia. lia. }
      replace (S (seq - 1)) with seq in E by lia.
      destruct (pnl_cut_spec A (steps_down (V b) 1 seq) B W (b - seq + 1)) as (W' & Ecut & HW'); [lia|].
      rewrite length_steps_down, <- E, <- Hcw in Ecut. rewrite Ecut. cbn [mbind option_bind].
      eexists _, _. split; [done|]. right. exists A, B, m. split; [done|]. split.
      { pose proof (Forall_lookup_1 _ _ _ _ Hok (V_lookup L b ltac:(lia))) as H. unfold MIN_PAGENO, NUM_METAS in H. simpl in H. lia. }
      split; [by eexists|]. split; [|done]. rewrite Hcw, E. simpl. rewrite !length_app, HW', !length_steps_down. lia.
Qed.
End best.
