(* ===== verification/PnlProps.v ===== *)
(** * Properties of page number lists *)

From S2P Require Import Prelude Search Sort Radix Pnl PnlFacts PnlMerge PnlCut Repnl PnlRuns.

Lemma descending_check (l : list Z) : pnl_ordered_cells (length l - 1) l (hd 0 l) 1 = Some true -> descending l.
Proof.
  assert (forall L P x, pnl_ordered_cells (length L) (P ++ x :: L) x (S (length P)) = Some true -> descending (x :: L)) as H.
  { induction L as [|y L IH]; intros P x H; [apply descending_cons; split; [constructor|apply descending_nil]|].
    cbn [pnl_ordered_cells length] in H. replace (P ++ x :: y :: L) with ((P ++ [x]) ++ y :: L) in H by by app_norm.
    rewrite rd_app_at in H by (rewrite length_app; simpl; lia). cbn [mbind option_bind] in H.
    destruct (MDBX_PNL_ORDERED x y) eqn:E; [|done]. unfold MDBX_PNL_ORDERED in E.
    specialize (IH (P ++ [x]) y). rewrite length_app, Nat.add_1_r in IH. specialize (IH H). pose proof IH as [Hy _]%descending_cons.
    apply descending_cons. split; [|done]. constructor; [lia|]. eapply Forall_impl; [exact Hy|]. simpl. lia. }
  destruct l as [|x L]; [intros; apply descending_nil|]. simpl. rewrite Nat.sub_0_r. apply (H L [] x).
Qed.

(** Looking a page up in a descending list: the search ends behind the
    greater pages and [pnl_contains] answers membership, with both variants of
    the binary search. *)
Theorem pnl_contains_correct (have_cmov : bool) c L x :
  holding c L -> (length L + 2 <= length c)%nat -> descending L ->
  pnl_contains have_cmov c x = Some (bool_decide (x ∈ L)) /\
  exists A B, L = A ++ B /\ Forall (fun y => x < y) A /\ Forall (fun y => y <= x) B /\
  pnl_search have_cmov c x = Some (S (length A)).
Proof.
  intros Hc Hr Hd. split; [by apply (pnl_contains_spec have_cmov c L Hc Hr)|].
  destruct (descending_split L x Hd) as (A & B & E & HA & HB). exists A, B. split_and!; try done.
  by apply (pnl_search_spec have_cmov c L Hc Hr A B).
Qed.

Lemma pnl_contains_correct_witness : pnl_contains true [3; 9; 7; 4; 0; 0] 7 = Some true.
Proof.
  destruct (pnl_contains_correct true [3; 9; 7; 4; 0; 0] [9; 7; 4] 7) as [-> _]; [by exists [0; 0]|simpl; lia|by apply descending_check|done].
Defined.

(** Inserting a span of new pages into a descending list: on success the
    list stays descending and gains exactly the pages of the span; the errors
    are lack of memory and a list that would be too long, and leave it alone. *)
Theorem pnl_insert_span_correct malloc p L x n :
  malloc_ok malloc -> opnl_holds p L -> descending L -> (0 < n)%nat -> Z.of_nat n <= PAGELIST_LIMIT ->
  0 <= x -> x + Z.of_nat n <= 2 ^ 32 -> (forall y, x <= y < x + Z.of_nat n -> y ∉ L) ->
  exists rc q, pnl_insert_span malloc p x n = Some (rc, q) /\
  (rc = MDBX_SUCCESS /\ (exists L', opnl_holds q L' /\ descending L' /\
    forall y, y ∈ L' <-> y ∈ L \/ x <= y < x + Z.of_nat n) \/
    (rc = MDBX_ENOMEM \/ rc = MDBX_TXN_FULL) /\ q = p).
Proof.
  intros Hm Hp Hd Hn HnL Hx Hmax Hfresh. destruct (descending_split L x Hd) as (A & B & -> & HA & HB).
  destruct (pnl_insert_span_spec malloc Hm p A B x n Hp HA HB Hn HnL Hx Hmax) as [(q & -> & Hq)|(err & -> & Herr)].
  - exists MDBX_SUCCESS, (Some q). split; [done|]. left. split; [done|]. eexists. split; [exact Hq|]. split.
    + by apply descending_insert_span.
    + intros y. rewrite !elem_of_app, elem_of_steps_down. split.
      * intros [?|[(i & Hi & ->)|?]]; [tauto| |tauto]. right. lia.
      * intros [[?|?]|Hy]; [tauto|tauto|]. right. left. exists (y - x). lia.
  - exists err, p. split; [done|]. right. done.
Qed.

Definition generous (bytes : Z) : option Z := Some bytes.
Lemma generous_ok : malloc_ok generous.
Proof. intros b u [= <-]. lia. Qed.

Lemma pnl_insert_span_correct_witness :
  exists rc q, pnl_insert_span generous None 5 3 = Some (rc, q) /\
  (rc = MDBX_SUCCESS /\ (exists L', opnl_holds q L' /\ descending L' /\ forall y, y ∈ L' <-> y ∈ ([] : list Z) \/ 5 <= y < 5 + Z.of_nat 3) \/
    (rc = MDBX_ENOMEM \/ rc = MDBX_TXN_FULL) /\ q = None).
Proof.
  apply pnl_insert_span_correct; [apply generous_ok|done|apply descending_nil|lia|unfold PAGELIST_LIMIT, MAX_PAGENO; lia|lia|lia|].
  intros y _. apply not_elem_of_nil.
Defined.

(** C25. Merging a descending list into another one with enough room, page sets
    disjoint: all the paths (append, prepend, the in-place backward merge that
    stops at a sentinel in the length cell) give the descending list of all
    pages and its length, inside the two buffers. *)
Theorem pnl_merge_correct (have_cmov : bool) dst src L M W :
  dst = Z.of_nat (length L) :: L ++ W -> holding src M -> (length M <= length W)%nat ->
  descending L -> descending M -> (forall x, x ∈ L -> x ∉ M) -> Forall pgno_ok M ->
  exists N W', pnl_merge have_cmov dst src = Some (Z.of_nat (length N) :: N ++ W', length N) /\
  N ≡ₚ L ++ M /\ descending N /\ (length N + length W' = length L + length W)%nat.
Proof.
  intros H1 H2 H3 H4 H5 H6 H7. destruct (pnl_merge_spec have_cmov dst src L M W H1 H2 H3 H4 H5 H6 H7) as (N & W' & E & [Hp Hd] & Hl).
  by exists N, W'.
Qed.

Lemma pnl_merge_correct_witness :
  exists N W', pnl_merge false [3; 9; 7; 4; 0; 0; 0] [2; 8; 3] = Some (Z.of_nat (length N) :: N ++ W', length N) /\
  N ≡ₚ [9; 7; 4; 8; 3] /\ descending N.
Proof.
  destruct (pnl_merge_correct false [3; 9; 7; 4; 0; 0; 0] [2; 8; 3] [9; 7; 4] [8; 3] [0; 0; 0]) as (N & W' & E & Hp & Hd & _).
  - done.
  - by exists [].
  - simpl. lia.
  - by apply descending_check.
  - by apply descending_check.
  - intros x. rewrite !elem_of_cons, elem_of_nil. lia.
  - repeat constructor; unfold pgno_ok, P_INVALID, UINT32_MAX; lia.
  - exists N, W'. split; [exact E|]. split; [exact Hp|exact Hd].
Defined.

(** Sorting a list of distinct pages: the quicksort below 142 pages and the
    radix sort from there on both leave the same pages in descending order. *)
Theorem pnl_sort_correct L W :
  Forall pgno_ok L -> NoDup L -> Z.of_nat (length L) < 2 ^ 32 -> (length L <= length W)%nat ->
  exists N W', pnl_sort_nochk (Z.of_nat (length L) :: L ++ W) = Some (Z.of_nat (length N) :: N ++ W') /\
  N ≡ₚ L /\ descending N /\ length W' = length W.
Proof. apply pnl_sort_nochk_spec. Qed.

Lemma pnl_sort_correct_witness :
  exists N W', pnl_sort_nochk [3; 4; 9; 7; 0; 0; 0] = Some (Z.of_nat (length N) :: N ++ W') /\ N ≡ₚ [4; 9; 7] /\ descending N.
Proof.
  destruct (pnl_sort_correct [4; 9; 7] [0; 0; 0]) as (N & W' & E & Hp & Hd & _).
  - repeat constructor; unfold pgno_ok, P_INVALID, UINT32_MAX; lia.
  - apply (bool_decide_unpack _). vm_compute. exact I.
  - simpl. lia.
  - simpl. lia.
  - exists N, W'. split; [exact E|]. split; [exact Hp|exact Hd].
Defined.

(** Cutting the pages of a range: the list keeps exactly the pages outside
    the range, in order, and the destination gets those inside it; when the
    destination cannot grow the list is left as it was. *)
Theorem pnl_cut_range_correct malloc (have_cmov : bool) c L p M rb re :
  malloc_ok malloc -> (exists W, c = Z.of_nat (length L) :: L ++ W /\ W <> []) -> descending L -> opnl_holds p M -> rb < re ->
  exists rc c' q, pnl_cut_range have_cmov malloc c p rb re = Some (rc, c', q) /\
  (rc = MDBX_SUCCESS /\ length c' = length c /\
    (exists A R B, L = A ++ R ++ B /\ holding c' (A ++ B) /\ opnl_holds q (M ++ R) /\
      (forall y, y ∈ R <-> y ∈ L /\ rb <= y < re)) \/
    (rc = MDBX_ENOMEM \/ rc = MDBX_TXN_FULL) /\ c' = c).
Proof.
  intros Hm Hc Hd Hp Hr. destruct (pnl_cut_range_spec malloc Hm have_cmov c L p M rb re Hc Hd Hp Hr)
    as (A & R & B & E & HA & HR & [(c' & q & -> & Hc' & Hl & Hq & HB)|(err & q & -> & Hq & Herr)]).
  - exists MDBX_SUCCESS, c', q. split; [done|]. left. split; [done|]. split; [done|]. exists A, R, B. split_and!; try done.
    rewrite Forall_forall in HA, HR, HB. intros y. rewrite E, !elem_of_app. split; [intros Hy; split; [tauto|by apply HR]|].
    intros [[Hy|[Hy|Hy]] Hlim]; [specialize (HA y Hy); simpl in HA; lia|done|specialize (HB y Hy); simpl in HB; lia].
  - exists err, c, q. split; [done|]. right. done.
Qed.

Lemma pnl_cut_range_correct_witness :
  exists rc c' q, pnl_cut_range true generous [4; 9; 8; 5; 3; 0] None 5 9 = Some (rc, c', q).
Proof.
  destruct (pnl_cut_range_correct generous true [4; 9; 8; 5; 3; 0] [9; 8; 5; 3] None [] 5 9) as (rc & c' & q & E & _).
  - apply generous_ok.
  - by exists [0].
  - by apply descending_check.
  - done.
  - lia.
  - exists rc, c', q. exact E.
Defined.

(** Sifting: the list loses exactly the pages of the other list and keeps
    the order of the rest. *)
Theorem pnl_sift_correct (have_cmov : bool) fo L F W :
  W <> [] -> holding fo F -> descending L -> descending F ->
  exists W', pnl_sift have_cmov (Z.of_nat (length L) :: L ++ W) fo =
  Some (Z.of_nat (length (filter (fun x => x ∉ F) L)) :: filter (fun x => x ∉ F) L ++ W').
Proof.
  intros HW Hfo HL HF. destruct (pnl_sift_spec have_cmov _ fo L F W eq_refl HW Hfo HL HF) as (W' & E & _). by exists W'.
Qed.

Lemma pnl_sift_correct_witness : exists W', pnl_sift true [4; 9; 8; 5; 3; 0] [3; 10; 8; 3] = Some (2 :: [9; 5] ++ W').
Proof.
  destruct (pnl_sift_correct true [3; 10; 8; 3] [9; 8; 5; 3] [10; 8; 3] [0]) as (W' & E).
  - done.
  - by exists [].
  - by apply descending_check.
  - by apply descending_check.
  - exists W'. exact E.
Defined.

(** The scanner which compares four cells per iteration finds the same
    sequence as the reference scanner that compares one. *)
Theorem scan4seq_is_reference c L (seq : nat) :
  holding c L -> descending L -> Forall pgno_ok L -> (0 < seq)%nat -> (seq < length L)%nat -> Z.of_nat (length L) < 2 ^ 32 ->
  scan4seq_fallback c (Z.of_nat (length L)) (Z.of_nat (length L)) (Z.of_nat seq) = scan4range_checker c seq.
Proof. intros. by apply scan4seq_is_checker. Qed.

Lemma scan4seq_is_reference_witness :
  scan4seq_fallback [6; 20; 19; 18; 9; 8; 5] 6 6 1 = scan4range_checker [6; 20; 19; 18; 9; 8; 5] 1.
Proof.
  apply (scan4seq_is_reference _ [20; 19; 18; 9; 8; 5] 1); [by exists []|by apply descending_check| |lia|simpl; lia|simpl; lia].
  repeat constructor; unfold pgno_ok, P_INVALID, UINT32_MAX; lia.
Defined.

(** C24. A request for several consecutive reusable pages (without the flag
    ALLOC_EXACTLY): it is refused exactly when the list holds no such run;
    otherwise it gets the run with the least page numbers, which leaves the list
    unless only a reservation was asked for. *)
Theorem repnl_get_sequence_correct L W (num : nat) flags :
  descending L -> Forall (fun x => MIN_PAGENO <= x < P_INVALID) L -> (1 < num <= length L)%nat ->
  Z.land flags ALLOC_EXACTLY = 0 ->
  exists pgno c', gc_repnl_get_sequence (Z.of_nat (length L) :: L ++ W) num flags = Some (pgno, c') /\
  ((pgno = 0 /\ c' = Z.of_nat (length L) :: L ++ W /\ forall p, ~ has_run L p num) \/
    (took (Z.of_nat (length L) :: L ++ W) L num flags pgno c' /\ forall p, has_run L p num -> pgno <= p)).
Proof. intros Hd Hok Hnum Hf. by apply (get_sequence_spec _ L W eq_refl Hd Hok). Qed.

Lemma repnl_get_sequence_correct_witness :
  exists pgno c', gc_repnl_get_sequence [6; 20; 19; 18; 9; 8; 5] 3 0 = Some (pgno, c').
Proof.
  destruct (repnl_get_sequence_correct [20; 19; 18; 9; 8; 5] [] 3 0) as (pgno & c' & E & _).
  - by apply descending_check.
  - repeat constructor; unfold MIN_PAGENO, NUM_METAS, P_INVALID, UINT32_MAX; lia.
  - simpl. lia.
  - done.
  - exists pgno, c'. exact E.
Defined.

(** The best fitting sequence: no answer exactly when no maximal run holds
    [seq] pages below the limit; otherwise the pages come off the low end of a
    shortest such run and leave the list. *)
Theorem pnl_best_sequence_correct L W (seq : nat) detent :
  descending L -> Forall (fun x => MIN_PAGENO <= x <= MAX_PAGENO) L -> (0 < seq)%nat -> Z.of_nat seq <= detent < 2 ^ 64 ->
  exists pgno c', pnl_get_best_sequence (Z.of_nat (length L) :: L ++ W) seq detent = Some (pgno, c') /\
  ((pgno = 0 /\ c' = Z.of_nat (length L) :: L ++ W /\ forall p m, maxrun L p m -> ~ good seq detent p m) \/
    (exists A B m, L = A ++ steps_down pgno 1 seq ++ B /\ pgno <> 0 /\ holding c' (A ++ B) /\
      maxrun L pgno m /\ good seq detent pgno m /\ forall p m', maxrun L p m' -> good seq detent p m' -> (m <= m')%nat)).
Proof.
  intros Hd Hok Hs Hdet.
  destruct (best_sequence_spec _ L W eq_refl Hd Hok seq detent Hs Hdet) as (pgno & c' & E & [H|(A & B & m & H1 & H2 & H3 & _ & H4)]);
    exists pgno, c'; (split; [exact E|]); [by left|]. right. exists A, B, m. tauto.
Qed.

Lemma pnl_best_sequence_correct_witness :
  exists pgno c', pnl_get_best_sequence [6; 20; 19; 18; 9; 8; 5] 2 1000 = Some (pgno, c').
Proof.
  destruct (pnl_best_sequence_correct [20; 19; 18; 9; 8; 5] [] 2 1000) as (pgno & c' & E & _).
  - by apply descending_check.
  - repeat constructor; unfold MIN_PAGENO, NUM_METAS, MAX_PAGENO; lia.
  - lia.
  - lia.
  - exists pgno, c'. exact E.
Defined.

(** The longest span of a descending list is the length of its longest run
    of consecutive pages. *)
Theorem pnl_maxspan_correct c L :
  holding c L -> descending L -> Forall pgno_ok L ->
  exists m, pnl_maxspan c = Some m /\ (L <> [] -> exists p, has_run L p m) /\ (forall p n, has_run L p n -> (n <= m)%nat).
Proof. intros Hc Hd Hok. by apply pnl_maxspan_spec. Qed.

Lemma pnl_maxspan_correct_witness : exists m, pnl_maxspan [6; 20; 19; 18; 9; 8; 5] = Some m /\ (m <= 100)%nat.
Proof.
  destruct (pnl_maxspan_correct [6; 20; 19; 18; 9; 8; 5] [20; 19; 18; 9; 8; 5]) as (m & E & _).
  - by exists [].
  - by apply descending_check.
  - repeat constructor; unfold pgno_ok, P_INVALID, UINT32_MAX; lia.
  - exists m. split; [exact E|]. vm_compute in E. injection E as <-. lia.
Defined.

(** The flag ALLOC_EXACTLY is not honoured behind the fast path: the test
    that should notice a longer run compares the next cell, which holds a smaller
    page, so two pages are cut from the middle of a run of three. *)
Theorem repnl_exactly_cuts_longer_run :
  exists c L, holding c L /\ descending L /\ has_run L 18 3 /\
  gc_repnl_get_sequence c 2 ALLOC_EXACTLY = Some (18, [2; 20; 5; 18; 5]).
Proof.
  exists [4; 20; 19; 18; 5], [20; 19; 18; 5]. split_and!.
  - by exists [].
  - by apply descending_check.
  - intros k Hk. rewrite !elem_of_cons. lia.
  - vm_compute. reflexivity.
Qed.
