(* ===== verification/Dpl.v ===== *)
(** * The list of dirty pages of a write transaction (dpl)

    [dpl_t] of mdbx.c: a lazily sorted array of entries, one for every page that
    the transaction has in memory.  [items[1 .. length]] are the entries, of which
    [items[1 .. sorted]] are in ascending order of page numbers; a stub with page
    number 0 is in front of them and one with [P_INVALID] behind them.  The
    entries are in one list of cells with the stubs and the free space, because
    the code sorts and merges in place and uses the space behind the data.  The
    least-recently-used stamps, which the code keeps in front of every page, are
    a map from the pages, and the pages kept for reuse ([shadow_reserve]) a list. *)

From S2P Require Import Prelude Search Sort Radix Pnl.

Definition CURSOR_STACK_SIZE : Z := 16 + 64 / 4.
Definition dpl_gap_edging : nat := 2.
Definition dpl_gap_mergesort : nat := 16.
Definition dpl_reserve_gap : nat := dpl_gap_mergesort + dpl_gap_edging.
Definition dpl_insertion_threshold : nat := 42.

(** Where [dp_t.ptr] points to: a stub or a page in memory. *)
Inductive page_ptr := dpl_stub_pageB | dpl_stub_pageE | shadow_page (addr : Z).

Record dp_t := mk_dp { ptr : page_ptr; pgno : Z; npages : Z }.

Definition dpl_stubB : dp_t := mk_dp dpl_stub_pageB 0 1.
Definition dpl_stubE : dp_t := mk_dp dpl_stub_pageE P_INVALID 1.

Record dpl_t := mk_dpl {
  sorted : nat;
  dl_length : nat;
  pages_including_loose : Z;
  detent : Z;
  items : list dp_t
}.

(** The part of the environment for pages in memory. *)
Record shadow_env := mk_shadow {
  shadow_reserve : list page_ptr;
  shadow_reserve_len : Z;
  dp_reserve_limit : Z;
  freed : list page_ptr
}.

(** The part of a write transaction that the list of dirty pages works on. *)
Record dtxn := mk_dtxn {
  dirtylist : dpl_t;
  dirtylru : Z;
  dirtyroom : Z;
  lru_stamp : page_ptr -> Z;
  txn_env : shadow_env
}.

#[export] Instance page_ptr_eq_dec : EqDecision page_ptr.
Proof. solve_decision. Defined.

Definition with_items (dl : dpl_t) (c : list dp_t) : dpl_t :=
  mk_dpl (sorted dl) (dl_length dl) (pages_including_loose dl) (detent dl) c.
Definition with_sorted (dl : dpl_t) (s : nat) : dpl_t :=
  mk_dpl s (dl_length dl) (pages_including_loose dl) (detent dl) (items dl).
Definition with_dirtylist (t : dtxn) (dl : dpl_t) : dtxn :=
  mk_dtxn dl (dirtylru t) (dirtyroom t) (lru_stamp t) (txn_env t).

Definition set_stamp (f : page_ptr -> Z) (p : page_ptr) (v : Z) : page_ptr -> Z :=
  fun q => if decide (q = p) then v else f q.

Definition dpl_setlen (dl : dpl_t) (len : nat) : option dpl_t :=
  c ← wr (items dl) (len + 1) dpl_stubE;
  Some (mk_dpl (sorted dl) len (pages_including_loose dl) (detent dl) c).

Definition dpl_init (dl : dpl_t) : option dpl_t :=
  c ← wr (items dl) 0 dpl_stubB;
  dl ← dpl_setlen (mk_dpl (sorted dl) (dl_length dl) 0 (detent dl) c) 0;
  Some (with_sorted dl 0).

(** The sizes of [dpl_t], of its part in front of [items], and of an entry. *)
Definition sizeof_dp_t : Z := 16.
Definition offsetof_items : Z := 32.
Definition sizeof_dpl_t : Z := offsetof_items + Z.of_nat dpl_reserve_gap * sizeof_dp_t.

Definition dpl_size2bytes (size : Z) : Z :=
  ceil_powerof2 (MDBX_ASSUME_MALLOC_OVERHEAD + sizeof_dpl_t + (size + size) * sizeof_dp_t)
    (MDBX_PNL_GRANULATE * 8 * 2) - MDBX_ASSUME_MALLOC_OVERHEAD.
Definition dpl_bytes2size (bytes : Z) : Z := Z.shiftr (u64 (bytes - sizeof_dpl_t) / sizeof_dp_t) 1.

(** The entries that a block of [bytes] bytes has room for. *)
Definition dpl_block_items (bytes : Z) : nat := Z.to_nat ((bytes - offsetof_items) / sizeof_dp_t).

Section memory.
Context (malloc : Z -> option Z).

Definition txn_dpl_reserve (dirtylist : option dpl_t) (size : Z) : option dpl_t :=
  bytes ← malloc (dpl_size2bytes (if decide (size < PAGELIST_LIMIT) then size else PAGELIST_LIMIT));
  let detent := dpl_bytes2size bytes in
  match dirtylist with
  | None => Some (mk_dpl 0 0 0 detent (replicate (dpl_block_items bytes) dpl_stubB))
  | Some dl => Some (mk_dpl (sorted dl) (dl_length dl) (pages_including_loose dl) detent
    (resize (dpl_block_items bytes) dpl_stubB (items dl)))
  end.

Definition txn_dpl_alloc (nested : bool) (dp_initial geo_upper : Z) (dirtylist : option dpl_t)
  : option (Z * option dpl_t) :=
  let wanna := if nested then CURSOR_STACK_SIZE else if decide (dp_initial < geo_upper) then dp_initial else geo_upper in
  let keep := match dirtylist with
              | Some dl => negb (bool_decide (detent dl < wanna) || bool_decide (detent dl > wanna + wanna))
              | None => false
              end in
  match (if keep then dirtylist else txn_dpl_reserve dirtylist wanna) with
  | None => Some (MDBX_ENOMEM, dirtylist)
  | Some dl => dl ← dpl_init dl; Some (MDBX_SUCCESS, Some dl)
  end.
End memory.

(** ** Sorting and searching *)

(** A [pgno_t]: 32 bits. *)
Definition MDBX_DPL_EXTRACT_KEY (dp : dp_t) : Z := u32 (pgno dp).
Definition dp_radixsort (c : list dp_t) (begin length : nat) : option (list dp_t) :=
  radixsort MDBX_DPL_EXTRACT_KEY 1 c begin length.
Definition DP_SORT_CMP (first last : dp_t) : bool := pgno first <? pgno last.
Definition dp_sort (c : list dp_t) (begin end_ : Z) : option (list dp_t) := SORT DP_SORT_CMP c begin end_.
Definition DP_SEARCH_CMP (dp : dp_t) (id : Z) : bool := pgno dp <? id.

(** The merging loop of [txn_dpl_sort_slowpath], from the end to the beginning. *)
Fixpoint dpl_merge_loop (fuel : nat) (c : list dp_t) (w l r : nat) : option (list dp_t) :=
  match fuel with
  | O => None
  | S fuel =>
      x ← rd c l; y ← rd c r;
      let cmp := pgno x >? pgno y in
      c ← wr c w (if cmp then x else y);
      let l := if cmp then Nat.pred l else l in
      let r := if cmp then r else Nat.pred r in
      if decide (l < Nat.pred w)%nat then dpl_merge_loop fuel c (Nat.pred w) l r else Some c
  end.

(** The unsorted entries are copied to the end of the space, sorted there and
    merged with the sorted ones. *)
Definition dpl_merge_tail (dl : dpl_t) : option (list dp_t) :=
  let unsorted := (dl_length dl - sorted dl)%nat in
  let end_ := (dl_length dl + dl_length dl + 1)%nat in
  let tmp := (end_ - unsorted)%nat in
  c ← blit (items dl) (1 + sorted dl) (items dl) tmp unsorted;
  c ← dp_sort c (Z.of_nat tmp) (Z.of_nat tmp + Z.of_nat unsorted);
  dpl_merge_loop (S (dl_length dl)) c (dl_length dl) (sorted dl) (end_ - 1).

Definition txn_dpl_sort_slowpath (dl : dpl_t) : option dpl_t :=
  let unsorted := (dl_length dl - sorted dl)%nat in
  c ← (if decide (Z.of_nat unsorted < MDBX_RADIXSORT_THRESHOLD) then
         if decide (unsorted / 4 + 4 < sorted dl)%nat then dpl_merge_tail dl
         else dp_sort (items dl) 1 (Z.of_nat (dl_length dl) + 1)
       else dp_radixsort (items dl) 1 (dl_length dl));
  Some (with_sorted (with_items dl c) (dl_length dl)).

Definition txn_dpl_sort (dl : dpl_t) : option dpl_t :=
  if decide (sorted dl = dl_length dl) then Some dl else txn_dpl_sort_slowpath dl.

(** The cases of [txn_dpl_search] for a few unsorted entries, the last [n] ones. *)
Fixpoint LINEAR_SEARCH_CASE (n : nat) (dl : dpl_t) (id : Z) : option (option nat) :=
  match n with
  | O => Some None
  | S n' =>
      x ← rd (items dl) (dl_length dl - n + 1);
      if decide (pgno x = id) then Some (Some (dl_length dl - n + 1)%nat) else LINEAR_SEARCH_CASE n' dl id
  end.

Section search.
Context (have_cmov : bool).

Definition dp_bsearch (c : list dp_t) (begin length : nat) (id : Z) : option nat :=
  bsearch DP_SEARCH_CMP have_cmov c begin length id.

(** The search sorts the list when too many entries are unsorted. *)
Definition txn_dpl_search (dl : dpl_t) (id : Z) : option (nat * dpl_t) :=
  let unsorted := (dl_length dl - sorted dl)%nat in
  if decide (7 < unsorted)%nat then
    dl ← txn_dpl_sort_slowpath dl;
    i ← dp_bsearch (items dl) 1 (sorted dl) id;
    Some (i, dl)
  else
    found ← LINEAR_SEARCH_CASE unsorted dl id;
    match found with
    | Some i => Some (i, dl)
    | None => i ← dp_bsearch (items dl) 1 (sorted dl) id; Some (i, dl)
    end.

Definition txn_dpl_exist (dl : dpl_t) (id : Z) : option (nat * dpl_t) :=
  '(i, dl) ← txn_dpl_search dl id;
  x ← rd (items dl) i;
  Some (if decide (pgno x = id) then i else O, dl).

Definition dpl_npages (dl : dpl_t) (i : nat) : option Z := x ← rd (items dl) i; Some (npages x).
Definition dpl_endpgno (dl : dpl_t) (i : nat) : option Z := x ← rd (items dl) i; Some (u32 (npages x + pgno x)).

Definition txn_dpl_intersect (dl : dpl_t) (id n_pages : Z) : option (bool * dpl_t) :=
  '(n, dl) ← txn_dpl_search dl id;
  x ← rd (items dl) n;
  e ← dpl_endpgno dl (n - 1);
  Some (bool_decide (u64 (id + n_pages) > pgno x) || bool_decide (e > id), dl).

(** [for (i = length; i > sorted; --i)] with [n = i - sorted] *)
Fixpoint find_unsorted (n : nat) (dl : dpl_t) (id : Z) : option (option page_ptr) :=
  match n with
  | O => Some None
  | S n => x ← rd (items dl) (sorted dl + S n); if decide (pgno x = id) then Some (Some (ptr x)) else find_unsorted n dl id
  end.

Definition debug_txn_dpl_find (dl : dpl_t) (id : Z) : option (option page_ptr) :=
  found ← find_unsorted (dl_length dl - sorted dl) dl id;
  match found with
  | Some p => Some (Some p)
  | None =>
      if decide (sorted dl <> 0)%nat then
        i ← dp_bsearch (items dl) 1 (sorted dl) id;
        x ← rd (items dl) i;
        Some (if decide (pgno x = id) then Some (ptr x) else None)
      else Some None
  end.

(** ** Adding and removing *)

Definition txn_dpl_remove_ex (dl : dpl_t) (i : nat) (n_pages : Z) : option dpl_t :=
  let pages := u64 (pages_including_loose dl - n_pages) in
  let s := if decide (i <= sorted dl)%nat then Nat.pred (sorted dl) else sorted dl in
  let len := Nat.pred (dl_length dl) in
  c ← blit (items dl) (i + 1) (items dl) i (len + 2 - i);
  Some (mk_dpl s len pages (detent dl) c).

Definition txn_dpl_remove (dl : dpl_t) (i : nat) : option dpl_t :=
  n ← dpl_npages dl i; txn_dpl_remove_ex dl i n.

(** [while (i >= items + sorted) { i[1] = *i; --i; }], [n] times *)
Fixpoint shift_unsorted (n : nat) (c : list dp_t) (i : nat) : option (list dp_t) :=
  match n with
  | O => Some c
  | S n => x ← rd c i; c ← wr c (i + 1) x; shift_unsorted n c (Nat.pred i)
  end.

(** [while (i->pgno > pgno) { i[1] = *i; --i; }] *)
Fixpoint shift_sorted (fuel : nat) (c : list dp_t) (i : nat) (id : Z) : option (list dp_t * nat) :=
  match fuel with
  | O => None
  | S fuel =>
      x ← rd c i;
      if decide (pgno x > id) then c ← wr c (i + 1) x; shift_sorted fuel c (Nat.pred i) id else Some (c, i)
  end.

(** The part of [txn_dpl_append] behind the check of the capacity. *)
Definition dpl_put (dl : dpl_t) (dp : dp_t) : option dpl_t :=
  let i := dl_length dl in
  let pages := u64 (pages_including_loose dl + npages dp) in
  let pivot := Z.of_nat (dl_length dl) - Z.of_nat dpl_insertion_threshold in
  pv ← rd (items dl) (if decide (dl_length dl < dpl_insertion_threshold)%nat then 0
                      else dl_length dl - dpl_insertion_threshold)%nat;
  stub ← rd (items dl) (i + 1);
  c ← wr (items dl) (i + 2) stub;
  let len := S (dl_length dl) in
  let near := if have_cmov then bool_decide (pgno pv < pgno dp)
              else bool_decide (pivot <= 0) || bool_decide (pgno pv < pgno dp) in
  if bool_decide (pivot <= Z.of_nat (sorted dl)) && near then
    let s := S (sorted dl) in
    c ← shift_unsorted (S i - s) c i;
    '(c, i) ← shift_sorted (S s) c (Nat.pred s) (pgno dp);
    c ← wr c (i + 1) dp;
    Some (mk_dpl s len pages (detent dl) c)
  else
    c ← wr c (i + 1) dp;
    Some (mk_dpl (sorted dl) len pages (detent dl) c).

Definition txn_dpl_append (malloc : Z -> option Z) (t : dtxn) (id : Z) (page : page_ptr) (n_pages : Z)
  : option (Z * dtxn) :=
  let dp := mk_dp page id (u32 n_pages) in
  let t := mk_dtxn (dirtylist t) (dirtylru t) (dirtyroom t) (set_stamp (lru_stamp t) page (dirtylru t)) (txn_env t) in
  let dl := dirtylist t in
  if decide (Z.of_nat (dl_length dl) = detent dl) then
    if decide (detent dl >= PAGELIST_LIMIT) then Some (MDBX_TXN_FULL, t)
    else
      let size := if decide (detent dl < MDBX_PNL_INITIAL * 42) then detent dl + detent dl
                  else detent dl + detent dl / 2 in
      match txn_dpl_reserve malloc (Some dl) size with
      | None => Some (MDBX_ENOMEM, t)
      | Some dl => dl ← dpl_put dl dp; Some (MDBX_SUCCESS, with_dirtylist t dl)
      end
  else dl ← dpl_put dl dp; Some (MDBX_SUCCESS, with_dirtylist t dl).

(** ** Pages in memory *)

(** [page_shadow_alloc] without the contents of the page; the second argument is
    what [osal_malloc] gives. *)
Definition page_shadow_alloc (e : shadow_env) (num : Z) (fresh : option page_ptr) : option page_ptr * shadow_env :=
  match shadow_reserve e with
  | np :: rest =>
      if decide (num = 1) then (Some np, mk_shadow rest (u32 (shadow_reserve_len e - 1)) (dp_reserve_limit e) (freed e))
      else (fresh, e)
  | [] => (fresh, e)
  end.

Definition page_shadow_release (e : shadow_env) (p : page_ptr) (n_pages : Z) : shadow_env :=
  if bool_decide (n_pages = 1) && bool_decide (shadow_reserve_len e < dp_reserve_limit e) then
    mk_shadow (p :: shadow_reserve e) (u32 (shadow_reserve_len e + 1)) (dp_reserve_limit e) (freed e)
  else mk_shadow (shadow_reserve e) (shadow_reserve_len e) (dp_reserve_limit e) (p :: freed e).

Fixpoint release_items (n : nat) (e : shadow_env) (c : list dp_t) (i : nat) : option shadow_env :=
  match n with
  | O => Some e
  | S n => x ← rd c i; release_items n (page_shadow_release e (ptr x) (npages x)) c (S i)
  end.

Definition txn_dpl_clear (nested : bool) (t : dtxn) : option dtxn :=
  e ← (if nested then Some (txn_env t) else release_items (dl_length (dirtylist t)) (txn_env t) (items (dirtylist t)) 1);
  dl ← dpl_setlen (dirtylist t) 0;
  Some (mk_dtxn dl (dirtylru t) (dirtyroom t) (lru_stamp t) e).

(** [page_wash]: a dirty page is dropped from the list and released. *)
Definition page_wash (t : dtxn) (di : nat) (mp : page_ptr) (n_pages : Z) : option dtxn :=
  dl ← txn_dpl_remove_ex (dirtylist t) di n_pages;
  Some (mk_dtxn dl (dirtylru t) (u64 (dirtyroom t + 1)) (lru_stamp t) (page_shadow_release (txn_env t) mp n_pages)).

(** ** Ages *)

Definition txn_dpl_age (t : dtxn) (i : nat) : option Z :=
  x ← rd (items (dirtylist t)) i; Some (u32 (dirtylru t - u32 (lru_stamp t (ptr x)))).

Fixpoint halve_stamps (n : nat) (f : page_ptr -> Z) (c : list dp_t) (i : nat) : option (page_ptr -> Z) :=
  match n with
  | O => Some f
  | S n => x ← rd c i; halve_stamps n (set_stamp f (ptr x) (Z.shiftr (f (ptr x)) 1)) c (S i)
  end.

(** The transaction and then its parents; the stamps are in the pages they share. *)
Fixpoint txn_dpl_lru_reduce (txns : list (Z * dpl_t)) (f : page_ptr -> Z) : option (list (Z * dpl_t) * (page_ptr -> Z)) :=
  match txns with
  | [] => Some ([], f)
  | (lru, dl) :: parents =>
      f ← halve_stamps (dl_length dl) f (items dl) 1;
      '(parents, f) ← txn_dpl_lru_reduce parents f;
      Some ((Z.shiftr lru 1, dl) :: parents, f)
  end.

Definition txn_dpl_lru_turn (lru : Z) (dl : dpl_t) (parents : list (Z * dpl_t)) (f : page_ptr -> Z)
  : option (list (Z * dpl_t) * (page_ptr -> Z)) :=
  let lru := u32 (lru + 1) in
  if decide (lru > UINT32_MAX / 3) then txn_dpl_lru_reduce ((lru, dl) :: parents) f
  else Some ((lru, dl) :: parents, f).

(** ** Sifting *)

(** [while (r <= length) items[w++] = items[r++]], [n] times *)
Fixpoint move_items (n : nat) (c : list dp_t) (w r : nat) : option (list dp_t) :=
  match n with
  | O => Some c
  | S n => x ← rd c r; c ← wr c w x; move_items n c (S w) (S r)
  end.

(** The update loop of [txn_dpl_sift].  The page numbers are scanned from the cell
    [i] down to the first one; the result has the cells, [w], the pages that
    are left and the environment. *)
Fixpoint dpl_sift_update (fuel : nat) (c : list dp_t) (pl : list Z) (spilled : Z) (w r i len : nat) (pages : Z)
  (e : shadow_env) : option (list dp_t * nat * Z * shadow_env) :=
    match fuel with
    | O => None
    | S fuel =>
        if decide (i = 0)%nat then
          c ← move_items (S len - r) c w r; Some (c, (w + (S len - r))%nat, pages, e)
        else if decide (r <= len)%nat then
          p ← rd pl i;
          let pl_pgno := Z.shiftr p spilled in
          x ← rd c r;
          if decide (pgno x < pl_pgno) then
            c ← wr c w x; dpl_sift_update fuel c pl spilled (S w) (S r) i len pages e
          else if decide (pgno x > pl_pgno) then dpl_sift_update fuel c pl spilled w r (Nat.pred i) len pages e
          else dpl_sift_update fuel c pl spilled w (S r) (Nat.pred i) len (u64 (pages - npages x))
              (page_shadow_release e (ptr x) (npages x))
        else Some (c, w, pages, e)
    end.

(** The scan loop: [Some (r, i)] is the first entry that is in the list of pages. *)
Fixpoint dpl_sift_scan (fuel : nat) (c : list dp_t) (pl : list Z) (spilled : Z) (r i len : nat) : option (option (nat * nat)) :=
  match fuel with
  | O => None
  | S fuel =>
      if decide (r <= len)%nat then
        p ← rd pl i;
        let pl_pgno := Z.shiftr p spilled in
        x ← rd c r;
        if decide (pgno x <> pl_pgno) then
          let cmp := pgno x <? pl_pgno in
          let r := if cmp then S r else r in
          let i := if cmp then i else Nat.pred i in
          if decide (i <> 0)%nat then dpl_sift_scan fuel c pl spilled r i len else Some None
        else Some (Some (r, i))
      else Some None
  end.

Definition txn_dpl_sift (t : dtxn) (pl : list Z) (spilled : bool) : option dtxn :=
  if decide (pnl_size pl <> 0 /\ dl_length (dirtylist t) <> 0)%nat then
    let sp := if spilled then 1 else 0 in
    dl ← txn_dpl_sort (dirtylist t);
    let begin := pnl_size pl in
    p ← rd pl begin;
    '(r, dl) ← txn_dpl_search dl (Z.shiftr p sp);
    let len := dl_length dl in
    found ← dpl_sift_scan (S (S len + begin)) (items dl) pl sp r begin len;
    match found with
    | None => Some (with_dirtylist t dl)
    | Some (r, i) =>
        x ← rd (items dl) r;
        '(c, w, pages, e) ← dpl_sift_update (S (S len + begin)) (items dl) pl sp r (S r) (Nat.pred i) len
          (u64 (pages_including_loose dl - npages x)) (page_shadow_release (txn_env t) (ptr x) (npages x));
        dl ← dpl_setlen (mk_dpl (sorted dl) len pages (detent dl) c) (w - 1);
        Some (mk_dtxn (with_sorted dl (w - 1)) (dirtylru t) (u64 (dirtyroom t + (Z.of_nat (S len) - Z.of_nat w))) (lru_stamp t) e)
    end
  else Some t.
End search.
