(* ===== verification/DplFacts.v ===== *)
(** * The list of dirty pages: its invariant, sorting and searching *)

From S2P Require Import Prelude Search Sort Radix Pnl PnlFacts Dpl.

(** ** The invariant *)

Abbreviation pgnos := (fmap (M := list) pgno).
Definition pages_of (l : list dp_t) : Z := foldr (fun x s => npages x + s) 0 l.
Definition pgno_used (x : Z) : Prop := 0 < x < P_INVALID.

(** The sorted entries [S] and the unsorted entries [U] are in the list. *)
Record dpl_holds (dl : dpl_t) (S U : list dp_t) : Prop := {
  dh_items : exists W, items dl = dpl_stubB :: S ++ U ++ dpl_stubE :: W;
  dh_sorted : sorted dl = length S;
  dh_length : dl_length dl = (length S + length U)%nat;
  dh_ascending : ascending (pgnos S);
  dh_unique : NoDup (pgnos (S ++ U));
  dh_used : Forall pgno_used (pgnos (S ++ U));
  dh_pages : pages_including_loose dl = u64 (pages_of (S ++ U));
  dh_cap : Z.of_nat (dl_length dl) <= detent dl;
  dh_room : 2 * detent dl + 18 <= Z.of_nat (length (items dl));
  dh_limit : 2 <= detent dl < 2 ^ 32
}.

Section entries.
Implicit Types (L M N A B G S U W X : list dp_t).

Lemma pages_of_app L M : pages_of (L ++ M) = pages_of L + pages_of M.
Proof. induction L as [|x L IH]; simpl; [done|]. rewrite IH. lia. Qed.

Lemma pages_of_perm L M : L ≡ₚ M -> pages_of L = pages_of M.
Proof. induction 1; simpl; lia. Qed.

Lemma ascending_of_weak N :
  NoDup (pgnos N) -> (forall i j x y, (i < j)%nat -> N !! i = Some x -> N !! j = Some y -> pgno x <= pgno y) ->
  ascending (pgnos N).
Proof.
  intros Hnd H i j x y Hij Hi Hj. pose proof Hi as Hi'. pose proof Hj as Hj'.
  rewrite list_lookup_fmap in Hi, Hj. destruct (N !! i) eqn:Ei; [|done]. destruct (N !! j) eqn:Ej; [|done]. simplify_eq/=.
  specialize (H _ _ _ _ Hij Ei Ej). enough (pgno d <> pgno d0) by lia. intros E. rewrite E in Hi'.
  pose proof (NoDup_lookup _ _ _ _ Hnd Hi' Hj'). lia.
Qed.

Lemma ascending_pgnos_split L v :
  ascending (pgnos L) ->
  exists A B, L = A ++ B /\ Forall (fun x => pgno x < v) A /\ Forall (fun x => v <= pgno x) B.
Proof.
  induction L as [|x L IH]; intros Hl; [by exists [], []|].
  rewrite fmap_cons, ascending_cons in Hl. destruct Hl as [Hx Hl]. destruct (IH Hl) as (A & B & -> & HA & HB).
  destruct (decide (pgno x < v)).
  - exists (x :: A), B. split_and!; [done|by constructor|done].
  - exists [], (x :: A ++ B). split_and!; [done|constructor|].
    constructor; [lia|]. rewrite Forall_fmap in Hx. eapply Forall_impl; [exact Hx|]. simpl. lia.
Qed.

Lemma ascending_pgnos_app L M :
  ascending (pgnos (L ++ M)) <->
  ascending (pgnos L) /\ ascending (pgnos M) /\ (forall x y, x ∈ L -> y ∈ M -> pgno x < pgno y).
Proof.
  rewrite fmap_app, ascending_app. split; intros (H1 & H2 & H3); split_and!; try done.
  - intros x y Hx Hy. apply H3; by apply list_elem_of_fmap_2.
  - intros x y (x' & -> & Hx)%list_elem_of_fmap (y' & -> & Hy)%list_elem_of_fmap. auto.
Qed.

(** Entries of a part of the buffer by their place in it. *)
Lemma rd_cons_app_at (x0 : dp_t) L x W i : i = S (length L) -> rd (x0 :: L ++ x :: W) i = Some x.
Proof. intros ->. change (x0 :: L ++ x :: W) with ((x0 :: L) ++ x :: W). unfold rd. by rewrite lookup_app_r, Nat.sub_diag by (simpl; lia). Qed.

Lemma rd_app_at' (L : list dp_t) x W i : i = length L -> rd (L ++ x :: W) i = Some x.
Proof. intros ->. unfold rd. by rewrite lookup_app_r, Nat.sub_diag by lia. Qed.

Lemma wr_app_at' (L : list dp_t) x W i v : i = length L -> wr (L ++ x :: W) i v = Some (L ++ v :: W).
Proof.
  intros ->. rewrite wr_Some by (rewrite length_app; simpl; lia). by rewrite insert_app_r_alt, Nat.sub_diag by lia.
Qed.

(** ** Sorting *)

#[export] Instance DP_SORT_CMP_strict_weak : StrictWeak DP_SORT_CMP.
Proof. split; unfold DP_SORT_CMP; intros; lia. Qed.

Lemma dp_sort_spec (P L Q : list dp_t) (b e : Z) :
  b = Z.of_nat (length P) -> e = b + Z.of_nat (length L) -> e < 2 ^ 64 -> NoDup (pgnos L) ->
  exists N, dp_sort (P ++ L ++ Q) b e = Some (P ++ N ++ Q) /\ N ≡ₚ L /\ ascending (pgnos N).
Proof.
  intros -> -> Hmax Hnd. destruct (SORT_middle DP_SORT_CMP P L Q) as (N & E & Hp & Ho); [lia|].
  exists N. split; [exact E|]. split; [done|]. apply ascending_of_weak; [by rewrite Hp|].
  intros i j x y Hij Hi Hj. specialize (Ho _ _ _ _ Hij Hi Hj). unfold DP_SORT_CMP in Ho. lia.
Qed.

Lemma dp_radixsort_spec (P L Q : list dp_t) e :
  L <> [] -> Z.of_nat (length L) < 2 ^ 32 -> (1 + length L <= length Q)%nat ->
  NoDup (pgnos L) -> Forall pgno_used (pgnos L) -> Q !! 0%nat = Some e ->
  exists N Q', dp_radixsort (P ++ L ++ Q) (length P) (length L) = Some (P ++ N ++ e :: Q') /\
  N ≡ₚ L /\ ascending (pgnos N) /\ S (length Q') = length Q.
Proof.
  intros Hne Hmax HQ Hnd Hok He.
  destruct (radixsort_middle MDBX_DPL_EXTRACT_KEY 1 P L Q) as (N & Q' & E & Hp & Ho & HQ' & Ht); try done.
  - intros x. unfold MDBX_DPL_EXTRACT_KEY, u32. pose proof (Z.mod_pos_bound (pgno x) (2 ^ 32)). lia.
  - destruct Q as [|e0 Q]; [simpl in HQ; lia|]. destruct Q' as [|e1 Q']; [done|]. simpl in Ht, He, HQ'. simplify_eq.
    exists N, Q'. split; [exact E|]. split; [done|]. split; [|simpl; lia]. apply ascending_of_weak; [by rewrite Hp|].
    intros i j x y Hij Hi Hj. specialize (Ho _ _ _ _ Hij Hi Hj). unfold MDBX_DPL_EXTRACT_KEY in Ho.
    rewrite <- Hp, Forall_fmap in Hok. pose proof (Forall_lookup_1 _ _ _ _ Hok Hi) as Hx.
    pose proof (Forall_lookup_1 _ _ _ _ Hok Hj) as Hy. unfold pgno_used, P_INVALID in Hx, Hy. simpl in Hx, Hy.
    rewrite !u32_small in Ho by lia. done.
Qed.
End entries.

Section merge_loop.
Implicit Types (A B G M X R : list dp_t).

(** [A] and [B] are still to be merged in front of [M]; [G] are the cells between,
    [B] is behind [X] in the space at the end. *)
Lemma dpl_merge_loop_spec fuel : forall A B G M X R,
  (length A + length B < fuel)%nat -> length G = length B -> B <> [] -> Forall (fun y => 0 < pgno y) B ->
  ascending (pgnos A) -> ascending (pgnos B) -> ascending (pgnos M) ->
  (forall x y, x ∈ A -> y ∈ B -> pgno x <> pgno y) -> (forall x m, x ∈ A ++ B -> m ∈ M -> pgno x < pgno m) ->
  exists N, dpl_merge_loop fuel (dpl_stubB :: A ++ G ++ M ++ X ++ B ++ R) (length A + length B) (length A)
  (length A + length G + length M + length X + length B) = Some (dpl_stubB :: N ++ X ++ B ++ R) /\
  N ≡ₚ A ++ B ++ M /\ ascending (pgnos N).
Proof.
  induction fuel as [|fuel IH]; intros A B G M X R Hf HG HB Hok HaA HaB HaM Hdis Hlt; [lia|].
  destruct B as [|y B _] using rev_ind; [done|]. clear HB. rewrite length_app in *. cbn [length] in *.
  apply Forall_app in Hok as [HokB [Hy _]%Forall_cons].
  destruct G as [|g G _] using rev_ind; [simpl in HG; lia|]. rewrite length_app in *. cbn [length] in *.
  cbn [dpl_merge_loop]. apply ascending_pgnos_app in HaB as (HaB & _ & HBy).
  set (c := dpl_stubB :: A ++ (G ++ [g]) ++ M ++ X ++ (B ++ [y]) ++ R).
  set (d := (length A + (length B + 1))%nat).
  assert (rd c (length A + (length G + 1) + length M + length X + (length B + 1)) = Some y) as ->.
  { unfold c. replace (dpl_stubB :: A ++ (G ++ [g]) ++ M ++ X ++ (B ++ [y]) ++ R)
      with (dpl_stubB :: (A ++ G ++ [g] ++ M ++ X ++ B) ++ y :: R) by by app_norm.
    apply rd_cons_app_at. repeat (rewrite length_app; simpl). lia. }
  assert (forall v, wr c d v = Some (dpl_stubB :: A ++ G ++ (v :: M) ++ X ++ B ++ y :: R)) as Hwr.
  { intros v. unfold c. replace (dpl_stubB :: A ++ (G ++ [g]) ++ M ++ X ++ (B ++ [y]) ++ R)
      with ((dpl_stubB :: A ++ G) ++ g :: M ++ X ++ B ++ y :: R) by by app_norm.
    rewrite wr_app_at' by (unfold d; simpl; rewrite length_app; lia). by app_norm. }
  assert ((exists A0 a, A = A0 ++ [a] /\ pgno y < pgno a) \/ forall x, x ∈ A -> pgno x < pgno y) as [(A0 & a & -> & Hay)|Htake].
  { destruct A as [|a A0 _] using rev_ind; [right; intros x Hx; by apply elem_of_nil in Hx|].
    destruct (decide (pgno y < pgno a)); [left; eauto|]. right.
    assert (pgno a <> pgno y) by (apply Hdis; apply elem_of_app; right; by left).
    apply ascending_pgnos_app in HaA as (_ & _ & HAa). intros x [Hx| ->%list_elem_of_singleton]%elem_of_app; [|lia].
    specialize (HAa x a Hx ltac:(by left)). lia. }
  - (* the last sorted entry *)
    apply ascending_pgnos_app in HaA as (HaA & _ & HAa).
    assert (rd c (length (A0 ++ [a])) = Some a) as ->.
    { unfold c. replace (dpl_stubB :: (A0 ++ [a]) ++ (G ++ [g]) ++ M ++ X ++ (B ++ [y]) ++ R)
        with (dpl_stubB :: A0 ++ a :: (G ++ [g]) ++ M ++ X ++ (B ++ [y]) ++ R) by by app_norm.
      apply rd_cons_app_at. rewrite length_app. simpl. lia. }
    cbn [mbind option_bind]. replace (pgno a >? pgno y) with true by lia. rewrite Hwr. cbn [mbind option_bind].
    unfold d. rewrite length_app in *. cbn [length] in *. rewrite decide_True by lia.
    destruct (IH A0 (B ++ [y]) (a :: G) (a :: M) X R) as (N & E & Hp & Hd); try done.
    + rewrite !length_app. simpl. lia.
    + rewrite length_app. simpl. lia.
    + by destruct B.
    + apply Forall_app. split; [done|]. by constructor.
    + apply ascending_pgnos_app. split_and!; [done| |done]. apply ascending_cons. split; [constructor|apply ascending_nil].
    + rewrite fmap_cons. apply ascending_cons. split; [|done]. rewrite Forall_fmap. apply Forall_forall. intros m Hm. simpl.
      apply Hlt; [|done]. rewrite !elem_of_app. left. right. by left.
    + intros x y' Hx Hy'. apply Hdis; [apply elem_of_app; tauto|done].
    + assert (forall x, x ∈ A0 ++ B ++ [y] -> pgno x < pgno a) as Ha.
      { intros x [Hx|[Hx| ->%list_elem_of_singleton]%elem_of_app]%elem_of_app; [apply HAa; [done|by left]| |done].
        specialize (HBy x y Hx ltac:(by left)). lia. }
      intros x m Hx [->|Hm]%elem_of_cons; [by apply Ha|]. apply Hlt; [|done]. rewrite !elem_of_app in *. tauto.
    + exists N. split_and!; [|rewrite Hp; solve_Permutation|done].
      rewrite length_app in E. cbn [length] in E.
      replace (Nat.pred (length A0 + 1 + (length B + 1))) with (length A0 + (length B + 1))%nat by lia.
      replace (Nat.pred (length A0 + 1)) with (length A0) by lia.
      replace (length A0 + 1 + (length G + 1) + length M + length X + (length B + 1))%nat
        with (length A0 + S (length G) + S (length M) + length X + (length B + 1))%nat by lia.
      replace (dpl_stubB :: (A0 ++ [a]) ++ G ++ (a :: M) ++ X ++ B ++ y :: R)
        with (dpl_stubB :: A0 ++ (a :: G) ++ (a :: M) ++ X ++ (B ++ [y]) ++ R) by by app_norm.
      exact E.
  - (* the last unsorted entry *)
    assert (exists x, rd c (length A) = Some x /\ (pgno x >? pgno y) = false) as (x & -> & Hx).
    { destruct A as [|a A0 _] using rev_ind.
      - exists dpl_stubB. split; [done|]. simpl. lia.
      - exists a. specialize (Htake a ltac:(apply elem_of_app; right; by left)). split; [|lia].
        unfold c. replace (dpl_stubB :: (A0 ++ [a]) ++ (G ++ [g]) ++ M ++ X ++ (B ++ [y]) ++ R)
          with (dpl_stubB :: A0 ++ a :: (G ++ [g]) ++ M ++ X ++ (B ++ [y]) ++ R) by by app_norm.
        apply rd_cons_app_at. rewrite length_app. simpl. lia. }
    cbn [mbind option_bind]. rewrite Hx, Hwr. cbn [mbind option_bind]. clear x Hx.
    assert (forall x, x ∈ A ++ B -> pgno x < pgno y) as Hall.
    { intros x' [Hx'|Hx']%elem_of_app; [by apply Htake|apply HBy; [done|by left]]. }
    assert (ascending (pgnos (y :: M))) as HaM'.
    { rewrite fmap_cons. apply ascending_cons. split; [|done]. rewrite Forall_fmap. apply Forall_forall. intros m Hm. simpl.
      apply Hlt; [|done]. rewrite !elem_of_app. right. right. by left. }
    unfold d. case_decide as HB.
    + destruct (IH A B G (y :: M) X (y :: R)) as (N & E & Hp & Hd); try done; try lia; [intros ->; simpl in HB; lia| | |].
      * intros x' y' Hx' Hy'. apply Hdis; [done|apply elem_of_app; tauto].
      * intros x' m Hx' [->|Hm]%elem_of_cons; [by apply Hall|]. apply Hlt; [|done]. rewrite !elem_of_app in *. tauto.
      * exists N. split_and!; [|rewrite Hp; solve_Permutation|done].
        replace (Nat.pred (length A + (length B + 1))) with (length A + length B)%nat by lia.
        replace (Nat.pred (length A + (length G + 1) + length M + length X + (length B + 1)))
          with (length A + length G + length (y :: M) + length X + length B)%nat by (simpl; lia).
        rewrite E. by app_norm.
    + assert (B = []) as -> by (destruct B; [done|simpl in HB; lia]). destruct G; [|simpl in HG; lia].
      exists (A ++ y :: M). split_and!; [by app_norm|simpl; solve_Permutation|].
      apply ascending_pgnos_app. split_and!; [done..|].
      intros x' m Hx' [->|Hm]%elem_of_cons; [apply Hall, elem_of_app; tauto|].
      apply Hlt; [apply elem_of_app; tauto|done].
Qed.
End merge_loop.

Section sorting.
Implicit Types (S U N W : list dp_t).

(** A list of dirty pages whose cells were rearranged. *)
Lemma dpl_holds_rearranged dl S U N U' s c W :
  dpl_holds dl S U -> N ++ U' ≡ₚ S ++ U -> ascending (pgnos N) -> s = length N ->
  c = dpl_stubB :: N ++ U' ++ dpl_stubE :: W -> length c = length (items dl) ->
  dpl_holds (with_sorted (with_items dl c) s) N U'.
Proof.
  intros [[W0 Hi] Hs Hl Ha Hu Ho Hp Hcap Hroom Hlim] HN HaN -> -> Hlen.
  pose proof (Permutation_length HN) as HlN. rewrite !length_app in HlN.
  split; cbn [with_sorted with_items items sorted dl_length pages_including_loose detent]; try done.
  - by exists W.
  - lia.
  - by rewrite HN.
  - by rewrite HN.
  - by rewrite (pages_of_perm _ _ HN).
  - lia.
Qed.

Lemma dpl_merge_tail_spec dl S U :
  dpl_holds dl S U -> S <> [] -> U <> [] ->
  exists N W, dpl_merge_tail dl = Some (dpl_stubB :: N ++ dpl_stubE :: W) /\ N ≡ₚ S ++ U /\ ascending (pgnos N) /\
  length (dpl_stubB :: N ++ dpl_stubE :: W) = length (items dl).
Proof.
  intros [[W Hi] Hs Hl Ha Hu Ho Hp Hcap Hroom Hlim] HS HU.
  assert (length S + length U <= length W)%nat as HW.
  { rewrite Hi in Hroom. simpl in Hroom. rewrite !length_app in Hroom. simpl in Hroom. lia. }
  assert (0 < length S)%nat by (destruct S; [done|simpl; lia]).
  assert (exists X T R, W = X ++ T ++ R /\ length X = (length S - 1)%nat /\ length T = length U) as (X & T & R & -> & HX & HT).
  { exists (take (length S - 1) W), (take (length U) (drop (length S - 1) W)), (drop (length U) (drop (length S - 1) W)).
    rewrite !take_drop, !length_take, length_drop. split; [done|lia]. }
  unfold dpl_merge_tail. rewrite Hi, Hs, Hl.
  replace (length S + length U - length S)%nat with (length U) by lia.
  set (tmp := (length S + length U + (length S + length U) + 1 - length U)%nat).
  assert (blit (dpl_stubB :: S ++ U ++ dpl_stubE :: X ++ T ++ R) (1 + length S) (dpl_stubB :: S ++ U ++ dpl_stubE :: X ++ T ++ R)
    tmp (length U) = Some ((dpl_stubB :: S ++ U ++ dpl_stubE :: X) ++ U ++ R)) as ->.
  { pose proof (blit_app (dpl_stubB :: S) U (dpl_stubE :: X ++ T ++ R) (dpl_stubB :: S ++ U ++ dpl_stubE :: X) T R
      (1 + length S) tmp (length U)) as E. revert E. app_norm. intros E. apply E; try done.
    unfold tmp. simpl. rewrite !length_app. simpl. lia. }
  cbn [mbind option_bind].
  destruct (dp_sort_spec (dpl_stubB :: S ++ U ++ dpl_stubE :: X) U R (Z.of_nat tmp) (Z.of_nat tmp + Z.of_nat (length U)))
    as (B & -> & HpB & HaB).
  - f_equal. unfold tmp. simpl. rewrite !length_app. simpl. lia.
  - done.
  - unfold tmp. lia.
  - rewrite fmap_app in Hu. by apply NoDup_app in Hu as (_ & _ & ?).
  - cbn [mbind option_bind]. pose proof (Permutation_length HpB) as HlB.
    assert (forall x y, x ∈ S -> y ∈ B -> pgno x <> pgno y) as Hdis.
    { intros x y Hx Hy E. rewrite HpB in Hy. rewrite fmap_app in Hu. apply NoDup_app in Hu as (_ & Hn & _).
      apply (Hn (pgno x)); [by apply list_elem_of_fmap_2|]. rewrite E. by apply list_elem_of_fmap_2. }
    destruct (dpl_merge_loop_spec (1 + (length S + length U)) S B U [] (dpl_stubE :: X) R) as (N & E & HpN & HaN); try done.
    + lia.
    + intros ->. by destruct U.
    + rewrite HpB. rewrite Forall_fmap in Ho. apply Forall_app in Ho as [_ Ho]. eapply Forall_impl; [exact Ho|].
      unfold pgno_used. simpl. lia.
    + intros x m _ Hm. by apply elem_of_nil in Hm.
    + exists N, (X ++ B ++ R). rewrite app_nil_r in HpN. split_and!.
      * replace (length S + length U + (length S + length U) + 1 - 1)%nat with
          (length S + length U + 0 + length (dpl_stubE :: X) + length B)%nat by (simpl; lia).
        rewrite HlB in E |- *. revert E. app_norm. intros E. exact E.
      * by rewrite HpN, HpB.
      * done.
      * pose proof (Permutation_length HpN) as HlN. simpl. rewrite !length_app in *. simpl. rewrite !length_app. simpl. lia.
Qed.

Lemma txn_dpl_sort_slowpath_spec dl S U :
  dpl_holds dl S U -> U <> [] ->
  exists dl' N, txn_dpl_sort_slowpath dl = Some dl' /\ dpl_holds dl' N [] /\ N ≡ₚ S ++ U.
Proof.
  intros Hdl HU. pose proof Hdl as [[W Hi] Hs Hl Ha Hu Ho Hp Hcap Hroom Hlim]. unfold txn_dpl_sort_slowpath.
  assert (S ++ U <> []) as Hne by (by destruct S, U).
  assert (exists N W', (if decide (Z.of_nat (dl_length dl - sorted dl) < MDBX_RADIXSORT_THRESHOLD) then
    if decide ((dl_length dl - sorted dl) / 4 + 4 < sorted dl)%nat then dpl_merge_tail dl
    else dp_sort (items dl) 1 (Z.of_nat (dl_length dl) + 1)
    else dp_radixsort (items dl) 1 (dl_length dl)) = Some (dpl_stubB :: N ++ dpl_stubE :: W') /\
    N ≡ₚ S ++ U /\ ascending (pgnos N) /\ length (dpl_stubB :: N ++ dpl_stubE :: W') = length (items dl)) as (N & W' & -> & HpN & HaN & HlN).
  { case_decide; [case_decide as Hm|].
    - apply (dpl_merge_tail_spec dl S U); [done| |done]. intros ->. simpl in Hs. lia.
    - destruct (dp_sort_spec [dpl_stubB] (S ++ U) (dpl_stubE :: W) 1 (Z.of_nat (dl_length dl) + 1)) as (N & E & HpN & HaN); try done.
      + rewrite length_app. lia.
      + lia.
      + exists N, W. rewrite Hi. split_and!; try done; [revert E; app_norm; intros E; exact E|].
        simpl. rewrite !length_app, (Permutation_length HpN), length_app. simpl. lia.
    - destruct (dp_radixsort_spec [dpl_stubB] (S ++ U) (dpl_stubE :: W) dpl_stubE) as (N & W' & E & HpN & HaN & HW'); try done.
      + rewrite length_app. lia.
      + rewrite Hi in Hroom. simpl in Hroom. rewrite !length_app in *. simpl in *. lia.
      + exists N, W'. rewrite Hi, Hl, <- (length_app S U). split_and!; try done; [revert E; app_norm; intros E; exact E|].
        simpl in HW' |- *. rewrite !length_app, (Permutation_length HpN), length_app. simpl. lia. }
  cbn [mbind option_bind]. eexists _, N. split; [done|]. split; [|done].
  eapply dpl_holds_rearranged; [exact Hdl| |done| |done|done].
  - by rewrite app_nil_r.
  - by rewrite (Permutation_length HpN), length_app.
Qed.

Lemma txn_dpl_sort_spec dl S U :
  dpl_holds dl S U -> exists dl' N, txn_dpl_sort dl = Some dl' /\ dpl_holds dl' N [] /\ N ≡ₚ S ++ U.
Proof.
  intros Hdl. unfold txn_dpl_sort. pose proof (dh_sorted _ _ _ Hdl) as Hs. pose proof (dh_length _ _ _ Hdl) as Hl.
  case_decide.
  - assert (U = []) as -> by (destruct U; [done|simpl in Hl; lia]). exists dl, S. by rewrite app_nil_r.
  - apply txn_dpl_sort_slowpath_spec; [done|]. intros ->. simpl in Hl. lia.
Qed.
End sorting.

Section searching.
Context (have_cmov : bool).
Implicit Types (dl : dpl_t) (A B N S U W : list dp_t) (id : Z).

Lemma dh_rd dl S U k x : dpl_holds dl S U -> (S ++ U) !! k = Some x -> rd (items dl) (Datatypes.S k) = Some x.
Proof.
  intros [[W ->] _ _ _ _ _ _ _ _ _] Hx. rewrite app_assoc. unfold rd. simpl.
  by rewrite lookup_app_l by by eapply lookup_lt_Some.
Qed.

Lemma dh_rd_end dl S U : dpl_holds dl S U -> rd (items dl) (dl_length dl + 1) = Some dpl_stubE.
Proof.
  intros [[W ->] _ Hl _ _ _ _ _ _ _]. rewrite app_assoc. apply rd_cons_app_at. rewrite length_app. lia.
Qed.

Lemma dh_rd_0 dl S U : dpl_holds dl S U -> rd (items dl) 0 = Some dpl_stubB.
Proof. intros [[W ->] _ _ _ _ _ _ _ _ _]. done. Qed.

(** The binary search of the sorted entries. *)
Lemma dp_bsearch_spec dl A B U id :
  dpl_holds dl (A ++ B) U -> Forall (fun x => pgno x < id) A -> Forall (fun x => id <= pgno x) B ->
  dp_bsearch have_cmov (items dl) 1 (sorted dl) id = Some (S (length A)).
Proof.
  intros Hdl HA HB. unfold dp_bsearch. rewrite (dh_sorted _ _ _ Hdl). destruct (dh_items _ _ _ Hdl) as [W Hi].
  rewrite Hi. apply bsearch_correct; [|simpl; rewrite !length_app; simpl; lia|simpl; rewrite !length_app; simpl; lia].
  split; [rewrite length_app; lia|]. intros i y Hk Hy. destruct i as [|i]; [lia|]. simpl in Hy.
  rewrite length_app in Hk. rewrite lookup_app_l in Hy by (rewrite length_app; lia).
  unfold DP_SEARCH_CMP. case_bool_decide.
  - rewrite lookup_app_l in Hy by lia. eapply Forall_lookup_1 in HA; [|exact Hy]. simpl in HA. lia.
  - rewrite lookup_app_r in Hy by lia. eapply Forall_lookup_1 in HB; [|exact Hy]. simpl in HB. lia.
Qed.

Lemma linear_search_spec dl S U id n :
  dpl_holds dl S U -> (n <= length U)%nat ->
  exists r, LINEAR_SEARCH_CASE n dl id = Some r /\
  match r with
  | Some i => exists x, rd (items dl) i = Some x /\ pgno x = id /\ (S ++ U) !! Nat.pred i = Some x /\ (0 < i)%nat
  | None => Forall (fun x => pgno x <> id) (drop (length U - n) U)
  end.
Proof.
  intros Hdl. induction n as [|n IH]; intros Hn.
  - exists None. split; [done|]. rewrite Nat.sub_0_r, drop_all. constructor.
  - cbn [LINEAR_SEARCH_CASE]. pose proof (dh_length _ _ _ Hdl) as Hl.
    destruct (lookup_lt_is_Some_2 U (length U - Datatypes.S n)) as [x Hx]; [lia|].
    assert ((S ++ U) !! (dl_length dl - Datatypes.S n)%nat = Some x) as Hx'.
    { rewrite lookup_app_r by lia. rewrite <- Hx. f_equal. lia. }
    assert (rd (items dl) (dl_length dl - Datatypes.S n + 1) = Some x) as Hrd.
    { rewrite Nat.add_1_r. by eapply dh_rd. }
    rewrite Hrd. cbn [mbind option_bind]. case_decide as E.
    + eexists. split; [done|]. exists x. rewrite Hrd. split_and!; [done|done| |lia]. by rewrite Nat.add_1_r.
    + destruct IH as (r & -> & Hr); [lia|]. exists r. split; [done|]. destruct r; [done|].
      erewrite drop_S by exact Hx. constructor; [done|]. by replace (Datatypes.S (length U - Datatypes.S n)) with (length U - n)%nat by lia.
Qed.

(** The search on a sorted list: the first entry that is not smaller. *)
Lemma txn_dpl_search_sorted dl A B id :
  dpl_holds dl (A ++ B) [] -> Forall (fun x => pgno x < id) A -> Forall (fun x => id <= pgno x) B ->
  txn_dpl_search have_cmov dl id = Some (S (length A), dl).
Proof.
  intros Hdl HA HB. unfold txn_dpl_search. pose proof (dh_sorted _ _ _ Hdl) as Hs. pose proof (dh_length _ _ _ Hdl) as Hl.
  rewrite Nat.add_0_r in Hl. rewrite Hs, Hl, Nat.sub_diag. rewrite decide_False by lia. cbn [LINEAR_SEARCH_CASE mbind option_bind].
  rewrite <- Hs. by rewrite (dp_bsearch_spec dl A B [] id).
Qed.

(** What a search gives on any list: the cell of the page, or a cell which does not have it. *)
Definition search_result dl S U id (res : option (nat * dpl_t)) : Prop :=
  exists i dl' S' U' y, res = Some (i, dl') /\ dpl_holds dl' S' U' /\ S' ++ U' ≡ₚ S ++ U /\ (0 < i)%nat /\
  rd (items dl') i = Some y /\ (forall x, x ∈ S ++ U -> pgno x = id -> y = x) /\
  (pgno y = id -> (S' ++ U') !! Nat.pred i = Some y \/ id = P_INVALID).

Lemma same_page dl S U x y : dpl_holds dl S U -> x ∈ S ++ U -> y ∈ S ++ U -> pgno x = pgno y -> x = y.
Proof.
  intros Hdl [i Hi]%list_elem_of_lookup_1 [j Hj]%list_elem_of_lookup_1 E. pose proof (dh_unique _ _ _ Hdl) as Hu.
  assert (i = j) as ->; [|congruence].
  apply (NoDup_lookup _ _ _ (pgno x) Hu); rewrite list_lookup_fmap, ?Hi, ?Hj; simpl; congruence.
Qed.

Lemma bsearch_result dl S U id :
  dpl_holds dl S U -> Forall (fun x => pgno x <> id) U ->
  exists i y, dp_bsearch have_cmov (items dl) 1 (sorted dl) id = Some i /\ (0 < i)%nat /\ rd (items dl) i = Some y /\
  (forall x, x ∈ S ++ U -> pgno x = id -> y = x) /\ (pgno y = id -> (S ++ U) !! Nat.pred i = Some y \/ id = P_INVALID).
Proof.
  intros Hdl HU. destruct (ascending_pgnos_split S id (dh_ascending _ _ _ Hdl)) as (A & B & -> & HA & HB).
  pose proof (dp_bsearch_spec dl A B U id Hdl HA HB) as E. eexists (Datatypes.S (length A)).
  assert (forall x, x ∈ (A ++ B) ++ U -> pgno x = id -> x ∈ B) as Hin.
  { intros x Hx Ex. rewrite Forall_forall in HA, HU. rewrite !elem_of_app in Hx. destruct Hx as [[Hx|Hx]|Hx]; [|done|].
    - specialize (HA x Hx). simpl in HA. lia.
    - by apply HU in Hx. }
  assert (exists y, rd (items dl) (Datatypes.S (length A)) = Some y /\ (((A ++ B) ++ U) !! length A = Some y \/ y = dpl_stubE) /\
    (forall b B', B = b :: B' -> y = b)) as (y & Hy & Hy' & HB').
  { destruct (((A ++ B) ++ U) !! length A) as [y|] eqn:Ey.
    - exists y. split_and!; [by eapply dh_rd|by left|]. intros b B' ->.
      rewrite <- app_assoc, lookup_app_r, Nat.sub_diag in Ey by lia. by simplify_eq/=.
    - apply lookup_ge_None in Ey. rewrite !length_app in Ey. pose proof (dh_length _ _ _ Hdl) as Hl. rewrite length_app in Hl.
      exists dpl_stubE. split_and!; [|by right|intros b B' ->; simpl in Ey; lia].
      rewrite <- (dh_rd_end _ _ _ Hdl). f_equal. lia. }
  exists y. split_and!; [done|lia|done| |].
  - intros x Hx Ex. specialize (Hin x Hx Ex). destruct B as [|b B]; [by apply elem_of_nil in Hin|]. rewrite (HB' b B eq_refl).
    apply elem_of_cons in Hin as [->|Hin]; [done|]. exfalso.
    pose proof (dh_ascending _ _ _ Hdl) as Ha. apply ascending_pgnos_app in Ha as (_ & Ha & _).
    rewrite fmap_cons, ascending_cons, Forall_fmap, Forall_forall in Ha. destruct Ha as [Ha _]. specialize (Ha x Hin).
    apply Forall_cons in HB as [HB _]. simpl in Ha. lia.
  - destruct Hy' as [Hy'| ->]; [by left|]. simpl. by right.
Qed.

Lemma txn_dpl_search_spec dl S U id :
  dpl_holds dl S U -> search_result dl S U id (txn_dpl_search have_cmov dl id).
Proof.
  intros Hdl. unfold txn_dpl_search, search_result. pose proof (dh_sorted _ _ _ Hdl) as Hs. pose proof (dh_length _ _ _ Hdl) as Hl.
  replace (dl_length dl - sorted dl)%nat with (length U) by lia. case_decide.
  - destruct (txn_dpl_sort_slowpath_spec dl S U Hdl) as (dl' & N & -> & HN & Hp); [by intros ->; simpl in *; lia|].
    cbn [mbind option_bind]. destruct (bsearch_result dl' N [] id HN) as (i & y & -> & Hi & Hy & H1 & H2); [constructor|].
    cbn [mbind option_bind]. exists i, dl', N, [], y.
    rewrite app_nil_r in *. split_and!; try done. intros x Hx. rewrite <- Hp in Hx. by apply H1.
  - destruct (linear_search_spec dl S U id (length U) Hdl) as (r & -> & Hr); [done|]. cbn [mbind option_bind].
    destruct r as [i|].
    + destruct Hr as (x & Hx & Ex & Hin & Hi). exists i, dl, S, U, x. split_and!; try done; [|by left].
      intros z Hz Ez. apply (same_page dl S U); [done|by eapply list_elem_of_lookup_2|done|congruence].
    + rewrite Nat.sub_diag, drop_0 in Hr. destruct (bsearch_result dl S U id Hdl Hr) as (i & y & -> & Hi & Hy & H1 & H2).
      exists i, dl, S, U, y. split_and!; done.
Qed.

Lemma txn_dpl_exist_spec dl S U id :
  dpl_holds dl S U -> pgno_used id ->
  exists i dl' S' U', txn_dpl_exist have_cmov dl id = Some (i, dl') /\ dpl_holds dl' S' U' /\ S' ++ U' ≡ₚ S ++ U /\
  match i with
  | O => forall x, x ∈ S ++ U -> pgno x <> id
  | Datatypes.S k => exists x, (S' ++ U') !! k = Some x /\ pgno x = id
  end.
Proof.
  intros Hdl Hid. destruct (txn_dpl_search_spec dl S U id Hdl) as (i & dl' & S' & U' & y & E & Hdl' & Hp & Hi & Hy & H1 & H2).
  unfold txn_dpl_exist. rewrite E. cbn [mbind option_bind]. rewrite Hy. cbn [mbind option_bind].
  eexists _, dl', S', U'. split_and!; [done|done|done|]. case_decide as Ey.
  - destruct i as [|k]; [lia|]. exists y. split; [|done].
    destruct (H2 Ey) as [Hin|E']; [done|unfold pgno_used, P_INVALID in *; lia].
  - intros x Hx Ex. apply Ey. by rewrite (H1 x Hx Ex).
Qed.
End searching.
