(* ===== verification/DplOps.v ===== *)
(** * The list of dirty pages: adding, removing, sifting and ages *)

From S2P Require Import Prelude Search Sort Radix Pnl PnlFacts Dpl DplFacts.

(** ** Capacity *)

Section capacity.
Context (malloc : Z -> option Z) (Hmalloc : malloc_ok malloc).
Implicit Types (dl : dpl_t) (S U W : list dp_t).

Lemma dpl_block_spec n usable :
  0 < n <= PAGELIST_LIMIT -> dpl_size2bytes n <= usable <= dpl_size2bytes n + 2 ^ 20 ->
  (n <= dpl_bytes2size usable /\ 2 <= dpl_bytes2size usable < 2 ^ 32) /\
  2 * dpl_bytes2size usable + 18 <= Z.of_nat (dpl_block_items usable).
Proof.
  unfold dpl_size2bytes, dpl_bytes2size, dpl_block_items, sizeof_dpl_t, offsetof_items, sizeof_dp_t, PAGELIST_LIMIT, MAX_PAGENO,
    MDBX_ASSUME_MALLOC_OVERHEAD, MDBX_PNL_GRANULATE.
  intros Hn. change (1024 * 8 * 2) with (2 ^ 14). change (Z.of_nat dpl_reserve_gap) with 18.
  destruct (ceil_powerof2_spec (16 + (32 + 18 * 16) + (n + n) * 16) 14) as [[H1 H2] [q Hq]]; [lia|lia|lia|].
  intros Hu. rewrite Z.shiftr_div_pow2 by lia. change (2 ^ 1) with 2. rewrite u64_small by (unfold UINT64_MAX; lia).
  pose proof (Z.div_mod (usable - (32 + 18 * 16)) 16 ltac:(lia)) as E1.
  pose proof (Z.mod_pos_bound (usable - (32 + 18 * 16)) 16 ltac:(lia)).
  pose proof (Z.div_mod (usable - 32) 16 ltac:(lia)) as E2. pose proof (Z.mod_pos_bound (usable - 32) 16 ltac:(lia)).
  set (a := (usable - (32 + 18 * 16)) / 16) in *. set (b := (usable - 32) / 16) in *. clearbody a b.
  pose proof (Z.div_mod a 2 ltac:(lia)). pose proof (Z.mod_pos_bound a 2 ltac:(lia)). set (h := a / 2) in *. clearbody h.
  lia.
Qed.

Lemma txn_dpl_reserve_spec dl S U n dl' :
  dpl_holds dl S U -> Z.of_nat (dl_length dl) <= n -> 0 < n -> Z.of_nat (dl_length dl) <= PAGELIST_LIMIT ->
  txn_dpl_reserve malloc (Some dl) n = Some dl' ->
  dpl_holds dl' S U /\ Z.min n PAGELIST_LIMIT <= detent dl'.
Proof.
  intros [[W Hi] Hs Hl Ha Hu Ho Hp Hcap Hroom Hlim] Hn Hn0 HL. unfold txn_dpl_reserve.
  set (n' := if decide (n < PAGELIST_LIMIT) then n else PAGELIST_LIMIT).
  assert (n' = Z.min n PAGELIST_LIMIT) as En by (unfold n'; case_decide; lia). clearbody n'.
  destruct (malloc _) as [u|] eqn:E; simpl; [|done]. intros [= <-]. apply Hmalloc in E.
  assert (0 < PAGELIST_LIMIT) by done.
  destruct (dpl_block_spec n' u) as [[H1 [H2 H3]] H4]; [lia|done|]. split; [|simpl; lia].
  split; cbn [items sorted dl_length pages_including_loose detent]; try done; try lia.
  2: { rewrite length_resize. lia. }
  rewrite Hi. set (k := dpl_block_items u) in *.
  destruct (decide (length (items dl) <= k)%nat); rewrite Hi in *.
  - rewrite resize_ge by lia. exists (W ++ replicate (k - length (dpl_stubB :: S ++ U ++ dpl_stubE :: W)) dpl_stubB). by app_norm.
  - rewrite resize_le by lia. replace (dpl_stubB :: S ++ U ++ dpl_stubE :: W) with ((dpl_stubB :: S ++ U ++ [dpl_stubE]) ++ W) by by app_norm.
    rewrite take_app_ge by (simpl; rewrite !length_app; simpl; lia). eexists. by app_norm.
Qed.

Lemma dpl_init_spec dl :
  2 * detent dl + 18 <= Z.of_nat (length (items dl)) -> 2 <= detent dl < 2 ^ 32 ->
  exists dl', dpl_init dl = Some dl' /\ dpl_holds dl' [] [] /\ detent dl' = detent dl.
Proof.
  intros Hroom Hd. unfold dpl_init, dpl_setlen. destruct (items dl) as [|a [|b W]] eqn:Ei; [simpl in Hroom; lia..|].
  rewrite wr_Some by (simpl; lia). cbn [mbind option_bind items]. rewrite wr_Some by (simpl; lia). cbn.
  eexists. split; [done|]. split; [|done]. simpl in Hroom.
  split; cbn; try done; try lia; try constructor; eauto.
Qed.

Lemma txn_dpl_alloc_spec nested dp_initial geo_upper odl :
  (forall dl, odl = Some dl -> exists S U, dpl_holds dl S U) ->
  0 < dp_initial <= PAGELIST_LIMIT -> 0 < geo_upper ->
  (exists dl', txn_dpl_alloc malloc nested dp_initial geo_upper odl = Some (MDBX_SUCCESS, Some dl') /\ dpl_holds dl' [] [] /\
    (if nested then CURSOR_STACK_SIZE else Z.min dp_initial geo_upper) <= detent dl') \/
  txn_dpl_alloc malloc nested dp_initial geo_upper odl = Some (MDBX_ENOMEM, odl).
Proof.
  intros Hodl Hi Hg. unfold txn_dpl_alloc. set (wanna := if nested then _ else _).
  assert (wanna = if nested then CURSOR_STACK_SIZE else Z.min dp_initial geo_upper) as Ew.
  { unfold wanna. destruct nested; [done|]. case_decide; lia. }
  assert (0 < wanna <= PAGELIST_LIMIT) as Hw by (rewrite Ew; destruct nested; [done|lia]). rewrite <- Ew. clearbody wanna.
  assert (forall dl, 2 * detent dl + 18 <= Z.of_nat (length (items dl)) -> 2 <= detent dl < 2 ^ 32 -> wanna <= detent dl ->
    exists dl', (dl0 ← dpl_init dl; Some (MDBX_SUCCESS, Some dl0)) = Some (MDBX_SUCCESS, Some dl') /\ dpl_holds dl' [] [] /\ wanna <= detent dl') as Hfin.
  { intros dl H1 H2 H3. destruct (dpl_init_spec dl H1 H2) as (dl' & -> & Hdl' & Hd'). exists dl'. split; [done|]. split; [done|lia]. }
  assert (forall x, txn_dpl_reserve malloc odl wanna = Some x -> 2 * detent x + 18 <= Z.of_nat (length (items x)) /\ 2 <= detent x < 2 ^ 32 /\ wanna <= detent x) as Hres.
  { intros x. unfold txn_dpl_reserve. set (n' := if decide (wanna < PAGELIST_LIMIT) then wanna else PAGELIST_LIMIT).
    assert (n' = wanna) as -> by (unfold n'; case_decide; lia). destruct (malloc _) as [u|] eqn:E; simpl; [|done]. apply Hmalloc in E.
    destruct (dpl_block_spec wanna u) as [[H1 [H2 H3]] H4]; [lia|done|].
    destruct odl as [dl|]; intros [= <-]; cbn [items detent]; rewrite ?length_resize, ?length_replicate; lia. }
  destruct odl as [dl|].
  - destruct (Hodl dl eq_refl) as (S & U & Hdl). destruct (negb _) eqn:Ek.
    + apply negb_true_iff, orb_false_iff in Ek as [Ek1%bool_decide_eq_false Ek2%bool_decide_eq_false]. left.
      apply Hfin; [apply (dh_room _ _ _ Hdl)|apply (dh_limit _ _ _ Hdl)|lia].
    + destruct (txn_dpl_reserve malloc (Some dl) wanna) as [x|] eqn:E; [|by right]. left. destruct (Hres x eq_refl) as (H1 & H2 & H3). by apply Hfin.
  - destruct (txn_dpl_reserve malloc None wanna) as [x|] eqn:E; [|by right]. left. destruct (Hres x eq_refl) as (H1 & H2 & H3). by apply Hfin.
Qed.
End capacity.

(** ** Adding *)

Section append.
Context (have_cmov : bool).
Implicit Types (dl : dpl_t) (A B P Q S U W : list dp_t) (x : dp_t).

Lemma shift_unsorted_spec U : forall P g Q,
  P <> [] -> exists g', shift_unsorted (length U) (P ++ U ++ g :: Q) (length P + length U - 1) = Some (P ++ g' :: U ++ Q).
Proof.
  induction U as [|u U IH] using rev_ind; intros P g Q HP; [by exists g|].
  assert (0 < length P)%nat by (destruct P; [done|simpl; lia]).
  rewrite length_app, Nat.add_1_r. cbn [shift_unsorted].
  replace (length P + Datatypes.S (length U) - 1)%nat with (length P + length U)%nat by lia.
  assert (P ++ (U ++ [u]) ++ g :: Q = (P ++ U) ++ u :: g :: Q) as -> by by app_norm.
  rewrite rd_app_at' by (by rewrite length_app). cbn [mbind option_bind].
  replace ((P ++ U) ++ u :: g :: Q) with ((P ++ U ++ [u]) ++ g :: Q) by by app_norm.
  rewrite wr_app_at' by (rewrite !length_app; simpl; lia). cbn [mbind option_bind].
  destruct (IH P u (u :: Q) HP) as (g' & E). exists g'.
  replace (Nat.pred (length P + length U)) with (length P + length U - 1)%nat by lia.
  replace ((P ++ U ++ [u]) ++ u :: Q) with (P ++ U ++ u :: u :: Q) by by app_norm. rewrite E. by app_norm.
Qed.

Lemma shift_sorted_spec B : forall fuel P p g Q id,
  (length B < fuel)%nat -> pgno p <= id -> Forall (fun x => id < pgno x) B ->
  exists g', shift_sorted fuel (P ++ p :: B ++ g :: Q) (length P + length B) id = Some (P ++ p :: g' :: B ++ Q, length P).
Proof.
  induction B as [|b B IH] using rev_ind; intros fuel P p g Q id Hf Hp HB.
  - destruct fuel as [|fuel]; [simpl in Hf; lia|]. cbn [shift_sorted length app]. rewrite Nat.add_0_r.
    rewrite rd_app_at' by done. cbn [mbind option_bind]. rewrite decide_False by lia. by exists g.
  - rewrite length_app in Hf. simpl in Hf. destruct fuel as [|fuel]; [lia|]. apply Forall_app in HB as [HB [Hb _]%Forall_cons].
    cbn [shift_sorted]. rewrite length_app. cbn [length].
    assert (P ++ p :: (B ++ [b]) ++ g :: Q = (P ++ p :: B) ++ b :: g :: Q) as -> by by app_norm.
    rewrite rd_app_at' by (rewrite length_app; simpl; lia). cbn [mbind option_bind]. rewrite decide_True by lia.
    replace ((P ++ p :: B) ++ b :: g :: Q) with ((P ++ p :: B ++ [b]) ++ g :: Q) by by app_norm.
    rewrite wr_app_at' by (rewrite length_app; simpl; rewrite length_app; simpl; lia). cbn [mbind option_bind].
    destruct (IH fuel P p b (b :: Q) id ltac:(lia) Hp HB) as (g' & E). exists g'.
    replace (Nat.pred (length P + (length B + 1))) with (length P + length B)%nat by lia.
    replace ((P ++ p :: B ++ [b]) ++ b :: Q) with (P ++ p :: B ++ b :: b :: Q) by by app_norm. rewrite E. by app_norm.
Qed.

Lemma dpl_holds_added dl S U S' U' x c s pages :
  dpl_holds dl S U -> Z.of_nat (dl_length dl) < detent dl ->
  pgno_used (pgno x) -> pgno x ∉ pgnos (S ++ U) -> S' ++ U' ≡ₚ x :: S ++ U -> ascending (pgnos S') ->
  s = length S' -> (exists W, c = dpl_stubB :: S' ++ U' ++ dpl_stubE :: W) -> length c = length (items dl) ->
  pages = u64 (pages_including_loose dl + npages x) ->
  dpl_holds (mk_dpl s (Datatypes.S (dl_length dl)) pages (detent dl) c) S' U'.
Proof.
  intros [_ Hs Hl Ha Hu Ho Hp Hcap Hroom Hlim] Hlt Hx Hnew HN HaN -> Hc Hlen ->.
  pose proof (Permutation_length HN) as HlN. simpl in HlN. rewrite !length_app in HlN.
  split; cbn [items sorted dl_length pages_including_loose detent]; try done; try lia.
  - rewrite HN, fmap_cons. by constructor.
  - rewrite HN, fmap_cons. by constructor.
  - rewrite (pages_of_perm _ _ HN), Hp. simpl. unfold u64. rewrite Zplus_mod_idemp_l. f_equal. lia.
Qed.

Lemma dpl_put_spec dl S U x :
  dpl_holds dl S U -> Z.of_nat (dl_length dl) < detent dl -> pgno_used (pgno x) -> pgno x ∉ pgnos (S ++ U) ->
  exists dl' S' U', dpl_put have_cmov dl x = Some dl' /\ dpl_holds dl' S' U' /\ S' ++ U' ≡ₚ x :: S ++ U /\ detent dl' = detent dl.
Proof.
  intros Hdl Hlt Hx Hnew. pose proof Hdl as [[W Hi] Hs Hl Ha Hu Ho Hp Hcap Hroom Hlim]. unfold dpl_put.
  destruct (rd_Some (items dl) (if decide (dl_length dl < dpl_insertion_threshold)%nat then 0
    else dl_length dl - dpl_insertion_threshold)%nat) as [pv ->].
  { case_decide; lia. }
  cbn [mbind option_bind]. rewrite (dh_rd_end _ _ _ Hdl). cbn [mbind option_bind].
  destruct W as [|w W]; [rewrite Hi in Hroom; simpl in Hroom; rewrite !length_app in Hroom; simpl in Hroom; lia|].
  assert (wr (items dl) (dl_length dl + 2) dpl_stubE = Some (dpl_stubB :: S ++ U ++ dpl_stubE :: dpl_stubE :: W)) as ->.
  { rewrite Hi. replace (dpl_stubB :: S ++ U ++ dpl_stubE :: w :: W) with ((dpl_stubB :: S ++ U ++ [dpl_stubE]) ++ w :: W) by by app_norm.
    rewrite wr_app_at' by (simpl; rewrite !length_app; simpl; lia). by app_norm. }
  cbn [mbind option_bind]. assert (length (items dl) = length S + length U + length W + 3)%nat as Hlen.
  { rewrite Hi. simpl. rewrite !length_app. simpl. lia. }
  destruct (_ && _).
  - destruct (ascending_pgnos_split S (pgno x) Ha) as (A & B & -> & HA & HB).
    assert (Forall (fun y => pgno x < pgno y) B) as HB'.
    { apply Forall_forall. intros y Hy. rewrite Forall_forall in HB. specialize (HB y Hy). simpl in HB.
      enough (pgno x <> pgno y) by lia. intros E. apply Hnew. rewrite E. apply list_elem_of_fmap_2. rewrite !elem_of_app. tauto. }
    rewrite Hs in *. replace (Datatypes.S (dl_length dl) - Datatypes.S (length (A ++ B)))%nat with (length U) by lia.
    destruct (shift_unsorted_spec U (dpl_stubB :: A ++ B) dpl_stubE (dpl_stubE :: W)) as (g & Eg); [done|].
    replace (length (dpl_stubB :: A ++ B) + length U - 1)%nat with (dl_length dl) in Eg by (simpl; lia).
    replace (dpl_stubB :: (A ++ B) ++ U ++ dpl_stubE :: dpl_stubE :: W) with ((dpl_stubB :: A ++ B) ++ U ++ dpl_stubE :: dpl_stubE :: W)
      by by app_norm.
    rewrite Eg. cbn [mbind option_bind Nat.pred].
    assert (exists P p, dpl_stubB :: A = P ++ [p] /\ pgno p <= pgno x) as (P & p & EP & Hpx).
    { destruct A as [|a A _] using rev_ind; [exists [], dpl_stubB; unfold pgno_used in Hx; simpl; split; [done|lia]|].
      exists (dpl_stubB :: A), a. split; [done|]. apply Forall_app in HA as [_ [HA _]%Forall_cons]. lia. }
    destruct (shift_sorted_spec B (Datatypes.S (Datatypes.S (length (A ++ B)))) P p g (U ++ dpl_stubE :: W) (pgno x)) as (g' & Es);
      [rewrite length_app; lia|done|done|].
    assert (length P = length A) as HlP by (apply (f_equal length) in EP; rewrite length_app in EP; simpl in EP; lia).
    replace ((dpl_stubB :: A ++ B) ++ g :: U ++ dpl_stubE :: W) with (P ++ p :: B ++ g :: U ++ dpl_stubE :: W).
    2: { change (dpl_stubB :: A ++ B) with ((dpl_stubB :: A) ++ B). rewrite EP. by app_norm. }
    replace (length P + length B)%nat with (length (A ++ B)) in Es by (rewrite length_app; lia).
    rewrite Es. cbn [mbind option_bind].
    assert (wr (P ++ p :: g' :: B ++ U ++ dpl_stubE :: W) (length P + 1) x = Some (dpl_stubB :: (A ++ x :: B) ++ U ++ dpl_stubE :: W)) as ->.
    { replace (P ++ p :: g' :: B ++ U ++ dpl_stubE :: W) with ((P ++ [p]) ++ g' :: B ++ U ++ dpl_stubE :: W) by by app_norm.
      rewrite wr_app_at' by (by rewrite length_app). rewrite <- EP. by app_norm. }
    cbn [mbind option_bind]. eexists _, (A ++ x :: B), U. split; [done|]. split; [|split; [solve_Permutation|done]].
    apply (dpl_holds_added dl (A ++ B) U _ _ x); try done.
    + solve_Permutation.
    + apply ascending_pgnos_app in Ha as (HaA & HaB & HAB). apply ascending_pgnos_app. split_and!; [done| |].
      * rewrite fmap_cons. apply ascending_cons. split; [|done]. by rewrite Forall_fmap.
      * intros y z Hy [->|Hz]%elem_of_cons; [|by apply HAB]. rewrite Forall_forall in HA. by apply HA.
    + rewrite !length_app. simpl. lia.
    + eauto.
    + rewrite Hlen. simpl. repeat (rewrite length_app; simpl). lia.
  - assert (wr (dpl_stubB :: S ++ U ++ dpl_stubE :: dpl_stubE :: W) (dl_length dl + 1) x =
      Some (dpl_stubB :: S ++ (U ++ [x]) ++ dpl_stubE :: W)) as ->.
    { replace (dpl_stubB :: S ++ U ++ dpl_stubE :: dpl_stubE :: W) with ((dpl_stubB :: S ++ U) ++ dpl_stubE :: dpl_stubE :: W) by by app_norm.
      rewrite wr_app_at' by (simpl; rewrite !length_app; lia). by app_norm. }
    cbn [mbind option_bind]. eexists _, S, (U ++ [x]). split; [done|]. split; [|split; [solve_Permutation|done]].
    apply (dpl_holds_added dl S U _ _ x); try done.
    + solve_Permutation.
    + eauto.
    + rewrite Hlen. simpl. rewrite !length_app. simpl. lia.
Qed.
End append.

Lemma txn_dpl_append_spec have_cmov malloc t S U id page n :
  malloc_ok malloc -> dpl_holds (dirtylist t) S U -> pgno_used id -> id ∉ pgnos (S ++ U) ->
  let dp := mk_dp page id (u32 n) in
  (exists t' S' U', txn_dpl_append have_cmov malloc t id page n = Some (MDBX_SUCCESS, t') /\
    dpl_holds (dirtylist t') S' U' /\ S' ++ U' ≡ₚ dp :: S ++ U /\
    lru_stamp t' = set_stamp (lru_stamp t) page (dirtylru t) /\ dirtyroom t' = dirtyroom t /\ dirtylru t' = dirtylru t) \/
  (exists err t', txn_dpl_append have_cmov malloc t id page n = Some (err, t') /\ dirtylist t' = dirtylist t /\
    (err = MDBX_ENOMEM \/ (err = MDBX_TXN_FULL /\ PAGELIST_LIMIT <= Z.of_nat (length (S ++ U))))).
Proof.
  intros Hm Hdl Hid Hnew dp. unfold txn_dpl_append. cbn [dirtylist]. fold dp.
  pose proof (dh_cap _ _ _ Hdl) as Hcap. pose proof (dh_limit _ _ _ Hdl) as Hlim. pose proof (dh_length _ _ _ Hdl) as Hl.
  case_decide as Hfull.
  - case_decide as Hmax; [right; eexists _, _; split; [done|]; split; [done|]; right; rewrite length_app; split; [done|lia]|].
    set (n' := if decide _ then _ else _).
    assert (detent (dirtylist t) < n') as Hn'.
    { unfold n'. case_decide as Hbig; [lia|]. pose proof (Z.div_mod (detent (dirtylist t)) 2 ltac:(lia)).
      pose proof (Z.mod_pos_bound (detent (dirtylist t)) 2 ltac:(lia)). lia. }
    clearbody n'. destruct (txn_dpl_reserve malloc (Some (dirtylist t)) n') as [dl1|] eqn:E; [|right; eauto 10].
    destruct (txn_dpl_reserve_spec malloc Hm (dirtylist t) S U n' dl1 Hdl ltac:(lia) ltac:(lia) ltac:(lia) E) as [Hdl1 Hd1].
    pose proof (dh_length _ _ _ Hdl1) as Hl1.
    destruct (dpl_put_spec have_cmov dl1 S U dp Hdl1) as (dl' & S' & U' & -> & Hdl' & Hp & _); [lia|done|done|].
    left. cbn [mbind option_bind]. eexists _, S', U'. done.
  - destruct (dpl_put_spec have_cmov (dirtylist t) S U dp Hdl) as (dl' & S' & U' & -> & Hdl' & Hp & _); [lia|done|done|].
    left. cbn [mbind option_bind]. eexists _, S', U'. done.
Qed.

(** ** Removing *)

Lemma blit_shift_down {A} (P : list A) x Q R n :
  length Q = n -> blit (P ++ x :: Q ++ R) (S (length P)) (P ++ x :: Q ++ R) (length P) n =
  Some (P ++ Q ++ drop n (x :: Q ++ R)).
Proof.
  intros HQ. unfold blit. rewrite decide_True by (rewrite !length_app; simpl; rewrite length_app; lia). do 2 f_equal.
  - by rewrite take_app_length.
  - f_equal.
    + replace (P ++ x :: Q ++ R) with ((P ++ [x]) ++ Q ++ R) by by app_norm.
      replace (Datatypes.S (length P)) with (length (P ++ [x])) by (rewrite length_app; simpl; lia).
      rewrite drop_app_length, <- HQ. by rewrite take_app_length.
    + by rewrite drop_app_add.
Qed.

(** The entry in cell [k + 1] goes; [S] and [U] lose it at the place it has. *)
Lemma txn_dpl_remove_spec dl S U k x :
  dpl_holds dl S U -> (S ++ U) !! k = Some x ->
  exists dl' S' U', txn_dpl_remove dl (Datatypes.S k) = Some dl' /\ dpl_holds dl' S' U' /\
  S' ++ U' = delete k (S ++ U) /\ detent dl' = detent dl /\ txn_dpl_remove_ex dl (Datatypes.S k) (npages x) = Some dl'.
Proof.
  intros Hdl Hx. pose proof Hdl as [[W Hi] Hs Hl Ha Hu Ho Hp Hcap Hroom Hlim].
  unfold txn_dpl_remove, dpl_npages. rewrite (dh_rd _ _ _ _ _ Hdl Hx). cbn [mbind option_bind].
  destruct (list_split_at _ _ _ Hx) as (L1 & L2 & EL & <-).
  assert (exists S' U', S' ++ U' = L1 ++ L2 /\ ascending (pgnos S') /\
    length S' = (if decide (Datatypes.S (length L1) <= length S)%nat then Nat.pred (length S) else length S)) as (S' & U' & E' & Ha' & Hs').
  { case_decide as Hle.
    - assert (exists T, S = L1 ++ x :: T /\ L2 = T ++ U) as (T & -> & ->).
      { exists (drop (Datatypes.S (length L1)) S).
        assert (S !! length L1 = Some x) as Hx' by (by rewrite lookup_app_l in Hx by lia).
        assert (S = L1 ++ x :: drop (Datatypes.S (length L1)) S) as ES.
        { rewrite <- (take_drop_middle S (length L1) x Hx') at 1. f_equal.
          apply (f_equal (take (length L1))) in EL. by rewrite take_app_le, take_app_length in EL by lia. }
        split; [done|]. rewrite ES in EL. rewrite <- app_assoc in EL. apply app_inv_head in EL. by simplify_eq/=. }
      exists (L1 ++ T), U. split; [by app_norm|]. split; [|rewrite !length_app; simpl; lia].
      apply ascending_pgnos_app in Ha as (H1 & H2 & H3). rewrite fmap_cons, ascending_cons in H2.
      apply ascending_pgnos_app. split_and!; [done|apply H2|]. intros y z Hy Hz. apply H3; [done|by right].
    - exists S, (drop (length S) (L1 ++ L2)). split; [|done]. rewrite drop_app_le by lia.
      assert (take (length S) L1 = S) as E1.
      { transitivity (take (length S) (S ++ U)); [by rewrite EL, take_app_le by lia|by rewrite take_app_length]. }
      rewrite <- E1 at 1. by rewrite app_assoc, take_drop. }
  pose proof (f_equal length EL) as HlL. rewrite !length_app in HlL. simpl in HlL.
  unfold txn_dpl_remove_ex. rewrite Nat.add_1_r.
  assert (items dl = (dpl_stubB :: L1) ++ x :: (L2 ++ [dpl_stubE]) ++ W) as Hi'.
  { rewrite Hi. rewrite app_assoc, EL. by app_norm. }
  rewrite Hi'.
  pose proof (blit_shift_down (dpl_stubB :: L1) x (L2 ++ [dpl_stubE]) W
    (Nat.pred (dl_length dl) + 2 - Datatypes.S (length L1))) as Eb.
  simpl in Eb |- *. rewrite Eb by (rewrite length_app; simpl; lia). cbn [mbind option_bind]. clear Eb.
  assert (S ++ U ≡ₚ x :: L1 ++ L2) as Hperm by (rewrite EL; solve_Permutation).
  set (D := drop _ _). assert (length D = Datatypes.S (length W)) as HD.
  { unfold D. rewrite length_drop. simpl. repeat (rewrite length_app; simpl). lia. }
  eexists _, S', U'. split; [done|]. split; [|split; [|done]].
  - split; cbn [items sorted dl_length pages_including_loose detent]; try done; try lia.
    + exists D. rewrite (app_assoc S'), E'. by app_norm.
    + rewrite Hs', Hs. by case_decide.
    + apply (f_equal length) in E'. rewrite !length_app in E'. lia.
    + rewrite E'. rewrite Hperm in Hu. by apply NoDup_cons in Hu as [_ ?].
    + rewrite E'. rewrite Hperm in Ho. by apply Forall_cons in Ho as [_ ?].
    + rewrite E', Hp, (pages_of_perm _ _ Hperm). unfold u64. simpl. rewrite Zminus_mod_idemp_l. f_equal. lia.
    + simpl. repeat (rewrite length_app; simpl). rewrite HD. rewrite Hi in Hroom. simpl in Hroom. repeat (rewrite length_app in Hroom; simpl in Hroom). lia.
  - rewrite E', EL. by rewrite delete_middle.
Qed.

(** ** Intersection *)

(** The pages of the entries do not overlap. *)
Definition disjoint_pages (L : list dp_t) : Prop :=
  forall x y, x ∈ L -> y ∈ L -> pgno x < pgno y -> pgno x + npages x <= pgno y.

Definition overlaps (id n : Z) (x : dp_t) : Prop := pgno x < id + n /\ id < pgno x + npages x.

#[export] Instance overlaps_dec id n x : Decision (overlaps id n x).
Proof. unfold overlaps. apply _. Defined.

Lemma txn_dpl_intersect_spec have_cmov dl L id n :
  dpl_holds dl L [] -> disjoint_pages L -> Forall (fun x => 1 <= npages x /\ pgno x + npages x <= P_INVALID) L ->
  0 < id -> 0 <= n -> id + n <= P_INVALID ->
  txn_dpl_intersect have_cmov dl id n = Some (bool_decide (Exists (overlaps id n) L), dl).
Proof.
  intros Hdl Hdis Hok Hid Hn Hmax. unfold txn_dpl_intersect, dpl_endpgno.
  destruct (ascending_pgnos_split L id (dh_ascending _ _ _ Hdl)) as (A & B & -> & HA & HB).
  rewrite (txn_dpl_search_sorted have_cmov dl A B id Hdl HA HB). cbn [mbind option_bind].
  rewrite Nat.sub_succ, Nat.sub_0_r.
  assert (u64 (id + n) = id + n) as Eu by (apply u64_small; unfold P_INVALID, UINT32_MAX, UINT64_MAX in *; lia).
  rewrite Forall_forall in HA, HB, Hok.
  assert (exists y, rd (items dl) (S (length A)) = Some y /\
    (u64 (id + n) > pgno y <-> exists x, x ∈ B /\ overlaps id n x)) as (y & -> & Hy).
  { rewrite Eu. destruct B as [|b B].
    - exists dpl_stubE. split; [|simpl; split; [lia|]; intros (x & Hx & _); by apply elem_of_nil in Hx].
      rewrite <- (dh_rd_end _ _ _ Hdl), (dh_length _ _ _ Hdl), app_nil_r. f_equal. simpl. lia.
    - exists b. split; [eapply dh_rd; [done|]; by rewrite app_nil_r, lookup_app_r, Nat.sub_diag by lia|].
      assert (b ∈ A ++ b :: B) as Hb by (apply elem_of_app; right; by left). specialize (Hok b Hb). specialize (HB b ltac:(by left)).
      simpl in HB. split; [intros; exists b; split; [by left|]; unfold overlaps; lia|].
      intros (x & [->|Hx]%elem_of_cons & Ho); [unfold overlaps in Ho; lia|].
      pose proof (dh_ascending _ _ _ Hdl) as Ha. apply ascending_pgnos_app in Ha as (_ & Ha & _).
      rewrite fmap_cons, ascending_cons, Forall_fmap, Forall_forall in Ha. destruct Ha as [Ha _]. specialize (Ha x Hx).
      unfold overlaps in Ho. simpl in Ha. lia. }
  cbn [mbind option_bind].
  assert (exists z, rd (items dl) (length A) = Some z /\ (u32 (npages z + pgno z) > id <-> exists x, x ∈ A /\ overlaps id n x)) as (z & -> & Hz).
  { destruct A as [|a A _] using rev_ind.
    - exists dpl_stubB. split; [by rewrite <- (dh_rd_0 _ _ _ Hdl)|]. change (u32 (npages dpl_stubB + pgno dpl_stubB)) with 1.
      split; [lia|]. intros (x & Hx & _). by apply elem_of_nil in Hx.
    - exists a. assert (a ∈ (A ++ [a]) ++ B) as Hain by (rewrite !elem_of_app; left; right; by left).
      pose proof (Hok a Hain) as Hoka. split.
      + rewrite length_app, Nat.add_1_r. eapply dh_rd; [done|]. rewrite app_nil_r, <- app_assoc, lookup_app_r, Nat.sub_diag by lia. done.
      + pose proof (HA a ltac:(apply elem_of_app; right; by left)) as Haid. simpl in Haid.
        assert (0 < pgno a).
        { pose proof (dh_used _ _ _ Hdl) as Hu. rewrite app_nil_r, Forall_fmap, Forall_forall in Hu. apply (Hu a Hain). }
        rewrite u32_small by (unfold P_INVALID in *; lia).
        split; [intros; exists a; split; [apply elem_of_app; right; by left|]; unfold overlaps; lia|].
        intros (x & [Hx| ->%list_elem_of_singleton]%elem_of_app & Ho); [|unfold overlaps in Ho; lia].
        pose proof (dh_ascending _ _ _ Hdl) as Ha. rewrite <- app_assoc in Ha. apply ascending_pgnos_app in Ha as (_ & _ & Ha).
        specialize (Ha x a Hx ltac:(by left)). assert (x ∈ (A ++ [a]) ++ B) as Hxin by (rewrite !elem_of_app; tauto).
        specialize (Hdis x a Hxin Hain Ha). unfold overlaps in Ho. lia. }
  cbn [mbind option_bind]. do 2 f_equal. rewrite <- bool_decide_or. apply bool_decide_ext.
  rewrite Hy, Hz, Exists_exists. split.
  - intros [(x & Hx & Ho)|(x & Hx & Ho)]; exists x; rewrite elem_of_app; tauto.
  - intros (x & [Hx|Hx]%elem_of_app & Ho); [right|left]; eauto.
Qed.

(** ** The debugging search *)

Lemma find_unsorted_spec dl S U id n :
  dpl_holds dl S U -> (n <= length U)%nat ->
  exists r, find_unsorted n dl id = Some r /\
  match r with
  | Some p => exists x, x ∈ U /\ pgno x = id /\ ptr x = p
  | None => Forall (fun x => pgno x <> id) (take n U)
  end.
Proof.
  intros Hdl. induction n as [|n IH]; intros Hn; [exists None; split; [done|constructor]|].
  destruct (lookup_lt_is_Some_2 U n) as [x Hx]; [lia|]. cbn [find_unsorted].
  assert (rd (items dl) (sorted dl + Datatypes.S n) = Some x) as ->.
  { rewrite (dh_sorted _ _ _ Hdl). replace (length S + Datatypes.S n)%nat with (Datatypes.S (length S + n)) by lia.
    eapply dh_rd; [done|]. rewrite lookup_app_r by lia. rewrite <- Hx. f_equal. lia. }
  cbn [mbind option_bind]. case_decide as E.
  - eexists. split; [done|]. exists x. split; [by eapply list_elem_of_lookup_2|done].
  - destruct IH as (r & -> & Hr); [lia|]. exists r. split; [done|]. destruct r; [done|].
    rewrite (take_S_r _ _ x Hx). apply Forall_app. split; [done|]. by constructor.
Qed.

Lemma debug_txn_dpl_find_spec have_cmov dl S U id :
  dpl_holds dl S U -> pgno_used id ->
  exists r, debug_txn_dpl_find have_cmov dl id = Some r /\
  match r with
  | Some p => exists x, x ∈ S ++ U /\ pgno x = id /\ ptr x = p
  | None => forall x, x ∈ S ++ U -> pgno x <> id
  end.
Proof.
  intros Hdl Hid. unfold debug_txn_dpl_find.
  replace (dl_length dl - sorted dl)%nat with (length U) by (rewrite (dh_length _ _ _ Hdl), (dh_sorted _ _ _ Hdl); lia).
  destruct (find_unsorted_spec dl S U id (length U) Hdl) as (r & -> & Hr); [done|]. cbn [mbind option_bind].
  destruct r as [p|].
  - destruct Hr as (x & Hx & E). eexists. split; [done|]. exists x. split; [apply elem_of_app; by right|done].
  - rewrite take_ge in Hr by done. case_decide as Hs.
    + destruct (bsearch_result have_cmov dl S U id Hdl Hr) as (i & y & -> & Hi & Hy & H1 & H2).
      cbn [mbind option_bind]. rewrite Hy. cbn [mbind option_bind]. eexists. split; [done|]. case_decide as Ey.
      * exists y. destruct (H2 Ey) as [Hin|E]; [|unfold pgno_used, P_INVALID in *; lia]. split; [by eapply list_elem_of_lookup_2|done].
      * intros x Hx Ex. apply Ey. by rewrite (H1 x Hx Ex).
    + exists None. split; [done|]. rewrite (dh_sorted _ _ _ Hdl) in Hs. destruct S; [|simpl in Hs; lia].
      by rewrite Forall_forall in Hr.
Qed.

(** ** Sifting *)

Section sift.
Context (F : list Z) (spilled : Z).
Implicit Types (L K G R W : list dp_t) (c : list dp_t).

(** The pages of the list [F] of page numbers, shifted when it is a spill list. *)
Definition named (x : dp_t) : Prop := pgno x ∈ ((fun p => Z.shiftr p spilled) <$> F).
#[local] Instance named_dec x : Decision (named x).
Proof. unfold named. apply _. Defined.

Definition kept L : list dp_t := filter (fun x => ~ named x) L.
Definition dropped L : list dp_t := filter named L.
Definition release_all (e : shadow_env) L : shadow_env :=
  foldl (fun e x => page_shadow_release e (ptr x) (npages x)) e L.

Lemma kept_cons_keep x L : ~ named x -> kept (x :: L) = x :: kept L /\ dropped (x :: L) = dropped L.
Proof. intros H. unfold kept, dropped. by rewrite filter_cons_True, filter_cons_False by done. Qed.

Lemma kept_cons_drop x L : named x -> kept (x :: L) = kept L /\ dropped (x :: L) = x :: dropped L.
Proof. intros H. unfold kept, dropped. rewrite filter_cons_False, filter_cons_True by (done || by intros []). done. Qed.

Lemma kept_none L : Forall (fun x => ~ named x) L -> kept L = L /\ dropped L = [].
Proof. induction 1 as [|x L Hx _ [IH1 IH2]]; [done|]. destruct (kept_cons_keep x L Hx) as [-> ->]. by rewrite IH1, IH2. Qed.

Lemma kept_dropped_perm L : L ≡ₚ kept L ++ dropped L.
Proof.
  induction L as [|x L IH]; [done|]. destruct (decide (named x)) as [H|H].
  - destruct (kept_cons_drop x L H) as [-> ->]. rewrite IH at 1. solve_Permutation.
  - destruct (kept_cons_keep x L H) as [-> ->]. simpl. by rewrite IH at 1.
Qed.

Lemma shiftr_spilled_mono p q : 0 <= spilled -> p < q -> Z.shiftr p spilled <= Z.shiftr q spilled.
Proof. intros Hs H. rewrite !Z.shiftr_div_pow2 by done. apply Z.div_le_mono; [apply Z.pow_pos_nonneg; lia|lia]. Qed.

(** The pages [F2] that were scanned are behind every entry that is left. *)
Definition behind (F2 : list Z) R : Prop := forall q x, q ∈ F2 -> x ∈ R -> Z.shiftr q spilled < pgno x.

Lemma not_named F1 F2 x R :
  0 <= spilled -> F = F1 ++ F2 -> descending F -> behind F2 (x :: R) ->
  (forall p F0, F1 = F0 ++ [p] -> pgno x < Z.shiftr p spilled) -> ~ named x.
Proof.
  intros Hs EF Hd Hb Hlast (q & Eq & Hq)%list_elem_of_fmap. rewrite EF in Hq, Hd. apply elem_of_app in Hq as [Hq|Hq].
  - destruct F1 as [|p F0 _] using rev_ind; [by apply elem_of_nil in Hq|]. specialize (Hlast p F0 eq_refl).
    apply descending_app in Hd as (Hd & _ & _). apply descending_app in Hd as (_ & _ & Hd).
    apply elem_of_app in Hq as [Hq| ->%list_elem_of_singleton]; [|lia].
    specialize (Hd q p Hq ltac:(by left)). pose proof (shiftr_spilled_mono p q Hs Hd). lia.
  - specialize (Hb q x Hq ltac:(by left)). lia.
Qed.

Lemma move_items_spec R : forall K G Q,
  exists G', move_items (length R) (K ++ G ++ R ++ Q) (length K) (length K + length G) = Some (K ++ R ++ G' ++ Q) /\ length G' = length G.
Proof.
  induction R as [|x R IH]; intros K G Q; [by exists G|]. cbn [move_items length].
  assert (rd (K ++ G ++ (x :: R) ++ Q) (length K + length G) = Some x) as ->.
  { rewrite app_assoc. apply rd_app_at'. by rewrite length_app. }
  cbn [mbind option_bind]. destruct G as [|g G].
  - cbn [app]. rewrite (wr_app_at' K x) by done. cbn [mbind option_bind]. destruct (IH (K ++ [x]) [] Q) as (G' & E & HG').
    exists G'. split; [|done]. rewrite length_app in E. cbn [length] in E |- *. rewrite !Nat.add_0_r, Nat.add_1_r in *.
    revert E. app_norm. done.
  - cbn [app]. rewrite (wr_app_at' K g) by done. cbn [mbind option_bind]. destruct (IH (K ++ [x]) (G ++ [x]) Q) as (G' & E & HG').
    exists G'. rewrite !length_app in *. cbn [length] in *. split; [|lia].
    replace (Datatypes.S (length K + Datatypes.S (length G))) with (length K + 1 + (length G + 1))%nat by lia.
    replace (Datatypes.S (length K)) with (length K + 1)%nat by lia. revert E. app_norm. done.
Qed.

Hypothesis Hspilled : 0 <= spilled.
Hypothesis Hdesc : descending F.
Variable pl : list Z.
Hypothesis Hpl : holding pl F.

Lemma rd_page F1 p F2 : F = (F1 ++ [p]) ++ F2 -> rd pl (S (length F1)) = Some p.
Proof. intros E. eapply holding_rd_nth; [exact Hpl|]. rewrite E, <- app_assoc, lookup_app_r, Nat.sub_diag by lia. done. Qed.

Lemma behind_tail F2 x R : behind F2 (x :: R) -> behind F2 R.
Proof. intros H q y Hq Hy. apply H; [done|by right]. Qed.

Lemma behind_cons F2 p x R :
  behind F2 (x :: R) -> Z.shiftr p spilled <= pgno x -> (forall y, y ∈ R -> pgno x < pgno y) -> behind (p :: F2) R.
Proof.
  intros H Hp HR q y [->|Hq]%elem_of_cons Hy; [specialize (HR y Hy); lia|]. apply H; [done|by right].
Qed.

(** [K] are the cells in front of [w], [R] those from [r] on, [F1] the pages to be scanned. *)
Lemma dpl_sift_update_spec fuel : forall F1 F2 K G R W pages e,
  (length R + length F1 < fuel)%nat -> F = F1 ++ F2 -> behind F2 R -> ascending (pgnos R) -> (0 < length K)%nat ->
  exists G', dpl_sift_update fuel (K ++ G ++ R ++ W) pl spilled (length K) (length K + length G) (length F1)
  (length K + length G + length R - 1) (u64 pages) e =
  Some (K ++ kept R ++ G' ++ W, (length K + length (kept R))%nat, u64 (pages - pages_of (dropped R)), release_all e (dropped R)) /\
  (length (kept R) + length G' = length G + length R)%nat.
Proof.
  induction fuel as [|fuel IH]; intros F1 F2 K G R W pages e Hf EF Hb Ha HK; [lia|]. cbn [dpl_sift_update].
  destruct F1 as [|p F1 _] using rev_ind.
  { rewrite decide_True by done.
    assert (Forall (fun x => ~ named x) R) as Hno.
    { apply Forall_forall. intros x Hx. apply (not_named [] F2 x []); [done..| |by intros p [|]].
      intros q y Hq ->%list_elem_of_singleton. by apply Hb. }
    destruct (kept_none R Hno) as [-> ->]. rewrite Z.sub_0_r.
    replace (S (length K + length G + length R - 1) - (length K + length G))%nat with (length R) by lia.
    destruct (move_items_spec R K G W) as (G' & -> & HG). cbn [mbind option_bind]. exists G'. split; [done|]. lia. }
  rewrite length_app, Nat.add_1_r in *. rewrite decide_False by lia.
  destruct R as [|x R].
  { rewrite decide_False by (simpl; lia). exists G. simpl. rewrite Z.sub_0_r, Nat.add_0_r. split; [done|lia]. }
  cbn [length] in *. rewrite decide_True by lia. rewrite (rd_page F1 p F2 EF). cbn [mbind option_bind].
  assert (rd (K ++ G ++ (x :: R) ++ W) (length K + length G) = Some x) as ->.
  { rewrite app_assoc. apply rd_app_at'. by rewrite length_app. }
  cbn [mbind option_bind]. rewrite fmap_cons, ascending_cons, Forall_fmap, Forall_forall in Ha. destruct Ha as [Hx Ha].
  case_decide as Hlt; [|case_decide as Hgt].
  - (* the entry is kept *)
    assert (~ named x) as Hn by (apply (not_named (F1 ++ [p]) F2 x R); [done..|]; intros p' F0 [_ ->]%app_inj_tail; lia).
    destruct (kept_cons_keep x R Hn) as [-> ->].
    assert (exists G1, wr (K ++ G ++ (x :: R) ++ W) (length K) x = Some ((K ++ [x]) ++ G1 ++ R ++ W) /\ length G1 = length G) as (G1 & -> & HG1).
    { destruct G as [|g G].
      - exists []. cbn [app]. rewrite wr_app_at' by done. split; [by app_norm|done].
      - exists (G ++ [x]). cbn [app]. rewrite wr_app_at' by done. split; [by app_norm|rewrite length_app; simpl; lia]. }
    cbn [mbind option_bind].
    destruct (IH (F1 ++ [p]) F2 (K ++ [x]) G1 R W pages e) as (G' & E & HG'); [rewrite length_app; simpl; lia|done|by eapply behind_tail|done|rewrite length_app; simpl; lia|].
    exists G'. rewrite !length_app, HG1 in *. cbn [length] in *.
    replace (Datatypes.S (length K)) with (length K + 1)%nat by lia.
    replace (Datatypes.S (length K + length G)) with (length K + 1 + length G)%nat by lia.
    replace (length K + length G + Datatypes.S (length R) - 1)%nat with (length K + 1 + length G + length R - 1)%nat by lia.
    replace (Datatypes.S (length F1)) with (length F1 + 1)%nat by lia. rewrite E. split; [|lia].
    do 4 f_equal; [by app_norm|simpl; lia].
  - (* the next page *)
    cbn [Nat.pred].
    destruct (IH F1 (p :: F2) K G (x :: R) W pages e) as (G' & E & HG'); [simpl; lia|rewrite EF; by app_norm| | |done|].
    + intros q y [->|Hq]%elem_of_cons Hy; [|by apply Hb]. apply elem_of_cons in Hy as [->|Hy]; [lia|]. specialize (Hx y Hy). simpl in Hx. lia.
    + rewrite fmap_cons, ascending_cons, Forall_fmap, Forall_forall. done.
    + exists G'. done.
  - (* the entry goes *)
    assert (named x) as Hn.
    { unfold named. apply list_elem_of_fmap. exists p. split; [lia|]. rewrite EF, !elem_of_app. left. right. by left. }
    destruct (kept_cons_drop x R Hn) as [-> ->]. cbn [Nat.pred].
    destruct (IH F1 (p :: F2) K (G ++ [x]) R W (pages - npages x) (page_shadow_release e (ptr x) (npages x))) as (G' & E & HG');
      [lia|rewrite EF; by app_norm|apply (behind_cons F2 p x R); [done|lia|done]|done|done|].
    exists G'. rewrite length_app in *. cbn [length] in *. split; [|lia].
    replace (u64 (u64 pages - npages x)) with (u64 (pages - npages x)) by (unfold u64; by rewrite Zminus_mod_idemp_l).
    replace (Datatypes.S (length K + length G)) with (length K + (length G + 1))%nat by lia.
    replace (length K + length G + Datatypes.S (length R) - 1)%nat with (length K + (length G + 1) + length R - 1)%nat by lia.
    change (pages_of (x :: dropped R)) with (npages x + pages_of (dropped R)).
    replace (pages - (npages x + pages_of (dropped R))) with (pages - npages x - pages_of (dropped R)) by lia.
    replace (K ++ G ++ (x :: R) ++ W) with (K ++ (G ++ [x]) ++ R ++ W) by by app_norm. exact E.
Qed.

(** The scan ends at the first entry that is named, or there is none. *)
Lemma dpl_sift_scan_spec fuel : forall F1 F2 K R W,
  (length R + length F1 < fuel)%nat -> F = F1 ++ F2 -> behind F2 R -> ascending (pgnos R) -> (0 < length K)%nat -> F1 <> [] ->
  (exists K' x R' F1' F2', dpl_sift_scan fuel (K ++ R ++ W) pl spilled (length K) (length F1) (length K + length R - 1) =
    Some (Some ((length K + length K')%nat, Datatypes.S (length F1'))) /\
    R = K' ++ x :: R' /\ Forall (fun y => ~ named y) K' /\ named x /\ F = F1' ++ F2' /\ behind F2' R') \/
  (dpl_sift_scan fuel (K ++ R ++ W) pl spilled (length K) (length F1) (length K + length R - 1) = Some None /\
    Forall (fun y => ~ named y) R).
Proof.
  induction fuel as [|fuel IH]; intros F1 F2 K R W Hf EF Hb Ha HK Hne; [lia|]. cbn [dpl_sift_scan].
  destruct F1 as [|p F1 _] using rev_ind; [done|]. rewrite length_app, Nat.add_1_r in *.
  destruct R as [|x R].
  { rewrite decide_False by (simpl; lia). right. by split. }
  cbn [length] in *. rewrite decide_True by lia. rewrite (rd_page F1 p F2 EF). cbn [mbind option_bind app].
  rewrite rd_app_at' by done. cbn [mbind option_bind].
  pose proof Ha as Ha'. rewrite fmap_cons, ascending_cons, Forall_fmap, Forall_forall in Ha. destruct Ha as [Hx Ha].
  case_decide as Hneq.
  2: { left. exists [], x, R, F1, (p :: F2). split_and!.
    - by rewrite Nat.add_0_r.
    - done.
    - constructor.
    - unfold named. apply list_elem_of_fmap. exists p. split; [lia|]. rewrite EF, !elem_of_app. left. right. by left.
    - rewrite EF. by app_norm.
    - apply (behind_cons F2 p x R); [done|lia|done]. }
  destruct (pgno x <? Z.shiftr p spilled) eqn:Ecmp.
  - rewrite decide_True by lia.
    assert (~ named x) as Hn by (apply (not_named (F1 ++ [p]) F2 x R); [done..|]; intros p' F0 [_ ->]%app_inj_tail; lia).
    destruct (IH (F1 ++ [p]) F2 (K ++ [x]) R W) as [(K' & y & R' & F1' & F2' & E & -> & HK' & Hy & EF' & Hb')|[E Hno]];
      [rewrite length_app; simpl; lia|done|by eapply behind_tail|done|rewrite length_app; simpl; lia|by destruct F1|left|right];
      rewrite !length_app in E; cbn [length] in E;
      replace (Datatypes.S (length K)) with (length K + 1)%nat by lia;
      replace (Datatypes.S (length F1)) with (length F1 + 1)%nat by lia;
      rewrite <- app_assoc in E; cbn [app] in E.
    + exists (x :: K'), y, R', F1', F2'. split_and!; try done; [|by constructor].
      cbn [length] in *. rewrite length_app in *. cbn [length] in *.
      replace (length K + Datatypes.S (length K' + Datatypes.S (length R')) - 1)%nat
        with (length K + 1 + (length K' + Datatypes.S (length R')) - 1)%nat by lia.
      replace (length K + Datatypes.S (length K'))%nat with (length K + 1 + length K')%nat by lia. exact E.
    + split; [|by constructor]. replace (length K + Datatypes.S (length R) - 1)%nat with (length K + 1 + length R - 1)%nat by lia. exact E.
  - assert (behind (p :: F2) (x :: R)) as Hb2.
    { intros q y [->|Hq]%elem_of_cons Hy; [|by apply Hb]. apply elem_of_cons in Hy as [->|Hy]; [lia|]. specialize (Hx y Hy). simpl in Hx. lia. }
    cbn [Nat.pred]. case_decide as H0.
    + destruct (IH F1 (p :: F2) K (x :: R) W) as [H|H]; try done; [simpl; lia|rewrite EF; by app_norm|by intros ->|by left|by right].
    + right. split; [done|]. assert (F1 = []) as -> by (destruct F1; [done|simpl in H0; lia]).
      apply Forall_forall. intros y Hy. apply (not_named [] (p :: F2) y []); [done|rewrite EF; done|done| |by intros ? [|]].
      intros q z Hq ->%list_elem_of_singleton. by apply Hb2.
Qed.
End sift.

Section sift_all.
Context (have_cmov : bool) (F : list Z) (spilled : Z).
Implicit Types (L S U W : list dp_t).
#[local] Abbreviation named := (named F spilled).
#[local] Abbreviation kept := (kept F spilled).
#[local] Abbreviation dropped := (dropped F spilled).
#[local] Existing Instance named_dec.

Lemma kept_app L M : kept (L ++ M) = kept L ++ kept M /\ dropped (L ++ M) = dropped L ++ dropped M.
Proof. unfold kept, dropped. by rewrite !filter_app. Qed.

Lemma kept_perm L M : L ≡ₚ M -> kept L ≡ₚ kept M /\ dropped L ≡ₚ dropped M.
Proof. intros H. unfold kept, dropped. by rewrite H. Qed.

Lemma ascending_pgnos_filter (P : dp_t -> Prop) `{forall x, Decision (P x)} L :
  ascending (pgnos L) -> ascending (pgnos (filter P L)).
Proof.
  induction L as [|x L IH]; [done|]. rewrite fmap_cons, ascending_cons, Forall_fmap. intros [Hx Ha].
  destruct (decide (P x)); [rewrite filter_cons_True by done|rewrite filter_cons_False by done; auto].
  rewrite fmap_cons, ascending_cons, Forall_fmap. split; [|auto]. apply Forall_forall. intros y [_ Hy]%list_elem_of_filter.
  rewrite Forall_forall in Hx. by apply Hx.
Qed.

(** The list that is left when the entries [D] of a sorted list have gone. *)
Lemma dpl_holds_sifted dl L M D W c len pages :
  dpl_holds dl L [] -> L ≡ₚ M ++ D -> ascending (pgnos M) -> c = dpl_stubB :: M ++ dpl_stubE :: W ->
  length c = length (items dl) -> len = length M -> pages = u64 (pages_including_loose dl - pages_of D) ->
  dpl_holds (mk_dpl len len pages (detent dl) c) M [].
Proof.
  intros [_ Hs Hl Ha Hu Ho Hp Hcap Hroom Hlim] HL HM -> Hlen -> ->. rewrite app_nil_r in *.
  pose proof (Permutation_length HL) as HlL. rewrite length_app in HlL. simpl in Hl.
  split; cbn [items sorted dl_length pages_including_loose detent]; rewrite ?app_nil_r; try done; try lia.
  - by exists W.
  - rewrite HL, fmap_app in Hu. by apply NoDup_app in Hu as [? _].
  - rewrite HL, fmap_app in Ho. by apply Forall_app in Ho as [? _].
  - rewrite Hp, (pages_of_perm _ _ HL), pages_of_app. unfold u64. rewrite Zminus_mod_idemp_l. f_equal. lia.
Qed.

Definition sifted t t' S U : Prop :=
  exists S' U' D, dpl_holds (dirtylist t') S' U' /\ S' ++ U' ≡ₚ kept (S ++ U) /\
  D ≡ₚ dropped (S ++ U) /\ ascending (pgnos D) /\ txn_env t' = release_all (txn_env t) D /\
  dirtyroom t' = dirtyroom t + Z.of_nat (length D) /\ lru_stamp t' = lru_stamp t /\ dirtylru t' = dirtylru t.

Lemma sifted_none t S U dl' S' U' :
  dpl_holds dl' S' U' -> S' ++ U' ≡ₚ S ++ U -> Forall (fun x => ~ named x) (S ++ U) -> sifted t (with_dirtylist t dl') S U.
Proof.
  intros Hdl Hp Hno. destruct (kept_none F spilled _ Hno) as [E1 E2]. exists S', U', []. rewrite E1, E2.
  split_and!; try done. simpl. lia.
Qed.
End sift_all.

Lemma txn_dpl_sift_spec have_cmov t S U pl F (spilled : bool) :
  dpl_holds (dirtylist t) S U -> holding pl F -> descending F ->
  0 <= dirtyroom t -> dirtyroom t + Z.of_nat (length (S ++ U)) <= UINT64_MAX ->
  exists t', txn_dpl_sift have_cmov t pl spilled = Some t' /\ sifted F (if spilled then 1 else 0) t t' S U.
Proof.
  intros Hdl Hpl Hd Hr0 Hr1. unfold txn_dpl_sift. set (sp := if spilled then 1 else 0).
  assert (0 <= sp) as Hsp by (unfold sp; destruct spilled; lia). clearbody sp.
  rewrite (holding_size _ _ Hpl). case_decide as Hne.
  2: { exists t. split; [done|]. destruct t as [dl lru room st env]. apply (sifted_none F sp (mk_dtxn dl lru room st env) S U dl S U Hdl); [done|].
    pose proof (dh_length _ _ _ Hdl) as Hl. simpl in Hl, Hne. rewrite Hl in Hne. apply Forall_forall. intros x Hx Hn.
    assert (length F <> 0)%nat by (unfold named in Hn; destruct F; [by apply elem_of_nil in Hn|done]).
    assert (length (S ++ U) <> 0)%nat as Hsu by (destruct (S ++ U); [by apply elem_of_nil in Hx|done]).
    rewrite length_app in Hsu. lia. }
  destruct (txn_dpl_sort_spec (dirtylist t) S U Hdl) as (dl & N & -> & Hdl1 & HpN). cbn [mbind option_bind].
  destruct F as [|p F0 _] using rev_ind; [simpl in Hne; lia|]. set (F := F0 ++ [p]) in *.
  assert (length F = Datatypes.S (length F0)) as HlF by (unfold F; rewrite length_app; simpl; lia).
  rewrite HlF. assert (rd pl (Datatypes.S (length F0)) = Some p) as ->.
  { apply (rd_page F pl Hpl F0 p []). by rewrite app_nil_r. }
  cbn [mbind option_bind].
  destruct (ascending_pgnos_split N (Z.shiftr p sp) (dh_ascending _ _ _ Hdl1)) as (A & B & -> & HA & HB).
  rewrite (txn_dpl_search_sorted have_cmov dl A B _ Hdl1 HA HB). cbn [mbind option_bind].
  pose proof (dh_ascending _ _ _ Hdl1) as HaN. pose proof HaN as HaAB. apply ascending_pgnos_app in HaN as (HaA & HaB & HAB).
  assert (Forall (fun x => ~ named F sp x) A) as HnA.
  { apply Forall_forall. intros x Hx. rewrite Forall_forall in HA. specialize (HA x Hx). simpl in HA.
    apply (not_named F sp F [] x []); [done|by rewrite app_nil_r|done|intros q y Hq; by apply elem_of_nil in Hq|].
    intros p' F' [_ ->]%app_inj_tail. done. }
  destruct (dh_items _ _ _ Hdl1) as [W Hi]. cbn [app] in Hi.
  pose proof (dh_length _ _ _ Hdl1) as Hl. rewrite length_app in Hl. simpl in Hl. rewrite Nat.add_0_r in Hl.
  assert (items dl = (dpl_stubB :: A) ++ B ++ dpl_stubE :: W) as Hi1 by (rewrite Hi; by app_norm).
  destruct (dpl_sift_scan_spec F sp Hsp Hd pl Hpl (Datatypes.S (Datatypes.S (dl_length dl) + Datatypes.S (length F0))) F [] (dpl_stubB :: A) B (dpl_stubE :: W))
    as [(K' & x & R & F1 & F2 & E & -> & HK & Hx & EF & Hb)|[E Hno]];
    [lia|by rewrite app_nil_r|intros q y Hq; by apply elem_of_nil in Hq|done|simpl; lia|by unfold F; destruct F0|..];
    rewrite HlF, <- Hi1 in E; cbn [length] in E.
  2: { replace (Datatypes.S (length A) + length B - 1)%nat with (dl_length dl) in E by lia. rewrite E. cbn [mbind option_bind].
    eexists. split; [done|]. apply (sifted_none F sp t S U dl _ _ Hdl1); [by rewrite app_nil_r|].
    rewrite <- HpN. apply Forall_app. done. }
  assert (length (K' ++ x :: R) = length K' + Datatypes.S (length R))%nat as HlB by by rewrite length_app.
  replace (Datatypes.S (length A) + length (K' ++ x :: R) - 1)%nat with (dl_length dl) in E by lia.
  rewrite E. cbn [mbind option_bind].
  set (K := dpl_stubB :: A ++ K'). assert (length K = Datatypes.S (length A) + length K')%nat as HlK by (unfold K; simpl; rewrite length_app; lia).
  assert (items dl = K ++ [x] ++ R ++ dpl_stubE :: W) as Hi2 by (rewrite Hi1; unfold K; by app_norm).
  rewrite <- HlK, Hi2. cbn [app]. rewrite rd_app_at' by done. cbn [mbind option_bind].
  apply ascending_pgnos_app in HaB as (HaK & HaxR & HKx). pose proof HaxR as HaR. rewrite fmap_cons, ascending_cons in HaR. destruct HaR as [_ HaR].
  assert (x :: R ++ dpl_stubE :: W = [x] ++ R ++ dpl_stubE :: W) as -> by done.
  destruct (dpl_sift_update_spec F sp Hsp Hd pl Hpl (Datatypes.S (Datatypes.S (dl_length dl) + Datatypes.S (length F0))) F1 F2 K [x] R (dpl_stubE :: W)
    (pages_including_loose dl - npages x) (page_shadow_release (txn_env t) (ptr x) (npages x))) as (G' & Eu & HG');
    [apply (f_equal length) in EF; rewrite length_app in EF; lia|done|done|done|lia|].
  cbn [length] in Eu, HG'. rewrite Nat.add_1_r in Eu. cbn [Nat.pred].
  replace (Datatypes.S (length K) + length R - 1)%nat with (dl_length dl) in Eu by lia. rewrite Eu. cbn [mbind option_bind].
  set (M := A ++ K' ++ kept F sp R). assert (length K + length (kept F sp R) = Datatypes.S (length M))%nat as HlM.
  { unfold M, K. simpl. rewrite !length_app. lia. }
  assert (exists W', wr (K ++ kept F sp R ++ G' ++ dpl_stubE :: W) (length M + 1) dpl_stubE = Some (dpl_stubB :: M ++ dpl_stubE :: W') /\
    length (dpl_stubB :: M ++ dpl_stubE :: W') = length (items dl)) as (W' & Ew & HlW).
  { assert (exists g W', G' ++ dpl_stubE :: W = g :: W') as (g & W' & Eg) by (destruct G'; eauto).
    exists W'. replace (K ++ kept F sp R ++ G' ++ dpl_stubE :: W) with ((K ++ kept F sp R) ++ g :: W') by (rewrite Eg; by app_norm).
    rewrite wr_app_at' by (rewrite length_app; lia). split; [unfold M, K; by app_norm|].
    apply (f_equal length) in Eg. rewrite length_app in Eg. simpl in Eg. rewrite Hi2. simpl. repeat (rewrite length_app; simpl).
    unfold M in HlM |- *. rewrite !length_app in *. lia. }
  unfold dpl_setlen. cbn [items pages_including_loose detent]. rewrite HlM, Nat.sub_succ, Nat.sub_0_r, Ew.
  cbn [mbind option_bind with_sorted items dl_length pages_including_loose detent].
  destruct (kept_app F sp A (K' ++ x :: R)) as [EkA EdA]. destruct (kept_app F sp K' (x :: R)) as [EkK EdK].
  destruct (kept_none F sp A HnA) as [EkA' EdA']. destruct (kept_none F sp K' HK) as [EkK' EdK'].
  destruct (kept_cons_drop F sp x R Hx) as [Ekx Edx].
  assert (kept F sp (A ++ K' ++ x :: R) = M) as EM by (rewrite EkA, EkA', EkK, EkK', Ekx; done).
  assert (dropped F sp (A ++ K' ++ x :: R) = x :: dropped F sp R) as ED by (rewrite EdA, EdA', EdK, EdK', Edx; done).
  destruct (kept_perm F sp _ _ HpN) as [Hk1 Hk2]. rewrite EM in Hk1. rewrite ED in Hk2.
  pose proof (kept_dropped_perm F sp (A ++ K' ++ x :: R)) as Hkd. rewrite EM, ED in Hkd.
  assert (ascending (pgnos M)) as HaM by (rewrite <- EM; by apply ascending_pgnos_filter).
  eexists. split; [done|]. exists M, [], (x :: dropped F sp R). cbn [dirtylist txn_env dirtyroom lru_stamp dirtylru].
  split_and!; try done.
  - apply (dpl_holds_sifted dl (A ++ K' ++ x :: R) M (x :: dropped F sp R) W'); try done.
    cbn [pages_including_loose with_sorted]. f_equal. simpl. unfold pages_of. lia.
  - by rewrite app_nil_r.
  - rewrite <- ED. by apply ascending_pgnos_filter.
  - pose proof (Permutation_length Hkd) as H1. pose proof (Permutation_length HpN) as H2.
    rewrite !length_app in *. cbn [length] in *. rewrite u64_small by (unfold UINT64_MAX in *; lia). lia.
Qed.

(** ** Ages *)

Definition ptrs (L : list dp_t) : list page_ptr := ptr <$> L.

Lemma halve_stamps_spec c L : forall f i,
  (forall k x, L !! k = Some x -> rd c (i + k) = Some x) -> NoDup (ptrs L) ->
  exists f', halve_stamps (length L) f c i = Some f' /\
  forall p, f' p = if decide (p ∈ ptrs L) then Z.shiftr (f p) 1 else f p.
Proof.
  induction L as [|x L IH]; intros f i Hc Hnd.
  - exists f. split; [done|]. intros p. by rewrite decide_False by apply not_elem_of_nil.
  - cbn [halve_stamps length]. pose proof (Hc 0%nat x eq_refl) as Hx. rewrite Nat.add_0_r in Hx. rewrite Hx. cbn [mbind option_bind].
    apply NoDup_cons in Hnd as [Hn Hnd].
    destruct (IH (set_stamp f (ptr x) (Z.shiftr (f (ptr x)) 1)) (S i)) as (f' & -> & Hf'); [|done|].
    { intros k y Hy. replace (S i + k)%nat with (i + S k)%nat by lia. by apply Hc. }
    exists f'. split; [done|]. intros p. rewrite Hf'. unfold set_stamp, ptrs in *. rewrite fmap_cons.
    destruct (decide (p = ptr x)) as [->|Hp].
    + rewrite decide_False by done. rewrite decide_True by (by left). done.
    + destruct (decide (p ∈ ptr <$> L)) as [Hin|Hin].
      * rewrite decide_True by (by right). done.
      * rewrite decide_False by (by rewrite elem_of_cons; intros [|]). done.
Qed.

Definition has_entries (t : Z * dpl_t) (L : list dp_t) : Prop := exists S U, dpl_holds t.2 S U /\ L = S ++ U.

Lemma txn_dpl_lru_reduce_spec txns Ls : forall f,
  Forall2 has_entries txns Ls -> NoDup (ptrs (concat Ls)) ->
  exists f', txn_dpl_lru_reduce txns f = Some ((fun t => (Z.shiftr t.1 1, t.2)) <$> txns, f') /\
  forall p, f' p = if decide (p ∈ ptrs (concat Ls)) then Z.shiftr (f p) 1 else f p.
Proof.
  intros f H. revert f. induction H as [|[lru dl] L txns Ls (S & U & Hdl & ->) _ IH]; intros f Hnd.
  - exists f. split; [done|]. intros p. by rewrite decide_False by apply not_elem_of_nil.
  - cbn [txn_dpl_lru_reduce]. simpl in Hdl, Hnd. unfold ptrs in *. rewrite fmap_app in Hnd. apply NoDup_app in Hnd as (H1 & H2 & H3).
    rewrite (dh_length _ _ _ Hdl), <- length_app.
    destruct (halve_stamps_spec (items dl) (S ++ U) f 1) as (f1 & -> & Hf1); [intros k x Hx; by eapply dh_rd|done|].
    cbn [mbind option_bind]. destruct (IH f1 H3) as (f2 & -> & Hf2). exists f2. split; [done|]. intros p. rewrite Hf2. simpl.
    rewrite fmap_app. destruct (decide (p ∈ ptr <$> concat Ls)) as [Hp|Hp].
    + rewrite decide_True by (apply elem_of_app; by right). rewrite Hf1, decide_False; [done|]. intros Hp'. by apply (H2 p).
    + rewrite Hf1. unfold ptrs. destruct (decide (p ∈ ptr <$> (S ++ U))) as [Hp'|Hp'].
      * rewrite decide_True by (apply elem_of_app; by left). done.
      * rewrite decide_False by (rewrite elem_of_app; by intros [|]). done.
Qed.

(** The stamps of the entries of a transaction are not in its future. *)
Definition stamped (f : page_ptr -> Z) (t : Z * dpl_t) (L : list dp_t) : Prop :=
  has_entries t L /\ 0 <= t.1 <= UINT32_MAX / 3 /\ forall x, x ∈ L -> 0 <= f (ptr x) <= t.1.

Lemma txn_dpl_lru_turn_spec lru dl parents f L Ls :
  stamped f (lru, dl) L -> Forall2 (stamped f) parents Ls -> NoDup (ptrs (concat (L :: Ls))) ->
  exists lru' parents' f', txn_dpl_lru_turn lru dl parents f = Some ((lru', dl) :: parents', f') /\
  stamped f' (lru', dl) L /\ Forall2 (stamped f') parents' Ls /\
  (forall x y, x ∈ concat (L :: Ls) -> y ∈ concat (L :: Ls) -> f (ptr x) <= f (ptr y) -> f' (ptr x) <= f' (ptr y)).
Proof.
  intros (HL & Hlru & Hst) Hps Hnd. simpl in HL, Hlru, Hst. unfold txn_dpl_lru_turn.
  assert (UINT32_MAX / 3 = 1431655765) as Elim by done.
  rewrite u32_small by (unfold UINT32_MAX; lia). case_decide as Hbig.
  - assert (Forall2 has_entries ((lru + 1, dl) :: parents) (L :: Ls)) as Hents.
    { constructor; [done|]. eapply Forall2_impl; [exact Hps|]. by intros ? ? [? _]. }
    destruct (txn_dpl_lru_reduce_spec _ _ f Hents Hnd) as (f' & -> & Hf').
    assert (forall x, x ∈ concat (L :: Ls) -> f' (ptr x) = Z.shiftr (f (ptr x)) 1) as Hin.
    { intros x Hx. rewrite Hf', decide_True; [done|]. by apply list_elem_of_fmap_2. }
    assert (forall a b, a <= b -> Z.shiftr a 1 <= Z.shiftr b 1) as Hmono.
    { intros a b Hab. rewrite !Z.shiftr_div_pow2 by lia. apply Z.div_le_mono; [done|lia]. }
    assert (forall t K, stamped f t K -> (forall x, x ∈ K -> x ∈ concat (L :: Ls)) -> stamped f' (Z.shiftr t.1 1, t.2) K) as Hhalf.
    { intros t K (H1 & H2 & H3) HK. split; [done|]. cbn [fst]. split.
      - rewrite Z.shiftr_div_pow2 by lia. change (2 ^ 1) with 2. split; [apply Z.div_pos; lia|]. apply Z.div_le_upper_bound; lia.
      - intros x Hx. rewrite (Hin x (HK x Hx)). specialize (H3 x Hx). split; [apply Z.shiftr_nonneg; lia|]. apply Hmono. lia. }
    eexists _, _, f'. split; [done|]. split_and!.
    + cbn [fst snd]. split; [done|]. cbn [fst]. split.
      * rewrite Z.shiftr_div_pow2 by lia. change (2 ^ 1) with 2. split; [apply Z.div_pos; lia|]. apply Z.div_le_upper_bound; lia.
      * intros x Hx. rewrite Hin by (simpl; apply elem_of_app; by left). specialize (Hst x Hx).
        split; [apply Z.shiftr_nonneg; lia|]. apply Hmono. lia.
    + clear Hents. assert (forall x, x ∈ concat Ls -> x ∈ concat (L :: Ls)) as Hsub by (intros x Hx; simpl; apply elem_of_app; by right).
      clear - Hps Hhalf Hsub. revert Hhalf Hsub. generalize (concat (L :: Ls)). intros C Hhalf Hsub. induction Hps as [|t K ts Ks HtK _ IH]; [constructor|]. constructor.
      * apply Hhalf; [done|]. intros x Hx. apply Hsub. simpl. apply elem_of_app. by left.
      * apply IH. intros x Hx. apply Hsub. simpl. apply elem_of_app. by right.
    + intros x y Hx Hy Hxy. rewrite !Hin by done. by apply Hmono.
  - eexists _, _, f. split; [done|]. split_and!; [|done|done]. split; [done|]. simpl. split; [lia|].
    intros x Hx. specialize (Hst x Hx). lia.
Qed.

(** ** Clearing *)

Lemma release_items_spec c L : forall e i,
  (forall k x, L !! k = Some x -> rd c (i + k) = Some x) -> release_items (length L) e c i = Some (release_all e L).
Proof.
  induction L as [|x L IH]; intros e i Hc; [done|]. cbn [release_items length].
  pose proof (Hc 0%nat x eq_refl) as Hx. rewrite Nat.add_0_r in Hx. rewrite Hx. cbn [mbind option_bind].
  apply IH. intros k y Hy. replace (S i + k)%nat with (i + S k)%nat by lia. by apply Hc.
Qed.
