(* ===== verification/DplProps.v ===== *)
(** * The list of dirty pages: properties *)

From S2P Require Import Prelude Search Sort Radix Pnl PnlFacts Dpl DplFacts DplOps.

(** ** The list as a map from page numbers *)

Definition entries_map (L : list dp_t) : gmap Z dp_t := list_to_map ((fun x => (pgno x, x)) <$> L).

Definition dpl_view (dl : dpl_t) (m : gmap Z dp_t) : Prop := exists S U, dpl_holds dl S U /\ m = entries_map (S ++ U).

Section view.
Implicit Types (L M S U : list dp_t).

Lemma keys_of L : ((fun x => (pgno x, x)) <$> L).*1 = pgnos L.
Proof. rewrite <- list_fmap_compose. done. Qed.

Lemma entries_map_Some L id x : NoDup (pgnos L) -> entries_map L !! id = Some x <-> x ∈ L /\ pgno x = id.
Proof.
  intros Hnd. unfold entries_map. rewrite <- elem_of_list_to_map by by rewrite keys_of. rewrite list_elem_of_fmap. split.
  - intros (y & [= -> ->] & Hy). done.
  - intros [Hx <-]. eauto.
Qed.

Lemma entries_map_None L id : NoDup (pgnos L) -> entries_map L !! id = None <-> forall x, x ∈ L -> pgno x <> id.
Proof.
  intros Hnd. rewrite eq_None_not_Some. split.
  - intros H x Hx E. apply H. exists x. by apply entries_map_Some.
  - intros H [x Hx]. apply entries_map_Some in Hx as [Hx E]; [|done]. by apply (H x Hx).
Qed.

Lemma entries_map_perm L M : NoDup (pgnos L) -> L ≡ₚ M -> entries_map L = entries_map M.
Proof. intros Hnd H. unfold entries_map. apply list_to_map_proper; [by rewrite keys_of|by rewrite H]. Qed.

Lemma dpl_view_perm dl S U M : dpl_holds dl S U -> S ++ U ≡ₚ M -> dpl_view dl (entries_map M).
Proof. intros Hdl H. exists S, U. split; [done|]. symmetry. apply entries_map_perm; [apply Hdl|done]. Qed.

Lemma entries_map_delete L k x :
  NoDup (pgnos L) -> L !! k = Some x -> entries_map (delete k L) = delete (pgno x) (entries_map L).
Proof.
  intros Hnd Hx. destruct (list_split_at _ _ _ Hx) as (L1 & L2 & -> & <-). rewrite delete_middle.
  assert (entries_map (L1 ++ x :: L2) = <[pgno x := x]> (entries_map (L1 ++ L2))) as E.
  { rewrite (entries_map_perm _ (x :: L1 ++ L2)); [done|done|]. solve_Permutation. }
  rewrite E. symmetry. apply delete_insert_id. apply entries_map_None.
  - rewrite fmap_app in *. rewrite fmap_cons in Hnd. apply NoDup_app in Hnd as (H1 & H2 & [H3 H4]%NoDup_cons).
    apply NoDup_app. split_and!; [done| |done]. intros y Hy Hy'. apply (H2 y Hy). by right.
  - intros y Hy E'. rewrite fmap_app, fmap_cons in Hnd. apply NoDup_app in Hnd as (H1 & H2 & [H3 H4]%NoDup_cons).
    apply elem_of_app in Hy as [Hy|Hy].
    + apply (H2 (pgno x)); [rewrite <- E'; by apply list_elem_of_fmap_2|by left].
    + apply H3. rewrite <- E'. by apply list_elem_of_fmap_2.
Qed.
End view.

(** ** A small list *)

Definition no_env : shadow_env := mk_shadow [] 0 8 [].
Definition page (addr id n : Z) : dp_t := mk_dp (shadow_page addr) id n.
Definition small_dpl (S U : list dp_t) (room : nat) : dpl_t :=
  mk_dpl (length S) (length S + length U) (pages_of (S ++ U)) (Z.of_nat (length S + length U) + 2)
    (dpl_stubB :: S ++ U ++ dpl_stubE :: replicate room dpl_stubB).
Definition small_txn (S U : list dp_t) (room : nat) : dtxn := mk_dtxn (small_dpl S U room) 7 100 (fun _ => 5) no_env.

Definition small_check (S U : list dp_t) (room : nat) : bool :=
  bool_decide (StronglySorted Z.lt (pgnos S)) && bool_decide (NoDup (pgnos (S ++ U))) &&
    bool_decide (Forall pgno_used (pgnos (S ++ U))) && (length S + length U + 20 <=? room)%nat &&
    (0 <=? pages_of (S ++ U)) && (pages_of (S ++ U) <? 2 ^ 32) && (Z.of_nat (length S + length U) <? 2 ^ 31).

#[local] Instance pgno_used_dec x : Decision (pgno_used x).
Proof. unfold pgno_used. apply _. Defined.

Lemma StronglySorted_ascending (l : list Z) : StronglySorted Z.lt l -> ascending l.
Proof. induction 1; [apply ascending_nil|]. by apply ascending_cons. Qed.

Lemma small_holds S U room : small_check S U room = true -> dpl_holds (small_dpl S U room) S U.
Proof.
  unfold small_check. rewrite !andb_true_iff, !bool_decide_eq_true. intros [[[[[[H1 H2] H3] H4] H5] H6] H7].
  apply Nat.leb_le in H4. apply Z.leb_le in H5. apply Z.ltb_lt in H6. apply Z.ltb_lt in H7.
  split; cbn [small_dpl items sorted dl_length pages_including_loose detent]; try done.
  - eauto.
  - by apply StronglySorted_ascending.
  - symmetry. apply u64_small. unfold UINT64_MAX. lia.
  - lia.
  - simpl. repeat (rewrite length_app; simpl). rewrite length_replicate. lia.
  - lia.
Qed.

(** ** Properties *)

(** C7. The list of dirty pages is a map from page numbers to entries: appending a
    page inserts it, or fails and leaves the list alone; looking a page up, which
    may sort the list, finds the cell of its entry exactly when the page is
    there, and removing that cell deletes the page; the debugging search agrees. *)
Theorem dpl_refines_map (have_cmov : bool) malloc t m :
  malloc_ok malloc -> dpl_view (dirtylist t) m ->
  (forall id page n, pgno_used id -> m !! id = None ->
    (exists t', txn_dpl_append have_cmov malloc t id page n = Some (MDBX_SUCCESS, t') /\
      dpl_view (dirtylist t') (<[id := mk_dp page id (u32 n)]> m)) \/
    (exists err t', txn_dpl_append have_cmov malloc t id page n = Some (err, t') /\
      err <> MDBX_SUCCESS /\ dirtylist t' = dirtylist t)) /\
  (forall id, pgno_used id ->
    exists i dl, txn_dpl_exist have_cmov (dirtylist t) id = Some (i, dl) /\ dpl_view dl m /\
    match m !! id with
    | None => i = O
    | Some x => (0 < i)%nat /\ rd (items dl) i = Some x /\ pgno x = id /\
        exists dl', txn_dpl_remove dl i = Some dl' /\ dpl_view dl' (delete id m)
    end) /\
  (forall id, pgno_used id -> debug_txn_dpl_find have_cmov (dirtylist t) id = Some (ptr <$> m !! id)).
Proof.
  intros Hm (S & U & Hdl & ->). pose proof (dh_unique _ _ _ Hdl) as Hu. split_and!.
  - intros id page n Hid Hnew. rewrite entries_map_None in Hnew by done.
    destruct (txn_dpl_append_spec have_cmov malloc t S U id page n Hm Hdl Hid) as [(t' & S' & U' & E & Hdl' & Hp & _)|(err & t' & E & Et & Herr)].
    + intros (x & Ex & Hx)%list_elem_of_fmap. by apply (Hnew x Hx).
    + left. exists t'. split; [done|]. exact (dpl_view_perm _ _ _ _ Hdl' Hp).
    + right. exists err, t'. split_and!; [done| |done]. destruct Herr as [->|[-> _]]; done.
  - intros id Hid. destruct (txn_dpl_exist_spec have_cmov (dirtylist t) S U id Hdl Hid) as (i & dl & S' & U' & E & Hdl' & Hp & Hi).
    exists i, dl. split; [done|]. split; [exact (dpl_view_perm _ _ _ _ Hdl' Hp)|]. destruct i as [|k].
    + by rewrite (proj2 (entries_map_None (S ++ U) id Hu) Hi).
    + destruct Hi as (x & Hx & Ex). pose proof (dh_unique _ _ _ Hdl') as Hu'.
      rewrite <- (entries_map_perm _ _ Hu' Hp). rewrite (proj2 (entries_map_Some _ id x Hu')) by (split; [by eapply list_elem_of_lookup_2|done]).
      split_and!; [lia|by eapply dh_rd|done|].
      destruct (txn_dpl_remove_spec dl S' U' k x Hdl' Hx) as (dl' & S2 & U2 & Er & Hdl2 & E2 & _). exists dl'. split; [done|].
      rewrite <- Ex, <- (entries_map_delete _ k x Hu' Hx), <- E2. by exists S2, U2.
  - intros id Hid. destruct (debug_txn_dpl_find_spec have_cmov (dirtylist t) S U id Hdl Hid) as (r & -> & Hr). f_equal. destruct r as [p|].
    + destruct Hr as (x & Hx & Ex & <-). by rewrite (proj2 (entries_map_Some _ id x Hu)).
    + by rewrite (proj2 (entries_map_None _ id Hu) Hr).
Qed.

Lemma dpl_refines_map_witness :
  dpl_view (dirtylist (small_txn [page 1 5 1; page 2 9 2] [page 3 7 1] 30)) (entries_map [page 1 5 1; page 2 9 2; page 3 7 1]) /\
  debug_txn_dpl_find true (dirtylist (small_txn [page 1 5 1; page 2 9 2] [page 3 7 1] 30)) 7 = Some (Some (shadow_page 3)).
Proof.
  assert (dpl_view (dirtylist (small_txn [page 1 5 1; page 2 9 2] [page 3 7 1] 30)) (entries_map [page 1 5 1; page 2 9 2; page 3 7 1])) as H.
  { exists [page 1 5 1; page 2 9 2], [page 3 7 1]. split; [apply small_holds; vm_compute; reflexivity|reflexivity]. }
  split; [exact H|].
  destruct (dpl_refines_map true (fun bytes => Some bytes) _ _ ltac:(intros b u [= <-]; lia) H) as (_ & _ & Hfind).
  rewrite Hfind by (unfold pgno_used, P_INVALID, UINT32_MAX; lia). reflexivity.
Defined.

(** Sorting a list with an unsorted tail, by radix sort, by sorting the tail
    in the space behind the data and merging it, or by sorting all of it: the
    list is sorted and has the same entries, with both stubs in place. *)
Theorem dpl_sort_correct dl S U :
  dpl_holds dl S U ->
  exists dl' N, txn_dpl_sort dl = Some dl' /\ dpl_holds dl' N [] /\ N ≡ₚ S ++ U /\ ascending (pgnos N).
Proof.
  intros Hdl. destruct (txn_dpl_sort_spec dl S U Hdl) as (dl' & N & E & Hdl' & Hp). exists dl', N.
  split_and!; try done. apply Hdl'.
Qed.

Lemma dpl_sort_correct_witness :
  exists dl' N, txn_dpl_sort (small_dpl [page 1 3 1; page 2 4 1; page 3 5 1; page 4 6 1; page 5 8 1] [page 6 9 1; page 7 7 1] 40) = Some dl' /\
  sorted dl' = 7%nat /\ ascending (pgnos N).
Proof.
  destruct (dpl_sort_correct (small_dpl [page 1 3 1; page 2 4 1; page 3 5 1; page 4 6 1; page 5 8 1] [page 6 9 1; page 7 7 1] 40)
    _ _ ltac:(apply small_holds; vm_compute; reflexivity)) as (dl' & N & E & H & Hp & Ha).
  exists dl', N. split; [exact E|]. split; [|exact Ha].
  rewrite (dh_sorted _ _ _ H), (Permutation_length Hp). reflexivity.
Defined.

(** The test for an intersection: on a sorted list whose pages do not overlap
    it says exactly whether the given range of pages meets those of an entry. *)
Theorem dpl_intersect_correct (have_cmov : bool) dl L id n :
  dpl_holds dl L [] -> disjoint_pages L -> Forall (fun x => 1 <= npages x /\ pgno x + npages x <= P_INVALID) L ->
  0 < id -> 0 <= n -> id + n <= P_INVALID ->
  txn_dpl_intersect have_cmov dl id n = Some (bool_decide (Exists (overlaps id n) L), dl).
Proof. apply txn_dpl_intersect_spec. Qed.

Lemma dpl_intersect_correct_witness :
  txn_dpl_intersect true (small_dpl [page 1 5 3; page 2 9 2] [] 30) 7 1 = Some (true, small_dpl [page 1 5 3; page 2 9 2] [] 30).
Proof.
  rewrite (dpl_intersect_correct true (small_dpl [page 1 5 3; page 2 9 2] [] 30) [page 1 5 3; page 2 9 2] 7 1).
  - reflexivity.
  - apply small_holds. vm_compute. reflexivity.
  - intros x y Hx Hy. rewrite !elem_of_cons, elem_of_nil in Hx, Hy.
    destruct Hx as [->|[->|[]]], Hy as [->|[->|[]]]; simpl; lia.
  - repeat constructor; simpl; unfold P_INVALID, UINT32_MAX; lia.
  - lia.
  - lia.
  - unfold P_INVALID, UINT32_MAX. lia.
Defined.

(** Sifting out the pages of a descending list (a list of spilled pages has
    each page number shifted by one): exactly the entries of those pages go, in
    ascending order, their pages in memory are released, and the room for
    dirty pages grows by their number. *)
Theorem dpl_sift_correct (have_cmov : bool) t S U pl F (spilled : bool) :
  dpl_holds (dirtylist t) S U -> holding pl F -> descending F ->
  0 <= dirtyroom t -> dirtyroom t + Z.of_nat (length (S ++ U)) <= UINT64_MAX ->
  exists t', txn_dpl_sift have_cmov t pl spilled = Some t' /\ sifted F (if spilled then 1 else 0) t t' S U.
Proof. apply txn_dpl_sift_spec. Qed.

Lemma dpl_sift_correct_witness :
  exists t', txn_dpl_sift true (small_txn [page 1 5 1; page 2 9 1; page 3 12 1] [page 4 7 1] 40) [3; 24; 14; 8; 0] true = Some t' /\
  dirtyroom t' = 102.
Proof.
  destruct (dpl_sift_correct true (small_txn [page 1 5 1; page 2 9 1; page 3 12 1] [page 4 7 1] 40) [page 1 5 1; page 2 9 1; page 3 12 1]
    [page 4 7 1] [3; 24; 14; 8; 0] [24; 14; 8] true) as (t' & E & S' & U' & D & H1 & H2 & H3 & H4 & H5 & H6 & _).
  - apply small_holds. vm_compute. reflexivity.
  - by exists [0].
  - apply descending_cons; split; [repeat constructor; lia|]. apply descending_cons; split; [repeat constructor; lia|].
    apply descending_cons; split; [constructor|apply descending_nil].
  - simpl. lia.
  - simpl. unfold UINT64_MAX. lia.
  - exists t'. split; [exact E|]. rewrite H6, (Permutation_length H3). vm_compute. reflexivity.
Defined.

(** Turning the clock of the least recently used pages: it stays below its
    bound, no stamp of a page of the transaction or its parents is ahead of the
    clock of its list, and pages keep their order by age, also when the clock
    and all stamps are halved. *)
Theorem dpl_lru_turn_correct lru dl parents f L Ls :
  stamped f (lru, dl) L -> Forall2 (stamped f) parents Ls -> NoDup (ptrs (concat (L :: Ls))) ->
  exists lru' parents' f', txn_dpl_lru_turn lru dl parents f = Some ((lru', dl) :: parents', f') /\
  stamped f' (lru', dl) L /\ Forall2 (stamped f') parents' Ls /\
  (forall x y, x ∈ concat (L :: Ls) -> y ∈ concat (L :: Ls) -> f (ptr x) <= f (ptr y) -> f' (ptr x) <= f' (ptr y)).
Proof. apply txn_dpl_lru_turn_spec. Qed.

Lemma dpl_lru_turn_correct_witness :
  exists lru' parents' f', txn_dpl_lru_turn 1431655765 (small_dpl [page 1 5 1] [page 2 3 1] 40) [] (fun _ => 7) =
  Some ((lru', small_dpl [page 1 5 1] [page 2 3 1] 40) :: parents', f') /\ 0 <= lru' <= UINT32_MAX / 3.
Proof.
  destruct (dpl_lru_turn_correct 1431655765 (small_dpl [page 1 5 1] [page 2 3 1] 40) [] (fun _ => 7) [page 1 5 1; page 2 3 1] [])
    as (lru' & ps & f' & E & (_ & H & _) & _).
  - split; [exists [page 1 5 1], [page 2 3 1]; split; [apply small_holds; vm_compute; reflexivity|reflexivity]|].
    split; [split; vm_compute; discriminate|]. intros x _. split; vm_compute; discriminate.
  - constructor.
  - simpl. repeat constructor; rewrite ?elem_of_cons, ?elem_of_nil; intuition discriminate.
  - exists lru', ps, f'. split; [exact E|exact H].
Defined.
