(* ===== verification/Packing.v ===== *)
(** * Packed page counts

    The 16-bit packed form in which the meta page keeps the growth step and the
    shrink threshold of the data file ([pv2pages], [pages2pv] of mdbx.c): small
    and even values as they are, others in eight steps of growing coarseness. *)

From S2P Require Import Prelude.

Definition me2v (m e : Z) : Z := u32 (32768 + Z.shiftl (m + 1) (e + 8)).

Definition v2me (v e : Z) : Z :=
  let m := Z.shiftr (v - 32768 + Z.shiftl 1 (e + 8) - 1) (e + 8) in
  let m := if decide (m > 0) then m - 1 else m in
  u16 (0x8001 + Z.shiftl e 12 + Z.shiftl m 1).

Definition pv2pages (pv : Z) : Z :=
  if decide (Z.land pv 0x8001 <> 0x8001) then pv
  else if decide (pv = 65535) then 65536
  else me2v (Z.land (Z.shiftr pv 1) 2047) (Z.land (Z.shiftr pv 12) 7).

Definition pages2pv (pages : Z) : Z :=
  if decide (pages < 32769 \/ (pages < 65536 /\ Z.land pages 1 = 0)) then u16 pages
  else if decide (pages <= me2v 2047 0) then v2me pages 0
  else if decide (pages <= me2v 2047 1) then v2me pages 1
  else if decide (pages <= me2v 2047 2) then v2me pages 2
  else if decide (pages <= me2v 2047 3) then v2me pages 3
  else if decide (pages <= me2v 2047 4) then v2me pages 4
  else if decide (pages <= me2v 2047 5) then v2me pages 5
  else if decide (pages <= me2v 2047 6) then v2me pages 6
  else if decide (pages < me2v 2046 7) then v2me pages 7 else 65533.

(** [pv2pages_verify] without its log messages: [n] values from [i] on. *)
Fixpoint pv2pages_verify_loop (n : nat) (i : Z) (ok : bool) : bool :=
  match n with
  | O => ok
  | S n =>
      let pages := pv2pages i in
      let x := pages2pv pages in
      let xp := pv2pages x in
      pv2pages_verify_loop n (i + 1) (if decide (pages <> xp) then false else ok)
  end.

Definition pv2pages_verify : bool := pv2pages_verify_loop (Z.to_nat 65536) 0 true.

(** ** Facts *)

Lemma me2v_eq m e : 0 <= m < 2048 -> 0 <= e < 8 -> me2v m e = 32768 + (m + 1) * 2 ^ (e + 8).
Proof.
  intros Hm He. unfold me2v. rewrite Z.shiftl_mul_pow2 by lia. apply u32_small.
  assert (2 ^ 8 <= 2 ^ (e + 8) <= 2 ^ 15) as Hp by (split; apply Z.pow_le_mono_r; lia).
  change (2 ^ 8) with 256 in Hp. change (2 ^ 15) with 32768 in Hp. unfold UINT32_MAX. change (2 ^ 32) with 4294967296. nia.
Qed.

Lemma pv_fields e m :
  0 <= e < 8 -> 0 <= m < 2048 ->
  let pv := 0x8001 + Z.shiftl e 12 + Z.shiftl m 1 in
  0 <= pv <= 65535 /\ Z.land pv 0x8001 = 0x8001 /\ Z.land (Z.shiftr pv 1) 2047 = m /\ Z.land (Z.shiftr pv 12) 7 = e.
Proof.
  intros He Hm pv. unfold pv. rewrite !Z.shiftl_mul_pow2 by lia. change (2 ^ 12) with 4096. change (2 ^ 1) with 2.
  set (p := 0x8001 + e * 4096 + m * 2). assert (0 <= p <= 65535) as Hp by (unfold p; lia). split; [done|].
  assert (Z.shiftr p 1 = m + 2048 * (e + 8)) as E1.
  { rewrite Z.shiftr_div_pow2 by lia. change (2 ^ 1) with 2. symmetry. apply (Z.div_unique _ _ _ 1); unfold p; lia. }
  assert (Z.shiftr p 12 = e + 1 * 8) as E2.
  { rewrite Z.shiftr_div_pow2 by lia. change (2 ^ 12) with 4096. symmetry. apply (Z.div_unique _ _ _ (2 * m + 1)); unfold p; lia. }
  split_and!.
  - apply Z.bits_inj'. intros k Hk. rewrite Z.land_spec. change 0x8001 with (Z.lor (2 ^ 15) (2 ^ 0)).
    rewrite Z.lor_spec, !Z.pow2_bits_eqb by lia.
    destruct (15 =? k) eqn:Ek1; [|destruct (0 =? k) eqn:Ek2; [|by rewrite andb_false_r]].
    + apply Z.eqb_eq in Ek1 as <-. cbn [orb]. rewrite andb_true_r. apply Z.testbit_true; [lia|].
      replace (p / 2 ^ 15) with 1; [done|]. apply (Z.div_unique _ _ _ (p - 32768)); unfold p; change (2 ^ 15) with 32768; lia.
    + apply Z.eqb_eq in Ek2 as <-. cbn [orb]. rewrite andb_true_r. rewrite Z.bit0_odd. apply Z.odd_spec.
      exists (0x4000 + e * 2048 + m). unfold p. lia.
  - rewrite E1. change 2047 with (Z.ones 11). rewrite Z.land_ones by lia. change (2 ^ 11) with 2048.
    rewrite Z.mul_comm, Z_mod_plus_full. apply Z.mod_small. lia.
  - rewrite E2. change 7 with (Z.ones 3). rewrite Z.land_ones by lia. change (2 ^ 3) with 8.
    rewrite Z_mod_plus_full. apply Z.mod_small. lia.
Qed.

(** Packing [v] with the step of [e] and unpacking it rounds up to a multiple of the step. *)
Lemma v2me_spec v e :
  0 <= e < 8 -> 32768 < v <= 32768 + 2048 * 2 ^ (e + 8) -> (e = 7 -> v <= 32768 + 2047 * 2 ^ (e + 8)) ->
  v <= pv2pages (v2me v e) < v + 2 ^ (e + 8).
Proof.
  intros He Hv H7. unfold v2me. rewrite (Z.shiftl_mul_pow2 1), Z.shiftr_div_pow2, Z.mul_1_l by lia.
  assert (2 ^ 8 <= 2 ^ (e + 8)) as Hg by (apply Z.pow_le_mono_r; lia). change (2 ^ 8) with 256 in Hg.
  set (g := 2 ^ (e + 8)) in *.
  pose proof (Z.div_mod (v - 32768 + g - 1) g ltac:(lia)) as Ed. pose proof (Z.mod_pos_bound (v - 32768 + g - 1) g ltac:(lia)) as Em.
  set (q := (v - 32768 + g - 1) / g) in *. set (r := (v - 32768 + g - 1) mod g) in *. clearbody q r.
  assert (1 <= q <= 2048) as Hq by nia. rewrite decide_True by lia.
  destruct (pv_fields e (q - 1)) as (Hp & H1 & H2 & H3); [lia|lia|].
  set (pv := 0x8001 + Z.shiftl e 12 + Z.shiftl (q - 1) 1) in *.
  assert (u16 pv = pv) as -> by (unfold u16; apply Z.mod_small; lia).
  unfold pv2pages. rewrite H1, H2, H3. rewrite decide_False by (by intros []).
  rewrite decide_False.
  - rewrite me2v_eq by lia. fold g. replace (q - 1 + 1) with q by lia. nia.
  - intros E. subst pv. rewrite E in H2, H3. change (Z.land (Z.shiftr 65535 1) 2047) with 2047 in H2.
    change (Z.land (Z.shiftr 65535 12) 7) with 7 in H3. subst e. specialize (H7 eq_refl). assert (q = 2048) by lia. nia.
Qed.

Lemma pv2pages_verify_loop_spec n : forall i ok,
  pv2pages_verify_loop n i ok = true ->
  ok = true /\ forall k, i <= k < i + Z.of_nat n -> pv2pages (pages2pv (pv2pages k)) = pv2pages k.
Proof.
  induction n as [|n IH]; intros i ok H; [split; [done|lia]|]. cbn [pv2pages_verify_loop] in H. apply IH in H as [H1 H2].
  destruct (decide _) as [|Heq] in H1; [done|]. split; [done|]. intros k Hk. destruct (decide (k = i)) as [->|]; [lia|]. apply H2. lia.
Qed.

Lemma pv2pages_verify_sound : pv2pages_verify = true ->
  forall pv, 0 <= pv < 65536 -> pv2pages (pages2pv (pv2pages pv)) = pv2pages pv.
Proof.
  unfold pv2pages_verify. assert (Z.of_nat (Z.to_nat 65536) = 65536) as En by (by apply Z2Nat.id). revert En.
  generalize (Z.to_nat 65536). intros n En H. apply pv2pages_verify_loop_spec in H as [_ H]. intros pv Hpv. apply H. lia.
Qed.

Lemma pv2pages_verify_true : pv2pages_verify = true.
Proof. vm_compute. reflexivity. Qed.

Lemma plain_pv pages : 0 <= pages -> pages < 32769 \/ (pages < 65536 /\ Z.land pages 1 = 0) -> pv2pages pages = pages.
Proof.
  intros H0 H. unfold pv2pages. rewrite decide_True; [done|]. intros E.
  assert (Z.testbit (Z.land pages 0x8001) 15 = true /\ Z.testbit (Z.land pages 0x8001) 0 = true) as [B15 B0] by by rewrite E.
  rewrite Z.land_spec in B15, B0. apply andb_true_iff in B15 as [B15 _]. apply andb_true_iff in B0 as [B0 _].
  apply Z.testbit_true in B15; [|lia]. rewrite Z.bit0_odd in B0. apply Z.odd_spec in B0 as [k Hk].
  destruct H as [H|[_ H]].
  - destruct (decide (pages = 32768)); [lia|]. rewrite Z.div_small in B15 by (change (2 ^ 15) with 32768; lia). done.
  - assert (Z.testbit (Z.land pages 1) 0 = true) as B; [|by rewrite H in B].
    rewrite Z.land_spec, Z.bit0_odd. apply andb_true_iff. split; [|done]. apply Z.odd_spec. by exists k.
Qed.

(** Packing never rounds down, and rounds up by less than one part in 128. *)
Lemma pages2pv_bounds pages :
  0 <= pages ->
  (pages < me2v 2046 7 -> pages <= pv2pages (pages2pv pages) <= pages + pages / 128) /\
  (me2v 2046 7 <= pages -> pv2pages (pages2pv pages) = me2v 2046 7).
Proof.
  intros H0. assert (forall e, 0 <= e < 8 -> me2v 2047 e = 32768 + 2048 * 2 ^ (e + 8)) as Hme by (intros; by rewrite me2v_eq by lia).
  assert (me2v 2046 7 = 32768 + 2047 * 2 ^ 15) as H7 by done.
  assert (forall e, 0 <= e < 8 -> 32768 < pages <= 32768 + 2048 * 2 ^ (e + 8) -> (e = 7 -> pages <= 32768 + 2047 * 2 ^ (e + 8)) ->
    (e = 0 \/ 32768 + 2048 * 2 ^ (e + 7) < pages) -> pages <= pv2pages (v2me pages e) <= pages + pages / 128) as Hstep.
  { intros e He H1 H2 H3. destruct (v2me_spec pages e He H1 H2) as [H4 H5]. split; [done|].
    enough (2 ^ (e + 8) - 1 <= pages / 128) by lia. apply Z.div_le_lower_bound; [lia|]. destruct H3 as [->|H3]; [simpl; lia|].
    replace (e + 8) with (e + 7 + 1) by lia. rewrite Z.pow_add_r by lia. lia. }
  unfold pages2pv. rewrite !Hme, H7 by lia. simpl (0 + 8). simpl (1 + 8). simpl (2 + 8). simpl (3 + 8). simpl (4 + 8). simpl (5 + 8). simpl (6 + 8).
  split.
  - intros Hlt. case_decide as Hsmall.
    { assert (u16 pages = pages) as -> by (unfold u16; apply Z.mod_small; change (2 ^ 16) with 65536; lia).
      rewrite (plain_pv pages H0 Hsmall). pose proof (Z.div_pos pages 128). lia. }
    assert (32768 < pages) by lia.
    case_decide; [apply (Hstep 0); simpl; lia|]. case_decide; [apply (Hstep 1); simpl; lia|].
    case_decide; [apply (Hstep 2); simpl; lia|]. case_decide; [apply (Hstep 3); simpl; lia|].
    case_decide; [apply (Hstep 4); simpl; lia|]. case_decide; [apply (Hstep 5); simpl; lia|].
    case_decide; [apply (Hstep 6); simpl; lia|]. rewrite decide_True by lia. apply (Hstep 7); simpl; lia.
  - intros Hge. simpl in Hge |- *. rewrite !decide_False by lia. vm_compute. reflexivity.
Qed.

(** ** Property *)

(** The 65536 values that [pv2pages_verify] tries all stand for a number of
    pages that packs into a value for the same number.  Packing a number of pages
    never rounds it down, and rounds it up by less than one part in 128; numbers
    that are too large saturate. *)
Theorem pages2pv_correct :
  (forall pv, 0 <= pv < 65536 -> pv2pages (pages2pv (pv2pages pv)) = pv2pages pv) /\
  (forall pages, 0 <= pages ->
    (pages < me2v 2046 7 -> pages <= pv2pages (pages2pv pages) <= pages + pages / 128) /\
    (me2v 2046 7 <= pages -> pv2pages (pages2pv pages) = me2v 2046 7)).
Proof. split; [apply pv2pages_verify_sound, pv2pages_verify_true|exact pages2pv_bounds]. Qed.

Lemma pages2pv_correct_witness : pv2pages (pages2pv (pv2pages 40001)) = pv2pages 40001 /\ 40001 <= pv2pages (pages2pv 40001) <= 40313.
Proof.
  destruct pages2pv_correct as [H1 H2]. split; [apply H1; lia|].
  destruct (H2 40001) as [H3 _]; [lia|]. destruct H3 as [H3 H4]; [vm_compute; reflexivity|].
  split; [exact H3|]. vm_compute. discriminate.
Defined.
