(* ===== verification/Meta.v ===== *)
(** * Meta pages

    [meta_t] of mdbx.c, the start point of a database snapshot: its signature, its
    validation ([meta_validate], which also repairs the geometry) and the model
    from which new meta pages are made ([meta_model], [meta_init_triplet]).
    The fields that are always zero are left out, and the branches of the validation
    for 32-bit address spaces, which are compiled out. *)

From S2P Require Import Prelude Packing.

Definition MDBX_MAGIC : Z := 0x59659DBDEF4C11.
Definition MDBX_DATA_VERSION : Z := 3.
Definition MDBX_DATA_MAGIC : Z := Z.shiftl MDBX_MAGIC 8 + MDBX_DATA_VERSION.
Definition MDBX_DATA_MAGIC_LEGACY_COMPAT : Z := Z.shiftl MDBX_MAGIC 8 + 2.
Definition MDBX_DATA_MAGIC_LEGACY_DEVEL : Z := Z.shiftl MDBX_MAGIC 8 + 255.
Definition MDBX_MIN_PAGESIZE : Z := 256.
Definition MDBX_MAX_PAGESIZE : Z := 65536.
Definition MIN_MAPSIZE : Z := MDBX_MIN_PAGESIZE * MIN_PAGENO.
Definition MAX_MAPSIZE64 : Z := (MAX_PAGENO + 1) * MDBX_MAX_PAGESIZE.
Definition MAX_MAPSIZE : Z := MAX_MAPSIZE64.
Definition P_META : Z := 0x08.
Definition DATASIGN_NONE : Z := 0.
Definition DATASIGN_WEAK : Z := 1.
Definition SIGN_IS_STEADY (sign : Z) : bool := sign >? DATASIGN_WEAK.

Definition MDBX_CORRUPTED : Z := -30796.
Definition MDBX_VERSION_MISMATCH : Z := -30794.
Definition MDBX_INVALID : Z := -30793.
Definition MDBX_INCOMPATIBLE : Z := -30784.
Definition MDBX_TOO_LARGE : Z := -30417.

(** Flags of tables *)
Definition MDBX_REVERSEKEY : Z := 0x02.
Definition MDBX_DUPSORT : Z := 0x04.
Definition MDBX_INTEGERKEY : Z := 0x08.
Definition MDBX_DUPFIXED : Z := 0x10.
Definition MDBX_INTEGERDUP : Z := 0x20.
Definition MDBX_REVERSEDUP : Z := 0x40.
Definition MDBX_DB_DEFAULTS : Z := 0.
Definition DB_PERSISTENT_FLAGS : Z :=
  Z.lor MDBX_REVERSEKEY (Z.lor MDBX_DUPSORT (Z.lor MDBX_INTEGERKEY (Z.lor MDBX_DUPFIXED (Z.lor MDBX_INTEGERDUP MDBX_REVERSEDUP)))).

Definition check_table_flags (flags : Z) : bool :=
  let rest := Z.land flags (Z.lnot (Z.lor MDBX_REVERSEKEY MDBX_INTEGERKEY)) in
  if bool_decide (rest ∈ [MDBX_DUPSORT; Z.lor MDBX_DUPSORT MDBX_REVERSEDUP; Z.lor MDBX_DUPSORT MDBX_DUPFIXED;
    Z.lor MDBX_DUPSORT (Z.lor MDBX_DUPFIXED MDBX_REVERSEDUP);
    Z.lor MDBX_DUPSORT (Z.lor MDBX_DUPFIXED MDBX_INTEGERDUP);
    Z.lor MDBX_DUPSORT (Z.lor MDBX_DUPFIXED (Z.lor MDBX_INTEGERDUP MDBX_REVERSEDUP));
    MDBX_DB_DEFAULTS])
  then negb (Z.land flags (Z.lor MDBX_REVERSEKEY MDBX_INTEGERKEY) =? Z.lor MDBX_REVERSEKEY MDBX_INTEGERKEY)
  else false.

Record tree_t := mk_tree {
  t_flags : Z;
  height : Z;
  dupfix_size : Z;
  root : Z;
  branch_pages : Z;
  leaf_pages : Z;
  large_pages : Z;
  sequence : Z;
  t_items : Z;
  mod_txnid : Z
}.

Record geo_t := mk_geo {
  grow_pv : Z;
  shrink_pv : Z;
  lower : Z;
  upper : Z;
  now : Z;
  first_unallocated : Z
}.

Record meta_t := mk_meta {
  magic_and_version : Z;
  txnid_a : Z;
  geometry : geo_t;
  gc : tree_t;
  main : tree_t;
  canary : list Z;
  sign : Z;
  txnid_b : Z;
  pages_retired : Z;
  bootid : Z;
  dxbid : Z
}.

(** The page size shares its place with [dupfix_size] of the GC tree. *)
Definition pagesize (m : meta_t) : Z := dupfix_size (gc m).

Definition with_geometry (m : meta_t) (g : geo_t) : meta_t :=
  mk_meta (magic_and_version m) (txnid_a m) g (gc m) (main m) (canary m) (sign m) (txnid_b m) (pages_retired m) (bootid m) (dxbid m).
Definition with_txnid (m : meta_t) (boot txnid : Z) : meta_t :=
  mk_meta (magic_and_version m) txnid (geometry m) (gc m) (main m) (canary m) (sign m) txnid (pages_retired m) boot (dxbid m).
Definition with_sign (m : meta_t) (s : Z) : meta_t :=
  mk_meta (magic_and_version m) (txnid_a m) (geometry m) (gc m) (main m) (canary m) s (txnid_b m) (pages_retired m) (bootid m) (dxbid m).
Definition geo_with_upper (g : geo_t) (u : Z) : geo_t :=
  mk_geo (grow_pv g) (shrink_pv g) (lower g) u (now g) (first_unallocated g).
Definition geo_with_now (g : geo_t) (n : Z) : geo_t :=
  mk_geo (grow_pv g) (shrink_pv g) (lower g) (upper g) n (first_unallocated g).

Definition constmeta_txnid (m : meta_t) : Z := if decide (txnid_a m = txnid_b m) then txnid_a m else 0.
Definition meta_set_txnid (boot : Z) (m : meta_t) (txnid : Z) : meta_t := with_txnid m boot txnid.
Definition meta_sign_calculate (m : meta_t) : Z :=
  let sign := DATASIGN_NONE in if SIGN_IS_STEADY sign then sign else u64 (Z.lnot sign).
Definition meta_sign_get (m : meta_t) : Z := sign m.
Definition meta_sign_as_steady (m : meta_t) : meta_t := with_sign m (meta_sign_calculate m).
Definition meta_is_steady (m : meta_t) : bool := SIGN_IS_STEADY (meta_sign_get m).

(** ** Validation *)

Section validate.
(** [globals.sys_allocation_granularity]; the file size that is known and what
    fetching it anew gives: an error or the new size. *)
Context (sys_allocation_granularity : Z) (filesize : Z) (fetch_filesize : Z + Z).

(** The checks up to the page size: [Some rc] refuses the page. *)
Definition meta_check_page (m : meta_t) (page_pgno page_flags meta_number : Z) : option Z :=
  let magic := magic_and_version m in
  if decide (magic <> MDBX_DATA_MAGIC /\ magic <> MDBX_DATA_MAGIC_LEGACY_COMPAT /\ magic <> MDBX_DATA_MAGIC_LEGACY_DEVEL) then
    Some (if decide (Z.shiftr magic 8 <> MDBX_MAGIC) then MDBX_INVALID else MDBX_VERSION_MISMATCH)
  else if decide (page_pgno <> meta_number) then Some MDBX_INVALID
  else if decide (page_flags <> P_META) then Some MDBX_INVALID
  else if negb (is_powerof2 (pagesize m)) || bool_decide (pagesize m < MDBX_MIN_PAGESIZE) || bool_decide (pagesize m > MDBX_MAX_PAGESIZE) then
    Some (if is_powerof2 (pagesize m) then MDBX_VERSION_MISMATCH else MDBX_INVALID)
  else None.

(** The checks from the transaction id to the geometry. *)
Definition meta_check_head (m : meta_t) : option Z :=
  let magic := magic_and_version m in
  if decide (txnid_a m <> txnid_b m) then Some MDBX_RESULT_TRUE
  else if SIGN_IS_STEADY (meta_sign_get m) && bool_decide (meta_sign_get m <> meta_sign_calculate m) then Some MDBX_RESULT_TRUE
  else if decide (t_flags (gc m) <> MDBX_INTEGERKEY /\
    (Z.land (t_flags (gc m)) DB_PERSISTENT_FLAGS <> MDBX_INTEGERKEY \/ magic = MDBX_DATA_MAGIC)) then Some MDBX_INCOMPATIBLE
  else if negb (check_table_flags (t_flags (main m))) then Some MDBX_INCOMPATIBLE
  else if decide (txnid_a m < MIN_TXNID \/ txnid_a m > MAX_TXNID) then Some MDBX_RESULT_TRUE
  else if decide (lower (geometry m) < MIN_PAGENO \/ lower (geometry m) > MAX_PAGENO + 1) then Some MDBX_INVALID
  else if decide (upper (geometry m) < MIN_PAGENO \/ upper (geometry m) > MAX_PAGENO + 1 \/ upper (geometry m) < lower (geometry m))
  then Some MDBX_INVALID
  else if decide (first_unallocated (geometry m) < MIN_PAGENO \/ first_unallocated (geometry m) - 1 > MAX_PAGENO) then Some MDBX_CORRUPTED
  else None.

(** The allocated pages must be in the file, whose size may be out of date. *)
Definition meta_check_allocated (m : meta_t) : option Z :=
  let allocated_bytes := u64 (first_unallocated (geometry m) * pagesize m) in
  match (if decide (allocated_bytes > filesize) then
           match fetch_filesize with
           | inl err => Some err
           | inr filesize => if decide (allocated_bytes > filesize) then Some MDBX_CORRUPTED else None
           end
         else None) with
  | Some rc => Some rc
  | None => if decide (first_unallocated (geometry m) - 1 > MAX_PAGENO \/ allocated_bytes > MAX_MAPSIZE) then Some MDBX_TOO_LARGE else None
  end.

(** The upper bound of the size, in pages: [inl rc] refuses the page. *)
Definition meta_upper (m : meta_t) : Z + Z :=
  let geo_upper := upper (geometry m) in
  let mapsize_max := u64 (geo_upper * pagesize m) in
  match (if decide (mapsize_max > MAX_MAPSIZE \/ MAX_PAGENO + 1 < ceil_powerof2 mapsize_max sys_allocation_granularity / pagesize m) then
           if decide (mapsize_max > MAX_MAPSIZE64) then inl MDBX_VERSION_MISMATCH
           else
             let geo_upper := u32 (MAX_MAPSIZE / pagesize m) in
             inr (if decide (geo_upper > MAX_PAGENO + 1) then MAX_PAGENO + 1 else geo_upper)
         else inr geo_upper) with
  | inl rc => inl rc
  | inr geo_upper => inr (if decide (geo_upper < first_unallocated (geometry m)) then first_unallocated (geometry m) else geo_upper)
  end.

(** The current size, put between the bounds; it is a 32-bit number of pages. *)
Definition meta_now (m : meta_t) (geo_upper : Z) : Z :=
  let dxbsize_pages := filesize / pagesize m in
  let geo_now := now (geometry m) in
  let geo_now := if decide (geo_now < lower (geometry m)) then lower (geometry m) else geo_now in
  let geo_now := if decide (geo_now < dxbsize_pages) then u32 dxbsize_pages else geo_now in
  if decide (geo_now > geo_upper) then geo_upper else geo_now.

(** A tree is empty, or its root is an allocated page. *)
Definition meta_check_root (m : meta_t) (t : tree_t) : option Z :=
  if decide (root t = P_INVALID) then
    if decide (branch_pages t <> 0 \/ height t <> 0 \/ t_items t <> 0 \/ leaf_pages t <> 0 \/ large_pages t <> 0)
    then Some MDBX_CORRUPTED else None
  else if decide (root t >= first_unallocated (geometry m) \/ root t < NUM_METAS) then Some MDBX_CORRUPTED else None.

Definition meta_check_trees (m : meta_t) : Z :=
  match meta_check_root m (gc m) with
  | Some rc => rc
  | None =>
      match meta_check_root m (main m) with
      | Some rc => rc
      | None =>
          if decide (mod_txnid (gc m) > txnid_a m) then MDBX_CORRUPTED
          else if decide (mod_txnid (main m) > txnid_a m) then MDBX_CORRUPTED
          else MDBX_SUCCESS
      end
  end.

(** What follows the check of the head: the geometry is repaired and the trees are checked. *)
Definition meta_check_geometry (m : meta_t) : Z * meta_t :=
  match meta_check_allocated m with
  | Some rc => (rc, m)
  | None =>
      let mapsize_min := u64 (lower (geometry m) * pagesize m) in
      if decide (mapsize_min < MIN_MAPSIZE \/ mapsize_min > MAX_MAPSIZE) then (MDBX_VERSION_MISMATCH, m)
      else
        match meta_upper m with
        | inl rc => (rc, m)
        | inr geo_upper =>
            let m := with_geometry m (geo_with_upper (geometry m) geo_upper) in
            let geo_now := meta_now m geo_upper in
            if decide (first_unallocated (geometry m) > geo_now) then (MDBX_CORRUPTED, m)
            else
              let m := with_geometry m (geo_with_now (geometry m) geo_now) in
              (meta_check_trees m, m)
        end
  end.

(** The result, the meta page, the geometry of which may have been repaired, and
    the page size that it proposes. *)
Definition meta_validate (m : meta_t) (page_pgno page_flags meta_number : Z) (guess_pagesize : option Z)
  : Z * meta_t * option Z :=
  match meta_check_page m page_pgno page_flags meta_number with
  | Some rc => (rc, m, guess_pagesize)
  | None =>
      let guess := (fun _ => pagesize m) <$> guess_pagesize in
      match meta_check_head m with
      | Some rc => (rc, m, guess)
      | None => (meta_check_geometry m, guess)
      end
  end.
End validate.

(** ** New meta pages *)

(** The part of the environment that a new meta page is made from. *)
Record meta_env := mk_meta_env {
  ps : Z;
  ps2ln : Z;
  geo_in_bytes_lower : Z;
  geo_in_bytes_now : Z;
  geo_in_bytes_upper : Z;
  geo_in_bytes_grow : Z;
  geo_in_bytes_shrink : Z;
  global_bootid : Z
}.

Definition bytes2pgno (env : meta_env) (bytes : Z) : Z := u32 (Z.shiftr bytes (ps2ln env)).

Definition empty_tree (flags pagesize : Z) : tree_t := mk_tree flags 0 pagesize P_INVALID 0 0 0 0 0 0.

(** The meta part of the page, or [None] where a condition that the code ensures fails. *)
Definition meta_model (env : meta_env) (num guid : Z) : option meta_t :=
  if is_powerof2 (ps env) && bool_decide (ps env >= MDBX_MIN_PAGESIZE) && bool_decide (ps env <= MDBX_MAX_PAGESIZE) &&
      bool_decide (geo_in_bytes_lower env >= MIN_MAPSIZE) && bool_decide (geo_in_bytes_upper env <= MAX_MAPSIZE) &&
      bool_decide (geo_in_bytes_now env >= geo_in_bytes_lower env) && bool_decide (geo_in_bytes_now env <= geo_in_bytes_upper env)
  then
    let g := mk_geo (pages2pv (bytes2pgno env (geo_in_bytes_grow env))) (pages2pv (bytes2pgno env (geo_in_bytes_shrink env)))
      (bytes2pgno env (geo_in_bytes_lower env)) (bytes2pgno env (geo_in_bytes_upper env))
      (bytes2pgno env (geo_in_bytes_now env)) NUM_METAS in
    if bool_decide (lower g >= MIN_PAGENO) && bool_decide (upper g <= MAX_PAGENO + 1) && bool_decide (now g >= lower g) &&
        bool_decide (now g <= upper g) && bool_decide (first_unallocated g >= MIN_PAGENO) && bool_decide (first_unallocated g <= now g) &&
        bool_decide (grow_pv g = pages2pv (pv2pages (grow_pv g))) && bool_decide (shrink_pv g = pages2pv (pv2pages (shrink_pv g)))
    then
      let m := mk_meta MDBX_DATA_MAGIC 0 g (empty_tree MDBX_INTEGERKEY (ps env)) (empty_tree 0 0) [0; 0; 0; 0] 0 0 0 0 guid in
      let m := meta_set_txnid (global_bootid env) m (MIN_TXNID + num) in
      Some (meta_sign_as_steady m)
    else None
  else None.

Definition meta_init_triplet (env : meta_env) (guid : Z) : option (list meta_t) :=
  m0 ← meta_model env 0 guid;
  m1 ← meta_model env 1 guid;
  m2 ← meta_model env 2 guid;
  Some [m0; m1; m2].
