(* ===== verification/MetaProps.v ===== *)
(** * Meta pages: what validation guarantees, new meta pages and the properties *)

From S2P Require Import Prelude Packing Meta.

(** The fields are in the ranges of their machine types. *)
Record meta_typed (m : meta_t) : Prop := {
  mt_lower : 0 <= lower (geometry m) < 2 ^ 32;
  mt_upper : 0 <= upper (geometry m) < 2 ^ 32;
  mt_now : 0 <= now (geometry m) < 2 ^ 32;
  mt_first : 0 <= first_unallocated (geometry m) < 2 ^ 32;
  mt_pagesize : 0 <= pagesize m < 2 ^ 32
}.

Definition root_ok (m : meta_t) (t : tree_t) : Prop :=
  (root t = P_INVALID /\ branch_pages t = 0 /\ height t = 0 /\ t_items t = 0 /\ leaf_pages t = 0 /\ large_pages t = 0) \/
  (NUM_METAS <= root t < first_unallocated (geometry m)).

(** A meta page that a snapshot can be started from. *)
Record meta_ok (m : meta_t) : Prop := {
  mo_txnid : MIN_TXNID <= txnid_a m <= MAX_TXNID /\ txnid_b m = txnid_a m;
  mo_pagesize : is_powerof2 (pagesize m) = true /\ MDBX_MIN_PAGESIZE <= pagesize m <= MDBX_MAX_PAGESIZE;
  mo_geometry : MIN_PAGENO <= lower (geometry m) /\ lower (geometry m) <= now (geometry m) /\
    now (geometry m) <= upper (geometry m) /\ upper (geometry m) <= MAX_PAGENO + 1;
  mo_first : MIN_PAGENO <= first_unallocated (geometry m) <= now (geometry m);
  mo_mapsize : MIN_MAPSIZE <= lower (geometry m) * pagesize m /\ upper (geometry m) * pagesize m <= MAX_MAPSIZE;
  mo_sign : meta_is_steady m = true -> meta_sign_get m = meta_sign_calculate m;
  mo_gc : root_ok m (gc m) /\ mod_txnid (gc m) <= txnid_a m /\ Z.land (t_flags (gc m)) DB_PERSISTENT_FLAGS = MDBX_INTEGERKEY;
  mo_main : root_ok m (main m) /\ mod_txnid (main m) <= txnid_a m /\ check_table_flags (t_flags (main m)) = true
}.

Lemma is_powerof2_spec x : 0 < x < 2 ^ 64 -> is_powerof2 x = true -> exists j, 0 <= j /\ x = 2 ^ j.
Proof.
  intros Hx H. unfold is_powerof2 in H. apply Z.eqb_eq in H. rewrite u64_small in H by (unfold UINT64_MAX; lia).
  exists (Z.log2 x). split; [apply Z.log2_nonneg|]. destruct (Z.log2_spec x) as [H1 H2]; [lia|].
  destruct (decide (x = 2 ^ Z.log2 x)) as [E|E]; [done|exfalso].
  assert (Z.log2 (x - 1) = Z.log2 x) as El by (apply Z.log2_unique; [apply Z.log2_nonneg|lia]).
  assert (0 < 2 ^ Z.log2 x) by (apply Z.pow_pos_nonneg; [lia|apply Z.log2_nonneg]).
  assert (Z.testbit (Z.land x (x - 1)) (Z.log2 x) = true) as B; [|by rewrite H, Z.bits_0 in B].
  rewrite Z.land_spec, Z.bit_log2 by lia. rewrite <- El at 1. by rewrite Z.bit_log2 by lia.
Qed.

(** Take the first branch of a chain of guards apart. *)
Ltac refuse H := case_decide as H; [done|].

Section checks.
Context (granularity : Z) (k : Z) (Hgran : granularity = 2 ^ k) (Hk : 0 <= k <= 39).
Context (filesize : Z) (fetch : Z + Z) (Hfs : 0 <= filesize < 2 ^ 64) (Hfetch : forall err, fetch = inl err -> err <> MDBX_SUCCESS).
Implicit Types (m : meta_t).

Lemma check_page_None m n f num :
  meta_check_page m n f num = None ->
  (magic_and_version m = MDBX_DATA_MAGIC \/ magic_and_version m = MDBX_DATA_MAGIC_LEGACY_COMPAT \/
    magic_and_version m = MDBX_DATA_MAGIC_LEGACY_DEVEL) /\ n = num /\ f = P_META /\
  is_powerof2 (pagesize m) = true /\ MDBX_MIN_PAGESIZE <= pagesize m <= MDBX_MAX_PAGESIZE.
Proof.
  unfold meta_check_page. refuse H1. refuse H2. refuse H3. destruct (negb _ || _ || _) eqn:H4; [done|]. intros _.
  apply orb_false_iff in H4 as [[H4 H5]%orb_false_iff H6]. apply negb_false_iff in H4.
  apply bool_decide_eq_false in H5, H6. split_and!; try done; try lia.
Qed.

Lemma check_head_None m :
  meta_check_head m = None ->
  txnid_b m = txnid_a m /\ MIN_TXNID <= txnid_a m <= MAX_TXNID /\
  (meta_is_steady m = true -> meta_sign_get m = meta_sign_calculate m) /\
  Z.land (t_flags (gc m)) DB_PERSISTENT_FLAGS = MDBX_INTEGERKEY /\ check_table_flags (t_flags (main m)) = true /\
  MIN_PAGENO <= lower (geometry m) /\ lower (geometry m) <= upper (geometry m) /\ upper (geometry m) <= MAX_PAGENO + 1 /\
  MIN_PAGENO <= first_unallocated (geometry m) <= MAX_PAGENO + 1.
Proof.
  unfold meta_check_head. refuse H1. destruct (_ && _) eqn:H2; [done|].
  assert (meta_is_steady m = true -> meta_sign_get m = meta_sign_calculate m) as Hsign.
  { intros Hs. unfold meta_is_steady in Hs. rewrite Hs in H2. cbn [andb] in H2. apply bool_decide_eq_false in H2. lia. }
  clear H2. refuse H3. destruct (negb _) eqn:H4; [done|].
  apply negb_false_iff in H4. refuse H5. refuse H6. refuse H7. refuse H8. intros _.
  split_and!; try done; try lia.
  destruct (decide (t_flags (gc m) = MDBX_INTEGERKEY)) as [E|E]; [by rewrite E|].
  destruct (decide (Z.land (t_flags (gc m)) DB_PERSISTENT_FLAGS = MDBX_INTEGERKEY)); [done|]. tauto.
Qed.

(** The upper bound is raised where the allocated pages need it, and the repair
    for a map that is too large never happens. *)
Lemma meta_upper_spec m :
  0 <= upper (geometry m) <= MAX_PAGENO + 1 -> is_powerof2 (pagesize m) = true -> MDBX_MIN_PAGESIZE <= pagesize m <= MDBX_MAX_PAGESIZE ->
  meta_upper granularity m = inr (Z.max (upper (geometry m)) (first_unallocated (geometry m))).
Proof.
  intros Hu Hpow Hp. unfold meta_upper, MAX_MAPSIZE, MAX_MAPSIZE64, MAX_PAGENO, MDBX_MIN_PAGESIZE, MDBX_MAX_PAGESIZE in *.
  assert (0 <= upper (geometry m) * pagesize m <= 2147483648 * 65536) as Hm by nia.
  rewrite u64_small by (unfold UINT64_MAX; lia). rewrite decide_False; [case_decide; f_equal; lia|].
  assert (2 ^ k <= 2 ^ 39) as Hg by (apply Z.pow_le_mono_r; lia). assert (0 < 2 ^ k) as Hg0 by (apply Z.pow_pos_nonneg; lia).
  change (2 ^ 39) with 549755813888 in Hg.
  intros [H|H]; [lia|]. rewrite Hgran in H.
  destruct (ceil_powerof2_spec (upper (geometry m) * pagesize m) k) as [[H1 H2] [q Hq]]; [lia|lia|lia|].
  set (c := ceil_powerof2 _ _) in *. clearbody c.
  assert (exists p, 2147483648 * pagesize m = p * 2 ^ k) as [p Hpk].
  { destruct (is_powerof2_spec (pagesize m)) as (j & Hj & Ej); [lia|done|].
    assert (8 <= j) by (apply (Z.pow_le_mono_r_iff 2); [lia|lia|]; change (2 ^ 8) with 256; lia).
    exists (2 ^ (31 + j - k)). rewrite Ej, <- Z.pow_add_r by lia. change 2147483648 with (2 ^ 31). rewrite <- Z.pow_add_r by lia. f_equal. lia. }
  assert (q <= p) by nia. assert (c <= 2147483648 * pagesize m) by nia.
  assert (c / pagesize m <= 2147483648) by (apply Z.div_le_upper_bound; lia). lia.
Qed.

Lemma check_root_None m t : meta_check_root m t = None -> root_ok m t.
Proof.
  unfold meta_check_root, root_ok. case_decide as H1; [refuse H2; left; lia|refuse H2; right; lia].
Qed.

Lemma check_allocated_None m :
  0 <= first_unallocated (geometry m) <= MAX_PAGENO + 1 -> MDBX_MIN_PAGESIZE <= pagesize m <= MDBX_MAX_PAGESIZE ->
  meta_check_allocated filesize fetch m = None ->
  first_unallocated (geometry m) * pagesize m <= filesize \/
  exists size, fetch = inr size /\ first_unallocated (geometry m) * pagesize m <= size.
Proof.
  unfold MAX_PAGENO, MDBX_MIN_PAGESIZE, MDBX_MAX_PAGESIZE. intros Hf Hp.
  assert (0 <= first_unallocated (geometry m) * pagesize m <= 2147483648 * 65536) as Hm by nia.
  unfold meta_check_allocated. rewrite u64_small by (unfold UINT64_MAX; lia).
  destruct (decide (first_unallocated (geometry m) * pagesize m > filesize)); [|left; lia].
  destruct fetch as [err|size]; [done|]. destruct (decide (_ > size)); [done|]. intros _. right. exists size. split; [done|lia].
Qed.

(** The geometry that a meta page has after its repair. *)
Definition repaired m : geo_t :=
  let u := Z.max (upper (geometry m)) (first_unallocated (geometry m)) in
  geo_with_now (geo_with_upper (geometry m) u) (meta_now filesize m u).

Lemma meta_now_spec m u :
  0 <= now (geometry m) -> lower (geometry m) <= u -> 0 < pagesize m -> filesize / pagesize m < 2 ^ 32 ->
  meta_now filesize m u = Z.min u (Z.max (Z.max (now (geometry m)) (lower (geometry m))) (filesize / pagesize m)).
Proof.
  intros Hn Hl Hp Hs. unfold meta_now. assert (0 <= filesize / pagesize m) by (apply Z.div_pos; lia).
  rewrite u32_small by (unfold UINT32_MAX; lia). repeat case_decide; lia.
Qed.

Lemma meta_validate_inv m n f num guess m' guess' :
  meta_typed m -> meta_validate granularity filesize fetch m n f num guess = (MDBX_SUCCESS, m', guess') ->
  meta_check_page m n f num = None /\ meta_check_head m = None /\ meta_check_allocated filesize fetch m = None /\
  m' = with_geometry m (repaired m) /\ first_unallocated (geometry m) <= now (repaired m) /\
  MIN_MAPSIZE <= lower (geometry m) * pagesize m /\ meta_check_trees m' = MDBX_SUCCESS /\ guess' = (fun _ => pagesize m) <$> guess.
Proof.
  intros Ht. unfold meta_validate.
  destruct (meta_check_page m n f num) as [rc|] eqn:Ep; [intros [= -> _ _]|].
  { exfalso. revert Ep. unfold meta_check_page. repeat case_decide; try done; destruct (negb _ || _ || _); try done; by destruct (is_powerof2 _). }
  destruct (meta_check_head m) as [rc|] eqn:Eh; [intros [= -> _ _]|].
  { exfalso. revert Eh. unfold meta_check_head. repeat (case_decide || destruct (_ && _) || destruct (negb _)); done. }
  apply check_page_None in Ep as Hp. destruct Hp as (_ & _ & _ & Hpow & Hps). pose proof (check_head_None _ Eh) as (_ & _ & _ & _ & _ & Hl & Hlu & Hu & Hf).
  intros [= E <-]. revert E. unfold meta_check_geometry. destruct (meta_check_allocated filesize fetch m) as [rc|] eqn:Ea.
  { intros [= -> _]. exfalso. revert Ea. unfold meta_check_allocated. destruct (decide (_ > filesize)).
    - destruct fetch as [err|size] eqn:Efe; [intros [= ->]; by apply (Hfetch MDBX_SUCCESS)|].
      destruct (decide (_ > size)); [done|]. by case_decide.
    - by case_decide. }
  unfold MAX_MAPSIZE, MAX_MAPSIZE64, MAX_PAGENO, MDBX_MIN_PAGESIZE, MDBX_MAX_PAGESIZE, MIN_PAGENO, NUM_METAS in *.
  assert (0 <= lower (geometry m) * pagesize m <= 2147483648 * 65536) as Hm by nia.
  rewrite u64_small by (unfold UINT64_MAX; lia). case_decide as Hmin; [done|].
  rewrite meta_upper_spec by (unfold MAX_PAGENO, MDBX_MIN_PAGESIZE, MDBX_MAX_PAGESIZE; lia || done).
  case_decide as Hnow; [done|]. intros [= E <-]. split_and!; try done; lia.
Qed.

(** Conversely, the three checks and a fitting geometry make a valid page. *)
Lemma meta_validate_intro m n f num guess :
  meta_check_page m n f num = None -> meta_check_head m = None -> meta_check_allocated filesize fetch m = None ->
  first_unallocated (geometry m) <= now (repaired m) -> MIN_MAPSIZE <= lower (geometry m) * pagesize m ->
  meta_check_trees (with_geometry m (repaired m)) = MDBX_SUCCESS ->
  meta_validate granularity filesize fetch m n f num guess =
  (MDBX_SUCCESS, with_geometry m (repaired m), (fun _ => pagesize m) <$> guess).
Proof.
  intros Ep Eh Ea Hnow Hmin Et. unfold meta_validate. rewrite Ep, Eh. unfold meta_check_geometry. rewrite Ea.
  apply check_page_None in Ep as (_ & _ & _ & Hpow & Hps). pose proof (check_head_None _ Eh) as (_ & _ & _ & _ & _ & Hl & Hlu & Hu & Hf).
  unfold MAX_MAPSIZE, MAX_MAPSIZE64, MAX_PAGENO, MDBX_MIN_PAGESIZE, MDBX_MAX_PAGESIZE, MIN_PAGENO, NUM_METAS in *.
  assert (0 <= lower (geometry m) * pagesize m <= 2147483648 * 65536) as Hm by nia.
  rewrite u64_small by (unfold UINT64_MAX; lia). rewrite decide_False by lia.
  rewrite meta_upper_spec by (unfold MAX_PAGENO, MDBX_MIN_PAGESIZE, MDBX_MAX_PAGESIZE; lia || done).
  assert (meta_now filesize (with_geometry m (geo_with_upper (geometry m) (Z.max (upper (geometry m)) (first_unallocated (geometry m)))))
    (Z.max (upper (geometry m)) (first_unallocated (geometry m))) = now (repaired m)) as En by done.
  rewrite En. rewrite decide_False by (change (~ first_unallocated (geometry m) > now (repaired m)); lia). rewrite <- Et. reflexivity.
Qed.

Lemma check_trees_success m :
  meta_check_trees m = MDBX_SUCCESS ->
  root_ok m (gc m) /\ root_ok m (main m) /\ mod_txnid (gc m) <= txnid_a m /\ mod_txnid (main m) <= txnid_a m.
Proof.
  unfold meta_check_trees. destruct (meta_check_root m (gc m)) as [rc|] eqn:E1.
  { intros ->. exfalso. revert E1. unfold meta_check_root. by repeat case_decide. }
  destruct (meta_check_root m (main m)) as [rc|] eqn:E2.
  { intros ->. exfalso. revert E2. unfold meta_check_root. by repeat case_decide. }
  apply check_root_None in E1, E2. refuse H3. refuse H4. intros _. split_and!; (done || lia).
Qed.

(** The checks of a page with another geometry. *)
Lemma check_trees_geometry m g :
  first_unallocated g = first_unallocated (geometry m) -> meta_check_trees (with_geometry m g) = meta_check_trees m.
Proof. intros E. unfold meta_check_trees, meta_check_root. cbn [with_geometry geometry gc main txnid_a]. by rewrite E. Qed.

Lemma check_allocated_geometry m g :
  first_unallocated g = first_unallocated (geometry m) ->
  meta_check_allocated filesize fetch (with_geometry m g) = meta_check_allocated filesize fetch m.
Proof. intros E. unfold meta_check_allocated. cbn [with_geometry geometry]. rewrite E. done. Qed.

Lemma check_head_geometry m g :
  meta_check_head m = None -> lower g = lower (geometry m) -> first_unallocated g = first_unallocated (geometry m) ->
  lower g <= upper g -> upper g <= MAX_PAGENO + 1 -> meta_check_head (with_geometry m g) = None.
Proof.
  intros H El Ef Hlu Hu. pose proof (check_head_None m H) as (_ & _ & _ & _ & _ & Hl & _ & _ & Hf).
  revert H. unfold meta_check_head.
  change (txnid_a (with_geometry m g)) with (txnid_a m). change (txnid_b (with_geometry m g)) with (txnid_b m).
  change (meta_sign_get (with_geometry m g)) with (meta_sign_get m).
  change (meta_sign_calculate (with_geometry m g)) with (meta_sign_calculate m).
  change (gc (with_geometry m g)) with (gc m). change (main (with_geometry m g)) with (main m).
  change (magic_and_version (with_geometry m g)) with (magic_and_version m). change (geometry (with_geometry m g)) with g.
  rewrite El, Ef. destruct (decide (txnid_a m <> txnid_b m)); [done|]. destruct (_ && _); [done|].
  destruct (decide (t_flags (gc m) <> _ /\ _)); [done|]. destruct (negb _); [done|].
  destruct (decide (txnid_a m < _ \/ _)); [done|]. intros _.
  rewrite !decide_False by lia. done.
Qed.
Lemma meta_validate_spec m n f num guess m' guess' :
  meta_typed m -> filesize / pagesize m < 2 ^ 32 ->
  meta_validate granularity filesize fetch m n f num guess = (MDBX_SUCCESS, m', guess') ->
  meta_ok m' /\ m' = with_geometry m (geometry m') /\
  (first_unallocated (geometry m') * pagesize m' <= filesize \/
    exists size, fetch = inr size /\ first_unallocated (geometry m') * pagesize m' <= size) /\
  forall guess2, meta_validate granularity filesize fetch m' n f num guess2 =
  (MDBX_SUCCESS, m', (fun _ => pagesize m) <$> guess2).
Proof.
  intros Ht Hsize Hv.
  destruct (meta_validate_inv m n f num guess m' guess' Ht Hv) as (Ep & Eh & Ea & -> & Hnow & Hmin & Et & _).
  pose proof (check_page_None m n f num Ep) as (_ & -> & -> & Hpow & Hps).
  pose proof (check_head_None m Eh) as (Hb & Hid & Hsign & Hgc & Hmain & Hl & Hlu & Hu & Hf).
  set (u := Z.max (upper (geometry m)) (first_unallocated (geometry m))).
  assert (u = Z.max (upper (geometry m)) (first_unallocated (geometry m))) as Eu by done.
  assert (MDBX_MIN_PAGESIZE = 256 /\ MDBX_MAX_PAGESIZE = 65536 /\ MIN_PAGENO = 3) as (Emin & Emax & Emin3) by done.
  assert (MAX_MAPSIZE = (MAX_PAGENO + 1) * 65536) as Emap by done.
  pose proof (mt_now m Ht) as Hn0.
  assert (now (repaired m) = Z.min u (Z.max (Z.max (now (geometry m)) (lower (geometry m))) (filesize / pagesize m))) as En.
  { apply meta_now_spec; lia. }
  assert (0 <= filesize / pagesize m) by (apply Z.div_pos; lia).
  assert (u <= MAX_PAGENO + 1) as Hu1 by lia.
  destruct (check_trees_success _ Et) as (Rgc & Rmain & Mgc & Mmain).
  split; [|split; [done|split]].
  - split.
    + done.
    + done.
    + cbn [with_geometry geometry repaired geo_with_now geo_with_upper lower upper]. fold u.
      change (now (geo_with_now (geo_with_upper (geometry m) u) (meta_now filesize m u))) with (now (repaired m)). lia.
    + cbn [with_geometry geometry]. change (first_unallocated (repaired m)) with (first_unallocated (geometry m)). lia.
    + cbn [with_geometry geometry]. change (lower (repaired m)) with (lower (geometry m)). change (upper (repaired m)) with u.
      change (pagesize (with_geometry m (repaired m))) with (pagesize m). split; [done|].
      rewrite Emap. assert (0 <= MAX_PAGENO + 1) by done. apply Z.mul_le_mono_nonneg; unfold MIN_PAGENO, NUM_METAS in *; lia.
    + exact Hsign.
    + done.
    + done.
  - exact (check_allocated_None m ltac:(lia) ltac:(lia) Ea).
  - intros guess2. set (m' := with_geometry m (repaired m)).
    assert (now (repaired m') = now (repaired m)) as En'.
    { transitivity (meta_now filesize m' (Z.max u (first_unallocated (geometry m)))); [done|].
      replace (Z.max u (first_unallocated (geometry m))) with u by lia.
      rewrite (meta_now_spec m' u); change (now (geometry m')) with (now (repaired m)); change (lower (geometry m')) with (lower (geometry m));
        change (pagesize m') with (pagesize m); lia. }
    assert (repaired m' = repaired m) as Er.
    { transitivity (geo_with_now (geo_with_upper (geometry m) (Z.max u (first_unallocated (geometry m)))) (now (repaired m'))); [done|].
      rewrite En'. replace (Z.max u (first_unallocated (geometry m))) with u by lia. done. }
    assert (with_geometry m' (repaired m') = m') as Em by (rewrite Er; done).
    rewrite <- Em at 2. change (pagesize m) with (pagesize m'). apply meta_validate_intro.
    + exact Ep.
    + apply check_head_geometry; [done|done|done| |].
      * change (lower (geometry m) <= u). lia.
      * change (u <= MAX_PAGENO + 1). lia.
    + unfold m'. by rewrite check_allocated_geometry.
    + rewrite En'. exact Hnow.
    + exact Hmin.
    + rewrite Em. exact Et.
Qed.

(** ** New meta pages *)

Lemma meta_model_inv env num guid m :
  meta_model env num guid = Some m ->
  is_powerof2 (ps env) = true /\ MDBX_MIN_PAGESIZE <= ps env <= MDBX_MAX_PAGESIZE /\
  MIN_PAGENO <= lower (geometry m) /\ lower (geometry m) <= now (geometry m) /\ now (geometry m) <= upper (geometry m) /\
  upper (geometry m) <= MAX_PAGENO + 1 /\ first_unallocated (geometry m) = NUM_METAS /\
  m = mk_meta MDBX_DATA_MAGIC (MIN_TXNID + num) (geometry m) (empty_tree MDBX_INTEGERKEY (ps env)) (empty_tree 0 0) [0; 0; 0; 0]
  (u64 (Z.lnot DATASIGN_NONE)) (MIN_TXNID + num) 0 (global_bootid env) guid.
Proof.
  unfold meta_model.
  match goal with |- (if ?b then _ else _) = _ -> _ => destruct b eqn:H1; [|done] end. set (g := mk_geo _ _ _ _ _ _). cbv zeta.
  match goal with |- (if ?b then _ else _) = _ -> _ => destruct b eqn:H2; [|done] end.
  intros H. injection H as H. subst m. rewrite !andb_true_iff in H1. rewrite !andb_true_iff in H2. destruct H1 as ((((((H11 & H12) & H13) & _) & _) & _) & _).
  destruct H2 as (((((((H21 & H22) & H23) & H24) & _) & _) & _) & _).
  rewrite !bool_decide_eq_true in *. unfold meta_sign_as_steady, meta_set_txnid.
  cbn [with_sign with_txnid geometry]. split_and!; (done || lia).
Qed.

Lemma meta_model_spec env num guid m guess :
  meta_model env num guid = Some m -> 0 <= num < NUM_METAS -> filesize = now (geometry m) * ps env ->
  meta_validate granularity filesize fetch m num P_META num guess = (MDBX_SUCCESS, m, (fun _ => ps env) <$> guess).
Proof.
  intros Hm Hnum Hfile. destruct (meta_model_inv env num guid m Hm) as (Hpow & Hps & Hl & Hln & Hnu & Hu & Hf & Em).
  assert (MDBX_MIN_PAGESIZE = 256 /\ MDBX_MAX_PAGESIZE = 65536 /\ MIN_PAGENO = 3 /\ NUM_METAS = 3 /\ MIN_MAPSIZE = 768)
    as (Emin & Emax & E3 & En3 & Emap) by done.
  assert (MAX_PAGENO = 2147483647) as Emaxp by done.
  set (g := geometry m) in *. clearbody g. assert (pagesize m = ps env) as Epg by by rewrite Em.
  assert (geometry m = g) as Eg by by rewrite Em.
  assert (magic_and_version m = MDBX_DATA_MAGIC /\ txnid_a m = MIN_TXNID + num /\ txnid_b m = MIN_TXNID + num /\
    meta_sign_get m = meta_sign_calculate m /\ gc m = empty_tree MDBX_INTEGERKEY (ps env) /\ main m = empty_tree 0 0)
    as (Em1 & Em2 & Em3 & Em4 & Em5 & Em6) by by rewrite Em.
  assert (now (repaired m) = now g) as En.
  { unfold repaired. rewrite Eg. cbn [geo_with_now now]. rewrite meta_now_spec; rewrite ?Eg, ?Epg; try lia.
    - rewrite Hfile, Z.div_mul by lia. lia.
    - rewrite Hfile, Z.div_mul by lia. lia. }
  assert (repaired m = g) as Er.
  { transitivity (geo_with_now (geo_with_upper g (Z.max (upper g) (first_unallocated g))) (now (repaired m))); [unfold repaired; by rewrite Eg|].
    rewrite En. replace (Z.max (upper g) (first_unallocated g)) with (upper g) by lia. by destruct g. }
  assert (with_geometry m (repaired m) = m) as Emm by (rewrite Er, Em; done).
  rewrite <- Emm at 2. rewrite <- Epg. apply meta_validate_intro.
  - unfold meta_check_page. rewrite Epg, Em1.
    rewrite decide_False by (intros (H & _); by apply H). rewrite decide_False by (intros H; by apply H).
    rewrite decide_False by (intros H; by apply H). rewrite Hpow. rewrite !bool_decide_eq_false_2 by lia. done.
  - unfold meta_check_head. rewrite Em1, Em2, Em3, Em4, Em5, Em6, Eg. cbn [t_flags empty_tree].
    rewrite decide_False by (intros H; by apply H). rewrite bool_decide_eq_false_2 by (intros H; by apply H). rewrite andb_false_r.
    rewrite decide_False by (intros (H & _); by apply H). replace (check_table_flags 0) with true by done. cbn [negb].
    unfold MIN_TXNID. assert (MAX_TXNID = 18446744069414584319) by done. rewrite !decide_False by lia. done.
  - unfold meta_check_allocated. rewrite Eg, Epg, Hf, Hfile.
    assert (3 * ps env <= now g * ps env) by (apply Z.mul_le_mono_nonneg_r; lia).
    rewrite u64_small by (unfold UINT64_MAX; lia). rewrite decide_False by lia.
    assert (MAX_MAPSIZE = 140737488355328) by done. rewrite decide_False by lia. done.
  - rewrite En, Eg. lia.
  - rewrite Eg, Epg. rewrite Emap. assert (3 * 256 <= lower g * ps env) by (apply Z.mul_le_mono_nonneg; lia). lia.
  - rewrite Emm. unfold meta_check_trees, meta_check_root. rewrite Em2, Em5, Em6. cbn -[MIN_TXNID Z.add]. unfold MIN_TXNID.
    repeat (case_decide; try (exfalso; lia)); done.
Qed.
End checks.

(** ** Meta pages: properties *)

(** A meta page of the given transaction, for examples. *)
Definition sample_meta (txnid : Z) (steady : bool) : meta_t :=
  mk_meta MDBX_DATA_MAGIC txnid (mk_geo 0 0 3 100 7 5) (empty_tree MDBX_INTEGERKEY 4096) (empty_tree 0 0) [0; 0; 0; 0]
    (if steady then UINT64_MAX else DATASIGN_WEAK) txnid 0 0 0.

(** C8. A meta page that is accepted for a file of less than 2^32 of its pages can
    start a snapshot: its transaction id and
    page size are valid, its geometry is in order and within the limits, the
    allocated pages are inside the file, both roots are allocated pages or the
    trees are empty, and nothing but the geometry was changed.  The repair is
    complete: validating the result again accepts it unchanged. *)
Theorem meta_validate_safe granularity k filesize fetch m n f num guess m' guess' :
  granularity = 2 ^ k -> 0 <= k <= 39 -> 0 <= filesize < 2 ^ 64 -> (forall err, fetch = inl err -> err <> MDBX_SUCCESS) ->
  meta_typed m -> filesize / pagesize m < 2 ^ 32 ->
  meta_validate granularity filesize fetch m n f num guess = (MDBX_SUCCESS, m', guess') ->
  meta_ok m' /\ m' = with_geometry m (geometry m') /\
  (first_unallocated (geometry m') * pagesize m' <= filesize \/
    exists size, fetch = inr size /\ first_unallocated (geometry m') * pagesize m' <= size) /\
  forall guess2, meta_validate granularity filesize fetch m' n f num guess2 =
  (MDBX_SUCCESS, m', (fun _ => pagesize m) <$> guess2).
Proof. intros Hg Hk Hfs Hfetch. by apply (meta_validate_spec granularity k Hg Hk filesize fetch Hfs Hfetch). Qed.

Lemma sample_meta_typed txnid steady : meta_typed (sample_meta txnid steady).
Proof. split; vm_compute; split; (discriminate || reflexivity). Qed.

Lemma meta_validate_safe_witness :
  exists m', meta_validate 4096 40960 (inr 0) (sample_meta 7 true) 0 P_META 0 None = (MDBX_SUCCESS, m', None) /\
  meta_ok m' /\ now (geometry m') = 10.
Proof.
  eexists. split; [vm_compute; reflexivity|]. split; [|reflexivity].
  refine (proj1 (meta_validate_safe 4096 12 40960 (inr 0) (sample_meta 7 true) 0 P_META 0 None _ None _ _ _ _ _ _ _)).
  - reflexivity.
  - lia.
  - lia.
  - intros err E. discriminate.
  - apply sample_meta_typed.
  - vm_compute. reflexivity.
  - vm_compute. reflexivity.
Defined.

(** New meta pages are valid: whenever the model of a meta page passes its own
    conditions, the validation accepts it unchanged in a file of its size, for
    each of the three pages. *)
Theorem meta_model_valid granularity k filesize fetch env num guid m guess :
  granularity = 2 ^ k -> 0 <= k <= 39 -> 0 <= filesize < 2 ^ 64 ->
  meta_model env num guid = Some m -> 0 <= num < NUM_METAS -> filesize = now (geometry m) * ps env ->
  meta_validate granularity filesize fetch m num P_META num guess = (MDBX_SUCCESS, m, (fun _ => ps env) <$> guess).
Proof. intros Hg Hk Hfs. by apply (meta_model_spec granularity k Hg Hk filesize fetch Hfs). Qed.

Definition sample_env : meta_env := mk_meta_env 4096 12 65536 1048576 10485760 40960 81920 77.

Lemma meta_model_valid_witness :
  exists m, meta_model sample_env 1 5 = Some m /\
  meta_validate 4096 1048576 (inr 0) m 1 P_META 1 (Some 0) = (MDBX_SUCCESS, m, Some 4096).
Proof.
  eexists. split; [vm_compute; reflexivity|].
  refine (meta_model_valid 4096 12 1048576 (inr 0) sample_env 1 5 _ (Some 0) _ _ _ _ _ _).
  - reflexivity.
  - lia.
  - lia.
  - vm_compute. reflexivity.
  - unfold NUM_METAS. lia.
  - vm_compute. reflexivity.
Defined.

(** The size of the file in pages is cut to 32 bits where the geometry takes it
    over, so a file of exactly 2{^32} pages seems to be empty and a good meta page
    is refused; in a file that is one page shorter it is accepted. *)
Theorem meta_now_is_cut :
  fst (fst (meta_validate 4096 (2 ^ 44) (inr 0) (sample_meta 7 true) 0 P_META 0 None)) = MDBX_CORRUPTED /\
  fst (fst (meta_validate 4096 (2 ^ 44 - 4096) (inr 0) (sample_meta 7 true) 0 P_META 0 None)) = MDBX_SUCCESS.
Proof. split; vm_compute; reflexivity. Qed.
