(* ===== verification/Troika.v ===== *)
(** * The choice between the three meta pages

    A data file has three meta pages.  [troika_t] of mdbx.c tells which of them is
    the most recent one, which one is preferred after a crash, because it was
    written steadily, and which one the next commit may overwrite (the tail).  The
    choice is read from a table that is indexed by the comparisons of the three
    transaction ids and by the three steady marks. *)

From S2P Require Import Prelude Packing Meta.

(** What is read of a meta page: no transaction if its update was not complete. *)
Record meta_snap_t := mk_snap { snap_txnid : Z; snap_steady : bool }.

Definition meta_snap (m : meta_t) : meta_snap_t :=
  let txnid := txnid_a m in
  let is_steady := meta_is_steady m && bool_decide (txnid >= MIN_TXNID) in
  if decide (txnid <> txnid_b m) then mk_snap 0 false else mk_snap txnid is_steady.

Definition meta_txnid (m : meta_t) : Z := snap_txnid (meta_snap m).

Record troika_t := mk_troika {
  fsm : Z;
  recent : Z;
  prefer_steady : Z;
  tail_and_flags : Z;
  txnids : list Z
}.

Definition TROIKA_HAVE_STEADY (t : troika_t) : bool := negb (Z.land (fsm t) 7 =? 0).
Definition TROIKA_STRICT_VALID (t : troika_t) : bool := negb (Z.land (tail_and_flags t) 64 =? 0).
Definition TROIKA_VALID (t : troika_t) : bool := negb (Z.land (tail_and_flags t) 128 =? 0).
Definition TROIKA_TAIL (t : troika_t) : Z := Z.land (tail_and_flags t) 3.

Definition meta_cmp2int (a b s : Z) : Z := if decide (a = b) then 1 * s else if decide (a > b) then 2 * s else 0 * s.

Definition gt_bool (a b : bool) : bool := a && negb b.

Definition meta_cmp2recent (ab_cmp2int : Z) (a_steady b_steady : bool) : bool :=
  (ab_cmp2int >? 1) || ((ab_cmp2int =? 1) && gt_bool a_steady b_steady).
Definition meta_cmp2steady (ab_cmp2int : Z) (a_steady b_steady : bool) : bool :=
  gt_bool a_steady b_steady || (Bool.eqb a_steady b_steady && (ab_cmp2int >? 1)).
Definition meta_choice_recent (a_txnid : Z) (a_steady : bool) (b_txnid : Z) (b_steady : bool) : bool :=
  meta_cmp2recent (meta_cmp2int a_txnid b_txnid 1) a_steady b_steady.
Definition meta_choice_steady (a_txnid : Z) (a_steady : bool) (b_txnid : Z) (b_steady : bool) : bool :=
  meta_cmp2steady (meta_cmp2int a_txnid b_txnid 1) a_steady b_steady.

(** The winners and the flags that a byte of the table packs. *)
Definition pack_recent (c01 c02 c12 : Z) (s0 s1 s2 : bool) : Z :=
  if meta_cmp2recent c01 s0 s1 then (if meta_cmp2recent c02 s0 s2 then 0 else 2)
  else (if meta_cmp2recent c12 s1 s2 then 1 else 2).
Definition pack_prefer_steady (c01 c02 c12 : Z) (s0 s1 s2 : bool) : Z :=
  if meta_cmp2steady c01 s0 s1 then (if meta_cmp2steady c02 s0 s2 then 0 else 2)
  else (if meta_cmp2steady c12 s1 s2 then 1 else 2).
Definition pack_tail (recent c01 c02 c12 : Z) (s0 s1 s2 : bool) : Z :=
  if decide (recent = 0) then (if meta_cmp2steady c12 s1 s2 then 2 else 1)
  else if decide (recent = 1) then (if meta_cmp2steady c02 s0 s2 then 2 else 0)
  else (if meta_cmp2steady c01 s0 s1 then 1 else 0).
Definition pack_valid (c01 c02 c12 : Z) (s0 s1 s2 : bool) : bool :=
  negb (c01 =? 1) || negb (Bool.eqb s0 s1) || negb (c02 =? 1) || negb (Bool.eqb s0 s2) || negb (c12 =? 1) || negb (Bool.eqb s1 s2).
Definition pack_strict (c01 c02 c12 : Z) (s0 s1 s2 : bool) : bool :=
  (negb (c01 =? 1) || negb (Bool.eqb s0 s1)) && (negb (c02 =? 1) || negb (Bool.eqb s0 s2)) && (negb (c12 =? 1) || negb (Bool.eqb s1 s2)).

Definition meta_cmp2pack (c01 c02 c12 : Z) (s0 s1 s2 : bool) : Z :=
  let recent := pack_recent c01 c02 c12 s0 s1 s2 in
  let prefer_steady := pack_prefer_steady c01 c02 c12 s0 s1 s2 in
  let tail := pack_tail recent c01 c02 c12 s0 s1 s2 in
  let valid := pack_valid c01 c02 c12 s0 s1 s2 in
  let strict := pack_strict c01 c02 c12 s0 s1 s2 in
  u8 (Z.lor tail (Z.lor (Z.shiftl recent 2) (Z.lor (Z.shiftl prefer_steady 4)
    (Z.lor (Z.shiftl (Z.b2z strict) 6) (Z.shiftl (Z.b2z valid) 7))))).

Definition meta_troika_unpack (fsm packed : Z) (txnids : list Z) : troika_t :=
  mk_troika fsm (Z.land (Z.shiftr packed 2) 3) (Z.land (Z.shiftr packed 4) 3) (Z.land packed 0xC3) txnids.

Definition troika_fsm_map : list Z :=
  [232; 201; 216; 216; 232; 233; 232; 232; 168; 201; 216; 152; 168; 233; 232; 168; 233; 201; 216; 201; 233; 233; 232; 233;
    168; 201; 152; 216; 232; 169; 232; 168; 168; 193; 152; 152; 168; 169; 232; 168; 169; 193; 152; 194; 233; 169; 232; 169;
    232; 201; 216; 216; 232; 201; 232; 232; 168; 193; 216; 152; 168; 193; 232; 168; 193; 193; 210; 194; 225; 193; 225; 193;
    168; 137; 212; 214; 232; 233; 168; 168; 168; 137; 212; 150; 168; 233; 168; 168; 169; 137; 216; 201; 233; 233; 168; 169;
    168; 137; 148; 214; 232; 169; 168; 168; 40; 129; 148; 150; 168; 169; 168; 40; 169; 129; 152; 194; 233; 169; 168; 169;
    168; 137; 214; 214; 232; 201; 168; 168; 168; 129; 214; 150; 168; 193; 168; 168; 129; 129; 210; 194; 225; 193; 161; 129;
    212; 198; 212; 214; 228; 228; 212; 212; 148; 201; 212; 150; 164; 233; 212; 148; 233; 201; 216; 201; 233; 233; 216; 233;
    148; 198; 148; 214; 228; 164; 212; 148; 148; 194; 148; 150; 164; 169; 212; 148; 169; 194; 152; 194; 233; 169; 216; 169;
    214; 198; 214; 214; 228; 198; 212; 214; 150; 194; 214; 150; 164; 193; 212; 150; 194; 194; 210; 194; 225; 193; 210; 194].

Definition fsm_packed (fsm : Z) : Z := nth (Z.to_nat fsm) troika_fsm_map 0.

(** One turn of the loop of [troika_verify_fsm]. *)
Definition verify_fsm_at (i : Z) : bool :=
  let s0 := Z.testbit i 0 in let s1 := Z.testbit i 1 in let s2 := Z.testbit i 2 in
  let c01 := (i / 8) mod 3 in let c02 := (i / 24) mod 3 in let c12 := (i / 72) mod 3 in
  let packed := meta_cmp2pack c01 c02 c12 s0 s1 s2 in
  let troika := meta_troika_unpack i packed [] in
  negb (negb (recent troika =? pack_recent c01 c02 c12 s0 s1 s2) ||
    negb (prefer_steady troika =? pack_prefer_steady c01 c02 c12 s0 s1 s2) ||
    negb (TROIKA_TAIL troika =? pack_tail (pack_recent c01 c02 c12 s0 s1 s2) c01 c02 c12 s0 s1 s2) ||
    negb (Bool.eqb (TROIKA_VALID troika) (pack_valid c01 c02 c12 s0 s1 s2)) ||
    negb (Bool.eqb (TROIKA_STRICT_VALID troika) (pack_strict c01 c02 c12 s0 s1 s2)) ||
    negb (fsm_packed (fsm troika) =? packed)).

Definition troika_verify_fsm : bool := forallb verify_fsm_at (seqZ 0 216).

Definition meta_tap_shadow (m0 m1 m2 : meta_t) : troika_t :=
  let s0 := meta_snap m0 in let s1 := meta_snap m1 in let s2 := meta_snap m2 in
  let fsm := Z.b2z (snap_steady s0) in
  let fsm := u8 (fsm + Z.shiftl (Z.b2z (snap_steady s1)) 1) in
  let fsm := u8 (fsm + meta_cmp2int (snap_txnid s0) (snap_txnid s1) 8) in
  let fsm := u8 (fsm + Z.shiftl (Z.b2z (snap_steady s2)) 2) in
  let fsm := u8 (fsm + meta_cmp2int (snap_txnid s0) (snap_txnid s2) (8 * 3)) in
  let fsm := u8 (fsm + meta_cmp2int (snap_txnid s1) (snap_txnid s2) (8 * 3 * 3)) in
  meta_troika_unpack fsm (fsm_packed fsm) [snap_txnid s0; snap_txnid s1; snap_txnid s2].

Definition meta_troika_equal (a b : troika_t) : bool :=
  bool_decide (fsm a = fsm b) && bool_decide (txnids a = txnids b).

Definition txnid_at (t : troika_t) (n : Z) : Z := nth (Z.to_nat n) (txnids t) 0.
Definition steady_at (t : troika_t) (n : Z) : bool := Z.testbit (fsm t) n.

(** [meta_shadow_should_retry]: the meta pages changed since the last look. *)
Definition meta_shadow_should_retry (prev : troika_t) (m0 m1 m2 : meta_t) : bool * troika_t :=
  let t := meta_tap_shadow m0 m1 m2 in (negb (meta_troika_equal prev t), t).

Definition recent_committed_txnid_shadow (t : troika_t) : Z :=
  let m0 := txnid_at t 0 in let m1 := txnid_at t 1 in let m2 := txnid_at t 2 in
  if decide (m0 > m1) then (if decide (m0 > m2) then m0 else m2) else (if decide (m1 > m2) then m1 else m2).

Definition meta_eq (t : troika_t) (a b : Z) : bool :=
  bool_decide (txnid_at t a = txnid_at t b) && negb (xorb (steady_at t a) (steady_at t b)) && negb (txnid_at t a =? 0).
Definition meta_eq_mask (t : troika_t) : Z :=
  Z.lor (Z.b2z (meta_eq t 0 1)) (Z.lor (Z.shiftl (Z.b2z (meta_eq t 1 2)) 1) (Z.shiftl (Z.b2z (meta_eq t 2 0)) 2)).

Record meta_ptr_t := mk_ptr { ptr_txnid : Z; ptr_number : Z; ptr_steady : bool }.
Definition meta_ptr_at (t : troika_t) (n : Z) : meta_ptr_t := mk_ptr (txnid_at t n) n (steady_at t n).
Definition meta_recent_shadow (t : troika_t) : meta_ptr_t := meta_ptr_at t (recent t).
Definition meta_prefer_steady_shadow (t : troika_t) : meta_ptr_t := meta_ptr_at t (prefer_steady t).
Definition meta_tail_shadow (t : troika_t) : meta_ptr_t := meta_ptr_at t (Z.land (tail_and_flags t) 3).
Definition meta_is_used (t : troika_t) (n : Z) : bool := (n =? recent t) || (n =? prefer_steady t).

(** ** The meta page that a commit writes *)

Inductive target_t := target_none | target_meta (n : Z) | target_broken.

(** The choice of the target in [dxb_sync_locked]: the head itself only to make it
    steady, otherwise the tail; [target_broken] where the code ensures a condition. *)
Definition sync_target (t : troika_t) (pending_txnid : Z) (pending_steady legal4overwrite : bool) : target_t :=
  let head := meta_recent_shadow t in
  if decide (ptr_txnid head = pending_txnid) then
    if legal4overwrite then
      if negb (ptr_steady head) && pending_steady then target_meta (ptr_number head) else target_none
    else target_broken
  else
    let tail := Z.land (tail_and_flags t) 3 in
    if bool_decide (tail < NUM_METAS) && bool_decide (tail <> recent t) && bool_decide (tail <> prefer_steady t)
    then target_meta tail else target_broken.
