(* ===== verification/TroikaProps.v ===== *)
(** * The choice between the three meta pages: properties *)

From S2P Require Import Prelude Packing Meta MetaProps Troika.

(** ** The table *)

Lemma troika_verify_fsm_true : troika_verify_fsm = true.
Proof. vm_compute. reflexivity. Qed.

Definition fsm_of (c01 c02 c12 : Z) (s0 s1 s2 : bool) : Z :=
  Z.b2z s0 + 2 * Z.b2z s1 + 4 * Z.b2z s2 + 8 * c01 + 24 * c02 + 72 * c12.

Lemma unpack_spec c01 c02 c12 s0 s1 s2 l :
  c01 ∈ [0; 1; 2] -> c02 ∈ [0; 1; 2] -> c12 ∈ [0; 1; 2] ->
  let f := fsm_of c01 c02 c12 s0 s1 s2 in
  let t := meta_troika_unpack f (fsm_packed f) l in
  recent t = pack_recent c01 c02 c12 s0 s1 s2 /\ prefer_steady t = pack_prefer_steady c01 c02 c12 s0 s1 s2 /\
  TROIKA_TAIL t = pack_tail (pack_recent c01 c02 c12 s0 s1 s2) c01 c02 c12 s0 s1 s2 /\
  TROIKA_VALID t = pack_valid c01 c02 c12 s0 s1 s2 /\ TROIKA_STRICT_VALID t = pack_strict c01 c02 c12 s0 s1 s2 /\
  steady_at t 0 = s0 /\ steady_at t 1 = s1 /\ steady_at t 2 = s2 /\ TROIKA_HAVE_STEADY t = s0 || s1 || s2.
Proof.
  rewrite !elem_of_cons, !elem_of_nil.
  intros [->|[->|[->|[]]]] [->|[->|[->|[]]]] [->|[->|[->|[]]]]; destruct s0, s1, s2; vm_compute; tauto.
Qed.

(** ** The order of the snapshots *)

Definition recent_le (a b : meta_snap_t) : Prop :=
  snap_txnid a < snap_txnid b \/ (snap_txnid a = snap_txnid b /\ (snap_steady a = true -> snap_steady b = true)).
Definition steady_le (a b : meta_snap_t) : Prop :=
  (snap_steady a = false /\ snap_steady b = true) \/ (snap_steady a = snap_steady b /\ snap_txnid a <= snap_txnid b).

(** The meta pages, by number. *)
Definition tap (ms : Z -> meta_t) : troika_t := meta_tap_shadow (ms 0) (ms 1) (ms 2).
Definition put (n : Z) (m : meta_t) (ms : Z -> meta_t) : Z -> meta_t := fun i => if decide (i = n) then m else ms i.
Definition is_meta (i : Z) : Prop := i = 0 \/ i = 1 \/ i = 2.

Lemma cmp2int_range a b : meta_cmp2int a b 1 ∈ [0; 1; 2].
Proof. unfold meta_cmp2int. repeat case_decide; rewrite !elem_of_cons; simpl; tauto. Qed.

Lemma tap_unpack ms :
  let s i := meta_snap (ms i) in let t i := snap_txnid (s i) in
  let f := fsm_of (meta_cmp2int (t 0) (t 1) 1) (meta_cmp2int (t 0) (t 2) 1) (meta_cmp2int (t 1) (t 2) 1)
    (snap_steady (s 0)) (snap_steady (s 1)) (snap_steady (s 2)) in
  tap ms = meta_troika_unpack f (fsm_packed f) [t 0; t 1; t 2].
Proof.
  intros s t f. unfold tap, meta_tap_shadow. fold (s 0) (s 1) (s 2). fold (t 0) (t 1) (t 2).
  match goal with |- meta_troika_unpack ?g _ _ = _ => assert (g = f) as -> end; [|done].
  assert (forall a b k, meta_cmp2int a b k = k * meta_cmp2int a b 1) as Hk by (intros; unfold meta_cmp2int; repeat case_decide; lia).
  rewrite (Hk _ _ 8), (Hk _ _ (8 * 3)), (Hk _ _ (8 * 3 * 3)). unfold f, fsm_of.
  pose proof (cmp2int_range (t 0) (t 1)) as H1. pose proof (cmp2int_range (t 0) (t 2)) as H2. pose proof (cmp2int_range (t 1) (t 2)) as H3.
  rewrite !elem_of_cons, !elem_of_nil in H1, H2, H3.
  destruct H1 as [->|[->|[->|[]]]], H2 as [->|[->|[->|[]]]], H3 as [->|[->|[->|[]]]];
    destruct (snap_steady (s 0)), (snap_steady (s 1)), (snap_steady (s 2)); vm_compute; reflexivity.
Qed.

(** What the troika says of any three meta pages. *)
Record troika_spec (ms : Z -> meta_t) (t : troika_t) : Prop := {
  ts_recent : is_meta (recent t) /\ forall i, is_meta i -> recent_le (meta_snap (ms i)) (meta_snap (ms (recent t)));
  ts_prefer : is_meta (prefer_steady t) /\ forall i, is_meta i -> steady_le (meta_snap (ms i)) (meta_snap (ms (prefer_steady t)));
  ts_tail : is_meta (TROIKA_TAIL t) /\ TROIKA_TAIL t <> recent t /\
    forall i, is_meta i -> i <> recent t -> steady_le (meta_snap (ms (TROIKA_TAIL t))) (meta_snap (ms i));
  ts_valid : TROIKA_VALID t = true <-> ~ (meta_snap (ms 0) = meta_snap (ms 1) /\ meta_snap (ms 1) = meta_snap (ms 2));
  ts_strict : TROIKA_STRICT_VALID t = true <->
    forall i j, is_meta i -> is_meta j -> i <> j -> meta_snap (ms i) <> meta_snap (ms j);
  ts_strict_tail : TROIKA_STRICT_VALID t = true -> TROIKA_TAIL t <> prefer_steady t;
  ts_at : forall i, is_meta i -> meta_ptr_at t i = mk_ptr (snap_txnid (meta_snap (ms i))) i (snap_steady (meta_snap (ms i)));
  ts_have_steady : TROIKA_HAVE_STEADY t = true <-> exists i, is_meta i /\ snap_steady (meta_snap (ms i)) = true;
  ts_committed : recent_committed_txnid_shadow t = snap_txnid (meta_snap (ms (recent t)))
}.

Lemma cmp2int_cases a b :
  (a < b /\ meta_cmp2int a b 1 = 0) \/ (a = b /\ meta_cmp2int a b 1 = 1) \/ (b < a /\ meta_cmp2int a b 1 = 2).
Proof. unfold meta_cmp2int. repeat case_decide; lia. Qed.

Lemma for_metas (P : Z -> Prop) : P 0 -> P 1 -> P 2 -> forall i, is_meta i -> P i.
Proof. intros H0 H1 H2 i [->|[->| ->]]; done. Qed.

Ltac value_in H :=
  match type of H with _ = ?rhs => let v := eval vm_compute in rhs in change rhs with v in H end.

Section order.
Variables (S0 S1 S2 : meta_snap_t) (t : troika_t).
Let c01 := meta_cmp2int (snap_txnid S0) (snap_txnid S1) 1.
Let c02 := meta_cmp2int (snap_txnid S0) (snap_txnid S2) 1.
Let c12 := meta_cmp2int (snap_txnid S1) (snap_txnid S2) 1.
Let s0 := snap_steady S0.
Let s1 := snap_steady S1.
Let s2 := snap_steady S2.

Definition pick (n : Z) : meta_snap_t := if decide (n = 0) then S0 else if decide (n = 1) then S1 else S2.

Lemma order_spec :
  recent t = pack_recent c01 c02 c12 s0 s1 s2 -> prefer_steady t = pack_prefer_steady c01 c02 c12 s0 s1 s2 ->
  TROIKA_TAIL t = pack_tail (pack_recent c01 c02 c12 s0 s1 s2) c01 c02 c12 s0 s1 s2 ->
  (is_meta (recent t) /\ forall i, is_meta i -> recent_le (pick i) (pick (recent t))) /\
  (is_meta (prefer_steady t) /\ forall i, is_meta i -> steady_le (pick i) (pick (prefer_steady t))) /\
  (is_meta (TROIKA_TAIL t) /\ TROIKA_TAIL t <> recent t /\
    forall i, is_meta i -> i <> recent t -> steady_le (pick (TROIKA_TAIL t)) (pick i)) /\
  (pack_strict c01 c02 c12 s0 s1 s2 = true -> TROIKA_TAIL t <> prefer_steady t).
Proof.
  unfold c01, c02, c12, s0, s1, s2, pick. destruct S0 as [t0 b0], S1 as [t1 b1], S2 as [t2 b2]. cbn [snap_txnid snap_steady].
  intros Hr Hp Ht.
  destruct (cmp2int_cases t0 t1) as [[L1 C1]|[[L1 C1]|[L1 C1]]], (cmp2int_cases t0 t2) as [[L2 C2]|[[L2 C2]|[L2 C2]]],
    (cmp2int_cases t1 t2) as [[L3 C3]|[[L3 C3]|[L3 C3]]]; try (exfalso; lia); rewrite C1, C2, C3 in *; clear C1 C2 C3;
    destruct b0, b1, b2; value_in Hr; value_in Hp; value_in Ht; rewrite Hr, Hp, Ht; unfold is_meta, recent_le, steady_le;
    (split; [split; [lia|intros i [->|[->| ->]]; simpl; intuition lia]|]);
    (split; [split; [lia|intros i [->|[->| ->]]; simpl; intuition lia]|]);
    (split; [split; [lia|split; [lia|intros i [->|[->| ->]]; simpl; intuition lia]]|]); vm_compute; intros; discriminate.
Qed.
End order.

Lemma snap_eq_dec_bool t0 s0 t1 s1 :
  negb (meta_cmp2int t0 t1 1 =? 1) || negb (Bool.eqb s0 s1) = true <-> mk_snap t0 s0 <> mk_snap t1 s1.
Proof.
  rewrite orb_true_iff, !negb_true_iff, Z.eqb_neq, eqb_false_iff.
  destruct (cmp2int_cases t0 t1) as [[L C]|[[L C]|[L C]]]; rewrite C; split.
  - intros _ [= E _]. lia.
  - lia.
  - intros [H|H] [= E1 E2]; [lia|done].
  - intros H. right. intros ->. apply H. by rewrite L.
  - intros _ [= E _]. lia.
  - lia.
Qed.

Lemma tap_spec ms : troika_spec ms (tap ms).
Proof.
  pose proof (tap_unpack ms) as E. cbv zeta in E. rewrite E. clear E.
  set (S0 := meta_snap (ms 0)). set (S1 := meta_snap (ms 1)). set (S2 := meta_snap (ms 2)).
  destruct (unpack_spec _ _ _ (snap_steady S0) (snap_steady S1) (snap_steady S2) [snap_txnid S0; snap_txnid S1; snap_txnid S2]
    (cmp2int_range (snap_txnid S0) (snap_txnid S1)) (cmp2int_range (snap_txnid S0) (snap_txnid S2)) (cmp2int_range (snap_txnid S1) (snap_txnid S2)))
    as (Hr & Hp & Ht & Hv & Hs & A0 & A1 & A2 & Hh).
  set (t := meta_troika_unpack _ _ _) in *. assert (txnids t = [snap_txnid S0; snap_txnid S1; snap_txnid S2]) as Etx by done. clearbody t.
  destruct (order_spec S0 S1 S2 t Hr Hp Ht) as (Or & Op & Ot & Os).
  assert (forall i, is_meta i -> meta_snap (ms i) = pick S0 S1 S2 i) as Hpick by (intros i [->|[->| ->]]; done).
  assert (pack_strict (meta_cmp2int (snap_txnid S0) (snap_txnid S1) 1) (meta_cmp2int (snap_txnid S0) (snap_txnid S2) 1)
    (meta_cmp2int (snap_txnid S1) (snap_txnid S2) 1) (snap_steady S0) (snap_steady S1) (snap_steady S2) = true <-> S0 <> S1 /\ S0 <> S2 /\ S1 <> S2) as Hstrict.
  { unfold pack_strict. rewrite !andb_true_iff. destruct S0, S1, S2. simpl. rewrite !snap_eq_dec_bool. tauto. }
  split.
  - destruct Or as [H1 H2]. split; [done|]. intros i Hi. rewrite !Hpick by done. by apply H2.
  - destruct Op as [H1 H2]. split; [done|]. intros i Hi. rewrite !Hpick by done. by apply H2.
  - destruct Ot as (H1 & H2 & H3). split; [done|]. split; [done|]. intros i Hi Hne. rewrite !Hpick by done. by apply H3.
  - rewrite Hv. unfold pack_valid. fold S0 S1 S2. rewrite <- !orb_assoc, orb_assoc, (orb_assoc (negb (meta_cmp2int (snap_txnid S0) (snap_txnid S2) 1 =? 1))).
    destruct S0 as [t0 b0], S1 as [t1 b1], S2 as [t2 b2]. cbn [snap_txnid snap_steady]. rewrite orb_true_iff, (orb_true_iff (_ || _)), !snap_eq_dec_bool.
    split.
    + intros [H|[H|H]] [E1 E2]; congruence.
    + intros H. destruct (decide (t0 = t1 /\ b0 = b1)) as [[-> ->]|Hn]; [|left; intros [= ]; tauto].
      destruct (decide (t1 = t2 /\ b1 = b2)) as [[-> ->]|Hn]; [tauto|]. right. right. intros [= ]; tauto.
  - rewrite Hs, Hstrict. fold S0 S1 S2. split.
    + intros (H1 & H2 & H3) i j Hi Hj Hne. rewrite !Hpick by done.
      destruct Hi as [->|[->| ->]], Hj as [->|[->| ->]]; unfold pick; simpl; congruence.
    + intros H. pose proof (H 0 1 ltac:(unfold is_meta; lia) ltac:(unfold is_meta; lia) ltac:(lia)).
      pose proof (H 0 2 ltac:(unfold is_meta; lia) ltac:(unfold is_meta; lia) ltac:(lia)).
      pose proof (H 1 2 ltac:(unfold is_meta; lia) ltac:(unfold is_meta; lia) ltac:(lia)). done.
  - rewrite Hs. exact Os.
  - intros i Hi. unfold meta_ptr_at, txnid_at. rewrite Etx, (Hpick i Hi). destruct Hi as [->|[->| ->]]; rewrite ?A0, ?A1, ?A2; done.
  - rewrite Hh, !orb_true_iff. split.
    + intros [[H|H]|H]; [exists 0|exists 1|exists 2]; unfold is_meta; (split; [lia|done]).
    + intros (i & [->|[->| ->]] & H); tauto.
  - destruct Or as [H1 H2]. rewrite Hpick by done. unfold recent_committed_txnid_shadow, txnid_at. rewrite Etx. simpl.
    pose proof (H2 0 ltac:(unfold is_meta; lia)) as G0. pose proof (H2 1 ltac:(unfold is_meta; lia)) as G1. pose proof (H2 2 ltac:(unfold is_meta; lia)) as G2.
    unfold recent_le in G0, G1, G2. destruct H1 as [E|[E|E]]; rewrite E in *; unfold pick in *; simpl in *; repeat case_decide; lia.
Qed.

#[local] Opaque tap meta_tap_shadow.

(** ** Uniqueness of the choices *)

Lemma recent_le_antisym a b : recent_le a b -> recent_le b a -> a = b.
Proof.
  destruct a as [ta sa], b as [tb sb]. unfold recent_le. simpl. intros [H1|[H1 H2]] [H3|[H3 H4]]; try lia. f_equal; [done|].
  destruct sa, sb; intuition congruence.
Qed.

Lemma steady_le_antisym a b : steady_le a b -> steady_le b a -> a = b.
Proof.
  destruct a as [ta sa], b as [tb sb]. unfold steady_le. simpl. intros [[H1 H2]|[H1 H2]] [[H3 H4]|[H3 H4]]; try congruence. f_equal; [lia|done].
Qed.

Section crash.
Variables (ms : Z -> meta_t) (m : meta_t).
#[local] Abbreviation t := (tap ms).
#[local] Abbreviation n := (TROIKA_TAIL (tap ms)).
Hypothesis Hstrict : TROIKA_STRICT_VALID t = true.

Lemma put_at i : meta_snap (put n m ms i) = if decide (i = n) then meta_snap m else meta_snap (ms i).
Proof. unfold put. by case_decide. Qed.

Lemma distinct i j : is_meta i -> is_meta j -> meta_snap (ms i) = meta_snap (ms j) -> i = j.
Proof.
  intros Hi Hj E. destruct (decide (i = j)) as [|Hne]; [done|exfalso].
  by apply (proj1 (ts_strict _ _ (tap_spec ms)) Hstrict i j Hi Hj Hne).
Qed.

(** A snapshot that is less than the most recent one takes nothing away. *)
Lemma put_less :
  meta_snap m <> meta_snap (ms (recent t)) -> recent_le (meta_snap m) (meta_snap (ms (recent t))) ->
  recent (tap (put n m ms)) = recent t.
Proof.
  intros Hne Hle. destruct (ts_recent _ _ (tap_spec ms)) as [Hr1 Hr2]. destruct (ts_recent _ _ (tap_spec (put n m ms))) as [Hr1' Hr2'].
  destruct (ts_tail _ _ (tap_spec ms)) as (Ht1 & Ht2 & _). set (r' := recent (tap (put n m ms))) in *.
  pose proof (Hr2' (recent t) Hr1) as H. rewrite !put_at in H. rewrite (decide_False (P := recent t = n)) in H by congruence.
  destruct (decide (r' = n)) as [En|En].
  - exfalso. apply Hne. by apply recent_le_antisym.
  - apply distinct; [done|done|]. apply recent_le_antisym; [by apply Hr2|done].
Qed.

Lemma put_less_steady :
  meta_snap m <> meta_snap (ms (prefer_steady t)) -> steady_le (meta_snap m) (meta_snap (ms (prefer_steady t))) ->
  prefer_steady (tap (put n m ms)) = prefer_steady t.
Proof.
  intros Hne Hle. destruct (ts_prefer _ _ (tap_spec ms)) as [Hr1 Hr2]. destruct (ts_prefer _ _ (tap_spec (put n m ms))) as [Hr1' Hr2'].
  pose proof (ts_strict_tail _ _ (tap_spec ms) Hstrict) as Ht. set (r' := prefer_steady (tap (put n m ms))) in *.
  pose proof (Hr2' (prefer_steady t) Hr1) as H. rewrite !put_at in H. rewrite (decide_False (P := prefer_steady t = n)) in H by congruence.
  destruct (decide (r' = n)) as [En|En].
  - exfalso. apply Hne. by apply steady_le_antisym.
  - apply distinct; [done|done|]. apply steady_le_antisym; [by apply Hr2|done].
Qed.

Lemma put_greater : (forall i, is_meta i -> snap_txnid (meta_snap (ms i)) < snap_txnid (meta_snap m)) -> recent (tap (put n m ms)) = n.
Proof.
  intros Hgt. destruct (ts_recent _ _ (tap_spec (put n m ms))) as [Hr1' Hr2'].
  destruct (ts_tail _ _ (tap_spec ms)) as (Ht1 & _ & _). set (r' := recent (tap (put n m ms))) in *.
  pose proof (Hr2' n Ht1) as H. rewrite !put_at in H. rewrite (decide_True (P := n = n)) in H by done.
  destruct (decide (r' = n)) as [En|En]; [done|exfalso]. specialize (Hgt r' Hr1'). unfold recent_le in H. lia.
Qed.

Lemma put_greater_steady :
  (forall i, is_meta i -> snap_txnid (meta_snap (ms i)) < snap_txnid (meta_snap m)) ->
  (forall i, is_meta i -> snap_steady (meta_snap (ms i)) = true -> snap_steady (meta_snap m) = true) ->
  prefer_steady (tap (put n m ms)) = n.
Proof.
  intros Hgt Hst. destruct (ts_prefer _ _ (tap_spec (put n m ms))) as [Hr1' Hr2'].
  destruct (ts_tail _ _ (tap_spec ms)) as (Ht1 & _ & _). set (r' := prefer_steady (tap (put n m ms))) in *.
  pose proof (Hr2' n Ht1) as H. rewrite !put_at in H. rewrite (decide_True (P := n = n)) in H by done.
  destruct (decide (r' = n)) as [En|En]; [done|exfalso]. specialize (Hgt r' Hr1'). specialize (Hst r' Hr1').
  unfold steady_le in H. destruct H as [[H1 H2]|[H1 H2]]; [rewrite (Hst H2) in H1; done|lia].
Qed.
End crash.

Lemma commit_spec ms t n txnid steady legal4overwrite :
  tap ms = t -> TROIKA_TAIL t = n -> TROIKA_STRICT_VALID t = true ->
  0 < snap_txnid (meta_snap (ms (recent t))) < txnid -> MIN_TXNID <= txnid ->
  sync_target t txnid steady legal4overwrite = target_meta n /\
  (forall m t', txnid_a m <> txnid_b m -> tap (put n m ms) = t' ->
    recent t' = recent t /\ prefer_steady t' = prefer_steady t /\
    put n m ms (recent t') = ms (recent t) /\ put n m ms (prefer_steady t') = ms (prefer_steady t)) /\
  (forall m t', txnid_a m = txnid -> txnid_b m = txnid -> tap (put n m ms) = t' ->
    recent t' = n /\ TROIKA_STRICT_VALID t' = true /\ snap_txnid (meta_snap (put n m ms (recent t'))) = txnid /\
    (if meta_is_steady m || negb (TROIKA_HAVE_STEADY t) then prefer_steady t' = n
     else prefer_steady t' = prefer_steady t /\ put n m ms (prefer_steady t') = ms (prefer_steady t))).
Proof.
  intros Et En Hstrict Hid Hmin. pose proof (tap_spec ms) as T.
  rewrite Et in T.
  pose proof (put_less ms) as PL. pose proof (put_less_steady ms) as PLS. pose proof (put_greater ms) as PG.
  pose proof (put_greater_steady ms) as PGS. rewrite Et, ?En in PL, PLS, PG, PGS. destruct (ts_recent _ _ T) as [Hr1 Hr2]. destruct (ts_prefer _ _ T) as [Hp1 Hp2].
  destruct (ts_tail _ _ T) as (Ht1 & Ht2 & _). pose proof (ts_strict_tail _ _ T Hstrict) as Ht3. rewrite En in Ht1, Ht2, Ht3.
  assert (forall i, is_meta i -> snap_txnid (meta_snap (ms i)) <= snap_txnid (meta_snap (ms (recent t)))) as Hle.
  { intros i Hi. specialize (Hr2 i Hi). unfold recent_le in Hr2. lia. }
  assert (forall m, put n m ms (recent t) = ms (recent t) /\ put n m ms (prefer_steady t) = ms (prefer_steady t)) as Hput.
  { intros m. unfold put. rewrite !decide_False by congruence. done. }
  split_and!.
  - unfold sync_target, meta_recent_shadow. pose proof (ts_at _ _ T (recent t) Hr1) as E. rewrite E. cbn [ptr_txnid].
    rewrite decide_False by lia. fold (TROIKA_TAIL t). rewrite En.
    assert (n < NUM_METAS) by (unfold NUM_METAS; unfold is_meta in Ht1; lia). rewrite !bool_decide_eq_true_2 by (done || congruence). done.
  - intros m t' Hm Et'. assert (meta_snap m = mk_snap 0 false) as Em by (unfold meta_snap; by rewrite decide_True).
    assert (recent t' = recent t) as Er.
    { rewrite <- Et'. apply PL; [done| |]; rewrite Em; [intros E; rewrite <- E in Hid; simpl in Hid; lia|].
      left. simpl. lia. }
    assert (prefer_steady t' = prefer_steady t) as Ep.
    { pose proof (Hp2 (recent t) Hr1) as H. unfold steady_le in H.
      rewrite <- Et'. apply PLS; [done| |]; rewrite Em; unfold steady_le.
      - intros E. rewrite <- E in H. simpl in H. destruct H as [[_ H]|[_ H]]; [done|lia].
      - simpl. destruct (snap_steady (meta_snap (ms (prefer_steady t)))) eqn:Es; [by left|right]. split; [done|].
        destruct H as [[_ H]|[_ H]]; [done|lia]. }
    rewrite Er, Ep. destruct (Hput m) as [H1 H2]. done.
  - intros m t' Ha Hb Et'.
    assert (meta_snap m = mk_snap txnid (meta_is_steady m)) as Em.
    { unfold meta_snap. rewrite decide_False by congruence. rewrite Ha. rewrite bool_decide_eq_true_2 by lia. by rewrite andb_true_r. }
    assert (forall i, is_meta i -> snap_txnid (meta_snap (ms i)) < snap_txnid (meta_snap m)) as Hgt.
    { intros i Hi. rewrite Em. simpl. specialize (Hle i Hi). lia. }
    assert (recent t' = n) as Er by (by (rewrite <- Et'; apply PG)). split_and!.
    + done.
    + rewrite <- Et'. apply (ts_strict _ _ (tap_spec (put n m ms))). intros i j Hi Hj Hne. unfold put. intros E.
      case_decide; case_decide; [congruence| | |].
      * specialize (Hgt j Hj). rewrite E in Hgt. lia.
      * specialize (Hgt i Hi). rewrite E in Hgt. lia.
      * by apply (proj1 (ts_strict _ _ T) Hstrict i j).
    + rewrite Er. unfold put. rewrite decide_True by done. by rewrite Em.
    + destruct (meta_is_steady m || negb (TROIKA_HAVE_STEADY t)) eqn:Es.
      * rewrite <- Et'. apply PGS; [done..|]. intros i Hi Hsi. rewrite Em. simpl.
        apply orb_true_iff in Es as [Es|Es]; [done|]. apply negb_true_iff in Es. exfalso.
        assert (TROIKA_HAVE_STEADY t = true) as E by (apply (ts_have_steady _ _ T); eauto). congruence.
      * apply orb_false_iff in Es as [Es1 Es2%negb_false_iff].
        assert (snap_steady (meta_snap (ms (prefer_steady t))) = true) as Hps.
        { apply (ts_have_steady _ _ T) in Es2 as (i & Hi & Hsi). specialize (Hp2 i Hi). unfold steady_le in Hp2. intuition congruence. }
        assert (prefer_steady t' = prefer_steady t) as Ep.
        { rewrite <- Et'. apply PLS; [done| |]; rewrite Em.
          - intros E. rewrite <- E in Hps. simpl in Hps. congruence.
          - left. simpl. done. }
        rewrite Ep. split; [done|]. apply Hput.
Qed.

(** ** Properties *)

(** The table of the state machine is what the comparisons give: its own
    verification succeeds, and for all results of the comparisons the byte of
    the table is the packed form of the winners and flags. *)
Theorem troika_fsm_map_correct :
  troika_verify_fsm = true /\ length troika_fsm_map = 216%nat /\
  forall c01 c02 c12 s0 s1 s2, c01 ∈ [0; 1; 2] -> c02 ∈ [0; 1; 2] -> c12 ∈ [0; 1; 2] ->
  fsm_packed (fsm_of c01 c02 c12 s0 s1 s2) = meta_cmp2pack c01 c02 c12 s0 s1 s2.
Proof.
  split; [exact troika_verify_fsm_true|]. split; [done|]. intros c01 c02 c12 s0 s1 s2. rewrite !elem_of_cons, !elem_of_nil.
  intros [->|[->|[->|[]]]] [->|[->|[->|[]]]] [->|[->|[->|[]]]]; destruct s0, s1, s2; vm_compute; reflexivity.
Qed.

Lemma troika_fsm_map_correct_witness : fsm_packed (fsm_of 2 1 0 true false true) = meta_cmp2pack 2 1 0 true false true.
Proof. apply (proj2 (proj2 troika_fsm_map_correct)); rewrite !elem_of_cons; tauto. Defined.

(** C27. Looking at any three meta pages: the recent one has the greatest
    transaction id, and is steady if any with this id is; the preferred one is
    steady if any is and has the greatest id among those; the tail is neither
    the recent one nor, when the pages are strictly valid, the preferred one, and is
    the lesser of the two others; strictly valid means pairwise different. *)
Theorem troika_tap_correct ms : troika_spec ms (tap ms).
Proof. apply tap_spec. Qed.

(** C1. A commit survives a crash while it writes its meta page.  When the three
    pages are strictly valid the target is the tail.  If the page was not written
    completely, the recent and the preferred page are the ones they were before
    and are untouched.  If it was, it is the recent one and the pages are
    strictly valid again; it is preferred when it is steady or none was, and
    otherwise the preferred page stays and is untouched. *)
Theorem commit_survives_crash ms txnid steady legal4overwrite :
  let t := tap ms in let n := TROIKA_TAIL t in
  TROIKA_STRICT_VALID t = true ->
  0 < snap_txnid (meta_snap (ms (recent t))) < txnid -> MIN_TXNID <= txnid ->
  sync_target t txnid steady legal4overwrite = target_meta n /\
  (forall m, txnid_a m <> txnid_b m ->
    let t' := tap (put n m ms) in
    recent t' = recent t /\ prefer_steady t' = prefer_steady t /\
    put n m ms (recent t') = ms (recent t) /\ put n m ms (prefer_steady t') = ms (prefer_steady t)) /\
  (forall m, txnid_a m = txnid -> txnid_b m = txnid ->
    let t' := tap (put n m ms) in
    recent t' = n /\ TROIKA_STRICT_VALID t' = true /\ snap_txnid (meta_snap (put n m ms (recent t'))) = txnid /\
    (if meta_is_steady m || negb (TROIKA_HAVE_STEADY t) then prefer_steady t' = n
     else prefer_steady t' = prefer_steady t /\ put n m ms (prefer_steady t') = ms (prefer_steady t))).
Proof.
  intros t n Hstrict Hid Hmin.
  destruct (commit_spec ms t n txnid steady legal4overwrite eq_refl eq_refl Hstrict Hid Hmin) as (H1 & H2 & H3).
  split; [exact H1|]. split; [intros m Hm; by apply H2|]. intros m Ha Hb. by apply H3.
Qed.

Definition sample_metas (i : Z) : meta_t :=
  if decide (i = 0) then sample_meta 7 true else if decide (i = 1) then sample_meta 8 false else sample_meta 6 true.

Lemma commit_survives_crash_witness :
  recent (tap sample_metas) = 1 /\ prefer_steady (tap sample_metas) = 0 /\
  sync_target (tap sample_metas) 9 false false = target_meta 2 /\
  prefer_steady (tap (put 2 (sample_meta 9 false) sample_metas)) = 0.
Proof.
  destruct (commit_survives_crash sample_metas 9 false false) as (H1 & _ & H3).
  - vm_compute. reflexivity.
  - vm_compute. split; reflexivity.
  - vm_compute. discriminate.
  - split; [vm_compute; reflexivity|]. split; [vm_compute; reflexivity|]. split.
    + rewrite H1. vm_compute. reflexivity.
    + destruct (H3 (sample_meta 9 false) ltac:(vm_compute; reflexivity) ltac:(vm_compute; reflexivity)) as (_ & _ & _ & H4).
      exact (proj1 H4).
Defined.
