(* ===== verification/Txl.v ===== *)
(** * Lists of transaction ids (txl)

    [txl_t] of mdbx.c: an array of 64-bit ids behind its own length, with the
    capacity in front of it.  The ids are in no order until they are sorted. *)

From S2P Require Import Prelude Search Sort Rkl Pnl PnlFacts.

Definition txl_initial : Z := txl_granulate - 2 - MDBX_ASSUME_MALLOC_OVERHEAD / 8.

Record txl_t := mk_txl { txl_alloclen : Z; txl_cells : list Z }.

(** [txl[0]] *)
Definition txl_size (c : list Z) : nat := Z.to_nat (hd 0 c).

Definition txl_size2bytes (size : Z) : Z :=
  ceil_powerof2 (MDBX_ASSUME_MALLOC_OVERHEAD + 8 * (size + 2)) (txl_granulate * 8) - MDBX_ASSUME_MALLOC_OVERHEAD.
Definition txl_bytes2size (bytes : Z) : Z := u64 (bytes / 8 - 2).

(** The cells from [txl[0]] on that a block of [bytes] bytes has. *)
Definition txl_block_cells (bytes : Z) : nat := Z.to_nat (bytes / 8 - 1).

Section memory.
Context (malloc : Z -> option Z).

Definition txl_alloc : option txl_t :=
  bytes ← malloc (txl_size2bytes txl_initial);
  Some (mk_txl (txl_bytes2size bytes) (replicate (txl_block_cells bytes) 0)).

Definition txl_reserve (p : txl_t) (wanna : Z) : Z * txl_t :=
  let allocated := txl_alloclen p in
  if decide (allocated >= wanna) then (MDBX_SUCCESS, p)
  else if decide (wanna > txl_max) then (MDBX_TXN_FULL, p)
  else
    let size := if decide (wanna + wanna - allocated < txl_max) then wanna + wanna - allocated else txl_max in
    match malloc (txl_size2bytes size) with
    | Some bytes => (MDBX_SUCCESS, mk_txl (txl_bytes2size bytes) (resize (txl_block_cells bytes) 0 (txl_cells p)))
    | None => (MDBX_ENOMEM, p)
    end.

Definition txl_need (p : txl_t) (num : Z) : Z * txl_t :=
  let wanna := Z.of_nat (txl_size (txl_cells p)) + num in
  if decide (txl_alloclen p >= wanna) then (MDBX_SUCCESS, p) else txl_reserve p wanna.

Definition txl_append_prereserved (c : list Z) (id : Z) : option (list Z) :=
  let end_ := S (txl_size c) in
  c ← wr c 0 (Z.of_nat end_);
  wr c end_ id.

Definition txl_append (p : txl_t) (id : Z) : option (Z * txl_t) :=
  let '(rc, p) := if decide (Z.of_nat (txl_size (txl_cells p)) = txl_alloclen p) then txl_need p txl_granulate else (MDBX_SUCCESS, p) in
  if decide (rc <> MDBX_SUCCESS) then Some (rc, p)
  else c ← txl_append_prereserved (txl_cells p) id; Some (MDBX_SUCCESS, mk_txl (txl_alloclen p) c).
End memory.

Definition TXNID_SORT_CMP (first last : Z) : bool := first >? last.
Definition txnid_sort (c : list Z) (begin end_ : Z) : option (list Z) := SORT TXNID_SORT_CMP c begin end_.
Definition txl_sort (c : list Z) : option (list Z) := txnid_sort c 1 (Z.of_nat (txl_size c) + 1).

(** [for (i = 1; i <= len; ++i) if (txl[i] == id) return true], [n] turns *)
Fixpoint contain_loop (n : nat) (c : list Z) (i : nat) (id : Z) : option bool :=
  match n with
  | O => Some false
  | S n => x ← rd c i; if decide (x = id) then Some true else contain_loop n c (S i) id
  end.

Definition txl_contain (c : list Z) (id : Z) : option bool := contain_loop (txl_size c) c 1 id.

(** ** Facts *)

(** The list [L] is in the block, whose capacity is that of its cells. *)
Record txl_holds (p : txl_t) (L : list Z) : Prop := {
  th_cells : exists W, txl_cells p = Z.of_nat (length L) :: L ++ W;
  th_room : Z.of_nat (length (txl_cells p)) = txl_alloclen p + 1
}.

Section facts.
Context (malloc : Z -> option Z) (Hmalloc : malloc_ok malloc).
Implicit Types (p : txl_t) (L W : list Z).

Lemma txl_size_holds p L : txl_holds p L -> txl_size (txl_cells p) = length L.
Proof. intros [[W ->] _]. apply Nat2Z.id. Qed.

Lemma txl_block_spec n usable :
  0 < n <= txl_max -> txl_size2bytes n <= usable <= txl_size2bytes n + 2 ^ 20 ->
  n <= txl_bytes2size usable /\ Z.of_nat (txl_block_cells usable) = txl_bytes2size usable + 1.
Proof.
  unfold txl_size2bytes, txl_bytes2size, txl_block_cells, MDBX_ASSUME_MALLOC_OVERHEAD. intros Hn.
  assert (txl_max <= 2 ^ 26) by (vm_compute; discriminate). change (txl_granulate * 8) with (2 ^ 8).
  destruct (ceil_powerof2_spec (16 + 8 * (n + 2)) 8) as [[H1 H2] _]; [lia|lia|lia|]. intros Hu.
  pose proof (Z.div_mod usable 8 ltac:(lia)). pose proof (Z.mod_pos_bound usable 8 ltac:(lia)).
  set (q := usable / 8) in *. clearbody q. rewrite u64_small by (unfold UINT64_MAX; lia). lia.
Qed.

Lemma txl_alloc_spec p : txl_alloc malloc = Some p -> txl_holds p [] /\ txl_initial <= txl_alloclen p.
Proof.
  unfold txl_alloc. destruct (malloc _) as [u|] eqn:E; simpl; [|done]. intros [= <-]. apply Hmalloc in E.
  destruct (txl_block_spec txl_initial u) as [H1 H2]; [split; vm_compute; (reflexivity || discriminate)|done|].
  assert (txl_initial = 28) as Ei by done. split; [|done]. split; cbn [txl_cells txl_alloclen].
  - destruct (txl_block_cells u) as [|k]; [simpl in H2; lia|]. exists (replicate k 0). done.
  - by rewrite length_replicate.
Qed.

Lemma txl_reserve_spec p L wanna :
  txl_holds p L -> Z.of_nat (length L) <= wanna -> 0 < wanna ->
  (exists q, txl_reserve malloc p wanna = (MDBX_SUCCESS, q) /\ txl_holds q L /\ wanna <= txl_alloclen q) \/
  txl_reserve malloc p wanna = (MDBX_ENOMEM, p) \/ (txl_reserve malloc p wanna = (MDBX_TXN_FULL, p) /\ wanna > txl_max).
Proof.
  intros [[W Hc] Hroom] HL Hw. unfold txl_reserve. case_decide; [left; exists p; split_and!; [done|by split; [exists W|]|lia]|].
  case_decide; [tauto|]. set (n := if decide _ then _ else _).
  assert (wanna <= n <= txl_max) as Hn.
  { unfold n. rewrite Hc in Hroom. simpl in Hroom. rewrite length_app in Hroom. case_decide; lia. }
  clearbody n. destruct (malloc _) as [u|] eqn:E; [|tauto]. apply Hmalloc in E.
  destruct (txl_block_spec n u) as [H1 H2]; [lia|done|]. left. eexists. split; [done|]. split; [|simpl; lia].
  split; cbn [txl_cells txl_alloclen]; [|rewrite length_resize; lia].
  rewrite Hc. destruct (decide (length (Z.of_nat (length L) :: L ++ W) <= txl_block_cells u)%nat).
  - rewrite resize_ge by done. eexists. by rewrite <- !app_comm_cons, <- app_assoc.
  - rewrite resize_le by lia. destruct (txl_block_cells u) as [|k]; [lia|]. simpl. rewrite take_app_ge by lia. by eexists.
Qed.

Lemma txl_append_spec p L id :
  txl_holds p L ->
  (exists q, txl_append malloc p id = Some (MDBX_SUCCESS, q) /\ txl_holds q (L ++ [id])) \/
  txl_append malloc p id = Some (MDBX_ENOMEM, p) \/
  (txl_append malloc p id = Some (MDBX_TXN_FULL, p) /\ Z.of_nat (length L) + txl_granulate > txl_max).
Proof.
  intros Hp. unfold txl_append. rewrite (txl_size_holds p L Hp).
  assert (forall q, txl_holds q L -> Z.of_nat (length L) < txl_alloclen q ->
    exists q', (c ← txl_append_prereserved (txl_cells q) id; Some (MDBX_SUCCESS, mk_txl (txl_alloclen q) c)) = Some (MDBX_SUCCESS, q') /\
    txl_holds q' (L ++ [id])) as Hput.
  { intros q Hq Hlt. pose proof (txl_size_holds q L Hq) as Hsz. destruct Hq as [[W Hc] Hroom]. unfold txl_append_prereserved. rewrite Hsz, Hc.
    rewrite Hc in Hroom. simpl in Hroom. rewrite length_app in Hroom. destruct W as [|w W]; [simpl in Hroom; lia|].
    rewrite wr_Some by (simpl; lia). cbn [mbind option_bind]. change (<[0%nat:=Z.of_nat (S (length L))]> (Z.of_nat (length L) :: L ++ w :: W))
      with ((Z.of_nat (S (length L)) :: L) ++ w :: W).
    rewrite wr_app_at by done. cbn [mbind option_bind]. eexists. split; [done|]. split; cbn [txl_cells txl_alloclen].
    - exists W. rewrite length_app, Nat.add_1_r. by app_norm.
    - simpl. rewrite length_app. simpl in *. lia. }
  assert (txl_granulate = 32) as Eg by done. case_decide as Hfull.
  - unfold txl_need. rewrite (txl_size_holds p L Hp). rewrite decide_False by lia.
    destruct (txl_reserve_spec p L (Z.of_nat (length L) + txl_granulate) Hp) as [(q & -> & Hq & Hcap)|[->|[-> Hbig]]]; [lia|lia|..].
    + rewrite decide_False by (intros H; by apply H). left. apply Hput; [done|lia].
    + right. left. done.
    + right. right. split; [done|lia].
  - rewrite decide_False by (intros H; by apply H). left. apply Hput; [done|].
    destruct Hp as [[W Hc] Hroom]. rewrite Hc in Hroom. simpl in Hroom. rewrite length_app in Hroom. lia.
Qed.

#[export] Instance TXNID_SORT_CMP_strict_weak : StrictWeak TXNID_SORT_CMP.
Proof. split; unfold TXNID_SORT_CMP; intros; lia. Qed.

Lemma txl_sort_spec p L :
  txl_holds p L -> Z.of_nat (length L) < 2 ^ 63 ->
  exists c N, txl_sort (txl_cells p) = Some c /\ txl_holds (mk_txl (txl_alloclen p) c) N /\ N ≡ₚ L /\
  (forall i j x y, (i < j)%nat -> N !! i = Some x -> N !! j = Some y -> y <= x).
Proof.
  intros Hp Hmax. pose proof (txl_size_holds p L Hp) as Hsz. destruct Hp as [[W Hc] Hroom].
  unfold txl_sort, txnid_sort. rewrite Hsz, Hc.
  destruct (SORT_middle TXNID_SORT_CMP [Z.of_nat (length L)] L W) as (N & E & HN & Ho); [lia|].
  pose proof (Permutation_length HN) as HlN.
  exists (Z.of_nat (length L) :: N ++ W), N. cbn [length app] in E. change (Z.of_nat 1) with 1 in E.
  rewrite (Z.add_comm (Z.of_nat (length L))). split; [exact E|]. split; [|split; [done|]].
  - split; cbn [txl_cells txl_alloclen]; [exists W; by rewrite HlN|].
    rewrite Hc in Hroom. simpl in *. rewrite !length_app in *. lia.
  - intros i j x y Hij Hi Hj. specialize (Ho _ _ _ _ Hij Hi Hj). unfold TXNID_SORT_CMP in Ho. lia.
Qed.

Lemma contain_loop_spec c L : forall i id,
  (forall k x, L !! k = Some x -> rd c (i + k) = Some x) -> contain_loop (length L) c i id = Some (bool_decide (id ∈ L)).
Proof.
  induction L as [|x L IH]; intros i id Hc; [done|]. cbn [contain_loop length]. pose proof (Hc 0%nat x eq_refl) as Hx.
  rewrite Nat.add_0_r in Hx. rewrite Hx. cbn [mbind option_bind]. case_decide as E.
  - f_equal. symmetry. apply bool_decide_eq_true_2. subst. by left.
  - rewrite IH by (intros k y Hy; replace (S i + k)%nat with (i + S k)%nat by lia; by apply Hc).
    f_equal. apply bool_decide_ext. rewrite elem_of_cons. split; [by right|]. intros [->|]; done.
Qed.

Lemma txl_contain_spec p L id : txl_holds p L -> txl_contain (txl_cells p) id = Some (bool_decide (id ∈ L)).
Proof.
  intros Hp. unfold txl_contain. rewrite (txl_size_holds p L Hp). apply contain_loop_spec.
  intros k x Hx. destruct Hp as [[W ->] _]. unfold rd. simpl. rewrite lookup_app_l by by eapply lookup_lt_Some. done.
Qed.
End facts.

(** ** Property *)

(** A list of transaction ids is a bag of ids: a new list is empty, appending
    adds one id or fails for want of memory or length and changes nothing,
    searching answers membership, and sorting puts the ids in descending order. *)
Theorem txl_refines_bag malloc p L :
  malloc_ok malloc -> txl_holds p L -> Z.of_nat (length L) < 2 ^ 63 ->
  (forall q, txl_alloc malloc = Some q -> txl_holds q [] /\ txl_initial <= txl_alloclen q) /\
  (forall id,
    (exists q, txl_append malloc p id = Some (MDBX_SUCCESS, q) /\ txl_holds q (L ++ [id])) \/
    txl_append malloc p id = Some (MDBX_ENOMEM, p) \/
    (txl_append malloc p id = Some (MDBX_TXN_FULL, p) /\ Z.of_nat (length L) + txl_granulate > txl_max)) /\
  (forall id, txl_contain (txl_cells p) id = Some (bool_decide (id ∈ L))) /\
  (exists c N, txl_sort (txl_cells p) = Some c /\ txl_holds (mk_txl (txl_alloclen p) c) N /\ N ≡ₚ L /\
    (forall i j x y, (i < j)%nat -> N !! i = Some x -> N !! j = Some y -> y <= x)).
Proof.
  intros Hm Hp Hmax. split_and!.
  - intros q. by apply txl_alloc_spec.
  - intros id. by apply txl_append_spec.
  - intros id. by apply txl_contain_spec.
  - by apply txl_sort_spec.
Qed.

Lemma txl_refines_bag_witness :
  exists q, txl_append (fun b => Some b) (mk_txl 2 [2; 7; 9]) 8 = Some (MDBX_SUCCESS, q) /\ txl_holds q [7; 9; 8].
Proof.
  destruct (txl_refines_bag (fun b => Some b) (mk_txl 2 [2; 7; 9]) [7; 9]) as (_ & H & _).
  - intros b u [= <-]. lia.
  - split; [by exists []|reflexivity].
  - reflexivity.
  - destruct (H 8) as [Hq|[E|[_ E]]]; [exact Hq|vm_compute in E; discriminate|vm_compute in E; discriminate].
Defined.
