(* ===== verification/Cmp.v ===== *)
(** * Comparison of keys and values

    The builtin comparators of mdbx.c (around [cmp_lexical], [cmp_reverse] and
    [eq_fast]) with the unaligned loads below them.  A value is the list of its
    bytes; [None] stands for a load outside of it.  The host is little endian,
    as in the build that is modelled.  [unaligned_ok] is [MDBX_UNALIGNED_OK],
    which depends on the compiler. *)

From S2P Require Import Prelude Meta.

(** Conversion to the signed types, as gcc and clang define it. *)
Definition s32 (x : Z) : Z := let u := u32 x in if u <? 2 ^ 31 then u else u - 2 ^ 32.
Definition s64 (x : Z) : Z := let u := u64 x in if u <? 2 ^ 63 then u else u - 2 ^ 64.

(** ** Loads *)

(** The number which a little endian host reads from these bytes. *)
Fixpoint le_value (p : list Z) : Z :=
  match p with
  | [] => 0
  | b :: p => b + 256 * le_value p
  end.

Fixpoint le_bytes (n : nat) (v : Z) : list Z :=
  match n with
  | O => []
  | S n => v mod 256 :: le_bytes n (v / 256)
  end.

(** An aligned load, or the copy of [n] bytes into a variable ([bcopy_4], [bcopy_8]). *)
Definition load (n : nat) (p : list Z) (off : nat) : option Z :=
  if decide (off + n <= length p)%nat then Some (le_value (take n (drop off p))) else None.

Section loads.
Context (unaligned_ok : Z).

Definition unaligned_peek_u32 (expected_alignment : Z) (p : list Z) (off : nat) : option Z :=
  if decide (unaligned_ok >= 4 \/ expected_alignment mod 4 = 0) then load 4 p off
  else if decide (expected_alignment mod 2 = 0) then
    lo ← load 2 p off;
    hi ← load 2 p (off + 2);
    Some (Z.lor lo (u32 (Z.shiftl hi 16)))
  else load 4 p off.

Definition unaligned_peek_u64 (expected_alignment : Z) (p : list Z) (off : nat) : option Z :=
  if decide (unaligned_ok >= 8 \/ expected_alignment mod 8 = 0) then load 8 p off
  else if decide (expected_alignment mod 4 = 0) then
    lo ← load 4 p off;
    hi ← load 4 p (off + 4);
    Some (Z.lor lo (u64 (Z.shiftl hi 32)))
  else load 8 p off.

(** ** Comparators *)

Definition CMP2INT (a b : Z) : Z := if decide (a <> b) then (if decide (a < b) then -1 else 1) else 0.

Definition cmp_uint32_unchecked (expected_alignment : Z) (a b : list Z) : option Z :=
  x ← unaligned_peek_u32 expected_alignment a 0;
  y ← unaligned_peek_u32 expected_alignment b 0;
  Some (CMP2INT x y).

Definition cmp_uint64_unchecked (expected_alignment : Z) (a b : list Z) : option Z :=
  x ← unaligned_peek_u64 expected_alignment a 0;
  y ← unaligned_peek_u64 expected_alignment b 0;
  Some (CMP2INT x y).

Definition cmp_uint_inline (expected_alignment : Z) (a b : list Z) : option Z :=
  if decide (length a = length b) then
    if decide (length a = 8%nat) then cmp_uint64_unchecked expected_alignment a b
    else if decide (length a = 4%nat) then cmp_uint32_unchecked expected_alignment a b
    else Some 0
  else Some 0.

Definition cmp_uint32_inline (expected_alignment : Z) (a b : list Z) : option Z :=
  if decide (length a = length b /\ length a = 4%nat) then cmp_uint32_unchecked expected_alignment a b else Some 0.

Definition cmp_uint64_inline (expected_alignment : Z) (a b : list Z) : option Z :=
  if decide (length a = length b /\ length a = 8%nat) then cmp_uint64_unchecked expected_alignment a b else Some 0.

(** Where unaligned loads are fine the header makes the [align] variants other
    names of the unaligned ones; these are the functions of the other builds. *)
Definition cmp_uint_unaligned := cmp_uint_inline 1.
Definition cmp_uint32_unaligned := cmp_uint32_inline 1.
Definition cmp_uint64_unaligned := cmp_uint64_inline 1.
Definition cmp_uint_align2 := cmp_uint_inline 2.
Definition cmp_uint32_align2 := cmp_uint32_inline 2.
Definition cmp_uint64_align2 := cmp_uint64_inline 2.
Definition cmp_uint_align4 := cmp_uint_inline 4.
Definition cmp_uint32_align4 := cmp_uint32_inline 4.
Definition cmp_uint64_align4 := cmp_uint64_inline 4.

Definition cmp_len (a b : nat) : Z := s32 (s64 (Z.of_nat a - Z.of_nat b)).

(** [p[0] | p[l >> 1] << 8 | p[l - 1] << 16] with [p] at [off] *)
Definition tail3le (p : list Z) (off l : nat) : option Z :=
  x ← rd p off;
  y ← rd p (off + Nat.div2 l);
  z ← rd p (off + (l - 1));
  Some (Z.lor (Z.lor x (Z.shiftl y 8)) (Z.shiftl z 16)).

(** [while (left >= sizeof(size_t))] of [cmp_reverse], [n] turns: the result of
    the comparison, or the two positions and the bytes that remain. *)
Fixpoint reverse_words (n : nat) (a b : list Z) (pa pb left_ : nat) : option (Z + nat * nat * nat) :=
  match n with
  | O => Some (inr (pa, pb, left_))
  | S n =>
      if decide (8 <= left_)%nat then
        let pa := (pa - 8)%nat in let pb := (pb - 8)%nat in let left_ := (left_ - 8)%nat in
        xa ← unaligned_peek_u64 1 a pa;
        xb ← unaligned_peek_u64 1 b pb;
        if decide (xa <> xb) then Some (inl (if decide (xa < xb) then -1 else 1))
        else reverse_words n a b pa pb left_
      else Some (inr (pa, pb, left_))
  end.

Definition reverse_half (a b : list Z) (pa pb left_ : nat) : option (Z + nat * nat * nat) :=
  if decide (4 <= left_)%nat then
    let pa := (pa - 4)%nat in let pb := (pb - 4)%nat in let left_ := (left_ - 4)%nat in
    xa ← unaligned_peek_u32 1 a pa;
    xb ← unaligned_peek_u32 1 b pb;
    if decide (xa <> xb) then Some (inl (if decide (xa < xb) then -1 else 1)) else Some (inr (pa, pb, left_))
  else Some (inr (pa, pb, left_)).

Definition reverse_tail (a b : list Z) (pa pb left_ : nat) : option (Z + nat * nat * nat) :=
  if decide (left_ <> 0)%nat then
    xa ← tail3le a (pa - left_) left_;
    xb ← tail3le b (pb - left_) left_;
    if decide (xa <> xb) then Some (inl (if decide (xa < xb) then -1 else 1)) else Some (inr (pa, pb, left_))
  else Some (inr (pa, pb, left_)).

(** A return leaves, otherwise the code goes on behind the step. *)
Definition step_on (r : option (Z + nat * nat * nat)) (next : nat -> nat -> nat -> option Z) : option Z :=
  s ← r;
  match s with
  | inl c => Some c
  | inr (pa, pb, left_) => next pa pb left_
  end.

Definition cmp_reverse (a b : list Z) : option Z :=
  let left_ := if decide (length a < length b)%nat then length a else length b in
  if decide (left_ <> 0)%nat then
    step_on (reverse_words left_ a b (length a) (length b) left_) (fun pa pb left_ =>
      step_on (reverse_half a b pa pb left_) (fun pa pb left_ =>
        step_on (reverse_tail a b pa pb left_) (fun _ _ _ => Some (cmp_len (length a) (length b)))))
  else Some (cmp_len (length a) (length b)).

Section libc.
Context (memcmp : list Z -> list Z -> Z).

Definition cmp_lexical (a b : list Z) : option Z :=
  let diff_len := cmp_len (length a) (length b) in
  let shortest := if decide (length a < length b)%nat then length a else length b in
  let diff_data := if decide (shortest <> 0)%nat then memcmp (take shortest a) (take shortest b) else 0 in
  Some (if decide (diff_data <> 0) then diff_data else diff_len).

Definition cmp_lenfast (a b : list Z) : option Z :=
  let diff := cmp_len (length a) (length b) in
  Some (if decide (diff <> 0 \/ length a = 0%nat) then diff else memcmp a b).

Definition eq_fast_slowpath (a b : list Z) (l : nat) : option bool :=
  if decide (3 < l)%nat then
    if decide (unaligned_ok >= 4 /\ (l < 9)%nat) then
      xa ← unaligned_peek_u32 1 a 0; xb ← unaligned_peek_u32 1 b 0;
      ya ← unaligned_peek_u32 1 a (l - 4); yb ← unaligned_peek_u32 1 b (l - 4);
      Some (bool_decide (Z.lor (u32 (xa - xb)) (u32 (ya - yb)) = 0))
    else if decide (unaligned_ok >= 8 /\ (l < 17)%nat) then
      xa ← unaligned_peek_u64 1 a 0; xb ← unaligned_peek_u64 1 b 0;
      ya ← unaligned_peek_u64 1 a (l - 8); yb ← unaligned_peek_u64 1 b (l - 8);
      Some (bool_decide (Z.lor (u64 (xa - xb)) (u64 (ya - yb)) = 0))
    else Some (bool_decide (memcmp (take l a) (take l b) = 0))
  else if decide (l <> 0)%nat then
    x ← tail3le a 0 l;
    y ← tail3le b 0 l;
    Some (bool_decide (x = y))
  else Some true.

Definition eq_fast (a b : list Z) : option bool :=
  if decide (length a = length b) then eq_fast_slowpath a b (length a) else Some false.

Definition cmp_equal_or_greater (a b : list Z) : option Z := e ← eq_fast a b; Some (if e : bool then 0 else 1).
Definition cmp_equal_or_wrong (a b : list Z) : option Z := e ← eq_fast a b; Some (if e : bool then 0 else -1).

Definition builtin_keycmp (flags : Z) : list Z -> list Z -> option Z :=
  if decide (Z.land flags MDBX_REVERSEKEY <> 0) then cmp_reverse
  else if decide (Z.land flags MDBX_INTEGERKEY <> 0) then cmp_uint_align2 else cmp_lexical.

Definition builtin_datacmp (flags : Z) : list Z -> list Z -> option Z :=
  if decide (Z.land flags MDBX_DUPSORT = 0) then cmp_lenfast
  else if decide (Z.land flags MDBX_INTEGERDUP <> 0) then cmp_uint_unaligned
  else if decide (Z.land flags MDBX_REVERSEDUP <> 0) then cmp_reverse else cmp_lexical.
End libc.
End loads.
