(* ===== verification/CmpProps.v ===== *)
(** * The builtin comparators follow their reference orders *)

From S2P Require Import Prelude Meta Cmp.

(** ** Reference orders *)

Abbreviation bytes := (Forall (fun b => 0 <= b < 256)).

(** Byte by byte, a prefix before the longer value. *)
Fixpoint lex (a b : list Z) : comparison :=
  match a, b with
  | [], [] => Eq
  | [], _ :: _ => Lt
  | _ :: _, [] => Gt
  | x :: a, y :: b => match x ?= y with Eq => lex a b | c => c end
  end.

Definition lenlex (a b : list Z) : comparison :=
  match Nat.compare (length a) (length b) with Eq => lex a b | c => c end.

Definition cmp_sign (c : comparison) : Z := match c with Lt => -1 | Eq => 0 | Gt => 1 end.

(** The standard defines only the sign of the result. *)
Definition memcmp_ok (memcmp : list Z -> list Z -> Z) : Prop :=
  forall a b, length a = length b -> Z.sgn (memcmp a b) = cmp_sign (lex a b).

(** ** The reference order *)

Lemma lex_refl a : lex a a = Eq.
Proof. induction a as [|x a IH]; simpl; [done|]. by rewrite Z.compare_refl. Qed.

Lemma lex_eq a b : lex a b = Eq -> a = b.
Proof.
  revert b. induction a as [|x a IH]; intros [|y b]; simpl; try done.
  destruct (Z.compare_spec x y); try done. intros H1. f_equal; auto.
Qed.

Lemma lex_antisym a b : lex b a = CompOpp (lex a b).
Proof.
  revert b. induction a as [|x a IH]; intros [|y b]; simpl; try done.
  rewrite (Z.compare_antisym x y). by destruct (x ?= y); simpl.
Qed.

Lemma lex_trans a b c : lex a b = Lt -> lex b c = Lt -> lex a c = Lt.
Proof.
  revert b c. induction a as [|x a IH]; intros [|y b] [|z c]; simpl; try done.
  destruct (Z.compare_spec x y), (Z.compare_spec y z), (Z.compare_spec x z); try done; try lia; eauto.
Qed.

Lemma lex_app p q a b :
  length p = length q -> lex (p ++ a) (q ++ b) = match lex p q with Eq => lex a b | c => c end.
Proof.
  revert q. induction p as [|x p IH]; intros [|y q]; simpl; try done. intros [= H].
  rewrite (IH q H). by destruct (x ?= y).
Qed.

(** A prefix comes first. *)
Lemma lex_prefix a b :
  lex (take (length b) a) (take (length a) b) = Eq ->
  cmp_sign (lex a b) = Z.sgn (Z.of_nat (length a) - Z.of_nat (length b)).
Proof.
  revert b. induction a as [|x a IH]; intros [|y b]; cbn [take length lex]; intros H.
  - done.
  - simpl. lia.
  - simpl. lia.
  - destruct (x ?= y); try done. rewrite IH by done. f_equal. lia.
Qed.

(** ** Machine numbers *)

Lemma s32_small x : - 2 ^ 31 <= x < 2 ^ 31 -> s32 x = x.
Proof.
  intros H. unfold s32, u32. destruct (decide (0 <= x)).
  - rewrite Z.mod_small by lia. destruct (Z.ltb_spec x (2 ^ 31)); lia.
  - rewrite (Z.mod_opp_r_nz 0) || rewrite <- (Z_mod_plus_full x 1), Z.mod_small by lia.
    destruct (Z.ltb_spec (x + 1 * 2 ^ 32) (2 ^ 31)); lia.
Qed.

Lemma s64_small x : - 2 ^ 63 <= x < 2 ^ 63 -> s64 x = x.
Proof.
  intros H. unfold s64, u64. destruct (decide (0 <= x)).
  - rewrite Z.mod_small by lia. destruct (Z.ltb_spec x (2 ^ 63)); lia.
  - rewrite <- (Z_mod_plus_full x 1), Z.mod_small by lia.
    destruct (Z.ltb_spec (x + 1 * 2 ^ 64) (2 ^ 63)); lia.
Qed.

Lemma cmp_len_spec a b :
  Z.of_nat a < 2 ^ 31 -> Z.of_nat b < 2 ^ 31 -> cmp_len a b = Z.of_nat a - Z.of_nat b.
Proof. intros. unfold cmp_len. rewrite s64_small by lia. apply s32_small. lia. Qed.

(** ** Loads *)

Lemma le_value_bound p : bytes p -> 0 <= le_value p < 2 ^ (8 * Z.of_nat (length p)).
Proof.
  induction 1 as [|b p Hb Hp IH]; [done|]. cbn [le_value length].
  replace (8 * Z.of_nat (S (length p))) with (8 + 8 * Z.of_nat (length p)) by lia.
  rewrite Z.pow_add_r by lia. change (2 ^ 8) with 256. lia.
Qed.

Lemma le_value_app p q : le_value (p ++ q) = le_value p + 2 ^ (8 * Z.of_nat (length p)) * le_value q.
Proof.
  induction p as [|b p IH]; simpl length; [simpl; lia|].
  replace (8 * Z.of_nat (S (length p))) with (8 + 8 * Z.of_nat (length p)) by lia.
  rewrite Z.pow_add_r by lia. change (2 ^ 8) with 256. simpl. rewrite IH. lia.
Qed.

(** The last byte is the most significant one. *)
Lemma le_value_lex p q :
  bytes p -> bytes q -> length p = length q -> (le_value p ?= le_value q) = lex (rev p) (rev q).
Proof.
  intros Hp. revert q. induction Hp as [|x p Hx Hp IH]; intros [|y q] Hq Hlen; try done.
  apply Forall_cons in Hq as [Hy Hq]. injection Hlen as Hlen. cbn [rev le_value].
  rewrite lex_app by by rewrite !length_rev. rewrite <- IH by done. cbn [lex].
  destruct (Z.compare_spec (le_value p) (le_value q)) as [E|E|E].
  - rewrite E. destruct (Z.compare_spec x y); [apply Z.compare_eq_iff|apply Z.compare_lt_iff|apply Z.compare_gt_iff]; lia.
  - apply Z.compare_lt_iff. lia.
  - apply Z.compare_gt_iff. lia.
Qed.

Lemma le_value_inj p q : bytes p -> bytes q -> length p = length q -> le_value p = le_value q -> p = q.
Proof.
  intros Hp Hq Hlen E. rewrite <- (rev_involutive p), <- (rev_involutive q). f_equal. apply lex_eq. rewrite <- le_value_lex by done. by apply Z.compare_eq_iff.
Qed.

Lemma le_bytes_spec n : forall v, 0 <= v < 2 ^ (8 * Z.of_nat n) ->
  bytes (le_bytes n v) /\ length (le_bytes n v) = n /\ le_value (le_bytes n v) = v.
Proof.
  induction n as [|n IH]; intros v Hv; cbn [le_bytes].
  - simpl in *. split_and!; [constructor|done|lia].
  - assert (2 ^ (8 * Z.of_nat (S n)) = 256 * 2 ^ (8 * Z.of_nat n)) as E.
    { replace (8 * Z.of_nat (S n)) with (8 + 8 * Z.of_nat n) by lia. by rewrite Z.pow_add_r by lia. }
    rewrite E in Hv. pose proof (Z.div_mod v 256 ltac:(lia)). pose proof (Z.mod_pos_bound v 256 ltac:(lia)).
    destruct (IH (v / 256)) as (H1 & H2 & H3); [lia|].
    split_and!; [by constructor|simpl; lia|cbn [le_value]; lia].
Qed.

Lemma load_app A w B n : length w = n -> load n (A ++ w ++ B) (length A) = Some (le_value w).
Proof.
  intros <-. unfold load. rewrite decide_True by (rewrite !length_app; lia).
  by rewrite drop_app_length, take_app_length.
Qed.

Lemma lor_shift_add x y n : 0 <= x < 2 ^ n -> 0 <= n -> Z.lor x (Z.shiftl y n) = x + 2 ^ n * y.
Proof.
  intros Hx Hn. assert (Z.land x (Z.shiftl y n) = 0) as Hdis.
  { apply Z.bits_inj'. intros k Hk. rewrite Z.land_spec, Z.bits_0. destruct (decide (k < n)).
    - rewrite Z.shiftl_spec_low by lia. apply andb_false_r.
    - replace (Z.testbit x k) with false; [done|]. symmetry. apply Z.testbit_false; [done|].
      rewrite Z.div_small; [done|]. assert (2 ^ n <= 2 ^ k) by (apply Z.pow_le_mono_r; lia). lia. }
  rewrite <- Z.lxor_lor, <- Z.add_nocarry_lxor by done. rewrite Z.shiftl_mul_pow2 by done. lia.
Qed.

(** A number of [2 * n] bytes in two loads. *)
Lemma load_halves A w B n :
  length w = (n + n)%nat -> bytes w ->
  exists lo hi, load n (A ++ w ++ B) (length A) = Some lo /\ load n (A ++ w ++ B) (length A + n) = Some hi /\
  0 <= lo < 2 ^ (8 * Z.of_nat n) /\ 0 <= hi < 2 ^ (8 * Z.of_nat n) /\
  le_value w = lo + 2 ^ (8 * Z.of_nat n) * hi.
Proof.
  intros Hlen Hw. rewrite <- (take_drop n w) in Hw |- *. apply Forall_app in Hw as [Ht Hd].
  assert (length (take n w) = n) as H1 by (rewrite length_take; lia).
  assert (length (drop n w) = n) as H2 by (rewrite length_drop; lia).
  revert H1 H2 Ht Hd. generalize (take n w), (drop n w). intros l h <- Hh Bl Bh.
  pose proof (le_value_bound l Bl). pose proof (le_value_bound h Bh). rewrite Hh in *.
  exists (le_value l), (le_value h). rewrite le_value_app. split_and!; try lia.
  - rewrite <- app_assoc. by apply load_app.
  - rewrite <- app_assoc, (app_assoc A), <- length_app. by apply load_app.
Qed.

Section peeks.
Context (unaligned_ok : Z).

(** Every way to load gives the little endian number. *)
Lemma peek_u32_spec align A w B :
  bytes w -> length w = 4%nat ->
  unaligned_peek_u32 unaligned_ok align (A ++ w ++ B) (length A) = Some (le_value w).
Proof.
  intros Hw Hlen. unfold unaligned_peek_u32. case_decide; [by apply load_app|]. case_decide; [|by apply load_app].
  destruct (load_halves A w B 2) as (lo & hi & E1 & E2 & B1 & B2 & ->); [done..|]. change (8 * Z.of_nat 2) with 16 in *.
  rewrite E1, E2. cbn [mbind option_bind]. f_equal.
  rewrite u32_small by (rewrite Z.shiftl_mul_pow2 by lia; unfold UINT32_MAX; lia). apply lor_shift_add; lia.
Qed.

Lemma peek_u64_spec align A w B :
  bytes w -> length w = 8%nat ->
  unaligned_peek_u64 unaligned_ok align (A ++ w ++ B) (length A) = Some (le_value w).
Proof.
  intros Hw Hlen. unfold unaligned_peek_u64. case_decide; [by apply load_app|]. case_decide; [|by apply load_app].
  destruct (load_halves A w B 4) as (lo & hi & E1 & E2 & B1 & B2 & ->); [done..|]. change (8 * Z.of_nat 4) with 32 in *.
  rewrite E1, E2. cbn [mbind option_bind]. f_equal.
  rewrite u64_small by (rewrite Z.shiftl_mul_pow2 by lia; unfold UINT64_MAX; lia). apply lor_shift_add; lia.
Qed.

(** ** Comparison of integers *)

Lemma CMP2INT_spec x y : CMP2INT x y = cmp_sign (x ?= y).
Proof. unfold CMP2INT. destruct (Z.compare_spec x y); repeat case_decide; (done || lia). Qed.

Lemma cmp_uint_spec align a b :
  bytes a -> bytes b -> length a = length b -> (length a = 4 \/ length a = 8)%nat ->
  cmp_uint_inline unaligned_ok align a b = Some (cmp_sign (le_value a ?= le_value b)).
Proof.
  intros Ha Hb Hlen H. unfold cmp_uint_inline, cmp_uint64_unchecked, cmp_uint32_unchecked. rewrite decide_True by done.
  pose proof (peek_u32_spec align [] a []) as A4. pose proof (peek_u32_spec align [] b []) as B4.
  pose proof (peek_u64_spec align [] a []) as A8. pose proof (peek_u64_spec align [] b []) as B8.
  rewrite app_nil_l, app_nil_r in A4, A8, B4, B8. simpl length in *. destruct H as [H|H].
  - rewrite decide_False, decide_True by lia.
    rewrite A4, B4 by (done || lia). cbn [mbind option_bind]. by rewrite CMP2INT_spec.
  - rewrite decide_True by lia. rewrite A8, B8 by (done || lia). cbn [mbind option_bind]. by rewrite CMP2INT_spec.
Qed.

(** ** Comparison from the last byte *)

(** What is left to do when the last bytes [T] of both values are equal. *)
Lemma lex_rev_step A B w v T :
  length w = length v ->
  lex (rev (A ++ w ++ T)) (rev (B ++ v ++ T)) =
  match lex (rev w) (rev v) with Eq => lex (rev (A ++ w ++ T)) (rev (B ++ w ++ T)) | c => c end.
Proof.
  intros H. rewrite !rev_app_distr, <- !app_assoc, !(lex_app (rev T)), lex_refl by done.
  rewrite !lex_app by by rewrite !length_rev. rewrite lex_refl. by destruct (lex (rev w) (rev v)) eqn:E.
Qed.

(** A step of [cmp_reverse] from the positions behind [A] and [B]: it answers,
    or it has moved over equal bytes. *)
Definition reverse_step_ok (k : nat) (A B T : list Z) (r : option (Z + nat * nat * nat)) : Prop :=
  (exists c, r = Some (inl c) /\ c = cmp_sign (lex (rev (A ++ T)) (rev (B ++ T))) /\ c <> 0) \/
  (exists A' B' w, A = A' ++ w /\ B = B' ++ w /\ (Nat.min (length A') (length B') < k)%nat /\
    r = Some (inr (length A', length B', Nat.min (length A') (length B')))).

Lemma reverse_step_load A' B' w v T (next : option (Z + nat * nat * nat)) k :
  bytes w -> bytes v -> length w = length v ->
  (w = v -> reverse_step_ok k A' B' (w ++ T) next) ->
  reverse_step_ok k (A' ++ w) (B' ++ v) T
  (if decide (le_value w <> le_value v) then Some (inl (if decide (le_value w < le_value v) then -1 else 1)) else next).
Proof.
  intros Hw Hv Hlen Hnext. pose proof (le_value_lex w v Hw Hv Hlen) as Hl. case_decide as E.
  - left. eexists. split; [done|]. rewrite <- !app_assoc, lex_rev_step, <- Hl by done.
    destruct (Z.compare_spec (le_value w) (le_value v)); [done|..]; case_decide; (split; [done || lia|done]) || lia.
  - assert (w = v) as Ewv by (apply le_value_inj; [done..|lia]). specialize (Hnext Ewv). subst v.
    destruct Hnext as [(c & -> & -> & Hc)|(A2 & B2 & u & -> & -> & Hk & ->)].
    + left. eexists. rewrite <- !app_assoc. done.
    + right. exists A2, B2, (u ++ w). by rewrite !app_assoc.
Qed.

Lemma split_end (A : list Z) n : (n <= length A)%nat -> exists A1 w, A = A1 ++ w /\ length w = n /\ (length A - n)%nat = length A1.
Proof.
  intros H. exists (take (length A - n) A), (drop (length A - n) A).
  rewrite take_drop, length_drop, length_take. split; [done|lia].
Qed.

Lemma reverse_words_spec n : forall A B T,
  bytes A -> bytes B -> (Nat.min (length A) (length B) < 8 * n + 8)%nat ->
  reverse_step_ok 8 A B T
  (reverse_words unaligned_ok n (A ++ T) (B ++ T) (length A) (length B) (Nat.min (length A) (length B))).
Proof.
  induction n as [|n IH]; intros A B T HA HB Hn; cbn [reverse_words].
  { right. exists A, B, []. rewrite !app_nil_r. split_and!; (done || lia). }
  case_decide as H8; [|right; exists A, B, []; rewrite !app_nil_r; split_and!; (done || lia)].
  destruct (split_end A 8) as (A1 & w & -> & Hw & ->); [lia|]. destruct (split_end B 8) as (B1 & v & -> & Hv & ->); [lia|].
  apply Forall_app in HA as [HA1 HBw]. apply Forall_app in HB as [HB1 HBv].
  rewrite !length_app, Hw, Hv in *. replace (Nat.min _ _ - 8)%nat with (Nat.min (length A1) (length B1)) by lia.
  rewrite <- !app_assoc, !peek_u64_spec by done. cbn [mbind option_bind].
  apply reverse_step_load; [done..|congruence|]. intros <-. apply IH; [done..|lia].
Qed.

Lemma reverse_half_spec A B T :
  bytes A -> bytes B -> (Nat.min (length A) (length B) < 8)%nat ->
  reverse_step_ok 4 A B T (reverse_half unaligned_ok (A ++ T) (B ++ T) (length A) (length B) (Nat.min (length A) (length B))).
Proof.
  intros HA HB Hn. unfold reverse_half.
  case_decide as H4; [|right; exists A, B, []; rewrite !app_nil_r; split_and!; (done || lia)].
  destruct (split_end A 4) as (A1 & w & -> & Hw & ->); [lia|]. destruct (split_end B 4) as (B1 & v & -> & Hv & ->); [lia|].
  apply Forall_app in HA as [HA1 HBw]. apply Forall_app in HB as [HB1 HBv].
  rewrite !length_app, Hw, Hv in *. replace (Nat.min _ _ - 4)%nat with (Nat.min (length A1) (length B1)) by lia.
  rewrite <- !app_assoc, !peek_u32_spec by done. cbn [mbind option_bind].
  apply reverse_step_load; [done..|congruence|]. intros <-. right. exists A1, B1, []. rewrite !app_nil_r. split_and!; (done || lia).
Qed.

(** One to three bytes as the number of three bytes that [tail3le] makes of them. *)
Definition tail_bytes (w : list Z) : list Z :=
  match w with [x] => [x; x; x] | [x; y] => [x; y; y] | _ => w end.

Lemma tail3le_spec A w B :
  bytes w -> (0 < length w < 4)%nat -> tail3le (A ++ w ++ B) (length A) (length w) = Some (le_value (tail_bytes w)).
Proof.
  intros Hw Hlen. unfold tail3le, rd. assert (forall i, (A ++ w ++ B) !! (length A + i)%nat = (w ++ B) !! i) as E by (intros i; rewrite lookup_app_r by lia; f_equal; lia).
  pose proof (E 0%nat) as E0. rewrite Nat.add_0_r in E0. rewrite E0, !E. clear E E0.
  destruct w as [|x [|y [|z [|]]]]; try (simpl in Hlen; lia); cbn -[Z.shiftl Z.lor Z.mul]; f_equal;
    repeat (apply Forall_cons in Hw as [? Hw]); rewrite !lor_shift_add by (rewrite ?lor_shift_add by lia; lia); lia.
Qed.

Lemma tail_bytes_spec w v :
  bytes w -> bytes v -> length w = length v -> (0 < length w < 4)%nat ->
  (le_value (tail_bytes w) ?= le_value (tail_bytes v)) = lex (rev w) (rev v).
Proof.
  intros Hw Hv Hlen Hl.
  rewrite le_value_lex.
  - destruct w as [|x [|y [|z [|]]]], v as [|x' [|y' [|z' [|]]]]; simpl in Hlen, Hl; try lia; simpl;
      repeat (match goal with |- context [?a ?= ?b] => destruct (a ?= b) end); done.
  - destruct w as [|x [|y [|z [|]]]]; simpl in *; decompose_Forall_hyps; repeat constructor; done || lia.
  - destruct v as [|x [|y [|z [|]]]]; simpl in *; decompose_Forall_hyps; repeat constructor; done || lia.
  - destruct w as [|x [|y [|z [|]]]], v as [|x' [|y' [|z' [|]]]]; simpl in *; lia.
Qed.

(** When one of the values is at its first byte the lengths decide. *)
Lemma lex_rev_end A B T :
  Nat.min (length A) (length B) = 0%nat -> Z.of_nat (length (A ++ T)) < 2 ^ 31 -> Z.of_nat (length (B ++ T)) < 2 ^ 31 ->
  Z.sgn (cmp_len (length (A ++ T)) (length (B ++ T))) = cmp_sign (lex (rev (A ++ T)) (rev (B ++ T))).
Proof.
  intros Hm HA HB. rewrite cmp_len_spec by done. rewrite !rev_app_distr, lex_app, lex_refl by done. rewrite !length_app.
  rewrite <- (length_rev A), <- (length_rev B) in *. destruct (rev A), (rev B); simpl in *; done || lia.
Qed.

Definition answers (r : option Z) (c : comparison) : Prop := exists z, r = Some z /\ Z.sgn z = cmp_sign c.

Lemma reverse_tail_spec A B T :
  bytes A -> bytes B -> (Nat.min (length A) (length B) < 4)%nat ->
  Z.of_nat (length (A ++ T)) < 2 ^ 31 -> Z.of_nat (length (B ++ T)) < 2 ^ 31 ->
  answers (step_on (reverse_tail (A ++ T) (B ++ T) (length A) (length B) (Nat.min (length A) (length B)))
    (fun _ _ _ => Some (cmp_len (length (A ++ T)) (length (B ++ T)))))
  (lex (rev (A ++ T)) (rev (B ++ T))).
Proof.
  intros HA HB Hn HlA HlB. unfold reverse_tail. case_decide as H0; simpl.
  2:{ eexists. split; [done|]. apply lex_rev_end; [lia|done..]. }
  set (k := Nat.min (length A) (length B)) in *. assert (k = Nat.min (length A) (length B)) as Hk by done. clearbody k.
  destruct (split_end A k) as (A1 & w & -> & Hw & ->); [lia|]. destruct (split_end B k) as (B1 & v & -> & Hv & ->); [lia|].
  apply Forall_app in HA as [HA1 HBw]. apply Forall_app in HB as [HB1 HBv]. rewrite !length_app, Hw, Hv in Hk.
  pose proof (tail_bytes_spec w v HBw HBv ltac:(congruence) ltac:(lia)) as Hl. rewrite <- !(app_assoc _ _ T) in *.
  pose proof (tail3le_spec A1 w T HBw ltac:(lia)) as Ea. pose proof (tail3le_spec B1 v T HBv ltac:(lia)) as Eb.
  rewrite Hw in Ea. rewrite Hv in Eb. rewrite Ea, Eb. cbn [mbind option_bind]. case_decide as E; cbn [mbind option_bind].
  - eexists. split; [done|]. rewrite lex_rev_step, <- Hl by congruence.
    destruct (Z.compare_spec (le_value (tail_bytes w)) (le_value (tail_bytes v))); case_decide; done || lia.
  - assert (lex (rev w) (rev v) = Eq) as Heq by (rewrite <- Hl; apply Z.compare_eq_iff; lia).
    apply lex_eq in Heq. apply (f_equal (@rev Z)) in Heq. rewrite !rev_involutive in Heq. subst v.
    eexists. split; [done|]. apply lex_rev_end; [lia|done..].
Qed.

Lemma step_on_spec k A B T r next c :
  reverse_step_ok k A B T r -> c = lex (rev (A ++ T)) (rev (B ++ T)) ->
  (forall A' B' w, A = A' ++ w -> B = B' ++ w -> (Nat.min (length A') (length B') < k)%nat ->
    answers (next (length A') (length B') (Nat.min (length A') (length B'))) c) ->
  answers (step_on r next) c.
Proof.
  intros [(z & -> & Hz & _)|(A' & B' & w & -> & -> & Hk & ->)] -> Hnext; simpl; [|by eapply Hnext].
  exists z. split; [done|]. subst z. by destruct (lex _ _).
Qed.

Lemma cmp_reverse_spec a b :
  bytes a -> bytes b -> Z.of_nat (length a) < 2 ^ 31 -> Z.of_nat (length b) < 2 ^ 31 ->
  answers (cmp_reverse unaligned_ok a b) (lex (rev a) (rev b)).
Proof.
  intros Ha Hb Hla Hlb. unfold cmp_reverse.
  replace (if decide _ then _ else _) with (Nat.min (length a) (length b)) by (case_decide; lia).
  case_decide as H0.
  2:{ pose proof (lex_rev_end a b []) as H. rewrite !app_nil_r in H. eexists. split; [done|]. apply H; [lia|done..]. }
  pose proof (reverse_words_spec (Nat.min (length a) (length b)) a b [] Ha Hb ltac:(lia)) as H. rewrite !app_nil_r in H.
  eapply step_on_spec; [exact H|by rewrite !app_nil_r|]. clear H. intros A B w -> -> Hk.
  apply Forall_app in Ha as [HA _]. apply Forall_app in Hb as [HB _].
  eapply step_on_spec; [by apply reverse_half_spec|done|]. intros A' B' u -> -> Hk'.
  apply Forall_app in HA as [HA _]. apply Forall_app in HB as [HB _].
  rewrite <- !(app_assoc _ u w) in *. by apply reverse_tail_spec.
Qed.

End peeks.

Section libc.
Context (unaligned_ok : Z) (memcmp : list Z -> list Z -> Z) (Hmemcmp : memcmp_ok memcmp).

Lemma memcmp_zero a b : length a = length b -> (memcmp a b = 0 <-> a = b).
Proof.
  intros H. pose proof (Hmemcmp a b H) as Hs. split.
  - intros E. rewrite E in Hs. apply lex_eq. by destruct (lex a b).
  - intros ->. rewrite lex_refl in Hs. simpl in Hs. lia.
Qed.

Lemma cmp_lexical_spec a b :
  Z.of_nat (length a) < 2 ^ 31 -> Z.of_nat (length b) < 2 ^ 31 -> answers (cmp_lexical memcmp a b) (lex a b).
Proof.
  intros Ha Hb. unfold cmp_lexical. rewrite cmp_len_spec by done.
  replace (if decide (_ < _)%nat then _ else _) with (Nat.min (length a) (length b)) by (case_decide; lia).
  set (k := Nat.min _ _). eexists. split; [done|].
  assert (take (length b) a = take k a /\ take (length a) b = take k b) as [Eta Etb].
  { unfold k. split.
    - by rewrite Nat.min_comm, <- take_take, (take_ge a (length a)).
    - by rewrite <- take_take, (take_ge b (length b)). }
  assert (length (take k a) = length (take k b)) as Hlen by (rewrite !length_take; lia).
  assert (lex a b = match lex (take k a) (take k b) with Eq => lex (drop k a) (drop k b) | c => c end) as Hlex.
  { rewrite <- lex_app by done. by rewrite !take_drop. }
  set (d := if decide (k <> 0)%nat then _ else _).
  assert (Z.sgn d = cmp_sign (lex (take k a) (take k b))) as Hd.
  { unfold d. case_decide as Hk; [by apply Hmemcmp|]. replace k with 0%nat by lia. done. }
  case_decide as E.
  - rewrite Hd, Hlex. destruct (lex (take k a) (take k b)); done || (simpl in Hd; lia).
  - rewrite lex_prefix; [done|]. rewrite Eta, Etb. destruct (lex (take k a) (take k b)); done || (simpl in Hd; lia).
Qed.

Lemma cmp_lenfast_spec a b :
  Z.of_nat (length a) < 2 ^ 31 -> Z.of_nat (length b) < 2 ^ 31 -> answers (cmp_lenfast memcmp a b) (lenlex a b).
Proof.
  intros Ha Hb. unfold cmp_lenfast, lenlex. rewrite cmp_len_spec by done. eexists. split; [done|].
  destruct (Nat.compare_spec (length a) (length b)) as [E|E|E].
  - case_decide as Hz; [|by apply Hmemcmp]. rewrite E, Z.sub_diag.
    destruct Hz as [Hz|Hz]; [lia|]. apply nil_length_inv in Hz as ->. symmetry in E. apply nil_length_inv in E as ->. done.
  - rewrite decide_True by lia. simpl. lia.
  - rewrite decide_True by lia. simpl. lia.
Qed.

(** Two loads of [n] bytes, one at each end, cover up to [2 * n] bytes. *)
Lemma cover_ends (a b : list Z) n :
  length a = length b -> (n <= length a <= n + n)%nat ->
  take n a = take n b -> drop (length a - n) a = drop (length a - n) b -> a = b.
Proof.
  intros Hlen Hn Ht Hd. rewrite <- (take_drop (length a - n) a), <- (take_drop (length a - n) b), Hd. f_equal.
  replace (take (length a - n) a) with (take (length a - n) (take n a)) by (rewrite take_take; f_equal; lia).
  rewrite Ht, take_take. f_equal. lia.
Qed.

Lemma lor_sub_zero (f : Z -> Z) w x y x' y' :
  f = (fun z => z mod 2 ^ w) -> 0 <= w -> 0 <= x < 2 ^ w -> 0 <= y < 2 ^ w -> 0 <= x' < 2 ^ w -> 0 <= y' < 2 ^ w ->
  (Z.lor (f (x - y)) (f (x' - y')) = 0 <-> x = y /\ x' = y').
Proof.
  intros -> Hw H1 H2 H3 H4. rewrite Z.lor_eq_0_iff. cbn beta.
  assert (forall u v, 0 <= u < 2 ^ w -> 0 <= v < 2 ^ w -> ((u - v) mod 2 ^ w = 0 <-> u = v)) as H.
  { intros u v Hu Hv. split; [|intros ->; by rewrite Z.sub_diag, Z.mod_0_l by lia].
    intros E. apply Z.mod_divide in E as [q Hq]; [|lia].
    assert (q = 0) by (destruct (Z.lt_trichotomy q 0) as [|[|]]; [nia|done|nia]). subst q. lia. }
  by rewrite !H.
Qed.

Lemma peek_start w : forall (a : list Z) n (peek : list Z -> nat -> option Z),
  (forall A w B, bytes w -> length w = n -> peek (A ++ w ++ B) (length A) = Some (le_value w)) ->
  bytes a -> (w + n <= length a)%nat -> peek a w = Some (le_value (take n (drop w a))).
Proof.
  intros a n peek Hpeek Ha Hn. specialize (Hpeek (take w a) (take n (drop w a)) (drop n (drop w a))).
  rewrite !take_drop, (length_take a w), (Nat.min_l w) in Hpeek by lia. apply Hpeek.
  - by apply Forall_take, Forall_drop.
  - rewrite length_take, length_drop. lia.
Qed.

Lemma peek_u32_at a w :
  bytes a -> (w + 4 <= length a)%nat -> unaligned_peek_u32 unaligned_ok 1 a w = Some (le_value (take 4 (drop w a))).
Proof. apply (peek_start w a 4). intros. by apply peek_u32_spec. Qed.

Lemma peek_u64_at a w :
  bytes a -> (w + 8 <= length a)%nat -> unaligned_peek_u64 unaligned_ok 1 a w = Some (le_value (take 8 (drop w a))).
Proof. apply (peek_start w a 8). intros. by apply peek_u64_spec. Qed.

Lemma bytes_window a w n : bytes a -> (w + n <= length a)%nat ->
  bytes (take n (drop w a)) /\ length (take n (drop w a)) = n /\ 0 <= le_value (take n (drop w a)) < 2 ^ (8 * Z.of_nat n).
Proof.
  intros Ha Hn. assert (length (take n (drop w a)) = n) as Hl by (rewrite length_take, length_drop; lia).
  assert (bytes (take n (drop w a))) as Hb by by apply Forall_take, Forall_drop.
  pose proof (le_value_bound _ Hb) as H. rewrite Hl in H. done.
Qed.

Lemma ends_decide (f : Z -> Z) n a b :
  f = (fun z => z mod 2 ^ (8 * Z.of_nat n)) -> bytes a -> bytes b -> length a = length b -> (n <= length a <= n + n)%nat ->
  bool_decide (Z.lor (f (le_value (take n (drop 0 a)) - le_value (take n (drop 0 b))))
    (f (le_value (take n (drop (length a - n) a)) - le_value (take n (drop (length a - n) b)))) = 0) = bool_decide (a = b).
Proof.
  intros Hf Ha Hb Hlen Hn. apply bool_decide_ext.
  destruct (bytes_window a 0 n Ha) as (B1 & L1 & V1); [lia|]. destruct (bytes_window b 0 n Hb) as (B2 & L2 & V2); [lia|].
  destruct (bytes_window a (length a - n) n Ha) as (B3 & L3 & V3); [lia|].
  destruct (bytes_window b (length a - n) n Hb) as (B4 & L4 & V4); [lia|].
  rewrite (lor_sub_zero f (8 * Z.of_nat n)) by (done || lia). split; [|intros ->; done].
  intros [E1 E2]. apply le_value_inj in E1; [|done..|congruence]. apply le_value_inj in E2; [|done..|congruence].
  apply (cover_ends a b n Hlen Hn E1). rewrite !take_ge in E2 by (rewrite length_drop; lia). done.
Qed.

Lemma eq_fast_spec a b : bytes a -> bytes b -> eq_fast unaligned_ok memcmp a b = Some (bool_decide (a = b)).
Proof.
  intros Ha Hb. unfold eq_fast. case_decide as Hlen.
  2:{ f_equal. symmetry. apply bool_decide_eq_false_2. intros ->. done. }
  unfold eq_fast_slowpath. case_decide as H3; [case_decide as H9; [|case_decide as H17]|case_decide as H0].
  - rewrite !peek_u32_at by (done || lia). cbn [mbind option_bind]. f_equal. by apply (ends_decide u32 4); [| | | |lia].
  - rewrite !peek_u64_at by (done || lia). cbn [mbind option_bind]. f_equal. apply (ends_decide u64 8); done || lia.
  - f_equal. apply bool_decide_ext. rewrite (take_ge a), (take_ge b) by lia. by apply memcmp_zero.
  - pose proof (tail3le_spec [] a [] Ha ltac:(lia)) as Ea. pose proof (tail3le_spec [] b [] Hb ltac:(lia)) as Eb.
    rewrite app_nil_l, app_nil_r in Ea, Eb. rewrite <- Hlen in Eb. simpl length in Ea, Eb. rewrite Ea, Eb.
    cbn [mbind option_bind]. f_equal. apply bool_decide_ext.
    pose proof (tail_bytes_spec a b Ha Hb Hlen ltac:(lia)) as Hl. split; [|by intros ->]. intros E.
    rewrite E, Z.compare_refl in Hl. symmetry in Hl. apply lex_eq in Hl.
    rewrite <- (rev_involutive a), <- (rev_involutive b). by f_equal.
  - f_equal. symmetry. apply bool_decide_eq_true_2. rewrite (nil_length_inv a), (nil_length_inv b) by lia. done.
Qed.
End libc.

(** ** Properties *)

(** The order of the keys (values) of a table that the flags ask for. *)
Definition int_order (a b : list Z) : comparison :=
  if decide (length a = length b /\ (length a = 4 \/ length a = 8)%nat) then le_value a ?= le_value b else Eq.

Definition key_order (flags : Z) (a b : list Z) : comparison :=
  if decide (Z.land flags MDBX_REVERSEKEY <> 0) then lex (rev a) (rev b)
  else if decide (Z.land flags MDBX_INTEGERKEY <> 0) then int_order a b else lex a b.

Definition data_order (flags : Z) (a b : list Z) : comparison :=
  if decide (Z.land flags MDBX_DUPSORT = 0) then lenlex a b
  else if decide (Z.land flags MDBX_INTEGERDUP <> 0) then int_order a b
  else if decide (Z.land flags MDBX_REVERSEDUP <> 0) then lex (rev a) (rev b) else lex a b.

Lemma int_order_spec unaligned_ok align a b :
  bytes a -> bytes b -> answers (cmp_uint_inline unaligned_ok align a b) (int_order a b).
Proof.
  intros Ha Hb. unfold int_order. case_decide as H.
  - destruct H as [H1 H2]. rewrite cmp_uint_spec by done. eexists. split; [done|]. by destruct (_ ?= _).
  - unfold cmp_uint_inline. repeat case_decide; try (by exists 0); exfalso; apply H; tauto.
Qed.

(** Values that may be in one table: for integer keys they have one size. *)
Definition one_size (integers : Prop) (n : nat) (a : list Z) : Prop :=
  bytes a /\ (integers -> length a = n /\ (n = 4 \/ n = 8)%nat).

Lemma int_order_laws n a b c :
  let P := one_size True n in P a -> P b -> P c ->
  int_order b a = CompOpp (int_order a b) /\ (int_order a b = Eq <-> a = b) /\
  (int_order a b = Lt -> int_order b c = Lt -> int_order a c = Lt).
Proof.
  intros P [Ha Ha'] [Hb Hb'] [Hc Hc']. destruct (Ha' I) as [La Hn], (Hb' I) as [Lb _], (Hc' I) as [Lc _].
  unfold int_order. rewrite !decide_True by (split; [congruence|lia]). split_and!.
  - apply Z.compare_antisym.
  - rewrite Z.compare_eq_iff. split; [|by intros ->]. apply le_value_inj; [done..|congruence].
  - rewrite !Z.compare_lt_iff. lia.
Qed.

Lemma lex_laws a b c :
  lex b a = CompOpp (lex a b) /\ (lex a b = Eq <-> a = b) /\ (lex a b = Lt -> lex b c = Lt -> lex a c = Lt).
Proof. split_and!; [apply lex_antisym|split; [apply lex_eq|intros ->; apply lex_refl]|apply lex_trans]. Qed.

Lemma rev_eq (a b : list Z) : rev a = rev b <-> a = b.
Proof. split; [|by intros ->]. intros H. rewrite <- (rev_involutive a), <- (rev_involutive b). by f_equal. Qed.

Lemma key_order_laws flags n a b c :
  let P := one_size (Z.land flags MDBX_INTEGERKEY <> 0) n in P a -> P b -> P c ->
  key_order flags b a = CompOpp (key_order flags a b) /\ (key_order flags a b = Eq <-> a = b) /\
  (key_order flags a b = Lt -> key_order flags b c = Lt -> key_order flags a c = Lt).
Proof.
  intros P Ha Hb Hc. unfold key_order. destruct (decide (Z.land flags MDBX_REVERSEKEY <> 0)).
  - rewrite <- (rev_eq a b). apply lex_laws.
  - destruct (decide (Z.land flags MDBX_INTEGERKEY <> 0)) as [H|H]; [|apply lex_laws].
    destruct Ha, Hb, Hc. apply (int_order_laws n); split; auto.
Qed.

(** C26. The builtin comparator of keys never loads a byte outside of the two
    keys, and the sign of its result is a total order on the keys of a table:
    byte by byte, byte by byte from the last one (in steps of eight, four and
    three bytes), or by the value of the integers, as the flags of the table say. *)
Theorem builtin_keycmp_orders unaligned_ok memcmp flags n a b c :
  memcmp_ok memcmp -> Z.of_nat (length a) < 2 ^ 31 -> Z.of_nat (length b) < 2 ^ 31 ->
  one_size (Z.land flags MDBX_INTEGERKEY <> 0) n a -> one_size (Z.land flags MDBX_INTEGERKEY <> 0) n b ->
  one_size (Z.land flags MDBX_INTEGERKEY <> 0) n c ->
  answers (builtin_keycmp unaligned_ok memcmp flags a b) (key_order flags a b) /\
  key_order flags b a = CompOpp (key_order flags a b) /\ (key_order flags a b = Eq <-> a = b) /\
  (key_order flags a b = Lt -> key_order flags b c = Lt -> key_order flags a c = Lt).
Proof.
  intros Hm Hla Hlb Ha Hb Hc. split; [|by apply (key_order_laws flags n)].
  destruct Ha as [Ha _], Hb as [Hb _]. unfold builtin_keycmp, key_order, cmp_uint_align2.
  case_decide; [by apply cmp_reverse_spec|]. case_decide; [by apply int_order_spec|by apply cmp_lexical_spec].
Qed.

(** The builtin comparator of values never loads a byte outside of the two
    values, and the sign of its result is the order the flags ask for; without
    [MDBX_DUPSORT] shorter values come first. *)
Theorem builtin_datacmp_orders unaligned_ok memcmp flags a b :
  memcmp_ok memcmp -> bytes a -> bytes b -> Z.of_nat (length a) < 2 ^ 31 -> Z.of_nat (length b) < 2 ^ 31 ->
  answers (builtin_datacmp unaligned_ok memcmp flags a b) (data_order flags a b).
Proof.
  intros Hm Ha Hb Hla Hlb. unfold builtin_datacmp, data_order, cmp_uint_unaligned.
  case_decide; [by apply cmp_lenfast_spec|]. case_decide; [by apply int_order_spec|].
  case_decide; [by apply cmp_reverse_spec|by apply cmp_lexical_spec].
Qed.

(** The fast test for equality, with its overlapping loads at both ends and
    its three byte tail, answers whether the two values are the same bytes, on
    every build. *)
Theorem eq_fast_correct unaligned_ok memcmp a b :
  memcmp_ok memcmp -> bytes a -> bytes b ->
  eq_fast unaligned_ok memcmp a b = Some (bool_decide (a = b)) /\
  cmp_equal_or_greater unaligned_ok memcmp a b = Some (if decide (a = b) then 0 else 1) /\
  cmp_equal_or_wrong unaligned_ok memcmp a b = Some (if decide (a = b) then 0 else -1).
Proof.
  intros Hm Ha Hb. unfold cmp_equal_or_greater, cmp_equal_or_wrong. rewrite (eq_fast_spec unaligned_ok memcmp Hm a b Ha Hb).
  split; [done|]. cbn [mbind option_bind]. destruct (decide (a = b)) as [->|]; [by rewrite bool_decide_eq_true_2|by rewrite bool_decide_eq_false_2].
Qed.

(** A [memcmp] as the standard describes it. *)
Definition a_memcmp (a b : list Z) : Z := 7 * cmp_sign (lex a b).
Lemma a_memcmp_ok : memcmp_ok a_memcmp.
Proof. intros a b _. unfold a_memcmp. by destruct (lex a b). Qed.

Lemma builtin_keycmp_orders_witness :
  answers (builtin_keycmp 8 a_memcmp MDBX_REVERSEKEY [9; 2; 3; 4; 5] [1; 2; 3; 4; 5]) Gt.
Proof.
  destruct (builtin_keycmp_orders 8 a_memcmp MDBX_REVERSEKEY 0 [9; 2; 3; 4; 5] [1; 2; 3; 4; 5] []) as [H _].
  - exact a_memcmp_ok.
  - reflexivity.
  - reflexivity.
  - split; [repeat constructor; done|intros H; vm_compute in H; by destruct H].
  - split; [repeat constructor; done|intros H; vm_compute in H; by destruct H].
  - split; [constructor|intros H; vm_compute in H; by destruct H].
  - exact H.
Defined.

Lemma builtin_datacmp_orders_witness : answers (builtin_datacmp 0 a_memcmp 0 [9] [1; 2]) Lt.
Proof.
  apply (builtin_datacmp_orders 0 a_memcmp 0 [9] [1; 2] a_memcmp_ok); [repeat constructor; done..|reflexivity|reflexivity].
Defined.

Lemma eq_fast_correct_witness : eq_fast 8 a_memcmp [1; 2; 3; 4; 5] [1; 2; 3; 4; 6] = Some false.
Proof.
  destruct (eq_fast_correct 8 a_memcmp [1; 2; 3; 4; 5] [1; 2; 3; 4; 6] a_memcmp_ok) as [H _]; [repeat constructor; done..|].
  rewrite H. reflexivity.
Defined.
