(* ===== verification/Keys.v ===== *)
(** * Conversion of numbers into keys and back

    [mdbx_key_from_double] and its relatives of mdbx.c turn numbers into
    unsigned integers whose order is that of the numbers.  A [double] or [float]
    is the unsigned integer of its IEEE 754 bits, as the code itself takes it;
    a key in memory is the list of its bytes.  Their order and round trips follow. *)

From S2P Require Import Prelude Meta Cmp CmpProps.

(** ** Floating point numbers *)

Definition key2double (key : Z) : Z := if decide (key < 0) then u64 (key + 0x8000000000000000) else u64 (0xffffFFFFffffFFFF - key).
Definition double2key (bits : Z) : Z :=
  let i := s64 bits in if decide (i < 0) then u64 (0xffffFFFFffffFFFF - i) else u64 (i + 0x8000000000000000).

Definition key2float (key : Z) : Z := if decide (key < 0) then u32 (key + 0x80000000) else u32 (0xffffFFFF - key).
Definition float2key (bits : Z) : Z :=
  let i := s32 bits in if decide (i < 0) then u32 (0xffffFFFF - i) else u32 (i + 0x80000000).

Definition mdbx_key_from_double (ieee754_64bit : Z) : Z := double2key ieee754_64bit.
Definition mdbx_key_from_ptrdouble (ieee754_64bit : Z) : Z := double2key ieee754_64bit.
Definition mdbx_key_from_float (ieee754_32bit : Z) : Z := float2key ieee754_32bit.
Definition mdbx_key_from_ptrfloat (ieee754_32bit : Z) : Z := float2key ieee754_32bit.

(** ** Integers *)

Definition mdbx_key_from_int64 (i64 : Z) : Z := u64 (0x8000000000000000 + i64).
Definition mdbx_key_from_int32 (i32 : Z) : Z := u32 (0x80000000 + i32).

(** ** Integers as the keys of the nearest doubles *)

Definition IEEE754_DOUBLE_MANTISSA_SIZE : Z := 52.
Definition IEEE754_DOUBLE_EXPONENTA_BIAS : Z := 0x3FF.
Definition IEEE754_DOUBLE_EXPONENTA_MAX : Z := 0x7FF.
Definition IEEE754_DOUBLE_IMPLICIT_LEAD : Z := 0x0010000000000000.
Definition IEEE754_DOUBLE_MANTISSA_MASK : Z := 0x000FFFFFFFFFFFFF.
Definition IEEE754_DOUBLE_MANTISSA_AMAX : Z := 0x001FFFFFFFFFFFFF.

(** [__builtin_clzl], which is undefined at zero. *)
Definition clz64 (value : Z) : Z := 63 - Z.log2 value.

(** The same without the builtin: the bits are spread down, and a de Bruijn
    sequence tells how many there are. *)
Definition debruijn_clz64 : list Z :=
  [63; 16; 62; 7;  15; 36; 61; 3;  6;  14; 22; 26; 35; 47; 60; 2;
    9;  5;  28; 11; 13; 21; 42; 19; 25; 31; 34; 40; 46; 52; 59; 1;
    17; 8;  37; 4;  23; 27; 48; 10; 29; 12; 43; 20; 32; 41; 53; 18;
    38; 24; 49; 30; 44; 33; 54; 39; 50; 45; 55; 51; 56; 57; 58; 0].

Definition clz64_portable (value : Z) : option Z :=
  let value := Z.lor value (Z.shiftr value 1) in
  let value := Z.lor value (Z.shiftr value 2) in
  let value := Z.lor value (Z.shiftr value 4) in
  let value := Z.lor value (Z.shiftr value 8) in
  let value := Z.lor value (Z.shiftr value 16) in
  let value := Z.lor value (Z.shiftr value 32) in
  rd debruijn_clz64 (Z.to_nat (Z.shiftr (u64 (value * 0x03F79D71B4CB0A89)) 58)).

Definition round_mantissa (u shift : Z) : Z :=
  let shift := - shift in
  let half := Z.shiftl 1 (shift - 1) in
  let lsb := Z.land 1 (u32 (Z.shiftr u shift)) in
  let tie2even := Z.lxor 1 lsb in
  Z.shiftr (u64 (u64 (u + half) - tie2even)) shift.

(** The mantissa and the shift for an absolute value.  [u64 << shift] with a
    negative [shift] is not used (though C leaves even its evaluation undefined). *)
Definition json_mantissa (u : Z) : Z * Z :=
  let shift := clz64 u - (64 - IEEE754_DOUBLE_MANTISSA_SIZE - 1) in
  if decide (shift < 0) then
    let mantissa := round_mantissa u shift in
    if decide (mantissa > IEEE754_DOUBLE_MANTISSA_AMAX) then
      let shift := shift - 1 in (round_mantissa u shift, shift)
    else (mantissa, shift)
  else (u64 (Z.shiftl u shift), shift).

Definition json_exponent (shift : Z) : Z := u64 (IEEE754_DOUBLE_EXPONENTA_BIAS + IEEE754_DOUBLE_MANTISSA_SIZE - shift).

(** [None] is the negation of [INT64_MIN], which C leaves undefined. *)
Definition mdbx_key_from_jsonInteger (json_integer : Z) : option Z :=
  let bias := 0x8000000000000000 in
  if decide (json_integer > 0) then
    let '(mantissa, shift) := json_mantissa json_integer in
    Some (u64 (bias + Z.shiftl (json_exponent shift) IEEE754_DOUBLE_MANTISSA_SIZE + (mantissa - IEEE754_DOUBLE_IMPLICIT_LEAD)))
  else if decide (json_integer < 0) then
    if decide (json_integer = - 2 ^ 63) then None
    else
      let '(mantissa, shift) := json_mantissa (- json_integer) in
      Some (u64 (bias - 1 - Z.shiftl (json_exponent shift) IEEE754_DOUBLE_MANTISSA_SIZE - (mantissa - IEEE754_DOUBLE_IMPLICIT_LEAD)))
  else Some bias.

Definition INT64_MIN : Z := - 2 ^ 63.
Definition INT64_MAX : Z := 2 ^ 63 - 1.

Section keys.
Context (unaligned_ok : Z).

Definition mdbx_jsonInteger_from_key (v : list Z) : option Z :=
  key ← unaligned_peek_u64 unaligned_ok 2 v 0;
  let bias := 0x8000000000000000 in
  let covalent := if decide (key > bias) then u64 (key - bias) else u64 (u64 (bias - key) - 1) in
  let shift := IEEE754_DOUBLE_EXPONENTA_BIAS + 63 -
    Z.land IEEE754_DOUBLE_EXPONENTA_MAX (s32 (Z.shiftr covalent IEEE754_DOUBLE_MANTISSA_SIZE)) in
  if decide (shift < 1) then Some (if decide (key < bias) then INT64_MIN else INT64_MAX)
  else if decide (shift > 63) then Some 0
  else
    let unscaled := u64 (u64 (Z.shiftl (Z.land covalent IEEE754_DOUBLE_MANTISSA_MASK) (63 - IEEE754_DOUBLE_MANTISSA_SIZE)) + bias) in
    let absolute := s64 (Z.shiftr unscaled shift) in
    Some (if decide (key < bias) then - absolute else absolute).

Definition mdbx_double_from_key (v : list Z) : option Z :=
  key ← unaligned_peek_u64 unaligned_ok 2 v 0;
  Some (key2double (s64 key)).

Definition mdbx_float_from_key (v : list Z) : option Z :=
  key ← unaligned_peek_u32 unaligned_ok 2 v 0;
  Some (key2float (s32 key)).

Definition mdbx_int32_from_key (v : list Z) : option Z :=
  key ← unaligned_peek_u32 unaligned_ok 2 v 0;
  Some (s32 (u32 (key - 0x80000000))).

Definition mdbx_int64_from_key (v : list Z) : option Z :=
  key ← unaligned_peek_u64 unaligned_ok 2 v 0;
  Some (s64 (u64 (key - 0x8000000000000000))).
End keys.

(** ** The keys of numbers are ordered like the numbers *)

(** ** The value of IEEE 754 bits *)

(** The magnitude [x] (the bits without the sign) with [p] bits of mantissa, as
    a multiple of the smallest positive number: the exponent zero has no implicit
    bit. *)
Definition magnitude (p x : Z) : Z :=
  let e := x / 2 ^ p in let m := x mod 2 ^ p in
  if decide (e = 0) then m else (2 ^ p + m) * 2 ^ (e - 1).

Definition ieee_num (w p bits : Z) : Z :=
  if decide (bits < 2 ^ (w - 1)) then magnitude p bits else - magnitude p (bits - 2 ^ (w - 1)).

Definition double_num : Z -> Z := ieee_num 64 52.
Definition float_num : Z -> Z := ieee_num 32 23.

Section magnitude.
Context (p : Z) (Hp : 0 < p).

Lemma magnitude_nonneg x : 0 <= x -> 0 <= magnitude p x.
Proof.
  intros Hx. unfold magnitude. assert (0 < 2 ^ p) by (apply Z.pow_pos_nonneg; lia).
  pose proof (Z.mod_pos_bound x (2 ^ p) ltac:(lia)). case_decide; [lia|].
  apply Z.mul_nonneg_nonneg; [lia|apply Z.pow_nonneg; lia].
Qed.

(** The numbers of exponent [e] are below those of a greater exponent. *)
Lemma magnitude_exponent e m :
  0 <= e -> 0 <= m < 2 ^ p -> (if decide (e = 0) then m else (2 ^ p + m) * 2 ^ (e - 1)) < 2 ^ p * 2 ^ e.
Proof.
  intros He Hm. case_decide as E; [subst; simpl; lia|].
  replace (2 ^ e) with (2 * 2 ^ (e - 1)) by (rewrite <- Z.pow_succ_r by lia; f_equal; lia).
  assert (0 < 2 ^ (e - 1)) by (apply Z.pow_pos_nonneg; lia). nia.
Qed.

Lemma magnitude_mono x y : 0 <= x -> x < y -> magnitude p x < magnitude p y.
Proof.
  intros Hx Hxy. unfold magnitude. assert (0 < 2 ^ p) by (apply Z.pow_pos_nonneg; lia).
  pose proof (Z.mod_pos_bound x (2 ^ p) ltac:(lia)) as Hmx. pose proof (Z.mod_pos_bound y (2 ^ p) ltac:(lia)) as Hmy.
  pose proof (Z.div_mod x (2 ^ p) ltac:(lia)) as Ex. pose proof (Z.div_mod y (2 ^ p) ltac:(lia)) as Ey.
  assert (0 <= x / 2 ^ p <= y / 2 ^ p) as He by (split; [apply Z.div_pos|apply Z.div_le_mono]; lia).
  revert Hmx Hmy Ex Ey He. generalize (x / 2 ^ p), (y / 2 ^ p), (x mod 2 ^ p), (y mod 2 ^ p). intros e f m n Hm Hn -> -> He.
  destruct (decide (e = f)) as [<-|Hne].
  - case_decide; [lia|]. apply Z.mul_lt_mono_pos_r; [apply Z.pow_pos_nonneg|]; lia.
  - eapply Z.lt_le_trans; [by apply magnitude_exponent; [lia|]|]. rewrite decide_False by lia.
    assert (2 ^ e <= 2 ^ (f - 1)) by (apply Z.pow_le_mono_r; lia).
    apply Z.le_trans with (2 ^ p * 2 ^ (f - 1)); [apply Z.mul_le_mono_nonneg_l; lia|].
    apply Z.mul_le_mono_nonneg_r; [apply Z.pow_nonneg|]; lia.
Qed.
End magnitude.

(** ** The keys of floating point numbers *)

Lemma u64_wrap k x : 0 <= x + 2 ^ 64 * k < 2 ^ 64 -> u64 x = x + 2 ^ 64 * k.
Proof. intros H. unfold u64. rewrite <- (Z_mod_plus_full x k), Z.mod_small; lia. Qed.
Lemma u32_wrap k x : 0 <= x + 2 ^ 32 * k < 2 ^ 32 -> u32 x = x + 2 ^ 32 * k.
Proof. intros H. unfold u32. rewrite <- (Z_mod_plus_full x k), Z.mod_small; lia. Qed.

Lemma s64_unsigned x : 0 <= x < 2 ^ 64 -> s64 x = if decide (x < 2 ^ 63) then x else x - 2 ^ 64.
Proof.
  intros H. unfold s64. rewrite u64_small by (unfold UINT64_MAX; lia).
  destruct (Z.ltb_spec x (2 ^ 63)); case_decide; lia.
Qed.
Lemma s32_unsigned x : 0 <= x < 2 ^ 32 -> s32 x = if decide (x < 2 ^ 31) then x else x - 2 ^ 32.
Proof.
  intros H. unfold s32. rewrite u32_small by (unfold UINT32_MAX; lia).
  destruct (Z.ltb_spec x (2 ^ 31)); case_decide; lia.
Qed.

Lemma double2key_spec a : 0 <= a < 2 ^ 64 -> double2key a = if decide (a < 2 ^ 63) then a + 2 ^ 63 else 2 ^ 64 - 1 - a.
Proof.
  intros H. unfold double2key. rewrite s64_unsigned by done. destruct (decide (a < 2 ^ 63)).
  - rewrite decide_False by lia. rewrite (u64_wrap 0); lia.
  - rewrite decide_True by lia. rewrite (u64_wrap (-1)); lia.
Qed.

Lemma float2key_spec a : 0 <= a < 2 ^ 32 -> float2key a = if decide (a < 2 ^ 31) then a + 2 ^ 31 else 2 ^ 32 - 1 - a.
Proof.
  intros H. unfold float2key. rewrite s32_unsigned by done. destruct (decide (a < 2 ^ 31)).
  - rewrite decide_False by lia. rewrite (u32_wrap 0); lia.
  - rewrite decide_True by lia. rewrite (u32_wrap (-1)); lia.
Qed.

Lemma key2double_spec k :
  0 <= k < 2 ^ 64 -> key2double (s64 k) = if decide (2 ^ 63 <= k) then k - 2 ^ 63 else 2 ^ 64 - 1 - k.
Proof.
  intros H. unfold key2double. rewrite s64_unsigned by done. destruct (decide (k < 2 ^ 63)), (decide (2 ^ 63 <= k)); try lia.
  - rewrite decide_False by lia. rewrite (u64_wrap 0); lia.
  - rewrite decide_True by lia. rewrite (u64_wrap 0); lia.
Qed.

Lemma key2float_spec k :
  0 <= k < 2 ^ 32 -> key2float (s32 k) = if decide (2 ^ 31 <= k) then k - 2 ^ 31 else 2 ^ 32 - 1 - k.
Proof.
  intros H. unfold key2float. rewrite s32_unsigned by done. destruct (decide (k < 2 ^ 31)), (decide (2 ^ 31 <= k)); try lia.
  - rewrite decide_False by lia. rewrite (u32_wrap 0); lia.
  - rewrite decide_True by lia. rewrite (u32_wrap 0); lia.
Qed.

(** Sign and magnitude, turned over for the negative numbers, have the order of
    the numbers. *)
Lemma ieee_key_order w p (key : Z -> Z) a b :
  0 < p -> 0 < w ->
  (forall x, 0 <= x < 2 ^ w -> key x = if decide (x < 2 ^ (w - 1)) then x + 2 ^ (w - 1) else 2 ^ w - 1 - x) ->
  0 <= a < 2 ^ w -> 0 <= b < 2 ^ w ->
  (ieee_num w p a < ieee_num w p b -> key a < key b) /\ (key a < key b -> ieee_num w p a <= ieee_num w p b).
Proof.
  intros Hp Hw Hkey Ha Hb. rewrite !Hkey by done. unfold ieee_num.
  assert (2 ^ w = 2 * 2 ^ (w - 1)) as Ew by (rewrite <- Z.pow_succ_r by lia; f_equal; lia). rewrite Ew in *. clear Ew Hkey.
  set (h := 2 ^ (w - 1)) in *. clearbody h.
  assert (forall x y, 0 <= x -> 0 <= y -> (x < y <-> magnitude p x < magnitude p y)) as Hm.
  { intros x y Hx Hy. split; [by apply magnitude_mono|]. intros H. destruct (Z.lt_trichotomy x y) as [|[->|Hxy]]; [done|lia|].
    apply (magnitude_mono p Hp) in Hxy; [lia|done]. }
  case_decide; case_decide.
  - rewrite <- Hm by lia. destruct (Z.lt_trichotomy a b) as [Hab|[->|Hab]]; [apply Hm in Hab; lia|lia|lia].
  - pose proof (magnitude_nonneg p Hp a). pose proof (magnitude_nonneg p Hp (b - h)). lia.
  - pose proof (magnitude_nonneg p Hp b). pose proof (magnitude_nonneg p Hp (a - h)). lia.
  - pose proof (Hm (b - h) (a - h) ltac:(lia) ltac:(lia)). lia.
Qed.

(** ** Keys in memory *)

Lemma peek_u64_key uok align k : 0 <= k < 2 ^ 64 -> unaligned_peek_u64 uok align (le_bytes 8 k) 0 = Some k.
Proof.
  intros Hk. destruct (le_bytes_spec 8 k Hk) as (H1 & H2 & H3).
  pose proof (peek_u64_spec uok align [] (le_bytes 8 k) [] H1 H2) as H. rewrite app_nil_l, app_nil_r, H3 in H. exact H.
Qed.

Lemma peek_u32_key uok align k : 0 <= k < 2 ^ 32 -> unaligned_peek_u32 uok align (le_bytes 4 k) 0 = Some k.
Proof.
  intros Hk. destruct (le_bytes_spec 4 k Hk) as (H1 & H2 & H3).
  pose proof (peek_u32_spec uok align [] (le_bytes 4 k) [] H1 H2) as H. rewrite app_nil_l, app_nil_r, H3 in H. exact H.
Qed.

(** ** Rounding of the mantissa *)

(** [r] is [u / 2 ^ s], to the nearest and of two to the even one. *)
Definition nearest_even (u s r : Z) : Prop :=
  2 * Z.abs (u - r * 2 ^ s) <= 2 ^ s /\ (2 * Z.abs (u - r * 2 ^ s) = 2 ^ s -> Z.even r = true).

Lemma div_pow u s : 0 <= s -> 0 <= u -> exists q f, u = q * 2 ^ s + f /\ 0 <= f < 2 ^ s /\ 0 <= q /\ Z.shiftr u s = q.
Proof.
  intros Hs Hu. assert (0 < 2 ^ s) by (apply Z.pow_pos_nonneg; lia). exists (u / 2 ^ s), (u mod 2 ^ s).
  pose proof (Z.div_mod u (2 ^ s) ltac:(lia)). pose proof (Z.mod_pos_bound u (2 ^ s) ltac:(lia)).
  rewrite Z.shiftr_div_pow2 by lia. split_and!; try lia. apply Z.div_pos; lia.
Qed.

Lemma land_1 x : Z.land 1 x = x mod 2.
Proof. rewrite Z.land_comm. change 1 with (Z.ones 1). by rewrite Z.land_ones by lia. Qed.

(** The value that is shifted out decides, [1 - lsb] breaks the ties. *)
Lemma round_mantissa_spec u s :
  0 < s < 32 -> 0 < u <= 2 ^ 63 ->
  nearest_even u s (round_mantissa u (- s)) /\ u / 2 ^ s <= round_mantissa u (- s) <= u / 2 ^ s + 1.
Proof.
  intros Hs Hu. unfold round_mantissa. rewrite Z.opp_involutive.
  destruct (div_pow u s) as (q & f & Eu & Hf & Hq & Esh); [lia..|]. rewrite Esh, land_1.
  assert (u / 2 ^ s = q) as -> by (rewrite <- Esh, Z.shiftr_div_pow2 by lia; done).
  assert (u32 q mod 2 = q mod 2) as ->.
  { apply Z.mod_mod_divide. by exists (2 ^ 31). }
  rewrite Z.shiftl_1_l. set (h := 2 ^ (s - 1)). assert (2 ^ s = 2 * h) as Eh by (unfold h; rewrite <- Z.pow_succ_r by lia; f_equal; lia).
  assert (0 < h) by (apply Z.pow_pos_nonneg; lia). assert (h <= 2 ^ 32) by (apply Z.pow_le_mono_r; lia). rewrite Eh in *.
  assert (exists t, Z.lxor 1 (q mod 2) = t /\ (t = 0 /\ Z.even q = false \/ t = 1 /\ Z.even q = true)) as (t & -> & Ht).
  { rewrite Zmod_even. destruct (Z.even q); [exists 1|exists 0]; auto. }
  rewrite (u64_small (u + h)) by (unfold UINT64_MAX; lia). rewrite u64_small by (unfold UINT64_MAX; lia).
  rewrite Z.shiftr_div_pow2, Eh by lia.
  assert ((u + h - t) / (2 * h) = if decide (2 * h <= f + h - t) then q + 1 else q) as ->.
  { case_decide; symmetry; [apply Z.div_unique with (f + h - t - 2 * h)|apply Z.div_unique with (f + h - t)]; lia. }
  unfold nearest_even. rewrite Eh. split; [|case_decide; lia].
  case_decide as Hd.
  - split; [lia|]. intros E. rewrite Z.even_add. destruct Ht as [[-> ->]|[-> _]]; [done|lia].
  - split; [lia|]. intros E. destruct Ht as [[-> _]|[_ ->]]; [lia|done].
Qed.

Lemma clz64_spec u : 0 < u < 2 ^ 64 -> 0 <= clz64 u <= 63 /\ 2 ^ 63 <= u * 2 ^ clz64 u < 2 ^ 64.
Proof.
  intros H. unfold clz64. pose proof (Z.log2_spec u ltac:(lia)) as [H1 H2]. pose proof (Z.log2_nonneg u).
  assert (Z.log2 u < 64) by (apply Z.log2_lt_pow2; lia). split; [lia|].
  assert (2 ^ Z.log2 u * 2 ^ (63 - Z.log2 u) = 2 ^ 63) by (rewrite <- Z.pow_add_r by lia; f_equal; lia).
  assert (2 ^ Z.succ (Z.log2 u) = 2 * 2 ^ Z.log2 u) by (by rewrite Z.pow_succ_r).
  assert (0 < 2 ^ (63 - Z.log2 u)) by (apply Z.pow_pos_nonneg; lia).
  set (A := 2 ^ Z.log2 u) in *. set (B := 2 ^ (63 - Z.log2 u)) in *. clearbody A B. nia.
Qed.

Lemma json_mantissa_spec u :
  0 < u < 2 ^ 63 ->
  exists m sh, json_mantissa u = (m, sh) /\ 2 ^ 52 <= m < 2 ^ 53 /\ -11 <= sh <= 52 /\
  (Z.log2 u <= 52 -> 0 <= sh /\ m = u * 2 ^ sh) /\
  (52 < Z.log2 u -> sh < 0 /\ exists r, nearest_even u (Z.log2 u - 52) r /\ m * 2 ^ (- sh) = r * 2 ^ (Z.log2 u - 52)).
Proof.
  intros Hu. unfold json_mantissa, clz64, IEEE754_DOUBLE_MANTISSA_SIZE, IEEE754_DOUBLE_MANTISSA_AMAX.
  pose proof (Z.log2_spec u ltac:(lia)) as [H1 H2]. pose proof (Z.log2_nonneg u).
  assert (Z.log2 u < 63) by (apply Z.log2_lt_pow2; lia). rewrite Z.pow_succ_r in H2 by done.
  set (l := Z.log2 u) in *. clearbody l. replace (63 - l - (64 - 52 - 1)) with (52 - l) by lia.
  destruct (decide (52 - l < 0)) as [Hs|Hs].
  2:{ assert (2 ^ l * 2 ^ (52 - l) = 2 ^ 52) by (rewrite <- Z.pow_add_r by lia; f_equal; lia).
    assert (0 < 2 ^ (52 - l)) by (apply Z.pow_pos_nonneg; lia). change (2 ^ 53) with (2 * 2 ^ 52).
    rewrite Z.shiftl_mul_pow2 by lia. assert (2 ^ 52 <= u * 2 ^ (52 - l) < 2 * 2 ^ 52) by nia.
    rewrite u64_small by (unfold UINT64_MAX; lia). exists (u * 2 ^ (52 - l)), (52 - l). split_and!; try lia. done. }
  set (s := l - 52). replace (52 - l) with (- s) by lia.
  assert (2 ^ l = 2 ^ 52 * 2 ^ s) as El by (unfold s; rewrite <- Z.pow_add_r by lia; f_equal; lia).
  assert (0 < 2 ^ s) by (apply Z.pow_pos_nonneg; lia).
  destruct (round_mantissa_spec u s) as [Hr Hq]; [lia|lia|].
  assert (2 ^ 52 <= u / 2 ^ s <= 2 ^ 53 - 1) as Hb.
  { split; [apply Z.div_le_lower_bound; lia|]. apply Z.lt_le_pred, Z.div_lt_upper_bound; lia. }
  set (r := round_mantissa u (- s)) in *. clearbody r. case_decide as Hbig.
  2:{ exists r, (- s). split_and!; try lia; [done|]. intros _. split; [lia|]. exists r. split; [done|]. by rewrite Z.opp_involutive. }
  assert (r = 2 ^ 53) as -> by lia. replace (- s - 1) with (- (s + 1)) by lia.
  destruct (round_mantissa_spec u (s + 1)) as [[Hr' _] Hq']; [lia|lia|].
  assert (2 ^ (s + 1) = 2 * 2 ^ s) as E1 by (rewrite Z.pow_add_r by lia; lia).
  assert (u / 2 ^ (s + 1) = 2 ^ 52 - 1) as E2.
  { rewrite E1, Z.mul_comm, <- Z.div_div by lia. assert (u / 2 ^ s = 2 ^ 53 - 1) as -> by lia. done. }
  destruct Hr as [Hr Htie]. rewrite E1 in *. rewrite E2 in Hq'. assert (round_mantissa u (- (s + 1)) = 2 ^ 52) as ->.
  { assert (round_mantissa u (- (s + 1)) = 2 ^ 52 - 1 \/ round_mantissa u (- (s + 1)) = 2 ^ 52) as [ER|ER] by lia; [|done].
    rewrite ER in Hr'. lia. }
  exists (2 ^ 52), (- (s + 1)). split_and!; try lia; [done|]. intros _. split; [lia|]. exists (2 ^ 53).
  split; [by split|]. rewrite Z.opp_involutive, E1. lia.
Qed.

(** The bits with exponent [1075 - sh] and this mantissa. *)
Lemma magnitude_json m sh :
  2 ^ 52 <= m < 2 ^ 53 -> -11 <= sh <= 52 ->
  0 <= Z.shiftl (json_exponent sh) 52 + (m - 2 ^ 52) < 2 ^ 63 /\
  magnitude 52 (Z.shiftl (json_exponent sh) 52 + (m - 2 ^ 52)) = m * 2 ^ (1074 - sh).
Proof.
  intros Hm Hsh. unfold json_exponent, IEEE754_DOUBLE_EXPONENTA_BIAS, IEEE754_DOUBLE_MANTISSA_SIZE.
  rewrite u64_small by (unfold UINT64_MAX; lia). rewrite Z.shiftl_mul_pow2 by lia. split; [lia|]. unfold magnitude.
  assert (((1023 + 52 - sh) * 2 ^ 52 + (m - 2 ^ 52)) / 2 ^ 52 = 1023 + 52 - sh) as -> by (symmetry; apply Z.div_unique with (m - 2 ^ 52); lia).
  assert (((1023 + 52 - sh) * 2 ^ 52 + (m - 2 ^ 52)) mod 2 ^ 52 = m - 2 ^ 52) as -> by (symmetry; apply Z.mod_unique with (1023 + 52 - sh); lia).
  rewrite decide_False by lia. f_equal; [lia|f_equal; lia].
Qed.

(** The sign of the number is that of the integer, the key as [double2key] makes it. *)
Lemma json_key_spec j :
  - 2 ^ 63 < j < 2 ^ 63 -> j <> 0 ->
  exists m sh key, json_mantissa (Z.abs j) = (m, sh) /\ mdbx_key_from_jsonInteger j = Some key /\
  key = (if decide (j > 0) then 2 ^ 63 + (Z.shiftl (json_exponent sh) 52 + (m - 2 ^ 52))
         else 2 ^ 63 - 1 - (Z.shiftl (json_exponent sh) 52 + (m - 2 ^ 52))) /\
  0 <= key < 2 ^ 64 /\ double_num (key2double (s64 key)) = Z.sgn j * (m * 2 ^ (1074 - sh)).
Proof.
  intros Hj H0. destruct (json_mantissa_spec (Z.abs j)) as (m & sh & E & Hm & Hsh & _); [lia|].
  destruct (magnitude_json m sh Hm Hsh) as [Hx Hmag]. exists m, sh. unfold mdbx_key_from_jsonInteger.
  unfold IEEE754_DOUBLE_MANTISSA_SIZE, IEEE754_DOUBLE_IMPLICIT_LEAD. change 0x0010000000000000 with (2 ^ 52).
  change 0x8000000000000000 with (2 ^ 63).
  set (e := Z.shiftl (json_exponent sh) 52) in *.
  destruct (decide (j > 0)).
  - rewrite Z.abs_eq in E by lia. rewrite E. eexists. split; [by rewrite Z.abs_eq by lia|]. split; [done|].
    rewrite (u64_wrap 0) by lia. split_and!; [lia..|]. rewrite key2double_spec by lia. rewrite decide_True by lia.
    unfold double_num, ieee_num. change (2 ^ (64 - 1)) with (2 ^ 63). rewrite decide_True by lia.
    rewrite Z.sgn_pos by lia. rewrite <- Hmag, Z.mul_1_l. f_equal. lia.
  - rewrite Z.abs_neq in E by lia. rewrite decide_True by lia. rewrite decide_False by lia. rewrite E.
    eexists. split; [by rewrite Z.abs_neq by lia|]. split; [done|].
    rewrite (u64_wrap 0) by lia. split_and!; [lia..|]. rewrite key2double_spec by lia. rewrite decide_False by lia.
    unfold double_num, ieee_num. change (2 ^ (64 - 1)) with (2 ^ 63). rewrite decide_False by lia.
    rewrite Z.sgn_neg by lia. rewrite <- Hmag.
    match goal with |- - ?a = -1 * ?b => enough (a = b) by lia end. f_equal. lia.
Qed.

(** An integer of at most 53 bits comes back. *)
Lemma json_back uok j m sh key :
  j <> 0 -> json_mantissa (Z.abs j) = (m, sh) -> 2 ^ 52 <= m < 2 ^ 53 -> 0 <= sh <= 52 -> m = Z.abs j * 2 ^ sh ->
  key = (if decide (j > 0) then 2 ^ 63 + (Z.shiftl (json_exponent sh) 52 + (m - 2 ^ 52))
         else 2 ^ 63 - 1 - (Z.shiftl (json_exponent sh) 52 + (m - 2 ^ 52))) ->
  0 <= key < 2 ^ 64 ->
  mdbx_jsonInteger_from_key uok (le_bytes 8 key) = Some j.
Proof.
  intros H0 Em Hm Hsh Hj Hkey Hk. unfold mdbx_jsonInteger_from_key. rewrite peek_u64_key by done. cbn [mbind option_bind].
  change 0x8000000000000000 with (2 ^ 63). unfold IEEE754_DOUBLE_MANTISSA_SIZE, IEEE754_DOUBLE_MANTISSA_MASK.
  destruct (magnitude_json m sh Hm) as [Hx _]; [lia|]. set (x := Z.shiftl (json_exponent sh) 52 + (m - 2 ^ 52)) in *.
  assert (x = (1075 - sh) * 2 ^ 52 + (m - 2 ^ 52)) as Ex.
  { unfold x, json_exponent, IEEE754_DOUBLE_EXPONENTA_BIAS, IEEE754_DOUBLE_MANTISSA_SIZE.
    rewrite u64_small by (unfold UINT64_MAX; lia). rewrite Z.shiftl_mul_pow2 by lia. lia. }
  assert ((if decide (key > 2 ^ 63) then u64 (key - 2 ^ 63) else u64 (u64 (2 ^ 63 - key) - 1)) = x) as ->.
  { destruct (decide (j > 0)).
    - rewrite decide_True by lia. rewrite (u64_wrap 0); lia.
    - rewrite decide_False by lia. rewrite (u64_small (2 ^ 63 - key)) by (unfold UINT64_MAX; lia). rewrite (u64_wrap 0); lia. }
  assert (Z.shiftr x 52 = 1075 - sh) as ->.
  { rewrite Z.shiftr_div_pow2 by lia. symmetry. apply Z.div_unique with (m - 2 ^ 52); lia. }
  rewrite s32_small by lia. change IEEE754_DOUBLE_EXPONENTA_MAX with (Z.ones 11).
  rewrite Z.land_comm, Z.land_ones, Z.mod_small by lia.
  change (IEEE754_DOUBLE_EXPONENTA_BIAS + 63 - (1075 - sh)) with (1086 - (1075 - sh)).
  replace (1086 - (1075 - sh)) with (11 + sh) by lia. rewrite decide_False, decide_False by lia.
  change 0x000FFFFFFFFFFFFF with (Z.ones 52). rewrite Z.land_ones by lia.
  assert (x mod 2 ^ 52 = m - 2 ^ 52) as -> by (symmetry; apply Z.mod_unique with (1075 - sh); lia).
  rewrite Z.shiftl_mul_pow2 by lia. rewrite (u64_small ((m - 2 ^ 52) * _)) by (unfold UINT64_MAX; lia).
  rewrite u64_small by (unfold UINT64_MAX; lia).
  assert (Z.shiftr ((m - 2 ^ 52) * 2 ^ (63 - 52) + 2 ^ 63) (11 + sh) = Z.abs j) as ->.
  { rewrite Z.shiftr_div_pow2, Z.pow_add_r by lia. assert (0 < 2 ^ sh) by (apply Z.pow_pos_nonneg; lia).
    symmetry. apply Z.div_unique with 0; lia. }
  assert (Z.abs j < 2 ^ 53).
  { assert (1 <= 2 ^ sh) by (assert (0 < 2 ^ sh) by (apply Z.pow_pos_nonneg; lia); lia). nia. }
  rewrite s64_small by lia. f_equal. destruct (decide (j > 0)); [rewrite decide_False by lia|rewrite decide_True by lia]; lia.
Qed.

(** ** The first set bit without the builtin *)

(** [x] with the bits spread down over [w] places. *)
Definition spread (w v x : Z) : Prop :=
  forall n, 0 <= n -> (Z.testbit x n = true <-> exists k, 0 <= k < w /\ Z.testbit v (n + k) = true).

Lemma spread_step w v x : 0 < w -> spread w v x -> spread (2 * w) v (Z.lor x (Z.shiftr x w)).
Proof.
  intros Hw H n Hn. rewrite Z.lor_spec, Z.shiftr_spec, orb_true_iff, (H n), (H (n + w)) by lia. split.
  - intros [(k & Hk & E)|(k & Hk & E)]; [by exists k; split; [lia|]|exists (w + k)]. split; [lia|]. by rewrite Z.add_assoc.
  - intros (k & Hk & E). destruct (decide (k < w)); [left; by exists k; split; [lia|]|right; exists (k - w)].
    split; [lia|]. by replace (n + w + (k - w)) with (n + k) by lia.
Qed.

Lemma spread_ones v x : 0 < v < 2 ^ 64 -> spread 64 v x -> 0 <= x -> x = Z.ones (Z.log2 v + 1).
Proof.
  intros Hv H Hx. pose proof (Z.log2_nonneg v). assert (Z.log2 v < 64) by (apply Z.log2_lt_pow2; lia).
  apply Z.bits_inj'. intros n Hn. rewrite Z.testbit_ones_nonneg by lia.
  apply eq_true_iff_eq. rewrite (H n Hn), Z.ltb_lt. split.
  - intros (k & Hk & E). destruct (decide (Z.log2 v < n + k)); [|lia]. by rewrite Z.bits_above_log2 in E by lia.
  - intros Hlt. exists (Z.log2 v - n). split; [lia|]. replace (n + (Z.log2 v - n)) with (Z.log2 v) by lia. apply Z.bit_log2. lia.
Qed.

Definition debruijn_entry_ok (l : nat) : bool :=
  bool_decide (rd debruijn_clz64 (Z.to_nat (Z.shiftr (u64 (Z.ones (Z.of_nat l + 1) * 0x03F79D71B4CB0A89)) 58)) = Some (63 - Z.of_nat l)).

Lemma debruijn_all : forallb debruijn_entry_ok (seq 0 64) = true.
Proof. vm_compute. reflexivity. Qed.

(** ** Properties *)

(** The keys of doubles, floats and integers are ordered like the numbers
    (so that only the two zeros, which are equal numbers, have different keys),
    and every number comes back from its key bit for bit. *)
Theorem number_keys_correct uok a b f g i j k l :
  0 <= a < 2 ^ 64 -> 0 <= b < 2 ^ 64 -> 0 <= f < 2 ^ 32 -> 0 <= g < 2 ^ 32 ->
  - 2 ^ 63 <= i < 2 ^ 63 -> - 2 ^ 63 <= j < 2 ^ 63 -> - 2 ^ 31 <= k < 2 ^ 31 -> - 2 ^ 31 <= l < 2 ^ 31 ->
  ((double_num a < double_num b -> mdbx_key_from_double a < mdbx_key_from_double b) /\
    (mdbx_key_from_double a < mdbx_key_from_double b -> double_num a <= double_num b) /\
    mdbx_double_from_key uok (le_bytes 8 (mdbx_key_from_double a)) = Some a) /\
  ((float_num f < float_num g -> mdbx_key_from_float f < mdbx_key_from_float g) /\
    (mdbx_key_from_float f < mdbx_key_from_float g -> float_num f <= float_num g) /\
    mdbx_float_from_key uok (le_bytes 4 (mdbx_key_from_float f)) = Some f) /\
  ((mdbx_key_from_int64 i < mdbx_key_from_int64 j <-> i < j) /\
    mdbx_int64_from_key uok (le_bytes 8 (mdbx_key_from_int64 i)) = Some i) /\
  ((mdbx_key_from_int32 k < mdbx_key_from_int32 l <-> k < l) /\
    mdbx_int32_from_key uok (le_bytes 4 (mdbx_key_from_int32 k)) = Some k).
Proof.
  intros Ha Hb Hf Hg Hi Hj Hk Hl. split_and!.
  - apply (ieee_key_order 64 52 double2key a b); [lia|lia|exact double2key_spec|done|done].
  - apply (ieee_key_order 64 52 double2key a b); [lia|lia|exact double2key_spec|done|done].
  - unfold mdbx_double_from_key, mdbx_key_from_double. rewrite double2key_spec by done.
    rewrite peek_u64_key by (case_decide; lia). cbn [mbind option_bind]. f_equal.
    rewrite key2double_spec by (case_decide; lia). repeat case_decide; lia.
  - apply (ieee_key_order 32 23 float2key f g); [lia|lia|exact float2key_spec|done|done].
  - apply (ieee_key_order 32 23 float2key f g); [lia|lia|exact float2key_spec|done|done].
  - unfold mdbx_float_from_key, mdbx_key_from_float. rewrite float2key_spec by done.
    rewrite peek_u32_key by (case_decide; lia). cbn [mbind option_bind]. f_equal.
    rewrite key2float_spec by (case_decide; lia). repeat case_decide; lia.
  - unfold mdbx_key_from_int64. rewrite !u64_small by (unfold UINT64_MAX; lia). lia.
  - unfold mdbx_int64_from_key, mdbx_key_from_int64. rewrite u64_small by (unfold UINT64_MAX; lia).
    rewrite peek_u64_key by lia. cbn [mbind option_bind]. f_equal.
    replace (_ + i - _) with i by lia. destruct (decide (0 <= i)); [rewrite (u64_wrap 0) by lia|rewrite (u64_wrap 1) by lia];
      rewrite s64_unsigned by lia; case_decide; lia.
  - unfold mdbx_key_from_int32. rewrite !u32_small by (unfold UINT32_MAX; lia). lia.
  - unfold mdbx_int32_from_key, mdbx_key_from_int32. rewrite u32_small by (unfold UINT32_MAX; lia).
    rewrite peek_u32_key by lia. cbn [mbind option_bind]. f_equal.
    replace (_ + k - _) with k by lia. destruct (decide (0 <= k)); [rewrite (u32_wrap 0) by lia|rewrite (u32_wrap 1) by lia];
      rewrite s32_unsigned by lia; case_decide; lia.
Qed.

(** The key of a JSON integer is the key of a double, namely of the nearest
    one, with ties to the even mantissa: up to 53 bits the number itself, which
    also comes back from the key (but for zero, see [json_zero_key]), else a
    multiple of the unit of its binade. *)
Theorem json_key_nearest uok j :
  - 2 ^ 63 < j < 2 ^ 63 -> j <> 0 ->
  exists key, mdbx_key_from_jsonInteger j = Some key /\ 0 <= key < 2 ^ 64 /\
  (Z.abs j < 2 ^ 53 ->
    double_num (key2double (s64 key)) = j * 2 ^ 1074 /\ mdbx_jsonInteger_from_key uok (le_bytes 8 key) = Some j) /\
  (2 ^ 53 <= Z.abs j -> exists r,
    nearest_even (Z.abs j) (Z.log2 (Z.abs j) - 52) r /\
    double_num (key2double (s64 key)) = Z.sgn j * (r * 2 ^ (Z.log2 (Z.abs j) - 52)) * 2 ^ 1074).
Proof.
  intros Hj H0. destruct (json_key_spec j Hj H0) as (m & sh & key & Em & Ek & Hkey & Hk & Hnum).
  destruct (json_mantissa_spec (Z.abs j)) as (m' & sh' & Em' & Hm & Hsh & Hsmall & Hbig); [lia|].
  rewrite Em in Em'. injection Em' as <- <-. exists key. split; [done|]. split; [done|]. split.
  - intros Hlt. destruct Hsmall as [Hsh0 Hmj]; [apply Z.lt_succ_r, Z.log2_lt_pow2; lia|]. split.
    + rewrite Hnum, Hmj. replace (Z.abs j * 2 ^ sh * 2 ^ (1074 - sh)) with (Z.abs j * 2 ^ 1074); [pose proof (Z.sgn_abs j); nia|].
      rewrite <- Z.mul_assoc, <- Z.pow_add_r by lia. do 2 f_equal. lia.
    + apply (json_back uok j m sh key); done || lia.
  - intros Hge. destruct Hbig as [Hsh0 (r & Hr & E)]; [apply Z.lt_le_trans with 53; [lia|by apply Z.log2_le_pow2; lia]|].
    exists r. split; [done|]. rewrite Hnum. replace (1074 - sh) with (- sh + 1074) by lia.
    rewrite Z.pow_add_r, (Z.mul_assoc m), E by lia. lia.
Qed.

(** The key of the JSON integer zero comes back as [INT64_MAX]. *)
Theorem json_zero_key uok :
  mdbx_key_from_jsonInteger 0 = Some 0x8000000000000000 /\
  mdbx_jsonInteger_from_key uok (le_bytes 8 0x8000000000000000) = Some INT64_MAX.
Proof. split; [done|]. unfold mdbx_jsonInteger_from_key. by rewrite peek_u64_key. Qed.

(** Counting the leading zeros with the de Bruijn sequence gives what the
    builtin of the compiler gives. *)
Theorem clz64_portable_correct v : 0 < v < 2 ^ 64 -> clz64_portable v = Some (clz64 v).
Proof.
  intros Hv. unfold clz64_portable, clz64.
  assert (spread 1 v v) as H.
  { intros n Hn. split; [intros E; exists 0; by rewrite Z.add_0_r|]. intros (k & Hk & E). replace (n + k) with n in E by lia. done. }
  do 6 (apply spread_step in H; [|lia]).
  change (2 * 1) with 2 in H. change (2 * 2) with 4 in H. change (2 * 4) with 8 in H. change (2 * 8) with 16 in H.
  change (2 * 16) with 32 in H. change (2 * 32) with 64 in H.
  match type of H with spread _ _ ?x => assert (x = Z.ones (Z.log2 v + 1)) as E end.
  { apply spread_ones; [done|exact H|]. repeat (apply Z.lor_nonneg; split); repeat (apply Z.shiftr_nonneg || apply Z.lor_nonneg; try split); lia. }
  rewrite E. pose proof (Z.log2_nonneg v). assert (Z.log2 v < 64) by (apply Z.log2_lt_pow2; lia).
  pose proof debruijn_all as Hall. rewrite forallb_forall in Hall. specialize (Hall (Z.to_nat (Z.log2 v))).
  unfold debruijn_entry_ok in Hall. rewrite Z2Nat.id in Hall by done. eapply bool_decide_eq_true_1, Hall, in_seq. lia.
Qed.

Lemma number_keys_correct_witness :
  mdbx_key_from_double 0xC000000000000000 < mdbx_key_from_double 0x3FF0000000000000 /\
  mdbx_int64_from_key 8 (le_bytes 8 (mdbx_key_from_int64 (-5))) = Some (-5).
Proof.
  destruct (number_keys_correct 8 0xC000000000000000 0x3FF0000000000000 0 0 (-5) 0 0 0) as ((H1 & _) & _ & (_ & H2) & _);
    [split; [discriminate|reflexivity]..|].
  split; [apply H1; vm_compute; reflexivity|exact H2].
Defined.

Lemma json_key_nearest_witness :
  exists key, mdbx_key_from_jsonInteger (-7) = Some key /\ double_num (key2double (s64 key)) = -7 * 2 ^ 1074 /\
  mdbx_jsonInteger_from_key 8 (le_bytes 8 key) = Some (-7).
Proof.
  destruct (json_key_nearest 8 (-7)) as (key & E & _ & H & _); [split; reflexivity|discriminate|].
  exists key. destruct H as [H1 H2]; [reflexivity|]. split; [exact E|]. split; [exact H1|exact H2].
Defined.

Lemma clz64_portable_correct_witness : clz64_portable 77 = Some 57.
Proof. rewrite (clz64_portable_correct 77); [reflexivity|split; reflexivity]. Defined.
