(* ===== verification/Page.v ===== *)
(** * Pages and nodes of the B-tree

    A page is a header and a body: the table [entries] of 16-bit offsets grows
    from its begin, the nodes from its end, and [lower] and [upper] bound the free
    space between them.  Offsets count from the begin of the body, as in the
    source, where [PAGEHDRSZ] is added whenever a pointer is made.  [None] is an
    access outside of the body.  Unaligned loads of any kind are little endian
    loads (see the file CmpProps), so [load] stands for all of them. *)

From S2P Require Import Prelude Meta Cmp.

Definition P_BRANCH : Z := 0x01.
Definition P_LEAF : Z := 0x02.
Definition P_DUPFIX : Z := 0x20.
Definition P_SUBP : Z := 0x40.
Definition N_BIG : Z := 0x01.
Definition N_TREE : Z := 0x02.
Definition N_DUP : Z := 0x04.
Definition MDBX_RESERVE : Z := 0x10000.
Definition MDBX_TXN_ERROR : Z := 0x02.
Definition MDBX_PAGE_FULL : Z := -30786.
Definition PAGEHDRSZ : Z := 20.
Definition NODESIZE : Z := 8.
Definition sizeof_indx_t : Z := 2.
Definition sizeof_pgno_t : Z := 4.

Record page_t := mk_page {
  page_txnid : Z;
  dupfix_ksize : Z;
  page_flags : Z;
  page_lower : Z;
  page_upper : Z;
  page_pgno : Z;
  page_body : list Z
}.

Definition with_body (p : page_t) (b : list Z) : page_t :=
  mk_page (page_txnid p) (dupfix_ksize p) (page_flags p) (page_lower p) (page_upper p) (page_pgno p) b.
Definition with_bounds (p : page_t) (lower upper : Z) : page_t :=
  mk_page (page_txnid p) (dupfix_ksize p) (page_flags p) lower upper (page_pgno p) (page_body p).

Definition is_leaf (mp : page_t) : bool := bool_decide (Z.land (page_flags mp) P_LEAF <> 0).
Definition is_dupfix_leaf (mp : page_t) : bool := bool_decide (Z.land (page_flags mp) P_DUPFIX <> 0).
Definition is_branch (mp : page_t) : bool := bool_decide (Z.land (page_flags mp) P_BRANCH <> 0).
Definition is_subpage (mp : page_t) : bool := bool_decide (Z.land (page_flags mp) P_SUBP <> 0).

(** [EVEN_CEIL] and [EVEN_FLOOR] on [size_t]. *)
Definition EVEN_CEIL (n : Z) : Z := Z.land (u64 (n + 1)) (2 ^ 64 - 2).
Definition EVEN_FLOOR (n : Z) : Z := Z.land n (2 ^ 64 - 2).

(** ** Access to the body *)

(** An integer of [n] bytes is stored at [off]. *)
Definition store (n : nat) (b : list Z) (off : nat) (v : Z) : option (list Z) :=
  blit (le_bytes n v) 0 b off n.
(** [memcpy] of all of [src] to [off] *)
Definition memcpy (b : list Z) (off : nat) (src : list Z) : option (list Z) :=
  blit src 0 b off (length src).
(** [memmove] inside of the body *)
Definition memmove (b : list Z) (to from n : nat) : option (list Z) := blit b from b to n.

Definition entry (b : list Z) (i : nat) : option Z := load 2 b (2 * i).
Definition set_entry (b : list Z) (i : nat) (v : Z) : option (list Z) := store 2 b (2 * i) v.

Definition page_numkeys (mp : page_t) : nat := Z.to_nat (Z.shiftr (page_lower mp) 1).
Definition page_room (mp : page_t) : Z := page_upper mp - page_lower mp.
Definition page_space (ps : Z) : Z := u64 (ps - PAGEHDRSZ).
Definition page_used (ps : Z) (mp : page_t) : Z := u64 (page_space ps - page_room mp).

(** The offset of node [i]. *)
Definition page_node (mp : page_t) (i : nat) : option nat := e ← entry (page_body mp) i; Some (Z.to_nat e).
(** The offset of item [i] of a page of fixed size keys. *)
Definition page_dupfix_ptr (mp : page_t) (i : nat) : nat := Z.to_nat (dupfix_ksize mp * u16 (Z.of_nat i)).

(** ** Fields of a node at [off] *)

Definition node_pgno (b : list Z) (off : nat) : option Z := load 4 b off.
Definition node_ds (b : list Z) (off : nat) : option Z := load 4 b off.
Definition node_flags (b : list Z) (off : nat) : option Z := rd b (off + 4).
Definition node_ks (b : list Z) (off : nat) : option Z := load 2 b (off + 6).
Definition node_set_pgno (b : list Z) (off : nat) (pgno : Z) : option (list Z) := store 4 b off pgno.
Definition node_set_ds (b : list Z) (off : nat) (size : Z) : option (list Z) := store 4 b off size.
Definition node_set_ks (b : list Z) (off : nat) (size : Z) : option (list Z) := store 2 b (off + 6) size.
Definition node_set_flags (b : list Z) (off : nat) (flags : Z) : option (list Z) := wr b (off + 4) flags.
Definition node_set_extra (b : list Z) (off : nat) (extra : Z) : option (list Z) := wr b (off + 5) extra.
Definition node_key (off : nat) : nat := (off + 8)%nat.
Definition node_data (b : list Z) (off : nat) : option nat := ks ← node_ks b off; Some (node_key off + Z.to_nat ks)%nat.

Definition bytes_at (b : list Z) (off n : nat) : option (list Z) :=
  if decide (off + n <= length b)%nat then Some (take n (drop off b)) else None.
Definition get_key (b : list Z) (off : nat) : option (list Z) :=
  ks ← node_ks b off; bytes_at b (node_key off) (Z.to_nat ks).
Definition page_dupfix_key (mp : page_t) (i : nat) : option (list Z) :=
  bytes_at (page_body mp) (page_dupfix_ptr mp i) (Z.to_nat (dupfix_ksize mp)).

(** ** Sizes *)

Definition node_size_len (key_len value_len : Z) : Z := u64 (NODESIZE + EVEN_CEIL (u64 (key_len + value_len))).
(** A value in memory: its length, and the bytes that may be read at its base.
    These are more or less than the length says where only a part is used. *)
Record MDBX_val := mk_val { iov_len : Z; iov_mem : list Z }.
Definition val_of (l : list Z) : MDBX_val := mk_val (Z.of_nat (length l)) l.

Definition node_size (key value : option MDBX_val) : Z :=
  node_size_len (if key is Some k then iov_len k else 0) (if value is Some v then iov_len v else 0).

Definition leaf_size (leaf_nodemax : Z) (key data : MDBX_val) : Z :=
  let node_bytes := node_size (Some key) (Some data) in
  u64 ((if decide (node_bytes > leaf_nodemax) then u64 (node_size_len (iov_len key) 0 + sizeof_pgno_t) else node_bytes)
    + sizeof_indx_t).

(** [None] is the panic about a key which does not fit. *)
Definition branch_size (branch_nodemax : Z) (key : option MDBX_val) : option Z :=
  let node_bytes := node_size key None in
  if decide (node_bytes > branch_nodemax) then None else Some (u64 (node_bytes + sizeof_indx_t)).

Definition PAGESPACE (pagesize : Z) : Z := pagesize - PAGEHDRSZ.
Definition BRANCH_NODE_MAX (pagesize : Z) : Z :=
  EVEN_FLOOR ((PAGESPACE pagesize - sizeof_indx_t - NODESIZE) / (3 - 1) - sizeof_indx_t).
Definition LEAF_NODE_MAX (pagesize : Z) : Z := EVEN_FLOOR (PAGESPACE pagesize / 2) - sizeof_indx_t.

(** [largechunk_npages] *)
Definition largechunk_npages (ps2ln bytes : Z) : Z := u32 (u32 (Z.shiftr (u64 (PAGEHDRSZ - 1 + bytes)) ps2ln) + 1).

(** ** Adding and removing nodes

    The results carry the flags of the transaction, which get [MDBX_TXN_ERROR]
    when a page is full. *)

(** [for (i = nkeys; i > indx; --i) entries[i] = entries[i - 1]], [n] turns *)
Fixpoint shift_entries (n : nat) (b : list Z) (i : nat) : option (list Z) :=
  match n with
  | O => Some b
  | S n => e ← entry b (i - 1); b ← set_entry b i e; shift_entries n b (i - 1)
  end.

Definition node_add_dupfix (txn_flags dupfix_size : Z) (mp : page_t) (indx : nat) (key : list Z) : option (Z * page_t * Z) :=
  let ksize := Z.to_nat dupfix_size in
  let nkeys := page_numkeys mp in
  let lower := page_lower mp + sizeof_indx_t in
  let upper := page_upper mp - (dupfix_size - sizeof_indx_t) in
  if decide (lower > upper) then Some (MDBX_PAGE_FULL, mp, Z.lor txn_flags MDBX_TXN_ERROR)
  else
    let mp := with_bounds mp (u16 lower) (u16 upper) in
    let ptr := page_dupfix_ptr mp indx in
    let diff := (nkeys - indx)%nat in
    b ← (if decide (0 < diff)%nat then memmove (page_body mp) (ptr + ksize) ptr (diff * ksize) else Some (page_body mp));
    key ← bytes_at key 0 ksize;
    b ← memcpy b ptr key;
    Some (MDBX_SUCCESS, with_body mp b, txn_flags).

Definition node_add_branch (branch_nodemax txn_flags : Z) (mp : page_t) (indx : nat) (key : option (list Z)) (pgno : Z)
  : option (Z * page_t * Z) :=
  branch_bytes ← branch_size branch_nodemax (val_of <$> key);
  let lower := page_lower mp + sizeof_indx_t in
  let upper := page_upper mp - (branch_bytes - sizeof_indx_t) in
  if decide (lower > upper) then Some (MDBX_PAGE_FULL, mp, Z.lor txn_flags MDBX_TXN_ERROR)
  else
    let nkeys := page_numkeys mp in
    b ← shift_entries (nkeys - indx) (page_body mp) nkeys;
    b ← set_entry b indx (u16 upper);
    let mp := with_bounds (with_body mp b) (u16 lower) (u16 upper) in
    node ← page_node mp indx;
    b ← node_set_pgno b node pgno;
    b ← node_set_flags b node 0;
    b ← node_set_extra b node 0;
    b ← node_set_ks b node 0;
    b ← match key with
        | Some key => b ← node_set_ks b node (Z.of_nat (length key)); memcpy b (node_key node) key
        | None => Some b
        end;
    Some (MDBX_SUCCESS, with_body mp b, txn_flags).

(** Where the value of a new node is. *)
Inductive place :=
| in_page (off : nat)       (* in the page, at this offset *)
| in_large (pgno : Z).      (* at the begin of a large page *)

Record leaf_added := mk_leaf_added {
  la_rc : Z;
  la_page : page_t;
  la_txn_flags : Z;
  la_large : option (Z * list Z);  (* the large page that was written, with its value *)
  la_reserved : option place       (* [data->iov_base] after [MDBX_RESERVE] *)
}.

Definition leaf_failed (rc : Z) (mp : page_t) (txn_flags : Z) : leaf_added := mk_leaf_added rc mp txn_flags None None.

(** The end of [node_add_leaf]: the value, or the number of the large page it is
    on, is written at [nodedata] of the body [b]. *)
Definition leaf_value (txn_flags : Z) (mp : page_t) (b : list Z) (nodedata : nat) (data : MDBX_val) (flags : Z)
  (largepage : option Z) : option leaf_added :=
    match largepage with
    | None =>
        if decide (Z.land flags N_BIG <> 0) then
          pgno ← bytes_at (iov_mem data) 0 4; b ← memcpy b nodedata pgno;
          Some (mk_leaf_added MDBX_SUCCESS (with_body mp b) txn_flags None None)
        else if decide (Z.land flags MDBX_RESERVE <> 0) then
          Some (mk_leaf_added MDBX_SUCCESS (with_body mp b) txn_flags None (Some (in_page nodedata)))
        else
          value ← bytes_at (iov_mem data) 0 (Z.to_nat (iov_len data));
          b ← memcpy b nodedata value;
          Some (mk_leaf_added MDBX_SUCCESS (with_body mp b) txn_flags None None)
    | Some pgno =>
        b ← store 4 b nodedata pgno;
        if decide (Z.land flags MDBX_RESERVE <> 0) then
          Some (mk_leaf_added MDBX_SUCCESS (with_body mp b) txn_flags (Some (pgno, [])) (Some (in_large pgno)))
        else
          value ← bytes_at (iov_mem data) 0 (Z.to_nat (iov_len data));
          Some (mk_leaf_added MDBX_SUCCESS (with_body mp b) txn_flags (Some (pgno, value)) None)
    end.

(** The part of [node_add_leaf] behind the choice of the size; [largepage] is the
    number of the large page when one was allocated. *)
Definition leaf_put (txn_flags : Z) (mp : page_t) (indx : nat) (key : list Z) (data : MDBX_val) (flags node_bytes : Z) (largepage : option Z)
  : option leaf_added :=
  let nkeys := page_numkeys mp in
  b ← shift_entries (nkeys - indx) (page_body mp) nkeys;
  let lower := page_lower mp + sizeof_indx_t in
  let upper := page_upper mp - (node_bytes - sizeof_indx_t) in
  if decide (lower > upper) then Some (leaf_failed MDBX_PAGE_FULL (with_body mp b) (Z.lor txn_flags MDBX_TXN_ERROR))
  else
    b ← set_entry b indx (u16 upper);
    let mp := with_bounds (with_body mp b) (u16 lower) (u16 upper) in
    node ← page_node mp indx;
    b ← node_set_ks b node (Z.of_nat (length key));
    b ← node_set_flags b node (u8 flags);
    b ← node_set_extra b node 0;
    b ← node_set_ds b node (iov_len data);
    b ← memcpy b (node_key node) key;
    nodedata ← node_data b node;
    leaf_value txn_flags mp b nodedata data flags largepage.

(** [page_new_large] gives the number of a large page or an error. *)
Definition node_add_leaf (page_new_large : Z -> Z + Z) (ps2ln leaf_nodemax tree_flags txn_flags : Z)
  (mp : page_t) (indx : nat) (key : list Z) (data : MDBX_val) (flags : Z) : option leaf_added :=
    if decide (Z.land flags N_BIG <> 0) then
      leaf_put txn_flags mp indx key data flags
        (u64 (node_size_len (Z.of_nat (length key)) 0 + sizeof_pgno_t + sizeof_indx_t)) None
    else if decide (node_size (Some (val_of key)) (Some data) > leaf_nodemax) then
      if decide (Z.land tree_flags MDBX_DUPSORT <> 0) then Some (leaf_failed MDBX_PROBLEM mp txn_flags)
      else if decide (Z.land flags (Z.lor N_DUP N_TREE) <> 0) then Some (leaf_failed MDBX_PROBLEM mp txn_flags)
      else
        match page_new_large (largechunk_npages ps2ln (iov_len data)) with
        | inl err => Some (leaf_failed err mp txn_flags)
        | inr pgno =>
            leaf_put txn_flags mp indx key data (Z.lor flags N_BIG)
              (u64 (node_size_len (Z.of_nat (length key)) 0 + sizeof_pgno_t + sizeof_indx_t)) (Some pgno)
        end
    else leaf_put txn_flags mp indx key data flags (u64 (node_size (Some (val_of key)) (Some data) + sizeof_indx_t)) None.

(** The loop of [node_del] over the table: [r] reads and [w] writes, [n] turns. *)
Fixpoint close_entries (n : nat) (b : list Z) (r w hole : nat) (hole_offset hole_size : Z) : option (list Z) :=
  match n with
  | O => Some b
  | S n =>
      if decide (r <> hole) then
        e ← entry b r;
        b ← set_entry b w (if decide (e < hole_offset) then u16 (e + u16 hole_size) else e);
        close_entries n b (S r) (S w) hole hole_offset hole_size
      else close_entries n b (S r) w hole hole_offset hole_size
  end.

Definition node_del_dupfix (mp : page_t) (hole : nat) (ksize : Z) : option page_t :=
  let nkeys := page_numkeys mp in
  let diff := (nkeys - 1 - hole)%nat in
  let base := page_dupfix_ptr mp hole in
  b ← (if decide (diff <> 0)%nat then memmove (page_body mp) base (base + Z.to_nat ksize) (diff * Z.to_nat ksize)
       else Some (page_body mp));
  Some (with_bounds (with_body mp b) (u16 (page_lower mp - sizeof_indx_t))
    (u16 (page_upper mp + u16 (ksize - sizeof_indx_t)))).

(** The bytes that the node at [node] occupies. *)
Definition node_hole_size (mp : page_t) (node : nat) : option Z :=
  let b := page_body mp in
  ks ← node_ks b node;
  let hole_size := NODESIZE + ks in
  if is_leaf mp then
    flags ← node_flags b node;
    ds ← (if decide (Z.land flags N_BIG <> 0) then Some sizeof_pgno_t else node_ds b node);
    Some (EVEN_CEIL (u64 (hole_size + ds)))
  else Some (EVEN_CEIL hole_size).

Definition node_del (mp : page_t) (hole : nat) (ksize : Z) : option page_t :=
  if is_dupfix_leaf mp then node_del_dupfix mp hole ksize
  else
    let nkeys := page_numkeys mp in
    node ← page_node mp hole;
    hole_size ← node_hole_size mp node;
    hole_offset ← entry (page_body mp) hole;
    b ← close_entries nkeys (page_body mp) 0 0 hole hole_offset hole_size;
    let base := Z.to_nat (page_upper mp) in
    b ← memmove b (base + Z.to_nat hole_size) base (Z.to_nat (hole_offset - page_upper mp));
    Some (with_bounds (with_body mp b) (u16 (page_lower mp - sizeof_indx_t)) (u16 (page_upper mp + u16 hole_size))).

(** ** New pages and copies *)

(** What [page_new] makes of the page that it got; the counters of the tree are
    not part of the page. *)
Definition page_new (fresh : page_t) (flags ps : Z) : page_t :=
  mk_page (page_txnid fresh) (dupfix_ksize fresh) (u16 flags) 0 (u16 (ps - PAGEHDRSZ)) (page_pgno fresh) (page_body fresh).

Definition P_LARGE : Z := 0x04.

(** [page_copy] of the first [size] bytes of a page with header; [cacheline] is
    [MDBX_CACHELINE_SIZE].  [None] is the refusal of a source page that is corrupted. *)
Definition copy_used (cacheline : Z) (dst src : page_t) (size : Z) : option (list Z) :=
  if decide (Z.land (page_flags src) P_DUPFIX <> 0) then
    let copy_len := PAGEHDRSZ + dupfix_ksize src * Z.of_nat (page_numkeys src) in
    if decide (copy_len > size) then None
    else blit (page_body src) 0 (page_body dst) 0 (Z.to_nat (copy_len - PAGEHDRSZ))
  else if decide (Z.land (page_flags src) P_LARGE = 0 /\ page_room src > cacheline * 3) then
    let lower := ceil_powerof2 (page_lower src + PAGEHDRSZ) 8 in
    let upper := floor_powerof2 (page_upper src + PAGEHDRSZ) 8 in
    if decide (upper > size) then None
    else
      b ← blit (page_body src) 0 (page_body dst) 0 (Z.to_nat (lower - PAGEHDRSZ));
      blit (page_body src) (Z.to_nat (upper - PAGEHDRSZ)) b (Z.to_nat (upper - PAGEHDRSZ)) (Z.to_nat (size - upper))
  else blit (page_body src) 0 (page_body dst) 0 (Z.to_nat (size - PAGEHDRSZ)).

Definition page_copy (cacheline : Z) (dst src : page_t) (size : Z) : option page_t :=
  b ← copy_used cacheline dst src size; Some (with_body src b).
