(* ===== verification/PageFacts.v ===== *)
(** * Pages and nodes: the layout of a page and the steps of the node operations *)

From S2P Require Import Prelude Meta Cmp CmpProps Page.

(** ** Reading and writing a part of a body *)

Lemma store_app n (D1 Y D2 : list Z) off v :
  off = length D1 -> length Y = n -> store n (D1 ++ Y ++ D2) off v = Some (D1 ++ le_bytes n v ++ D2).
Proof.
  intros -> HY. unfold store. pose proof (blit_app [] (le_bytes n v) [] D1 Y D2 0 (length D1) n) as H.
  rewrite app_nil_l, app_nil_r in H. apply H; [done|done| |done]. clear. revert v. induction n; intros v; simpl; [done|by f_equal].
Qed.

Lemma memcpy_app (D1 Y D2 src : list Z) off :
  off = length D1 -> length Y = length src -> memcpy (D1 ++ Y ++ D2) off src = Some (D1 ++ src ++ D2).
Proof.
  intros -> HY. unfold memcpy. pose proof (blit_app [] src [] D1 Y D2 0 (length D1) (length src)) as H.
  rewrite app_nil_l, app_nil_r in H. by apply H.
Qed.

Lemma wr_app (D1 D2 : list Z) x off v : off = length D1 -> wr (D1 ++ x :: D2) off v = Some (D1 ++ v :: D2).
Proof.
  intros ->. rewrite wr_Some by (rewrite length_app; simpl; lia). by rewrite insert_app_r_alt, Nat.sub_diag by lia.
Qed.

Lemma rd_app (D1 D2 : list Z) x off : off = length D1 -> rd (D1 ++ x :: D2) off = Some x.
Proof. intros ->. unfold rd. by rewrite lookup_app_r, Nat.sub_diag by lia. Qed.

Lemma bytes_at_app (A w B : list Z) off n : off = length A -> n = length w -> bytes_at (A ++ w ++ B) off n = Some w.
Proof.
  intros -> ->. unfold bytes_at. rewrite decide_True by (rewrite !length_app; lia).
  by rewrite drop_app_length, take_app_length.
Qed.

Lemma length_le_bytes n v : length (le_bytes n v) = n.
Proof. revert v. induction n; intros v; simpl; [done|by f_equal]. Qed.

Lemma load_le_bytes n A B off v :
  off = length A -> 0 <= v < 2 ^ (8 * Z.of_nat n) -> load n (A ++ le_bytes n v ++ B) off = Some v.
Proof.
  intros -> Hv. destruct (le_bytes_spec n v Hv) as (_ & Hl & Hval). rewrite load_app by done. by rewrite Hval.
Qed.

(** Moving a segment up by [k] bytes overwrites the [k] bytes behind it. *)
Lemma memmove_up (D1 X Y D2 : list Z) k base :
  length Y = k -> base = length D1 ->
  exists G, length G = k /\ memmove (D1 ++ X ++ Y ++ D2) (base + k) base (length X) = Some (D1 ++ G ++ X ++ D2).
Proof.
  intros HY ->. exists (take k (X ++ Y)). split; [rewrite length_take, length_app; lia|].
  unfold memmove, blit. rewrite decide_True by (rewrite !length_app; lia). f_equal.
  rewrite drop_app_length, take_app_length, take_app_add, <- Nat.add_assoc, drop_app_add.
  assert (X ++ Y ++ D2 = (X ++ Y) ++ D2) as E by by rewrite app_assoc. rewrite E.
  rewrite take_app_le by (rewrite length_app; lia).
  replace (k + length X)%nat with (length (X ++ Y)) by (rewrite length_app; lia). rewrite drop_app_length.
  by rewrite <- !app_assoc.
Qed.

(** ** The table of offsets *)

Ltac cat_norm := repeat rewrite concat_app; cbn [concat app]; repeat rewrite app_nil_r; repeat rewrite <- app_assoc; cbn [concat app]; try reflexivity.

Definition chunks_ok (C : list (list Z)) : Prop := Forall (fun c => length c = 2%nat) C.

Lemma length_concat_chunks C : chunks_ok C -> length (concat C) = (2 * length C)%nat.
Proof. induction 1 as [|c C Hc HC IH]; simpl; [done|]. rewrite length_app, IH, Hc. lia. Qed.

Lemma set_entry_chunks C R i v c D :
  chunks_ok C -> i = length C -> length c = 2%nat ->
  set_entry (concat C ++ c ++ concat D ++ R) i v = Some (concat C ++ le_bytes 2 v ++ concat D ++ R).
Proof. intros HC -> Hc. unfold set_entry. apply store_app; [by rewrite length_concat_chunks|done]. Qed.

Lemma entry_chunks C R i v D :
  chunks_ok C -> i = length C -> 0 <= v < 2 ^ 16 -> entry (concat C ++ le_bytes 2 v ++ concat D ++ R) i = Some v.
Proof. intros HC -> Hv. unfold entry. apply load_le_bytes; [by rewrite length_concat_chunks|done]. Qed.

Definition table (offs : list Z) : list (list Z) := map (le_bytes 2) offs.

Lemma table_chunks offs : chunks_ok (table offs).
Proof. unfold chunks_ok, table. rewrite Forall_map. apply Forall_true. intros v. apply length_le_bytes. Qed.

Lemma table_app l k : table (l ++ k) = table l ++ table k.
Proof. apply map_app. Qed.
Lemma length_table l : length (table l) = length l.
Proof. apply length_map. Qed.

Lemma chunks_app C D : chunks_ok (C ++ D) <-> chunks_ok C /\ chunks_ok D.
Proof. apply Forall_app. Qed.

#[export] Hint Resolve table_chunks : mdbx.

Abbreviation offsets_ok := (Forall (fun v : Z => 0 <= v < 2 ^ 16)).

Lemma shift_entries_spec n : forall C (offs : list Z) g D R i,
  length offs = n -> offsets_ok offs -> chunks_ok C -> length g = 2%nat -> i = (length C + n)%nat ->
  exists x, length x = 2%nat /\
  shift_entries n (concat (C ++ table offs ++ g :: D) ++ R) i = Some (concat (C ++ x :: table offs ++ D) ++ R).
Proof.
  induction n as [|n IH]; intros C offs g D R i Hn Ho HC Hg ->.
  { destruct offs; [|done]. exists g. done. }
  destruct offs as [|v offs _] using rev_ind; [done|]. rewrite length_app in Hn. simpl in Hn.
  apply Forall_app in Ho as [Ho Hv]. rewrite Forall_singleton in Hv. cbn [shift_entries].
  replace (length C + S n - 1)%nat with (length (C ++ table offs)) by (rewrite length_app; rewrite length_table; lia).
  rewrite table_app. change (table [v]) with [le_bytes 2 v].
  replace (concat (C ++ (table offs ++ [le_bytes 2 v]) ++ g :: D) ++ R)
    with (concat (C ++ table offs) ++ le_bytes 2 v ++ concat (g :: D) ++ R) by cat_norm.
  assert (chunks_ok (C ++ table offs)) as HC' by (apply chunks_app; auto with mdbx).
  rewrite entry_chunks by (exact HC' || exact Hv || reflexivity). cbn [mbind option_bind].
  replace (concat (C ++ table offs) ++ le_bytes 2 v ++ concat (g :: D) ++ R)
    with (concat ((C ++ table offs) ++ [le_bytes 2 v]) ++ g ++ concat D ++ R) by cat_norm.
  rewrite set_entry_chunks; [|apply chunks_app; split; [done|constructor; [apply length_le_bytes|constructor]]|
    rewrite !length_app; rewrite length_table; simpl; lia|done].
  cbn [mbind option_bind].
  replace (concat ((C ++ table offs) ++ [le_bytes 2 v]) ++ le_bytes 2 v ++ concat D ++ R)
    with (concat (C ++ table offs ++ le_bytes 2 v :: (le_bytes 2 v :: D)) ++ R) by cat_norm.
  destruct (IH C offs (le_bytes 2 v) (le_bytes 2 v :: D) R (length (C ++ table offs))) as (x & Hx & E);
    [lia|done|done|apply length_le_bytes|rewrite length_app; rewrite length_table; lia|].
  exists x. split; [done|]. rewrite E. by rewrite <- app_assoc.
Qed.

(** What the loop of [node_del] makes of an offset. *)
Definition close_offset (hole_offset hole_size e : Z) : Z := if decide (e < hole_offset) then u16 (e + u16 hole_size) else e.

Section close.
Context (hole : nat) (ho hs : Z) (R : list Z).

Lemma close_entries_run L : forall n W X D r w,
  offsets_ok L -> chunks_ok W -> chunks_ok X -> w = length W -> r = (length W + length X)%nat ->
  (hole < r \/ r + length L <= hole)%nat ->
  exists X', length X' = length X /\ chunks_ok X' /\
  close_entries (length L + n) (concat (W ++ X ++ table L ++ D) ++ R) r w hole ho hs =
  close_entries n (concat ((W ++ table (close_offset ho hs <$> L)) ++ X' ++ D) ++ R)
  (r + length L) (w + length L) hole ho hs.
Proof.
  induction L as [|e L IH]; intros n W X D r w HL HW HX -> -> Hh.
  { exists X. split; [done|]. split; [done|]. simpl. by rewrite app_nil_r, !Nat.add_0_r. }
  apply Forall_cons in HL as [He HL]. cbn [length Nat.add close_entries]. rewrite decide_True by (simpl in Hh; lia).
  replace (concat (W ++ X ++ table (e :: L) ++ D) ++ R) with (concat (W ++ X) ++ le_bytes 2 e ++ concat (table L ++ D) ++ R) by cat_norm.
  assert (chunks_ok (W ++ X)) as HWX by by apply chunks_app.
  rewrite entry_chunks by (exact HWX || exact He || by rewrite length_app). cbn [mbind option_bind].
  assert (exists y Y, X ++ [le_bytes 2 e] = y :: Y /\ length Y = length X /\ length y = 2%nat /\ chunks_ok Y) as (y & Y & EY & HYl & Hy & HY).
  { assert (chunks_ok (X ++ [le_bytes 2 e])) as H by (apply chunks_app; split; [done|constructor; [apply length_le_bytes|constructor]]).
    destruct X as [|y X]; simpl in *.
    - exists (le_bytes 2 e), []. split; [done|]. split; [done|]. split; [apply length_le_bytes|constructor].
    - apply Forall_cons in H as [H1 H2]. exists y, (X ++ [le_bytes 2 e]). split; [done|]. rewrite length_app. simpl. split; [lia|done]. }
  replace (concat (W ++ X) ++ le_bytes 2 e ++ concat (table L ++ D) ++ R) with (concat W ++ y ++ concat (Y ++ table L ++ D) ++ R).
  2:{ transitivity (concat (W ++ (y :: Y) ++ table L ++ D) ++ R); [cat_norm|]. rewrite <- EY. cat_norm. }
  rewrite set_entry_chunks by done. cbn [mbind option_bind].
  fold (close_offset ho hs e).
  replace (concat W ++ le_bytes 2 (close_offset ho hs e) ++ concat (Y ++ table L ++ D) ++ R)
    with (concat ((W ++ [le_bytes 2 (close_offset ho hs e)]) ++ Y ++ table L ++ D) ++ R) by cat_norm.
  destruct (IH n (W ++ [le_bytes 2 (close_offset ho hs e)]) Y D (S (length W + length X)) (S (length W))) as (X' & H1 & H2 & E).
  - done.
  - apply chunks_app; split; [done|constructor; [apply length_le_bytes|constructor]].
  - done.
  - rewrite length_app. simpl. lia.
  - rewrite length_app. simpl. lia.
  - simpl in Hh. lia.
  - exists X'. split; [lia|]. split; [done|]. rewrite E. f_equal; [|lia|lia]. rewrite fmap_cons. simpl. do 3 f_equal. by rewrite <- app_assoc.
Qed.

Lemma close_entries_spec L1 e L2 :
  hole = length L1 -> offsets_ok L1 -> offsets_ok L2 ->
  exists x, length x = 2%nat /\
  close_entries (length (L1 ++ e :: L2)) (concat (table (L1 ++ e :: L2)) ++ R) 0 0 hole ho hs =
  Some (concat (table (close_offset ho hs <$> L1 ++ L2) ++ [x]) ++ R).
Proof.
  intros Hh H1 H2. rewrite length_app. cbn [length].
  destruct (close_entries_run L1 (S (length L2)) [] [] (le_bytes 2 e :: table L2) 0 0) as (X & HX & _ & E1);
    [done|constructor|constructor|done|done|simpl; lia|].
  destruct X; [|done]. cbn [app Nat.add] in E1. rewrite table_app. change (table (e :: L2)) with (le_bytes 2 e :: table L2).
  rewrite E1. cbn [close_entries]. rewrite decide_False by lia. clear E1.
  destruct (close_entries_run L2 0 (table (close_offset ho hs <$> L1)) [le_bytes 2 e] [] (S (length L1)) (length L1)) as (X' & HX' & Hc & E2).
  - done.
  - auto with mdbx.
  - constructor; [apply length_le_bytes|constructor].
  - by rewrite length_table, length_fmap.
  - rewrite length_table, length_fmap. simpl. lia.
  - lia.
  - destruct X' as [|x [|]]; try done. apply Forall_cons in Hc as [Hx _]. exists x. split; [done|].
    rewrite Nat.add_0_r, app_nil_r in E2. cbn [app] in E2. rewrite E2. cbn [close_entries]. rewrite fmap_app, table_app. done.
Qed.
End close.

(** ** The layout of a page *)

(** What a node says: [it_word] is the size of the value in a leaf and the child in a
    branch; the value of a node with [N_BIG] is the number of a large page. *)
Record item := mk_item { it_word : Z; it_flags : Z; it_key : list Z; it_data : list Z }.

Definition item_ok (leaf : bool) (it : item) : Prop :=
  0 <= it_word it < 2 ^ 32 /\ 0 <= it_flags it < 2 ^ 8 /\ Z.of_nat (length (it_key it)) < 2 ^ 16 /\
  if leaf then Z.of_nat (length (it_data it)) = (if decide (Z.land (it_flags it) N_BIG <> 0) then sizeof_pgno_t else it_word it)
  else it_data it = [].

(** The bytes that the item has in a page, [pad] makes their number even. *)
Definition image (it : item) (pad : list Z) : list Z :=
  le_bytes 4 (it_word it) ++ it_flags it :: 0 :: le_bytes 2 (Z.of_nat (length (it_key it))) ++ it_key it ++ it_data it ++ pad.

Definition payload (it : item) : nat := (length (it_key it) + length (it_data it))%nat.
Definition item_size (it : item) : nat := (8 + payload it + payload it mod 2)%nat.

Definition image_of (it : item) (e : list Z) : Prop :=
  exists pad, e = image it pad /\ length pad = (payload it mod 2)%nat.

Lemma image_size it e : image_of it e -> length e = item_size it.
Proof.
  intros (pad & -> & Hp). unfold image, item_size, payload in *. repeat (rewrite length_app || cbn [length]).
  rewrite !length_le_bytes. lia.
Qed.

(** The nodes follow each other without gaps from [off] on. *)
Fixpoint placed (off : Z) (ps : list (Z * list Z)) : Prop :=
  match ps with
  | [] => True
  | (o, e) :: ps => o = off /\ placed (off + Z.of_nat (length e)) ps
  end.

Record page_holds (size : nat) (p : page_t) (items : list item) : Prop := {
  ph_size : length (page_body p) = size;
  ph_max : Z.of_nat size < 2 ^ 16;
  ph_dupfix : is_dupfix_leaf p = false;
  ph_items : Forall (item_ok (is_leaf p)) items;
  ph_lower : page_lower p = 2 * Z.of_nat (length items);
  ph_layout : exists offs images phys F,
    page_body p = concat (table offs) ++ F ++ concat phys.*2 /\
    page_upper p = 2 * Z.of_nat (length items) + Z.of_nat (length F) /\
    Forall2 image_of items images /\ length offs = length images /\
    zip offs images ≡ₚ phys /\ placed (page_upper p) phys
}.

Definition items_size (items : list item) : nat := sum_list_with (fun it => 2 + item_size it)%nat items.

Lemma placed_app off P Q :
  placed off (P ++ Q) <-> placed off P /\ placed (off + Z.of_nat (length (concat P.*2))) Q.
Proof.
  revert off. induction P as [|[o e] P IH]; intros off; simpl; [rewrite Z.add_0_r; tauto|].
  rewrite IH, length_app, Nat2Z.inj_add, Z.add_assoc. tauto.
Qed.

Lemma placed_bounds off P o e :
  placed off P -> (o, e) ∈ P -> off <= o /\ o + Z.of_nat (length e) <= off + Z.of_nat (length (concat P.*2)).
Proof.
  intros HP Hin. apply list_elem_of_split in Hin as (P1 & P2 & ->).
  apply placed_app in HP as [_ [-> _]]. rewrite fmap_app, concat_app, !length_app. simpl. rewrite length_app. lia.
Qed.

Lemma zip_lookup_perm (offs : list Z) (images : list (list Z)) (phys : list (Z * list Z)) i o e :
  zip offs images ≡ₚ phys -> offs !! i = Some o -> images !! i = Some e -> (o, e) ∈ phys.
Proof.
  intros HP Ho He. rewrite <- HP. apply list_elem_of_lookup. exists i.
  rewrite lookup_zip_with. by rewrite Ho, He.
Qed.

Section holds.
Context (size : nat) (p : page_t) (items : list item) (Hp : page_holds size p items).

Lemma page_numkeys_holds : page_numkeys p = length items.
Proof.
  unfold page_numkeys. rewrite (ph_lower _ _ _ Hp), Z.shiftr_div_pow2 by lia. change (2 ^ 1) with 2.
  rewrite Z.mul_comm, Z.div_mul by lia. lia.
Qed.

Lemma page_bounds : 0 <= page_lower p <= page_upper p /\ page_upper p <= Z.of_nat size < 2 ^ 16.
Proof.
  destruct Hp as [Hsize Hmax _ _ Hlow (offs & images & phys & F & Hb & Hup & Him & Hlen & _)].
  apply (f_equal length) in Hb. rewrite Hsize, !length_app, length_concat_chunks, length_table in Hb by apply table_chunks.
  apply Forall2_length in Him. lia.
Qed.

(** Where item [i] is in the body. *)
Lemma page_locate i it :
  items !! i = Some it ->
  exists A e B, page_body p = A ++ e ++ B /\ image_of it e /\
  entry (page_body p) i = Some (Z.of_nat (length A)) /\ page_node p i = Some (length A).
Proof.
  intros Hi. destruct Hp as [Hsize Hmax _ Hok Hlow (offs & images & phys & F & Hb & Hup & Him & Hlen & Hperm & Hpl)].
  destruct (Forall2_lookup_l _ _ _ _ _ Him Hi) as (e & He & Hie).
  pose proof (Forall2_length _ _ _ Him) as Hl.
  destruct (lookup_lt_is_Some_2 offs i) as [o Ho]; [apply lookup_lt_Some in He; lia|].
  pose proof (zip_lookup_perm _ _ _ _ _ _ Hperm Ho He) as Hin.
  apply list_elem_of_split in Hin as (P1 & P2 & ->).
  apply placed_app in Hpl as [_ [Eo _]].
  exists (concat (table offs) ++ F ++ concat P1.*2), e, (concat P2.*2).
  assert (Z.of_nat (length (concat (table offs) ++ F ++ concat P1.*2)) = o) as EA.
  { rewrite !length_app, length_concat_chunks, length_table by apply table_chunks. lia. }
  assert (page_body p = (concat (table offs) ++ F ++ concat P1.*2) ++ e ++ concat P2.*2) as Eb.
  { rewrite Hb, fmap_app, concat_app. simpl. by rewrite <- !app_assoc. }
  assert (entry (page_body p) i = Some o) as Ee.
  { assert (concat (table offs) = concat (table (take i offs)) ++ le_bytes 2 o ++ concat (table (drop (S i) offs))) as Et.
    { rewrite <- (take_drop_middle offs i o Ho) at 1. rewrite table_app, concat_app. done. }
    rewrite Hb, Et, <- !app_assoc. apply entry_chunks; [apply table_chunks| |].
    - rewrite length_table, length_take. apply lookup_lt_Some in Ho. lia.
    - apply (f_equal length) in Eb. rewrite Hsize, !length_app in Eb. rewrite !length_app in EA. lia. }
  split; [done|]. split; [done|]. unfold page_node. rewrite Ee, <- EA. split; [done|]. cbn [mbind option_bind]. by rewrite Nat2Z.id.
Qed.
End holds.

(** ** Reading the fields of a node *)

Lemma EVEN_CEIL_spec n : 0 <= n < 2 ^ 62 -> EVEN_CEIL n = n + n mod 2.
Proof.
  intros Hn. unfold EVEN_CEIL. pose proof (floor_powerof2_spec (u64 (n + 1)) 1) as H. unfold floor_powerof2 in H.
  change (u64 (Z.lnot (u64 (2 ^ 1 - 1)))) with (2 ^ 64 - 2) in H.
  rewrite u64_small in H by (unfold UINT64_MAX; lia). rewrite u64_small by (unfold UINT64_MAX; lia).
  rewrite H by lia. change (2 ^ 1) with 2. pose proof (Z.div_mod n 2 ltac:(lia)). pose proof (Z.mod_pos_bound n 2 ltac:(lia)).
  assert ((n + 1) / 2 = n / 2 + n mod 2) as -> by (symmetry; apply Z.div_unique with (1 - n mod 2); lia). lia.
Qed.

Lemma item_size_Z it : Z.of_nat (payload it) < 2 ^ 62 -> Z.of_nat (item_size it) = NODESIZE + EVEN_CEIL (Z.of_nat (payload it)).
Proof. intros H. rewrite EVEN_CEIL_spec by lia. unfold item_size, NODESIZE. rewrite !Nat2Z.inj_add, Nat2Z.inj_mod. lia. Qed.

Section fields.
Context (leaf : bool) (it : item) (Hit : item_ok leaf it) (A B pad : list Z).
Abbreviation b := (A ++ image it pad ++ B).
Abbreviation off := (length A).

(** The body around each of the parts of the image. *)
Lemma image_split :
  b = A ++ le_bytes 4 (it_word it) ++ (it_flags it :: 0 :: le_bytes 2 (Z.of_nat (length (it_key it))) ++ it_key it ++ it_data it ++ pad ++ B) /\
  b = (A ++ le_bytes 4 (it_word it)) ++ it_flags it :: (0 :: le_bytes 2 (Z.of_nat (length (it_key it))) ++ it_key it ++ it_data it ++ pad ++ B) /\
  b = (A ++ le_bytes 4 (it_word it) ++ [it_flags it; 0]) ++ le_bytes 2 (Z.of_nat (length (it_key it))) ++ (it_key it ++ it_data it ++ pad ++ B) /\
  b = (A ++ le_bytes 4 (it_word it) ++ [it_flags it; 0] ++ le_bytes 2 (Z.of_nat (length (it_key it)))) ++ it_key it ++ (it_data it ++ pad ++ B) /\
  b = (A ++ le_bytes 4 (it_word it) ++ [it_flags it; 0] ++ le_bytes 2 (Z.of_nat (length (it_key it))) ++ it_key it) ++ it_data it ++ (pad ++ B).
Proof. unfold image. split_and!; repeat rewrite <- app_assoc; cbn [app]; repeat rewrite <- app_assoc; reflexivity. Qed.

Lemma read_word : node_pgno b off = Some (it_word it) /\ node_ds b off = Some (it_word it).
Proof.
  destruct image_split as (-> & _). destruct Hit as [H _]. unfold node_pgno, node_ds. split; by apply load_le_bytes.
Qed.

Lemma read_flags : node_flags b off = Some (it_flags it).
Proof. destruct image_split as (_ & -> & _). unfold node_flags. apply rd_app. rewrite length_app, length_le_bytes. done. Qed.

Lemma read_ks : node_ks b off = Some (Z.of_nat (length (it_key it))).
Proof.
  destruct image_split as (_ & _ & -> & _). destruct Hit as (_ & _ & H & _). unfold node_ks. apply load_le_bytes; [|simpl; lia].
  rewrite !length_app, length_le_bytes. done.
Qed.

Lemma read_key : get_key b off = Some (it_key it).
Proof.
  unfold get_key. rewrite read_ks. cbn [mbind option_bind]. destruct image_split as (_ & _ & _ & -> & _).
  apply bytes_at_app; [|lia]. rewrite !length_app, !length_le_bytes. unfold node_key. simpl. lia.
Qed.

Lemma read_data : exists d, node_data b off = Some d /\ bytes_at b d (length (it_data it)) = Some (it_data it).
Proof.
  unfold node_data. rewrite read_ks. cbn [mbind option_bind]. eexists. split; [done|].
  destruct image_split as (_ & _ & _ & _ & ->). apply bytes_at_app; [|done].
  rewrite !length_app, !length_le_bytes. unfold node_key. simpl. lia.
Qed.
End fields.

Lemma hole_size_spec p size items i it node :
  page_holds size p items -> items !! i = Some it -> page_node p i = Some node ->
  node_hole_size p node = Some (Z.of_nat (item_size it)).
Proof.
  intros Hp Hi Hn. destruct (page_locate _ _ _ Hp i it Hi) as (A & e & B & Hb & (pad & -> & Hpad) & _ & Hn').
  rewrite Hn' in Hn. injection Hn as <-. pose proof (proj1 (Forall_lookup _ _) (ph_items _ _ _ Hp) i it Hi) as Hok.
  unfold node_hole_size. rewrite Hb, (read_ks _ _ Hok). cbn [mbind option_bind].
  destruct Hok as (Hw & Hf & Hk & Hd).
  assert (forall x, 0 <= x < 2 ^ 60 -> EVEN_CEIL (NODESIZE + x) = NODESIZE + EVEN_CEIL x) as Hev.
  { intros x Hx. rewrite !EVEN_CEIL_spec by (unfold NODESIZE; lia). unfold NODESIZE.
    replace (8 + x) with (x + 4 * 2) by lia. rewrite Z.mod_add by lia. lia. }
  destruct (is_leaf p) eqn:Hleaf.
  - rewrite read_flags. cbn [mbind option_bind].
    assert ((if decide (Z.land (it_flags it) N_BIG <> 0) then Some sizeof_pgno_t else node_ds (A ++ image it pad ++ B) (length A))
      = Some (Z.of_nat (length (it_data it)))) as ->.
    { rewrite Hd. case_decide; [done|]. unfold node_ds. destruct (image_split it A B pad) as (-> & _). by apply load_le_bytes. }
    cbn [mbind option_bind]. f_equal.
    assert (Z.of_nat (length (it_data it)) < 2 ^ 32) by (rewrite Hd; case_decide; unfold sizeof_pgno_t; lia).
    rewrite u64_small by (unfold UINT64_MAX, NODESIZE; lia). rewrite <- Z.add_assoc, Hev by lia.
    rewrite item_size_Z by (unfold payload; lia). unfold payload. by rewrite Nat2Z.inj_add.
  - f_equal. rewrite Hev by lia. rewrite item_size_Z by (unfold payload; rewrite Hd; simpl; lia). unfold payload. rewrite Hd, Nat.add_0_r. done.
Qed.

(** ** Removing a node *)

Lemma placed_shift off k P : placed off P -> placed (off + k) (prod_map (Z.add k) id <$> P).
Proof.
  revert off. induction P as [|[o e] P IH]; intros off; simpl; [done|]. intros [-> HP]. split; [unfold id; lia|].
  unfold id. replace (off + k + Z.of_nat (length e)) with (off + Z.of_nat (length e) + k) by lia. by apply IH.
Qed.

Lemma snd_shift k (P : list (Z * list Z)) : (prod_map (Z.add k) id <$> P).*2 = P.*2.
Proof. rewrite <- list_fmap_compose. apply list_fmap_ext. by intros i [o e]. Qed.

(** The offsets before the hole are moved, the others stay. *)
Lemma close_placed up P1 o e P2 :
  placed up (P1 ++ (o, e) :: P2) -> 0 <= up -> Forall (fun c : Z * list Z => 0 < length c.2)%nat P1 ->
  up + Z.of_nat (length (concat (P1 ++ (o, e) :: P2).*2)) < 2 ^ 16 ->
  (prod_map (close_offset o (Z.of_nat (length e))) id) <$> (P1 ++ P2) = (prod_map (Z.add (Z.of_nat (length e))) id <$> P1) ++ P2 /\
  placed (up + Z.of_nat (length e)) ((prod_map (Z.add (Z.of_nat (length e))) id <$> P1) ++ P2) /\
  o = up + Z.of_nat (length (concat P1.*2)).
Proof.
  intros Hpl Hup Hne Hmax. rewrite fmap_app, concat_app, length_app in Hmax. simpl in Hmax. rewrite length_app in Hmax.
  apply placed_app in Hpl as [H1 [-> H2]]. set (hs := Z.of_nat (length e)) in *. split_and!; [| |done].
  - rewrite fmap_app. f_equal.
    + apply list_fmap_ext. intros i [o' e'] Hi. simpl. f_equal. unfold close_offset.
      pose proof (proj1 (Forall_lookup _ _) Hne i _ Hi) as Hpos. simpl in Hpos.
      apply list_elem_of_lookup_2 in Hi. destruct (placed_bounds _ _ _ _ H1 Hi). rewrite decide_True by lia.
      unfold u16. rewrite (Z.mod_small hs) by lia. rewrite Z.mod_small by lia. lia.
    + rewrite <- (list_fmap_id P2) at 2. apply list_fmap_ext. intros i [o' e'] Hi. simpl. f_equal. unfold close_offset.
      apply list_elem_of_lookup_2 in Hi. destruct (placed_bounds _ _ _ _ H2 Hi). rewrite decide_False by lia. done.
  - apply placed_app. rewrite snd_shift. split; [by apply placed_shift|].
    replace (up + hs + Z.of_nat (length (concat P1.*2))) with (up + Z.of_nat (length (concat P1.*2)) + hs) by lia. done.
Qed.

Lemma zip_fmap_fst (g : Z -> Z) (l : list Z) (k : list (list Z)) : prod_map g id <$> zip l k = zip (g <$> l) k.
Proof. revert k. induction l as [|x l IH]; intros [|y k]; simpl; [done..|]. f_equal. apply IH. Qed.

Lemma placed_offsets up phys (offs : list Z) images :
  placed up phys -> 0 <= up -> up + Z.of_nat (length (concat phys.*2)) < 2 ^ 16 ->
  Forall (fun c : Z * list Z => 0 < length c.2)%nat phys -> zip offs images ≡ₚ phys -> length offs = length images -> offsets_ok offs.
Proof.
  intros Hpl Hup Hmax Hpos Hperm Hlen. apply Forall_lookup. intros i o Ho.
  destruct (lookup_lt_is_Some_2 images i) as [e He]; [apply lookup_lt_Some in Ho; lia|].
  pose proof (zip_lookup_perm _ _ _ _ _ _ Hperm Ho He) as Hin. destruct (placed_bounds _ _ _ _ Hpl Hin).
  pose proof (proj1 (Forall_forall _ _) Hpos _ Hin) as Hp. simpl in Hp. lia.
Qed.

Lemma images_nonempty items images (offs : list Z) phys :
  Forall2 image_of items images -> zip offs images ≡ₚ phys -> Forall (fun c : Z * list Z => 0 < length c.2)%nat phys.
Proof.
  intros Him <-. apply Forall_lookup. intros i [o e] Hi. apply lookup_zip_with_Some in Hi as (o' & e' & [= -> ->] & _ & He).
  destruct (Forall2_lookup_r _ _ _ _ _ Him He) as (it & _ & Hie). apply image_size in Hie. simpl. rewrite Hie. unfold item_size. lia.
Qed.

(** The layout of a page around one of its nodes. *)
Record opened (p : page_t) (size : nat) (I1 : list item) (it : item) (I2 : list item)
  (O1 : list Z) (o : Z) (O2 : list Z) (M1 : list (list Z)) (e : list Z) (M2 : list (list Z)) (P1 P2 : list (Z * list Z)) (F : list Z) : Prop := {
  op_body : page_body p = concat (table (O1 ++ o :: O2)) ++ F ++ concat P1.*2 ++ e ++ concat P2.*2;
  op_len1 : length O1 = length I1;
  op_len2 : length O2 = length I2;
  op_im1 : Forall2 image_of I1 M1;
  op_im : image_of it e;
  op_im2 : Forall2 image_of I2 M2;
  op_perm : zip O1 M1 ++ zip O2 M2 ≡ₚ P1 ++ P2;
  op_placed : placed (page_upper p) (P1 ++ (o, e) :: P2);
  op_off : o = page_upper p + Z.of_nat (length (concat P1.*2));
  op_upper : page_upper p = 2 * Z.of_nat (length I1 + S (length I2)) + Z.of_nat (length F);
  op_end : page_upper p + Z.of_nat (length (concat P1.*2)) + Z.of_nat (length e) + Z.of_nat (length (concat P2.*2)) = Z.of_nat size;
  op_offs : offsets_ok (O1 ++ o :: O2);
  op_pos1 : Forall (fun c : Z * list Z => 0 < length c.2)%nat P1;
  op_pos2 : Forall (fun c : Z * list Z => 0 < length c.2)%nat P2;
  op_size : length e = item_size it;
  op_entry : entry (page_body p) (length I1) = Some o
}.

Lemma page_opened size p I1 it I2 : page_holds size p (I1 ++ it :: I2) ->
  exists O1 o O2 M1 e M2 P1 P2 F, opened p size I1 it I2 O1 o O2 M1 e M2 P1 P2 F.
Proof.
  intros [Hsize Hmax Hdf Hok Hlow (offs & images & phys & F & Hb & Hup & Him & Hlen & Hperm & Hpl)].
  pose proof (images_nonempty _ _ _ _ Him Hperm) as Hpos.
  apply Forall2_app_inv_l in Him as (M1 & M2' & Him1 & Him2 & ->). apply Forall2_cons_inv_l in Him2 as (e & M2 & Hie & Him2 & ->).
  pose proof (Forall2_length _ _ _ Him1) as Hl1. pose proof (Forall2_length _ _ _ Him2) as Hl2.
  destruct (lookup_lt_is_Some_2 offs (length I1)) as [o Ho]; [rewrite Hlen, length_app; simpl; lia|].
  destruct (list_split_at offs (length I1) o Ho) as (O1 & O2 & -> & HO1).
  assert (length O2 = length M2) as HO2 by (rewrite !length_app in Hlen; simpl in Hlen; lia).
  pose proof Hperm as Hperm0. rewrite !zip_with_app in Hperm by lia. cbn [zip_with] in Hperm.
  assert ((o, e) ∈ phys) as Hin by (rewrite <- Hperm; apply elem_of_app; right; left).
  apply list_elem_of_split in Hin as (P1 & P2 & ->).
  assert (Hend : page_upper p + Z.of_nat (length (concat (P1 ++ (o, e) :: P2).*2)) = Z.of_nat size).
  { apply (f_equal length) in Hb. rewrite Hsize, !length_app, length_concat_chunks, length_table in Hb by apply table_chunks.
    rewrite !length_app in *. cbn [length] in *. lia. }
  assert (offsets_ok (O1 ++ o :: O2)) as Hoffs.
  { apply (placed_offsets (page_upper p) (P1 ++ (o, e) :: P2) _ (M1 ++ e :: M2)); try done; lia. }
  rewrite fmap_app, (concat_app P1.*2) in Hend, Hb. cbn [fmap list_fmap concat snd] in Hend, Hb. rewrite !length_app in Hend.
  apply Forall_app in Hpos as [Hpos1 Hpos2]. apply Forall_cons in Hpos2 as [_ Hpos2].
  exists O1, o, O2, M1, e, M2, P1, P2, F. split; try done; try lia.
  - apply (Permutation_cons_inv (a := (o, e))). by rewrite !Permutation_middle.
  - apply placed_app in Hpl as [_ [-> _]]. done.
  - rewrite Hup, length_app. done.
  - by apply image_size.
  - rewrite Hb, table_app, concat_app, <- app_assoc. change (table (o :: O2)) with (le_bytes 2 o :: table O2). cbn [concat]. rewrite <- app_assoc.
    apply entry_chunks; [apply table_chunks|by rewrite length_table|].
    apply Forall_app in Hoffs as [_ Hoffs]. by apply Forall_cons in Hoffs as [? _].
Qed.

Lemma node_del_holds size p I1 it I2 ksize :
  page_holds size p (I1 ++ it :: I2) ->
  exists p', node_del p (length I1) ksize = Some p' /\ page_holds size p' (I1 ++ I2) /\ page_flags p' = page_flags p /\
  page_room p' = page_room p + 2 + Z.of_nat (item_size it).
Proof.
  intros Hp. assert ((I1 ++ it :: I2) !! length I1 = Some it) as Hi by by rewrite lookup_app_r, Nat.sub_diag by lia.
  destruct (page_opened _ _ _ _ _ Hp) as (O1 & o & O2 & M1 & e & M2 & P1 & P2 & F & [Hb HO1 HO2 Him1 Hie Him2 Hperm Hpl Eo Hup Hend Hoffs Hpos1 Hpos2 He Hent]).
  assert (page_node p (length I1) = Some (Z.to_nat o)) as Hnode by (unfold page_node; by rewrite Hent).
  unfold node_del. rewrite (ph_dupfix _ _ _ Hp), Hnode, Hent, (page_numkeys_holds _ _ _ Hp). cbn [mbind option_bind].
  rewrite (hole_size_spec _ _ _ _ _ _ Hp Hi Hnode). cbn [mbind option_bind].
  destruct Hp as [Hsize Hmax Hdf Hok Hlow _]. rewrite length_app in Hlow. cbn [length] in Hlow.
  pose proof (Forall2_length _ _ _ Him1) as Hl1. pose proof (Forall2_length _ _ _ Him2) as Hl2.
  destruct (close_placed _ _ _ _ _ Hpl) as (Hmap & Hpl' & _); [lia|done| |].
  { rewrite fmap_app, (concat_app P1.*2). cbn [fmap list_fmap concat snd]. rewrite !length_app. lia. }
  (* the loop over the table *)
  apply Forall_app in Hoffs as [Hoffs1 Hoffs2]. apply Forall_cons in Hoffs2 as [Hoo Hoffs2].
  rewrite Hb. replace (length (I1 ++ it :: I2)) with (length (O1 ++ o :: O2)) by (rewrite !length_app; cbn [length]; lia).
  destruct (close_entries_spec (length I1) o (Z.of_nat (item_size it)) (F ++ concat P1.*2 ++ e ++ concat P2.*2) O1 o O2)
    as (x & Hx & ->); [done..|]. cbn [mbind option_bind].
  (* the move of the nodes *)
  set (T' := table (close_offset o (Z.of_nat (item_size it)) <$> O1 ++ O2)).
  assert (length (concat (T' ++ [x]) ++ F) = Z.to_nat (page_upper p)) as HD1.
  { unfold T'. rewrite length_app, length_concat_chunks by (apply chunks_app; split; [apply table_chunks|by constructor]).
    rewrite length_app, length_table, length_fmap, !length_app. cbn [length]. lia. }
  rewrite (app_assoc _ F). rewrite <- HD1, Nat2Z.id. replace (Z.to_nat (o - page_upper p)) with (length (concat P1.*2)) by lia.
  destruct (memmove_up (concat (T' ++ [x]) ++ F) (concat P1.*2) e (concat P2.*2) (item_size it) _ He eq_refl) as (G & HG & ->).
  cbn [mbind option_bind]. eexists. split; [done|].
  assert (u16 (page_lower p - sizeof_indx_t) = page_lower p - 2) as Elow by (unfold u16, sizeof_indx_t; apply Z.mod_small; lia).
  assert (u16 (page_upper p + u16 (Z.of_nat (item_size it))) = page_upper p + Z.of_nat (item_size it)) as Eup.
  { unfold u16. rewrite (Z.mod_small (Z.of_nat (item_size it))) by lia. apply Z.mod_small. lia. }
  rewrite Elow, Eup. split; [|split; [done|unfold page_room, with_bounds; simpl; lia]].
  split.
  - simpl. rewrite !length_app in *. lia.
  - done.
  - done.
  - apply Forall_app in Hok as [Hok1 Hok2]. apply Forall_cons in Hok2 as [_ Hok2]. apply Forall_app. done.
  - simpl. rewrite length_app. lia.
  - exists (close_offset o (Z.of_nat (item_size it)) <$> O1 ++ O2), (M1 ++ M2), ((prod_map (Z.add (Z.of_nat (length e))) id <$> P1) ++ P2), (x ++ F ++ G).
    cbn [page_body page_upper with_bounds with_body]. split_and!.
    + fold T'. rewrite fmap_app, snd_shift, concat_app, (concat_app _ P2.*2). cbn [concat]. rewrite app_nil_r, <- !app_assoc. done.
    + rewrite !length_app. lia.
    + by apply Forall2_app.
    + rewrite length_fmap, !length_app. lia.
    + rewrite <- zip_fmap_fst, zip_with_app by lia. rewrite <- Hmap, He. apply Permutation_map. exact Hperm.
    + rewrite <- He. exact Hpl'.
Qed.

(** ** Adding a node *)

(** The table and the slot of [n] bytes for a new node, once both are open. *)
Lemma open_slot size p I1 I2 n :
  page_holds size p (I1 ++ I2) -> 2 + Z.of_nat n <= page_room p -> (0 < n)%nat ->
  exists b0 D1 S D2,
  shift_entries (length (I1 ++ I2) - length I1) (page_body p) (length (I1 ++ I2)) = Some b0 /\
  set_entry b0 (length I1) (u16 (page_upper p - Z.of_nat n)) = Some (D1 ++ S ++ D2) /\
  length S = n /\ Z.of_nat (length D1) = page_upper p - Z.of_nat n /\
  entry (D1 ++ S ++ D2) (length I1) = Some (page_upper p - Z.of_nat n) /\
  (forall it e mp, image_of it e -> length e = n -> item_ok (is_leaf p) it ->
    mp = with_bounds (with_body p (D1 ++ e ++ D2)) (page_lower p + 2) (page_upper p - Z.of_nat n) ->
    page_holds size mp (I1 ++ it :: I2)).
Proof.
  intros [Hsize Hmax Hdf Hok Hlow (offs & images & phys & F & Hb & Hup & Him & Hlen & Hperm & Hpl)] Hroom Hn.
  unfold page_room in Hroom. rewrite Hlow, Hup in Hroom.
  assert (page_upper p + Z.of_nat (length (concat phys.*2)) = Z.of_nat size) as Hend.
  { pose proof (f_equal length Hb) as Hb'. rewrite Hsize, !length_app, length_concat_chunks, length_table in Hb' by apply table_chunks.
    pose proof (Forall2_length _ _ _ Him). lia. }
  pose proof (images_nonempty _ _ _ _ Him Hperm) as Hpos.
  pose proof (placed_offsets _ _ _ _ Hpl ltac:(lia) ltac:(lia) Hpos Hperm Hlen) as Hoffs.
  pose proof (Forall2_length _ _ _ Him) as Hl. rewrite length_app in Hl.
  apply Forall2_app_inv_l in Him as (M1 & M2 & Him1 & Him2 & ->).
  pose proof (Forall2_length _ _ _ Him1) as Hl1. pose proof (Forall2_length _ _ _ Him2) as Hl2.
  rewrite length_app in Hlen. rewrite <- (take_drop (length I1) offs) in Hb, Hoffs, Hlen, Hperm.
  assert (length (take (length I1) offs) = length I1) as HO1 by (rewrite length_take; rewrite take_drop in Hlen; lia).
  revert HO1 Hb Hoffs Hlen Hperm. generalize (take (length I1) offs), (drop (length I1) offs). clear offs.
  intros O1 O2 HO1 Hb Hoffs Hlen Hperm. rewrite length_app in Hlen.
  set (m := (length F - 2 - n)%nat).
  assert (F = take 2 F ++ take m (drop 2 F) ++ drop m (drop 2 F)) as EF by by rewrite !take_drop.
  assert (length (take 2 F) = 2%nat /\ length (take m (drop 2 F)) = m /\ length (drop m (drop 2 F)) = n) as (Hg & HF1 & HS).
  { unfold m. rewrite length_take, length_take, length_drop, length_drop, length_drop. lia. }
  revert EF Hg HF1 HS. generalize (take 2 F), (take m (drop 2 F)), (drop m (drop 2 F)). intros g F1 S EF Hg HF1 HS.
  apply Forall_app in Hoffs as [Hoffs1 Hoffs2].
  destruct (shift_entries_spec (length O2) (table O1) O2 g [] (F1 ++ S ++ concat phys.*2) (length (I1 ++ I2))) as (x & Hx & Esh);
    [done|done|apply table_chunks|done|rewrite length_table, length_app; lia|].
  assert (u16 (page_upper p - Z.of_nat n) = page_upper p - Z.of_nat n) as Eu by (unfold u16; apply Z.mod_small; lia).
  exists (concat (table O1 ++ x :: table O2) ++ F1 ++ S ++ concat phys.*2),
    (concat (table (O1 ++ (page_upper p - Z.of_nat n) :: O2)) ++ F1), S, (concat phys.*2).
  assert (concat (table (O1 ++ (page_upper p - Z.of_nat n) :: O2)) =
    concat (table O1) ++ le_bytes 2 (page_upper p - Z.of_nat n) ++ concat (table O2)) as Etab by by rewrite table_app, concat_app.
  assert (Z.of_nat (length (concat (table (O1 ++ (page_upper p - Z.of_nat n) :: O2)) ++ F1)) = page_upper p - Z.of_nat n) as HD1.
  { rewrite length_app, length_concat_chunks, length_table, length_app by apply table_chunks. cbn [length].
    rewrite Hup, length_app. unfold m in HF1. rewrite EF, !length_app in *. lia. }
  split_and!.
  - rewrite Hb, EF. replace (length (I1 ++ I2) - length I1)%nat with (length O2) by (rewrite length_app; lia).
    rewrite app_nil_r in Esh. rewrite <- Esh. f_equal. rewrite table_app. cat_norm.
  - rewrite Eu, Etab. replace (concat (table O1 ++ x :: table O2) ++ F1 ++ S ++ concat phys.*2)
      with (concat (table O1) ++ x ++ concat (table O2) ++ F1 ++ S ++ concat phys.*2) by cat_norm.
    rewrite set_entry_chunks by (apply table_chunks || done || by rewrite length_table). f_equal. cat_norm.
  - done.
  - done.
  - rewrite Etab. rewrite <- !app_assoc. apply entry_chunks; [apply table_chunks|by rewrite length_table|lia].
  - intros it e mp Hie He Hit ->. split.
    + simpl. rewrite !length_app in *. lia.
    + done.
    + done.
    + apply Forall_app in Hok as [Hok1 Hok2]. apply Forall_app. split; [done|by constructor].
    + simpl. rewrite Hlow, !length_app. cbn [length]. lia.
    + exists (O1 ++ (page_upper p - Z.of_nat n) :: O2), (M1 ++ e :: M2), ((page_upper p - Z.of_nat n, e) :: phys), F1.
      cbn [page_body page_upper with_bounds with_body]. split_and!.
      * rewrite <- !app_assoc. done.
      * rewrite <- HD1, length_app, length_concat_chunks, length_table by apply table_chunks. rewrite !length_app. cbn [length]. lia.
      * apply Forall2_app; [done|by constructor].
      * rewrite !length_app. cbn [length]. lia.
      * rewrite zip_with_app by lia. cbn [zip_with]. rewrite <- Permutation_middle. constructor. rewrite <- Hperm, zip_with_app by lia. done.
      * cbn [placed]. split; [done|]. rewrite He. replace (page_upper p - Z.of_nat n + Z.of_nat n) with (page_upper p) by lia. done.
Qed.

(** ** A page with given items *)

Definition plain_image (it : item) : list Z := image it (replicate (payload it mod 2) 0).
Fixpoint offsets (off : Z) (images : list (list Z)) : list Z :=
  match images with
  | [] => []
  | e :: images => off :: offsets (off + Z.of_nat (length e)) images
  end.

Definition make_page (flags pgno : Z) (size : nat) (items : list item) : page_t :=
  let images := plain_image <$> items in
  let upper := (size - length (concat images))%nat in
  let lower := (2 * length items)%nat in
  mk_page 0 0 flags (Z.of_nat lower) (Z.of_nat upper) pgno
    (concat (table (offsets (Z.of_nat upper) images)) ++ replicate (upper - lower) 0 ++ concat images).

Lemma length_offsets images : forall off, length (offsets off images) = length images.
Proof. induction images as [|e images IH]; intros off; simpl; [done|by f_equal]. Qed.

Lemma offsets_placed images : forall off,
  placed off (zip (offsets off images) images) /\ (zip (offsets off images) images).*2 = images.
Proof.
  induction images as [|e images IH]; intros off; simpl; [done|]. destruct (IH (off + Z.of_nat (length e))) as [H1 H2].
  split; [done|by f_equal].
Qed.

Lemma make_page_holds flags pgno size items :
  Z.land flags P_DUPFIX = 0 -> Forall (item_ok (bool_decide (Z.land flags P_LEAF <> 0))) items -> Z.of_nat size < 2 ^ 16 ->
  (2 * length items + length (concat (plain_image <$> items)) <= size)%nat ->
  page_holds size (make_page flags pgno size items) items.
Proof.
  intros Hd Hok Hmax Hroom. unfold make_page. set (images := plain_image <$> items) in *.
  set (upper := (size - length (concat images))%nat).
  destruct (offsets_placed images (Z.of_nat upper)) as [Hpl Hsnd].
  assert (length images = length items) as Hl by apply length_fmap.
  split; simpl.
  - rewrite !length_app, length_concat_chunks, length_table, length_offsets, length_replicate by apply table_chunks. lia.
  - done.
  - unfold is_dupfix_leaf. simpl. by rewrite bool_decide_false by lia.
  - done.
  - lia.
  - exists (offsets (Z.of_nat upper) images), images, (zip (offsets (Z.of_nat upper) images) images), (replicate (upper - 2 * length items) 0).
    rewrite Hsnd. split_and!; try done.
    + rewrite length_replicate. lia.
    + unfold images. rewrite Forall2_fmap_r. apply Forall_Forall2_diag, Forall_true. intros it. eexists. split; [done|]. apply length_replicate.
    + apply length_offsets.
Qed.
