(* ===== verification/PageOps.v ===== *)
(** * Pages and nodes: the operations on the nodes of a page *)

From S2P Require Import Prelude Meta Cmp CmpProps Page PageFacts.

(** ** Writing a node *)

(** The parts of a slot, in their order. *)
Definition slot (w : list Z) (f x : Z) (k ks ds pad : list Z) : list Z := w ++ f :: x :: k ++ ks ++ ds ++ pad.

Lemma slot_of S n m : (8 + n + m <= length S)%nat ->
  exists w f x k ks ds pad, S = slot w f x k ks ds pad /\ length w = 4%nat /\ length k = 2%nat /\ length ks = n /\ length ds = m.
Proof.
  intros H. rewrite <- (take_drop 4 S). assert (length (take 4 S) = 4%nat) as H4 by (rewrite length_take; lia).
  assert (4 + n + m <= length (drop 4 S))%nat as Hd by (rewrite length_drop; lia). revert H4 Hd.
  generalize (take 4 S), (drop 4 S). clear. intros w R Hw HR. destruct R as [|f [|x R]]; [simpl in HR; lia..|].
  exists w, f, x, (take 2 R), (take n (drop 2 R)), (take m (drop n (drop 2 R))), (drop m (drop n (drop 2 R))).
  unfold slot. rewrite !take_drop. split; [done|]. simpl in HR. rewrite !length_take, !length_drop. lia.
Qed.

Lemma image_slot it pad :
  image it pad = slot (le_bytes 4 (it_word it)) (it_flags it) 0 (le_bytes 2 (Z.of_nat (length (it_key it)))) (it_key it) (it_data it) pad.
Proof. done. Qed.

Section slot.
Context (D1 D2 : list Z) (w : list Z) (f x : Z) (k ks ds pad : list Z).
Context (Hw : length w = 4%nat) (Hk : length k = 2%nat).
Abbreviation b := (D1 ++ slot w f x k ks ds pad ++ D2).
Abbreviation off := (length D1).

Ltac slot_norm := unfold slot; repeat (rewrite <- app_assoc || rewrite <- app_comm_cons); reflexivity.

Lemma slot_set_word v : store 4 b off v = Some (D1 ++ slot (le_bytes 4 v) f x k ks ds pad ++ D2).
Proof.
  replace b with (D1 ++ w ++ (f :: x :: k ++ ks ++ ds ++ pad ++ D2)) by slot_norm.
  rewrite store_app by done. f_equal. slot_norm.
Qed.

Lemma slot_set_flags v : node_set_flags b off v = Some (D1 ++ slot w v x k ks ds pad ++ D2).
Proof.
  replace b with ((D1 ++ w) ++ f :: (x :: k ++ ks ++ ds ++ pad ++ D2)) by slot_norm.
  unfold node_set_flags. rewrite wr_app by (rewrite length_app; lia). f_equal. slot_norm.
Qed.

Lemma slot_set_extra v : node_set_extra b off v = Some (D1 ++ slot w f v k ks ds pad ++ D2).
Proof.
  replace b with ((D1 ++ w ++ [f]) ++ x :: (k ++ ks ++ ds ++ pad ++ D2)) by slot_norm.
  unfold node_set_extra. rewrite wr_app by (rewrite !length_app; simpl; lia). f_equal. slot_norm.
Qed.

Lemma slot_set_ks v : node_set_ks b off v = Some (D1 ++ slot w f x (le_bytes 2 v) ks ds pad ++ D2).
Proof.
  replace b with ((D1 ++ w ++ [f; x]) ++ k ++ (ks ++ ds ++ pad ++ D2)) by slot_norm.
  unfold node_set_ks. rewrite store_app by (done || (rewrite !length_app; simpl; lia)). f_equal. slot_norm.
Qed.

Lemma slot_set_key key : length key = length ks -> memcpy b (node_key off) key = Some (D1 ++ slot w f x k key ds pad ++ D2).
Proof.
  intros Hl. replace b with ((D1 ++ w ++ f :: x :: k) ++ ks ++ (ds ++ pad ++ D2)) by slot_norm.
  unfold node_key. rewrite memcpy_app by (done || (rewrite !length_app; simpl; lia)). f_equal. slot_norm.
Qed.

Lemma slot_set_data data : length data = length ds ->
  memcpy b (node_key off + length ks) data = Some (D1 ++ slot w f x k ks data pad ++ D2).
Proof.
  intros Hl. replace b with ((D1 ++ w ++ f :: x :: k ++ ks) ++ ds ++ (pad ++ D2)) by slot_norm.
  unfold node_key. rewrite memcpy_app by (done || (repeat (rewrite !length_app || cbn [length]); lia)). f_equal. slot_norm.
Qed.

Lemma slot_store_data v : length ds = 4%nat ->
  store 4 b (node_key off + length ks) v = Some (D1 ++ slot w f x k ks (le_bytes 4 v) pad ++ D2).
Proof.
  intros Hl. replace b with ((D1 ++ w ++ f :: x :: k ++ ks) ++ ds ++ (pad ++ D2)) by slot_norm.
  unfold node_key. rewrite store_app by (done || (repeat (rewrite !length_app || cbn [length]); lia)). f_equal. slot_norm.
Qed.
End slot.

Lemma slot_read_ks D1 D2 w f x v ks ds pad :
  length w = 4%nat -> 0 <= v < 2 ^ 16 -> node_ks (D1 ++ slot w f x (le_bytes 2 v) ks ds pad ++ D2) (length D1) = Some v.
Proof.
  intros Hw Hv. replace (D1 ++ slot w f x (le_bytes 2 v) ks ds pad ++ D2)
    with ((D1 ++ w ++ [f; x]) ++ le_bytes 2 v ++ (ks ++ ds ++ pad ++ D2))
    by (unfold slot; repeat (rewrite <- app_assoc || rewrite <- app_comm_cons); reflexivity).
  unfold node_ks. apply load_le_bytes; [rewrite !length_app; simpl; lia|simpl; lia].
Qed.

(** ** Adding to a leaf *)

Lemma item_size_data w f w' f' key d d' : length d = length d' -> item_size (mk_item w f key d) = item_size (mk_item w' f' key d').
Proof. intros H. unfold item_size, payload. simpl. by rewrite H. Qed.

(** Everything but the value. *)
Lemma leaf_put_head size p I1 I2 txn_flags key data flags largepage it :
  page_holds size p (I1 ++ I2) -> is_leaf p = true -> item_ok true it ->
  it_word it = iov_len data -> it_flags it = u8 flags -> it_key it = key ->
  Z.of_nat (item_size it) + 2 <= page_room p ->
  exists mp D1 ds pad D2,
  length ds = length (it_data it) /\ length pad = (payload it mod 2)%nat /\
  leaf_put txn_flags p (length I1) key data flags (Z.of_nat (item_size it) + 2) largepage =
  leaf_value txn_flags mp (D1 ++ slot (le_bytes 4 (it_word it)) (it_flags it) 0 (le_bytes 2 (Z.of_nat (length key))) key ds pad ++ D2)
  (node_key (length D1) + length key) data flags largepage /\
  (forall value, length value = length ds -> item_ok true (mk_item (it_word it) (it_flags it) key value) ->
    page_holds size (with_body mp (D1 ++ image (mk_item (it_word it) (it_flags it) key value) pad ++ D2))
    (I1 ++ mk_item (it_word it) (it_flags it) key value :: I2)) /\
  page_flags mp = page_flags p /\ page_room mp = page_room p - Z.of_nat (item_size it) - 2.
Proof.
  intros Hp Hleaf Hit Hw Hf Hk Hroom. pose proof (page_numkeys_holds _ _ _ Hp) as Hn.
  destruct (open_slot size p I1 I2 (item_size it) Hp) as (b0 & D1 & S & D2 & E0 & E1 & HS & HD1 & Hent & Hhold);
    [lia|unfold item_size; lia|].
  destruct (slot_of S (length key) (length (it_data it))) as (w & f & x & k & ks & ds & pad & -> & Hlw & Hlk & Hlks & Hlds).
  { rewrite HS. unfold item_size, payload. rewrite Hk. lia. }
  assert (length pad = (payload it mod 2)%nat) as Hpad.
  { unfold slot, item_size, payload in *. repeat (rewrite length_app in HS || cbn [length] in HS). rewrite Hk in *. lia. }
  destruct (page_bounds _ _ _ Hp) as [Hb1 Hb2]. unfold page_room in *.
  assert (u16 (page_lower p + sizeof_indx_t) = page_lower p + 2) as El by (unfold u16, sizeof_indx_t; apply Z.mod_small; lia).
  assert (u16 (page_upper p - Z.of_nat (item_size it)) = page_upper p - Z.of_nat (item_size it)) as Eu by (unfold u16; apply Z.mod_small; lia).
  destruct Hit as (Hw0 & Hf0 & Hk0 & Hd0).
  exists (with_bounds (with_body p (D1 ++ slot w f x k ks ds pad ++ D2)) (page_lower p + 2) (page_upper p - Z.of_nat (item_size it))), D1, ds, pad, D2.
  split; [done|]. split; [done|]. split; [|split; [|split; [done|simpl; lia]]].
  - unfold leaf_put. rewrite Hn, E0. cbn [mbind option_bind].
    replace (page_upper p - (Z.of_nat (item_size it) + 2 - sizeof_indx_t)) with (page_upper p - Z.of_nat (item_size it)) by (unfold sizeof_indx_t; lia).
    rewrite decide_False by (unfold sizeof_indx_t; lia). rewrite E1. cbn [mbind option_bind]. rewrite El, Eu.
    unfold page_node. cbn [page_body with_bounds with_body]. rewrite Hent. cbn [mbind option_bind]. rewrite <- HD1, Nat2Z.id.
    rewrite slot_set_ks by done. cbn [mbind option_bind]. rewrite slot_set_flags by done. cbn [mbind option_bind].
    rewrite slot_set_extra by done. cbn [mbind option_bind]. unfold node_set_ds. rewrite slot_set_word by done. cbn [mbind option_bind].
    rewrite slot_set_key by (done || apply length_le_bytes). cbn [mbind option_bind].
    unfold node_data. rewrite slot_read_ks by (apply length_le_bytes || (rewrite <- Hk; lia)). cbn [mbind option_bind].
    rewrite Nat2Z.id, Hw, Hf, HD1. done.
  - intros value Hv Hok'. apply (Hhold _ (image (mk_item (it_word it) (it_flags it) key value) pad)); [| |by rewrite Hleaf|done].
    + exists pad. split; [done|]. rewrite Hpad. unfold payload. simpl. by rewrite Hk, Hv, Hlds.
    + rewrite (image_size (mk_item (it_word it) (it_flags it) key value)).
      * unfold item_size, payload. simpl. by rewrite Hk, Hv, Hlds.
      * exists pad. split; [done|]. rewrite Hpad. unfold payload. simpl. by rewrite Hk, Hv, Hlds.
Qed.

Lemma big_flag flags : Z.land (u8 flags) N_BIG = Z.land flags N_BIG.
Proof.
  unfold u8, N_BIG. change (2 ^ 8) with (2 ^ 8). rewrite <- Z.land_ones by lia. rewrite <- Z.land_assoc. done.
Qed.

Lemma node_size_item key len it :
  0 <= len < 2 ^ 32 -> Z.of_nat (length key) < 2 ^ 16 -> it_key it = key -> Z.of_nat (length (it_data it)) = len ->
  u64 (node_size_len (Z.of_nat (length key)) len + sizeof_indx_t) = Z.of_nat (item_size it) + 2.
Proof.
  intros Hl Hk E1 E2. unfold node_size_len. rewrite (u64_small (Z.of_nat (length key) + len)) by (unfold UINT64_MAX; lia).
  rewrite item_size_Z by (unfold payload; rewrite E1; lia). unfold payload. rewrite E1, Nat2Z.inj_add, E2, EVEN_CEIL_spec by lia.
  pose proof (Z.mod_pos_bound (Z.of_nat (length key) + len) 2 ltac:(lia)).
  unfold NODESIZE, sizeof_indx_t. rewrite (u64_small (8 + _)) by (unfold UINT64_MAX; lia). apply u64_small. unfold UINT64_MAX. lia.
Qed.

Lemma node_size_big key it :
  Z.of_nat (length key) < 2 ^ 16 -> it_key it = key -> length (it_data it) = 4%nat ->
  u64 (node_size_len (Z.of_nat (length key)) 0 + sizeof_pgno_t + sizeof_indx_t) = Z.of_nat (item_size it) + 2.
Proof.
  intros Hk E1 E2. unfold node_size_len. rewrite Z.add_0_r, (u64_small (Z.of_nat (length key))) by (unfold UINT64_MAX; lia).
  rewrite item_size_Z by (unfold payload; rewrite E1; lia). unfold payload. rewrite E1, E2, Nat2Z.inj_add, !EVEN_CEIL_spec by lia.
  change (Z.of_nat 4) with (2 * 2). rewrite Z.mod_add by lia. pose proof (Z.mod_pos_bound (Z.of_nat (length key)) 2 ltac:(lia)).
  unfold NODESIZE, sizeof_indx_t, sizeof_pgno_t. rewrite (u64_small (8 + _)) by (unfold UINT64_MAX; lia).
  rewrite u64_small by (unfold UINT64_MAX; lia). lia.
Qed.

(** The value of a node: what it says, and what it leaves. *)
Section add_leaf.
Context (size : nat) (p : page_t) (I1 I2 : list item) (Hp : page_holds size p (I1 ++ I2)) (Hleaf : is_leaf p = true).
Context (txn_flags : Z) (key : list Z) (data : MDBX_val) (flags : Z).
Context (Hkey : Z.of_nat (length key) < 2 ^ 16) (Hlen : 0 <= iov_len data < 2 ^ 32).

Abbreviation added value := (mk_item (iov_len data) (u8 flags) key value).

Lemma u8_bound x : 0 <= u8 x < 2 ^ 8.
Proof. unfold u8. apply Z.mod_pos_bound. lia. Qed.

(** A value in the node. *)
Lemma leaf_put_value value :
  Z.land flags N_BIG = 0 -> Z.land flags MDBX_RESERVE = 0 -> bytes_at (iov_mem data) 0 (Z.to_nat (iov_len data)) = Some value ->
  Z.of_nat (item_size (added value)) + 2 <= page_room p ->
  exists mp, leaf_put txn_flags p (length I1) key data flags (Z.of_nat (item_size (added value)) + 2) None =
  Some (mk_leaf_added MDBX_SUCCESS mp txn_flags None None) /\
  page_holds size mp (I1 ++ added value :: I2) /\ page_flags mp = page_flags p /\
  page_room mp = page_room p - Z.of_nat (item_size (added value)) - 2.
Proof.
  intros Hbig Hres Hv Hroom.
  assert (Z.of_nat (length value) = iov_len data) as Hvl.
  { unfold bytes_at in Hv. case_decide; [|done]. injection Hv as <-. rewrite length_take, length_drop. lia. }
  assert (item_ok true (added value)) as Hok.
  { split; [done|]. split; [apply u8_bound|]. split; [done|]. simpl. rewrite big_flag, decide_False by lia. done. }
  destruct (leaf_put_head size p I1 I2 txn_flags key data flags None _ Hp Hleaf Hok eq_refl eq_refl eq_refl Hroom)
    as (mp & D1 & ds & pad & D2 & Hds & Hpad & -> & Hhold & Hfl & Hr).
  unfold leaf_value. rewrite decide_False by lia. rewrite decide_False by lia. rewrite Hv. cbn [mbind option_bind].
  rewrite slot_set_data by (apply length_le_bytes || by rewrite Hds). cbn [mbind option_bind].
  eexists. split; [done|]. rewrite <- (image_slot (added value)). split; [by apply (Hhold value)|done].
Qed.

(** Room for a value in the node, which the caller fills. *)
Lemma leaf_put_reserved n :
  Z.land flags N_BIG = 0 -> Z.land flags MDBX_RESERVE <> 0 -> Z.of_nat n = iov_len data ->
  Z.of_nat (item_size (added (replicate n 0))) + 2 <= page_room p ->
  exists mp A B old, leaf_put txn_flags p (length I1) key data flags (Z.of_nat (item_size (added (replicate n 0))) + 2) None =
  Some (mk_leaf_added MDBX_SUCCESS mp txn_flags None (Some (in_page (length A)))) /\
  page_body mp = A ++ old ++ B /\ length old = n /\
  (forall value, length value = n -> page_holds size (with_body mp (A ++ value ++ B)) (I1 ++ added value :: I2)).
Proof.
  intros Hbig Hres Hn Hroom.
  assert (forall value, length value = n -> item_ok true (added value)) as Hok.
  { intros value Hv. split; [done|]. split; [apply u8_bound|]. split; [done|]. simpl. rewrite big_flag, decide_False by lia. lia. }
  destruct (leaf_put_head size p I1 I2 txn_flags key data flags None (added (replicate n 0)) Hp Hleaf
    (Hok _ (length_replicate _ _)) eq_refl eq_refl eq_refl Hroom) as (mp & D1 & ds & pad & D2 & Hds & Hpad & -> & Hhold & Hfl & Hr).
  unfold leaf_value. rewrite decide_False by lia. rewrite decide_True by done. cbn [it_word it_flags it_key it_data] in *.
  rewrite length_replicate in Hds.
  exists (with_body mp (D1 ++ slot (le_bytes 4 (iov_len data)) (u8 flags) 0 (le_bytes 2 (Z.of_nat (length key))) key ds pad ++ D2)),
    (D1 ++ le_bytes 4 (iov_len data) ++ u8 flags :: 0 :: le_bytes 2 (Z.of_nat (length key)) ++ key), (pad ++ D2), ds.
  split_and!; [| |done|].
  - do 4 f_equal. rewrite length_app, length_app, length_le_bytes. cbn [length]. rewrite length_app, length_le_bytes. unfold node_key. lia.
  - cbn [page_body with_body]. unfold slot. repeat (rewrite <- app_assoc || rewrite <- app_comm_cons). done.
  - intros value Hv. specialize (Hhold value). unfold with_body in *. cbn [page_txnid dupfix_ksize page_flags page_lower page_upper page_pgno page_body] in *.
    match goal with |- page_holds _ (mk_page _ _ _ _ _ _ ?b) _ =>
      replace b with (D1 ++ image (added value) pad ++ D2) end.
    + apply Hhold; [lia|by apply Hok].
    + rewrite image_slot. unfold slot. repeat (rewrite <- app_assoc || rewrite <- app_comm_cons). done.
Qed.

(** A node with the number of a large page, which the caller gives. *)
Lemma leaf_put_pgno value :
  Z.land flags N_BIG <> 0 -> bytes_at (iov_mem data) 0 4 = Some value ->
  Z.of_nat (item_size (added value)) + 2 <= page_room p ->
  exists mp, leaf_put txn_flags p (length I1) key data flags (Z.of_nat (item_size (added value)) + 2) None =
  Some (mk_leaf_added MDBX_SUCCESS mp txn_flags None None) /\
  page_holds size mp (I1 ++ added value :: I2) /\ page_flags mp = page_flags p /\
  page_room mp = page_room p - Z.of_nat (item_size (added value)) - 2.
Proof.
  intros Hbig Hv Hroom.
  assert (length value = 4%nat) as Hvl.
  { unfold bytes_at in Hv. case_decide; [|done]. injection Hv as <-. rewrite length_take, length_drop. lia. }
  assert (item_ok true (added value)) as Hok.
  { split; [done|]. split; [apply u8_bound|]. split; [done|]. simpl. rewrite big_flag, decide_True by done. by rewrite Hvl. }
  destruct (leaf_put_head size p I1 I2 txn_flags key data flags None _ Hp Hleaf Hok eq_refl eq_refl eq_refl Hroom)
    as (mp & D1 & ds & pad & D2 & Hds & Hpad & -> & Hhold & Hfl & Hr).
  unfold leaf_value. rewrite decide_True by done. rewrite Hv. cbn [mbind option_bind].
  rewrite slot_set_data by (apply length_le_bytes || by rewrite Hds). cbn [mbind option_bind].
  eexists. split; [done|]. rewrite <- (image_slot (added value)). split; [by apply (Hhold value)|done].
Qed.

(** A value that goes to a large page. *)
Lemma leaf_put_large pgno value :
  Z.land flags N_BIG <> 0 -> bytes_at (iov_mem data) 0 (Z.to_nat (iov_len data)) = Some value ->
  Z.of_nat (item_size (added (le_bytes 4 pgno))) + 2 <= page_room p ->
  exists mp, leaf_put txn_flags p (length I1) key data flags (Z.of_nat (item_size (added (le_bytes 4 pgno))) + 2) (Some pgno) =
  Some (if decide (Z.land flags MDBX_RESERVE <> 0)
        then mk_leaf_added MDBX_SUCCESS mp txn_flags (Some (pgno, [])) (Some (in_large pgno))
        else mk_leaf_added MDBX_SUCCESS mp txn_flags (Some (pgno, value)) None) /\
  page_holds size mp (I1 ++ added (le_bytes 4 pgno) :: I2) /\ page_flags mp = page_flags p /\
  page_room mp = page_room p - Z.of_nat (item_size (added (le_bytes 4 pgno))) - 2.
Proof.
  intros Hbig Hv Hroom.
  assert (item_ok true (added (le_bytes 4 pgno))) as Hok.
  { split; [done|]. split; [apply u8_bound|]. split; [done|]. simpl. rewrite big_flag, decide_True by done. done. }
  destruct (leaf_put_head size p I1 I2 txn_flags key data flags (Some pgno) _ Hp Hleaf Hok eq_refl eq_refl eq_refl Hroom)
    as (mp & D1 & ds & pad & D2 & Hds & Hpad & -> & Hhold & Hfl & Hr).
  unfold leaf_value. rewrite slot_store_data by (apply length_le_bytes || by rewrite Hds). cbn [mbind option_bind].
  exists (with_body mp (D1 ++ image (added (le_bytes 4 pgno)) pad ++ D2)). rewrite <- (image_slot (added (le_bytes 4 pgno))).
  split; [|split; [by apply (Hhold (le_bytes 4 pgno))|done]].
  case_decide; [done|]. by rewrite Hv.
Qed.
End add_leaf.

(** ** Adding to a branch *)

Lemma branch_size_item nodemax key it :
  Z.of_nat (length (default [] key)) < 2 ^ 16 -> it_key it = default [] key -> it_data it = [] ->
  Z.of_nat (item_size it) <= nodemax -> branch_size nodemax (val_of <$> key) = Some (Z.of_nat (item_size it) + 2).
Proof.
  intros Hk E1 E2 Hmax. unfold branch_size.
  pose proof (node_size_item (default [] key) 0 it ltac:(lia) Hk E1) as H. rewrite E2 in H. specialize (H eq_refl).
  assert (node_size (val_of <$> key) None = Z.of_nat (item_size it)) as En.
  { assert (node_size (val_of <$> key) None = node_size_len (Z.of_nat (length (default [] key))) 0) as -> by by destruct key.
    unfold node_size_len in *. rewrite Z.add_0_r, (u64_small (Z.of_nat _)) in * by (unfold UINT64_MAX; lia).
    rewrite EVEN_CEIL_spec in * by lia. pose proof (Z.mod_pos_bound (Z.of_nat (length (default [] key))) 2 ltac:(lia)).
    unfold NODESIZE, sizeof_indx_t in *. rewrite (u64_small (8 + _)) in * by (unfold UINT64_MAX; lia).
    rewrite u64_small in H by (unfold UINT64_MAX; lia). lia. }
  rewrite En, decide_False by lia. f_equal. unfold sizeof_indx_t. apply u64_small. unfold UINT64_MAX.
  unfold item_size, payload. rewrite E1, E2. simpl length. pose proof (Nat.mod_upper_bound (length (default [] key) + 0) 2). lia.
Qed.

Lemma node_add_branch_spec size p I1 I2 nodemax txn_flags key pgno :
  let it := mk_item pgno 0 (default [] key) [] in
  page_holds size p (I1 ++ I2) -> is_leaf p = false -> Z.of_nat (length (default [] key)) < 2 ^ 16 ->
  Z.of_nat (item_size it) <= nodemax -> 0 <= pgno < 2 ^ 32 ->
  exists rc mp flags, node_add_branch nodemax txn_flags p (length I1) key pgno = Some (rc, mp, flags) /\
  if decide (Z.of_nat (item_size it) + 2 <= page_room p)
  then rc = MDBX_SUCCESS /\ flags = txn_flags /\ page_holds size mp (I1 ++ it :: I2) /\ page_flags mp = page_flags p /\
    page_room mp = page_room p - Z.of_nat (item_size it) - 2
  else rc = MDBX_PAGE_FULL /\ mp = p /\ flags = Z.lor txn_flags MDBX_TXN_ERROR.
Proof.
  intros it Hp Hleaf Hk Hmax Hpg. unfold node_add_branch.
  rewrite (branch_size_item nodemax key it) by done. cbn [mbind option_bind].
  replace (page_upper p - (Z.of_nat (item_size it) + 2 - sizeof_indx_t)) with (page_upper p - Z.of_nat (item_size it)) by (unfold sizeof_indx_t; lia).
  unfold page_room. case_decide as Hfull.
  { eexists _, _, _. split; [done|]. unfold sizeof_indx_t in Hfull. rewrite decide_False by lia. done. }
  unfold sizeof_indx_t in Hfull. rewrite (page_numkeys_holds _ _ _ Hp).
  destruct (open_slot size p I1 I2 (item_size it) Hp) as (b0 & D1 & S & D2 & E0 & E1 & HS & HD1 & Hent & Hhold);
    [unfold page_room; lia|unfold item_size; lia|].
  destruct (slot_of S (length (it_key it)) 0) as (w & f & x & k & ks & ds & pad & -> & Hlw & Hlk & Hlks & Hlds).
  { rewrite HS. unfold item_size, payload. simpl. lia. }
  assert (length pad = (payload it mod 2)%nat) as Hpad.
  { unfold slot, item_size, payload in *. repeat (rewrite length_app in HS || cbn [length] in HS). simpl in *. lia. }
  destruct (page_bounds _ _ _ Hp) as [Hb1 Hb2].
  assert (u16 (page_lower p + sizeof_indx_t) = page_lower p + 2) as El by (unfold u16, sizeof_indx_t; apply Z.mod_small; lia).
  assert (u16 (page_upper p - Z.of_nat (item_size it)) = page_upper p - Z.of_nat (item_size it)) as Eu by (unfold u16; apply Z.mod_small; lia).
  rewrite E0. cbn [mbind option_bind]. rewrite E1. cbn [mbind option_bind]. rewrite El, Eu.
  unfold page_node. cbn [page_body with_bounds with_body]. rewrite Hent. cbn [mbind option_bind]. rewrite <- HD1, Nat2Z.id.
  unfold node_set_pgno. rewrite slot_set_word by done. cbn [mbind option_bind].
  rewrite slot_set_flags by (apply length_le_bytes || done). cbn [mbind option_bind].
  rewrite slot_set_extra by (apply length_le_bytes || done). cbn [mbind option_bind].
  rewrite slot_set_ks by (apply length_le_bytes || done). cbn [mbind option_bind].
  destruct ds; [|done].
  assert (match key with
    | Some key => b ← node_set_ks (D1 ++ slot (le_bytes 4 pgno) 0 0 (le_bytes 2 0) ks [] pad ++ D2) (length D1) (Z.of_nat (length key)); memcpy b (node_key (length D1)) key
    | None => Some (D1 ++ slot (le_bytes 4 pgno) 0 0 (le_bytes 2 0) ks [] pad ++ D2) end = Some (D1 ++ image it pad ++ D2)) as ->.
  { rewrite image_slot. destruct key as [key|].
    - rewrite slot_set_ks by (apply length_le_bytes || done). cbn [mbind option_bind].
      rewrite slot_set_key by (apply length_le_bytes || (symmetry; exact Hlks)). done.
    - destruct ks; [done|]. simpl in Hlks. lia. }
  cbn [mbind option_bind]. eexists _, _, _. split; [done|]. rewrite decide_True by lia. split; [done|]. split; [done|]. split; [|split; [done|simpl; lia]].
  apply (Hhold it (image it pad)).
  - exists pad. split; [reflexivity|exact Hpad].
  - apply image_size. exists pad. split; [reflexivity|exact Hpad].
  - rewrite Hleaf. split; [exact Hpg|]. split; [simpl; lia|]. split; [exact Hk|reflexivity].
  - by rewrite HD1.
Qed.

(** ** Pages of fixed size keys *)

Record dupfix_holds (size k : nat) (p : page_t) (keys : list (list Z)) : Prop := {
  dh_size : length (page_body p) = size;
  dh_max : Z.of_nat size < 2 ^ 16;
  dh_flag : is_dupfix_leaf p = true;
  dh_ksize : dupfix_ksize p = Z.of_nat k /\ (2 <= k)%nat;
  dh_keys : Forall (fun key => length key = k) keys;
  dh_lower : page_lower p = 2 * Z.of_nat (length keys);
  dh_upper : page_upper p = Z.of_nat size - Z.of_nat (length keys) * (Z.of_nat k - 2);
  dh_body : exists F, page_body p = concat keys ++ F
}.

Lemma length_concat_same k (keys : list (list Z)) : Forall (fun key => length key = k) keys -> length (concat keys) = (length keys * k)%nat.
Proof. induction 1 as [|x l Hx Hl IH]; simpl; [done|]. rewrite length_app, Hx, IH. lia. Qed.

Section dupfix.
Context (size k : nat) (p : page_t) (keys : list (list Z)) (Hp : dupfix_holds size k p keys).

Lemma dupfix_numkeys : page_numkeys p = length keys.
Proof.
  unfold page_numkeys. rewrite (dh_lower _ _ _ _ Hp), Z.shiftr_div_pow2 by lia. change (2 ^ 1) with 2.
  rewrite Z.mul_comm, Z.div_mul by lia. lia.
Qed.

Lemma dupfix_used : (length keys * k <= size)%nat.
Proof.
  destruct Hp as [Hs _ _ _ Hk _ _ [F Hb]]. apply (f_equal length) in Hb.
  rewrite Hs, length_app, (length_concat_same k) in Hb by done. lia.
Qed.

Lemma dupfix_ptr i : (i <= length keys)%nat -> page_dupfix_ptr p i = (i * k)%nat.
Proof.
  intros Hi. pose proof dupfix_used. unfold page_dupfix_ptr, u16. destruct Hp as [_ Hm _ [-> Hk] _ _ _ _].
  rewrite Z.mod_small by nia. nia.
Qed.

Lemma dupfix_key i key : keys !! i = Some key -> page_dupfix_key p i = Some key.
Proof.
  intros Hi. apply lookup_lt_Some in Hi as Hlt. unfold page_dupfix_key. rewrite dupfix_ptr by lia.
  destruct Hp as [_ _ _ [Ek Hk2] Hk _ _ [F Hb]]. rewrite Ek, Nat2Z.id, Hb.
  apply list_split_at in Hi as (K1 & K2 & -> & HK1). apply Forall_app in Hk as [Hk1 Hk']. apply Forall_cons in Hk' as [Hkey _].
  rewrite concat_app. cbn [concat]. rewrite <- !app_assoc. apply bytes_at_app; [|done]. by rewrite (length_concat_same k), HK1.
Qed.
End dupfix.

Lemma node_add_dupfix_spec size k p K1 K2 txn_flags key :
  dupfix_holds size k p (K1 ++ K2) -> length key = k ->
  exists rc mp flags, node_add_dupfix txn_flags (Z.of_nat k) p (length K1) key = Some (rc, mp, flags) /\
  if decide (Z.of_nat k <= page_room p)
  then rc = MDBX_SUCCESS /\ flags = txn_flags /\ dupfix_holds size k mp (K1 ++ key :: K2)
  else rc = MDBX_PAGE_FULL /\ mp = p /\ flags = Z.lor txn_flags MDBX_TXN_ERROR.
Proof.
  intros Hp Hkey. pose proof (dupfix_used _ _ _ _ Hp) as Hused. pose proof (dupfix_numkeys _ _ _ _ Hp) as Hn.
  unfold node_add_dupfix, page_room. unfold sizeof_indx_t. case_decide as Hfull.
  { eexists _, _, _. split; [done|]. rewrite decide_False by lia. done. }
  destruct Hp as [Hs Hm Hfl [Hk Hk2] Hks Hlow Hup [F Hb]]. rewrite length_app in *.
  assert (length (K1 ++ K2) * k + k <= size)%nat as Hroom by (rewrite length_app; nia). rewrite length_app in Hroom.
  assert (u16 (page_lower p + 2) = page_lower p + 2) as El by (unfold u16; apply Z.mod_small; nia).
  assert (u16 (page_upper p - (Z.of_nat k - 2)) = page_upper p - (Z.of_nat k - 2)) as Eu by (unfold u16; apply Z.mod_small; nia).
  rewrite El, Eu. rewrite Hn, Nat2Z.id.
  assert (page_dupfix_ptr (with_bounds p (page_lower p + 2) (page_upper p - (Z.of_nat k - 2))) (length K1) = length (concat K1)) as ->.
  { unfold page_dupfix_ptr, u16. cbn [dupfix_ksize with_bounds]. rewrite Hk, Z.mod_small by nia.
    apply Forall_app in Hks as [H1 _]. rewrite (length_concat_same k) by done. nia. }
  apply Forall_app in Hks as [Hks1 Hks2].
  assert (length F = (size - (length K1 + length K2) * k)%nat) as HF.
  { apply (f_equal length) in Hb. rewrite Hs, concat_app, !length_app, !(length_concat_same k) in Hb by done. nia. }
  rewrite <- (take_drop k F) in Hb. assert (length (take k F) = k) as Hg by (rewrite length_take; nia).
  revert Hb Hg. generalize (take k F), (drop k F). intros g R Hb Hg.
  assert (exists G, length G = k /\
    (if decide (0 < length K1 + length K2 - length K1)%nat
    then memmove (page_body (with_bounds p (page_lower p + 2) (page_upper p - (Z.of_nat k - 2)))) (length (concat K1) + k) (length (concat K1))
    ((length K1 + length K2 - length K1) * k)
    else Some (page_body (with_bounds p (page_lower p + 2) (page_upper p - (Z.of_nat k - 2))))) =
    Some (concat K1 ++ G ++ concat K2 ++ R)) as (G & HG & ->).
  { cbn [page_body with_bounds]. rewrite Hb. replace (concat (K1 ++ K2) ++ g ++ R) with (concat K1 ++ concat K2 ++ g ++ R) by (rewrite concat_app, <- app_assoc; done).
    case_decide as Hd.
    - destruct (memmove_up (concat K1) (concat K2) g R k (length (concat K1)) Hg eq_refl) as (G & HG & E).
      exists G. split; [done|]. rewrite <- E. f_equal. rewrite (length_concat_same k) by done. f_equal. lia.
    - destruct K2; [|simpl in Hd; lia]. exists g. done. }
  cbn [mbind option_bind]. unfold bytes_at. rewrite decide_True by lia. rewrite drop_0, take_ge by lia. cbn [mbind option_bind].
  rewrite memcpy_app by (done || lia). cbn [mbind option_bind]. eexists _, _, _. split; [done|]. rewrite decide_True by lia.
  split; [done|]. split; [done|]. split; cbn [page_body page_lower page_upper with_body with_bounds].
  - rewrite !length_app, !(length_concat_same k) by done. apply (f_equal length) in Hb. rewrite Hs, concat_app, !length_app, !(length_concat_same k) in Hb by done. lia.
  - done.
  - done.
  - done.
  - apply Forall_app. split; [done|by constructor].
  - rewrite Hlow, length_app. cbn [length]. lia.
  - rewrite Hup, length_app. cbn [length]. nia.
  - exists R. rewrite concat_app. cbn [concat]. by rewrite <- !app_assoc.
Qed.

Lemma memmove_down (D1 X Y D2 : list Z) base k :
  base = length D1 -> length X = k -> memmove (D1 ++ X ++ Y ++ D2) base (base + k) (length Y) =
  Some (D1 ++ Y ++ drop (length Y) (X ++ Y) ++ D2).
Proof.
  intros -> <-. unfold memmove, blit. rewrite decide_True by (rewrite !length_app; lia). f_equal.
  rewrite take_app_length, drop_app_add, drop_app_length, take_app_length. do 2 f_equal.
  rewrite drop_app_add, (app_assoc X Y D2). rewrite drop_app_le by (rewrite length_app; lia). done.
Qed.

Lemma node_del_dupfix_spec size k p K1 key K2 :
  dupfix_holds size k p (K1 ++ key :: K2) ->
  exists mp, node_del p (length K1) (Z.of_nat k) = Some mp /\ dupfix_holds size k mp (K1 ++ K2).
Proof.
  intros Hp. pose proof (dupfix_used _ _ _ _ Hp) as Hused. pose proof (dupfix_numkeys _ _ _ _ Hp) as Hn.
  pose proof (dupfix_ptr _ _ _ _ Hp (length K1)) as Hptr. rewrite length_app in *. cbn [length] in *.
  unfold node_del. rewrite (dh_flag _ _ _ _ Hp). unfold node_del_dupfix, sizeof_indx_t. rewrite Hn, Hptr, Nat2Z.id by lia.
  destruct Hp as [Hs Hm Hfl [Hk Hk2] Hks Hlow Hup [F Hb]]. rewrite length_app in *. cbn [length] in *.
  apply Forall_app in Hks as [Hks1 Hks']. apply Forall_cons in Hks' as [Hkey Hks2].
  rewrite concat_app in Hb. cbn [concat] in Hb. rewrite <- !app_assoc in Hb.
  assert (length F + (length K1 + S (length K2)) * k = size)%nat as HF.
  { apply (f_equal length) in Hb. rewrite Hs, !length_app, !(length_concat_same k) in Hb by done. nia. }
  assert (u16 (page_lower p - 2) = page_lower p - 2) as El by (unfold u16; apply Z.mod_small; nia).
  assert (u16 (page_upper p + u16 (Z.of_nat k - 2)) = page_upper p + (Z.of_nat k - 2)) as Eu.
  { unfold u16. rewrite (Z.mod_small (Z.of_nat k - 2)) by nia. apply Z.mod_small. nia. }
  rewrite El, Eu. replace (length K1 + S (length K2) - 1 - length K1)%nat with (length K2) by lia.
  assert (exists G, (if decide (length K2 <> 0)%nat then memmove (page_body p) (length K1 * k) (length K1 * k + k) (length K2 * k) else Some (page_body p)) =
    Some (concat K1 ++ concat K2 ++ G) /\ length G = (length F + k)%nat) as (G & -> & HG).
  { rewrite Hb. case_decide as Hd.
    - pose proof (memmove_down (concat K1) key (concat K2) F (length K1 * k) k) as H.
      rewrite !(length_concat_same k) in H by done. rewrite H by done. eexists. split; [done|].
      rewrite length_app, length_drop, length_app, Hkey, (length_concat_same k) by done. lia.
    - destruct K2; [|simpl in Hd; lia]. exists (key ++ F). split; [done|]. rewrite length_app. lia. }
  cbn [mbind option_bind]. eexists. split; [done|]. split; cbn [page_body page_lower page_upper with_body with_bounds].
  - rewrite !length_app, !(length_concat_same k) by done. nia.
  - done.
  - done.
  - done.
  - by apply Forall_app.
  - rewrite Hlow, length_app. lia.
  - rewrite Hup, length_app. nia.
  - exists G. by rewrite concat_app, <- app_assoc.
Qed.

(** ** New pages and copies *)

Lemma page_new_holds fresh flags ps :
  length (page_body fresh) = Z.to_nat (ps - PAGEHDRSZ) -> 0 <= flags < 2 ^ 16 -> Z.land flags P_DUPFIX = 0 -> PAGEHDRSZ <= ps <= 2 ^ 16 ->
  page_holds (length (page_body fresh)) (page_new fresh flags ps) [].
Proof.
  intros Hb Hf Hd Hps. unfold PAGEHDRSZ in *. split; cbn [page_new page_body page_lower page_upper].
  - done.
  - lia.
  - unfold is_dupfix_leaf, page_new. cbn [page_flags]. unfold u16. rewrite Z.mod_small, Hd by done. done.
  - constructor.
  - done.
  - exists [], [], [], (page_body fresh). cbn. rewrite app_nil_r. unfold u16. rewrite Z.mod_small by (unfold PAGEHDRSZ; lia).
    split_and!; try done. unfold PAGEHDRSZ. lia.
Qed.

(** Two bodies of one size that agree on the table and on the nodes. *)
Lemma page_holds_copy size p items b :
  page_holds size p items -> length b = size ->
  take (Z.to_nat (page_lower p)) b = take (Z.to_nat (page_lower p)) (page_body p) ->
  drop (Z.to_nat (page_upper p)) b = drop (Z.to_nat (page_upper p)) (page_body p) ->
  page_holds size (with_body p b) items.
Proof.
  intros Hp Hb Ht Hd. pose proof (page_bounds _ _ _ Hp) as [Hb1 Hb2].
  destruct Hp as [Hsize Hmax Hdf Hok Hlow (offs & images & phys & F & Eb & Hup & Him & Hlen & Hperm & Hpl)].
  split; try done. cbn [page_body with_body page_upper].
  assert (length (concat (table offs)) = Z.to_nat (page_lower p)) as Hlt.
  { rewrite length_concat_chunks, length_table by apply table_chunks. apply Forall2_length in Him. lia. }
  exists offs, images, phys, (take (length F) (drop (Z.to_nat (page_lower p)) b)). split_and!; try done.
  - rewrite <- (take_drop (Z.to_nat (page_lower p)) b) at 1. rewrite Ht, Eb, <- Hlt, take_app_length. f_equal.
    rewrite <- (take_drop (length F) (drop (length (concat (table offs))) b)) at 1. f_equal. rewrite drop_drop.
    replace (length (concat (table offs)) + length F)%nat with (Z.to_nat (page_upper p)) by lia. rewrite Hd, Eb.
    replace (Z.to_nat (page_upper p)) with (length (concat (table offs)) + length F)%nat by lia.
    by rewrite drop_app_add, drop_app_length.
  - rewrite length_take, length_drop, Hb. lia.
Qed.

Lemma blit_same_part (a b : list Z) from n :
  length a = length b -> (from + n <= length a)%nat ->
  exists b', blit a from b from n = Some b' /\ length b' = length b /\
  (forall i, b' !! i = if decide (from <= i < from + n)%nat then a !! i else b !! i).
Proof.
  intros Hl Hn. unfold blit. rewrite decide_True by lia. eexists. split; [done|]. split.
  - rewrite !length_app, !length_take, !length_drop. lia.
  - intros i. destruct (decide (i < from)%nat).
    + rewrite lookup_app_l by (rewrite length_take; lia). rewrite lookup_take_lt by done. rewrite decide_False by lia. done.
    + rewrite lookup_app_r by (rewrite length_take; lia). rewrite length_take, Nat.min_l by lia.
      destruct (decide (i < from + n)%nat).
      * rewrite lookup_app_l by (rewrite length_take, length_drop; lia). rewrite lookup_take_lt by lia. rewrite lookup_drop.
        rewrite decide_True by lia. f_equal. lia.
      * rewrite lookup_app_r by (rewrite length_take, length_drop; lia). rewrite length_take, length_drop, lookup_drop.
        rewrite decide_False by lia. f_equal. lia.
Qed.

Lemma take_ext (a b : list Z) n : (forall i, (i < n)%nat -> a !! i = b !! i) -> take n a = take n b.
Proof.
  intros H. apply list_eq. intros i. destruct (decide (i < n)%nat).
  - rewrite !lookup_take_lt by done. auto.
  - rewrite !lookup_take_ge by lia. done.
Qed.

Lemma drop_ext (a b : list Z) n : (forall i, (n <= i)%nat -> a !! i = b !! i) -> drop n a = drop n b.
Proof. intros H. apply list_eq. intros i. rewrite !lookup_drop. apply H. lia. Qed.

Lemma page_copy_holds size p items dst cacheline :
  page_holds size p items -> length (page_body dst) = size -> 8 <= cacheline -> 2 ^ 3 * ((Z.of_nat size + PAGEHDRSZ) / 2 ^ 3) = Z.of_nat size + PAGEHDRSZ ->
  exists q, page_copy cacheline dst p (Z.of_nat size + PAGEHDRSZ) = Some q /\ page_holds size q items /\
  (page_txnid q, page_flags q, page_pgno q, page_lower q, page_upper q) = (page_txnid p, page_flags p, page_pgno p, page_lower p, page_upper p).
Proof.
  intros Hp Hd Hc Hps. pose proof (page_bounds _ _ _ Hp) as [Hb1 Hb2]. pose proof (ph_size _ _ _ Hp) as Hs.
  assert (Z.land (page_flags p) P_DUPFIX = 0) as Hnd.
  { pose proof (ph_dupfix _ _ _ Hp) as H. unfold is_dupfix_leaf in H. apply bool_decide_eq_false_1 in H. lia. }
  unfold page_copy, copy_used. rewrite decide_False by lia. unfold PAGEHDRSZ, page_room in *.
  destruct (decide (Z.land (page_flags p) P_LARGE = 0 /\ page_upper p - page_lower p > cacheline * 3)) as [[_ Hroom]|_].
  - change (ceil_powerof2 (page_lower p + 20) 8) with (ceil_powerof2 (page_lower p + 20) (2 ^ 3)).
    change (floor_powerof2 (page_upper p + 20) 8) with (floor_powerof2 (page_upper p + 20) (2 ^ 3)).
    rewrite (floor_powerof2_spec (page_upper p + 20) 3) by lia.
    destruct (ceil_powerof2_spec (page_lower p + 20) 3) as [Hlo _]; [lia|lia|lia|].
    set (lo := ceil_powerof2 (page_lower p + 20) (2 ^ 3)) in *. change (2 ^ 3) with 8 in *.
    pose proof (Z.div_mod (page_upper p + 20) 8 ltac:(lia)). pose proof (Z.mod_pos_bound (page_upper p + 20) 8 ltac:(lia)).
    set (up := 8 * ((page_upper p + 20) / 8)) in *. assert (up <= page_upper p + 20 < up + 8) by (unfold up; lia).
    rewrite decide_False by lia.
    destruct (blit_same_part (page_body p) (page_body dst) 0 (Z.to_nat (lo - 20))) as (b1 & -> & Hl1 & Hb1'); [lia|lia|].
    cbn [mbind option_bind].
    destruct (blit_same_part (page_body p) b1 (Z.to_nat (up - 20)) (Z.to_nat (Z.of_nat size + 20 - up))) as (b2 & -> & Hl2 & Hb2'); [lia|lia|].
    cbn [mbind option_bind]. eexists. split; [done|]. split; [|done]. apply (page_holds_copy size p items b2 Hp); [lia| |].
    + apply take_ext. intros i Hi. rewrite Hb2', Hb1'. repeat case_decide; (done || lia).
    + apply drop_ext. intros i Hi. rewrite Hb2', Hb1'.
      destruct (decide (i < size)%nat); [rewrite decide_True by lia; done|].
      rewrite !decide_False by lia. rewrite !lookup_ge_None_2 by lia. done.
  - destruct (blit_same_part (page_body p) (page_body dst) 0 (Z.to_nat (Z.of_nat size + 20 - 20))) as (b1 & -> & Hl1 & Hb1'); [lia|lia|].
    cbn [mbind option_bind]. eexists. split; [done|]. split; [|done]. apply (page_holds_copy size p items b1 Hp); [lia| |].
    + apply take_ext. intros i Hi. rewrite Hb1'. rewrite decide_True by lia. done.
    + apply drop_ext. intros i Hi. rewrite Hb1'. case_decide; [done|]. rewrite !lookup_ge_None_2 by lia. done.
Qed.
