(* ===== verification/PageProps.v ===== *)
(** * Pages and nodes: properties *)

From S2P Require Import Prelude Meta Cmp CmpProps Page PageFacts PageOps.

(** Reading node [i] through the table gives item [it]. *)
Definition reads (p : page_t) (i : nat) (it : item) : Prop :=
  exists node d, page_node p i = Some node /\ get_key (page_body p) node = Some (it_key it) /\
  node_pgno (page_body p) node = Some (it_word it) /\ node_ds (page_body p) node = Some (it_word it) /\
  node_flags (page_body p) node = Some (it_flags it) /\
  node_data (page_body p) node = Some d /\ bytes_at (page_body p) d (length (it_data it)) = Some (it_data it).

Lemma reads_item size p items i it : page_holds size p items -> items !! i = Some it -> reads p i it.
Proof.
  intros Hp Hi. destruct (page_locate _ _ _ Hp i it Hi) as (A & e & B & Hb & (pad & -> & _) & _ & Hn).
  pose proof (proj1 (Forall_lookup _ _) (ph_items _ _ _ Hp) i it Hi) as Hok.
  destruct (read_data _ it Hok A B pad) as (d & Hd & Hv). destruct (read_word _ it Hok A B pad) as [H1 H2].
  exists (length A), d. rewrite Hb. split_and!; try done; [by eapply read_key|by eapply read_flags].
Qed.

Lemma node_size_val key data it :
  0 <= iov_len data < 2 ^ 32 -> Z.of_nat (length key) < 2 ^ 16 -> it_key it = key -> Z.of_nat (length (it_data it)) = iov_len data ->
  u64 (node_size (Some (val_of key)) (Some data) + sizeof_indx_t) = Z.of_nat (item_size it) + 2.
Proof. intros. by apply node_size_item. Qed.

(** C4. The nodes of a leaf are a list.  Reading gives the key, the flags and the
    value of a node, and deleting removes one and gives its room back, in every leaf,
    full or not.  Adding, when there is room for it, a value which is not too long for
    a node (and whose flags do not say that it is on large pages already) inserts it
    with its key in front of the given index, and with [MDBX_RESERVE] leaves the bytes
    of the value to the caller at the place it returns. *)
Theorem leaf_refines_list size p I1 I2 page_new_large ps2ln leaf_nodemax tree_flags txn_flags key data flags :
  page_holds size p (I1 ++ I2) -> is_leaf p = true ->
  let add := node_add_leaf page_new_large ps2ln leaf_nodemax tree_flags txn_flags p (length I1) key data flags in
  (forall i it, (I1 ++ I2) !! i = Some it -> reads p i it) /\
  (forall it I2' ksize, I2 = it :: I2' -> exists p', node_del p (length I1) ksize = Some p' /\ page_holds size p' (I1 ++ I2') /\
    page_flags p' = page_flags p /\ page_room p' = page_room p + 2 + Z.of_nat (item_size it)) /\
  (Z.of_nat (length key) < 2 ^ 16 -> 0 <= iov_len data < 2 ^ 32 ->
    Z.land flags N_BIG = 0 -> node_size (Some (val_of key)) (Some data) <= leaf_nodemax ->
    u64 (node_size (Some (val_of key)) (Some data) + sizeof_indx_t) <= page_room p ->
    (forall value, Z.land flags MDBX_RESERVE = 0 -> bytes_at (iov_mem data) 0 (Z.to_nat (iov_len data)) = Some value ->
      let it := mk_item (iov_len data) (u8 flags) key value in
      exists mp, add = Some (mk_leaf_added MDBX_SUCCESS mp txn_flags None None) /\ page_holds size mp (I1 ++ it :: I2) /\
      page_flags mp = page_flags p /\ page_room mp = page_room p - Z.of_nat (item_size it) - 2) /\
    (Z.land flags MDBX_RESERVE <> 0 -> exists mp A B old,
      add = Some (mk_leaf_added MDBX_SUCCESS mp txn_flags None (Some (in_page (length A)))) /\
      page_body mp = A ++ old ++ B /\ Z.of_nat (length old) = iov_len data /\
      (forall value, length value = length old ->
        page_holds size (with_body mp (A ++ value ++ B)) (I1 ++ mk_item (iov_len data) (u8 flags) key value :: I2)))).
Proof.
  intros Hp Hleaf add. split; [|split; [|intros Hk Hd Hbig Hmax Hroom; split]].
  - intros i it Hi. by eapply reads_item.
  - intros it I2' ksize ->. by apply node_del_holds.
  - intros value Hres Hv it.
    assert (Z.of_nat (length value) = iov_len data) as Hvl.
    { unfold bytes_at in Hv. case_decide; [|done]. injection Hv as <-. rewrite length_take, length_drop. lia. }
    rewrite (node_size_val key data it Hd Hk eq_refl Hvl) in Hroom. unfold add, node_add_leaf.
    rewrite decide_False, decide_False by lia. rewrite (node_size_val key data it Hd Hk eq_refl Hvl). by apply leaf_put_value.
  - intros Hres. set (it := mk_item (iov_len data) (u8 flags) key (replicate (Z.to_nat (iov_len data)) 0)).
    assert (Z.of_nat (length (it_data it)) = iov_len data) as Hvl by (simpl; rewrite length_replicate; lia).
    rewrite (node_size_val key data it Hd Hk eq_refl Hvl) in Hroom. unfold add, node_add_leaf.
    rewrite decide_False, decide_False by lia. rewrite (node_size_val key data it Hd Hk eq_refl Hvl).
    unfold it in *. destruct (leaf_put_reserved size p I1 I2 Hp Hleaf txn_flags key data flags Hk Hd (Z.to_nat (iov_len data)))
      as (mp & A & B & old & -> & Hb & Ho & Hh); [done|done|lia|done|].
    exists mp, A, B, old. split; [done|]. split; [done|]. split; [lia|]. rewrite Ho. exact Hh.
Qed.

(** A value which is too long for a node goes to a large page, or is refused:
    in a table of duplicates, or with the flags of a subpage or subtree, with
    [MDBX_PROBLEM], and with its error when no large page is to be had, in both
    cases without a change of the page.  Else the node has the number of the
    large page, the length of the value and [N_BIG], and the value is written to
    the large page unless the caller reserved it.  A node which has [N_BIG]
    already is copied with the number it has. *)
Theorem large_value_correct size p I1 I2 page_new_large ps2ln leaf_nodemax tree_flags txn_flags key data flags :
  page_holds size p (I1 ++ I2) -> is_leaf p = true -> Z.of_nat (length key) < 2 ^ 16 -> 0 <= iov_len data < 2 ^ 32 ->
  u64 (node_size_len (Z.of_nat (length key)) 0 + sizeof_pgno_t + sizeof_indx_t) <= page_room p ->
  let add := node_add_leaf page_new_large ps2ln leaf_nodemax tree_flags txn_flags p (length I1) key data flags in
  (forall value, Z.land flags N_BIG <> 0 -> bytes_at (iov_mem data) 0 4 = Some value ->
    exists mp, add = Some (mk_leaf_added MDBX_SUCCESS mp txn_flags None None) /\ page_flags mp = page_flags p /\
    page_holds size mp (I1 ++ mk_item (iov_len data) (u8 flags) key value :: I2)) /\
  (Z.land flags N_BIG = 0 -> node_size (Some (val_of key)) (Some data) > leaf_nodemax ->
    (Z.land tree_flags MDBX_DUPSORT <> 0 \/ Z.land flags (Z.lor N_DUP N_TREE) <> 0 -> add = Some (leaf_failed MDBX_PROBLEM p txn_flags)) /\
    (Z.land tree_flags MDBX_DUPSORT = 0 -> Z.land flags (Z.lor N_DUP N_TREE) = 0 ->
      match page_new_large (largechunk_npages ps2ln (iov_len data)) with
      | inl err => add = Some (leaf_failed err p txn_flags)
      | inr pgno => forall value, bytes_at (iov_mem data) 0 (Z.to_nat (iov_len data)) = Some value ->
          exists mp, add = Some (if decide (Z.land flags MDBX_RESERVE <> 0)
                                 then mk_leaf_added MDBX_SUCCESS mp txn_flags (Some (pgno, [])) (Some (in_large pgno))
                                 else mk_leaf_added MDBX_SUCCESS mp txn_flags (Some (pgno, value)) None) /\ page_flags mp = page_flags p /\
          page_holds size mp (I1 ++ mk_item (iov_len data) (u8 (Z.lor flags N_BIG)) key (le_bytes 4 pgno) :: I2)
      end)).
Proof.
  intros Hp Hleaf Hk Hd Hroom add. split; [|intros Hbig Hmax; split].
  - intros value Hbig Hv. set (it := mk_item (iov_len data) (u8 flags) key value).
    assert (length (it_data it) = 4%nat) as Hvl.
    { unfold bytes_at in Hv. case_decide; [|done]. injection Hv as <-. simpl. rewrite length_take, length_drop. lia. }
    rewrite (node_size_big key it Hk eq_refl Hvl) in Hroom. unfold add, node_add_leaf. rewrite decide_True by done.
    rewrite (node_size_big key it Hk eq_refl Hvl).
    unfold it in *. destruct (leaf_put_pgno size p I1 I2 Hp Hleaf txn_flags key data flags Hk Hd value Hbig Hv Hroom) as (mp & -> & H1 & H2 & _). by exists mp.
  - intros Hx. unfold add, node_add_leaf. rewrite decide_False by lia. rewrite decide_True by done.
    case_decide; [done|]. rewrite decide_True by tauto. done.
  - intros H1 H2. unfold add, node_add_leaf. rewrite decide_False by lia. rewrite decide_True by done.
    rewrite decide_False by lia. rewrite decide_False by lia. destruct (page_new_large _) as [err|pgno]; [done|].
    intros value Hv. set (it := mk_item (iov_len data) (u8 (Z.lor flags N_BIG)) key (le_bytes 4 pgno)).
    rewrite (node_size_big key it Hk eq_refl eq_refl) in *.
    assert (Z.land (Z.lor flags N_BIG) N_BIG <> 0) as Hb by (rewrite Z.land_lor_distr_l, Hbig; done).
    unfold it in *. destruct (leaf_put_large size p I1 I2 Hp Hleaf txn_flags key data (Z.lor flags N_BIG) Hk Hd pgno value Hb Hv Hroom) as (mp & -> & H3 & H4 & _).
    exists mp. split; [|done]. rewrite Z.land_lor_distr_l. change (Z.land N_BIG MDBX_RESERVE) with 0. by rewrite Z.lor_0_r.
Qed.

(** C28. The nodes of a branch are a list of children with separating keys (the
    first may have none): adding inserts a child in front of the given index or,
    exactly when there is no room, gives [MDBX_PAGE_FULL], marks the transaction
    and leaves the page; deleting removes a child. *)
Theorem branch_refines_list size p I1 I2 branch_nodemax txn_flags key pgno :
  let it := mk_item pgno 0 (default [] key) [] in
  page_holds size p (I1 ++ I2) -> is_leaf p = false -> Z.of_nat (length (default [] key)) < 2 ^ 16 ->
  Z.of_nat (item_size it) <= branch_nodemax -> 0 <= pgno < 2 ^ 32 ->
  (exists rc mp flags, node_add_branch branch_nodemax txn_flags p (length I1) key pgno = Some (rc, mp, flags) /\
    if decide (Z.of_nat (item_size it) + 2 <= page_room p)
    then rc = MDBX_SUCCESS /\ flags = txn_flags /\ page_holds size mp (I1 ++ it :: I2) /\ page_flags mp = page_flags p /\
      page_room mp = page_room p - Z.of_nat (item_size it) - 2
    else rc = MDBX_PAGE_FULL /\ mp = p /\ flags = Z.lor txn_flags MDBX_TXN_ERROR) /\
  (forall i it, (I1 ++ I2) !! i = Some it -> reads p i it) /\
  (forall it I2' ksize, I2 = it :: I2' -> exists p', node_del p (length I1) ksize = Some p' /\ page_holds size p' (I1 ++ I2') /\
    page_flags p' = page_flags p /\ page_room p' = page_room p + 2 + Z.of_nat (item_size it)).
Proof.
  intros it Hp Hleaf Hk Hmax Hpg. split; [by apply node_add_branch_spec|]. split.
  - intros i it' Hi. by eapply reads_item.
  - intros it' I2' ksize ->. by apply node_del_holds.
Qed.

(** C34. The items of a page of fixed size keys are a list of keys: adding inserts
    one in front of the given index or, exactly when there is no room for it,
    gives [MDBX_PAGE_FULL]; deleting removes one; reading gives item [i]. *)
Theorem dupfix_refines_list size k p K1 K2 txn_flags key :
  dupfix_holds size k p (K1 ++ K2) -> length key = k ->
  (exists rc mp flags, node_add_dupfix txn_flags (Z.of_nat k) p (length K1) key = Some (rc, mp, flags) /\
    if decide (Z.of_nat k <= page_room p)
    then rc = MDBX_SUCCESS /\ flags = txn_flags /\ dupfix_holds size k mp (K1 ++ key :: K2)
    else rc = MDBX_PAGE_FULL /\ mp = p /\ flags = Z.lor txn_flags MDBX_TXN_ERROR) /\
  (forall i item, (K1 ++ K2) !! i = Some item -> page_dupfix_key p i = Some item) /\
  (forall item K2', K2 = item :: K2' -> exists mp, node_del p (length K1) (Z.of_nat k) = Some mp /\ dupfix_holds size k mp (K1 ++ K2')).
Proof.
  intros Hp Hkey. split; [by apply node_add_dupfix_spec|]. split.
  - intros i item Hi. by eapply dupfix_key.
  - intros item K2' ->. by eapply node_del_dupfix_spec.
Qed.

(** Copying a page copies its nodes, although only the used part at both ends,
    rounded to words, is moved; a new page has no nodes. *)
Theorem page_copy_keeps size p items dst cacheline fresh flags ps :
  page_holds size p items -> length (page_body dst) = size -> 8 <= cacheline ->
  2 ^ 3 * ((Z.of_nat size + PAGEHDRSZ) / 2 ^ 3) = Z.of_nat size + PAGEHDRSZ ->
  length (page_body fresh) = Z.to_nat (ps - PAGEHDRSZ) -> 0 <= flags < 2 ^ 16 -> Z.land flags P_DUPFIX = 0 -> PAGEHDRSZ <= ps <= 2 ^ 16 ->
  (exists q, page_copy cacheline dst p (Z.of_nat size + PAGEHDRSZ) = Some q /\ page_holds size q items /\
    (page_txnid q, page_flags q, page_pgno q, page_lower q, page_upper q) = (page_txnid p, page_flags p, page_pgno p, page_lower p, page_upper p)) /\
  page_holds (length (page_body fresh)) (page_new fresh flags ps) [].
Proof.
  intros Hp Hd Hc Hs Hf Hfl Hdf Hps. split; [by apply page_copy_holds|by apply page_new_holds].
Qed.

(** ** Examples *)

(** A fresh page of 256 bytes. *)
Definition sample_fresh (flags : Z) : page_t := page_new (mk_page 7 4 0 0 0 9 (replicate 236 0)) flags 256.
Lemma sample_holds flags : 0 <= flags < 2 ^ 16 -> Z.land flags P_DUPFIX = 0 -> page_holds 236 (sample_fresh flags) [].
Proof. intros H1 H2. apply (page_new_holds (mk_page 7 4 0 0 0 9 (replicate 236 0)) flags 256); (done || (unfold PAGEHDRSZ; lia)). Qed.

Lemma leaf_refines_list_witness :
  exists mp, node_add_leaf (fun _ => inl MDBX_ENOMEM) 8 100 0 0 (sample_fresh P_LEAF) 0 [1; 2; 3] (val_of [4; 5]) 0 =
  Some (mk_leaf_added MDBX_SUCCESS mp 0 None None) /\
  page_holds 236 mp [mk_item 2 0 [1; 2; 3] [4; 5]].
Proof.
  destruct (leaf_refines_list 236 (sample_fresh P_LEAF) [] [] (fun _ => inl MDBX_ENOMEM) 8 100 0 0 [1; 2; 3] (val_of [4; 5]) 0)
    as (_ & _ & H).
  - apply sample_holds; [split; [discriminate|reflexivity]|reflexivity].
  - reflexivity.
  - destruct H as [H _]; [reflexivity|split; [discriminate|reflexivity]|reflexivity|vm_compute; discriminate|vm_compute; discriminate|].
    destruct (H [4; 5]) as (mp & E & Hh & _); [reflexivity|reflexivity|]. exists mp. split; [exact E|exact Hh].
Defined.

Lemma large_value_correct_witness :
  exists mp, node_add_leaf (fun n => if decide (n = 2) then inr 77 else inl MDBX_ENOMEM) 8 100 0 0 (sample_fresh P_LEAF) 0 [1] (val_of (replicate 300 5)) 0 =
  Some (mk_leaf_added MDBX_SUCCESS mp 0 (Some (77, replicate 300 5)) None) /\
  page_holds 236 mp [mk_item 300 N_BIG [1] [77; 0; 0; 0]].
Proof.
  destruct (large_value_correct 236 (sample_fresh P_LEAF) [] [] (fun n => if decide (n = 2) then inr 77 else inl MDBX_ENOMEM) 8 100 0 0 [1] (val_of (replicate 300 5)) 0)
    as (_ & H).
  - apply sample_holds; [split; [discriminate|reflexivity]|reflexivity].
  - reflexivity.
  - reflexivity.
  - split; [discriminate|reflexivity].
  - vm_compute. discriminate.
  - destruct H as [_ H]; [reflexivity|vm_compute; reflexivity|].
    specialize (H eq_refl eq_refl (replicate 300 5) eq_refl). destruct H as (mp & E & _ & Hh). exists mp. split; [exact E|exact Hh].
Defined.

Lemma branch_refines_list_witness :
  exists mp, node_add_branch 100 0 (sample_fresh P_BRANCH) 0 None 5 = Some (MDBX_SUCCESS, mp, 0) /\ page_holds 236 mp [mk_item 5 0 [] []].
Proof.
  destruct (branch_refines_list 236 (sample_fresh P_BRANCH) [] [] 100 0 None 5) as ((rc & mp & fl & E & H) & _).
  - apply sample_holds; [split; [discriminate|reflexivity]|reflexivity].
  - reflexivity.
  - reflexivity.
  - vm_compute. discriminate.
  - split; [discriminate|reflexivity].
  - exists mp. rewrite decide_True in H by (vm_compute; discriminate). destruct H as (-> & -> & H & _). split; [exact E|exact H].
Defined.

Lemma dupfix_refines_list_witness :
  exists mp, node_add_dupfix 0 4 (sample_fresh (P_LEAF + P_DUPFIX)) 0 [1; 2; 3; 4] = Some (MDBX_SUCCESS, mp, 0) /\ dupfix_holds 236 4 mp [[1; 2; 3; 4]].
Proof.
  destruct (dupfix_refines_list 236 4 (sample_fresh (P_LEAF + P_DUPFIX)) [] [] 0 [1; 2; 3; 4]) as ((rc & mp & fl & E & H) & _).
  - split; try reflexivity; [split; [reflexivity|lia]|constructor|]. exists (replicate 236 0). reflexivity.
  - reflexivity.
  - exists mp. rewrite decide_True in H by (vm_compute; discriminate). destruct H as (-> & -> & H). split; [exact E|exact H].
Defined.

Lemma page_copy_keeps_witness :
  exists q, page_copy 64 (sample_fresh P_BRANCH) (sample_fresh P_LEAF) 256 = Some q /\ page_holds 236 q [].
Proof.
  destruct (page_copy_keeps 236 (sample_fresh P_LEAF) [] (sample_fresh P_BRANCH) 64 (sample_fresh P_LEAF) P_LEAF 256) as ((q & E & H & _) & _).
  - apply sample_holds; [split; [discriminate|reflexivity]|reflexivity].
  - reflexivity.
  - discriminate.
  - reflexivity.
  - reflexivity.
  - split; [discriminate|reflexivity].
  - reflexivity.
  - split; discriminate.
  - exists q. split; [exact E|exact H].
Defined.
