(* ===== verification/Foliage.v ===== *)
(** * Searching in a page

    The branchless binary searches that the macros [SEARCH_FOLIAGE] and
    [SEARCH_BRANCH] of mdbx.c make for each comparator, the choice between them,
    and [old_node_search], which the source keeps to compare them with. *)

From S2P Require Import Prelude Meta Cmp Page.

(** ** The cycle *)

(** What the [do]-loop ends with: the index of an equal key, or the lower bound
    [lo] together with [it + (cmp & 1)]. *)
Inductive probe := probe_found (it : Z) | probe_end (lo it : Z).

(** [compare i] is the comparison of key [i] with the wanted one. *)
Fixpoint search_cycle (fuel : nat) (compare : Z -> option Z) (lo scope : Z) : option probe :=
  match fuel with
  | O => None
  | S fuel =>
      let adjust := scope - 1 in
      let half := Z.shiftr adjust 1 in
      let adjust := Z.land adjust 1 in
      let it := lo + half in
      cmp ← compare it;
      if decide (cmp = 0) then Some (probe_found it)
      else
        let cmp := Z.shiftr cmp (8 * 8 - 1) in
        let lo := lo + Z.land (half + 1) cmp in
        let scope := half + Z.land cmp adjust in
        if decide (scope > 0) then search_cycle fuel compare lo scope
        else Some (probe_end lo (it + Z.land cmp 1))
  end.

(** ** Pages with nodes and pages of fixed size keys *)

Definition comparator := list Z -> list Z -> option Z.
Definition null_comparator : comparator := fun _ _ => None.

(** The comparison of key [i] of the page with [key]. *)
Definition compare_node (cmp : comparator) (mp : page_t) (key : list Z) (i : Z) : option Z :=
  node ← page_node mp (Z.to_nat i); node_key ← get_key (page_body mp) node; cmp node_key key.
Definition compare_dupfix (cmp : comparator) (mp : page_t) (key : list Z) (i : Z) : option Z :=
  node_key ← page_dupfix_key mp (Z.to_nat i); cmp node_key key.

(** [node_t *]: null, the fake [-1] for keys of fixed size, or an offset. *)
Inductive node_ptr := node_null | node_fake | node_at (off : nat).

(** [sfr_t] with the index that goes to [mc->ki[mc->top]]. *)
Record sfr_t := mk_sfr { sfr_ki : Z; sfr_node : node_ptr; sfr_exact : bool }.

(** The node at the found index. *)
Definition at_node (mp : page_t) (nkeys it : Z) : option node_ptr :=
  if decide (it < nkeys) then node ← page_node mp (Z.to_nat it); Some (node_at node) else Some node_null.

Definition search_nodes (cmp : comparator) (mp : page_t) (key : list Z) (nkeys lo : Z) : option sfr_t :=
  r ← search_cycle (Z.to_nat (nkeys - lo)) (compare_node cmp mp key) lo (nkeys - lo);
  match r with
  | probe_found it => node ← page_node mp (Z.to_nat it); Some (mk_sfr (u16 it) (node_at node) true)
  | probe_end _ it => node ← at_node mp nkeys it; Some (mk_sfr (u16 it) node false)
  end.

(** [SEARCH_FOLIAGE]; the two booleans are the last arguments of the macro. *)
Definition search_foliage (branch_comparator leaf_comparator : comparator) (different_comparators dupfixed : bool)
  (mp : page_t) (key : list Z) : option sfr_t :=
    let nkeys := Z.of_nat (page_numkeys mp) in
  let lo := Z.land (page_flags mp) P_BRANCH in
  let hi := nkeys - 1 in
  if decide (hi < lo) then Some (mk_sfr 0 node_null false)
  else if (different_comparators || dupfixed) && bool_decide (lo = 0) then
    if dupfixed then
      r ← search_cycle (Z.to_nat (nkeys - lo)) (compare_dupfix leaf_comparator mp key) lo (nkeys - lo);
      match r with
      | probe_found it => Some (mk_sfr (u16 it) node_fake true)
      | probe_end _ it => Some (mk_sfr (u16 it) (if decide (it < nkeys) then node_fake else node_null) false)
      end
    else search_nodes leaf_comparator mp key nkeys lo
  else search_nodes branch_comparator mp key nkeys lo.

(** [SEARCH_BRANCH]: the child to go to. *)
Definition search_branch (cmp : comparator) (mp : page_t) (key : list Z) : option Z :=
  let nkeys := Z.of_nat (page_numkeys mp) in
  if decide (nkeys > 1) then
    r ← search_cycle (Z.to_nat (nkeys - 1)) (compare_node cmp mp key) 1 (nkeys - 1);
    match r with
    | probe_found it => Some it
    | probe_end lo _ => Some (lo - 1)
    end
  else Some (1 - 1).

(** ** Which search a table uses *)

(** The comparator functions that the choice knows; any other is custom. *)
Inductive cmp_func := CMP_LEXICAL | CMP_REVERSE | CMP_LENFAST | CMP_UINT_UNALIGNED | CMP_UINT_ALIGN2 | CMP_UINT_ALIGN4 | CMP_CUSTOM.
#[export] Instance cmp_func_eq_dec : EqDecision cmp_func.
Proof. solve_decision. Defined.

(** The limits of the length of keys in a [clc_t], which the choice narrows. *)
Record clc_t := mk_clc { lmin : Z; lmax : Z }.

Inductive foliage :=
| lexical_usual | reverse_usual | lenfast_usual | custom_usual | ordinal_usual | uint32_usual | uint64_usual
| lexical_dupfix | reverse_dupfix | lenfast_dupfix | custom_dupfix | ordinal_dupfix | uint32_dupfix | uint64_dupfix.
Inductive branch_search := br_ordinal | br_uint32 | br_uint64 | br_lexical | br_reverse | br_lenfast | br_custom.

Section instances.
Context (unaligned_ok : Z) (memcmp : list Z -> list Z -> Z) (custom : comparator).

Definition cmp_uint32_unaligned_unchecked : comparator := cmp_uint32_unchecked unaligned_ok 1.
Definition cmp_uint64_unaligned_unchecked : comparator := cmp_uint64_unchecked unaligned_ok 1.
(** Where unaligned loads are fine these names stand for the unaligned ones. *)
Definition cmp_uint32_align4_unchecked : comparator :=
  if decide (unaligned_ok < 4) then cmp_uint32_unchecked unaligned_ok 4 else cmp_uint32_unaligned_unchecked.
Definition cmp_uint64_align4_unchecked : comparator :=
  if decide (unaligned_ok < 4) then cmp_uint64_unchecked unaligned_ok 4 else cmp_uint64_unaligned_unchecked.

Definition cmp_of (f : cmp_func) : comparator :=
  match f with
  | CMP_LEXICAL => cmp_lexical memcmp
  | CMP_REVERSE => cmp_reverse unaligned_ok
  | CMP_LENFAST => cmp_lenfast memcmp
  | CMP_UINT_UNALIGNED => cmp_uint_unaligned unaligned_ok
  | CMP_UINT_ALIGN2 => if decide (unaligned_ok < 2) then cmp_uint_align2 unaligned_ok else cmp_uint_unaligned unaligned_ok
  | CMP_UINT_ALIGN4 => if decide (unaligned_ok < 4) then cmp_uint_align4 unaligned_ok else cmp_uint_unaligned unaligned_ok
  | CMP_CUSTOM => custom
  end.

(** The instances of [SEARCH_FOLIAGE]; [cmp] is [mc->clc->k.cmp]. *)
Definition foliage_search (cmp : cmp_func) (f : foliage) : page_t -> list Z -> option sfr_t :=
  let usual c := search_foliage c null_comparator false false in
  match f with
  | lexical_usual => usual (cmp_of CMP_LEXICAL)
  | reverse_usual => usual (cmp_of CMP_REVERSE)
  | lenfast_usual => usual (cmp_of CMP_LENFAST)
  | custom_usual => usual (cmp_of cmp)
  | ordinal_usual =>
      if decide (unaligned_ok < 4) then search_foliage (cmp_of CMP_UINT_ALIGN4) (cmp_of CMP_UINT_UNALIGNED) true false
      else usual (cmp_of CMP_UINT_ALIGN4)
  | uint32_usual =>
      if decide (unaligned_ok < 4) then search_foliage cmp_uint32_align4_unchecked cmp_uint32_unaligned_unchecked true false
      else usual cmp_uint32_align4_unchecked
  | uint64_usual =>
      if decide (unaligned_ok < 4) then search_foliage cmp_uint64_align4_unchecked cmp_uint64_unaligned_unchecked true false
      else usual cmp_uint64_align4_unchecked
  | lexical_dupfix => search_foliage (cmp_of CMP_LEXICAL) (cmp_of CMP_LEXICAL) false true
  | reverse_dupfix => search_foliage (cmp_of CMP_REVERSE) (cmp_of CMP_REVERSE) false true
  | lenfast_dupfix => search_foliage (cmp_of CMP_LENFAST) (cmp_of CMP_LENFAST) false true
  | custom_dupfix => search_foliage (cmp_of cmp) (cmp_of cmp) false true
  | ordinal_dupfix => search_foliage (cmp_of CMP_UINT_ALIGN4) (cmp_of CMP_UINT_UNALIGNED) true true
  | uint32_dupfix => search_foliage cmp_uint32_align4_unchecked cmp_uint32_unaligned_unchecked true true
  | uint64_dupfix => search_foliage cmp_uint64_align4_unchecked cmp_uint64_unaligned_unchecked true true
  end.

(** The instances of [SEARCH_BRANCH]. *)
Definition branch_search_of (cmp : cmp_func) (s : branch_search) : page_t -> list Z -> option Z :=
  search_branch (match s with
                 | br_ordinal => cmp_of CMP_UINT_ALIGN4
                 | br_uint32 => cmp_uint32_align4_unchecked
                 | br_uint64 => cmp_uint64_align4_unchecked
                 | br_lexical => cmp_of CMP_LEXICAL
                 | br_reverse => cmp_of CMP_REVERSE
                 | br_lenfast => cmp_of CMP_LENFAST
                 | br_custom => cmp_of cmp
                 end).
End instances.

(** The part for [MDBX_INTEGERKEY] that the choices share: the limits become the
    length of the keys, and the comparators of integers get the search for that
    length, or the one which looks at the length when validating. *)
Definition narrow_clc (keylen : Z) (c : clc_t) : clc_t :=
  if decide ((keylen >= lmin c /\ keylen <= lmax c) /\ (keylen = 4 \/ keylen = 8)) then mk_clc keylen keylen else c.

Definition ordinal_of (cmp : cmp_func) (keylen : Z) : Z :=
  match cmp with CMP_UINT_ALIGN2 | CMP_UINT_ALIGN4 | CMP_UINT_UNALIGNED => keylen | _ => 0 end.

Definition choose_ordinal {A} (cmp : cmp_func) (validation : bool) (keylen : Z) (c : clc_t) (uint32 uint64 ordinal custom : A) : A :=
  let o := ordinal_of cmp keylen in
  if decide (o <> 0) then
    if negb validation && bool_decide (o = lmin c /\ o = lmax c) then
      if decide (o = 4) then uint32 else if decide (o = 8) then uint64 else ordinal
    else ordinal
  else custom.

Definition cursor_to_search_foliage (cmp : cmp_func) (validation inner : bool) (tree_flags dupfix_size : Z) (mp : page_t) (c : clc_t)
  : option (foliage * clc_t) :=
  if bool_decide (Z.land tree_flags MDBX_DUPFIXED <> 0) && inner then
    match cmp with
    | CMP_LEXICAL => Some (lexical_dupfix, c)
    | CMP_REVERSE => Some (reverse_dupfix, c)
    | CMP_LENFAST => Some (lenfast_dupfix, c)
    | _ =>
        if decide (Z.land tree_flags MDBX_INTEGERKEY <> 0) then
          let c := narrow_clc dupfix_size c in
          Some (choose_ordinal cmp validation dupfix_size c uint32_dupfix uint64_dupfix ordinal_dupfix custom_dupfix, c)
        else Some (custom_dupfix, c)
    end
  else
    match cmp with
    | CMP_LEXICAL => Some (lexical_usual, c)
    | CMP_REVERSE => Some (reverse_usual, c)
    | CMP_LENFAST => Some (lenfast_usual, c)
    | _ =>
        if decide (Z.land tree_flags MDBX_INTEGERKEY <> 0) then
          node ← page_node mp 0; keylen ← node_ks (page_body mp) node;
          let c := narrow_clc keylen c in
          Some (choose_ordinal cmp validation keylen c uint32_usual uint64_usual ordinal_usual custom_usual, c)
        else Some (custom_usual, c)
    end.

Definition cursor_to_search_branch (cmp : cmp_func) (validation : bool) (tree_flags : Z) (mp : page_t) (c : clc_t)
  : option (branch_search * clc_t) :=
  match cmp with
  | CMP_LEXICAL => Some (br_lexical, c)
  | CMP_REVERSE => Some (br_reverse, c)
  | CMP_LENFAST => Some (br_lenfast, c)
  | _ =>
      if decide (Z.land tree_flags MDBX_INTEGERKEY <> 0) then
        keylen ← (if is_dupfix_leaf mp then Some (dupfix_ksize mp)
                  else node ← page_node mp (Z.to_nat (Z.land (page_flags mp) P_BRANCH)); node_ks (page_body mp) node);
        let c := narrow_clc keylen c in
        Some (choose_ordinal cmp validation keylen c br_uint32 br_uint64 br_ordinal br_custom, c)
      else Some (br_custom, c)
  end.

(** The first search of a table makes the choice, the later ones use it. *)
Definition tree_search_foliage_configure (unaligned_ok : Z) (memcmp : list Z -> list Z -> Z) (custom : comparator)
  (cmp : cmp_func) (validation inner : bool) (tree_flags dupfix_size : Z) (mp : page_t) (c : clc_t) (key : list Z)
  : option (sfr_t * foliage * clc_t) :=
  '(f, c) ← cursor_to_search_foliage cmp validation inner tree_flags dupfix_size mp c;
  r ← foliage_search unaligned_ok memcmp custom cmp f mp key;
  Some (r, f, c).

Definition tree_search_branch_configure (unaligned_ok : Z) (memcmp : list Z -> list Z -> Z) (custom : comparator)
  (cmp : cmp_func) (validation : bool) (tree_flags : Z) (mp : page_t) (c : clc_t) (key : list Z)
  : option (Z * branch_search * clc_t) :=
  '(s, c) ← cursor_to_search_branch cmp validation tree_flags mp c;
  r ← branch_search_of unaligned_ok memcmp custom cmp s mp key;
  Some (r, s, c).

(** ** The search that was there before *)

(** Its loop; the order of the arguments of the comparator is the other one. *)
Fixpoint old_cycle (fuel : nat) (compare : Z -> option Z) (lo hi : Z) : option (Z * bool) :=
  match fuel with
  | O => None
  | S fuel =>
      let i := Z.shiftr (lo + hi) 1 in
      cmp ← compare i;
      if decide (cmp > 0) then
        let i := i + 1 in let lo := i in
        if decide (lo <= hi) then old_cycle fuel compare lo hi else Some (i, false)
      else if decide (cmp < 0) then
        let hi := i - 1 in
        if decide (lo <= hi) then old_cycle fuel compare lo hi else Some (i, false)
      else Some (i, true)
  end.

Definition old_compare (cmp : comparator) (mp : page_t) (key : list Z) (i : Z) : option Z :=
  node ← page_node mp (Z.to_nat i); node_key ← get_key (page_body mp) node; cmp key node_key.
Definition old_compare_dupfix (cmp : comparator) (mp : page_t) (key : list Z) (i : Z) : option Z :=
  node_key ← page_dupfix_key mp (Z.to_nat i); cmp key node_key.

Definition old_node_search (unaligned_ok : Z) (memcmp : list Z -> list Z -> Z) (custom : comparator)
  (cmp : cmp_func) (mp : page_t) (key : list Z) : option sfr_t :=
    let fn := cmp_of unaligned_ok memcmp custom in
  let nkeys := Z.of_nat (page_numkeys mp) in
  let lo := Z.land (page_flags mp) P_BRANCH in
  let hi := nkeys - 1 in
  if decide (hi < lo) then Some (mk_sfr 0 node_null false)
  else if is_dupfix_leaf mp then
    '(i, exact) ← old_cycle (Z.to_nat (nkeys - lo)) (old_compare_dupfix (fn cmp) mp key) lo hi;
    Some (mk_sfr (u16 i) (if decide (i < nkeys) then node_fake else node_null) exact)
  else
    let align2 := bool_decide (cmp = CMP_UINT_ALIGN2 \/ unaligned_ok >= 2 /\ cmp = CMP_UINT_UNALIGNED) in
    let cmp := if bool_decide (unaligned_ok < 4) && is_branch mp && align2 then CMP_UINT_ALIGN4 else cmp in
    '(i, exact) ← old_cycle (Z.to_nat (nkeys - lo)) (old_compare (fn cmp) mp key) lo hi;
    node ← at_node mp nkeys i;
    Some (mk_sfr (u16 i) node exact).

Definition old_branch_search (unaligned_ok : Z) (memcmp : list Z -> list Z -> Z) (custom : comparator)
  (cmp : cmp_func) (mp : page_t) (key : list Z) : option Z :=
    nsr ← old_node_search unaligned_ok memcmp custom cmp mp key;
  Some (match sfr_node nsr with
        | node_null => Z.of_nat (page_numkeys mp) - 1
        | _ => sfr_ki nsr + Z.b2z (sfr_exact nsr) - 1
        end).
