(* ===== verification/FoliageFacts.v ===== *)
(** * Searching in a page: the cycle *)

From S2P Require Import Prelude Meta Cmp CmpProps Page PageFacts PageOps Foliage.

(** ** Half of a range *)

Ltac dlia := Z.to_euclidean_division_equations; lia.

Lemma cycle_half scope : 0 < scope ->
  let half := Z.shiftr (scope - 1) 1 in
  half = (scope - 1) / 2 /\ half + Z.land (scope - 1) 1 = scope - 1 - half /\ 0 <= half < scope.
Proof.
  intros Hs half. subst half. rewrite Z.shiftr_div_pow2 by lia. change (2 ^ 1) with 2.
  pose proof (Z.land_ones (scope - 1) 1 ltac:(lia)) as E. change (Z.ones 1) with 1 in E. change (2 ^ 1) with 2 in E. rewrite E. clear E. dlia.
Qed.

Lemma shiftr_sign cmp : - 2 ^ 63 <= cmp < 2 ^ 63 -> Z.shiftr cmp (8 * 8 - 1) = if decide (cmp < 0) then -1 else 0.
Proof.
  intros H. rewrite Z.shiftr_div_pow2 by lia. change (2 ^ (8 * 8 - 1)) with (2 ^ 63).
  case_decide; symmetry; [apply (Z.div_unique _ _ _ (cmp + 2 ^ 63))|apply (Z.div_unique _ _ _ cmp)]; lia.
Qed.

(** One turn with the branches that the arithmetic on [cmp] stands for. *)
Lemma search_cycle_turn fuel compare lo scope cmp :
  0 < scope -> let it := lo + (scope - 1) / 2 in compare it = Some cmp -> - 2 ^ 63 <= cmp < 2 ^ 63 ->
  search_cycle (S fuel) compare lo scope =
    if decide (cmp = 0) then Some (probe_found it)
    else if decide (cmp < 0) then
      let scope := lo + scope - 1 - it in
      if decide (scope > 0) then search_cycle fuel compare (it + 1) scope else Some (probe_end (it + 1) (it + 1))
    else
      let scope := it - lo in
      if decide (scope > 0) then search_cycle fuel compare lo scope else Some (probe_end lo it).
Proof.
  intros Hs it Hc Hr. cbn [search_cycle]. destruct (cycle_half scope Hs) as (H1 & H2 & H3).
  rewrite H1 in *. fold it. rewrite Hc. cbn [mbind option_bind]. destruct (decide (cmp = 0)); [done|].
  rewrite shiftr_sign by done. destruct (decide (cmp < 0)).
  - assert (forall a, Z.land a (-1) = a) as Hr1 by (intros; apply Z.land_m1_r).
    assert (forall a, Z.land (-1) a = a) as Hl1 by (intros; apply Z.land_m1_l). rewrite Hr1, !Hl1, H2.
    replace (lo + ((scope - 1) / 2 + 1)) with (it + 1) by (unfold it; dlia).
    replace (scope - 1 - (scope - 1) / 2) with (lo + scope - 1 - it) by (unfold it; dlia). done.
  - rewrite Z.land_0_r, Z.land_0_l, Z.land_0_l, !Z.add_0_r.
    replace ((scope - 1) / 2) with (it - lo) by (unfold it; dlia). done.
Qed.

(** ** The old loop *)

Definition probe_of (r : Z * bool) : probe := if r.2 then probe_found r.1 else probe_end r.1 r.1.

(** The two loops ask for the two orders of the arguments. *)
Definition mirrored (x y : option Z) : Prop :=
  match x, y with
  | Some x, Some y => Z.sgn y = - Z.sgn x /\ - 2 ^ 63 <= x < 2 ^ 63
  | None, None => True
  | _, _ => False
  end.

Lemma search_cycle_old fuel compare compare' : forall lo scope,
  0 < scope -> (forall i, lo <= i < lo + scope -> mirrored (compare i) (compare' i)) ->
  search_cycle fuel compare lo scope = probe_of <$> old_cycle fuel compare' lo (lo + scope - 1).
Proof.
  induction fuel as [|fuel IH]; intros lo scope Hs Hm; [done|].
  assert (Z.shiftr (lo + (lo + scope - 1)) 1 = lo + (scope - 1) / 2) as Hi.
  { rewrite Z.shiftr_div_pow2 by dlia. change (2 ^ 1) with 2. dlia. }
  pose proof (Hm (lo + (scope - 1) / 2) ltac:(dlia)) as Hit. cbn [old_cycle]. rewrite Hi.
  destruct (compare (lo + (scope - 1) / 2)) as [x|] eqn:Ex, (compare' (lo + (scope - 1) / 2)) as [y|] eqn:Ey; try done.
  2:{ cbn [search_cycle]. destruct (cycle_half scope Hs) as (-> & _). by rewrite Ex. }
  destruct Hit as [Hsgn Hr]. rewrite (search_cycle_turn _ _ _ _ x Hs Ex Hr). cbn [mbind option_bind].
  destruct (decide (x = 0)) as [->|Hx].
  { simpl in Hsgn. rewrite decide_False, decide_False by dlia. done. }
  destruct (decide (x < 0)) as [Hlt|Hge].
  - rewrite (decide_True (P := y > 0)) by dlia. cbv zeta. set (it := lo + (scope - 1) / 2) in *.
    destruct (decide (lo + scope - 1 - it > 0)).
    + rewrite decide_True by dlia. rewrite IH; [|dlia|intros i Hi'; apply Hm; unfold it in *; dlia]. do 2 f_equal. dlia.
    + rewrite decide_False by dlia. done.
  - rewrite (decide_False (P := y > 0)), (decide_True (P := y < 0)) by dlia. cbv zeta. set (it := lo + (scope - 1) / 2) in *.
    destruct (decide (it - lo > 0)).
    + rewrite decide_True by dlia. rewrite IH; [|dlia|intros i Hi'; apply Hm; unfold it in *; dlia]. do 2 f_equal. dlia.
    + rewrite decide_False by dlia. unfold probe_of. simpl. repeat f_equal. unfold it in *. dlia.
Qed.

(** ** Steps *)

(** Every comparison halves the range: [2 ^ fuel] keys need [fuel] turns. *)
Lemma search_cycle_steps compare : forall fuel lo scope,
  0 < scope < 2 ^ Z.of_nat fuel ->
  (forall i, lo <= i < lo + scope -> exists c, compare i = Some c /\ - 2 ^ 63 <= c < 2 ^ 63) ->
  exists r, forall more, search_cycle (fuel + more) compare lo scope = Some r.
Proof.
  induction fuel as [|fuel IH]; intros lo scope Hs Hc; [simpl in Hs; lia|].
  rewrite Nat2Z.inj_succ, Z.pow_succ_r in Hs by dlia.
  destruct (Hc (lo + (scope - 1) / 2) ltac:(dlia)) as (c & Hit & Hr).
  destruct (decide (c = 0)) as [->|Hne].
  { eexists. intros more. cbn [Nat.add]. rewrite (search_cycle_turn _ _ _ _ _ (proj1 Hs) Hit Hr). rewrite decide_True by done. done. }
  destruct (decide (c < 0)).
  - destruct (decide (lo + scope - 1 - (lo + (scope - 1) / 2) > 0)).
    + destruct (IH (lo + (scope - 1) / 2 + 1) (lo + scope - 1 - (lo + (scope - 1) / 2))) as [r Hres]; [dlia|intros i Hi; apply Hc; dlia|].
      exists r. intros more. cbn [Nat.add]. rewrite (search_cycle_turn _ _ _ _ _ (proj1 Hs) Hit Hr).
      rewrite decide_False, decide_True by done. cbv zeta. by rewrite decide_True.
    + eexists. intros more. cbn [Nat.add]. rewrite (search_cycle_turn _ _ _ _ _ (proj1 Hs) Hit Hr).
      rewrite decide_False, decide_True by done. cbv zeta. by rewrite decide_False.
  - destruct (decide (lo + (scope - 1) / 2 - lo > 0)).
    + destruct (IH lo (lo + (scope - 1) / 2 - lo)) as [r Hres]; [dlia|intros i Hi; apply Hc; dlia|].
      exists r. intros more. cbn [Nat.add]. rewrite (search_cycle_turn _ _ _ _ _ (proj1 Hs) Hit Hr).
      rewrite decide_False, decide_False by done. cbv zeta. by rewrite decide_True.
    + eexists. intros more. cbn [Nat.add]. rewrite (search_cycle_turn _ _ _ _ _ (proj1 Hs) Hit Hr).
      rewrite decide_False, decide_False by done. cbv zeta. by rewrite decide_False.
Qed.

Lemma search_cycle_in compare r : forall fuel lo scope, 0 < scope ->
  (forall i, lo <= i < lo + scope -> exists c, compare i = Some c /\ - 2 ^ 63 <= c < 2 ^ 63) ->
  search_cycle fuel compare lo scope = Some r ->
  match r with
  | probe_found it => lo <= it < lo + scope /\ compare it = Some 0
  | probe_end m it => it = m /\ lo <= m <= lo + scope
  end.
Proof.
  induction fuel as [|fuel IH]; intros lo scope Hs Hc H; [done|].
  destruct (Hc (lo + (scope - 1) / 2) ltac:(dlia)) as (c & Hit & Hr).
  rewrite (search_cycle_turn _ _ _ _ _ Hs Hit Hr) in H. cbv zeta in H.
  assert (lo <= lo + (scope - 1) / 2 < lo + scope) as Hmid by dlia. set (it := lo + (scope - 1) / 2) in *.
  repeat case_decide; try (injection H as <-; subst; split; (done || lia)).
  all: apply IH in H; [destruct r; destruct H; split; (done || lia)|lia|intros i Hi; apply Hc; lia].
Qed.

(** ** What is found *)

(** [m] parts the range: keys before it are less, keys behind it are greater. *)
Definition parts (compare : Z -> option Z) (lo scope m : Z) : Prop :=
  lo <= m <= lo + scope /\
  forall i, lo <= i < lo + scope -> exists c, compare i = Some c /\ - 2 ^ 63 <= c < 2 ^ 63 /\
  (c < 0 <-> i < m) /\ (c = 0 -> i = m).

Lemma search_cycle_spec compare fuel : forall lo scope m,
  0 < scope <= Z.of_nat fuel -> parts compare lo scope m ->
  search_cycle fuel compare lo scope =
  Some (if decide (m < lo + scope /\ compare m = Some 0) then probe_found m else probe_end m m).
Proof.
  induction fuel as [|fuel IH]; intros lo scope m Hs [Hm Hp]; [dlia|].
  destruct (Hp (lo + (scope - 1) / 2) ltac:(dlia)) as (c & Hit & Hr & Hlt & Heq).
  rewrite (search_cycle_turn _ _ _ _ _ (proj1 Hs) Hit Hr).
  destruct (decide (c = 0)) as [->|Hne].
  { rewrite (Heq eq_refl) in *. rewrite decide_True; [done|split; [dlia|done]]. }
  destruct (decide (c < 0)) as [Hc|Hc]; cbv zeta.
  - apply Hlt in Hc. set (it := lo + (scope - 1) / 2) in *. destruct (decide (lo + scope - 1 - it > 0)).
    + rewrite (IH _ _ m) by ((unfold it in *; dlia) || (split; [unfold it in *; dlia|intros i Hi; apply Hp; unfold it in *; dlia])).
      f_equal. apply decide_ext. assert (it + 1 + (lo + scope - 1 - it) = lo + scope) as -> by dlia. done.
    + assert (m = it + 1) as -> by dlia. rewrite decide_False; [done|dlia].
  - assert (m <= lo + (scope - 1) / 2) as Hc' by dlia. clear Hlt. set (it := lo + (scope - 1) / 2) in *. destruct (decide (it - lo > 0)).
    + rewrite (IH _ _ m) by ((unfold it in *; dlia) || (split; [unfold it in *; dlia|intros i Hi; apply Hp; unfold it in *; dlia])).
      f_equal. apply decide_ext. assert (lo + (it - lo) = it) as -> by dlia.
      split; [intros [? ?]; split; [unfold it in *; dlia|done]|]. intros [? E]. split; [|done].
      destruct (decide (m = it)) as [->|]; [|dlia]. rewrite E in Hit. congruence.
    + assert (m = it /\ lo = it) as [-> E] by (unfold it in *; dlia). rewrite decide_False; [by f_equal; f_equal|]. intros [_ E0]. congruence.
Qed.

(** ** Sorted keys *)

(** What the search relies on: on keys with [P] the comparator answers a total
    order with an [int]. *)
Class KeyOrder (P : list Z -> Prop) (ord : list Z -> list Z -> comparison) (cmp : comparator) : Prop := {
  ord_cmp a b : P a -> P b -> exists z, cmp a b = Some z /\ Z.sgn z = cmp_sign (ord a b) /\ - 2 ^ 31 <= z < 2 ^ 31;
  ord_antisym a b : P a -> P b -> ord b a = CompOpp (ord a b);
  ord_eq a b : P a -> P b -> ord a b = Eq <-> a = b;
  ord_trans a b c : P a -> P b -> P c -> ord a b = Lt -> ord b c = Lt -> ord a c = Lt
}.

Section sorted.
Context {P : list Z -> Prop} {ord : list Z -> list Z -> comparison} {cmp : comparator} {Hord : KeyOrder P ord cmp}.

Definition sorted_keys (keys : list (list Z)) : Prop := StronglySorted (fun a b => ord a b = Lt) keys.

(** How many keys are less than [key], or not greater. *)
Fixpoint lower_bound (keys : list (list Z)) (key : list Z) : nat :=
  match keys with
  | [] => 0
  | k :: keys => if decide (ord k key = Lt) then S (lower_bound keys key) else 0
  end.
Fixpoint upper_bound (keys : list (list Z)) (key : list Z) : nat :=
  match keys with
  | [] => 0
  | k :: keys => if decide (ord k key = Gt) then 0 else S (upper_bound keys key)
  end.

Lemma lower_bound_le keys key : (lower_bound keys key <= length keys)%nat.
Proof. induction keys as [|k keys IH]; simpl; [lia|]. case_decide; lia. Qed.

Lemma lower_bound_lookup keys key : Forall P keys -> P key -> sorted_keys keys ->
  forall j k, keys !! j = Some k ->
  (ord k key = Lt <-> (j < lower_bound keys key)%nat) /\ (ord k key = Eq -> j = lower_bound keys key).
Proof.
  intros HP Hk. induction 1 as [|x keys Hs IH Hx]; intros j k Hj; [done|].
  apply Forall_cons in HP as [HPx HP]. specialize (IH HP). simpl. destruct j as [|j]; simpl in Hj.
  - injection Hj as ->. case_decide as E; [|split; [split; [done|lia]|done]].
    split; [split; [lia|done]|by rewrite E].
  - assert (P k) as HPk by (eapply Forall_lookup_1; eauto).
    assert (ord x k = Lt) as Hxk by (eapply (proj1 (Forall_lookup _ _) Hx); eauto).
    case_decide as E.
    + destruct (IH _ _ Hj) as [H1 H2]. split; [rewrite H1; lia|intros E2; f_equal; auto].
    + assert (ord k key <> Lt) by (intros E0; apply E; by apply (ord_trans x k key)).
      assert (ord k key <> Eq) by (intros E0%(ord_eq k key); [congruence|done|done]).
      split; [|done]. split; [done|lia].
Qed.

Lemma lower_bound_exact keys key : Forall P keys -> P key -> sorted_keys keys ->
  keys !! lower_bound keys key = Some key <-> key ∈ keys.
Proof.
  intros HP Hk Hs. split; [apply list_elem_of_lookup_2|]. intros [j Hj]%list_elem_of_lookup.
  destruct (lower_bound_lookup _ _ HP Hk Hs _ _ Hj) as [_ H]. rewrite <- H; [done|]. by apply (ord_eq key key).
Qed.

Lemma upper_bound_lower keys key : Forall P keys -> P key -> sorted_keys keys ->
  upper_bound keys key = (lower_bound keys key + if decide (key ∈ keys) then 1 else 0)%nat.
Proof.
  intros HP Hk. induction 1 as [|x keys Hs IH Hx]; [done|].
  apply Forall_cons in HP as [HPx HP]. specialize (IH HP). simpl.
  assert (ord x key = Lt -> x <> key) as Hne by (intros E ->; rewrite (proj2 (ord_eq key key Hk Hk) eq_refl) in E; done).
  destruct (ord x key) eqn:E; simpl.
  - apply (ord_eq x key) in E as ->; [|done..]. rewrite (decide_True (P := key ∈ key :: keys)) by set_solver.
    destruct keys as [|y keys]; [done|]. simpl. apply Forall_cons in Hx as [Hy _].
    rewrite decide_True; [done|]. apply Forall_cons in HP as [HPy _]. rewrite (ord_antisym key y) by done. by rewrite Hy.
  - rewrite IH. simpl. do 2 f_equal. apply decide_ext. set_solver.
  - rewrite decide_False; [done|]. rewrite not_elem_of_cons. split.
    + intros ->. by rewrite (proj2 (ord_eq x x Hk Hk) eq_refl) in E.
    + intros [j Hj]%list_elem_of_lookup. assert (ord x key = Lt) by (eapply (proj1 (Forall_lookup _ _) Hx); eauto). congruence.
Qed.

Lemma upper_bound_lookup keys key : Forall P keys -> P key -> sorted_keys keys ->
  (upper_bound keys key <= length keys)%nat /\
  (forall i k, (i < upper_bound keys key)%nat -> keys !! i = Some k -> ord k key <> Gt) /\
  (forall i k, (upper_bound keys key <= i)%nat -> keys !! i = Some k -> ord k key = Gt).
Proof.
  intros HP Hk. induction 1 as [|x keys Hs IH Hx]; [simpl; split_and!; [lia|intros i k; lia|done]|].
  apply Forall_cons in HP as [HPx HP]. destruct (IH HP) as (H1 & H2 & H3). simpl. case_decide as E.
  - split_and!; [lia|intros; lia|]. intros [|i] k _ Hi; simpl in Hi; [by injection Hi as <-|].
    assert (ord x k = Lt) as Hxk by (eapply (proj1 (Forall_lookup _ _) Hx); eauto).
    assert (P k) as HPk by (eapply Forall_lookup_1; eauto).
    assert (ord key x = Lt) as Hkx by (rewrite (ord_antisym x key) by done; by rewrite E).
    rewrite (ord_antisym key k) by done. by rewrite (ord_trans key x k).
  - split_and!; [lia| |]; intros [|i] k Hi Hl; simpl in Hl; try lia.
    + by injection Hl as <-.
    + apply (H2 i k); [lia|done].
    + apply (H3 i k); [lia|done].
Qed.

(** The comparison of key [i] of [lo ..] with the wanted key. *)
Lemma parts_sorted compare lo keys key : 0 <= lo ->
  Forall P keys -> P key -> sorted_keys keys ->
  (forall i, lo <= i < lo + Z.of_nat (length keys) -> exists k, keys !! Z.to_nat (i - lo) = Some k /\ compare i = cmp k key) ->
  parts compare lo (Z.of_nat (length keys)) (lo + Z.of_nat (lower_bound keys key)).
Proof.
  intros Hlo HP Hk Hs Hc. split; [pose proof (lower_bound_le keys key); lia|].
  intros i Hi. destruct (Hc i Hi) as (k & Hik & ->).
  assert (P k) as HPk by (eapply Forall_lookup_1; eauto).
  destruct (ord_cmp k key HPk Hk) as (z & Hz & Hsg & Hb). exists z. split; [done|]. split; [lia|].
  destruct (lower_bound_lookup _ _ HP Hk Hs _ _ Hik) as [H1 H2]. split.
  - transitivity (ord k key = Lt); [destruct (ord k key); simpl in Hsg; split; (done || lia)|]. rewrite H1. lia.
  - intros ->. destruct (ord k key); simpl in Hsg; try done. specialize (H2 eq_refl). lia.
Qed.
End sorted.
