(* ===== verification/FoliageProps.v ===== *)
(** * Searching in a page: what the searches find *)

From S2P Require Import Prelude Meta Cmp CmpProps Page PageFacts PageOps Foliage FoliageFacts.

(** ** Keys of a page *)

(** The page has these keys, as fixed size items or in nodes. *)
Inductive page_keys (mp : page_t) : bool -> list (list Z) -> Prop :=
| keys_of_nodes size items : page_holds size mp items -> page_keys mp false (it_key <$> items)
| keys_of_dupfix size k keys : dupfix_holds size k mp keys -> page_keys mp true keys.

Lemma page_keys_numkeys mp dupfix keys :
  page_keys mp dupfix keys -> page_numkeys mp = length keys /\ Z.of_nat (length keys) < 2 ^ 15 /\ is_dupfix_leaf mp = dupfix.
Proof.
  intros [size items Hp|size k ks Hp].
  - rewrite length_fmap. split; [by eapply page_numkeys_holds|]. split; [|by eapply ph_dupfix].
    pose proof (page_bounds _ _ _ Hp). rewrite (ph_lower _ _ _ Hp) in *. lia.
  - split; [by eapply dupfix_numkeys|]. split; [|by eapply dh_flag]. pose proof (dupfix_used _ _ _ _ Hp).
    destruct (dh_ksize _ _ _ _ Hp). pose proof (dh_max _ _ _ _ Hp). nia.
Qed.

Lemma page_keys_node mp keys i k : page_keys mp false keys -> keys !! i = Some k ->
  exists node, page_node mp i = Some node /\ get_key (page_body mp) node = Some k.
Proof.
  intros Hp Hi. inversion Hp as [size items Hh|]; subst. rewrite list_lookup_fmap in Hi.
  destruct (items !! i) as [it|] eqn:Ei; [|done]. injection Hi as <-.
  destruct (page_locate _ _ _ Hh i it Ei) as (A & e & B & Hb & (pad & -> & _) & _ & Hn).
  exists (length A). split; [done|]. rewrite Hb. eapply read_key.
  exact (proj1 (Forall_lookup _ _) (ph_items _ _ _ Hh) i it Ei).
Qed.

Lemma page_keys_dupfix mp keys i k : page_keys mp true keys -> keys !! i = Some k -> page_dupfix_key mp i = Some k.
Proof. intros Hp Hi. inversion Hp as [|size n ks Hh]; subst. by eapply dupfix_key. Qed.

Lemma branch_lo mp : Z.land (page_flags mp) P_BRANCH = if is_branch mp then 1 else 0.
Proof.
  unfold is_branch, P_BRANCH. pose proof (Z.land_ones (page_flags mp) 1 ltac:(lia)) as E.
  change (Z.ones 1) with 1 in E. rewrite E. case_bool_decide; [|lia]. assert (0 <= page_flags mp mod 2 ^ 1 < 2 ^ 1) by (apply Z.mod_pos_bound; lia). lia.
Qed.

(** What a search has found, index [m] of [n] keys. *)
Definition found_at (mp : page_t) (dupfix : bool) (n m : nat) (r : option sfr_t) (exact : bool) : Prop :=
  exists node, r = Some (mk_sfr (Z.of_nat m) node exact) /\
  if decide (m < n)%nat then
    if dupfix then node = node_fake else exists off, node = node_at off /\ page_node mp m = Some off
  else node = node_null.

Section search.
Context {P : list Z -> Prop} {ord : list Z -> list Z -> comparison} {cmp : comparator} {Hord : KeyOrder P ord cmp}.
Context (mp : page_t) (dupfix : bool) (keys : list (list Z)) (key : list Z) (lo : nat).
Context (Hkeys : page_keys mp dupfix keys) (HP : Forall P (drop lo keys)) (Hkey : P key) (Hsorted : sorted_keys (ord := ord) (drop lo keys)).
Context (Hlo : (lo < length keys)%nat).

Abbreviation rank := (lower_bound (ord := ord) (drop lo keys) key).

Lemma cycle_correct compare :
  (forall i k, keys !! i = Some k -> compare (Z.of_nat i) = cmp k key) ->
  let n := Z.of_nat (length keys) in
  search_cycle (Z.to_nat (n - Z.of_nat lo)) compare (Z.of_nat lo) (n - Z.of_nat lo) =
    Some (if decide (key ∈ drop lo keys) then probe_found (Z.of_nat (lo + rank)) else probe_end (Z.of_nat (lo + rank)) (Z.of_nat (lo + rank))).
Proof.
  intros Hc n. assert (length (drop lo keys) = length keys - lo)%nat as Hl by apply length_drop.
  assert (forall i, Z.of_nat lo <= i < Z.of_nat lo + Z.of_nat (length (drop lo keys)) ->
    exists k, drop lo keys !! Z.to_nat (i - Z.of_nat lo) = Some k /\ compare i = cmp k key) as Hcmp.
  { intros i Hi. destruct (lookup_lt_is_Some_2 (drop lo keys) (Z.to_nat (i - Z.of_nat lo))) as [k Hk]; [lia|].
    exists k. split; [done|]. rewrite lookup_drop in Hk. apply Hc in Hk. rewrite <- Hk. f_equal. lia. }
  replace (n - Z.of_nat lo) with (Z.of_nat (length (drop lo keys))) by lia.
  pose proof (parts_sorted compare (Z.of_nat lo) (drop lo keys) key ltac:(lia) HP Hkey Hsorted Hcmp) as Hparts.
  rewrite (search_cycle_spec _ _ _ _ (Z.of_nat lo + Z.of_nat rank)) by (lia || done). f_equal. rewrite Nat2Z.inj_add.
  set (m := lower_bound _ _) in *. apply decide_ext. rewrite <- (lower_bound_exact _ _ HP Hkey Hsorted). fold m. split.
  - intros [Hm E]. destruct (Hcmp (Z.of_nat lo + Z.of_nat m)) as (k & Hk & E'); [lia|].
    replace (Z.to_nat (Z.of_nat lo + Z.of_nat m - Z.of_nat lo)) with m in Hk by lia. rewrite Hk. f_equal.
    assert (P k) as HPk by (eapply Forall_lookup_1; eauto). destruct (ord_cmp k key HPk Hkey) as (z & Hz & Hsg & _).
    apply (ord_eq k key HPk Hkey). rewrite Hz in E'. rewrite E in E'. injection E' as <-. by destruct (ord k key).
  - intros Hk. apply lookup_lt_Some in Hk as Hk'. split; [lia|]. rewrite lookup_drop in Hk. apply Hc in Hk.
    rewrite Nat2Z.inj_add in Hk. rewrite Hk. destruct (ord_cmp key key Hkey Hkey) as (z & Hz & Hsg & _).
    rewrite (proj2 (ord_eq key key Hkey Hkey) eq_refl) in Hsg. simpl in Hsg. rewrite Hz. f_equal. lia.
Qed.

Lemma compare_node_keys : dupfix = false ->
  forall i k, keys !! i = Some k -> compare_node cmp mp key (Z.of_nat i) = cmp k key.
Proof.
  intros E i k Hi. destruct (page_keys_node mp keys i k) as (node & H1 & H2); [by rewrite <- E|done|].
  unfold compare_node. by rewrite Nat2Z.id, H1; cbn [mbind option_bind]; rewrite H2.
Qed.

Lemma compare_dupfix_keys : dupfix = true ->
  forall i k, keys !! i = Some k -> compare_dupfix cmp mp key (Z.of_nat i) = cmp k key.
Proof.
  intros E i k Hi. unfold compare_dupfix. rewrite Nat2Z.id, (page_keys_dupfix mp keys i k) by (done || by rewrite <- E). done.
Qed.

Lemma u16_rank : u16 (Z.of_nat (lo + rank)) = Z.of_nat (lo + rank).
Proof.
  destruct (page_keys_numkeys _ _ _ Hkeys) as (_ & Hb & _). pose proof (lower_bound_le (ord := ord) (drop lo keys) key) as H.
  rewrite length_drop in H. unfold u16. apply Z.mod_small. lia.
Qed.

Lemma search_nodes_correct : dupfix = false ->
  found_at mp false (length keys) (lo + rank) (search_nodes cmp mp key (Z.of_nat (length keys)) (Z.of_nat lo)) (bool_decide (key ∈ drop lo keys)).
Proof.
  intros E. unfold search_nodes. rewrite cycle_correct by by apply compare_node_keys. cbn [mbind option_bind].
  pose proof (lower_bound_exact (ord := ord) (cmp := cmp) _ _ HP Hkey Hsorted) as Hex.
  destruct (decide (key ∈ drop lo keys)) as [Hin|Hin].
  - rewrite bool_decide_true by done. apply Hex in Hin. rewrite lookup_drop in Hin.
    destruct (page_keys_node mp keys _ _ ltac:(by rewrite <- E) Hin) as (node & Hn & _).
    rewrite Nat2Z.id, Hn. cbn [mbind option_bind]. rewrite u16_rank. exists (node_at node). split; [done|].
    rewrite decide_True by by eapply lookup_lt_Some. by exists node.
  - rewrite bool_decide_false by done. unfold at_node. rewrite Nat2Z.id, u16_rank. unfold found_at.
    destruct (decide (lo + rank < length keys)%nat) as [Hm|Hm].
    + rewrite decide_True by lia. destruct (lookup_lt_is_Some_2 keys (lo + rank) Hm) as [k Hk].
      destruct (page_keys_node mp keys _ _ ltac:(by rewrite <- E) Hk) as (node & Hn & _). rewrite Hn. cbn [mbind option_bind].
      exists (node_at node). split; [done|]. by exists node.
    + rewrite decide_False by lia. by exists node_null.
Qed.
End search.

(** [SEARCH_FOLIAGE], with one comparator at both of its places. *)
Lemma search_foliage_spec {P ord cmp} `{!KeyOrder P ord cmp} different dupfixed mp keys key :
  let lo := if is_branch mp then 1%nat else 0%nat in
  let dupfix := dupfixed && negb (is_branch mp) in
  page_keys mp dupfix keys -> Forall P (drop lo keys) -> P key -> sorted_keys (ord := ord) (drop lo keys) ->
  if decide (lo < length keys)%nat
  then found_at mp dupfix (length keys) (lo + lower_bound (ord := ord) (drop lo keys) key)
      (search_foliage cmp cmp different dupfixed mp key) (bool_decide (key ∈ drop lo keys))
  else search_foliage cmp cmp different dupfixed mp key = Some (mk_sfr 0 node_null false).
Proof.
  intros lo dupfix Hp HP Hk Hs. destruct (page_keys_numkeys _ _ _ Hp) as (Hn & _ & _).
  unfold search_foliage. rewrite Hn, branch_lo.
  replace (if is_branch mp then 1 else 0) with (Z.of_nat lo) by (unfold lo; by destruct (is_branch mp)).
  destruct (decide (lo < length keys)%nat) as [Hlo|Hlo]; [|cbv zeta; by rewrite (decide_True (P := Z.of_nat (length keys) - 1 < Z.of_nat lo)) by lia].
  cbv zeta. rewrite (decide_False (P := Z.of_nat (length keys) - 1 < Z.of_nat lo)) by lia.
  assert (dupfix = false -> found_at mp dupfix (length keys) (lo + lower_bound (ord := ord) (drop lo keys) key)
    (search_nodes cmp mp key (Z.of_nat (length keys)) (Z.of_nat lo)) (bool_decide (key ∈ drop lo keys))) as Hnodes.
  { intros E. rewrite E. by apply (search_nodes_correct mp dupfix keys key lo Hp HP Hk Hs Hlo). }
  destruct (bool_decide (Z.of_nat lo = 0)) eqn:Hz; [apply bool_decide_eq_true in Hz|apply bool_decide_eq_false in Hz];
    rewrite ?andb_false_r, ?andb_true_r.
  - assert (is_branch mp = false) as Hb by (unfold lo in Hz; destruct (is_branch mp); [lia|done]).
    unfold dupfix in *. rewrite Hb, andb_true_r in *. destruct dupfixed; rewrite ?orb_true_r; cbn [orb];
      [|destruct different; cbn [orb]; by apply Hnodes].
    rewrite (cycle_correct keys key lo HP Hk Hs Hlo) by by apply (compare_dupfix_keys mp true keys).
    cbn [mbind option_bind]. case_bool_decide as Hin.
    + rewrite decide_True by done. rewrite (u16_rank mp true keys key lo Hp Hlo). exists node_fake. split; [done|].
      apply (lower_bound_exact (ord := ord) (cmp := cmp) _ _ HP Hk Hs) in Hin. rewrite lookup_drop in Hin. by rewrite decide_True by by eapply lookup_lt_Some.
    + rewrite decide_False by done. rewrite (u16_rank mp true keys key lo Hp Hlo). eexists. split; [done|].
      repeat case_decide; (done || lia).
  - apply Hnodes. unfold dupfix, lo in *. destruct (is_branch mp); [apply andb_false_r|lia].
Qed.

Lemma search_branch_spec {P ord cmp} `{!KeyOrder P ord cmp} mp keys key :
  page_keys mp false keys -> Forall P (drop 1 keys) -> P key -> sorted_keys (ord := ord) (drop 1 keys) ->
  search_branch cmp mp key = Some (Z.of_nat (upper_bound (ord := ord) (drop 1 keys) key)).
Proof.
  intros Hp HP Hk Hs. destruct (page_keys_numkeys _ _ _ Hp) as (Hn & _ & _). unfold search_branch. rewrite Hn.
  destruct (decide (Z.of_nat (length keys) > 1)) as [Hlt|Hge].
  - change 1 with (Z.of_nat 1) at 2 3 4. rewrite (cycle_correct keys key 1 HP Hk Hs) by (lia || by apply (compare_node_keys mp false keys)).
    cbn [mbind option_bind]. rewrite (upper_bound_lower _ _ HP Hk Hs).
    destruct (decide (key ∈ drop 1 keys)); f_equal; lia.
  - destruct keys as [|k [|]]; simpl in *; [done|done|lia].
Qed.

(** ** The old search *)

Lemma old_cycle_range fuel compare : forall lo hi i e, lo <= hi ->
  old_cycle fuel compare lo hi = Some (i, e) -> lo <= i <= hi + 1 /\ (e = true -> i <= hi).
Proof.
  induction fuel as [|fuel IH]; intros lo hi i e Hlo H; [done|]. cbn [old_cycle] in H.
  rewrite Z.shiftr_div_pow2 in H by lia. change (2 ^ 1) with 2 in H. destruct (compare ((lo + hi) / 2)) as [c|]; [|done].
  cbn [mbind option_bind] in H. assert (lo <= (lo + hi) / 2 <= hi) by dlia.
  set (it := (lo + hi) / 2) in *.
  repeat case_decide; first [injection H as <- <-; split; (lia || done)|idtac].
  all: apply IH in H as [Hr He]; [|lia]; split; [lia|]; intros E; specialize (He E); lia.
Qed.

(** ** The builtin comparators *)

Definition key_ok (a : list Z) : Prop := bytes a /\ Z.of_nat (length a) < 2 ^ 31.

(** [memcmp] gives an [int]. *)
Definition memcmp_int (memcmp : list Z -> list Z -> Z) : Prop := memcmp_ok memcmp /\ forall a b, - 2 ^ 31 <= memcmp a b < 2 ^ 31.

(** The order that a comparator function stands for. *)
Definition func_order (f : cmp_func) : list Z -> list Z -> comparison :=
  match f with
  | CMP_LEXICAL => lex
  | CMP_REVERSE => fun a b => lex (rev a) (rev b)
  | CMP_LENFAST => lenlex
  | CMP_UINT_UNALIGNED | CMP_UINT_ALIGN2 | CMP_UINT_ALIGN4 => int_order
  | CMP_CUSTOM => fun _ _ => Eq
  end.

Definition int_result (r : option Z) : Prop := forall z, r = Some z -> - 2 ^ 31 <= z < 2 ^ 31.

Lemma s32_int x : - 2 ^ 31 <= s32 x < 2 ^ 31.
Proof. unfold s32, u32. pose proof (Z.mod_pos_bound x (2 ^ 32) ltac:(done)). destruct (Z.ltb_spec (x mod 2 ^ 32) (2 ^ 31)); lia. Qed.

Definition small_step (r : option (Z + nat * nat * nat)) : Prop := forall c, r = Some (inl c) -> - 2 ^ 31 <= c < 2 ^ 31.

Lemma step_on_int r next : small_step r -> (forall pa pb l, int_result (next pa pb l)) -> int_result (step_on r next).
Proof.
  intros Hr Hn z. unfold step_on. destruct r as [[c|[[pa pb] l]]|]; cbn [mbind option_bind]; [|apply Hn|done].
  intros E. injection E as <-. by apply Hr.
Qed.

Ltac small :=
  repeat match goal with
  | |- context [?o ≫= _] => destruct o; cbn [mbind option_bind]
  | |- context [decide ?P] => destruct (decide P)
  end; try (let E := fresh in intros E; first [discriminate E | injection E as <-; lia]).

Lemma reverse_words_small unaligned_ok n a b : forall pa pb l, small_step (reverse_words unaligned_ok n a b pa pb l).
Proof. induction n as [|n IH]; intros pa pb l c; cbn [reverse_words]; [done|]. small. apply IH. Qed.

Lemma cmp_reverse_int unaligned_ok a b : int_result (cmp_reverse unaligned_ok a b).
Proof.
  unfold cmp_reverse. case_decide.
  - apply step_on_int; [apply reverse_words_small|]. intros. apply step_on_int; [intros c; unfold reverse_half; small|].
    intros. apply step_on_int; [intros c; unfold reverse_tail; small|]. intros ? ? ? z E. injection E as <-. apply s32_int.
  - intros z E. injection E as <-. apply s32_int.
Qed.

Lemma cmp_uint_int unaligned_ok align a b : int_result (cmp_uint_inline unaligned_ok align a b).
Proof.
  intros z. unfold cmp_uint_inline, cmp_uint64_unchecked, cmp_uint32_unchecked, CMP2INT. small.
Qed.

Section builtin.
Context (unaligned_ok : Z) (memcmp : list Z -> list Z -> Z) (custom : comparator) (Hmem : memcmp_int memcmp).

Lemma func_answers f a b : f <> CMP_CUSTOM -> key_ok a -> key_ok b ->
  exists z, cmp_of unaligned_ok memcmp custom f a b = Some z /\ Z.sgn z = cmp_sign (func_order f a b) /\ - 2 ^ 31 <= z < 2 ^ 31.
Proof.
  intros Hf [Ha Hla] [Hb Hlb]. destruct Hmem as [Hm Hmi].
  assert (answers (cmp_of unaligned_ok memcmp custom f a b) (func_order f a b) /\ int_result (cmp_of unaligned_ok memcmp custom f a b)) as [(z & Hz & Hs) Hi].
  2:{ exists z. split; [done|]. split; [done|]. by apply Hi. }
  destruct f; simpl; try done.
  - split; [by apply cmp_lexical_spec|]. intros z E. unfold cmp_lexical in E. injection E as <-.
    case_decide; [case_decide; [apply Hmi|lia]|apply s32_int].
  - split; [by apply cmp_reverse_spec|apply cmp_reverse_int].
  - split; [by apply cmp_lenfast_spec|]. intros z E. unfold cmp_lenfast in E. injection E as <-. case_decide; [apply s32_int|apply Hmi].
  - split; [by apply int_order_spec|apply cmp_uint_int].
  - split; [case_decide; by apply int_order_spec|case_decide; apply cmp_uint_int].
  - split; [case_decide; by apply int_order_spec|case_decide; apply cmp_uint_int].
Qed.
End builtin.

Lemma lenlex_antisym a b : lenlex b a = CompOpp (lenlex a b).
Proof.
  unfold lenlex. rewrite (Nat.compare_antisym (length a)). destruct (Nat.compare (length a) (length b)); simpl; [apply lex_antisym|done..].
Qed.
Lemma int_order_antisym a b : int_order b a = CompOpp (int_order a b).
Proof.
  unfold int_order. destruct (decide (length a = length b /\ _)) as [[E H]|H].
  - rewrite decide_True by (rewrite <- E; tauto). apply Z.compare_antisym.
  - rewrite decide_False; [done|]. intros [E H']. apply H. split; [done|]. by rewrite <- E.
Qed.
Lemma func_order_antisym f a b : func_order f b a = CompOpp (func_order f a b).
Proof. destruct f; simpl; try apply int_order_antisym; try apply lex_antisym; [apply lenlex_antisym|done]. Qed.

(** ** The old search *)

Lemma old_cycle_ext fuel c c' : (forall i, c i = c' i) -> forall lo hi, old_cycle fuel c lo hi = old_cycle fuel c' lo hi.
Proof. intros E. induction fuel as [|fuel IH]; intros lo hi; [done|]. cbn [old_cycle]. rewrite E. destruct (c' _); [|done]. cbn. repeat case_decide; auto. Qed.

Lemma bytes_at_ok b off n k : bytes b -> Z.of_nat (length b) < 2 ^ 31 -> bytes_at b off n = Some k -> key_ok k.
Proof.
  unfold bytes_at. intros Hb Hl. case_decide; [|done]. intros E. injection E as <-. split; [by apply Forall_take, Forall_drop|].
  rewrite length_take. lia.
Qed.

Section old.
Context (unaligned_ok : Z) (memcmp : list Z -> list Z -> Z) (custom : comparator) (Hmem : memcmp_int memcmp).
Context (Hcustom : forall a b, mirrored (custom a b) (custom b a)).
Context (mp : page_t) (key : list Z) (f : cmp_func).
Context (Hbody : bytes (page_body mp)) (Hsize : Z.of_nat (length (page_body mp)) < 2 ^ 31) (Hkey : key_ok key).

Abbreviation fn := (cmp_of unaligned_ok memcmp custom).

Lemma func_mirrored a b : key_ok a -> key_ok b -> mirrored (fn f a b) (fn f b a).
Proof.
  intros Ha Hb. destruct (decide (f = CMP_CUSTOM)) as [->|Hf]; [apply Hcustom|].
  destruct (func_answers unaligned_ok memcmp custom Hmem f a b Hf Ha Hb) as (x & -> & Hx & Hbx).
  destruct (func_answers unaligned_ok memcmp custom Hmem f b a Hf Hb Ha) as (y & -> & Hy & _).
  rewrite func_order_antisym in Hy. unfold mirrored. split; [|lia]. destruct (func_order f a b); simpl in *; lia.
Qed.

(** The comparators of integers are one function on keys. *)
Lemma align_irrelevant a b : key_ok a -> key_ok b ->
  fn CMP_UINT_ALIGN2 a b = fn CMP_UINT_UNALIGNED a b /\ fn CMP_UINT_ALIGN4 a b = fn CMP_UINT_UNALIGNED a b.
Proof.
  assert (forall align, key_ok a -> key_ok b -> cmp_uint_inline unaligned_ok align a b = cmp_uint_inline unaligned_ok 1 a b) as E.
  { intros align [Ha _] [Hb _]. unfold cmp_uint_inline. destruct (decide (length a = length b)) as [El|]; [|done].
    destruct (decide (length a = 8)%nat) as [E8|]; [|destruct (decide (length a = 4)%nat) as [E4|]; [|done]].
    - transitivity (cmp_uint_inline unaligned_ok align a b); [unfold cmp_uint_inline; by rewrite !decide_True|].
      rewrite cmp_uint_spec by (auto || lia). symmetry.
      transitivity (cmp_uint_inline unaligned_ok 1 a b); [unfold cmp_uint_inline; by rewrite !decide_True|].
      by rewrite cmp_uint_spec by (auto || lia).
    - transitivity (cmp_uint_inline unaligned_ok align a b); [unfold cmp_uint_inline; by rewrite decide_True, decide_False, decide_True by (auto || lia)|].
      rewrite cmp_uint_spec by (auto || lia). symmetry.
      transitivity (cmp_uint_inline unaligned_ok 1 a b); [unfold cmp_uint_inline; by rewrite decide_True, decide_False, decide_True by (auto || lia)|].
      by rewrite cmp_uint_spec by (auto || lia). }
  intros Ha Hb. simpl. unfold cmp_uint_align2, cmp_uint_align4, cmp_uint_unaligned.
  split; case_decide; auto.
Qed.

Lemma mirrored_node i : mirrored (compare_node (fn f) mp key i) (old_compare (fn f) mp key i).
Proof.
  unfold compare_node, old_compare. destruct (page_node mp (Z.to_nat i)) as [node|]; [|done]. cbn [mbind option_bind].
  unfold get_key. destruct (node_ks _ _); [|done]. cbn [mbind option_bind]. destruct (bytes_at _ _ _) eqn:E; [|done].
  apply func_mirrored; [by eapply bytes_at_ok|done].
Qed.
Lemma mirrored_dupfix i : mirrored (compare_dupfix (fn f) mp key i) (old_compare_dupfix (fn f) mp key i).
Proof.
  unfold compare_dupfix, old_compare_dupfix, page_dupfix_key. destruct (bytes_at _ _ _) eqn:E; [|done].
  apply func_mirrored; [by eapply bytes_at_ok|done].
Qed.

Lemma old_compare_align i : f = CMP_UINT_ALIGN2 \/ f = CMP_UINT_UNALIGNED ->
  old_compare (fn CMP_UINT_ALIGN4) mp key i = old_compare (fn f) mp key i.
Proof.
  intros Hf. unfold old_compare. destruct (page_node mp (Z.to_nat i)) as [node|]; [|done]. cbn [mbind option_bind].
  unfold get_key. destruct (node_ks _ _); [|done]. cbn [mbind option_bind]. destruct (bytes_at _ _ _) eqn:E; [|done].
  cbn [mbind option_bind]. destruct (align_irrelevant key l Hkey) as [E2 E4]; [by eapply bytes_at_ok|].
  destruct Hf as [-> | ->]; congruence.
Qed.

Context (Hflags : Z.land (page_flags mp) P_DUPFIX <> 0 -> is_branch mp = false).

Lemma search_nodes_old nkeys lo : lo < nkeys ->
  search_nodes (fn f) mp key nkeys lo =
  '(i, exact) ← old_cycle (Z.to_nat (nkeys - lo)) (old_compare (fn f) mp key) lo (nkeys - 1);
  node ← at_node mp nkeys i; Some (mk_sfr (u16 i) node exact).
Proof.
  intros Hlo. unfold search_nodes. rewrite (search_cycle_old _ _ (old_compare (fn f) mp key)) by (lia || intros; apply mirrored_node).
  replace (lo + (nkeys - lo) - 1) with (nkeys - 1) by lia.
  destruct (old_cycle _ _ _ _) as [[i [|]]|] eqn:E; [|done..]. apply old_cycle_range in E as [H1 H2]; [|lia].
  unfold at_node. cbn. rewrite decide_True by (specialize (H2 eq_refl); lia). by destruct (page_node mp (Z.to_nat i)).
Qed.

Lemma search_foliage_old different :
  search_foliage (fn f) (fn f) different (is_dupfix_leaf mp) mp key = old_node_search unaligned_ok memcmp custom f mp key.
Proof.
  unfold search_foliage, old_node_search. rewrite branch_lo. case_decide; [done|].
  assert (is_dupfix_leaf mp = true -> is_branch mp = false) as Hb by (intros E%bool_decide_eq_true; by apply Hflags).
  destruct (is_dupfix_leaf mp); rewrite ?orb_true_r.
  - specialize (Hb eq_refl). rewrite Hb in *. cbn [andb]. rewrite bool_decide_true by done.
    rewrite (search_cycle_old _ _ (old_compare_dupfix (fn f) mp key)) by (lia || (intros; apply mirrored_dupfix)).
    replace (0 + (Z.of_nat (page_numkeys mp) - 0) - 1) with (Z.of_nat (page_numkeys mp) - 1) by lia.
    destruct (old_cycle _ _ _ _) as [[i [|]]|] eqn:E; [|done..]. apply old_cycle_range in E as [H1 H2]; [|lia].
    cbn. rewrite decide_True by (specialize (H2 eq_refl); lia). done.
  - transitivity (search_nodes (fn f) mp key (Z.of_nat (page_numkeys mp)) (if is_branch mp then 1 else 0)); [by destruct ((different || false) && _)|].
    rewrite search_nodes_old by (destruct (is_branch mp); lia). f_equal.
    destruct (bool_decide (unaligned_ok < 4) && is_branch mp && _) eqn:E; [|done].
    apply andb_true_iff in E as [_ E%bool_decide_eq_true]. apply old_cycle_ext. intros i. rewrite old_compare_align; [done|tauto].
Qed.

Lemma page_node_some i : page_lower mp <= Z.of_nat (length (page_body mp)) -> 0 <= i < Z.of_nat (page_numkeys mp) ->
  exists node, page_node mp (Z.to_nat i) = Some node.
Proof.
  intros Hl Hi. unfold page_numkeys in Hi. rewrite Z.shiftr_div_pow2 in Hi by lia. change (2 ^ 1) with 2 in Hi.
  unfold page_node, entry, load. rewrite decide_True by dlia. by eexists.
Qed.

Lemma search_branch_old : is_branch mp = true -> is_dupfix_leaf mp = false -> (1 <= page_numkeys mp)%nat ->
  0 <= page_lower mp < 2 ^ 16 -> page_lower mp <= Z.of_nat (length (page_body mp)) ->
  search_branch (fn f) mp key = old_branch_search unaligned_ok memcmp custom f mp key.
Proof.
  intros Hb Hd Hn Hlow Hin. unfold old_branch_search. rewrite <- (search_foliage_old false), Hd.
  unfold search_branch, search_foliage. rewrite branch_lo, Hb. cbn [orb andb].
  assert (Z.of_nat (page_numkeys mp) < 2 ^ 15) as Hmax.
  { unfold page_numkeys. rewrite Z.shiftr_div_pow2 by lia. change (2 ^ 1) with 2. dlia. }
  destruct (decide (Z.of_nat (page_numkeys mp) > 1)) as [Hlt|Hge].
  2:{ rewrite decide_True by lia. simpl. f_equal. lia. }
  rewrite decide_False by lia. unfold search_nodes.
  rewrite (search_cycle_old _ _ (old_compare (fn f) mp key)) by (lia || (intros; apply mirrored_node)).
  destruct (old_cycle _ _ _ _) as [[i e]|] eqn:E; [|done]. apply old_cycle_range in E as [H1 H2]; [|lia].
  assert (u16 i = i) as Eu by (apply Z.mod_small; lia). unfold at_node.
  destruct e; cbn.
  - specialize (H2 eq_refl). destruct (page_node_some i Hin) as [node Hnode]; [lia|]. rewrite Hnode. cbn. rewrite Eu. f_equal. lia.
  - destruct (decide (i < Z.of_nat (page_numkeys mp))).
    + destruct (page_node_some i Hin) as [node Hnode]; [lia|]. rewrite Hnode. cbn. rewrite Eu. f_equal. lia.
    + cbn. f_equal. lia.
Qed.
End old.
