(* ===== verification/FoliageDispatch.v ===== *)
(** * Searching in a page: the search that a table uses

    The choice of a search by the comparator and the flags of the table, and that
    it stays right for all pages of the table. *)

From S2P Require Import Prelude Meta Cmp CmpProps Page PageFacts PageOps Foliage FoliageFacts FoliageProps.

(** ** Comparators which agree on the keys of a page *)

Lemma search_cycle_ext c c' fuel : forall lo scope, 0 < scope ->
  (forall i, lo <= i < lo + scope -> exists z, c i = Some z /\ c' i = Some z /\ - 2 ^ 31 <= z < 2 ^ 31) ->
  search_cycle fuel c lo scope = search_cycle fuel c' lo scope.
Proof.
  induction fuel as [|fuel IH]; intros lo scope Hs Hc; [done|].
  destruct (Hc (lo + (scope - 1) / 2) ltac:(dlia)) as (z & E & E' & Hz).
  rewrite (search_cycle_turn _ _ _ _ z Hs E), (search_cycle_turn _ _ _ _ z Hs E') by lia. cbv zeta.
  assert (lo <= lo + (scope - 1) / 2 < lo + scope) as Hmid by dlia. set (it := lo + (scope - 1) / 2) in *.
  repeat case_decide; try done; apply IH; [lia|intros i Hi; apply Hc; lia|lia|intros i Hi; apply Hc; lia].
Qed.

(** [c] and [c'] answer the same for the keys that are looked at. *)
Definition agree (c c' : comparator) (keys : list (list Z)) (key : list Z) : Prop :=
  Forall (fun k => exists z, c k key = Some z /\ c' k key = Some z /\ - 2 ^ 31 <= z < 2 ^ 31) keys.

Section agree.
Context (mp : page_t) (dupfix : bool) (keys : list (list Z)) (key : list Z) (lo : nat) (c c' : comparator).
Context (Hkeys : page_keys mp dupfix keys) (Hagree : agree c c' (drop lo keys) key) (Hlo : (lo < length keys)%nat).

Lemma agree_at i : Z.of_nat lo <= i < Z.of_nat lo + (Z.of_nat (length keys) - Z.of_nat lo) ->
  exists k, keys !! Z.to_nat i = Some k /\ exists z, c k key = Some z /\ c' k key = Some z /\ - 2 ^ 31 <= z < 2 ^ 31.
Proof.
  intros Hi. destruct (lookup_lt_is_Some_2 keys (Z.to_nat i)) as [k Hk]; [lia|]. exists k. split; [done|].
  apply (proj1 (Forall_lookup _ _) Hagree (Z.to_nat i - lo)%nat). rewrite lookup_drop. rewrite <- Hk. f_equal. lia.
Qed.

Lemma search_nodes_agree : dupfix = false ->
  search_nodes c mp key (Z.of_nat (length keys)) (Z.of_nat lo) = search_nodes c' mp key (Z.of_nat (length keys)) (Z.of_nat lo).
Proof.
  intros E. unfold search_nodes. rewrite (search_cycle_ext (compare_node c mp key) (compare_node c' mp key)); [done|lia|].
  intros i Hi. destruct (agree_at i Hi) as (k & Hk & z & Hz & Hz' & Hb).
  destruct (page_keys_node mp keys _ _ ltac:(by rewrite <- E) Hk) as (node & H1 & H2).
  exists z. unfold compare_node. rewrite H1. cbn [mbind option_bind]. rewrite H2. cbn [mbind option_bind]. done.
Qed.

Lemma compare_dupfix_agree fuel : dupfix = true ->
  search_cycle fuel (compare_dupfix c mp key) (Z.of_nat lo) (Z.of_nat (length keys) - Z.of_nat lo) =
  search_cycle fuel (compare_dupfix c' mp key) (Z.of_nat lo) (Z.of_nat (length keys) - Z.of_nat lo).
Proof.
  intros E. apply search_cycle_ext; [lia|]. intros i Hi. destruct (agree_at i Hi) as (k & Hk & z & Hz & Hz' & Hb).
  exists z. unfold compare_dupfix. rewrite (page_keys_dupfix mp keys _ k) by (done || by rewrite <- E). done.
Qed.
End agree.

Definition first_key (mp : page_t) : nat := if is_branch mp then 1%nat else 0%nat.

Lemma search_foliage_agree branch_cmp leaf_cmp c different dupfixed mp keys key :
  page_keys mp (dupfixed && negb (is_branch mp)) keys ->
  agree branch_cmp c (drop (first_key mp) keys) key ->
  (different || dupfixed = true -> agree leaf_cmp c (drop (first_key mp) keys) key) ->
  search_foliage branch_cmp leaf_cmp different dupfixed mp key = search_foliage c c false dupfixed mp key.
Proof.
  intros Hp Hb Hl. destruct (page_keys_numkeys _ _ _ Hp) as (Hn & _ & _). unfold search_foliage. rewrite Hn, branch_lo.
  replace (if is_branch mp then 1 else 0) with (Z.of_nat (first_key mp)) by (unfold first_key; by destruct (is_branch mp)).
  destruct (decide (Z.of_nat (length keys) - 1 < Z.of_nat (first_key mp))) as [|Hlo]; [done|].
  assert (first_key mp < length keys)%nat as Hlo' by lia.
  assert (bool_decide (Z.of_nat (first_key mp) = 0) = negb (is_branch mp)) as Ez by (unfold first_key; by destruct (is_branch mp)).
  rewrite Ez. destruct (is_branch mp) eqn:Eb; rewrite ?andb_false_r in *; cbn [negb] in *; rewrite ?andb_true_r in *; rewrite ?andb_false_r in *.
  - by apply (search_nodes_agree mp false keys key _ _ _ Hp Hb Hlo').
  - destruct dupfixed; rewrite ?orb_true_r, ?orb_false_r in *.
    + rewrite (compare_dupfix_agree mp true keys key _ leaf_cmp c Hp (Hl eq_refl) Hlo') by done. done.
    + destruct different; cbn [orb] in *; [apply (search_nodes_agree mp false keys key _ _ _ Hp (Hl eq_refl) Hlo' eq_refl)|].
      by apply (search_nodes_agree mp false keys key _ _ _ Hp Hb Hlo').
Qed.

Lemma search_branch_agree c c' mp keys key :
  page_keys mp false keys -> agree c c' (drop 1 keys) key -> search_branch c mp key = search_branch c' mp key.
Proof.
  intros Hp Ha. destruct (page_keys_numkeys _ _ _ Hp) as (Hn & _ & _). unfold search_branch. rewrite Hn.
  destruct (decide (Z.of_nat (length keys) > 1)) as [Hlt|]; [|done].
  rewrite (search_cycle_ext (compare_node c mp key) (compare_node c' mp key)); [done|lia|].
  intros i Hi. destruct (agree_at keys key 1 c c' Ha ltac:(lia) i ltac:(lia)) as (k & Hk & z & Hz & Hz' & Hb).
  destruct (page_keys_node mp keys _ _ Hp Hk) as (node & H1 & H2).
  exists z. unfold compare_node. rewrite H1. cbn [mbind option_bind]. rewrite H2. cbn [mbind option_bind]. done.
Qed.

(** ** Comparators of integers *)

Definition int_key (n : nat) (k : list Z) : Prop := bytes k /\ length k = n.
Definition int_comparator (n : nat) (c : comparator) : Prop :=
  forall a b, int_key n a -> int_key n b -> c a b = Some (cmp_sign (le_value a ?= le_value b)).

Lemma int_agree n c c' keys key : int_comparator n c -> int_comparator n c' -> Forall (int_key n) keys -> int_key n key -> agree c c' keys key.
Proof.
  intros Hc Hc' Hk Hkey. eapply Forall_impl; [exact Hk|]. intros k Hi. eexists. split; [by apply Hc|]. split; [by apply Hc'|].
  destruct (_ ?= _); simpl; lia.
Qed.

Section ints.
Context (unaligned_ok : Z) (memcmp : list Z -> list Z -> Z) (custom : comparator).
Abbreviation fn := (cmp_of unaligned_ok memcmp custom).

Definition is_uint (f : cmp_func) : bool :=
  match f with CMP_UINT_UNALIGNED | CMP_UINT_ALIGN2 | CMP_UINT_ALIGN4 => true | _ => false end.

Lemma int_uint n f : (n = 4 \/ n = 8)%nat -> is_uint f = true -> int_comparator n (fn f).
Proof.
  intros Hn Hf a b [Ha La] [Hb Lb].
  destruct f; try done; simpl; try case_decide; apply cmp_uint_spec; (done || lia).
Qed.

Lemma int_unchecked32 align : int_comparator 4 (cmp_uint32_unchecked unaligned_ok align).
Proof.
  intros a b [Ha La] [Hb Lb]. rewrite <- (cmp_uint_spec unaligned_ok align a b) by (done || lia).
  unfold cmp_uint_inline. by rewrite decide_True, decide_False, decide_True by lia.
Qed.
Lemma int_unchecked64 align : int_comparator 8 (cmp_uint64_unchecked unaligned_ok align).
Proof.
  intros a b [Ha La] [Hb Lb]. rewrite <- (cmp_uint_spec unaligned_ok align a b) by (done || lia).
  unfold cmp_uint_inline. by rewrite decide_True, decide_True by lia.
Qed.
Lemma int_align32 : int_comparator 4 (cmp_uint32_align4_unchecked unaligned_ok).
Proof. unfold cmp_uint32_align4_unchecked. case_decide; apply int_unchecked32. Qed.
Lemma int_align64 : int_comparator 8 (cmp_uint64_align4_unchecked unaligned_ok).
Proof. unfold cmp_uint64_align4_unchecked. case_decide; apply int_unchecked64. Qed.
End ints.

(** ** The choice *)

Lemma page_keys_ks mp keys i k : page_keys mp false keys -> keys !! i = Some k ->
  exists node, page_node mp i = Some node /\ node_ks (page_body mp) node = Some (Z.of_nat (length k)).
Proof.
  intros Hp Hi. inversion Hp as [size items Hh|]; subst. rewrite list_lookup_fmap in Hi.
  destruct (items !! i) as [it|] eqn:Ei; [|done]. injection Hi as <-.
  destruct (page_locate _ _ _ Hh i it Ei) as (A & e & B & Hb & (pad & -> & _) & _ & Hn).
  exists (length A). split; [done|]. rewrite Hb. eapply read_ks.
  exact (proj1 (Forall_lookup _ _) (ph_items _ _ _ Hh) i it Ei).
Qed.

Definition integer_keys (f : cmp_func) (tree_flags : Z) : Prop := is_uint f = true /\ Z.land tree_flags MDBX_INTEGERKEY <> 0.

Lemma choose_ordinal_cases {A} f validation n c (uint32 uint64 ordinal custom s : A) :
  choose_ordinal f validation (Z.of_nat n) c uint32 uint64 ordinal custom = s ->
  (is_uint f = true /\ (s = uint32 /\ n = 4%nat \/ s = uint64 /\ n = 8%nat \/ s = ordinal)) \/ s = custom.
Proof.
  intros <-. unfold choose_ordinal, ordinal_of. destruct f; simpl; auto;
    (destruct (decide (Z.of_nat n <> 0)); [|auto]; destruct (negb validation && _); [|auto 6]; repeat case_decide; auto 6 with lia).
  all: destruct_and?; try (left; split; [done|]; (left; split; [done|lia]) || (right; left; split; [done|lia])).
Qed.

Section choice.
Context (unaligned_ok : Z) (memcmp : list Z -> list Z -> Z) (custom : comparator).
Context (f : cmp_func) (validation : bool) (tree_flags : Z) (n : nat) (Hn : integer_keys f tree_flags -> (n = 4 \/ n = 8)%nat).
Abbreviation fn := (cmp_of unaligned_ok memcmp custom).
Abbreviation search s := (foliage_search unaligned_ok memcmp custom f s).

(** The keys that are compared in a page have the size of the table. *)
Definition sized (mp : page_t) (keys : list (list Z)) (key : list Z) : Prop :=
  integer_keys f tree_flags -> Forall (int_key n) (drop (first_key mp) keys) /\ int_key n key.

Lemma usual_null c mp key : search_foliage c null_comparator false false mp key = search_foliage c c false false mp key.
Proof. done. Qed.
Lemma dupfix_same c different mp key : search_foliage c c different true mp key = search_foliage c c false true mp key.
Proof. unfold search_foliage. by rewrite !orb_true_r. Qed.

Lemma usual_right s mp keys key : page_keys mp false keys -> sized mp keys key ->
  s = custom_usual \/ integer_keys f tree_flags /\ (s = uint32_usual /\ n = 4%nat \/ s = uint64_usual /\ n = 8%nat \/ s = ordinal_usual) ->
  search s mp key = search_foliage (fn f) (fn f) false false mp key.
Proof.
  intros Hp Hsz [->|[Hi Hs]]; [done|]. destruct (Hsz Hi) as [Hk Hkey].
  assert (forall c, int_comparator n c -> agree c (fn f) (drop (first_key mp) keys) key) as Hag.
  { intros c Hc. eapply int_agree; [exact Hc| |exact Hk|exact Hkey]. apply int_uint; [auto|apply Hi]. }
  destruct Hs as [[-> ->]|[[-> ->]| ->]]; cbn [foliage_search]; case_decide; apply (search_foliage_agree _ _ _ _ _ mp keys);
    (done || (intros; done) || idtac); try (intros _); apply Hag;
    (apply int_align32 || apply int_align64 || apply int_unchecked32 || apply int_unchecked64 || (apply int_uint; auto)).
Qed.

Lemma dupfix_right s mp keys key : page_keys mp (negb (is_branch mp)) keys -> sized mp keys key ->
  s = custom_dupfix \/ integer_keys f tree_flags /\ (s = uint32_dupfix /\ n = 4%nat \/ s = uint64_dupfix /\ n = 8%nat \/ s = ordinal_dupfix) ->
  search s mp key = search_foliage (fn f) (fn f) false true mp key.
Proof.
  intros Hp Hsz [->|[Hi Hs]]; [done|]. destruct (Hsz Hi) as [Hk Hkey].
  assert (forall c, int_comparator n c -> agree c (fn f) (drop (first_key mp) keys) key) as Hag.
  { intros c Hc. eapply int_agree; [exact Hc| |exact Hk|exact Hkey]. apply int_uint; [auto|apply Hi]. }
  destruct Hs as [[-> ->]|[[-> ->]| ->]]; cbn [foliage_search]; apply (search_foliage_agree _ _ _ _ _ mp keys);
    try done; try (intros _); apply Hag;
    (apply int_align32 || apply int_align64 || apply int_unchecked32 || apply int_unchecked64 || (apply int_uint; auto)).
Qed.
End choice.

Lemma narrow_clc_to f tree_flags n c : integer_keys f tree_flags -> (n = 4 \/ n = 8)%nat ->
  lmin c <= Z.of_nat n <= lmax c -> narrow_clc (Z.of_nat n) c = mk_clc (Z.of_nat n) (Z.of_nat n).
Proof. intros. unfold narrow_clc. rewrite decide_True; [done|lia]. Qed.

Lemma foliage_choice_right unaligned_ok memcmp custom f validation inner tree_flags n c mp0 k0 keys0 :
  let dupfixed := bool_decide (Z.land tree_flags MDBX_DUPFIXED <> 0) && inner in
  (integer_keys f tree_flags -> (n = 4 \/ n = 8)%nat) -> page_keys mp0 dupfixed (k0 :: keys0) -> (integer_keys f tree_flags -> length k0 = n) ->
  exists s c', cursor_to_search_foliage f validation inner tree_flags (Z.of_nat n) mp0 c = Some (s, c') /\
  (integer_keys f tree_flags -> lmin c <= Z.of_nat n <= lmax c -> c' = mk_clc (Z.of_nat n) (Z.of_nat n)) /\
  forall mp keys key, page_keys mp (dupfixed && negb (is_branch mp)) keys -> sized f tree_flags n mp keys key ->
  foliage_search unaligned_ok memcmp custom f s mp key =
    search_foliage (cmp_of unaligned_ok memcmp custom f) (cmp_of unaligned_ok memcmp custom f) false dupfixed mp key.
Proof.
  intros dupfixed Hn Hp0 Hk0. unfold cursor_to_search_foliage. fold dupfixed.
  assert (is_uint f = true \/ is_uint f = false) as [Hu|Hu] by (destruct (is_uint f); auto).
  2:{ assert (~ integer_keys f tree_flags) as Hni by (intros [E _]; congruence).
    destruct dupfixed, f; try done; try (eexists _, _; split; [reflexivity|]; split; [tauto|]; intros; reflexivity).
    - destruct (decide _); (eexists _, _; split; [reflexivity|]; split; [tauto|]; intros; reflexivity).
    - destruct (decide _); [|eexists _, _; split; [reflexivity|]; split; [tauto|]; intros; reflexivity].
      destruct (page_keys_ks mp0 _ 0 k0 Hp0 eq_refl) as (node & -> & E). cbn [mbind option_bind]. rewrite E. cbn [mbind option_bind].
      eexists _, _; split; [reflexivity|]; split; [tauto|]; intros; reflexivity. }
  destruct dupfixed eqn:Ed.
  - destruct (decide (Z.land tree_flags MDBX_INTEGERKEY <> 0)) as [Hi|Hi].
    + assert (integer_keys f tree_flags) as Hik by done.
      exists (choose_ordinal f validation (Z.of_nat n) (narrow_clc (Z.of_nat n) c) uint32_dupfix uint64_dupfix ordinal_dupfix custom_dupfix), (narrow_clc (Z.of_nat n) c).
      split; [by destruct f|]. split; [intros _; by apply (narrow_clc_to f tree_flags), Hn|].
      intros mp keys key Hp Hs. apply (dupfix_right _ _ _ f tree_flags n Hn _ mp keys); [done|done|].
      destruct (choose_ordinal_cases f validation n (narrow_clc (Z.of_nat n) c) uint32_dupfix uint64_dupfix ordinal_dupfix custom_dupfix _ eq_refl); tauto.
    + exists custom_dupfix, c. split; [by destruct f|]. split; [intros [_ ?]; tauto|done].
  - destruct (decide (Z.land tree_flags MDBX_INTEGERKEY <> 0)) as [Hi|Hi].
    + assert (integer_keys f tree_flags) as Hik by done. destruct (page_keys_ks mp0 _ 0 k0 Hp0 eq_refl) as (node & E1 & E2). rewrite Hk0 in E2 by done.
      exists (choose_ordinal f validation (Z.of_nat n) (narrow_clc (Z.of_nat n) c) uint32_usual uint64_usual ordinal_usual custom_usual), (narrow_clc (Z.of_nat n) c).
      split; [rewrite E1; cbn [mbind option_bind]; rewrite E2; by destruct f|]. split; [intros _; by apply (narrow_clc_to f tree_flags), Hn|].
      intros mp keys key Hp Hs. apply (usual_right _ _ _ f tree_flags n Hn _ mp keys); [done|done|].
      destruct (choose_ordinal_cases f validation n (narrow_clc (Z.of_nat n) c) uint32_usual uint64_usual ordinal_usual custom_usual _ eq_refl); tauto.
    + exists custom_usual, c. split; [by destruct f|]. split; [intros [_ ?]; tauto|done].
Qed.

Lemma branch_choice_right unaligned_ok memcmp custom f validation tree_flags n c mp0 k0 k1 keys0 :
  (integer_keys f tree_flags -> (n = 4 \/ n = 8)%nat) -> is_branch mp0 = true -> page_keys mp0 false (k0 :: k1 :: keys0) ->
  (integer_keys f tree_flags -> length k1 = n) ->
  exists s c', cursor_to_search_branch f validation tree_flags mp0 c = Some (s, c') /\
  (integer_keys f tree_flags -> lmin c <= Z.of_nat n <= lmax c -> c' = mk_clc (Z.of_nat n) (Z.of_nat n)) /\
  forall mp keys key, is_branch mp = true -> page_keys mp false keys -> sized f tree_flags n mp keys key ->
  branch_search_of unaligned_ok memcmp custom f s mp key = search_branch (cmp_of unaligned_ok memcmp custom f) mp key.
Proof.
  intros Hn Hb0 Hp0 Hk1. unfold cursor_to_search_branch. rewrite branch_lo, Hb0.
  destruct (page_keys_numkeys _ _ _ Hp0) as (_ & _ & ->). change (Z.to_nat 1) with 1%nat.
  destruct (page_keys_ks mp0 _ 1 k1 Hp0 eq_refl) as (node & E1 & E2). rewrite E1. cbn [mbind option_bind]. rewrite E2. cbn [mbind option_bind].
  destruct (decide (Z.land tree_flags MDBX_INTEGERKEY <> 0)) as [Hi|Hi].
  2:{ destruct f; (eexists _, _; split; [reflexivity|]; split; [intros [_ ?]; tauto|]; intros; reflexivity). }
  assert (is_uint f = true \/ is_uint f = false) as [Hu|Hu] by (destruct (is_uint f); auto).
  2:{ destruct f; try done; (eexists _, _; split; [reflexivity|]; split; [intros [? _]; done|]; intros; reflexivity). }
  assert (integer_keys f tree_flags) as Hik by done. rewrite Hk1 by done.
  exists (choose_ordinal f validation (Z.of_nat n) (narrow_clc (Z.of_nat n) c) br_uint32 br_uint64 br_ordinal br_custom), (narrow_clc (Z.of_nat n) c).
  split; [by destruct f|]. split; [intros _; by apply (narrow_clc_to f tree_flags), Hn|].
  intros mp keys key Hb Hp Hs. destruct (Hs Hik) as [Hk Hkey]. unfold first_key in Hk. rewrite Hb in Hk.
  assert (forall c, int_comparator n c -> agree c (cmp_of unaligned_ok memcmp custom f) (drop 1 keys) key) as Hag.
  { intros c' Hc. eapply int_agree; [exact Hc| |exact Hk|exact Hkey]. by apply int_uint; auto. }
  unfold branch_search_of.
  destruct (choose_ordinal_cases f validation n (narrow_clc (Z.of_nat n) c) br_uint32 br_uint64 br_ordinal br_custom _ eq_refl) as [[_ [[-> ->]|[[-> ->]| ->]]]| ->];
    [apply (search_branch_agree _ _ mp keys _ Hp), Hag, int_align32|apply (search_branch_agree _ _ mp keys _ Hp), Hag, int_align64|
    apply (search_branch_agree _ _ mp keys _ Hp), Hag; apply int_uint; auto|done].
Qed.

(** The search which the first use of a table chooses, by its comparator, the
    flags and the size of the keys in the page at hand, gives for every page of
    the table what the search with the comparator of the table gives, so the
    choice may stay.  For keys which are integers it also narrows the limits of
    the length to their size. *)
Theorem search_choice_correct unaligned_ok memcmp custom f validation inner tree_flags n c mp0 k0 k1 keys0 :
  let dupfixed := bool_decide (Z.land tree_flags MDBX_DUPFIXED <> 0) && inner in
  let fn := cmp_of unaligned_ok memcmp custom f in
  (integer_keys f tree_flags -> (n = 4 \/ n = 8)%nat) ->
  (page_keys mp0 dupfixed (k0 :: keys0) -> (integer_keys f tree_flags -> length k0 = n) ->
    exists s c', cursor_to_search_foliage f validation inner tree_flags (Z.of_nat n) mp0 c = Some (s, c') /\
    (integer_keys f tree_flags -> lmin c <= Z.of_nat n <= lmax c -> c' = mk_clc (Z.of_nat n) (Z.of_nat n)) /\
    forall mp keys key, page_keys mp (dupfixed && negb (is_branch mp)) keys -> sized f tree_flags n mp keys key ->
    foliage_search unaligned_ok memcmp custom f s mp key = search_foliage fn fn false dupfixed mp key) /\
  (is_branch mp0 = true -> page_keys mp0 false (k0 :: k1 :: keys0) -> (integer_keys f tree_flags -> length k1 = n) ->
    exists s c', cursor_to_search_branch f validation tree_flags mp0 c = Some (s, c') /\
    (integer_keys f tree_flags -> lmin c <= Z.of_nat n <= lmax c -> c' = mk_clc (Z.of_nat n) (Z.of_nat n)) /\
    forall mp keys key, is_branch mp = true -> page_keys mp false keys -> sized f tree_flags n mp keys key ->
    branch_search_of unaligned_ok memcmp custom f s mp key = search_branch fn mp key).
Proof. intros dupfixed fn Hn. split; [by apply foliage_choice_right|by apply branch_choice_right]. Qed.

(** ** The order of a table *)

(** What [one_size] asks of keys, with the limit of their length. *)
Definition table_key (flags : Z) (n : nat) (a : list Z) : Prop :=
  one_size (Z.land flags MDBX_INTEGERKEY <> 0) n a /\ Z.of_nat (length a) < 2 ^ 31.

(** The function that [builtin_keycmp] gives. *)
Definition keycmp_func (flags : Z) : cmp_func :=
  if decide (Z.land flags MDBX_REVERSEKEY <> 0) then CMP_REVERSE
  else if decide (Z.land flags MDBX_INTEGERKEY <> 0) then CMP_UINT_ALIGN2 else CMP_LEXICAL.

#[export] Instance keycmp_order unaligned_ok memcmp custom flags n (Hm : memcmp_int memcmp) :
  KeyOrder (table_key flags n) (key_order flags) (cmp_of unaligned_ok memcmp custom (keycmp_func flags)).
Proof.
  split.
  - intros a b [[Ha _] Hla] [[Hb _] Hlb].
    replace (key_order flags a b) with (func_order (keycmp_func flags) a b) by (unfold key_order, keycmp_func; by repeat case_decide).
    apply func_answers; [done| |done..]. unfold keycmp_func. repeat case_decide; done.
  - intros a b [Ha _] [Hb _]. by apply (key_order_laws flags n a b b).
  - intros a b [Ha _] [Hb _]. by apply (key_order_laws flags n a b b).
  - intros a b c [Ha _] [Hb _] [Hc _]. by apply (key_order_laws flags n a b c).
Qed.

(** ** Properties *)

(** C9. In a page whose keys ascend in the order of the comparator the search
    gives the index of the first key that is not less than the wanted one, says
    whether it is that key, and gives its node (null behind the last key); the
    first key of a branch is not looked at, and a page without keys to look at
    gives index 0.  In a branch the other search gives the child whose keys may
    include the wanted one, the last whose separator is not greater. *)
Theorem searches_correct P ord cmp `{!KeyOrder P ord cmp} different dupfixed mp keys key :
  let lo := if is_branch mp then 1%nat else 0%nat in
  let dupfix := dupfixed && negb (is_branch mp) in
  page_keys mp dupfix keys -> Forall P (drop lo keys) -> P key -> sorted_keys (ord := ord) (drop lo keys) ->
  (if decide (lo < length keys)%nat
   then found_at mp dupfix (length keys) (lo + lower_bound (ord := ord) (drop lo keys) key)
       (search_foliage cmp cmp different dupfixed mp key) (bool_decide (key ∈ drop lo keys))
   else search_foliage cmp cmp different dupfixed mp key = Some (mk_sfr 0 node_null false)) /\
  (is_branch mp = true -> keys <> [] -> exists child, search_branch cmp mp key = Some (Z.of_nat child) /\ (child < length keys)%nat /\
    (forall i k, (0 < i <= child)%nat -> keys !! i = Some k -> ord k key <> Gt) /\
    (forall i k, (child < i)%nat -> keys !! i = Some k -> ord k key = Gt)).
Proof.
  intros lo dupfix Hp HP Hk Hs. split; [by apply search_foliage_spec|]. intros Hb Hne.
  unfold lo, dupfix in *. rewrite Hb, andb_false_r in *. eexists. split; [by eapply search_branch_spec|].
  destruct keys as [|k0 keys]; [done|]. cbn [drop skipn] in *. clear Hp.
  rewrite drop_0 in *. destruct (upper_bound_lookup keys key HP Hk Hs) as (H1 & H2 & H3).
  split_and!; [simpl; lia| |]; intros [|i] k Hi; try lia; simpl; [apply H2|apply H3]; lia.
Qed.

(** The branchless searches find what the search that was there before finds,
    with as many comparisons, whatever the order of the keys in the page is:
    index, node and exactness, or the child of a branch.  Only the comparator of
    a custom table must answer the mirrored result for mirrored arguments; that
    integers are compared with other alignments makes no difference. *)
Theorem old_search_equivalent unaligned_ok memcmp custom mp key f different :
  memcmp_int memcmp -> (forall a b, mirrored (custom a b) (custom b a)) -> bytes (page_body mp) ->
  Z.of_nat (length (page_body mp)) < 2 ^ 31 -> key_ok key -> (Z.land (page_flags mp) P_DUPFIX <> 0 -> is_branch mp = false) ->
  let fn := cmp_of unaligned_ok memcmp custom f in
  search_foliage fn fn different (is_dupfix_leaf mp) mp key = old_node_search unaligned_ok memcmp custom f mp key /\
  (is_branch mp = true -> (1 <= page_numkeys mp)%nat -> 0 <= page_lower mp < 2 ^ 16 -> page_lower mp <= Z.of_nat (length (page_body mp)) ->
    search_branch fn mp key = old_branch_search unaligned_ok memcmp custom f mp key) /\
  (forall fuel lo scope, 0 < scope ->
    search_cycle fuel (compare_node fn mp key) lo scope = probe_of <$> old_cycle fuel (old_compare fn mp key) lo (lo + scope - 1) /\
    search_cycle fuel (compare_dupfix fn mp key) lo scope = probe_of <$> old_cycle fuel (old_compare_dupfix fn mp key) lo (lo + scope - 1)).
Proof.
  intros Hm Hc Hb Hs Hk Hf fn. split_and!.
  - by apply search_foliage_old.
  - intros H1 H2 H3 H4. apply search_branch_old; try done.
    destruct (is_dupfix_leaf mp) eqn:E; [|done]. apply bool_decide_eq_true, Hf in E. congruence.
  - intros fuel lo scope Hsc. split; apply search_cycle_old; try done; intros i _; [by apply mirrored_node|by apply mirrored_dupfix].
Qed.

(** Searching [n] keys takes at most [log2 n + 1] comparisons, each of a key
    of the page, even if the keys are in disorder; so the loops terminate. *)
Theorem search_steps_bound compare lo n :
  0 < n -> (forall i, lo <= i < lo + n -> exists c, compare i = Some c /\ - 2 ^ 31 <= c < 2 ^ 31) ->
  exists r, search_cycle (Z.to_nat n) compare lo n = Some r /\ search_cycle (S (Z.to_nat (Z.log2 n))) compare lo n = Some r /\
  match r with
  | probe_found it => lo <= it < lo + n /\ compare it = Some 0
  | probe_end m it => it = m /\ lo <= m <= lo + n
  end.
Proof.
  intros Hn Hc. assert (forall i, lo <= i < lo + n -> exists c, compare i = Some c /\ - 2 ^ 63 <= c < 2 ^ 63) as Hc'.
  { intros i Hi. destruct (Hc i Hi) as (c & E & Hb). exists c. split; [done|lia]. }
  destruct (search_cycle_steps compare (S (Z.to_nat (Z.log2 n))) lo n) as [r Hr].
  { split; [done|]. rewrite Nat2Z.inj_succ, Z2Nat.id by apply Z.log2_nonneg. apply Z.log2_spec. lia. }
  { exact Hc'. }
  exists r. pose proof (Z.log2_lt_lin n Hn) as Hlog. pose proof (Z.log2_nonneg n).
  split; [|split; [rewrite <- (Hr 0%nat); f_equal; lia|]].
  - rewrite <- (Hr (Z.to_nat n - S (Z.to_nat (Z.log2 n)))%nat). f_equal. lia.
  - eapply search_cycle_in; [exact Hn|exact Hc'|exact (Hr 0%nat)].
Qed.

(** ** Examples *)

Definition sample_leaf : page_t := make_page P_LEAF 9 100 [mk_item 1 0 [1] [7]; mk_item 0 0 [3; 3] []; mk_item 1 0 [5] [8]].
Definition sample_branch : page_t := make_page P_BRANCH 8 100 [mk_item 4 0 [] []; mk_item 5 0 [3] []; mk_item 6 0 [5; 1] []].
Lemma sample_leaf_keys : page_keys sample_leaf false [[1]; [3; 3]; [5]].
Proof.
  apply (keys_of_nodes _ 100 [mk_item 1 0 [1] [7]; mk_item 0 0 [3; 3] []; mk_item 1 0 [5] [8]]), make_page_holds.
  - reflexivity.
  - repeat constructor; discriminate.
  - reflexivity.
  - apply Nat.leb_le. vm_compute. reflexivity.
Qed.
Lemma sample_branch_keys : page_keys sample_branch false [[]; [3]; [5; 1]].
Proof.
  apply (keys_of_nodes _ 100 [mk_item 4 0 [] []; mk_item 5 0 [3] []; mk_item 6 0 [5; 1] []]), make_page_holds.
  - reflexivity.
  - repeat constructor; discriminate.
  - reflexivity.
  - apply Nat.leb_le. vm_compute. reflexivity.
Qed.

Lemma a_memcmp_int : memcmp_int a_memcmp.
Proof. split; [exact a_memcmp_ok|]. intros a b. unfold a_memcmp. destruct (lex a b); simpl; lia. Qed.

Lemma table_key_lexical k : bytes k -> Z.of_nat (length k) < 2 ^ 31 -> table_key 0 0 k.
Proof. intros H1 H2. split; [|done]. split; [done|]. intros H. vm_compute in H. by destruct H. Qed.

Lemma searches_correct_witness : exists node,
  search_foliage (cmp_lexical a_memcmp) (cmp_lexical a_memcmp) false false sample_leaf [3; 3] = Some (mk_sfr 1 node true) /\
  exists child, search_branch (cmp_lexical a_memcmp) sample_branch [4] = Some (Z.of_nat child) /\ (child < 3)%nat.
Proof.
  assert (KeyOrder (table_key 0 0) (key_order 0) (cmp_of 8 a_memcmp null_comparator CMP_LEXICAL)) as Hord
    by exact (keycmp_order 8 a_memcmp null_comparator 0 0 a_memcmp_int).
  destruct (searches_correct (table_key 0 0) (key_order 0) (cmp_of 8 a_memcmp null_comparator CMP_LEXICAL)
    false false sample_leaf [[1]; [3; 3]; [5]] [3; 3]) as [(node & E & _) _].
  - exact sample_leaf_keys.
  - repeat constructor; try done; intros []; reflexivity.
  - apply table_key_lexical; [repeat constructor; done|reflexivity].
  - repeat constructor.
  - destruct (searches_correct (table_key 0 0) (key_order 0) (cmp_of 8 a_memcmp null_comparator CMP_LEXICAL)
      false false sample_branch [[]; [3]; [5; 1]] [4]) as [_ H].
    + exact sample_branch_keys.
    + repeat constructor; try done; intros []; reflexivity.
    + apply table_key_lexical; [repeat constructor; done|reflexivity].
    + repeat constructor.
    + destruct H as (child & Hc & Hlt & _); [reflexivity|discriminate|]. exists node. split; [exact E|]. exists child. split; [exact Hc|exact Hlt].
Defined.

Lemma old_search_equivalent_witness :
  search_foliage (cmp_lexical a_memcmp) (cmp_lexical a_memcmp) false false sample_leaf [4] =
  old_node_search 8 a_memcmp null_comparator CMP_LEXICAL sample_leaf [4].
Proof.
  destruct (old_search_equivalent 8 a_memcmp null_comparator sample_leaf [4] CMP_LEXICAL false) as [H _].
  - exact a_memcmp_int.
  - intros a b. exact I.
  - repeat (constructor; [split; [discriminate|reflexivity]|]). constructor.
  - reflexivity.
  - split; [repeat constructor; done|reflexivity].
  - intros _. reflexivity.
  - exact H.
Defined.

Lemma search_steps_bound_witness : exists r,
  search_cycle 3 (fun i => Some (if decide (i < 6) then -1 else 1)) 1 7 = Some r.
Proof.
  destruct (search_steps_bound (fun i => Some (if decide (i < 6) then -1 else 1)) 1 7) as (r & _ & H & _).
  - reflexivity.
  - intros i _. eexists. split; [reflexivity|]. case_decide; split; done.
  - exists r. exact H.
Defined.

Lemma search_choice_correct_witness : exists s,
  cursor_to_search_foliage CMP_UINT_ALIGN2 false false MDBX_INTEGERKEY 4 (make_page P_LEAF 9 100 [mk_item 0 0 [1; 2; 3; 4] []]) (mk_clc 4 8) =
  Some (s, mk_clc 4 4).
Proof.
  destruct (search_choice_correct 8 a_memcmp null_comparator CMP_UINT_ALIGN2 false false MDBX_INTEGERKEY 4 (mk_clc 4 8)
    (make_page P_LEAF 9 100 [mk_item 0 0 [1; 2; 3; 4] []]) [1; 2; 3; 4] [] []) as [H _].
  - intros _. tauto.
  - destruct H as (s & c' & E & Hc & _).
    + apply (keys_of_nodes _ 100 [mk_item 0 0 [1; 2; 3; 4] []]), make_page_holds;
        [reflexivity|repeat constructor; discriminate|reflexivity|apply Nat.leb_le; vm_compute; reflexivity].
    + intros _. reflexivity.
    + exists s. change (Some (s, mk_clc 4 4)) with (Some (s, mk_clc (Z.of_nat 4) (Z.of_nat 4))).
      rewrite <- Hc; [exact E|split; [reflexivity|discriminate]|split; discriminate].
Defined.
