(* ===== verification/Cursor.v ===== *)
(** * Cursors: the descent through the tree and the movements

    A cursor without an inner cursor, that is of a table without duplicates or of
    the duplicates of one key.  The stack has the top first; a cursor with an empty
    stack is poor.  The references that keep cached pages in memory are not part of
    the state.  [None] is an access out of a page or an exhausted fuel.

    What the operations need from elsewhere are arguments: [read] gives the pages
    as the transaction sees them, [page_touch] makes the page on top modifiable,
    [refresh] is the result of [tbl_refresh_absent2baddbi] for a stale table. *)

From S2P Require Import Prelude Meta Cmp Dpl Page Foliage.

Definition P_SPILLED : Z := 0x2000.
Definition P_ILL_BITS : Z := Z.land (Z.lnot (Z.lor P_BRANCH (Z.lor P_LEAF (Z.lor P_DUPFIX (Z.lor P_LARGE P_SPILLED))))) 0xFFFF.
Definition MDBX_PAGE_NOTFOUND : Z := -30797.
Definition MDBX_CURSOR_FULL : Z := -30787.
Definition MDBX_ENODATA : Z := 61.
Definition MDBX_TXN_BLOCKED : Z := 0x33.

Definition Z_MODIFY : Z := 1.
Definition Z_ROOTONLY : Z := 2.
Definition Z_FIRST : Z := 4.
Definition Z_LAST : Z := 8.

Definition z_inner : Z := 0x01.
Definition z_gcu_preparation : Z := 0x02.
Definition z_fresh : Z := 0x04.
Definition z_after_delete : Z := 0x08.
Definition z_disable_tree_search_fastpath : Z := 0x10.
Definition z_eof_soft : Z := 0x20.
Definition z_eof_hard : Z := 0x40.
Definition z_hollow : Z := 0x80.
Definition z_clear_mask : Z := Z.lor z_inner z_gcu_preparation.
Definition z_poor_mark : Z := Z.lor z_eof_hard (Z.lor z_hollow z_disable_tree_search_fastpath).
Definition z_branch : Z := 0x01.
Definition z_leaf : Z := 0x02.
Definition z_largepage : Z := 0x04.
Definition z_dupfix : Z := 0x20.

Record cursor := mk_cursor {
  mc_flags : Z;
  mc_stack : list (page_t * Z);   (* [pg] and [ki], the top first *)
  mc_root : Z;                    (* [tree->root] *)
  mc_txn_flags : Z
}.

Definition with_stack (mc : cursor) (st : list (page_t * Z)) : cursor := mk_cursor (mc_flags mc) st (mc_root mc) (mc_txn_flags mc).
Definition with_flags (mc : cursor) (fl : Z) : cursor := mk_cursor fl (mc_stack mc) (mc_root mc) (mc_txn_flags mc).
Definition with_root (mc : cursor) (root : Z) : cursor := mk_cursor (mc_flags mc) (mc_stack mc) root (mc_txn_flags mc).
Definition txn_error (mc : cursor) : cursor :=
  mk_cursor (mc_flags mc) (mc_stack mc) (mc_root mc) (Z.lor (mc_txn_flags mc) MDBX_TXN_ERROR).
Definition set_ki (mc : cursor) (ki : Z) : cursor :=
  match mc_stack mc with
  | (mp, _) :: st => with_stack mc ((mp, ki) :: st)
  | [] => mc
  end.

Definition is_inner (mc : cursor) : bool := bool_decide (Z.land (mc_flags mc) z_inner <> 0).
Definition is_poor (mc : cursor) : bool := bool_decide (mc_stack mc = []).
Definition is_pointed (mc : cursor) : bool := negb (is_poor mc).
Definition is_hollow (mc : cursor) : bool := bool_decide (Z.land (mc_flags mc) z_hollow <> 0).
Definition is_eof (mc : cursor) : bool := bool_decide (z_eof_soft <= mc_flags mc).
Definition is_filled (mc : cursor) : bool := bool_decide (z_eof_hard > mc_flags mc).

Definition be_poor (mc : cursor) : cursor :=
  if is_inner mc then mk_cursor (Z.lor z_inner z_poor_mark) [] 0 (mc_txn_flags mc)
  else mk_cursor (Z.lor (mc_flags mc) z_poor_mark) [] (mc_root mc) (mc_txn_flags mc).
Definition be_filled (mc : cursor) : cursor := with_flags mc (Z.land (mc_flags mc) z_clear_mask).

Definition page_type (mp : page_t) : Z := u8 (page_flags mp).
Definition is_largepage (mp : page_t) : bool := bool_decide (Z.land (page_flags mp) P_LARGE <> 0).
(** [pages] is the same field as [lower] and [upper]. *)
Definition page_pages (mp : page_t) : Z := page_lower mp + 2 ^ 16 * page_upper mp.
Definition check_leaf_type (checking : Z) (mp : page_t) : bool :=
  bool_decide (Z.land (Z.lxor (page_type mp) checking) (Z.lor z_branch (Z.lor z_leaf (Z.lor z_largepage z_dupfix))) = 0).

Section cursors.
Context (txnid front_txnid first_unallocated ps : Z) (read : Z -> Z + page_t).

(** ** Getting pages *)

(** [bad_page] always gives [MDBX_CORRUPTED]. *)
Definition check_page_header (ill : Z) (page : page_t) (front : Z) : Z :=
  if decide (Z.land (page_flags page) ill <> 0) then MDBX_CORRUPTED
  else if decide (page_txnid page > front /\ (page_txnid page > front_txnid \/ front < txnid)) then MDBX_CORRUPTED
  else if decide ((Z.land ill P_LARGE <> 0 \/ is_largepage page = false) /\ Z.land ill (Z.lor P_BRANCH (Z.lor P_LEAF P_DUPFIX)) = 0) then
    if decide (page_upper page < page_lower page \/ Z.land (page_lower page) 1 <> 0 \/ PAGEHDRSZ + page_upper page > ps)
    then MDBX_CORRUPTED else MDBX_SUCCESS
  else if decide (Z.land ill P_LARGE = 0) then
    let npages := page_pages page in
    if decide (npages < 1 \/ npages >= MAX_PAGENO / 2) then MDBX_CORRUPTED
    else if decide (u32 (page_pgno page + npages) > first_unallocated) then MDBX_CORRUPTED
    else MDBX_SUCCESS
  else MDBX_SUCCESS.

(** A page for a cursor: the request is checked, the page is read, its header is
    checked.  What fails behind the checks of the request breaks the transaction. *)
Definition page_get (mc : cursor) (ill pgno front : Z) : (Z + page_t) * cursor :=
  if decide (front > front_txnid) then (inl MDBX_EINVAL, mc)
  else if decide (pgno >= first_unallocated) then (inl MDBX_PAGE_NOTFOUND, mc)
  else
    match read pgno with
    | inl err => (inl err, txn_error mc)
    | inr page =>
        let err := check_page_header ill page front in
        if decide (err = MDBX_SUCCESS) then (inr page, mc) else (inl err, txn_error mc)
    end.

Definition cursor_push (mc : cursor) (page : page_t) (ki : Z) : Z * cursor :=
  if decide (Z.of_nat (length (mc_stack mc)) - 1 >= CURSOR_STACK_SIZE - 1) then (MDBX_CURSOR_FULL, txn_error (be_poor mc))
  else (MDBX_SUCCESS, with_stack mc ((page, ki) :: mc_stack mc)).

(** The root is put at the bottom of the stack, [tree_search] drops the rest. *)
Definition cursor_stack_page_get (mc : cursor) (pgno front : Z) : Z * cursor :=
  if decide (pgno < NUM_METAS \/ pgno >= first_unallocated) then (MDBX_EINVAL, mc)
  else
    match page_get mc (Z.lor P_ILL_BITS P_LARGE) pgno front with
    | (inl err, mc) => (err, mc)
    | (inr page, mc) => (MDBX_SUCCESS, with_stack mc [(page, 0)])
    end.

Definition cursor_branch_child_get (mc : cursor) (parent_ki : Z) : option ((Z + page_t) * cursor) :=
  match mc_stack mc with
  | [] => Some (inl MDBX_EINVAL, mc)
  | (parent, _) :: _ =>
      if negb (is_branch parent) then Some (inl MDBX_EINVAL, mc)
      else if decide (parent_ki >= Z.of_nat (page_numkeys parent)) then Some (inl MDBX_EINVAL, mc)
      else
        node ← page_node parent (Z.to_nat parent_ki);
        flags ← node_flags (page_body parent) node;
        if decide (flags <> 0) then Some (inl MDBX_EINVAL, mc)
        else pgno ← node_pgno (page_body parent) node; Some (page_get mc (Z.lor P_ILL_BITS P_LARGE) pgno (page_txnid parent))
  end.

Definition cursor_branch_child_push (mc : cursor) (parent_ki child_ki : Z) : option (Z * cursor) :=
  '(child, mc) ← cursor_branch_child_get mc parent_ki;
  Some (match child with
        | inl err => (err, mc)
        | inr page => cursor_push (set_ki mc parent_ki) page child_ki
        end).

Definition cursor_branch_child_edge_push (mc : cursor) (parent_ki : Z) (last_child_ki : bool) : option (Z * cursor) :=
  '(child, mc) ← cursor_branch_child_get mc parent_ki;
  Some (match child with
        | inl err => (err, mc)
        | inr page =>
            let mc := set_ki mc parent_ki in
            let nkeys := Z.of_nat (page_numkeys page) in
            if last_child_ki && bool_decide (nkeys = 0) then (MDBX_CORRUPTED, mc)
            else cursor_push mc page (if last_child_ki then u16 (nkeys - 1) else 0)
        end).
(** ** The descent *)

(** What a table is for the cursor: its checks, the comparator of keys, whether
    the search is one for items of fixed size, the front of its root. *)
Context (checking : Z) (kcmp : comparator) (dupfixed : bool) (root_txnid : Z) (refresh : option (Z * Z)).
Context (page_touch : cursor -> option (Z * cursor)).

(** [Z_MODIFY] in the descents; a failure goes to their bailout. *)
Definition touch_if (flags : Z) (mc : cursor) : option (Z * cursor) :=
  if decide (Z.land flags Z_MODIFY <> 0) then page_touch mc else Some (MDBX_SUCCESS, mc).

(** The loop of [tree_deepen_edge], [fuel] levels. *)
Fixpoint deepen_loop (fuel : nat) (mc : cursor) (flags : Z) : option (Z * cursor) :=
  match mc_stack mc with
  | [] => None
  | (mp, ki) :: _ =>
      if is_branch mp then
        match fuel with
        | O => None
        | S fuel =>
            '(err, mc) ← cursor_branch_child_edge_push mc ki (bool_decide (Z.land flags Z_FIRST = 0));
            if decide (err <> MDBX_SUCCESS) then Some (err, be_poor mc)
            else
              '(err, mc) ← touch_if flags mc;
              if decide (err <> MDBX_SUCCESS) then Some (err, be_poor mc) else deepen_loop fuel mc flags
        end
      else if negb (check_leaf_type checking mp) then Some (MDBX_CORRUPTED, be_poor mc)
      else Some (MDBX_SUCCESS, mc)
  end.

(** The stack is full behind [CURSOR_STACK_SIZE] levels. *)
Definition tree_deepen_edge (mc : cursor) (flags : Z) : option (Z * cursor) := deepen_loop (Z.to_nat CURSOR_STACK_SIZE) mc flags.

Definition tree_deepen_lowest (mc : cursor) : option (Z * cursor) :=
  '(err, mc) ← cursor_branch_child_push mc 0 0;
  if decide (err <> MDBX_SUCCESS) then Some (err, mc) else tree_deepen_edge mc Z_FIRST.

(** The loop of [tree_search]. *)
Fixpoint search_loop (fuel : nat) (mc : cursor) (key : list Z) (flags : Z) : option (Z * cursor) :=
  match mc_stack mc with
  | [] => None
  | (mp, _) :: _ =>
      if is_branch mp then
        match fuel with
        | O => None
        | S fuel =>
            ki ← search_branch kcmp mp key;
            '(err, mc) ← cursor_branch_child_push mc (u16 ki) 0;
            if decide (err <> MDBX_SUCCESS) then Some (err, be_poor mc)
            else
              '(err, mc) ← touch_if flags mc;
              if decide (err <> MDBX_SUCCESS) then Some (err, be_poor mc) else search_loop fuel mc key flags
        end
      else if negb (check_leaf_type checking mp) then Some (MDBX_CORRUPTED, be_poor mc)
      else Some (MDBX_SUCCESS, mc)
  end.

(** The root is on the stack, alone, when this goes on. *)
Definition search_from_root (mc : cursor) (key : list Z) (flags : Z) : option (Z * cursor) :=
  match mc_stack mc with
  | [(mp, _)] =>
      let mc := set_ki mc (if decide (Z.land flags Z_LAST <> 0) then u16 (Z.of_nat (page_numkeys mp) - 1) else 0) in
      '(err, mc) ← touch_if flags mc;
      if decide (err <> MDBX_SUCCESS) then Some (err, be_poor mc)
      else if decide (Z.land flags Z_ROOTONLY <> 0) then Some (MDBX_SUCCESS, mc)
      else if decide (Z.land flags (Z.lor Z_FIRST Z_LAST) <> 0) then tree_deepen_edge mc flags
      else search_loop (Z.to_nat CURSOR_STACK_SIZE) mc key flags
  | _ => None
  end.

Definition tree_search (mc : cursor) (key : list Z) (flags : Z) : option (Z * cursor) :=
  if decide (Z.land (mc_txn_flags mc) MDBX_TXN_BLOCKED <> 0) then Some (MDBX_BAD_TXN, be_poor mc)
  else
    let '(err, mc) := match refresh with Some (err, root) => (err, with_root mc root) | None => (MDBX_SUCCESS, mc) end in
    if decide (err <> MDBX_SUCCESS) then Some (err, be_poor mc)
    else if decide (mc_root mc = P_INVALID) then Some (MDBX_NOTFOUND, mc)
    else
      match last (mc_stack mc) with
      | Some (root, ki) =>
          if decide (page_pgno root = mc_root mc) then search_from_root (with_stack mc [(root, ki)]) key flags
          else
            let '(err, mc) := cursor_stack_page_get mc (mc_root mc) root_txnid in
            if decide (err <> MDBX_SUCCESS) then Some (err, be_poor mc) else search_from_root mc key flags
      | None =>
          let '(err, mc) := cursor_stack_page_get mc (mc_root mc) root_txnid in
          if decide (err <> MDBX_SUCCESS) then Some (err, be_poor mc) else search_from_root mc key flags
      end.

(** ** Siblings *)

(** The end of [sibling]: down again from the parent on top. *)
Definition sibling_descend (right_ : bool) (mc : cursor) : option (Z * cursor) :=
  match mc_stack mc with
  | (_, ki) :: _ =>
      '(err, mc) ← cursor_branch_child_edge_push mc ki (negb right_);
      Some (if decide (err = MDBX_SUCCESS) then (err, mc) else (err, be_poor mc))
  | [] => None
  end.

(** What [cursor_sibling_left] and [cursor_sibling_right] do behind [sibling]. *)
Definition sibling_end (right_ : bool) (err : Z) (mc : cursor) : option (Z * cursor) :=
  if decide (err <> MDBX_NOTFOUND) then Some (err, mc)
  else
    match mc_stack mc with
    | (mp, _) :: _ =>
        Some (MDBX_NOTFOUND,
          if right_ then with_flags (set_ki mc (u16 (Z.of_nat (page_numkeys mp) - 1))) (Z.lor z_eof_soft (Z.lor z_eof_hard (Z.land (mc_flags mc) z_clear_mask)))
          else set_ki mc 0)
    | [] => None
    end.

(** The parent has no child further in the direction. *)
Definition at_side (right_ : bool) (parent : page_t) (ki : Z) : bool :=
  if right_ then bool_decide (ki + 1 >= Z.of_nat (page_numkeys parent)) else bool_decide (ki = 0).

(** [sibling] with the end of its callers; [stack] is the stack of the cursor. *)
Fixpoint cursor_sibling (right_ : bool) (stack : list (page_t * Z)) (mc : cursor) : option (Z * cursor) :=
  '(err, mc) ←
    match stack with
    | [] | [_] => Some (MDBX_NOTFOUND, with_stack mc stack)
    | popped :: ((parent, ki) :: rest) as st =>
        if at_side right_ parent ki then
          '(err, mc) ← cursor_sibling right_ st mc;
          if decide (err = MDBX_SUCCESS) then sibling_descend right_ mc
          else if decide (err = MDBX_NOTFOUND) then Some (err, with_stack mc (popped :: mc_stack mc))
          else Some (err, be_poor mc)
        else sibling_descend right_ (with_stack mc ((parent, if right_ then u16 (ki + 1) else ki - 1) :: rest))
    end;
  sibling_end right_ err mc.

Definition cursor_sibling_left (mc : cursor) : option (Z * cursor) := cursor_sibling false (mc_stack mc) mc.
Definition cursor_sibling_right (mc : cursor) : option (Z * cursor) := cursor_sibling true (mc_stack mc) mc.
End cursors.
