(* ===== verification/CursorTree.v ===== *)
(** * The tree behind a cursor

    The pages that a root leads to, as a tree with the entries of its leaves, and the
    stacks which lead to its leaves. *)

From S2P Require Import Prelude Meta Cmp CmpProps Dpl Page PageFacts PageOps Foliage FoliageFacts FoliageProps FoliageDispatch Cursor.

(** What a leaf has: keys with their values, which are empty in pages of fixed
    size items. *)
Abbreviation entry_t := (list Z * list Z)%type.
Inductive leaf_entries (p : page_t) : bool -> list entry_t -> Prop :=
| entries_of_nodes size items :
    page_holds size p items -> is_leaf p = true -> Forall (fun it => it_flags it = 0) items ->
    leaf_entries p false ((fun it => (it_key it, it_data it)) <$> items)
| entries_of_dupfix size k keys : dupfix_holds size k p keys -> leaf_entries p true ((fun key => (key, [])) <$> keys).

Lemma leaf_entries_keys p dupfix es : leaf_entries p dupfix es -> page_keys p dupfix es.*1.
Proof.
  intros [size items Hp _ _|size k keys Hp]; rewrite <- list_fmap_compose; simpl; [by eapply keys_of_nodes|].
  replace (((fst ∘ (fun key : list Z => (key, []))) : list Z -> list Z) <$> keys) with keys by (symmetry; apply list_fmap_id). by eapply keys_of_dupfix.
Qed.

(** A leaf with its entries, a branch with its separators and children. *)
#[local] Unset Elimination Schemes.
Inductive tree := Leaf (p : page_t) (entries : list entry_t) | Branch (p : page_t) (seps : list (list Z)) (children : list tree).

#[local] Set Elimination Schemes.

Definition tree_page (t : tree) : page_t := match t with Leaf p _ | Branch p _ _ => p end.
Definition width (t : tree) : nat := match t with Leaf _ entries => length entries | Branch _ _ cs => length cs end.

(** The entries of all leaves in their order. *)
Fixpoint flat (t : tree) : list entry_t :=
  match t with
  | Leaf _ entries => entries
  | Branch _ _ cs => concat (map flat cs)
  end.

Abbreviation flats cs := (concat (map flat cs)).

(** The stack [st] leads from [t] down to [c]; the entries [A] are before those of
    [c] and [C] behind them. *)
Inductive reach (t : tree) : list (page_t * Z) -> tree -> list entry_t -> list entry_t -> Prop :=
| reach_root : reach t [] t [] []
| reach_child st p seps cs1 c cs2 A C :
    reach t st (Branch p seps (cs1 ++ c :: cs2)) A C ->
    reach t ((p, Z.of_nat (length cs1)) :: st) c (A ++ flats cs1) (flats cs2 ++ C).

Lemma reach_flat t st c A C : reach t st c A C -> flat t = A ++ flat c ++ C.
Proof.
  induction 1 as [|st p seps cs1 c cs2 A C H IH]; [by rewrite app_nil_r|]. rewrite IH. simpl. rewrite map_app, concat_app. simpl.
  by rewrite <- !app_assoc.
Qed.

Section well_formed.
Context (txnid front_txnid first_unallocated ps : Z) (read : Z -> Z + page_t) (checking : Z) (dupfixed : bool).

Abbreviation ILL := (Z.lor P_ILL_BITS P_LARGE).

(** A page can be read through a parent with [front]. *)
Definition readable (front pgno : Z) (page : page_t) : Prop :=
  front <= front_txnid /\ pgno < first_unallocated /\ read pgno = inr page /\
  check_page_header txnid front_txnid first_unallocated ps ILL page front = MDBX_SUCCESS.

(** A tree of height [h] whose pages can be read. *)
Fixpoint wf (h : nat) (t : tree) : Prop :=
  match h, t with
  | O, Leaf p entries => is_branch p = false /\ check_leaf_type checking p = true /\ leaf_entries p dupfixed entries /\ entries <> []
  | S h, Branch p seps cs =>
      is_branch p = true /\ exists size items, page_holds size p items /\ seps = it_key <$> items /\ length items = length cs /\ cs <> [] /\
      forall i it c, items !! i = Some it -> cs !! i = Some c ->
      it_flags it = 0 /\ readable (page_txnid p) (it_word it) (tree_page c) /\ wf h c
  | _, _ => False
  end.

Lemma wf_width h t : wf h t -> page_numkeys (tree_page t) = width t /\ (1 <= width t)%nat /\ Z.of_nat (width t) < 2 ^ 15.
Proof.
  destruct h as [|h], t as [p keys|p seps cs]; simpl; try done.
  - intros (_ & _ & Hk & Hne). destruct (page_keys_numkeys _ _ _ (leaf_entries_keys _ _ _ Hk)) as (H1 & H2 & _).
    rewrite length_fmap in *. split; [done|]. split; [|done]. destruct keys; [done|simpl; lia].
  - intros (_ & size & items & Hp & _ & Hl & Hne & _). destruct (page_keys_numkeys p false (it_key <$> items)) as (H1 & H2 & _); [by eapply keys_of_nodes|].
    rewrite length_fmap, Hl in *. split; [done|]. split; [|done]. destruct cs; [done|simpl; lia].
Qed.

Lemma wf_child h p seps cs1 c cs2 : wf (S h) (Branch p seps (cs1 ++ c :: cs2)) -> wf h c.
Proof.
  intros (_ & size & items & _ & _ & Hl & _ & Hc).
  destruct (lookup_lt_is_Some_2 items (length cs1)) as [it Hit]; [rewrite Hl, length_app; simpl; lia|].
  eapply Hc; [exact Hit|]. by apply list_lookup_middle.
Qed.

Lemma wf_children h p seps cs : wf (S h) (Branch p seps cs) -> Forall (wf h) cs.
Proof.
  intros H. apply Forall_forall. intros c Hc. apply list_elem_of_split in Hc as (l1 & l2 & ->). by eapply wf_child.
Qed.

Lemma wf_flat h : forall t, wf h t -> flat t <> [].
Proof.
  induction h as [|h IH]; intros [p keys|p seps cs] H; try (simpl in H; tauto).
  pose proof (wf_children _ _ _ _ H) as Hcs. destruct H as (_ & size & items & _ & _ & _ & Hne & _).
  destruct cs as [|c cs]; [done|]. apply Forall_cons in Hcs as [Hc _]. simpl.
  intros E. apply app_eq_nil in E as [E _]. by apply (IH c).
Qed.

Lemma wf_flats h cs : Forall (wf h) cs -> flats cs = [] -> cs = [].
Proof.
  intros Hcs E. destruct cs as [|c cs]; [done|]. apply Forall_cons in Hcs as [Hc _]. simpl in E.
  apply app_eq_nil in E as [E _]. by apply (wf_flat h) in E.
Qed.

Lemma reach_wf t st c A C h : reach t st c A C -> wf h t -> exists h', wf h' c /\ (h' + length st = h)%nat.
Proof.
  induction 1 as [|st p seps cs1 c cs2 A C H IH]; intros Ht; [exists h; simpl; split; [done|lia]|].
  destruct (IH Ht) as (h' & Hw & Hl). destruct h' as [|h']; [done|]. exists h'. split; [by eapply wf_child|simpl; lia].
Qed.

(** ** Getting a child *)

Lemma page_get_readable mc pgno front page :
  readable front pgno page -> page_get txnid front_txnid first_unallocated ps read mc ILL pgno front = (inr page, mc).
Proof.
  intros (H1 & H2 & H3 & H4). unfold page_get. rewrite decide_False, decide_False by lia. rewrite H3, H4. by rewrite decide_True.
Qed.

Abbreviation child_get := (cursor_branch_child_get txnid front_txnid first_unallocated ps read).
Abbreviation child_push := (cursor_branch_child_push txnid front_txnid first_unallocated ps read).
Abbreviation edge_push := (cursor_branch_child_edge_push txnid front_txnid first_unallocated ps read).

Lemma child_get_spec h p seps cs1 c cs2 mc k st :
  wf (S h) (Branch p seps (cs1 ++ c :: cs2)) -> mc_stack mc = (p, k) :: st ->
  child_get mc (Z.of_nat (length cs1)) = Some (inr (tree_page c), mc).
Proof.
  intros Hw Hst. pose proof (wf_width (S h) _ Hw) as (Hn & _ & _). simpl in Hn.
  destruct Hw as (Hb & size & items & Hp & _ & Hl & _ & Hc). unfold cursor_branch_child_get. rewrite Hst, Hb. cbn [negb].
  rewrite Hn, decide_False by (rewrite length_app; simpl; lia). rewrite Nat2Z.id.
  destruct (lookup_lt_is_Some_2 items (length cs1)) as [it Hit]; [rewrite Hl, length_app; simpl; lia|].
  destruct (Hc _ it c Hit) as (Hfl & Hr & _); [by apply list_lookup_middle|].
  destruct (page_locate _ _ _ Hp _ it Hit) as (D & e & B & Hbody & (pad & -> & _) & _ & Hnode).
  pose proof (proj1 (Forall_lookup _ _) (ph_items _ _ _ Hp) _ it Hit) as Hok.
  rewrite Hnode. cbn [mbind option_bind]. rewrite Hbody, read_flags. cbn [mbind option_bind].
  rewrite decide_False by lia. destruct (read_word _ it Hok D B pad) as [-> _]. cbn [mbind option_bind]. by rewrite (page_get_readable mc _ _ _ Hr).
Qed.

Lemma child_push_spec h p seps cs1 c cs2 mc k st :
  wf (S h) (Branch p seps (cs1 ++ c :: cs2)) -> mc_stack mc = (p, k) :: st -> (length st < 31)%nat ->
  child_push mc (Z.of_nat (length cs1)) 0 =
  Some (MDBX_SUCCESS, with_stack mc ((tree_page c, 0) :: (p, Z.of_nat (length cs1)) :: st)).
Proof.
  intros Hw Hst Hlen. unfold cursor_branch_child_push. rewrite (child_get_spec _ _ _ _ _ _ _ _ _ Hw Hst). cbn [mbind option_bind].
  unfold set_ki. rewrite Hst. unfold cursor_push. change CURSOR_STACK_SIZE with 32. simpl. rewrite decide_False by lia. done.
Qed.

(** The index that a descent along an edge gives. *)
Definition edge_ki (last_ : bool) (t : tree) : Z := if last_ then Z.of_nat (width t) - 1 else 0.

Lemma edge_push_spec h p seps cs1 c cs2 mc k st last_ :
  wf (S h) (Branch p seps (cs1 ++ c :: cs2)) -> mc_stack mc = (p, k) :: st -> (length st < 31)%nat ->
  edge_push mc (Z.of_nat (length cs1)) last_ =
  Some (MDBX_SUCCESS, with_stack mc ((tree_page c, edge_ki last_ c) :: (p, Z.of_nat (length cs1)) :: st)).
Proof.
  intros Hw Hst Hlen. unfold cursor_branch_child_edge_push. rewrite (child_get_spec _ _ _ _ _ _ _ _ _ Hw Hst). cbn [mbind option_bind].
  destruct (wf_width h c) as (Hn & H1 & H2); [by eapply wf_child|]. rewrite Hn.
  rewrite (bool_decide_false (Z.of_nat (width c) = 0)) by lia. rewrite andb_false_r. unfold set_ki. rewrite Hst.
  unfold cursor_push. change CURSOR_STACK_SIZE with 32. simpl. rewrite decide_False by lia. unfold edge_ki.
  destruct last_; [|done]. unfold u16. rewrite Z.mod_small by lia. done.
Qed.

(** ** Descents *)

Context (page_touch : cursor -> option (Z * cursor)).
Abbreviation deepen := (deepen_loop txnid front_txnid first_unallocated ps read checking page_touch).

Lemma width_split (last_ : bool) (cs : list tree) : cs <> [] -> exists cs1 c cs2, cs = cs1 ++ c :: cs2 /\
  (if last_ then Z.of_nat (length cs) - 1 else 0) = Z.of_nat (length cs1) /\ if last_ then cs2 = [] else cs1 = [].
Proof.
  intros Hne. destruct last_.
  - destruct cs as [|c cs _] using rev_ind; [done|]. exists cs, c, []. rewrite length_app. simpl. split; [done|]. split; [lia|done].
  - destruct cs as [|c cs]; [done|]. by exists [], c, cs.
Qed.

Lemma deepen_spec t last_ flags :
  bool_decide (Z.land flags Z_FIRST = 0) = last_ -> Z.land flags Z_MODIFY = 0 ->
  forall h c fuel mc st A C, wf h c -> (h <= fuel)%nat -> (h + length st <= 31)%nat -> reach t st c A C ->
  mc_stack mc = (tree_page c, edge_ki last_ c) :: st ->
  exists st' p keys A' C', deepen fuel mc flags = Some (MDBX_SUCCESS, with_stack mc ((p, edge_ki last_ (Leaf p keys)) :: st')) /\
  reach t st' (Leaf p keys) A' C' /\ wf 0 (Leaf p keys) /\ if last_ then C' = C else A' = A.
Proof.
  intros Hlast Hmod. induction h as [|h IH]; intros c fuel mc st A C Hw Hf Hlen Hr Hst.
  - destruct c as [p keys|]; [|done]. exists st, p, keys, A, C. destruct Hw as (Hb & Ht & Hk & Hne).
    split; [|split; [done|split; [done|by destruct last_]]].
    destruct fuel; cbn [deepen_loop]; rewrite Hst; simpl; rewrite Hb, Ht; simpl; f_equal; f_equal; destruct mc; simpl in *; by rewrite Hst.
  - destruct c as [|p seps cs]; [done|]. destruct fuel as [|fuel]; [lia|].
    assert (cs <> []) as Hne by (by destruct Hw as (_ & ? & ? & _ & _ & _ & ? & _)).
    destruct (width_split last_ cs Hne) as (cs1 & c & cs2 & -> & Hki & Hcs). cbn [deepen_loop]. rewrite Hst. cbn [tree_page].
    destruct Hw as [Hb Hw']. rewrite Hb. unfold edge_ki at 1. cbn [width]. rewrite Hlast, Hki.
    rewrite (edge_push_spec h p seps cs1 c cs2 mc _ st last_ (conj Hb Hw') Hst) by lia. cbn [mbind option_bind].
    rewrite decide_False by (intros H; by apply H). unfold touch_if. rewrite decide_False by lia. cbn [mbind option_bind].
    rewrite decide_False by (intros H; by apply H).
    destruct (IH c fuel (with_stack mc ((tree_page c, edge_ki last_ c) :: (p, Z.of_nat (length cs1)) :: st)) ((p, Z.of_nat (length cs1)) :: st) (A ++ flats cs1) (flats cs2 ++ C))
      as (st' & q & keys & A' & C' & E & Hr' & Hw2 & HA).
    + by apply (wf_child h p seps cs1 c cs2).
    + lia.
    + simpl. lia.
    + by eapply reach_child.
    + done.
    + exists st', q, keys, A', C'. rewrite E. split; [done|]. split; [done|]. split; [done|].
      destruct last_; subst; simpl; [done|by rewrite app_nil_r].
Qed.

(** ** Siblings *)

Definition eof_flags (fl : Z) : Z := Z.lor z_eof_soft (Z.lor z_eof_hard (Z.land fl z_clear_mask)).

Lemma eof_flags_idem fl : eof_flags (eof_flags fl) = eof_flags fl.
Proof.
  unfold eof_flags. rewrite !Z.land_lor_distr_l, <- Z.land_assoc, Z.land_diag. done.
Qed.

Abbreviation sibling := (cursor_sibling txnid front_txnid first_unallocated ps read).

(** The cursor behind a movement which found no sibling. *)
Definition at_edge (right_ : bool) (mc : cursor) (st : list (page_t * Z)) : cursor :=
  with_flags (with_stack mc st) (if right_ then eof_flags (mc_flags mc) else mc_flags mc).

Lemma edge_ki_u16 h c : wf h c -> u16 (Z.of_nat (page_numkeys (tree_page c)) - 1) = edge_ki true c.
Proof. intros Hw. destruct (wf_width h c Hw) as (-> & H1 & H2). unfold u16, edge_ki. apply Z.mod_small. lia. Qed.

Lemma sibling_descend_spec h right_ p seps cs1 c cs2 mc st :
  wf (S h) (Branch p seps (cs1 ++ c :: cs2)) -> mc_stack mc = (p, Z.of_nat (length cs1)) :: st -> (length st < 31)%nat ->
  sibling_descend txnid front_txnid first_unallocated ps read right_ mc =
  Some (MDBX_SUCCESS, with_stack mc ((tree_page c, edge_ki (negb right_) c) :: (p, Z.of_nat (length cs1)) :: st)).
Proof.
  intros Hw Hst Hl. unfold sibling_descend. rewrite Hst. rewrite (edge_push_spec h _ _ _ _ _ _ _ _ _ Hw Hst Hl). cbn [mbind option_bind].
  by rewrite decide_True.
Qed.

Lemma sibling_end_edge h right_ c mc st k : wf h c -> mc_stack mc = (tree_page c, k) :: st ->
  sibling_end right_ MDBX_NOTFOUND mc = Some (MDBX_NOTFOUND, at_edge right_ mc ((tree_page c, edge_ki right_ c) :: st)).
Proof.
  intros Hw Hst. unfold sibling_end. rewrite decide_False by (intros H; by apply H). rewrite Hst. unfold set_ki. rewrite Hst.
  rewrite (edge_ki_u16 h) by done. unfold at_edge, with_flags, with_stack. by destruct right_.
Qed.

(** The neighbour of the subtree [c] in the direction. *)
Definition no_neighbour (right_ : bool) (A C : list entry_t) : Prop := if right_ then C = [] else A = [].

Lemma sibling_unfold right_ popped parent ki rest mc :
  sibling right_ (popped :: (parent, ki) :: rest) mc =
  ('(err, mc) ←
    (if at_side right_ parent ki then
       '(err, mc) ← sibling right_ ((parent, ki) :: rest) mc;
       if decide (err = MDBX_SUCCESS) then sibling_descend txnid front_txnid first_unallocated ps read right_ mc
       else if decide (err = MDBX_NOTFOUND) then Some (err, with_stack mc (popped :: mc_stack mc))
       else Some (err, be_poor mc)
     else sibling_descend txnid front_txnid first_unallocated ps read right_
       (with_stack mc ((parent, if right_ then u16 (ki + 1) else ki - 1) :: rest)));
    sibling_end right_ err mc).
Proof. done. Qed.

Lemma at_side_children right_ h p seps cs1 c cs2 : wf (S h) (Branch p seps (cs1 ++ c :: cs2)) ->
  at_side right_ p (Z.of_nat (length cs1)) = if right_ then (if cs2 is [] then true else false) else (if cs1 is [] then true else false).
Proof.
  intros Hw. destruct (wf_width (S h) _ Hw) as (Hn & _ & _). cbn [tree_page width] in Hn. rewrite length_app in Hn. simpl in Hn.
  unfold at_side. rewrite Hn. destruct right_.
  - destruct cs2; [apply bool_decide_true|apply bool_decide_false]; simpl; lia.
  - destruct cs1; [done|apply bool_decide_false; simpl; lia].
Qed.

Lemma at_edge_idem right_ mc st st' : with_stack (at_edge right_ mc st) st' = at_edge right_ mc st'.
Proof. by destruct mc. Qed.

Lemma at_edge_twice right_ mc st st' : at_edge right_ (at_edge right_ mc st) st' = at_edge right_ mc st'.
Proof. unfold at_edge, with_flags, with_stack. destruct right_; simpl; [by rewrite eof_flags_idem|done]. Qed.

Lemma sibling_end_success right_ mc : sibling_end right_ MDBX_SUCCESS mc = Some (MDBX_SUCCESS, mc).
Proof. done. Qed.

Lemma sibling_spec t ht right_ : wf ht t -> (ht <= 31)%nat -> forall st c A C, reach t st c A C ->
  forall h k mc, (h + length st = ht)%nat ->
  (no_neighbour right_ A C -> sibling right_ ((tree_page c, k) :: st) mc =
    Some (MDBX_NOTFOUND, at_edge right_ mc ((tree_page c, edge_ki right_ c) :: st))) /\
  (~ no_neighbour right_ A C -> exists st' c' A' C', sibling right_ ((tree_page c, k) :: st) mc =
    Some (MDBX_SUCCESS, with_stack mc ((tree_page c', edge_ki (negb right_) c') :: st')) /\
    reach t st' c' A' C' /\ length st' = length st /\ if right_ then A' = A ++ flat c else C' = flat c ++ C).
Proof.
  intros Ht Hht st c A C Hr. induction Hr as [|st p seps cs1 c cs2 A C Hr IH]; intros h k mc Hh.
  { split; [|intros H; exfalso; apply H; by destruct right_]. intros _. simpl in Hh. rewrite Nat.add_0_r in Hh. subst h.
    cbn [cursor_sibling mbind option_bind]. by rewrite (sibling_end_edge ht _ t _ [] k). }
  simpl in Hh. assert (wf (S h) (Branch p seps (cs1 ++ c :: cs2))) as HwP.
  { destruct (reach_wf _ _ _ _ _ _ Hr Ht) as (h' & Hw & Hl). by replace (S h) with h' by lia. }
  pose proof (wf_children _ _ _ _ HwP) as Hcs. apply Forall_app in Hcs as [Hcs1 Hcs2]. apply Forall_cons in Hcs2 as [Hwc Hcs2].
  destruct (wf_width (S h) _ HwP) as (Hn & _ & Hmax). cbn [tree_page width] in Hn, Hmax. rewrite length_app in Hn, Hmax. simpl in Hn, Hmax.
  destruct (IH (S h) (Z.of_nat (length cs1)) mc ltac:(lia)) as [IHn IHs]. clear IH. cbn [tree_page] in IHn, IHs.
  rewrite sibling_unfold, (at_side_children right_ h _ _ _ _ _ HwP).
  assert (((if right_ then flats cs2 else flats cs1) = [] /\ (if right_ then (if cs2 is [] then true else false) else (if cs1 is [] then true else false)) = true) \/
    ((if right_ then flats cs2 else flats cs1) <> [] /\ (if right_ then (if cs2 is [] then true else false) else (if cs1 is [] then true else false)) = false)) as Hside.
  { destruct right_; [destruct cs2 as [|c2 cs2]|destruct cs1 as [|c1 cs1]]; simpl; try (by left); right;
      (split; [|done]); intros E; by apply (wf_flats h (_ :: _)) in E. }
  destruct Hside as [[Hnil ->]|[Hne ->]].
  - split.
    + intros Hno. rewrite IHn by (destruct right_; simpl in *; [by rewrite Hnil in Hno|by rewrite Hnil, app_nil_r in Hno]).
      cbn [mbind option_bind]. rewrite decide_False, decide_True by done. cbn [mbind option_bind].
      rewrite at_edge_idem. rewrite (sibling_end_edge h _ c _ ((p, Z.of_nat (length cs1)) :: st) k Hwc).
      * rewrite at_edge_twice. done.
      * unfold at_edge. simpl. do 2 f_equal. unfold edge_ki. f_equal. destruct right_.
        -- apply (wf_flats h) in Hnil as ->; [|done]. simpl. rewrite length_app. simpl. f_equal. lia.
        -- apply (wf_flats h) in Hnil as ->; done.
    + intros Hno. destruct IHs as (st' & c' & A' & C' & E & Hr' & Hl & HA).
      { intros H. apply Hno. destruct right_; simpl in *; [by rewrite Hnil|by rewrite Hnil, app_nil_r]. }
      rewrite E. cbn [mbind option_bind]. rewrite decide_True by done.
      destruct (reach_wf _ _ _ _ _ _ Hr' Ht) as (h' & Hw' & Hl'). replace h' with (S h) in Hw' by lia.
      destruct c' as [|q seps' cs]; [done|].
      assert (cs <> []) as Hcsne by (by destruct Hw' as (_ & ? & ? & _ & _ & _ & ? & _)).
      destruct (width_split (negb right_) cs Hcsne) as (ds1 & d & ds2 & -> & Hki & Hds). change (edge_ki (negb right_) (Branch q seps' (ds1 ++ d :: ds2))) with (if negb right_ then Z.of_nat (length (ds1 ++ d :: ds2)) - 1 else 0).
      rewrite Hki. cbn [tree_page]. rewrite (sibling_descend_spec h right_ q seps' ds1 d ds2 _ st' Hw') by (done || lia).
      cbn [mbind option_bind]. rewrite sibling_end_success.
      eexists _, d, _, _. split; [done|]. split; [by eapply reach_child|]. split; [simpl; lia|].
      destruct right_; simpl in Hds; subst ds1 || subst ds2; simpl in HA |- *; rewrite HA, map_app, concat_app; simpl.
      * rewrite Hnil, !app_nil_r. by rewrite <- app_assoc.
      * rewrite Hnil. simpl. by rewrite <- app_assoc.
  - split.
    + intros Hno. exfalso. destruct right_; simpl in Hno; apply app_eq_nil in Hno as [? ?]; done.
    + intros _. clear IHn IHs. destruct right_.
      * destruct cs2 as [|c2 cs2]; [done|]. rewrite cons_middle, app_assoc in HwP.
        assert (u16 (Z.of_nat (length cs1) + 1) = Z.of_nat (length (cs1 ++ [c]))) as ->.
        { rewrite length_app. simpl. unfold u16. rewrite Z.mod_small by lia. lia. }
        rewrite (sibling_descend_spec h true p seps (cs1 ++ [c]) c2 cs2 _ st HwP) by (done || lia).
        cbn [mbind option_bind]. rewrite sibling_end_success.
        eexists _, c2, _, _. split; [done|]. split; [apply (reach_child t st p seps (cs1 ++ [c]) c2 cs2 A C); by rewrite <- app_assoc|].
        split; [done|]. rewrite map_app, concat_app. simpl. by rewrite app_nil_r, app_assoc.
      * destruct cs1 as [|c1 cs1 _] using rev_ind; [done|]. rewrite <- app_assoc in HwP. simpl in HwP.
        assert (Z.of_nat (length (cs1 ++ [c1])) - 1 = Z.of_nat (length cs1)) as -> by (rewrite length_app; simpl; lia).
        rewrite (sibling_descend_spec h false p seps cs1 c1 (c :: cs2) _ st HwP) by (done || lia).
        cbn [mbind option_bind]. rewrite sibling_end_success.
        eexists _, c1, _, _. split; [done|]. split; [apply (reach_child t st p seps cs1 c1 (c :: cs2) A C); by rewrite <- app_assoc in Hr|].
        split; [done|]. simpl. by rewrite <- app_assoc.
Qed.
End well_formed.

(** ** The search through the tree

    In a tree with separators the descent for a key ends in the leaf around the
    place of the key, and the descents along the edges in the first and last leaf. *)

Section search.
Context (txnid front_txnid first_unallocated ps : Z) (read : Z -> Z + page_t) (checking : Z) (dupfixed : bool).
Context {P : list Z -> Prop} {ord : list Z -> list Z -> comparison} {kcmp : comparator} {Hord : KeyOrder P ord kcmp}.
Context (page_touch : cursor -> option (Z * cursor)).

Abbreviation wf := (wf txnid front_txnid first_unallocated ps read checking dupfixed).
Abbreviation ILL := (Z.lor P_ILL_BITS P_LARGE).

(** The separators part the keys of the children: a separator is greater than
    all keys before its child, and not greater than those behind. *)
Fixpoint separated (h : nat) (t : tree) : Prop :=
  match h, t with
  | S h, Branch p seps cs =>
      Forall P (drop 1 seps) /\ sorted_keys (ord := ord) (drop 1 seps) /\
      (forall i s j c k, (1 <= i)%nat -> seps !! i = Some s -> cs !! j = Some c -> k ∈ (flat c).*1 ->
        ((j < i)%nat -> ord k s = Lt) /\ ((i <= j)%nat -> ord k s <> Lt)) /\
      Forall (separated h) cs
  | _, _ => True
  end.

Definition tree_ok (h : nat) (t : tree) : Prop :=
  wf h t /\ separated h t /\ (h <= 31)%nat /\ Forall P (flat t).*1 /\ sorted_keys (ord := ord) (flat t).*1.

(** The keys before are less, the keys behind are greater than the wanted one. *)
Definition brackets (A C : list entry_t) (key : list Z) : Prop :=
  (forall k, k ∈ A.*1 -> ord k key = Lt) /\ (forall k, k ∈ C.*1 -> ord k key = Gt).

Lemma flats_elem k cs : k ∈ (flats cs).*1 -> exists j c, cs !! j = Some c /\ k ∈ (flat c).*1.
Proof.
  intros (e & -> & He)%list_elem_of_fmap. rewrite list_elem_of_In, in_concat in He. destruct He as (l & Hl & Hk).
  apply in_map_iff in Hl as (c & <- & Hc). apply list_elem_of_In, list_elem_of_lookup in Hc as [j Hj].
  exists j, c. split; [done|]. apply list_elem_of_fmap_2. by apply list_elem_of_In.
Qed.

Lemma flats_P cs : Forall P (flats cs).*1 -> forall j c k, cs !! j = Some c -> k ∈ (flat c).*1 -> P k.
Proof.
  intros H j c k Hc (e & -> & He)%list_elem_of_fmap. rewrite Forall_forall in H. apply H, list_elem_of_fmap_2.
  rewrite list_elem_of_In, in_concat. exists (flat c). split; [|by apply list_elem_of_In]. apply in_map. apply list_elem_of_In.
  by eapply list_elem_of_lookup_2.
Qed.

Lemma ord_gt a b : P a -> P b -> ord a b = Gt <-> ord b a = Lt.
Proof. intros Ha Hb. rewrite (ord_antisym (ord := ord) a b Ha Hb). destruct (ord a b); simpl; split; done. Qed.

(** The child which the search in a branch gives. *)
Lemma search_child h p seps cs key : wf (S h) (Branch p seps cs) -> separated (S h) (Branch p seps cs) -> Forall P (flats cs).*1 -> P key ->
  exists cs1 c cs2, cs = cs1 ++ c :: cs2 /\ search_branch kcmp p key = Some (Z.of_nat (length cs1)) /\ brackets (flats cs1) (flats cs2) key.
Proof.
  intros (Hb & size & items & Hp & -> & Hl & Hne & _) (HPs & Hss & Hsep & _) HP Hkey.
  set (seps := it_key <$> items) in *. assert (page_keys p false seps) as Hk by by eapply keys_of_nodes.
  assert (length seps = length cs) as Hls by (unfold seps; by rewrite length_fmap).
  pose proof (search_branch_spec p seps key Hk HPs Hkey Hss) as Es.
  destruct (upper_bound_lookup (drop 1 seps) key HPs Hkey Hss) as (H1 & H2 & H3).
  set (u := upper_bound (ord := ord) (drop 1 seps) key) in *. rewrite length_drop in H1.
  assert (u < length cs)%nat as Hu by (destruct cs; [done|simpl in *; lia]).
  destruct (lookup_lt_is_Some_2 cs u Hu) as [c Hc]. destruct (list_split_at cs u c Hc) as (cs1 & cs2 & -> & Hl1).
  exists cs1, c, cs2. split; [done|]. rewrite Hl1. split; [done|].
  rewrite map_app, concat_app in HP. simpl in HP. rewrite !fmap_app in HP. apply Forall_app in HP as [HP1 HP2]. apply Forall_app in HP2 as [_ HP2].
  split; intros k (j & d & Hd & Hkd)%flats_elem.
  - assert (P k) as HPk by by eapply (flats_P cs1). apply lookup_lt_Some in Hd as Hj.
    destruct (lookup_lt_is_Some_2 seps (S j)) as [s Hs]; [rewrite Hls; lia|].
    assert (P s) as HPs1 by (eapply (Forall_lookup_1 P _ j); [exact HPs|by rewrite lookup_drop]).
    destruct (Hsep (S j) s j d k ltac:(lia) Hs ltac:(by rewrite lookup_app_l) Hkd) as [Hlt _]. specialize (Hlt ltac:(lia)).
    assert (ord s key <> Gt) as Hsk by (eapply (H2 j); [lia|by rewrite lookup_drop]).
    destruct (ord s key) eqn:E; [|by apply (ord_trans (ord := ord) k s key)|done].
    apply (ord_eq s key HPs1 Hkey) in E. by subst s.
  - assert (P k) as HPk by by eapply (flats_P cs2). apply lookup_lt_Some in Hd as Hj.
    destruct (lookup_lt_is_Some_2 seps (u + 1 + j)) as [s Hs]; [rewrite Hls, length_app; simpl; lia|].
    assert (drop 1 seps !! (u + j)%nat = Some s) as Hs' by (rewrite lookup_drop, <- Hs; f_equal; lia).
    assert (P s) as HPs1 by (eapply (Forall_lookup_1 P); [exact HPs|exact Hs']).
    destruct (Hsep (u + 1 + j)%nat s (u + 1 + j)%nat d k ltac:(lia) Hs) as [_ Hge]; [|done|].
    { rewrite lookup_app_r by lia. replace (u + 1 + j - length cs1)%nat with (S j) by lia. done. }
    specialize (Hge ltac:(lia)). assert (ord s key = Gt) as Hsk by (eapply (H3 (u + j)%nat); [lia|done]).
    destruct (ord k s) eqn:E; [|done|].
    + apply (ord_eq k s HPk HPs1) in E. by subst s.
    + apply ord_gt; [done|done|]. apply ord_gt in E; [|done..]. apply ord_gt in Hsk; [|done..]. by apply (ord_trans (ord := ord) key s k).
Qed.

Abbreviation loop := (search_loop txnid front_txnid first_unallocated ps read checking kcmp page_touch).

Lemma search_loop_spec t key flags : Z.land flags Z_MODIFY = 0 -> P key -> Forall P (flat t).*1 ->
  forall h c fuel mc st A C k, wf h c -> separated h c -> (h <= fuel)%nat -> (h + length st <= 31)%nat -> reach t st c A C ->
  brackets A C key -> mc_stack mc = (tree_page c, k) :: st -> (h = 0%nat -> k = 0) ->
  exists st' p keys A' C', loop fuel mc key flags = Some (MDBX_SUCCESS, with_stack mc ((p, 0) :: st')) /\
  reach t st' (Leaf p keys) A' C' /\ wf 0 (Leaf p keys) /\ brackets A' C' key.
Proof.
  intros Hmod Hkey HPt. induction h as [|h IH]; intros c fuel mc st A C k Hw Hs Hf Hlen Hr Hbr Hst Hk.
  - destruct c as [p keys|]; [|done]. rewrite Hk in Hst by done. exists st, p, keys, A, C. destruct Hw as (Hb & Ht & Hks & Hne).
    split; [|done]. destruct fuel; cbn [search_loop]; rewrite Hst; simpl; rewrite Hb, Ht; simpl; f_equal; f_equal; destruct mc; simpl in *; by rewrite Hst.
  - destruct c as [|p seps cs]; [done|]. destruct fuel as [|fuel]; [lia|].
    assert (Forall P (flats cs).*1) as HPcs.
    { rewrite (reach_flat _ _ _ _ _ Hr), !fmap_app in HPt. apply Forall_app in HPt as [_ HPt]. by apply Forall_app in HPt as [HPt _]. }
    destruct (search_child h p seps cs key Hw Hs HPcs Hkey) as (cs1 & c & cs2 & -> & Es & Hbr').
    destruct (wf_width _ _ _ _ _ _ _ (S h) _ Hw) as (_ & _ & Hmax). cbn [width] in Hmax. rewrite length_app in Hmax. simpl in Hmax.
    cbn [search_loop]. rewrite Hst. cbn [tree_page]. rewrite Es. destruct Hw as [Hb Hw']. rewrite Hb. cbn [mbind option_bind].
    assert (u16 (Z.of_nat (length cs1)) = Z.of_nat (length cs1)) as -> by (unfold u16; apply Z.mod_small; lia).
    rewrite (child_push_spec _ _ _ _ _ _ _ h p seps cs1 c cs2 mc k st (conj Hb Hw') Hst) by lia. cbn [mbind option_bind].
    rewrite decide_False by (intros H; by apply H). unfold touch_if. rewrite decide_False by lia. cbn [mbind option_bind].
    rewrite decide_False by (intros H; by apply H).
    destruct (IH c fuel (with_stack mc ((tree_page c, 0) :: (p, Z.of_nat (length cs1)) :: st)) ((p, Z.of_nat (length cs1)) :: st)
      (A ++ flats cs1) (flats cs2 ++ C) 0) as (st' & q & keys & A' & C' & E & Hr' & Hw2 & HA).
    + by apply (wf_child _ _ _ _ _ _ _ h p seps cs1 c cs2).
    + destruct Hs as (_ & _ & _ & Hcs). apply Forall_app in Hcs as [_ Hcs]. by apply Forall_cons in Hcs as [Hcs _].
    + lia.
    + simpl. lia.
    + by eapply reach_child.
    + destruct Hbr as [HA HC], Hbr' as [HA' HC']. split; intros k'; rewrite fmap_app; intros [H|H]%elem_of_app; auto.
    + done.
    + done.
    + exists st', q, keys, A', C'. by rewrite E.
Qed.
End search.
