(* ===== verification/CursorOps.v ===== *)
(** * Cursors: landing, stepping, seeking

    The operations of [mdbx_cursor_get] on a cursor without an inner cursor.  In
    a table without duplicates no node has [N_DUP]; the part of the code for such
    nodes needs an inner cursor, here [None]. *)

From S2P Require Import Prelude Meta Cmp Dpl Page Foliage Cursor.

Definition MDBX_BAD_VALSIZE : Z := -30781.

Inductive MDBX_cursor_op :=
| MDBX_FIRST | MDBX_FIRST_DUP | MDBX_GET_BOTH | MDBX_GET_BOTH_RANGE | MDBX_GET_CURRENT | MDBX_GET_MULTIPLE | MDBX_LAST
| MDBX_LAST_DUP | MDBX_NEXT | MDBX_NEXT_DUP | MDBX_NEXT_MULTIPLE | MDBX_NEXT_NODUP | MDBX_PREV | MDBX_PREV_DUP | MDBX_PREV_NODUP
| MDBX_SET | MDBX_SET_KEY | MDBX_SET_RANGE | MDBX_PREV_MULTIPLE | MDBX_SET_LOWERBOUND | MDBX_SET_UPPERBOUND
| MDBX_TO_KEY_LESSER_THAN | MDBX_TO_KEY_LESSER_OR_EQUAL | MDBX_TO_KEY_EQUAL | MDBX_TO_KEY_GREATER_OR_EQUAL | MDBX_TO_KEY_GREATER_THAN
| MDBX_TO_EXACT_KEY_VALUE_LESSER_THAN | MDBX_TO_EXACT_KEY_VALUE_LESSER_OR_EQUAL | MDBX_TO_EXACT_KEY_VALUE_EQUAL
| MDBX_TO_EXACT_KEY_VALUE_GREATER_OR_EQUAL | MDBX_TO_EXACT_KEY_VALUE_GREATER_THAN
| MDBX_TO_PAIR_LESSER_THAN | MDBX_TO_PAIR_LESSER_OR_EQUAL | MDBX_TO_PAIR_EQUAL | MDBX_TO_PAIR_GREATER_OR_EQUAL | MDBX_TO_PAIR_GREATER_THAN
| MDBX_SEEK_AND_GET_MULTIPLE.
#[export] Instance op_eq_dec : EqDecision MDBX_cursor_op.
Proof. solve_decision. Defined.

(** The numbers of the operations that [cursor_seek] compares. *)
Definition op_number (op : MDBX_cursor_op) : Z :=
  match op with
  | MDBX_GET_BOTH => 2
  | MDBX_GET_BOTH_RANGE => 3
  | MDBX_SET => 15
  | MDBX_SET_KEY => 16
  | MDBX_SET_RANGE => 17
  | _ => -1
  end.

(** What an operation leaves: its code, the cursor, and the key and value that
    the caller's variables have, [None] where the caller gave a null pointer. *)
Record got := mk_got { g_rc : Z; g_mc : cursor; g_key : option (list Z); g_data : option (list Z) }.
Record csr_t := mk_csr { csr_got : got; csr_exact : bool }.

(** A variable of the caller is set if there is one. *)
Definition put (var : option (list Z)) (v : list Z) : option (list Z) := (fun _ => v) <$> var.

Definition top_ki (mc : cursor) : option (page_t * Z) := head (mc_stack mc).

Section ops.
Context (txnid front_txnid first_unallocated ps : Z) (read : Z -> Z + page_t).
Context (checking : Z) (kcmp : comparator) (dupfixed : bool) (root_txnid : Z) (refresh : option (Z * Z)).
Context (page_touch : cursor -> option (Z * cursor)) (ps2ln : Z).

Abbreviation get_page := (page_get txnid front_txnid first_unallocated ps read).
Abbreviation search_tree := (tree_search txnid front_txnid first_unallocated ps read checking kcmp root_txnid refresh page_touch).
Abbreviation go_right := (cursor_sibling_right txnid front_txnid first_unallocated ps read).
Abbreviation go_left := (cursor_sibling_left txnid front_txnid first_unallocated ps read).

(** A value on a large page. *)
Definition node_read_bigdata (mc : cursor) (node : nat) (iov_len : Z) (mp : page_t) : option (Z * list Z * cursor) :=
  flags ← node_flags (page_body mp) node;
  ds ← node_ds (page_body mp) node;
  if decide (flags <> N_BIG \/ iov_len <> ds) then Some (MDBX_EINVAL, [], mc)
  else
    data ← node_data (page_body mp) node;
    large_pgno ← load 4 (page_body mp) data;
    let npages := largechunk_npages ps2ln iov_len in
    match get_page mc (Z.lor P_ILL_BITS (Z.lor P_BRANCH (Z.lor P_LEAF P_DUPFIX))) large_pgno (page_txnid mp) with
    | (inl err, mc) => Some (err, [], mc)
    | (inr lp, mc) =>
        if decide (page_pages lp < npages) then Some (MDBX_CORRUPTED, [], mc)
        else v ← bytes_at (page_body lp) 0 (Z.to_nat iov_len); Some (MDBX_SUCCESS, v, mc)
    end.

Definition node_read (mc : cursor) (node : nat) (mp : page_t) : option (Z * list Z * cursor) :=
  flags ← node_flags (page_body mp) node;
  ds ← node_ds (page_body mp) node;
  if decide (flags <> N_BIG) then
    data ← node_data (page_body mp) node;
    v ← bytes_at (page_body mp) data (Z.to_nat ds);
    Some (MDBX_SUCCESS, v, mc)
  else node_read_bigdata mc node ds mp.

(** [cursor_bring]: the key and value at the cursor. *)
Definition cursor_bring (inner : bool) (mc : cursor) (key data : option (list Z)) (eof : bool) : option got :=
  '(mp, ki) ← top_ki mc;
  if negb (check_leaf_type checking mp) then Some (mk_got MDBX_CORRUPTED mc key data)
  else if inner && is_dupfix_leaf mp then
    let mc := be_filled mc in
    let mc := if eof then with_flags mc (Z.lor (mc_flags mc) z_eof_soft) else mc in
    k ← page_dupfix_key mp (Z.to_nat ki);
    Some (mk_got MDBX_SUCCESS mc (put key k) data)
  else
    node ← page_node mp (Z.to_nat ki);
    flags ← node_flags (page_body mp) node;
    if negb inner && bool_decide (Z.land flags N_DUP <> 0) then None
    else
      '(err, v, mc) ← match data with Some _ => node_read mc node mp | None => Some (MDBX_SUCCESS, [], mc) end;
      if decide (err <> MDBX_SUCCESS) then Some (mk_got err mc key data)
      else
        let mc := be_filled mc in
        let mc := if eof then with_flags mc (Z.lor (mc_flags mc) z_eof_soft) else mc in
        k ← get_key (page_body mp) node;
        Some (mk_got MDBX_SUCCESS mc (put key k) (put data v)).

(** [cursor_brim]: to the first or last entry. *)
Definition cursor_brim (inner tend2first : bool) (mc : cursor) (key data : option (list Z)) : option got :=
  '(err, mc) ← (if decide (length (mc_stack mc) <> 1%nat) then search_tree mc [] (if tend2first then Z_FIRST else Z_LAST)
                else Some (MDBX_SUCCESS, mc));
  if decide (err <> MDBX_SUCCESS) then Some (mk_got err mc key data)
  else
    '(mp, _) ← top_ki mc;
    cursor_bring inner (set_ki mc (if tend2first then 0 else u16 (Z.of_nat (page_numkeys mp) - 1))) key data (negb tend2first).

(** The part of [cursor_step] that moves. *)
Definition step_move (inner forward : bool) (mc : cursor) (key data : option (list Z)) (ki nkeys : Z) : option got :=
  let ki := if forward then ki + 1 else ki - 1 in
  if (if forward then bool_decide (ki < nkeys) else bool_decide (ki >= 0)) then cursor_bring inner (set_ki mc (u16 ki)) key data false
  else
    '(err, mc) ← (if forward then go_right mc else go_left mc);
    if decide (err <> MDBX_SUCCESS) then Some (mk_got err mc key data)
    else cursor_bring inner mc key data false.

Definition cursor_step (inner forward : bool) (mc : cursor) (key data : option (list Z)) (op : MDBX_cursor_op) : option got :=
  match top_ki mc with
  | None =>
      let state := mc_flags mc in
      if decide (Z.land state z_fresh <> 0) then cursor_brim inner forward mc key data
      else
        let mc := with_flags mc (if inner then Z.lor z_inner z_poor_mark else z_poor_mark) in
        Some (mk_got (if decide (Z.land state z_after_delete <> 0) then MDBX_NOTFOUND else MDBX_ENODATA) mc key data)
  | Some (mp, ki) =>
      let nkeys := Z.of_nat (page_numkeys mp) in
      let state := Z.land (mc_flags mc) (Z.lor z_after_delete (Z.lor z_hollow (Z.lor z_eof_hard z_eof_soft))) in
      let dup := bool_decide (op = if forward then MDBX_NEXT_DUP else MDBX_PREV_DUP) in
      if decide (state = 0) then
        if negb inner && dup then Some (mk_got MDBX_NOTFOUND mc key data)
        else step_move inner forward mc key data ki nkeys
      else if is_hollow mc then Some (mk_got MDBX_ENODATA mc key data)
      else if negb inner && dup then Some (mk_got MDBX_NOTFOUND mc key data)
      else if forward then
        if decide (Z.land state z_after_delete <> 0) then
          if decide (ki < nkeys) then cursor_bring inner mc key data false else step_move inner forward mc key data ki nkeys
        else Some (mk_got MDBX_NOTFOUND mc key data)
      else if decide (Z.land state z_eof_hard <> 0) then cursor_bring inner (set_ki mc (u16 (nkeys - 1))) key data false
      else step_move inner forward mc key data ki nkeys
  end.

(** ** Seeking *)

(** Comparator and limits of values, flags of the table. *)
Context (k_lmin k_lmax v_lmin v_lmax tree_flags : Z) (vcmp : comparator).

(** [check_key]; where the key is does not matter for its bytes. *)
Definition check_key (key : list Z) : Z :=
  let l := Z.of_nat (length key) in
  if decide (l < k_lmin \/ l > k_lmax /\ k_lmin = k_lmax) then MDBX_BAD_VALSIZE
  else if decide (Z.land tree_flags MDBX_INTEGERKEY <> 0 /\ l <> 8 /\ l <> 4) then MDBX_BAD_VALSIZE
  else MDBX_SUCCESS.

Definition fails (err : Z) (exact : bool) (mc : cursor) (key data : option (list Z)) : csr_t := mk_csr (mk_got err mc key data) exact.

Definition target_not_found (exact : bool) (mc : cursor) (key data : option (list Z)) : csr_t :=
  fails MDBX_NOTFOUND exact (with_flags mc (Z.lor (mc_flags mc) z_hollow)) key data.

(** The comparison with the value that [MDBX_GET_BOTH] and its range ask for. *)
Definition seek_both (mc : cursor) (mp : page_t) (node : nat) (key : option (list Z)) (data : list Z) (op : MDBX_cursor_op) (exact : bool)
  : option (csr_t + (list Z * cursor)) :=
  let l := Z.of_nat (length data) in
  if decide (l < v_lmin \/ l > v_lmax) then Some (inl (fails MDBX_BAD_VALSIZE exact mc key (Some data)))
  else if decide (Z.land tree_flags MDBX_INTEGERDUP <> 0 /\ l <> 8 /\ l <> 4) then Some (inl (fails MDBX_BAD_VALSIZE exact mc key (Some data)))
  else
    '(err, actual_data, mc) ← node_read mc node mp;
    if decide (err <> MDBX_SUCCESS) then Some (inl (fails err exact mc key (Some data)))
    else
      cmp ← vcmp data actual_data;
      if decide (cmp <> 0 /\ op <> MDBX_GET_BOTH_RANGE) then Some (inl (target_not_found exact mc key (Some data)))
      else if decide (cmp > 0) then Some (inl (fails MDBX_NOTFOUND exact mc key (Some data)))
      else Some (inr (actual_data, mc)).

(** [got_node] *)
Definition seek_got_node (mc : cursor) (mp : page_t) (node : option nat) (key data : option (list Z)) (op : MDBX_cursor_op) (exact : bool)
  : option csr_t :=
  if negb (check_leaf_type checking mp) then Some (fails MDBX_CORRUPTED exact mc key data)
  else if is_dupfix_leaf mp then
    '(_, ki) ← top_ki mc;
    k ← page_dupfix_key mp (Z.to_nat ki);
    Some (fails MDBX_SUCCESS exact (be_filled mc) (if decide (op_number op >= 16) then put key k else key) data)
  else
    node ← node;
    flags ← node_flags (page_body mp) node;
    if decide (Z.land flags N_DUP <> 0) then None
    else
      r ← match data with
          | None => Some (inr (None, mc))
          | Some d =>
              if decide (op_number op <= 3) then
                r ← seek_both mc mp node key d op exact;
                Some (match r with inl csr => inl csr | inr (v, mc) => inr (Some v, mc) end)
              else
                '(err, v, mc) ← node_read mc node mp;
                Some (if decide (err <> MDBX_SUCCESS) then inl (fails err exact mc key data) else inr (Some v, mc))
          end;
      match r with
      | inl csr => Some csr
      | inr (data, mc) =>
          k ← get_key (page_body mp) node;
          Some (fails MDBX_SUCCESS exact (be_filled mc) (if decide (op_number op >= 16) then put key k else key) data)
      end.

(** [search_node] *)
Definition seek_search_node (mc : cursor) (mp : page_t) (wanted : list Z) (key data : option (list Z)) (op : MDBX_cursor_op) : option csr_t :=
  sr ← search_foliage kcmp kcmp false dupfixed mp wanted;
  let mc := set_ki mc (sfr_ki sr) in
  let node := match sfr_node sr with node_at off => Some off | _ => None end in
  if sfr_exact sr then seek_got_node mc mp node key data op true
  else if decide (op_number op < 17) then Some (target_not_found false mc key data)
  else
    match sfr_node sr with
    | node_null =>
        '(err, mc) ← go_right mc;
        if decide (err <> MDBX_SUCCESS) then Some (fails err false mc key data)
        else
          '(mp, _) ← top_ki mc;
          node ← (if is_dupfix_leaf mp then Some None else Some <$> page_node mp 0);
          seek_got_node mc mp node key data op false
    | _ => seek_got_node mc mp node key data op false
    end.

(** [continue_other_pages] *)
Definition seek_other_pages (mc : cursor) (wanted : list Z) (key data : option (list Z)) (op : MDBX_cursor_op) : option csr_t :=
  '(err, mc) ← search_tree mc wanted 0;
  if decide (err <> MDBX_SUCCESS) then Some (fails err false mc key data)
  else '(mp, _) ← top_ki mc; seek_search_node mc mp wanted key data op.

(** Key [i] of the page with the node that has it. *)
Definition key_of_page (mp : page_t) (i : nat) : option (option nat * list Z) :=
  if is_dupfix_leaf mp then k ← page_dupfix_key mp i; Some (None, k)
  else node ← page_node mp i; k ← get_key (page_body mp) node; Some (Some node, k).

(** Behind the last key of the page. *)
Definition seek_behind_last (mc : cursor) (nkeys : Z) (wanted : list Z) (key data : option (list Z)) (op : MDBX_cursor_op) : option csr_t :=
  if existsb (fun l : page_t * Z => bool_decide (snd l + 1 < Z.of_nat (page_numkeys (fst l)))) (tail (mc_stack mc))
  then seek_other_pages mc wanted key data op
  else
    let mc := set_ki mc (u16 nkeys) in
    if decide (op_number op < 17) then Some (target_not_found false mc key data)
    else Some (fails MDBX_NOTFOUND false (with_flags mc (Z.lor z_eof_soft (Z.lor z_eof_hard (Z.land (mc_flags mc) z_clear_mask)))) key data).

(** The key is greater than the first one of the page at hand. *)
Definition seek_greater_first (mc : cursor) (mp : page_t) (ki nkeys : Z) (wanted : list Z) (key data : option (list Z)) (op : MDBX_cursor_op)
  : option csr_t :=
  if decide (nkeys > 1) then
    '(node, nodekey) ← key_of_page mp (Z.to_nat (nkeys - 1));
    cmp ← kcmp wanted nodekey;
    if decide (cmp = 0) then seek_got_node (set_ki mc (u16 (nkeys - 1))) mp node key data op true
    else if decide (cmp < 0) then
      if decide (ki > 0 /\ ki < nkeys - 1) then
        '(node, nodekey) ← key_of_page mp (Z.to_nat ki);
        cmp ← kcmp wanted nodekey;
        if decide (cmp = 0) then seek_got_node mc mp node key data op true else seek_search_node mc mp wanted key data op
      else seek_search_node mc mp wanted key data op
    else seek_behind_last mc nkeys wanted key data op
  else seek_behind_last mc nkeys wanted key data op.

Definition cursor_seek (mc : cursor) (wanted : list Z) (key data : option (list Z)) (op : MDBX_cursor_op) : option csr_t :=
  let err := check_key wanted in
  if decide (err <> MDBX_SUCCESS) then Some (fails err false mc key data)
  else
    match top_ki mc with
    | Some (mp, ki) =>
        let nkeys := Z.of_nat (page_numkeys mp) in
        if decide (nkeys = 0) then Some (fails MDBX_NOTFOUND false mc key data)
        else
          '(node, nodekey) ← key_of_page mp 0;
          cmp ← kcmp wanted nodekey;
          if decide (cmp = 0) then seek_got_node (set_ki mc 0) mp node key data op true
          else if decide (cmp > 0) then seek_greater_first mc mp ki nkeys wanted key data op
          else if decide (length (mc_stack mc) = 1%nat) then
            let mc := set_ki mc 0 in
            if decide (op_number op >= 17) then seek_got_node mc mp node key data op false
            else Some (target_not_found false mc key data)
          else seek_other_pages mc wanted key data op
    | None => seek_other_pages mc wanted key data op
    end.

(** ** [cursor_ops] *)

Abbreviation step := (cursor_step false).
Abbreviation brim := (cursor_brim false).
Definition outer_next (mc : cursor) (key data : option (list Z)) (op : MDBX_cursor_op) : option got := step true mc key data op.
Definition outer_prev (mc : cursor) (key data : option (list Z)) (op : MDBX_cursor_op) : option got := step false mc key data op.

Definition ops_error (rc : Z) (mc : cursor) (key data : option (list Z)) : option got := Some (mk_got rc mc key data).
Definition set_rc (rc : Z) (g : got) : got := mk_got rc (g_mc g) (g_key g) (g_data g).

Definition get_current (mc : cursor) (key data : option (list Z)) : option got :=
  let read_current :=
    if decide (Z.land (mc_flags mc) z_after_delete <> 0) then outer_next mc key data MDBX_NEXT_NODUP
    else
      '(mp, ki) ← top_ki mc;
      node ← page_node mp (Z.to_nat ki);
      k ← get_key (page_body mp) node;
      match data with
      | None => Some (mk_got MDBX_SUCCESS mc (put key k) data)
      | Some _ =>
          flags ← node_flags (page_body mp) node;
          if decide (Z.land flags N_DUP <> 0) then None
          else '(err, v, mc) ← node_read mc node mp; Some (mk_got err mc (put key k) (if decide (err = MDBX_SUCCESS) then put data v else data))
      end in
  if is_filled mc then read_current
  else if is_hollow mc then ops_error MDBX_ENODATA mc key data
  else
    '(mp, ki) ← top_ki mc;
    if decide (ki >= Z.of_nat (page_numkeys mp)) then ops_error MDBX_NOTFOUND mc key data else read_current.

(** [MDBX_SET_LOWERBOUND] and [MDBX_SET_UPPERBOUND] *)
Definition seek_bound (upper : bool) (mc : cursor) (wanted : list Z) (key data : option (list Z)) : option got :=
  csr ← cursor_seek mc wanted key data MDBX_SET_RANGE;
  let g := csr_got csr in
  let rc := if decide (g_rc g = MDBX_SUCCESS /\ csr_exact csr = false) then MDBX_RESULT_TRUE else g_rc g in
  if upper then
    if decide (rc = MDBX_RESULT_TRUE) then Some (set_rc MDBX_SUCCESS g)
    else if decide (rc = MDBX_SUCCESS) then outer_next (g_mc g) (g_key g) (g_data g) MDBX_NEXT
    else Some (set_rc rc g)
  else Some (set_rc rc g).

(** [MDBX_TO_KEY_*]; the operations count from -2 for less than the key to 2. *)
Definition seek_to_key (rel : Z) (mc : cursor) (wanted : list Z) (key data : option (list Z)) : option got :=
  csr ← cursor_seek mc wanted key data MDBX_SET_RANGE;
  let g := csr_got csr in
  if csr_exact csr then
    if decide (rel = -2) then outer_prev (g_mc g) (g_key g) (g_data g) MDBX_PREV_NODUP
    else if decide (rel = 2) then outer_next (g_mc g) (g_key g) (g_data g) MDBX_NEXT_NODUP
    else Some g
  else if decide (rel < 0 /\ (g_rc g = MDBX_NOTFOUND \/ g_rc g = MDBX_SUCCESS)) then outer_prev (g_mc g) (g_key g) (g_data g) MDBX_PREV_NODUP
  else if decide (rel = 0 /\ g_rc g = MDBX_SUCCESS) then Some (set_rc MDBX_NOTFOUND g)
  else Some g.

(** Whether a comparison stands in the relation [rel]. *)
Definition in_relation (rel cmp : Z) : bool :=
  if decide (rel = -2) then bool_decide (cmp < 0)
  else if decide (rel = -1) then bool_decide (cmp <= 0)
  else if decide (rel = 0) then bool_decide (cmp = 0)
  else if decide (rel = 1) then bool_decide (cmp >= 0)
  else bool_decide (cmp > 0).

Definition seek_exact_pair (rel : Z) (mc : cursor) (wanted : list Z) (key : option (list Z)) (save_data : list Z) : option got :=
  csr ← cursor_seek mc wanted key (Some save_data) MDBX_SET_KEY;
  let g := csr_got csr in
  if decide (g_rc g = MDBX_SUCCESS) then
    data ← g_data g; cmp ← vcmp data save_data;
    Some (set_rc (if in_relation rel cmp then MDBX_SUCCESS else MDBX_NOTFOUND) g)
  else Some g.

Definition seek_pair (rel : Z) (mc : cursor) (wanted : list Z) (key : option (list Z)) (save_data : list Z) : option got :=
  csr ← cursor_seek mc wanted key (Some save_data) MDBX_SET_RANGE;
  let g := csr_got csr in
  if csr_exact csr then
    data ← g_data g; cmp ← vcmp data save_data;
    if in_relation rel cmp then Some (if decide (rel = 0) then set_rc MDBX_SUCCESS g else g)
    else if decide (rel < 0) then outer_prev (g_mc g) (g_key g) (g_data g) MDBX_PREV
    else if decide (rel > 0) then outer_next (g_mc g) (g_key g) (g_data g) MDBX_NEXT
    else Some (set_rc MDBX_NOTFOUND g)
  else if decide (rel < 0 /\ (g_rc g = MDBX_NOTFOUND \/ g_rc g = MDBX_SUCCESS)) then outer_prev (g_mc g) (g_key g) (g_data g) MDBX_PREV_NODUP
  else if decide (rel = 0 /\ g_rc g = MDBX_SUCCESS) then Some (set_rc MDBX_NOTFOUND g)
  else Some g.

(** [MDBX_FIRST_DUP] and [MDBX_LAST_DUP] at a node without duplicates *)
Definition edge_dup (mc : cursor) (key data : option (list Z)) : option got :=
  match data with
  | None => ops_error MDBX_EINVAL mc key data
  | Some _ =>
      if negb (is_filled mc) then ops_error MDBX_ENODATA mc key data
      else
        '(mp, ki) ← top_ki mc;
        node ← page_node mp (Z.to_nat ki);
        k ← get_key (page_body mp) node;
        flags ← node_flags (page_body mp) node;
        if decide (Z.land flags N_DUP <> 0) then None
        else '(err, v, mc) ← node_read mc node mp; Some (mk_got err mc (put key k) (if decide (err = MDBX_SUCCESS) then put data v else data))
  end.

(** [MDBX_GET_MULTIPLE]; a table of values of one size has an inner cursor. *)
Definition get_multiple (mc : cursor) (key data : option (list Z)) : option got :=
  match data with
  | None => ops_error MDBX_EINVAL mc key data
  | Some _ => if decide (Z.land tree_flags MDBX_DUPFIXED = 0) then ops_error MDBX_INCOMPATIBLE mc key data else None
  end.

Definition seek_relation (op : MDBX_cursor_op) : option Z :=
  match op with
  | MDBX_TO_KEY_LESSER_THAN | MDBX_TO_EXACT_KEY_VALUE_LESSER_THAN | MDBX_TO_PAIR_LESSER_THAN => Some (-2)
  | MDBX_TO_KEY_LESSER_OR_EQUAL | MDBX_TO_EXACT_KEY_VALUE_LESSER_OR_EQUAL | MDBX_TO_PAIR_LESSER_OR_EQUAL => Some (-1)
  | MDBX_TO_KEY_EQUAL | MDBX_TO_EXACT_KEY_VALUE_EQUAL | MDBX_TO_PAIR_EQUAL => Some 0
  | MDBX_TO_KEY_GREATER_OR_EQUAL | MDBX_TO_EXACT_KEY_VALUE_GREATER_OR_EQUAL | MDBX_TO_PAIR_GREATER_OR_EQUAL => Some 1
  | MDBX_TO_KEY_GREATER_THAN | MDBX_TO_EXACT_KEY_VALUE_GREATER_THAN | MDBX_TO_PAIR_GREATER_THAN => Some 2
  | _ => None
  end.

(** The operations which want a key, and those which want a value too. *)
Definition cursor_ops_seek (mc : cursor) (wanted : list Z) (data : option (list Z)) (op : MDBX_cursor_op) : option got :=
  let key := Some wanted in
  match op with
  | MDBX_SET | MDBX_SET_KEY | MDBX_SET_RANGE => csr_got <$> cursor_seek mc wanted key data op
  | MDBX_SEEK_AND_GET_MULTIPLE =>
      csr ← cursor_seek mc wanted key data MDBX_SET;
      let g := csr_got csr in
      if decide (g_rc g <> MDBX_SUCCESS) then Some g else get_multiple (g_mc g) (g_key g) (g_data g)
  | MDBX_TO_KEY_LESSER_THAN | MDBX_TO_KEY_LESSER_OR_EQUAL | MDBX_TO_KEY_EQUAL | MDBX_TO_KEY_GREATER_OR_EQUAL | MDBX_TO_KEY_GREATER_THAN =>
      rel ← seek_relation op; seek_to_key rel mc wanted key data
  | _ =>
      match data with
      | None => ops_error MDBX_EINVAL mc key data
      | Some save_data =>
          match op with
          | MDBX_SET_LOWERBOUND => seek_bound false mc wanted key data
          | MDBX_SET_UPPERBOUND => seek_bound true mc wanted key data
          | MDBX_TO_EXACT_KEY_VALUE_LESSER_THAN | MDBX_TO_EXACT_KEY_VALUE_LESSER_OR_EQUAL | MDBX_TO_EXACT_KEY_VALUE_EQUAL
          | MDBX_TO_EXACT_KEY_VALUE_GREATER_OR_EQUAL | MDBX_TO_EXACT_KEY_VALUE_GREATER_THAN =>
              rel ← seek_relation op; seek_exact_pair rel mc wanted key save_data
          | _ => rel ← seek_relation op; seek_pair rel mc wanted key save_data
          end
      end
  end.

Definition clear_eof_hard (g : got) : got :=
  mk_got (g_rc g) (with_flags (g_mc g) (Z.ldiff (mc_flags (g_mc g)) z_eof_hard)) (g_key g) (g_data g).

Definition cursor_ops (mc : cursor) (key data : option (list Z)) (op : MDBX_cursor_op) : option got :=
  match op with
  | MDBX_GET_CURRENT => get_current mc key data
  | MDBX_GET_BOTH | MDBX_GET_BOTH_RANGE | MDBX_NEXT_MULTIPLE | MDBX_PREV_MULTIPLE =>
      ops_error (if data is Some _ then MDBX_INCOMPATIBLE else MDBX_EINVAL) mc key data
  | MDBX_GET_MULTIPLE => get_multiple mc key data
  | MDBX_NEXT_DUP | MDBX_NEXT | MDBX_NEXT_NODUP => clear_eof_hard <$> outer_next mc key data op
  | MDBX_PREV_DUP | MDBX_PREV | MDBX_PREV_NODUP => outer_prev mc key data op
  | MDBX_FIRST => brim true mc key data
  | MDBX_LAST => brim false mc key data
  | MDBX_FIRST_DUP | MDBX_LAST_DUP => edge_dup mc key data
  | _ =>
      match key with
      | None => ops_error MDBX_EINVAL mc key data
      | Some wanted => cursor_ops_seek mc wanted data op
      end
  end.
End ops.
