(* ===== verification/CursorFacts.v ===== *)
(** * Cursors over a tree: the steps of the operations *)

From S2P Require Import Prelude Meta Cmp CmpProps Dpl Page PageFacts PageOps Foliage FoliageFacts FoliageProps FoliageDispatch.
From S2P Require Import Cursor CursorTree CursorOps.

Lemma if_ne_refl {A B} (x : A) (a b : B) `{Decision (x <> x)} : (if decide (x <> x) then a else b) = b.
Proof. rewrite decide_False; [done|]. intros H0. by apply H0. Qed.

(** ** Lower bounds in parts *)

Lemma lower_bound_parts {ord : list Z -> list Z -> comparison} (A B C : list (list Z)) key :
  (forall k, k ∈ A -> ord k key = Lt) -> (forall k, k ∈ C -> ord k key = Gt) ->
  lower_bound (ord := ord) (A ++ B ++ C) key = (length A + lower_bound (ord := ord) B key)%nat.
Proof.
  intros HA HC. induction A as [|a A IH]; simpl.
  - clear HA. induction B as [|b B IH]; simpl; [|case_decide; [by rewrite IH|done]].
    destruct C as [|c C]; [done|]. simpl. rewrite decide_False; [done|]. rewrite HC by set_solver. done.
  - rewrite decide_True by (apply HA; set_solver). rewrite IH; [done|]. intros k Hk. apply HA. set_solver.
Qed.

Lemma elem_parts {ord : list Z -> list Z -> comparison} (A B C : list (list Z)) key :
  (forall k, k ∈ A -> ord k key = Lt) -> (forall k, k ∈ C -> ord k key = Gt) -> ord key key = Eq ->
  key ∈ A ++ B ++ C <-> key ∈ B.
Proof.
  intros HA HC He. rewrite !elem_of_app. split; [|tauto]. intros [H|[H|H]]; [|done|].
  - apply HA in H. congruence.
  - apply HC in H. congruence.
Qed.

(** ** The table of a cursor

    Its tree is ordered and readable, and so is its root. *)
Class TableOk (txnid front_txnid first_unallocated ps : Z) (read : Z -> Z + page_t) (checking : Z) (dupfixed : bool)
  (P : list Z -> Prop) (ord : list Z -> list Z -> comparison) (root_txnid : Z) (t : tree) (ht : nat) (root : Z) : Prop := {
  tab_tree : tree_ok txnid front_txnid first_unallocated ps read checking dupfixed (P := P) (ord := ord) ht t;
  tab_root : readable txnid front_txnid first_unallocated ps read root_txnid root (tree_page t);
  tab_range : NUM_METAS <= root;
  tab_pgno : page_pgno (tree_page t) = root;
  tab_valid : root <> P_INVALID
}.

Section facts.
Context {txnid front_txnid first_unallocated ps : Z} {read : Z -> Z + page_t} {checking : Z} {dupfixed : bool}.
Context {P : list Z -> Prop} {ord : list Z -> list Z -> comparison} {kcmp : comparator} {Hord : KeyOrder P ord kcmp}.
Context {root_txnid : Z} {page_touch : cursor -> option (Z * cursor)} {ps2ln : Z} {inner : bool}.

Abbreviation wf := (wf txnid front_txnid first_unallocated ps read checking dupfixed).
Abbreviation search_tree := (tree_search txnid front_txnid first_unallocated ps read checking kcmp root_txnid None page_touch).
Abbreviation bring := (cursor_bring txnid front_txnid first_unallocated ps read checking ps2ln inner).

Context {t : tree} {ht : nat} {root : Z}.
Context {Htab : TableOk txnid front_txnid first_unallocated ps read checking dupfixed P ord root_txnid t ht root}.
Context (Hinner : dupfixed = true -> inner = true).

(** A cursor of the table: its stack is empty or leads to a leaf. *)
Definition stack_ok (stack : list (page_t * Z)) : Prop :=
  stack = [] \/ exists p k st es A C, stack = (p, k) :: st /\ reach t st (Leaf p es) A C.
Definition cursor_ok (mc : cursor) : Prop :=
  mc_root mc = root /\ Z.land (mc_txn_flags mc) MDBX_TXN_BLOCKED = 0 /\ stack_ok (mc_stack mc).

(** The cursor is at entry [n] of the table. *)
Definition at_entry (mc : cursor) (n : nat) : Prop :=
  exists p i st es A C, mc_stack mc = (p, Z.of_nat i) :: st /\ reach t st (Leaf p es) A C /\ (i < length es)%nat /\ n = (length A + i)%nat.

Lemma reach_leaf_wf st p es A C : reach t st (Leaf p es) A C -> wf 0 (Leaf p es) /\ length st = ht.
Proof.
  intros Hr. destruct tab_tree as (Hw & _). destruct (reach_wf _ _ _ _ _ _ _ _ _ _ _ _ _ Hr Hw) as (h & Hl & Hh).
  destruct h; [|done]. split; [done|lia].
Qed.

Lemma stack_bottom st p es A C : reach t st (Leaf p es) A C -> forall k, exists k', last ((p, k) :: st) = Some (tree_page t, k').
Proof.
  assert (forall st c A C, reach t st c A C -> forall k, exists k', last ((tree_page c, k) :: st) = Some (tree_page t, k')) as H.
  { clear. intros st c A C. induction 1 as [|st p seps cs1 c cs2 A C H IH]; intros k; [by exists k|].
    destruct (IH (Z.of_nat (length cs1))) as [k' E]. exists k'. simpl in E |- *. destruct st; exact E. }
  intros Hr k. exact (H _ _ _ _ Hr k).
Qed.

(** ** Landing *)

Definition filled (mc : cursor) (eof : bool) : cursor :=
  let mc := be_filled mc in if eof then with_flags mc (Z.lor (mc_flags mc) z_eof_soft) else mc.

Lemma leaf_dupfix p es : wf 0 (Leaf p es) -> is_dupfix_leaf p = dupfixed /\ check_leaf_type checking p = true.
Proof. intros (_ & H1 & H2 & _). split; [|done]. by destruct (page_keys_numkeys _ _ _ (leaf_entries_keys _ _ _ H2)) as (_ & _ & ?). Qed.

(** Node [i] of a leaf of nodes. *)
Lemma leaf_node p es i k v : wf 0 (Leaf p es) -> dupfixed = false -> es !! i = Some (k, v) ->
  exists node d, page_node p i = Some node /\ node_flags (page_body p) node = Some 0 /\ get_key (page_body p) node = Some k /\
  node_data (page_body p) node = Some d /\ node_ds (page_body p) node = Some (Z.of_nat (length v)) /\ bytes_at (page_body p) d (length v) = Some v.
Proof.
  clear Hinner. intros (_ & _ & He & _) Hd Hi. rewrite Hd in He. inversion He as [size items Hp Hleaf Hfl|]; subst.
  rewrite list_lookup_fmap in Hi. destruct (items !! i) as [it|] eqn:Ei; [|done]. injection Hi as <- <-.
  destruct (page_locate _ _ _ Hp i it Ei) as (A & e & B & Hb & (pad & -> & _) & _ & Hn).
  pose proof (proj1 (Forall_lookup _ _) (ph_items _ _ _ Hp) i it Ei) as Hok.
  pose proof (proj1 (Forall_lookup _ _) Hfl i it Ei) as Hf. simpl in Hf.
  destruct (read_data _ it Hok A B pad) as (d & Hd1 & Hd2). destruct (read_word _ it Hok A B pad) as [_ Hw].
  exists (length A), d. rewrite Hb. split_and!; try done.
  - rewrite read_flags. by rewrite Hf.
  - by eapply read_key.
  - rewrite Hw. destruct Hok as (_ & _ & _ & Hok). rewrite Hleaf, Hf in Hok. simpl in Hok. by rewrite Hok.
Qed.

Abbreviation read_node := (node_read txnid front_txnid first_unallocated ps read ps2ln).

Lemma leaf_node_read mc p es i k v node : wf 0 (Leaf p es) -> dupfixed = false -> es !! i = Some (k, v) -> page_node p i = Some node ->
  read_node mc node p = Some (MDBX_SUCCESS, v, mc).
Proof.
  clear Hinner. intros Hw Hd Hi Hn. destruct (leaf_node p es i k v Hw Hd Hi) as (node' & d & Hn' & Hf & _ & Hdata & Hds & Hv).
  rewrite Hn in Hn'. injection Hn' as <-. unfold node_read. rewrite Hf. cbn [mbind option_bind]. rewrite Hds. cbn [mbind option_bind].
  rewrite decide_True by done. rewrite Hdata. cbn [mbind option_bind]. rewrite Nat2Z.id, Hv. done.
Qed.

Lemma leaf_dupfix_key p es i k v : wf 0 (Leaf p es) -> dupfixed = true -> es !! i = Some (k, v) -> page_dupfix_key p i = Some k /\ v = [].
Proof.
  clear Hinner. intros (_ & _ & He & _) Hd Hi. rewrite Hd in He. inversion He as [|size n keys Hp]; subst.
  rewrite list_lookup_fmap in Hi. destruct (keys !! i) as [k'|] eqn:Ei; [|done]. injection Hi as <- <-. split; [by eapply dupfix_key|done].
Qed.

Lemma at_entry_lookup mc n : at_entry mc n -> exists p i st es A C k v, mc_stack mc = (p, Z.of_nat i) :: st /\ reach t st (Leaf p es) A C /\
  es !! i = Some (k, v) /\ n = (length A + i)%nat /\ flat t !! n = Some (k, v).
Proof.
  intros (p & i & st & es & A & C & Hst & Hr & Hi & ->). destruct (lookup_lt_is_Some_2 es i Hi) as [[k v] He].
  exists p, i, st, es, A, C, k, v. do 4 (split; [done|]). rewrite (reach_flat _ _ _ _ _ Hr).
  rewrite lookup_app_r by lia. replace (length A + i - length A)%nat with i by lia. simpl. by apply lookup_app_l_Some.
Qed.

(** What lands gives the entry. *)
Lemma bring_entry mc n key data eof : at_entry mc n -> (inner = true -> data = None) ->
  exists k v, flat t !! n = Some (k, v) /\ bring mc key data eof = Some (mk_got MDBX_SUCCESS (filled mc eof) (put key k) (put data v)).
Proof.
  intros Hat Hdata. destruct (at_entry_lookup _ _ Hat) as (p & i & st & es & A & C & k & v & Hst & Hr & He & Hn & Hf).
  exists k, v. split; [done|]. destruct (reach_leaf_wf _ _ _ _ _ Hr) as [Hw _]. destruct (leaf_dupfix _ _ Hw) as [Hdup Hty].
  unfold cursor_bring, top_ki. rewrite Hst. simpl. rewrite Hty, Hdup, Nat2Z.id. cbn [negb].
  assert (dupfixed = true \/ dupfixed = false) as [Hd|Hd] by (destruct (dupfixed); auto); rewrite Hd at 1.
  - rewrite (Hinner Hd) at 1. cbn [andb]. destruct (leaf_dupfix_key _ _ _ _ _ Hw Hd He) as [Hk Hv].
    rewrite Hk. cbn [mbind option_bind]. rewrite Hdata by (by apply Hinner). by destruct eof.
  - rewrite andb_false_r. destruct (leaf_node _ _ _ _ _ Hw Hd He) as (node & d & Hnode & Hfl & Hkey & _).
    rewrite Hnode. cbn [mbind option_bind]. rewrite Hfl. cbn [mbind option_bind]. change (Z.land 0 N_DUP) with 0.
    rewrite (bool_decide_false (0 <> 0)) by (intros H; by apply H). rewrite andb_false_r.
    destruct data as [dv|].
    + rewrite (leaf_node_read mc _ _ _ _ _ _ Hw Hd He Hnode). cbn [mbind option_bind].
      rewrite decide_False by (intros H; by apply H). rewrite Hkey. by destruct eof.
    + cbn [mbind option_bind]. rewrite decide_False by (intros H; by apply H). rewrite Hkey. by destruct eof.
Qed.

(** ** The search from the root *)

Abbreviation from_root := (search_from_root txnid front_txnid first_unallocated ps read checking kcmp page_touch).

Lemma tree_search_root mc key flags : cursor_ok mc -> exists k, search_tree mc key flags = from_root (with_stack mc [(tree_page t, k)]) key flags.
Proof.
  intros (Hr & Hb & Hs). unfold tree_search. rewrite decide_False by (rewrite Hb; intros H; by apply H). cbn [mbind option_bind]. rewrite (decide_False (P := MDBX_SUCCESS <> MDBX_SUCCESS)) by (intros H; by apply H).
  rewrite decide_False by (rewrite Hr; exact tab_valid). destruct Hs as [Hs|(p & k & st & es & A & C & Hs & Hreach)].
  - rewrite Hs. cbn [last]. unfold cursor_stack_page_get. rewrite Hr. rewrite decide_False by (destruct tab_root as (_ & ? & _); pose proof tab_range; lia).
    rewrite (page_get_readable _ _ _ _ _ mc _ _ _ tab_root). cbn [mbind option_bind]. rewrite if_ne_refl. by exists 0.
  - rewrite Hs. destruct (stack_bottom _ _ _ _ _ Hreach k) as [k' ->]. exists k'. by rewrite tab_pgno, Hr, decide_True.
Qed.

Lemma with_stack_twice mc a b : with_stack (with_stack mc a) b = with_stack mc b.
Proof. done. Qed.

Lemma search_edge mc key last_ : cursor_ok mc -> let flags := if last_ : bool then Z_LAST else Z_FIRST in
  exists st p es A C, search_tree mc key flags = Some (MDBX_SUCCESS, with_stack mc ((p, edge_ki last_ (Leaf p es)) :: st)) /\
  reach t st (Leaf p es) A C /\ if last_ then C = [] else A = [].
Proof.
  intros Hok flags. destruct tab_tree as (Hw & _ & Hh & _). destruct (tree_search_root mc key flags Hok) as [k ->].
  unfold search_from_root. cbn [mc_stack with_stack].
  assert ((if decide (Z.land flags Z_LAST <> 0) then u16 (Z.of_nat (page_numkeys (tree_page t)) - 1) else 0) = edge_ki last_ t) as ->.
  { unfold flags. destruct last_; [|done]. rewrite decide_True by done. by eapply edge_ki_u16. }
  unfold touch_if. rewrite decide_False by (unfold flags; destruct last_; intros H; by apply H). cbn [mbind option_bind].
  rewrite decide_False by (intros H; by apply H). rewrite decide_False by (unfold flags; destruct last_; intros H; by apply H).
  rewrite decide_True by (unfold flags; by destruct last_). unfold set_ki. cbn [mc_stack with_stack].
  destruct (deepen_spec txnid front_txnid first_unallocated ps read checking dupfixed page_touch t last_ flags)
    with (h := ht) (c := t) (fuel := Z.to_nat CURSOR_STACK_SIZE) (st := @nil (page_t * Z)) (A := @nil entry_t) (C := @nil entry_t)
    (mc := with_stack mc [(tree_page t, edge_ki last_ t)]) as (st' & p & es & A' & C' & E & Hr' & Hw' & HA).
  - unfold flags. by destruct last_.
  - unfold flags. by destruct last_.
  - done.
  - change (Z.to_nat CURSOR_STACK_SIZE) with 32%nat. lia.
  - simpl. lia.
  - constructor.
  - done.
  - exists st', p, es, A', C'. split; [exact E|]. by destruct last_.
Qed.

Lemma search_key mc key flags : cursor_ok mc -> flags = 0 -> P key ->
  exists st p es A C, search_tree mc key flags = Some (MDBX_SUCCESS, with_stack mc ((p, 0) :: st)) /\
  reach t st (Leaf p es) A C /\ brackets (ord := ord) A C key.
Proof.
  intros Hok -> Hkey. destruct tab_tree as (Hw & Hsep & Hh & HPt & _). destruct (tree_search_root mc key 0 Hok) as [k ->].
  unfold search_from_root. cbn [mc_stack with_stack]. rewrite decide_False by (intros H; by apply H).
  unfold touch_if. rewrite decide_False by (intros H; by apply H). cbn [mbind option_bind].
  rewrite decide_False by (intros H; by apply H). rewrite decide_False by (intros H; by apply H).
  rewrite decide_False by (intros H; by apply H). unfold set_ki. cbn [mc_stack with_stack].
  destruct (search_loop_spec txnid front_txnid first_unallocated ps read checking dupfixed page_touch t key 0 eq_refl Hkey HPt)
    with (h := ht) (c := t) (fuel := Z.to_nat CURSOR_STACK_SIZE) (st := @nil (page_t * Z)) (A := @nil entry_t) (C := @nil entry_t)
    (mc := with_stack mc [(tree_page t, 0)]) (k := 0) as (st' & p & es & A' & C' & E & Hr' & Hw' & HA).
  - done.
  - done.
  - change (Z.to_nat CURSOR_STACK_SIZE) with 32%nat. lia.
  - simpl. lia.
  - constructor.
  - split; intros k' H; by apply elem_of_nil in H.
  - done.
  - done.
  - exists st', p, es, A', C'. done.
Qed.

(** ** First and last *)

Lemma flat_nonempty : flat t <> [].
Proof. destruct tab_tree as (Hw & _). by eapply wf_flat. Qed.

Lemma edge_at_entry last_ mc st p es A C : mc_stack mc = (p, edge_ki last_ (Leaf p es)) :: st -> reach t st (Leaf p es) A C ->
  at_entry mc (if last_ : bool then length A + length es - 1 else length A)%nat.
Proof.
  intros Hst Hr. destruct (reach_leaf_wf _ _ _ _ _ Hr) as [Hw _]. destruct (wf_width _ _ _ _ _ _ _ 0 _ Hw) as (_ & H1 & _). simpl in H1.
  exists p, (if last_ then length es - 1 else 0)%nat, st, es, A, C. unfold edge_ki in Hst. simpl in Hst.
  split; [rewrite Hst; do 2 f_equal; destruct last_; lia|]. split; [done|]. destruct last_; lia.
Qed.

Definition last_entry : nat := (length (flat t) - 1)%nat.

Lemma brim_entry (first_ : bool) mc key data : cursor_ok mc -> (inner = true -> data = None) ->
  exists mc' k v, cursor_brim txnid front_txnid first_unallocated ps read checking kcmp root_txnid None page_touch ps2ln inner first_ mc key data =
  Some (mk_got MDBX_SUCCESS (filled mc' (negb first_)) (put key k) (put data v)) /\
  (mc_flags mc', mc_root mc', mc_txn_flags mc') = (mc_flags mc, mc_root mc, mc_txn_flags mc) /\
  at_entry mc' (if first_ then 0 else last_entry)%nat /\ flat t !! (if first_ then 0 else last_entry)%nat = Some (k, v).
Proof.
  intros Hok Hdata.
  assert (exists st p es A C k, (if decide (length (mc_stack mc) <> 1%nat) then search_tree mc [] (if first_ then Z_FIRST else Z_LAST) else Some (MDBX_SUCCESS, mc)) =
    Some (MDBX_SUCCESS, with_stack mc ((p, k) :: st)) /\ reach t st (Leaf p es) A C /\ if first_ then A = [] else C = []) as (st & p & es & A & C & k & E & Hr & Hedge).
  { case_decide as Hlen.
    - destruct (search_edge mc [] (negb first_) Hok) as (st & p & es & A & C & E & Hr & HA). exists st, p, es, A, C, (edge_ki (negb first_) (Leaf p es)).
      destruct first_; done.
    - destruct Hok as (_ & _ & Hs). destruct Hs as [Hs|(p & k & st & es & A & C & Hs & Hr)]; [by rewrite Hs in Hlen|].
      rewrite Hs in Hlen. destruct st; [|simpl in Hlen; lia]. exists [], p, es, A, C, k. rewrite <- Hs.
      split; [by destruct mc|]. split; [done|]. inversion Hr; subst. by destruct first_. }
  unfold cursor_brim. rewrite E. cbn [mbind option_bind]. rewrite decide_False by (intros H; by apply H).
  cbn [top_ki head mc_stack with_stack mbind option_bind].
  destruct (reach_leaf_wf _ _ _ _ _ Hr) as [Hw _].
  set (mc' := set_ki (with_stack mc ((p, k) :: st)) (if first_ then 0 else u16 (Z.of_nat (page_numkeys p) - 1))).
  assert (mc_stack mc' = (p, edge_ki (negb first_) (Leaf p es)) :: st) as Hst.
  { unfold mc', set_ki. simpl. do 2 f_equal. destruct first_; [done|]. exact (edge_ki_u16 _ _ _ _ _ _ _ 0 (Leaf p es) Hw). }
  assert (at_entry mc' (if first_ then 0 else last_entry)%nat) as Hat.
  { pose proof (edge_at_entry (negb first_) mc' st p es A C Hst Hr) as H. replace (if first_ then 0 else last_entry)%nat
      with (if negb first_ then length A + length es - 1 else length A)%nat; [exact H|]. unfold last_entry.
    rewrite (reach_flat _ _ _ _ _ Hr), !length_app. destruct first_; subst; simpl; lia. }
  destruct (bring_entry mc' _ key data (negb first_) Hat Hdata) as (kk & v & Hf & Hb).
  exists mc', kk, v. rewrite Hb. done.
Qed.
End facts.
