(* ===== verification/CursorSteps.v ===== *)
(** * The steps of a cursor

    The places where a cursor can stand over the list of the entries, the movements
    between them, and that [cursor_brim] and [cursor_step] are these movements. *)

From S2P Require Import Prelude Meta Cmp CmpProps Dpl Page PageFacts PageOps Foliage FoliageFacts FoliageProps FoliageDispatch.
From S2P Require Import Cursor CursorTree CursorOps CursorFacts.

(** ** Places

    [On n soft hard] is at entry [n], [soft] and [hard] are the marks of the end
    of the data; with a mark [n] can be the number of the entries. *)
Inductive place := Fresh | Unset | Hollow | On (n : nat) (soft hard : bool).

(** What a movement gives: the code, the new place, the entry. *)
Abbreviation moved := (Z * place * option entry_t)%type.

Section movements.
Context (L : list entry_t).

Definition move_first : moved := (MDBX_SUCCESS, On 0 false false, L !! 0%nat).
Definition move_last : moved := (MDBX_SUCCESS, On (length L - 1) true false, L !! (length L - 1)%nat).

Definition move_step (forward : bool) (pl : place) : moved :=
  match pl with
  | Fresh => if forward then move_first else move_last
  | Unset | Hollow => (MDBX_ENODATA, pl, None)
  | On n soft hard =>
      if forward then
        if soft then (MDBX_NOTFOUND, pl, None)
        else if decide (S n < length L)%nat then (MDBX_SUCCESS, On (S n) false false, L !! S n)
        else (MDBX_NOTFOUND, On (length L - 1) true true, None)
      else if hard then (MDBX_SUCCESS, On (length L - 1) false false, L !! (length L - 1)%nat)
      else if decide (0 < n)%nat then (MDBX_SUCCESS, On (n - 1) false false, L !! (n - 1)%nat)
      else (MDBX_NOTFOUND, On 0 soft false, None)
  end.

(** Among the duplicates of the key, when there are none. *)
Definition move_dup (forward : bool) (pl : place) : moved :=
  match pl with
  | On n soft hard => (MDBX_NOTFOUND, pl, None)
  | _ => move_step forward pl
  end.
End movements.

(** ** Flags *)

Definition eof_bits (soft hard : bool) : Z := (if soft then z_eof_soft else 0) + (if hard then z_eof_hard else 0).

Lemma low_flags b : 0 <= b < 4 -> b = 0 \/ b = 1 \/ b = 2 \/ b = 3.
Proof. lia. Qed.

Ltac low_cases b soft hard := destruct (low_flags b) as [->|[->|[->| ->]]]; [assumption|destruct soft, hard; done..].

Lemma eof_state b soft hard : 0 <= b < 4 ->
  Z.land (b + eof_bits soft hard) (Z.lor z_after_delete (Z.lor z_hollow (Z.lor z_eof_hard z_eof_soft))) = eof_bits soft hard.
Proof. intros Hb. low_cases b soft hard. Qed.

Lemma eof_clear b soft hard : 0 <= b < 4 -> Z.land (b + eof_bits soft hard) z_clear_mask = b.
Proof. intros Hb. low_cases b soft hard. Qed.

Lemma eof_not_hollow b soft hard : 0 <= b < 4 -> Z.land (b + eof_bits soft hard) z_hollow = 0.
Proof. intros Hb. low_cases b soft hard. Qed.

Lemma eof_drop_hard b soft hard : 0 <= b < 4 -> Z.ldiff (b + eof_bits soft hard) z_eof_hard = b + eof_bits soft false.
Proof. intros Hb. low_cases b soft hard. Qed.

Lemma eof_both b soft hard : 0 <= b < 4 -> eof_flags (b + eof_bits soft hard) = b + eof_bits true true.
Proof. intros Hb. low_cases b soft hard. Qed.

Lemma low_eof b : 0 <= b < 4 -> Z.lor b z_eof_soft = b + eof_bits true false.
Proof. intros Hb. destruct (low_flags b Hb) as [->|[->|[->| ->]]]; done. Qed.

Lemma clear_low fl : 0 <= Z.land fl z_clear_mask < 4.
Proof.
  change z_clear_mask with (Z.ones 2). rewrite Z.land_ones by lia. apply Z.mod_pos_bound. lia.
Qed.

Lemma byte_forall (f : Z -> bool) lo hi : 0 <= lo -> forallb f (map Z.of_nat (seq (Z.to_nat lo) (Z.to_nat (hi - lo)))) = true ->
  forall x, lo <= x < hi -> f x = true.
Proof.
  intros Hlo H x Hx. rewrite forallb_forall in H. apply H. apply in_map_iff. exists (Z.to_nat x). split; [lia|]. apply in_seq. lia.
Qed.

Lemma hollow_bit fl : 128 <= fl < 256 -> Z.land fl z_hollow = z_hollow /\ 128 <= Z.ldiff fl z_eof_hard < 256 /\ 128 <= Z.lor fl z_hollow < 256.
Proof.
  intros H. pose proof (byte_forall (fun fl => (Z.land fl z_hollow =? z_hollow) && (128 <=? Z.ldiff fl z_eof_hard) && (Z.ldiff fl z_eof_hard <? 256)
    && (128 <=? Z.lor fl z_hollow) && (Z.lor fl z_hollow <? 256)) 128 256 ltac:(lia) ltac:(vm_compute; reflexivity) fl H) as E. simpl in E. lia.
Qed.

Lemma hollow_state fl : 128 <= fl < 256 -> Z.land fl (Z.lor z_after_delete (Z.lor z_hollow (Z.lor z_eof_hard z_eof_soft))) <> 0.
Proof.
  intros H. pose proof (byte_forall (fun fl => negb (Z.land fl (Z.lor z_after_delete (Z.lor z_hollow (Z.lor z_eof_hard z_eof_soft))) =? 0))
    128 256 ltac:(lia) ltac:(vm_compute; reflexivity) fl H) as E. simpl in E. lia.
Qed.

(** ** Where a cursor stands *)

Section steps.
Context {txnid front_txnid first_unallocated ps : Z} {read : Z -> Z + page_t} {checking : Z} {dupfixed : bool}.
Context {P : list Z -> Prop} {ord : list Z -> list Z -> comparison} {kcmp : comparator} {Hord : KeyOrder P ord kcmp}.
Context {root_txnid : Z} {page_touch : cursor -> option (Z * cursor)} {ps2ln : Z} {inner : bool}.
Context {t : tree} {ht : nat} {root : Z}.
Context {Htab : TableOk txnid front_txnid first_unallocated ps read checking dupfixed P ord root_txnid t ht root}.
Context (Hinner : dupfixed = true -> inner = true).

Abbreviation bring := (cursor_bring txnid front_txnid first_unallocated ps read checking ps2ln inner).
Abbreviation brim := (cursor_brim txnid front_txnid first_unallocated ps read checking kcmp root_txnid None page_touch ps2ln inner).
Abbreviation step := (cursor_step txnid front_txnid first_unallocated ps read checking kcmp root_txnid None page_touch ps2ln inner).
Abbreviation steps := (step_move txnid front_txnid first_unallocated ps read checking ps2ln inner).
Abbreviation sibling := (cursor_sibling txnid front_txnid first_unallocated ps read).
Abbreviation cursor_ok := (cursor_ok (t := t) (root := root)).
Abbreviation at_entry := (at_entry (t := t)).

(** As [at_entry], or in the last leaf on its last entry or behind it. *)
Definition at_place (mc : cursor) (n : nat) (soft : bool) : Prop :=
  exists p i st es A C, mc_stack mc = (p, Z.of_nat i) :: st /\ reach t st (Leaf p es) A C /\ (i <= length es)%nat /\ n = (length A + i)%nat /\
  if soft then C = [] /\ (length es <= S i)%nat else (i < length es)%nat.

Definition stands (mc : cursor) (pl : place) : Prop :=
  match pl with
  | Fresh => mc_stack mc = [] /\ 128 <= mc_flags mc < 256 /\ Z.land (mc_flags mc) z_fresh <> 0
  | Unset => mc_stack mc = [] /\ 128 <= mc_flags mc < 256 /\ Z.land (mc_flags mc) z_fresh = 0 /\ Z.land (mc_flags mc) z_after_delete = 0
  | Hollow => mc_stack mc <> [] /\ 128 <= mc_flags mc < 256
  | On n soft hard => (hard = true -> soft = true) /\ at_place mc n soft /\ exists b, 0 <= b < 4 /\ mc_flags mc = b + eof_bits soft hard
  end.

Lemma place_entry mc n : at_place mc n false <-> at_entry mc n.
Proof.
  clear page_touch. split; intros (p & i & st & es & A & C & Hst & Hr & H).
  - destruct H as (_ & Hn & Hi). exists p, i, st, es, A, C. done.
  - destruct H as (Hi & Hn). exists p, i, st, es, A, C. split; [done|]. split; [done|]. split; [lia|]. done.
Qed.

Lemma place_ok mc n soft : at_place mc n soft -> stack_ok (t := t) (mc_stack mc).
Proof. intros (p & i & st & es & A & C & Hst & Hr & _). right. exists p, (Z.of_nat i), st, es, A, C. done. Qed.

Lemma last_place mc : at_entry mc (last_entry (t := t)) -> at_place mc (last_entry (t := t)) true.
Proof.
  intros (p & i & st & es & A & C & Hst & Hr & Hi & Hn). exists p, i, st, es, A, C. split; [done|]. split; [done|]. split; [lia|]. split; [done|].
  unfold last_entry in Hn. rewrite (reach_flat _ _ _ _ _ Hr), !length_app in Hn. simpl in Hn. split; [apply nil_length_inv; lia|lia].
Qed.

(** What an operation leaves outside of the place. *)
Definition keeps (mc mc' : cursor) : Prop := mc_root mc' = mc_root mc /\ mc_txn_flags mc' = mc_txn_flags mc.

(** An answer: code, place and entry are as said. *)
Definition answers (r : option got) (mc : cursor) (key data : option (list Z)) (m : moved) : Prop :=
  let '(rc, pl, e) := m in
  exists mc', keeps mc mc' /\ stands mc' pl /\ cursor_ok mc' /\
  r = Some (mk_got rc mc' (if e is Some (k, _) then put key k else key) (if e is Some (_, v) then put data v else data)).

Lemma keeps_ok mc mc' : cursor_ok mc -> keeps mc mc' -> stack_ok (t := t) (mc_stack mc') -> cursor_ok mc'.
Proof. intros (H1 & H2 & _) (H3 & H4) H5. split; [congruence|]. split; [congruence|done]. Qed.

Lemma filled_stands mc n eof : at_entry mc n -> (eof = true -> n = last_entry (t := t)) -> stands (filled mc eof) (On n eof false).
Proof.
  intros Hat Hl. split; [done|]. split.
  - destruct eof; [|by apply place_entry]. specialize (Hl eq_refl) as ->. by apply last_place.
  - exists (Z.land (mc_flags mc) z_clear_mask). split; [apply clear_low|]. unfold filled, be_filled. destruct eof; simpl.
    + by apply low_eof, clear_low.
    + unfold eof_bits. simpl. lia.
Qed.

Lemma bring_answers mc mc0 n key data eof : cursor_ok mc0 -> keeps mc0 mc -> at_entry mc n -> (eof = true -> n = last_entry (t := t)) -> (inner = true -> data = None) ->
  answers (bring mc key data eof) mc0 key data (MDBX_SUCCESS, On n eof false, flat t !! n).
Proof.
  intros Hok Hk Hat Hl Hd. destruct (bring_entry (ps2ln := ps2ln) Hinner mc n key data eof Hat Hd) as (k & v & Hf & ->). rewrite Hf.
  exists (filled mc eof). assert (keeps mc0 (filled mc eof)) as Hk' by (destruct Hk; by destruct eof).
  split; [done|]. split; [by apply filled_stands|]. split; [|done]. apply (keeps_ok mc0); [done|done|].
  replace (mc_stack (filled mc eof)) with (mc_stack mc) by (by destruct eof). eapply place_ok. by apply place_entry.
Qed.
Lemma brim_answers (first_ : bool) mc key data : cursor_ok mc -> (inner = true -> data = None) ->
  answers (brim first_ mc key data) mc key data (if first_ then move_first (flat t) else move_last (flat t)).
Proof.
  intros Hok Hd. destruct (brim_entry (page_touch := page_touch) (ps2ln := ps2ln) (kcmp := kcmp) Hinner first_ mc key data Hok Hd) as (mc' & k & v & -> & E & Hat & Hf).
  injection E as Hfl Hr Htx. assert (answers (Some (mk_got MDBX_SUCCESS (filled mc' (negb first_)) (put key k) (put data v))) mc key data
    (MDBX_SUCCESS, On (if first_ then 0 else last_entry (t := t)) (negb first_) false, flat t !! (if first_ then 0 else last_entry (t := t))%nat)) as H.
  - rewrite Hf. exists (filled mc' (negb first_)). assert (keeps mc (filled mc' (negb first_))) as Hk' by (split; by destruct first_).
    split; [done|]. split; [apply filled_stands; [done|]; by destruct first_|]. split; [|done]. apply (keeps_ok mc); [done|done|].
    replace (mc_stack (filled mc' (negb first_))) with (mc_stack mc') by (by destruct first_). eapply place_ok. by apply place_entry.
  - by destruct first_.
Qed.

(** ** Movements *)

Lemma sibling_leaf right_ mc p k st es A C : mc_stack mc = (p, k) :: st -> reach t st (Leaf p es) A C ->
  (no_neighbour right_ A C -> sibling right_ (mc_stack mc) mc = Some (MDBX_NOTFOUND, at_edge right_ mc ((p, edge_ki right_ (Leaf p es)) :: st))) /\
  (~ no_neighbour right_ A C -> exists st' p' es' A' C',
    sibling right_ (mc_stack mc) mc = Some (MDBX_SUCCESS, with_stack mc ((p', edge_ki (negb right_) (Leaf p' es')) :: st')) /\
    reach t st' (Leaf p' es') A' C' /\ if right_ then A' = A ++ es else C' = es ++ C).
Proof.
  intros Hst Hr. destruct tab_tree as (Hw & _ & Hh & _). destruct (reach_leaf_wf _ _ _ _ _ Hr) as [_ Hl].
  destruct (sibling_spec _ _ _ _ _ _ _ t ht right_ Hw Hh _ _ _ _ Hr 0 k mc Hl) as [H1 H2]. cbn [tree_page flat] in H1, H2. rewrite Hst. split; [exact H1|].
  intros Hno. destruct (H2 Hno) as (st' & c & A' & C' & E & Hr' & Hlen & HA).
  destruct (reach_wf _ _ _ _ _ _ _ _ _ _ _ _ _ Hr' Hw) as (h & Hwc & Hh'). destruct h; [|lia]. destruct c as [p' es'|]; [|done].
  exists st', p', es', A', C'. done.
Qed.

Lemma sibling_entry right_ mc p k st es A C : mc_stack mc = (p, k) :: st -> reach t st (Leaf p es) A C -> ~ no_neighbour right_ A C ->
  exists mc', sibling right_ (mc_stack mc) mc = Some (MDBX_SUCCESS, mc') /\ keeps mc mc' /\ at_entry mc' (if right_ then length A + length es else length A - 1)%nat.
Proof.
  intros Hst Hr Hno. destruct (sibling_leaf right_ mc p k st es A C Hst Hr) as [_ H]. destruct (H Hno) as (st' & p' & es' & A' & C' & E & Hr' & HA).
  eexists. split; [exact E|]. split; [done|]. pose proof (edge_at_entry (negb right_) (with_stack mc ((p', edge_ki (negb right_) (Leaf p' es')) :: st')) st' p' es' A' C' eq_refl Hr') as Hat.
  replace (if right_ then length A + length es else length A - 1)%nat with (if negb right_ then length A' + length es' - 1 else length A')%nat; [exact Hat|].
  pose proof (f_equal length (reach_flat _ _ _ _ _ Hr)) as L1. rewrite (reach_flat _ _ _ _ _ Hr'), !length_app in L1. simpl in L1.
  destruct right_; subst; rewrite ?length_app in *; simpl; lia.
Qed.

(** Behind the last entry and before the first one. *)
Lemma edge_stands right_ mc p k st es A C n soft hard : stands mc (On n soft hard) -> mc_stack mc = (p, k) :: st -> reach t st (Leaf p es) A C ->
  no_neighbour right_ A C -> (right_ = false -> hard = false) -> (soft = true -> right_ = false -> n = 0%nat) ->
  stands (at_edge right_ mc ((p, edge_ki right_ (Leaf p es)) :: st)) (if right_ then On (last_entry (t := t)) true true else On 0 soft false).
Proof.
  intros (Hhs & (p0 & i & st0 & es0 & A0 & C0 & Hst0 & Hr0 & Hi & Hn & Hs) & b & Hb & Hfl) Hst Hr Hno Hhard Hsoft.
  pose proof (edge_at_entry right_ (at_edge right_ mc ((p, edge_ki right_ (Leaf p es)) :: st)) st p es A C eq_refl Hr) as Hat.
  assert (length (flat t) = length A + length es + length C)%nat as HL by (rewrite (reach_flat _ _ _ _ _ Hr), !length_app; simpl; lia).
  destruct right_; simpl in Hno; subst.
  - split; [done|]. split; [apply last_place; unfold last_entry; rewrite HL; simpl; by rewrite Nat.add_0_r|].
    exists b. split; [done|]. simpl. rewrite Hfl. by apply eof_both.
  - split; [intros E; specialize (Hhard eq_refl); congruence|]. split; [|exists b; split; [done|]; simpl; rewrite Hfl, (Hhard eq_refl); done].
    destruct soft; [|by apply place_entry].
    specialize (Hsoft eq_refl eq_refl). rewrite Hst in Hst0. injection Hst0 as <- _ <-.
    destruct (reach_leaf_wf _ _ _ _ _ Hr) as [Hw _]. destruct (reach_leaf_wf _ _ _ _ _ Hr0) as [Hw0 _].
    destruct (wf_width _ _ _ _ _ _ _ 0 _ Hw) as (E & W & _), (wf_width _ _ _ _ _ _ _ 0 _ Hw0) as (E0 & W0 & _). simpl in E, E0, W, W0.
    destruct Hs as [-> Hs]. exists p, 0%nat, st, es0, A0, [].
    split; [done|]. split; [done|]. split; [lia|]. split; [lia|]. split; [done|lia].
Qed.
Lemma leaf_bounds st p es A C : reach t st (Leaf p es) A C ->
  length (flat t) = (length A + length es + length C)%nat /\ page_numkeys p = length es /\ (1 <= length es)%nat /\ Z.of_nat (length es) < 2 ^ 15.
Proof.
  intros Hr. destruct (reach_leaf_wf _ _ _ _ _ Hr) as [Hw _]. destruct (wf_width _ _ _ _ _ _ _ 0 _ Hw) as (E & W & Hm). simpl in E, W, Hm.
  split; [rewrite (reach_flat _ _ _ _ _ Hr), !length_app; simpl; lia|]. split; [done|]. split; [done|]. exact Hm.
Qed.

(** To another entry of the leaf. *)
Lemma step_inside mc mc0 p k st es A C i key data : cursor_ok mc0 -> keeps mc0 mc -> mc_stack mc = (p, k) :: st -> reach t st (Leaf p es) A C ->
  (i < length es)%nat -> (inner = true -> data = None) ->
  answers (bring (set_ki mc (u16 (Z.of_nat i))) key data false) mc0 key data (MDBX_SUCCESS, On (length A + i) false false, flat t !! (length A + i)%nat).
Proof.
  intros Hok Hk Hst Hr Hi Hd. destruct (leaf_bounds _ _ _ _ _ Hr) as (_ & _ & _ & Hm).
  apply bring_answers; [done| | |done|done].
  - unfold set_ki. by rewrite Hst.
  - exists p, i, st, es, A, C. unfold set_ki. rewrite Hst. simpl. unfold u16. rewrite Z.mod_small by lia. done.
Qed.

(** To the neighbour leaf, which there is or not. *)
Lemma step_outside (forward : bool) mc p k st es A C n soft hard key data :
  cursor_ok mc -> stands mc (On n soft hard) -> mc_stack mc = (p, k) :: st -> reach t st (Leaf p es) A C ->
  (forward = false -> hard = false) -> (soft = true -> forward = false -> n = 0%nat \/ A <> []) -> (inner = true -> data = None) ->
  let r := '(err, mc) ← sibling forward (mc_stack mc) mc;
  if decide (err <> MDBX_SUCCESS) then Some (mk_got err mc key data) else bring mc key data false in
  (no_neighbour forward A C ->
    answers r mc key data (if forward then (MDBX_NOTFOUND, On (length (flat t) - 1) true true, None) else (MDBX_NOTFOUND, On 0 soft false, None))) /\
  (~ no_neighbour forward A C -> let m := (if forward then length A + length es else length A - 1)%nat in
    answers r mc key data (MDBX_SUCCESS, On m false false, flat t !! m)).
Proof.
  intros Hok Hs Hst Hr Hhard Hsoft Hd r. split; intros Hno; unfold r.
  - destruct (sibling_leaf forward mc p k st es A C Hst Hr) as [H _]. rewrite (H Hno). cbn [mbind option_bind].
    rewrite (decide_True (P := MDBX_NOTFOUND <> MDBX_SUCCESS)) by done.
    assert (stands (at_edge forward mc ((p, edge_ki forward (Leaf p es)) :: st)) (if forward then On (last_entry (t := t)) true true else On 0 soft false)) as Hst'.
    { apply (edge_stands forward mc p k st es A C n soft hard Hs Hst Hr Hno Hhard). intros E1 E2. destruct (Hsoft E1 E2) as [?|HA]; [done|].
      rewrite E2 in Hno. done. }
    assert (cursor_ok (at_edge forward mc ((p, edge_ki forward (Leaf p es)) :: st))) as Hok'.
    { apply (keeps_ok mc); [done|done|]. right. eexists _, _, _, _, _, _. split; [done|exact Hr]. }
    destruct forward; eexists; (split; [|split; [exact Hst'|split; [exact Hok'|done]]]); done.
  - destruct (sibling_entry forward mc p k st es A C Hst Hr Hno) as (mc' & E & Hk & Hat). rewrite E. cbn [mbind option_bind]. rewrite if_ne_refl.
    by apply bring_answers.
Qed.

Lemma step_move_answers (forward : bool) mc p k st n soft hard key data :
  cursor_ok mc -> stands mc (On n soft hard) -> mc_stack mc = (p, k) :: st ->
  (if forward then soft = false else hard = false) -> (inner = true -> data = None) ->
  answers (steps forward mc key data k (Z.of_nat (page_numkeys p))) mc key data (move_step (flat t) forward (On n soft hard)).
Proof.
  intros Hok Hs Hst Hmark Hd. pose proof Hs as (_ & (q & i & st' & es & A & C & Hst' & Hr & Hi & Hn & Hp) & _).
  rewrite Hst in Hst'. injection Hst' as <- -> <-. destruct (leaf_bounds _ _ _ _ _ Hr) as (HL & -> & Hw & Hm).
  unfold step_move. destruct forward; simpl.
  - rewrite Hmark in Hp. rewrite Hmark. case_bool_decide as Hlt.
    + rewrite decide_True by lia. replace (S n) with (length A + S i)%nat by lia. replace (Z.of_nat i + 1) with (Z.of_nat (S i)) by lia.
      apply (step_inside mc mc p (Z.of_nat i) st es A C); [done|done|done|done|lia|done].
    + destruct (step_outside true mc _ _ _ _ _ _ n soft hard key data Hok Hs Hst Hr) as [H1 H2]; [done|done|done|].
      unfold no_neighbour in H1, H2. destruct C as [|c C].
      * rewrite decide_False by (simpl in HL; lia). by apply H1.
      * rewrite decide_True by (simpl in HL; lia). replace (S n) with (length A + length es)%nat by lia. by apply H2.
  - rewrite Hmark. case_bool_decide as Hge.
    + rewrite decide_True by lia. replace (n - 1)%nat with (length A + (i - 1))%nat by lia. replace (Z.of_nat i - 1) with (Z.of_nat (i - 1)) by lia.
      apply (step_inside mc mc p (Z.of_nat i) st es A C); [done|done|done|done|lia|done].
    + destruct (step_outside false mc _ _ _ _ _ _ n soft hard key data Hok Hs Hst Hr) as [H1 H2]; [done| |done|].
      { intros _ _. destruct A; [left; simpl in Hn; lia|by right]. }
      unfold no_neighbour in H1, H2. destruct A as [|a A].
      * rewrite decide_False by (simpl in Hn; lia). by apply H1.
      * rewrite decide_True by (simpl in Hn; lia). replace (n - 1)%nat with (length (a :: A) - 1)%nat by lia. by apply H2.
Qed.

(** ** [cursor_step] *)

Lemma refused mc pl rc key data : cursor_ok mc -> stands mc pl -> answers (Some (mk_got rc mc key data)) mc key data (rc, pl, None).
Proof. intros Hok Hs. by exists mc. Qed.

Lemma step_poor (forward : bool) mc pl key data op : cursor_ok mc -> stands mc pl -> mc_stack mc = [] -> (inner = true -> data = None) ->
  answers (step forward mc key data op) mc key data (move_step (flat t) forward pl).
Proof.
  intros Hok Hs Hst Hd. unfold cursor_step, top_ki. rewrite Hst. cbn [head]. destruct pl as [| | |n soft hard].
  - destruct Hs as (_ & _ & Hf). rewrite decide_True by done. pose proof (brim_answers forward mc key data Hok Hd) as H. by destruct forward.
  - destruct Hs as (_ & _ & Hf & Ha). rewrite Hf, Ha, !if_ne_refl. eexists. split; [|split; [|split; [|done]]]; [done| |].
    + split; [exact Hst|]. by destruct inner.
    + destruct Hok as (H1 & H2 & H3). split; [done|]. split; [done|]. rewrite Hst in H3. simpl. by rewrite Hst.
  - by destruct Hs.
  - destruct Hs as (_ & (p & i & st & es & A & C & Hst' & _) & _). by rewrite Hst in Hst'.
Qed.

Lemma step_answers (forward : bool) mc pl key data op : cursor_ok mc -> stands mc pl -> (inner = true -> data = None) ->
  answers (step forward mc key data op) mc key data
  ((if negb inner && bool_decide (op = if forward then MDBX_NEXT_DUP else MDBX_PREV_DUP) then move_dup else move_step) (flat t) forward pl).
Proof.
  intros Hok Hs Hd. set (dup := negb inner && bool_decide (op = if forward then MDBX_NEXT_DUP else MDBX_PREV_DUP)).
  destruct (mc_stack mc) as [|[p k] st] eqn:Hst.
  { replace ((if dup then move_dup else move_step) (flat t) forward pl) with (move_step (flat t) forward pl); [by apply step_poor|].
    destruct pl; try (by destruct dup). destruct Hs as (_ & (q & i & st & es & A & C & Hst' & _) & _). by rewrite Hst in Hst'. }
  unfold cursor_step, top_ki. rewrite Hst. cbn [head]. fold dup. destruct pl as [| | |n soft hard].
  - destruct Hs as [Hs _]. by rewrite Hst in Hs.
  - destruct Hs as [Hs _]. by rewrite Hst in Hs.
  - destruct Hs as [_ Hs]. rewrite decide_False by (by apply hollow_state). unfold is_hollow. destruct (hollow_bit _ Hs) as [-> _].
    rewrite bool_decide_true by done. replace ((if dup then move_dup else move_step) (flat t) forward Hollow) with (MDBX_ENODATA, Hollow, @None entry_t) by (by destruct dup).
    apply refused; [done|]. split; [congruence|done].
  - pose proof Hs as (Hhs & Hpl & b & Hb & Hfl). unfold is_hollow. rewrite Hfl, eof_state, eof_not_hollow by done. rewrite (bool_decide_false (0 <> 0)) by (intros H; by apply H).
    assert (dup = true \/ dup = false) as [Hdup|Hdup] by (destruct dup; auto); rewrite Hdup.
    { replace (if decide (eof_bits soft hard = 0) then _ else _) with (Some (mk_got MDBX_NOTFOUND mc key data)) by (by case_decide). by apply refused. }
    destruct soft, hard; try (by specialize (Hhs eq_refl)); destruct forward; try (by apply refused);
      try exact (step_move_answers true mc p k st n _ _ key data Hok Hs Hst eq_refl Hd); try exact (step_move_answers false mc p k st n _ _ key data Hok Hs Hst eq_refl Hd).
    destruct Hpl as (q & i & st' & es & A & C & Hst' & Hr & _ & _ & HC & _). rewrite Hst in Hst'. injection Hst' as <- -> <-.
    destruct (leaf_bounds _ _ _ _ _ Hr) as (HL & -> & Hw & _). subst C. simpl in HL. cbn [move_step].
    replace (length (flat t) - 1)%nat with (length A + (length es - 1))%nat by lia. replace (Z.of_nat (length es) - 1) with (Z.of_nat (length es - 1)) by lia.
    apply (step_inside mc mc p (Z.of_nat i) st es A []); [done|done|done|done|lia|done].
Qed.
End steps.
