(* ===== verification/CursorSeek.v ===== *)
(** * The search of a cursor

    [cursor_seek] ends at the lower bound of the key among all keys, on each of
    its ways: through the page at hand or from the root. *)

From S2P Require Import Prelude Meta Cmp CmpProps Dpl Page PageFacts PageOps Foliage FoliageFacts FoliageProps FoliageDispatch.
From S2P Require Import Cursor CursorTree CursorOps CursorFacts CursorSteps.

(** What a search among the entries gives: whether the key is there, and the
    movement.  [behind] is where the mark of the end is put. *)
Definition move_seek {ord : list Z -> list Z -> comparison} (L : list entry_t) (wanted : list Z) (op : MDBX_cursor_op) (behind : bool) : bool * moved :=
  let n := lower_bound (ord := ord) L.*1 wanted in
  if decide (wanted ∈ L.*1) then (true, (MDBX_SUCCESS, On n false false, L !! n))
  else (false,
    if decide (op_number op < 17) then (MDBX_NOTFOUND, Hollow, None)
    else if decide (n < length L)%nat then (MDBX_SUCCESS, On n false false, L !! n)
    else (MDBX_NOTFOUND, On (if behind then length L else length L - 1) true true, None)).

Section seek.
Context {txnid front_txnid first_unallocated ps : Z} {read : Z -> Z + page_t} {checking : Z} {dupfixed : bool}.
Context {P : list Z -> Prop} {ord : list Z -> list Z -> comparison} {kcmp : comparator} {Hord : KeyOrder P ord kcmp}.
Context {root_txnid : Z} {page_touch : cursor -> option (Z * cursor)} {ps2ln : Z}.
Context {t : tree} {ht : nat} {root : Z}.
Context {Htab : TableOk txnid front_txnid first_unallocated ps read checking dupfixed P ord root_txnid t ht root}.
Context {k_lmin k_lmax v_lmin v_lmax tree_flags : Z} {vcmp : comparator}.

Abbreviation got_node := (seek_got_node txnid front_txnid first_unallocated ps read checking ps2ln v_lmin v_lmax tree_flags vcmp).
Abbreviation search_node := (seek_search_node txnid front_txnid first_unallocated ps read checking kcmp dupfixed ps2ln v_lmin v_lmax tree_flags vcmp).
Abbreviation other_pages := (seek_other_pages txnid front_txnid first_unallocated ps read checking kcmp dupfixed root_txnid None page_touch ps2ln v_lmin v_lmax tree_flags vcmp).
Abbreviation behind_last := (seek_behind_last txnid front_txnid first_unallocated ps read checking kcmp dupfixed root_txnid None page_touch ps2ln v_lmin v_lmax tree_flags vcmp).
Abbreviation greater_first := (seek_greater_first txnid front_txnid first_unallocated ps read checking kcmp dupfixed root_txnid None page_touch ps2ln v_lmin v_lmax tree_flags vcmp).
Abbreviation seek := (cursor_seek txnid front_txnid first_unallocated ps read checking kcmp dupfixed root_txnid None page_touch ps2ln k_lmin k_lmax v_lmin v_lmax tree_flags vcmp).
Abbreviation cursor_ok := (cursor_ok (t := t) (root := root)).
Abbreviation stands := (stands (t := t)).
Abbreviation K := ((flat t).*1).
Abbreviation rank w := (lower_bound (ord := ord) K w).

(** The answer of a search: as of a movement, the key given only by the
    operations from [MDBX_SET_KEY] on. *)
Definition sought (r : option csr_t) (mc : cursor) (key data : option (list Z)) (op : MDBX_cursor_op) (em : bool * moved) : Prop :=
  let '(exact, (rc, pl, e)) := em in
  exists mc', keeps mc mc' /\ stands mc' pl /\ cursor_ok mc' /\
  r = Some (mk_csr (mk_got rc mc' (if e is Some (k, _) then if decide (op_number op >= 16) then put key k else key else key)
    (if e is Some (_, v) then put data v else data)) exact).

(** ** Comparisons with the keys *)

Lemma compare_at w j k : P w -> K !! j = Some k ->
  exists z, kcmp w k = Some z /\ (z > 0 <-> (j < rank w)%nat) /\ (z = 0 <-> j = rank w /\ w ∈ K).
Proof.
  intros Hw Hj. destruct tab_tree as (_ & _ & _ & HP & Hs).
  assert (P k) as Hk by (eapply Forall_lookup_1; eauto). destruct (lower_bound_lookup K w HP Hw Hs j k Hj) as [H1 H2].
  destruct (ord_cmp (ord := ord) w k Hw Hk) as (z & Ez & Hsg & _). exists z. split; [done|].
  rewrite (ord_antisym (ord := ord) k w Hk Hw) in Hsg. split.
  - rewrite <- H1. destruct (ord k w); simpl in Hsg; split; intros ?; (done || lia).
  - assert (z = 0 <-> ord k w = Eq) as -> by (destruct (ord k w); simpl in Hsg; split; intros ?; (done || lia)).
    split; [intros E; split; [by apply H2|]|].
    + apply (ord_eq k w Hk Hw) in E as ->. by eapply list_elem_of_lookup_2.
    + intros [-> Hin]. apply (lower_bound_exact K w HP Hw Hs) in Hin. rewrite Hj in Hin. injection Hin as ->. by apply (ord_eq w w).
Qed.

Lemma brackets_of_rank A es C w : P w -> flat t = A ++ es ++ C -> (length A <= rank w)%nat -> (rank w < length A + length es)%nat -> brackets (ord := ord) A C w.
Proof.
  intros Hw HL H1 H2. destruct tab_tree as (_ & _ & _ & HP & Hs).
  split; intros k [j Hj]%list_elem_of_lookup.
  - apply lookup_lt_Some in Hj as Hlt. rewrite length_fmap in Hlt.
    assert (K !! j = Some k) as HK by (rewrite HL, !fmap_app; by apply lookup_app_l_Some).
    apply (lower_bound_lookup K w HP Hw Hs j k HK). lia.
  - assert (K !! (length A + length es + j)%nat = Some k) as HK.
    { rewrite HL, !fmap_app, lookup_app_r, lookup_app_r by (rewrite ?length_fmap; lia). rewrite !length_fmap, <- Hj. f_equal. lia. }
    destruct (lower_bound_lookup K w HP Hw Hs _ k HK) as [E1 E2]. destruct (ord k w) eqn:E; [|exfalso|done].
    + specialize (E2 eq_refl). lia.
    + assert (length A + length es + j < rank w)%nat by (by apply E1). lia.
Qed.

Lemma rank_of_brackets A es C w : P w -> flat t = A ++ es ++ C -> brackets (ord := ord) A C w ->
  rank w = (length A + lower_bound (ord := ord) es.*1 w)%nat /\ (w ∈ K <-> w ∈ es.*1).
Proof.
  intros Hw HL [HA HC]. rewrite HL, !fmap_app. split; [rewrite (lower_bound_parts (ord := ord)) by done; by rewrite length_fmap|].
  apply (elem_parts (ord := ord)); [done|done|]. by apply (ord_eq w w).
Qed.

(** ** The ends of the ways *)

Lemma stands_flags mc pl : stands mc pl -> 0 <= mc_flags mc < 256.
Proof.
  destruct pl as [| | |n soft hard]; [intros (_ & ? & _); lia..|intros (_ & ?); lia|]. intros (_ & _ & b & Hb & ->). unfold eof_bits, z_eof_soft, z_eof_hard. destruct soft, hard; lia.
Qed.

Lemma eof_flags_low fl : exists b, 0 <= b < 4 /\ eof_flags fl = b + eof_bits true true.
Proof.
  exists (Z.land fl z_clear_mask). pose proof (clear_low fl) as Hb. split; [done|]. rewrite <- (eof_both _ true true Hb).
  unfold eof_flags. do 2 f_equal. by rewrite eof_clear.
Qed.

Lemma hollow_mark fl : 0 <= fl < 256 -> 128 <= Z.lor fl z_hollow < 256.
Proof.
  intros H. pose proof (byte_forall (fun fl => (128 <=? Z.lor fl z_hollow) && (Z.lor fl z_hollow <? 256)) 0 256 ltac:(lia) ltac:(vm_compute; reflexivity) fl H) as E.
  simpl in E. lia.
Qed.

Lemma not_found mc0 mc key data op : cursor_ok mc0 -> keeps mc0 mc -> mc_stack mc <> [] -> stack_ok (t := t) (mc_stack mc) -> 0 <= mc_flags mc < 256 ->
  sought (Some (target_not_found false mc key data)) mc0 key data op (false, (MDBX_NOTFOUND, Hollow, None)).
Proof.
  intros Hok Hk Hne Hst Hfl. eexists. split; [|split; [|split; [|done]]]; [done|split; [done|by apply hollow_mark]|].
  by apply (keeps_ok mc0).
Qed.

Lemma end_found mc0 mc key data op n : cursor_ok mc0 -> keeps mc0 mc -> at_place (t := t) mc n true ->
  sought (Some (fails MDBX_NOTFOUND false (with_flags mc (eof_flags (mc_flags mc))) key data)) mc0 key data op (false, (MDBX_NOTFOUND, On n true true, None)).
Proof.
  intros Hok Hk Hp. eexists. split; [|split; [|split; [|done]]]; [done| |].
  - split; [done|]. split; [done|]. apply eof_flags_low.
  - apply (keeps_ok mc0); [done|done|]. by eapply place_ok.
Qed.

(** [got_node] at entry [i] of a leaf. *)
Lemma got_node_sought mc0 mc p i st es A C node key data op exact : cursor_ok mc0 -> keeps mc0 mc ->
  mc_stack mc = (p, Z.of_nat i) :: st -> reach t st (Leaf p es) A C -> (i < length es)%nat ->
  (dupfixed = false -> node = page_node p i) -> (dupfixed = true -> data = None) -> op_number op >= 15 ->
  sought (got_node mc p node key data op exact) mc0 key data op (exact, (MDBX_SUCCESS, On (length A + i) false false, flat t !! (length A + i)%nat)).
Proof.
  intros Hok Hk Hst Hr Hi Hnode Hdata Hop. destruct (lookup_lt_is_Some_2 es i Hi) as [[k v] He].
  destruct (reach_leaf_wf _ _ _ _ _ Hr) as [Hw _]. destruct (leaf_dupfix _ _ Hw) as [Hdup Hty].
  assert (flat t !! (length A + i)%nat = Some (k, v)) as ->.
  { rewrite (reach_flat _ _ _ _ _ Hr), lookup_app_r by lia. replace (length A + i - length A)%nat with i by lia. simpl. by apply lookup_app_l_Some. }
  assert (stands (be_filled mc) (On (length A + i) false false)) as Hs.
  { apply (filled_stands mc (length A + i) false); [|done]. exists p, i, st, es, A, C. done. }
  exists (be_filled mc). split; [done|]. split; [done|]. split.
  { apply (keeps_ok mc0); [done|done|]. right. exists p, (Z.of_nat i), st, es, A, C. done. }
  unfold seek_got_node, top_ki. rewrite Hty, Hdup, Hst. cbn [head negb].
  assert (dupfixed = true \/ dupfixed = false) as [Hd|Hd] by (destruct (dupfixed); auto); rewrite Hd at 1.
  - destruct (leaf_dupfix_key _ _ _ _ _ Hw Hd He) as [Hkey _]. cbn [mbind option_bind]. rewrite Nat2Z.id, Hkey. cbn [mbind option_bind].
    rewrite (Hdata Hd). done.
  - destruct (leaf_node _ _ _ _ _ Hw Hd He) as (off & d & Hn & Hfl & Hkey & _). rewrite (Hnode Hd), Hn. cbn [mbind option_bind].
    rewrite Hfl. cbn [mbind option_bind]. change (Z.land 0 N_DUP) with 0. rewrite if_ne_refl. destruct data as [dv|].
    + rewrite (decide_False (P := op_number op <= 3)) by lia. rewrite (leaf_node_read (ps2ln := ps2ln) mc _ _ _ _ _ _ Hw Hd He Hn). cbn [mbind option_bind].
      rewrite if_ne_refl, Hkey. done.
    + cbn [mbind option_bind]. rewrite Hkey. done.
Qed.

(** ** [search_node] *)

Lemma set_ki_stack mc p k st i : mc_stack mc = (p, k) :: st -> mc_stack (set_ki mc i) = (p, i) :: st /\ keeps mc (set_ki mc i) /\ mc_flags (set_ki mc i) = mc_flags mc.
Proof. intros Hst. unfold set_ki. by rewrite Hst. Qed.

Lemma keeps_trans a b c : keeps a b -> keeps b c -> keeps a c.
Proof. intros [? ?] [? ?]. split; congruence. Qed.

(** Over the end of the leaf, to the next one or to the end of the data. *)
Lemma next_leaf mc0 mc p k st es A C w key data op : cursor_ok mc0 -> keeps mc0 mc -> mc_stack mc = (p, k) :: st -> reach t st (Leaf p es) A C ->
  P w -> w ∉ K -> rank w = (length A + length es)%nat -> (dupfixed = true -> data = None) -> op_number op = 17 ->
  sought ('(err, mc) ← cursor_sibling_right txnid front_txnid first_unallocated ps read mc;
    if decide (err <> MDBX_SUCCESS) then Some (fails err false mc key data)
    else
      '(mp, _) ← top_ki mc;
      node ← (if is_dupfix_leaf mp then Some None else Some <$> page_node mp 0);
      got_node mc mp node key data op false) mc0 key data op (move_seek (ord := ord) (flat t) w op false).
Proof.
  intros Hok Hk Hst Hr Hw Hin Hrank Hd Hop. unfold move_seek. rewrite decide_False by done. rewrite Hop, decide_False by lia.
  destruct (leaf_bounds _ _ _ _ _ Hr) as (HL & _ & Hes & _). destruct (sibling_leaf true mc p k st es A C Hst Hr) as [H1 H2]. unfold cursor_sibling_right.
  destruct C as [|c C].
  - rewrite (H1 eq_refl). cbn [mbind option_bind]. rewrite (decide_True (P := MDBX_NOTFOUND <> MDBX_SUCCESS)) by done. rewrite decide_False by (simpl in HL; lia).
    set (mc' := with_stack mc ((p, edge_ki true (Leaf p es)) :: st)). change (at_edge true mc _) with (with_flags mc' (eof_flags (mc_flags mc'))).
    apply (end_found mc0 mc'); [done|done|]. apply last_place. pose proof (edge_at_entry true mc' st p es A [] eq_refl Hr) as Hat.
    unfold last_entry. rewrite HL. simpl. by rewrite Nat.add_0_r.
  - destruct (H2 ltac:(done)) as (st' & p' & es' & A' & C' & E & Hr' & HA). rewrite E. cbn [mbind option_bind]. rewrite if_ne_refl.
    rewrite decide_True by (simpl in HL; lia). cbn [top_ki head mc_stack with_stack mbind option_bind].
    destruct (reach_leaf_wf _ _ _ _ _ Hr') as [Hw' _]. destruct (leaf_dupfix _ _ Hw') as [Hdup _]. destruct (leaf_bounds _ _ _ _ _ Hr') as (_ & _ & Hes' & _).
    assert (exists node, (if is_dupfix_leaf p' then Some None else Some <$> page_node p' 0) = Some node /\ (dupfixed = false -> node = page_node p' 0)) as (node & -> & Hnode).
    { rewrite Hdup. assert (dupfixed = true \/ dupfixed = false) as [E'|E'] by (destruct (dupfixed); auto).
      - exists None. split; [by rewrite E'|congruence].
      - destruct (lookup_lt_is_Some_2 es' 0) as [[kk v] He]; [lia|]. destruct (leaf_node _ _ _ _ _ Hw' E' He) as (off & d & -> & _).
        exists (Some off). split; [by rewrite E'|done]. }
    cbn [mbind option_bind]. replace (rank w) with (length A' + 0)%nat by (subst A'; rewrite length_app; lia).
    by apply (got_node_sought mc0 _ p' 0 st' es' A' C'); [..|lia].
Qed.

Lemma search_node_sought mc0 mc p k st es A C w key data op : cursor_ok mc0 -> keeps mc0 mc -> 0 <= mc_flags mc < 256 -> mc_stack mc = (p, k) :: st ->
  reach t st (Leaf p es) A C -> P w -> brackets (ord := ord) A C w -> (dupfixed = true -> data = None) -> 15 <= op_number op <= 17 ->
  sought (search_node mc p w key data op) mc0 key data op (move_seek (ord := ord) (flat t) w op false).
Proof.
  intros Hok Hk Hfl Hst Hr Hw Hbr Hd Hop. destruct (rank_of_brackets A es C w Hw (reach_flat _ _ _ _ _ Hr) Hbr) as [Hrank Hin].
  destruct (leaf_bounds _ _ _ _ _ Hr) as (HL & _ & Hes & _). destruct (reach_leaf_wf _ _ _ _ _ Hr) as [(Hb & _ & He & _) _].
  destruct tab_tree as (_ & _ & _ & HP & Hs). rewrite (reach_flat _ _ _ _ _ Hr), !fmap_app in HP, Hs. simpl in HP, Hs.
  assert (Forall P es.*1 /\ sorted_keys (ord := ord) es.*1) as [HPe Hse].
  { split; [apply Forall_app in HP as [_ HP]; by apply Forall_app in HP as [HP _]|]. apply StronglySorted_app_1_r in Hs. by apply StronglySorted_app_1_l in Hs. }
  pose proof (search_foliage_spec (ord := ord) (cmp := kcmp) false dupfixed p es.*1 w) as H. rewrite Hb in H. cbn [negb] in H. cbv zeta in H. rewrite andb_true_r, drop_0 in H.
  specialize (H (leaf_entries_keys _ _ _ He) HPe Hw Hse). rewrite length_fmap, decide_True in H by lia.
  set (m := lower_bound (ord := ord) es.*1 w) in *. destruct H as (node & E & Hnode). change (0 + m)%nat with m in E, Hnode. unfold seek_search_node. rewrite E. cbn [mbind option_bind sfr_ki sfr_node sfr_exact].
  destruct (set_ki_stack mc p k st (Z.of_nat m) Hst) as (Hst' & Hk' & Hfl'). pose proof (keeps_trans _ _ _ Hk Hk') as Hk''. simpl in Hnode.
  assert ((m < length es)%nat -> (dupfixed = false -> (if node is node_at off then Some off else None) = page_node p m) /\ node <> node_null) as Hnode'.
  { intros Hm. rewrite decide_True in Hnode by done. assert (dupfixed = true \/ dupfixed = false) as [E'|E'] by (destruct (dupfixed); auto); rewrite E' in Hnode.
    - split; [congruence|by subst node].
    - destruct Hnode as (off & -> & Hn). rewrite Hn. done. }
  unfold move_seek. rewrite Hrank.
  case_bool_decide as Hk0.
  - rewrite (decide_True (P := w ∈ K)) by (by apply Hin). assert (m < length es)%nat as Hm.
    { apply (lower_bound_exact es.*1 w HPe Hw Hse) in Hk0. apply lookup_lt_Some in Hk0. by rewrite length_fmap in Hk0. }
    apply (got_node_sought mc0 _ p m st es A C); [done|done|done|done|done|by apply Hnode'|done|lia].
  - rewrite (decide_False (P := w ∈ K)) by (by rewrite Hin). destruct (decide (op_number op < 17)) as [H17|H17].
    + apply (not_found mc0); [done|done|by rewrite Hst'| |by rewrite Hfl']. right. rewrite Hst'. by eexists _, _, _, _, _, _.
    + destruct (decide (m < length es)%nat) as [Hm|Hm].
      * destruct (Hnode' Hm) as [Hn1 Hn2]. rewrite decide_True by lia. destruct node; [done|..];
          (apply (got_node_sought mc0 _ p m st es A C); [done|done|done|done|done|exact Hn1|done|lia]).
      * subst node. assert (m = length es) as Hml by (pose proof (lower_bound_le (ord := ord) es.*1 w); rewrite length_fmap in *; lia).
        pose proof (next_leaf mc0 (set_ki mc (Z.of_nat m)) p (Z.of_nat m) st es A C w key data op Hok Hk'' Hst' Hr Hw) as H.
        unfold move_seek in H. rewrite Hrank in H. rewrite (decide_False (P := w ∈ K)), decide_False in H by (rewrite ?Hin; (done || lia)).
        apply H; [by rewrite Hin|lia|done|lia].
Qed.

(** ** The ways *)

Lemma other_pages_sought mc w key data op : cursor_ok mc -> 0 <= mc_flags mc < 256 -> P w -> (dupfixed = true -> data = None) -> 15 <= op_number op <= 17 ->
  sought (other_pages mc w key data op) mc key data op (move_seek (ord := ord) (flat t) w op false).
Proof.
  intros Hok Hfl Hw Hd Hop. destruct (search_key (page_touch := page_touch) mc w 0 Hok eq_refl Hw) as (st & p & es & A & C & E & Hr & Hbr).
  unfold seek_other_pages. rewrite E. cbn [mbind option_bind]. rewrite if_ne_refl. cbn [top_ki head mc_stack with_stack mbind option_bind].
  by apply (search_node_sought mc (with_stack mc ((p, 0) :: st)) p 0 st es A C).
Qed.

Lemma key_of_leaf st p es A C i : reach t st (Leaf p es) A C -> (i < length es)%nat ->
  exists node k, key_of_page p i = Some (node, k) /\ K !! (length A + i)%nat = Some k /\ (dupfixed = false -> node = page_node p i).
Proof.
  intros Hr Hi. destruct (lookup_lt_is_Some_2 es i Hi) as [[k v] He]. destruct (reach_leaf_wf _ _ _ _ _ Hr) as [Hw _]. destruct (leaf_dupfix _ _ Hw) as [Hdup _].
  assert (K !! (length A + i)%nat = Some k) as HK.
  { rewrite (reach_flat _ _ _ _ _ Hr), list_lookup_fmap, lookup_app_r by lia. replace (length A + i - length A)%nat with i by lia. simpl.
    by rewrite (lookup_app_l_Some _ _ _ _ He). }
  unfold key_of_page. rewrite Hdup. assert (dupfixed = true \/ dupfixed = false) as [E|E] by (destruct (dupfixed); auto); rewrite E.
  - destruct (leaf_dupfix_key _ _ _ _ _ Hw E He) as [-> _]. by exists None, k.
  - destruct (leaf_node _ _ _ _ _ Hw E He) as (off & d & Hn & _ & Hk & _). rewrite Hn. cbn [mbind option_bind]. rewrite Hk. by exists (Some off), k.
Qed.

Lemma no_more_pages st c A C : reach t st c A C ->
  existsb (fun l : page_t * Z => bool_decide (snd l + 1 < Z.of_nat (page_numkeys (fst l)))) st = false -> C = [].
Proof.
  destruct tab_tree as (Hwt & _). induction 1 as [|st p seps cs1 c cs2 A C Hr IH]; [done|]. simpl. intros [H1 H2]%orb_false_elim.
  rewrite (IH H2), app_nil_r. apply bool_decide_eq_false in H1. destruct (reach_wf _ _ _ _ _ _ _ _ _ _ _ _ _ Hr Hwt) as (h & Hw & _).
  destruct h as [|h]; [done|]. destruct (wf_width _ _ _ _ _ _ _ (S h) _ Hw) as (Hn & _ & _). cbn [tree_page width] in Hn.
  rewrite Hn, length_app in H1. simpl in H1. destruct cs2; [done|simpl in H1; lia].
Qed.

Lemma behind_last_sought mc p k st es A C w key data op : cursor_ok mc -> 0 <= mc_flags mc < 256 -> mc_stack mc = (p, k) :: st -> reach t st (Leaf p es) A C ->
  P w -> (dupfixed = true -> data = None) -> 15 <= op_number op <= 17 -> (length A + length es <= rank w)%nat ->
  exists behind, sought (behind_last mc (Z.of_nat (length es)) w key data op) mc key data op (move_seek (ord := ord) (flat t) w op behind).
Proof.
  intros Hok Hfl Hst Hr Hw Hd Hop Hrank. destruct (leaf_bounds _ _ _ _ _ Hr) as (HL & _ & Hes & Hm). unfold seek_behind_last. rewrite Hst. cbn [tail].
  destruct (existsb _ st) eqn:E; [exists false; by apply other_pages_sought|]. exists true. pose proof (no_more_pages _ _ _ _ Hr E) as ->. simpl in HL.
  assert (rank w = length A + length es)%nat as Hrk by (pose proof (lower_bound_le (ord := ord) K w) as H; rewrite length_fmap in H; lia).
  assert (w ∉ K) as HwK.
  { destruct tab_tree as (_ & _ & _ & HP & Hs). intros Hw'. apply (lower_bound_exact K w HP Hw Hs) in Hw'. apply lookup_lt_Some in Hw'. rewrite length_fmap in Hw'. lia. }
  unfold move_seek. rewrite (decide_False (P := w ∈ K)) by done. rewrite Hrk. rewrite (decide_False (P := (length A + length es < length (flat t))%nat)) by lia.
  unfold u16. rewrite Z.mod_small by lia. destruct (set_ki_stack mc p k st (Z.of_nat (length es)) Hst) as (Hst' & Hk' & Hfl').
  case_decide as H17.
  - apply not_found; [done|done|by rewrite Hst'| |by rewrite Hfl']. right. rewrite Hst'. by eexists _, _, _, _, _, _.
  - assert (at_place (t := t) (set_ki mc (Z.of_nat (length es))) (length (flat t)) true) as Hp.
    { exists p, (length es), st, es, A, []. split; [done|]. split; [done|]. split; [lia|]. split; [lia|]. split; [done|lia]. }
    exact (end_found mc _ key data op _ Hok Hk' Hp).
Qed.

(** The key is entry [i] of the leaf. *)
Lemma exact_sought mc0 mc p i st es A C w node key data op behind : cursor_ok mc0 -> keeps mc0 mc -> mc_stack mc = (p, Z.of_nat i) :: st ->
  reach t st (Leaf p es) A C -> (i < length es)%nat -> (dupfixed = false -> node = page_node p i) -> (dupfixed = true -> data = None) -> 15 <= op_number op ->
  (length A + i)%nat = rank w -> w ∈ K ->
  sought (got_node mc p node key data op true) mc0 key data op (move_seek (ord := ord) (flat t) w op behind).
Proof.
  intros Hok Hk Hst Hr Hi Hnode Hd Hop Hrank Hin. unfold move_seek. rewrite (decide_True (P := w ∈ K)) by done. rewrite <- Hrank.
  apply (got_node_sought mc0 mc p i st es A C); [done..|lia].
Qed.

Section leaf.
Context (mc : cursor) (p : page_t) (k : Z) (st : list (page_t * Z)) (es A C : list entry_t) (w : list Z) (key data : option (list Z)) (op : MDBX_cursor_op).
Context (Hok : cursor_ok mc) (Hfl : 0 <= mc_flags mc < 256) (Hst : mc_stack mc = (p, k) :: st) (Hr : reach t st (Leaf p es) A C).
Context (Hw : P w) (Hd : dupfixed = true -> data = None) (Hop : 15 <= op_number op <= 17).

Lemma leaf_search : (length A <= rank w)%nat -> (rank w < length A + length es)%nat ->
  sought (search_node mc p w key data op) mc key data op (move_seek (ord := ord) (flat t) w op false).
Proof.
  intros H1 H2. apply (search_node_sought mc mc p k st es A C); [done..| |done|done].
  eapply brackets_of_rank; [done|by apply reach_flat in Hr|done|done].
Qed.

Lemma leaf_exact i node behind : (i < length es)%nat -> (dupfixed = false -> node = page_node p i) -> (length A + i)%nat = rank w -> w ∈ K ->
  sought (got_node (set_ki mc (Z.of_nat i)) p node key data op true) mc key data op (move_seek (ord := ord) (flat t) w op behind).
Proof.
  intros Hi Hnode Hrank Hin. destruct (set_ki_stack mc p k st (Z.of_nat i) Hst) as (Hst' & Hk' & _).
  apply (exact_sought mc _ p i st es A C); [done..|lia|done|done].
Qed.

Lemma greater_first_sought : (length A < rank w)%nat ->
  exists behind, sought (greater_first mc p k (Z.of_nat (length es)) w key data op) mc key data op (move_seek (ord := ord) (flat t) w op behind).
Proof.
  intros Hlow. destruct (leaf_bounds _ _ _ _ _ Hr) as (HL & _ & Hes & Hm). unfold seek_greater_first.
  destruct (decide (Z.of_nat (length es) > 1)) as [Hn|Hn]; [|eapply (behind_last_sought mc p k st es A C); [done..|lia]].
  replace (Z.to_nat (Z.of_nat (length es) - 1)) with (length es - 1)%nat by lia.
  replace (u16 (Z.of_nat (length es) - 1)) with (Z.of_nat (length es - 1)) by (unfold u16; rewrite Z.mod_small by lia; lia).
  destruct (key_of_leaf st p es A C (length es - 1) Hr ltac:(lia)) as (node & lk & -> & HK & Hnode). cbn [mbind option_bind].
  destruct (compare_at w _ _ Hw HK) as (z & -> & Hgt & Heq). cbn [mbind option_bind].
  destruct (decide (z = 0)) as [Hz|Hz]; [exists false; apply Heq in Hz as [Hz Hin]; by apply leaf_exact; [lia|..]|].
  destruct (decide (z < 0)) as [Hlt|Hlt]; [|eapply (behind_last_sought mc p k st es A C); [done..|]; assert (length A + (length es - 1) < rank w)%nat by (apply Hgt; lia); lia].
  exists false. assert (rank w < length A + length es)%nat as Hup by (destruct (decide (length A + (length es - 1) < rank w)%nat) as [H|H]; [apply Hgt in H; lia|lia]).
  destruct (decide (k > 0 /\ k < Z.of_nat (length es) - 1)) as [Hk|Hk]; [|apply leaf_search; lia].
  destruct (key_of_leaf st p es A C (Z.to_nat k) Hr ltac:(lia)) as (node' & kk & -> & HK' & Hnode'). cbn [mbind option_bind].
  destruct (compare_at w _ _ Hw HK') as (z' & -> & _ & Heq'). cbn [mbind option_bind].
  destruct (decide (z' = 0)) as [Hz'|Hz']; [|apply leaf_search; lia]. apply Heq' in Hz' as [Hz' Hin].
  apply (exact_sought mc mc p (Z.to_nat k) st es A C); [done|done| |done|lia|done|done|lia|done|done]. by rewrite Z2Nat.id by lia.
Qed.
End leaf.

Lemma seek_sought mc pl w key data op : cursor_ok mc -> stands mc pl -> P w -> check_key k_lmin k_lmax tree_flags w = MDBX_SUCCESS ->
  (dupfixed = true -> data = None) -> 15 <= op_number op <= 17 ->
  exists behind, sought (seek mc w key data op) mc key data op (move_seek (ord := ord) (flat t) w op behind).
Proof.
  intros Hok Hs Hw Hc Hd Hop. pose proof (stands_flags _ _ Hs) as Hfl. unfold cursor_seek. rewrite Hc, if_ne_refl. unfold top_ki.
  destruct (Hok) as (_ & _ & [Hst|(p & k & st & es & A & C & Hst & Hr)]); rewrite Hst; cbn [head]; [exists false; by apply other_pages_sought|].
  destruct (leaf_bounds _ _ _ _ _ Hr) as (HL & -> & Hes & Hm). rewrite decide_False by lia.
  destruct (key_of_leaf st p es A C 0 Hr ltac:(lia)) as (node & k0 & -> & HK & Hnode). cbn [mbind option_bind].
  destruct (compare_at w _ _ Hw HK) as (z & -> & Hgt & Heq). cbn [mbind option_bind].
  destruct (decide (z = 0)) as [Hz|Hz].
  { exists false. apply Heq in Hz as [Hz Hin]. by apply (leaf_exact mc p k st es A C w key data op Hok Hst Hr Hd Hop 0); [lia|..]. }
  destruct (decide (z > 0)) as [Hz'|Hz']; [apply (greater_first_sought mc p k st es A C); try done; apply Hgt in Hz'; lia|].
  exists false. destruct (decide (length (mc_stack mc) = 1%nat)) as [Hlen|Hlen]; rewrite Hst in Hlen; [|rewrite decide_False by done; by apply other_pages_sought].
  rewrite decide_True by done. destruct st; [|done]. assert (A = [] /\ C = []) as [-> ->] by (by inversion Hr).
  destruct (set_ki_stack mc p k [] 0 Hst) as (Hst' & Hk' & Hfl').
  simpl in Hgt, Heq. assert (rank w = 0%nat) as Hrank by (destruct (decide (0 < rank w)%nat) as [H|H]; [by apply Hgt in H|lia]).
  assert (w ∉ K) as HwK by (intros H; apply Hz; by apply Heq).
  unfold move_seek. rewrite (decide_False (P := w ∈ K)), Hrank by done. destruct (decide (op_number op >= 17)) as [H17|H17].
  - rewrite (decide_False (P := op_number op < 17)), decide_True by (simpl in HL; lia). by apply (got_node_sought mc _ p 0 [] es [] []); [..|lia].
  - rewrite (decide_True (P := op_number op < 17)) by lia. apply not_found; [done|done|by rewrite Hst'| |by rewrite Hfl']. right. rewrite Hst'. by eexists _, _, _, _, _, _.
Qed.
End seek.
