(* ===== verification/CursorProps.v ===== *)
(** * Cursors: what the operations give

    The operations of [cursor_ops] over a table whose tree is ordered are movements
    of a place over the list of its entries. *)

From S2P Require Import Prelude Meta Cmp CmpProps Dpl Page PageFacts PageOps Foliage FoliageFacts FoliageProps FoliageDispatch.
From S2P Require Import Cursor CursorTree CursorOps CursorFacts CursorSteps CursorSeek.

(** ** Movements by operation *)

(** [MDBX_NEXT] takes the mark [z_eof_hard] away. *)
Definition drop_hard (m : moved) : moved :=
  let '(rc, pl, e) := m in (rc, match pl with On n soft _ => On n soft false | _ => pl end, e).

Definition move_op (L : list entry_t) (op : MDBX_cursor_op) (pl : place) : option moved :=
  match op with
  | MDBX_FIRST => Some (move_first L)
  | MDBX_LAST => Some (move_last L)
  | MDBX_NEXT | MDBX_NEXT_NODUP => Some (drop_hard (move_step L true pl))
  | MDBX_NEXT_DUP => Some (drop_hard (move_dup L true pl))
  | MDBX_PREV | MDBX_PREV_NODUP => Some (move_step L false pl)
  | MDBX_PREV_DUP => Some (move_dup L false pl)
  | _ => None
  end.

(** Where [MDBX_GET_CURRENT] has an answer. *)
Definition current (L : list entry_t) (pl : place) : option moved :=
  match pl with
  | On n soft hard =>
      if decide (n < length L)%nat then Some (MDBX_SUCCESS, pl, L !! n)
      else if hard then Some (MDBX_NOTFOUND, pl, None) else None
  | _ => Some (MDBX_ENODATA, pl, None)
  end.

(** The entry in the relation [rel] to the key, of those the one next to it. *)
Definition related {ord : list Z -> list Z -> comparison} (L : list entry_t) (rel : Z) (w : list Z) : option entry_t :=
  let n := lower_bound (ord := ord) L.*1 w in
  let here := bool_decide (w ∈ L.*1) in
  if decide (rel = -2) then if decide (0 < n)%nat then L !! (n - 1)%nat else None
  else if decide (rel = -1) then if here then L !! n else if decide (0 < n)%nat then L !! (n - 1)%nat else None
  else if decide (rel = 0) then if here then L !! n else None
  else if decide (rel = 1) then L !! n
  else if here then L !! S n else L !! n.

Section props.
Context {txnid front_txnid first_unallocated ps : Z} {read : Z -> Z + page_t} {checking : Z}.
Context {P : list Z -> Prop} {ord : list Z -> list Z -> comparison} {kcmp : comparator} {Hord : KeyOrder P ord kcmp}.
Context {root_txnid : Z} {page_touch : cursor -> option (Z * cursor)} {ps2ln : Z}.
Context {t : tree} {ht : nat} {root : Z}.
Context {Htab : TableOk txnid front_txnid first_unallocated ps read checking false P ord root_txnid t ht root}.
Context {k_lmin k_lmax v_lmin v_lmax tree_flags : Z} {vcmp : comparator}.

Abbreviation ops := (cursor_ops txnid front_txnid first_unallocated ps read checking kcmp false root_txnid None page_touch ps2ln k_lmin k_lmax v_lmin v_lmax tree_flags vcmp).
Abbreviation cursor_ok := (cursor_ok (t := t) (root := root)).
Abbreviation stands := (stands (t := t)).
Abbreviation answers := (answers (t := t) (root := root)).

Lemma no_inner : false = true -> false = true.
Proof. done. Qed.

Lemma stands_drop_hard mc pl : stands mc pl ->
  stands (with_flags mc (Z.ldiff (mc_flags mc) z_eof_hard)) (match pl with On n soft _ => On n soft false | _ => pl end).
Proof.
  assert (forall fl, 128 <= fl < 256 -> 128 <= Z.ldiff fl z_eof_hard < 256 /\ Z.land (Z.ldiff fl z_eof_hard) z_fresh = Z.land fl z_fresh /\
    Z.land (Z.ldiff fl z_eof_hard) z_after_delete = Z.land fl z_after_delete) as H.
  { intros fl Hfl. pose proof (byte_forall (fun fl => (128 <=? Z.ldiff fl z_eof_hard) && (Z.ldiff fl z_eof_hard <? 256) && (Z.land (Z.ldiff fl z_eof_hard) z_fresh =? Z.land fl z_fresh)
      && (Z.land (Z.ldiff fl z_eof_hard) z_after_delete =? Z.land fl z_after_delete)) 128 256 ltac:(lia) ltac:(vm_compute; reflexivity) fl Hfl) as E. simpl in E. lia. }
  destruct pl as [| | |n soft hard]; simpl.
  - intros (H1 & H2 & H3). destruct (H _ H2) as (H4 & -> & _). done.
  - intros (H1 & H2 & H3 & H5). destruct (H _ H2) as (H4 & -> & ->). done.
  - intros (H1 & H2). destruct (H _ H2) as (H4 & _). done.
  - intros (H1 & H2 & b & Hb & ->). split; [done|]. split; [done|]. exists b. split; [done|]. by apply eof_drop_hard.
Qed.

Lemma drop_hard_answers r mc key data m : answers r mc key data m -> answers (clear_eof_hard <$> r) mc key data (drop_hard m).
Proof.
  destruct m as [[rc pl] e]. intros (mc' & Hk & Hs & Hok & ->). eexists. split; [|split; [by apply stands_drop_hard|split; [|done]]]; [done|].
  destruct Hok as (? & ? & ?). done.
Qed.

Lemma moves_correct op mc pl key data m : cursor_ok mc -> stands mc pl -> move_op (flat t) op pl = Some m -> answers (ops mc key data op) mc key data m.
Proof.
  intros Hok Hs Hm.
  pose proof (fun forward => step_answers (page_touch := page_touch) (ps2ln := ps2ln) (kcmp := kcmp) (inner := false) no_inner forward mc pl key data op Hok Hs ltac:(done)) as H.
  pose proof (fun first_ => brim_answers (page_touch := page_touch) (ps2ln := ps2ln) (kcmp := kcmp) (inner := false) no_inner first_ mc key data Hok ltac:(done)) as H0.
  destruct op; simplify_eq/=; try (exact (H0 true) || exact (H0 false)); try (exact (H false)); apply drop_hard_answers; exact (H true).
Qed.

(** ** The current entry *)

Lemma eof_filled b soft hard : 0 <= b < 4 -> (hard = true -> soft = true) ->
  Z.land (b + eof_bits soft hard) z_after_delete = 0 /\ bool_decide (z_eof_hard > b + eof_bits soft hard) = negb hard.
Proof. intros Hb Hh. destruct (low_flags b Hb) as [->|[->|[->| ->]]]; destruct soft, hard; (done || (by specialize (Hh eq_refl))). Qed.

Lemma current_correct mc pl key data m : cursor_ok mc -> stands mc pl -> current (flat t) pl = Some m -> answers (ops mc key data MDBX_GET_CURRENT) mc key data m.
Proof.
  intros Hok Hs Hm. assert (128 <= mc_flags mc < 256 -> answers (ops mc key data MDBX_GET_CURRENT) mc key data (MDBX_ENODATA, pl, None)) as Hhollow.
  { intros Hfl. unfold cursor_ops, get_current, is_filled, is_hollow. rewrite bool_decide_false by (unfold z_eof_hard; lia).
    destruct (hollow_bit _ Hfl) as [-> _]. rewrite bool_decide_true by done. by apply refused. }
  destruct pl as [| | |n soft hard]; simpl in Hm; [injection Hm as <-; apply Hhollow; apply Hs..|].
  pose proof Hs as (Hhs & (p & i & st & es & A & C & Hst & Hr & Hi & Hn & Hp) & b & Hb & Hfl).
  destruct (leaf_bounds _ _ _ _ _ Hr) as (HL & Hnk & Hes & _). destruct (eof_filled b soft hard Hb Hhs) as [Hdel Hfill].
  unfold cursor_ops, get_current, is_filled, is_hollow. rewrite Hfl, Hdel, Hfill, if_ne_refl, eof_not_hollow by done.
  rewrite (bool_decide_false (0 <> 0)) by (intros H; by apply H). unfold top_ki. rewrite Hst. cbn [head mbind option_bind]. rewrite Hnk, Nat2Z.id.
  destruct (decide (n < length (flat t))%nat) as [Hlt|Hge]; [injection Hm as <-|].
  - assert (i < length es)%nat as Hie by (destruct soft; [destruct Hp as [-> _]; simpl in HL; lia|done]).
    destruct (lookup_lt_is_Some_2 es i Hie) as [[k v] He]. destruct (reach_leaf_wf _ _ _ _ _ Hr) as [Hw _].
    destruct (leaf_node _ _ _ _ _ Hw eq_refl He) as (off & d & Hnode & Hnf & Hk & _). rewrite Hnode. cbn [mbind option_bind]. rewrite Hk. cbn [mbind option_bind].
    assert (flat t !! n = Some (k, v)) as ->.
    { rewrite (reach_flat _ _ _ _ _ Hr), lookup_app_r by lia. replace (n - length A)%nat with i by lia. simpl. by apply lookup_app_l_Some. }
    exists mc. split; [done|]. split; [done|]. split; [done|]. rewrite (decide_False (P := Z.of_nat i >= Z.of_nat (length es))) by lia.
    destruct data as [dv|]; [|by destruct hard]. rewrite Hnf. cbn [mbind option_bind]. change (Z.land 0 N_DUP) with 0. rewrite if_ne_refl.
    rewrite (leaf_node_read (ps2ln := ps2ln) mc _ _ _ _ _ _ Hw eq_refl He Hnode). cbn [mbind option_bind]. by destruct hard.
  - destruct hard; [|done]. injection Hm as <-. rewrite (Hhs eq_refl) in Hp. destruct Hp as [-> Hp]. simpl in HL.
    rewrite (decide_True (P := Z.of_nat i >= Z.of_nat (length es))) by lia. by apply refused.
Qed.

(** ** Searches *)

Abbreviation seek := (cursor_seek txnid front_txnid first_unallocated ps read checking kcmp false root_txnid None page_touch ps2ln k_lmin k_lmax v_lmin v_lmax tree_flags vcmp).
Abbreviation rank w := (lower_bound (ord := ord) (flat t).*1 w).

Lemma rank_entry w k v : P w -> w ∈ (flat t).*1 -> flat t !! rank w = Some (k, v) -> k = w.
Proof.
  intros Hw Hin Hl. destruct tab_tree as (_ & _ & _ & HP & Hs). apply (lower_bound_exact _ w HP Hw Hs) in Hin.
  rewrite list_lookup_fmap, Hl in Hin. by injection Hin.
Qed.

Lemma seek_correct mc pl w data op : cursor_ok mc -> stands mc pl -> P w -> check_key k_lmin k_lmax tree_flags w = MDBX_SUCCESS ->
  op ∈ [MDBX_SET; MDBX_SET_KEY; MDBX_SET_RANGE] ->
  exists behind exact m g, move_seek (ord := ord) (flat t) w op behind = (exact, m) /\ seek mc w (Some w) data op = Some (mk_csr g exact) /\
  answers (Some g) mc (Some w) data m.
Proof.
  intros Hok Hs Hw Hc Hop. assert (15 <= op_number op <= 17) as Hn by (set_unfold; destruct Hop as [->|[->|[->|[]]]]; simpl; lia).
  destruct (seek_sought (dupfixed := false) (page_touch := page_touch) (ps2ln := ps2ln) (v_lmin := v_lmin) (v_lmax := v_lmax) (vcmp := vcmp) mc pl w (Some w) data op Hok Hs Hw Hc ltac:(done) Hn) as [behind H].
  exists behind. destruct (move_seek (flat t) w op behind) as [exact [[rc pl'] e]] eqn:E. destruct H as (mc' & Hk & Hs' & Hok' & Hr).
  exists exact, (rc, pl', e). eexists. split; [done|]. split; [exact Hr|]. exists mc'. split; [done|]. split; [done|]. split; [done|]. do 2 f_equal.
  destruct e as [[k v]|]; [|done]. case_decide as H16; [done|]. unfold move_seek in E. simpl. f_equal.
  destruct (decide (w ∈ (flat t).*1)) as [Hin|Hin]; [|rewrite decide_True in E by lia; congruence]. injection E as <- <- <- E. by apply eq_sym, (rank_entry w k v).
Qed.

(** What an operation by the relation to a key gives. *)
Definition finds (r : option got) (data : option (list Z)) (e : option entry_t) : Prop :=
  exists g, r = Some g /\ cursor_ok (g_mc g) /\
  match e with
  | Some (k, v) => g_rc g = MDBX_SUCCESS /\ g_key g = Some k /\ g_data g = put data v /\
      exists n, flat t !! n = Some (k, v) /\ stands (g_mc g) (On n false false)
  | None => g_rc g = MDBX_NOTFOUND
  end.

(** What a movement finds. *)
Definition moves_to (m : moved) (e : option entry_t) : Prop :=
  match e with
  | Some _ => exists n, m = (MDBX_SUCCESS, On n false false, e) /\ flat t !! n = e
  | None => m.1.1 = MDBX_NOTFOUND
  end.

Lemma answers_finds r mc key w data data0 m e : answers r mc key data m -> moves_to m e -> key = Some w -> (forall v, put data v = put data0 v) -> finds r data0 e.
Proof.
  destruct m as [[rc pl] e']. intros (mc' & Hk & Hs & Hok & ->) Hm -> Hdata. eexists. split; [done|]. split; [done|].
  destruct e as [[k v]|]; [|done]. destruct Hm as (n & Em & Hn). injection Em as -> -> ->. split; [done|]. split; [done|]. split; [apply Hdata|]. by exists n.
Qed.

(** A step behind a search. *)
Lemma step_finds (forward : bool) mc pl w data data0 op e : cursor_ok mc -> stands mc pl -> op <> MDBX_NEXT_DUP -> op <> MDBX_PREV_DUP ->
  (forall v, put data v = put data0 v) -> moves_to (move_step (flat t) forward pl) e ->
  finds (cursor_step txnid front_txnid first_unallocated ps read checking kcmp root_txnid None page_touch ps2ln false forward mc (Some w) data op) data0 e.
Proof.
  intros Hok Hs Hop1 Hop2 Hdata Hm.
  pose proof (step_answers (page_touch := page_touch) (ps2ln := ps2ln) (kcmp := kcmp) (inner := false) no_inner forward mc pl (Some w) data op Hok Hs ltac:(done)) as H.
  rewrite bool_decide_false in H by (by destruct forward). by eapply answers_finds.
Qed.

Lemma moves_to_at n : (n < length (flat t))%nat -> moves_to (MDBX_SUCCESS, On n false false, flat t !! n) (flat t !! n).
Proof. intros [e He]%lookup_lt_is_Some_2. rewrite He. by exists n. Qed.

(** Back from the lower bound, which has the mark of the end if there is no such entry. *)
Lemma moves_back n X : (n < length (flat t))%nat \/ n = length (flat t) -> (0 < length (flat t))%nat ->
  moves_to (move_step (flat t) false (if decide (n < length (flat t))%nat then On n false false else On X true true))
  (if decide (0 < n)%nat then flat t !! (n - 1)%nat else None).
Proof.
  intros Hn Hpos. destruct (decide (n < length (flat t))%nat); unfold move_step.
  - case_decide; [apply moves_to_at; lia|done].
  - destruct Hn as [?| ->]; [lia|]. rewrite decide_True by done. apply moves_to_at. lia.
Qed.

Lemma moves_on n : moves_to (move_step (flat t) true (On n false false)) (flat t !! S n).
Proof.
  unfold move_step. case_decide as Hn; [by apply moves_to_at|]. rewrite lookup_ge_None_2 by lia. done.
Qed.

Abbreviation to_key := (seek_to_key txnid front_txnid first_unallocated ps read checking kcmp false root_txnid None page_touch ps2ln k_lmin k_lmax v_lmin v_lmax tree_flags vcmp).

Lemma relations rel : -2 <= rel <= 2 -> rel = -2 \/ rel = -1 \/ rel = 0 \/ rel = 1 \/ rel = 2.
Proof. lia. Qed.

(** The search ends at the lower bound; from there each movement goes on. *)
Lemma range_correct mc pl w data : cursor_ok mc -> stands mc pl -> P w -> check_key k_lmin k_lmax tree_flags w = MDBX_SUCCESS ->
  let n := rank w in let here := bool_decide (w ∈ (flat t).*1) in
  exists g, seek mc w (Some w) data MDBX_SET_RANGE = Some (mk_csr g here) /\
  (here = true -> n < length (flat t))%nat /\ g_rc g = (if decide (n < length (flat t))%nat then MDBX_SUCCESS else MDBX_NOTFOUND) /\ cursor_ok (g_mc g) /\
  finds (Some g) data (flat t !! n) /\
  (forall op, op <> MDBX_NEXT_DUP -> op <> MDBX_PREV_DUP -> finds (outer_prev txnid front_txnid first_unallocated ps read checking kcmp root_txnid None page_touch ps2ln
    (g_mc g) (g_key g) (g_data g) op) data (if decide (0 < n)%nat then flat t !! (n - 1)%nat else None)) /\
  ((n < length (flat t))%nat -> forall op, op <> MDBX_NEXT_DUP -> op <> MDBX_PREV_DUP -> finds (outer_next txnid front_txnid first_unallocated ps read checking kcmp root_txnid None page_touch ps2ln
    (g_mc g) (g_key g) (g_data g) op) data (flat t !! S n)).
Proof.
  intros Hok Hs Hw Hc n here.
  destruct (seek_correct mc pl w data MDBX_SET_RANGE Hok Hs Hw Hc ltac:(set_solver)) as (behind & exact & m & g & Em & Eg & Hg). exists g.
  pose proof (lower_bound_le (ord := ord) (flat t).*1 w) as Hle. rewrite length_fmap in Hle. pose proof flat_nonempty as Hne.
  assert (0 < length (flat t))%nat as Hpos by (destruct (flat t); [done|simpl; lia]).
  assert (here = true -> n < length (flat t))%nat as Hhere.
  { unfold here. intros Hin%bool_decide_eq_true. destruct tab_tree as (_ & _ & _ & HP & Hsort). apply (lower_bound_exact _ w HP Hw Hsort) in Hin. apply lookup_lt_Some in Hin. by rewrite length_fmap in Hin. }
  set (X := (if behind then length (flat t) else (length (flat t) - 1))%nat) in *.
  assert (exact = here /\ m = if decide (n < length (flat t))%nat then (MDBX_SUCCESS, On n false false, flat t !! n) else (MDBX_NOTFOUND, On X true true, None)) as [-> ->].
  { unfold move_seek in Em. fold n in Em. unfold here in *. destruct (decide (w ∈ (flat t).*1)) as [Hin|Hin]; injection Em as <- <-; [|by rewrite bool_decide_false].
    rewrite bool_decide_true by done. rewrite decide_True; [done|]. apply Hhere. by apply bool_decide_true. }
  split; [done|]. split; [done|].
  assert (finds (Some g) data (flat t !! n)) as Hf.
  { eapply answers_finds; [exact Hg| |done|done]. case_decide; [by apply moves_to_at|]. by rewrite lookup_ge_None_2 by lia. }
  destruct (decide (n < length (flat t))%nat) as [Hn|Hn]; destruct Hg as (mc' & _ & Hs' & Hok' & Eq); injection Eq as ->; cbn [g_mc g_key g_data g_rc] in *.
  - destruct (lookup_lt_is_Some_2 (flat t) n Hn) as [[k v] He]. rewrite He. do 2 (split; [done|]). split; [by rewrite He in Hf|]. split; [intros op H1 H2|intros _ op H1 H2].
    + apply (step_finds false mc' (On n false false)); [done|done|done|done|by destruct data|]. pose proof (moves_back n X ltac:(lia) Hpos) as H. by rewrite decide_True in H.
    + apply (step_finds true mc' (On n false false)); [done|done|done|done|by destruct data|]. apply moves_on.
  - do 2 (split; [done|]). split; [done|]. split; [intros op H1 H2|done]. apply (step_finds false mc' (On X true true)); [done|done|done|done|done|].
    pose proof (moves_back n X ltac:(lia) Hpos) as H. by rewrite (decide_False (P := (n < length (flat t))%nat)) in H.
Qed.

Lemma to_key_correct mc pl w data rel : cursor_ok mc -> stands mc pl -> P w -> check_key k_lmin k_lmax tree_flags w = MDBX_SUCCESS -> -2 <= rel <= 2 ->
  finds (to_key rel mc w (Some w) data) data (related (ord := ord) (flat t) rel w).
Proof.
  intros Hok Hs Hw Hc Hrel. destruct (range_correct mc pl w data Hok Hs Hw Hc) as (g & E & Hhere & Hrc & Hokg & Hf & Hback & Hon).
  unfold seek_to_key. rewrite E. cbn [mbind option_bind csr_got csr_exact]. unfold related. set (n := rank w) in *.
  destruct (bool_decide (w ∈ (flat t).*1)).
  - specialize (Hhere eq_refl). destruct (relations rel Hrel) as [->|[->|[->|[->| ->]]]]; simpl; [by apply Hback|done|done|done|by apply Hon].
  - assert (finds (Some (set_rc MDBX_NOTFOUND g)) data None) as Hset by (exists (set_rc MDBX_NOTFOUND g); done).
    assert (g_rc g = MDBX_NOTFOUND \/ g_rc g = MDBX_SUCCESS) as Hrc' by (rewrite Hrc; destruct (decide (n < length (flat t))%nat); [by right|by left]).
    destruct (relations rel Hrel) as [->|[->|[->|[->| ->]]]]; simpl; try (rewrite decide_True by done; by apply Hback);
      try exact Hf.
    destruct (decide (0 = 0 /\ g_rc g = MDBX_SUCCESS)) as [H0|H0]; [exact Hset|]. rewrite Hrc in H0. destruct (decide (n < length (flat t))%nat) as [Hn|Hn]; [by destruct H0|]. by rewrite lookup_ge_None_2 in Hf by lia.
Qed.

(** [MDBX_SET_LOWERBOUND] and [MDBX_SET_UPPERBOUND] *)
Abbreviation bound := (seek_bound txnid front_txnid first_unallocated ps read checking kcmp false root_txnid None page_touch ps2ln k_lmin k_lmax v_lmin v_lmax tree_flags vcmp).

Lemma bound_correct mc pl w data : cursor_ok mc -> stands mc pl -> P w -> check_key k_lmin k_lmax tree_flags w = MDBX_SUCCESS ->
  finds (bound true mc w (Some w) data) data (related (ord := ord) (flat t) 2 w) /\
  exists g, bound false mc w (Some w) data = Some g /\ cursor_ok (g_mc g) /\
  match flat t !! rank w with
  | Some (k, v) => g_rc g = (if decide (k = w) then MDBX_SUCCESS else MDBX_RESULT_TRUE) /\ g_key g = Some k /\ g_data g = put data v /\ stands (g_mc g) (On (rank w) false false)
  | None => g_rc g = MDBX_NOTFOUND
  end.
Proof.
  intros Hok Hs Hw Hc. destruct (range_correct mc pl w data Hok Hs Hw Hc) as (g & E & Hhere & Hrc & Hokg & Hf & _ & Hon).
  destruct (seek_correct mc pl w data MDBX_SET_RANGE Hok Hs Hw Hc ltac:(set_solver)) as (behind & exact & m & g' & Em & Eg & Hg).
  rewrite E in Eg. injection Eg as <- Eh. unfold seek_bound. rewrite E. cbn [mbind option_bind csr_got csr_exact]. unfold related. set (n := rank w) in *.
  assert (forall v, flat t !! n = Some v -> n < length (flat t))%nat as Hlt by (intros v Hv; by apply lookup_lt_Some in Hv).
  pose proof (bool_decide_reflect (w ∈ (flat t).*1)) as Hin. destruct (bool_decide (w ∈ (flat t).*1)) eqn:Eb; inversion_clear Hin as [Hin'|Hin'].
  - specialize (Hhere eq_refl). rewrite decide_True in Hrc by done. rewrite Hrc. simpl. split; [by apply Hon|].
    destruct (lookup_lt_is_Some_2 (flat t) n Hhere) as [[k v] He]. exists (set_rc MDBX_SUCCESS g). rewrite He in Hf |- *. split; [done|]. split; [done|].
    destruct Hf as (g'' & Eg & _ & H1 & H2 & H3 & n' & H4 & H5). injection Eg as <-. rewrite (decide_True (P := k = w)) by (by apply (rank_entry w k v)).
    split; [done|]. split; [done|]. split; [done|]. subst exact. unfold move_seek in Em. fold n in Em. rewrite decide_True in Em by done. injection Em as <-.
    destruct Hg as (mc' & _ & Hs' & _ & Eq). by injection Eq as ->.
  - unfold move_seek in Em. fold n in Em. rewrite decide_False in Em by done. injection Em as _ <-. destruct (decide (n < length (flat t))%nat) as [Hn|Hn].
    + destruct (lookup_lt_is_Some_2 (flat t) n Hn) as [[k v] He]. rewrite Hrc. simpl. rewrite He in Hf, Hg |- *. destruct Hf as (g'' & Eg & _ & H1 & H2 & H3 & H4). injection Eg as <-.
      split; [exists (set_rc MDBX_SUCCESS g); done|]. exists (set_rc MDBX_RESULT_TRUE g). split; [done|]. split; [done|].
      rewrite decide_False. { split; [done|]. split; [done|]. split; [done|]. destruct Hg as (mc' & _ & Hs' & _ & Eq). by injection Eq as ->. }
      intros ->. apply Hin'. apply list_elem_of_fmap. exists (w, v). split; [done|]. by eapply list_elem_of_lookup_2.
    + rewrite Hrc. simpl. rewrite (lookup_ge_None_2 (flat t) n) by lia. split; [exists (set_rc MDBX_NOTFOUND g); done|]. by exists (set_rc MDBX_NOTFOUND g).
Qed.

(** ** Scans *)

(** A program of a caller: [op] again and again, until it does not succeed. *)
Fixpoint turns (op : MDBX_cursor_op) (fuel : nat) (mc : cursor) : option (list entry_t * Z * cursor) :=
  match fuel with
  | O => None
  | S fuel =>
      g ← ops mc (Some []) (Some []) op;
      if decide (g_rc g = MDBX_SUCCESS) then
        k ← g_key g; v ← g_data g; '(es, rc, mc) ← turns op fuel (g_mc g); Some ((k, v) :: es, rc, mc)
      else Some ([], g_rc g, g_mc g)
  end.

Lemma turns_end op fuel mc m : answers (ops mc (Some []) (Some []) op) mc (Some []) (Some []) m -> m.1.1 <> MDBX_SUCCESS ->
  exists mc', turns op (S fuel) mc = Some ([], m.1.1, mc') /\ cursor_ok mc' /\ stands mc' m.1.2.
Proof.
  destruct m as [[rc pl] e]. intros (mc' & _ & Hs & Hok & E) Hrc. exists mc'. cbn [turns]. rewrite E. cbn [mbind option_bind g_rc g_mc]. by rewrite decide_False.
Qed.

Lemma turns_step op fuel mc pl e : answers (ops mc (Some []) (Some []) op) mc (Some []) (Some []) (MDBX_SUCCESS, pl, Some e) ->
  exists mc', turns op (S fuel) mc = ('(es, rc, mc) ← turns op fuel mc'; Some (e :: es, rc, mc)) /\ cursor_ok mc' /\ stands mc' pl.
Proof.
  intros (mc' & _ & Hs & Hok & E). exists mc'. cbn [turns]. rewrite E. cbn [mbind option_bind g_rc g_mc g_key g_data put fmap option_fmap option_map].
  rewrite decide_True by done. by destruct e.
Qed.

Lemma turns_next fuel : forall mc n, cursor_ok mc -> stands mc (On n false false) -> (length (flat t) <= S n + fuel)%nat ->
  exists mc', turns MDBX_NEXT (S fuel) mc = Some (drop (S n) (flat t), MDBX_NOTFOUND, mc') /\ cursor_ok mc'.
Proof.
  induction fuel as [|fuel IH]; intros mc n Hok Hs Hf; pose proof (moves_correct MDBX_NEXT mc _ (Some []) (Some []) _ Hok Hs eq_refl) as H; unfold move_step in H;
    (destruct (decide (S n < length (flat t))%nat) as [Hn|Hn]; [|destruct (turns_end _ 0 mc _ H) as (mc' & E & Hok' & _); [done|]]).
  - lia.
  - exists mc'. rewrite drop_ge by lia. done.
  - destruct (lookup_lt_is_Some_2 (flat t) (S n) Hn) as [e He]. rewrite He in H. destruct (turns_step _ (S fuel) mc _ _ H) as (mc1 & E & Hok1 & Hs1).
    destruct (IH mc1 (S n) Hok1 Hs1 ltac:(lia)) as (mc' & E1 & Hok'). exists mc'. rewrite E, E1. cbn [mbind option_bind]. split; [|done].
    by rewrite (drop_S (flat t) e (S n) He).
  - destruct (turns_end _ (S fuel) mc _ H) as (mc1 & E1 & Hok1 & _); [done|]. exists mc1. rewrite drop_ge by lia. done.
Qed.

Lemma turns_prev fuel : forall mc n soft, cursor_ok mc -> stands mc (On n soft false) -> (n <= fuel)%nat -> (n <= length (flat t))%nat ->
  exists mc', turns MDBX_PREV (S fuel) mc = Some (rev (take n (flat t)), MDBX_NOTFOUND, mc') /\ cursor_ok mc'.
Proof.
  induction fuel as [|fuel IH]; intros mc n soft Hok Hs Hf HL; pose proof (moves_correct MDBX_PREV mc _ (Some []) (Some []) _ Hok Hs eq_refl) as H; unfold move_step in H;
    (destruct (decide (0 < n)%nat) as [Hn|Hn]; [|]).
  - lia.
  - destruct (turns_end _ 0 mc _ H) as (mc' & E & Hok' & _); [done|]. exists mc'. replace n with 0%nat by lia. done.
  - destruct (lookup_lt_is_Some_2 (flat t) (n - 1)) as [e He]; [lia|]. rewrite He in H. destruct (turns_step _ (S fuel) mc _ _ H) as (mc1 & E & Hok1 & Hs1).
    destruct (IH mc1 (n - 1)%nat false Hok1 Hs1 ltac:(lia) ltac:(lia)) as (mc' & E1 & Hok'). exists mc'. rewrite E, E1. cbn [mbind option_bind]. split; [|done].
    do 3 f_equal. replace n with (S (n - 1)) at 2 by lia. rewrite (take_S_r _ _ e He), rev_app_distr. done.
  - destruct (turns_end _ (S fuel) mc _ H) as (mc1 & E1 & Hok1 & _); [done|]. exists mc1. replace n with 0%nat by lia. done.
Qed.

(** From the first or last entry through all of them. *)
Definition scan (forward : bool) (fuel : nat) (mc : cursor) : option (list entry_t * Z) :=
  g ← ops mc (Some []) (Some []) (if forward then MDBX_FIRST else MDBX_LAST);
  k ← g_key g; v ← g_data g;
  '(es, rc, _) ← turns (if forward then MDBX_NEXT else MDBX_PREV) fuel (g_mc g);
  Some ((k, v) :: es, rc).

Lemma scan_correct (forward : bool) mc pl : cursor_ok mc -> stands mc pl ->
  scan forward (length (flat t)) mc = Some (if forward then flat t else rev (flat t), MDBX_NOTFOUND).
Proof.
  intros Hok Hs. pose proof flat_nonempty as Hne. assert (0 < length (flat t))%nat as Hpos by (destruct (flat t); [done|simpl; lia]).
  unfold scan. pose proof (fun op => moves_correct op mc pl (Some []) (Some [])) as H.
  assert (S (length (flat t) - 1) = length (flat t)) as Hfuel by lia. destruct forward.
  - specialize (H MDBX_FIRST _ Hok Hs eq_refl). unfold move_first in H. destruct (lookup_lt_is_Some_2 (flat t) 0 Hpos) as [[k v] He]. rewrite He in H.
    destruct H as (mc' & _ & Hs' & Hok' & ->). cbn [mbind option_bind g_key g_data g_mc put fmap option_fmap option_map].
    destruct (turns_next (length (flat t) - 1) mc' 0 Hok' Hs') as (mc1 & E & _); [lia|]. rewrite Hfuel in E. rewrite E. cbn [mbind option_bind]. by rewrite <- (drop_S (flat t) (k, v) 0 He).
  - specialize (H MDBX_LAST _ Hok Hs eq_refl). unfold move_last in H. destruct (lookup_lt_is_Some_2 (flat t) (length (flat t) - 1)) as [[k v] He]; [lia|]. rewrite He in H.
    destruct H as (mc' & _ & Hs' & Hok' & ->). cbn [mbind option_bind g_key g_data g_mc put fmap option_fmap option_map].
    destruct (turns_prev (length (flat t) - 1) mc' _ _ Hok' Hs') as (mc1 & E & _); [lia..|]. rewrite Hfuel in E. rewrite E. cbn [mbind option_bind]. do 2 f_equal.
    transitivity (rev (take (S (length (flat t) - 1)) (flat t))); [by rewrite (take_S_r _ _ _ He), rev_app_distr|by rewrite take_ge by lia].
Qed.

(** ** Behind the end *)

Lemma last_leaf st c A C : reach t st c A C -> C = [] ->
  existsb (fun l : page_t * Z => bool_decide (snd l + 1 < Z.of_nat (page_numkeys (fst l)))) st = false.
Proof.
  destruct tab_tree as (Hwt & _). induction 1 as [|st p seps cs1 c cs2 A C Hr IH]; [done|]. intros [H1 H2]%app_eq_nil. simpl. rewrite (IH H2), orb_false_r.
  destruct (reach_wf _ _ _ _ _ _ _ _ _ _ _ _ _ Hr Hwt) as (h & Hw & _). destruct h as [|h]; [done|].
  pose proof (wf_children _ _ _ _ _ _ _ _ _ _ _ Hw) as Hcs. apply Forall_app in Hcs as [_ Hcs]. apply Forall_cons in Hcs as [_ Hcs].
  apply (wf_flats txnid front_txnid first_unallocated ps read checking false h) in H1; [|done]. subst cs2. destruct (wf_width _ _ _ _ _ _ _ (S h) _ Hw) as (Hn & _ & _). cbn [tree_page width] in Hn.
  apply bool_decide_false. rewrite Hn, length_app. simpl. lia.
Qed.

(** A search for a key behind all keys, by a cursor in the last leaf. *)
Lemma seek_behind mc p k st es A w data : cursor_ok mc -> mc_stack mc = (p, k) :: st -> reach t st (Leaf p es) A [] -> P w ->
  check_key k_lmin k_lmax tree_flags w = MDBX_SUCCESS -> rank w = length (flat t) ->
  seek mc w (Some w) data MDBX_SET_RANGE =
  Some (fails MDBX_NOTFOUND false (with_flags (with_stack mc ((p, Z.of_nat (length es)) :: st)) (eof_flags (mc_flags mc))) (Some w) data).
Proof.
  intros Hok Hst Hr Hw Hc Hrank. destruct (leaf_bounds _ _ _ _ _ Hr) as (HL & Hnk & Hes & Hm). simpl in HL.
  assert (behind : seek_behind_last txnid front_txnid first_unallocated ps read checking kcmp false root_txnid None page_touch ps2ln v_lmin v_lmax tree_flags vcmp
    mc (Z.of_nat (length es)) w (Some w) data MDBX_SET_RANGE =
    Some (fails MDBX_NOTFOUND false (with_flags (with_stack mc ((p, Z.of_nat (length es)) :: st)) (eof_flags (mc_flags mc))) (Some w) data)).
  { unfold seek_behind_last. rewrite Hst. cbn [tail]. rewrite (last_leaf _ _ _ _ Hr eq_refl). simpl. unfold u16. rewrite Z.mod_small by lia.
    unfold set_ki. by rewrite Hst. }
  unfold cursor_seek. rewrite Hc, if_ne_refl. unfold top_ki. rewrite Hst. cbn [head]. rewrite Hnk, decide_False by lia.
  destruct (key_of_leaf st p es A [] 0 Hr ltac:(lia)) as (node & k0 & -> & HK & _). cbn [mbind option_bind].
  destruct (compare_at w _ _ Hw HK) as (z & -> & Hgt & _). cbn [mbind option_bind]. assert (z > 0) as Hz by (apply Hgt; lia).
  rewrite decide_False, decide_True by lia. unfold seek_greater_first. destruct (decide (Z.of_nat (length es) > 1)); [|done].
  replace (Z.to_nat (Z.of_nat (length es) - 1)) with (length es - 1)%nat by lia.
  destruct (key_of_leaf st p es A [] (length es - 1) Hr ltac:(lia)) as (node' & k1 & -> & HK' & _). cbn [mbind option_bind].
  destruct (compare_at w _ _ Hw HK') as (z' & -> & Hgt' & _). cbn [mbind option_bind]. assert (z' > 0) as Hz' by (apply Hgt'; lia).
  by rewrite decide_False, decide_False by lia.
Qed.

(** [MDBX_NEXT] at the end says so, and takes the hard mark from the cursor. *)
Lemma next_at_end mc p k st fl : mc_stack mc = (p, k) :: st -> mc_flags mc = eof_flags fl ->
  exists b, 0 <= b < 4 /\ ops mc None None MDBX_NEXT = Some (mk_got MDBX_NOTFOUND (with_flags mc (b + eof_bits true false)) None None).
Proof.
  intros Hst Hfl. destruct (eof_flags_low fl) as (b & Hb & E). exists b. split; [done|]. rewrite E in Hfl.
  unfold cursor_ops, outer_next, cursor_step, top_ki. rewrite Hst. cbn [head]. unfold is_hollow. rewrite Hfl, eof_state, eof_not_hollow by done.
  rewrite decide_False by done. rewrite (bool_decide_false (0 <> 0)) by (intros H; by apply H). cbn [negb andb bool_decide].
  rewrite bool_decide_false by done. change (Z.land (eof_bits true true) z_after_delete) with 0. rewrite if_ne_refl. cbn [fmap option_fmap option_map]. unfold clear_eof_hard. cbn [g_mc g_rc g_key g_data option_map].
  by rewrite Hfl, eof_drop_hard.
Qed.

Lemma behind_end_filled mc p k st es A w : cursor_ok mc -> mc_stack mc = (p, k) :: st -> reach t st (Leaf p es) A [] -> P w ->
  check_key k_lmin k_lmax tree_flags w = MDBX_SUCCESS -> rank w = length (flat t) ->
  exists g g', ops mc (Some w) None MDBX_SET_RANGE = Some g /\ g_rc g = MDBX_NOTFOUND /\ ops (g_mc g) None None MDBX_NEXT = Some g' /\ g_rc g' = MDBX_NOTFOUND /\
  is_filled (g_mc g') = true /\ top_ki (g_mc g') = Some (p, Z.of_nat (page_numkeys p)).
Proof.
  intros Hok Hst Hr Hw Hc Hrank. destruct (leaf_bounds _ _ _ _ _ Hr) as (_ & -> & _).
  pose proof (seek_behind mc p k st es A w None Hok Hst Hr Hw Hc Hrank) as E. eexists.
  destruct (next_at_end (with_flags (with_stack mc ((p, Z.of_nat (length es)) :: st)) (eof_flags (mc_flags mc))) p (Z.of_nat (length es)) st (mc_flags mc) eq_refl eq_refl) as (b & Hb & E').
  eexists. split; [unfold cursor_ops, cursor_ops_seek; by rewrite E|]. split; [done|]. split; [exact E'|]. split; [done|]. split; [|done].
  unfold is_filled. simpl. by destruct (eof_filled b true false Hb ltac:(done)) as [_ ->].
Qed.
End props.
