(* ===== verification/CursorTable.v ===== *)
(** * Cursors over a table

    What the operations of a cursor promise: they move a place over the list of the
    entries of the table, and searches end at the lower bound of the key. *)

From S2P Require Import Prelude Meta Cmp CmpProps Dpl Page PageFacts PageOps Foliage FoliageFacts FoliageProps FoliageDispatch.
From S2P Require Import Cursor CursorTree CursorOps CursorFacts CursorSteps CursorSeek CursorProps.

(** ** A table of two leaves *)

Definition sample_items1 : list item := [mk_item 1 0 [1] [7]; mk_item 0 0 [3] []].
Definition sample_items2 : list item := [mk_item 1 0 [5] [8]; mk_item 1 0 [9; 9] [2]].
Definition sample_page1 : page_t := make_page P_LEAF 4 100 sample_items1.
Definition sample_page2 : page_t := make_page P_LEAF 5 100 sample_items2.
Definition sample_root_items : list item := [mk_item 4 0 [] []; mk_item 5 0 [5] []].
Definition sample_root : page_t := make_page P_BRANCH 8 100 sample_root_items.
Definition sample_tree : tree :=
  Branch sample_root [[]; [5]] [Leaf sample_page1 [([1], [7]); ([3], [])]; Leaf sample_page2 [([5], [8]); ([9; 9], [2])]].
Definition sample_read (pgno : Z) : Z + page_t :=
  if decide (pgno = 8) then inr sample_root else if decide (pgno = 4) then inr sample_page1 else if decide (pgno = 5) then inr sample_page2 else inl MDBX_CORRUPTED.

Abbreviation sample_cmp := (cmp_of 8 a_memcmp null_comparator CMP_LEXICAL).
Abbreviation sample_key := (table_key 0 0).
Abbreviation sample_ord := (key_order 0).

#[export] Instance sample_order : KeyOrder sample_key sample_ord sample_cmp := keycmp_order 8 a_memcmp null_comparator 0 0 a_memcmp_int.

Lemma sample_leaf_entries pgno items : Forall (item_ok true) items -> Forall (fun it => it_flags it = 0) items ->
  (2 * length items + length (concat (plain_image <$> items)) <= 100)%nat ->
  leaf_entries (make_page P_LEAF pgno 100 items) false ((fun it => (it_key it, it_data it)) <$> items).
Proof.
  intros H1 H2 H3. apply (entries_of_nodes _ 100); [|done|done]. by apply make_page_holds.
Qed.

Lemma sample_wf : wf 5 5 16 4096 sample_read P_LEAF false 1 sample_tree.
Proof.
  split; [done|]. exists 100%nat, sample_root_items. split.
  { apply make_page_holds; [done|repeat constructor; discriminate|done|apply Nat.leb_le; vm_compute; reflexivity]. }
  split; [done|]. split; [done|]. split; [done|]. intros [|[|i]] it c Hit Hc; simpl in Hit, Hc; [..|by rewrite lookup_nil in Hit]; simplify_eq;
    (split; [done|]; split; [split_and!; vm_compute; done|]); (split; [done|]; split; [done|]; split; [|done]).
  - apply (sample_leaf_entries 4 sample_items1); [repeat constructor; discriminate|repeat constructor|apply Nat.leb_le; vm_compute; reflexivity].
  - apply (sample_leaf_entries 5 sample_items2); [repeat constructor; discriminate|repeat constructor|apply Nat.leb_le; vm_compute; reflexivity].
Qed.

Ltac sample_keys := repeat (apply Forall_cons; split; [apply table_key_lexical; [repeat constructor; done|reflexivity]|]); apply Forall_nil_2.

Lemma sample_separated : separated (P := sample_key) (ord := sample_ord) 1 sample_tree.
Proof.
  split; [sample_keys|]. split; [repeat constructor|]. split; [|repeat constructor].
  intros [|[|i]] s j c k Hi Hs Hc Hk; simpl in Hs; [lia|..|by rewrite lookup_nil in Hs]. simplify_eq.
  destruct j as [|[|j]]; simpl in Hc; [..|by rewrite lookup_nil in Hc]; simplify_eq; simpl in Hk; set_unfold; destruct_or!; subst;
    (split; [|]; intros; (lia || (vm_compute; done))).
Qed.

#[export] Instance sample_table : TableOk 5 5 16 4096 sample_read P_LEAF false sample_key sample_ord 5 sample_tree 1 8.
Proof.
  split; [|split_and!; vm_compute; done|vm_compute; done..].
  split; [exact sample_wf|]. split; [exact sample_separated|]. split; [lia|]. split; [sample_keys|repeat constructor].
Qed.

(** ** What the operations promise *)

Section claims.
Context (txnid front_txnid first_unallocated ps : Z) (read : Z -> Z + page_t) (checking : Z).
Context (P : list Z -> Prop) (ord : list Z -> list Z -> comparison) (kcmp : comparator) {Hord : KeyOrder P ord kcmp}.
Context (root_txnid : Z) (page_touch : cursor -> option (Z * cursor)) (ps2ln : Z).
Context (t : tree) (ht : nat) (root : Z).
Context {Htab : TableOk txnid front_txnid first_unallocated ps read checking false P ord root_txnid t ht root}.
Context (k_lmin k_lmax v_lmin v_lmax tree_flags : Z) (vcmp : comparator).

Abbreviation ops := (cursor_ops txnid front_txnid first_unallocated ps read checking kcmp false root_txnid None page_touch ps2ln k_lmin k_lmax v_lmin v_lmax tree_flags vcmp).
Abbreviation cursor_ok := (cursor_ok (t := t) (root := root)).
Abbreviation stands := (stands (t := t)).
Abbreviation answers := (answers (t := t) (root := root)).
Abbreviation key_fits w := (P w /\ check_key k_lmin k_lmax tree_flags w = MDBX_SUCCESS).


(** C6. A search for a key ends at the lower bound of the key among the keys of all
    leaves, from any place of the cursor, by the way through the page at hand as well
    as from the root, in a table as in C3 (one value for each key, no values
    on large pages, not empty): [MDBX_SET] and [MDBX_SET_KEY] find the entry or nothing,
    [MDBX_SET_RANGE] the first entry which is not less, or the end of the data;
    [MDBX_SET_UPPERBOUND] the first which is greater, and [MDBX_SET_LOWERBOUND]
    tells with [MDBX_RESULT_TRUE] that the entry is not the key itself. *)
Theorem cursor_search_correct mc pl w data :
  cursor_ok mc -> stands mc pl -> key_fits w ->
  (forall op, op ∈ [MDBX_SET; MDBX_SET_KEY; MDBX_SET_RANGE] ->
    exists behind, answers (ops mc (Some w) data op) mc (Some w) data (move_seek (ord := ord) (flat t) w op behind).2) /\
  (forall v, data = Some v ->
    finds (t := t) (root := root) (ops mc (Some w) data MDBX_SET_UPPERBOUND) data (related (ord := ord) (flat t) 2 w) /\
    exists g, ops mc (Some w) data MDBX_SET_LOWERBOUND = Some g /\ cursor_ok (g_mc g) /\
    match flat t !! lower_bound (ord := ord) (flat t).*1 w with
    | Some (k, v) => g_rc g = (if decide (k = w) then MDBX_SUCCESS else MDBX_RESULT_TRUE) /\ g_key g = Some k /\ g_data g = Some v /\
        stands (g_mc g) (On (lower_bound (ord := ord) (flat t).*1 w) false false)
    | None => g_rc g = MDBX_NOTFOUND
    end).
Proof.
  intros Hok Hs [Hw Hc]. split.
  - intros op Hop. destruct (seek_correct (page_touch := page_touch) (ps2ln := ps2ln) (v_lmin := v_lmin) (v_lmax := v_lmax) (vcmp := vcmp) mc pl w data op Hok Hs Hw Hc Hop)
      as (behind & exact & m & g & Em & E & Hg). exists behind. rewrite Em. set_unfold. destruct Hop as [->|[->|[->|[]]]]; unfold cursor_ops, cursor_ops_seek; by rewrite E.
  - intros v ->. exact (bound_correct mc pl w (Some v) Hok Hs Hw Hc).
Qed.

(** C22. The operations [MDBX_TO_KEY_*] find the entry next to the key in the wanted
    relation (less, not greater, equal, not less, greater), from any place of the
    cursor in a table as in C3 (one value for each key, no values on large pages, not
    empty), and answer [MDBX_NOTFOUND] if there is none. *)
Theorem cursor_to_key_nearest op rel mc pl w data :
  cursor_ok mc -> stands mc pl -> key_fits w -> seek_relation op = Some rel ->
  op ∈ [MDBX_TO_KEY_LESSER_THAN; MDBX_TO_KEY_LESSER_OR_EQUAL; MDBX_TO_KEY_EQUAL; MDBX_TO_KEY_GREATER_OR_EQUAL; MDBX_TO_KEY_GREATER_THAN] ->
  finds (t := t) (root := root) (ops mc (Some w) data op) data (related (ord := ord) (flat t) rel w).
Proof.
  intros Hok Hs [Hw Hc] Hrel Hop. assert (-2 <= rel <= 2) as Hr by (destruct op; simplify_eq/=; lia).
  pose proof (to_key_correct (page_touch := page_touch) (ps2ln := ps2ln) (v_lmin := v_lmin) (v_lmax := v_lmax) (vcmp := vcmp) mc pl w data rel Hok Hs Hw Hc Hr) as H.
  set_unfold. destruct Hop as [->|[->|[->|[->|[->|[]]]]]]; simplify_eq/=; exact H.
Qed.

(** C23. In a table as in C3 (one value for each key, no values on large pages, not
    empty) a scan ends and is complete: [MDBX_FIRST] and then [MDBX_NEXT] until it does
    not succeed gives each entry of the table once, in order, and then
    [MDBX_NOTFOUND], whatever the cursor did before; [MDBX_LAST] with [MDBX_PREV]
    gives them backwards. *)
Theorem cursor_scan_complete (forward : bool) mc pl :
  cursor_ok mc -> stands mc pl ->
  scan (txnid := txnid) (front_txnid := front_txnid) (first_unallocated := first_unallocated) (ps := ps) (read := read) (checking := checking) (kcmp := kcmp)
  (root_txnid := root_txnid) (page_touch := page_touch) (ps2ln := ps2ln) (k_lmin := k_lmin) (k_lmax := k_lmax) (v_lmin := v_lmin) (v_lmax := v_lmax)
    (tree_flags := tree_flags) (vcmp := vcmp) forward (length (flat t)) mc = Some (if forward then flat t else rev (flat t), MDBX_NOTFOUND).
Proof. apply scan_correct. Qed.

(** Behind the end a cursor can be left filled without an entry: a search by
    [MDBX_SET_RANGE] for a key greater than all, made by a cursor in the last leaf,
    puts it behind the last entry, [MDBX_NEXT] then answers [MDBX_NOTFOUND] but takes
    the mark [z_eof_hard] away; [MDBX_GET_CURRENT], which sees a filled cursor, would
    read node number [page_numkeys] of the page. *)
Theorem cursor_behind_end_filled mc p k st es A w :
  cursor_ok mc -> mc_stack mc = (p, k) :: st -> reach t st (Leaf p es) A [] -> key_fits w ->
  lower_bound (ord := ord) (flat t).*1 w = length (flat t) ->
  exists g g', ops mc (Some w) None MDBX_SET_RANGE = Some g /\ g_rc g = MDBX_NOTFOUND /\
  ops (g_mc g) None None MDBX_NEXT = Some g' /\ g_rc g' = MDBX_NOTFOUND /\
  is_filled (g_mc g') = true /\ top_ki (g_mc g') = Some (p, Z.of_nat (page_numkeys p)).
Proof. intros Hok Hst Hr [Hw Hc] Hrank. by apply (behind_end_filled mc p k st es A w). Qed.
End claims.

(** ** Witnesses *)

Definition sample_touch (mc : cursor) : option (Z * cursor) := Some (MDBX_SUCCESS, mc).
Definition sample_last : cursor := mk_cursor 0 [(sample_page2, 0); (sample_root, 1)] 8 0.
Abbreviation sample_ops := (cursor_ops 5 5 16 4096 sample_read P_LEAF sample_cmp false 5 None sample_touch 12 0 100 0 100 0 sample_cmp).


Lemma sample_last_reach : reach sample_tree [(sample_root, 1)] (Leaf sample_page2 [([5], [8]); ([9; 9], [2])]) [([1], [7]); ([3], [])] [].
Proof.
  exact (reach_child sample_tree [] sample_root [[]; [5]] [Leaf sample_page1 [([1], [7]); ([3], [])]] (Leaf sample_page2 [([5], [8]); ([9; 9], [2])]) [] [] []
    (reach_root sample_tree)).
Qed.

Lemma sample_last_ok : cursor_ok (t := sample_tree) (root := 8) sample_last /\ stands (t := sample_tree) sample_last (On 2 false false).
Proof.
  split; [split; [done|]; split; [done|]; right; by eexists _, _, _, _, _, _; split; [|exact sample_last_reach]|]. split; [done|]. split.
  - exists sample_page2, 0%nat, [(sample_root, 1)], [([5], [8]); ([9; 9], [2])], [([1], [7]); ([3], [])], []. split; [done|].
    split; [exact sample_last_reach|]. simpl. lia.
  - by exists 0.
Qed.


Lemma cursor_search_correct_witness :
  exists behind, answers (t := sample_tree) (root := 8) (sample_ops sample_last (Some [4]) (Some []) MDBX_SET_RANGE) sample_last (Some [4]) (Some [])
  (move_seek (ord := sample_ord) (flat sample_tree) [4] MDBX_SET_RANGE behind).2.
Proof.
  destruct sample_last_ok as [H1 H2].
  destruct (cursor_search_correct 5 5 16 4096 sample_read P_LEAF sample_key sample_ord sample_cmp 5 sample_touch 12 sample_tree 1 8 0 100 0 100 0 sample_cmp
    sample_last (On 2 false false) [4] (Some [])) as [H _]; [exact H1|exact H2| |].
  - split; [|reflexivity]. apply table_key_lexical; [repeat constructor; done|reflexivity].
  - apply (H MDBX_SET_RANGE). right. right. left.
Defined.

Lemma cursor_to_key_nearest_witness :
  finds (t := sample_tree) (root := 8) (sample_ops sample_last (Some [4]) (Some []) MDBX_TO_KEY_LESSER_THAN) (Some []) (Some ([3], [])).
Proof.
  destruct sample_last_ok as [H1 H2].
  apply (cursor_to_key_nearest 5 5 16 4096 sample_read P_LEAF sample_key sample_ord sample_cmp 5 sample_touch 12 sample_tree 1 8 0 100 0 100 0 sample_cmp
    MDBX_TO_KEY_LESSER_THAN (-2) sample_last (On 2 false false) [4] (Some [])); [exact H1|exact H2| |reflexivity|left].
  split; [|reflexivity]. apply table_key_lexical; [repeat constructor; done|reflexivity].
Defined.

Lemma cursor_scan_complete_witness :
  scan (txnid := 5) (front_txnid := 5) (first_unallocated := 16) (ps := 4096) (read := sample_read) (checking := P_LEAF) (kcmp := sample_cmp) (root_txnid := 5)
  (page_touch := sample_touch) (ps2ln := 12) (k_lmin := 0) (k_lmax := 100) (v_lmin := 0) (v_lmax := 100) (tree_flags := 0) (vcmp := sample_cmp) true 4 sample_last =
    Some ([([1], [7]); ([3], []); ([5], [8]); ([9; 9], [2])], MDBX_NOTFOUND).
Proof.
  destruct sample_last_ok as [H1 H2].
  exact (cursor_scan_complete 5 5 16 4096 sample_read P_LEAF sample_key sample_ord sample_cmp 5 sample_touch 12 sample_tree 1 8 0 100 0 100 0 sample_cmp
    true sample_last (On 2 false false) H1 H2).
Defined.

(** Here node 2 of a page with two nodes is read, which is not in the page. *)
Lemma cursor_behind_end_filled_witness : exists g g',
  sample_ops sample_last (Some [10]) None MDBX_SET_RANGE = Some g /\ sample_ops (g_mc g) None None MDBX_NEXT = Some g' /\
  top_ki (g_mc g') = Some (sample_page2, 2) /\ is_filled (g_mc g') = true.
Proof.
  destruct sample_last_ok as [H1 _].
  destruct (cursor_behind_end_filled 5 5 16 4096 sample_read P_LEAF sample_key sample_ord sample_cmp 5 sample_touch 12 sample_tree 1 8 0 100 0 100 0 sample_cmp
    sample_last sample_page2 0 [(sample_root, 1)] [([5], [8]); ([9; 9], [2])] [([1], [7]); ([3], [])] [10]) as (g & g' & E & _ & E' & _ & Hf & Ht).
  - exact H1.
  - reflexivity.
  - exact sample_last_reach.
  - split; [|reflexivity]. apply table_key_lexical; [repeat constructor; done|reflexivity].
  - reflexivity.
  - exists g, g'. split; [exact E|]. split; [exact E'|]. split; [exact Ht|exact Hf].
Defined.

(** The sequence with [MDBX_GET_CURRENT] leaves the page. *)
Example behind_end_read :
  (g ← sample_ops sample_last (Some [10]) None MDBX_SET_RANGE;
    g ← sample_ops (g_mc g) None None MDBX_NEXT;
    sample_ops (g_mc g) (Some []) (Some []) MDBX_GET_CURRENT) = None.
Proof. vm_compute. reflexivity. Qed.
