(* ===== verification/Limits.v ===== *)
(** * Limits of keys, values and nodes, and what follows from the size of a page

    The limits that the interface announces ([mdbx_limits_keysize_max] and relatives),
    those that an environment keeps ([env_setup_pagesize] with the thresholds for
    subpages and merging), and the binary logarithm below them. *)

From S2P Require Import Prelude Meta Cmp Page.

(** ** Logarithms *)

Definition debruijn_ctz32 : list Z :=
  [0; 1; 28; 2; 29; 14; 24; 3; 30; 22; 20; 15; 25; 17; 4; 8; 31; 27; 13; 23; 21; 19; 16; 7; 26; 12; 18; 6; 11; 5; 10; 9].

(** [__builtin_ctz], the number of trailing zero bits of a word that is not zero. *)
Definition builtin_ctz (x : Z) : Z := Z.log2 (Z.land x (- x)).

(** [builtin] says that the compiler has [__builtin_ctz]. *)
Definition log2n_powerof2 (builtin : bool) (value : Z) : option Z :=
  let value_uint32 := u32 value in
  if builtin then Some (builtin_ctz value_uint32)
  else rd debruijn_ctz32 (Z.to_nat (Z.shiftr (u32 (value_uint32 * 0x077CB531)) 27)).

Definition ceil_log2n (builtin : bool) (value : Z) : option Z :=
  let v := u64 (value - 1) in
  let v := Z.lor v (Z.shiftr v 1) in
  let v := Z.lor v (Z.shiftr v 2) in
  let v := Z.lor v (Z.shiftr v 4) in
  let v := Z.lor v (Z.shiftr v 8) in
  let v := Z.lor v (Z.shiftr v 16) in
  log2n_powerof2 builtin (v + 1).

(** ** Limits of a page size *)

Definition sizeof_tree_t : Z := 48.
Definition MAX_GC1OVPAGE (pagesize : Z) : Z := PAGESPACE pagesize / sizeof_pgno_t - 1.

Definition dup_flags : Z := Z.lor MDBX_DUPSORT (Z.lor MDBX_DUPFIXED (Z.lor MDBX_REVERSEDUP MDBX_INTEGERDUP)).
Definition has (flags mask : Z) : bool := bool_decide (Z.land flags mask <> 0).

Definition keysize_max (pagesize flags : Z) : Z :=
  if has flags MDBX_INTEGERKEY then 8
  else
    let max_branch_key := BRANCH_NODE_MAX pagesize - NODESIZE in
    if has flags dup_flags then
      let max_dupsort_leaf_key := LEAF_NODE_MAX pagesize - NODESIZE - sizeof_tree_t in
      if decide (max_branch_key < max_dupsort_leaf_key) then max_branch_key else max_dupsort_leaf_key
    else max_branch_key.

Definition keysize_min (flags : Z) : Z := if has flags MDBX_INTEGERKEY then 4 else 0.

Definition valsize_min (flags : Z) : Z :=
  if has flags MDBX_INTEGERDUP then 4 else if has flags MDBX_DUPFIXED then sizeof_indx_t else 0.

(** The limit of values on large pages for pages of [2 ^ page_ln2] bytes. *)
Definition large_limit (page_ln2 : Z) : Z :=
  let hard := 0x7FF00000 in
  let hard_pages := Z.shiftr hard page_ln2 in
  let pages_limit := PAGELIST_LIMIT / 4 in
  let limit := if decide (hard_pages < pages_limit) then hard else u64 (Z.shiftl pages_limit page_ln2) in
  if decide (limit < MAX_MAPSIZE / 2) then limit else MAX_MAPSIZE / 2.

Definition valsize_max (builtin : bool) (pagesize flags : Z) : option Z :=
  if has flags MDBX_INTEGERDUP then Some 8
  else if has flags (Z.lor MDBX_DUPSORT (Z.lor MDBX_DUPFIXED MDBX_REVERSEDUP)) then Some (keysize_max pagesize 0)
  else page_ln2 ← log2n_powerof2 builtin pagesize; Some (large_limit page_ln2).

(** ** The interface: any size, where less than 1 stands for the default *)

Definition mdbx_default_pagesize (sys_pagesize : Z) : Z :=
  let pagesize := if decide (sys_pagesize >= MDBX_MIN_PAGESIZE) then sys_pagesize else MDBX_MIN_PAGESIZE in
  if decide (pagesize <= MDBX_MAX_PAGESIZE) then pagesize else MDBX_MAX_PAGESIZE.

Section Interface.
Context (builtin : bool) (sys_pagesize : Z).

(** The page size that is meant, if it is one. *)
Definition checked_pagesize (pagesize : Z) : option Z :=
  let pagesize := if decide (pagesize < 1) then mdbx_default_pagesize sys_pagesize else pagesize in
  if bool_decide (pagesize < MDBX_MIN_PAGESIZE \/ pagesize > MDBX_MAX_PAGESIZE) || negb (is_powerof2 pagesize) then None
  else Some pagesize.

Definition mdbx_limits_dbsize_min (pagesize : Z) : Z :=
  match checked_pagesize pagesize with None => -1 | Some ps => MIN_PAGENO * ps end.
Definition mdbx_limits_dbsize_max (pagesize : Z) : Z :=
  match checked_pagesize pagesize with
  | None => -1
  | Some ps => let limit := u64 ((1 + MAX_PAGENO) * ps) in if decide (limit < MAX_MAPSIZE) then limit else MAX_MAPSIZE
  end.
Definition mdbx_limits_keysize_max (pagesize flags : Z) : Z :=
  match checked_pagesize pagesize with None => -1 | Some ps => keysize_max ps flags end.
Definition mdbx_limits_valsize_max (pagesize flags : Z) : option Z :=
  match checked_pagesize pagesize with None => Some (-1) | Some ps => valsize_max builtin ps flags end.
Definition mdbx_limits_pairsize4page_max (pagesize flags : Z) : Z :=
  match checked_pagesize pagesize with
  | None => -1
  | Some ps => if has flags dup_flags then BRANCH_NODE_MAX ps - NODESIZE else LEAF_NODE_MAX ps - NODESIZE
  end.
Definition mdbx_limits_valsize4page_max (pagesize flags : Z) : option Z :=
  match checked_pagesize pagesize with
  | None => Some (-1)
  | Some ps => if has flags dup_flags then valsize_max builtin ps flags else Some (PAGESPACE ps)
  end.
End Interface.

(** ** What an environment keeps *)

(** The options that the thresholds depend on, as fractions of 65536. *)
Record fractions := mk_fractions {
  fr_merge : Z;
  fr_subpage_limit : Z;
  fr_room_threshold : Z;
  fr_reserve_prereq : Z;
  fr_reserve_limit : Z
}.

Record page_setup := mk_setup {
  ps : Z;
  ps2ln : Z;
  maxgc_large1page : Z;
  maxgc_per_branch : Z;
  leaf_nodemax : Z;
  branch_nodemax : Z;
  merge_threshold : Z;
  subpage_limit : Z;
  subpage_room_threshold : Z;
  subpage_reserve_prereq : Z;
  subpage_reserve_limit : Z
}.

Definition recalculate_merge_thresholds (fr : fractions) (s : page_setup) : page_setup :=
  let whole_page_space := page_space (ps s) in
  mk_setup (ps s) (ps2ln s) (maxgc_large1page s) (maxgc_per_branch s) (leaf_nodemax s) (branch_nodemax s)
    (u16 (whole_page_space - Z.shiftr (whole_page_space * fr_merge fr) 16))
    (subpage_limit s) (subpage_room_threshold s) (subpage_reserve_prereq s) (subpage_reserve_limit s).

(** [(whole * fraction + 32767) >> 16] *)
Definition dot16 (whole fraction : Z) : Z := Z.shiftr (whole * fraction + 32767) 16.

Definition recalculate_subpage_thresholds (fr : fractions) (s : page_setup) : page_setup :=
  let limit := dot16 (leaf_nodemax s - NODESIZE) (fr_subpage_limit fr) in
  let reserve_limit := dot16 limit (fr_reserve_limit fr) in
  let room_threshold := dot16 (leaf_nodemax s) (fr_room_threshold fr) in
  let prereq := dot16 (leaf_nodemax s) (fr_reserve_prereq fr) in
  let prereq :=
    if decide (room_threshold + reserve_limit > page_space (ps s)) then page_space (ps s)
    else if decide (prereq < room_threshold + reserve_limit) then room_threshold + reserve_limit else prereq in
  mk_setup (ps s) (ps2ln s) (maxgc_large1page s) (maxgc_per_branch s) (leaf_nodemax s) (branch_nodemax s)
    (merge_threshold s) limit room_threshold prereq reserve_limit.

(** [None] is the panic about a page size that is refused. *)
Definition env_setup_pagesize (builtin : bool) (fr : fractions) (pagesize : Z) : option page_setup :=
  if negb (is_powerof2 pagesize) || bool_decide (pagesize < MDBX_MIN_PAGESIZE \/ pagesize > MDBX_MAX_PAGESIZE) then None
  else
    let maxgc_ov1page := (pagesize - PAGEHDRSZ) / sizeof_pgno_t - 1 in
    if negb (bool_decide (maxgc_ov1page > 42 /\ maxgc_ov1page < PAGELIST_LIMIT / 4)) then None
    else
      let branch_nodemax := BRANCH_NODE_MAX pagesize in
      let leaf_nodemax := LEAF_NODE_MAX pagesize in
      if negb (bool_decide (branch_nodemax > NODESIZE + 42 /\ branch_nodemax mod 2 = 0 /\
        leaf_nodemax > sizeof_tree_t + NODESIZE + 42 /\ leaf_nodemax >= branch_nodemax /\
        leaf_nodemax < 65535 /\ leaf_nodemax mod 2 = 0)) then None
      else
        ln2 ← log2n_powerof2 builtin pagesize;
        let s := mk_setup pagesize (u8 ln2) maxgc_ov1page
          ((pagesize - PAGEHDRSZ) / (sizeof_indx_t + NODESIZE + 8)) (u16 leaf_nodemax) (u16 branch_nodemax) 0 0 0 0 0 in
        Some (recalculate_subpage_thresholds fr (recalculate_merge_thresholds fr s)).

(** The room that is reserved in a subpage of items of [item_len] bytes, besides a
    byte for an odd length; [n] turns are left of five. *)
Fixpoint subleaf2_reserve_loop (n : nat) (s : page_setup) (host_page_room subpage_len item_len reserve : Z) : Z :=
  match n with
  | O => reserve + Z.land subpage_len 1
  | S n =>
      if bool_decide (reserve + item_len <= subpage_reserve_limit s /\ EVEN_CEIL (subpage_len + item_len) <= subpage_limit s /\
        host_page_room >= subpage_reserve_prereq s + EVEN_CEIL (subpage_len + item_len))
      then subleaf2_reserve_loop n s host_page_room (subpage_len + item_len) item_len (reserve + item_len)
      else reserve + Z.land subpage_len 1
  end.
Definition page_subleaf2_reserve (s : page_setup) (host_page_room subpage_len item_len : Z) : Z :=
  subleaf2_reserve_loop 5 s host_page_room subpage_len item_len 0.
