(* ===== verification/LimitsProps.v ===== *)
(** * Theorems on the limits *)

From S2P Require Import Prelude Meta Cmp Page PageFacts PageOps MetaProps Limits.

(** ** Logarithms *)

Lemma power_cases k : 0 <= k < 31 -> exists n : nat, (n < 31)%nat /\ k = Z.of_nat n.
Proof. intros H. exists (Z.to_nat k). lia. Qed.

(** Both forms of the logarithm agree on all powers of two of a 32-bit word. *)
Lemma log2n_correct builtin k : 0 <= k < 31 -> log2n_powerof2 builtin (2 ^ k) = Some k.
Proof.
  intros H. destruct (power_cases k H) as (n & Hn & ->). clear H.
  assert (forallb (fun n => bool_decide (log2n_powerof2 true (2 ^ Z.of_nat n) = Some (Z.of_nat n) /\
    log2n_powerof2 false (2 ^ Z.of_nat n) = Some (Z.of_nat n))) (seq 0 31) = true) as Hall by (vm_compute; reflexivity).
  rewrite forallb_forall in Hall. specialize (Hall n). rewrite bool_decide_eq_true in Hall.
  destruct Hall as [H1 H2]; [apply in_seq; lia|]. by destruct builtin.
Qed.

(** [n] ones *)
Lemma smear_step v k j : 0 <= k -> 0 < j -> 2 ^ k <= v < 2 ^ (k + 1) ->
  (forall i, Z.max 0 (k + 1 - j) <= i <= k -> Z.testbit v i = true) ->
  let w := Z.lor v (Z.shiftr v j) in
  2 ^ k <= w < 2 ^ (k + 1) /\ (forall i, Z.max 0 (k + 1 - 2 * j) <= i <= k -> Z.testbit w i = true).
Proof.
  intros Hk Hj Hv Hb w. assert (Hpos : 0 < 2 ^ k) by (apply Z.pow_pos_nonneg; lia).
  assert (Hlog : Z.log2 v = k) by (apply Z.log2_unique; [done|]; by rewrite <- Z.add_1_r).
  assert (Hs : 0 <= Z.shiftr v j) by (rewrite Z.shiftr_nonneg; lia).
  assert (Hwl : Z.log2 w = k).
  { unfold w. rewrite Z.log2_lor by lia. rewrite Hlog. destruct (Z.eq_dec (Z.shiftr v j) 0) as [->|Hn]; [cbn; lia|].
    pose proof (Z.log2_shiftr v j ltac:(lia)). rewrite H. lia. }
  assert (Hw : 0 < w). { assert (w <> 0); [|assert (0 <= w) by (apply Z.lor_nonneg; lia); lia].
    intros E. apply Z.lor_eq_0_iff in E. lia. }
  split; [pose proof (Z.log2_spec w Hw) as Hspec; rewrite Hwl in Hspec; by rewrite Z.add_1_r|].
  intros i Hi. unfold w. rewrite Z.lor_spec, orb_true_iff.
  destruct (Z.le_gt_cases (k + 1 - j) i) as [Hc|Hc]; [left; apply Hb; lia|]. right.
  rewrite Z.shiftr_spec by lia. apply Hb. lia.
Qed.

(** [ceil_log2n] rounds up. *)
Lemma ceil_log2n_correct builtin v k :
  0 <= k < 30 -> 2 ^ k < v <= 2 ^ (k + 1) -> ceil_log2n builtin v = Some (k + 1).
Proof.
  intros Hk Hv. assert (Hp : 0 < 2 ^ k) by (apply Z.pow_pos_nonneg; lia).
  assert (Hm : 2 ^ (k + 1) <= 2 ^ 30) by (apply Z.pow_le_mono_r; lia).
  unfold ceil_log2n. rewrite u64_small by (unfold UINT64_MAX; lia).
  set (v0 := v - 1). assert (H0 : 2 ^ k <= v0 < 2 ^ (k + 1)) by lia.
  assert (B0 : forall i, Z.max 0 (k + 1 - 1) <= i <= k -> Z.testbit v0 i = true).
  { intros i Hi. replace i with k by lia. replace k with (Z.log2 v0) by (apply Z.log2_unique; [lia|]; by rewrite <- Z.add_1_r).
    apply Z.bit_log2. lia. }
  destruct (smear_step v0 k 1 ltac:(lia) ltac:(lia) H0 B0) as [H1 B1].
  destruct (smear_step _ k 2 ltac:(lia) ltac:(lia) H1 B1) as [H2 B2].
  destruct (smear_step _ k 4 ltac:(lia) ltac:(lia) H2 B2) as [H3 B3].
  destruct (smear_step _ k 8 ltac:(lia) ltac:(lia) H3 B3) as [H4 B4].
  destruct (smear_step _ k 16 ltac:(lia) ltac:(lia) H4 B4) as [H5 B5].
  set (w := Z.lor _ _) in H5, B5 |- *. assert (w = Z.ones (k + 1)) as ->.
  { apply Z.bits_inj'. intros i Hi. destruct (Z.lt_ge_cases i (k + 1)) as [Hc|Hc].
    - rewrite Z.ones_spec_low by lia. apply B5. lia.
    - rewrite Z.ones_spec_high by lia. apply Z.bits_above_log2; [lia|].
      assert (Z.log2 w = k) by (apply Z.log2_unique; [lia|]; by rewrite <- Z.add_1_r). lia. }
  rewrite Z.ones_equiv. replace (Z.pred (2 ^ (k + 1)) + 1) with (2 ^ (k + 1)) by lia. apply log2n_correct. lia.
Qed.

(** ** Nodes of the greatest size *)

Definition page_sizes : list Z := [256; 512; 1024; 2048; 4096; 8192; 16384; 32768; 65536].

Lemma page_size_cases pagesize :
  is_powerof2 pagesize = true -> MDBX_MIN_PAGESIZE <= pagesize <= MDBX_MAX_PAGESIZE -> pagesize ∈ page_sizes.
Proof.
  intros Hp Hr. unfold MDBX_MIN_PAGESIZE, MDBX_MAX_PAGESIZE in Hr.
  destruct (is_powerof2_spec pagesize) as (j & Hj & ->); [lia|done|].
  assert (8 <= j <= 16) as Hj'.
  { split; [apply (Z.pow_le_mono_r_iff 2); [lia|lia|]|apply (Z.pow_le_mono_r_iff 2); [lia|lia|]]; cbn; lia. }
  assert (j ∈ [8; 9; 10; 11; 12; 13; 14; 15; 16]) as Hin by (rewrite !elem_of_cons; lia).
  unfold page_sizes. repeat (apply elem_of_cons in Hin as [->|Hin]; [apply (bool_decide_unpack _); vm_compute; exact I|]). by apply elem_of_nil in Hin.
Qed.

(** A fact about each of the sizes, found by computation. *)
Ltac each_size H := unfold page_sizes in H; repeat (apply elem_of_cons in H as [->|H]); [..|by apply elem_of_nil in H].

Lemma node_sizes pagesize : pagesize ∈ page_sizes ->
  NODESIZE + sizeof_indx_t + 2 * (BRANCH_NODE_MAX pagesize + sizeof_indx_t) <= PAGESPACE pagesize /\
  2 * (LEAF_NODE_MAX pagesize + sizeof_indx_t) <= PAGESPACE pagesize /\
  8 <= keysize_max pagesize 0 < 2 ^ 15 /\
  NODESIZE + EVEN_CEIL (keysize_max pagesize 0) <= BRANCH_NODE_MAX pagesize /\
  NODESIZE + EVEN_CEIL (keysize_max pagesize 0 + sizeof_pgno_t) <= LEAF_NODE_MAX pagesize /\
  NODESIZE + EVEN_CEIL (keysize_max pagesize MDBX_DUPSORT + sizeof_tree_t) <= LEAF_NODE_MAX pagesize.
Proof. intros H. each_size H; vm_compute; repeat split; congruence. Qed.

Lemma keysize_max_cases pagesize flags : pagesize ∈ page_sizes ->
  keysize_max pagesize flags <= keysize_max pagesize 0 /\
  (has flags dup_flags = true -> keysize_max pagesize flags <= keysize_max pagesize MDBX_DUPSORT) /\
  keysize_min flags <= keysize_max pagesize flags.
Proof.
  intros Hin. unfold keysize_max, keysize_min. change (has 0 MDBX_INTEGERKEY) with false. change (has 0 dup_flags) with false.
  change (has MDBX_DUPSORT MDBX_INTEGERKEY) with false. change (has MDBX_DUPSORT dup_flags) with true. cbv iota.
  each_size Hin; destruct (has flags MDBX_INTEGERKEY), (has flags dup_flags); vm_compute; (split; [|split]); congruence.
Qed.

Lemma EVEN_CEIL_mono a b : 0 <= a -> a <= b -> b < 2 ^ 62 -> EVEN_CEIL a <= EVEN_CEIL b.
Proof. intros. rewrite !EVEN_CEIL_spec by lia. pose proof (Z.mod_pos_bound a 2 ltac:(lia)). pose proof (Z.div_mod a 2 ltac:(lia)).
  pose proof (Z.mod_pos_bound b 2 ltac:(lia)). pose proof (Z.div_mod b 2 ltac:(lia)). lia. Qed.

(** *** The room of a page is what its items leave *)

Lemma length_concat_perm (l1 l2 : list (list Z)) : l1 ≡ₚ l2 -> length (concat l1) = length (concat l2).
Proof. induction 1; cbn; rewrite ?length_app in *; lia. Qed.

Lemma page_room_items size p items : page_holds size p items -> page_room p = Z.of_nat size - Z.of_nat (items_size items).
Proof.
  intros [Hsize _ _ _ Hlow (offs & images & phys & F & Hb & Hup & Him & Hlen & Hperm & _)]. unfold page_room.
  apply (f_equal length) in Hb. rewrite Hsize, !length_app, length_concat_chunks, length_table in Hb by apply table_chunks.
  assert (length (concat phys.*2) = length (concat images)) as E.
  { apply length_concat_perm. rewrite <- Hperm. rewrite snd_zip by lia. done. }
  assert (length (concat images) = sum_list_with item_size items) as E'.
  { clear -Him. induction Him as [|it e items images H _ IH]; [done|]. cbn [concat sum_list_with].
    rewrite length_app, IH. f_equal. by apply image_size. }
  assert (items_size items = 2 * length items + sum_list_with item_size items)%nat as ->.
  { clear. unfold items_size. induction items as [|it items IH]; [done|]. cbn [sum_list_with length]. rewrite IH. lia. }
  apply Forall2_length in Him. lia.
Qed.

Lemma node_size_len_nonneg a b : 0 <= node_size_len a b.
Proof. unfold node_size_len, u64. by apply Z.mod_pos_bound. Qed.

Lemma node_size_len_le key_len value_len limit : 0 <= key_len -> 0 <= value_len -> key_len + value_len <= limit < 2 ^ 32 -> node_size_len key_len value_len <= NODESIZE + EVEN_CEIL limit.
Proof.
  intros. unfold node_size_len, NODESIZE in *. rewrite (u64_small (key_len + value_len)) by (unfold UINT64_MAX; lia).
  pose proof (EVEN_CEIL_mono (key_len + value_len) limit ltac:(lia) ltac:(lia) ltac:(lia)).
  rewrite EVEN_CEIL_spec in * by lia. pose proof (Z.mod_pos_bound (key_len + value_len) 2 ltac:(lia)).
  rewrite u64_small by (unfold UINT64_MAX; lia). lia.
Qed.

Lemma large_pages_fit k n : 8 <= k <= 16 -> 0 <= n < 2 ^ 31 ->
  PAGEHDRSZ + n <= largechunk_npages k n * 2 ^ k /\ largechunk_npages k n <= PAGELIST_LIMIT / 4 + 1.
Proof.
  intros Hk Hn. unfold largechunk_npages, PAGEHDRSZ. assert (2 ^ 8 <= 2 ^ k) by (apply Z.pow_le_mono_r; lia). change (2 ^ 8) with 256 in *.
  rewrite u64_small by (unfold UINT64_MAX; lia). rewrite Z.shiftr_div_pow2 by lia.
  pose proof (Z.div_mod (20 - 1 + n) (2 ^ k) ltac:(lia)). pose proof (Z.mod_pos_bound (20 - 1 + n) (2 ^ k) ltac:(lia)).
  assert (0 <= (20 - 1 + n) / 2 ^ k) by (apply Z.div_pos; lia).
  assert ((20 - 1 + n) / 2 ^ k <= (20 - 1 + n) / 256) by (apply Z.div_le_compat_l; lia).
  assert ((20 - 1 + n) / 256 <= (20 - 1 + 2 ^ 31) / 256) by (apply Z.div_le_mono; lia).
  change ((20 - 1 + 2 ^ 31) / 256) with 8388608 in *. change (PAGELIST_LIMIT / 4) with 536870911.
  rewrite (u32_small ((20 - 1 + n) / 2 ^ k)) by (unfold UINT32_MAX; lia).
  rewrite u32_small by (unfold UINT32_MAX; lia). split; [nia|lia].
Qed.

Lemma page_size_power pagesize : pagesize ∈ page_sizes -> exists k, 8 <= k <= 16 /\ pagesize = 2 ^ k.
Proof.
  intros H. each_size H; [exists 8|exists 9|exists 10|exists 11|exists 12|exists 13|exists 14|exists 15|exists 16]; by vm_compute.
Qed.

Lemma valsize_bounds builtin pagesize flags : pagesize ∈ page_sizes ->
  exists vmax, valsize_max builtin pagesize flags = Some vmax /\ valsize_min flags <= vmax < 2 ^ 31.
Proof.
  intros H. destruct (node_sizes pagesize H) as (_ & _ & Hk & _). unfold valsize_max, valsize_min.
  destruct (has flags MDBX_INTEGERDUP); [by eexists|].
  assert (4 <= large_limit 8 < 2 ^ 31 /\ forall k, 8 <= k <= 16 -> 4 <= large_limit k < 2 ^ 31) as [_ Hl].
  { split; [by vm_compute|]. intros k Hk'. assert (k ∈ [8; 9; 10; 11; 12; 13; 14; 15; 16]) as Hin by (rewrite !elem_of_cons; lia).
    repeat (apply elem_of_cons in Hin as [->|Hin]; [by vm_compute|]). by apply elem_of_nil in Hin. }
  destruct (has flags (Z.lor MDBX_DUPSORT _)); [eexists; split; [done|]; destruct (has flags MDBX_DUPFIXED); unfold sizeof_indx_t; lia|].
  destruct (page_size_power pagesize H) as (k & Hk' & ->). rewrite log2n_correct by lia. cbn [mbind option_bind].
  eexists. split; [done|]. specialize (Hl k Hk'). destruct (has flags MDBX_DUPFIXED); unfold sizeof_indx_t; lia.
Qed.

(** ** Claims *)

(** C20. The announced limits hold what they promise, for each size of pages and all
    flags of a table.  Between the smallest and the greatest key there is room; a key
    of the greatest size is accepted for a branch node, and fits into a leaf node with
    the number of a large page, and in a table of duplicates with the record of a
    nested tree; two leaf nodes of the greatest size fit into a page; the greatest
    value of a table without duplicates has a length of 31 bits, and it and each
    shorter one fits into the large pages counted for it, which are not more than a
    quarter of what a list of pages can hold and one. *)
Theorem limits_fit builtin pagesize flags key :
  is_powerof2 pagesize = true -> MDBX_MIN_PAGESIZE <= pagesize <= MDBX_MAX_PAGESIZE ->
  Z.of_nat (length key) <= keysize_max pagesize flags ->
  keysize_min flags <= keysize_max pagesize flags /\
  (exists n, branch_size (BRANCH_NODE_MAX pagesize) (Some (val_of key)) = Some n /\ n <= BRANCH_NODE_MAX pagesize + sizeof_indx_t) /\
  node_size_len (Z.of_nat (length key)) sizeof_pgno_t <= LEAF_NODE_MAX pagesize /\
  (has flags dup_flags = true ->
    node_size_len (Z.of_nat (length key)) sizeof_tree_t <= LEAF_NODE_MAX pagesize) /\
  2 * (LEAF_NODE_MAX pagesize + sizeof_indx_t) <= PAGESPACE pagesize /\
  exists vmax, valsize_max builtin pagesize flags = Some vmax /\ valsize_min flags <= vmax < 2 ^ 31 /\
  forall n ln2, 0 <= n <= vmax -> log2n_powerof2 builtin pagesize = Some ln2 ->
  PAGEHDRSZ + n <= largechunk_npages ln2 n * pagesize /\ largechunk_npages ln2 n <= PAGELIST_LIMIT / 4 + 1.
Proof.
  intros Hp Hr Hk. pose proof (page_size_cases _ Hp Hr) as Hin. destruct (keysize_max_cases pagesize flags Hin) as (K1 & K2 & K3).
  destruct (node_sizes pagesize Hin) as (_ & S2 & S3 & S4 & S5 & S6). unfold MDBX_MIN_PAGESIZE, MDBX_MAX_PAGESIZE in Hr.
  unfold PAGESPACE, PAGEHDRSZ, sizeof_indx_t, sizeof_pgno_t, sizeof_tree_t in *.
  assert (Hb : node_size_len (Z.of_nat (length key)) 0 <= BRANCH_NODE_MAX pagesize /\ 0 <= BRANCH_NODE_MAX pagesize < 2 ^ 16).
  { split; [etransitivity; [|exact S4]; apply node_size_len_le; lia|].
    clear -Hin. each_size Hin; vm_compute; split; congruence. }
  split; [done|]. split; [|split; [|split; [|split; [done|]]]].
  - unfold branch_size, node_size. cbn [iov_len val_of]. rewrite decide_False by lia. eexists. split; [done|].
    unfold sizeof_indx_t. pose proof (node_size_len_nonneg (Z.of_nat (length key)) 0).
    rewrite u64_small by (unfold UINT64_MAX; lia). lia.
  - etransitivity; [|exact S5]. apply node_size_len_le; lia.
  - intros Hd. etransitivity; [|exact S6]. specialize (K2 Hd). destruct (keysize_max_cases pagesize MDBX_DUPSORT Hin) as (K4 & _).
    apply node_size_len_le; lia.
  - destruct (valsize_bounds builtin pagesize flags Hin) as (vmax & Hv & Hvb). exists vmax. split; [done|]. split; [done|].
    intros n ln2 Hn Hl. destruct (page_size_power pagesize Hin) as (k & Hk' & ->). rewrite log2n_correct in Hl by lia.
    injection Hl as <-. apply large_pages_fit; lia.
Qed.

Lemma limits_fit_witness :
  keysize_max 4096 MDBX_DUPSORT = 1980 /\ node_size_len 3 sizeof_pgno_t <= LEAF_NODE_MAX 4096.
Proof.
  split; [vm_compute; reflexivity|].
  destruct (limits_fit true 4096 0 [1; 2; 3]) as (_ & _ & Hleaf & _).
  - vm_compute; reflexivity.
  - vm_compute; split; congruence.
  - vm_compute; congruence.
  - exact Hleaf.
Defined.

(** A branch page is never full with two children: when the first child has no
    key and no key is longer than the announced limit, a third child can be added
    anywhere behind the first. *)
Theorem branch_takes_three pagesize p first rest txn_flags key pgno :
  is_powerof2 pagesize = true -> MDBX_MIN_PAGESIZE <= pagesize <= MDBX_MAX_PAGESIZE ->
  page_holds (Z.to_nat (PAGESPACE pagesize)) p (first :: rest) -> is_leaf p = false ->
  it_key first = [] -> (length rest <= 1)%nat ->
  Forall (fun it => Z.of_nat (length (it_key it)) <= keysize_max pagesize 0) rest ->
  Z.of_nat (length key) <= keysize_max pagesize 0 -> 0 <= pgno < 2 ^ 32 ->
  exists mp, node_add_branch (BRANCH_NODE_MAX pagesize) txn_flags p 1 (Some key) pgno = Some (MDBX_SUCCESS, mp, txn_flags) /\
  page_holds (Z.to_nat (PAGESPACE pagesize)) mp (first :: mk_item pgno 0 key [] :: rest).
Proof.
  intros Hp2 Hr Hp Hleaf Hf Hrest Hkeys Hk Hpg. pose proof (page_size_cases _ Hp2 Hr) as Hin.
  destruct (node_sizes pagesize Hin) as (S1 & _ & S3 & S4 & _). pose proof (ph_items _ _ _ Hp) as Hok. rewrite Hleaf in Hok.
  unfold MDBX_MIN_PAGESIZE, MDBX_MAX_PAGESIZE, PAGESPACE, PAGEHDRSZ, sizeof_indx_t, NODESIZE in *.
  assert (Hsize : forall it, it_data it = [] -> Z.of_nat (length (it_key it)) <= keysize_max pagesize 0 ->
    Z.of_nat (item_size it) <= BRANCH_NODE_MAX pagesize).
  { intros it Hd Hl. rewrite item_size_Z by (unfold payload; rewrite Hd; cbn; lia). etransitivity; [|exact S4].
    unfold NODESIZE, payload. rewrite Hd, Nat.add_0_r. apply Z.add_le_mono_l, EVEN_CEIL_mono; lia. }
  set (it := mk_item pgno 0 key []). assert (Hit : Z.of_nat (item_size it) <= BRANCH_NODE_MAX pagesize) by by apply Hsize.
  destruct (node_add_branch_spec _ p [first] rest (BRANCH_NODE_MAX pagesize) txn_flags (Some key) pgno Hp Hleaf) as (rc & mp & fl & E & H);
    [cbn; lia|exact Hit|done|].
  assert (Hroom : Z.of_nat (item_size it) + 2 <= page_room p).
  { rewrite (page_room_items _ _ _ Hp). cbn [items_size sum_list_with].
    apply Forall_cons in Hok as [(_ & _ & _ & Hd) Hok].
    assert (item_size first = 8%nat) as -> by (unfold item_size, payload; by rewrite Hf, Hd).
    destruct rest as [|it2 [|it3 rest]]; [| |cbn in Hrest; lia].
    - unfold items_size. cbn [sum_list_with]. rewrite Z2Nat.id by lia. lia.
    - apply Forall_cons in Hok as [(_ & _ & _ & Hd2) _]. apply Forall_cons in Hkeys as [Hk2 _]. pose proof (Hsize it2 Hd2 Hk2).
      unfold items_size. cbn [sum_list_with]. rewrite Z2Nat.id by lia. lia. }
  cbn [length] in E. cbn [default] in H. fold it in H. rewrite decide_True in H by done. destruct H as (-> & -> & H & _). eauto.
Qed.

Lemma branch_takes_three_witness :
  let p := page_new (mk_page 7 0 0 0 0 9 (replicate 236 0)) P_BRANCH 256 in
  exists p1 mp, node_add_branch (BRANCH_NODE_MAX 256) 0 p 0 None 5 = Some (MDBX_SUCCESS, p1, 0) /\
  node_add_branch (BRANCH_NODE_MAX 256) 0 p1 1 (Some (replicate 102 1)) 6 = Some (MDBX_SUCCESS, mp, 0) /\
  page_holds (Z.to_nat (PAGESPACE 256)) mp [mk_item 5 0 [] []; mk_item 6 0 (replicate 102 1) []].
Proof.
  intros p. assert (page_holds 236 p []) as Hp.
  { change 236%nat with (length (page_body (mk_page 7 0 0 0 0 9 (replicate 236 0)))).
    apply page_new_holds; [reflexivity|vm_compute; split; congruence|reflexivity|vm_compute; split; congruence]. }
  destruct (node_add_branch_spec 236 p [] [] (BRANCH_NODE_MAX 256) 0 None 5 Hp) as (rc & p1 & fl & E & H);
    [reflexivity|reflexivity|vm_compute; congruence|lia|].
  rewrite decide_True in H by (vm_compute; congruence). destruct H as (-> & -> & H1 & Hf & _).
  exists p1. destruct (branch_takes_three 256 p1 (mk_item 5 0 [] []) [] 0 (replicate 102 1) 6) as (mp & Emp & Hmp).
  - vm_compute; reflexivity.
  - vm_compute; split; congruence.
  - exact H1.
  - unfold is_leaf. rewrite Hf. reflexivity.
  - reflexivity.
  - cbn; lia.
  - constructor.
  - vm_compute; congruence.
  - lia.
  - exists mp. split; [exact E|]. split; [exact Emp|exact Hmp].
Defined.

(** ** The setup of an environment *)

Definition fractions_ok (fr : fractions) : Prop :=
  8192 <= fr_merge fr <= 32768 /\ 0 <= fr_subpage_limit fr <= 65535 /\ 0 <= fr_room_threshold fr <= 65535 /\
  0 <= fr_reserve_prereq fr <= 65535 /\ 0 <= fr_reserve_limit fr <= 65535.

Lemma dot16_bounds whole fraction : 0 <= whole < 2 ^ 32 -> 0 <= fraction <= 65535 -> 0 <= dot16 whole fraction <= whole.
Proof.
  intros Hw Hf. unfold dot16. rewrite Z.shiftr_div_pow2 by lia. change (2 ^ 16) with 65536.
  split; [apply Z.div_pos; nia|]. apply Z.lt_succ_r, Z.div_lt_upper_bound; nia.
Qed.

(** What a setup promises to the code that splits, merges and makes subpages. *)
Record setup_ok (s : page_setup) : Prop := mk_setup_ok {
  so_ln : ps s = 2 ^ ps2ln s;
  so_leaf : leaf_nodemax s = LEAF_NODE_MAX (ps s);
  so_branch : branch_nodemax s = BRANCH_NODE_MAX (ps s);
  so_merge : page_space (ps s) / 2 <= merge_threshold s <= page_space (ps s) * 63 / 64;
  so_limit : 0 <= subpage_limit s /\ subpage_limit s + NODESIZE <= leaf_nodemax s;
  so_reserve : 0 <= subpage_reserve_limit s <= subpage_limit s;
  so_prereq : subpage_room_threshold s + subpage_reserve_limit s <= subpage_reserve_prereq s <= page_space (ps s)
}.

Lemma setup_succeeds builtin fr pagesize : pagesize ∈ page_sizes ->
  exists k, 8 <= k <= 16 /\ pagesize = 2 ^ k /\
  NODESIZE <= LEAF_NODE_MAX pagesize /\ 2 * LEAF_NODE_MAX pagesize <= page_space pagesize - 4 /\ page_space pagesize = pagesize - 20 /\
  env_setup_pagesize builtin fr pagesize =
  Some (recalculate_subpage_thresholds fr (recalculate_merge_thresholds fr
    (mk_setup pagesize k (PAGESPACE pagesize / sizeof_pgno_t - 1) ((pagesize - PAGEHDRSZ) / (sizeof_indx_t + NODESIZE + 8))
      (LEAF_NODE_MAX pagesize) (BRANCH_NODE_MAX pagesize) 0 0 0 0 0))).
Proof.
  intros Hin. destruct (page_size_power _ Hin) as (k & Hk & Ek). exists k. split; [done|]. split; [done|].
  pose proof (log2n_correct builtin k ltac:(lia)) as Hl. rewrite <- Ek in Hl. clear Ek.
  assert (Hku : u8 k = k) by (unfold u8; apply Z.mod_small; lia). clear Hk.
  assert (negb (is_powerof2 pagesize) || bool_decide (pagesize < MDBX_MIN_PAGESIZE \/ pagesize > MDBX_MAX_PAGESIZE) = false) as E1
    by (clear -Hin; each_size Hin; vm_compute; reflexivity).
  assert (negb (bool_decide ((pagesize - PAGEHDRSZ) / sizeof_pgno_t - 1 > 42 /\
    (pagesize - PAGEHDRSZ) / sizeof_pgno_t - 1 < PAGELIST_LIMIT / 4)) = false) as E2 by (clear -Hin; each_size Hin; vm_compute; reflexivity).
  assert (negb (bool_decide (BRANCH_NODE_MAX pagesize > NODESIZE + 42 /\ BRANCH_NODE_MAX pagesize mod 2 = 0 /\
    LEAF_NODE_MAX pagesize > sizeof_tree_t + NODESIZE + 42 /\ LEAF_NODE_MAX pagesize >= BRANCH_NODE_MAX pagesize /\
    LEAF_NODE_MAX pagesize < 65535 /\ LEAF_NODE_MAX pagesize mod 2 = 0)) = false) as E3 by (clear -Hin; each_size Hin; vm_compute; reflexivity).
  assert (u16 (LEAF_NODE_MAX pagesize) = LEAF_NODE_MAX pagesize /\ u16 (BRANCH_NODE_MAX pagesize) = BRANCH_NODE_MAX pagesize) as [E4 E5]
    by (clear -Hin; each_size Hin; split; vm_compute; reflexivity).
  unfold env_setup_pagesize. rewrite E1, E2, E3, Hl. cbn [mbind option_bind]. rewrite Hku, E4, E5.
  clear -Hin. each_size Hin; (split; [vm_compute; congruence|]; split; [vm_compute; congruence|]; split; [vm_compute; reflexivity|reflexivity]).
Qed.

(** The reserve of a subpage is a number of items and the byte that makes the length
    even; it stays below its limit and the subpage below its own. *)
Lemma subleaf2_reserve_bounds s room item n : forall len r0,
  0 <= len -> 0 <= item -> 0 <= r0 -> len + Z.of_nat n * item < 2 ^ 32 ->
  exists m, 0 <= m <= Z.of_nat n /\
  subleaf2_reserve_loop n s room len item r0 = r0 + m * item + (len + m * item) mod 2 /\
  (0 < m -> r0 + m * item <= subpage_reserve_limit s /\ len + m * item + (len + m * item) mod 2 <= subpage_limit s /\
    subpage_reserve_prereq s + len + m * item <= room).
Proof.
  assert (Hland : forall x, Z.land x 1 = x mod 2) by (intros x; change 1 with (Z.ones 1); by rewrite Z.land_ones).
  induction n as [|n IH]; intros len r0 Hl Hi Hr Hmax; cbn [subleaf2_reserve_loop].
  { exists 0. rewrite Hland, Z.mul_0_l, !Z.add_0_r. split; [lia|]. split; [done|lia]. }
  case_bool_decide as Hc; [|exists 0; rewrite Hland, Z.mul_0_l, !Z.add_0_r; split; [lia|]; split; [done|lia]].
  destruct (IH (len + item) (r0 + item) ltac:(lia) Hi ltac:(lia) ltac:(lia)) as (m & Hm & -> & Hlim). exists (m + 1).
  replace (len + (m + 1) * item) with (len + item + m * item) by lia. split; [lia|]. split; [lia|]. intros _.
  rewrite EVEN_CEIL_spec in Hc by nia. pose proof (Z.mod_pos_bound (len + item) 2 ltac:(lia)).
  destruct (Z.eq_dec m 0) as [->|]; [rewrite Z.mul_0_l, !Z.add_0_r in *; lia|]. specialize (Hlim ltac:(lia)). lia.
Qed.

Lemma page_subleaf2_reserve_correct s room len item :
  0 <= len < 2 ^ 31 -> len mod 2 = 0 -> 0 <= item < 2 ^ 16 ->
  let r := page_subleaf2_reserve s room len item in
  (len + r) mod 2 = 0 /\ (r = 0 \/ len + r <= subpage_limit s /\ r <= subpage_reserve_limit s + 1 /\ subpage_reserve_prereq s + len + r <= room + 1).
Proof.
  intros Hl Heven Hi r. destruct (subleaf2_reserve_bounds s room item 5 len 0) as (m & Hm & E & Hlim); [lia..|].
  unfold r, page_subleaf2_reserve. rewrite E. pose proof (Z.mod_pos_bound (len + m * item) 2 ltac:(lia)).
  pose proof (Z.div_mod (len + m * item) 2 ltac:(lia)). split.
  { replace (len + (0 + m * item + (len + m * item) mod 2)) with (((len + m * item) / 2 + (len + m * item) mod 2) * 2) by lia.
    apply Z.mod_mul. lia. }
  destruct (Z.eq_dec m 0) as [->|]; [left|right; specialize (Hlim ltac:(lia)); lia].
  rewrite Z.mul_0_l, !Z.add_0_r, Z.add_0_l. done.
Qed.

(** The setup of a page size, for each size that is allowed and all fractions that
    the options allow, succeeds and establishes what the assertions of the code state:
    nothing is truncated, a subpage of the greatest size with its node header fits into
    a node, the room reserved in a subpage stays below that size, the room that has to
    be left in the page covers both thresholds and fits into a page, and merging starts
    between a half and 63/64 of a page. *)
Theorem page_setup_correct builtin fr pagesize :
  is_powerof2 pagesize = true -> MDBX_MIN_PAGESIZE <= pagesize <= MDBX_MAX_PAGESIZE -> fractions_ok fr ->
  exists s, env_setup_pagesize builtin fr pagesize = Some s /\ ps s = pagesize /\ setup_ok s.
Proof.
  intros Hp Hr (F1 & F2 & F3 & F4 & F5). pose proof (page_size_cases _ Hp Hr) as Hin.
  destruct (setup_succeeds builtin fr pagesize Hin) as (k & Hk & Ek & L1 & L2 & Es & ->).
  unfold MDBX_MIN_PAGESIZE, MDBX_MAX_PAGESIZE in Hr. eexists. split; [done|].
  unfold recalculate_subpage_thresholds, recalculate_merge_thresholds, NODESIZE in *.
  set (lm := LEAF_NODE_MAX pagesize) in *. set (bm := BRANCH_NODE_MAX pagesize) in *. cbn -[dot16 page_space].
  split; [done|].
  pose proof (dot16_bounds (lm - 8) (fr_subpage_limit fr) ltac:(lia) F2) as D1. set (limit := dot16 (lm - 8) _) in *.
  pose proof (dot16_bounds limit (fr_reserve_limit fr) ltac:(lia) F5) as D2. set (reserve := dot16 limit _) in *.
  pose proof (dot16_bounds lm (fr_room_threshold fr) ltac:(lia) F3) as D3. set (room := dot16 lm (fr_room_threshold fr)) in *.
  pose proof (dot16_bounds lm (fr_reserve_prereq fr) ltac:(lia) F4) as D4. set (prereq := dot16 lm _) in *.
  rewrite decide_False by lia. constructor; cbn -[page_space]; try done; unfold NODESIZE; try lia.
  - rewrite Es, Z.shiftr_div_pow2 by lia. set (w := pagesize - 20) in *. assert (236 <= w <= 65516) by lia. change (2 ^ 16) with 65536.
    assert (w * fr_merge fr / 65536 <= w / 2).
    { apply Z.div_le_lower_bound; [lia|]. pose proof (Z.mul_div_le (w * fr_merge fr) 65536 ltac:(lia)). nia. }
    assert (w / 8 <= w * fr_merge fr / 65536).
    { apply Z.div_le_lower_bound; [lia|]. pose proof (Z.mul_div_le w 8 ltac:(lia)). nia. }
    pose proof (Z.div_mod w 2 ltac:(lia)). pose proof (Z.mod_pos_bound w 2 ltac:(lia)).
    pose proof (Z.div_mod w 8 ltac:(lia)). pose proof (Z.mod_pos_bound w 8 ltac:(lia)).
    pose proof (Z.div_mod (w * 63) 64 ltac:(lia)). pose proof (Z.mod_pos_bound (w * 63) 64 ltac:(lia)).
    unfold u16. rewrite Z.mod_small by lia. lia.
  - case_decide; lia.
Qed.

Lemma page_setup_correct_witness :
  exists s, env_setup_pagesize true (mk_fractions 21845 65535 0 27525 2753) 4096 = Some s /\ ps s = 4096 /\ setup_ok s.
Proof.
  apply page_setup_correct; [vm_compute; reflexivity|vm_compute; split; congruence|].
  unfold fractions_ok. cbn. lia.
Defined.
