(* ===== verification/Split.v ===== *)
(** * The split of a page

    [page_split] of mdbx.c without its recursion, in three parts.  [split_cut]
    chooses how to split and finds the key that separates the halves;
    [split_parent] enters the new page into the parent, or says that the parent has
    to be split first; [split_finish] distributes the nodes.  [tree_propagate_key]
    replaces the key of a node of a branch. *)

From S2P Require Import Prelude Meta Cmp Page.

Definition MDBX_SPLIT_REPLACE : Z := 0x40000.

(** ** Replacing the key of a node of a branch *)

Inductive propagated :=
| key_replaced (mp : page_t)
| split_needed (mp : page_t) (pgno : Z).   (* the node was deleted, a split will add it again *)

(** [for (i = 0; i < nkeys; i++)], [n] turns *)
Fixpoint move_entries (n : nat) (b : list Z) (i : nat) (ptr delta : Z) : option (list Z) :=
  match n with
  | O => Some b
  | S n =>
      e ← entry b i;
      b ← (if decide (e <= ptr) then set_entry b i (u16 (e - delta)) else Some b);
      move_entries n b (S i) ptr delta
  end.

Definition tree_propagate_key (mp : page_t) (indx : nat) (key : list Z) : option propagated :=
  node ← page_node mp indx;
  ptr ← entry (page_body mp) indx;
  ks ← node_ks (page_body mp) node;
  let delta := EVEN_CEIL (Z.of_nat (length key)) - EVEN_CEIL ks in
  if decide (delta > page_room mp) then
    pgno ← node_pgno (page_body mp) node;
    mp ← node_del mp indx 0;
    Some (split_needed mp pgno)
  else
    '(mp, node) ← (if decide (delta <> 0) then
                     b ← move_entries (page_numkeys mp) (page_body mp) 0 ptr delta;
                     let base := page_upper mp in
                     b ← memmove b (Z.to_nat (base - delta)) (Z.to_nat base) (Z.to_nat (ptr - base + NODESIZE));
                     let mp := with_bounds (with_body mp b) (page_lower mp) (u16 (base - delta)) in
                     node ← page_node mp indx;
                     Some (mp, node)
                   else Some (mp, node));
    b ← node_set_ks (page_body mp) node (Z.of_nat (length key));
    b ← memcpy b (node_key node) key;
    Some (key_replaced (with_body mp b)).

(** ** The choice of the place to split *)

(** A node to add: its key, its value and flags in a leaf, its page in a branch. *)
Record add_t := mk_add { ad_key : list Z; ad_data : MDBX_val; ad_flags : Z; ad_pgno : Z }.

Inductive how_t :=
| pure_right
| pure_left
| halves (split_indx : Z).

Definition b2z (b : bool) : Z := if b then 1 else 0.

Section Split.
Context (page_new_large : Z -> Z + Z).
Context (ps ps2ln branch_nodemax leaf_nodemax tree_flags dupfix_size reserve_factor : Z) (prefer_waf : bool).

Definition minkeys (mp : page_t) : Z := Z.land (page_flags mp) P_BRANCH + 1.
Definition rightmost_split (mp : page_t) : Z := u64 (Z.of_nat (page_numkeys mp) + 1 - minkeys mp).
Definition replaces (naf : Z) : bool := bool_decide (Z.land naf MDBX_SPLIT_REPLACE <> 0).

Definition mp_first_key (mp : page_t) : option (list Z) :=
  if is_dupfix_leaf mp then page_dupfix_key mp 0 else node ← page_node mp 0; get_key (page_body mp) node.

(** A pure page for the new key in front of this one: all ancestors are entered at their
    first node ([path] are the indices), and the parent has room for a second key. *)
Definition pure_left_possible (mp parent : page_t) (path : list Z) : option bool :=
  if existsb (fun ki => bool_decide (ki <> 0)) path then Some false
  else
    sepkey ← mp_first_key mp;
    need ← branch_size branch_nodemax (Some (val_of sepkey));
    Some (bool_decide (need <= page_room parent)).

Definition split_choice (mp parent : page_t) (path : list Z) (newindx naf : Z) : option Z :=
  let nkeys := Z.of_nat (page_numkeys mp) in
  let split_indx := if bool_decide (reserve_factor <> 0) || prefer_waf then newindx else Z.shiftr (nkeys + 1) 1 in
  if decide (reserve_factor <> 0) then Some split_indx
  else if decide (newindx = nkeys) then Some (rightmost_split mp)
  else if decide (newindx <= minkeys mp) then
    if bool_decide (newindx = 0) && negb (replaces naf) then
      pure ← pure_left_possible mp parent path;
      Some (if (pure : bool) then 0 else minkeys mp)
    else Some (minkeys mp)
  else Some split_indx.

(** The adjustment for pages of items with one size. *)
Definition dupfix_choice (mp : page_t) (newindx split_indx : Z) : Z :=
  let nkeys := Z.of_nat (page_numkeys mp) in
  if decide (reserve_factor = 0) then split_indx
  else
    let wanna_reserve := Z.shiftr (u64 (nkeys * reserve_factor)) 16 in
    if decide (wanna_reserve + 1 + wanna_reserve >= nkeys) then Z.shiftr (nkeys + 1) 1
    else
      let left_space := u64 (nkeys - split_indx - b2z (bool_decide (newindx < split_indx))) in
      let right_space := u64 (split_indx - b2z (bool_decide (newindx >= split_indx))) in
      if decide (wanna_reserve > left_space) then
        Z.max (minkeys mp) (u64 (nkeys - wanna_reserve - b2z (bool_decide (newindx < nkeys - wanna_reserve))))
      else if decide (wanna_reserve > right_space) then
        Z.min (rightmost_split mp) (wanna_reserve + b2z (bool_decide (newindx >= wanna_reserve)))
      else split_indx.

(** ** The place where both halves fit *)

(** [for (...; i < to; ++i) dst->entries[i] = src->entries[i - shift]], [n] turns *)
Fixpoint copy_entries (n : nat) (src dst : list Z) (i shift : nat) : option (list Z) :=
  match n with
  | O => Some dst
  | S n => e ← entry src (i - shift); dst ← set_entry dst i e; copy_entries n src dst (S i) shift
  end.

(** [tmp_ki_copy]: the table with a hole for the new node, and the bounds of an empty page. *)
Definition tmp_page (mp scratch : page_t) (newindx : nat) : option page_t :=
  let nkeys := page_numkeys mp in
  b ← copy_entries newindx (page_body mp) (page_body scratch) 0 0;
  b ← set_entry b newindx (u16 (-1));
  b ← copy_entries (nkeys - newindx) (page_body mp) b (S newindx) 1;
  Some (mk_page INVALID_TXNID (dupfix_ksize scratch) (page_flags mp) 0 (u16 (page_space ps)) (page_pgno mp) b).

(** The bytes of item [i] of the page with the new node. *)
Definition split_size (mp tmp : page_t) (newindx : nat) (newsize : Z) (i : nat) : option Z :=
  if decide (i = newindx) then Some newsize
  else
    node ← page_node tmp i;
    ks ← node_ks (page_body mp) node;
    let size := NODESIZE + ks + sizeof_indx_t in
    size ← (if is_leaf mp then
              flags ← node_flags (page_body mp) node;
              if decide (Z.land flags N_BIG <> 0) then Some (size + sizeof_pgno_t)
              else ds ← node_ds (page_body mp) node; Some (size + ds)
            else Some size);
    Some (EVEN_CEIL (u64 size)).

Record fit_t := mk_fit { left_size : Z; right_size : Z; best_split : Z; best_skew : Z }.

(** How bad it is to split in front of item [i]. *)
Definition skew_of (reserve split_indx i : Z) (f : fit_t) : Z :=
  let left_space := page_space ps - left_size f in
  let right_space := page_space ps - right_size f in
  let reserve_skew := (if decide (reserve > left_space) then reserve - left_space else 0) +
    (if decide (reserve > right_space) then reserve - right_space else 0) in
  Z.lor (Z.shiftl reserve_skew 32) (Z.abs (split_indx - i)).

(** The loop [for (i = 0; i < rightmost_split && left_size < max_space;)]. *)
Fixpoint fit_loop (n : nat) (size : nat -> option Z) (i : nat) (leftmost rightmost reserve split_indx : Z) (f : fit_t) : option Z :=
  match n with
  | O => Some (best_split f)
  | S n =>
      if decide (Z.of_nat i < rightmost /\ left_size f < page_space ps) then
        s ← size i;
        let f := mk_fit (u64 (left_size f + s)) (u64 (right_size f - s)) (best_split f) (best_skew f) in
        let i := S i in
        if decide (leftmost <= Z.of_nat i /\ left_size f <= page_space ps /\ right_size f <= page_space ps) then
          let skew := skew_of reserve split_indx (Z.of_nat i) f in
          if decide (skew >= best_skew f) then Some (best_split f)
          else fit_loop n size i leftmost rightmost reserve split_indx (mk_fit (left_size f) (right_size f) (Z.of_nat i) skew)
        else fit_loop n size i leftmost rightmost reserve split_indx f
      else Some (best_split f)
  end.

Definition split_fit (mp tmp : page_t) (newindx : nat) (new : add_t) (split_indx : Z) : option Z :=
  newsize ← (if is_leaf mp then Some (leaf_size leaf_nodemax (val_of (ad_key new)) (ad_data new))
             else branch_size branch_nodemax (Some (val_of (ad_key new))));
  let nkeys := page_numkeys mp in
  let dim_nodes := if decide (Z.of_nat newindx >= split_indx) then split_indx else Z.of_nat nkeys - split_indx in
  if decide (reserve_factor <> 0 \/ newsize >= (sizeof_indx_t + NODESIZE + 1) * dim_nodes) then
    let reserve := Z.shiftr (page_space ps * reserve_factor) 16 in
    fit_loop (S nkeys) (split_size mp tmp newindx newsize) 0 (minkeys mp) (rightmost_split mp) reserve split_indx
      (mk_fit 0 (u64 (newsize + page_used ps mp)) split_indx UINT64_MAX)
  else Some split_indx.

(** ** The first part: the new page and the separating key *)

Record cut_t := mk_cut {
  ct_how : how_t;
  ct_mp : page_t;
  ct_sister : page_t;
  ct_sepkey : list Z;
  ct_right : bool;          (* the new item is in the sister *)
  ct_ki : nat;              (* and its index *)
  ct_tmp : option page_t    (* [tmp_ki_copy], when nodes are still to be moved *)
}.

(** [page_new] for the sister. *)
Definition new_sister (fresh mp : page_t) : page_t :=
  let p := page_new fresh (page_flags mp) ps in
  mk_page (page_txnid p) (dupfix_ksize mp) (page_flags p) (page_lower p) (page_upper p) (page_pgno p) (page_body p).

(** The bounds of a page that gets or loses [n] items of one size. *)
Definition dupfix_bounds (p : page_t) (n : Z) : page_t :=
  let lsize := u64 (n * sizeof_indx_t) in
  let rsize := u64 (n * dupfix_size) in
  with_bounds p (u16 (page_lower p + u16 lsize)) (u16 (page_upper p - u16 (u64 (rsize - lsize)))).
Definition dupfix_unbounds (p : page_t) (n : Z) : page_t :=
  let lsize := u64 (n * sizeof_indx_t) in
  let rsize := u64 (n * dupfix_size) in
  with_bounds p (u16 (page_lower p - u16 lsize)) (u16 (page_upper p + u16 (u64 (rsize - lsize)))).

(** The items of one size are moved at once. *)
Definition split_dupfix (mp sister : page_t) (newindx split_indx : nat) (newkey : list Z) : option cut_t :=
  let ksize := Z.to_nat dupfix_size in
  let nkeys := page_numkeys mp in
  let split := page_dupfix_ptr mp split_indx in
  let rsize := ((nkeys - split_indx) * ksize)%nat in
  let body := page_body mp in
  let mp := dupfix_unbounds mp (Z.of_nat (nkeys - split_indx)) in
  let sister := dupfix_bounds sister (Z.of_nat (nkeys - split_indx)) in
  key ← bytes_at newkey 0 ksize;
  if decide (newindx < split_indx)%nat then
    let ins := page_dupfix_ptr mp newindx in
    sb ← blit body split (page_body sister) 0 rsize;
    sepkey ← bytes_at sb 0 ksize;
    b ← memmove body (ins + ksize) ins ((split_indx - newindx) * ksize);
    b ← memcpy b ins key;
    Some (mk_cut (halves (Z.of_nat split_indx)) (dupfix_bounds (with_body mp b) 1) (with_body sister sb) sepkey false newindx None)
  else
    let distance := (newindx - split_indx)%nat in
    sepkey ← (if decide (newindx <> split_indx) then bytes_at body split ksize else Some key);
    sb ← blit body split (page_body sister) 0 (distance * ksize);
    let ins := page_dupfix_ptr sister distance in
    sb ← memcpy sb ins key;
    sb ← blit body (split + distance * ksize) sb (ins + ksize) (rsize - distance * ksize);
    Some (mk_cut (halves (Z.of_nat split_indx)) mp (dupfix_bounds (with_body sister sb) 1) sepkey true distance None).

(** The key of item [i] of the page with the new node. *)
Definition split_key (mp tmp : page_t) (newindx : nat) (newkey : list Z) (i : nat) : option (list Z) :=
  if decide (i <> newindx) then node ← page_node tmp i; get_key (page_body mp) node else Some newkey.

Definition clamp_unsigned (v lo hi : Z) : Z := Z.min (Z.max v lo) hi.

(** [fresh] is the page that [page_new] takes, [scratch] the one of [page_shadow_alloc]. *)
Definition split_cut (mp fresh : page_t) (scratch : option page_t) (parent : page_t) (path : list Z) (newindx : nat) (new : add_t)
  : option (Z + cut_t) :=
  choice ← split_choice mp parent path (Z.of_nat newindx) (ad_flags new);
  let sister := new_sister fresh mp in
  if bool_decide (reserve_factor = 0) && bool_decide (choice = Z.of_nat (page_numkeys mp)) then
    Some (inr (mk_cut pure_right mp sister (ad_key new) true 0 None))
  else if bool_decide (reserve_factor = 0) && bool_decide (choice = 0) then
    sepkey ← mp_first_key mp;
    Some (inr (mk_cut pure_left mp sister sepkey true 0 None))
  else
    let choice := clamp_unsigned choice (minkeys mp) (rightmost_split mp) in
    if is_dupfix_leaf sister then
      let choice := dupfix_choice mp (Z.of_nat newindx) choice in
      c ← split_dupfix mp sister newindx (Z.to_nat choice) (ad_key new);
      Some (inr c)
    else
      match scratch with
      | None => Some (inl MDBX_ENOMEM)
      | Some scratch =>
          tmp ← tmp_page mp scratch newindx;
          choice ← split_fit mp tmp newindx new choice;
          sepkey ← split_key mp tmp newindx (ad_key new) (Z.to_nat choice);
          Some (inr (mk_cut (halves choice) mp sister sepkey (bool_decide (choice <= Z.of_nat newindx)) 0 (Some tmp)))
      end.

(** ** The second part: the parent *)

Inductive parent_t :=
| parent_full                                          (* [page_split] of the parent is called *)
| parent_rekey (parent : page_t) (pgno : Z)            (* the same, from [tree_propagate_key] *)
| parent_has (rc : Z) (parent : page_t) (txn_flags : Z).

(** [parent_ki] is the index of the page in its parent. *)
Definition split_parent (c : cut_t) (parent : page_t) (parent_ki : nat) (newkey : list Z) (txn_flags : Z) : option parent_t :=
  need ← branch_size branch_nodemax (Some (val_of (ct_sepkey c)));
  if decide (page_room parent < need) then Some parent_full
  else
    match ct_how c with
    | pure_left =>
        '(rc, parent, txn_flags) ← node_add_branch branch_nodemax txn_flags parent parent_ki
          (if decide (parent_ki <> 0)%nat then Some newkey else None) (page_pgno (ct_sister c));
        if bool_decide (rc = MDBX_SUCCESS) && bool_decide (parent_ki = 0%nat) then
          r ← tree_propagate_key parent 1 (ct_sepkey c);
          match r with
          | key_replaced parent => Some (parent_has MDBX_SUCCESS parent txn_flags)
          | split_needed parent pgno => Some (parent_rekey parent pgno)
          end
        else Some (parent_has rc parent txn_flags)
    | _ =>
        '(rc, parent, txn_flags) ← node_add_branch branch_nodemax txn_flags parent (S parent_ki) (Some (ct_sepkey c)) (page_pgno (ct_sister c));
        Some (parent_has rc parent txn_flags)
    end.

(** ** The third part: the nodes *)

(** The node at [node] of the body of a page, as it is added to another page. *)
Definition node_at (leaf : bool) (b : list Z) (node : nat) : option add_t :=
  key ← get_key b node;
  flags ← node_flags b node;
  if leaf then
    data ← node_data b node;
    ds ← node_ds b node;
    Some (mk_add key (mk_val ds (drop data b)) flags 0)
  else pgno ← node_pgno b node; Some (mk_add key (mk_val 0 []) flags pgno).

Definition place_node (mp : page_t) (n : nat) (a : add_t) (txn_flags : Z) : option leaf_added :=
  if is_leaf mp then node_add_leaf page_new_large ps2ln leaf_nodemax tree_flags txn_flags mp n (ad_key a) (ad_data a) (ad_flags a)
  else
    '(rc, mp, txn_flags) ← node_add_branch branch_nodemax txn_flags mp n (if decide (n <> 0)%nat then Some (ad_key a) else None) (ad_pgno a);
    Some (mk_leaf_added rc mp txn_flags None None).

(** The loop first fills the sister, then [tmp_ki_copy]. *)
Record move_t := mk_move {
  mv_ii : nat;
  mv_n : nat;
  mv_back : bool;
  mv_sister : page_t;
  mv_tmp : page_t;
  mv_ki : nat;
  mv_txn_flags : Z;
  mv_large : option (Z * list Z);
  mv_reserved : option place
}.

Definition move_turn (mp : page_t) (newindx : nat) (new : add_t) (st : move_t) : option (Z * move_t) :=
  let isnew := bool_decide (mv_ii st = newindx) in
  a ← (if isnew then Some new else node ← page_node (mv_tmp st) (mv_ii st); node_at (is_leaf mp) (page_body mp) node);
  r ← place_node (if mv_back st then mv_tmp st else mv_sister st) (mv_n st) a (mv_txn_flags st);
  let turns := bool_decide (page_numkeys mp < S (mv_ii st))%nat in
  Some (la_rc r, mk_move (if turns then 0 else S (mv_ii st)) (if turns then 0 else S (mv_n st)) (turns || mv_back st)
    (if mv_back st then mv_sister st else la_page r) (if mv_back st then la_page r else mv_tmp st)
    (if isnew then mv_n st else mv_ki st) (la_txn_flags r)
    (if isnew then la_large r else mv_large st) (if isnew then la_reserved r else mv_reserved st)).

Fixpoint move_nodes (fuel : nat) (mp : page_t) (newindx split_indx : nat) (new : add_t) (st : move_t) : option (Z * move_t) :=
  match fuel with
  | O => None
  | S fuel =>
      '(rc, st) ← move_turn mp newindx new st;
      if decide (rc <> MDBX_SUCCESS) then Some (rc, st)
      else if decide (mv_ii st = split_indx) then Some (MDBX_SUCCESS, st)
      else move_nodes fuel mp newindx split_indx new st
  end.

(** The left half is copied back from [tmp_ki_copy]. *)
Definition copy_back (mp tmp : page_t) : option page_t :=
  let n := page_numkeys tmp in
  b ← copy_entries n (page_body tmp) (page_body mp) 0 0;
  let mp := with_bounds (with_body mp b) (page_lower tmp) (page_upper tmp) in
  to ← page_node mp (n - 1);
  from ← page_node tmp (n - 1);
  b ← blit (page_body tmp) from b to (Z.to_nat (ps - page_upper tmp - PAGEHDRSZ));
  Some (with_body mp b).

Record split_t := mk_split {
  sp_rc : Z;
  sp_mp : page_t;
  sp_sister : page_t;
  sp_right : bool;                 (* the cursor is left at the sister *)
  sp_ki : nat;                     (* at this node *)
  sp_txn_flags : Z;
  sp_large : option (Z * list Z);
  sp_reserved : option place
}.

(** With [MDBX_RESERVE] the place of the value is looked up in the page where it has
    come to be, unless it is on a large page. *)
Definition split_done (naf : Z) (s : split_t) : option split_t :=
  if decide (sp_rc s <> MDBX_SUCCESS) then
    Some (mk_split (sp_rc s) (sp_mp s) (sp_sister s) (sp_right s) (sp_ki s) (Z.lor (sp_txn_flags s) MDBX_TXN_ERROR) (sp_large s) (sp_reserved s))
  else if decide (Z.land naf MDBX_RESERVE <> 0) then
    let p := if sp_right s then sp_sister s else sp_mp s in
    node ← page_node p (sp_ki s);
    flags ← node_flags (page_body p) node;
    if decide (Z.land flags N_BIG <> 0) then Some s
    else
      data ← node_data (page_body p) node;
      Some (mk_split (sp_rc s) (sp_mp s) (sp_sister s) (sp_right s) (sp_ki s) (sp_txn_flags s) (sp_large s) (Some (in_page data)))
  else Some s.

Definition split_finish (c : cut_t) (newindx : nat) (new : add_t) (txn_flags : Z) : option split_t :=
  match ct_how c with
  | pure_right | pure_left =>
      if is_dupfix_leaf (ct_sister c) then
        '(rc, sister, txn_flags) ← node_add_dupfix txn_flags dupfix_size (ct_sister c) 0 (ad_key new);
        split_done (ad_flags new) (mk_split rc (ct_mp c) sister true 0 txn_flags None None)
      else
        r ← node_add_leaf page_new_large ps2ln leaf_nodemax tree_flags txn_flags (ct_sister c) 0 (ad_key new) (ad_data new) (ad_flags new);
        split_done (ad_flags new) (mk_split (la_rc r) (ct_mp c) (la_page r) true 0 (la_txn_flags r) (la_large r) (la_reserved r))
  | halves split_indx =>
      match ct_tmp c with
      | None => split_done (ad_flags new) (mk_split MDBX_SUCCESS (ct_mp c) (ct_sister c) (ct_right c) (ct_ki c) txn_flags None None)
      | Some tmp =>
          let split_indx := Z.to_nat split_indx in
          '(rc, st) ← move_nodes (S (page_numkeys (ct_mp c))) (ct_mp c) newindx split_indx new
            (mk_move split_indx 0 false (ct_sister c) tmp 0 txn_flags None None);
          mp ← (if decide (rc <> MDBX_SUCCESS) then Some (ct_mp c) else copy_back (ct_mp c) (mv_tmp st));
          split_done (ad_flags new) (mk_split rc mp (mv_sister st) (ct_right c) (mv_ki st) (mv_txn_flags st) (mv_large st) (mv_reserved st))
      end
  end.
End Split.
