(* ===== verification/SplitFacts.v ===== *)
(** * The split of a page: where both halves fit, and the nodes added and copied *)

From S2P Require Import Prelude Meta Cmp CmpProps Page PageFacts PageOps LimitsProps Split.

(** ** Sizes of lists of items *)

Lemma items_size_app l k : items_size (l ++ k) = (items_size l + items_size k)%nat.
Proof. apply sum_list_with_app. Qed.

Lemma items_size_cons it l : items_size (it :: l) = (2 + item_size it + items_size l)%nat.
Proof. done. Qed.

Lemma items_size_take_drop n l : items_size l = (items_size (take n l) + items_size (drop n l))%nat.
Proof. by rewrite <- items_size_app, take_drop. Qed.

Lemma items_size_bound M l : Forall (fun it => 2 + item_size it <= M)%nat l -> (items_size l <= length l * M)%nat.
Proof. induction 1; [cbn; lia|]. rewrite items_size_cons. cbn [length]. lia. Qed.

Lemma items_size_length l : (2 * length l <= items_size l)%nat.
Proof. induction l; [cbn; lia|]. rewrite items_size_cons. cbn [length]. lia. Qed.

Lemma items_size_take_S l i it : l !! i = Some it -> items_size (take (S i) l) = (items_size (take i l) + (2 + item_size it))%nat.
Proof. intros H. rewrite (take_S_r _ _ _ H), items_size_app, items_size_cons. cbn [items_size sum_list_with]. lia. Qed.

Lemma items_size_take_mono l i j : (i <= j)%nat -> (items_size (take i l) <= items_size (take j l))%nat.
Proof. intros H. rewrite (items_size_take_drop i (take j l)), take_take, Nat.min_l by lia. lia. Qed.

(** Of the items of a page at most one has an empty key. *)
Definition one_empty (l : list item) : Prop :=
  forall i j x y, l !! i = Some x -> l !! j = Some y -> it_key x = [] -> it_key y = [] -> i = j.

Lemma one_empty_cons it l : one_empty (it :: l) -> one_empty l /\ (it_key it = [] -> Forall (fun x => it_key x <> []) l).
Proof.
  intros H. split.
  - intros i j x y Hx Hy Ex Ey. specialize (H (S i) (S j) x y Hx Hy Ex Ey). lia.
  - intros E. apply Forall_lookup. intros i x Hx Ex. specialize (H O (S i) it x eq_refl Hx E Ex). lia.
Qed.

Lemma item_size_key it : it_key it <> [] -> (10 <= item_size it)%nat.
Proof.
  intros H. unfold item_size, payload. destruct (it_key it) as [|x k]; [done|]. cbn [length].
  pose proof (Nat.div_mod (S (length k) + length (it_data it)) 2 ltac:(lia)).
  destruct (decide (S (length k) + length (it_data it) = 1)%nat) as [->|]; [simpl; lia|lia].
Qed.

Lemma item_size_min it : (8 <= item_size it)%nat.
Proof. unfold item_size. lia. Qed.

Lemma items_size_ten l : (10 * length l <= items_size l)%nat.
Proof. induction l as [|it l IH]; [cbn; lia|]. rewrite items_size_cons. cbn [length]. pose proof (item_size_min it). lia. Qed.

(** What [dim_bytes] counts on: twelve bytes for each item, but for one. *)
Lemma items_size_keys l : Forall (fun x => it_key x <> []) l -> (12 * length l <= items_size l)%nat.
Proof. induction 1 as [|x l Hx _ IH]; [cbn; lia|]. rewrite items_size_cons. cbn [length]. pose proof (item_size_key x Hx). lia. Qed.

Lemma items_size_one_empty l : one_empty l -> (12 * length l <= items_size l + 2)%nat.
Proof.
  induction l as [|it l IH]; intros H; [cbn; lia|]. apply one_empty_cons in H as [H1 H2]. rewrite items_size_cons. cbn [length].
  destruct (decide (it_key it = [])) as [E|E].
  - pose proof (items_size_keys l (H2 E)). pose proof (item_size_min it). lia.
  - pose proof (item_size_key it E). specialize (IH H1). lia.
Qed.

Lemma one_empty_sub l i n : one_empty l -> one_empty (take n (drop i l)).
Proof.
  intros H a b x y Ha Hb. apply lookup_take_Some in Ha as [Ha _], Hb as [Hb _]. rewrite lookup_drop in Ha, Hb.
  intros Ex Ey. specialize (H _ _ _ _ Ha Hb Ex Ey). lia.
Qed.

(** ** The loop *)

Section fit.
Context (ps : Z) (all : list item) (lm rm : nat).
Abbreviation P i := (Z.of_nat (items_size (take i all))).
Abbreviation T := (Z.of_nat (items_size all)).
Abbreviation space := (page_space ps).

(** Both halves fit. *)
Definition fits (i : nat) : Prop := (lm <= i <= rm)%nat /\ P i <= space /\ T - P i <= space.

(** Going as far as the left half fits leaves a right half that fits. *)
Lemma some_fits M :
  Forall (fun it => 2 + item_size it <= M)%nat all -> (lm <= rm <= length all)%nat ->
  2 * Z.of_nat M <= space -> Z.of_nat (lm * M) <= space -> Z.of_nat ((length all - rm) * M) <= space -> T <= space + Z.of_nat M ->
  exists i, fits i.
Proof.
  intros HM Hl H2 Hlm Hrm HT.
  assert (forall n, (n <= rm)%nat -> exists i, (i <= n)%nat /\ P i <= space /\ (i = n \/ P (S i) > space)) as H.
  { induction n as [|n IH]; intros Hn; [exists O; rewrite take_0; change (items_size []) with O; lia|].
    destruct IH as (i & Hi & Hp & [->|Hgt]); [lia| |].
    - destruct (decide (P (S n) <= space)); [exists (S n)|exists n]; split_and!; lia.
    - exists i. split_and!; [lia|done|by right]. }
  assert (forall i, P i <= Z.of_nat (i * M)) as Hup.
  { intros i. pose proof (items_size_bound M (take i all) (Forall_take _ _ _ HM)). rewrite length_take in *. nia. }
  assert (forall i, (i <= length all)%nat -> T - P i <= Z.of_nat ((length all - i) * M)) as Hdn.
  { intros i Hi. rewrite (items_size_take_drop i all). pose proof (items_size_bound M (drop i all) (Forall_drop _ _ _ HM)).
    rewrite length_drop in *. nia. }
  destruct (H rm) as (i & Hi & Hp & Hor); [lia|]. exists i. split; [split; [|done]|split; [done|]].
  - destruct (decide (lm <= i)%nat) as [|Hlt]; [done|exfalso]. destruct Hor as [->|Hgt]; [lia|].
    pose proof (Hup (S i)). assert (Z.of_nat (S i * M) <= Z.of_nat (lm * M)) by nia. lia.
  - destruct Hor as [->|Hgt]; [pose proof (Hdn rm ltac:(lia)); lia|].
    destruct (lookup_lt_is_Some_2 all i) as [it Hit].
    { destruct (decide (i < length all)%nat); [done|]. rewrite !take_ge in * by lia. lia. }
    rewrite (items_size_take_S _ _ _ Hit) in Hgt. pose proof (proj1 (Forall_lookup _ _) HM _ _ Hit) as Hb. simpl in Hb. lia.
Qed.

Context (size : nat -> option Z) (reserve : Z).
Context (Hsize : forall i it, all !! i = Some it -> size i = Some (Z.of_nat (2 + item_size it))).
Context (Hspace : 0 <= space < 2 ^ 16) (Hres : 0 <= reserve < 2 ^ 16) (HT : T < 2 ^ 20) (Hrm : (1 <= lm /\ rm < length all)%nat).

Lemma skew_small i split_indx l r bs bk :
  0 <= l <= space -> 0 <= r <= space -> Z.abs (split_indx - i) < 2 ^ 32 -> skew_of ps reserve split_indx i (mk_fit l r bs bk) < UINT64_MAX.
Proof.
  intros Hl Hr Hs. unfold skew_of. cbn [left_size right_size].
  set (a := (if decide _ then _ else _) + _). assert (0 <= a < 2 ^ 18) as Ha by (unfold a; repeat case_decide; lia).
  set (b := Z.abs _) in *.
  assert (0 <= Z.lor (Z.shiftl a 32) b < 2 ^ 60) as H; [|unfold UINT64_MAX; lia].
  rewrite Z.shiftl_mul_pow2 by lia. split; [apply Z.lor_nonneg; lia|].
  destruct (decide (Z.lor (a * 2 ^ 32) b <= 0)) as [|Hpos]; [lia|].
  apply Z.log2_lt_pow2; [lia|]. rewrite Z.log2_lor by lia.
  assert (Z.log2 (a * 2 ^ 32) < 60 /\ Z.log2 b < 60) as [H1 H2]; [|lia].
  split.
  - destruct (decide (a = 0)) as [->|]; [simpl; lia|]. apply Z.log2_lt_pow2; lia.
  - destruct (decide (b = 0)) as [->|]; [simpl; lia|]. apply Z.log2_lt_pow2; lia.
Qed.

Lemma fit_loop_fits split_indx : 0 <= split_indx < 2 ^ 31 -> Z.of_nat (length all) < 2 ^ 16 ->
  forall n i bs bk, (length all <= n + i)%nat ->
  (fits (Z.to_nat bs) /\ 0 <= bs \/ bk = UINT64_MAX /\ exists j, (i < j)%nat /\ fits j) ->
  exists s, fit_loop ps n size i (Z.of_nat lm) (Z.of_nat rm) reserve split_indx (mk_fit (P i) (T - P i) bs bk) = Some s /\ 0 <= s /\ fits (Z.to_nat s).
Proof.
  intros Hsplit Hlen. induction n as [|n IH]; intros i bs bk Hn Hor.
  { cbn [fit_loop best_split]. destruct Hor as [[H ?]|(_ & j & Hj & Hj1 & _)]; [by exists bs|lia]. }
  cbn [fit_loop left_size]. case_decide as Hc.
  2:{ destruct Hor as [[H ?]|(_ & j & Hj & (Hj1 & Hj2 & Hj3))]; [by exists bs|]. exfalso. apply Hc. split; [lia|].
    destruct (lookup_lt_is_Some_2 all i) as [it Hit]; [lia|]. pose proof (items_size_take_mono all (S i) j ltac:(lia)) as Hm.
    rewrite (items_size_take_S _ _ _ Hit) in Hm. lia. }
  destruct Hc as [Hc1 Hc2]. destruct (lookup_lt_is_Some_2 all i) as [it Hit]; [lia|].
  rewrite (Hsize _ _ Hit). cbn [mbind option_bind left_size right_size best_split best_skew].
  pose proof (items_size_take_S _ _ _ Hit) as ES. pose proof (items_size_take_drop (S i) all) as ET.
  rewrite !u64_small by (unfold UINT64_MAX; lia).
  replace (P i + Z.of_nat (2 + item_size it)) with (P (S i)) by lia.
  replace (T - P i - Z.of_nat (2 + item_size it)) with (T - P (S i)) by lia.
  case_decide as Hg; [|apply IH; [lia|]].
  - case_decide as Hk.
    + destruct Hor as [[H ?]|(-> & _)]; [by exists bs|]. exfalso.
      pose proof (skew_small (Z.of_nat (S i)) split_indx (P (S i)) (T - P (S i)) bs UINT64_MAX) as Hsk. lia.
    + apply IH; [lia|]. left. rewrite Nat2Z.id. unfold fits. lia.
  - destruct Hor as [H|(-> & j & Hj & Hf)]; [by left|]. right. split; [done|]. exists j. split; [|done].
    destruct (decide (j = S i)) as [->|]; [|lia]. exfalso. apply Hg. destruct Hf as (? & ? & ?). lia.
Qed.
End fit.

(** ** The split of a page: nodes added at the end of a page, copies of the table *)

(** ** Writing above an offset *)

Definition above (u : nat) (b b' : list Z) : Prop := length b' = length b /\ forall i, (i < u)%nat -> b' !! i = b !! i.

Lemma above_refl u b : above u b b.
Proof. done. Qed.
Lemma above_trans u a b c : above u a b -> above u b c -> above u a c.
Proof. intros [H1 H2] [H3 H4]. split; [lia|]. intros i Hi. rewrite H4, H2; done. Qed.

Lemma blit_above src s b d n b' u : blit src s b d n = Some b' -> (u <= d)%nat -> above u b b'.
Proof.
  unfold blit. case_decide as Hd; [|done]. intros [= <-] Hu. split.
  - rewrite !length_app, !length_take, !length_drop. lia.
  - intros i Hi. rewrite lookup_app_l by (rewrite length_take; lia). by rewrite lookup_take_lt by lia.
Qed.

Lemma store_above n b off v b' u : store n b off v = Some b' -> (u <= off)%nat -> above u b b'.
Proof. apply blit_above. Qed.
Lemma memcpy_above b off src b' u : memcpy b off src = Some b' -> (u <= off)%nat -> above u b b'.
Proof. apply blit_above. Qed.
Lemma wr_above b off v b' u : wr b off v = Some b' -> (u <= off)%nat -> above u b b'.
Proof.
  unfold wr. case_decide; [|done]. intros [= <-] Hu. split; [apply length_insert|].
  intros i Hi. by rewrite list_lookup_insert_ne by lia.
Qed.

Lemma entry_above u b b' i : above u b b' -> (2 * i + 2 <= u)%nat -> entry b' i = entry b i.
Proof.
  intros [Hl Hi] Hu. unfold entry, load. rewrite Hl. case_decide; [|done]. do 2 f_equal.
  apply list_eq. intros j. destruct (decide (j < 2)%nat).
  - rewrite !lookup_take_lt, !lookup_drop by done. apply Hi. lia.
  - by rewrite !lookup_take_ge by lia.
Qed.

Lemma entry_set_entry b i v b' : set_entry b i v = Some b' -> 0 <= v < 2 ^ 16 -> entry b' i = Some v.
Proof.
  unfold set_entry, store, blit. rewrite length_le_bytes. case_decide as Hd; [|done]. intros E Hv. apply (inj Some) in E as <-.
  rewrite drop_0, (take_ge (le_bytes 2 v)) by (rewrite length_le_bytes; lia).
  unfold entry. apply load_le_bytes; [rewrite length_take; lia|done].
Qed.

(** The other entries of the table stay. *)
Lemma entry_set_other b i j v b' : set_entry b i v = Some b' -> i <> j -> entry b' j = entry b j.
Proof.
  unfold set_entry, store, blit. rewrite length_le_bytes. case_decide as Hd; [|done]. intros E Hij. apply (inj Some) in E as <-.
  rewrite drop_0, (take_ge (le_bytes 2 v)) by (rewrite length_le_bytes; lia).
  pose proof (length_le_bytes 2 v) as Hl. set (w := le_bytes 2 v) in *.
  unfold entry, load.
  assert (length (take (2 * i) b ++ w ++ drop (2 * i + 2) b) = length b) as -> by (rewrite !length_app, length_take, length_drop, Hl; lia).
  case_decide; [|done]. do 2 f_equal.
  apply list_eq. intros k. destruct (decide (k < 2)%nat); [|by rewrite !lookup_take_ge by lia].
  rewrite !lookup_take_lt, !lookup_drop by done. destruct (decide (j < i)%nat).
  - rewrite lookup_app_l by (rewrite length_take; lia). by rewrite lookup_take_lt by lia.
  - rewrite lookup_app_r by (rewrite length_take; lia). rewrite lookup_app_r by (rewrite length_take, Hl; lia).
    rewrite length_take, Hl, lookup_drop. f_equal. lia.
Qed.

(** ** A node added at the end *)

(** The page after a node was added behind its [indx] nodes: the table is longer by one
    entry, the nodes begin at [u], and between them nothing was written. *)
Definition added_at_end (p mp : page_t) (indx u : nat) : Prop :=
  page_lower mp = page_lower p + 2 /\ page_upper mp = Z.of_nat u /\ entry (page_body mp) indx = Some (Z.of_nat u) /\
  (forall j, j <> indx -> (2 * j + 2 <= u)%nat -> entry (page_body mp) j = entry (page_body p) j) /\
  length (page_body mp) = length (page_body p) /\
  (page_txnid mp, dupfix_ksize mp, page_flags mp, page_pgno mp) = (page_txnid p, dupfix_ksize p, page_flags p, page_pgno p).

Ltac unbind H :=
  repeat match type of H with
         | _ ≫= _ = Some _ => apply bind_Some in H; let x := fresh "b" in let E := fresh "E" in destruct H as (x & E & H)
         end.

Lemma u16_of_nat u : Z.of_nat u < 2 ^ 16 -> u16 (Z.of_nat u) = Z.of_nat u.
Proof. intros H. unfold u16. apply Z.mod_small. lia. Qed.

Section ends.
Context (p : page_t) (indx u : nat) (tf : Z).
Context (Hn : (page_numkeys p <= indx)%nat) (Hu : (2 * indx + 2 <= u)%nat) (Hu16 : Z.of_nat u < 2 ^ 16).
Context (Hl : 0 <= page_lower p < 2 ^ 16 - 2).

Lemma added_intro b1 b fl :
  set_entry (page_body p) indx (Z.of_nat u) = Some b1 -> above u b1 b -> fl = page_flags p ->
  added_at_end p (mk_page (page_txnid p) (dupfix_ksize p) fl (u16 (page_lower p + sizeof_indx_t)) (u16 (Z.of_nat u)) (page_pgno p) b) indx u.
Proof.
  intros E1 Ha ->. pose proof (store_above _ _ _ _ _ 0 E1 ltac:(lia)) as [Hlen _]. unfold added_at_end.
  cbn [page_lower page_upper page_body page_txnid dupfix_ksize page_flags page_pgno]. split_and!.
  - unfold u16, sizeof_indx_t. apply Z.mod_small. lia.
  - by apply u16_of_nat.
  - rewrite (entry_above u b1 b) by done. apply (entry_set_entry _ _ _ _ E1). lia.
  - intros j Hj Hju. rewrite (entry_above u b1 b) by done. eapply entry_set_other; [exact E1|done].
  - destruct Ha. lia.
  - done.
Qed.

Lemma leaf_put_end key data flags nb lp r :
  leaf_put tf p indx key data flags nb lp = Some r -> la_rc r = MDBX_SUCCESS -> page_upper p - (nb - 2) = Z.of_nat u ->
  added_at_end p (la_page r) indx u.
Proof.
  unfold leaf_put. intros H Hrc Hup. replace (page_numkeys p - indx)%nat with O in H by lia. cbn [shift_entries mbind option_bind] in H.
  change sizeof_indx_t with 2 in H. rewrite Hup in H. case_decide as Hc; [injection H as <-; done|]. rewrite u16_of_nat in H by done. unbind H.
  unfold page_node in E0. cbn [page_body with_bounds with_body] in E0. rewrite (entry_set_entry _ _ _ _ E) in E0 by lia.
  cbn [mbind option_bind] in E0. rewrite Nat2Z.id in E0. injection E0 as <-.
  assert (above u b b5) as Ha.
  { eapply above_trans; [eapply store_above; [exact E1|lia]|]. eapply above_trans; [eapply wr_above; [exact E2|lia]|].
    eapply above_trans; [eapply wr_above; [exact E3|lia]|]. eapply above_trans; [eapply store_above; [exact E4|lia]|].
    eapply memcpy_above; [exact E5|]. unfold node_key. lia. }
  assert (u <= b6)%nat as Hd.
  { unfold node_data in E6. apply bind_Some in E6 as (ks & _ & [= <-]). unfold node_key. lia. }
  assert (exists b', above u b5 b' /\ la_page r = with_body (with_bounds (with_body p b) (u16 (page_lower p + 2)) (Z.of_nat u)) b') as (b' & Ha' & ->).
  { unfold leaf_value in H. destruct lp as [pgno|].
    - unbind H. case_decide; [injection H as <-; exists b0; split; [eapply store_above; [exact E0|lia]|done]|].
      unbind H. injection H as <-. exists b0. split; [eapply store_above; [exact E0|lia]|done].
    - case_decide; [unbind H; injection H as <-; eexists; split; [eapply memcpy_above; [eassumption|lia]|done]|].
      case_decide; [injection H as <-; exists b5; split; [apply above_refl|done]|].
      unbind H. injection H as <-. eexists; split; [eapply memcpy_above; [eassumption|lia]|done]. }
  pose proof (added_intro b b' (page_flags p) E (above_trans _ _ _ _ Ha Ha') eq_refl) as G. rewrite u16_of_nat in G by done. exact G.
Qed.

Lemma add_branch_end nodemax key pgno mp tf' bytes :
  branch_size nodemax (val_of <$> key) = Some bytes -> page_upper p - (bytes - 2) = Z.of_nat u ->
  node_add_branch nodemax tf p indx key pgno = Some (MDBX_SUCCESS, mp, tf') ->
  added_at_end p mp indx u.
Proof.
  intros Hs Hup H. unfold node_add_branch in H. rewrite Hs in H. cbn [mbind option_bind] in H. change sizeof_indx_t with 2 in H.
  rewrite Hup in H. case_decide; [done|]. replace (page_numkeys p - indx)%nat with O in H by lia. cbn [shift_entries mbind option_bind] in H.
  rewrite u16_of_nat in H by done. unbind H.
  unfold page_node in E0. cbn [page_body with_bounds with_body] in E0. rewrite (entry_set_entry _ _ _ _ E) in E0 by lia.
  cbn [mbind option_bind] in E0. rewrite Nat2Z.id in E0. injection E0 as <-. injection H as <- _.
  assert (above u b b4) as Ha.
  { eapply above_trans; [eapply store_above; [exact E1|lia]|]. eapply above_trans; [eapply wr_above; [exact E2|lia]|].
    eapply above_trans; [eapply wr_above; [exact E3|lia]|]. eapply store_above; [exact E4|lia]. }
  assert (above u b b5) as Ha'.
  { destruct key; [|injection E5 as <-; done]. unbind E5. eapply above_trans; [exact Ha|].
    eapply above_trans; [eapply store_above; [eassumption|lia]|]. eapply memcpy_above; [exact E5|]. unfold node_key. lia. }
  pose proof (added_intro b b5 (page_flags p) E Ha' eq_refl) as G. rewrite u16_of_nat in G by done. exact G.
Qed.
End ends.

(** ** Copies of the table *)

Lemma chunks_of k : forall b : list Z, (2 * k <= length b)%nat -> exists C R, chunks_ok C /\ length C = k /\ b = concat C ++ R.
Proof.
  induction k as [|k IH]; intros b Hb; [exists [], b; split_and!; [constructor|done|done]|].
  destruct b as [|x [|y b]]; [simpl in Hb; lia..|]. destruct (IH b) as (C & R & HC & Hl & ->); [simpl in Hb; lia|].
  exists ([x; y] :: C), R. split; [by constructor|]. split; [simpl; lia|done].
Qed.

Lemma entry_table offs R i v : offsets_ok offs -> offs !! i = Some v -> entry (concat (table offs) ++ R) i = Some v.
Proof.
  intros Ho Hi. pose proof (take_drop_middle _ _ _ Hi) as E. rewrite <- E, table_app. change (table (v :: ?l)) with (le_bytes 2 v :: table l).
  rewrite concat_app. cbn [concat]. rewrite <- !app_assoc.
  apply entry_chunks; [apply table_chunks|rewrite length_table, length_take; apply lookup_lt_Some in Hi; lia|].
  by apply (proj1 (Forall_lookup _ _) Ho i).
Qed.

Lemma copy_entries_spec src R : forall vs C G i shift,
  chunks_ok C -> chunks_ok G -> length G = length vs -> i = length C ->
  (forall k v, vs !! k = Some v -> entry src (i + k - shift) = Some v) ->
  copy_entries (length vs) src (concat C ++ concat G ++ R) i shift = Some (concat C ++ concat (table vs) ++ R).
Proof.
  induction vs as [|v vs IH]; intros C G i shift HC HG Hl -> Hsrc; [by destruct G|].
  destruct G as [|g G]; [done|]. apply Forall_cons in HG as [Hg HG]. cbn [length copy_entries].
  pose proof (Hsrc O v eq_refl) as Hv. rewrite Nat.add_0_r in Hv. rewrite Hv. cbn [mbind option_bind concat]. rewrite <- (app_assoc g).
  rewrite (set_entry_chunks C R (length C) v g G) by done. cbn [mbind option_bind].
  replace (concat C ++ le_bytes 2 v ++ concat G ++ R) with (concat (C ++ [le_bytes 2 v]) ++ concat G ++ R)
    by (rewrite concat_app; cbn [concat]; by rewrite app_nil_r, <- app_assoc).
  rewrite IH.
  - rewrite concat_app. cbn [concat table map]. by rewrite app_nil_r, <- !app_assoc.
  - apply Forall_app. split; [done|]. constructor; [apply length_le_bytes|constructor].
  - done.
  - simpl in Hl. lia.
  - rewrite length_app. cbn [length]. lia.
  - intros k w Hk. specialize (Hsrc (S k) w Hk). by rewrite <- Hsrc; f_equal; lia.
Qed.

Lemma page_holds_table size p items : page_holds size p items ->
  exists offs R, page_body p = concat (table offs) ++ R /\ length offs = length items /\ offsets_ok offs.
Proof.
  intros Hp. pose proof (page_bounds _ _ _ Hp) as [Hb1 Hb2].
  destruct Hp as [Hsize Hmax Hdf Hok Hlow (offs & images & phys & F & Hb & Hup & Him & Hlen & Hperm & Hpl)].
  pose proof (Forall2_length _ _ _ Him). exists offs, (F ++ concat phys.*2). split; [done|]. split; [lia|].
  apply (placed_offsets (page_upper p) phys offs images); [done|lia| |by eapply images_nonempty|done|done].
  pose proof (f_equal length Hb) as Hb'. rewrite Hsize, !length_app, length_concat_chunks, length_table in Hb' by apply table_chunks. lia.
Qed.

(** A page without nodes. *)
Lemma empty_holds size p :
  length (page_body p) = size -> Z.of_nat size < 2 ^ 16 -> is_dupfix_leaf p = false -> page_lower p = 0 -> page_upper p = Z.of_nat size ->
  page_holds size p [].
Proof.
  intros H1 H2 H3 H4 H5. split; try done. exists [], [], [], (page_body p). cbn. rewrite app_nil_r. split_and!; try done. lia.
Qed.

(** The table of the copy is the one of the page with a hole in it. *)
Lemma tmp_page_spec ps size mp items scratch newindx :
  page_holds size mp items -> length (page_body scratch) = size -> (newindx <= length items)%nat -> (2 * S (length items) <= size)%nat ->
  page_space ps = Z.of_nat size ->
  exists tmp, tmp_page ps mp scratch newindx = Some tmp /\ page_holds size tmp [] /\
  page_flags tmp = page_flags mp /\
  (forall j, (j <= length items)%nat -> j <> newindx -> entry (page_body tmp) j = entry (page_body mp) (if decide (j < newindx)%nat then j else j - 1)).
Proof.
  intros Hp Hs Hi Hroom Hps. pose proof (ph_max _ _ _ Hp) as Hmax. pose proof (ph_dupfix _ _ _ Hp) as Hdf.
  destruct (page_holds_table _ _ _ Hp) as (offs & R & Hb & Hlen & Ho).
  unfold tmp_page. rewrite (page_numkeys_holds _ _ _ Hp).
  destruct (chunks_of (S (length items)) (page_body scratch)) as (G & Rs & HG & HlG & Eb); [lia|]. rewrite Eb in Hs |- *. clear Eb.
  rewrite <- (take_drop newindx G) in *. apply Forall_app in HG as [HG1 HG2]. rewrite length_app in HlG.
  assert (length (take newindx G) = newindx) as HL1.
  { rewrite length_take. rewrite length_take, length_drop in HlG. lia. }
  revert HG1 HG2 HlG HL1 Hs. generalize (take newindx G), (drop newindx G). clear G. intros G1 G2 HG1 HG2 HlG HL1 Hs.
  destruct G2 as [|g G2]; [simpl in HlG; lia|]. apply Forall_cons in HG2 as [Hg HG2]. cbn [length] in HlG.
  assert (length (take newindx offs) = newindx /\ length (drop newindx offs) = (length items - newindx)%nat) as [HO1 HO2].
  { rewrite length_take, length_drop. lia. }
  rewrite concat_app, <- app_assoc. pose proof (copy_entries_spec (page_body mp) (concat (g :: G2) ++ Rs) (take newindx offs) [] G1 0 0) as E.
  rewrite HO1 in E. cbn [concat app] in E. cbn [concat app]. rewrite E; clear E; [|constructor|done|lia|done|].
  2:{ intros k v Hk. apply lookup_take_Some in Hk as [Hk _]. rewrite Hb. replace (0 + k - 0)%nat with k by lia. by apply entry_table. }
  cbn [mbind option_bind]. rewrite <- (app_assoc g).
  rewrite (set_entry_chunks (table (take newindx offs)) Rs newindx) by (apply table_chunks || done || (rewrite length_table; done)). cbn [mbind option_bind].
  set (hole := le_bytes 2 (u16 (-1))).
  replace (concat (table (take newindx offs)) ++ hole ++ concat G2 ++ Rs) with (concat (table (take newindx offs) ++ [hole]) ++ concat G2 ++ Rs)
    by (rewrite concat_app; cbn [concat]; by rewrite app_nil_r, <- app_assoc).
  pose proof (copy_entries_spec (page_body mp) Rs (drop newindx offs) (table (take newindx offs) ++ [hole]) G2 (S newindx) 1) as E.
  rewrite HO2 in E. rewrite E; clear E.
  2:{ apply Forall_app. split; [apply table_chunks|]. constructor; [apply length_le_bytes|constructor]. }
  2:{ done. }
  2:{ lia. }
  2:{ rewrite length_app, length_table. cbn [length]. lia. }
  2:{ intros k v Hk. rewrite lookup_drop in Hk. rewrite Hb. replace (S newindx + k - 1)%nat with (newindx + k)%nat by lia. by apply entry_table. }
  cbn [mbind option_bind]. eexists. split; [done|].
  assert (concat (table (take newindx offs) ++ [hole]) ++ concat (table (drop newindx offs)) ++ Rs =
    concat (table (take newindx offs ++ u16 (-1) :: drop newindx offs)) ++ Rs) as ->.
  { rewrite table_app. change (table (?v :: ?l)) with (le_bytes 2 v :: table l). rewrite !concat_app. cbn [concat]. by rewrite app_nil_r, <- !app_assoc. }
  split; [|split; [done|]].
  - apply empty_holds; cbn [page_body page_lower page_upper]; try done.
    + rewrite <- Hs. rewrite !length_app, !length_concat_chunks by (apply table_chunks || done || (apply Forall_app; split; [done|by constructor])).
      rewrite length_table, !length_app. cbn [length]. lia.
    + rewrite Hps. by apply u16_of_nat.
  - intros j Hj Hne. cbn [page_body].
    assert (offsets_ok (take newindx offs ++ u16 (-1) :: drop newindx offs)) as Hok'.
    { apply Forall_app. split; [by apply Forall_take|]. constructor; [unfold u16; apply Z.mod_pos_bound; lia|by apply Forall_drop]. }
    rewrite Hb. case_decide as Hlt.
    + destruct (lookup_lt_is_Some_2 offs j) as [v Hv]; [lia|].
      rewrite (entry_table offs R j v), (entry_table _ Rs j v); [done|done| |done|done].
      rewrite lookup_app_l by lia. rewrite lookup_take_lt by lia. done.
    + destruct (lookup_lt_is_Some_2 offs (j - 1)) as [v Hv]; [lia|].
      rewrite (entry_table offs R (j - 1) v), (entry_table _ Rs j v); [done|done| |done|done].
      rewrite lookup_app_r by lia. rewrite HO1. rewrite lookup_cons_ne_0 by lia. rewrite lookup_drop.
      by replace (newindx + Nat.pred (j - newindx))%nat with (j - 1)%nat by lia.
Qed.
