(* ===== verification/SplitMove.v ===== *)
(** * The split of a page: the nodes are moved *)

From S2P Require Import Prelude Meta Cmp CmpProps Page PageFacts PageOps LimitsProps Split SplitFacts.

(** ** Nodes to add and items *)

(** The first node of a branch has no key. *)
Definition no_key (it : item) : item := mk_item (it_word it) (it_flags it) [] (it_data it).
Definition headed (leaf : bool) (l : list item) : list item :=
  match l with
  | [] => []
  | it :: l => (if leaf then it else no_key it) :: l
  end.

Lemma headed_snoc leaf l it : headed leaf (l ++ [it]) = headed leaf l ++ [if leaf || bool_decide (l <> []) then it else no_key it].
Proof. destruct l as [|x l]; [by destruct leaf|]. cbn. by rewrite orb_true_r. Qed.

Lemma headed_length leaf l : length (headed leaf l) = length l.
Proof. by destruct l. Qed.

Lemma no_key_size it : (item_size (no_key it) <= item_size it)%nat.
Proof.
  unfold item_size, payload. cbn [it_key it_data no_key length Nat.add].
  pose proof (Nat.div_mod (length (it_data it)) 2 ltac:(lia)). pose proof (Nat.div_mod (length (it_key it) + length (it_data it)) 2 ltac:(lia)).
  pose proof (Nat.mod_upper_bound (length (it_data it)) 2). pose proof (Nat.mod_upper_bound (length (it_key it) + length (it_data it)) 2). lia.
Qed.

Lemma headed_size leaf l : (items_size (headed leaf l) <= items_size l)%nat.
Proof. destruct l as [|it l]; [done|]. destruct leaf; [done|]. cbn [headed]. rewrite !items_size_cons. pose proof (no_key_size it). lia. Qed.

Section move.
Context (page_new_large : Z -> Z + Z) (ps ps2ln branch_nodemax leaf_nodemax tree_flags : Z).

(** A node that becomes the item [it] of a leaf: with the value in it, with the number of
    a large page that the value is on, or with a value that goes to a new large page. *)
Definition carries_leaf (a : add_t) (it : item) : Prop :=
  ad_key a = it_key it /\ iov_len (ad_data a) = it_word it /\ Z.land (ad_flags a) MDBX_RESERVE = 0 /\
  item_ok true it /\ Z.of_nat (item_size it) <= leaf_nodemax /\
  (Z.land (ad_flags a) N_BIG = 0 /\ it_flags it = u8 (ad_flags a) /\
    bytes_at (iov_mem (ad_data a)) 0 (Z.to_nat (iov_len (ad_data a))) = Some (it_data it) \/
    Z.land (ad_flags a) N_BIG <> 0 /\ it_flags it = u8 (ad_flags a) /\ bytes_at (iov_mem (ad_data a)) 0 4 = Some (it_data it) \/
    Z.land (ad_flags a) N_BIG = 0 /\ node_size (Some (val_of (ad_key a))) (Some (ad_data a)) > leaf_nodemax /\
    Z.land tree_flags MDBX_DUPSORT = 0 /\ Z.land (ad_flags a) (Z.lor N_DUP N_TREE) = 0 /\
    exists pgno, page_new_large (largechunk_npages ps2ln (iov_len (ad_data a))) = inr pgno /\
    it_flags it = u8 (Z.lor (ad_flags a) N_BIG) /\ it_data it = le_bytes 4 pgno /\
    exists value, bytes_at (iov_mem (ad_data a)) 0 (Z.to_nat (iov_len (ad_data a))) = Some value).

Definition carries_branch (a : add_t) (it : item) : Prop :=
  ad_key a = it_key it /\ ad_pgno a = it_word it /\ it_flags it = 0 /\ item_ok false it /\ Z.of_nat (item_size it) <= branch_nodemax.

Definition carries (leaf : bool) (a : add_t) (it : item) : Prop := if leaf then carries_leaf a it else carries_branch a it.

Lemma node_size_exact key data it :
  0 <= iov_len data < 2 ^ 32 -> Z.of_nat (length key) < 2 ^ 16 -> it_key it = key -> Z.of_nat (length (it_data it)) = iov_len data ->
  node_size (Some (val_of key)) (Some data) = Z.of_nat (item_size it).
Proof.
  intros Hd Hk E1 E2. unfold node_size, node_size_len. cbn [val_of iov_len].
  rewrite (u64_small (Z.of_nat (length key) + _)) by (unfold UINT64_MAX; lia).
  rewrite item_size_Z by (unfold payload; rewrite E1; lia). unfold payload. rewrite E1, Nat2Z.inj_add, E2, EVEN_CEIL_spec by lia.
  pose proof (Z.mod_pos_bound (Z.of_nat (length key) + iov_len data) 2 ltac:(lia)). apply u64_small. unfold UINT64_MAX, NODESIZE. lia.
Qed.

Lemma added_u16 (it : item) (w f : Z) key (v : list Z) : it_key it = key -> it_word it = w -> it_flags it = f -> it_data it = v -> mk_item w f key v = it.
Proof. intros <- <- <- <-. by destruct it. Qed.

Lemma bytes_at_length b off n v : bytes_at b off n = Some v -> length v = n.
Proof. unfold bytes_at. case_decide; [|done]. intros [= <-]. rewrite length_take, length_drop. lia. Qed.

(** Such a node comes into a leaf at any index, when there is room. *)
Lemma leaf_carried size p I1 I2 tf a it :
  page_holds size p (I1 ++ I2) -> is_leaf p = true -> carries_leaf a it -> 2 + Z.of_nat (item_size it) <= page_room p ->
  exists flags lp r,
  node_add_leaf page_new_large ps2ln leaf_nodemax tree_flags tf p (length I1) (ad_key a) (ad_data a) (ad_flags a) = Some r /\
  leaf_put tf p (length I1) (ad_key a) (ad_data a) flags (Z.of_nat (item_size it) + 2) lp = Some r /\
  la_rc r = MDBX_SUCCESS /\ la_txn_flags r = tf /\ page_holds size (la_page r) (I1 ++ it :: I2) /\ page_flags (la_page r) = page_flags p.
Proof.
  intros Hp Hleaf (Ek & Ew & Hres & Hok & Hmax & Hcase) Hr.
  pose proof Hok as (Hw0 & _ & Hk0 & _). rewrite <- Ek in Hk0. rewrite <- Ew in Hw0. unfold node_add_leaf.
  assert (u64 (Z.of_nat (item_size it) + sizeof_indx_t) = Z.of_nat (item_size it) + 2) as Eu.
  { unfold sizeof_indx_t. apply u64_small. unfold UINT64_MAX. pose proof (page_bounds _ _ _ Hp). unfold page_room in Hr. lia. }
  destruct Hcase as [(Hb & Hf & Hv)|[(Hb & Hf & Hv)|(Hb & Hns & Ht & Hf0 & pgno & Hpg & Hf & Hv & value & Hval)]].
  - rewrite decide_False by lia. pose proof (bytes_at_length _ _ _ _ Hv) as Hvl.
    rewrite (node_size_exact _ _ it) by (done || lia). rewrite decide_False, Eu by lia.
    pose proof (added_u16 it _ _ _ _ eq_refl (eq_sym Ew) Hf eq_refl) as Eit. rewrite <- Ek in Eit.
    destruct (leaf_put_value size p I1 I2 Hp Hleaf tf (ad_key a) (ad_data a) (ad_flags a) Hk0 Hw0 (it_data it) Hb Hres Hv) as (mp & E & Hh & Hfl & _);
      [rewrite Eit; lia|]. rewrite Eit in E, Hh. by eexists _, _, _.
  - rewrite decide_True by done. pose proof (bytes_at_length _ _ _ _ Hv) as Hvl.
    rewrite (node_size_big (ad_key a) it Hk0 (eq_sym Ek) Hvl).
    pose proof (added_u16 it _ _ _ _ eq_refl (eq_sym Ew) Hf eq_refl) as Eit. rewrite <- Ek in Eit.
    destruct (leaf_put_pgno size p I1 I2 Hp Hleaf tf (ad_key a) (ad_data a) (ad_flags a) Hk0 Hw0 (it_data it) Hb Hv) as (mp & E & Hh & Hfl & _);
      [rewrite Eit; lia|]. rewrite Eit in E, Hh. by eexists _, _, _.
  - rewrite decide_False, decide_True, decide_False, decide_False by lia. rewrite Hpg.
    assert (length (it_data it) = 4%nat) as Hvl by by rewrite Hv. rewrite (node_size_big (ad_key a) it Hk0 (eq_sym Ek) Hvl).
    pose proof (added_u16 it _ _ _ _ eq_refl (eq_sym Ew) Hf Hv) as Eit. rewrite <- Ek in Eit.
    assert (Z.land (Z.lor (ad_flags a) N_BIG) N_BIG <> 0) as Hb2 by (rewrite Z.land_lor_distr_l, Hb; done).
    destruct (leaf_put_large size p I1 I2 Hp Hleaf tf (ad_key a) (ad_data a) (Z.lor (ad_flags a) N_BIG) Hk0 Hw0 pgno value Hb2 Hval) as (mp & E & Hh & Hfl & _);
      [rewrite Eit; lia|]. rewrite Eit in E, Hh.
    assert (Z.land (Z.lor (ad_flags a) N_BIG) MDBX_RESERVE = 0) as Hres2 by (rewrite Z.land_lor_distr_l, Hres; done).
    rewrite decide_False in E by lia. by eexists _, _, _.
Qed.

Lemma leaf_put_number tf p i key data flags nb lp r : leaf_put tf p i key data flags nb lp = Some r -> page_pgno (la_page r) = page_pgno p.
Proof.
  unfold leaf_put. intros H. unbind H. case_decide; [by injection H as <-|]. unbind H. unfold leaf_value in H.
  destruct lp; [unbind H; case_decide|case_decide; [|case_decide]]; unbind H; by injection H as <-.
Qed.

Section place.
Context (size : nat) (p : page_t) (D : list item) (tf : Z).
Context (Hp : page_holds size p D) (a : add_t) (it : item).

Lemma room_for : 2 + Z.of_nat (item_size it) <= page_room p ->
  exists u, Z.of_nat u = page_upper p - Z.of_nat (item_size it) /\ (2 * length D + 2 <= u)%nat /\ Z.of_nat u < 2 ^ 16 /\ 0 <= page_lower p < 2 ^ 16 - 2.
Proof.
  intros Hr. pose proof (page_bounds _ _ _ Hp) as [H1 H2]. pose proof (ph_lower _ _ _ Hp) as Hl. unfold page_room in Hr.
  exists (Z.to_nat (page_upper p - Z.of_nat (item_size it))). lia.
Qed.

Lemma place_leaf : is_leaf p = true -> carries_leaf a it -> 2 + Z.of_nat (item_size it) <= page_room p ->
  exists r u, place_node page_new_large ps2ln branch_nodemax leaf_nodemax tree_flags p (length D) a tf = Some r /\
  la_rc r = MDBX_SUCCESS /\ la_txn_flags r = tf /\ page_holds size (la_page r) (D ++ [it]) /\ added_at_end p (la_page r) (length D) u.
Proof.
  intros Hleaf Hc Hr. destruct (room_for Hr) as (u & Hu & Hu2 & Hu16 & Hlow). pose proof (page_numkeys_holds _ _ _ Hp) as Hn.
  assert (page_holds size p (D ++ [])) as Hp' by by rewrite app_nil_r. unfold place_node. rewrite Hleaf.
  destruct (leaf_carried size p D [] tf a it Hp' Hleaf Hc Hr) as (flags & lp & r & E1 & E2 & Hrc & Htf & Hh & _).
  exists r, u. split; [by rewrite E1|]. split; [done|]. split; [done|]. split; [exact Hh|].
  eapply (leaf_put_end p (length D) u tf); [lia|lia|done|done|exact E2|done|lia].
Qed.
End place.

Lemma place_branch size p l tf a it :
  page_holds size p (headed false l) -> is_leaf p = false -> carries_branch a it -> 2 + Z.of_nat (item_size it) <= page_room p ->
  exists r u, place_node page_new_large ps2ln branch_nodemax leaf_nodemax tree_flags p (length l) a tf = Some r /\
  la_rc r = MDBX_SUCCESS /\ la_txn_flags r = tf /\ page_holds size (la_page r) (headed false (l ++ [it])) /\ added_at_end p (la_page r) (length l) u.
Proof.
  intros Hp Hleaf (Ek & Epg & Hf & Hok & Hmax) Hr. pose proof Hok as (Hw0 & _ & Hk0 & Hd0).
  set (key := if decide (length l <> 0)%nat then Some (ad_key a) else None).
  set (it' := mk_item (ad_pgno a) 0 (default [] key) []).
  assert (it' = if bool_decide (l <> []) then it else no_key it) as Eit.
  { unfold it', key, no_key. destruct l as [|x l]; [cbn; by rewrite Epg, Hf, Hd0|]. cbn. by apply added_u16. }
  assert (item_size it' <= item_size it)%nat as Hsz by (rewrite Eit; case_bool_decide; [lia|apply no_key_size]).
  assert (Z.of_nat (length (default [] key)) < 2 ^ 16) as Hk.
  { unfold key. case_decide; cbn [default]; [by rewrite Ek|simpl; lia]. }
  destruct (room_for size p (headed false l) Hp it') as (u & Hu & Hu2 & Hu16 & Hlow); [lia|]. rewrite headed_length in Hu2.
  pose proof (page_numkeys_holds _ _ _ Hp) as Hn. rewrite headed_length in Hn. rewrite <- (app_nil_r (headed false l)) in Hp.
  destruct (node_add_branch_spec size p _ [] branch_nodemax tf key (ad_pgno a) Hp Hleaf Hk) as (rc & mp & fl & E & H);
    [fold it'; lia|by rewrite Epg|]. fold it' in H. rewrite decide_True in H by lia. destruct H as (-> & -> & Hh & _).
  rewrite headed_length in E. unfold place_node. rewrite Hleaf. fold key. rewrite E. cbn [mbind option_bind].
  exists (mk_leaf_added MDBX_SUCCESS mp tf None None), u. split; [done|]. split; [done|]. split; [done|]. split.
  - rewrite headed_snoc. cbn [orb]. rewrite <- Eit. exact Hh.
  - eapply (add_branch_end p (length l) u tf ltac:(lia) ltac:(lia) Hu16 Hlow branch_nodemax key); [| |exact E].
    + apply (branch_size_item branch_nodemax key it'); (done || lia).
    + lia.
Qed.

Lemma place_spec size p leaf l tf a it :
  page_holds size p (headed leaf l) -> is_leaf p = leaf -> carries leaf a it -> 2 + Z.of_nat (item_size it) <= page_room p ->
  exists r u, place_node page_new_large ps2ln branch_nodemax leaf_nodemax tree_flags p (length l) a tf = Some r /\
  la_rc r = MDBX_SUCCESS /\ la_txn_flags r = tf /\ page_holds size (la_page r) (headed leaf (l ++ [it])) /\ added_at_end p (la_page r) (length l) u.
Proof.
  destruct leaf; intros Hp Hleaf Hc Hr; [|by apply place_branch].
  assert (forall k, headed true k = k) as E by by intros []. rewrite E in *. by apply place_leaf.
Qed.

(** ** The node of a page, as it is moved *)

Definition nodemax (leaf : bool) : Z := if leaf then leaf_nodemax else branch_nodemax.
(** Nodes have the size that a page with two of them allows for, and those of a branch no flags. *)
Definition moves (leaf : bool) (it : item) : Prop := Z.of_nat (item_size it) <= nodemax leaf /\ (leaf = false -> it_flags it = 0).

Lemma small_flags f : 0 <= f < 2 ^ 8 -> Z.land f MDBX_RESERVE = 0.
Proof.
  intros H. apply Z.bits_inj'. intros n Hn. rewrite Z.land_spec, Z.bits_0. change MDBX_RESERVE with (2 ^ 16).
  rewrite Z.pow2_bits_eqb by lia. destruct (Z.eqb_spec 16 n) as [<-|]; [|by rewrite andb_false_r].
  rewrite Z.bits_above_log2; [done|lia|]. destruct (decide (f = 0)) as [->|]; [simpl; lia|]. pose proof (Z.log2_lt_pow2 f 8). lia.
Qed.

Lemma node_at_carries size mp items i it node :
  page_holds size mp items -> items !! i = Some it -> page_node mp i = Some node -> moves (is_leaf mp) it ->
  exists a, node_at (is_leaf mp) (page_body mp) node = Some a /\ carries (is_leaf mp) a it.
Proof.
  intros Hp Hi Hnode [Hmax Hfl]. destruct (page_locate _ _ _ Hp i it Hi) as (A & e & B & Hb & (pad & -> & _) & _ & Hn).
  rewrite Hnode in Hn. injection Hn as ->. pose proof (proj1 (Forall_lookup _ _) (ph_items _ _ _ Hp) i it Hi) as Hok.
  unfold node_at. rewrite Hb. rewrite (read_key _ it Hok), read_flags. cbn [mbind option_bind].
  destruct (read_data _ it Hok A B pad) as (d & Hd & Hv). destruct (read_word _ it Hok A B pad) as [H1 H2].
  destruct (is_leaf mp) eqn:Hleaf.
  - rewrite Hd, H2. cbn [mbind option_bind]. eexists. split; [done|].
    pose proof Hok as (Hw & Hf & Hk & Hdl). unfold carries, carries_leaf. cbn [ad_key ad_data ad_flags iov_len iov_mem].
    assert (u8 (it_flags it) = it_flags it) as Eu by (unfold u8; apply Z.mod_small; lia).
    assert (forall n, n = length (it_data it) -> bytes_at (drop d (A ++ image it pad ++ B)) 0 n = Some (it_data it)) as Hbytes.
    { intros n ->. clear Hdl. unfold bytes_at in Hv. case_decide as Hlen; [|done]. unfold bytes_at. rewrite decide_True; [by rewrite drop_0|]. rewrite length_drop. lia. }
    split; [done|]. split; [done|]. split; [by apply small_flags|]. split; [done|]. split; [done|].
    case_decide as Hbig.
    + right. left. split; [done|]. split; [done|]. apply Hbytes. unfold sizeof_pgno_t in Hdl. lia.
    + left. split; [lia|]. split; [done|]. apply Hbytes. lia.
  - rewrite H1. cbn [mbind option_bind]. eexists. split; [done|]. unfold carries, carries_branch. cbn [ad_key ad_pgno]. by rewrite Hfl.
Qed.

(** ** The loop *)

Section loop.
Context (size : nat) (mp : page_t) (I1 I2 : list item) (new : add_t) (itnew : item) (split_indx : nat).
Abbreviation leaf := (is_leaf mp).
Abbreviation all := (I1 ++ itnew :: I2).
Abbreviation newindx := (length I1).
Context (Hmp : page_holds size mp (I1 ++ I2)) (Hmoves : Forall (moves leaf) (I1 ++ I2)) (Hnew : carries leaf new itnew).

(** Where item [j] of the page with the new node is in the page. *)
Definition old_index (j : nat) : nat := if decide (j < newindx)%nat then j else (j - 1)%nat.

Lemma all_old j it : all !! j = Some it -> j <> newindx -> (I1 ++ I2) !! old_index j = Some it.
Proof.
  intros Hj Hne. unfold old_index. case_decide.
  - rewrite lookup_app_l in Hj |- * by lia. done.
  - rewrite lookup_app_r in Hj |- * by lia. rewrite lookup_cons_ne_0 in Hj by lia. rewrite <- Hj. f_equal. lia.
Qed.

Lemma source tmp j it :
  all !! j = Some it -> (j <> newindx -> entry (page_body tmp) j = entry (page_body mp) (old_index j)) ->
  exists a, (if bool_decide (j = newindx) then Some new else node ← page_node tmp j; node_at leaf (page_body mp) node) = Some a /\ carries leaf a it.
Proof.
  intros Hj Htmp. case_bool_decide as Hc.
  - subst j. exists new. split; [done|]. rewrite lookup_app_r, Nat.sub_diag in Hj by lia. injection Hj as <-. done.
  - pose proof (all_old j it Hj Hc) as Hold. destruct (page_locate _ _ _ Hmp _ _ Hold) as (A & e & B & _ & _ & _ & Hn).
    unfold page_node in Hn |- *. rewrite Htmp by done.
    destruct (node_at_carries size mp _ _ it (length A) Hmp Hold) as (a & Ha & Hc').
    + exact Hn.
    + by apply (proj1 (Forall_lookup _ _) Hmoves _ _ Hold).
    + exists a. rewrite Hn. done.
Qed.

Abbreviation turn := (move_turn page_new_large ps2ln branch_nodemax leaf_nodemax tree_flags mp newindx new).
Abbreviation loop fuel := (move_nodes page_new_large ps2ln branch_nodemax leaf_nodemax tree_flags fuel mp newindx split_indx new).

(** The page that is filled. *)
Definition target (st : move_t) : page_t := if mv_back st then mv_tmp st else mv_sister st.

Lemma turn_spec st l it :
  all !! mv_ii st = Some it -> mv_n st = length l ->
  (mv_ii st <> newindx -> entry (page_body (mv_tmp st)) (mv_ii st) = entry (page_body mp) (old_index (mv_ii st))) ->
  page_holds size (target st) (headed leaf l) -> is_leaf (target st) = leaf -> 2 + Z.of_nat (item_size it) <= page_room (target st) ->
  exists p u lg rs, let turns := bool_decide (length (I1 ++ I2) < S (mv_ii st))%nat in
  turn st = Some (MDBX_SUCCESS, mk_move (if turns then 0 else S (mv_ii st)) (if turns then 0 else S (length l)) (turns || mv_back st)
    (if mv_back st then mv_sister st else p) (if mv_back st then p else mv_tmp st)
    (if bool_decide (mv_ii st = newindx) then length l else mv_ki st) (mv_txn_flags st) lg rs) /\
  page_holds size p (headed leaf (l ++ [it])) /\ added_at_end (target st) p (length l) u.
Proof.
  intros Hit Hn Htmp Hp Hleaf Hr. destruct (source (mv_tmp st) _ it Hit Htmp) as (a & Ea & Hc).
  destruct (place_spec size (target st) leaf l (mv_txn_flags st) a it Hp Hleaf Hc Hr) as (r & u & Er & Hrc & Htf & Hh & He).
  exists (la_page r), u. eexists _, _. intros turns. split; [|done]. unfold move_turn. rewrite Ea. cbn [mbind option_bind].
  unfold target in Er. rewrite Hn, Er. cbn [mbind option_bind]. rewrite Hrc, Htf, (page_numkeys_holds _ _ _ Hmp). reflexivity.
Qed.

(** The page keeps its kind while nodes are added. *)
Lemma added_leaf p q i u : added_at_end p q i u -> is_leaf q = is_leaf p.
Proof. intros (_ & _ & _ & _ & _ & E). unfold is_leaf. by injection E as _ _ -> _. Qed.

Lemma headed_room p l m : page_holds size p (headed leaf l) -> (items_size l + m <= size)%nat -> Z.of_nat m <= page_room p.
Proof. intros Hp Hm. rewrite (page_room_items _ _ _ Hp). pose proof (headed_size leaf l). lia. Qed.

Context (Hsplit : (1 <= split_indx <= length (I1 ++ I2))%nat).

(** The first phase: the items from [split_indx] on come to the sister. *)
Lemma fill_sister : forall todo l st fuel,
  drop split_indx all = l ++ todo -> todo <> [] -> mv_back st = false -> mv_ii st = (split_indx + length l)%nat -> mv_n st = length l ->
  (forall j, (split_indx <= j <= length (I1 ++ I2))%nat -> j <> newindx -> entry (page_body (mv_tmp st)) j = entry (page_body mp) (old_index j)) ->
  page_holds size (mv_sister st) (headed leaf l) -> is_leaf (mv_sister st) = leaf -> (items_size (l ++ todo) <= size)%nat ->
  (split_indx <= newindx < mv_ii st -> mv_ki st = newindx - split_indx)%nat ->
  exists sister ki lg rs,
  loop (length todo + fuel) st = loop fuel (mk_move 0 0 true sister (mv_tmp st) ki (mv_txn_flags st) lg rs) /\
  page_holds size sister (headed leaf (l ++ todo)) /\ is_leaf sister = leaf /\
  (page_pgno sister = page_pgno (mv_sister st) /\ page_flags sister = page_flags (mv_sister st)) /\
  (split_indx <= newindx -> ki = newindx - split_indx)%nat.
Proof.
  induction todo as [|it todo IH]; [done|]. intros l st fuel Hdrop _ Hback Hii Hn Htmp Hp Hleaf Hsz Hki.
  assert (all !! mv_ii st = Some it) as Hit.
  { rewrite Hii, <- lookup_drop, Hdrop. rewrite lookup_app_r, Nat.sub_diag by lia. done. }
  pose proof (f_equal length Hdrop) as Hlen. rewrite length_drop, !length_app in Hlen. cbn [length] in Hlen.
  pose proof Hsplit as Hsp. rewrite length_app in Hsp, Htmp. rewrite items_size_app, items_size_cons in Hsz.
  assert (target st = mv_sister st) as Et by (unfold target; by rewrite Hback).
  destruct (turn_spec st l it Hit Hn) as (p & u & lg & rs & E & Hh & He).
  { intros Hne. apply Htmp; [lia|done]. }
  { by rewrite Et. }
  { by rewrite Et. }
  { rewrite Et. pose proof (headed_room _ l (2 + item_size it) Hp). lia. }
  rewrite Et in He. pose proof (added_leaf _ _ _ _ He) as Hlq. rewrite Hleaf in Hlq.
  assert (page_pgno p = page_pgno (mv_sister st) /\ page_flags p = page_flags (mv_sister st)) as Hpg.
  { destruct He as (_ & _ & _ & _ & _ & Eh). by injection Eh as _ _ -> ->. }
  rewrite length_app in E. cbn [length Nat.add move_nodes]. rewrite E. clear E. cbn [mbind option_bind]. rewrite decide_False by (by intros []).
  rewrite Hback. cbn [orb mv_ii]. destruct todo as [|it2 todo].
  - cbn [length Nat.add] in *. rewrite bool_decide_true by lia. rewrite decide_False by lia.
    exists p, (if bool_decide (mv_ii st = newindx) then length l else mv_ki st), lg, rs.
    split; [done|]. split; [done|]. split; [done|]. split; [done|]. intros Hs. case_bool_decide; [lia|]. apply Hki. cbn [length] in Hlen. lia.
  - cbn [length] in Hlen. rewrite bool_decide_false by lia. cbn [orb]. rewrite decide_False by lia.
    set (st' := mk_move _ _ _ _ _ _ _ _ _).
    destruct (IH (l ++ [it]) st' fuel) as (sister & ki & lg' & rs' & E & H1 & H2 & H3 & H4); clear IH.
    + by rewrite <- app_assoc.
    + done.
    + done.
    + unfold st'. cbn [mv_ii]. rewrite length_app. cbn [length]. lia.
    + unfold st'. cbn [mv_n]. rewrite length_app. cbn [length]. lia.
    + unfold st'. cbn [mv_tmp]. rewrite length_app. exact Htmp.
    + done.
    + done.
    + rewrite !items_size_app, items_size_cons. change (items_size []) with O. lia.
    + unfold st'. cbn [mv_ii mv_ki]. intros Hs. case_bool_decide; [lia|]. apply Hki. lia.
    + exists sister, ki, lg', rs'. rewrite E. unfold st'. cbn [mv_tmp mv_txn_flags mv_sister] in *.
      rewrite <- app_assoc in H1. split; [done|]. split; [done|]. split; [done|]. split; [|done]. destruct H3 as [-> ->]. done.
Qed.

(** The second phase: the items in front of it come to the copy, whose table is still read. *)
Lemma move_filled : forall todo l st fuel,
  take split_indx all = l ++ todo -> todo <> [] -> mv_back st = true -> mv_ii st = length l -> mv_n st = length l ->
  (forall j, (length l <= j < split_indx)%nat -> j <> newindx -> entry (page_body (mv_tmp st)) j = entry (page_body mp) (old_index j)) ->
  page_holds size (mv_tmp st) (headed leaf l) -> is_leaf (mv_tmp st) = leaf -> (items_size (l ++ todo) <= size)%nat ->
  (newindx < mv_ii st -> mv_ki st = newindx)%nat ->
  exists tmp ki lg rs,
  loop (length todo + fuel) st = Some (MDBX_SUCCESS, mk_move split_indx split_indx true (mv_sister st) tmp ki (mv_txn_flags st) lg rs) /\
  page_holds size tmp (headed leaf (l ++ todo)) /\ page_flags tmp = page_flags (mv_tmp st) /\
  entry (page_body tmp) (split_indx - 1) = Some (page_upper tmp) /\
  (newindx < split_indx -> ki = newindx)%nat /\ (split_indx <= newindx -> ki = mv_ki st)%nat.
Proof.
  induction todo as [|it todo IH]; [done|]. intros l st fuel Htake _ Hback Hii Hn Htmp Hp Hleaf Hsz Hki.
  pose proof Hsplit as Hsp. rewrite length_app in Hsp.
  pose proof (f_equal length Htake) as Hlen. rewrite length_take, !length_app in Hlen. cbn [length] in Hlen.
  assert (all !! mv_ii st = Some it) as Hit.
  { rewrite <- (lookup_take_lt all split_indx) by lia. rewrite Htake, lookup_app_r by lia. by rewrite Hii, Nat.sub_diag. }
  rewrite items_size_app, items_size_cons in Hsz.
  assert (target st = mv_tmp st) as Et by (unfold target; by rewrite Hback).
  destruct (turn_spec st l it Hit Hn) as (p & u & lg & rs & E & Hh & He).
  { intros Hne. apply Htmp; [lia|done]. }
  { by rewrite Et. }
  { by rewrite Et. }
  { rewrite Et. pose proof (headed_room _ l (2 + item_size it) Hp). lia. }
  rewrite Et in He. pose proof (added_leaf _ _ _ _ He) as Hlq. rewrite Hleaf in Hlq.
  destruct He as (Hlow & Hup & Hent & Hoth & _ & Eh). assert (page_flags p = page_flags (mv_tmp st)) as Hpf by by injection Eh as _ _ -> _.
  assert (2 * split_indx <= u)%nat as Hu.
  { pose proof (page_room_items _ _ _ Hh) as Hr. pose proof (headed_size leaf (l ++ [it])) as Hhs.
    rewrite items_size_app, items_size_cons in Hhs. change (items_size []) with O in Hhs. pose proof (items_size_length todo).
    pose proof (ph_lower _ _ _ Hh) as Hl. rewrite headed_length, length_app in Hl. cbn [length] in Hl. unfold page_room in Hr. lia. }
  rewrite length_app in E. cbn [length Nat.add move_nodes]. rewrite E. clear E. cbn [mbind option_bind]. rewrite decide_False by (by intros []).
  rewrite Hback. rewrite bool_decide_false by lia. cbn [orb mv_ii]. destruct todo as [|it2 todo].
  - cbn [length Nat.add] in *. rewrite decide_True by lia.
    assert (S (mv_ii st) = split_indx /\ S (length l) = split_indx) as [-> ->] by lia.
    exists p, (if bool_decide (mv_ii st = newindx) then length l else mv_ki st), lg, rs.
    split; [done|]. split; [done|]. split; [done|]. split; [|split].
    + rewrite Hup. rewrite <- Hent. f_equal. lia.
    + intros Hs. case_bool_decide; [lia|]. apply Hki. lia.
    + intros Hs. by rewrite bool_decide_false by lia.
  - cbn [length] in Hlen. rewrite decide_False by lia. set (st' := mk_move _ _ _ _ _ _ _ _ _).
    destruct (IH (l ++ [it]) st' fuel) as (tmp & ki & lg' & rs' & E & H1 & H2 & H3 & H4 & H5); clear IH.
    + by rewrite <- app_assoc.
    + done.
    + done.
    + unfold st'. cbn [mv_ii]. rewrite length_app. cbn [length]. lia.
    + unfold st'. cbn [mv_n]. rewrite length_app. cbn [length]. lia.
    + unfold st'. cbn [mv_tmp]. rewrite length_app. cbn [length]. intros j Hj Hne. rewrite Hoth by lia. apply Htmp; [lia|done].
    + done.
    + done.
    + rewrite !items_size_app, items_size_cons. change (items_size []) with O. lia.
    + unfold st'. cbn [mv_ii mv_ki]. intros Hs. case_bool_decide; [lia|]. apply Hki. lia.
    + exists tmp, ki, lg', rs'. rewrite E. subst st'. cbn [mv_sister mv_txn_flags mv_tmp mv_ki] in *.
      rewrite <- app_assoc in H1. split; [done|]. split; [done|]. split; [congruence|]. split; [done|]. split; [done|].
      intros Hs. rewrite H5 by done. by rewrite bool_decide_false by lia.
Qed.
End loop.

(** ** The left half is copied back *)

Lemma page_holds_header size p q items :
  page_holds size p items -> page_flags q = page_flags p -> page_lower q = page_lower p -> page_upper q = page_upper p -> page_body q = page_body p ->
  page_holds size q items.
Proof.
  intros [H1 H2 H3 H4 H5 H6] Hf Hl Hu Hb. unfold is_dupfix_leaf, is_leaf in *.
  split; unfold is_dupfix_leaf, is_leaf; rewrite ?Hf, ?Hl, ?Hu, ?Hb; done.
Qed.

Lemma copy_back_holds size mp tmp items L :
  page_holds size mp items -> page_holds size tmp L -> L <> [] -> page_flags tmp = page_flags mp ->
  entry (page_body tmp) (length L - 1) = Some (page_upper tmp) -> ps = Z.of_nat size + PAGEHDRSZ ->
  exists q, copy_back ps mp tmp = Some q /\ page_holds size q L /\
  (page_txnid q, dupfix_ksize q, page_flags q, page_pgno q) = (page_txnid mp, dupfix_ksize mp, page_flags mp, page_pgno mp).
Proof.
  intros Hmp Htmp HL Hfl Hent Hps. destruct (page_holds_table _ _ _ Htmp) as (offs & R & Eb & Hlo & Hok).
  pose proof (page_bounds _ _ _ Htmp) as [Hb1 Hb2]. pose proof (ph_lower _ _ _ Htmp) as Hlow. pose proof (ph_size _ _ _ Htmp) as Hst.
  pose proof (ph_size _ _ _ Hmp) as Hsm. assert (length L <> O) as HL0 by (by destruct L).
  destruct (chunks_of (length L) (page_body mp)) as (G & Rm & HG & HlG & Em); [lia|].
  unfold copy_back. rewrite (page_numkeys_holds _ _ _ Htmp). rewrite Em.
  pose proof (copy_entries_spec (page_body tmp) Rm offs [] G 0 0) as E. rewrite Hlo in E. cbn [concat app] in E. rewrite E; clear E; [|constructor|done|lia|done|].
  2:{ intros k v Hk. rewrite Eb. replace (0 + k - 0)%nat with k by lia. by apply entry_table. }
  cbn [mbind option_bind]. set (b := concat (table offs) ++ Rm).
  assert (length b = size) as Hlb.
  { unfold b. rewrite <- Hsm, Em, !length_app, !length_concat_chunks, length_table by (done || apply table_chunks). lia. }
  assert (entry b (length L - 1) = Some (page_upper tmp)) as Hentb.
  { rewrite <- Hent, Eb. unfold b. destruct (lookup_lt_is_Some_2 offs (length L - 1)) as [v Hv]; [lia|]. by rewrite !(entry_table _ _ _ v). }
  unfold page_node. cbn [page_body with_bounds with_body]. rewrite Hentb, Hent. cbn [mbind option_bind].
  destruct (blit_same_part (page_body tmp) b (Z.to_nat (page_upper tmp)) (Z.to_nat (ps - page_upper tmp - PAGEHDRSZ))) as (b' & -> & Hlb' & Hb');
    [lia|unfold PAGEHDRSZ in *; lia|]. cbn [mbind option_bind]. eexists. split; [done|]. split; [|done].
  assert (page_holds size (with_body tmp b') L) as Hh.
  { apply page_holds_copy; [done|lia| |].
    - apply take_ext. intros i Hi. rewrite Hb', decide_False by lia. rewrite Eb. unfold b.
      assert (i < length (concat (table offs)))%nat by (rewrite length_concat_chunks, length_table by apply table_chunks; lia).
      by rewrite !lookup_app_l by done.
    - apply drop_ext. intros i Hi. rewrite Hb'. case_decide; [done|]. rewrite !lookup_ge_None_2 by (unfold PAGEHDRSZ in *; lia). done. }
  by eapply page_holds_header.
Qed.
End move.
