(* ===== verification/SplitKey.v ===== *)
(** * The split of a page: the key of a node of a branch is replaced *)

From S2P Require Import Prelude Meta Cmp CmpProps Page PageFacts PageOps Split.

(** The loop over the table: offsets up to the node move. *)
Definition move_offset (ptr delta e : Z) : Z := if decide (e <= ptr) then u16 (e - delta) else e.

Lemma move_entries_spec ptr delta R : forall offs C i,
  offsets_ok offs -> chunks_ok C -> i = length C ->
  move_entries (length offs) (concat C ++ concat (table offs) ++ R) i ptr delta =
  Some (concat C ++ concat (table (move_offset ptr delta <$> offs)) ++ R).
Proof.
  induction offs as [|e offs IH]; intros C i Ho HC ->; [done|]. apply Forall_cons in Ho as [He Ho].
  cbn [length move_entries]. change (table (e :: offs)) with (le_bytes 2 e :: table offs). cbn [concat]. rewrite <- (app_assoc (le_bytes 2 e)).
  rewrite entry_chunks by done. cbn [mbind option_bind]. set (v := move_offset ptr delta e).
  assert ((if decide (e <= ptr) then set_entry (concat C ++ le_bytes 2 e ++ concat (table offs) ++ R) (length C) (u16 (e - delta))
    else Some (concat C ++ le_bytes 2 e ++ concat (table offs) ++ R)) = Some (concat (C ++ [le_bytes 2 v]) ++ concat (table offs) ++ R)) as ->.
  { rewrite concat_app. cbn [concat]. rewrite app_nil_r, <- app_assoc. unfold v, move_offset. case_decide; [|done].
    by rewrite set_entry_chunks by (done || apply length_le_bytes). }
  cbn [mbind option_bind]. rewrite IH; [|done|apply Forall_app; split; [done|by constructor; [apply length_le_bytes|]]|rewrite length_app; cbn [length]; lia].
  rewrite concat_app. cbn [concat fmap list_fmap table map]. by rewrite app_nil_r, <- !app_assoc.
Qed.

(** The nodes up to this one move by the difference of the sizes of the keys. *)
Lemma move_placed up size P1 o e P2 delta :
  placed up (P1 ++ (o, e) :: P2) -> 0 <= up - delta -> up + Z.of_nat (length (concat (P1 ++ (o, e) :: P2).*2)) = Z.of_nat size -> Z.of_nat size < 2 ^ 16 ->
  Forall (fun c : Z * list Z => 0 < length c.2)%nat P2 -> (0 < length e)%nat -> 0 < Z.of_nat (length e) + delta -> 0 <= up ->
  (prod_map (move_offset o delta) id) <$> (P1 ++ P2) = (prod_map (Z.add (- delta)) id <$> P1) ++ P2 /\
  move_offset o delta o = o - delta /\
  forall e', Z.of_nat (length e') = Z.of_nat (length e) + delta ->
  placed (up - delta) ((prod_map (Z.add (- delta)) id <$> P1) ++ (o - delta, e') :: P2).
Proof.
  intros Hpl Hd Hsz Hmax Hpos He Hed Hup. rewrite fmap_app, concat_app, length_app in Hsz. cbn [fmap list_fmap concat snd] in Hsz. rewrite length_app in Hsz.
  apply placed_app in Hpl as [H1 [-> H2]]. split; [|split].
  - rewrite fmap_app. f_equal.
    + apply list_fmap_ext. intros i [o' e'] Hi. cbn. f_equal. unfold move_offset.
      apply list_elem_of_lookup_2 in Hi. destruct (placed_bounds _ _ _ _ H1 Hi). rewrite decide_True by lia.
      unfold u16. rewrite Z.mod_small by lia. lia.
    + rewrite <- (list_fmap_id P2) at 2. apply list_fmap_ext. intros i [o' e'] Hi. cbn. f_equal. unfold move_offset.
      apply list_elem_of_lookup_2 in Hi. destruct (placed_bounds _ _ _ _ H2 Hi). rewrite decide_False by lia. done.
  - unfold move_offset. rewrite decide_True by lia. unfold u16. apply Z.mod_small. lia.
  - intros e' He'. apply placed_app. rewrite snd_shift. split.
    + replace (up - delta) with (up + - delta) by lia. by apply placed_shift.
    + split; [lia|]. match goal with |- placed ?x _ => replace x with (up + Z.of_nat (length (concat P1.*2)) + Z.of_nat (length e)) by lia end. done.
Qed.

(** The move in memory: the nodes [X] and the room around them. *)
Lemma move_memory (T F X K R : list Z) delta base :
  base = Z.of_nat (length T + length F) -> delta <> 0 -> - Z.of_nat (length K) <= delta <= Z.of_nat (length F) ->
  exists F' K', memmove (T ++ F ++ X ++ K ++ R) (Z.to_nat (base - delta)) (Z.to_nat base) (length X) = Some (T ++ F' ++ X ++ K' ++ R) /\
  Z.of_nat (length F') = Z.of_nat (length F) - delta /\ Z.of_nat (length K') = Z.of_nat (length K) + delta.
Proof.
  intros -> Hd Hr. destruct (decide (0 < delta)) as [Hpos|Hneg].
  - set (n := Z.to_nat delta). rewrite <- (take_drop (length F - n) F).
    assert (length (take (length F - n) F) = (length F - n)%nat /\ length (drop (length F - n) F) = n) as [H1 H2] by (rewrite length_take, length_drop; lia).
    revert H1 H2. generalize (take (length F - n) F), (drop (length F - n) F). intros F1 Y H1 H2.
    rewrite length_app. pose proof (memmove_down (T ++ F1) Y X (K ++ R) (length (T ++ F1)) n eq_refl H2) as E.
    exists F1, (drop (length X) (Y ++ X) ++ K). split; [|rewrite !length_app, length_drop, length_app; lia].
    replace (T ++ (F1 ++ Y) ++ X ++ K ++ R) with ((T ++ F1) ++ Y ++ X ++ K ++ R) by by rewrite <- !app_assoc.
    replace (Z.to_nat (Z.of_nat (length T + (length F1 + length Y)) - delta)) with (length (T ++ F1)) by (rewrite length_app; lia).
    replace (Z.to_nat (Z.of_nat (length T + (length F1 + length Y)))) with (length (T ++ F1) + n)%nat by (rewrite length_app; lia).
    rewrite E. f_equal. by rewrite <- !app_assoc.
  - set (n := Z.to_nat (- delta)). rewrite <- (take_drop n K).
    assert (length (take n K) = n /\ length (drop n K) = (length K - n)%nat) as [H1 H2] by (rewrite length_take, length_drop; lia).
    revert H1 H2. generalize (take n K), (drop n K). intros Y K2 H1 H2.
    destruct (memmove_up (T ++ F) X Y (K2 ++ R) n (length (T ++ F)) H1 eq_refl) as (G & HG & E).
    exists (F ++ G), K2. split; [|rewrite !length_app; lia].
    replace (T ++ F ++ X ++ (Y ++ K2) ++ R) with ((T ++ F) ++ X ++ Y ++ K2 ++ R) by by rewrite <- !app_assoc.
    replace (Z.to_nat (Z.of_nat (length T + length F) - delta)) with (length (T ++ F) + n)%nat by (rewrite length_app; lia).
    replace (Z.to_nat (Z.of_nat (length T + length F))) with (length (T ++ F)) by (rewrite length_app; lia).
    rewrite E. f_equal. by rewrite <- !app_assoc.
Qed.

Definition rekey (it : item) (key : list Z) : item := mk_item (it_word it) (it_flags it) key (it_data it).

Lemma even_size it : it_data it = [] -> Z.of_nat (length (it_key it)) < 2 ^ 16 -> Z.of_nat (item_size it) = 8 + EVEN_CEIL (Z.of_nat (length (it_key it))).
Proof. intros Hd Hk. rewrite item_size_Z by (unfold payload; rewrite Hd; simpl; lia). unfold payload, NODESIZE. rewrite Hd. cbn [length]. by rewrite Nat.add_0_r. Qed.

Lemma move_offset_0 o l : offsets_ok l -> move_offset o 0 <$> l = l.
Proof.
  intros H. rewrite <- (list_fmap_id l) at 2. apply list_fmap_ext. intros i e Hi. unfold move_offset, u16. cbn.
  pose proof (proj1 (Forall_lookup _ _) H _ _ Hi) as He. cbn in He. case_decide; [|done]. rewrite Z.sub_0_r. by apply Z.mod_small.
Qed.

Section rekey.
Context (size : nat) (p : page_t) (I1 : list item) (it : item) (I2 : list item) (key : list Z).
Context (Hp : page_holds size p (I1 ++ it :: I2)) (Hleaf : is_leaf p = false) (Hkey : Z.of_nat (length key) < 2 ^ 16).
Abbreviation delta := (Z.of_nat (item_size (rekey it key)) - Z.of_nat (item_size it)).
Context (O1 : list Z) (o : Z) (O2 : list Z) (M1 : list (list Z)) (e : list Z) (M2 : list (list Z)) (P1 P2 : list (Z * list Z)) (F : list Z).
Context (Hop : opened p size I1 it I2 O1 o O2 M1 e M2 P1 P2 F).

Lemma rekey_ok : item_ok false it /\ it_data it = [] /\ item_ok false (rekey it key) /\ Z.of_nat (length (it_key it)) < 2 ^ 16.
Proof.
  pose proof (ph_items _ _ _ Hp) as Hok. rewrite Hleaf in Hok. apply Forall_app in Hok as [_ Hok]. apply Forall_cons in Hok as [Hok _].
  split; [done|]. destruct Hok as (H1 & H2 & H3 & H4). split; [done|]. split; [|done]. split; [done|]. split; [done|]. done.
Qed.

(** The offsets and the node after the move: the header of the node is followed by the
    bytes for the new key. *)
Definition moved (F' K : list Z) : list Z :=
  (concat (table (move_offset o delta <$> O1 ++ o :: O2)) ++ F' ++ concat P1.*2) ++
    slot (le_bytes 4 (it_word it)) (it_flags it) 0 (le_bytes 2 (Z.of_nat (length (it_key it)))) (take (length key) K) [] (drop (length key) K) ++ concat P2.*2.
Abbreviation node' := (length (concat (table (move_offset o delta <$> O1 ++ o :: O2))) + (length F - Z.to_nat delta + Z.to_nat (- delta)) + length (concat P1.*2))%nat.

Lemma moved_app F' K : moved F' K = concat (table (move_offset o delta <$> O1 ++ o :: O2)) ++ F' ++
  (concat P1.*2 ++ le_bytes 4 (it_word it) ++ it_flags it :: 0 :: le_bytes 2 (Z.of_nat (length (it_key it)))) ++ K ++ concat P2.*2.
Proof.
  unfold moved, slot. rewrite <- (take_drop (length key) K) at 3. repeat (rewrite <- app_assoc || rewrite <- app_comm_cons). done.
Qed.

Lemma opened_body : exists K, length K = (length (it_key it) + payload it mod 2)%nat /\
  page_body p = concat (table (O1 ++ o :: O2)) ++ F ++
  (concat P1.*2 ++ le_bytes 4 (it_word it) ++ it_flags it :: 0 :: le_bytes 2 (Z.of_nat (length (it_key it)))) ++ K ++ concat P2.*2.
Proof.
  destruct rekey_ok as (_ & Hd & _). destruct (op_im _ _ _ _ _ _ _ _ _ _ _ _ _ _ Hop) as (pad & Ee & Hpad).
  exists (it_key it ++ pad). split; [rewrite length_app; lia|]. rewrite (op_body _ _ _ _ _ _ _ _ _ _ _ _ _ _ Hop), Ee. unfold image. rewrite Hd.
  cbn [app]. repeat (rewrite <- app_assoc || rewrite <- app_comm_cons). done.
Qed.

Lemma delta_even : EVEN_CEIL (Z.of_nat (length key)) - EVEN_CEIL (Z.of_nat (length (it_key it))) = delta.
Proof.
  destruct rekey_ok as (_ & Hd & _ & Hk). rewrite (even_size it Hd Hk), (even_size (rekey it key)) by done. cbn [it_key rekey]. lia.
Qed.

Context (Hroom : delta <= page_room p).

Lemma room_is : page_room p = Z.of_nat (length F) /\ page_lower p = 2 * Z.of_nat (length I1 + S (length I2)).
Proof.
  pose proof (ph_lower _ _ _ Hp) as Hl. rewrite length_app in Hl. cbn [length] in Hl. pose proof (op_upper _ _ _ _ _ _ _ _ _ _ _ _ _ _ Hop).
  unfold page_room. lia.
Qed.

(** The step of the code that makes the room. *)
Lemma make_room :
  exists F' K', Z.of_nat (length F') = Z.of_nat (length F) - delta /\ Z.of_nat (length K') = EVEN_CEIL (Z.of_nat (length key)) /\
  (if decide (delta <> 0) then
     b ← move_entries (page_numkeys p) (page_body p) 0 o delta;
     let base := page_upper p in
     b ← memmove b (Z.to_nat (base - delta)) (Z.to_nat base) (Z.to_nat (o - base + NODESIZE));
     let mp := with_bounds (with_body p b) (page_lower p) (u16 (base - delta)) in
     node ← page_node mp (length I1); Some (mp, node)
   else Some (p, Z.to_nat o)) =
    Some (with_bounds (with_body p (moved F' K')) (page_lower p) (page_upper p - delta), Z.to_nat (o - delta)).
Proof.
  destruct opened_body as (K & HK & Eb). destruct rekey_ok as (_ & Hd & _ & Hk0). destruct room_is as [Er El].
  destruct Hop as [_ HO1 HO2 Him1 Hie Him2 Hperm Hpl Eo Hup Hend Hoffs Hpos1 Hpos2 He Hent].
  pose proof (ph_max _ _ _ Hp) as Hmax. pose proof delta_even as Ed. pose proof (even_size it Hd Hk0) as Hsz.
  assert (Z.of_nat (length K) = EVEN_CEIL (Z.of_nat (length (it_key it)))) as HK'.
  { rewrite HK, EVEN_CEIL_spec by lia. unfold payload. rewrite Hd. cbn [length]. rewrite Nat.add_0_r, Nat2Z.inj_add, Nat2Z.inj_mod. done. }
  assert (0 <= EVEN_CEIL (Z.of_nat (length key))) as Hk1.
  { rewrite EVEN_CEIL_spec by lia. pose proof (Z.mod_pos_bound (Z.of_nat (length key)) 2). lia. }
  case_decide as Hd0.
  - assert (length (O1 ++ o :: O2) = page_numkeys p) as Hn.
    { rewrite (page_numkeys_holds _ _ _ Hp), !length_app. cbn [length]. lia. }
    rewrite <- Hn, Eb. pose proof (move_entries_spec o delta (F ++ (concat P1.*2 ++ le_bytes 4 (it_word it) ++ it_flags it :: 0 :: le_bytes 2 (Z.of_nat (length (it_key it)))) ++ K ++ concat P2.*2)
      (O1 ++ o :: O2) [] 0 Hoffs) as E. cbn [concat app] in E. rewrite E; clear E; [|constructor|done]. cbn [mbind option_bind].
    set (X := concat P1.*2 ++ le_bytes 4 (it_word it) ++ it_flags it :: 0 :: le_bytes 2 (Z.of_nat (length (it_key it)))).
    assert (length X = (length (concat P1.*2) + 8)%nat) as HX.
    { unfold X. rewrite !length_app, length_le_bytes. cbn [length]. rewrite length_le_bytes. lia. }
    assert (length (concat (table (move_offset o delta <$> O1 ++ o :: O2))) = (2 * (length I1 + S (length I2)))%nat) as HT.
    { rewrite length_concat_chunks, length_table, length_fmap, length_app by apply table_chunks. cbn [length]. lia. }
    destruct (move_memory (concat (table (move_offset o delta <$> O1 ++ o :: O2))) F X K (concat P2.*2) delta (page_upper p))
      as (F' & K' & Em & HF' & HK''); [lia|done|lia|].
    replace (Z.to_nat (o - page_upper p + NODESIZE)) with (length X) by (unfold NODESIZE; lia). rewrite Em. cbn [mbind option_bind].
    destruct (move_placed (page_upper p) size P1 o e P2 delta Hpl) as (_ & Emo & _); try lia; [|done|].
    { rewrite fmap_app, concat_app, length_app. cbn [fmap list_fmap concat snd]. rewrite length_app. lia. }
    assert (u16 (page_upper p - delta) = page_upper p - delta) as -> by (unfold u16; apply Z.mod_small; lia).
    exists F', K'. split; [done|]. split; [lia|].
    assert (moved F' K' = concat (table (move_offset o delta <$> O1 ++ o :: O2)) ++ F' ++ X ++ K' ++ concat P2.*2) as Emv by by rewrite moved_app.
    rewrite <- Emv. unfold page_node. cbn [page_body with_bounds with_body]. rewrite Emv.
    assert (concat (table (move_offset o delta <$> O1 ++ o :: O2)) = concat (table (move_offset o delta <$> O1)) ++ le_bytes 2 (o - delta) ++ concat (table (move_offset o delta <$> O2))) as ->.
    { rewrite fmap_app, table_app, concat_app. cbn [fmap list_fmap]. rewrite Emo. done. }
    rewrite <- !app_assoc. rewrite entry_chunks; [done|apply table_chunks|by rewrite length_table, length_fmap|]. lia.
  - assert (delta = 0) as E0 by lia. exists F, K. split; [lia|]. split; [lia|]. rewrite E0, !Z.sub_0_r.
    rewrite moved_app, E0, move_offset_0 by done. rewrite <- Eb. by destruct p.
Qed.
End rekey.

Lemma propagate_key_spec size p I1 it I2 key :
  page_holds size p (I1 ++ it :: I2) -> is_leaf p = false -> Z.of_nat (length key) < 2 ^ 16 ->
  let delta := Z.of_nat (item_size (rekey it key)) - Z.of_nat (item_size it) in
  exists r, tree_propagate_key p (length I1) key = Some r /\
  if decide (delta > page_room p)
  then exists q, r = split_needed q (it_word it) /\ page_holds size q (I1 ++ I2) /\ page_flags q = page_flags p
  else exists q, r = key_replaced q /\ page_holds size q (I1 ++ rekey it key :: I2) /\ page_room q = page_room p - delta /\
    (page_txnid q, dupfix_ksize q, page_flags q, page_pgno q) = (page_txnid p, dupfix_ksize p, page_flags p, page_pgno p).
Proof.
  intros Hp Hleaf Hkey delta. destruct (rekey_ok _ _ _ _ _ key Hp Hleaf Hkey) as (Hok & Hd & Hok' & Hk0).
  assert ((I1 ++ it :: I2) !! length I1 = Some it) as Hi by by rewrite lookup_app_r, Nat.sub_diag by lia.
  destruct (page_opened _ _ _ _ _ Hp) as (O1 & o & O2 & M1 & e & M2 & P1 & P2 & F & Hop).
  pose proof (delta_even _ _ _ _ _ key Hp Hleaf Hkey) as Ed. fold delta in Ed.
  assert (node_ks (page_body p) (Z.to_nat o) = Some (Z.of_nat (length (it_key it))) /\ node_pgno (page_body p) (Z.to_nat o) = Some (it_word it)) as [Eks Epg].
  { destruct (page_locate _ _ _ Hp _ _ Hi) as (A & e0 & B & Hb & (pad & -> & _) & Hent & _).
    rewrite (op_entry _ _ _ _ _ _ _ _ _ _ _ _ _ _ Hop) in Hent. injection Hent as ->. rewrite Nat2Z.id, Hb.
    split; [by eapply read_ks|by apply (read_word _ _ Hok)]. }
  unfold tree_propagate_key, page_node. rewrite (op_entry _ _ _ _ _ _ _ _ _ _ _ _ _ _ Hop). cbn [mbind option_bind]. rewrite Eks. cbn [mbind option_bind].
  rewrite Ed. case_decide as Hroom.
  { rewrite Epg. cbn [mbind option_bind]. destruct (node_del_holds _ _ _ _ _ 0 Hp) as (q & -> & Hq & Hf & _). cbn [mbind option_bind].
    eexists. split; [done|]. by exists q. }
  destruct (make_room size p I1 it I2 key Hp Hleaf Hkey O1 o O2 M1 e M2 P1 P2 F Hop ltac:(fold delta; lia)) as (F' & K' & HF' & HK' & Em).
  fold delta in Em, HF'. unfold page_node in Em. rewrite Em. clear Em. cbn [mbind option_bind page_body with_bounds with_body].
  assert (page_room p = Z.of_nat (length F) /\ page_lower p = 2 * Z.of_nat (length I1 + S (length I2))) as [Er El] by (eapply room_is; eassumption || (fold delta; lia)).
  destruct Hop as [Hb HO1 HO2 Him1 Hie Him2 Hperm Hpl Eo Hup Hend Hoffs Hpos1 Hpos2 He Hent]. pose proof (ph_max _ _ _ Hp) as Hmax.
  pose proof (even_size it Hd Hk0) as Hsz. pose proof (even_size (rekey it key) Hd Hkey) as Hsz'. cbn [it_key rekey] in Hsz'.
  set (T' := concat (table (move_offset o delta <$> O1 ++ o :: O2))) in *.
  assert (length T' = (2 * (length I1 + S (length I2)))%nat) as HT.
  { unfold T'. rewrite length_concat_chunks, length_table, length_fmap, length_app by apply table_chunks. cbn [length]. lia. }
  assert (length (take (length key) K') = length key /\ length (drop (length key) K') = (payload (rekey it key) mod 2)%nat) as [HK1 HK2].
  { rewrite EVEN_CEIL_spec in HK' by lia. unfold payload. cbn [it_key it_data rekey]. rewrite Hd. cbn [length]. rewrite Nat.add_0_r.
    pose proof (Z.mod_pos_bound (Z.of_nat (length key)) 2 ltac:(lia)). pose proof (Nat2Z.inj_mod (length key) 2) as Em.
    rewrite length_take, length_drop. change (Z.of_nat 2) with 2 in Em. lia. }
  unfold moved. fold delta. fold T'.
  replace (Z.to_nat (o - delta)) with (length (T' ++ F' ++ concat P1.*2)) by (rewrite !length_app; lia).
  rewrite slot_set_ks by (apply length_le_bytes). cbn [mbind option_bind].
  rewrite slot_set_key by (apply length_le_bytes || lia). cbn [mbind option_bind].
  eexists. split; [done|]. eexists. split; [done|]. split; [|split; [unfold page_room, with_body, with_bounds; cbn; lia|done]].
  destruct Hp as [Hsize _ Hdf Hall Hlow _].
  assert (delta = Z.of_nat (item_size (rekey it key)) - Z.of_nat (item_size it)) as Edl by done.
  assert (8 <= item_size (rekey it key))%nat as H8 by (unfold item_size; lia).
  set (e' := image (rekey it key) (drop (length key) K')).
  assert (image_of (rekey it key) e') as Hie' by (by eexists).
  assert (length e' = item_size (rekey it key)) as He' by by apply image_size.
  destruct (move_placed (page_upper p) size P1 o e P2 delta Hpl) as (Hmap & Emo & Hpl'); try lia; [|done|rewrite He; unfold item_size; lia|].
  { rewrite fmap_app, concat_app, length_app. cbn [fmap list_fmap concat snd]. rewrite length_app. lia. }
  split; cbn [page_body page_lower page_upper with_body with_bounds].
  - rewrite !length_app. unfold slot. repeat (rewrite length_app || cbn [length]). rewrite !length_le_bytes, HK2.
    assert (item_size (rekey it key) = 8 + length key + payload (rekey it key) mod 2)%nat as H8' by (unfold item_size, payload; cbn [it_key it_data rekey]; rewrite Hd; cbn [length]; lia).
    lia.
  - done.
  - done.
  - change (is_leaf _) with (is_leaf p). rewrite Hleaf in *. apply Forall_app in Hall as [H1 H2]. apply Forall_cons in H2 as [_ H2]. apply Forall_app. split; [done|by constructor].
  - rewrite Hlow, !length_app. done.
  - exists (move_offset o delta <$> O1 ++ o :: O2), (M1 ++ e' :: M2), ((prod_map (Z.add (- delta)) id <$> P1) ++ (o - delta, e') :: P2), F'.
    split_and!.
    + fold T'. rewrite fmap_app, snd_shift, (concat_app P1.*2). cbn [fmap list_fmap concat snd]. unfold e'. rewrite image_slot. cbn [it_word it_flags it_key it_data rekey].
      rewrite Hd. rewrite <- !app_assoc. done.
    + rewrite length_app. cbn [length]. lia.
    + by apply Forall2_app; [|constructor].
    + apply Forall2_length in Him1, Him2. rewrite length_fmap, !length_app. cbn [length]. lia.
    + pose proof (Forall2_length _ _ _ Him1). pose proof (Forall2_length _ _ _ Him2).
      rewrite fmap_app, zip_with_app by (rewrite length_fmap; lia). cbn [fmap list_fmap zip_with]. rewrite Emo. rewrite <- !Permutation_middle. constructor.
      rewrite <- Hmap, <- !zip_fmap_fst, <- fmap_app. by apply Permutation_map.
    + apply Hpl'. lia.
Qed.
