(* ===== verification/SplitProps.v ===== *)
(** * The split of a page: properties *)

From S2P Require Import Prelude Meta Cmp CmpProps Page PageFacts PageOps PageProps Limits LimitsProps Split SplitFacts SplitMove SplitKey.

(** ** Both halves fit *)

Section choice.
Context (page_new_large : Z -> Z + Z) (ps ps2ln tree_flags reserve_factor : Z) (prefer_waf : bool).
Abbreviation bmax := (BRANCH_NODE_MAX ps).
Abbreviation lmax := (LEAF_NODE_MAX ps).
Context (Hps : ps ∈ page_sizes) (Hres : 0 <= reserve_factor <= 32768).
Abbreviation size := (Z.to_nat (PAGESPACE ps)).

Lemma page_space_size : page_space ps = Z.of_nat size /\ ps = Z.of_nat size + PAGEHDRSZ /\ 200 <= PAGESPACE ps < 2 ^ 16.
Proof. clear -Hps. pose proof Hps as H. unfold page_space. each_size H; vm_compute; repeat split; congruence. Qed.

Context (mp : page_t) (I1 I2 : list item) (new : add_t) (itnew : item).
Abbreviation leaf := (is_leaf mp).
Abbreviation all := (I1 ++ itnew :: I2).
Context (Hmp : page_holds size mp (I1 ++ I2)) (Hmoves : Forall (moves bmax lmax leaf) (I1 ++ I2)).
Context (Hnew : carries page_new_large ps2ln bmax lmax tree_flags leaf new itnew) (Hbig : leaf = true -> Z.land (ad_flags new) N_BIG = 0).
Context (Hempty : one_empty (I1 ++ I2)).
Context (Hleaf : Z.land (page_flags mp) P_BRANCH = if leaf then 0 else 1).
Context (Hfull : page_room mp < 2 + Z.of_nat (item_size itnew)).
Context (Hthree : leaf = false -> (3 <= length (I1 ++ I2))%nat).
Abbreviation nkeys := (length (I1 ++ I2)).
Abbreviation lm := (if leaf then 1 else 2)%nat.
Abbreviation rm := (S nkeys - lm)%nat.

Lemma nodemax_two : 2 * (nodemax bmax lmax leaf + 2) <= Z.of_nat size.
Proof.
  clear -Hps. destruct (node_sizes ps Hps) as (H1 & H2 & _). pose proof page_space_size. unfold NODESIZE, sizeof_indx_t, nodemax in *. destruct leaf; lia.
Qed.

Lemma new_size_max : Z.of_nat (item_size itnew) <= nodemax bmax lmax leaf.
Proof. revert Hnew. clear. unfold carries, nodemax. destruct leaf; [intros (_ & _ & _ & _ & H & _)|intros (_ & _ & _ & _ & H)]; exact H. Qed.

Lemma new_item_ok : item_ok leaf itnew.
Proof. revert Hnew. clear. unfold carries. destruct leaf; [intros (_ & _ & _ & H & _)|intros (_ & _ & _ & H & _)]; exact H. Qed.

(** A page that has no room for a node has two nodes at least. *)
Lemma full_two : (2 <= nkeys)%nat.
Proof.
  pose proof nodemax_two as H2. pose proof new_size_max as H1. pose proof (page_room_items _ _ _ Hmp) as Hr.
  revert Hmoves Hthree Hfull H1 H2 Hr. clear. intros Hmoves Hthree Hfull H1 H2 Hr.
  destruct leaf eqn:E; [|by specialize (Hthree eq_refl); lia].
  destruct (I1 ++ I2) as [|x [|y l]] eqn:El; cbn [length]; [| |lia]; exfalso.
  - change (items_size []) with O in Hr. lia.
  - rewrite items_size_cons in Hr. change (items_size []) with O in Hr.
    apply Forall_cons in Hmoves as [[Hx _] _]. lia.
Qed.

Lemma minkeys_lm : minkeys mp = Z.of_nat lm.
Proof. unfold minkeys. rewrite Hleaf. by case leaf. Qed.

Lemma rightmost_rm : rightmost_split mp = Z.of_nat rm.
Proof.
  unfold rightmost_split. rewrite minkeys_lm, (page_numkeys_holds _ _ _ Hmp). pose proof full_two. pose proof (ph_lower _ _ _ Hmp).
  destruct (page_bounds _ _ _ Hmp) as [? ?]. assert (1 <= lm <= 2)%nat as ? by (case leaf; cbn; lia). rewrite u64_small by (unfold UINT64_MAX; lia); lia.
Qed.

Lemma all_length : length all = S nkeys.
Proof. rewrite !length_app. cbn [length]. lia. Qed.

Lemma all_perm_size : items_size all = (items_size (I1 ++ I2) + (2 + item_size itnew))%nat.
Proof. rewrite !items_size_app, items_size_cons. lia. Qed.

Lemma all_moves : Forall (fun it => Z.of_nat (item_size it) <= nodemax bmax lmax leaf) all.
Proof.
  apply Forall_app in Hmoves as [H1 H2]. apply Forall_app. split; [by eapply Forall_impl; [exact H1|intros x [Hx _]; exact Hx]|].
  constructor; [apply new_size_max|]. by eapply Forall_impl; [exact H2|intros x [Hx _]; exact Hx].
Qed.

Lemma used_fits : (items_size (I1 ++ I2) <= size)%nat /\ page_used ps mp = Z.of_nat (items_size (I1 ++ I2)).
Proof.
  pose proof (page_room_items _ _ _ Hmp) as Hr. destruct (page_bounds _ _ _ Hmp) as [? ?]. unfold page_room in Hr. destruct page_space_size as (E & _ & _).
  split; [lia|]. unfold page_used, page_room. rewrite E. rewrite Hr. rewrite u64_small by (unfold UINT64_MAX; lia). lia.
Qed.

(** The size that the choice works with is the one of the node. *)
Lemma newsize_spec :
  (if leaf then Some (leaf_size lmax (val_of (ad_key new)) (ad_data new)) else branch_size bmax (Some (val_of (ad_key new)))) =
  Some (Z.of_nat (2 + item_size itnew)).
Proof.
  revert Hnew Hbig. clear -Hps. unfold carries. destruct leaf.
  - intros (Ek & Ew & Hres0 & Hok & Hmax & Hcase) Hb. specialize (Hb eq_refl). pose proof Hok as (Hw & _ & Hk & _). rewrite <- Ek in Hk. rewrite <- Ew in Hw.
    f_equal. unfold leaf_size. pose proof page_space_size as (_ & _ & Hsp). pose proof (node_sizes ps Hps) as (_ & Hl2 & _).
    destruct Hcase as [(_ & Hf & Hv)|[(Hb' & _)|(_ & Hns & _ & _ & pgno & _ & _ & Hv & _)]]; [|lia|].
    + apply bytes_at_length in Hv. rewrite (node_size_exact _ _ itnew) by (done || lia). rewrite decide_False by lia.
      unfold sizeof_indx_t in *. rewrite u64_small by (unfold UINT64_MAX; lia). lia.
    + rewrite decide_True by done. assert (length (it_data itnew) = 4%nat) as Hl4 by by rewrite Hv.
      pose proof (node_size_big (ad_key new) itnew Hk (eq_sym Ek) Hl4) as E. cbn [val_of iov_len]. unfold sizeof_indx_t, sizeof_pgno_t in *.
      assert (0 <= node_size_len (Z.of_nat (length (ad_key new))) 0 <= 2 ^ 20) as Hn.
      { unfold node_size_len, NODESIZE. rewrite Z.add_0_r, (u64_small (Z.of_nat _)) by (unfold UINT64_MAX; lia). rewrite EVEN_CEIL_spec by lia.
        pose proof (Z.mod_pos_bound (Z.of_nat (length (ad_key new))) 2 ltac:(lia)). rewrite u64_small by (unfold UINT64_MAX; lia). lia. }
      rewrite u64_small in E by (unfold UINT64_MAX; lia). rewrite (u64_small (_ + 4)) by (unfold UINT64_MAX; lia).
      rewrite u64_small by (unfold UINT64_MAX; lia). lia.
  - intros (Ek & Epg & Hf & (Hw & _ & Hk & Hd) & Hmax) _. change (Some (val_of (ad_key new))) with (val_of <$> Some (ad_key new)).
    rewrite (branch_size_item bmax (Some (ad_key new)) itnew); cbn [default]; [f_equal; lia|by rewrite Ek|done|done|done].
Qed.

(** The copy of the table, with a hole for the new node. *)
Definition table_copied (tmp : page_t) : Prop :=
  forall j, (j <= nkeys)%nat -> j <> length I1 -> entry (page_body tmp) j = entry (page_body mp) (old_index I1 j).

Lemma split_size_spec tmp j it : table_copied tmp -> all !! j = Some it ->
  split_size mp tmp (length I1) (Z.of_nat (2 + item_size itnew)) j = Some (Z.of_nat (2 + item_size it)).
Proof.
  intros Htmp Hj. unfold split_size. destruct (decide (j = length I1)) as [->|Hne].
  { rewrite lookup_app_r, Nat.sub_diag in Hj by lia. by injection Hj as <-. }
  pose proof (all_old I1 I2 itnew j it Hj Hne) as Hold. destruct (page_locate _ _ _ Hmp _ _ Hold) as (A & e & B & Hb & (pad & -> & _) & _ & Hn).
  pose proof (lookup_lt_Some _ _ _ Hj) as Hlt. rewrite all_length in Hlt.
  unfold page_node in Hn |- *. rewrite Htmp by lia. rewrite Hn. cbn [mbind option_bind].
  pose proof (proj1 (Forall_lookup _ _) (ph_items _ _ _ Hmp) _ _ Hold) as Hok.
  rewrite Hb, (read_ks _ _ Hok). cbn [mbind option_bind].
  assert (forall n, n = Z.of_nat (length (it_data it)) -> Z.of_nat (length (it_data it)) < 2 ^ 32 ->
    EVEN_CEIL (u64 (NODESIZE + Z.of_nat (length (it_key it)) + sizeof_indx_t + n)) = Z.of_nat (2 + item_size it)) as Hs.
  { intros n -> Hd. destruct Hok as (_ & _ & Hk & _). unfold NODESIZE, sizeof_indx_t in *. rewrite u64_small by (unfold UINT64_MAX; lia).
    rewrite EVEN_CEIL_spec by lia. unfold item_size, payload. rewrite !Nat2Z.inj_add, Nat2Z.inj_mod, !Nat2Z.inj_add.
    replace (8 + Z.of_nat (length (it_key it)) + 2 + Z.of_nat (length (it_data it)))
      with (Z.of_nat (length (it_key it)) + Z.of_nat (length (it_data it)) + 5 * 2) by lia. rewrite Z.mod_add by lia. lia. }
  pose proof (read_flags it A B pad) as Ef. destruct (read_word _ it Hok A B pad) as [_ Ed]. destruct Hok as (Hw & _ & _ & Hd).
  destruct leaf.
  - rewrite Ef. cbn [mbind option_bind]. rewrite Ed. case_decide.
    + cbn [mbind option_bind]. f_equal. apply Hs; unfold sizeof_pgno_t in *; lia.
    + cbn [mbind option_bind]. f_equal. apply Hs; lia.
  - cbn [mbind option_bind]. f_equal. rewrite <- (Hs 0); [|by rewrite Hd|rewrite Hd; simpl; lia]. by rewrite Z.add_0_r.
Qed.

Lemma split_fit_spec tmp choice : Z.of_nat lm <= choice <= Z.of_nat rm -> table_copied tmp ->
  exists s, split_fit ps bmax lmax reserve_factor mp tmp (length I1) new choice = Some s /\ 0 <= s /\ fits ps all lm rm (Z.to_nat s).
Proof.
  intros Hc Htmp. destruct page_space_size as (Esp & _ & Hsp). pose proof nodemax_two as H2. pose proof new_size_max as Hnm. pose proof all_moves as Ham.
  destruct used_fits as [Hu Eu]. pose proof all_perm_size as ET. pose proof full_two as Hn2. pose proof all_length as Hal. rewrite <- Esp in H2.
  pose proof (items_size_length (I1 ++ I2)) as Hlen. assert (1 <= lm <= 2)%nat as Hlm by (case leaf; cbn; lia).
  unfold split_fit. rewrite newsize_spec. cbn [mbind option_bind]. rewrite (page_numkeys_holds _ _ _ Hmp).
  set (M := Z.to_nat (nodemax bmax lmax leaf + 2)).
  case_decide as Hloop.
  - rewrite minkeys_lm, rightmost_rm, Eu, Esp.
    destruct (some_fits ps all lm rm M) as (i & Hi).
    { eapply Forall_impl; [exact Ham|]. intros x Hx. cbv beta in Hx. unfold M. lia. }
    { lia. }
    { rewrite Esp in *. unfold M. lia. }
    { rewrite Esp in *. unfold M. nia. }
    { rewrite Esp in *. unfold M. nia. }
    { rewrite Esp in *. unfold M. lia. }
    destruct (fit_loop_fits ps all lm rm (split_size mp tmp (length I1) (Z.of_nat (2 + item_size itnew)))
      (Z.shiftr (Z.of_nat size * reserve_factor) 16)) with (split_indx := choice) (n := S nkeys) (i := O) (bs := choice) (bk := UINT64_MAX)
      as (s & E & Hs & Hf).
    + intros j it Hj. by apply split_size_spec.
    + rewrite Esp. lia.
    + rewrite Z.shiftr_div_pow2 by lia. split; [apply Z.div_pos; nia|]. apply Z.div_lt_upper_bound; nia.
    + rewrite ET. lia.
    + lia.
    + lia.
    + rewrite Hal. lia.
    + rewrite Hal. lia.
    + right. split; [done|]. exists i. split; [|done]. destruct Hi as ((? & ?) & _). lia.
    + exists s. split; [|done]. rewrite <- E. f_equal. rewrite take_0. change (items_size []) with O. rewrite u64_small by (unfold UINT64_MAX; lia).
      f_equal. rewrite ET. lia.
  - exists choice. split; [done|]. split; [lia|]. unfold fits. rewrite Nat2Z.inj_le, Nat2Z.inj_le, Z2Nat.id by lia.
    split; [lia|]. set (c := Z.to_nat choice). assert (choice = Z.of_nat c) as Ec by (unfold c; lia).
    pose proof (items_size_take_drop c all) as ETD. unfold sizeof_indx_t, NODESIZE in Hloop. rewrite Esp. clear Hres.
    destruct (decide (c <= length I1)%nat) as [Hle|Hgt].
    + rewrite decide_True in Hloop by lia.
      assert (take c all = take c (I1 ++ I2)) as Et by by rewrite !take_app_le by lia.
      assert (items_size (take c (I1 ++ I2)) <= items_size (I1 ++ I2))%nat as Hm.
      { rewrite (items_size_take_drop c (I1 ++ I2)). lia. }
      pose proof (items_size_one_empty (take c (I1 ++ I2)) (one_empty_sub _ 0 c Hempty)) as Hmin. rewrite length_take in Hmin. rewrite Et in *.
      rewrite length_app in *. lia.
    + rewrite decide_False in Hloop by lia.
      assert (drop c all = drop (c - 1) (I1 ++ I2)) as Ed.
      { rewrite !drop_app_ge by lia. replace (c - length I1)%nat with (S (c - 1 - length I1)) by lia. done. }
      assert (items_size (drop (c - 1) (I1 ++ I2)) <= items_size (I1 ++ I2))%nat as Hm.
      { rewrite (items_size_take_drop (c - 1) (I1 ++ I2)). lia. }
      pose proof (one_empty_sub (I1 ++ I2) (c - 1) (length (I1 ++ I2)) Hempty) as Ho. rewrite take_ge in Ho by (rewrite length_drop; lia).
      pose proof (items_size_one_empty _ Ho) as Hmin. rewrite length_drop in Hmin. rewrite Ed in *. lia.
Qed.

(** ** The choice *)

Context (Hkeys : Forall (fun it => Z.of_nat (length (it_key it)) <= keysize_max ps 0) all).
Context (Hflags : 0 <= page_flags mp < 2 ^ 16) (Hresv : Z.land (ad_flags new) MDBX_RESERVE = 0).
Context (Hinner : leaf = false -> I1 <> []).

(** A key of a table fits into a branch. *)
Lemma key_in_branch key : Z.of_nat (length key) <= keysize_max ps 0 ->
  Z.of_nat (item_size (mk_item 0 0 key [])) <= bmax /\ branch_size bmax (Some (val_of key)) = Some (Z.of_nat (2 + item_size (mk_item 0 0 key []))).
Proof.
  intros Hk. clear -Hps Hk. destruct (node_sizes ps Hps) as (_ & _ & Hk0 & Hb & _). set (it := mk_item 0 0 key []).
  assert (Z.of_nat (item_size it) <= bmax) as Hmax.
  { rewrite item_size_Z by (unfold payload; cbn; lia). unfold payload. cbn [it_key it_data it length]. rewrite Nat.add_0_r.
    pose proof (EVEN_CEIL_mono (Z.of_nat (length key)) (keysize_max ps 0)). lia. }
  split; [done|]. change (Some (val_of key)) with (val_of <$> Some key).
  rewrite (branch_size_item bmax (Some key) it); cbn [default]; unfold id; [f_equal; lia|lia|done|done|done].
Qed.

Lemma first_key_spec it l : I1 ++ I2 = it :: l -> mp_first_key mp = Some (it_key it).
Proof.
  intros E. unfold mp_first_key. rewrite (ph_dupfix _ _ _ Hmp). destruct (reads_item _ _ _ O it Hmp) as (n & d & Hn & Hk & _); [by rewrite E|].
  rewrite Hn. cbn [mbind option_bind]. done.
Qed.

Lemma split_choice_spec parent path :
  exists ch, split_choice bmax reserve_factor prefer_waf mp parent path (Z.of_nat (length I1)) (ad_flags new) = Some ch /\
  (reserve_factor = 0 -> ch = Z.of_nat nkeys -> leaf = true /\ I2 = []) /\
  (reserve_factor = 0 -> ch = 0 -> leaf = true /\ I1 = [] /\ Forall (fun ki => ki = 0) path /\ replaces (ad_flags new) = false /\
    exists it l, I2 = it :: l /\ 2 + Z.of_nat (item_size (mk_item 0 0 (it_key it) [])) <= page_room parent).
Proof.
  pose proof full_two as Hn2. unfold split_choice. rewrite (page_numkeys_holds _ _ _ Hmp), rightmost_rm, minkeys_lm.
  assert (leaf = true /\ lm = 1%nat \/ leaf = false /\ lm = 2%nat /\ length I1 <> O /\ (3 <= nkeys)%nat) as Hcase.
  { clear -Hinner Hthree. destruct leaf; [by left|right]. split; [done|]. split; [done|]. split; [|by apply Hthree].
    intros E. by apply Hinner; [|apply nil_length_inv]. }
  pose proof (length_app I1 I2) as Hla.
  destruct (decide (reserve_factor <> 0)) as [|Hr]; [eexists; split; [done|]; split; lia|].
  rewrite (bool_decide_false (reserve_factor <> 0)) by done. cbn [orb].
  destruct (decide (Z.of_nat (length I1) = Z.of_nat nkeys)) as [Heq|Hne].
  { eexists. split; [done|]. split; intros _ Hch; [|lia]. split; [by destruct Hcase as [[? _]|]; [|lia]|]. apply nil_length_inv. lia. }
  destruct (decide (Z.of_nat (length I1) <= Z.of_nat lm)) as [Hle|Hgt].
  - destruct (bool_decide (Z.of_nat (length I1) = 0) && negb (replaces (ad_flags new))) eqn:Eb.
    + apply andb_true_iff in Eb as [E0 Enr]. apply bool_decide_eq_true in E0. apply negb_true_iff in Enr. destruct Hcase as [[Hlf Hlm]|]; [|lia].
      assert (I1 = []) as E1 by (apply nil_length_inv; lia).
      unfold pure_left_possible. destruct (existsb _ path) eqn:Ep.
      { cbn [mbind option_bind]. eexists. split; [done|]. split; intros _ Hch; lia. }
      assert (exists it l, I2 = it :: l) as (it & l & E2) by (clear -Hn2 E1 Hla; subst; destruct I2 as [|it l]; [cbn in *; lia|by exists it, l]).
      rewrite (first_key_spec it l) by by rewrite E1, E2. cbn [mbind option_bind].
      destruct (key_in_branch (it_key it)) as [_ ->].
      { apply Forall_app in Hkeys as [_ Hk]. apply Forall_cons in Hk as [_ Hk]. rewrite E2 in Hk. by apply Forall_cons in Hk as [Hk _]. }
      cbn [mbind option_bind]. eexists. split; [done|]. case_bool_decide as Hroom.
      * split; intros _ Hch; [lia|]. split; [done|]. split; [done|]. split; [|split; [exact Enr|exists it, l; split; [done|lia]]].
        apply Forall_forall. intros ki Hki. destruct (decide (ki = 0)) as [|Hk0]; [done|]. exfalso.
        assert (existsb (fun ki => bool_decide (ki <> 0)) path = true); [|congruence]. apply existsb_exists. exists ki.
        split; [by apply list_elem_of_In|]. by apply bool_decide_eq_true_2.
      * split; intros _ Hch; lia.
    + eexists. split; [done|]. split; intros _ Hch; lia.
  - eexists. split; [done|]. destruct prefer_waf; [split; intros _ Hch; lia|]. rewrite Z.shiftr_div_pow2 by lia. change (2 ^ 1) with 2.
    pose proof (Z.div_mod (Z.of_nat nkeys + 1) 2 ltac:(lia)). pose proof (Z.mod_pos_bound (Z.of_nat nkeys + 1) 2 ltac:(lia)).
    split; intros _ Hch; lia.
Qed.

(** ** The parts together *)

Context (dupfix_size tf : Z) (fresh : page_t) (Hfresh : length (page_body fresh) = size).
Abbreviation sister := (new_sister ps fresh mp).

Lemma sister_holds : page_holds size sister [] /\ is_leaf sister = leaf /\ is_dupfix_leaf sister = false /\ page_pgno sister = page_pgno fresh /\ page_flags sister = page_flags mp.
Proof.
  destruct page_space_size as (_ & Eps & Hsp). pose proof (ph_dupfix _ _ _ Hmp) as Hd.
  assert (page_flags sister = page_flags mp) as Ef by (apply Z.mod_small; exact Hflags).
  assert (is_dupfix_leaf sister = false) as Hd' by (unfold is_dupfix_leaf in *; by rewrite Ef).
  split; [|split; [unfold is_leaf; by rewrite Ef|split; [done|split; [done|exact Ef]]]]. apply empty_holds; [exact Hfresh|lia|done|done|].
  unfold new_sister, page_new. cbn [page_upper]. change (ps - PAGEHDRSZ) with (PAGESPACE ps). unfold u16. rewrite Z.mod_small by lia. lia.
Qed.

(** What a split gives: the items are in two pages in their order, the left one is the new
    page when it is split in front, and the cursor is at the new item. *)
Definition distributed (c : cut_t) (r : split_t) (L R : list item) : Prop :=
  sp_rc r = MDBX_SUCCESS /\ sp_txn_flags r = tf /\
  L ++ R = all /\ L <> [] /\ (exists x R', R = x :: R' /\ it_key x = ct_sepkey c) /\
  match ct_how c with
  | pure_left => page_holds size (sp_sister r) (headed leaf L) /\ page_holds size (sp_mp r) (headed leaf R) /\ sp_right r = true /\ sp_ki r = O /\ I1 = [] /\ L = [itnew] /\ replaces (ad_flags new) = false /\ leaf = true
  | how => page_holds size (sp_mp r) (headed leaf L) /\ page_holds size (sp_sister r) (headed leaf R) /\
      (if sp_right r then length L + sp_ki r else sp_ki r)%nat = length I1 /\ (sp_right r = false -> sp_ki r < length L)%nat /\
      (how = pure_right -> R = [itnew] /\ leaf = true /\ sp_right r = true)
  end /\
  page_pgno (sp_mp r) = page_pgno mp /\ page_pgno (sp_sister r) = page_pgno fresh /\ page_pgno (ct_sister c) = page_pgno fresh /\
  page_pgno (ct_mp c) = page_pgno mp /\ page_flags (sp_mp r) = page_flags mp /\ page_flags (sp_sister r) = page_flags mp.

Abbreviation finish c := (split_finish page_new_large ps ps2ln bmax lmax tree_flags dupfix_size c (length I1) new tf).

Lemma split_done_fine r : sp_rc r = MDBX_SUCCESS -> split_done (ad_flags new) r = Some r.
Proof. intros H. unfold split_done. rewrite H. rewrite decide_False by (by intros []). by rewrite decide_False by lia. Qed.

Lemma pure_finish how sepkey :
  leaf = true -> how = pure_left \/ how = pure_right ->
  exists r, finish (mk_cut how mp sister sepkey true 0 None) = Some (mk_split MDBX_SUCCESS mp (la_page r) true 0 tf (la_large r) (la_reserved r)) /\
  page_holds size (la_page r) [itnew] /\ page_pgno (la_page r) = page_pgno fresh /\ page_flags (la_page r) = page_flags mp.
Proof.
  intros Hl Hhow. destruct sister_holds as (Hs & Hsl & Hsd & Hsp & Hsf).
  pose proof nodemax_two as H2. pose proof new_size_max as H1. pose proof (page_room_items _ _ _ Hs) as Hr. change (items_size []) with O in Hr.
  pose proof Hnew as Hc. unfold carries in Hc. rewrite Hl in Hc. pose proof Hsl as Hsl'. rewrite Hl in Hsl'.
  destruct (place_leaf page_new_large ps2ln bmax lmax tree_flags size sister [] tf Hs new itnew Hsl' Hc) as (r & u & E & Hrc & Htf & Hh & He); [lia|].
  unfold place_node in E. rewrite Hsl' in E. exists r. cbn [app length] in *. split; [|split; [exact Hh|]].
  - destruct Hhow as [-> | ->]; unfold split_finish; cbn [ct_how ct_sister ct_mp]; rewrite Hsd, E; cbn [mbind option_bind]; rewrite Hrc, Htf; by apply split_done_fine.
  - destruct He as (_ & _ & _ & _ & _ & Eh). injection Eh as _ _ -> ->. split; [exact Hsp|exact Hsf].
Qed.

Lemma halves_finish s tmp sepkey right :
  fits ps all lm rm s -> table_copied tmp -> page_holds size tmp [] -> page_flags tmp = page_flags mp ->
  exists r, finish (mk_cut (halves (Z.of_nat s)) mp sister sepkey right 0 (Some tmp)) = Some r /\
  sp_rc r = MDBX_SUCCESS /\ sp_txn_flags r = tf /\ sp_right r = right /\
  page_holds size (sp_mp r) (headed leaf (take s all)) /\ page_holds size (sp_sister r) (headed leaf (drop s all)) /\
  page_pgno (sp_mp r) = page_pgno mp /\ page_pgno (sp_sister r) = page_pgno fresh /\
  page_flags (sp_mp r) = page_flags mp /\ page_flags (sp_sister r) = page_flags mp /\
  sp_ki r = (if decide (length I1 < s)%nat then length I1 else length I1 - s)%nat.
Proof.
  intros ((Hs1 & Hs2) & Hfl & Hfr) Hcopy Htmp Hflt. destruct page_space_size as (Esp & Eps & Hsp). rewrite Esp in Hfl, Hfr.
  destruct sister_holds as (Hs & Hsl & Hsd & Hspg & Hsf). pose proof full_two as Hn2. pose proof all_length as Hal.
  assert (1 <= lm)%nat as Hlm by (case leaf; lia). assert (1 <= s <= nkeys)%nat as Hs3 by lia.
  pose proof (items_size_take_drop s all) as ETD.
  set (st0 := mk_move s 0 false sister tmp 0 tf None None).
  destruct (fill_sister page_new_large ps2ln bmax lmax tree_flags size mp I1 I2 new itnew s Hmp Hmoves Hnew Hs3
    (drop s all) [] st0 (length (take s all) + 0)) as (sis & ki & lg & rs & E1 & Hsis & Hsisl & [Hsp1 Hsp2] & Hki).
  { done. }
  { intros E. apply (f_equal length) in E. rewrite length_drop, Hal in E. simpl in E. lia. }
  { done. }
  { cbn. lia. }
  { done. }
  { intros j Hj Hne. apply Hcopy; [lia|done]. }
  { exact Hs. }
  { exact Hsl. }
  { cbn [app]. lia. }
  { cbn. lia. }
  set (st1 := mk_move 0 0 true sis (mv_tmp st0) ki (mv_txn_flags st0) lg rs) in *.
  destruct (move_filled page_new_large ps2ln bmax lmax tree_flags size mp I1 I2 new itnew s Hmp Hmoves Hnew Hs3
    (take s all) [] st1 0) as (tmp' & ki' & lg' & rs' & E2 & Ht & Htf & Hent & Hk1 & Hk2).
  { done. }
  { intros E. apply (f_equal length) in E. rewrite length_take, Hal in E. simpl in E. lia. }
  { done. }
  { done. }
  { done. }
  { intros j Hj Hne. apply Hcopy; [lia|done]. }
  { exact Htmp. }
  { cbn [mv_tmp st1 st0]. unfold is_leaf. by rewrite Hflt. }
  { cbn [app]. lia. }
  { cbn. lia. }
  cbn [app] in *. unfold split_finish. cbn [ct_how ct_tmp ct_mp ct_sister ct_right ct_ki]. rewrite Nat2Z.id, (page_numkeys_holds _ _ _ Hmp). fold st0.
  replace (S nkeys) with (length (drop s all) + (length (take s all) + 0))%nat by (rewrite length_drop, length_take, Hal; lia).
  rewrite E1, E2. cbn [mbind option_bind]. rewrite decide_False by (by intros []).
  destruct (copy_back_holds ps size mp tmp' (I1 ++ I2) (headed leaf (take s all)) Hmp Ht) as (q & Eq & Hq & Eh).
  { intros E. apply (f_equal length) in E. rewrite headed_length, length_take, Hal in E. simpl in E. lia. }
  { cbn [mv_tmp st1 st0] in Htf. by rewrite Htf. }
  { rewrite headed_length, length_take, Hal. by replace (s `min` S nkeys - 1)%nat with (s - 1)%nat by lia. }
  { exact Eps. }
  cbn [mv_tmp]. rewrite Eq. cbn [mbind option_bind]. rewrite split_done_fine by done. eexists. split; [done|].
  cbn [sp_rc sp_txn_flags sp_right sp_mp sp_sister sp_ki mv_txn_flags mv_sister mv_ki st1 st0] in *. split; [done|]. split; [done|]. split; [done|]. split; [done|].
  split; [done|]. split; [by injection Eh|]. split; [by rewrite Hsp1|]. split; [by injection Eh|]. split; [by rewrite Hsp2|]. case_decide; [by apply Hk1|]. rewrite Hk2 by lia. apply Hki. lia.
Qed.

Abbreviation cut scratch parent path := (split_cut ps bmax lmax dupfix_size reserve_factor prefer_waf mp fresh scratch parent path (length I1) new).

Lemma new_key : ad_key new = it_key itnew.
Proof. revert Hnew. clear. unfold carries. destruct leaf; by intros (H & _). Qed.

Lemma split_key_spec tmp s it : table_copied tmp -> all !! s = Some it -> (s <= nkeys)%nat -> split_key mp tmp (length I1) (ad_key new) s = Some (it_key it).
Proof.
  intros Htmp Hs Hle. unfold split_key. case_decide as Hne.
  - pose proof (all_old I1 I2 itnew s it Hs Hne) as Hold. destruct (reads_item _ _ _ _ it Hmp Hold) as (n & d & Hn & Hk & _).
    unfold page_node in *. rewrite Htmp by done. rewrite Hn. cbn [mbind option_bind]. exact Hk.
  - assert (s = length I1) as -> by lia. rewrite lookup_app_r, Nat.sub_diag in Hs by lia. injection Hs as <-. by rewrite new_key.
Qed.

Lemma cut_and_finish scratch parent path :
  length (page_body scratch) = size ->
  exists c r L R, cut (Some scratch) parent path = Some (inr c) /\ finish c = Some r /\ distributed c r L R /\
  (ct_how c = pure_left -> Forall (fun ki => ki = 0) path /\ 2 + Z.of_nat (item_size (mk_item 0 0 (ct_sepkey c) [])) <= page_room parent).
Proof.
  intros Hscr. destruct (split_choice_spec parent path) as (ch & Ech & Hright & Hleft). destruct sister_holds as (_ & _ & Hsd & Hspg & _).
  pose proof full_two as Hn2. pose proof all_length as Hal. assert (1 <= lm <= 2)%nat as Hlm by (case leaf; lia).
  unfold split_cut. rewrite Ech. cbn [mbind option_bind]. rewrite (page_numkeys_holds _ _ _ Hmp).
  destruct (bool_decide (reserve_factor = 0) && bool_decide (ch = Z.of_nat nkeys)) eqn:Eright.
  { apply andb_true_iff in Eright as [H1%bool_decide_eq_true H2%bool_decide_eq_true]. destruct (Hright H1 H2) as [Hl E2].
    destruct (pure_finish pure_right (ad_key new) Hl (or_intror eq_refl)) as (r & E & Hh & Hpg & Hfg).
    eexists _, _, I1, [itnew]. split; [done|]. split; [exact E|]. split; [|done].
    unfold distributed. cbn [sp_rc sp_txn_flags ct_how ct_sepkey sp_right sp_ki sp_mp sp_sister ct_sister]. pose proof Hmp as Hm. rewrite E2, app_nil_r in Hm.
    assert (forall k, headed leaf k = k) as Eh by (intros k; rewrite Hl; by destruct k).
    split; [done|]. split; [done|]. split; [by rewrite E2|]. split; [intros E1; rewrite E1, E2 in Hn2; simpl in Hn2; lia|].
    split; [exists itnew, []; by rewrite new_key|]. split; [|done]. rewrite !Eh. split; [done|]. split; [done|]. split; [lia|]. done. }
  destruct (bool_decide (reserve_factor = 0) && bool_decide (ch = 0)) eqn:Eleft.
  { apply andb_true_iff in Eleft as [H1%bool_decide_eq_true H2%bool_decide_eq_true]. destruct (Hleft H1 H2) as (Hl & E1 & Hpath & Hnr & it & l & E2 & Hroom).
    rewrite (first_key_spec it l) by by rewrite E1, E2. cbn [mbind option_bind].
    destruct (pure_finish pure_left (it_key it) Hl (or_introl eq_refl)) as (r & E & Hh & Hpg & Hfg).
    eexists _, _, [itnew], I2. split; [done|]. split; [exact E|]. split; [|done].
    unfold distributed. cbn [sp_rc sp_txn_flags ct_how ct_sepkey sp_right sp_ki sp_mp sp_sister ct_sister]. pose proof Hmp as Hm. rewrite E1 in Hm. cbn [app] in Hm.
    assert (forall k, headed leaf k = k) as Eh by (intros k; rewrite Hl; by destruct k).
    split; [done|]. split; [done|]. split; [by rewrite E1|]. split; [done|]. split; [by exists it, l|]. split; [|done]. rewrite !Eh. done. }
  rewrite Hsd, minkeys_lm, rightmost_rm. set (c := clamp_unsigned ch _ _).
  assert (lm <= rm)%nat as Hlr by (revert Hthree Hn2; clear; destruct leaf; intros H Hn; [|specialize (H eq_refl)]; lia).
  assert (Z.of_nat lm <= c <= Z.of_nat rm) as Hc by (unfold c, clamp_unsigned; lia).
  destruct page_space_size as (Esp & _ & Hsp). destruct used_fits as [Hused _]. pose proof (items_size_length (I1 ++ I2)).
  assert (2 * S nkeys <= size)%nat as Hroom.
  { pose proof (items_size_ten (I1 ++ I2)). lia. }
  destruct (tmp_page_spec ps size mp (I1 ++ I2) scratch (length I1) Hmp Hscr) as (tmp & Etmp & Htmp & Hfl & Hcopy);
    [rewrite length_app; lia|exact Hroom|exact Esp|].
  assert (table_copied tmp) as Hcopied by exact Hcopy.
  destruct (split_fit_spec tmp c Hc Hcopied) as (s & Efit & Hs0 & Hfits). pose proof Hfits as ((Hs1 & Hs2) & _).
  destruct (lookup_lt_is_Some_2 all (Z.to_nat s)) as [it Hit]; [lia|].
  rewrite Etmp. cbn [mbind option_bind]. rewrite Efit. cbn [mbind option_bind]. rewrite (split_key_spec tmp _ it Hcopied Hit) by lia. cbn [mbind option_bind].
  destruct (halves_finish (Z.to_nat s) tmp (it_key it) (bool_decide (s <= Z.of_nat (length I1))) Hfits Hcopied Htmp Hfl)
    as (r & E & H1 & H2 & H3 & H4 & H5 & H6 & H7 & H9 & H10 & H8). rewrite Z2Nat.id in E by done.
  eexists _, r, (take (Z.to_nat s) all), (drop (Z.to_nat s) all). split; [done|]. split; [exact E|]. split; [|done].
  unfold distributed. cbn [ct_how ct_sepkey ct_sister]. split; [done|]. split; [done|]. split; [apply take_drop|]. split.
  { intros E0. apply (f_equal length) in E0. rewrite length_take, Hal in E0. simpl in E0. lia. }
  split; [exists it, (drop (S (Z.to_nat s)) all); split; [by apply drop_S|done]|]. split; [|done].
  split; [done|]. split; [done|]. rewrite length_take, Hal, H3, H8. split; [|split; [|done]].
  - case_bool_decide; case_decide; lia.
  - intros Hb. apply bool_decide_eq_false in Hb. rewrite decide_True by lia. lia.
Qed.
End choice.

(** ** The properties *)

(** A page in the case that [page_split] is called for: a node is to be added between
    its items and has no room.  The sizes are those of the page size, the keys those of a
    table, and of the keys at most one is empty (the first one of a branch). *)
Record splittable (page_new_large : Z -> Z + Z) (ps ps2ln tree_flags : Z) (mp : page_t) (I1 I2 : list item) (new : add_t) (itnew : item) : Prop := {
  sb_ps : is_powerof2 ps = true /\ MDBX_MIN_PAGESIZE <= ps <= MDBX_MAX_PAGESIZE;
  sb_page : page_holds (Z.to_nat (PAGESPACE ps)) mp (I1 ++ I2);
  sb_kind : Z.land (page_flags mp) P_BRANCH = if is_leaf mp then 0 else 1;
  sb_flags : 0 <= page_flags mp < 2 ^ 16;
  sb_items : Forall (moves (BRANCH_NODE_MAX ps) (LEAF_NODE_MAX ps) (is_leaf mp)) (I1 ++ I2);
  sb_new : carries page_new_large ps2ln (BRANCH_NODE_MAX ps) (LEAF_NODE_MAX ps) tree_flags (is_leaf mp) new itnew;
  sb_naf : Z.land (ad_flags new) MDBX_RESERVE = 0 /\ (is_leaf mp = true -> Z.land (ad_flags new) N_BIG = 0);
  sb_keys : Forall (fun it => Z.of_nat (length (it_key it)) <= keysize_max ps 0) (I1 ++ itnew :: I2);
  sb_empty : one_empty (I1 ++ I2);
  sb_full : page_room mp < 2 + Z.of_nat (item_size itnew);
  sb_branch : is_leaf mp = false -> I1 <> [] /\ (3 <= length (I1 ++ I2))%nat
}.

(** The whole of [split_cut] and [split_finish] in one statement. *)
Lemma split_distributes_spec page_new_large ps ps2ln tree_flags reserve_factor prefer_waf dupfix_size tf mp fresh scratch parent path I1 I2 new itnew :
  splittable page_new_large ps ps2ln tree_flags mp I1 I2 new itnew -> 0 <= reserve_factor <= 32768 ->
  length (page_body fresh) = Z.to_nat (PAGESPACE ps) -> length (page_body scratch) = Z.to_nat (PAGESPACE ps) ->
  let bmax := BRANCH_NODE_MAX ps in let lmax := LEAF_NODE_MAX ps in
  exists c r L R,
  split_cut ps bmax lmax dupfix_size reserve_factor prefer_waf mp fresh (Some scratch) parent path (length I1) new = Some (inr c) /\
  split_finish page_new_large ps ps2ln bmax lmax tree_flags dupfix_size c (length I1) new tf = Some r /\
  distributed ps mp I1 I2 new itnew tf fresh c r L R /\
  (ct_how c = pure_left -> Forall (fun ki => ki = 0) path /\ 2 + Z.of_nat (item_size (mk_item 0 0 (ct_sepkey c) [])) <= page_room parent).
Proof.
  intros [[H1 H2] Hp Hk Hf Hi Hn [Hn1 Hn2] Hks He Hfu Hb] Hres Hfr Hsc bmax lmax. pose proof (page_size_cases _ H1 H2) as Hps.
  apply cut_and_finish; try done; [intros; by apply Hb|intros; by apply Hb].
Qed.

(** C29. A split of a leaf or branch never fails for want of room, whatever the reserve and
    the policy: both pages take their nodes, the items of the two with the new one among
    them are those of before in their order (in a branch without the key of the first),
    neither page is empty, the key for the parent is the first one of the right page, and
    the cursor is left at the new item. *)
Theorem split_distributes page_new_large ps ps2ln tree_flags reserve_factor prefer_waf dupfix_size tf mp fresh scratch parent path I1 I2 new itnew :
  splittable page_new_large ps ps2ln tree_flags mp I1 I2 new itnew -> 0 <= reserve_factor <= 32768 ->
  length (page_body fresh) = Z.to_nat (PAGESPACE ps) -> length (page_body scratch) = Z.to_nat (PAGESPACE ps) ->
  let bmax := BRANCH_NODE_MAX ps in let lmax := LEAF_NODE_MAX ps in
  exists c r L R,
  split_cut ps bmax lmax dupfix_size reserve_factor prefer_waf mp fresh (Some scratch) parent path (length I1) new = Some (inr c) /\
  split_finish page_new_large ps ps2ln bmax lmax tree_flags dupfix_size c (length I1) new tf = Some r /\
  distributed ps mp I1 I2 new itnew tf fresh c r L R /\
  (ct_how c = pure_left -> Forall (fun ki => ki = 0) path /\ 2 + Z.of_nat (item_size (mk_item 0 0 (ct_sepkey c) [])) <= page_room parent).
Proof. apply split_distributes_spec. Qed.

(** C31. Replacing the key of a child in a branch: with enough room the page holds the same
    children with the new key, and nothing else changes; else the child is taken out of
    the page, to be added again with the new key by a split. *)
Theorem propagate_key_correct size p I1 it I2 key :
  page_holds size p (I1 ++ it :: I2) -> is_leaf p = false -> Z.of_nat (length key) < 2 ^ 16 ->
  let delta := Z.of_nat (item_size (rekey it key)) - Z.of_nat (item_size it) in
  exists r, tree_propagate_key p (length I1) key = Some r /\
  if decide (delta > page_room p)
  then exists q, r = split_needed q (it_word it) /\ page_holds size q (I1 ++ I2) /\ page_flags q = page_flags p
  else exists q, r = key_replaced q /\ page_holds size q (I1 ++ rekey it key :: I2) /\ page_room q = page_room p - delta /\
    (page_txnid q, dupfix_ksize q, page_flags q, page_pgno q) = (page_txnid p, dupfix_ksize p, page_flags p, page_pgno p).
Proof. apply propagate_key_spec. Qed.

Lemma split_links_spec ps parent P1 child P2 c newkey tf :
  is_powerof2 ps = true -> MDBX_MIN_PAGESIZE <= ps <= MDBX_MAX_PAGESIZE ->
  page_holds (Z.to_nat (PAGESPACE ps)) parent (P1 ++ child :: P2) -> is_leaf parent = false ->
  Z.of_nat (length (ct_sepkey c)) <= keysize_max ps 0 -> 0 <= page_pgno (ct_sister c) < 2 ^ 32 ->
  (ct_how c = pure_left -> P1 = [] /\ it_key child = []) ->
  let sister := mk_item (page_pgno (ct_sister c)) 0 (ct_sepkey c) [] in
  let add := split_parent (BRANCH_NODE_MAX ps) c parent (length P1) newkey tf in
  if decide (page_room parent < 2 + Z.of_nat (item_size sister)) then add = Some parent_full
  else exists q, add = Some (parent_has MDBX_SUCCESS q tf) /\ page_flags q = page_flags parent /\
    page_holds (Z.to_nat (PAGESPACE ps)) q
      (match ct_how c with pure_left => no_key sister :: rekey child (ct_sepkey c) :: P2 | _ => P1 ++ child :: sister :: P2 end).
Proof.
  intros H1 H2 Hp Hleaf Hk Hpg Hleft sister add. pose proof (page_size_cases _ H1 H2) as Hps.
  pose proof (key_in_branch ps Hps (ct_sepkey c) Hk) as [Hmax Hsz]. assert (item_size sister = item_size (mk_item 0 0 (ct_sepkey c) [])) as Es by done. rewrite <- Es in *.
  destruct (node_sizes ps Hps) as (Hb2 & _ & Hkm & _).
  unfold add, split_parent. rewrite Hsz. cbn [mbind option_bind]. rewrite Nat2Z.inj_add. change (Z.of_nat 2) with 2.
  case_decide as Hroom; [done|].
  assert (forall P Q key', page_holds (Z.to_nat (PAGESPACE ps)) parent (P ++ Q) -> (item_size (mk_item (page_pgno (ct_sister c)) 0 (default [] key') []) <= item_size sister)%nat ->
    Z.of_nat (length (default [] key')) < 2 ^ 16 ->
    exists q, node_add_branch (BRANCH_NODE_MAX ps) tf parent (length P) key' (page_pgno (ct_sister c)) = Some (MDBX_SUCCESS, q, tf) /\
    page_holds (Z.to_nat (PAGESPACE ps)) q (P ++ mk_item (page_pgno (ct_sister c)) 0 (default [] key') [] :: Q) /\ page_flags q = page_flags parent /\
    page_room q = page_room parent - Z.of_nat (item_size (mk_item (page_pgno (ct_sister c)) 0 (default [] key') [])) - 2) as Hadd.
  { intros P Q key' HPQ Hle Hk'. destruct (node_add_branch_spec _ parent P Q (BRANCH_NODE_MAX ps) tf key' (page_pgno (ct_sister c)) HPQ Hleaf Hk') as (rc & q & fl & E & H); [lia|done|].
    rewrite decide_True in H by lia. destruct H as (-> & -> & Hq & Hf & Hr). by exists q. }
  assert (forall how, (how = pure_right \/ exists s, how = halves s) ->
    exists q, ('(rc, parent, txn_flags) ← node_add_branch (BRANCH_NODE_MAX ps) tf parent (S (length P1)) (Some (ct_sepkey c)) (page_pgno (ct_sister c));
    Some (parent_has rc parent txn_flags)) = Some (parent_has MDBX_SUCCESS q tf) /\ page_flags q = page_flags parent /\
    page_holds (Z.to_nat (PAGESPACE ps)) q (P1 ++ child :: sister :: P2)) as Hright.
  { intros _ _. destruct (Hadd (P1 ++ [child]) P2 (Some (ct_sepkey c))) as (q & E & Hq & Hf & _); [by rewrite <- app_assoc|done|cbn; unfold id; lia|].
    rewrite length_app, Nat.add_1_r in E. rewrite E. cbn [mbind option_bind]. exists q. split; [done|]. split; [done|]. rewrite <- app_assoc in Hq. exact Hq. }
  destruct (ct_how c) eqn:Ehow; [apply (Hright pure_right); by left| |apply (Hright (halves split_indx)); right; by eexists].
  destruct (Hleft eq_refl) as [-> Hc0]. cbn [app length] in *. rewrite decide_False by lia.
  pose proof (no_key_size sister) as Hnk. destruct (Hadd [] (child :: P2) None Hp Hnk) as (q & E & Hq & Hf & Hr); [cbn; lia|].
  cbn [length] in E. rewrite E. cbn [mbind option_bind]. cbn [default app] in Hq, Hr. change (mk_item (page_pgno (ct_sister c)) 0 [] []) with (no_key sister) in *.
  rewrite bool_decide_true, bool_decide_true by done. cbn [andb].
  assert (is_leaf q = false) as Hlq by (unfold is_leaf in *; by rewrite Hf).
  destruct (propagate_key_spec _ q [no_key sister] child P2 (ct_sepkey c) Hq Hlq) as (r & Er & H); [lia|]. cbn [length] in Er. rewrite Er. cbn [mbind option_bind].
  assert (item_ok false child) as Hcok.
  { pose proof (ph_items _ _ _ Hp) as Hok. rewrite Hleaf in Hok. by apply Forall_cons in Hok as [? _]. }
  destruct Hcok as (_ & _ & _ & Hcd).
  assert (item_size (rekey child (ct_sepkey c)) = item_size sister /\ item_size (no_key sister) = 8%nat /\ item_size child = 8%nat) as (E1 & E2 & E3).
  { unfold item_size, payload, rekey, no_key, sister. cbn [it_key it_data]. by rewrite Hcd, Hc0. }
  rewrite E1, E3 in H. rewrite E2 in Hr. rewrite decide_False in H by lia. destruct H as (q2 & -> & Hq2 & _ & Hh).
  exists q2. split; [done|]. split; [|exact Hq2]. injection Hh as _ _ -> _. done.
Qed.

(** C32. The parent of a page that was split: without room for the separating key it has
    to be split itself; else it holds the new page behind the old one, with that key, or, when
    the new page is in front of all others, the new page as its first child and
    the old one behind it with the key that was left out so far.  Replacing that key never
    needs another split. *)
Theorem split_links ps parent P1 child P2 c newkey tf :
  is_powerof2 ps = true -> MDBX_MIN_PAGESIZE <= ps <= MDBX_MAX_PAGESIZE ->
  page_holds (Z.to_nat (PAGESPACE ps)) parent (P1 ++ child :: P2) -> is_leaf parent = false ->
  Z.of_nat (length (ct_sepkey c)) <= keysize_max ps 0 -> 0 <= page_pgno (ct_sister c) < 2 ^ 32 ->
  (ct_how c = pure_left -> P1 = [] /\ it_key child = []) ->
  let sister := mk_item (page_pgno (ct_sister c)) 0 (ct_sepkey c) [] in
  let add := split_parent (BRANCH_NODE_MAX ps) c parent (length P1) newkey tf in
  if decide (page_room parent < 2 + Z.of_nat (item_size sister)) then add = Some parent_full
  else exists q, add = Some (parent_has MDBX_SUCCESS q tf) /\ page_flags q = page_flags parent /\
    page_holds (Z.to_nat (PAGESPACE ps)) q
      (match ct_how c with pure_left => no_key sister :: rekey child (ct_sepkey c) :: P2 | _ => P1 ++ child :: sister :: P2 end).
Proof. apply split_links_spec. Qed.

(** ** Examples: a full page of 256 bytes, and a branch *)

Definition plain (key data : list Z) : item := mk_item (Z.of_nat (length data)) 0 key data.
Definition full_items : list item := (fun x => plain [x] (replicate 30 x)) <$> [1; 2; 4; 5; 6].
Definition full_leaf : page_t := make_page P_LEAF 5 236 full_items.
Definition blank (pgno : Z) : page_t := mk_page 7 0 0 0 0 pgno (replicate 236 0).
Definition new_node : add_t := mk_add [3] (val_of (replicate 90 3)) 0 0.

Lemma split_distributes_witness :
  exists c r L R,
  split_cut 256 (BRANCH_NODE_MAX 256) (LEAF_NODE_MAX 256) 8 0 true full_leaf (blank 9) (Some (blank 11)) (blank 3) [0] 2 new_node = Some (inr c) /\
  split_finish (fun _ => inl MDBX_ENOMEM) 256 8 (BRANCH_NODE_MAX 256) (LEAF_NODE_MAX 256) 0 8 c 2 new_node 0 = Some r /\
  distributed 256 full_leaf (take 2 full_items) (drop 2 full_items) new_node (plain [3] (replicate 90 3)) 0 (blank 9) c r L R.
Proof.
  destruct (split_distributes (fun _ => inl MDBX_ENOMEM) 256 8 0 0 true 8 0 full_leaf (blank 9) (blank 11) (blank 3) [0]
    (take 2 full_items) (drop 2 full_items) new_node (plain [3] (replicate 90 3))) as (c & r & L & R & H1 & H2 & H3 & _).
  - split.
    + split; [reflexivity|split; vm_compute; congruence].
    + rewrite take_drop. apply make_page_holds; [reflexivity| |vm_compute; congruence|vm_compute; lia].
      repeat (apply Forall_cons; split; [vm_compute; repeat split; congruence|]). constructor.
    + reflexivity.
    + vm_compute. split; congruence.
    + repeat (apply Forall_cons; split; [vm_compute; split; congruence|]). constructor.
    + vm_compute. repeat split; try congruence. left. repeat split.
    + vm_compute. split; [reflexivity|intros _; reflexivity].
    + repeat (apply Forall_cons; split; [vm_compute; congruence|]). constructor.
    + intros i j x y Hx _ Ex. exfalso. rewrite take_drop in Hx.
      assert (Forall (fun it => it_key it <> []) full_items) as Hne by (repeat (apply Forall_cons; split; [done|]); constructor).
      by apply (proj1 (Forall_lookup _ _) Hne _ _ Hx).
    + reflexivity.
    + intros H. discriminate H.
  - lia.
  - reflexivity.
  - reflexivity.
  - exists c, r, L, R. exact (conj H1 (conj H2 H3)).
Defined.

Definition child (pgno : Z) (key : list Z) : item := mk_item pgno 0 key [].
Definition three_children : list item := [child 5 []; child 6 [10; 0]; child 7 [20; 1; 2]].
Definition small_branch : page_t := make_page P_BRANCH 3 236 three_children.

Lemma small_branch_holds : page_holds 236 small_branch three_children.
Proof.
  apply make_page_holds; [reflexivity| |vm_compute; congruence|vm_compute; lia].
  repeat (apply Forall_cons; split; [vm_compute; repeat split; congruence|]). constructor.
Qed.

Lemma propagate_key_correct_witness :
  exists q, tree_propagate_key small_branch 1 [15; 16; 17; 18; 19] = Some (key_replaced q) /\
  page_holds 236 q [child 5 []; child 6 [15; 16; 17; 18; 19]; child 7 [20; 1; 2]].
Proof.
  destruct (propagate_key_correct 236 small_branch [child 5 []] (child 6 [10; 0]) [child 7 [20; 1; 2]] [15; 16; 17; 18; 19]) as (r & E & H).
  - exact small_branch_holds.
  - reflexivity.
  - reflexivity.
  - rewrite decide_False in H by (vm_compute; congruence). destruct H as (q & -> & Hq & _). exists q. split; [exact E|exact Hq].
Defined.

Lemma split_links_witness :
  exists q, split_parent (BRANCH_NODE_MAX 256) (mk_cut (halves 2) (blank 6) (blank 9) [12] true 0 None) small_branch 1 [11] 0 =
  Some (parent_has MDBX_SUCCESS q 0) /\
  page_holds 236 q [child 5 []; child 6 [10; 0]; child 9 [12]; child 7 [20; 1; 2]].
Proof.
  pose proof (split_links 256 small_branch [child 5 []] (child 6 [10; 0]) [child 7 [20; 1; 2]] (mk_cut (halves 2) (blank 6) (blank 9) [12] true 0 None) [11] 0) as H.
  cbv zeta in H. rewrite decide_False in H by (vm_compute; congruence).
  destruct H as (q & E & _ & Hq).
  - reflexivity.
  - split; vm_compute; congruence.
  - exact small_branch_holds.
  - reflexivity.
  - vm_compute. congruence.
  - vm_compute. split; congruence.
  - intros H. discriminate H.
  - exists q. split; [exact E|exact Hq].
Defined.
