(* ===== verification/SplitDup.v ===== *)
(** * The split of a page: items of one size *)

From S2P Require Import Prelude Meta Cmp CmpProps Page PageFacts PageOps PageProps Limits LimitsProps Split SplitFacts SplitMove SplitKey SplitProps.

Section dup.
Context (size k : nat) (Hk2 : (2 <= k)%nat) (Hsize : Z.of_nat size < 2 ^ 16).

(** The bounds of a page with [n] items. *)
Definition bounds_of (n : nat) (p : page_t) : Prop :=
  page_lower p = 2 * Z.of_nat n /\ page_upper p = Z.of_nat size - Z.of_nat n * (Z.of_nat k - 2).

Lemma u16_steps a n : Z.of_nat ((a + n) * k) <= Z.of_nat size ->
  u64 (Z.of_nat n * sizeof_indx_t) = 2 * Z.of_nat n /\ u16 (2 * Z.of_nat n) = 2 * Z.of_nat n /\
  u64 (u64 (Z.of_nat n * Z.of_nat k) - 2 * Z.of_nat n) = Z.of_nat n * (Z.of_nat k - 2) /\
  u16 (Z.of_nat n * (Z.of_nat k - 2)) = Z.of_nat n * (Z.of_nat k - 2).
Proof.
  intros H. unfold sizeof_indx_t, u16. assert (0 <= Z.of_nat n * (Z.of_nat k - 2) < 2 ^ 16) by nia.
  rewrite (u64_small (Z.of_nat n * 2)), (u64_small (Z.of_nat n * Z.of_nat k)) by (unfold UINT64_MAX; nia).
  rewrite u64_small by (unfold UINT64_MAX; nia). rewrite (Z.mod_small (2 * _)) by nia. rewrite Z.mod_small by done. split; [lia|]. split; [lia|]. split; lia.
Qed.

Lemma dupfix_bounds_spec p a n : bounds_of a p -> ((a + n) * k <= size)%nat -> bounds_of (a + n) (dupfix_bounds (Z.of_nat k) p (Z.of_nat n)).
Proof.
  intros [Hl Hu] Hroom. destruct (u16_steps a n) as (E1 & E2 & E3 & E4); [lia|]. unfold dupfix_bounds. rewrite E1, E2, E3, E4.
  unfold bounds_of. cbn [page_lower page_upper with_bounds]. rewrite Hl, Hu. unfold u16. split; rewrite Z.mod_small; nia.
Qed.

Lemma dupfix_unbounds_spec p a n : bounds_of (a + n) p -> ((a + n) * k <= size)%nat -> bounds_of a (dupfix_unbounds (Z.of_nat k) p (Z.of_nat n)).
Proof.
  intros [Hl Hu] Hroom. destruct (u16_steps a n) as (E1 & E2 & E3 & E4); [lia|]. unfold dupfix_unbounds. rewrite E1, E2, E3, E4.
  unfold bounds_of. cbn [page_lower page_upper with_bounds]. rewrite Hl, Hu. unfold u16. split; rewrite Z.mod_small; nia.
Qed.

Lemma dupfix_intro p keys F :
  bounds_of (length keys) p -> page_body p = concat keys ++ F -> length (page_body p) = size -> Forall (fun key => length key = k) keys ->
  is_dupfix_leaf p = true -> dupfix_ksize p = Z.of_nat k -> dupfix_holds size k p keys.
Proof. intros [Hl Hu] Hb Hs Hks Hd Hk. split; try done. by exists F. Qed.

Lemma ptr_is p i : dupfix_ksize p = Z.of_nat k -> Z.of_nat i < 2 ^ 16 -> page_dupfix_ptr p i = (i * k)%nat.
Proof. intros Hk Hi. unfold page_dupfix_ptr, u16. rewrite Hk, Z.mod_small by lia. lia. Qed.

Lemma bytes_at_whole (l : list Z) n : length l = n -> bytes_at l 0 n = Some l.
Proof. intros <-. unfold bytes_at. rewrite decide_True by lia. by rewrite drop_0, take_ge by lia. Qed.

Lemma split_list {A} n (l : list A) : (n <= length l)%nat -> exists a b, l = a ++ b /\ length a = n.
Proof. intros H. exists (take n l), (drop n l). by rewrite take_drop, length_take, Nat.min_l. Qed.

Context (mp sister : page_t) (key : list Z) (Hkey : length key = k).
Context (Hs : dupfix_holds size k sister []).

(** The new item is in the left half. *)
Lemma split_dupfix_left A1 A2 B :
  dupfix_holds size k mp (A1 ++ A2 ++ B) -> A2 <> [] -> B <> [] ->
  exists c b B', split_dupfix (Z.of_nat k) mp sister (length A1) (length (A1 ++ A2)) key = Some c /\ B = b :: B' /\
  dupfix_holds size k (ct_mp c) (A1 ++ key :: A2) /\ dupfix_holds size k (ct_sister c) B /\ ct_sepkey c = b /\ ct_right c = false /\ ct_ki c = length A1 /\
  ct_how c = halves (Z.of_nat (length (A1 ++ A2))) /\ ct_tmp c = None /\ page_pgno (ct_mp c) = page_pgno mp /\ page_pgno (ct_sister c) = page_pgno sister.
Proof.
  intros Hp HA2 HB. pose proof (dupfix_used _ _ _ _ Hp) as Hused. pose proof (dupfix_numkeys _ _ _ _ Hp) as Hn.
  pose proof (dupfix_ptr _ _ _ _ Hp (length (A1 ++ A2))) as Hptr. rewrite !length_app in *.
  destruct Hp as [Hps Hm Hfl [Hkk _] Hks Hlow Hup [F Hb]]. rewrite !length_app in Hlow, Hup.
  apply Forall_app in Hks as [Hks1 Hks']. apply Forall_app in Hks' as [Hks2 Hks3].
  destruct Hs as [Hss _ Hsfl [Hsk _] _ Hslow Hsup [Fs Hsb]]. cbn [concat app length] in *.
  assert (HlB : (1 <= length B)%nat) by (destruct B; [done|simpl; lia]).
  unfold split_dupfix. rewrite Hn, Hptr, Nat2Z.id by lia.
  replace (length A1 + (length A2 + length B) - (length A1 + length A2))%nat with (length B) by lia.
  rewrite bytes_at_whole by done. cbn [mbind option_bind].
  rewrite decide_True by (destruct A2; [done|simpl; lia]).
  destruct (split_list (length B * k) Fs) as (Y & R & -> & HY); [rewrite Hsb in Hss; lia|].
  assert (page_body mp = (concat A1 ++ concat A2) ++ concat B ++ F) as Hb' by (rewrite Hb, !concat_app; by rewrite <- !app_assoc).
  pose proof (blit_app (concat A1 ++ concat A2) (concat B) F [] Y R ((length A1 + length A2) * k) 0 (length B * k)) as Eb.
  cbn [app] in Eb. cbn [page_body dupfix_bounds with_bounds]. rewrite Hb', Hsb, Eb by (rewrite ?length_app, ?(length_concat_same k) by done; (done || lia || nia)).
  cbn [mbind option_bind]. destruct B as [|b B']; [done|]. apply Forall_cons in Hks3 as [Hb0 Hks3].
  cbn [concat]. rewrite <- (app_assoc b). pose proof (bytes_at_app [] b (concat B' ++ R) 0 k eq_refl (eq_sym Hb0)) as E. cbn [app] in E. rewrite E; clear E. cbn [mbind option_bind].
  rewrite (ptr_is (dupfix_unbounds _ mp _)) by (done || nia).
  replace ((length A1 + length A2 - length A1) * k)%nat with (length (concat A2)) by (rewrite (length_concat_same k) by done; lia).
  replace (length A1 * k)%nat with (length (concat A1)) by (by rewrite (length_concat_same k)).
  rewrite <- !app_assoc.
  destruct (memmove_up (concat A1) (concat A2) b (concat B' ++ F) k (length (concat A1)) Hb0 eq_refl) as (G & HG & ->). cbn [mbind option_bind].
  rewrite memcpy_app by (done || lia). cbn [mbind option_bind]. eexists _, b, B'. split; [done|]. split; [done|].
  cbn [ct_mp ct_sister ct_sepkey ct_right ct_ki ct_how ct_tmp].
  assert (bounds_of (length A1 + length A2) (dupfix_unbounds (Z.of_nat k) mp (Z.of_nat (length (b :: B'))))) as Hbo.
  { apply dupfix_unbounds_spec; [|cbn [length] in *; nia]. unfold bounds_of. rewrite Hlow, Hup. cbn [length]. lia. }
  split; [|split; [|done]].
  - apply (dupfix_intro _ _ (concat B' ++ F)); try done.
    + rewrite length_app. cbn [length]. rewrite <- Nat.add_succ_comm. cbn [Nat.add].
      replace (S (length A1 + length A2)) with (length A1 + length A2 + 1)%nat by lia. apply (dupfix_bounds_spec _ _ 1); [exact Hbo|cbn [length] in *; nia].
    + cbn [page_body dupfix_bounds with_bounds with_body]. rewrite concat_app. cbn [concat]. by rewrite <- !app_assoc.
    + cbn [page_body dupfix_bounds with_bounds with_body]. rewrite <- Hps, Hb'. rewrite !length_app. cbn [concat]. rewrite !length_app. lia.
    + apply Forall_app. split; [done|by constructor].
  - apply (dupfix_intro _ _ R); try done.
    + apply (dupfix_bounds_spec _ 0); [|cbn [length] in *; nia]. unfold bounds_of. rewrite Hslow, Hsup. lia.
    + cbn [page_body dupfix_bounds with_bounds with_body concat]. by rewrite <- app_assoc.
    + cbn [page_body dupfix_bounds with_bounds with_body]. rewrite <- Hss, Hsb, !length_app, HY, (length_concat_same k) by done. cbn [length]. lia.
    + by constructor.
Qed.

(** The new item is in the right half. *)
Lemma split_dupfix_right A B1 B2 :
  dupfix_holds size k mp (A ++ B1 ++ B2) -> A <> [] ->
  exists c, split_dupfix (Z.of_nat k) mp sister (length (A ++ B1)) (length A) key = Some c /\
  dupfix_holds size k (ct_mp c) A /\ dupfix_holds size k (ct_sister c) (B1 ++ key :: B2) /\ Some (ct_sepkey c) = head (B1 ++ key :: B2) /\
  ct_right c = true /\ ct_ki c = length B1 /\ ct_how c = halves (Z.of_nat (length A)) /\ ct_tmp c = None /\
  page_pgno (ct_mp c) = page_pgno mp /\ page_pgno (ct_sister c) = page_pgno sister.
Proof.
  intros Hp HA. pose proof (dupfix_used _ _ _ _ Hp) as Hused. pose proof (dupfix_numkeys _ _ _ _ Hp) as Hn.
  pose proof (dupfix_ptr _ _ _ _ Hp (length A)) as Hptr. rewrite !length_app in *.
  destruct Hp as [Hps Hm Hfl [Hkk _] Hks Hlow Hup [F Hb]]. rewrite !length_app in Hlow, Hup.
  apply Forall_app in Hks as [Hks1 Hks']. apply Forall_app in Hks' as [Hks2 Hks3].
  destruct Hs as [Hss _ Hsfl [Hsk _] _ Hslow Hsup [Fs Hsb]]. cbn [concat app length] in *.
  assert (HlA : (1 <= length A)%nat) by (destruct A; [done|simpl; lia]).
  unfold split_dupfix. rewrite Hn, Hptr, Nat2Z.id by lia.
  replace (length A + (length B1 + length B2) - length A)%nat with (length B1 + length B2)%nat by lia.
  rewrite bytes_at_whole by done. cbn [mbind option_bind]. rewrite decide_False by lia.
  replace (length A + length B1 - length A)%nat with (length B1) by lia.
  assert (page_body mp = concat A ++ concat B1 ++ concat B2 ++ F) as Hb' by (rewrite Hb, !concat_app; by rewrite <- !app_assoc).
  assert (exists x, (if decide (length A + length B1 <> length A)%nat then bytes_at (page_body mp) (length A * k) k else Some key) = Some x /\
    Some x = head (B1 ++ key :: B2)) as (x & -> & Hx).
  { case_decide as Hd; [|destruct B1; [by exists key|simpl in Hd; lia]]. destruct B1 as [|b B1]; [simpl in Hd; lia|]. exists b. split; [|done].
    apply Forall_cons in Hks2 as [Hlb _]. rewrite Hb'. cbn [concat]. rewrite <- app_assoc.
    apply bytes_at_app; [by rewrite (length_concat_same k)|done]. }
  cbn [mbind option_bind].
  destruct (split_list (length B1 * k) Fs) as (Y1 & R1 & -> & HY1); [rewrite Hsb in Hss; nia|].
  destruct (split_list k R1) as (Y2 & R2 & -> & HY2); [rewrite Hsb, length_app in Hss; nia|].
  destruct (split_list (length B2 * k) R2) as (Y3 & R & -> & HY3); [rewrite Hsb, !length_app in Hss; nia|].
  cbn [page_body dupfix_bounds with_bounds]. rewrite Hb', Hsb.
  pose proof (blit_app (concat A) (concat B1) (concat B2 ++ F) [] Y1 (Y2 ++ Y3 ++ R) (length A * k) 0 (length B1 * k)) as E. cbn [app] in E.
  rewrite E by (rewrite ?(length_concat_same k) by done; done). clear E. cbn [mbind option_bind].
  rewrite ptr_is by (done || nia).
  replace (length B1 * k)%nat with (length (concat B1)) by (by rewrite (length_concat_same k)).
  rewrite memcpy_app by (done || lia). cbn [mbind option_bind].
  pose proof (blit_app (concat A ++ concat B1) (concat B2) F (concat B1 ++ key) Y3 R (length A * k + length (concat B1)) (length (concat B1) + k)
    ((length B1 + length B2) * k - length (concat B1))) as E. rewrite <- !app_assoc in E.
  rewrite E by (rewrite ?length_app, ?(length_concat_same k) by done; (done || lia || nia)). clear E. cbn [mbind option_bind].
  eexists. split; [done|]. cbn [ct_mp ct_sister ct_sepkey ct_right ct_ki ct_how ct_tmp].
  split; [|split; [|split; [done|done]]].
  - apply (dupfix_intro _ _ (concat B1 ++ concat B2 ++ F)); try done.
    apply dupfix_unbounds_spec; [|nia]. unfold bounds_of. rewrite Hlow, Hup. lia.
  - apply (dupfix_intro _ _ R); try done.
    + rewrite length_app. cbn [length]. rewrite <- Nat.add_succ_comm. cbn [Nat.add].
      replace (S (length B1 + length B2)) with (length B1 + length B2 + 1)%nat by lia. apply (dupfix_bounds_spec _ _ 1); [|nia].
      apply (dupfix_bounds_spec _ 0); [|nia]. unfold bounds_of. rewrite Hslow, Hsup. lia.
    + cbn [page_body dupfix_bounds with_bounds with_body]. rewrite concat_app. cbn [concat]. by rewrite <- !app_assoc.
    + cbn [page_body dupfix_bounds with_bounds with_body]. rewrite <- Hss, Hsb, !length_app, HY1, HY2, HY3, Hkey, !(length_concat_same k) by done. lia.
    + apply Forall_app. split; [done|by constructor].
Qed.
End dup.

(** ** The choice *)

Section choice.
Context (page_new_large : Z -> Z + Z) (ps ps2ln tree_flags reserve_factor : Z) (prefer_waf : bool).
Context (Hps : ps ∈ page_sizes) (Hres : 0 <= reserve_factor <= 32768).
Abbreviation size := (Z.to_nat (PAGESPACE ps)).
Abbreviation bmax := (BRANCH_NODE_MAX ps).
Abbreviation lmax := (LEAF_NODE_MAX ps).
Context (k : nat) (mp : page_t) (K1 K2 : list (list Z)) (new : add_t).
Abbreviation n := (length (K1 ++ K2)).
Context (Hmp : dupfix_holds size k mp (K1 ++ K2)) (Htwo : (2 <= n)%nat) (Hkind : Z.land (page_flags mp) P_BRANCH = 0).
Context (Hk : Z.of_nat k <= keysize_max ps 0) (Hkey : length (ad_key new) = k) (Hflags : 0 <= page_flags mp < 2 ^ 16).
Context (Hresv : Z.land (ad_flags new) MDBX_RESERVE = 0).

Lemma dup_minkeys : minkeys mp = 1 /\ rightmost_split mp = Z.of_nat n.
Proof.
  unfold rightmost_split, minkeys. rewrite Hkind, (dupfix_numkeys _ _ _ _ Hmp). pose proof (dupfix_used _ _ _ _ Hmp). pose proof (dh_max _ _ _ _ Hmp).
  destruct (dh_ksize _ _ _ _ Hmp). split; [done|]. rewrite u64_small by (unfold UINT64_MAX; nia). lia.
Qed.

Lemma dup_split_choice parent path :
  exists ch, split_choice bmax reserve_factor prefer_waf mp parent path (Z.of_nat (length K1)) (ad_flags new) = Some ch /\
  0 <= ch <= Z.of_nat n /\ (reserve_factor <> 0 -> ch = Z.of_nat (length K1)) /\
  (reserve_factor = 0 -> ch = Z.of_nat n -> K2 = []) /\
  (reserve_factor = 0 -> ch = 0 -> K1 = [] /\ exists key l, K2 = key :: l /\ mp_first_key mp = Some key).
Proof.
  destruct dup_minkeys as [Em Er]. unfold split_choice. rewrite (dupfix_numkeys _ _ _ _ Hmp), Em, Er. pose proof (length_app K1 K2) as Hla.
  destruct (decide (reserve_factor <> 0)) as [|Hr]; [rewrite bool_decide_true by done; eexists; split; [done|]; cbn [orb]; split_and!; (done || lia)|].
  rewrite (bool_decide_false (reserve_factor <> 0)) by done. cbn [orb].
  destruct (decide (Z.of_nat (length K1) = Z.of_nat n)) as [Heq|Hne].
  { eexists. split; [done|]. split_and!; [lia|lia|done|intros; apply nil_length_inv; lia|intros; lia]. }
  assert (forall b, exists ch : Z, Some (if b : bool then 0 else 1) = Some ch /\ 0 <= ch <= Z.of_nat n /\ ch <> Z.of_nat n /\ (ch = 0 -> b = true)) as Hb.
  { intros []; eexists; split; [done| |done|]; (split_and!; [lia|lia|lia|done]). }
  destruct (decide (Z.of_nat (length K1) <= 1)) as [Hle|Hgt].
  - destruct (bool_decide (Z.of_nat (length K1) = 0) && negb (replaces (ad_flags new))) eqn:Eb; [|exists 1; split_and!; (done || lia)].
    apply andb_true_iff in Eb as [E0%bool_decide_eq_true _]. assert (K1 = []) as E1 by (apply nil_length_inv; lia).
    assert (exists key l, K2 = key :: l) as (key & l & E2) by (destruct K2 as [|key l]; [simpl in *; lia|by exists key, l]).
    assert (mp_first_key mp = Some key) as Ef.
    { unfold mp_first_key. rewrite (dh_flag _ _ _ _ Hmp). apply (dupfix_key _ _ _ _ Hmp 0). by rewrite E1, E2. }
    assert (length key = k) as Hlk.
    { pose proof (dh_keys _ _ _ _ Hmp) as Hks. rewrite E1, E2 in Hks. by apply Forall_cons in Hks as [? _]. }
    assert (exists b, pure_left_possible bmax mp parent path = Some b) as (b & ->).
    { unfold pure_left_possible. destruct (existsb _ path); [by eexists|]. rewrite Ef. cbn [mbind option_bind].
      destruct (key_in_branch ps Hps key) as [_ ->]; [by rewrite Hlk|]. by eexists. }
    cbn [mbind option_bind]. destruct (Hb b) as (ch & -> & H1 & H2 & H3). exists ch. split; [done|]. split; [done|]. split; [done|]. split; [done|].
    intros _ _. split; [done|]. by exists key, l.
  - eexists. split; [done|]. destruct prefer_waf; [split_and!; intros; lia|]. rewrite Z.shiftr_div_pow2 by lia. change (2 ^ 1) with 2.
    pose proof (Z.div_mod (Z.of_nat n + 1) 2 ltac:(lia)). pose proof (Z.mod_pos_bound (Z.of_nat n + 1) 2 ltac:(lia)). split_and!; intros; lia.
Qed.

(** The adjustment keeps both pages within what one page held. *)
Lemma dupfix_choice_spec c :
  (reserve_factor = 0 -> 1 <= c <= Z.of_nat n - 1) -> (reserve_factor <> 0 -> c = clamp_unsigned (Z.of_nat (length K1)) 1 (Z.of_nat n)) ->
  let s := dupfix_choice reserve_factor mp (Z.of_nat (length K1)) c in
  1 <= s <= Z.of_nat n /\ (Z.of_nat (length K1) < s -> s <= Z.of_nat n - 1).
Proof.
  intros H0 H1 s. unfold s, dupfix_choice. destruct dup_minkeys as [-> ->]. rewrite (dupfix_numkeys _ _ _ _ Hmp). pose proof (length_app K1 K2) as Hla.
  destruct (decide (reserve_factor = 0)) as [Hr|Hr]; [specialize (H0 Hr); lia|]. specialize (H1 Hr). unfold clamp_unsigned in H1.
  pose proof (dupfix_used _ _ _ _ Hmp). pose proof (dh_max _ _ _ _ Hmp). destruct (dh_ksize _ _ _ _ Hmp) as [_ Hk2].
  assert (Z.of_nat n < 2 ^ 16) as Hn16 by nia.
  assert (0 <= Z.of_nat n * reserve_factor <= 2 ^ 32) as Hmul by nia.
  rewrite (u64_small (Z.of_nat n * _)) by (unfold UINT64_MAX; lia). set (w := Z.shiftr _ 16). assert (0 <= w) as Hw by (apply Z.shiftr_nonneg; lia). clearbody w.
  rewrite Z.shiftr_div_pow2 by lia. change (2 ^ 1) with 2.
  pose proof (Z.div_mod (Z.of_nat n + 1) 2 ltac:(lia)). pose proof (Z.mod_pos_bound (Z.of_nat n + 1) 2 ltac:(lia)).
  case_decide as Hw2; [lia|]. unfold b2z.
  assert (0 <= Z.of_nat n - c - (if bool_decide (Z.of_nat (length K1) < c) then 1 else 0) <= 2 ^ 32) as Hls by (case_bool_decide; lia).
  assert (0 <= c - (if bool_decide (Z.of_nat (length K1) >= c) then 1 else 0) <= 2 ^ 32) as Hrs by (clear Hls; case_bool_decide; lia).
  rewrite (u64_small (Z.of_nat n - c - _)), (u64_small (c - _)) by (unfold UINT64_MAX; lia).
  assert (0 <= Z.of_nat n - w - (if bool_decide (Z.of_nat (length K1) < Z.of_nat n - w) then 1 else 0) <= 2 ^ 32) as Hv
    by (clear - Hw Hw2 Hn16; case_bool_decide; lia).
  rewrite (u64_small (Z.of_nat n - w - _)) by (unfold UINT64_MAX; lia). clear Hls Hrs Hv.
  repeat case_bool_decide; repeat case_decide; lia.
Qed.

(** ** The parts together *)

Context (tf : Z) (fresh : page_t) (Hfresh : length (page_body fresh) = size).
Abbreviation sister := (new_sister ps fresh mp).
Abbreviation finish c := (split_finish page_new_large ps ps2ln bmax lmax tree_flags (Z.of_nat k) c (length K1) new tf).

Lemma dup_sister : dupfix_holds size k sister [] /\ is_dupfix_leaf sister = true /\ page_pgno sister = page_pgno fresh.
Proof.
  destruct (page_space_size ps Hps) as (_ & _ & Hsp).
  assert (page_flags sister = page_flags mp) as Ef by (apply Z.mod_small; exact Hflags).
  assert (is_dupfix_leaf sister = true) as Hd by (unfold is_dupfix_leaf; rewrite Ef; exact (dh_flag _ _ _ _ Hmp)).
  split; [|done]. destruct Hmp as [_ Hm _ [Hkk Hk2] _ _ _ _].
  apply (dupfix_intro size k Hk2 Hm _ _ (page_body fresh)); try done. split; [done|].
  unfold new_sister, page_new. cbn [page_upper length]. change (ps - PAGEHDRSZ) with (PAGESPACE ps). unfold u16. rewrite Z.mod_small by lia. lia.
Qed.

(** What a split gives, as for nodes. *)
Definition dup_distributed (c : cut_t) (r : split_t) (L R : list (list Z)) : Prop :=
  sp_rc r = MDBX_SUCCESS /\ sp_txn_flags r = tf /\
  L ++ R = K1 ++ ad_key new :: K2 /\ L <> [] /\ Some (ct_sepkey c) = head R /\
  match ct_how c with
  | pure_left => dupfix_holds size k (sp_sister r) L /\ dupfix_holds size k (sp_mp r) R /\ sp_right r = true /\ sp_ki r = O /\ K1 = [] /\ L = [ad_key new]
  | how => dupfix_holds size k (sp_mp r) L /\ dupfix_holds size k (sp_sister r) R /\
      (if sp_right r then length L + sp_ki r else sp_ki r)%nat = length K1 /\ (sp_right r = false -> sp_ki r < length L)%nat /\
      (how = pure_right -> R = [ad_key new])
  end /\
  page_pgno (sp_mp r) = page_pgno mp /\ page_pgno (ct_sister c) = page_pgno fresh.

Lemma dup_done r : sp_rc r = MDBX_SUCCESS -> split_done (ad_flags new) r = Some r.
Proof. intros H. clear -H Hresv. unfold split_done. rewrite H. rewrite decide_False by (by intros []). by rewrite decide_False by lia. Qed.

Lemma dup_pure how sepkey :
  how = pure_left \/ how = pure_right ->
  exists q, finish (mk_cut how mp sister sepkey true 0 None) = Some (mk_split MDBX_SUCCESS mp q true 0 tf None None) /\ dupfix_holds size k q [ad_key new].
Proof.
  intros Hhow. destruct dup_sister as (Hs & Hd & _). pose proof (dupfix_used _ _ _ _ Hmp) as Hused. destruct (dh_ksize _ _ _ _ Hmp) as [_ Hk2].
  destruct (node_add_dupfix_spec size k sister [] [] tf (ad_key new) Hs Hkey) as (rc & q & fl & E & H).
  pose proof (dh_lower _ _ _ _ Hs) as Hl. pose proof (dh_upper _ _ _ _ Hs) as Hu. cbn [length] in Hl, Hu.
  rewrite decide_True in H by (unfold page_room; nia). destruct H as (-> & -> & Hq). cbn [length app] in *.
  exists q. split; [|done]. destruct Hhow as [-> | ->]; unfold split_finish; cbn [ct_how ct_sister ct_mp]; rewrite Hd, E; cbn [mbind option_bind]; by apply dup_done.
Qed.

Lemma dup_cut_and_finish scratch parent path :
  exists c r L R, split_cut ps bmax lmax (Z.of_nat k) reserve_factor prefer_waf mp fresh scratch parent path (length K1) new = Some (inr c) /\
  finish c = Some r /\ dup_distributed c r L R.
Proof.
  destruct (dup_split_choice parent path) as (ch & Ech & Hch & Hchr & Hright & Hleft). destruct dup_sister as (Hs & Hsd & Hspg).
  destruct dup_minkeys as [Em Er]. pose proof (dupfix_numkeys _ _ _ _ Hmp) as Hn. pose proof (length_app K1 K2) as Hla.
  pose proof (dh_max _ _ _ _ Hmp) as Hmax. destruct (dh_ksize _ _ _ _ Hmp) as [_ Hk2].
  unfold split_cut. rewrite Ech. cbn [mbind option_bind]. rewrite Hn, Em, Er, Hsd.
  destruct (bool_decide (reserve_factor = 0) && bool_decide (ch = Z.of_nat n)) eqn:Eright.
  { apply andb_true_iff in Eright as [H1%bool_decide_eq_true H2%bool_decide_eq_true]. pose proof (Hright H1 H2) as E2.
    destruct (dup_pure pure_right (ad_key new)) as (q & E & Hq); [by right|]. eexists _, _, K1, [ad_key new]. split; [done|]. split; [exact E|].
    unfold dup_distributed. cbn [sp_rc sp_txn_flags ct_how ct_sepkey sp_right sp_ki sp_mp sp_sister ct_sister]. pose proof Hmp as Hm. rewrite E2, app_nil_r in Hm.
    split; [done|]. split; [done|]. split; [by rewrite E2|]. split; [intros E1; pose proof Htwo as H2n; rewrite E1, E2 in H2n; simpl in H2n; lia|]. split; [done|].
    split; [|done]. split; [done|]. split; [done|]. split; [lia|]. done. }
  destruct (bool_decide (reserve_factor = 0) && bool_decide (ch = 0)) eqn:Eleft.
  { apply andb_true_iff in Eleft as [H1%bool_decide_eq_true H2%bool_decide_eq_true]. destruct (Hleft H1 H2) as (E1 & key & l & E2 & Ef).
    rewrite Ef. cbn [mbind option_bind]. destruct (dup_pure pure_left key) as (q & E & Hq); [by left|].
    eexists _, _, [ad_key new], K2. split; [done|]. split; [exact E|].
    unfold dup_distributed. cbn [sp_rc sp_txn_flags ct_how ct_sepkey sp_right sp_ki sp_mp sp_sister ct_sister]. pose proof Hmp as Hm. rewrite E1 in Hm.
    split; [done|]. split; [done|]. split; [by rewrite E1|]. split; [done|]. split; [by rewrite E2|]. split; [|done]. done. }
  set (c := clamp_unsigned ch 1 (Z.of_nat n)).
  destruct (dupfix_choice_spec c) as [Hs1 Hs2].
  { intros H0. unfold c, clamp_unsigned. rewrite H0 in Eright, Eleft. rewrite bool_decide_true in Eright, Eleft by done. cbn [andb] in *.
    apply bool_decide_eq_false in Eright, Eleft. lia. }
  { intros H0. unfold c. by rewrite (Hchr H0). }
  set (s := dupfix_choice reserve_factor mp (Z.of_nat (length K1)) c) in *. set (m := Z.to_nat s).
  destruct (decide (length K1 < m)%nat) as [Hlt|Hge].
  - destruct (split_list (m - length K1) K2) as (A2 & B & E2 & HA2); [lia|]. rewrite E2 in *. pose proof (length_app A2 B) as Hlb.
    destruct (split_dupfix_left size k Hk2 Hmax mp sister (ad_key new) Hkey Hs K1 A2 B Hmp) as (cut & b & B' & E & EB & H1 & H2 & H3 & H4 & H5 & H6 & H7 & H8 & H9).
    { intros ->. simpl in HA2. lia. }
    { intros EB. apply (f_equal length) in EB. cbn [length] in EB. lia. }
    rewrite length_app, HA2 in E. replace (length K1 + (m - length K1))%nat with m in E by lia. rewrite E. cbn [mbind option_bind].
    eexists cut, _, (K1 ++ ad_key new :: A2), B. split; [done|].
    unfold split_finish. rewrite H6, H7. split; [by apply dup_done|]. unfold dup_distributed. rewrite H6, E2. cbn [sp_rc sp_txn_flags sp_right sp_ki sp_mp sp_sister].
    rewrite H4, H5. split; [done|]. split; [done|]. split; [by rewrite <- app_assoc|]. split; [by destruct K1|]. split; [by rewrite EB, H3|].
    split; [|by rewrite H9]. split; [done|]. split; [done|]. split; [done|]. split; [|done]. intros _. rewrite length_app. cbn [length]. lia.
  - destruct (split_list m K1) as (A & B1 & E1 & HA); [lia|]. rewrite E1 in *.
    destruct (split_dupfix_right size k Hk2 Hmax mp sister (ad_key new) Hkey Hs A B1 K2) as (cut & E & H1 & H2 & H3 & H4 & H5 & H6 & H7 & H8 & H9).
    { rewrite app_assoc. exact Hmp. }
    { intros ->. simpl in HA. lia. }
    rewrite HA in E. rewrite E. cbn [mbind option_bind].
    eexists cut, _, A, (B1 ++ ad_key new :: K2). split; [done|].
    unfold split_finish. rewrite H6, H7. split; [by apply dup_done|]. unfold dup_distributed. rewrite H6, E1. cbn [sp_rc sp_txn_flags sp_right sp_ki sp_mp sp_sister].
    rewrite H4, H5. split; [done|]. split; [done|]. split; [by rewrite <- app_assoc|]. split; [intros ->; simpl in HA; lia|]. split; [done|].
    split; [|by rewrite H9]. split; [done|]. split; [done|]. rewrite length_app. done.
Qed.
End choice.

(** C33. The split of a page of items of one size: the items of both pages with the new one
    among them are those of before in their order, neither page is empty, both stay
    within the page, the key for the parent is the first item of the right page, and the
    cursor is left at the new item, whatever the reserve and the policy. *)
Theorem split_dupfix_distributes page_new_large ps ps2ln tree_flags reserve_factor prefer_waf k tf mp fresh scratch parent path K1 K2 new :
  is_powerof2 ps = true -> MDBX_MIN_PAGESIZE <= ps <= MDBX_MAX_PAGESIZE -> 0 <= reserve_factor <= 32768 ->
  dupfix_holds (Z.to_nat (PAGESPACE ps)) k mp (K1 ++ K2) -> (2 <= length (K1 ++ K2))%nat ->
  0 <= page_flags mp < 2 ^ 16 -> Z.land (page_flags mp) P_BRANCH = 0 ->
  Z.of_nat k <= keysize_max ps 0 -> length (ad_key new) = k -> Z.land (ad_flags new) MDBX_RESERVE = 0 ->
  length (page_body fresh) = Z.to_nat (PAGESPACE ps) ->
  let bmax := BRANCH_NODE_MAX ps in let lmax := LEAF_NODE_MAX ps in
  exists c r L R,
  split_cut ps bmax lmax (Z.of_nat k) reserve_factor prefer_waf mp fresh scratch parent path (length K1) new = Some (inr c) /\
  split_finish page_new_large ps ps2ln bmax lmax tree_flags (Z.of_nat k) c (length K1) new tf = Some r /\
  dup_distributed ps k mp K1 K2 new tf fresh c r L R.
Proof. intros H1 H2. pose proof (page_size_cases _ H1 H2) as Hps. intros. by apply dup_cut_and_finish. Qed.

(** Example: a page of items of four bytes. *)
Definition four_items : list (list Z) := [[1; 0; 0; 0]; [2; 0; 0; 0]; [3; 0; 0; 0]; [5; 0; 0; 0]].
Definition four_page : page_t := mk_page 7 4 (P_LEAF + P_DUPFIX) 8 228 5 (concat four_items ++ replicate 220 0).

Lemma split_dupfix_distributes_witness :
  exists c r L R,
  split_cut 256 (BRANCH_NODE_MAX 256) (LEAF_NODE_MAX 256) 4 0 false four_page (blank 9) None (blank 3) [0] 3 (mk_add [4; 0; 0; 0] (val_of []) 0 0) = Some (inr c) /\
  split_finish (fun _ => inl MDBX_ENOMEM) 256 8 (BRANCH_NODE_MAX 256) (LEAF_NODE_MAX 256) 0 4 c 3 (mk_add [4; 0; 0; 0] (val_of []) 0 0) 0 = Some r /\
  dup_distributed 256 4 four_page (take 3 four_items) (drop 3 four_items) (mk_add [4; 0; 0; 0] (val_of []) 0 0) 0 (blank 9) c r L R.
Proof.
  destruct (split_dupfix_distributes (fun _ => inl MDBX_ENOMEM) 256 8 0 0 false 4 0 four_page (blank 9) None (blank 3) [0]
    (take 3 four_items) (drop 3 four_items) (mk_add [4; 0; 0; 0] (val_of []) 0 0)) as (c & r & L & R & H1 & H2 & H3).
  - reflexivity.
  - split; vm_compute; congruence.
  - lia.
  - split; try reflexivity; [split; [reflexivity|lia]|repeat (apply Forall_cons; split; [reflexivity|]); constructor|exists (replicate 220 0); reflexivity].
  - vm_compute. lia.
  - vm_compute. split; congruence.
  - reflexivity.
  - vm_compute. congruence.
  - reflexivity.
  - reflexivity.
  - reflexivity.
  - exists c, r, L, R. exact (conj H1 (conj H2 H3)).
Defined.
