(* ===== verification/SplitTree.v ===== *)
(** * The split of pages up to the root

    [page_split] of mdbx.c with its recursion, over the pages of a write transaction and the
    stacks of all cursors of a table.  The pages are found by their numbers:
    all pages on the stacks are the copies that the transaction may change, of which
    there is one for each number, so comparing two pointers to pages compares the numbers.
    The tables are those without duplicates, whose cursors have no inner cursors. *)

From S2P Require Import Prelude Meta Cmp Page Split.

(** The pages [pg] of a cursor with the indices [ki], the top first; empty when the cursor
    does not point anywhere ([be_poor]).  An index is at most the number of nodes of a page
    (< 2^15), so that its 16 bits are enough. *)
Abbreviation stack := (list (Z * nat)).

Record wtxn := mk_wtxn {
  w_pages : gmap Z page_t;
  w_allocs : nat;                  (* calls of [gc_alloc_single] *)
  w_shadows : nat;                 (* calls of [page_shadow_alloc] *)
  w_tree : tree_t;
  w_flags : Z
}.

Definition with_pages (w : wtxn) (m : gmap Z page_t) : wtxn := mk_wtxn m (w_allocs w) (w_shadows w) (w_tree w) (w_flags w).
Definition put_page (w : wtxn) (p : page_t) : wtxn := with_pages w (<[page_pgno p := p]> (w_pages w)).
Definition with_flags (w : wtxn) (flags : Z) : wtxn := mk_wtxn (w_pages w) (w_allocs w) (w_shadows w) (w_tree w) flags.
Definition with_tree (w : wtxn) (t : tree_t) : wtxn := mk_wtxn (w_pages w) (w_allocs w) (w_shadows w) t (w_flags w).
Definition after_shadow (w : wtxn) : wtxn := mk_wtxn (w_pages w) (w_allocs w) (S (w_shadows w)) (w_tree w) (w_flags w).

Definition with_new_root (t : tree_t) (root height : Z) : tree_t :=
  mk_tree (t_flags t) height (dupfix_size t) root (branch_pages t) (leaf_pages t) (large_pages t) (sequence t) (t_items t) (mod_txnid t).
Definition count_page (t : tree_t) (flags : Z) : tree_t :=
  let is_branch := Z.land flags P_BRANCH in
  mk_tree (t_flags t) (height t) (dupfix_size t) (root t) (u32 (branch_pages t + is_branch)) (u32 (leaf_pages t + (1 - is_branch)))
    (large_pages t) (sequence t) (t_items t) (mod_txnid t).

(** The outcome of a split: the stacks of the other cursors of the table and the one that
    the split was called for, the large page that was written and the reserved place. *)
Record split_result := mk_result {
  r_rc : Z;
  r_txn : wtxn;
  r_others : list stack;
  r_mc : stack;
  r_large : option (Z * list Z);
  r_reserved : option place
}.

Definition split_failed (rc : Z) (w : wtxn) (others : list stack) : split_result :=
  mk_result rc (with_flags w (Z.lor (w_flags w) MDBX_TXN_ERROR)) others [] None None.

(** [page_numkeys] of a page of the transaction. *)
Definition nkeys_of (w : wtxn) (pgno : Z) : option nat := page_numkeys <$> w_pages w !! pgno.

(** ** The other cursors *)

(** One turn of the loop over the cursors, behind the case of a new root: [mc] and [mn] are the
    stacks for the new node and for the sister's entry in the parent, [n] is the number of nodes that stay. *)
Definition adjust_levels (mpno sister : Z) (newindx n : nat) (pure_left_ replace did_split_parent : bool) (mc mn m3 : stack) : stack :=
  let d := (length m3 - length mc)%nat in
  let e := S d in
  let parent_case :=
    match m3 !! (length m3 - (length mc - 1))%nat, mc !! 1%nat with
    | Some (pg, ki), Some (ppg, pki) =>
        if negb did_split_parent && bool_decide (length mc - 1 <= length m3)%nat && bool_decide (pg = ppg) && bool_decide (pki <= ki)%nat
        then <[(length m3 - (length mc - 1))%nat := (pg, S ki)]> m3 else m3
    | _, _ => m3
    end in
  match m3 !! d with
  | Some (pg, ki) =>
      if bool_decide (length mc <= length m3)%nat && bool_decide (pg = mpno) && negb pure_left_ then
        let ki := if decide (newindx <= ki)%nat then (if (replace : bool) then ki else S ki) else ki in
        if decide (n <= ki)%nat then take d m3 ++ (sister, ki - n)%nat :: mn
        else <[d := (pg, ki)]> m3
      else parent_case
  | None => parent_case
  end.

Definition adjust_cursor (root_split : option Z) (mpno sister : Z) (newindx n : nat) (pure_left_ replace did_split_parent : bool) (mc mn m3 : stack) : stack :=
  let adjust := adjust_levels mpno sister newindx n pure_left_ replace did_split_parent mc mn in
  match last m3 with
  | None => m3
  | Some (pg0, ki0) =>
      match root_split with
      | None => adjust m3
      | Some root =>
          if decide (pg0 <> mpno) then m3
          else adjust (m3 ++ [(root, if decide (n + (if pure_left_ then 1 else 0) <= ki0)%nat then 1%nat else 0%nat)])
      end
  end.

Section SplitTree.
(** What the calls of [gc_alloc_single] and [page_shadow_alloc] give one after the other,
    and [page_new_large]. *)
Context (gc_alloc_single : nat -> Z + page_t) (page_shadow_alloc : nat -> option page_t) (page_new_large : Z -> Z + Z).
Context (ps ps2ln branch_nodemax leaf_nodemax reserve_factor : Z) (prefer_waf : bool).

(** The allocation and the counters of [page_new]; its header is made where the page is used. *)
Definition alloc_page (w : wtxn) (flags : Z) : (Z + page_t) * wtxn :=
  let next t := mk_wtxn (w_pages w) (S (w_allocs w)) (w_shadows w) t (w_flags w) in
  match gc_alloc_single (w_allocs w) with
  | inl err => (inl err, next (w_tree w))
  | inr fresh => (inr fresh, next (count_page (w_tree w) flags))
  end.

(** A new root above the page [mp], entered as its first child. *)
Definition add_root (w : wtxn) (mp : page_t) : option (Z * wtxn + Z * wtxn) :=
  match alloc_page w P_BRANCH with
  | (inl err, w) => Some (inl (err, w))
  | (inr fresh, w) =>
      let root := page_new fresh P_BRANCH ps in
      let w := with_tree w (with_new_root (w_tree w) (page_pgno root) (u16 (height (w_tree w) + 1))) in
      '(rc, root, flags) ← node_add_branch branch_nodemax (w_flags w) root 0 None (page_pgno mp);
      let w := with_flags (put_page w root) flags in
      Some (if decide (rc <> MDBX_SUCCESS) then inl (rc, w) else inr (page_pgno root, w))
  end.

(** The new page and the cut. *)
Definition split_open (w : wtxn) (mp parent : page_t) (path : list Z) (newindx : nat) (new : add_t) : option (Z * wtxn + cut_t * wtxn) :=
  match alloc_page w (page_flags mp) with
  | (inl err, w) => Some (inl (err, w))
  | (inr fresh, w) =>
      c ← split_cut ps branch_nodemax leaf_nodemax (dupfix_size (w_tree w)) reserve_factor prefer_waf mp fresh
        (page_shadow_alloc (w_shadows w)) parent path newindx new;
      match c with
      | inl rc => Some (inl (rc, put_page (after_shadow w) (new_sister ps fresh mp)))
      | inr c =>
          let w := if ct_tmp c then after_shadow w else w in
          Some (inr (c, put_page (put_page w (ct_mp c)) (ct_sister c)))
      end
  end.

(** After the split of the parent: the page may have come to another parent. [None] is
    the case without an entry in front, in which the code calls [cursor_sibling_left]. *)
Definition keep_parent (w : wtxn) (up mn : stack) : option stack :=
  match up, mn with
  | (p, k) :: _, (q, j) :: mnup =>
      nkeys ← nkeys_of w p;
      if bool_decide (q <> p) && bool_decide (nkeys <= k)%nat then
        if decide (j <> 0%nat) then Some ((q, j - 1)%nat :: mnup) else None
      else Some up
  | _, _ => None
  end.

(** The way to the sister, next to the page: [mc->ki[prev_top]++]. *)
Definition step_right (w : wtxn) (up mn : stack) : option stack :=
  match up, mn with
  | (p, k) :: rest, (q, _) :: _ =>
      nkeys ← nkeys_of w p;
      Some (if bool_decide (q <> p) && bool_decide (nkeys <= S k)%nat then mn else (p, S k) :: rest)
  | _, _ => None
  end.

(** The third part of the split, with the stack of the cursor and those of the others. *)
Definition split_close (w : wtxn) (others : list stack) (root_split : option Z) (did_split_parent : bool) (c : cut_t) (mpno : Z) (newindx : nat)
  (new : add_t) (up mn : stack) : option split_result :=
    mp ← w_pages w !! mpno;
  sister ← w_pages w !! page_pgno (ct_sister c);
  let c := mk_cut (ct_how c) mp sister (ct_sepkey c) (ct_right c) (ct_ki c) (ct_tmp c) in
  s ← split_finish page_new_large ps ps2ln branch_nodemax leaf_nodemax (t_flags (w_tree w)) (dupfix_size (w_tree w)) c newindx new (w_flags w);
  let w := with_flags (put_page (put_page w (sp_mp s)) (sp_sister s)) (sp_txn_flags s) in
  if decide (sp_rc s <> MDBX_SUCCESS) then Some (mk_result (sp_rc s) w others [] (sp_large s) (sp_reserved s))
  else
    let sisterno := page_pgno (ct_sister c) in
    mc ← match ct_how c with
         | pure_right => Some ((sisterno, 0%nat) :: zip up.*1 mn.*2)
         | pure_left => Some ((sisterno, 0%nat) :: up)
         | halves _ =>
             if sp_right s then up ← step_right w up mn; Some ((sisterno, sp_ki s) :: up)
             else Some ((mpno, sp_ki s) :: up)
         end;
    n ← nkeys_of w mpno;
    let left_ := match ct_how c with pure_left => true | _ => false end in
    let adjust := adjust_cursor root_split mpno sisterno newindx n left_ (replaces (ad_flags new)) did_split_parent mc mn in
    Some (mk_result MDBX_SUCCESS w (adjust <$> others) mc (sp_large s) (sp_reserved s)).

(** The split of a page that has a parent, with the function that splits the parent.  Meanwhile the
    cursor [mc] is one of the others.  A result [parent_rekey] does not occur and is left open. *)
Definition split_under (split_above : wtxn -> list stack -> stack -> add_t -> option split_result) (w : wtxn) (others : list stack)
  (root_split : option Z) (mp : page_t) (mpno : Z) (newindx : nat) (up : stack) (new : add_t) : option split_result :=
    match up with
    | [] => None
    | (parentno, pki) :: up' =>
        parent ← w_pages w !! parentno;
        r ← split_open w mp parent ((fun e => Z.of_nat e.2) <$> up) newindx new;
        match r with
        | inl (rc, w) => Some (split_failed rc w others)
        | inr (c, w) =>
            r ← split_parent branch_nodemax c parent pki (ad_key new) (w_flags w);
            let mn := (parentno, S pki) :: up' in
            match r with
            | parent_rekey _ _ => None
            | parent_has rc q flags =>
                let w := with_flags (put_page w q) flags in
                if decide (rc <> MDBX_SUCCESS) then Some (split_failed rc w others)
                else split_close w others root_split false c mpno newindx new up mn
            | parent_full =>
                o ← split_above w (((mpno, newindx) :: up) :: others) mn (mk_add (ct_sepkey c) (mk_val 0 []) 0 (page_pgno (ct_sister c)));
                match r_others o with
                | (_ :: up) :: others =>
                    if decide (r_rc o <> MDBX_SUCCESS) then Some (split_failed (r_rc o) (r_txn o) others)
                    else
                      up ← keep_parent (r_txn o) up (r_mc o);
                      split_close (r_txn o) others root_split true c mpno newindx new up (r_mc o)
                | _ => None
                end
            end
        end
    end.

(** [fuel] bounds the height of the tree. *)
Fixpoint page_split (fuel : nat) (w : wtxn) (others : list stack) (mc : stack) (new : add_t) : option split_result :=
  match fuel, mc with
  | S fuel, (mpno, newindx) :: up =>
      mp ← w_pages w !! mpno;
      match up with
      | [] =>
          r ← add_root w mp;
          match r with
          | inl (rc, w) => Some (split_failed rc w others)
          | inr (root, w) => split_under (page_split fuel) w others (Some root) mp mpno newindx [(root, 0%nat)] new
          end
      | _ => split_under (page_split fuel) w others None mp mpno newindx up new
      end
  | _, _ => None
  end.

(** ** The insertion of [cursor_put] (from [insert_node] on) *)

Definition shift_cursor (mpno : Z) (ki : nat) (insert_key : bool) (mc m3 : stack) : stack :=
  let d := (length m3 - length mc)%nat in
  match m3 !! d with
  | Some (pg, k) =>
      if bool_decide (length mc <= length m3)%nat && bool_decide (pg = mpno) && bool_decide (ki <= k)%nat && insert_key
      then <[d := (pg, S k)]> m3 else m3
  | None => m3
  end.

Definition insert_node (fuel : nat) (w : wtxn) (others : list stack) (mc : stack) (insert_key : bool) (new : add_t) : option split_result :=
  match mc with
  | [] => None
  | (mpno, ki) :: _ =>
      mp ← w_pages w !! mpno;
      let nsize := if is_dupfix_leaf mp then Z.of_nat (length (ad_key new)) else leaf_size leaf_nodemax (val_of (ad_key new)) (ad_data new) in
      if decide (page_room mp < nsize) then
        page_split fuel w others mc
          (mk_add (ad_key new) (ad_data new) (if insert_key then ad_flags new else Z.lor (ad_flags new) MDBX_SPLIT_REPLACE) (ad_pgno new))
      else
        r ← (if is_dupfix_leaf mp then
               '(rc, mp, flags) ← node_add_dupfix (w_flags w) (dupfix_size (w_tree w)) mp ki (ad_key new);
               Some (mk_leaf_added rc mp flags None None)
             else node_add_leaf page_new_large ps2ln leaf_nodemax (t_flags (w_tree w)) (w_flags w) mp ki (ad_key new) (ad_data new) (ad_flags new));
        let w := with_flags (put_page w (la_page r)) (la_txn_flags r) in
        Some (mk_result (la_rc r) w (if decide (la_rc r = MDBX_SUCCESS) then shift_cursor mpno ki insert_key mc <$> others else others) mc
          (la_large r) (la_reserved r))
  end.
End SplitTree.
