(* ===== verification/SplitTreeFacts.v ===== *)
(** * The branches of a tree, level by level

    The level [j] of a tree is the list of the pages [j] steps below the root, each with
    the key that its parent has for it.  The first node of a page has no key; the
    page has the one that its own parent gives. *)

From S2P Require Import Prelude Meta Cmp CmpProps Page PageFacts PageOps PageProps Limits LimitsProps Split SplitFacts SplitMove SplitKey SplitProps SplitTree.

Abbreviation ref := (list Z * Z)%type.
Definition ref_of (it : item) : ref := (it_key it, it_word it).
Definition relabel (k : list Z) (items : list item) : list ref :=
  match items with
  | [] => []
  | it :: l => (k, it_word it) :: (ref_of <$> l)
  end.

Lemma relabel_length k l : length (relabel k l) = length l.
Proof. destruct l; [done|]. cbn. by rewrite length_fmap. Qed.

Lemma relabel_app k l1 l2 : l1 <> [] -> relabel k (l1 ++ l2) = relabel k l1 ++ (ref_of <$> l2).
Proof. destruct l1 as [|x l1]; [done|]. intros _. cbn. by rewrite fmap_app. Qed.

Lemma relabel_headed k l : relabel k (headed false l) = relabel k l.
Proof. by destruct l. Qed.

(** Cutting the children of a page in two, with the key of the first one on the right. *)
Lemma relabel_cut k L x R : L <> [] -> relabel k L ++ relabel (it_key x) (headed false (x :: R)) = relabel k (L ++ x :: R).
Proof. intros H. by rewrite relabel_headed, relabel_app. Qed.

(** ** Positions in a list that is put together of parts *)

Section positions.
Context {A : Type}.
Implicit Types (parts : list (list A)) (part : list A).

Lemma concat_split parts x part : parts !! x = Some part -> concat parts = concat (take x parts) ++ part ++ concat (drop (S x) parts).
Proof. intros H. rewrite <- (take_drop_middle _ _ _ H) at 1. by rewrite concat_app, concat_cons. Qed.

Lemma concat_position parts x part i : parts !! x = Some part -> (i < length part)%nat ->
  concat parts !! (length (concat (take x parts)) + i)%nat = part !! i.
Proof.
  intros Hx Hi. rewrite (concat_split _ _ _ Hx). rewrite lookup_app_r by lia.
  replace (length (concat (take x parts)) + i - length (concat (take x parts)))%nat with i by lia. by rewrite lookup_app_l.
Qed.

(** One part is replaced. *)
Lemma concat_insert parts x part part' : parts !! x = Some part ->
  concat (<[x := part']> parts) = concat (take x parts) ++ part' ++ concat (drop (S x) parts).
Proof.
  intros H. pose proof (lookup_lt_Some _ _ _ H) as Hx.
  rewrite (concat_split _ x part') by (by apply list_lookup_insert_eq). rewrite take_insert_ge, drop_insert_lt by lia. done.
Qed.

Lemma concat_take_insert parts x y part part' : parts !! x = Some part ->
  length (concat (take y (<[x := part']> parts))) = (if decide (x < y)%nat then length (concat (take y parts)) + length part' - length part else length (concat (take y parts)))%nat.
Proof.
  intros H. pose proof (lookup_lt_Some _ _ _ H) as Hx. case_decide as Hd; [|by rewrite take_insert_ge by lia].
  rewrite take_insert_lt by lia. rewrite (concat_insert _ _ part) by (by rewrite lookup_take_lt).
  rewrite (concat_split (take y parts) x part) by (by rewrite lookup_take_lt). rewrite !length_app. lia.
Qed.

(** Two positions in different parts are ordered as the parts. *)
Lemma concat_take_le parts x y : (x <= y)%nat -> (length (concat (take x parts)) <= length (concat (take y parts)))%nat.
Proof.
  intros H. replace y with (x + (y - x))%nat by lia. rewrite <- take_take_drop, concat_app, length_app. lia.
Qed.

Lemma concat_take_lt parts x y part : parts !! x = Some part -> (x < y)%nat ->
  (length (concat (take x parts)) + length part <= length (concat (take y parts)))%nat.
Proof.
  intros Hx H. pose proof (concat_take_le parts (S x) y ltac:(lia)) as Hle. rewrite (take_S_r _ _ _ Hx), concat_app, length_app in Hle.
  cbn in Hle. rewrite app_nil_r in Hle. lia.
Qed.

(** One part is cut in two. *)
Definition in_two (parts : list (list A)) (y : nat) (L R : list A) : list (list A) := take y parts ++ [L; R] ++ drop (S y) parts.

Lemma in_two_concat parts y L R : concat (in_two parts y L R) = concat (take y parts) ++ (L ++ R) ++ concat (drop (S y) parts).
Proof. unfold in_two. rewrite !concat_app. cbn [concat]. by rewrite app_nil_r. Qed.

Lemma in_two_at parts y L R : (y < length parts)%nat -> in_two parts y L R !! y = Some L /\ in_two parts y L R !! S y = Some R /\
  length (concat (take y (in_two parts y L R))) = length (concat (take y parts)) /\
  length (concat (take (S y) (in_two parts y L R))) = (length (concat (take y parts)) + length L)%nat.
Proof.
  intros Hlt. unfold in_two. assert (length (take y parts) = y) as El by (rewrite length_take; lia).
  split; [rewrite lookup_app_r by lia; by rewrite El, Nat.sub_diag|]. split.
  { rewrite lookup_app_r by lia. rewrite El. by replace (S y - y)%nat with 1%nat by lia. }
  split; [rewrite take_app_le, take_take by lia; by rewrite Nat.min_id|].
  replace (S y) with (length (take y parts) + 1)%nat at 1 by lia. rewrite take_app_add. cbn [take app]. rewrite concat_app, length_app.
  cbn [concat]. by rewrite app_nil_r.
Qed.

Lemma in_two_front parts y L R z : (y < length parts)%nat -> (z < y)%nat -> in_two parts y L R !! z = parts !! z /\ take z (in_two parts y L R) = take z parts.
Proof.
  intros Hlt Hz. unfold in_two. split.
  - rewrite lookup_app_l by (rewrite length_take; lia). by apply lookup_take_lt.
  - rewrite take_app_le by (rewrite length_take; lia). rewrite take_take. f_equal. lia.
Qed.

Lemma in_two_behind parts y L R part z : parts !! y = Some part -> (y < z)%nat ->
  in_two parts y L R !! S z = parts !! z /\
  (length (concat (take (S z) (in_two parts y L R))) + length part = length (concat (take z parts)) + (length L + length R))%nat.
Proof.
  intros Hpart Hz. pose proof (lookup_lt_Some _ _ _ Hpart) as Hlt. unfold in_two. assert (length (take y parts) = y) as El by (rewrite length_take; lia). split.
  - rewrite lookup_app_r by lia. rewrite lookup_app_r by (cbn; lia). rewrite lookup_drop. f_equal. rewrite El. cbn [length]. lia.
  - replace (S z) with (length (take y parts) + (2 + (z - S y)))%nat by lia. rewrite take_app_add. cbn [take app Nat.add].
    rewrite concat_app. cbn [concat]. rewrite !length_app.
    rewrite (concat_split (take z parts) y part) by (by rewrite lookup_take_lt by lia).
    rewrite take_take, Nat.min_l by lia. rewrite !length_app, take_drop_commute. replace (S y + (z - S y))%nat with z by lia. lia.
Qed.
End positions.

(** All keys but the first one, which is empty. *)
Definition one_keyless (l : list item) : Prop :=
  match l with
  | [] => False
  | it :: l => it_key it = [] /\ Forall (fun x => it_key x <> []) l
  end.

Lemma one_keyless_one_empty l : one_keyless l -> one_empty l.
Proof.
  destruct l as [|it l]; [done|]. intros [H1 H2] i j x y Hi Hj Hx Hy. rewrite Forall_lookup in H2.
  destruct i as [|i], j as [|j]; cbn in *; [done|by apply H2 in Hj|by apply H2 in Hi|by apply H2 in Hi].
Qed.

Section pages.
Context (ps : Z).
Abbreviation size := (Z.to_nat (PAGESPACE ps)).
Abbreviation bmax := (BRANCH_NODE_MAX ps).
Abbreviation lmax := (LEAF_NODE_MAX ps).

Record branch_page (p : page_t) (items : list item) : Prop := {
  bp_holds : page_holds size p items;
  bp_leaf : is_leaf p = false;
  bp_kind : Z.land (page_flags p) P_BRANCH = 1;
  bp_flags : 0 <= page_flags p < 2 ^ 16;
  bp_moves : Forall (moves bmax lmax false) items;
  bp_keys : Forall (fun it => Z.of_nat (length (it_key it)) <= keysize_max ps 0) items;
  bp_first : one_keyless items
}.

(** The items of a page are determined by its bytes. *)
Lemma page_holds_functional n p l l' : page_holds n p l -> page_holds n p l' -> l = l'.
Proof.
  intros H1 H2. assert (length l = length l') as Hlen.
  { pose proof (ph_lower _ _ _ H1). pose proof (ph_lower _ _ _ H2). lia. }
  apply list_eq_same_length'; [done|]. intros i Hi.
  destruct (lookup_lt_is_Some_2 l i Hi) as [x Hx]. destruct (lookup_lt_is_Some_2 l' i) as [y Hy]; [lia|]. rewrite Hx, Hy. f_equal.
  destruct (reads_item _ _ _ _ _ H1 Hx) as (nx & dx & A1 & A2 & A3 & A4 & A5 & A6 & A7).
  destruct (reads_item _ _ _ _ _ H2 Hy) as (ny & dy & B1 & B2 & B3 & B4 & B5 & B6 & B7).
  rewrite A1 in B1. injection B1 as <-. rewrite A2 in B2. injection B2 as E2. rewrite A3 in B3. injection B3 as E3. rewrite A5 in B5. injection B5 as E5.
  rewrite A6 in B6. injection B6 as <-.
  pose proof (proj1 (Forall_lookup _ _) (ph_items _ _ _ H1) _ _ Hx) as (_ & _ & _ & O1).
  pose proof (proj1 (Forall_lookup _ _) (ph_items _ _ _ H2) _ _ Hy) as (_ & _ & _ & O2).
  assert (length (it_data x) = length (it_data y)) as Ed.
  { destruct (is_leaf p); [rewrite <- E3, <- E5 in O2; lia|by rewrite O1, O2]. }
  rewrite Ed, B7 in A7. injection A7 as E7. destruct x, y. cbn in *. by subst.
Qed.

Lemma headed_moves l : Forall (moves bmax lmax false) l -> Forall (moves bmax lmax false) (headed false l).
Proof.
  destruct l as [|it l]; [done|]. intros [[H1 H2] H]%Forall_cons. apply Forall_cons. split; [|done].
  split; [|done]. pose proof (no_key_size it). cbn [nodemax] in *. lia.
Qed.

Lemma headed_keys M l : 0 <= M -> Forall (fun it => Z.of_nat (length (it_key it)) <= M) l -> Forall (fun it => Z.of_nat (length (it_key it)) <= M) (headed false l).
Proof. intros HM. destruct l as [|it l]; [done|]. intros [_ H]%Forall_cons. apply Forall_cons. split; [cbn; lia|done]. Qed.

(** A part of the items of a branch in a page of its own. *)
Lemma branch_page_part p items q l :
  branch_page p items -> page_holds size q (headed false l) -> page_flags q = page_flags p ->
  Forall (moves bmax lmax false) l -> Forall (fun it => Z.of_nat (length (it_key it)) <= keysize_max ps 0) l ->
  l <> [] -> Forall (fun x => it_key x <> []) (tail l) -> branch_page q (headed false l).
Proof.
  intros [H1 H2 H3 H4 H5 H6 H7] Hq Hf Hm Hk Hne Ht. unfold is_leaf in *. split; unfold is_leaf; rewrite ?Hf; try done; [by apply headed_moves| |].
  - apply headed_keys; [|done]. destruct l as [|it l]; [done|]. apply Forall_cons in Hk as [Hk _]. lia.
  - by destruct l as [|it l].
Qed.

(** ** Levels *)

Section level.
Context (m : gmap Z page_t) (root : Z).

Definition expands (r : ref) (part : list ref) : Prop :=
  exists p items, m !! r.2 = Some p /\ page_pgno p = r.2 /\ branch_page p items /\ part = relabel r.1 items.

(** The level [j], and the pages of the levels above. *)
Inductive level : nat -> list Z -> list ref -> Prop :=
| level_root : level 0 [] [([], root)]
| level_child j own l parts : level j own l -> Forall2 expands l parts -> level (S j) (own ++ l.*2) (concat parts).

(** The stack leads from the root to the entry [x] of a level. *)
Inductive leads : stack -> list Z -> list ref -> nat -> Prop :=
| leads_root : leads [] [] [([], root)] 0
| leads_child up own l x parts part k p i :
    leads up own l x -> Forall2 expands l parts -> l !! x = Some (k, p) -> parts !! x = Some part -> (i < length part)%nat ->
    leads ((p, i) :: up) (own ++ l.*2) (concat parts) (length (concat (take x parts)) + i).

Lemma expands_functional r part part' : expands r part -> expands r part' -> part = part'.
Proof.
  intros (p & items & H1 & _ & H2 & ->) (q & items' & H3 & _ & H4 & ->). rewrite H1 in H3. injection H3 as <-.
  f_equal. eapply page_holds_functional; by apply bp_holds.
Qed.

Lemma parts_functional l parts parts' : Forall2 expands l parts -> Forall2 expands l parts' -> parts = parts'.
Proof.
  intros H. revert parts'. induction H as [|r part l parts Hr H IH]; intros parts' H'; [by apply Forall2_nil_inv_l in H'|].
  apply Forall2_cons_inv_l in H' as (part' & parts2 & Hr' & H' & ->). f_equal; [by eapply expands_functional|by apply IH].
Qed.

Lemma level_functional j own l own' l' : level j own l -> level j own' l' -> own = own' /\ l = l'.
Proof.
  intros H. revert own' l'. induction H as [|j own l parts H IH Hp]; intros own' l' H'; inversion H' as [|j' own2 l2 parts2 H2 Hp2]; subst; [done|].
  destruct (IH _ _ H2) as [<- <-]. split; [done|]. f_equal. by eapply parts_functional.
Qed.

Lemma leads_level up own l x : leads up own l x -> level (length up) own l /\ (x < length l)%nat.
Proof.
  induction 1 as [|up own l x parts part k p i H [IH1 IH2] Hp Hx Hpart Hi]; [split; [constructor|cbn; lia]|].
  split; [by constructor|]. destruct (lookup_lt_is_Some_2 part i Hi) as [r Hr].
  rewrite <- (concat_position _ _ _ _ Hpart Hi) in Hr. by apply lookup_lt_Some in Hr.
Qed.

(** The entry that a stack leads to is in the list of the page on its top. *)
Lemma leads_inv up own l parts p i own1 l1 x :
  level (length up) own l -> Forall2 expands l parts -> leads ((p, i) :: up) own1 l1 x ->
  own1 = own ++ l.*2 /\ l1 = concat parts /\
  exists y k part, leads up own l y /\ l !! y = Some (k, p) /\ parts !! y = Some part /\ (i < length part)%nat /\
  x = (length (concat (take y parts)) + i)%nat.
Proof.
  intros Hl Hp H. inversion H as [|? own2 l2 y parts2 part k ? ? H2 Hp2 Hy Hpart Hi]; subst.
  destruct (level_functional _ _ _ _ _ Hl (proj1 (leads_level _ _ _ _ H2))) as [<- <-].
  rewrite (parts_functional _ _ _ Hp2 Hp) in *. split; [done|]. split; [done|]. exists y, k, part. done.
Qed.
End level.

(** The pages of the upper levels are all that a level depends on. *)
Lemma expands_frame m m' r part : m' !! r.2 = m !! r.2 -> expands m r part -> expands m' r part.
Proof. intros E (p & items & H1 & H2). exists p, items. by rewrite E. Qed.

Lemma expands_all_frame m m' l parts : (forall z, z ∈ l.*2 -> m' !! z = m !! z) -> Forall2 (expands m) l parts -> Forall2 (expands m') l parts.
Proof.
  intros H Hp. induction Hp as [|r part l parts Hr Hp IH]; [done|]. apply Forall2_cons. split.
  - apply (expands_frame m); [|done]. apply H. cbn. by left.
  - apply IH. intros z Hz. apply H. cbn. by right.
Qed.

Lemma level_frame m m' root j own l : (forall z, z ∈ own -> m' !! z = m !! z) -> level m root j own l -> level m' root j own l.
Proof.
  intros H Hl. induction Hl as [|j own l parts Hl IH Hp]; [constructor|]. constructor.
  - apply IH. intros z Hz. apply H. apply elem_of_app. by left.
  - apply (expands_all_frame m); [|done]. intros z Hz. apply H. apply elem_of_app. by right.
Qed.

Lemma leads_frame m m' root up own l x : (forall z, z ∈ own -> m' !! z = m !! z) -> leads m root up own l x -> leads m' root up own l x.
Proof.
  intros H Hl. induction Hl as [|up own l x parts part k p i Hl IH Hp Hx Hpart Hi]; [constructor|]. econstructor; try done.
  - apply IH. intros z Hz. apply H. apply elem_of_app. by left.
  - apply (expands_all_frame m); [|done]. intros z Hz. apply H. apply elem_of_app. by right.
Qed.

(** ** A page of a level with one more child *)

(** The position of an entry after one was put in at [b]. *)
Definition bump (b x : nat) : nat := if decide (x < b)%nat then x else S x.

Section insert.
Context (m m' : gmap Z page_t) (root : Z) (own : list Z) (l : list ref) (parts : list (list ref)) (y : nat) (k : list Z) (p : Z) (part part' : list ref).
Context (Hparts : Forall2 (expands m) l parts) (Hy : l !! y = Some (k, p)) (Hpart : parts !! y = Some part).
Context (Hnodup : NoDup (own ++ l.*2)) (Hsame : forall z, z ∈ own ++ l.*2 -> z <> p -> m' !! z = m !! z) (Hp' : expands m' (k, p) part').
Abbreviation parts' := (<[y := part']> parts).

Lemma page_at : l.*2 !! y = Some p.
Proof. by rewrite list_lookup_fmap, Hy. Qed.

Lemma not_above : p ∉ own.
Proof. intros H. apply NoDup_app in Hnodup as (_ & Hd & _). apply (Hd p H). eapply list_elem_of_lookup_2, page_at. Qed.

Lemma only_there z k' : l !! z = Some (k', p) -> z = y.
Proof.
  intros Hz. apply NoDup_app in Hnodup as (_ & _ & Hn). eapply (NoDup_lookup _ _ _ p Hn); [by rewrite list_lookup_fmap, Hz|exact page_at].
Qed.

Lemma upper_same z : z ∈ own -> m' !! z = m !! z.
Proof. intros Hz. apply Hsame; [apply elem_of_app; by left|]. intros ->. by apply not_above. Qed.

Lemma insert_expands : Forall2 (expands m') l parts'.
Proof.
  apply Forall2_lookup. intros z. pose proof (lookup_lt_Some _ _ _ Hpart) as Hlt. pose proof (Forall2_length _ _ _ Hparts) as Hlen.
  destruct (decide (z = y)) as [->|Hne]; [rewrite Hy, list_lookup_insert_eq by done; by constructor|].
  rewrite list_lookup_insert_ne by done. destruct (l !! z) as [[k' p']|] eqn:Ez.
  - destruct (Forall2_lookup_l _ _ _ _ _ Hparts Ez) as (part2 & -> & He). constructor. apply (expands_frame m); [|done]. cbn [snd].
    apply Hsame; [apply elem_of_app; right; eapply list_elem_of_lookup_2; by rewrite list_lookup_fmap, Ez|].
    intros ->. by apply Hne, (only_there z k').
  - rewrite lookup_ge_None_2; [constructor|]. rewrite <- Hlen. by apply lookup_ge_None_1.
Qed.

Lemma insert_level j : level m root j own l -> level m' root (S j) (own ++ l.*2) (concat parts').
Proof. intros H. constructor; [|exact insert_expands]. apply (level_frame m); [exact upper_same|done]. Qed.

Lemma insert_leads up z k' p' part2 i : leads m root up own l z -> l !! z = Some (k', p') -> parts' !! z = Some part2 -> (i < length part2)%nat ->
  leads m' root ((p', i) :: up) (own ++ l.*2) (concat parts') (length (concat (take z parts')) + i).
Proof. intros H Hz Hz2 Hi. econstructor; [|exact insert_expands|exact Hz|exact Hz2|exact Hi]. apply (leads_frame m); [exact upper_same|done]. Qed.

Context (bi : nat) (Hbi : (bi <= length part)%nat) (Hlen : length part' = S (length part)).
Abbreviation b := (length (concat (take y parts)) + bi)%nat.

(** All stacks to the children, with the index in this page moved. *)
Lemma leads_insert up z k' p' part2 i : leads m root up own l z -> l !! z = Some (k', p') -> parts !! z = Some part2 -> (i < length part2)%nat ->
  leads m' root ((p', if decide (p' = p) then bump bi i else i) :: up) (own ++ l.*2) (concat parts')
  (bump b (length (concat (take z parts)) + i)).
Proof.
  intros H Hz Hz2 Hi. pose proof (lookup_lt_Some _ _ _ Hpart) as Hlt. pose proof (concat_take_insert parts y z part part' Hpart) as Et.
  destruct (decide (z = y)) as [->|Hne].
  - rewrite Hy in Hz. injection Hz as <- <-. rewrite Hpart in Hz2. injection Hz2 as <-. rewrite decide_True by done.
    rewrite decide_False in Et by lia.
    replace (bump b (length (concat (take y parts)) + i)) with (length (concat (take y parts')) + bump bi i)%nat
      by (rewrite Et; unfold bump; repeat case_decide; lia).
    apply (insert_leads up y k p part'); [done|done|by apply list_lookup_insert_eq|]. unfold bump. case_decide; lia.
  - rewrite decide_False by (intros ->; by apply Hne, (only_there z k')).
    assert (parts' !! z = Some part2) as Hz3 by by rewrite list_lookup_insert_ne.
    replace (bump b (length (concat (take z parts)) + i)) with (length (concat (take z parts')) + i)%nat; [by eapply insert_leads|].
    rewrite Et. unfold bump. destruct (decide (y < z)%nat) as [Hyz|Hyz].
    + pose proof (concat_take_lt parts y z part Hpart Hyz). rewrite decide_False by lia. lia.
    + pose proof (concat_take_lt parts z y part2 Hz2 ltac:(lia)). rewrite decide_True by lia. lia.
Qed.
End insert.
End pages.
