(* ===== verification/SplitTreeLink.v ===== *)
(** * The split of pages up to the root: the new page comes into its parent *)

From S2P Require Import Prelude Meta Cmp CmpProps Page PageFacts PageOps PageProps Limits LimitsProps Split SplitFacts SplitMove SplitKey SplitProps SplitTree SplitTreeFacts.

Section link.
Context (gc_alloc_single : nat -> Z + page_t) (page_shadow_alloc : nat -> option page_t) (page_new_large : Z -> Z + Z).
Context (ps ps2ln reserve_factor : Z) (prefer_waf : bool).
Abbreviation bmax := (BRANCH_NODE_MAX ps).
Abbreviation lmax := (LEAF_NODE_MAX ps).
Abbreviation size := (Z.to_nat (PAGESPACE ps)).
Context (Hps : ps ∈ page_sizes) (Hres : 0 <= reserve_factor <= 32768).

(** The pages that the allocator gives are not in use, and no page is given twice. *)
Record allocator_ok : Prop := {
  al_err : forall n e, gc_alloc_single n = inl e -> e <> MDBX_SUCCESS;
  al_page : forall n p, gc_alloc_single n = inr p -> length (page_body p) = size /\ 0 <= page_pgno p < 2 ^ 32;
  al_once : forall n p n' p', gc_alloc_single n = inr p -> gc_alloc_single n' = inr p' -> (n < n')%nat -> page_pgno p' <> page_pgno p;
  al_shadow : forall n p, page_shadow_alloc n = Some p -> length (page_body p) = size
}.
Context (Hal : allocator_ok).

Definition supply (w : wtxn) : Prop :=
  forall n p, (w_allocs w <= n)%nat -> gc_alloc_single n = inr p -> w_pages w !! page_pgno p = None.

(** What a change of the pages leaves as it is. *)
Definition same_tree (w w' : wtxn) : Prop :=
  w_flags w' = w_flags w /\ t_flags (w_tree w') = t_flags (w_tree w) /\ dupfix_size (w_tree w') = dupfix_size (w_tree w).
Definition same_root (w w' : wtxn) : Prop := root (w_tree w') = root (w_tree w) /\ height (w_tree w') = height (w_tree w).

Lemma same_tree_trans w1 w2 w3 : same_tree w1 w2 -> same_tree w2 w3 -> same_tree w1 w3.
Proof. intros (H1 & H2 & H3) (H4 & H5 & H6). split; [|split]; congruence. Qed.

Definition refused (rc : Z) : Prop := rc = MDBX_ENOMEM \/ exists n, gc_alloc_single n = inl rc.

Lemma refused_fails rc : refused rc -> rc <> MDBX_SUCCESS.
Proof. intros [-> | [n H]]; [discriminate|by eapply al_err]. Qed.

Lemma supply_put w p : supply w -> is_Some (w_pages w !! page_pgno p) -> supply (put_page w p).
Proof.
  intros H [q Hq] n p' Hn Hp'. pose proof (H n p' Hn Hp') as E. cbn. rewrite lookup_insert_ne; [done|]. intros Ez. rewrite <- Ez, Hq in E. discriminate.
Qed.

(** A page was taken, and is not in the pages yet. *)
Definition taken (w : wtxn) (s : Z) : Prop :=
  w_pages w !! s = None /\ supply w /\ forall n p, (w_allocs w <= n)%nat -> gc_alloc_single n = inr p -> page_pgno p <> s.

Lemma taken_put_old w s p : taken w s -> is_Some (w_pages w !! page_pgno p) -> taken (put_page w p) s.
Proof.
  intros (H1 & H2 & H3) Hp. split; [|split; [by apply supply_put|exact H3]]. cbn. rewrite lookup_insert_ne; [done|].
  intros <-. rewrite H1 in Hp. by destruct Hp.
Qed.

Lemma taken_put w p : taken w (page_pgno p) -> supply (put_page w p).
Proof.
  intros (H1 & H2 & H3) n p' Hn Hp'. cbn. rewrite lookup_insert_ne; [by eapply H2|]. intros E. by eapply H3.
Qed.

Lemma alloc_spec w f : supply w ->
  match alloc_page gc_alloc_single w f with
  | (inl err, w1) => refused err /\ w_pages w1 = w_pages w /\ w_flags w1 = w_flags w
  | (inr fresh, w1) => length (page_body fresh) = size /\ 0 <= page_pgno fresh < 2 ^ 32 /\ w_pages w1 = w_pages w /\ taken w1 (page_pgno fresh) /\
      same_tree w w1 /\ same_root w w1
  end.
Proof.
  intros H. unfold alloc_page. destruct (gc_alloc_single (w_allocs w)) as [err|fresh] eqn:E.
  - split; [right; by eexists|done].
  - destruct (al_page Hal _ _ E) as [H1 H2]. split; [done|]. split; [done|]. split; [done|]. split; [|done]. split; [by eapply H|]. split.
    + intros n p Hn Hp. cbn in *. eapply H; [|exact Hp]. lia.
    + intros n p Hn Hp. cbn in *. eapply (al_once Hal _ _ _ _ E Hp). lia.
Qed.

(** ** The new page and the cut *)

Lemma cut_without_scratch dupfix_size mp fresh scratch parent path newindx new c :
  split_cut ps bmax lmax dupfix_size reserve_factor prefer_waf mp fresh (Some scratch) parent path newindx new = Some (inr c) ->
  split_cut ps bmax lmax dupfix_size reserve_factor prefer_waf mp fresh None parent path newindx new = Some (inr c) \/
  split_cut ps bmax lmax dupfix_size reserve_factor prefer_waf mp fresh None parent path newindx new = Some (inl MDBX_ENOMEM).
Proof.
  unfold split_cut. destruct (split_choice _ _ _ _ _ _ _ _) as [ch|]; [|done]. cbn [mbind option_bind].
  destruct (bool_decide _ && _); [by left|]. destruct (bool_decide _ && _); [by left|]. destruct (is_dupfix_leaf _); [by left|]. by right.
Qed.

Abbreviation open_at w := (split_open gc_alloc_single page_shadow_alloc ps bmax lmax reserve_factor prefer_waf w).

(** The state after [split_open]: the page and the empty sister are in the pages. *)
Definition opened_cut (w : wtxn) (mp parent : page_t) (path : list Z) (I1 I2 : list item) (new : add_t) (itnew : item) (c : cut_t) (w1 : wtxn) : Prop :=
  let s := page_pgno (ct_sister c) in
  0 <= s < 2 ^ 32 /\ w_pages w !! s = None /\ w_pages w1 = <[s := ct_sister c]> (<[page_pgno mp := ct_mp c]> (w_pages w)) /\ supply w1 /\
  same_tree w w1 /\ same_root w w1 /\ page_pgno (ct_mp c) = page_pgno mp /\
  exists fresh r L R,
  split_finish page_new_large ps ps2ln bmax lmax (t_flags (w_tree w)) (dupfix_size (w_tree w)) c (length I1) new (w_flags w) = Some r /\
  distributed ps mp I1 I2 new itnew (w_flags w) fresh c r L R /\ page_pgno fresh = s /\
  (ct_how c = pure_left -> Forall (fun ki => ki = 0) path /\ 2 + Z.of_nat (item_size (mk_item 0 0 (ct_sepkey c) [])) <= page_room parent).

Lemma split_open_spec w mp parent path I1 I2 new itnew :
  splittable page_new_large ps ps2ln (t_flags (w_tree w)) mp I1 I2 new itnew -> supply w -> is_Some (w_pages w !! page_pgno mp) ->
  exists r, open_at w mp parent path (length I1) new = Some r /\
  match r with
  | inl (rc, w1) => refused rc /\ w_flags w1 = w_flags w
  | inr (c, w1) => opened_cut w mp parent path I1 I2 new itnew c w1
  end.
Proof.
  intros Hs Hsup Hmp. unfold split_open. pose proof (alloc_spec w (page_flags mp) Hsup) as Ha.
  destruct (alloc_page _ w (page_flags mp)) as [[err|fresh] w0]; [eexists; split; [done|]; by destruct Ha as (? & _ & ?)|].
  destruct Ha as (Hlen & Hpg & Hpages & Htk & Htree & Hroot).
  assert (exists scratch, length (page_body scratch) = size /\
    (page_shadow_alloc (w_shadows w0) = Some scratch \/ page_shadow_alloc (w_shadows w0) = None)) as (scratch & Hscr & Hsh).
  { destruct (page_shadow_alloc (w_shadows w0)) as [scratch|] eqn:E; [exists scratch; split; [by eapply al_shadow|by left]|]. exists fresh. split; [done|by right]. }
  destruct (split_distributes_spec page_new_large ps ps2ln (t_flags (w_tree w)) reserve_factor prefer_waf (dupfix_size (w_tree w)) (w_flags w)
    mp fresh scratch parent path I1 I2 new itnew Hs Hres Hlen Hscr) as (c & r & L & R & Ec & Er & Hd & Hleft).
  destruct Htree as (T1 & T2 & T3). rewrite T3.
  assert (exists w2, (exists t, match split_cut ps bmax lmax (dupfix_size (w_tree w)) reserve_factor prefer_waf mp fresh (page_shadow_alloc (w_shadows w0)) parent path (length I1) new
    with Some (inr c) => Some (inr (c, put_page (put_page (if ct_tmp c then after_shadow w0 else w0) (ct_mp c)) (ct_sister c)))
    | Some (inl rc) => Some (inl (rc, put_page (after_shadow w0) (new_sister ps fresh mp))) | None => None end = Some t /\
    (t = inl (MDBX_ENOMEM, put_page (after_shadow w0) (new_sister ps fresh mp)) \/ t = inr (c, w2))) /\
    w2 = put_page (put_page (if ct_tmp c then after_shadow w0 else w0) (ct_mp c)) (ct_sister c)) as (w2 & (t & Et & Ht) & Ew2).
  { eexists. split; [|reflexivity]. destruct Hsh as [-> | ->]; [rewrite Ec; eexists; split; [done|by right]|].
    destruct (cut_without_scratch _ _ _ _ _ _ _ _ _ Ec) as [-> | ->]; eexists; (split; [done|]); [by right|by left]. }
  exists t. split.
  - unfold mbind, option_bind. destruct (split_cut _ _ _ _ _ _ _ _ _ _ _ _ _) as [[rc|c']|]; [exact Et|exact Et|done].
  - destruct Ht as [-> | ->]; [split; [by left|exact T1]|].
    destruct Hd as (D1 & D2 & D3 & D4 & D5 & D6 & D7 & D8 & D9 & D10 & D11). pose proof Htk as (Hk1 & _).
    set (w3 := if ct_tmp c then after_shadow w0 else w0) in *.
    assert (w_pages w3 = w_pages w /\ taken w3 (page_pgno fresh) /\ w_flags w3 = w_flags w /\ w_tree w3 = w_tree w0) as (P1 & P2 & P3 & P4).
    { unfold w3. destruct (ct_tmp c); done. }
    unfold opened_cut. rewrite D9. rewrite Hpages in Hk1. split; [exact Hpg|]. split; [done|]. split.
    { rewrite Ew2. cbn. by rewrite P1, D9, D10. }
    split. { rewrite Ew2. apply taken_put. rewrite D9. apply taken_put_old; [exact P2|]. by rewrite D10, P1. }
    split. { rewrite Ew2. unfold same_tree. cbn. rewrite P3, P4. done. }
    split. { rewrite Ew2. unfold same_root in *. cbn. by rewrite P4. }
    split; [exact D10|]. exists fresh, r, L, R. split; [exact Er|]. split; [by unfold distributed|]. done.
Qed.

(** ** The parent *)

Lemma add_branch_pgno nodemax tf mp i key pgno rc q fl : node_add_branch nodemax tf mp i key pgno = Some (rc, q, fl) -> page_pgno q = page_pgno mp.
Proof.
  unfold node_add_branch. intros H. unbind H. case_decide; [by injection H as <- <- <-|]. unbind H. by injection H as <- <- <-.
Qed.

Lemma propagate_pgno mp i key q : tree_propagate_key mp i key = Some (key_replaced q) -> page_pgno q = page_pgno mp.
Proof.
  unfold tree_propagate_key. intros H. unbind H. case_decide; [by unbind H|]. unbind H. destruct b2 as [mp' node']. unbind H. injection H as <-.
  case_decide; [|by injection E2 as <- <-]. unbind E2. by injection E2 as <- <-.
Qed.

Lemma split_parent_pgno c parent ki newkey tf rc q fl :
  split_parent bmax c parent ki newkey tf = Some (parent_has rc q fl) -> page_pgno q = page_pgno parent.
Proof.
  unfold split_parent. intros H. unbind H. case_decide; [done|].
  destruct (ct_how c); unbind H; destruct b0 as [[rc' q'] fl']; apply add_branch_pgno in E0; [by injection H as <- <- <-| |by injection H as <- <- <-].
  destruct (_ && _); [|by injection H as <- <- <-]. unbind H. destruct b0 as [q2|]; [|done]. injection H as <- <- <-. by rewrite (propagate_pgno _ _ _ _ E1).
Qed.

(** The level with the sister next to the page, or in front of it. *)
Definition with_sister (l : list ref) (pos : nat) (front : bool) (kh : list Z) (hole : Z) (sep : list Z) (s : Z) : list ref :=
  take pos l ++ (if front then [(kh, s); (sep, hole)] else [(kh, hole); (sep, s)]) ++ drop (S pos) l.
Definition sister_at (pos : nat) (front : bool) : nat := if front then pos else S pos.

Lemma with_sister_pages l pos front kh hole sep s : l !! pos = Some (kh, hole) ->
  (with_sister l pos front kh hole sep s).*2 = take (sister_at pos front) l.*2 ++ s :: drop (sister_at pos front) l.*2.
Proof.
  intros H. assert (l.*2 !! pos = Some hole) as Hp by by rewrite list_lookup_fmap, H.
  unfold with_sister, sister_at. rewrite fmap_app, fmap_take. destruct front; cbn [fmap list_fmap app snd]; rewrite fmap_drop.
  - f_equal. f_equal. symmetry. by apply drop_S.
  - rewrite (take_S_r _ _ _ Hp), <- app_assoc. done.
Qed.

(** The tree after the new page [s] has come into the level [j] with the pages [own] above it;
    no other pages of before are touched but [own] and [changed]. *)
Record linked (w w2 : wtxn) (j : nat) (own : list Z) (l : list ref) (b : nat) (s : Z) (changed : list Z) (j' : nat) (own' : list Z) (l' : list ref) : Prop := {
  lk_level : level ps (w_pages w2) (root (w_tree w2)) j' own' l';
  lk_refs : l'.*2 = take b l.*2 ++ s :: drop b l.*2;
  lk_nodup : NoDup (own' ++ l'.*2);
  lk_own : forall z, z ∈ own' -> z ∈ own \/ w_pages w !! z = None;
  lk_frame : forall z, z ∉ own -> z ∉ changed -> is_Some (w_pages w !! z) -> w_pages w2 !! z = w_pages w !! z;
  lk_supply : supply w2;
  lk_tree : same_tree w w2;
  lk_height : height (w_tree w2) - Z.of_nat j' = height (w_tree w) - Z.of_nat j
}.

Lemma NoDup_add (own : list Z) l b s : NoDup (own ++ l) -> s ∉ own -> s ∉ l -> NoDup (own ++ take b l ++ s :: drop b l).
Proof.
  intros H H1 H2. assert (own ++ take b l ++ s :: drop b l ≡ₚ s :: own ++ l) as ->.
  { rewrite <- (take_drop b l) at 3. rewrite app_assoc, <- Permutation_middle, <- app_assoc. done. }
  apply NoDup_cons. split; [|done]. rewrite elem_of_app. by intros [].
Qed.

(** Level [j] of the tree of [w], with its pages where they are. *)
Record tree_level (w : wtxn) (j : nat) (own : list Z) (l : list ref) : Prop := {
  tl_level : level ps (w_pages w) (root (w_tree w)) j own l;
  tl_nodup : NoDup (own ++ l.*2);
  tl_there : forall z, z ∈ l.*2 -> is_Some (w_pages w !! z)
}.

Lemma level_there m root_ j own l : level ps m root_ j own l -> forall z, z ∈ own -> is_Some (m !! z).
Proof.
  induction 1 as [|j own l parts H IH Hp]; intros z; [by intros ?%elem_of_nil|]. intros [Hz|Hz]%elem_of_app; [by apply IH|].
  apply list_elem_of_fmap in Hz as (r & -> & Hr). apply list_elem_of_lookup in Hr as (i & Hi).
  destruct (Forall2_lookup_l _ _ _ _ _ Hp Hi) as (part & _ & (p & items & E & _)). by exists p.
Qed.

Lemma with_sister_concat (parts : list (list ref)) y part i front kh hole sep s :
  parts !! y = Some part -> (i < length part)%nat ->
  concat (<[y := with_sister part i front kh hole sep s]> parts) =
  with_sister (concat parts) (length (concat (take y parts)) + i) front kh hole sep s.
Proof.
  intros Hy Hi. rewrite (concat_insert _ _ _ _ Hy). unfold with_sister. rewrite (concat_split _ _ _ Hy).
  set (A := concat (take y parts)). set (C := concat (drop (S y) parts)).
  rewrite take_app_add, take_app_le by lia. rewrite <- !app_assoc. f_equal. f_equal. f_equal.
  replace (S (length A + i)) with (length A + S i)%nat by lia. rewrite drop_app_add, drop_app_le by lia. done.
Qed.

(** The key that a child has at its level. *)
Definition label (k : list Z) (P1 : list item) (child : item) : list Z := match P1 with [] => k | _ => it_key child end.

Lemma relabel_at k P1 child P2 : relabel k (P1 ++ child :: P2) !! length P1 = Some (label k P1 child, it_word child).
Proof.
  destruct P1 as [|x P1]; [done|]. rewrite (relabel_app k (x :: P1)) by done. rewrite lookup_app_r by by rewrite relabel_length.
  by rewrite relabel_length, Nat.sub_diag.
Qed.

Lemma relabel_sister k P1 child P2 it : relabel k (P1 ++ child :: it :: P2) =
  with_sister (relabel k (P1 ++ child :: P2)) (length P1) false (label k P1 child) (it_word child) (it_key it) (it_word it).
Proof.
  unfold with_sister. destruct P1 as [|x P1]; [done|]. rewrite !(relabel_app k (x :: P1)) by done. pose proof (relabel_length k (x :: P1)) as Hl.
  rewrite take_app_length' by done. rewrite drop_app_ge by lia. rewrite Hl. by replace (S (length (x :: P1)) - length (x :: P1))%nat with 1%nat by lia.
Qed.

Lemma relabel_front k child P2 sep s : relabel k (no_key (mk_item s 0 sep []) :: rekey child sep :: P2) =
  with_sister (relabel k (child :: P2)) 0 true k (it_word child) sep s.
Proof. unfold with_sister. cbn. by rewrite drop_0. Qed.

(** What a key of the parent is. *)
Definition good_key (key : list Z) : Prop := key <> [] /\ Z.of_nat (length key) <= keysize_max ps 0.

Lemma sister_moves sep s : good_key sep -> moves bmax lmax false (mk_item s 0 sep []) /\
  branch_size bmax (Some (val_of sep)) = Some (Z.of_nat (2 + item_size (mk_item s 0 sep []))).
Proof. intros [_ H]. destruct (key_in_branch ps Hps sep H) as [H1 H2]. split; [by split|done]. Qed.

Lemma one_keyless_insert P1 child it P2 : one_keyless (P1 ++ child :: P2) -> it_key it <> [] -> one_keyless (P1 ++ child :: it :: P2).
Proof.
  destruct P1 as [|x P1]; cbn; [intros [H1 H2] H; split; [done|by apply Forall_cons]|].
  intros [H1 H2] H. split; [done|]. apply Forall_app in H2 as [H2 H3]. apply Forall_cons in H3 as [H3 H4].
  apply Forall_app. split; [done|]. by repeat (apply Forall_cons; split).
Qed.

(** The parent with the new child is a branch again. *)
Lemma branch_page_sister parent P1 child P2 q sep s (front : bool) :
  branch_page ps parent (P1 ++ child :: P2) -> page_flags q = page_flags parent -> good_key sep -> (front = true -> P1 = []) ->
  let items := if front then no_key (mk_item s 0 sep []) :: rekey child sep :: P2 else P1 ++ child :: mk_item s 0 sep [] :: P2 in
  page_holds size q items -> branch_page ps q items.
Proof.
  intros [H1 H2 H3 H4 H5 H6 H7] Hf Hk Hfront items Hq. pose proof (sister_moves sep s Hk) as [Hm _]. destruct Hk as [Hk1 Hk2].
  apply Forall_app in H5 as [M1 M2]. apply Forall_cons in M2 as [M2 M3]. apply Forall_app in H6 as [K1 K2]. apply Forall_cons in K2 as [K2 K3].
  split; unfold is_leaf in *; rewrite ?Hf; try done; unfold items; destruct front.
  - apply Forall_cons. split; [destruct Hm as [Hm _]; split; [|done]; pose proof (no_key_size (mk_item s 0 sep [])); cbn [nodemax] in *; lia|].
    apply Forall_cons. split; [|done]. pose proof (ph_items _ _ _ Hq) as Hok. unfold items in Hok.
    pose proof (ph_items _ _ _ H1) as Hok1. rewrite (Hfront eq_refl) in Hok1. cbn [app] in Hok1. apply Forall_cons in Hok1 as [Hok1 _].
    unfold is_leaf in Hok1. rewrite H2 in Hok1. destruct Hok1 as (_ & _ & _ & Hd). destruct M2 as [_ M2]. split; [|done].
    destruct Hm as [Hm _]. unfold item_size, payload, rekey in *. cbn [it_key it_data] in *. by rewrite Hd.
  - apply Forall_app. split; [done|]. by repeat (apply Forall_cons; split).
  - destruct (node_sizes ps Hps) as (_ & _ & Hkm & _). apply Forall_cons. split; [cbn; lia|]. by apply Forall_cons.
  - apply Forall_app. split; [done|]. by repeat (apply Forall_cons; split).
  - rewrite (Hfront eq_refl) in H7. destruct H7 as [_ H7]. cbn. split; [done|]. by apply Forall_cons.
  - by apply one_keyless_insert.
Qed.

(** ** The parent has room *)

Section direct.
Context (w : wtxn) (j : nat) (own : list Z) (l : list ref) (parts : list (list ref)) (y : nat) (kp : list Z) (p : Z) (parent : page_t).
Context (P1 : list item) (child : item) (P2 : list item) (c : cut_t).
Context (Htree : tree_level w j own l) (Hparts : Forall2 (expands ps (w_pages w)) l parts) (Hy : l !! y = Some (kp, p)).
Context (Hp : w_pages w !! p = Some parent) (Hpp : page_pgno parent = p) (Hbr : branch_page ps parent (P1 ++ child :: P2)).
Context (Hnodup : NoDup ((own ++ l.*2) ++ (concat parts).*2)) (Hthere : forall z, z ∈ (concat parts).*2 -> is_Some (w_pages w !! z)).
Abbreviation s := (page_pgno (ct_sister c)).
Context (Hs : s ∉ own ++ l.*2) (Hs2 : s ∉ (concat parts).*2) (Hs3 : 0 <= s < 2 ^ 32) (Hsup : supply w) (Hsep : good_key (ct_sepkey c)).
Abbreviation front := (match ct_how c with pure_left => true | _ => false end).
Context (Hfront : ct_how c = pure_left -> P1 = []).
Abbreviation pos := (length (concat (take y parts)) + length P1)%nat.
Abbreviation l2 := (with_sister (concat parts) pos front (label kp P1 child) (it_word child) (ct_sepkey c) s).
Abbreviation b := (sister_at pos front).

Lemma direct_part : parts !! y = Some (relabel kp (P1 ++ child :: P2)).
Proof.
  destruct (Forall2_lookup_l _ _ _ _ _ Hparts Hy) as (part & Hpart & (q & items & E & _ & Hb & ->)). cbn in *. rewrite Hp in E. injection E as <-.
  rewrite Hpart. f_equal. f_equal. eapply page_holds_functional; [exact (bp_holds _ _ _ Hb)|exact (bp_holds _ _ _ Hbr)].
Qed.

Lemma direct_pos : concat parts !! pos = Some (label kp P1 child, it_word child).
Proof. rewrite (concat_position _ _ _ _ direct_part) by (rewrite relabel_length, length_app; cbn; lia). apply relabel_at. Qed.

Lemma link_direct newkey :
  ~ page_room parent < 2 + Z.of_nat (item_size (mk_item s 0 (ct_sepkey c) [])) ->
  exists q, split_parent bmax c parent (length P1) newkey (w_flags w) = Some (parent_has MDBX_SUCCESS q (w_flags w)) /\
  let w2 := with_flags (put_page w q) (w_flags w) in
  linked w w2 (S j) (own ++ l.*2) (concat parts) b s [] (S j) (own ++ l.*2) l2 /\
  (forall up p' i x, length up = j -> leads ps (w_pages w) (root (w_tree w)) ((p', i) :: up) (own ++ l.*2) (concat parts) x ->
    leads ps (w_pages w2) (root (w_tree w2)) ((p', if decide (p' = p) then bump (sister_at (length P1) front) i else i) :: up) (own ++ l.*2) l2 (bump b x)) /\
  (forall up, leads ps (w_pages w) (root (w_tree w)) up own l y ->
    leads ps (w_pages w2) (root (w_tree w2)) ((p, sister_at (length P1) front) :: up) (own ++ l.*2) l2 b).
Proof.
  intros Hroom. pose proof direct_part as Hpart. destruct Htree as [Hl Hn Ht]. destruct Hsep as [Hk1 Hk2].
  pose proof (split_links_spec ps parent P1 child P2 c newkey (w_flags w)) as Hlink. cbv zeta in Hlink. rewrite decide_False in Hlink by done.
  assert (is_powerof2 ps = true /\ MDBX_MIN_PAGESIZE <= ps <= MDBX_MAX_PAGESIZE) as [Hp1 Hp2].
  { revert Hps. clear. intros H. each_size H; vm_compute; repeat split; congruence. }
  destruct Hlink as (q & E & Hqf & Hq); [done|done|by apply bp_holds|by eapply bp_leaf|done|done| |].
  { intros Eh. pose proof (Hfront Eh) as E1. split; [done|]. pose proof (bp_first _ _ _ Hbr) as Hf. rewrite E1 in Hf. by destruct Hf. }
  exists q. split; [done|]. intros w2. assert (page_pgno q = p) as Hqp by by rewrite (split_parent_pgno _ _ _ _ _ _ _ _ E).
  set (part' := with_sister (relabel kp (P1 ++ child :: P2)) (length P1) front (label kp P1 child) (it_word child) (ct_sepkey c) s).
  assert (expands ps (w_pages w2) (kp, p) part') as Hexp.
  { exists q. eexists. split; [cbn; rewrite Hqp; by apply lookup_insert_eq|]. split; [done|].
    split; [apply (branch_page_sister parent P1 child P2 q (ct_sepkey c) s front Hbr Hqf (conj Hk1 Hk2))|].
    - intros Eh. apply Hfront. by destruct (ct_how c).
    - by destruct (ct_how c).
    - unfold part'. pose proof (eq_sym (relabel_sister kp P1 child P2 (mk_item s 0 (ct_sepkey c) []))) as Er.
      destruct (ct_how c) eqn:Eh; [exact Er| |exact Er]. rewrite (Hfront eq_refl). exact (eq_sym (relabel_front kp child P2 (ct_sepkey c) s)). }
  assert (forall z, z ∈ own ++ l.*2 -> z <> p -> w_pages w2 !! z = w_pages w !! z) as Hsame.
  { intros z _ Hz. cbn. rewrite Hqp. by apply lookup_insert_ne. }
  assert (length P1 < length (relabel kp (P1 ++ child :: P2)))%nat as Hlt by (rewrite relabel_length, length_app; cbn; lia).
  assert (concat (<[y := part']> parts) = l2) as El by by apply with_sister_concat.
  assert (length part' = S (length (relabel kp (P1 ++ child :: P2)))) as Hlen.
  { unfold part', with_sister. rewrite !length_app, length_take, length_drop. destruct (ct_how c); cbn [length]; lia. }
  assert (sister_at (length P1) front <= length (relabel kp (P1 ++ child :: P2)))%nat as Hbi by (unfold sister_at; destruct (ct_how c); lia).
  assert (length (concat (take y parts)) + sister_at (length P1) front = b)%nat as Eb by (unfold sister_at; destruct (ct_how c); lia).
  pose proof (with_sister_pages (concat parts) pos front (label kp P1 child) (it_word child) (ct_sepkey c) s direct_pos) as Hpages.
  assert (NoDup (own ++ l.*2 ) /\ p ∉ (concat parts).*2) as [Hn2 Hpn].
  { split; [done|]. apply NoDup_app in Hnodup as (_ & Hd & _). apply Hd. apply elem_of_app. right. eapply list_elem_of_lookup_2. by rewrite list_lookup_fmap, Hy. }
  split; [|split].
  - rewrite <- El. split.
    + by eapply (insert_level ps (w_pages w)).
    + rewrite El. exact Hpages.
    + rewrite El, Hpages. apply NoDup_add; done.
    + intros z Hz. by left.
    + intros z Hz _ _. cbn. rewrite Hqp. apply lookup_insert_ne. intros <-. apply Hz. apply elem_of_app. right. eapply list_elem_of_lookup_2. by rewrite list_lookup_fmap, Hy.
    + change (supply (put_page w q)). apply supply_put; [exact Hsup|]. rewrite Hqp. by exists parent.
    + done.
    + done.
  - intros up p' i x Hup Hx. pose proof Hl as Hl2. rewrite <- Hup in Hl2. destruct (leads_inv ps _ _ up own l parts p' i _ _ x Hl2 Hparts Hx) as (_ & _ & z & k & part2 & Hz & Hlz & Hpz & Hi & ->).
    rewrite <- El, <- Eb. by eapply (leads_insert ps (w_pages w)).
  - intros up Hup. rewrite <- El.
    pose proof (lookup_lt_Some _ _ _ Hpart) as Hyl.
    replace b with (length (concat (take y (<[y:=part']> parts))) + sister_at (length P1) front)%nat by (rewrite take_insert_ge by lia; done).
    eapply (insert_leads ps (w_pages w)); try done; [by apply list_lookup_insert_eq|]. rewrite Hlen. lia.
Qed.
End direct.

(** ** The parent was split *)

(** Where an entry [i] of the page at [x] is after the page at [pos] got one at [newindx] and
    was cut in two behind [n] entries. *)
Definition destination (pos newindx n : nat) (replace : bool) (x i : nat) : nat * nat :=
  if decide (x = pos) then
    let i := if decide (newindx <= i)%nat then (if replace then i else S i) else i in
    if decide (i < n)%nat then (pos, i) else (S pos, i - n)%nat
  else (bump pos x, i).

Definition placed_at (pos newindx n : nat) : nat * nat :=
  if decide (newindx < n)%nat then (pos, newindx) else (S pos, newindx - n)%nat.

(** Another cursor of the table follows the entry that it is at. *)
Definition moved (w w2 : wtxn) (j : nat) (own : list Z) (l : list ref) (pos newindx limit n : nat) (replace : bool) (j' : nat) (own' : list Z) (l' : list ref)
  (m3 m3' : stack) : Prop :=
    (m3 = [] -> m3' = []) /\
  forall deep pg i up x, m3 = deep ++ (pg, i) :: up -> length up = j -> leads ps (w_pages w) (root (w_tree w)) up own l x ->
  l.*2 !! x = Some pg -> (x = pos -> i <= limit)%nat ->
  let d := destination pos newindx n replace x i in
  exists pg' up', m3' = deep ++ (pg', d.2) :: up' /\ length up' = j' /\ leads ps (w_pages w2) (root (w_tree w2)) up' own' l' d.1 /\
  l'.*2 !! d.1 = Some pg'.

Section recursive.
Context (w : wtxn) (j : nat) (own : list Z) (l : list ref) (parts : list (list ref)) (y : nat) (kp : list Z) (p : Z) (parent : page_t).
Context (P1 : list item) (child : item) (P2 : list item) (sep : list Z) (s : Z).
Context (Htree : tree_level w j own l) (Hparts : Forall2 (expands ps (w_pages w)) l parts) (Hy : l !! y = Some (kp, p)).
Context (Hp : w_pages w !! p = Some parent) (Hpp : page_pgno parent = p) (Hbr : branch_page ps parent (P1 ++ child :: P2)).
Context (Hnodup : NoDup ((own ++ l.*2) ++ (concat parts).*2)) (Hthere : forall z, z ∈ (concat parts).*2 -> is_Some (w_pages w !! z)).
Context (Hs : s ∉ own ++ l.*2) (Hs2 : s ∉ (concat parts).*2) (Hs3 : is_Some (w_pages w !! s)) (Hsep : good_key sep).
Context (w2 : wtxn) (sP : Z) (L R : list item) (x0 : item) (R0 : list item) (q1 q2 : page_t) (j2 : nat) (own2 : list Z).
Context (HLR : L ++ R = P1 ++ child :: mk_item s 0 sep [] :: P2) (HL : L <> []) (HR : R = x0 :: R0).
Abbreviation lp := (with_sister l y false kp p (it_key x0) sP).
Context (Hlink : linked w w2 j own l (S y) sP [p] j2 own2 lp) (HsP : w_pages w !! sP = None).
Context (Hq1 : w_pages w2 !! p = Some q1) (Hq1p : page_pgno q1 = p) (Hq1f : page_flags q1 = page_flags parent) (Hq1h : page_holds size q1 (headed false L)).
Context (Hq2 : w_pages w2 !! sP = Some q2) (Hq2p : page_pgno q2 = sP) (Hq2f : page_flags q2 = page_flags parent) (Hq2h : page_holds size q2 (headed false R)).
Abbreviation pos := (length (concat (take y parts)) + length P1)%nat.
Abbreviation lc := (with_sister (concat parts) pos false (label kp P1 child) (it_word child) sep s).
Abbreviation parts2 := (in_two parts y (relabel kp L) (relabel (it_key x0) (headed false R))).

Lemma rec_part : parts !! y = Some (relabel kp (P1 ++ child :: P2)).
Proof. by eapply direct_part. Qed.

Lemma rec_concat : concat parts2 = lc.
Proof.
  rewrite in_two_concat, HR, relabel_cut by done. rewrite <- HR, HLR.
  rewrite (relabel_sister kp P1 child P2 (mk_item s 0 sep [])). rewrite <- (concat_insert parts y (relabel kp (P1 ++ child :: P2))) by exact rec_part.
  apply with_sister_concat; [exact rec_part|]. rewrite relabel_length, length_app. cbn. lia.
Qed.

Lemma rec_items : Forall (moves bmax lmax false) (L ++ R) /\ Forall (fun it => Z.of_nat (length (it_key it)) <= keysize_max ps 0) (L ++ R) /\ one_keyless (L ++ R).
Proof.
  rewrite HLR. destruct Hbr as [H1 H2 H3 H4 H5 H6 H7]. pose proof (sister_moves sep s Hsep) as [Hm _]. destruct Hsep as [Hk1 Hk2].
  apply Forall_app in H5 as [M1 M2]. apply Forall_cons in M2 as [M2 M3]. apply Forall_app in H6 as [K1 K2]. apply Forall_cons in K2 as [K2 K3].
  split; [|split].
  - apply Forall_app. split; [done|]. by repeat (apply Forall_cons; split).
  - apply Forall_app. split; [done|]. by repeat (apply Forall_cons; split).
  - by apply one_keyless_insert.
Qed.

Lemma rec_halves : branch_page ps q1 (headed false L) /\ branch_page ps q2 (headed false R).
Proof.
  destruct rec_items as (Hm & Hk & Ho). apply Forall_app in Hm as [M1 M2]. apply Forall_app in Hk as [K1 K2].
  assert (Forall (fun x => it_key x <> []) (tail L) /\ Forall (fun x => it_key x <> []) R) as [T1 T2].
  { revert Ho HL. clear. destruct L as [|x l]; [done|]. cbn. intros [_ H] _. by apply Forall_app in H. }
  split; eapply (branch_page_part ps parent); try done; [by rewrite HR|]. rewrite HR in *. by apply Forall_cons in T2 as [_ T2].
Qed.

Lemma rec_level : Forall2 (expands ps (w_pages w2)) lp parts2.
Proof.
  destruct rec_halves as [B1 B2]. destruct Htree as [Hl Hn Ht].
  assert (forall r, r ∈ l -> r.2 <> p -> w_pages w2 !! r.2 = w_pages w !! r.2) as Hsame.
  { intros r Hr Hne. assert (r.2 ∈ l.*2) as Hr2 by by apply list_elem_of_fmap_2. apply (lk_frame _ _ _ _ _ _ _ _ _ _ _ Hlink); [|intros Hx; apply Hne; by apply list_elem_of_singleton in Hx|by apply Ht].
    intros Ho. apply NoDup_app in Hn as (_ & Hd & _). by apply (Hd _ Ho). }
  assert (forall r i, l !! i = Some r -> i <> y -> r.2 <> p) as Hother.
  { intros [k' p'] i Hi Hne Hr. cbn in Hr. subst p'. apply Hne. by eapply (only_there own l y kp p Hy Hn). }
  pose proof (lookup_lt_Some _ _ _ Hy) as Hlt. unfold with_sister. apply Forall2_app; [|apply Forall2_app].
  - apply Forall2_lookup. intros i. destruct (decide (i < y)%nat) as [Hi|Hi].
    + rewrite !lookup_take_lt by done. destruct (lookup_lt_is_Some_2 l i) as [r Hr]; [lia|]. rewrite Hr.
      destruct (Forall2_lookup_l _ _ _ _ _ Hparts Hr) as (part & -> & He). constructor. apply (expands_frame ps (w_pages w)); [|done].
      apply Hsame; [by eapply list_elem_of_lookup_2|]. eapply Hother; [done|lia].
    + rewrite !lookup_take_ge by lia. constructor.
  - apply Forall2_cons. split; [|apply Forall2_cons; split; [|done]].
    + exists q1. eexists. split; [done|]. split; [done|]. split; [done|]. by rewrite relabel_headed.
    + exists q2. eexists. by split.
  - apply Forall2_lookup. intros i. rewrite !lookup_drop. destruct (l !! (S y + i)%nat) as [r|] eqn:Hr.
    + destruct (Forall2_lookup_l _ _ _ _ _ Hparts Hr) as (part & -> & He). constructor. apply (expands_frame ps (w_pages w)); [|done].
      apply Hsame; [by eapply list_elem_of_lookup_2|]. eapply Hother; [done|lia].
    + rewrite lookup_ge_None_2; [constructor|]. rewrite <- (Forall2_length _ _ _ Hparts). by apply lookup_ge_None_1.
Qed.

Lemma rec_pos : concat parts !! pos = Some (label kp P1 child, it_word child).
Proof. rewrite (concat_position _ _ _ _ rec_part) by (rewrite relabel_length, length_app; cbn; lia). apply relabel_at. Qed.

Lemma rec_linked : linked w w2 (S j) (own ++ l.*2) (concat parts) (S pos) s [] (S j2) (own2 ++ lp.*2) lc.
Proof.
  destruct Hlink as [K1 K2 K3 K4 K5 K6 K7 K8]. destruct Htree as [Hl Hn Ht]. pose proof (lookup_lt_Some _ _ _ Hy) as Hlt.
  pose proof (with_sister_pages (concat parts) pos false (label kp P1 child) (it_word child) sep s rec_pos) as Hpages. cbn [sister_at] in Hpages.
  pose proof Hnodup as Hnd. apply NoDup_app in Hnd as (_ & Hd & Hn2).
  assert (forall z, z ∈ own2 ++ lp.*2 -> z ∈ own ++ l.*2 \/ w_pages w !! z = None) as Hown.
  { intros z [Hz|Hz]%elem_of_app; [destruct (K4 z Hz) as [Ho|]; [left; apply elem_of_app; by left|by right]|]. rewrite K2 in Hz.
    apply elem_of_app in Hz as [Hz|[->|Hz]%elem_of_cons]; [|by right|]; left; apply elem_of_app; right; rewrite <- (take_drop (S y) l.*2); apply elem_of_app; [by left|by right]. }
  split.
  - rewrite <- rec_concat. constructor; [exact K1|exact rec_level].
  - exact Hpages.
  - apply NoDup_app. split; [exact K3|]. split.
    + intros z Hz Hzc. rewrite Hpages in Hzc. assert (z = s \/ z ∈ (concat parts).*2) as Hc.
      { apply elem_of_app in Hzc as [Hc|[->|Hc]%elem_of_cons]; [|by left|]; right; rewrite <- (take_drop (S pos) (concat parts).*2); apply elem_of_app; [by left|by right]. }
      destruct (Hown z Hz) as [Ho|Ho].
      * destruct Hc as [-> |Hc]; [by apply Hs|by apply (Hd z)].
      * destruct Hc as [-> |Hc]; [rewrite Ho in Hs3; by destruct Hs3|apply Hthere in Hc; rewrite Ho in Hc; by destruct Hc].
    + rewrite Hpages. apply (NoDup_add []); [exact Hn2|by intros ?%elem_of_nil|exact Hs2].
  - exact Hown.
  - intros z Hz _ Hsome. apply K5; [intros Ho; apply Hz; apply elem_of_app; by left| |done].
    intros Hx. apply list_elem_of_singleton in Hx as ->. apply Hz. apply elem_of_app. right. eapply list_elem_of_lookup_2. by rewrite list_lookup_fmap, Hy.
  - exact K6.
  - exact K7.
  - lia.
Qed.

Lemma rec_lengths : (length L + length R)%nat = S (length (P1 ++ child :: P2)).
Proof. rewrite <- length_app, HLR, !length_app. cbn. lia. Qed.

(** The parts behind the cut and their positions. *)
Lemma rec_parts2 : parts2 !! y = Some (relabel kp L) /\ parts2 !! S y = Some (relabel (it_key x0) (headed false R)) /\
  length (concat (take y parts2)) = length (concat (take y parts)) /\ length (concat (take (S y) parts2)) = (length (concat (take y parts)) + length L)%nat.
Proof. rewrite <- (relabel_length kp L). apply in_two_at. exact (lookup_lt_Some _ _ _ rec_part). Qed.

Lemma rec_parts2_front z : (z < y)%nat -> parts2 !! z = parts !! z /\ take z parts2 = take z parts.
Proof. apply in_two_front. exact (lookup_lt_Some _ _ _ rec_part). Qed.

Lemma rec_parts2_behind z : (y < z)%nat ->
  parts2 !! S z = parts !! z /\ length (concat (take (S z) parts2)) = S (length (concat (take z parts))).
Proof.
  intros Hz. destruct (in_two_behind parts y (relabel kp L) (relabel (it_key x0) (headed false R)) _ z rec_part Hz) as [H1 H2]. split; [done|].
  rewrite !relabel_length, headed_length in H2. pose proof rec_lengths. lia.
Qed.

(** Where the children are found after the cut of their parent. *)
Lemma rec_position z part i : parts !! z = Some part -> (i < length part)%nat ->
  let d := destination y (S (length P1)) (length L) false z i in
  exists part', parts2 !! d.1 = Some part' /\ (d.2 < length part')%nat /\
  (length (concat (take d.1 parts2)) + d.2)%nat = bump (S pos) (length (concat (take z parts)) + i).
Proof.
  intros Hz Hi. destruct rec_parts2 as (E1 & E2 & E3 & E4). pose proof rec_lengths as Hl. pose proof rec_part as Hpart.
  assert (length (P1 ++ child :: P2) = length P1 + S (length P2))%nat as Hlp by by rewrite length_app.
  unfold destination. destruct (decide (z = y)) as [->|Hne].
  - rewrite Hpart in Hz. injection Hz as <-. rewrite relabel_length in Hi.
    set (i' := if decide (S (length P1) <= i)%nat then S i else i). assert (i' = bump (S (length P1)) i) as Ei by (unfold i', bump; repeat case_decide; lia).
    assert (i' < length L + length R)%nat as Hi' by (rewrite Ei; unfold bump; case_decide; lia).
    assert (bump (S pos) (length (concat (take y parts)) + i) = length (concat (take y parts)) + i')%nat as -> by (rewrite Ei; unfold bump; repeat case_decide; lia).
    destruct (decide (i' < length L)%nat) as [Hc|Hc]; cbn [fst snd].
    + eexists. split; [exact E1|]. rewrite relabel_length, E3. done.
    + eexists. split; [exact E2|]. rewrite relabel_length, headed_length, E4. lia.
  - cbn [fst snd]. unfold bump at 1 2 3. destruct (decide (z < y)%nat) as [Hc|Hc].
    + destruct (rec_parts2_front z Hc) as [-> ->]. exists part. split; [done|]. split; [done|].
      pose proof (concat_take_lt parts z y part Hz Hc). unfold bump. rewrite decide_True by lia. done.
    + pose proof (lookup_lt_Some _ _ _ Hz). destruct (rec_parts2_behind z) as [-> ->]; [lia|]. exists part. split; [done|]. split; [done|].
      pose proof (concat_take_lt parts y z _ Hpart ltac:(lia)) as Hlt. rewrite relabel_length in Hlt. unfold bump. rewrite decide_False by lia. lia.
Qed.

Lemma rec_leads up' pg' z i x : leads ps (w_pages w2) (root (w_tree w2)) up' own2 lp z -> lp.*2 !! z = Some pg' ->
  (exists part', parts2 !! z = Some part' /\ (i < length part')%nat /\ (length (concat (take z parts2)) + i)%nat = x) ->
  leads ps (w_pages w2) (root (w_tree w2)) ((pg', i) :: up') (own2 ++ lp.*2) lc x.
Proof.
  intros Hup Hz (part' & Hpart & Hi & <-). rewrite <- rec_concat. rewrite list_lookup_fmap in Hz. destruct (lp !! z) as [[k' p']|] eqn:Ez; [|done].
  cbn in Hz. injection Hz as ->. by eapply (leads_child _ _ _ _ _ _ _ _ part'); [|exact rec_level| | |].
Qed.

(** A stack to a child, moved with the split of the parent, leads to it again. *)
Lemma rec_follows up p3 i x deep m3' limit : length up = j -> (length (P1 ++ child :: P2) <= limit)%nat ->
  leads ps (w_pages w) (root (w_tree w)) ((p3, i) :: up) (own ++ l.*2) (concat parts) x ->
  moved w w2 j own l y (S (length P1)) limit (length L) false j2 own2 lp (deep ++ (p3, i) :: up) m3' ->
  exists e up', m3' = deep ++ e :: up' /\ length up' = j2 /\
  leads ps (w_pages w2) (root (w_tree w2)) (e :: up') (own2 ++ lp.*2) lc (bump (S pos) x) /\
  (x = pos -> e = (if decide (length P1 < length L)%nat then (p, length P1) else (sP, length P1 - length L)%nat)).
Proof.
  intros Hup Hlim Hx [_ Hm]. destruct Htree as [Hl Hn Ht]. pose proof Hl as Hl2. rewrite <- Hup in Hl2.
  destruct (leads_inv ps _ _ up own l parts p3 i _ _ x Hl2 Hparts Hx) as (_ & _ & z & k & part & Hz & Hlz & Hpz & Hi & ->).
  destruct (Hm deep p3 i up z eq_refl Hup Hz) as (pg' & up' & -> & Hlen & Hup' & Hpg).
  { by rewrite list_lookup_fmap, Hlz. }
  { intros ->. rewrite rec_part in Hpz. injection Hpz as <-. rewrite relabel_length in Hi. lia. }
  pose proof (rec_position z part i Hpz Hi) as Hpos. exists (pg', (destination y (S (length P1)) (length L) false z i).2), up'.
  split; [done|]. split; [done|]. split; [by eapply rec_leads|]. intros Ex.
  assert (z = y /\ i = length P1) as [-> ->].
  { pose proof rec_part as Hpart. destruct (decide (z = y)) as [->|Hne]; [split; [done|lia]|]. exfalso.
    assert (length P1 < length (relabel kp (P1 ++ child :: P2)))%nat by (rewrite relabel_length, length_app; cbn; lia).
    destruct (decide (z < y)%nat).
    - pose proof (concat_take_lt parts z y part Hpz ltac:(lia)). lia.
    - pose proof (concat_take_lt parts y z _ Hpart ltac:(lia)). lia. }
  destruct Hlink as [_ K2 _ _ _ _ _ _]. pose proof (lookup_lt_Some _ _ _ Hy) as Hlt.
  assert (lp.*2 !! y = Some p /\ lp.*2 !! S y = Some sP) as [Q1 Q2].
  { rewrite K2. assert (length (take (S y) l.*2) = S y) as El by (rewrite length_take, length_fmap; lia). split.
    - rewrite lookup_app_l by lia. rewrite lookup_take_lt by lia. by rewrite list_lookup_fmap, Hy.
    - rewrite lookup_app_r by lia. by rewrite El, Nat.sub_diag. }
  unfold destination in *. rewrite decide_True in * by done. rewrite (decide_False (P := (S (length P1) <= length P1)%nat)) in * by lia.
  destruct (decide (length P1 < length L)%nat); cbn [fst snd] in *; congruence.
Qed.

(** The stack to the new child. *)
Lemma rec_new up' pg' : let d := placed_at y (S (length P1)) (length L) in
  leads ps (w_pages w2) (root (w_tree w2)) up' own2 lp d.1 -> lp.*2 !! d.1 = Some pg' ->
  leads ps (w_pages w2) (root (w_tree w2)) ((pg', d.2) :: up') (own2 ++ lp.*2) lc (S pos).
Proof.
  intros d Hup Hpg. eapply rec_leads; [exact Hup|exact Hpg|]. unfold d, placed_at. destruct rec_parts2 as (E1 & E2 & E3 & E4). pose proof rec_lengths as Hl.
  assert (length (P1 ++ child :: P2) = length P1 + S (length P2))%nat as Hlp by by rewrite length_app.
  case_decide; cbn [fst snd]; eexists; (split; [eassumption|]); rewrite relabel_length, ?headed_length, ?E3, ?E4; lia.
Qed.
End recursive.
End link.
