(* ===== verification/SplitTreeClose.v ===== *)
(** * The split of pages up to the root: the cursors and the end of a split *)

From S2P Require Import Prelude Meta Cmp CmpProps Page PageFacts PageOps PageProps Limits LimitsProps Split SplitFacts SplitMove SplitKey SplitProps SplitTree SplitTreeFacts SplitTreeLink.

(** ** One turn of the loop over the cursors *)

Section adjust.
Context (hole s : Z) (newindx n : nat) (front replace : bool) (mc mn deep : stack).

Definition index_moved (i : nat) : nat := if decide (newindx <= i)%nat then (if replace then i else S i) else i.

Lemma adjust_here did up i : length mc = S (length up) -> front = false ->
  adjust_levels hole s newindx n front replace did mc mn (deep ++ (hole, i) :: up) =
  if decide (n <= index_moved i)%nat then deep ++ (s, index_moved i - n)%nat :: mn else deep ++ (hole, index_moved i) :: up.
Proof.
  intros Hl ->. unfold adjust_levels. rewrite length_app. cbn [length]. rewrite Hl.
  replace (length deep + S (length up) - S (length up))%nat with (length deep) by lia.
  rewrite lookup_app_r, Nat.sub_diag by lia. cbn [lookup list_lookup]. rewrite bool_decide_true, bool_decide_true by (done || lia). cbn [andb negb].
  fold (index_moved i). case_decide.
  - by rewrite take_app_length.
  - rewrite insert_app_r_alt by lia. by rewrite Nat.sub_diag.
Qed.

Lemma adjust_elsewhere up pg i : length mc = S (length up) -> pg <> hole ->
  adjust_levels hole s newindx n front replace true mc mn (deep ++ (pg, i) :: up) = deep ++ (pg, i) :: up.
Proof.
  intros Hl Hpg. unfold adjust_levels. rewrite length_app. cbn [length]. rewrite Hl.
  replace (length deep + S (length up) - S (length up))%nat with (length deep) by lia.
  rewrite (lookup_app_r deep), Nat.sub_diag by lia. cbn [lookup list_lookup]. rewrite (bool_decide_false (pg = hole)) by done. rewrite andb_false_r. cbn [andb negb].
  by destruct (_ !! _) as [[? ?]|], (mc !! 1%nat) as [[? ?]|].
Qed.

(** A page of another part of the tree or, with the sister in front, the page itself: its index in the parent. *)
Lemma adjust_parent up pg i p3 i3 p k : length mc = S (S (length up)) -> mc !! 1%nat = Some (p, k) -> pg <> hole \/ front = true ->
  adjust_levels hole s newindx n front replace false mc mn (deep ++ (pg, i) :: (p3, i3) :: up) =
  deep ++ (pg, i) :: (p3, if decide (p3 = p /\ k <= i3)%nat then S i3 else i3) :: up.
Proof.
  intros Hl Hmc Hpg. unfold adjust_levels. rewrite length_app. cbn [length]. rewrite Hl, Hmc.
  replace (length deep + S (S (length up)) - S (S (length up)))%nat with (length deep) by lia.
  replace (length deep + S (S (length up)) - (S (S (length up)) - 1))%nat with (length deep + 1)%nat by lia.
  rewrite (lookup_app_r deep), Nat.sub_diag by lia. rewrite (lookup_app_r deep) by lia. replace (length deep + 1 - length deep)%nat with 1%nat by lia.
  cbn [lookup list_lookup].
  assert (bool_decide (S (S (length up)) <= length deep + S (S (length up)))%nat && bool_decide (pg = hole) && negb front = false) as ->.
  { destruct Hpg as [Hpg | ->]; [rewrite (bool_decide_false (pg = hole)) by done; by rewrite andb_false_r|by rewrite andb_false_r]. }
  rewrite (bool_decide_true (_ - 1 <= _)%nat) by lia. cbn [andb negb].
  destruct (decide (p3 = p /\ k <= i3)%nat) as [[-> Hk]|Hk].
  - rewrite bool_decide_true, bool_decide_true by done. cbn [andb]. rewrite insert_app_r_alt by lia. by replace (length deep + 1 - length deep)%nat with 1%nat by lia.
  - destruct (bool_decide (p3 = p)) eqn:E1, (bool_decide (k <= i3)%nat) eqn:E2; try done.
    apply bool_decide_eq_true in E1. apply bool_decide_eq_true in E2. by destruct Hk.
Qed.
End adjust.

Lemma adjust_none hole s newindx n front replace did mc mn root : adjust_cursor root hole s newindx n front replace did mc mn [] = [].
Proof. done. Qed.

Lemma adjust_no_root hole s newindx n front replace did mc mn m3 : m3 <> [] ->
  adjust_cursor None hole s newindx n front replace did mc mn m3 = adjust_levels hole s newindx n front replace did mc mn m3.
Proof. intros H. unfold adjust_cursor. destruct (last m3) as [[pg ki]|] eqn:E; [done|]. by apply last_None in E. Qed.

(** With a new root the stack gets its entry; on the page that was split the index there is replaced when it matters. *)
Lemma adjust_new_root hole s newindx n (front replace : bool) mc mn root deep i :
  length mc = 2%nat -> (front = true -> i <= n)%nat ->
  adjust_cursor (Some root) hole s newindx n front replace false mc mn (deep ++ [(hole, i)]) =
  adjust_levels hole s newindx n front replace false mc mn (deep ++ [(hole, i); (root, 0%nat)]).
Proof.
  intros Hl Hi. unfold adjust_cursor. rewrite last_snoc, decide_False by (intros H; by apply H). rewrite <- app_assoc. cbn [app].
  destruct front.
  - rewrite decide_False by (specialize (Hi eq_refl); lia). done.
  - case_decide as Hc; [|done]. rewrite !adjust_here by done.
    assert (n <= index_moved newindx replace i)%nat as Hm; [|by rewrite !decide_True by done].
    unfold index_moved. repeat case_decide; destruct replace; lia.
Qed.

(** ** Stacks to the same entry, and to the next *)

Section stacks.
Context (ps : Z) (m : gmap Z page_t) (root : Z).

Lemma leads_page up own l x p i : leads ps m root ((p, i) :: up) own l x ->
  exists own0 l0 parts y k part, own = own0 ++ l0.*2 /\ l = concat parts /\ leads ps m root up own0 l0 y /\ Forall2 (expands ps m) l0 parts /\
  l0 !! y = Some (k, p) /\ parts !! y = Some part /\ (i < length part)%nat /\ x = (length (concat (take y parts)) + i)%nat.
Proof. intros H. inversion H; subst. do 6 eexists. split_and!; done. Qed.

(** The page on top of a stack of a given height and its index are those of the entry. *)
Lemma leads_top p1 i1 up1 p2 i2 up2 own l x own2 l2 x2 : length up1 = length up2 -> NoDup own ->
  leads ps m root ((p1, i1) :: up1) own l x -> leads ps m root ((p2, i2) :: up2) own2 l2 x2 ->
  own2 = own /\ l2 = l /\ (x = x2 <-> p1 = p2 /\ i1 = i2) /\
  (p1 = p2 -> (i1 <= i2 -> x2 = x + (i2 - i1))%nat).
Proof.
  intros Hlen Hnd H1 H2. destruct (leads_page _ _ _ _ _ _ H1) as (own0 & l0 & parts & y & k & part & -> & -> & Hup & Hp & Hy & Hpart & Hi & ->).
  pose proof (proj1 (leads_level _ _ _ _ _ _ _ Hup)) as Hl. rewrite Hlen in Hl.
  destruct (leads_inv ps _ _ up2 _ _ _ _ _ _ _ _ Hl Hp H2) as (-> & -> & z & k2 & part2 & Hup2 & Hz & Hpart2 & Hi2 & ->).
  split; [done|]. split; [done|]. apply NoDup_app in Hnd as (_ & _ & Hnd).
  assert (p1 = p2 -> y = z) as Hyz.
  { intros ->. eapply (NoDup_lookup _ _ _ p2 Hnd); rewrite list_lookup_fmap; [by rewrite Hy|by rewrite Hz]. }
  split; [split|].
  - intros E. destruct (decide (y = z)) as [->|Hne].
    + rewrite Hy in Hz. injection Hz as -> ->. split; [done|lia].
    + exfalso. destruct (decide (y < z)%nat).
      * pose proof (concat_take_lt parts y z _ Hpart ltac:(lia)). lia.
      * pose proof (concat_take_lt parts z y _ Hpart2 ltac:(lia)). lia.
  - intros [-> ->]. by rewrite Hyz.
  - intros E Hle. rewrite <- (Hyz E). lia.
Qed.

(** From an entry to the next one: in the same page, or where another stack leads. *)
Lemma leads_next p k rest q i mn own l x : length rest = length mn -> NoDup own ->
  leads ps m root ((p, k) :: rest) own l x -> leads ps m root ((q, i) :: mn) own l (S x) ->
  exists page items, m !! p = Some page /\ branch_page ps page items /\
  if decide (S k < length items)%nat then leads ps m root ((p, S k) :: rest) own l (S x) else q <> p.
Proof.
  intros Hlen Hnd H1 H2. pose proof H1 as H1'. destruct (leads_page _ _ _ _ _ _ H1) as (own0 & l0 & parts & y & kp & part & -> & -> & Hup & Hp & Hy & Hpart & Hi & ->).
  destruct (Forall2_lookup_l _ _ _ _ _ Hp Hy) as (part' & Hpart' & (page & items & Hm & _ & Hb & ->)). rewrite Hpart in Hpart'. injection Hpart' as ->.
  rewrite relabel_length in Hi. exists page, items. split; [done|]. split; [done|]. case_decide as Hk.
  - replace (S (length (concat (take y parts)) + k)) with (length (concat (take y parts)) + S k)%nat by lia.
    econstructor; try done. by rewrite relabel_length.
  - intros ->. pose proof (proj1 (leads_level _ _ _ _ _ _ _ Hup)) as Hl. rewrite Hlen in Hl.
    destruct (leads_inv ps _ _ mn _ _ _ _ _ _ _ _ Hl Hp H2) as (_ & _ & z & k2 & part2 & Hup2 & Hz & Hpart2 & Hi2 & Ex).
    apply NoDup_app in Hnd as (_ & _ & Hnd).
    assert (z = y) as ->. { eapply (NoDup_lookup _ _ _ p Hnd); rewrite list_lookup_fmap; [by rewrite Hz|by rewrite Hy]. }
    rewrite Hpart in Hpart2. injection Hpart2 as <-. rewrite relabel_length in Hi2. lia.
Qed.

Lemma leads_there up own l x : leads ps m root up own l x -> forall e, e ∈ up -> e.1 ∈ own.
Proof.
  induction 1 as [|up own l x parts part k p i H IH Hp Hx Hpart Hi]; intros e; [by intros ?%elem_of_nil|].
  intros [->|He]%elem_of_cons; apply elem_of_app; [|by left; apply IH]. right. eapply list_elem_of_lookup_2. cbn. by rewrite list_lookup_fmap, Hx.
Qed.
End stacks.

(** ** The end of a split *)

Section close.
Context (gc_alloc_single : nat -> Z + page_t) (page_shadow_alloc : nat -> option page_t) (page_new_large : Z -> Z + Z).
Context (ps ps2ln reserve_factor : Z) (prefer_waf : bool).
Abbreviation bmax := (BRANCH_NODE_MAX ps).
Abbreviation lmax := (LEAF_NODE_MAX ps).
Abbreviation size := (Z.to_nat (PAGESPACE ps)).
Abbreviation supply := (supply gc_alloc_single).
Abbreviation linked := (linked gc_alloc_single ps).

(** What a split of the page [mp] at the entry [pos] of level [j] leaves: the items in two pages next to
    each other in the tree, and the other cursors at the entries they were at. *)
Record split_succeeds (w : wtxn) (others : list stack) (j : nat) (own : list Z) (l : list ref) (pos : nat) (kh : list Z) (mp : page_t)
    (I1 I2 : list item) (new : add_t) (itnew : item) (o : split_result)
    (s : Z) (sep : list Z) (L R : list item) (front : bool) (j' : nat) (own' : list Z) (l' : list ref) : Prop := {
  ss_rc : r_rc o = MDBX_SUCCESS;
  ss_items : L ++ R = I1 ++ itnew :: I2;
  ss_left : L <> [];
  ss_right : exists x R', R = x :: R' /\ it_key x = sep;
  ss_front : front = true -> I1 = [] /\ L = [itnew] /\ is_leaf mp = true;
  ss_fresh : w_pages w !! s = None;
  ss_refs : l' = with_sister l pos front kh (page_pgno mp) sep s;
  ss_linked : linked w (r_txn o) j own l (sister_at pos front) s [page_pgno mp] j' own' l';
  ss_pages : forall (right_ : bool), exists q, let pgno := if xorb front right_ then s else page_pgno mp in
    w_pages (r_txn o) !! pgno = Some q /\ page_pgno q = pgno /\ page_flags q = page_flags mp /\
    page_holds size q (headed (is_leaf mp) (if right_ then R else L));
  ss_others : Forall2 (moved ps w (r_txn o) j own l pos (length I1) (length (I1 ++ I2)) (length L) (replaces (ad_flags new)) j' own' l') others (r_others o);
  ss_mc : I2 <> [] \/ is_leaf mp = false ->
    let d := placed_at pos (length I1) (length L) in
    exists pg up', r_mc o = (pg, d.2) :: up' /\ length up' = j' /\ leads ps (w_pages (r_txn o)) (root (w_tree (r_txn o))) up' own' l' d.1 /\
      l'.*2 !! d.1 = Some pg
}.

Context (w : wtxn) (others : list stack) (j : nat) (own : list Z) (l : list ref) (pos : nat) (kh : list Z) (mp parent : page_t) (path : list Z).
Context (I1 I2 : list item) (new : add_t) (itnew : item) (c : cut_t) (w1 : wtxn).
Abbreviation hole := (page_pgno mp).
Abbreviation s := (page_pgno (ct_sister c)).
Abbreviation front := (match ct_how c with pure_left => true | _ => false end).
Context (Htree : tree_level ps w j own l) (Hpos : l !! pos = Some (kh, hole)).
Context (Hopen : opened_cut gc_alloc_single page_new_large ps ps2ln w mp parent path I1 I2 new itnew c w1).
Context (w2 : wtxn) (j' : nat) (own' : list Z).
Abbreviation l' := (with_sister l pos front kh hole (ct_sepkey c) s).
Context (Hlink : linked w1 w2 j own l (sister_at pos front) s [] j' own' l').
Context (up mn : stack) (Hup : leads ps (w_pages w2) (root (w_tree w2)) up own' l' pos) (Hupl : length up = j') (Hj1 : (1 <= j')%nat).
Context (Hmn : front = false -> leads ps (w_pages w2) (root (w_tree w2)) mn own' l' (S pos)) (Hmnl : length mn = length up).

Lemma hole_there : hole ∉ own /\ is_Some (w_pages w !! hole) /\ hole ∈ l.*2.
Proof.
  destruct Htree as [_ Hn Ht]. assert (hole ∈ l.*2) as Hin by (eapply list_elem_of_lookup_2; by rewrite list_lookup_fmap, Hpos).
  split; [|split; [by apply Ht|done]]. intros Ho. apply NoDup_app in Hn as (_ & Hd & _). by apply (Hd hole).
Qed.

Lemma close_sister : s ∉ own /\ s <> hole.
Proof.
  destruct Hopen as (_ & Hs & _). destruct hole_there as (_ & [q Hh] & _). split; [|intros E; rewrite E, Hh in Hs; done].
  intros Ho. destruct Htree as [Hl _ _]. destruct (level_there ps _ _ _ _ _ Hl s Ho) as [x Hx]. by rewrite Hs in Hx.
Qed.

Lemma close_pages : w_pages w2 !! hole = Some (ct_mp c) /\ w_pages w2 !! s = Some (ct_sister c) /\ hole ∉ own' /\ s ∉ own'.
Proof.
  destruct Hopen as (_ & Hs & Hw1 & _). destruct hole_there as (Hh & Hh2 & Hin). destruct close_sister as [Hs1 Hs2].
  destruct Hlink as [_ K2 K3 _ K5 _ _ _].
  assert (w_pages w1 !! hole = Some (ct_mp c)) as E1 by (rewrite Hw1, lookup_insert_ne by done; by apply lookup_insert_eq).
  assert (w_pages w1 !! s = Some (ct_sister c)) as E2 by (rewrite Hw1; by apply lookup_insert_eq).
  split; [rewrite K5; [done|done|by intros ?%elem_of_nil|by eexists]|]. split; [rewrite K5; [done|done|by intros ?%elem_of_nil|by eexists]|].
  apply NoDup_app in K3 as (_ & Hd & _). rewrite K2 in Hd. split; intros Ho; apply (Hd _ Ho); apply elem_of_app.
  - rewrite <- (take_drop (sister_at pos front) l.*2) in Hin. apply elem_of_app in Hin as [Hin|Hin]; [by left|]. right. by right.
  - right. by left.
Qed.

(** The state at the end, when the nodes have come to [r]. *)
Context (r : split_t) (L R : list item) (fresh : page_t).
Context (Hdist : distributed ps mp I1 I2 new itnew (w_flags w) fresh c r L R) (Hfresh : page_pgno fresh = s).
Abbreviation w3 := (with_flags (put_page (put_page w2 (sp_mp r)) (sp_sister r)) (sp_txn_flags r)).

Lemma close_w3 z : z <> hole -> z <> s -> w_pages w3 !! z = w_pages w2 !! z.
Proof.
  intros H1 H2. destruct Hdist as (_ & _ & _ & _ & _ & _ & D7 & D8 & _). cbn. rewrite D7, D8, Hfresh. by rewrite !lookup_insert_ne.
Qed.

Lemma close_own z : z ∈ own' -> w_pages w3 !! z = w_pages w2 !! z.
Proof. intros Hz. destruct close_pages as (_ & _ & H1 & H2). apply close_w3; by intros ->. Qed.

Lemma close_linked : linked w w3 j own l (sister_at pos front) s [hole] j' own' l'.
Proof.
  destruct Hopen as (_ & Hs & Hw1 & _ & Ht1 & [Hr1 Hr2] & _). destruct Hlink as [K1 K2 K3 K4 K5 K6 K7 K8].
  destruct Hdist as (_ & D2 & _ & _ & _ & _ & D7 & D8 & _). destruct close_pages as (P1 & P2 & P3 & P4). split.
  - cbn [w_tree with_flags put_page with_pages]. apply (level_frame ps (w_pages w2)); [exact close_own|exact K1].
  - exact K2.
  - exact K3.
  - intros z Hz. destruct (K4 z Hz) as [|Hn]; [by left|]. right. rewrite Hw1 in Hn.
    apply lookup_insert_None in Hn as [Hn Hn2]. by apply lookup_insert_None in Hn as [Hn _].
  - intros z Hz Hz2 Hz3. assert (z <> hole) as Hne by (intros ->; apply Hz2; by apply list_elem_of_singleton).
    assert (z <> s) as Hne2 by (intros ->; rewrite Hs in Hz3; by destruct Hz3). rewrite close_w3 by done.
    assert (w_pages w1 !! z = w_pages w !! z) as E by (rewrite Hw1; by rewrite !lookup_insert_ne).
    rewrite K5; [done|done|by intros ?%elem_of_nil|by rewrite E].
  - assert (is_Some (w_pages w2 !! page_pgno (sp_mp r))) as S1 by (rewrite D7, P1; by eexists).
    apply (supply_put gc_alloc_single (put_page w2 (sp_mp r))); [by apply supply_put|]. cbn. rewrite D8, Hfresh, D7.
    destruct close_sister as [_ Hne]. rewrite lookup_insert_ne by done. rewrite P2. by eexists.
  - destruct K7 as (A1 & A2 & A3), Ht1 as (B1 & B2 & B3). unfold same_tree. cbn. split; [done|]. split; congruence.
  - cbn. lia.
Qed.

Lemma close_holds (right_ : bool) : exists q, let pgno := if xorb front right_ then s else hole in
  w_pages w3 !! pgno = Some q /\ page_pgno q = pgno /\ page_flags q = page_flags mp /\
  page_holds size q (headed (is_leaf mp) (if right_ then R else L)).
Proof.
  destruct Hdist as (_ & _ & _ & _ & _ & D6 & D7 & D8 & _ & _ & D11 & D12). destruct close_sister as [_ Hne].
  assert (w_pages w3 !! s = Some (sp_sister r)) as Q1 by (cbn; rewrite D8, Hfresh; by apply lookup_insert_eq).
  assert (w_pages w3 !! hole = Some (sp_mp r)) as Q2 by (cbn; rewrite D8, Hfresh, lookup_insert_ne, D7 by done; by apply lookup_insert_eq).
  rewrite Hfresh in D8. destruct (ct_how c), right_; cbn [xorb];
    (exists (sp_sister r); split; [exact Q1|]; split; [done|]; split; [done|]; tauto) || (exists (sp_mp r); split; [exact Q2|]; split; [done|]; split; [done|]; tauto).
Qed.

Lemma close_leads t x : leads ps (w_pages w2) (root (w_tree w2)) t own' l' x -> leads ps (w_pages w3) (root (w_tree w3)) t own' l' x.
Proof. intros H. cbn [w_tree with_flags put_page with_pages]. apply (leads_frame ps (w_pages w2)); [exact close_own|exact H]. Qed.

(** The way to the sister is found. *)
Lemma close_step_right : front = false -> exists t, step_right w3 up mn = Some t /\ length t = length up /\ (t = mn \/ exists p k rest, up = (p, k) :: rest /\ t = (p, S k) :: rest) /\
  leads ps (w_pages w3) (root (w_tree w3)) t own' l' (S pos).
Proof.
  intros Hf. specialize (Hmn Hf). destruct up as [|[p k] rest] eqn:Eu; [cbn in Hupl; lia|]. destruct mn as [|[q i] mn'] eqn:Em; [done|].
  pose proof (lk_nodup _ _ _ _ _ _ _ _ _ _ _ _ _ Hlink) as Hn. apply NoDup_app in Hn as (Hn & _ & _).
  destruct (leads_next ps (w_pages w2) (root (w_tree w2)) p k rest q i mn' own' l' pos) as (page & items & Hp & Hb & Hk); [injection Hmnl; lia|done|done|done|].
  assert (p ∈ own') as Hpo by (apply (leads_there ps _ _ _ _ _ _ Hup (p, k)); by left).
  unfold step_right, nkeys_of. rewrite close_own, Hp by done. cbn [fmap option_fmap option_map mbind option_bind].
  rewrite (page_numkeys_holds _ _ _ (bp_holds _ _ _ Hb)). destruct (decide (S k < length items)%nat) as [Hlt|Hge].
  - rewrite (bool_decide_false (_ <= _)%nat) by lia. rewrite andb_false_r. eexists. split; [done|]. split; [done|]. split; [right; by exists p, k, rest|]. by apply close_leads.
  - rewrite bool_decide_true, bool_decide_true by (done || lia). cbn [andb]. eexists. split; [done|]. split; [exact Hmnl|]. split; [by left|]. by apply close_leads.
Qed.

(** What the loop over the cursors gives, for each stack that [mc] may have at the end. *)
Abbreviation nleft := (if front then length R else length L).
Definition adjusted (root_split : option Z) (did : bool) (others2 : list stack) : Prop :=
  forall mc, length mc = S (length up) ->
  (did = true \/ tail mc = up \/ front = false /\ (tail mc = mn \/ exists p k rest, up = (p, k) :: rest /\ tail mc = (p, S k) :: rest)) ->
  Forall2 (fun m3 m3' => moved ps w w2 j own l pos (length I1) (length (I1 ++ I2)) (length L) (replaces (ad_flags new)) j' own' l' m3
    (adjust_cursor root_split hole s (length I1) nleft front (replaces (ad_flags new)) did mc mn m3')) others others2.

Lemma moved_close m3 m3' : moved ps w w2 j own l pos (length I1) (length (I1 ++ I2)) (length L) (replaces (ad_flags new)) j' own' l' m3 m3' ->
  moved ps w w3 j own l pos (length I1) (length (I1 ++ I2)) (length L) (replaces (ad_flags new)) j' own' l' m3 m3'.
Proof.
  intros [H1 H2]. split; [done|]. intros deep pg i up3 x E Hl Hx Hpg Hlim. destruct (H2 deep pg i up3 x E Hl Hx Hpg Hlim) as (pg' & up' & -> & Hl' & Hu & Hp).
  exists pg', up'. split; [done|]. split; [done|]. split; [by apply close_leads|done].
Qed.

Lemma close_spec root_split did others2 :
  split_finish page_new_large ps ps2ln bmax lmax (t_flags (w_tree w)) (dupfix_size (w_tree w)) c (length I1) new (w_flags w) = Some r ->
  length (I1 ++ I2) <> O -> adjusted root_split did others2 -> (did = false -> exists p k rest, up = (p, k) :: rest /\ (front = false -> mn = (p, S k) :: rest)) ->
  exists o, split_close page_new_large ps ps2ln bmax lmax w2 others2 root_split did c hole (length I1) new up mn = Some o /\
  split_succeeds w others j own l pos kh mp I1 I2 new itnew o s (ct_sepkey c) L R front j' own' l'.
Proof.
  intros Hfin Hne Hadj Hdid. destruct close_pages as (P1 & P2 & P3 & P4). pose proof Hdist as (D1 & D2 & D3 & D4 & D5 & D6 & D7 & D8 & _).
  pose proof (lk_tree _ _ _ _ _ _ _ _ _ _ _ _ _ close_linked) as (T1 & T2 & T3). cbn in T1, T2, T3.
  assert (w_flags w2 = w_flags w) as T0.
  { destruct (lk_tree _ _ _ _ _ _ _ _ _ _ _ _ _ Hlink) as (A1 & _). destruct Hopen as (_ & _ & _ & _ & (B1 & _) & _). congruence. }
  unfold split_close. rewrite P1, P2. cbn [mbind option_bind].
  assert (mk_cut (ct_how c) (ct_mp c) (ct_sister c) (ct_sepkey c) (ct_right c) (ct_ki c) (ct_tmp c) = c) as -> by by destruct c.
  rewrite T0, T2, T3, Hfin. cbn [mbind option_bind]. rewrite D1, decide_False by (intros H; by apply H).
  assert (length (L ++ R) = S (length (I1 ++ I2))) as Hlen by (rewrite D3, !length_app; cbn; lia). rewrite length_app in Hlen.
  assert (nkeys_of w3 hole = Some nleft) as Hn.
  { unfold nkeys_of. destruct (close_holds (match ct_how c with pure_left => true | _ => false end)) as (q & Hq & _ & _ & Hh). rewrite xorb_nilpotent in Hq.
    rewrite Hq. cbn [fmap option_fmap option_map]. rewrite (page_numkeys_holds _ _ _ Hh), headed_length. by destruct (ct_how c). }
  assert (forall mc, length mc = S (length up) -> (did = true \/ tail mc = up \/ front = false /\ (tail mc = mn \/ exists p k rest, up = (p, k) :: rest /\ tail mc = (p, S k) :: rest)) ->
    (I2 <> [] \/ is_leaf mp = false -> let d := placed_at pos (length I1) (length L) in
    exists pg up', mc = (pg, d.2) :: up' /\ length up' = j' /\ leads ps (w_pages w3) (root (w_tree w3)) up' own' l' d.1 /\ l'.*2 !! d.1 = Some pg) ->
    exists o, Some (mk_result MDBX_SUCCESS w3 (adjust_cursor root_split hole s (length I1) nleft front (replaces (ad_flags new)) did mc mn <$> others2) mc (sp_large r) (sp_reserved r)) = Some o /\
    split_succeeds w others j own l pos kh mp I1 I2 new itnew o s (ct_sepkey c) L R front j' own' l') as Hdone.
  { intros mc Hmcl Hmct Hmc. eexists. split; [done|]. destruct Hopen as (_ & Hs & _). split; cbn [r_rc r_txn r_others r_mc]; try done.
    - intros Hf. destruct (ct_how c); try done. destruct D6 as (_ & _ & _ & _ & E1 & E2 & _ & E3). done.
    - exact close_linked.
    - exact close_holds.
    - apply Forall2_fmap_r. eapply Forall2_impl; [exact (Hadj mc Hmcl Hmct)|]. intros m3 m3' Hm. by apply moved_close. }
  pose proof (with_sister_pages l pos front kh hole (ct_sepkey c) s Hpos) as Hpages. pose proof (lookup_lt_Some _ _ _ Hpos) as Hlt.
  assert (l.*2 !! pos = Some hole) as Hph by by rewrite list_lookup_fmap, Hpos.
  assert (length l.*2 = length l) as Hll by apply length_fmap.
  assert (front = false -> l'.*2 !! pos = Some hole /\ l'.*2 !! S pos = Some s) as Hat.
  { intros Hf. rewrite Hpages, Hf. cbn [sister_at]. split.
    - rewrite lookup_app_l by (rewrite length_take; lia). by rewrite lookup_take_lt by lia.
    - rewrite lookup_app_r by (rewrite length_take; lia). rewrite length_take. by replace (S pos - S pos `min` length l.*2)%nat with O by lia. }
  assert (forall si, ct_how c = halves si -> forall (right_ : bool) ki, (if right_ then length L + ki else ki)%nat = length I1 -> (right_ = false -> ki < length L)%nat ->
    placed_at pos (length I1) (length L) = (if right_ then S pos else pos, ki)) as Hplace.
  { intros si _ right_ ki H1 H2. unfold placed_at. destruct right_; [rewrite decide_False by lia; f_equal; lia|rewrite decide_True by (rewrite <- H1; by apply H2)]. by subst. }
  pose proof close_step_right as Hcs. pose proof close_leads as Hcl.
  destruct (ct_how c) as [| |si] eqn:Eh.
  - (* a pure page behind the others *)
    cbn [mbind option_bind]. rewrite Hn. cbn [mbind option_bind].
    destruct D6 as (_ & _ & D61 & D62 & D63). destruct (D63 eq_refl) as (D64 & D65 & _).
    apply Hdone.
    + cbn [length]. rewrite length_zip_with, !length_fmap. lia.
    + destruct did; [by left|]. right. right. split; [done|]. left. cbn [tail]. destruct (Hdid eq_refl) as (p & k & rest & -> & Em).
      rewrite (Em eq_refl). cbn. f_equal. clear. induction rest as [|[a b'] rest IH]; [done|]. cbn. by f_equal.
    + intros [Hc|Hc]; [|congruence]. exfalso. rewrite D64 in D3. destruct (sp_right r) eqn:Er.
      * apply (f_equal length) in D3. rewrite !length_app in D3. cbn in D3. destruct I2; [done|]. cbn in *. lia.
      * destruct (D63 eq_refl) as (_ & _ & D66). congruence.
  - (* a pure page in front *)
    cbn [mbind option_bind]. rewrite Hn. cbn [mbind option_bind]. destruct D6 as (_ & _ & _ & _ & D61 & D62 & _).
    apply Hdone; [done|by right; left|]. intros _. assert (placed_at pos (length I1) (length L) = (pos, 0%nat)) as -> by by rewrite D61, D62. cbn [fst snd]. exists s, up. split; [done|]. split; [lia|]. split; [by apply Hcl|].
    rewrite Hpages. cbn [sister_at]. rewrite lookup_app_r by (rewrite length_take; lia). rewrite length_take. by replace (pos - pos `min` length l.*2)%nat with O by lia.
  - (* two halves *)
    destruct D6 as (_ & _ & D61 & D62 & _). pose proof (Hplace si eq_refl (sp_right r) (sp_ki r) D61 D62) as Hd. destruct (Hat eq_refl) as [H1 H2].
    destruct (sp_right r) eqn:Er.
    + destruct (Hcs eq_refl) as (t & Et & Etl & Etc & Ht). rewrite Et. cbn [mbind option_bind]. rewrite Hn. cbn [mbind option_bind].
      apply Hdone; [cbn; by rewrite Etl|right; right; by split|]. intros _. rewrite Hd. cbn [fst snd]. exists s, t. split; [done|]. split; [lia|]. by split.
    + cbn [mbind option_bind]. rewrite Hn. cbn [mbind option_bind].
      apply Hdone; [done|by right; left|]. intros _. rewrite Hd. cbn [fst snd]. exists hole, up. split; [done|]. split; [lia|]. split; [by apply Hcl|done].
Qed.

(** ** The other cursors *)

Lemma close_entry x pg : l.*2 !! x = Some pg -> l'.*2 !! bump (sister_at pos front) x = Some pg.
Proof.
  intros Hx. pose proof (lookup_lt_Some _ _ _ Hx) as Hxl. pose proof (lookup_lt_Some _ _ _ Hpos) as Hlt. rewrite length_fmap in Hxl.
  rewrite (with_sister_pages l pos front kh hole (ct_sepkey c) s Hpos). set (b := sister_at pos front).
  assert (b <= length l.*2)%nat as Hb by (rewrite length_fmap; unfold b, sister_at; destruct (ct_how c); lia).
  unfold bump. case_decide.
  - rewrite lookup_app_l by (rewrite length_take; lia). by rewrite lookup_take_lt.
  - rewrite lookup_app_r by (rewrite length_take; lia). rewrite length_take, Nat.min_l by lia.
    replace (S x - b)%nat with (S (x - b)) by lia. change ((s :: drop b l.*2) !! S (x - b)) with (drop b l.*2 !! (x - b)%nat). rewrite lookup_drop. by replace (b + (x - b))%nat with x by lia.
Qed.

Lemma close_at_pos : (front = false -> l'.*2 !! pos = Some hole /\ l'.*2 !! S pos = Some s) /\ (front = true -> l'.*2 !! S pos = Some hole).
Proof.
  assert (l.*2 !! pos = Some hole) as Hh by by rewrite list_lookup_fmap, Hpos. pose proof (close_entry pos hole Hh) as He.
  split; intros Hf.
  - assert (sister_at pos front = S pos) as Eb by by rewrite Hf. rewrite Eb in He. unfold bump in He. rewrite decide_True in He by lia. split; [done|].
    rewrite (with_sister_pages l pos front kh hole (ct_sepkey c) s Hpos), Eb. pose proof (lookup_lt_Some _ _ _ Hh).
    rewrite lookup_app_r by (rewrite length_take; lia). rewrite length_take. by replace (S pos - S pos `min` length l.*2)%nat with O by lia.
  - assert (sister_at pos front = pos) as Eb by by rewrite Hf. rewrite Eb in He. unfold bump in He. by rewrite decide_False in He by lia.
Qed.

Lemma hole_at x pg : l.*2 !! x = Some pg -> (pg = hole <-> x = pos).
Proof.
  intros Hx. assert (l.*2 !! pos = Some hole) as Hh by by rewrite list_lookup_fmap, Hpos. destruct Htree as [_ Hn _]. apply NoDup_app in Hn as (_ & _ & Hn).
  split; [intros ->; by eapply (NoDup_lookup _ _ _ hole Hn)|]. intros ->. rewrite Hh in Hx. by injection Hx.
Qed.

Lemma front_facts : front = true -> I1 = [] /\ length L = 1%nat /\ replaces (ad_flags new) = false.
Proof. destruct Hdist as (_ & _ & _ & _ & _ & D6 & _). destruct (ct_how c); try done. destruct D6 as (_ & _ & _ & _ & -> & -> & -> & _). done. Qed.

(** The parent was split before, and all cursors were moved with it. *)
Lemma adjusted_split others2 : front = false ->
  Forall2 (fun m3 m3_2 => (m3 = [] -> m3_2 = []) /\ forall deep pg i up3 x, m3 = deep ++ (pg, i) :: up3 -> length up3 = j ->
    leads ps (w_pages w) (root (w_tree w)) up3 own l x -> l.*2 !! x = Some pg ->
    exists up2, m3_2 = deep ++ (pg, i) :: up2 /\ length up2 = j' /\ leads ps (w_pages w2) (root (w_tree w2)) up2 own' l' (bump (S pos) x)) others others2 ->
  adjusted None true others2.
Proof.
  intros Hf Hoth mc Hmc _. eapply Forall2_impl; [exact Hoth|]. intros m3 m3_2 [H1 H2]. split; [by intros ->; rewrite (H1 eq_refl)|].
  intros deep pg i up3 x E Hl Hx Hpg Hlim. destruct (H2 deep pg i up3 x E Hl Hx Hpg) as (up2 & -> & Hl2 & Hu2).
  rewrite adjust_no_root by (by intros ?%app_nil_r%length_zero_iff_nil || by destruct deep). destruct close_at_pos as [Hcp _]. destruct (Hcp Hf) as [C1 C2].
  assert (nleft = length L) as -> by by rewrite Hf. destruct (decide (x = pos)) as [->|Hne].
  - pose proof (proj2 (hole_at pos pg Hpg) eq_refl) as ->. rewrite adjust_here by (done || lia). unfold destination. rewrite (decide_True (P := pos = pos)) by done.
    fold (index_moved (length I1) (replaces (ad_flags new)) i). unfold bump in Hu2. rewrite decide_True in Hu2 by lia.
    destruct (decide (length L <= index_moved (length I1) (replaces (ad_flags new)) i)%nat) as [Hc|Hc].
    + rewrite decide_False by lia. cbn [fst snd]. exists s, mn. split; [done|]. split; [lia|]. split; [by apply Hmn|done].
    + rewrite decide_True by lia. cbn [fst snd]. exists hole, up2. done.
  - assert (pg <> hole) as Hph by (intros ->; by apply Hne, (hole_at x hole Hpg)). rewrite adjust_elsewhere by (done || lia).
    unfold destination. rewrite (decide_False (P := x = pos)) by done. cbn [fst snd]. exists pg, up2. split; [done|]. split; [done|].
    pose proof (close_entry x pg Hpg) as He. assert (sister_at pos front = S pos) as Eb by by rewrite Hf. rewrite Eb in He.
    assert (bump pos x = bump (S pos) x) as -> by (unfold bump; repeat case_decide; lia). done.
Qed.

(** The parent had room. *)
Lemma adjusted_direct p k rest : up = (p, k) :: rest -> (front = false -> mn = (p, S k) :: rest) -> j = j' ->
  leads ps (w_pages w) (root (w_tree w)) ((p, k) :: rest) own l pos ->
  (forall up4 p3 i3 x, length up4 = length rest -> leads ps (w_pages w) (root (w_tree w)) ((p3, i3) :: up4) own l x ->
    leads ps (w_pages w2) (root (w_tree w2)) ((p3, if decide (p3 = p) then bump (sister_at k front) i3 else i3) :: up4) own' l' (bump (sister_at pos front) x)) ->
  adjusted None false others.
Proof.
  intros Eup Emn Ej Hmain Hfollow mc Hmc Htail. destruct Htree as [_ Hn _]. apply NoDup_app in Hn as (Hn & _).
  assert (exists pk, mc !! 1%nat = Some (p, pk) /\ (pk = k \/ front = false /\ pk = S k)) as (pk & Hmc1 & Hpk).
  { destruct mc as [|e t]; [done|]. cbn [tail] in Htail. destruct Htail as [Ht|[Ht|[Hf [Ht|(p' & k' & rest' & E & Ht)]]]]; [done| | |].
    - exists k. rewrite Ht, Eup. split; [done|by left].
    - exists (S k). rewrite Ht, (Emn Hf). split; [done|by right].
    - rewrite Eup in E. injection E as <- <- <-. exists (S k). rewrite Ht. split; [done|by right]. }
  apply Forall_Forall2_diag, Forall_forall. intros m3 _. split; [by intros ->|]. intros deep pg i up3 x E Hl Hx Hpg Hlim. subst m3.
  rewrite adjust_no_root by by destruct deep. destruct up3 as [|[p3 i3] up4]; [cbn in Hl; lia|].
  assert (length up4 = length rest) as Hl4 by (rewrite Eup in Hupl; cbn in *; lia).
  destruct (leads_top ps _ _ p3 i3 up4 p k rest own l x own l pos Hl4 Hn Hx Hmain) as (_ & _ & Hiff & _).
  pose proof (Hfollow up4 p3 i3 x Hl4 Hx) as Hnew. destruct close_at_pos as [C1 C2].
  assert (length mc = S (S (length up4))) as Hmc2 by (rewrite Hmc, Eup; cbn; lia).
  destruct (decide (x = pos)) as [->|Hne].
  - destruct (proj1 Hiff eq_refl) as [-> ->]. pose proof (proj2 (hole_at pos pg Hpg) eq_refl) as ->. rewrite decide_True in Hnew by done.
    assert (front = true \/ front = false) as [Hf|Hf] by (destruct (ct_how c); auto).
    + destruct (front_facts Hf) as (F1 & F2 & F3). destruct Hpk as [-> |[Hf' _]]; [|by rewrite Hf in Hf'].
      assert (sister_at k front = k /\ sister_at pos front = pos) as [B1 B2] by by rewrite Hf. rewrite B1, B2 in Hnew. unfold bump in Hnew. rewrite !decide_False in Hnew by lia.
      rewrite (adjust_parent hole s (length I1) nleft front (replaces (ad_flags new)) mc mn deep up4 hole i p k p k) by (done || by right). rewrite (decide_True (P := p = p /\ _)) by done.
      unfold destination. rewrite (decide_True (P := pos = pos)) by done. rewrite F1, F2, F3. cbn [length]. rewrite (decide_True (P := (0 <= i)%nat)) by lia. rewrite decide_False by lia. cbn [fst snd].
      exists hole, ((p, S k) :: up4). split; [repeat f_equal; lia|]. split; [cbn in *; lia|]. split; [done|by apply C2].
    + assert (nleft = length L) as -> by by rewrite Hf. rewrite adjust_here by (done || cbn; lia). unfold destination. rewrite (decide_True (P := pos = pos)) by done.
      fold (index_moved (length I1) (replaces (ad_flags new)) i). destruct (C1 Hf) as [Q1 Q2].
      assert (sister_at k front = S k /\ sister_at pos front = S pos) as [B1 B2] by by rewrite Hf. rewrite B1, B2 in Hnew. unfold bump in Hnew. rewrite !decide_True in Hnew by lia.
      destruct (decide (length L <= index_moved (length I1) (replaces (ad_flags new)) i)%nat) as [Hc|Hc].
      * rewrite decide_False by lia. cbn [fst snd]. exists s, mn. split; [done|]. split; [lia|]. split; [by apply Hmn|done].
      * rewrite decide_True by lia. cbn [fst snd]. exists hole, ((p, k) :: up4). split; [done|]. split; [cbn in *; lia|]. by split.
  - assert (pg <> hole) as Hph by (intros ->; by apply Hne, (hole_at x hole Hpg)). rewrite (adjust_parent hole s (length I1) nleft front (replaces (ad_flags new)) mc mn deep up4 pg i p3 i3 p pk) by (done || by left).
    unfold destination. rewrite (decide_False (P := x = pos)) by done. cbn [fst snd]. exists pg, ((p3, if decide (p3 = p /\ pk <= i3)%nat then S i3 else i3) :: up4).
    split; [done|]. split; [cbn in *; lia|]. pose proof (close_entry x pg Hpg) as He.
    assert (bump (sister_at pos front) x = bump pos x) as Eb by (unfold bump, sister_at; destruct (ct_how c); repeat case_decide; lia).
    rewrite Eb in He, Hnew. split; [|done].
    assert ((if decide (p3 = p /\ pk <= i3)%nat then S i3 else i3) = (if decide (p3 = p) then bump (sister_at k front) i3 else i3)) as ->; [|exact Hnew].
    destruct (decide (p3 = p)) as [->|]; [|rewrite decide_False by tauto; done].
    assert (i3 <> k) as Hik by (intros ->; apply Hne; by apply Hiff). unfold bump, sister_at.
    destruct Hpk as [-> |[Hf ->]]; [destruct (ct_how c)|destruct (ct_how c); try done]; repeat case_decide; lia || tauto.
Qed.

(** A new root: every stack gets its entry. *)
Definition with_entry (r : Z) (m3 : stack) : stack := match m3 with [] => [] | _ => m3 ++ [(r, 0%nat)] end.

Lemma diag_fmap (Q Q' : stack -> stack -> Prop) f k : Forall2 Q (f <$> k) (f <$> k) -> (forall a, Q (f a) (f a) -> Q' (f a) a) -> Forall2 Q' (f <$> k) k.
Proof.
  intros H HQ. induction k as [|a k IH]; [constructor|]. cbn in *. apply Forall2_cons in H as [H1 H2]. apply Forall2_cons. split; [by apply HQ|by apply IH].
Qed.

Lemma adjusted_root rt others2 :
  others = with_entry rt <$> others2 -> length up = 1%nat -> j = 1%nat ->
  (forall p3 i3 x, leads ps (w_pages w) (root (w_tree w)) [(p3, i3)] own l x -> p3 = rt /\ i3 = O) -> (forall x pg, l.*2 !! x = Some pg -> pg = hole /\ x = pos) ->
  (front = true -> length R = length (I1 ++ I2)) ->
  adjusted None false others -> adjusted (Some rt) false others2.
Proof.
  intros Eo Hu1 Hj Honly Hhole Hlen Hadj mc Hmc Htail. pose proof (Hadj mc Hmc Htail) as Hq. clear Hadj. rewrite Eo in Hq |- *. eapply diag_fmap; [exact Hq|]. clear Hq.
  intros m3 [H1 H2]. destruct m3 as [|e m3]; [split; [done|intros deep pg i up3 x E; by destruct deep]|]. split; [intros E; by apply app_eq_nil in E as [_ E]|].
  intros deep pg i up3 x E Hl Hx Hpg Hlim. pose proof (H2 deep pg i up3 x E Hl Hx Hpg Hlim) as H. clear H2.
  rewrite Hj in Hl. destruct up3 as [|[p3 i3] [|]]; try done. destruct (Honly p3 i3 x Hx) as [-> ->]. destruct (Hhole x pg Hpg) as [-> ->].
  assert (e :: m3 = deep ++ [(hole, i)]) as Em.
  { apply (app_inj_tail (e :: m3) (deep ++ [(hole, i)]) (rt, 0%nat) (rt, 0%nat)). rewrite <- app_assoc. exact E. }
  cbn [with_entry] in H. rewrite Em in *. rewrite adjust_no_root in H by by destruct deep.
  rewrite adjust_new_root; [|lia|]. { rewrite <- app_assoc in H. exact H. }
  intros Hf. assert (nleft = length R) as -> by by rewrite Hf. rewrite (Hlen Hf). by apply Hlim.
Qed.
End close.
