(* ===== verification/SplitTreeUnder.v ===== *)
(** * The split of pages up to the root: a page with a parent *)

From S2P Require Import Prelude Meta Cmp CmpProps Page PageFacts PageOps PageProps Limits LimitsProps Split SplitFacts SplitMove SplitKey SplitProps SplitTree SplitTreeFacts SplitTreeLink SplitTreeClose.

Section split.
Context (gc_alloc_single : nat -> Z + page_t) (page_shadow_alloc : nat -> option page_t) (page_new_large : Z -> Z + Z).
Context (ps ps2ln reserve_factor : Z) (prefer_waf : bool).
Abbreviation bmax := (BRANCH_NODE_MAX ps).
Abbreviation lmax := (LEAF_NODE_MAX ps).
Abbreviation size := (Z.to_nat (PAGESPACE ps)).
Abbreviation supply := (supply gc_alloc_single).
Abbreviation linked := (linked gc_alloc_single ps).
Abbreviation split_succeeds := (split_succeeds gc_alloc_single ps).
Abbreviation under := (split_under gc_alloc_single page_shadow_alloc page_new_large ps ps2ln bmax lmax reserve_factor prefer_waf).
Context (Hps : ps ∈ page_sizes) (Hres : 0 <= reserve_factor <= 32768) (Hal : allocator_ok gc_alloc_single page_shadow_alloc ps).

(** A page of level [j] that a stack leads to, and a node that has no room in it. *)
Record split_case (w : wtxn) (up : stack) (own : list Z) (l : list ref) (pos : nat) (kh : list Z) (mp : page_t) (I1 I2 : list item) (new : add_t) (itnew : item) : Prop := {
  sc_tree : tree_level ps w (length up) own l;
  sc_leads : leads ps (w_pages w) (root (w_tree w)) up own l pos;
  sc_pos : l !! pos = Some (kh, page_pgno mp);
  sc_page : w_pages w !! page_pgno mp = Some mp;
  sc_split : splittable page_new_large ps ps2ln (t_flags (w_tree w)) mp I1 I2 new itnew;
  sc_keys : Forall (fun it => it_key it <> []) (tail (I1 ++ itnew :: I2));
  sc_supply : supply w
}.

(** A new root can be made. *)
Definition root_can_grow (w : wtxn) : Prop := 0 <= root (w_tree w) < 2 ^ 32 /\ 0 <= height (w_tree w) < 2 ^ 16 - 1.

(** The split fails when no page can be had, and then the transaction is in error. *)
Definition split_refused (w : wtxn) (others : list stack) (o : split_result) : Prop :=
  refused gc_alloc_single (r_rc o) /\ w_flags (r_txn o) = Z.lor (w_flags w) MDBX_TXN_ERROR /\ r_mc o = [] /\ r_others o = others.

(** The cursors have the stacks [others2] when the split starts, and [others] with a new root. *)
Definition split_ends (w : wtxn) (others2 others : list stack) (up : stack) (own : list Z) (l : list ref) (pos : nat) (kh : list Z) (mp : page_t) (I1 I2 : list item)
  (new : add_t) (itnew : item) (o : split_result) : Prop :=
    split_refused w others2 o \/
  exists s sep L R front j' own' l', split_succeeds w others (length up) own l pos kh mp I1 I2 new itnew o s sep L R front j' own' l'.

Definition splits_above (split_above : wtxn -> list stack -> stack -> add_t -> option split_result) (rest : stack) : Prop :=
  forall w others own l pos kh mp I1 I2 new itnew, split_case w rest own l pos kh mp I1 I2 new itnew -> root_can_grow w ->
  exists o, split_above w others ((page_pgno mp, length I1) :: rest) new = Some o /\ split_ends w others others rest own l pos kh mp I1 I2 new itnew o.

(** The key for the parent. *)
Lemma sepkey_good mp I1 I2 new itnew tree_flags L R x R' :
  splittable page_new_large ps ps2ln tree_flags mp I1 I2 new itnew -> Forall (fun it => it_key it <> []) (tail (I1 ++ itnew :: I2)) ->
  L ++ R = I1 ++ itnew :: I2 -> L <> [] -> R = x :: R' -> good_key ps (it_key x).
Proof.
  intros Hs Ht E HL ->. pose proof (sb_keys _ _ _ _ _ _ _ _ _ Hs) as Hk. rewrite <- E in Ht, Hk. destruct L as [|a L]; [done|]. cbn [tail app] in Ht.
  apply Forall_app in Ht as [_ Ht]. apply Forall_cons in Ht as [Ht _]. apply Forall_app in Hk as [_ Hk]. apply Forall_cons in Hk as [Hk _]. by split.
Qed.

(** A branch with one or two nodes has room for another. *)
Lemma branch_short parent items sep s : branch_page ps parent items -> good_key ps sep -> (length items <= 2)%nat ->
  ~ page_room parent < 2 + Z.of_nat (item_size (mk_item s 0 sep [])).
Proof.
  intros Hb Hk Hlen. destruct (node_sizes ps Hps) as (B1 & _). unfold NODESIZE, sizeof_indx_t in B1. destruct (sister_moves ps Hps sep s Hk) as [[Hm _] _]. cbn [nodemax] in Hm.
  pose proof (page_room_items _ _ _ (bp_holds _ _ _ Hb)) as Hr. pose proof (bp_moves _ _ _ Hb) as Hmv. pose proof (bp_first _ _ _ Hb) as Hf.
  pose proof (ph_items _ _ _ (bp_holds _ _ _ Hb)) as Hok. rewrite (bp_leaf _ _ _ Hb) in Hok.
  destruct items as [|x [|z [|]]]; cbn [length] in Hlen; [done| | |lia]; destruct Hf as [Hx _]; apply Forall_cons in Hok as [(_ & _ & _ & Hd) _].
  - assert (item_size x = 8%nat) as Ex by (unfold item_size, payload; by rewrite Hx, Hd). rewrite items_size_cons, Ex in Hr. cbn [items_size sum_list_with] in Hr. lia.
  - assert (item_size x = 8%nat) as Ex by (unfold item_size, payload; by rewrite Hx, Hd). rewrite !items_size_cons, Ex in Hr. cbn [items_size sum_list_with] in Hr.
    apply Forall_cons in Hmv as [_ Hmv]. apply Forall_cons in Hmv as [[Hz _] _]. cbn [nodemax] in Hz. lia.
Qed.

(** A full branch is split for the node of a new child. *)
Lemma parent_splittable tree_flags parent P1 child P2 sep s :
  branch_page ps parent (P1 ++ child :: P2) -> good_key ps sep -> 0 <= s < 2 ^ 32 ->
  page_room parent < 2 + Z.of_nat (item_size (mk_item s 0 sep [])) ->
  splittable page_new_large ps ps2ln tree_flags parent (P1 ++ [child]) P2 (mk_add sep (mk_val 0 []) 0 s) (mk_item s 0 sep []) /\
  Forall (fun it => it_key it <> []) (tail ((P1 ++ [child]) ++ mk_item s 0 sep [] :: P2)).
Proof.
  intros Hb Hk Hs Hfull. pose proof (branch_short parent _ sep s Hb) as Hshort. destruct (node_sizes ps Hps) as (_ & _ & B3 & _).
  destruct (sister_moves ps Hps sep s Hk) as [[Hm _] _]. cbn [nodemax] in Hm. destruct Hk as [Hk1 Hk2]. pose proof Hb as [H1 H2 H3 H4 H5 H6 H7].
  split.
  - split; rewrite <- ?app_assoc, ?H2; cbn [app]; try done.
    + revert Hps. clear. intros H. each_size H; vm_compute; repeat split; congruence.
    + split; [done|]. split; [done|]. split; [done|]. split; [|done]. split; [done|]. split; [cbn; lia|]. split; [cbn [it_key]; lia|done].
    + apply Forall_app in H6 as [K1 K2]. apply Forall_cons in K2 as [K2 K3]. apply Forall_app. split; [done|]. by repeat (apply Forall_cons; split).
    + by apply one_keyless_one_empty.
    + intros _. split; [by destruct P1|]. destruct (decide (length (P1 ++ child :: P2) <= 2)%nat) as [Hl|Hl]; [|lia]. exfalso. by apply (Hshort (conj Hk1 Hk2) Hl).
  - rewrite <- app_assoc. cbn [app]. pose proof (one_keyless_insert P1 child (mk_item s 0 sep []) P2 H7 Hk1) as Ho. by destruct P1; destruct Ho.
Qed.

(** A page without room for a node has some. *)
Lemma splittable_filled mp I1 I2 new itnew tree_flags : splittable page_new_large ps ps2ln tree_flags mp I1 I2 new itnew -> length (I1 ++ I2) <> O.
Proof.
  intros Hs Hlen. destruct (node_sizes ps Hps) as (_ & B2 & _). pose proof (sb_branch _ _ _ _ _ _ _ _ _ Hs) as Hb. rewrite Hlen in Hb.
  destruct (is_leaf mp) eqn:Hleaf; [|destruct (Hb eq_refl); lia]. apply nil_length_inv in Hlen.
  pose proof (sb_full _ _ _ _ _ _ _ _ _ Hs) as Hfull. pose proof (sb_new _ _ _ _ _ _ _ _ _ Hs) as Hc. rewrite Hleaf in Hc. destruct Hc as (_ & _ & _ & _ & Hmax & _).
  pose proof (page_room_items _ _ _ (sb_page _ _ _ _ _ _ _ _ _ Hs)) as Hr. rewrite Hlen in Hr. cbn [items_size sum_list_with] in Hr. unfold sizeof_indx_t in B2. lia.
Qed.

Section under.
Context (w : wtxn) (rest : stack) (own0 : list Z) (l0 : list ref) (parts : list (list ref)) (y : nat) (kp : list Z) (p : Z) (parent : page_t).
Context (P1 : list item) (child : item) (P2 : list item).
Context (Htree0 : tree_level ps w (length rest) own0 l0) (Hrest : leads ps (w_pages w) (root (w_tree w)) rest own0 l0 y).
Context (Hparts : Forall2 (expands ps (w_pages w)) l0 parts) (Hy : l0 !! y = Some (kp, p)).
Context (Hp : w_pages w !! p = Some parent) (Hpp : page_pgno parent = p) (Hbr : branch_page ps parent (P1 ++ child :: P2)).
Abbreviation own := (own0 ++ l0.*2).
Abbreviation l := (concat parts).
Abbreviation pos := (length (concat (take y parts)) + length P1)%nat.
Abbreviation kh := (label kp P1 child).
Context (mp : page_t) (I1 I2 : list item) (new : add_t) (itnew : item) (Hword : page_pgno mp = it_word child).
Abbreviation hole := (page_pgno mp).
Context (Hcase : split_case w ((p, length P1) :: rest) own l pos kh mp I1 I2 new itnew).
Context (others : list stack).
Context (c : cut_t) (w1 : wtxn) (path : list Z) (Hopen : opened_cut gc_alloc_single page_new_large ps ps2ln w mp parent path I1 I2 new itnew c w1).
Abbreviation s := (page_pgno (ct_sister c)).
Abbreviation front := (match ct_how c with pure_left => true | _ => false end).
Context (Hpath : path = (fun e : Z * nat => Z.of_nat e.2) <$> (p, length P1) :: rest).

Lemma under_outside : hole ∉ own /\ s ∉ own /\ s ∉ l.*2 /\ s <> hole /\ hole ∈ l.*2.
Proof.
  pose proof (sc_tree _ _ _ _ _ _ _ _ _ _ _ Hcase) as Ht. pose proof (sc_pos _ _ _ _ _ _ _ _ _ _ _ Hcase) as Hpos.
  destruct (hole_there ps w _ own l pos kh mp Ht Hpos) as (H1 & H2 & H3).
  destruct (close_sister gc_alloc_single page_new_large ps ps2ln w _ own l pos kh mp parent path I1 I2 new itnew c w1 Ht Hpos Hopen) as [H4 H5].
  split; [done|]. split; [done|]. split; [|done]. intros Hs. apply (tl_there _ _ _ _ _ Ht) in Hs. destruct Hopen as (_ & Hn & _). rewrite Hn in Hs. by destruct Hs.
Qed.

(** Nothing but the page and the sister has changed. *)
Lemma under_w1 z : z ∈ own -> w_pages w1 !! z = w_pages w !! z.
Proof.
  intros Hz. destruct under_outside as (H1 & H2 & _). destruct Hopen as (_ & _ & -> & _).
  rewrite !lookup_insert_ne; [done|by intros <-|by intros <-].
Qed.

Lemma under_root : root (w_tree w1) = root (w_tree w).
Proof. by destruct Hopen as (_ & _ & _ & _ & _ & [? _] & _). Qed.

Lemma under_leads up x : leads ps (w_pages w) (root (w_tree w)) up own l x -> leads ps (w_pages w1) (root (w_tree w1)) up own l x.
Proof. intros H. rewrite under_root. apply (leads_frame ps (w_pages w)); [exact under_w1|done]. Qed.

Lemma under_own0 z : z ∈ own0 -> w_pages w1 !! z = w_pages w !! z.
Proof. intros Hz. apply under_w1, elem_of_app. by left. Qed.

Lemma under_parent : p ∈ own.
Proof. apply elem_of_app. right. eapply list_elem_of_lookup_2. by rewrite list_lookup_fmap, Hy. Qed.

Lemma under_tree0 : tree_level ps w1 (length rest) own0 l0.
Proof.
  destruct Htree0 as [H1 H2 H3]. split; [rewrite under_root; apply (level_frame ps (w_pages w)); [exact under_own0|done]|done|].
  intros z Hz. rewrite under_w1; [by apply H3|]. apply elem_of_app. by right.
Qed.

Lemma under_parts : Forall2 (expands ps (w_pages w1)) l0 parts.
Proof. apply (expands_all_frame ps (w_pages w)); [|done]. intros z Hz. apply under_w1, elem_of_app. by right. Qed.

Lemma under_there z : z ∈ l.*2 -> is_Some (w_pages w1 !! z).
Proof.
  intros Hz. apply (tl_there _ _ _ _ _ (sc_tree _ _ _ _ _ _ _ _ _ _ _ Hcase)) in Hz. destruct Hopen as (_ & _ & -> & _).
  destruct (decide (z = s)) as [->|]; [rewrite lookup_insert_eq; by eexists|]. rewrite lookup_insert_ne by done.
  destruct (decide (z = hole)) as [->|]; [rewrite lookup_insert_eq; by eexists|]. by rewrite lookup_insert_ne.
Qed.

Lemma under_facts : exists fresh r L R x R',
  split_finish page_new_large ps ps2ln bmax lmax (t_flags (w_tree w)) (dupfix_size (w_tree w)) c (length I1) new (w_flags w) = Some r /\
  distributed ps mp I1 I2 new itnew (w_flags w) fresh c r L R /\ page_pgno fresh = s /\ R = x :: R' /\ it_key x = ct_sepkey c /\ good_key ps (ct_sepkey c) /\
  (ct_how c = pure_left -> P1 = [] /\ Forall (fun e : Z * nat => e.2 = O) rest /\ 2 + Z.of_nat (item_size (mk_item 0 0 (ct_sepkey c) [])) <= page_room parent).
Proof.
  destruct Hopen as (_ & _ & _ & _ & _ & _ & _ & fresh & r & L & R & Hfin & Hd & Hf & Hleft). pose proof Hd as (_ & _ & D3 & D4 & (x & R' & ER & Ex) & _).
  exists fresh, r, L, R, x, R'. split; [done|]. split; [done|]. split; [done|]. split; [done|]. split; [done|]. split.
  - rewrite <- Ex. eapply (sepkey_good mp I1 I2 new itnew); try done; [by eapply sc_split|by eapply sc_keys].
  - intros Eh. destruct (Hleft Eh) as [H1 H2]. rewrite Hpath in H1. apply Forall_cons in H1 as [H0 H1]. split; [|split; [|done]].
    + cbn in H0. apply nil_length_inv. lia.
    + apply Forall_fmap in H1. eapply Forall_impl; [exact H1|]. intros e He. cbn in He. lia.
Qed.

(** The cursors [others2] that the split has, and as they are after a new root. *)
Definition same_or_rooted (root_split : option Z) (others2 : list stack) : Prop :=
  root_split = None /\ others2 = others \/
  root_split = Some p /\ others = with_entry p <$> others2 /\ rest = [] /\ l = [(kh, hole)] /\ own = [p] /\ P1 = [].

(** The parent has room. *)
Lemma under_direct root_split (others2 : list stack) :
  ~ page_room parent < 2 + Z.of_nat (item_size (mk_item s 0 (ct_sepkey c) [])) -> same_or_rooted root_split others2 ->
  exists q o, split_parent bmax c parent (length P1) (ad_key new) (w_flags w1) = Some (parent_has MDBX_SUCCESS q (w_flags w1)) /\
  split_close page_new_large ps ps2ln bmax lmax (with_flags (put_page w1 q) (w_flags w1)) others2 root_split false c hole (length I1) new
  ((p, length P1) :: rest) ((p, S (length P1)) :: rest) = Some o /\
  split_ends w others2 others ((p, length P1) :: rest) own l pos kh mp I1 I2 new itnew o.
Proof.
  intros Hroom Hother. destruct under_facts as (fresh & r & L & R & x & R' & Hfin & Hd & Hf & ER & Ex & Hgood & Hleft).
  destruct under_outside as (O1 & O2 & O3 & O4 & O5). pose proof Hcase as [C1 C2 C3 C4 C5 C6 C7].
  assert (w_pages w1 !! p = Some parent) as Hp1 by (rewrite under_w1; [done|exact under_parent]).
  pose proof Hopen as (Hs1 & Hs2 & Hw1 & Hsup1 & Htr1 & Hrt1 & _).
  destruct (link_direct gc_alloc_single ps Hps w1 (length rest) own0 l0 parts y kp p parent P1 child P2 c under_tree0 under_parts Hy Hp1 Hpp Hbr
    (tl_nodup _ _ _ _ _ C1) O2 O3 Hs1 Hsup1 Hgood (fun Eh => proj1 (Hleft Eh)) (ad_key new) Hroom) as (q & Eq & Hlink & Hfol & Hnew).
  set (w2 := with_flags (put_page w1 q) (w_flags w1)) in *. rewrite <- Hword in Hlink, Hfol, Hnew.
  set (up := (p, length P1) :: rest) in *. set (mn := (p, S (length P1)) :: rest).
  pose proof (leads_level _ _ _ _ _ _ _ Hrest) as [_ Hyl].
  assert (leads ps (w_pages w1) (root (w_tree w1)) rest own0 l0 y) as Hrest1.
  { rewrite under_root. apply (leads_frame ps (w_pages w)); [exact under_own0|exact Hrest]. }
  assert (leads ps (w_pages w2) (root (w_tree w2)) up own (with_sister l pos front kh hole (ct_sepkey c) s) pos) as Hup2.
  { pose proof (Hfol rest p (length P1) pos eq_refl (under_leads _ _ C2)) as Hup. rewrite decide_True in Hup by done. unfold bump in Hup.
    destruct (ct_how c); [|exact (Hnew rest Hrest1)|]; cbn [sister_at] in Hup; rewrite !decide_True in Hup by lia; exact Hup. }
  assert (front = false -> leads ps (w_pages w2) (root (w_tree w2)) mn own (with_sister l pos front kh hole (ct_sepkey c) s) (S pos)) as Hmn2.
  { intros Eh. pose proof (Hnew rest Hrest1) as H. assert (sister_at (length P1) front = S (length P1) /\ sister_at pos front = S pos) as [E1 E2] by by rewrite Eh.
    by rewrite E1, E2 in H. }
  assert (adjusted ps w others (S (length rest)) own l pos kh mp I1 I2 new c w2 (S (length rest)) own up mn L R None false others) as Hadj.
  { eapply (adjusted_direct gc_alloc_single page_shadow_alloc page_new_large ps ps2ln w others (S (length rest)) own l pos kh mp parent path I1 I2 new itnew c w1
      C1 C3 Hopen w2 (S (length rest)) own Hlink up mn Hup2 eq_refl ltac:(lia) Hmn2 eq_refl r L R fresh Hd p (length P1) rest); try done.
    intros up4 p3 i3 x3 Hl4 Hx3. apply Hfol; [done|]. by apply under_leads. }
  assert (adjusted ps w others (S (length rest)) own l pos kh mp I1 I2 new c w2 (S (length rest)) own up mn L R root_split false others2) as Hadj2.
  { destruct Hother as [[-> ->]|(-> & Eo & Er & El & Eown & EP)]; [exact Hadj|].
    apply (adjusted_root ps w others (S (length rest)) own l pos kh mp I1 I2 new c w2 (S (length rest)) own up mn); try done; try lia.
    - unfold up. cbn. by rewrite Er.
    - by rewrite Er.
    - intros p3 i3 x3 Hx3. rewrite Er in Hrest. destruct (leads_page ps _ _ [] _ _ _ _ _ Hx3) as (o0 & k0 & q0 & z & kz & part & E1 & E2 & Hz & Hq0 & Hkz & Hpz & Hi3 & _).
      inversion Hz; subst. injection Hkz as <- <-. cbn [app fmap list_fmap snd] in E1. rewrite Eown in E1. injection E1 as <-. split; [done|].
      destruct q0 as [|q0 [|]]; [done| |by apply Forall2_length in Hq0]. injection Hpz as ->. cbn in E2. rewrite app_nil_r in E2. rewrite <- E2, El in Hi3. cbn in Hi3. lia.
    - intros x3 pg Hx3. rewrite EP. rewrite El in Hx3. destruct x3; [|done]. injection Hx3 as <-. split; [done|].
      apply lookup_lt_Some in C3. rewrite El, EP in C3. cbn [length] in C3. cbn [length]. lia.
    - intros Eh. pose proof Hd as (_ & _ & D3 & _ & _ & D6 & _). destruct (ct_how c); try done. destruct D6 as (_ & _ & _ & _ & E1 & E2 & _).
      rewrite E1, E2 in D3. rewrite E1. by injection D3 as ->. }
  destruct (close_spec gc_alloc_single page_shadow_alloc page_new_large ps ps2ln w others (S (length rest)) own l pos kh mp parent path I1 I2 new itnew c w1 C1 C3 Hopen
    w2 (S (length rest)) own Hlink up mn Hup2 eq_refl ltac:(lia) Hmn2 eq_refl r L R fresh Hd Hf root_split false others2 Hfin) as (o & Eo & Ho).
  - by eapply splittable_filled.
  - exact Hadj2.
  - intros _. by exists p, (length P1), rest.
  - exists q, o. split; [done|]. split; [exact Eo|]. right. by do 8 eexists.
Qed.
(** The parent has no room: it has to be split for the node of the sister. *)
Lemma under_parent_case : page_room parent < 2 + Z.of_nat (item_size (mk_item s 0 (ct_sepkey c) [])) ->
  split_parent bmax c parent (length P1) (ad_key new) (w_flags w1) = Some parent_full /\
  split_case w1 rest own0 l0 y kp parent (P1 ++ [child]) P2 (mk_add (ct_sepkey c) (mk_val 0 []) 0 s) (mk_item s 0 (ct_sepkey c) []).
Proof.
  intros Hfull. destruct under_facts as (_ & _ & _ & _ & _ & _ & _ & _ & _ & _ & _ & Hgood & Hleft). destruct Hopen as (Hs & _ & _ & Hsup & _).
  destruct (parent_splittable (t_flags (w_tree w1)) parent P1 child P2 (ct_sepkey c) s Hbr Hgood Hs Hfull) as [Hsp Hk]. split.
  - destruct (sb_ps _ _ _ _ _ _ _ _ _ Hsp) as [Hpw Hpr]. destruct Hgood as [_ Hg].
    pose proof (split_links_spec ps parent P1 child P2 c (ad_key new) (w_flags w1) Hpw Hpr (bp_holds _ _ _ Hbr) (bp_leaf _ _ _ Hbr) Hg Hs) as Hl.
    cbv zeta in Hl. rewrite decide_True in Hl by done. apply Hl. intros Eh. destruct (Hleft Eh) as (E1 & _). split; [done|].
    pose proof (bp_first _ _ _ Hbr) as Hf. rewrite E1 in Hf. by destruct Hf.
  - split; try done; [exact under_tree0| |by rewrite Hpp|by rewrite Hpp, under_w1 by exact under_parent].
    rewrite under_root. apply (leads_frame ps (w_pages w)); [exact under_own0|exact Hrest].
Qed.

(** The parent is split first. *)
Section full.
Context (Hfull : page_room parent < 2 + Z.of_nat (item_size (mk_item s 0 (ct_sepkey c) []))).
Context (o1 : split_result) (sP : Z) (sep1 : list Z) (LP RP : list item) (front1 : bool) (j2 : nat) (own2 : list Z) (lp : list ref).
Abbreviation link := (mk_item s 0 (ct_sepkey c) []).
Context (Hsplit : split_succeeds w1 (((hole, length I1) :: (p, length P1) :: rest) :: others) (length rest) own0 l0 y kp parent (P1 ++ [child]) P2
  (mk_add (ct_sepkey c) (mk_val 0 []) 0 s) link o1 sP sep1 LP RP front1 j2 own2 lp).

Lemma full_front : front = false /\ front1 = false.
Proof.
  split.
  - destruct under_facts as (_ & _ & _ & _ & _ & _ & _ & _ & _ & _ & _ & _ & Hleft). destruct (ct_how c); try done. destruct (Hleft eq_refl) as (_ & _ & H).
    change (item_size (mk_item 0 0 (ct_sepkey c) [])) with (item_size link) in H. lia.
  - apply not_true_is_false. intros E. destruct (ss_front _ _ _ _ _ _ _ _ _ _ _ _ _ _ _ _ _ _ _ _ _ _ _ Hsplit E) as [H _]. by apply app_eq_nil in H as [_ H].
Qed.

Lemma full_halves : exists x R', RP = x :: R' /\ lp = with_sister l0 y false kp p (it_key x) sP /\
  LP ++ RP = P1 ++ child :: link :: P2 /\ LP <> [] /\ linked w1 (r_txn o1) (length rest) own0 l0 (S y) sP [p] j2 own2 lp /\
  (exists q1, w_pages (r_txn o1) !! p = Some q1 /\ page_pgno q1 = p /\ page_flags q1 = page_flags parent /\ page_holds size q1 (headed false LP)) /\
  (exists q2, w_pages (r_txn o1) !! sP = Some q2 /\ page_pgno q2 = sP /\ page_flags q2 = page_flags parent /\ page_holds size q2 (headed false RP)).
Proof.
  destruct full_front as [_ Hf1]. destruct Hsplit as [S1 S2 S3 (x & R' & S4 & S4') S5 S6 S7 S8 S9 _ _]. exists x, R'. split; [done|].
  rewrite Hf1, Hpp in S7, S8, S9. rewrite (bp_leaf _ _ _ Hbr) in S9.
  split; [by rewrite S7, S4'|]. split; [by rewrite S2, <- app_assoc|]. split; [done|]. split; [exact S8|].
  split; [destruct (S9 false) as (q & Q1 & Q2 & Q3 & Q4)|destruct (S9 true) as (q & Q1 & Q2 & Q3 & Q4)]; by exists q.
Qed.
(** The cursors lead to the same children of the level as before. *)
Lemma full_follows deep up4 p3 i3 x m3' : length up4 = length rest -> leads ps (w_pages w) (root (w_tree w)) ((p3, i3) :: up4) own l x ->
  moved ps w1 (r_txn o1) (length rest) own0 l0 y (length (P1 ++ [child])) (length ((P1 ++ [child]) ++ P2)) (length LP) false j2 own2 lp (deep ++ (p3, i3) :: up4) m3' ->
  exists e up', m3' = deep ++ e :: up' /\ length up' = j2 /\
  leads ps (w_pages (r_txn o1)) (root (w_tree (r_txn o1))) (e :: up') (own2 ++ lp.*2) (with_sister l pos false kh hole (ct_sepkey c) s) (bump (S pos) x) /\
  (x = pos -> e = (if decide (length P1 < length LP)%nat then (p, length P1) else (sP, length P1 - length LP)%nat)).
Proof.
  intros Hl Hx Hm. destruct under_facts as (_ & _ & _ & _ & _ & _ & _ & _ & _ & _ & _ & Hgood & _).
  assert (w_pages w1 !! p = Some parent) as Hp1 by (rewrite under_w1; [done|exact under_parent]).
  destruct full_halves as (x0 & R' & ER & Elp & HLR & HL & Hlk & (q1 & A1 & A2 & A3 & A4) & (q2 & B1 & B2 & B3 & B4)).
  assert (length (P1 ++ [child]) = S (length P1)) as Elen by (rewrite length_app; cbn; lia). rewrite Elen, Elp in Hm. rewrite Elp in Hlk |- *. rewrite Hword.
  eapply (rec_follows gc_alloc_single ps Hps w1 (length rest) own0 l0 parts y kp p parent P1 child P2 (ct_sepkey c) s under_tree0 under_parts Hy Hp1 Hbr Hgood
    (r_txn o1) sP LP RP x0 R' q1 q2 j2 own2 HLR HL ER Hlk A1 A2 A3 A4 B1 B2 B3 B4 up4 p3 i3 x deep m3' _ Hl); [|by apply under_leads|exact Hm].
  rewrite <- app_assoc. done.
Qed.

Lemma full_mn : exists e mn', r_mc o1 = e :: mn' /\ length mn' = j2 /\
  leads ps (w_pages (r_txn o1)) (root (w_tree (r_txn o1))) (e :: mn') (own2 ++ lp.*2) (with_sister l pos false kh hole (ct_sepkey c) s) (S pos) /\
  (length LP <= S (length P1) -> e.1 = sP)%nat.
Proof.
  destruct under_facts as (_ & _ & _ & _ & _ & _ & _ & _ & _ & _ & _ & Hgood & _).
  assert (w_pages w1 !! p = Some parent) as Hp1 by (rewrite under_w1; [done|exact under_parent]).
  destruct full_halves as (x0 & R' & ER & Elp & HLR & HL & Hlk & (q1 & A1 & A2 & A3 & A4) & (q2 & B1 & B2 & B3 & B4)).
  assert (length (P1 ++ [child]) = S (length P1)) as Elen by (rewrite length_app; cbn; lia).
  destruct (ss_mc _ _ _ _ _ _ _ _ _ _ _ _ _ _ _ _ _ _ _ _ _ _ _ Hsplit) as (pg & up' & E & Hl & Hu & Hpg); [right; by eapply bp_leaf|].
  rewrite Elen in E, Hu, Hpg. rewrite Elp in Hlk, Hu, Hpg |- *. eexists _, up'. split; [exact E|]. split; [exact Hl|]. split.
  - rewrite Hword. exact (rec_new gc_alloc_single ps Hps w1 (length rest) own0 l0 parts y kp p parent P1 child P2 (ct_sepkey c) s under_tree0 under_parts Hy Hp1 Hbr Hgood
      (r_txn o1) sP LP RP x0 R' q1 q2 j2 own2 HLR HL ER Hlk A1 A2 A3 A4 B1 B2 B3 B4 up' pg Hu Hpg).
  - intros Hle. cbn [fst]. unfold placed_at in Hpg. rewrite decide_False in Hpg by lia. cbn [fst] in Hpg.
    rewrite (with_sister_pages l0 y false kp p (it_key x0) sP Hy) in Hpg. cbn [sister_at] in Hpg.
    assert (length (take (S y) l0.*2) = S y) as El by (rewrite length_take, length_fmap; pose proof (lookup_lt_Some _ _ _ Hy); lia).
    rewrite lookup_app_r in Hpg by lia. rewrite El, Nat.sub_diag in Hpg. by injection Hpg.
Qed.
Lemma full_split : exists e0 up2 others2 o, r_others o1 = (e0 :: up2) :: others2 /\ keep_parent (r_txn o1) up2 (r_mc o1) = Some up2 /\
  split_close page_new_large ps ps2ln bmax lmax (r_txn o1) others2 None true c hole (length I1) new up2 (r_mc o1) = Some o /\
  split_ends w others others ((p, length P1) :: rest) own l pos kh mp I1 I2 new itnew o.
Proof.
  pose proof Hcase as [C1 C2 C3 C4 C5 C6 C7]. destruct under_facts as (fresh & r & L & R & x & R' & Hfin & Hd & Hf & ER & Ex & Hgood & Hleft).
  destruct full_front as [Hfr _]. destruct under_outside as (O1 & O2 & O3 & O4 & O5).
  pose proof (ss_others _ _ _ _ _ _ _ _ _ _ _ _ _ _ _ _ _ _ _ _ _ _ _ Hsplit) as Hoth. apply Forall2_cons_inv_l in Hoth as (m' & others2 & Hm & Hoth & Eoth).
  cbn [ad_flags] in Hm, Hoth. change (replaces 0) with false in Hm, Hoth.
  assert (leads ps (w_pages w) (root (w_tree w)) ((p, length P1) :: rest) own l pos) as Hup0 by exact C2.
  destruct (full_follows [(hole, length I1)] rest p (length P1) pos m' eq_refl Hup0 Hm) as (e & up' & -> & Hl2 & Hup2 & He). specialize (He eq_refl).
  unfold bump in Hup2. rewrite decide_True in Hup2 by lia.
  destruct full_mn as (e' & mn' & Emc & Hl3 & Hmn2 & He').
  destruct full_halves as (x0 & R0 & ER0 & Elp & HLR & HL & Hlk & (q1 & A1 & A2 & A3 & A4) & (q2 & B1 & B2 & B3 & B4)).
  assert (w_pages w1 !! p = Some parent) as Hp1 by (rewrite under_w1; [done|exact under_parent]).
  assert (linked w1 (r_txn o1) (S (length rest)) own l (sister_at pos front) s [] (S j2) (own2 ++ lp.*2) (with_sister l pos front kh hole (ct_sepkey c) s)) as Hlink.
  { pose proof Hopen as (Hs1 & _ & Hw1 & _).
    pose proof (rec_linked gc_alloc_single ps Hps w1 (length rest) own0 l0 parts y kp p parent P1 child P2 (ct_sepkey c) s under_tree0 under_parts Hy Hp1 Hbr
      (tl_nodup _ _ _ _ _ C1) under_there O2 O3 ltac:(rewrite Hw1, lookup_insert_eq; by eexists) Hgood (r_txn o1) sP LP RP x0 R0 q1 q2 j2 own2 HLR HL ER0) as H.
    rewrite <- Elp, <- Hword in H. specialize (H Hlk (ss_fresh _ _ _ _ _ _ _ _ _ _ _ _ _ _ _ _ _ _ _ _ _ _ _ Hsplit) A1 A2 A3 A4 B1 B2 B3 B4).
    assert (sister_at pos front = S pos /\ with_sister l pos front kh hole (ct_sepkey c) s = with_sister l pos false kh hole (ct_sepkey c) s) as [-> ->] by by rewrite Hfr. exact H. }
  assert (with_sister l pos front kh hole (ct_sepkey c) s = with_sister l pos false kh hole (ct_sepkey c) s) as Ew by by rewrite Hfr.
  assert (leads ps (w_pages (r_txn o1)) (root (w_tree (r_txn o1))) (e :: up') (own2 ++ lp.*2) (with_sister l pos front kh hole (ct_sepkey c) s) pos) as Hup3 by by rewrite Ew.
  assert (front = false -> leads ps (w_pages (r_txn o1)) (root (w_tree (r_txn o1))) (e' :: mn') (own2 ++ lp.*2) (with_sister l pos front kh hole (ct_sepkey c) s) (S pos)) as Hmn3 by by rewrite Ew.
  assert (length (e :: up') = S j2) as Hupl by by rewrite <- Hl2.
  assert (length (e' :: mn') = length (e :: up')) as Hmnl by (cbn; by rewrite Hl2, Hl3).
  assert (adjusted ps w others (S (length rest)) own l pos kh mp I1 I2 new c (r_txn o1) (S j2) (own2 ++ lp.*2) (e :: up') (e' :: mn') L R None true others2) as Hadj.
  { apply (adjusted_split gc_alloc_single ps w others (S (length rest)) own l pos kh mp I1 I2 new c w1 C1 C3 (r_txn o1) (S j2) (own2 ++ lp.*2) Hlink
      (e :: up') (e' :: mn') Hup3 Hupl ltac:(lia) Hmn3 Hmnl L R others2 Hfr).
    eapply Forall2_impl; [exact Hoth|]. intros m3 m3' Hm3. split; [by apply Hm3|]. intros deep pg i up3 x3 -> Hlu Hx3 Hpg.
    destruct up3 as [|[p3 i3] up4]; [done|]. injection Hlu as Hlu. replace (deep ++ (pg, i) :: (p3, i3) :: up4) with ((deep ++ [(pg, i)]) ++ (p3, i3) :: up4) in Hm3 by by rewrite <- app_assoc.
    destruct (full_follows (deep ++ [(pg, i)]) up4 p3 i3 x3 m3' Hlu Hx3 Hm3) as (e3 & up5 & -> & Hl5 & Hup5 & _). exists (e3 :: up5).
    split; [by rewrite <- app_assoc|]. split; [cbn; lia|]. by rewrite Ew. }
  destruct (close_spec gc_alloc_single page_shadow_alloc page_new_large ps ps2ln w others (S (length rest)) own l pos kh mp parent path I1 I2 new itnew c w1 C1 C3 Hopen
    (r_txn o1) (S j2) (own2 ++ lp.*2) Hlink (e :: up') (e' :: mn') Hup3 Hupl ltac:(lia) Hmn3 Hmnl r L R fresh Hd Hf None true others2 Hfin) as (o & Eo & Ho);
    [by eapply splittable_filled|exact Hadj|done|].
  exists (hole, length I1), (e :: up'), others2, o. split; [exact Eoth|]. rewrite Emc. split; [|split; [exact Eo|right; by do 8 eexists]].
  subst e. destruct e' as [q' j0]. cbn [fst] in He'. unfold keep_parent, nkeys_of. case_decide as Hc.
  - rewrite A1. cbn [fmap option_fmap option_map mbind option_bind]. rewrite (page_numkeys_holds _ _ _ A4), headed_length.
    rewrite (bool_decide_false (_ <= _)%nat) by lia. by rewrite andb_false_r.
  - rewrite B1. cbn [fmap option_fmap option_map mbind option_bind]. rewrite He' by lia. by rewrite (bool_decide_false (sP <> sP)) by (intros H; by apply H).
Qed.
End full.
End under.

(** A page that has a parent. *)
Lemma under_spec split_above w p k rest own l pos kh mp I1 I2 new itnew others others2 root_split :
  split_case w ((p, k) :: rest) own l pos kh mp I1 I2 new itnew ->
  (root_split = None /\ others2 = others /\ splits_above split_above rest /\ root_can_grow w \/
    root_split = Some p /\ others = with_entry p <$> others2 /\ rest = [] /\ l = [(kh, page_pgno mp)] /\ own = [p] /\ k = O) ->
  exists o, under split_above w others2 root_split mp (page_pgno mp) (length I1) ((p, k) :: rest) new = Some o /\
  split_ends w others2 others ((p, k) :: rest) own l pos kh mp I1 I2 new itnew o.
Proof.
  intros Hcase Hmode. pose proof Hcase as [C1 C2 C3 C4 C5 C6 C7].
  destruct (leads_page _ _ _ _ _ _ _ _ _ C2) as (own0 & l0 & parts & y & kp & part & Eown & El & Hrest & Hparts & Hy & Hpart & Hk & Epos).
  destruct (Forall2_lookup_l _ _ _ _ _ Hparts Hy) as (part' & Hpart' & (parent & items & Hp & Hpp & Hbr & Epart)). cbn [fst snd] in Hp, Hpp, Epart.
  rewrite Hpart in Hpart'. injection Hpart' as <-. rewrite Epart in Hpart, Hk. rewrite relabel_length in Hk.
  destruct (lookup_lt_is_Some_2 items k Hk) as [child Hchild].
  assert (exists P1 P2, items = P1 ++ child :: P2 /\ k = length P1) as (P1 & P2 & -> & ->).
  { exists (take k items), (drop (S k) items). split; [by rewrite take_drop_middle|]. rewrite length_take. lia. }
  assert (kh = label kp P1 child /\ page_pgno mp = it_word child) as [-> Hword].
  { pose proof C3 as E. rewrite El, Epos in E. rewrite (concat_position _ _ _ _ Hpart) in E by by rewrite relabel_length. rewrite relabel_at in E. by injection E as <- ->. }
  rewrite Eown, El, Epos in *. clear Eown El Epos Hchild Hk.
  assert (tree_level ps w (length rest) own0 l0) as Htree0.
  { pose proof (proj1 (leads_level _ _ _ _ _ _ _ Hrest)) as Hl. destruct C1 as [D1 D2 D3]. apply NoDup_app in D2 as (D2 & _). split; [done|done|].
    intros z Hz. apply (level_there ps _ _ _ _ _ D1). apply elem_of_app. by right. }
  destruct (split_open_spec gc_alloc_single page_shadow_alloc page_new_large ps ps2ln reserve_factor prefer_waf Hres Hal w mp parent
    ((fun e : Z * nat => Z.of_nat e.2) <$> (p, length P1) :: rest) I1 I2 new itnew C5 C7 ltac:(by eexists)) as (ro & Ero & Hro).
  unfold split_under. rewrite Hp. cbn [mbind option_bind]. rewrite Ero. cbn [mbind option_bind].
  destruct ro as [[rc w1]|[c w1]].
  - destruct Hro as [Hr Hfl]. eexists. split; [done|]. left. unfold split_refused, split_failed. cbn. by rewrite Hfl.
  - set (path := (fun e : Z * nat => Z.of_nat e.2) <$> (p, length P1) :: rest) in *.
    assert (same_or_rooted rest own0 l0 parts kp p P1 child mp others root_split others2) as Hother.
    { destruct Hmode as [(-> & -> & _ & _)|(-> & E1 & E2 & E3 & E4 & E5)]; [by left|right]. apply nil_length_inv in E5. done. }
    destruct (under_facts w rest own0 l0 parts y kp p parent P1 child mp I1 I2 new itnew Hcase c w1 path Hro eq_refl) as (_ & _ & _ & _ & _ & _ & _ & _ & _ & _ & _ & Hgood & _).
    destruct (decide (page_room parent < 2 + Z.of_nat (item_size (mk_item (page_pgno (ct_sister c)) 0 (ct_sepkey c) [])))) as [Hfull|Hroom].
    + destruct (under_parent_case w rest own0 l0 parts y kp p parent P1 child P2 Htree0 Hrest Hy Hp Hpp Hbr mp I1 I2 new itnew Hcase c w1 path Hro eq_refl Hfull) as [Epf Hpc].
      rewrite Epf. cbn [mbind option_bind]. destruct Hmode as [(-> & -> & Hab & Hgrow)|(-> & E1 & -> & E3 & E4 & E5)].
      * destruct (Hab w1 (((page_pgno mp, length I1) :: (p, length P1) :: rest) :: others) _ _ _ _ _ _ _ _ _ Hpc) as (o1 & Eo1 & Ho1).
        { destruct Hro as (_ & _ & _ & _ & _ & [Q1 Q2] & _). unfold root_can_grow. by rewrite Q1, Q2. }
        rewrite Hpp, length_app in Eo1. cbn [length] in Eo1. rewrite Nat.add_1_r in Eo1. rewrite Eo1. cbn [mbind option_bind].
        destruct Ho1 as [(F1 & F2 & F3 & F4)|(sP & sep1 & LP & RP & front1 & j2 & own2 & lp & Hsplit)].
        -- rewrite F4. rewrite decide_True by by apply (refused_fails gc_alloc_single page_shadow_alloc ps Hal). eexists. split; [done|]. left. destruct Hro as (_ & _ & _ & _ & (Q & _) & _).
          unfold split_refused, split_failed. cbn. rewrite F2, Q, <- Z.lor_assoc, Z.lor_diag. done.
        -- destruct (full_split w rest own0 l0 parts y kp p parent P1 child P2 Htree0 Hparts Hy Hp Hpp Hbr mp I1 I2 new itnew Hword Hcase others c w1 path Hro eq_refl Hfull
            o1 sP sep1 LP RP front1 j2 own2 lp Hsplit) as (e0 & up2 & others2 & o & Q1 & Q2 & Q3 & Q4).
          rewrite Q1, (ss_rc _ _ _ _ _ _ _ _ _ _ _ _ _ _ _ _ _ _ _ _ _ _ _ Hsplit). rewrite decide_False by (intros H; by apply H). rewrite Q2. cbn [mbind option_bind].
          exists o. split; [exact Q3|exact Q4].
      * exfalso. apply (branch_short parent _ (ct_sepkey c) (page_pgno (ct_sister c)) Hbr Hgood); [|exact Hfull].
        assert (l0 = [([], p)]) as ->. { inversion Hrest; subst. injection E4 as <-. done. }
        apply Forall2_cons_inv_l in Hparts as (pt & ? & _ & Hnil & ->). apply Forall2_nil_inv_l in Hnil as ->. destruct y; [|done]. injection Hpart as ->.
        cbn [concat] in E3. rewrite app_nil_r in E3. apply (f_equal length) in E3. rewrite relabel_length in E3. cbn in E3. lia.
    + destruct (under_direct w rest own0 l0 parts y kp p parent P1 child P2 Htree0 Hrest Hparts Hy Hp Hpp Hbr
        mp I1 I2 new itnew Hword Hcase others c w1 path Hro eq_refl root_split others2 Hroom Hother) as (q & o & Eq & Eo & Ho).
      rewrite Eq. cbn [mbind option_bind]. rewrite decide_False by (intros H; by apply H). exists o. split; [exact Eo|exact Ho].
Qed.
End split.
