(* ===== verification/SplitTreeProps.v ===== *)
(** * The split of pages up to the root: a new root, and the recursion *)

From S2P Require Import Prelude Meta Cmp CmpProps Page PageFacts PageOps PageProps Limits LimitsProps Split SplitFacts SplitMove SplitKey SplitProps SplitTree SplitTreeFacts SplitTreeLink SplitTreeClose SplitTreeUnder.

Section root.
Context (gc_alloc_single : nat -> Z + page_t) (page_shadow_alloc : nat -> option page_t) (page_new_large : Z -> Z + Z).
Context (ps ps2ln reserve_factor : Z) (prefer_waf : bool).
Abbreviation bmax := (BRANCH_NODE_MAX ps).
Abbreviation lmax := (LEAF_NODE_MAX ps).
Abbreviation size := (Z.to_nat (PAGESPACE ps)).
Abbreviation supply := (supply gc_alloc_single).
Abbreviation linked := (linked gc_alloc_single ps).
Abbreviation split_succeeds := (split_succeeds gc_alloc_single ps).
Abbreviation split_case := (split_case gc_alloc_single page_new_large ps ps2ln).
Abbreviation split_ends := (split_ends gc_alloc_single ps).
Context (Hps : ps ∈ page_sizes) (Hres : 0 <= reserve_factor <= 32768) (Hal : allocator_ok gc_alloc_single page_shadow_alloc ps).

(** The new root with its one node. *)
Definition first_child (pgno : Z) : item := mk_item pgno 0 [] [].

Lemma new_root_page fresh pgno tf : length (page_body fresh) = size -> 0 <= pgno < 2 ^ 32 ->
  exists q, node_add_branch bmax tf (page_new fresh P_BRANCH ps) 0 None pgno = Some (MDBX_SUCCESS, q, tf) /\
  page_pgno q = page_pgno fresh /\ branch_page ps q [first_child pgno].
Proof.
  intros Hlen Hpg. set (p := page_new fresh P_BRANCH ps).
  assert (PAGESPACE ps = ps - PAGEHDRSZ /\ PAGEHDRSZ <= ps <= 2 ^ 16) as [Esp Hr] by (revert Hps; clear; intros H; each_size H; vm_compute; repeat split; congruence).
  assert (page_holds size p ([] ++ [])) as Hp.
  { unfold p. rewrite <- Hlen. apply page_new_holds; [by rewrite Hlen, Esp|vm_compute; split; congruence|done|done]. }
  destruct (node_sizes ps Hps) as (B1 & _ & B3 & B4 & _).
  assert (NODESIZE + EVEN_CEIL 0 <= bmax) as Hb by (pose proof (EVEN_CEIL_mono 0 (keysize_max ps 0)); lia). change (EVEN_CEIL 0) with 0 in Hb.
  destruct (node_add_branch_spec size p [] [] bmax tf None pgno Hp) as (rc & q & fl & E & H); [done|cbn; lia|cbn; unfold NODESIZE in *; lia|done|].
  pose proof (page_room_items _ _ _ Hp) as Hroom. change (items_size ([] ++ [])) with O in Hroom. unfold NODESIZE, sizeof_indx_t in *.
  rewrite decide_True in H by (cbn; lia). destruct H as (-> & -> & Hq & Hqf & _). exists q. split; [exact E|]. split; [by rewrite (add_branch_pgno _ _ _ _ _ _ _ _ _ E)|].
  split; unfold is_leaf; rewrite ?Hqf; try done.
  - constructor; [split; [cbn; lia|done]|constructor].
  - constructor; [cbn; lia|constructor].
Qed.

(** The root page of the tree, which is the only page of its level. *)
Context (w : wtxn) (mp : page_t) (I1 I2 : list item) (new : add_t) (itnew : item).
Abbreviation hole := (page_pgno mp).
Context (Hcase : split_case w [] [] [([], hole)] 0 [] mp I1 I2 new itnew) (Hrange : 0 <= hole < 2 ^ 32) (Hheight : 0 <= height (w_tree w) < 2 ^ 16 - 1).

(** The transaction with the new root [q]. *)
Record rooted (w1 : wtxn) (q : page_t) : Prop := {
  ro_page : branch_page ps q [first_child hole];
  ro_new : w_pages w !! page_pgno q = None;
  ro_pages : w_pages w1 = <[page_pgno q := q]> (w_pages w);
  ro_tree : same_tree w w1;
  ro_root : root (w_tree w1) = page_pgno q;
  ro_height : height (w_tree w1) = height (w_tree w) + 1;
  ro_supply : supply w1
}.

Lemma add_root_spec : exists a, add_root gc_alloc_single ps bmax w mp = Some a /\
  match a with
  | inl (rc, w1) => refused gc_alloc_single rc /\ w_flags w1 = w_flags w
  | inr (rt, w1) => exists q, rt = page_pgno q /\ rooted w1 q
  end.
Proof.
  unfold add_root. pose proof (alloc_spec gc_alloc_single page_shadow_alloc ps Hal w P_BRANCH (sc_supply _ _ _ _ _ _ _ _ _ _ _ _ _ _ _ Hcase)) as Ha.
  destruct (alloc_page gc_alloc_single w P_BRANCH) as [[err|fresh] w0].
  - eexists. split; [done|]. by destruct Ha as (H1 & _ & H2).
  - destruct Ha as (Hlen & Hpg & Hpages & Htk & (T1 & T2 & T3) & [R1 R2]).
    destruct (new_root_page fresh hole (w_flags w0) Hlen Hrange) as (q & Eq & Eqp & Hq). cbn [w_flags with_tree]. rewrite Eq. cbn [mbind option_bind].
    rewrite decide_False by (intros H; by apply H). eexists. split; [done|]. exists q. split; [by rewrite Eqp|]. rewrite <- Eqp in Htk. pose proof Htk as (K1 & K2 & K3).
    split; try done.
    + by rewrite <- Hpages.
    + cbn. by rewrite Hpages.
    + cbn. rewrite R2. unfold u16. apply Z.mod_small. lia.
    + exact (taken_put gc_alloc_single w0 q Htk).
Qed.

Section rooted.
Context (w1 : wtxn) (q : page_t) (Hro : rooted w1 q).
Abbreviation r := (page_pgno q).

Lemma rooted_hole : w_pages w !! hole = Some mp /\ hole <> r /\ w_pages w1 !! hole = Some mp /\ w_pages w1 !! r = Some q.
Proof.
  pose proof (sc_page _ _ _ _ _ _ _ _ _ _ _ _ _ _ _ Hcase) as Hh. pose proof (ro_new _ _ Hro) as Hn. assert (hole <> r) as Hne by (intros E; rewrite <- E, Hh in Hn; done).
  rewrite (ro_pages _ _ Hro). split; [done|]. split; [done|]. split; [by rewrite lookup_insert_ne|by apply lookup_insert_eq].
Qed.

Lemma rooted_expands : Forall2 (expands ps (w_pages w1)) [([], r)] [[([], hole)]].
Proof.
  destruct rooted_hole as (_ & _ & _ & Hq). constructor; [|constructor]. exists q, [first_child hole]. split; [exact Hq|]. split; [done|]. split; [exact (ro_page _ _ Hro)|done].
Qed.

Lemma rooted_leads : leads ps (w_pages w1) (root (w_tree w1)) [(r, 0%nat)] [r] [([], hole)] 0.
Proof.
  rewrite (ro_root _ _ Hro). exact (leads_child ps (w_pages w1) r [] [] [([], r)] 0 [[([], hole)]] [([], hole)] [] r 0 (leads_root _ _ _) rooted_expands eq_refl eq_refl (le_n 1)).
Qed.

Lemma rooted_case : split_case w1 [(r, 0%nat)] [r] [([], hole)] 0 [] mp I1 I2 new itnew.
Proof.
  destruct rooted_hole as (Hh & Hne & Hh1 & _). destruct (ro_tree _ _ Hro) as (_ & T2 & _). split; try done.
  - split; [exact (proj1 (leads_level _ _ _ _ _ _ _ rooted_leads))| |].
    + cbn. repeat constructor; [intros H; apply list_elem_of_singleton in H; by symmetry in H|by intros ?%elem_of_nil].
    + intros z Hz. apply list_elem_of_singleton in Hz as ->. by eexists.
  - exact rooted_leads.
  - rewrite T2. exact (sc_split _ _ _ _ _ _ _ _ _ _ _ _ _ _ _ Hcase).
  - exact (sc_keys _ _ _ _ _ _ _ _ _ _ _ _ _ _ _ Hcase).
  - exact (ro_supply _ _ Hro).
Qed.

Lemma rooted_linked w2 b s changed j' own' l' : linked w1 w2 1 [r] [([], hole)] b s changed j' own' l' -> linked w w2 0 [] [([], hole)] b s changed j' own' l'.
Proof.
  intros [K1 K2 K3 K4 K5 K6 K7 K8]. split; try done.
  - intros z Hz. right. destruct (K4 z Hz) as [Hr|Hn]; [apply list_elem_of_singleton in Hr as ->; exact (ro_new _ _ Hro)|].
    rewrite (ro_pages _ _ Hro) in Hn. by apply lookup_insert_None in Hn as [Hn _].
  - intros z _ Hz Hs. assert (z <> r) as Hne by (intros ->; rewrite (ro_new _ _ Hro) in Hs; by destruct Hs).
    assert (w_pages w1 !! z = w_pages w !! z) as E by (rewrite (ro_pages _ _ Hro); by apply lookup_insert_ne).
    rewrite K5; [done|intros H; by apply list_elem_of_singleton in H|done|by rewrite E].
  - by eapply same_tree_trans; [exact (ro_tree _ _ Hro)|].
  - rewrite (ro_height _ _ Hro) in K8. lia.
Qed.

Lemma rooted_moved w2 pos newindx limit n replace j' own' l' m3 m3' :
  moved ps w1 w2 1 [r] [([], hole)] pos newindx limit n replace j' own' l' (with_entry r m3) m3' ->
  moved ps w w2 0 [] [([], hole)] pos newindx limit n replace j' own' l' m3 m3'.
Proof.
  intros [H1 H2]. split; [by intros ->; apply H1|]. intros deep pg i up x -> Hl Hx Hpg Hlim. destruct up; [|done]. inversion Hx; subst.
  apply (H2 deep pg i [(r, 0%nat)] 0%nat); try done; [|exact rooted_leads]. destruct deep; cbn; by rewrite <- ?app_assoc.
Qed.

Lemma rooted_ends others o : split_ends w1 others (with_entry r <$> others) [(r, 0%nat)] [r] [([], hole)] 0 [] mp I1 I2 new itnew o ->
  split_ends w others others [] [] [([], hole)] 0 [] mp I1 I2 new itnew o.
Proof.
  destruct (ro_tree _ _ Hro) as (T1 & _). intros [(F1 & F2 & F3)|(s & sep & L & R & front & j' & own' & l' & [S1 S2 S3 S4 S5 S6 S7 S8 S9 S10 S11])].
  - left. split; [done|]. by rewrite <- T1.
  - right. exists s, sep, L, R, front, j', own', l'. split; try done.
    + rewrite (ro_pages _ _ Hro) in S6. by apply lookup_insert_None in S6 as [S6 _].
    + by apply rooted_linked.
    + apply (Forall2_fmap_l (with_entry r)) in S10. eapply Forall2_impl; [exact S10|]. intros m3 m3' Hm. by apply rooted_moved.
Qed.
End rooted.
End root.

Section recursion.
Context (gc_alloc_single : nat -> Z + page_t) (page_shadow_alloc : nat -> option page_t) (page_new_large : Z -> Z + Z).
Context (ps ps2ln reserve_factor : Z) (prefer_waf : bool).
Context (Hps : ps ∈ page_sizes) (Hres : 0 <= reserve_factor <= 32768) (Hal : allocator_ok gc_alloc_single page_shadow_alloc ps).
Abbreviation split_case := (split_case gc_alloc_single page_new_large ps ps2ln).
Abbreviation split_ends := (split_ends gc_alloc_single ps).
Abbreviation split_page := (page_split gc_alloc_single page_shadow_alloc page_new_large ps ps2ln (BRANCH_NODE_MAX ps) (LEAF_NODE_MAX ps) reserve_factor prefer_waf).

(** The whole split, for a page of any level: enough fuel is the number of levels. *)
Lemma page_split_spec up fuel w others own l pos kh mp I1 I2 new itnew :
  split_case w up own l pos kh mp I1 I2 new itnew -> (length up < fuel)%nat -> root_can_grow w ->
  exists o, split_page fuel w others ((page_pgno mp, length I1) :: up) new = Some o /\
  split_ends w others others up own l pos kh mp I1 I2 new itnew o.
Proof.
  revert fuel w others own l pos kh mp I1 I2 new itnew. induction up as [|[p k] rest IH]; intros fuel w others own l pos kh mp I1 I2 new itnew Hcase Hfuel Hgrow;
    (destruct fuel as [|fuel]; [cbn in Hfuel; lia|]); cbn [SplitTree.page_split]; rewrite (sc_page _ _ _ _ _ _ _ _ _ _ _ _ _ _ _ Hcase); cbn [mbind option_bind].
  - pose proof (sc_leads _ _ _ _ _ _ _ _ _ _ _ _ _ _ _ Hcase) as Hl. inversion Hl; subst.
    pose proof (sc_pos _ _ _ _ _ _ _ _ _ _ _ _ _ _ _ Hcase) as Hp. injection Hp as <- Hr. destruct Hgrow as [Hrange Hheight]. rewrite Hr in *.
    destruct (add_root_spec gc_alloc_single page_shadow_alloc page_new_large ps ps2ln Hps Hal w mp I1 I2 new itnew Hcase Hrange Hheight) as (a & Ea & Ha).
    rewrite Ea. cbn [mbind option_bind]. destruct a as [[rc w1]|[rt w1]].
    + destruct Ha as [H1 H2]. eexists. split; [done|]. left. unfold split_refused, split_failed. cbn. by rewrite H2.
    + destruct Ha as (q & -> & Hro).
      destruct (under_spec gc_alloc_single page_shadow_alloc page_new_large ps ps2ln reserve_factor prefer_waf Hps Hres Hal (split_page fuel) w1 (page_pgno q) 0 []
        [page_pgno q] [([], page_pgno mp)] 0 [] mp I1 I2 new itnew (with_entry (page_pgno q) <$> others) others (Some (page_pgno q))) as (o & Eo & Ho);
        [by eapply rooted_case|by right|]. exists o. split; [exact Eo|]. by eapply rooted_ends.
  - destruct (under_spec gc_alloc_single page_shadow_alloc page_new_large ps ps2ln reserve_factor prefer_waf Hps Hres Hal (split_page fuel) w p k rest
      own l pos kh mp I1 I2 new itnew others others None Hcase) as (o & Eo & Ho); [|by exists o].
    left. split; [done|]. split; [done|]. split; [|done]. intros w' others' own' l' pos' kh' mp' J1 J2 new' itnew' Hcase' Hgrow'. apply IH; [done|cbn in Hfuel; lia|done].
Qed.
End recursion.
