(* ===== verification/SplitTreeLeaf.v ===== *)
(** * The split of pages up to the root: the tree as the list of its entries

    The items of all leaves, from left to right, and the place of a cursor in
    this list: what a split, or an insertion, does is an insertion into the list. *)

From S2P Require Import Prelude Meta Cmp CmpProps Page PageFacts PageOps PageProps Limits LimitsProps Split SplitFacts SplitMove SplitKey SplitProps SplitTree SplitTreeFacts SplitTreeLink SplitTreeClose SplitTreeUnder SplitTreeProps.

Section leaves.
Context (ps : Z).
Abbreviation size := (Z.to_nat (PAGESPACE ps)).

Definition leaf_holds (m : gmap Z page_t) (r : ref) (items : list item) : Prop :=
  exists p, m !! r.2 = Some p /\ page_pgno p = r.2 /\ is_leaf p = true /\ page_holds size p items.

(** The leaves are the level [j] of the tree. *)
Record tree_holds (w : wtxn) (j : nat) (own : list Z) (l : list ref) (leaves : list (list item)) : Prop := {
  th_level : tree_level ps w j own l;
  th_leaves : Forall2 (leaf_holds (w_pages w)) l leaves
}.

(** The stack of a cursor leads to the entry [g]. *)
Definition at_entry (w : wtxn) (j : nat) (own : list Z) (l : list ref) (leaves : list (list item)) (m3 : stack) (g : nat) : Prop :=
  exists pg i up x items, m3 = (pg, i) :: up /\ length up = j /\ leads ps (w_pages w) (root (w_tree w)) up own l x /\
  l.*2 !! x = Some pg /\ leaves !! x = Some items /\ (i < length items)%nat /\ g = (length (concat (take x leaves)) + i)%nat.

Lemma leaf_holds_frame m m' r items : m' !! r.2 = m !! r.2 -> leaf_holds m r items -> leaf_holds m' r items.
Proof. intros E (p & H1 & H2). exists p. by rewrite E. Qed.

(** The keys that the branches have for the leaves separate their items: a search
    that goes down by these keys comes to the right leaf. *)
Definition separated (lt : list Z -> list Z -> Prop) (l : list ref) (leaves : list (list item)) : Prop :=
  forall x k pg, (0 < x)%nat -> l !! x = Some (k, pg) ->
  Forall (fun it => lt (it_key it) k) (concat (take x leaves)) /\ Forall (fun it => ~ lt (it_key it) k) (concat (drop x leaves)).

(** The leaf [pos] is where a search for the key ends. *)
Definition belongs (lt : list Z -> list Z -> Prop) (l : list ref) (pos : nat) (key : list Z) : Prop :=
  forall x k pg, (0 < x)%nat -> l !! x = Some (k, pg) -> (lt key k <-> (pos < x)%nat).

Definition in_order (lt : list Z -> list Z -> Prop) : list item -> Prop := StronglySorted (fun a b => lt (it_key a) (it_key b)).

(** A page of the list becomes two. *)
Section cut.
Context (w w2 : wtxn) (j : nat) (own : list Z) (l : list ref) (leaves : list (list item)) (pos : nat) (kh : list Z) (hole s : Z) (sep : list Z) (front : bool).
Context (gc_alloc_single : nat -> Z + page_t) (j' : nat) (own' : list Z) (I1 I2 L R : list item) (itnew : item).
Context (Htree : tree_holds w j own l leaves) (Hpos : l !! pos = Some (kh, hole)) (Hitems : leaves !! pos = Some (I1 ++ I2)) (HLR : L ++ R = I1 ++ itnew :: I2).
Abbreviation l' := (with_sister l pos front kh hole sep s).
Context (Hlink : linked gc_alloc_single ps w w2 j own l (sister_at pos front) s [hole] j' own' l').
Context (Hpages : forall right_ : bool, exists q, let pgno := if xorb front right_ then s else hole in
  w_pages w2 !! pgno = Some q /\ page_pgno q = pgno /\ is_leaf q = true /\ page_holds size q (if right_ then R else L)).
Abbreviation leaves' := (in_two leaves pos L R).
Abbreviation n := (length (concat (take pos leaves)) + length I1)%nat.

Lemma cut_lengths : (length L + length R = S (length (I1 ++ I2)))%nat.
Proof. rewrite <- length_app, HLR, !length_app. cbn. lia. Qed.

Lemma cut_entries : concat leaves' = take n (concat leaves) ++ itnew :: drop n (concat leaves).
Proof.
  rewrite in_two_concat, HLR, (concat_split _ _ _ Hitems), take_app_add, drop_app_add, take_app_le by (rewrite !length_app; lia).
  rewrite drop_app_le by (rewrite !length_app; lia). rewrite take_app_length, drop_app_length. by rewrite <- !app_assoc.
Qed.

Lemma cut_holds : tree_holds w2 j' own' l' leaves'.
Proof.
  destruct Htree as [[Hl Hn Ht] Hlv]. destruct Hlink as [K1 K2 K3 K4 K5 K6 K7 K8].
  assert (forall i r items, i <> pos -> l !! i = Some r -> leaf_holds (w_pages w) r items -> leaf_holds (w_pages w2) r items) as Hother.
  { intros i [k z] items Hi Hr. apply leaf_holds_frame. cbn. assert (l.*2 !! i = Some z) as Hz by by rewrite list_lookup_fmap, Hr.
    apply K5; [|intros E; apply list_elem_of_singleton in E as ->; apply Hi; by eapply only_there|by apply Ht; eapply list_elem_of_lookup_2].
    intros Ho. apply NoDup_app in Hn as (_ & Hd & _). apply (Hd z Ho). by eapply list_elem_of_lookup_2. }
  assert (forall i, i <> pos -> option_Forall2 (leaf_holds (w_pages w2)) (l !! i) (leaves !! i)) as Hsame.
  { intros i Hi. pose proof (proj1 (Forall2_lookup _ _ _) Hlv i) as H. destruct (l !! i) as [r|] eqn:E; inversion H as [a b' Hab|]; constructor. by eapply Hother. }
  assert (Forall2 (leaf_holds (w_pages w2)) l' leaves') as Hnew.
  { unfold with_sister, in_two. apply Forall2_app; [|apply Forall2_app].
    - apply Forall2_lookup. intros i. destruct (decide (i < pos)%nat) as [Hi|Hi]; [|rewrite !lookup_take_ge by lia; constructor].
      rewrite !lookup_take_lt by done. apply Hsame. lia.
    - destruct (Hpages false) as (q1 & A1 & A2 & A3 & A4), (Hpages true) as (q2 & B1 & B2 & B3 & B4). rewrite xorb_false_r in A1, A2. rewrite xorb_true_r in B1, B2.
      destruct front; cbn [negb] in *; (apply Forall2_cons; split; [by exists q1|]); (apply Forall2_cons; split; [by exists q2|constructor]).
    - apply Forall2_lookup. intros i. rewrite !lookup_drop. apply Hsame. lia. }
  split; [|done]. split; [done|done|]. intros z Hz. apply list_elem_of_lookup in Hz as (i & Hi). rewrite list_lookup_fmap in Hi.
  destruct (l' !! i) as [[k z']|] eqn:E; [|done]. injection Hi as ->. destruct (Forall2_lookup_l _ _ _ _ _ Hnew E) as (items & _ & (p & Hp & _)). by eexists.
Qed.

Lemma cut_separated lt (x0 : item) (R' : list item) : StrictOrder lt -> R = x0 :: R' -> it_key x0 = sep ->
  separated lt l leaves -> belongs lt l pos (it_key itnew) -> in_order lt (concat leaves') -> separated lt l' leaves'.
Proof.
  clear Hlink Hpages Htree.
  intros Hlt ER Esep Hsep Hb Ho x k pg Hx Hk. pose proof (lookup_lt_Some _ _ _ Hpos) as Hll. pose proof (lookup_lt_Some _ _ _ Hitems) as Hlv.
  assert (length (take pos l) = pos) as El by (rewrite length_take; lia). assert (length (take pos leaves) = pos) as El2 by (rewrite length_take; lia).
  assert (forall P : item -> Prop, Forall P (concat (take pos leaves) ++ I1 ++ I2) -> P itnew -> Forall P (concat (take pos leaves) ++ L ++ R)) as Hin1.
  { intros P H Hnew. rewrite HLR. apply Forall_app in H as [H1 H2]. apply Forall_app in H2 as [H2 H3]. repeat (apply Forall_app; split; [done|]). by apply Forall_cons. }
  assert (forall P : item -> Prop, Forall P ((I1 ++ I2) ++ concat (drop (S pos) leaves)) -> P itnew -> Forall P ((L ++ R) ++ concat (drop (S pos) leaves))) as Hin2.
  { intros P H Hnew. rewrite HLR. apply Forall_app in H as [H1 H2]. apply Forall_app in H1 as [H1 H3]. apply Forall_app. split; [|done]. apply Forall_app. split; [done|]. by apply Forall_cons. }
  destruct (decide (x <= pos)%nat) as [Hc|Hc]; [|destruct (decide (x = S pos)) as [->|Hc2]].
  - assert (exists pg', l !! x = Some (k, pg')) as [pg' Hk'].
    { destruct (decide (x = pos)) as [->|Hne].
      - unfold with_sister in Hk. rewrite lookup_app_r, El, Nat.sub_diag in Hk by lia. exists hole. rewrite Hpos. by destruct front; injection Hk as <- <-.
      - unfold with_sister in Hk. rewrite lookup_app_l, lookup_take_lt in Hk by lia. by exists pg. }
    destruct (Hsep x k pg' Hx Hk') as [H1 H2]. split.
    + unfold in_two. rewrite take_app_le, take_take, Nat.min_l by lia. done.
    + unfold in_two. rewrite drop_app_le by lia.
      assert (drop x leaves = drop x (take pos leaves) ++ (I1 ++ I2) :: drop (S pos) leaves) as E.
      { rewrite <- (take_drop_middle _ _ _ Hitems) at 1. by rewrite drop_app_le by lia. }
      rewrite E, concat_app, concat_cons in H2. apply Forall_app in H2 as [H2 H3]. rewrite concat_app. apply Forall_app. split; [done|].
      cbn [concat app]. rewrite app_assoc. apply Hin2; [done|]. intros Hl. apply (Hb x k pg' Hx Hk') in Hl. lia.
  - assert (k = sep) as ->.
    { unfold with_sister in Hk. rewrite lookup_app_r, El in Hk by lia. replace (S pos - pos)%nat with 1%nat in Hk by lia. by destruct front; injection Hk as <- <-. }
    unfold in_order in Ho. rewrite in_two_concat, ER, <- app_assoc, app_assoc in Ho. cbn [app] in Ho. apply StronglySorted_app in Ho as (H1 & _ & H2).
    rewrite <- Esep. unfold in_two. replace (S pos) with (length (take pos leaves) + 1)%nat by lia. rewrite take_app_add, drop_app_add. cbn [take drop app].
    rewrite concat_app. cbn [concat]. rewrite app_nil_r, ER. replace (length (take pos leaves) + 1)%nat with (S pos) by lia. apply StronglySorted_inv in H2 as [_ H2].
    split; [apply Forall_forall; intros it Hit; apply (H1 it x0 Hit); by left|].
    cbn [app]. apply Forall_cons. split; [apply irreflexivity; apply _|].
    eapply Forall_impl; [exact H2|]. intros it Hit Hit2. by apply (asymmetry (R := lt) Hit).
  - assert (l !! (x - 1)%nat = Some (k, pg)) as Hk'.
    { unfold with_sister in Hk. rewrite lookup_app_r, El in Hk by lia. rewrite lookup_app_r in Hk by (destruct front; cbn; lia).
      rewrite lookup_drop in Hk. rewrite <- Hk. f_equal. destruct front; cbn [length]; lia. }
    destruct (Hsep (x - 1)%nat k pg ltac:(lia) Hk') as [H1 H2]. assert (x = S (x - 1)) as Ex by lia. set (y := (x - 1)%nat) in *.
    unfold in_two. assert (x = length (take pos leaves) + (2 + (y - S pos)))%nat as Ey by lia. rewrite Ey, take_app_add, drop_app_add. cbn [take drop app Nat.add].
    rewrite (take_drop_commute leaves (y - S pos) (S pos)), drop_drop. replace (S pos + (y - S pos))%nat with y by lia. split; [|done].
    assert (concat (take y leaves) = concat (take pos leaves) ++ (I1 ++ I2) ++ concat (drop (S pos) (take y leaves))) as E.
    { rewrite (concat_split (take y leaves) pos (I1 ++ I2)) by (by rewrite lookup_take_lt by lia). by rewrite take_take, Nat.min_l by lia. }
    rewrite E, app_assoc in H1. apply Forall_app in H1 as [H1 H3]. rewrite concat_app. cbn [concat]. rewrite !app_assoc. apply Forall_app. split; [|done].
    rewrite <- app_assoc. apply Hin1; [done|]. apply (Hb y k pg ltac:(lia) Hk'). lia.
Qed.

(** The leaves as the other cursors have them: still with the entry that is replaced. *)
Definition seen (replace : bool) : list (list item) := if replace then <[pos := I1 ++ itnew :: I2]> leaves else leaves.

Lemma seen_behind replace x : (pos < x)%nat ->
  length (concat (take x (seen replace))) = (length (concat (take x leaves)) + if replace then 1 else 0)%nat.
Proof.
  intros Hx. unfold seen. destruct replace; [|lia]. rewrite (concat_take_insert leaves pos x _ _ Hitems), decide_True by done.
  pose proof (concat_take_lt leaves pos x _ Hitems Hx). rewrite !length_app in *. cbn [length]. lia.
Qed.

Lemma cut_position replace x i items : seen replace !! x = Some items -> (i < length items)%nat ->
  let d := destination pos (length I1) (length L) replace x i in let g := (length (concat (take x (seen replace))) + i)%nat in
  (x = pos -> i <= length (I1 ++ I2))%nat /\
  exists items', leaves' !! d.1 = Some items' /\ (d.2 < length items')%nat /\
  (if replace then g else bump n g) = (length (concat (take d.1 leaves')) + d.2)%nat.
Proof.
  intros Hx Hi d g. pose proof (lookup_lt_Some _ _ _ Hitems) as Hlt. pose proof cut_lengths as Hcl. destruct (in_two_at leaves pos L R Hlt) as (E1 & E2 & E3 & E4).
  assert (length (concat (take pos (seen replace))) = length (concat (take pos leaves))) as Ep.
  { unfold seen. destruct replace; [|done]. by rewrite take_insert_ge. }
  unfold d, destination. destruct (decide (x = pos)) as [->|Hne].
  - assert (length items = length (I1 ++ I2) + if replace then 1 else 0)%nat as Hlen.
    { unfold seen in Hx. destruct replace; [rewrite list_lookup_insert_eq in Hx by done|rewrite Hitems in Hx]; injection Hx as <-; rewrite !length_app; cbn; lia. }
    split; [destruct replace; lia|]. unfold g. rewrite Ep. set (i' := if decide (length I1 <= i)%nat then (if replace then i else S i) else i).
    assert ((if replace then length (concat (take pos leaves)) + i else bump n (length (concat (take pos leaves)) + i)) = length (concat (take pos leaves)) + i')%nat as ->
      by (unfold i', bump; destruct replace; repeat case_decide; lia).
    assert (i' < length L + length R)%nat as Hi' by (unfold i'; destruct replace; repeat case_decide; lia).
    case_decide; cbn [fst snd]; [exists L|exists R]; (split; [done|]); (split; [lia|]); rewrite ?E3, ?E4; lia.
  - assert (leaves !! x = Some items) as Hx'.
    { unfold seen in Hx. destruct replace; [by rewrite list_lookup_insert_ne in Hx|done]. }
    split; [done|]. cbn [fst snd]. exists items. unfold g. destruct (decide (x < pos)%nat) as [Hc|Hc].
    + assert (bump pos x = x) as -> by (unfold bump; by rewrite decide_True). destruct (in_two_front leaves pos L R x Hlt Hc) as [-> ->]. split; [done|]. split; [done|].
      assert (take x (seen replace) = take x leaves) as -> by (unfold seen; destruct replace; [by rewrite take_insert_ge by lia|done]).
      pose proof (concat_take_lt leaves x pos _ Hx' Hc). unfold bump. destruct replace; [done|]. by rewrite decide_True by lia.
    + assert (pos < x)%nat as Hc' by lia. assert (bump pos x = S x) as -> by (unfold bump; by rewrite decide_False). destruct (in_two_behind leaves pos L R _ x Hitems Hc') as [-> Eb]. split; [done|]. split; [done|].
      rewrite (seen_behind replace x Hc'). pose proof (concat_take_lt leaves pos x _ Hitems Hc') as Hlt2. rewrite length_app in *.
      unfold bump. destruct replace; [lia|]. rewrite decide_False by lia. lia.
Qed.

Lemma cut_follows replace m3 m3' g :
  moved ps w w2 j own l pos (length I1) (length (I1 ++ I2)) (length L) replace j' own' l' m3 m3' ->
  at_entry w j own l (seen replace) m3 g -> at_entry w2 j' own' l' leaves' m3' (if replace then g else bump n g).
Proof.
  intros [_ Hm] (pg & i & up & x & items & -> & Hl & Hx & Hpg & Hit & Hi & ->).
  destruct (cut_position replace x i items Hit Hi) as [Hlim (items' & H1 & H2 & H3)].
  destruct (Hm [] pg i up x eq_refl Hl Hx Hpg Hlim) as (pg' & up' & -> & Hl' & Hx' & Hpg').
  exists pg', (destination pos (length I1) (length L) replace x i).2, up', (destination pos (length I1) (length L) replace x i).1, items'. split_and!; [done|done|exact Hx'|exact Hpg'|exact H1|exact H2|exact H3].
Qed.

Lemma cut_new pg up' : let d := placed_at pos (length I1) (length L) in
  length up' = j' -> leads ps (w_pages w2) (root (w_tree w2)) up' own' l' d.1 -> l'.*2 !! d.1 = Some pg ->
  at_entry w2 j' own' l' leaves' ((pg, d.2) :: up') n.
Proof.
  intros d Hl Hx Hpg. pose proof (lookup_lt_Some _ _ _ Hitems) as Hlt. pose proof cut_lengths as Hcl. destruct (in_two_at leaves pos L R Hlt) as (E1 & E2 & E3 & E4).
  rewrite length_app in Hcl. unfold d, placed_at in *. case_decide; cbn [fst snd] in *; eexists _, _, up', _, _;
    (split; [done|]); (split; [done|]); (split; [done|]); (split; [done|]); (split; [eassumption|]); rewrite ?E3, ?E4; lia.
Qed.
End cut.
End leaves.

Section insert.
Context (gc_alloc_single : nat -> Z + page_t) (page_shadow_alloc : nat -> option page_t) (page_new_large : Z -> Z + Z).
Context (ps ps2ln reserve_factor : Z) (prefer_waf : bool).
Abbreviation size := (Z.to_nat (PAGESPACE ps)).

(** A new entry for the leaf [pos], and the stack [up] that leads to this leaf. *)
Record entry_for (w : wtxn) (up : stack) (own : list Z) (l : list ref) (leaves : list (list item)) (pos : nat) (mp : page_t) (I1 I2 : list item) : Prop := {
  ef_tree : tree_holds ps w (length up) own l leaves;
  ef_leads : leads ps (w_pages w) (root (w_tree w)) up own l pos;
  ef_page : w_pages w !! page_pgno mp = Some mp;
  ef_pos : l.*2 !! pos = Some (page_pgno mp);
  ef_items : leaves !! pos = Some (I1 ++ I2);
  ef_supply : supply gc_alloc_single w
}.

(** The tree, the other cursors and the cursor [mc] after [itnew] has come in at [n] of the entries, in front of
    which it was removed before when it only is replaced; [placed] when the cursor is at it.  The branches lead to the entries as before. *)
Definition inserted (w : wtxn) (others : list stack) (j : nat) (own : list Z) (l : list ref) (leaves : list (list item)) (pos : nat) (I1 I2 : list item)
  (replace placed : bool) (itnew : item) (w2 : wtxn) (others2 : list stack) (mc2 : stack) : Prop :=
    let n := (length (concat (take pos leaves)) + length I1)%nat in
  exists j' own' l' leaves', tree_holds ps w2 j' own' l' leaves' /\ height (w_tree w2) - Z.of_nat j' = height (w_tree w) - Z.of_nat j /\
  concat leaves' = take n (concat leaves) ++ itnew :: drop n (concat leaves) /\
  Forall2 (fun m3 m3' => forall g, at_entry ps w j own l (seen leaves pos I1 I2 itnew replace) m3 g ->
    at_entry ps w2 j' own' l' leaves' m3' (if replace then g else bump n g)) others others2 /\
  (placed = true -> at_entry ps w2 j' own' l' leaves' mc2 n) /\
  (forall lt, StrictOrder lt -> separated lt l leaves -> belongs lt l pos (it_key itnew) -> in_order lt (concat leaves') -> separated lt l' leaves') /\
  supply gc_alloc_single w2 /\ same_tree w w2.

Lemma entry_page w up own l leaves pos mp I1 I2 : entry_for w up own l leaves pos mp I1 I2 ->
  is_leaf mp = true /\ page_holds size mp (I1 ++ I2) /\ exists kh, l !! pos = Some (kh, page_pgno mp).
Proof.
  intros [[Ht Hlv] _ Hp Hpos Hi _]. destruct (Forall2_lookup_r _ _ _ _ _ Hlv Hi) as ([kh z] & Hz & (p & E & _ & H1 & H2)). rewrite list_lookup_fmap, Hz in Hpos.
  injection Hpos as ->. cbn in E. rewrite Hp in E. injection E as <-. split; [done|]. split; [done|]. by exists kh.
Qed.

Context (Hps : ps ∈ page_sizes) (Hres : 0 <= reserve_factor <= 32768) (Hal : allocator_ok gc_alloc_single page_shadow_alloc ps).

Lemma page_split_inserts_spec fuel w others up own l leaves pos mp I1 I2 new itnew :
  entry_for w up own l leaves pos mp I1 I2 -> splittable page_new_large ps ps2ln (t_flags (w_tree w)) mp I1 I2 new itnew ->
  Forall (fun it => it_key it <> []) (tail (I1 ++ itnew :: I2)) -> (length up < fuel)%nat -> root_can_grow w ->
  exists o, page_split gc_alloc_single page_shadow_alloc page_new_large ps ps2ln (BRANCH_NODE_MAX ps) (LEAF_NODE_MAX ps) reserve_factor prefer_waf
  fuel w others ((page_pgno mp, length I1) :: up) new = Some o /\
  (split_refused gc_alloc_single w others o \/
    r_rc o = MDBX_SUCCESS /\
    inserted w others (length up) own l leaves pos I1 I2 (replaces (ad_flags new)) (bool_decide (I2 <> [])) itnew (r_txn o) (r_others o) (r_mc o)).
Proof.
  intros He Hs Hk Hfuel Hgrow. destruct (entry_page _ _ _ _ _ _ _ _ _ He) as (Hleaf & Hh & (kh & Hpos)). destruct He as [Ht Hl Hp _ Hit Hsup].
  assert (split_case gc_alloc_single page_new_large ps ps2ln w up own l pos kh mp I1 I2 new itnew) as Hcase.
  { destruct Ht as [Ht _]. split; done. }
  destruct (page_split_spec gc_alloc_single page_shadow_alloc page_new_large ps ps2ln reserve_factor prefer_waf Hps Hres Hal up fuel w others own l pos kh mp I1 I2 new itnew
    Hcase Hfuel Hgrow) as (o & Eo & Ho). exists o. split; [exact Eo|]. destruct Ho as [Ho|(s & sep & L & R & front & j' & own' & l' & [S1 S2 S3 S4 S5 S6 S7 S8 S9 S10 S11])]; [by left|right].
  rewrite Hleaf in S9. split; [done|]. exists j', own', l', (in_two leaves pos L R). subst l'. split_and!.
  - eapply (cut_holds ps w (r_txn o) (length up) own l leaves pos kh (page_pgno mp) s sep front); try done.
    intros right_. destruct (S9 right_) as (q & Q1 & Q2 & Q3 & Q4). exists q. split; [done|]. split; [done|]. split; [unfold is_leaf in Hleaf |- *; rewrite Q3; exact Hleaf|]. by destruct right_; [destruct R|destruct L].
  - exact (lk_height _ _ _ _ _ _ _ _ _ _ _ _ _ S8).
  - eapply cut_entries; [exact Hit|exact S2].
  - eapply Forall2_impl; [exact S10|]. intros m3 m3' Hm g Hg. eapply cut_follows; [exact Hit|exact S2|exact Hm|exact Hg].
  - intros HI. apply bool_decide_eq_true in HI. destruct (S11 (or_introl HI)) as (pg & up' & -> & H1 & H2 & H3). eapply cut_new; [exact Hit|exact S2|exact H1|exact H2|exact H3].
  - intros lt Hlt Hsep Hb Hord. destruct S4 as (x0 & R' & ER & Ex). eapply cut_separated; [exact Hpos|exact Hit|exact S2|exact Hlt|exact ER|exact Ex|exact Hsep|exact Hb|exact Hord].
  - exact (lk_supply _ _ _ _ _ _ _ _ _ _ _ _ _ S8).
  - exact (lk_tree _ _ _ _ _ _ _ _ _ _ _ _ _ S8).
Qed.
End insert.
