(* ===== verification/SplitTreeInsert.v ===== *)
(** * The insertion of a node by [cursor_put], with the split when the page is full *)

From S2P Require Import Prelude Meta Cmp CmpProps Page PageFacts PageOps PageProps Limits LimitsProps Split SplitFacts SplitMove SplitKey SplitProps SplitTree SplitTreeFacts SplitTreeLink SplitTreeClose SplitTreeUnder SplitTreeProps SplitTreeLeaf.

(** The flag for the split has no part in the node. *)
Lemma lor_replace_land f b : Z.land MDBX_SPLIT_REPLACE b = 0 -> Z.land (Z.lor f MDBX_SPLIT_REPLACE) b = Z.land f b.
Proof. intros H. by rewrite Z.land_lor_distr_l, H, Z.lor_0_r. Qed.

Lemma lor_replace_u8 f : u8 (Z.lor f MDBX_SPLIT_REPLACE) = u8 f.
Proof. unfold u8. rewrite <- !Z.land_ones by lia. by apply lor_replace_land. Qed.

Lemma lor_replace_sets f : replaces (Z.lor f MDBX_SPLIT_REPLACE) = true.
Proof.
  unfold replaces. apply bool_decide_eq_true. rewrite Z.land_lor_distr_l, Z.land_diag. intros E. apply Z.lor_eq_0_iff in E as [_ E]. by vm_compute in E.
Qed.

Definition for_replace (new : add_t) : add_t := mk_add (ad_key new) (ad_data new) (Z.lor (ad_flags new) MDBX_SPLIT_REPLACE) (ad_pgno new).

Lemma carries_replace page_new_large ps2ln lmax tree_flags new it :
  carries_leaf page_new_large ps2ln lmax tree_flags new it -> carries_leaf page_new_large ps2ln lmax tree_flags (for_replace new) it.
Proof.
  unfold carries_leaf, for_replace. cbn [ad_key ad_data ad_flags]. rewrite !(lor_replace_land (ad_flags new)) by done.
  rewrite (Z.lor_comm (Z.lor (ad_flags new) _)), Z.lor_assoc, !lor_replace_u8. by rewrite (Z.lor_comm N_BIG).
Qed.

Section insert.
Context (gc_alloc_single : nat -> Z + page_t) (page_shadow_alloc : nat -> option page_t) (page_new_large : Z -> Z + Z).
Context (ps ps2ln reserve_factor : Z) (prefer_waf : bool).
Abbreviation size := (Z.to_nat (PAGESPACE ps)).
Abbreviation bmax := (BRANCH_NODE_MAX ps).
Abbreviation lmax := (LEAF_NODE_MAX ps).

(** A node that can come into a leaf between the items [I1] and [I2], which have sizes and keys as the limits have them. *)
Record insertable (tree_flags : Z) (mp : page_t) (I1 I2 : list item) (new : add_t) (itnew : item) : Prop := {
  in_kind : Z.land (page_flags mp) P_BRANCH = 0;
  in_flags : 0 <= page_flags mp < 2 ^ 16;
  in_items : Forall (moves bmax lmax true) (I1 ++ I2);
  in_new : carries_leaf page_new_large ps2ln lmax tree_flags new itnew;
  in_naf : Z.land (ad_flags new) N_BIG = 0 /\ replaces (ad_flags new) = false;
  in_size : Forall (fun it => Z.of_nat (length (it_key it)) <= keysize_max ps 0) (I1 ++ itnew :: I2);
  in_empty : one_empty (I1 ++ I2);
  in_keys : Forall (fun it => it_key it <> []) (tail (I1 ++ itnew :: I2))
}.

Context (Hps : ps ∈ page_sizes) (Hres : 0 <= reserve_factor <= 32768) (Hal : allocator_ok gc_alloc_single page_shadow_alloc ps).
Abbreviation entry_for := (entry_for gc_alloc_single ps).
Abbreviation inserted := (inserted gc_alloc_single ps).

Lemma insertable_splits tree_flags mp I1 I2 new itnew insert_key :
  insertable tree_flags mp I1 I2 new itnew -> is_leaf mp = true -> page_holds size mp (I1 ++ I2) -> page_room mp < 2 + Z.of_nat (item_size itnew) ->
  let a := if (insert_key : bool) then new else for_replace new in
  splittable page_new_large ps ps2ln tree_flags mp I1 I2 a itnew /\ replaces (ad_flags a) = negb insert_key.
Proof.
  intros [H1 H2 H3 H4 [H5 H5'] H6 H7 H8] Hleaf Hh Hroom a. split; [|unfold a; destruct insert_key; [done|apply lor_replace_sets]].
  split; rewrite ?Hleaf; try done.
  - revert Hps. clear. intros H. each_size H; vm_compute; repeat split; congruence.
  - unfold a. destruct insert_key; [exact H4|by apply carries_replace].
  - destruct H4 as (_ & _ & Hr & _). unfold a. destruct insert_key; [done|]. cbn [for_replace ad_flags]. by rewrite !lor_replace_land.
Qed.

(** There is room: the page gets the node, and the cursors behind it are moved. *)
Section room.
Context (w : wtxn) (up : stack) (own : list Z) (l : list ref) (leaves : list (list item)) (pos : nat) (mp q : page_t) (I1 I2 : list item) (itnew : item).
Context (He : entry_for w up own l leaves pos mp I1 I2) (Hq : page_holds size q (I1 ++ itnew :: I2)) (Hqf : page_flags q = page_flags mp) (Hqp : page_pgno q = page_pgno mp).
Abbreviation w2 := (put_page w q).
Abbreviation leaves' := (<[pos := I1 ++ itnew :: I2]> leaves).

Lemma room_same z : z <> page_pgno mp -> w_pages w2 !! z = w_pages w !! z.
Proof. intros H. cbn. rewrite Hqp. by apply lookup_insert_ne. Qed.

Lemma room_own z : z ∈ own -> w_pages w2 !! z = w_pages w !! z.
Proof.
  intros Hz. apply room_same. intros ->. destruct (ef_tree _ _ _ _ _ _ _ _ _ _ _ He) as [[_ Hn _] _]. apply NoDup_app in Hn as (_ & Hd & _).
  apply (Hd _ Hz). eapply list_elem_of_lookup_2. exact (ef_pos _ _ _ _ _ _ _ _ _ _ _ He).
Qed.

Lemma room_leads t x : leads ps (w_pages w) (root (w_tree w)) t own l x -> leads ps (w_pages w2) (root (w_tree w2)) t own l x.
Proof. apply (leads_frame ps (w_pages w)). exact room_own. Qed.

Lemma room_holds : tree_holds ps w2 (length up) own l leaves'.
Proof.
  destruct (entry_page _ _ _ _ _ _ _ _ _ _ _ He) as (Hleaf & _ & (kh & Hpos)). destruct (ef_tree _ _ _ _ _ _ _ _ _ _ _ He) as [[Hl Hn Ht] Hlv].
  pose proof (lookup_lt_Some _ _ _ (ef_items _ _ _ _ _ _ _ _ _ _ _ He)) as Hlt. split.
  - split; [apply (level_frame ps (w_pages w)); [exact room_own|done]|done|]. intros z Hz. destruct (decide (z = page_pgno mp)) as [->|Hne].
    + exists q. cbn. rewrite <- Hqp. apply lookup_insert_eq.
    + rewrite room_same by done. by apply Ht.
  - apply Forall2_lookup. intros x. destruct (decide (x = pos)) as [->|Hne].
    + rewrite Hpos, list_lookup_insert_eq by done. constructor. exists q. cbn. rewrite <- Hqp. split; [apply lookup_insert_eq|]. split; [done|]. split; [|done].
      unfold is_leaf in Hleaf |- *. by rewrite Hqf.
    + rewrite list_lookup_insert_ne by done. pose proof (proj1 (Forall2_lookup _ _ _) Hlv x) as H. destruct (l !! x) as [[k z]|] eqn:E; inversion H as [a b Hab|]; constructor.
      eapply leaf_holds_frame; [|exact Hab]. apply room_same. cbn. intros ->. apply Hne. by eapply only_there.
Qed.

Lemma room_entries : concat leaves' = take (length (concat (take pos leaves)) + length I1) (concat leaves) ++ itnew :: drop (length (concat (take pos leaves)) + length I1) (concat leaves).
Proof.
  pose proof (ef_items _ _ _ _ _ _ _ _ _ _ _ He) as Hit. rewrite (concat_insert _ _ _ _ Hit), (concat_split _ _ _ Hit), take_app_add, drop_app_add, take_app_le by (rewrite !length_app; lia).
  rewrite drop_app_le by (rewrite !length_app; lia). rewrite take_app_length, drop_app_length. by rewrite <- !app_assoc.
Qed.

Lemma shift_top ki insert_key mpno mk pg i t : length t = length up ->
  shift_cursor mpno ki insert_key ((mpno, mk) :: up) ((pg, i) :: t) = (pg, if bool_decide (pg = mpno) && bool_decide (ki <= i)%nat && (insert_key : bool) then S i else i) :: t.
Proof.
  intros Hl. unfold shift_cursor. cbn [length]. rewrite Hl, Nat.sub_diag. cbn [lookup list_lookup]. rewrite (bool_decide_true (_ <= _)%nat) by lia. cbn [andb].
  by destruct (_ && _).
Qed.

Lemma room_follows insert_key m3 g : at_entry ps w (length up) own l (seen leaves pos I1 I2 itnew (negb insert_key)) m3 g ->
  at_entry ps w2 (length up) own l leaves' (shift_cursor (page_pgno mp) (length I1) insert_key ((page_pgno mp, length I1) :: up) m3)
  (if negb insert_key then g else bump (length (concat (take pos leaves)) + length I1) g).
Proof.
  intros (pg & i & t & x & items & -> & Hl & Hx & Hpg & Hit & Hi & ->). rewrite shift_top by done.
  pose proof (ef_items _ _ _ _ _ _ _ _ _ _ _ He) as Hip. pose proof (lookup_lt_Some _ _ _ Hip) as Hlt. pose proof (concat_take_insert leaves pos x _ (I1 ++ itnew :: I2) Hip) as Et.
  assert (pg = page_pgno mp <-> x = pos) as Hxp.
  { destruct (ef_tree _ _ _ _ _ _ _ _ _ _ _ He) as [[_ Hn _] _]. apply NoDup_app in Hn as (_ & _ & Hn). pose proof (ef_pos _ _ _ _ _ _ _ _ _ _ _ He) as Hp2. split.
    - intros ->. by eapply (NoDup_lookup _ _ _ _ Hn).
    - intros ->. rewrite Hp2 in Hpg. by injection Hpg. }
  apply room_leads in Hx. destruct insert_key; cbn [negb seen] in *.
  - rewrite andb_true_r. destruct (decide (x = pos)) as [->|Hne].
    + rewrite Hip in Hit. injection Hit as <-. rewrite (bool_decide_true (pg = _)) by by apply Hxp. cbn [andb]. rewrite decide_False in Et by lia.
      eexists pg, _, t, pos, (I1 ++ itnew :: I2). split_and!; try done; [by apply list_lookup_insert_eq| |]; rewrite ?Et, ?length_app in *; cbn [length] in *; unfold bump;
        (case_bool_decide; [|lia]) || case_bool_decide; repeat case_decide; lia.
    + rewrite (bool_decide_false (pg = _)) by by rewrite Hxp. cbn [andb]. exists pg, i, t, x, items. split_and!; try done; [by rewrite list_lookup_insert_ne|].
      rewrite Et. unfold bump. destruct (decide (pos < x)%nat) as [Hc|Hc].
      * pose proof (concat_take_lt leaves pos x _ Hip Hc) as H. rewrite !length_app in *. cbn [length]. rewrite decide_False by lia. lia.
      * pose proof (concat_take_lt leaves x pos _ Hit ltac:(lia)). rewrite decide_True by lia. lia.
  - rewrite andb_false_r. by exists pg, i, t, x, items.
Qed.

Lemma room_new : at_entry ps w2 (length up) own l leaves' ((page_pgno mp, length I1) :: up) (length (concat (take pos leaves)) + length I1).
Proof.
  pose proof (lookup_lt_Some _ _ _ (ef_items _ _ _ _ _ _ _ _ _ _ _ He)) as Hlt. exists (page_pgno mp), (length I1), up, pos, (I1 ++ itnew :: I2).
  split_and!; try done.
  - apply room_leads. exact (ef_leads _ _ _ _ _ _ _ _ _ _ _ He).
  - exact (ef_pos _ _ _ _ _ _ _ _ _ _ _ He).
  - by apply list_lookup_insert_eq.
  - rewrite length_app. cbn. lia.
  - by rewrite take_insert_ge.
Qed.

Lemma room_separated lt : separated lt l leaves -> belongs lt l pos (it_key itnew) -> separated lt l leaves'.
Proof.
  intros Hsep Hb x k pg Hx Hk. destruct (Hsep x k pg Hx Hk) as [H1 H2]. pose proof (Hb x k pg Hx Hk) as Hi.
  pose proof (ef_items _ _ _ _ _ _ _ _ _ _ _ He) as Hit. destruct (decide (pos < x)%nat) as [Hc|Hc].
  - rewrite take_insert_lt, drop_insert_lt by lia. split; [|done].
    rewrite (concat_insert _ _ (I1 ++ I2)) by (by rewrite lookup_take_lt). rewrite (concat_split (take x leaves) pos (I1 ++ I2)) in H1 by (by rewrite lookup_take_lt).
    apply Forall_app in H1 as [H1 H3]. apply Forall_app in H3 as [H3 H4]. apply Forall_app in H3 as [H3 H5].
    apply Forall_app. split; [done|]. apply Forall_app. split; [|done]. apply Forall_app. split; [done|]. apply Forall_cons. split; [by apply Hi|done].
  - rewrite take_insert_ge, drop_insert_ge by lia. split; [done|].
    assert (drop x leaves !! (pos - x)%nat = Some (I1 ++ I2)) as Hd by (rewrite lookup_drop; by replace (x + (pos - x))%nat with pos by lia).
    rewrite (concat_insert _ _ _ _ Hd). rewrite (concat_split _ _ _ Hd) in H2.
    apply Forall_app in H2 as [H2 H3]. apply Forall_app in H3 as [H3 H4]. apply Forall_app in H3 as [H3 H5].
    apply Forall_app. split; [done|]. apply Forall_app. split; [|done]. apply Forall_app. split; [done|]. apply Forall_cons. split; [by rewrite Hi|done].
Qed.
End room.

(** C5. The insertion of [cursor_put] (of a whole value, without [MDBX_RESERVE]) into a tree of any height: with [length up] levels of branches above
    the leaf and a node that is not too long, [insert_node] ends. Either no page could be had, then the
    leaf was full and the transaction is in error; or it succeeds, and the entries of all leaves from left to right are those of before
    with the new one at the place of the cursor. The other cursors of the table lead to the entries that they were at, and the cursor
    itself to the new entry, unless this came to the end of a page that was split. The keys in the branches separate the leaves as before. *)
Theorem insert_node_refines fuel w others up own l leaves pos mp I1 I2 new itnew insert_key :
  entry_for w up own l leaves pos mp I1 I2 -> insertable (t_flags (w_tree w)) mp I1 I2 new itnew -> (length up < fuel)%nat -> root_can_grow w ->
  exists o, insert_node gc_alloc_single page_shadow_alloc page_new_large ps ps2ln bmax lmax reserve_factor prefer_waf
  fuel w others ((page_pgno mp, length I1) :: up) insert_key new = Some o /\
  (split_refused gc_alloc_single w others o /\ page_room mp < 2 + Z.of_nat (item_size itnew) \/
    r_rc o = MDBX_SUCCESS /\
    inserted w others (length up) own l leaves pos I1 I2 (negb insert_key) (bool_decide (I2 <> []) || bool_decide (2 + Z.of_nat (item_size itnew) <= page_room mp))
    itnew (r_txn o) (r_others o) (r_mc o)).
Proof.
  intros He Hin Hfuel Hgrow. destruct (entry_page _ _ _ _ _ _ _ _ _ _ _ He) as (Hleaf & Hh & (kh & Hpos)). pose proof Hin as [_ _ _ H4 [H5 _] _ _ H8].
  unfold insert_node. rewrite (ef_page _ _ _ _ _ _ _ _ _ _ _ He). cbn [mbind option_bind]. rewrite (ph_dupfix _ _ _ Hh).
  assert (leaf_size lmax (val_of (ad_key new)) (ad_data new) = Z.of_nat (2 + item_size itnew)) as ->.
  { pose proof (newsize_spec page_new_large ps ps2ln (t_flags (w_tree w)) Hps mp new itnew) as H. rewrite Hleaf in H. specialize (H H4 (fun _ => H5)). by injection H. }
  rewrite Nat2Z.inj_add. change (Z.of_nat 2) with 2. case_decide as Hroom.
  - destruct (insertable_splits _ _ _ _ _ _ insert_key Hin Hleaf Hh Hroom) as [Hs Hr].
    destruct (page_split_inserts_spec gc_alloc_single page_shadow_alloc page_new_large ps ps2ln reserve_factor prefer_waf Hps Hres Hal fuel w others up own l leaves pos mp I1 I2 _ itnew
      He Hs H8 Hfuel Hgrow) as (o & Eo & Ho). rewrite Hr in Ho.
    exists o. split; [destruct insert_key; [by destruct new|exact Eo]|]. destruct Ho as [Ho|[Ho1 Ho2]]; [by left|right]. split; [done|].
    rewrite (bool_decide_false (2 + _ <= _)) by lia. by rewrite orb_false_r.
  - destruct (leaf_carried page_new_large ps2ln lmax (t_flags (w_tree w)) size mp I1 I2 (w_flags w) new itnew Hh Hleaf H4 ltac:(lia))
      as (fl & lp & r & E1 & E2 & Hrc & Htf & Hq & Hqf). pose proof (leaf_put_number _ _ _ _ _ _ _ _ _ E2) as Hqp.
    rewrite E1. cbn [mbind option_bind]. eexists. split; [done|]. right. cbn [r_rc r_txn r_others r_mc]. split; [done|]. rewrite Htf, (decide_True (P := la_rc r = _)) by done.
    exists (length up), own, l, (<[pos := I1 ++ itnew :: I2]> leaves).
    change (with_flags (put_page w (la_page r)) (w_flags w)) with (put_page w (la_page r)). split_and!.
    + by eapply (room_holds w up own l leaves pos mp (la_page r)).
    + done.
    + by eapply (room_entries w up own l leaves pos mp).
    + apply Forall2_fmap_r. apply Forall_Forall2_diag, Forall_forall. intros m3 _ g Hg. by apply (room_follows w up own l leaves pos mp (la_page r)).
    + intros _. by eapply (room_new w up own l leaves pos mp (la_page r)).
    + intros lt _ Hsep Hb _. by eapply (room_separated w up own l leaves pos mp).
    + apply supply_put; [exact (ef_supply _ _ _ _ _ _ _ _ _ _ _ He)|]. rewrite Hqp. by rewrite (ef_page _ _ _ _ _ _ _ _ _ _ _ He).
    + done.
Qed.
End insert.

Section correct.
Context (gc_alloc_single : nat -> Z + page_t) (page_shadow_alloc : nat -> option page_t) (page_new_large : Z -> Z + Z).
Context (ps ps2ln reserve_factor : Z) (prefer_waf : bool).

(** C30. The split of a page of any level, with its parents up to a new root: [page_split] ends when [fuel] is more than the number of levels above.
    Either no page could be had, or the items with the new one are in the page and a new one next to it in the level, the tree has its branches with one more
    child, nothing else in the tree has changed, and the other cursors and the cursor itself lead to the entries that they are for. *)
Theorem page_split_correct up fuel w others own l pos kh mp I1 I2 new itnew :
  ps ∈ page_sizes -> 0 <= reserve_factor <= 32768 -> allocator_ok gc_alloc_single page_shadow_alloc ps ->
  split_case gc_alloc_single page_new_large ps ps2ln w up own l pos kh mp I1 I2 new itnew -> (length up < fuel)%nat -> root_can_grow w ->
  exists o, page_split gc_alloc_single page_shadow_alloc page_new_large ps ps2ln (BRANCH_NODE_MAX ps) (LEAF_NODE_MAX ps) reserve_factor prefer_waf
  fuel w others ((page_pgno mp, length I1) :: up) new = Some o /\
  split_ends gc_alloc_single ps w others others up own l pos kh mp I1 I2 new itnew o.
Proof. intros. by apply page_split_spec. Qed.
End correct.

(** ** Examples *)

(** A root with two leaves, the first of which has no room for a long value. *)
Definition sample_alloc (n : nat) : Z + page_t :=
  if decide (n < 100)%nat then inr (mk_page 9 0 0 0 0 (50 + Z.of_nat n) (replicate 236 0)) else inl MDBX_ENOMEM.
Definition sample_shadow (n : nat) : option page_t := Some (blank 11).
Definition two_children : list item := [child 5 []; child 6 [10; 0]].
Definition two_root : page_t := make_page P_BRANCH 3 236 two_children.
Definition second_items : list item := [plain [10; 0] [1]; plain [11] [2]].
Definition second_leaf : page_t := make_page P_LEAF 6 236 second_items.
Definition two_leaves : wtxn := mk_wtxn (<[6 := second_leaf]> (<[5 := full_leaf]> (<[3 := two_root]> ∅))) 0 0 (mk_tree 0 2 0 3 1 2 0 0 7 0) 0.
Definition two_refs : list ref := [([], 5); ([10; 0], 6)].

Lemma sample_alloc_ok : allocator_ok sample_alloc sample_shadow 256.
Proof.
  unfold sample_alloc. split.
  - intros n e. case_decide as Hn; intros H; [done|]. injection H as <-. discriminate.
  - intros n p. case_decide as Hn; intros H; [|done]. injection H as <-. cbn [page_body page_pgno]. split; [by vm_compute|lia].
  - intros n p n' p'. case_decide as Hn; intros H; [|done]. case_decide as Hn'; intros H'; [|done]. injection H as <-. injection H' as <-. cbn. lia.
  - intros n p H. injection H as <-. reflexivity.
Qed.

Lemma two_root_branch : branch_page 256 two_root two_children.
Proof.
  split; try reflexivity.
  - apply make_page_holds; [reflexivity| |vm_compute; congruence|vm_compute; lia]. repeat (apply Forall_cons; split; [vm_compute; repeat split; congruence|]). constructor.
  - vm_compute. split; congruence.
  - repeat (apply Forall_cons; split; [vm_compute; split; congruence|]). constructor.
  - repeat (apply Forall_cons; split; [vm_compute; congruence|]). constructor.
  - split; [reflexivity|]. repeat (apply Forall_cons; split; [discriminate|]). constructor.
Qed.

Lemma two_leaves_expand : Forall2 (expands 256 (w_pages two_leaves)) [([], 3)] [two_refs].
Proof. constructor; [|constructor]. exists two_root, two_children. split; [reflexivity|]. split; [reflexivity|]. split; [exact two_root_branch|reflexivity]. Qed.

Lemma two_leaves_leads i : (i < 2)%nat -> leads 256 (w_pages two_leaves) 3 [(3, i)] [3] two_refs i.
Proof. intros H. exact (leads_child 256 (w_pages two_leaves) 3 [] [] [([], 3)] 0 [two_refs] two_refs [] 3 i (leads_root _ _ _) two_leaves_expand eq_refl eq_refl H). Qed.

Lemma two_leaves_level : tree_level 256 two_leaves 1 [3] two_refs.
Proof.
  split; [exact (proj1 (leads_level _ _ _ _ _ _ _ (two_leaves_leads 0 ltac:(lia))))| |].
  - apply (bool_decide_unpack _). reflexivity.
  - apply Forall_forall. repeat (apply Forall_cons; split; [by eexists|]). constructor.
Qed.

Lemma full_leaf_holds : page_holds 236 full_leaf full_items.
Proof. apply make_page_holds; [reflexivity| |vm_compute; congruence|vm_compute; lia]. repeat (apply Forall_cons; split; [vm_compute; repeat split; congruence|]). constructor. Qed.

Lemma second_leaf_holds : page_holds 236 second_leaf second_items.
Proof. apply make_page_holds; [reflexivity| |vm_compute; congruence|vm_compute; lia]. repeat (apply Forall_cons; split; [vm_compute; repeat split; congruence|]). constructor. Qed.

Lemma full_one_empty : one_empty full_items.
Proof.
  intros i j x y Hx _ Ex. exfalso. assert (Forall (fun it => it_key it <> []) full_items) as Hne by (repeat (apply Forall_cons; split; [done|]); constructor).
  by apply (proj1 (Forall_lookup _ _) Hne _ _ Hx).
Qed.

Lemma sample_supply : supply sample_alloc two_leaves.
Proof.
  intros n p _. unfold sample_alloc. case_decide as Hn; intros H; [|done]. injection H as <-. cbn [page_pgno two_leaves w_pages].
  rewrite !lookup_insert_ne by lia. done.
Qed.

Abbreviation new_item := (plain [3] (replicate 90 3)).
Lemma new_node_carried tree_flags : tree_flags = 0 -> carries_leaf (fun _ => inl MDBX_ENOMEM) 8 (LEAF_NODE_MAX 256) tree_flags new_node new_item.
Proof. intros ->. vm_compute. repeat split; try congruence. left. repeat split. Qed.

Lemma full_moves : Forall (moves (BRANCH_NODE_MAX 256) (LEAF_NODE_MAX 256) true) full_items.
Proof. repeat (apply Forall_cons; split; [vm_compute; split; congruence|]). constructor. Qed.

Lemma full_keys : Forall (fun it => Z.of_nat (length (it_key it)) <= keysize_max 256 0) (take 2 full_items ++ new_item :: drop 2 full_items) /\
  Forall (fun it => it_key it <> []) (tail (take 2 full_items ++ new_item :: drop 2 full_items)).
Proof. split; repeat (apply Forall_cons; split; [vm_compute; congruence|]); constructor. Qed.

Lemma sample_grows : root_can_grow two_leaves.
Proof. split; cbn; lia. Qed.

Abbreviation sample_others := [[(6, 1%nat); (3, 1%nat)]; [(5, 3%nat); (3, 0%nat)]].
Abbreviation sample_insert := (insert_node sample_alloc sample_shadow (fun _ => inl MDBX_ENOMEM) 256 8 (BRANCH_NODE_MAX 256) (LEAF_NODE_MAX 256) 0 true
  5 two_leaves sample_others [(5, 2%nat); (3, 0%nat)] true new_node).

(** The new node splits the first leaf; both cursors move to the entries they were at. *)
Lemma insert_node_refines_witness :
  exists o, sample_insert = Some o /\ r_rc o = MDBX_SUCCESS /\
  inserted sample_alloc 256 two_leaves sample_others 1 [3] two_refs [full_items; second_items] 0 (take 2 full_items) (drop 2 full_items) false true new_item
  (r_txn o) (r_others o) (r_mc o).
Proof.
  destruct (insert_node_refines sample_alloc sample_shadow (fun _ => inl MDBX_ENOMEM) 256 8 0 true ltac:(by vm_compute; set_solver) ltac:(lia) sample_alloc_ok 5 two_leaves
    sample_others [(3, 0%nat)] [3] two_refs [full_items; second_items] 0 full_leaf (take 2 full_items) (drop 2 full_items) new_node new_item true) as (o & E & H).
  - split.
    + split; [exact two_leaves_level|]. repeat (apply Forall2_cons; split); [exists full_leaf|exists second_leaf|constructor];
        (split; [reflexivity|]); (split; [reflexivity|]); (split; [reflexivity|]); [exact full_leaf_holds|exact second_leaf_holds].
    + exact (two_leaves_leads 0 ltac:(lia)).
    + reflexivity.
    + reflexivity.
    + by rewrite take_drop.
    + exact sample_supply.
  - split; rewrite ?take_drop; [reflexivity|vm_compute; split; congruence|exact full_moves|by apply new_node_carried|split; reflexivity|exact (proj1 full_keys)|exact full_one_empty|exact (proj2 full_keys)].
  - cbn. lia.
  - exact sample_grows.
  - exists o. assert ((fun o => w_flags (r_txn o)) <$> sample_insert = Some 0) as Ef by (vm_compute; reflexivity).
    change ([(page_pgno full_leaf, length (take 2 full_items)); (3, 0%nat)]) with [(5, 2%nat); (3, 0%nat)] in E. rewrite E in Ef. injection Ef as Ef. destruct H as [[(_ & F & _) _]|[H1 H2]]; [rewrite Ef in F; vm_compute in F; discriminate F|].
    split; [exact E|]. split; [exact H1|]. exact H2.
Defined.

Abbreviation sample_split := (page_split sample_alloc sample_shadow (fun _ => inl MDBX_ENOMEM) 256 8 (BRANCH_NODE_MAX 256) (LEAF_NODE_MAX 256) 0 true
  5 two_leaves sample_others [(5, 2%nat); (3, 0%nat)] new_node).

Lemma page_split_correct_witness :
  exists o s sep L R front j' own' l', sample_split = Some o /\
  split_succeeds sample_alloc 256 two_leaves sample_others 1 [3] two_refs 0 [] full_leaf (take 2 full_items) (drop 2 full_items) new_node new_item o s sep L R front j' own' l'.
Proof.
  destruct (page_split_correct sample_alloc sample_shadow (fun _ => inl MDBX_ENOMEM) 256 8 0 true [(3, 0%nat)] 5 two_leaves sample_others [3] two_refs 0 [] full_leaf
    (take 2 full_items) (drop 2 full_items) new_node new_item ltac:(by vm_compute; set_solver) ltac:(lia) sample_alloc_ok) as (o & E & H).
  - split; [exact two_leaves_level|exact (two_leaves_leads 0 ltac:(lia))|reflexivity|reflexivity| |exact (proj2 full_keys)|exact sample_supply].
    split; rewrite ?take_drop; [split; [reflexivity|split; vm_compute; congruence]|exact full_leaf_holds|reflexivity|vm_compute; split; congruence|exact full_moves|
      by apply new_node_carried|split; [reflexivity|intros _; reflexivity]|exact (proj1 full_keys)|exact full_one_empty|reflexivity|intros H; discriminate H].
  - cbn. lia.
  - exact sample_grows.
  - change ([(page_pgno full_leaf, length (take 2 full_items)); (3, 0%nat)]) with [(5, 2%nat); (3, 0%nat)] in E.
    assert ((fun o => w_flags (r_txn o)) <$> sample_split = Some 0) as Ef by (vm_compute; reflexivity).
    rewrite E in Ef. injection Ef as Ef. destruct H as [(_ & F & _)|(s & sep & L & R & front & j' & own' & l' & H)]; [rewrite Ef in F; vm_compute in F; discriminate F|].
    exists o, s, sep, L, R, front, j', own', l'. exact (conj E H).
Defined.

(** ** A new entry behind all others of a page *)

(** A full branch with eight children, the fourth of which is full too. *)
Definition twenty (x : Z) : list Z := x :: replicate 19 0.
Definition eight_children : list item := child 10 [] :: ((fun i => child (10 + i) (twenty (10 * i))) <$> [1; 2; 3; 4; 5; 6; 7]).
Definition eight_root : page_t := make_page P_BRANCH 3 236 eight_children.
Definition fourth_leaf : page_t := make_page P_LEAF 13 236 ((fun x => plain [x] (replicate 30 x)) <$> [30; 31; 32; 33; 34]).
Definition full_branch : wtxn := mk_wtxn (<[13 := fourth_leaf]> (<[3 := eight_root]> ∅)) 0 0 (mk_tree 0 2 0 3 1 8 0 0 40 0) 0.

(** The numbers of the pages that the nodes of a branch have. *)
Definition children_of (w : wtxn) (pgno : Z) : option (list Z) :=
  p ← w_pages w !! pgno;
  mapM (fun i => node ← page_node p i; node_pgno (page_body p) node) (seq 0 (page_numkeys p)).

(** C40. A new entry that comes behind all others of a full page goes to a page of its own. When the parent is split for this page, and its node is
    the first one of the right half, then only the indices of its stack are taken over, and the cursor is left with a page and an index
    that do not belong together: the new leaf 50 is the first child of page 52, which is the second child of the root 51,
    and the cursor has the indices for this with page 3 instead, whose first child is another leaf. *)
Theorem pure_right_loses_parent :
  let o := page_split sample_alloc sample_shadow (fun _ => inl MDBX_ENOMEM) 256 8 (BRANCH_NODE_MAX 256) (LEAF_NODE_MAX 256) 0 false
  5 full_branch [] [(13, 5%nat); (3, 3%nat)] (mk_add (twenty 35) (val_of (replicate 30 35)) 0 0) in
  r_rc <$> o = Some MDBX_SUCCESS /\ r_mc <$> o = Some [(50, 0%nat); (3, 0%nat); (51, 1%nat)] /\
  (o ≫= fun o => children_of (r_txn o) 51) = Some [3; 52] /\ (o ≫= fun o => children_of (r_txn o) 52) = Some [50; 14; 15; 16; 17] /\
  (o ≫= fun o => children_of (r_txn o) 3) = Some [10; 11; 12; 13].
Proof. vm_compute. repeat split. Qed.
