(* ===== verification/PageCheck.v ===== *)
(** * The check of a page

    [page_check] of mdbx.c looks at a page that was read from the file before the
    library relies on it: the header, the place of each node, the sizes and the
    order of the keys, the values, the nested pages of duplicates.  The results of
    [bad_page] and the messages are [MDBX_CORRUPTED]; [poor_page] only logs.

    The body of the page is the memory up to the end of the page, so [None] is an
    access beyond this end. *)

From S2P Require Import Prelude Meta Cmp Page Foliage Cursor Limits.

Definition z_updating : Z := 0x08.
Definition z_ignord : Z := 0x10.
Definition z_retiring : Z := 0x40.
Definition P_LEGACY_DIRTY : Z := 0x10.

(** Where a key is: its offset and its length. *)
Definition span : Type := nat * nat.
Definition span_bytes (b : list Z) (s : span) : option (list Z) := bytes_at b s.1 s.2.

(** The result so far, the previous key, the limits of keys (kept in the table) and of
    values (a copy). *)
Record chk := mk_chk { ck_rc : Z; ck_prev : option span; ck_k : clc_t; ck_v : clc_t }.

Definition bad (st : chk) : chk := mk_chk MDBX_CORRUPTED (ck_prev st) (ck_k st) (ck_v st).
Definition bad_if (c : bool) (st : chk) : chk := if c then bad st else st.
Definition set_prev (p : option span) (st : chk) : chk := mk_chk (ck_rc st) p (ck_k st) (ck_v st).
Definition set_k (c : clc_t) (st : chk) : chk := mk_chk (ck_rc st) (ck_prev st) c (ck_v st).
Definition set_v (c : clc_t) (st : chk) : chk := mk_chk (ck_rc st) (ck_prev st) (ck_k st) c.
Definition outside (c : clc_t) (n : Z) : bool := bool_decide (n < lmin c \/ n > lmax c).

Section Check.
Context (ps ps2ln first_unallocated geo_now : Z).
Context (address_ok modifable inner : bool) (checking : Z) (tree : tree_t).
Context (kcmp vcmp : list Z -> list Z -> Z).
(** The page with the given number, as the given snapshot sees it: its count of pages if
    it is a large page, or an error. *)
Context (large_page : Z -> Z -> Z + Z).

Definition flag (z : Z) : bool := bool_decide (Z.land checking z <> 0).

(** The order of adjacent keys. *)
Definition check_order (cmp : list Z -> list Z -> Z) (b : list Z) (here : span) (st : chk) : option chk :=
  if flag z_ignord then Some st
  else
    st ← match ck_prev st with
         | None => Some st
         | Some prev =>
             x ← span_bytes b prev; y ← span_bytes b here;
             Some (bad_if (bool_decide (0 <= cmp x y)) st)
         end;
    Some (set_prev (Some here) st).

(** ** Items of fixed size *)

Definition check_item_size (ksize : Z) (c : clc_t) : option clc_t :=
  if decide (ksize <> lmin c) then if outside c ksize then None else Some (mk_clc ksize ksize) else Some c.

Definition check_dupfix_item (mp : page_t) (i : nat) (st : chk) : option chk :=
  let ksize := dupfix_ksize mp in
  let key := page_dupfix_ptr mp i in
  let here := (key, Z.to_nat ksize) in
  if decide (length (page_body mp) < key + Z.to_nat ksize)%nat then Some (bad st)
  else
    let st := match check_item_size ksize (ck_k st) with Some c => set_k c st | None => bad st end in
    check_order kcmp (page_body mp) here st.

(** ** Nested pages of duplicates: [data] is the offset of the header *)

Definition sub_flags (b : list Z) (data : nat) : option Z := load 2 b (data + 10).
Definition sub_ksize (b : list Z) (data : nat) : option Z := load 2 b (data + 8).
Definition sub_lower (b : list Z) (data : nat) : option Z := load 2 b (data + 12).

Definition check_sub_dupfix (b : list Z) (data dsize ii : nat) (st : chk) : option chk :=
  ksize ← sub_ksize b data;
  let key := (data + 20 + Z.to_nat (ksize * u16 (Z.of_nat ii)))%nat in
  if decide (data + dsize < key + Z.to_nat ksize)%nat then Some (bad st)
  else
    let st := match check_item_size ksize (ck_v st) with Some c => set_v c st | None => bad st end in
    check_order vcmp b (key, Z.to_nat ksize) st.

Definition check_sub_node (b : list Z) (data dsize ii : nat) (st : chk) : option chk :=
  e ← load 2 b (data + 20 + 2 * ii);
  let node := (data + 20 + Z.to_nat e)%nat in
  if decide (data + dsize < node + 8)%nat then Some (bad st)
  else
    flags ← node_flags b node;
    let st := bad_if (bool_decide (flags <> 0)) st in
    ksize ← node_ks b node;
    let key := node_key node in
    sub_dsize ← node_ds b node;
    let st := bad_if (outside (ck_v st) ksize) st in
    st ← check_order vcmp b (key, Z.to_nat ksize) st;
    let st := bad_if (bool_decide (sub_dsize <> 0)) st in
    Some (bad_if (bool_decide (data + dsize < key + Z.to_nat ksize)%nat) st).

Fixpoint check_sub_items (n : nat) (dupfix : bool) (b : list Z) (data dsize ii : nat) (st : chk) : option chk :=
  match n with
  | O => Some st
  | S n =>
      st ← (if dupfix then check_sub_dupfix b data dsize ii st else check_sub_node b data dsize ii st);
      check_sub_items n dupfix b data dsize (S ii) st
  end.

Definition check_subpage (b : list Z) (data : nat) (dsize : Z) (st : chk) : option chk :=
  if decide (dsize <= PAGEHDRSZ) then Some (bad st)
  else
    flags ← sub_flags b data;
    let legacy := Z.land flags (Z.lnot P_LEGACY_DIRTY) in
    if negb (bool_decide (legacy = Z.lor P_LEAF P_SUBP \/ legacy = Z.lor P_LEAF (Z.lor P_DUPFIX P_SUBP))) then Some (bad st)
    else
      lower ← sub_lower b data;
      let nsubkeys := Z.to_nat (Z.shiftr lower 1) in
      let st := bad_if (bool_decide (nsubkeys = 0%nat) && negb (flag z_updating) && bool_decide (t_items tree <> 0)) st in
      st ← check_sub_items nsubkeys (bool_decide (Z.land flags P_DUPFIX <> 0)) b data (Z.to_nat dsize) 0 (set_prev None st);
      Some st.

(** ** Nodes *)

(** [page_check_bigdata_page_get] *)
Definition page_check_bigdata_page_get (mp : page_t) (i : nat) (flags pgno : Z) : Z + Z :=
  if flag z_retiring then inl MDBX_EINVAL
  else if negb (is_leaf mp) || bool_decide (page_numkeys mp <= i)%nat then inl MDBX_EINVAL
  else if decide (flags <> N_BIG) then inl MDBX_EINVAL
  else large_page pgno (page_txnid mp).

(** A node with its value on a large page; an error of reading that page ends the check. *)
Definition check_big (mp : page_t) (i data : nat) (flags dsize : Z) (st : chk) : option (Z + chk) :=
  let b := page_body mp in
  if decide (length b < data + 4)%nat then Some (inr (bad st))
  else
    let st := bad_if (bool_decide (dsize <= lmin (ck_v st) \/ dsize > lmax (ck_v st))) st in
    if flag z_retiring then Some (inr st)
    else
      pgno ← load 4 b data;
      match page_check_bigdata_page_get mp i flags pgno with
      | inl err => Some (inl err)
      | inr pages => Some (inr (bad_if (bool_decide (pages < largechunk_npages ps2ln dsize)) st))
      end.

Definition check_branch_node (i node : nat) (b : list Z) (ksize : Z) (st : chk) : option chk :=
  let st := bad_if (negb (flag z_updating) && bool_decide (i = 0%nat) && bool_decide (ksize <> 0)) st in
  ref ← node_pgno b node;
  let st := bad_if (bool_decide (ref < MIN_PAGENO \/ ref >= first_unallocated /\ (ref >= geo_now \/ flag z_retiring = false))) st in
  flags ← node_flags b node;
  Some (bad_if (bool_decide (flags <> 0)) st).

Definition check_value (b : list Z) (data : nat) (flags dsize : Z) (st : chk) : option chk :=
  if decide (Z.of_nat (length b) < Z.of_nat data + dsize) then Some (bad st)
  else if decide (flags = 0) then Some (bad_if (outside (ck_v st) dsize) st)
  else if decide (flags = N_TREE \/ flags = Z.lor N_TREE N_DUP) then Some (bad_if (bool_decide (dsize <> sizeof_tree_t)) st)
  else if decide (flags = N_DUP) then
    st' ← check_subpage b data dsize st; Some (set_prev (ck_prev st) st')
  else Some st.

Definition check_leaf_node (mp : page_t) (i node : nat) (st : chk) : option (Z + chk) :=
  let b := page_body mp in
  flags ← node_flags b node;
  let st := bad_if (negb (bool_decide (flags = N_BIG \/ flags = 0 \/ flags = N_TREE \/ flags = Z.lor N_TREE N_DUP \/ flags = N_DUP))) st in
  dsize ← node_ds b node;
  data ← node_data b node;
  if decide (Z.land flags N_BIG <> 0) then check_big mp i data flags dsize st
  else st ← check_value b data flags dsize st; Some (inr st).

Definition check_node (mp : page_t) (i : nat) (st : chk) : option (Z + chk) :=
  let b := page_body mp in
  node ← page_node mp i;
  if decide (length b < node + 8)%nat then Some (inr (bad st))
  else
    ksize ← node_ks b node;
    let st := bad_if (bool_decide (ksize > keysize_max ps 0)) st in
    let key := node_key node in
    if decide (length b < key + Z.to_nat ksize)%nat then Some (inr (bad st))
    else
      st ← (if is_leaf mp || bool_decide (0 < i)%nat
            then check_order kcmp b (key, Z.to_nat ksize) (bad_if (outside (ck_k st) ksize) st) else Some st);
      if is_branch mp then st ← check_branch_node i node b ksize st; Some (inr st)
      else check_leaf_node mp i node st.

Fixpoint check_nodes (n : nat) (mp : page_t) (i : nat) (st : chk) : option (Z + chk) :=
  match n with
  | O => Some (inr st)
  | S n =>
      r ← (if is_dupfix_leaf mp then st ← check_dupfix_item mp i st; Some (inr st) else check_node mp i st);
      match r with inl err => Some (inl err) | inr st => check_nodes n mp (S i) st end
  end.

(** ** The page *)

Definition check_header (mp : page_t) (st : chk) : chk :=
  let st := bad_if (bool_decide (page_pgno mp < MIN_PAGENO \/ page_pgno mp > MAX_PAGENO)) st in
  let st := bad_if (negb address_ok) st in
  bad_if (bool_decide (Z.land (page_flags mp) (P_ILL_BITS - P_SUBP) <> 0)) st.

(** The type of the page: [None] is a type that does not exist. *)
Definition check_type (mp : page_t) (st : chk) : option chk :=
  let type := page_type mp in
  let st := bad_if (bool_decide (Z.land type P_SUBP <> 0 /\ height tree <> 1)) st in
  if decide (type = P_LEAF \/ type = Z.lor P_LEAF P_SUBP) then Some (bad_if (flag z_dupfix) st)
  else if decide (type = Z.lor P_LEAF P_DUPFIX \/ type = Z.lor P_LEAF (Z.lor P_DUPFIX P_SUBP)) then Some (bad_if (negb (flag z_dupfix)) st)
  else if decide (type = P_BRANCH) then Some st
  else None.

Definition check_large (mp : page_t) (st : chk) : chk :=
  let st := bad_if inner st in
  let npages := page_pages mp in
  let st := bad_if (bool_decide (npages < 1 \/ npages >= MAX_PAGENO / 2)) st in
  bad_if (bool_decide (u32 (page_pgno mp + npages) > first_unallocated)) st.

Definition check_bounds (mp : page_t) (st : chk) : chk :=
  let nkeys := Z.of_nat (page_numkeys mp) in
  let upper := page_upper mp in
  let st := bad_if (bool_decide (upper < page_lower mp \/ Z.land (page_lower mp) 1 <> 0 \/ PAGEHDRSZ + upper > ps)) st in
  let st := bad_if (bool_decide (nkeys <= Z.land (page_flags mp) P_BRANCH) &&
    (negb inner || bool_decide (t_items tree <> 0)) && (negb (flag z_updating) || negb (modifable || is_subpage mp))) st in
  if is_dupfix_leaf mp then
    bad_if (negb inner || bool_decide (Z.land (t_flags tree) MDBX_DUPFIXED = 0 \/ dupfix_ksize mp <> dupfix_size tree \/
      Z.land (Z.lxor (Z.land (dupfix_ksize mp) nkeys) upper) 1 <> 0)) st
  else bad_if (bool_decide (Z.land upper 1 <> 0 \/ PAGEHDRSZ + upper + nkeys * NODESIZE + nkeys - 1 > ps)) st.

(** [page_check] with the limits [k] of keys and [v] of values, which [value_clc] gives;
    the result has the limits of keys as they are left. *)
Definition page_check (mp : page_t) (k v : clc_t) : option (Z * clc_t) :=
  let st := check_header mp (mk_chk MDBX_SUCCESS None k v) in
  if decide (page_type mp = P_LARGE) then Some (ck_rc (check_large mp st), k)
  else
    match check_type mp st with
    | None => Some (MDBX_CORRUPTED, k)
    | Some st =>
        let st := check_bounds mp st in
        r ← check_nodes (page_numkeys mp) mp 0 st;
        match r with inl err => Some (err, ck_k st) | inr st => Some (ck_rc st, ck_k st) end
    end.

Definition value_clc (v : clc_t) : clc_t := if inner then mk_clc 0 0 else v.

End Check.
