(* ===== verification/PageCheckProps.v ===== *)
(** * Theorems on the check of a page *)

From S2P Require Import Prelude Meta Cmp CmpProps Page PageFacts PageOps Foliage Cursor Limits LimitsProps PageCheck.

Lemma good_bad_if c st : ck_rc (bad_if c st) = MDBX_SUCCESS <-> c = false /\ ck_rc st = MDBX_SUCCESS.
Proof. destruct c; cbn; [|tauto]. split; [intros H; discriminate H|intros [H _]; discriminate H]. Qed.
Lemma prev_bad_if c st : ck_prev (bad_if c st) = ck_prev st.
Proof. by destruct c. Qed.
Lemma k_bad_if c st : ck_k (bad_if c st) = ck_k st.
Proof. by destruct c. Qed.
Lemma v_bad_if c st : ck_v (bad_if c st) = ck_v st.
Proof. by destruct c. Qed.

Ltac chk_norm := repeat (rewrite ?good_bad_if, ?prev_bad_if, ?k_bad_if, ?v_bad_if, ?bool_decide_eq_false in *|-*); cbn in *.

Lemma not_or (P Q : Prop) : ~ (P \/ Q) -> ~ P /\ ~ Q.
Proof. tauto. Qed.

Section Sound.
Context (ps ps2ln first_unallocated geo_now : Z).
Context (address_ok modifable inner : bool) (checking : Z) (tree : tree_t).
Context (kcmp vcmp : list Z -> list Z -> Z) (large_page : Z -> Z -> Z + Z).

Abbreviation flagged := (flag checking).
Abbreviation order := (check_order checking).

(** ** What a successful step says *)

Lemma order_good cmp b here st st' :
  order cmp b here st = Some st' -> ck_rc st' = MDBX_SUCCESS ->
  ck_rc st = MDBX_SUCCESS /\ ck_k st' = ck_k st /\ ck_v st' = ck_v st /\
  (flagged z_ignord = false -> ck_prev st' = Some here /\
    forall p, ck_prev st = Some p -> exists x y, span_bytes b p = Some x /\ span_bytes b here = Some y /\ cmp x y < 0).
Proof.
  unfold check_order. intros H Hrc. destruct (flagged z_ignord); [by injection H as <-|].
  destruct (ck_prev st) as [p|] eqn:Hp.
  - apply bind_Some in H as (st1 & H1 & [= <-]). apply bind_Some in H1 as (x & Hx & H1). apply bind_Some in H1 as (y & Hy & [= <-]).
    cbn in *. chk_norm. destruct Hrc as [Hc Hrc]. split; [done|]. split; [done|]. split; [done|]. intros _.
    split; [done|]. intros p' [= <-]. exists x, y. split; [done|]. split; [done|lia].
  - injection H as <-. done.
Qed.

Lemma sub_items_good n dupfix b data dsize : forall ii st st',
  check_sub_items checking vcmp n dupfix b data dsize ii st = Some st' -> ck_rc st' = MDBX_SUCCESS ->
  ck_rc st = MDBX_SUCCESS /\ ck_k st' = ck_k st.
Proof.
  induction n as [|n IH]; intros ii st st' H Hrc; cbn in H; [by injection H as <-|].
  apply bind_Some in H as (st1 & H1 & H). destruct (IH _ _ _ H Hrc) as [Hrc1 Hk1]. rewrite Hk1. clear IH H. destruct dupfix.
  - unfold check_sub_dupfix in H1. apply bind_Some in H1 as (ksize & _ & H1). case_decide; [injection H1 as <-; discriminate Hrc1|].
    destruct (order_good _ _ _ _ _ H1 Hrc1) as (Hg & -> & _). destruct (check_item_size _ _); [done|discriminate Hg].
  - unfold check_sub_node in H1. apply bind_Some in H1 as (e & _ & H1). case_decide; [injection H1 as <-; discriminate Hrc1|].
    apply bind_Some in H1 as (fl & _ & H1). apply bind_Some in H1 as (ks & _ & H1). apply bind_Some in H1 as (ds & _ & H1).
    apply bind_Some in H1 as (st2 & H2 & [= <-]). chk_norm. destruct Hrc1 as (_ & _ & Hrc1).
    destruct (order_good _ _ _ _ _ H2 Hrc1) as (Hg & -> & _). chk_norm. tauto.
Qed.

Lemma subpage_good b data dsize st st' :
  check_subpage checking tree vcmp b data dsize st = Some st' -> ck_rc st' = MDBX_SUCCESS ->
  ck_rc st = MDBX_SUCCESS /\ ck_k st' = ck_k st.
Proof.
  unfold check_subpage. intros H Hrc. case_decide; [injection H as <-; discriminate Hrc|].
  apply bind_Some in H as (fl & _ & H). destruct (negb _); [injection H as <-; discriminate Hrc|].
  apply bind_Some in H as (lw & _ & H). apply bind_Some in H as (st1 & H & [= <-]).
  destruct (sub_items_good _ _ _ _ _ _ _ _ H Hrc) as [Hg ->]. cbn in *. chk_norm. tauto.
Qed.

(** The nodes of a page that passed the check are inside of it: the header, the key,
    and the value or the number of its large page. *)
Definition value_fine (b : list Z) (node : nat) : Prop :=
  exists flags dsize data, node_flags b node = Some flags /\ node_ds b node = Some dsize /\ node_data b node = Some data /\
  if decide (Z.land flags N_BIG <> 0) then (data + 4 <= length b)%nat else Z.of_nat data + dsize <= Z.of_nat (length b).

Definition child_fine (b : list Z) (node : nat) : Prop :=
  exists ref, node_pgno b node = Some ref /\ node_flags b node = Some 0 /\ MIN_PAGENO <= ref /\
  (ref < first_unallocated \/ ref < geo_now /\ flagged z_retiring = true).

Definition node_fine (mp : page_t) (k : clc_t) (i : nat) (s : span) : Prop :=
  exists node ksize, page_node mp i = Some node /\ node_ks (page_body mp) node = Some ksize /\
  s = (node_key node, Z.to_nat ksize) /\ (node_key node + Z.to_nat ksize <= length (page_body mp))%nat /\
  ksize <= keysize_max ps 0 /\ (is_leaf mp = true \/ (0 < i)%nat -> lmin k <= ksize <= lmax k) /\
  if is_branch mp then child_fine (page_body mp) node else value_fine (page_body mp) node.

Lemma branch_node_good i node b ksize st st' :
  check_branch_node first_unallocated geo_now checking i node b ksize st = Some st' -> ck_rc st' = MDBX_SUCCESS ->
  ck_rc st = MDBX_SUCCESS /\ ck_prev st' = ck_prev st /\ ck_k st' = ck_k st /\ child_fine b node.
Proof.
  unfold check_branch_node. intros H Hrc. apply bind_Some in H as (ref & Hr & H). apply bind_Some in H as (fl & Hfl & [= <-]).
  chk_norm. destruct Hrc as (H1 & H2 & _ & Hrc). split; [done|]. split; [done|]. split; [done|].
  apply not_or in H2 as [H2 H3]. exists ref. split; [done|]. split; [destruct (decide (fl = 0)); [by subst|done]|].
  split; [lia|]. destruct (decide (ref < first_unallocated)); [by left|right]. destruct (flagged z_retiring); [|lia].
  split; [|done]. destruct (decide (ref < geo_now)); [done|]. lia.
Qed.

Lemma value_good b data flags dsize st st' :
  check_value checking tree vcmp b data flags dsize st = Some st' -> ck_rc st' = MDBX_SUCCESS ->
  ck_rc st = MDBX_SUCCESS /\ ck_prev st' = ck_prev st /\ ck_k st' = ck_k st /\ Z.of_nat data + dsize <= Z.of_nat (length b).
Proof.
  unfold check_value. intros H Hrc. case_decide as Hb; [injection H as <-; discriminate Hrc|].
  assert (Z.of_nat data + dsize <= Z.of_nat (length b)) by lia.
  case_decide; [injection H as <-; chk_norm; tauto|].
  case_decide; [injection H as <-; chk_norm; tauto|].
  case_decide; [|by injection H as <-].
  apply bind_Some in H as (st1 & H & [= <-]). destruct (subpage_good _ _ _ _ _ H Hrc) as [Hg Hk]. done.
Qed.

Lemma big_good mp i data flags dsize st r :
  check_big ps2ln checking large_page mp i data flags dsize st = Some (inr r) -> ck_rc r = MDBX_SUCCESS ->
  ck_rc st = MDBX_SUCCESS /\ ck_prev r = ck_prev st /\ ck_k r = ck_k st /\ (data + 4 <= length (page_body mp))%nat.
Proof.
  unfold check_big. intros H Hrc. case_decide; [injection H as <-; discriminate Hrc|].
  destruct (flagged z_retiring); [injection H as <-; chk_norm; split; [tauto|]; split; [done|]; split; [done|lia]|].
  apply bind_Some in H as (pg & _ & H). destruct (page_check_bigdata_page_get _ _ _ _ _ _); [done|]. injection H as <-.
  chk_norm. split; [tauto|]. split; [done|]. split; [done|lia].
Qed.

Lemma leaf_node_good mp i node st r :
  check_leaf_node ps2ln checking tree vcmp large_page mp i node st = Some (inr r) -> ck_rc r = MDBX_SUCCESS ->
  ck_rc st = MDBX_SUCCESS /\ ck_prev r = ck_prev st /\ ck_k r = ck_k st /\ value_fine (page_body mp) node.
Proof.
  unfold check_leaf_node. intros H Hrc. apply bind_Some in H as (fl & Hfl & H). apply bind_Some in H as (ds & Hds & H).
  apply bind_Some in H as (data & Hda & H). unfold value_fine. destruct (decide (Z.land fl N_BIG <> 0)) as [Hb|Hb] eqn:Eb.
  - destruct (big_good _ _ _ _ _ _ _ H Hrc) as (Hg & Hp & Hk & Hl). chk_norm. split; [tauto|]. split; [done|]. split; [done|].
    exists fl, ds, data. rewrite Eb. done.
  - apply bind_Some in H as (st1 & H & [= <-]). destruct (value_good _ _ _ _ _ _ H Hrc) as (Hg & Hp & Hk & Hl). chk_norm.
    split; [tauto|]. split; [done|]. split; [done|]. exists fl, ds, data. rewrite Eb. done.
Qed.

(** The step for one item, of either kind. *)
Definition check_item (mp : page_t) (i : nat) (st : chk) : option (Z + chk) :=
  if is_dupfix_leaf mp then st ← check_dupfix_item checking kcmp mp i st; Some (inr st)
  else check_node ps ps2ln first_unallocated geo_now checking tree kcmp vcmp large_page mp i st.

Definition item_fine (mp : page_t) (k : clc_t) (i : nat) (s : span) : Prop :=
  if is_dupfix_leaf mp
  then s = (page_dupfix_ptr mp i, Z.to_nat (dupfix_ksize mp)) /\ (s.1 + s.2 <= length (page_body mp))%nat /\
    lmin k <= dupfix_ksize mp <= lmax k
  else node_fine mp k i s.

(** The keys that are compared: all but the first of a branch, which is not used. *)
Definition compared (mp : page_t) (i : nat) : bool := is_dupfix_leaf mp || is_leaf mp || bool_decide (0 < i)%nat.

Definition inside (k' k : clc_t) : Prop := lmin k <= lmin k' /\ lmin k' <= lmax k' /\ lmax k' <= lmax k.

Lemma item_good mp i st r :
  check_item mp i st = Some (inr r) -> ck_rc r = MDBX_SUCCESS ->
  ck_rc st = MDBX_SUCCESS /\ (lmin (ck_k st) <= lmax (ck_k st) -> inside (ck_k r) (ck_k st) /\
    exists s, item_fine mp (ck_k st) i s /\
    (flagged z_ignord = false ->
      if compared mp i then ck_prev r = Some s /\
        forall p, ck_prev st = Some p -> exists x y, span_bytes (page_body mp) p = Some x /\ span_bytes (page_body mp) s = Some y /\ kcmp x y < 0
      else ck_prev r = ck_prev st)).
Proof.
  unfold check_item, item_fine, compared, inside. intros H Hrc. destruct (is_dupfix_leaf mp).
  - apply bind_Some in H as (st1 & H & [= ->]). unfold check_dupfix_item in H. case_decide; [injection H as <-; discriminate Hrc|].
    destruct (order_good _ _ _ _ _ H Hrc) as (Hg & Hk & _ & Ho). rewrite Hk. unfold check_item_size in *.
    destruct (decide (dupfix_ksize mp <> lmin (ck_k st))) as [Hne|Hne].
    + destruct (outside (ck_k st) (dupfix_ksize mp)) eqn:Hout; [discriminate Hg|]. unfold outside in Hout. chk_norm.
      split; [done|]. intros Hlim. split; [lia|]. eexists. split; [split; [reflexivity|cbn; lia]|exact Ho].
    + cbn in *. split; [done|]. intros Hlim. split; [lia|]. eexists. split; [split; [reflexivity|cbn; lia]|exact Ho].
  - unfold check_node in H. apply bind_Some in H as (node & Hnode & H). case_decide; [injection H as <-; discriminate Hrc|].
    apply bind_Some in H as (ksize & Hks & H). case_decide as Hend; [injection H as <-; discriminate Hrc|].
    apply bind_Some in H as (st1 & H1 & H). unfold node_fine. cbn [orb].
    assert (ck_rc st1 = MDBX_SUCCESS /\ ck_prev r = ck_prev st1 /\ ck_k r = ck_k st1 /\
      if is_branch mp then child_fine (page_body mp) node else value_fine (page_body mp) node) as (Hrc1 & Hp1 & Hk1 & Hv).
    { destruct (is_branch mp); [|by apply leaf_node_good in H].
      apply bind_Some in H as (st2 & H & [= <-]). by apply branch_node_good in H. }
    destruct (is_leaf mp || bool_decide (0 < i)%nat) eqn:Hcmp.
    + destruct (order_good _ _ _ _ _ H1 Hrc1) as (Hg & Hk & _ & Ho). chk_norm. destruct Hg as (Hout & Hmax & Hg).
      unfold outside in Hout. chk_norm. split; [done|]. intros Hlim. rewrite Hk1, Hk. split; [lia|]. rewrite Hp1.
      eexists. split; [|exact Ho]. exists node, ksize. split; [done|]. split; [done|]. split; [done|]. split; [lia|]. split; [lia|]. split; [lia|done].
    + injection H1 as <-. chk_norm. rewrite Hk1, Hp1. split; [tauto|]. intros Hlim. split; [lia|]. eexists. split; [|done].
      exists node, ksize. split; [done|]. split; [done|]. split; [done|]. split; [lia|]. split; [lia|]. split; [|done].
      apply orb_false_iff in Hcmp as [Hl Hi]. apply bool_decide_eq_false in Hi. intros [?|?]; [congruence|lia].
Qed.

(** ** The loop over the items *)

Definition ordered (b : list Z) (s1 s2 : span) : Prop :=
  exists x y, span_bytes b s1 = Some x /\ span_bytes b s2 = Some y /\ kcmp x y < 0.

Abbreviation check_nodes' := (check_nodes ps ps2ln first_unallocated geo_now checking tree kcmp vcmp large_page).

Lemma item_fine_inside mp k k' i s : inside k' k -> item_fine mp k' i s -> item_fine mp k i s.
Proof.
  unfold item_fine, inside. intros Hk. destruct (is_dupfix_leaf mp); [intros (? & ? & ?); split; [done|]; split; [done|lia]|].
  intros (node & ks & H1 & H2 & H3 & H4 & H5 & H6 & H7). exists node, ks. repeat (split; [done|]). split; [|done].
  intros Hc. specialize (H6 Hc). lia.
Qed.

Lemma nodes_good mp n : forall i st r,
  check_nodes' n mp i st = Some (inr r) -> ck_rc r = MDBX_SUCCESS ->
  ck_rc st = MDBX_SUCCESS /\ (lmin (ck_k st) <= lmax (ck_k st) -> exists spans, length spans = n /\
    (forall j s, spans !! j = Some s -> item_fine mp (ck_k st) (i + j) s) /\
    (flagged z_ignord = false ->
      (forall j s1 s2, spans !! j = Some s1 -> spans !! S j = Some s2 -> compared mp (i + j) = true -> ordered (page_body mp) s1 s2) /\
      (forall p s, ck_prev st = Some p -> spans !! 0%nat = Some s -> compared mp i = true -> ordered (page_body mp) p s))).
Proof.
  induction n as [|n IH]; intros i st r H Hrc; cbn [check_nodes] in H.
  { injection H as <-. split; [done|]. intros _. exists []. split; [done|]. split; [by intros j s|]. intros _. split; [by intros j|by intros p s]. }
  apply bind_Some in H as ([err|st1] & H1 & H); [done|]. change (check_item mp i st = Some (inr st1)) in H1.
  destruct (IH _ _ _ H Hrc) as [Hrc1 IH']. destruct (item_good _ _ _ _ H1 Hrc1) as [Hrc0 Hit]. split; [done|]. intros Hlim.
  destruct (Hit Hlim) as (Hin & s0 & Hs0 & Ho0). destruct (IH' ltac:(by apply Hin)) as (spans & Hlen & Hfine & Hord). clear IH IH' Hit H H1.
  exists (s0 :: spans). split; [cbn; lia|]. split.
  { intros [|j] s Hj; cbn in Hj; [injection Hj as <-; by rewrite Nat.add_0_r|]. eapply item_fine_inside; [exact Hin|].
    replace (i + S j)%nat with (S i + j)%nat by lia. by apply Hfine. }
  intros Hign. specialize (Ho0 Hign). destruct (Hord Hign) as [Hnext Hfirst]. split.
  - intros [|j] s1 s2 H1 H2 Hc; cbn in H1, H2; [|replace (i + S j)%nat with (S i + j)%nat in Hc by lia; by eapply Hnext].
    injection H1 as <-. rewrite Nat.add_0_r in Hc. rewrite Hc in Ho0. destruct Ho0 as [Hp _].
    apply Hfirst; [done..|]. unfold compared. rewrite bool_decide_eq_true_2 by lia. by rewrite orb_true_r.
  - intros p s Hp Hs Hc. cbn in Hs. injection Hs as <-. rewrite Hc in Ho0. destruct Ho0 as [_ Ho0]. by apply Ho0.
Qed.

(** What the library relies on in a page that passed the check. *)
Record page_sound (mp : page_t) (k : clc_t) : Prop := mk_page_sound {
  snd_pgno : MIN_PAGENO <= page_pgno mp <= MAX_PAGENO;
  snd_bounds : page_lower mp <= page_upper mp /\ PAGEHDRSZ + page_upper mp <= ps;
  snd_items : exists spans, length spans = page_numkeys mp /\
    (forall i s, spans !! i = Some s -> item_fine mp k i s) /\
    (flagged z_ignord = false -> forall i s1 s2, spans !! i = Some s1 -> spans !! S i = Some s2 -> compared mp i = true ->
    ordered (page_body mp) s1 s2)
}.

(** A page that cannot be read is an error. *)
Hypothesis large_page_error : forall pgno txnid err, large_page pgno txnid = inl err -> err <> MDBX_SUCCESS.

Lemma nodes_error mp n : forall i st err, check_nodes' n mp i st = Some (inl err) -> err <> MDBX_SUCCESS.
Proof.
  induction n as [|n IH]; intros i st err H; cbn [check_nodes] in H; [done|].
  apply bind_Some in H as ([err'|st1] & H1 & H); [injection H as ->|by eapply IH].
  destruct (is_dupfix_leaf mp); [by apply bind_Some in H1 as (? & _ & ?)|]. unfold check_node in H1.
  apply bind_Some in H1 as (node & _ & H1). case_decide; [done|]. apply bind_Some in H1 as (ks & _ & H1). case_decide; [done|].
  apply bind_Some in H1 as (st2 & _ & H1). destruct (is_branch mp); [by apply bind_Some in H1 as (? & _ & ?)|].
  unfold check_leaf_node in H1. apply bind_Some in H1 as (fl & _ & H1). apply bind_Some in H1 as (ds & _ & H1).
  apply bind_Some in H1 as (da & _ & H1). case_decide; [|by apply bind_Some in H1 as (? & _ & ?)].
  unfold check_big in H1. case_decide; [done|]. destruct (flagged z_retiring) eqn:Hret; [done|]. apply bind_Some in H1 as (pg & _ & H1).
  unfold page_check_bigdata_page_get in H1. rewrite Hret in H1.
  destruct (_ || _); [by injection H1 as <-|]. case_decide; [by injection H1 as <-|].
  destruct (large_page pg (page_txnid mp)) eqn:El; [|done]. injection H1 as <-. by eapply large_page_error.
Qed.

Lemma type_good mp st st' : check_type checking tree mp st = Some st' -> ck_rc st' = MDBX_SUCCESS -> ck_rc st = MDBX_SUCCESS.
Proof.
  unfold check_type. intros H Hrc. repeat case_decide; try done; injection H as <-; rewrite ?good_bad_if in Hrc; first [tauto|discriminate Hrc|by destruct Hrc].
Qed.
Lemma type_k mp st st' : check_type checking tree mp st = Some st' -> ck_k st' = ck_k st.
Proof. unfold check_type. intros H. repeat case_decide; try done; injection H as <-; by rewrite ?k_bad_if. Qed.
Lemma type_prev mp st st' : check_type checking tree mp st = Some st' -> ck_prev st' = ck_prev st.
Proof. unfold check_type. intros H. repeat case_decide; try done; injection H as <-; by rewrite ?prev_bad_if. Qed.
Lemma bounds_k mp st : ck_k (check_bounds ps modifable inner checking tree mp st) = ck_k st.
Proof. unfold check_bounds. destruct (is_dupfix_leaf mp); by rewrite !k_bad_if. Qed.

Lemma bounds_good mp st :
  ck_rc (check_bounds ps modifable inner checking tree mp st) = MDBX_SUCCESS ->
  ck_rc st = MDBX_SUCCESS /\ page_lower mp <= page_upper mp /\ PAGEHDRSZ + page_upper mp <= ps.
Proof.
  unfold check_bounds. destruct (is_dupfix_leaf mp); intros H; rewrite !good_bad_if in H;
    destruct H as (_ & _ & H & ?); (split; [done|]); clear -H; rewrite bool_decide_eq_false in H; apply not_or in H as [H1 H]; apply not_or in H as [_ H]; lia.
Qed.

Lemma check_sound mp k v k' :
  page_check ps ps2ln first_unallocated geo_now address_ok modifable inner checking tree kcmp vcmp large_page mp k v = Some (MDBX_SUCCESS, k') ->
  page_type mp <> P_LARGE -> lmin k <= lmax k -> page_sound mp k.
Proof.
  unfold page_check. intros H Hlarge Hlim. rewrite decide_False in H by done.
  destruct (check_type _ _ _ _) as [st1|] eqn:Ht; [|discriminate H].
  apply bind_Some in H as ([err|r] & H & Hres).
  { injection Hres as E _. by apply nodes_error in H. }
  injection Hres as Hrc _. destruct (nodes_good _ _ _ _ _ H Hrc) as [Hrc1 Hspans].
  pose proof (type_k _ _ _ Ht) as Hk. unfold check_header in Hk. rewrite !k_bad_if in Hk. cbn in Hk.
  rewrite bounds_k, Hk in Hspans. destruct (Hspans Hlim) as (spans & Hlen & Hfine & Hord).
  destruct (bounds_good _ _ Hrc1) as [Hrc2 Hb]. apply (type_good _ _ _ Ht) in Hrc2.
  unfold check_header in Hrc2. rewrite !good_bad_if, !bool_decide_eq_false in Hrc2. destruct Hrc2 as (_ & _ & Hpg & _).
  constructor; [lia|done|]. exists spans. split; [done|]. split; [exact Hfine|]. intros Hign. exact (proj1 (Hord Hign)).
Qed.
End Sound.

(** ** Pages that the operations on nodes make are accepted *)

Lemma item_size_even it : (item_size it mod 2 = 0)%nat.
Proof.
  unfold item_size. pose proof (Nat.div_mod (payload it) 2 ltac:(lia)) as H.
  replace (8 + payload it + payload it mod 2)%nat with ((4 + payload it / 2 + payload it mod 2) * 2)%nat by lia. apply Nat.Div0.mod_mul.
Qed.

Lemma items_size_even items : (items_size items mod 2 = 0)%nat.
Proof.
  induction items as [|it items IH]; [done|]. unfold items_size in *. cbn [sum_list_with].
  rewrite Nat.Div0.add_mod, IH, (Nat.Div0.add_mod 2), item_size_even. done.
Qed.

Lemma items_size_least items :
  (forall i it, (0 < i)%nat -> items !! i = Some it -> it_key it <> []) -> (0 < length items)%nat ->
  (12 * length items - 2 <= items_size items)%nat.
Proof.
  intros H Hpos. unfold items_size. destruct items as [|it items]; [cbn in Hpos; lia|].
  assert (forall l, Forall (fun it => it_key it <> []) l -> (12 * length l <= sum_list_with (fun it => 2 + item_size it) l)%nat) as Hl.
  { induction 1 as [|it' l Hit Hl IH]; [cbn; lia|]. cbn [sum_list_with length]. unfold item_size at 1.
    assert (0 < payload it')%nat by (unfold payload; destruct (it_key it'); [done|cbn; lia]).
    pose proof (Nat.div_mod (payload it') 2 ltac:(lia)). lia. }
  assert (Forall (fun it => it_key it <> []) items) as Hi.
  { apply Forall_lookup. intros i x Hx. by apply (H (S i)); [lia|]. }
  specialize (Hl items Hi). cbn [sum_list_with length]. unfold item_size at 1. lia.
Qed.

(** What reading finds at the place of an item. *)
Record located (p : page_t) (i node : nat) (it : item) : Prop := mk_located {
  lc_node : page_node p i = Some node;
  lc_room : (node + 8 + length (it_key it) + length (it_data it) <= length (page_body p))%nat;
  lc_ks : node_ks (page_body p) node = Some (Z.of_nat (length (it_key it)));
  lc_flags : node_flags (page_body p) node = Some (it_flags it);
  lc_word : node_pgno (page_body p) node = Some (it_word it) /\ node_ds (page_body p) node = Some (it_word it);
  lc_key : bytes_at (page_body p) (node_key node) (length (it_key it)) = Some (it_key it);
  lc_data : bytes_at (page_body p) (node_key node + length (it_key it)) (length (it_data it)) = Some (it_data it)
}.

Lemma locate_item size p items i it : page_holds size p items -> items !! i = Some it -> exists node, located p i node it.
Proof.
  intros Hp Hi. destruct (page_locate _ _ _ Hp i it Hi) as (A & e & B & Hb & (pad & -> & Hpad) & _ & Hn).
  pose proof (proj1 (Forall_lookup _ _) (ph_items _ _ _ Hp) i it Hi) as Hok.
  exists (length A). constructor; rewrite ?Hb.
  - done.
  - pose proof (image_size it (image it pad)) as He. rewrite !length_app, He by (by exists pad). unfold item_size, payload. lia.
  - by eapply read_ks.
  - by eapply read_flags.
  - by eapply read_word.
  - destruct (image_split it A B pad) as (_ & _ & _ & -> & _). apply bytes_at_app; [|done].
    rewrite !length_app, !length_le_bytes. unfold node_key. cbn. lia.
  - destruct (image_split it A B pad) as (_ & _ & _ & _ & ->). apply bytes_at_app; [|done].
    rewrite !length_app, !length_le_bytes. unfold node_key. cbn. lia.
Qed.

Lemma load_bytes_at n b off w : bytes_at b off n = Some w -> load n b off = Some (le_value w).
Proof. unfold bytes_at, load. case_decide; [|done]. by intros [= <-]. Qed.

Section Accepts.
Context (ps ps2ln first_unallocated geo_now : Z).
Context (modifable inner : bool) (checking : Z) (tree : tree_t).
Context (kcmp vcmp : list Z -> list Z -> Z) (large_page : Z -> Z -> Z + Z).
Context (size : nat) (p : page_t) (items : list item) (Hp : page_holds size p items) (Hsize : Z.of_nat size = ps - PAGEHDRSZ).
Context (Heven : Z.even ps = true).
Context (k v : clc_t).

(** What the tables put into their nodes. *)
Definition leaf_item_allowed (it : item) : Prop :=
  it_flags it = 0 /\ lmin v <= it_word it <= lmax v \/
  (it_flags it = N_TREE \/ it_flags it = Z.lor N_TREE N_DUP) /\ it_word it = sizeof_tree_t \/
  it_flags it = N_BIG /\ lmin v < it_word it <= lmax v /\
  (flag checking z_retiring = true \/ exists pages, large_page (le_value (it_data it)) (page_txnid p) = inr pages /\
    largechunk_npages ps2ln (it_word it) <= pages).

Definition branch_item_allowed (i : nat) (it : item) : Prop :=
  (i = 0%nat -> it_key it = []) /\ it_flags it = 0 /\ MIN_PAGENO <= it_word it < first_unallocated.

Definition item_allowed (i : nat) (it : item) : Prop :=
  Z.of_nat (length (it_key it)) <= keysize_max ps 0 /\
  (compared p i = true -> lmin k <= Z.of_nat (length (it_key it)) <= lmax k) /\
  if is_branch p then branch_item_allowed i it else leaf_item_allowed it.

Record acceptable : Prop := mk_acceptable {
  ac_pgno : MIN_PAGENO <= page_pgno p <= MAX_PAGENO;
  ac_type : page_flags p = P_LEAF /\ flag checking z_dupfix = false /\ (0 < length items)%nat \/
    page_flags p = P_BRANCH /\ (1 < length items)%nat;
  ac_items : forall i it, items !! i = Some it -> item_allowed i it;
  ac_nonempty : forall i it, (0 < i)%nat -> items !! i = Some it -> it_key it <> [];
  ac_order : forall i it it', items !! i = Some it -> items !! S i = Some it' -> compared p i = true ->
    kcmp (it_key it) (it_key it') < 0
}.

Hypothesis Hacc : acceptable.

Definition good_at (i : nat) (st : chk) : Prop :=
  ck_rc st = MDBX_SUCCESS /\ ck_k st = k /\ ck_v st = v /\
  (flag checking z_ignord = false -> match i with
                                     | O => ck_prev st = None
                                     | S j => if compared p j then exists s it, ck_prev st = Some s /\ items !! j = Some it /\ span_bytes (page_body p) s = Some (it_key it)
                                              else ck_prev st = None
                                     end).

Lemma order_accepts i it s st :
  items !! i = Some it -> span_bytes (page_body p) s = Some (it_key it) -> good_at i st -> compared p i = true ->
  exists st', check_order checking kcmp (page_body p) s st = Some st' /\ good_at (S i) st'.
Proof.
  intros Hi Hs (Hrc & Hk & Hv & Hprev) Hc. unfold check_order, good_at. rewrite Hc.
  destruct (flag checking z_ignord); [eexists; split; [done|]; done|]. specialize (Hprev eq_refl). destruct i as [|j].
  - rewrite Hprev. eexists. split; [done|]. cbn. split; [done|]. split; [done|]. split; [done|]. intros _. by exists s, it.
  - destruct (compared p j) eqn:Hcj.
    + destruct Hprev as (s0 & it0 & -> & Hj & Hs0). cbn [mbind option_bind]. rewrite Hs0, Hs. cbn [mbind option_bind].
      rewrite bool_decide_eq_false_2 by (pose proof (ac_order Hacc j it0 it Hj Hi Hcj); lia).
      eexists. split; [done|]. cbn. split; [done|]. split; [done|]. split; [done|]. intros _. by exists s, it.
    + rewrite Hprev. eexists. split; [done|]. cbn. split; [done|]. split; [done|]. split; [done|]. intros _. by exists s, it.
Qed.

Lemma bad_if_false c st : c = false -> bad_if c st = st.
Proof. by intros ->. Qed.

Lemma kinds : is_leaf p = negb (is_branch p).
Proof. unfold is_leaf, is_branch. by destruct (ac_type Hacc) as [(-> & _)|(-> & _)]. Qed.

Lemma branch_accepts i it node st :
  items !! i = Some it -> branch_item_allowed i it -> node_pgno (page_body p) node = Some (it_word it) ->
  node_flags (page_body p) node = Some (it_flags it) ->
  check_branch_node first_unallocated geo_now checking i node (page_body p) (Z.of_nat (length (it_key it))) st = Some st.
Proof.
  intros Hi (Hk & Hf & Hw) Hpg Hfl. unfold check_branch_node. rewrite Hpg. cbn [mbind option_bind]. rewrite Hfl, Hf. cbn [mbind option_bind].
  rewrite !bad_if_false; [done| | |].
  - destruct (decide (i = 0%nat)) as [E|E].
    + rewrite (Hk E). cbn. by rewrite andb_false_r.
    + rewrite (bool_decide_eq_false_2 (i = 0%nat)) by done. by rewrite andb_false_r.
  - apply bool_decide_eq_false_2. lia.
  - done.
Qed.

Lemma big_accepts i it node st :
  items !! i = Some it -> is_leaf p = true -> located p i node it -> it_flags it = N_BIG ->
  lmin v < it_word it <= lmax v ->
  (flag checking z_retiring = true \/ exists pages, large_page (le_value (it_data it)) (page_txnid p) = inr pages /\
    largechunk_npages ps2ln (it_word it) <= pages) -> ck_v st = v ->
  check_big ps2ln checking large_page p i (node_key node + length (it_key it)) N_BIG (it_word it) st = Some (inr st).
Proof.
  intros Hi Hleaf [Hn Hroom _ _ _ _ Hd] Hf Hw Hlarge Hv. unfold check_big.
  pose proof (proj1 (Forall_lookup _ _) (ph_items _ _ _ Hp) i it Hi) as (_ & _ & _ & Hlen). rewrite Hleaf, Hf in Hlen.
  change (Z.land N_BIG N_BIG <> 0) with (1 <> 0) in Hlen. rewrite decide_True in Hlen by lia. unfold sizeof_pgno_t in Hlen.
  unfold node_key in *. rewrite decide_False by lia. rewrite Hv, bad_if_false by (apply bool_decide_eq_false_2; lia).
  destruct Hlarge as [->|(pages & Hl & Hpg)]; [done|].
  destruct (flag checking z_retiring) eqn:Hret; [done|].
  replace (length (it_data it)) with 4%nat in Hd by lia. rewrite (load_bytes_at _ _ _ _ Hd). cbn [mbind option_bind].
  unfold page_check_bigdata_page_get. rewrite Hret, Hleaf, bool_decide_eq_false_2; cbn [negb orb].
  - rewrite decide_False by (intros E; by apply E). rewrite Hl, bad_if_false; [done|]. apply bool_decide_eq_false_2. lia.
  - rewrite (page_numkeys_holds _ _ _ Hp). apply lookup_lt_Some in Hi. lia.
Qed.

Lemma leaf_accepts i it node st :
  items !! i = Some it -> is_leaf p = true -> located p i node it -> leaf_item_allowed it -> ck_v st = v ->
  check_leaf_node ps2ln checking tree vcmp large_page p i node st = Some (inr st).
Proof.
  intros Hi Hleaf Hloc Hall Hv. pose proof Hloc as [Hn Hroom Hks Hfl [_ Hw] _ Hd].
  pose proof (proj1 (Forall_lookup _ _) (ph_items _ _ _ Hp) i it Hi) as (Hword & _ & _ & Hlen). rewrite Hleaf in Hlen.
  unfold check_leaf_node, node_data. rewrite Hfl. cbn [mbind option_bind]. rewrite Hw, Hks. cbn [mbind option_bind]. rewrite Nat2Z.id.
  rewrite bad_if_false by (apply negb_false_iff, bool_decide_eq_true; destruct Hall as [[-> _]|[[[-> | ->] _]|[-> _]]]; tauto).
  unfold node_key in *. destruct Hall as [[Hf Hs]|[[Hf Hs]|(Hf & Hs & Hlarge)]].
  - rewrite Hf in *. change (Z.land 0 N_BIG <> 0) with (0 <> 0) in *. rewrite decide_False in Hlen by lia. rewrite decide_False by lia.
    unfold check_value. rewrite decide_False, decide_True by lia. rewrite Hv, bad_if_false; [done|].
    unfold outside. apply bool_decide_eq_false_2. lia.
  - assert (Z.land (it_flags it) N_BIG = 0 /\ it_flags it <> 0) as [E E0] by (by destruct Hf as [-> | ->]).
    rewrite E in *. rewrite decide_False in Hlen by lia. rewrite decide_False by lia.
    unfold check_value. rewrite decide_False, decide_False, decide_True by (done || lia). rewrite bad_if_false; [done|].
    apply bool_decide_eq_false_2. lia.
  - rewrite Hf. change (Z.land N_BIG N_BIG <> 0) with (1 <> 0). rewrite decide_True by lia. by apply (big_accepts i it node).
Qed.

Lemma node_accepts i it st :
  items !! i = Some it -> good_at i st ->
  exists st', check_node ps ps2ln first_unallocated geo_now checking tree kcmp vcmp large_page p i st = Some (inr st') /\ good_at (S i) st'.
Proof.
  intros Hi Hg. destruct (locate_item _ _ _ _ _ Hp Hi) as (node & Hloc). pose proof Hloc as [Hn Hroom Hks Hfl [Hpg Hds] Hkey _].
  destruct (ac_items Hacc i it Hi) as (Hmax & Hlim & Hall). unfold check_node, node_key in *. rewrite Hn. cbn [mbind option_bind].
  rewrite decide_False by lia. rewrite Hks. cbn [mbind option_bind]. rewrite Nat2Z.id, decide_False by lia.
  rewrite (bad_if_false (bool_decide _)) by (apply bool_decide_eq_false_2; lia).
  assert (exists st1, (if is_leaf p || bool_decide (0 < i)%nat
    then check_order checking kcmp (page_body p) ((node + 8)%nat, length (it_key it)) (bad_if (outside (ck_k st) (Z.of_nat (length (it_key it)))) st)
    else Some st) = Some st1 /\ good_at (S i) st1) as (st1 & -> & Hg1).
  { pose proof (ph_dupfix _ _ _ Hp) as Hdf. destruct (is_leaf p || bool_decide (0 < i)%nat) eqn:Hc.
    - assert (compared p i = true) as Hcmp by (unfold compared; by rewrite Hdf).
      rewrite bad_if_false; [by apply (order_accepts i it)|]. destruct Hg as (_ & -> & _). unfold outside.
      apply bool_decide_eq_false_2. specialize (Hlim Hcmp). lia.
    - exists st. split; [done|]. destruct Hg as (H1 & H2 & H3 & H4). split; [done|]. split; [done|]. split; [done|]. intros Hign.
      assert (compared p i = false) as -> by (unfold compared; by rewrite Hdf).
      apply orb_false_iff in Hc as [_ Hc]. apply bool_decide_eq_false in Hc. destruct i; [by apply H4|lia]. }
  cbn [mbind option_bind]. pose proof kinds as Hkind. destruct (is_branch p) eqn:Hbr.
  - rewrite (branch_accepts i it) by done. cbn [mbind option_bind]. by exists st1.
  - rewrite (leaf_accepts i it) by (done || apply Hg1). by exists st1.
Qed.

Lemma nodes_accept n : forall i st, (i + n = length items)%nat -> good_at i st ->
  exists st', check_nodes ps ps2ln first_unallocated geo_now checking tree kcmp vcmp large_page n p i st = Some (inr st') /\
  ck_rc st' = MDBX_SUCCESS /\ ck_k st' = k.
Proof.
  induction n as [|n IH]; intros i st Hn Hg; cbn [check_nodes]; [exists st; split; [done|split; apply Hg]|].
  rewrite (ph_dupfix _ _ _ Hp). destruct (lookup_lt_is_Some_2 items i ltac:(lia)) as [it Hi].
  destruct (node_accepts i it st Hi Hg) as (st1 & -> & Hg1). cbn [mbind option_bind]. by apply IH; [lia|].
Qed.

Lemma land_1_even x : Z.even x = true -> Z.land x 1 = 0.
Proof. intros H. change 1 with (Z.ones 1). rewrite Z.land_ones by lia. change (2 ^ 1) with 2. by rewrite Zmod_even, H. Qed.

Lemma bounds_accept st :
  ck_rc st = MDBX_SUCCESS -> ck_k st = k -> ck_v st = v -> ck_prev st = None ->
  good_at 0 (check_bounds ps modifable inner checking tree p st).
Proof.
  intros Hrc Hk Hv Hprev. unfold check_bounds. rewrite (ph_dupfix _ _ _ Hp), (page_numkeys_holds _ _ _ Hp).
  pose proof (page_room_items _ _ _ Hp) as Hroom. unfold page_room in Hroom. pose proof (ph_lower _ _ _ Hp) as Hlow.
  assert (Hlen : (0 < length items)%nat) by (destruct (ac_type Hacc) as [(_ & _ & ?)|(_ & ?)]; lia).
  pose proof (items_size_least items (ac_nonempty Hacc) Hlen) as Hleast.
  destruct (page_bounds _ _ _ Hp) as [[Hl0 Hlu] [Hus _]].
  assert (Hev : Z.even (Z.of_nat size) = true).
  { rewrite Hsize. unfold PAGEHDRSZ. by rewrite Z.even_sub, Heven. }
  assert (Hup : Z.even (page_upper p) = true).
  { replace (page_upper p) with (Z.of_nat size - Z.of_nat (items_size items) + 2 * Z.of_nat (length items)) by lia.
    rewrite Z.even_add, Z.even_sub, Hev, Z.even_mul.
    assert (Z.even (Z.of_nat (items_size items)) = true) as ->; [|done].
    pose proof (items_size_even items) as E. rewrite Zeven_mod. change 2 with (Z.of_nat 2). by rewrite <- Nat2Z.inj_mod, E. }
  unfold PAGEHDRSZ, NODESIZE in *. rewrite !bad_if_false.
  - done.
  - apply bool_decide_eq_false_2. rewrite Hlow. rewrite (land_1_even (2 * _)) by (by rewrite Z.even_mul). lia.
  - apply andb_false_iff. left. apply andb_false_iff. left. apply bool_decide_eq_false_2.
    destruct (ac_type Hacc) as [(-> & _ & ?)|(-> & ?)]; [change (Z.land P_LEAF P_BRANCH) with 0|change (Z.land P_BRANCH P_BRANCH) with 1]; lia.
  - apply bool_decide_eq_false_2. rewrite (land_1_even _ Hup). lia.
Qed.

Lemma check_accepts :
  page_check ps ps2ln first_unallocated geo_now true modifable inner checking tree kcmp vcmp large_page p k v = Some (MDBX_SUCCESS, k).
Proof.
  pose proof (ac_pgno Hacc) as Hpg.
  assert (page_type p <> P_LARGE /\ Z.land (page_flags p) (P_ILL_BITS - P_SUBP) = 0 /\
    forall st, check_type checking tree p st = Some st) as (Ht & Hill & Htype).
  { unfold page_type, check_type, page_type. destruct (ac_type Hacc) as [(-> & Hd & _)|(-> & _)].
    - change (u8 P_LEAF) with P_LEAF. split; [done|]. split; [done|]. intros st. rewrite decide_True by tauto. by rewrite Hd.
    - change (u8 P_BRANCH) with P_BRANCH. split; [done|]. split; [done|]. intros st. done. }
  unfold page_check. rewrite decide_False by done. rewrite Htype. unfold check_header.
  rewrite !bad_if_false by (done || apply bool_decide_eq_false_2; (lia || by rewrite Hill)).
  destruct (nodes_accept (page_numkeys p) 0 (check_bounds ps modifable inner checking tree p (mk_chk MDBX_SUCCESS None k v))) as (st & -> & Hrc & Hk).
  - by rewrite (page_numkeys_holds _ _ _ Hp).
  - by apply bounds_accept.
  - cbn [mbind option_bind]. by rewrite Hrc, Hk.
Qed.
End Accepts.

(** ** Reading outside of a page *)

(** An inclusion of ranges is all that the reads of a body need. *)
Lemma load_some n b off : (off + n <= length b)%nat -> exists x, load n b off = Some x.
Proof. intros H. unfold load. rewrite decide_True by done. eauto. Qed.
Lemma bytes_at_some b off n : (off + n <= length b)%nat -> exists x, bytes_at b off n = Some x.
Proof. intros H. unfold bytes_at. rewrite decide_True by done. eauto. Qed.
Lemma node_fields b node : (node + 8 <= length b)%nat ->
  exists fl ks w, node_flags b node = Some fl /\ node_ks b node = Some ks /\ node_pgno b node = Some w /\ node_ds b node = Some w.
Proof.
  intros H. destruct (rd_Some b (node + 4)) as [fl Hf]; [lia|]. destruct (load_some 2 b (node + 6)) as [ks Hk]; [lia|].
  destruct (load_some 4 b node) as [w Hw]; [lia|]. by exists fl, ks, w.
Qed.

(** A nested page at [data] with items of different sizes has its table of offsets and
    its items inside of the page; the items of a nested page of fixed size items are
    checked before they are read. *)
Definition nested_inside (b : list Z) (data : nat) : Prop :=
  forall flags lower, sub_flags b data = Some flags -> Z.land flags P_DUPFIX = 0 -> sub_lower b data = Some lower ->
  let n := Z.to_nat (Z.shiftr lower 1) in
  (data + 20 + 2 * n <= length b)%nat /\
  forall ii e ksize, (ii < n)%nat -> load 2 b (data + 20 + 2 * ii) = Some e -> node_ks b (data + 20 + Z.to_nat e) = Some ksize ->
  (node_key (data + 20 + Z.to_nat e) + Z.to_nat ksize <= length b)%nat.

(** All the nested pages that the nodes of a leaf have are so. *)
Definition nested_pages_inside (mp : page_t) : Prop :=
  is_dupfix_leaf mp = false -> is_branch mp = false -> forall i node data,
  (i < page_numkeys mp)%nat -> page_node mp i = Some node -> node_flags (page_body mp) node = Some N_DUP ->
  node_data (page_body mp) node = Some data -> nested_inside (page_body mp) data.

Section Bounds.
Context (ps ps2ln first_unallocated geo_now : Z).
Context (address_ok modifable inner : bool) (checking : Z) (tree : tree_t).
Context (kcmp vcmp : list Z -> list Z -> Z) (large_page : Z -> Z -> Z + Z).
Context (mp : page_t) (Hkeys : (2 * page_numkeys mp <= length (page_body mp))%nat).
Context (Hnested : nested_pages_inside mp).

(** The previous key is inside of the page. *)
Definition prev_inside (st : chk) : Prop := forall s, ck_prev st = Some s -> (s.1 + s.2 <= length (page_body mp))%nat.

Lemma order_total cmp s st : prev_inside st -> (s.1 + s.2 <= length (page_body mp))%nat ->
  exists st', check_order checking cmp (page_body mp) s st = Some st' /\ prev_inside st'.
Proof.
  intros Hp Hs. unfold check_order. destruct (flag checking z_ignord); [by eexists|].
  assert (forall st1, prev_inside (set_prev (Some s) st1)) as Hset by (intros st1 s' [= <-]; done).
  destruct (ck_prev st) as [s0|] eqn:E; [|by eexists]. specialize (Hp s0 E).
  unfold span_bytes. destruct (bytes_at_some _ _ _ Hp) as [x ->]. destruct (bytes_at_some _ _ _ Hs) as [y ->]. by eexists.
Qed.

Lemma prev_inside_bad c st : prev_inside st -> prev_inside (bad_if c st).
Proof. unfold prev_inside. by rewrite prev_bad_if. Qed.

Lemma dupfix_total i st : prev_inside st -> exists st', check_dupfix_item checking kcmp mp i st = Some st' /\ prev_inside st'.
Proof.
  intros Hp. unfold check_dupfix_item. case_decide; [by exists (bad st)|]. apply order_total; [|cbn; lia].
  by destruct (check_item_size _ _).
Qed.

Lemma sub_items_total data dsize n dupfix : forall ii st, prev_inside st -> (20 < dsize)%nat -> (data + dsize <= length (page_body mp))%nat ->
  (dupfix = false -> (data + 20 + 2 * (ii + n) <= length (page_body mp))%nat /\
    forall jj e ksize, (jj < ii + n)%nat -> load 2 (page_body mp) (data + 20 + 2 * jj) = Some e ->
    node_ks (page_body mp) (data + 20 + Z.to_nat e) = Some ksize ->
    (node_key (data + 20 + Z.to_nat e) + Z.to_nat ksize <= length (page_body mp))%nat) ->
  exists st', check_sub_items checking vcmp n dupfix (page_body mp) data dsize ii st = Some st' /\ prev_inside st'.
Proof.
  induction n as [|n IH]; intros ii st Hp Hd Hin Hsub; cbn [check_sub_items]; [by exists st|].
  assert (exists st', (if dupfix then check_sub_dupfix checking vcmp (page_body mp) data dsize ii st
    else check_sub_node checking vcmp (page_body mp) data dsize ii st) = Some st' /\ prev_inside st') as (st' & -> & H').
  { destruct dupfix.
    - unfold check_sub_dupfix, sub_ksize. destruct (load_some 2 (page_body mp) (data + 8)) as [ks ->]; [lia|]. cbn [mbind option_bind].
      case_decide; [by exists (bad st)|]. apply order_total; [|cbn; lia]. by destruct (check_item_size _ _).
    - destruct (Hsub eq_refl) as [Ht Hk]. unfold check_sub_node. destruct (load_some 2 (page_body mp) (data + 20 + 2 * ii)) as [e He]; [lia|].
      rewrite He. cbn [mbind option_bind]. case_decide; [by exists (bad st)|].
      destruct (node_fields (page_body mp) (data + 20 + Z.to_nat e)) as (fl & ks & w & Hf & Hks & _ & Hds); [lia|].
      rewrite Hf, Hks, Hds. cbn [mbind option_bind]. specialize (Hk ii e ks ltac:(lia) He Hks).
      match goal with |- context [check_order _ _ _ ?sp ?st0] =>
        destruct (order_total vcmp sp st0) as (st1 & -> & H1); [by do 2 apply prev_inside_bad|exact Hk|] end.
      cbn [mbind option_bind]. eexists. split; [done|]. by do 2 apply prev_inside_bad. }
  cbn [mbind option_bind]. apply IH; [done..|]. intros E. destruct (Hsub E) as [Ht Hk]. split; [lia|].
  intros jj e ks Hjj. apply Hk. lia.
Qed.

Lemma subpage_total data dsize st :
  prev_inside st -> Z.of_nat data + dsize <= Z.of_nat (length (page_body mp)) -> nested_inside (page_body mp) data ->
  exists st', check_subpage checking tree vcmp (page_body mp) data dsize st = Some st'.
Proof.
  intros Hp Hin Hnest. unfold check_subpage, PAGEHDRSZ. case_decide; [by eexists|].
  unfold sub_flags, sub_lower. destruct (load_some 2 (page_body mp) (data + 10)) as [fl Hfl]; [lia|]. rewrite Hfl. cbn [mbind option_bind].
  case_match; [by eexists|]. destruct (load_some 2 (page_body mp) (data + 12)) as [lo Hlo]; [lia|]. rewrite Hlo. cbn [mbind option_bind].
  match goal with |- context [check_sub_items _ _ ?n ?d _ _ ?z 0 ?st0] => destruct (sub_items_total data z n d 0 st0) as (st' & -> & _) end; [done|lia|lia| |by eexists].
  intros E%bool_decide_eq_false. apply (Hnest fl lo Hfl); [|exact Hlo]. lia.
Qed.

Lemma leaf_total i node st : is_dupfix_leaf mp = false -> is_branch mp = false -> (i < page_numkeys mp)%nat -> page_node mp i = Some node ->
  prev_inside st -> (node + 8 <= length (page_body mp))%nat ->
  exists r, check_leaf_node ps2ln checking tree vcmp large_page mp i node st = Some r /\
  match r with inl _ => True | inr st' => prev_inside st' end.
Proof.
  intros Hdl Hbr Hi Hpn Hp Hn. destruct (node_fields _ _ Hn) as (fl & ks & w & Hf & Hk & _ & Hd). unfold check_leaf_node, node_data.
  rewrite Hf. cbn [mbind option_bind]. rewrite Hd, Hk. cbn [mbind option_bind]. set (data := (node_key node + Z.to_nat ks)%nat).
  case_decide.
  - unfold check_big. case_decide; [eexists; split; [done|]; by apply prev_inside_bad|].
    destruct (flag checking z_retiring); [eexists; split; [done|]; by do 2 apply prev_inside_bad|].
    destruct (load_some 4 (page_body mp) data) as [pg ->]; [lia|]. cbn [mbind option_bind].
    destruct (page_check_bigdata_page_get _ _ _ _ _ _); [by eexists|]. eexists. split; [done|]. by do 3 apply prev_inside_bad.
  - assert (exists st', check_value checking tree vcmp (page_body mp) data fl w
      (bad_if (negb (bool_decide (fl = N_BIG \/ fl = 0 \/ fl = N_TREE \/ fl = Z.lor N_TREE N_DUP \/ fl = N_DUP))) st) = Some st' /\ prev_inside st') as (st' & -> & H').
    { set (st0 := bad_if (negb _) st). assert (prev_inside st0) as H0 by by apply prev_inside_bad. clearbody st0. unfold check_value.
      case_decide; [by exists (bad st0)|]. case_decide; [eexists; split; [done|]; by apply prev_inside_bad|].
      case_decide; [eexists; split; [done|]; by apply prev_inside_bad|]. case_decide as Hdup; [|by exists st0].
      destruct (subpage_total data w st0 H0) as (st' & ->); [lia| |].
      { subst fl. apply (Hnested Hdl Hbr i node data Hi Hpn Hf). unfold node_data. by rewrite Hk. }
      cbn [mbind option_bind]. eexists. split; [done|]. exact H0. }
    by eexists.
Qed.

Lemma node_total i st : is_dupfix_leaf mp = false -> (i < page_numkeys mp)%nat -> prev_inside st ->
  exists r, check_node ps ps2ln first_unallocated geo_now checking tree kcmp vcmp large_page mp i st = Some r /\
  match r with inl _ => True | inr st' => prev_inside st' end.
Proof.
  intros Hdl Hi Hp. unfold check_node. destruct (load_some 2 (page_body mp) (2 * i)) as [e He]; [lia|].
  assert (page_node mp i = Some (Z.to_nat e)) as Hpn by (unfold page_node, entry; by rewrite He). rewrite Hpn.
  cbn [mbind option_bind]. case_decide as Hn; [by eexists|]. assert (Hn' : (Z.to_nat e + 8 <= length (page_body mp))%nat) by lia.
  destruct (node_fields _ _ Hn') as (fl & ks & w & Hf & Hk & Hw & _). rewrite Hk. cbn [mbind option_bind].
  case_decide; [eexists; split; [done|]; by apply prev_inside_bad|].
  assert (exists st1, (if is_leaf mp || bool_decide (0 < i)%nat
    then check_order checking kcmp (page_body mp) (node_key (Z.to_nat e), Z.to_nat ks)
    (bad_if (outside (ck_k (bad_if (bool_decide (ks > keysize_max ps 0)) st)) ks) (bad_if (bool_decide (ks > keysize_max ps 0)) st))
    else Some (bad_if (bool_decide (ks > keysize_max ps 0)) st)) = Some st1 /\ prev_inside st1) as (st1 & -> & H1).
  { destruct (_ || _); [apply order_total; [by do 2 apply prev_inside_bad|cbn; lia]|]. eexists. split; [done|]. by apply prev_inside_bad. }
  cbn [mbind option_bind]. destruct (is_branch mp) eqn:Hbr; [|by apply leaf_total].
  unfold check_branch_node. rewrite Hw. cbn [mbind option_bind]. rewrite Hf. cbn [mbind option_bind].
  eexists. split; [done|]. by repeat apply prev_inside_bad.
Qed.

Lemma nodes_total n : forall i st, (i + n <= page_numkeys mp)%nat -> prev_inside st ->
  exists r, check_nodes ps ps2ln first_unallocated geo_now checking tree kcmp vcmp large_page n mp i st = Some r.
Proof.
  induction n as [|n IH]; intros i st Hi Hp; cbn [check_nodes]; [by eexists|].
  assert (exists r, (if is_dupfix_leaf mp then st ← check_dupfix_item checking kcmp mp i st; Some (inr st)
    else check_node ps ps2ln first_unallocated geo_now checking tree kcmp vcmp large_page mp i st) = Some r /\
    match r with inl _ => True | inr st' => prev_inside st' end) as (r & -> & Hr).
  { destruct (is_dupfix_leaf mp) eqn:Hdl; [|by apply node_total; [|lia|]].
    destruct (dupfix_total i st Hp) as (st' & -> & H'). by eexists. }
  cbn [mbind option_bind]. destruct r as [err|st']; [by eexists|]. by apply IH; [lia|].
Qed.

Lemma check_total k v :
  exists r, page_check ps ps2ln first_unallocated geo_now address_ok modifable inner checking tree kcmp vcmp large_page mp k v = Some r.
Proof.
  unfold page_check. case_decide; [by eexists|]. destruct (check_type _ _ _ _) as [st|] eqn:Ht; [|by eexists].
  assert (prev_inside (check_bounds ps modifable inner checking tree mp st)) as Hb.
  { unfold check_bounds. assert (prev_inside st) as Hst.
    { intros s. rewrite (type_prev _ _ _ _ _ Ht). unfold check_header. by rewrite !prev_bad_if. }
    destruct (is_dupfix_leaf mp); by repeat apply prev_inside_bad. }
  destruct (nodes_total (page_numkeys mp) 0 (check_bounds ps modifable inner checking tree mp st)) as (r & ->); [lia|done|].
  cbn [mbind option_bind]. by destruct r as [err|st']; eexists.
Qed.
End Bounds.

(** ** Claims *)

(** C19. A page other than one of a large value that passes the check is sound: the
    number and the bounds of the page are in range, and each of its items is inside of
    the page, with its header, its key and its value or the number of a large page; the
    keys are not longer than the limits of the table.  A child is a page that exists.
    Unless the order is not to be checked ([z_ignord]), each key is less than the next
    (but for the first of a branch, which stands for everything below the second). *)
Theorem page_check_sound ps ps2ln first_unallocated geo_now address_ok modifable inner checking tree kcmp vcmp large_page mp k v k' :
  (forall pgno txnid err, large_page pgno txnid = inl err -> err <> MDBX_SUCCESS) ->
  page_check ps ps2ln first_unallocated geo_now address_ok modifable inner checking tree kcmp vcmp large_page mp k v = Some (MDBX_SUCCESS, k') ->
  page_type mp <> P_LARGE -> lmin k <= lmax k ->
  page_sound ps first_unallocated geo_now checking kcmp mp k.
Proof. intros Hl. by apply check_sound. Qed.

(** What the operations on nodes make is accepted: a leaf or branch page that holds a
    list of items passes the check and leaves the limits of the table alone, when the
    items are ordered, keep the limits of the table and are of the kinds that tables
    have (plain, nested tree, value on large pages; pages of duplicates inside of a
    node are left out), and a branch has two children or more. *)
Theorem page_check_accepts ps ps2ln first_unallocated geo_now modifable inner checking tree kcmp vcmp large_page size p items k v :
  page_holds size p items -> Z.of_nat size = ps - PAGEHDRSZ -> Z.even ps = true ->
  acceptable ps ps2ln first_unallocated checking kcmp large_page p items k v ->
  page_check ps ps2ln first_unallocated geo_now true modifable inner checking tree kcmp vcmp large_page p k v = Some (MDBX_SUCCESS, k).
Proof. intros. by eapply check_accepts. Qed.

(** C35. The check of a page reads nothing outside of the page, however corrupted its
    header, its nodes and its values are, and comes to a result, when two tables of
    offsets can be trusted: that of the page is inside of the page, and a nested page of
    duplicates of different sizes has its table and the items it leads to inside of the
    page; a nested page of duplicates of one size may be corrupted as well. *)
Theorem page_check_stays_inside ps ps2ln first_unallocated geo_now address_ok modifable inner checking tree kcmp vcmp large_page mp k v :
  (2 * page_numkeys mp <= length (page_body mp))%nat -> nested_pages_inside mp ->
  exists r, page_check ps ps2ln first_unallocated geo_now address_ok modifable inner checking tree kcmp vcmp large_page mp k v = Some r.
Proof. intros. by apply check_total. Qed.

(** The examples: pages of 256 bytes with keys of one byte, and limits of 100 bytes. *)
Definition first_byte (x y : list Z) : Z := default (-1) (head x) - default (-1) (head y).
Definition no_large (pgno txnid : Z) : Z + Z := inl MDBX_PAGE_NOTFOUND.
Definition plain_tree : tree_t := mk_tree 0 1 0 7 0 1 0 0 3 7.
Definition check_256 (tree : tree_t) (mp : page_t) : option (Z * clc_t) :=
  page_check 256 8 100 200 true false false 0 tree first_byte first_byte no_large mp (mk_clc 0 100) (mk_clc 0 100).
Definition leaf_256 (l : list (list Z * list Z * Z)) : option page_t :=
  foldl (fun o '(key, data, flags) => p ← o; r ← node_add_leaf (fun _ => inl MDBX_PAGE_NOTFOUND) 8 116 0 0 p (page_numkeys p) key (val_of data) flags; Some (la_page r))
    (Some (page_new (mk_page 7 0 0 0 0 9 (replicate 236 0)) P_LEAF 256)) l.

(** A page of duplicates of 24 bytes: a header which claims 256 entries. *)
Definition broken_subpage : list Z := replicate 10 0 ++ [66; 0; 0; 2] ++ replicate 10 0.

(** The same with duplicates of four bytes: its 256 entries are looked at one by one. *)
Definition broken_dupfix : list Z := replicate 8 0 ++ [4; 0; 98; 0; 0; 2] ++ replicate 10 4.

(** C38. The check itself may read outside of the page: the bounds of a nested page of
    duplicates are not checked before its entries are read, up to 64 KiB behind the
    node; and when the bounds of the page are found to be wrong the check goes on and
    reads the table up to the wrong bound.  In the first page everything but the
    header of the nested page is in order. *)
Theorem page_check_reads_outside :
  (exists p, leaf_256 [([1], broken_subpage, N_DUP)] = Some p /\
    page_lower p = 2 /\ page_upper p = 202 /\ length (page_body p) = 236%nat /\ check_256 plain_tree p = None) /\
  (exists p, leaf_256 [([1], [], 0)] = Some p /\ check_256 plain_tree p = Some (MDBX_SUCCESS, mk_clc 0 100) /\
    check_256 plain_tree (with_bounds p 600 600) = None).
Proof.
  split; eexists; split; [vm_compute; reflexivity| |vm_compute; reflexivity|].
  - do 3 (split; [reflexivity|]). vm_compute. reflexivity.
  - split; vm_compute; reflexivity.
Qed.

Lemma page_check_sound_witness : exists p, leaf_256 [([1], [7; 7; 7], 0); ([2], [9], 0); ([3; 3], [], 0)] = Some p /\
  page_sound 256 100 200 0 first_byte p (mk_clc 0 100).
Proof.
  eexists. split; [vm_compute; reflexivity|].
  eapply (page_check_sound 256 8 100 200 true false false 0 plain_tree first_byte first_byte no_large _ (mk_clc 0 100) (mk_clc 0 100)).
  - unfold no_large. intros pgno txnid err [= <-]. done.
  - vm_compute. reflexivity.
  - vm_compute. congruence.
  - cbn. lia.
Defined.

Lemma page_check_accepts_witness :
  let p := page_new (mk_page 7 0 0 0 0 9 (replicate 236 0)) P_BRANCH 256 in
  exists p1 mp, node_add_branch 110 0 p 0 None 5 = Some (MDBX_SUCCESS, p1, 0) /\
  node_add_branch 110 0 p1 1 (Some [1]) 6 = Some (MDBX_SUCCESS, mp, 0) /\
  page_check 256 8 100 200 true false false 0 plain_tree first_byte first_byte no_large mp (mk_clc 0 100) (mk_clc 0 100) =
    Some (MDBX_SUCCESS, mk_clc 0 100).
Proof.
  intros p. assert (page_holds 236 p []) as Hp.
  { change 236%nat with (length (page_body (mk_page 7 0 0 0 0 9 (replicate 236 0)))).
    apply page_new_holds; [reflexivity|vm_compute; split; congruence|reflexivity|vm_compute; split; congruence]. }
  destruct (node_add_branch_spec 236 p [] [] 110 0 None 5 Hp) as (rc & p1 & fl & E & H);
    [reflexivity|reflexivity|vm_compute; congruence|lia|].
  rewrite decide_True in H by (vm_compute; congruence). destruct H as (-> & -> & H1 & Hf & Hr).
  destruct (node_add_branch_spec 236 p1 [mk_item 5 0 [] []] [] 110 0 (Some [1]) 6 H1) as (rc & mp & fl & E2 & H2);
    [unfold is_leaf; rewrite Hf; reflexivity|reflexivity|vm_compute; congruence|lia|].
  rewrite Hr in H2. rewrite decide_True in H2 by (vm_compute; congruence). destruct H2 as (-> & -> & H2 & Hf2 & _).
  rewrite Hf in Hf2. assert (page_pgno mp = 9) as Hpg.
  { vm_compute in E. injection E as <-. vm_compute in E2. injection E2 as <-. reflexivity. }
  exists p1, mp. split; [exact E|]. split; [exact E2|].
  apply (page_check_accepts 256 8 100 200 false false 0 plain_tree first_byte first_byte no_large 236 mp _ (mk_clc 0 100) (mk_clc 0 100) H2).
  - reflexivity.
  - reflexivity.
  - assert (is_branch mp = true) as Hb by (unfold is_branch; rewrite Hf2; reflexivity).
    constructor.
    + rewrite Hpg. vm_compute. split; congruence.
    + right. split; [exact Hf2|cbn; lia].
    + intros i it Hi. unfold item_allowed. rewrite Hb. destruct i as [|[|i]]; cbn in Hi; [injection Hi as <-|injection Hi as <-|done].
      * split; [vm_compute; congruence|]. split; [cbn; lia|]. split; [done|]. split; [done|]. vm_compute. split; congruence.
      * split; [vm_compute; congruence|]. split; [cbn; lia|]. split; [done|]. split; [done|]. vm_compute. split; congruence.
    + intros i it Hpos Hi. destruct i as [|[|i]]; cbn in Hi; [lia|injection Hi as <-; done|done].
    + intros i it it' Hi Hi' Hc. destruct i as [|[|i]]; cbn in Hi, Hi'; [|done|done].
      unfold compared, is_dupfix_leaf, is_leaf in Hc. rewrite Hf2 in Hc. discriminate Hc.
Defined.

Lemma page_check_stays_inside_witness :
  exists mp, leaf_256 [([4], [4; 4; 4], 0); ([4; 4], broken_dupfix, N_DUP)] = Some mp /\
  check_256 plain_tree mp = Some (MDBX_CORRUPTED, mk_clc 0 100) /\ exists r, check_256 plain_tree mp = Some r.
Proof.
  eexists. split; [vm_compute; reflexivity|]. split; [vm_compute; reflexivity|].
  apply (page_check_stays_inside 256 8 100 200 true false false 0 plain_tree first_byte first_byte no_large).
  - vm_compute. lia.
  - intros _ _ i node data Hi Hn Hf Hd flags lower Hfl Hdf _.
    destruct i as [|[|i]]; [| |vm_compute in Hi; lia]; vm_compute in Hn; injection Hn as <-; vm_compute in Hf; [discriminate Hf|].
    vm_compute in Hd. injection Hd as <-. vm_compute in Hfl. injection Hfl as <-. vm_compute in Hdf. discriminate Hdf.
Defined.
