(* ===== verification/Readers.v ===== *)
(** * Reading transactions and the table of readers

    A reading transaction protects its snapshot by publishing the id of that snapshot
    in a slot of the table of readers, which is shared memory; the writer scans the
    table to learn the oldest snapshot in use and recycles the pages of older ones.
    No lock is held on either side, so what matters is the order of the accesses.

    This file has the shared memory and the side of the readers: every function that
    touches a slot is a machine whose step makes at most one access to the shared
    memory, in the order of the code (sequentially consistent accesses; a CAS is one
    access).  [txn_t] is the reading transaction with its program counter.  What the
    functions only call (locks, the storage, the setup of the tables) answers through
    the [choice] of a step. *)

From S2P Require Import Prelude.

Definition MDBX_READERS_FULL : Z := -30790.
Definition MDBX_BAD_RSLOT : Z := -30783.
Definition MDBX_OUSTED : Z := -30411.
Definition MDBX_BUSY : Z := -30778.
Definition MDBX_MVCC_RETARDED : Z := -30410.
Definition MDBX_TID_TXN_OUSTED : Z := UINT64_MAX - 1.
Definition MDBX_TID_TXN_PARKED : Z := UINT64_MAX.
Definition NOTHING_CHANGED_SIGNATURE : Z := 1315925605.

(** ** Shared memory *)

Record reader_slot_t := mk_slot {
  sl_txnid : Z;
  sl_tid : Z;
  sl_pid : Z;
  snapshot_pages_used : Z;
  snapshot_pages_retired : Z
}.

(** What is read of a meta page, and the two meta pages that matter: the recent one
    and the one preferred as steady (the choice is the subject of [Troika]). *)
Record snapshot_t := mk_snapshot { hd_txnid : Z; first_unallocated : Z; pages_retired : Z }.
Record metas_t := mk_metas { mt_recent : snapshot_t; mt_steady : snapshot_t }.

#[export] Instance snapshot_eq_dec : EqDecision snapshot_t.
Proof. solve_decision. Defined.
#[export] Instance metas_eq_dec : EqDecision metas_t.
Proof. solve_decision. Defined.

Record lck_t := mk_lck {
  metas : metas_t;
  cached_oldest_txnid : Z;
  cached_oldest_retired : Z;
  rdt_length : nat;
  rdt_refresh_flag : Z;
  rdt : list reader_slot_t;
  rdt_lock : option nat
}.

(** The accesses that change the shared memory. *)
Inductive effect :=
| Keep
| Store_txnid (s : nat) (v : Z)
| Store_tid (s : nat) (v : Z)
| Store_pid (s : nat) (v : Z)
| Store_used (s : nat) (v : Z)
| Store_retired (s : nat) (v : Z)
| Store_length (n : nat)
| Store_flag (v : Z)
| Store_oldest (v : Z)
| Store_oldest_retired (v : Z)
| Store_metas (m : metas_t)
| Store_lock (o : option nat).

Definition slot_effect (e : effect) : option (nat * (reader_slot_t -> reader_slot_t)) :=
  match e with
  | Store_txnid s v => Some (s, fun x => mk_slot v (sl_tid x) (sl_pid x) (snapshot_pages_used x) (snapshot_pages_retired x))
  | Store_tid s v => Some (s, fun x => mk_slot (sl_txnid x) v (sl_pid x) (snapshot_pages_used x) (snapshot_pages_retired x))
  | Store_pid s v => Some (s, fun x => mk_slot (sl_txnid x) (sl_tid x) v (snapshot_pages_used x) (snapshot_pages_retired x))
  | Store_used s v => Some (s, fun x => mk_slot (sl_txnid x) (sl_tid x) (sl_pid x) v (snapshot_pages_retired x))
  | Store_retired s v => Some (s, fun x => mk_slot (sl_txnid x) (sl_tid x) (sl_pid x) (snapshot_pages_used x) v)
  | _ => None
  end.

Definition perform (e : effect) (g : lck_t) : lck_t :=
  let (m, o, r, n, f, t, k) := g in
  match e with
  | Store_length n' => mk_lck m o r n' f t k
  | Store_flag v => mk_lck m o r n v t k
  | Store_oldest v => mk_lck m v r n f t k
  | Store_oldest_retired v => mk_lck m o v n f t k
  | Store_metas m' => mk_lck m' o r n f t k
  | Store_lock k' => mk_lck m o r n f t k'
  | _ => match slot_effect e with
         | Some (s, f') => mk_lck m o r n f (alter f' s t) k
         | None => g
         end
  end.

(** ** Program counters *)

Inductive bind_pc :=
| B_lock | B_check | B_length | B_scan (n s : nat) | B_cleanup
| B_pid (n s : nat) | B_txnid (n s : nat) | B_append (n s : nat) | B_tid (s : nat) | B_publish (s : nat)
| B_unlock (err : Z).

Inductive alloc_pc := R_pid (s : nat) | R_txnid (s : nat).

Inductive seize_pc :=
| S_owner | S_tap
| S_reset (m : metas_t) (loop : nat) | S_used (m : metas_t) (loop : nat) | S_retired (m : metas_t) (loop : nat)
| S_write (m : metas_t) (loop : nat) | S_flag (m : metas_t) (loop : nat) | S_should_retry (m : metas_t) (loop : nat)
| S_fetch (m : metas_t) (loop : nat) | S_oldest (m : metas_t) (loop : nat) | S_verify (m : metas_t) (loop : nat)
| S_setup | S_ensure.

Inductive park_pc := P_pid | P_tid (pid : Z) | P_txnid (pid tid : Z) | P_store | P_flag.

Inductive unpark_pc := U_pid | U_tid (pid : Z) | U_txnid (pid tid : Z) | U_cas | U_txnid_again | U_tid_again (txnid : Z).

Inductive clean_pc :=
| C_pid | C_ensure | C_tid | C_reset | C_owner | C_txnid_again | C_tid_again | C_used | C_reset_again | C_flag
| C_finished.

Inductive release_pc := F_pid | F_txnid | F_free.

Inductive unregister_pc := X_pid (s : nat) | X_txnid (s : nat) | X_free (s : nat) | X_flag.

(** What [ro_slot_clean] returns to. *)
Inductive after_clean := To_reset | To_free | To_unpark | To_start (err : Z) | To_park | To_clone (err : Z).

(** The fields of the origin that a clone reads. *)
Record origin_t := mk_origin { or_slot : nat; or_txnid : Z; or_parked : bool }.

Inductive clone_pc :=
| L_pid | L_owner | L_read_used | L_used (v : Z) | L_read_retired | L_retired (v : Z) | L_write | L_verify | L_oldest.

Inductive pc_t :=
| Idle | Ready | Active | Parked | Dead | Panic
| Bind (p : bind_pc) | Alloc (p : alloc_pc) | Get_pid
| Seize (p : seize_pc)
| Park (p : park_pc) | Unpark (p : unpark_pc)
| Clean (p : clean_pc) (k : after_clean)
| Release (p : release_pc)
| Unregister (p : unregister_pc)
| Clone (p : clone_pc) (o : origin_t).

(** ** The transaction *)

Record txn_t := mk_txn {
  tx_pid : Z;          (* the process *)
  tx_self : Z;         (* the thread, 0 if transactions are not tied to threads *)
  tx_slot : option nat;
  tx_rthc : option nat; (* the slot that the thread keeps *)
  tx_txnid : Z;
  tx_owner : Z;
  tx_finished : bool;
  tx_parked : bool;
  tx_ousted : bool;
  tx_error : bool;
  tx_pc : pc_t;
  tx_rc : Z            (* what the last call returned *)
}.

Definition set_pc (pc : pc_t) (t : txn_t) : txn_t :=
  let (a, b, c, d, e, f, g, h, i, j, _, l) := t in mk_txn a b c d e f g h i j pc l.
Definition set_rc (pc : pc_t) (rc : Z) (t : txn_t) : txn_t :=
  let (a, b, c, d, e, f, g, h, i, j, _, _) := t in mk_txn a b c d e f g h i j pc rc.
Definition set_slot (s : option nat) (t : txn_t) : txn_t :=
  let (a, b, _, d, e, f, g, h, i, j, k, l) := t in mk_txn a b s d e f g h i j k l.
Definition set_rthc (s : option nat) (t : txn_t) : txn_t :=
  let (a, b, c, _, e, f, g, h, i, j, k, l) := t in mk_txn a b c s e f g h i j k l.
Definition set_snap (txnid owner : Z) (t : txn_t) : txn_t :=
  let (a, b, c, d, _, _, g, h, i, j, k, l) := t in mk_txn a b c d txnid owner g h i j k l.
Definition set_flags (finished parked ousted error : bool) (t : txn_t) : txn_t :=
  let (a, b, c, d, e, f, _, _, _, _, k, l) := t in mk_txn a b c d e f finished parked ousted error k l.

Definition set_txnid (v : Z) (t : txn_t) : txn_t := set_snap v (tx_owner t) t.
Definition set_owner (v : Z) (t : txn_t) : txn_t := set_snap (tx_txnid t) v t.
Definition set_parked (b : bool) (t : txn_t) : txn_t := set_flags (tx_finished t) b (tx_ousted t) (tx_error t) t.
Definition set_finished (b : bool) (t : txn_t) : txn_t := set_flags b (tx_parked t) (tx_ousted t) (tx_error t) t.
Definition set_ousted (b : bool) (t : txn_t) : txn_t := set_flags (tx_finished t) (tx_parked t) b (tx_error t) t.
Definition set_error (b : bool) (t : txn_t) : txn_t := set_flags (tx_finished t) (tx_parked t) (tx_ousted t) b t.

(** ** Steps *)

(** A call of the interface, and what decides a step beyond the state: nothing, the
    answer of a function outside of the model, the meta pages that a (possibly stale)
    copy shows, or the call to be made. *)
Inductive call := CallStart | CallReset | CallPark | CallUnpark | CallFree | CallBreak | CallUnregister | CallClone (o : nat).
Inductive choice := Go | Ret (err : Z) | Tap (m : metas_t) | Call (c : call).

Section Reader.
Context (txkey : bool) (max_readers : nat).

Definition stepped : Type := option (txn_t * effect).
Definition go (pc : pc_t) (t : txn_t) (e : effect) : stepped := Some (set_pc pc t, e).

(** *** Binding of a slot (mvcc_bind_slot, ro_slot_alloc) *)

Definition slot_found (n s : nat) : bind_pc := if decide (s < max_readers)%nat then B_pid n s else B_cleanup.

Definition bind_slot_step (me : nat) (g : lck_t) (c : choice) (t : txn_t) (p : bind_pc) : stepped :=
  let next q e := go (Bind q) t e in
  match p, c with
  | B_lock, Ret err => if decide (err = MDBX_SUCCESS) then None else Some (set_rc Idle err t, Keep)
  | B_lock, Go => if rdt_lock g then None else next B_check (Store_lock (Some me))
  | B_check, Ret err => next (if decide (err = MDBX_SUCCESS) then B_length else B_unlock err) Keep
  | B_length, Go => next (B_scan (rdt_length g) 0) Keep
  | B_scan n s, Go =>
      if decide (s < n)%nat then
        x ← rdt g !! s; if decide (sl_pid x = 0) then next (slot_found n s) Keep else next (B_scan n (S s)) Keep
      else next (slot_found n s) Keep
  | B_cleanup, Ret err =>
      if decide (err = MDBX_RESULT_TRUE) then next B_length Keep
      else next (B_unlock (if decide (err = MDBX_SUCCESS) then MDBX_READERS_FULL else err)) Keep
  | B_pid n s, Go => next (B_txnid n s) (Store_pid s 0)
  | B_txnid n s, Go => next (B_append n s) (Store_txnid s UINT64_MAX)
  | B_append n s, Go => next (B_tid s) (if decide (s = n) then Store_length (S n) else Keep)
  | B_tid s, Go => next (B_publish s) (Store_tid s (tx_self t))
  | B_publish s, Go => go (Bind (B_unlock MDBX_SUCCESS)) (set_slot (Some s) t) (Store_pid s (tx_pid t))
  | B_unlock err, Go =>
      if decide (err = MDBX_SUCCESS)
      then go (Seize S_owner) (if txkey then set_rthc (tx_slot t) t else t) (Store_lock None)
      else Some (set_rc Idle err t, Store_lock None)
  | _, _ => None
  end.

Definition slot_alloc_step (g : lck_t) (c : choice) (t : txn_t) (p : alloc_pc) : stepped :=
  match p, c with
  | R_pid s, Go =>
      x ← rdt g !! s;
      if decide (sl_pid x = tx_pid t) then go (Alloc (R_txnid s)) t Keep else Some (set_rc Idle MDBX_BAD_RSLOT t, Keep)
  | R_txnid s, Go =>
      x ← rdt g !! s;
      if decide (SAFE64_INVALID_THRESHOLD <= sl_txnid x) then go (Seize S_owner) (set_slot (Some s) t) Keep
      else Some (set_rc Idle MDBX_BAD_RSLOT t, Keep)
  | _, _ => None
  end.

Definition ro_slot_alloc (t : txn_t) : pc_t :=
  match tx_rthc t with Some s => if txkey then Alloc (R_pid s) else Bind B_lock | None => Bind B_lock end.

(** [ro_slot_checkpid] of a transaction that has a slot already. *)
Definition slot_get_step (g : lck_t) (c : choice) (t : txn_t) : stepped :=
  match c with
  | Go =>
      s ← tx_slot t; x ← rdt g !! s;
      if decide (sl_pid x = tx_pid t) then go (Seize S_owner) t Keep else Some (set_rc Ready MDBX_BAD_RSLOT t, Keep)
  | _ => None
  end.

(** *** Start of a transaction (txn_ro_start, ro_start_continue, ro_seize) *)

Definition start_failed (err : Z) (t : txn_t) : stepped := go (Clean C_pid (To_start err)) (set_parked true t) Keep.

(** The next turn of the loop, at most 42 of them. *)
Definition seize_again (m : metas_t) (loop : nat) (t : txn_t) : stepped :=
  if decide (S loop < 42)%nat then go (Seize (S_reset m (S loop))) t Keep else start_failed MDBX_PROBLEM t.

Definition ro_seize_step (g : lck_t) (c : choice) (t : txn_t) (s : nat) (p : seize_pc) : stepped :=
  let next q e := go (Seize q) t e in
  match p, c with
  | S_owner, Go => x ← rdt g !! s; go (Seize S_tap) (set_owner (sl_tid x) t) Keep
  | S_owner, Ret err =>
      x ← rdt g !! s; if decide (err = MDBX_SUCCESS) then None else start_failed err (set_owner (sl_tid x) t)
  | S_tap, Ret err => if decide (err = MDBX_SUCCESS) then None else start_failed err t
  | S_tap, Tap m =>
      if decide (hd_txnid (mt_recent m) <= hd_txnid (mt_recent (metas g)))
      then go (Seize (S_reset m 0)) (set_finished false t) Keep else None
  | S_reset m l, Go => next (S_used m l) (Store_txnid s UINT64_MAX)
  | S_used m l, Go => next (S_retired m l) (Store_used s (first_unallocated (mt_recent m)))
  | S_retired m l, Go => next (S_write m l) (Store_retired s (pages_retired (mt_recent m)))
  | S_write m l, Go => next (S_flag m l) (Store_txnid s (hd_txnid (mt_recent m)))
  | S_flag m l, Go => next (S_should_retry m l) (Store_flag 1)
  | S_should_retry m l, Ret err => if decide (err = MDBX_SUCCESS) then None else start_failed err t
  | S_should_retry m l, Go =>
      if decide (m = metas g) then next (S_fetch m l) Keep else seize_again (metas g) l t
  | S_fetch m l, Ret err =>
      let t := set_txnid (hd_txnid (mt_recent m)) t in
      if decide (err = MDBX_SUCCESS) then go (Seize (S_oldest m l)) t Keep
      else if decide (err = MDBX_RESULT_TRUE) then seize_again m l t else start_failed err t
  | S_oldest m l, Go => if decide (tx_txnid t < cached_oldest_txnid g) then seize_again m l t else next (S_verify m l) Keep
  | S_verify m l, Go =>
      x ← rdt g !! s; if decide (tx_txnid t = sl_txnid x) then next S_setup Keep else seize_again m l t
  | S_setup, Ret err => if decide (err = MDBX_SUCCESS) then next S_ensure Keep else start_failed err t
  | S_ensure, Go =>
      if decide (cached_oldest_txnid g <= tx_txnid t) then Some (set_rc Active MDBX_SUCCESS t, Keep) else go Panic t Keep
  | _, _ => None
  end.

(** *** Parking (txn_ro_park, txn_ro_unpark) *)

Definition ro_park_step (g : lck_t) (c : choice) (t : txn_t) (s : nat) (p : park_pc) : stepped :=
  match p, c with
  | P_pid, Go => x ← rdt g !! s; go (Park (P_tid (sl_pid x))) t Keep
  | P_tid pid, Go => x ← rdt g !! s; go (Park (P_txnid pid (sl_tid x))) t Keep
  | P_txnid pid tid, Go =>
      x ← rdt g !! s;
      if decide (pid <> tx_pid t) then Some (set_rc Active MDBX_PROBLEM t, Keep)
      else if decide (tid <> tx_owner t \/ sl_txnid x <> tx_txnid t) then Some (set_rc Active MDBX_BAD_RSLOT t, Keep)
      else if tx_error t then go (Clean C_pid To_park) t Keep
      else go (Park P_store) t Keep
  | P_store, Go => go (Park P_flag) t (Store_tid s MDBX_TID_TXN_PARKED)
  | P_flag, Go => Some (set_rc Parked MDBX_SUCCESS (set_parked true t), Store_flag 1)
  | _, _ => None
  end.

Definition ro_unpark_step (g : lck_t) (c : choice) (t : txn_t) (s : nat) (p : unpark_pc) : stepped :=
  let reset := go (Clean C_pid To_unpark) t Keep in
  match p, c with
  | U_pid, Go => x ← rdt g !! s; go (Unpark (U_tid (sl_pid x))) t Keep
  | U_tid pid, Go => x ← rdt g !! s; go (Unpark (U_txnid pid (sl_tid x))) t Keep
  | U_txnid pid tid, Go =>
      x ← rdt g !! s;
      let txnid := sl_txnid x in
      if decide (pid <> tx_pid t) then Some (set_rc Parked MDBX_PROBLEM t, Keep)
      else if decide (tid = MDBX_TID_TXN_OUSTED \/ SAFE64_INVALID_THRESHOLD <= txnid) then reset
      else if decide (tid <> MDBX_TID_TXN_PARKED \/ txnid <> tx_txnid t) then reset
      else if tx_error t then reset
      else go (Unpark U_cas) t Keep
  | U_cas, Go =>
      x ← rdt g !! s;
      if decide (sl_tid x = MDBX_TID_TXN_PARKED) then go (Unpark U_txnid_again) t (Store_tid s (tx_owner t))
      else go (Unpark U_pid) t Keep
  | U_txnid_again, Go => x ← rdt g !! s; go (Unpark (U_tid_again (sl_txnid x))) t Keep
  | U_tid_again txnid, Go =>
      x ← rdt g !! s;
      if decide (txnid <> tx_txnid t \/ sl_tid x <> tx_owner t) then reset
      else Some (set_rc Active MDBX_SUCCESS (set_parked false t), Keep)
  | _, _ => None
  end.

(** *** End of a transaction (ro_slot_clean, txn_ro_reset, ro_slot_release, txn_ro_free) *)

Definition txn_ended (t : txn_t) : txn_t := set_finished true (set_snap INVALID_TXNID 0 t).

Definition clean_return (k : after_clean) (rc : Z) (t : txn_t) : txn_t :=
  match k with
  | To_reset => set_rc Ready rc (txn_ended t)
  | To_free => set_pc (Release F_pid) (txn_ended t)
  | To_unpark =>
      set_rc Ready (if decide (rc = MDBX_SUCCESS) then (if tx_ousted t then MDBX_OUSTED else rc) else rc) (txn_ended t)
  | To_start err | To_clone err => set_rc Ready err (txn_ended t)
  | To_park => set_rc Active rc t
  end.

Definition ro_slot_clean_step (g : lck_t) (c : choice) (t : txn_t) (s : nat) (p : clean_pc) (k : after_clean) : stepped :=
  let next q e := go (Clean q k) t e in
  match p, c with
  | C_pid, Go =>
      x ← rdt g !! s;
      if decide (sl_pid x <> tx_pid t) then Some (clean_return k MDBX_BAD_RSLOT t, Keep)
      else if tx_finished t then next C_finished Keep
      else if tx_parked t then next C_tid Keep else next C_ensure Keep
  | C_ensure, Go => if decide (cached_oldest_txnid g <= tx_txnid t) then next C_used Keep else go Panic t Keep
  | C_tid, Go =>
      x ← rdt g !! s;
      go (Clean C_reset k) (set_ousted (tx_ousted t || bool_decide (sl_tid x = MDBX_TID_TXN_OUSTED)) (set_parked false t)) Keep
  | C_reset, Go => next C_owner (Store_txnid s UINT64_MAX)
  | C_owner, Go => next C_txnid_again (Store_tid s (tx_owner t))
  | C_txnid_again, Go =>
      x ← rdt g !! s;
      next (if decide (sl_txnid x < SAFE64_INVALID_THRESHOLD) then C_reset else C_tid_again) Keep
  | C_tid_again, Go => x ← rdt g !! s; next (if decide (sl_tid x <> tx_owner t) then C_reset else C_used) Keep
  | C_used, Go => next C_reset_again (Store_used s 0)
  | C_reset_again, Go => next C_flag (Store_txnid s UINT64_MAX)
  | C_flag, Go => Some (clean_return k MDBX_SUCCESS t, Store_flag 1)
  | C_finished, Go =>
      x ← rdt g !! s;
      if decide (SAFE64_INVALID_THRESHOLD <= sl_txnid x) then Some (clean_return k MDBX_SUCCESS t, Keep)
      else go Panic t Keep
  | _, _ => None
  end.

Definition ro_slot_release_step (g : lck_t) (c : choice) (t : txn_t) (s : nat) (p : release_pc) : stepped :=
  let released e := Some (set_rc Idle MDBX_SUCCESS (set_slot None t), e) in
  match p, c with
  | F_pid, Go => x ← rdt g !! s; if decide (sl_pid x = tx_pid t) then go (Release F_txnid) t Keep else released Keep
  | F_txnid, Go => if txkey then released (Store_txnid s UINT64_MAX) else go (Release F_free) t (Store_txnid s UINT64_MAX)
  | F_free, Go => released (Store_pid s 0)
  | _, _ => None
  end.

(** [mdbx_thread_unregister] gives back the slot that the thread keeps. *)
Definition thread_unregister_step (g : lck_t) (c : choice) (t : txn_t) (p : unregister_pc) : stepped :=
  match p, c with
  | X_pid s, Go =>
      x ← rdt g !! s;
      if decide (sl_pid x <> tx_pid t \/ sl_tid x <> tx_self t) then Some (set_rc Idle MDBX_BAD_RSLOT t, Keep)
      else go (Unregister (X_txnid s)) t Keep
  | X_txnid s, Go =>
      x ← rdt g !! s;
      if decide (sl_txnid x < SAFE64_INVALID_THRESHOLD) then Some (set_rc Idle MDBX_BUSY t, Keep)
      else go (Unregister (X_free s)) t Keep
  | X_free s, Go => go (Unregister X_flag) t (Store_pid s 0)
  | X_flag, Go => Some (set_rc Idle MDBX_SUCCESS (set_rthc None t), Store_flag 1)
  | _, _ => None
  end.

(** *** Clone of a reading transaction (txn_ro_clone, mdbx_txn_clone) *)

Definition txn_cloned (o : origin_t) (t : txn_t) : stepped :=
  Some (set_rc (if or_parked o then Parked else Active) MDBX_SUCCESS (set_finished false t), Keep).

Definition ro_clone_step (g : lck_t) (c : choice) (t : txn_t) (s : nat) (p : clone_pc) (o : origin_t) : stepped :=
  let next q e := go (Clone q o) t e in
  match p, c with
  | L_pid, Go =>
      x ← rdt g !! s;
      if decide (sl_pid x = tx_pid t) then next L_owner Keep else Some (set_rc Ready MDBX_BAD_RSLOT t, Keep)
  | L_owner, Go =>
      x ← rdt g !! s;
      go (Clone L_read_used o) (set_flags true (or_parked o) (tx_ousted t) (tx_error t) (set_snap (or_txnid o) (sl_tid x) t)) Keep
  | L_read_used, Go => x ← rdt g !! or_slot o; next (L_used (snapshot_pages_used x)) Keep
  | L_used v, Go => next L_read_retired (Store_used s v)
  | L_read_retired, Go => x ← rdt g !! or_slot o; next (L_retired (snapshot_pages_retired x)) Keep
  | L_retired v, Go => next L_write (Store_retired s v)
  | L_write, Go => next L_verify (Store_txnid s (if or_parked o then MDBX_TID_TXN_PARKED else tx_txnid t))
  | L_verify, Go =>
      if or_parked o then txn_cloned o t
      else x ← rdt g !! s;
        if decide (tx_txnid t <> sl_txnid x) then go (Clean C_pid (To_clone MDBX_OUSTED)) t Keep else next L_oldest Keep
  | L_oldest, Go =>
      if decide (tx_txnid t < cached_oldest_txnid g) then go (Clean C_pid (To_clone MDBX_MVCC_RETARDED)) t Keep
      else txn_cloned o t
  | _, _ => None
  end.

(** *** The calls of the interface *)

(** Only a transaction that is not finished is cloned. *)
Definition origin_of (txns : list txn_t) (o : nat) : option origin_t :=
  t ← txns !! o; s ← tx_slot t;
  match tx_pc t with Active | Parked => Some (mk_origin s (tx_txnid t) (tx_parked t)) | _ => None end.

Definition called (txns : list txn_t) (c : call) (t : txn_t) : option txn_t :=
  match tx_pc t, c with
  | Idle, CallStart => Some (set_pc (ro_slot_alloc t) (set_flags true false false false t))
  | Ready, CallStart => Some (set_pc Get_pid (set_flags true false false false t))
  | (Ready | Active | Parked), CallReset => Some (set_pc (Clean C_pid To_reset) t)
  | (Ready | Active | Parked), CallFree => Some (set_pc (Clean C_pid To_free) t)
  | (Active | Parked), CallBreak => Some (set_error true t)
  | Active, CallPark => Some (set_pc (Park P_pid) t)
  | Parked, CallUnpark => Some (set_pc (Unpark U_pid) t)
  | Idle, CallUnregister => s ← tx_rthc t; Some (set_pc (Unregister (X_pid s)) t)
  | Ready, CallClone o => org ← origin_of txns o; Some (set_pc (Clone L_pid org) t)
  | _, _ => None
  end.

(** One step of the transaction [me]. *)
Definition reader_step (me : nat) (txns : list txn_t) (g : lck_t) (c : choice) (t : txn_t) : stepped :=
  match c with
  | Call c => t' ← called txns c t; Some (t', Keep)
  | _ =>
      match tx_pc t with
      | Bind p => bind_slot_step me g c t p
      | Alloc p => slot_alloc_step g c t p
      | Get_pid => slot_get_step g c t
      | Unregister p => thread_unregister_step g c t p
      | Seize p => s ← tx_slot t; ro_seize_step g c t s p
      | Park p => s ← tx_slot t; ro_park_step g c t s p
      | Unpark p => s ← tx_slot t; ro_unpark_step g c t s p
      | Clean p k => s ← tx_slot t; ro_slot_clean_step g c t s p k
      | Release p => s ← tx_slot t; ro_slot_release_step g c t s p
      | Clone p o => s ← tx_slot t; ro_clone_step g c t s p o
      | _ => None
      end
  end.

End Reader.
