(* ===== verification/ReadersWriter.v ===== *)
(** * The writer's side of the table of readers

    The scan for the oldest snapshot in use, the ousting of parked transactions and
    the update of the meta pages, as a machine with one access to the shared memory
    per step; then the world of one writer (the holder of the lock of writers) and any
    number of reading transactions, whose runs are the interleavings of their steps.

    The environment has no callback for laggards, and no checks are compiled in. *)

From S2P Require Import Prelude Readers.

(** ** Program counters *)

(** The locals of the scan: the previous oldest, the number of slots seen, the index,
    and the minimum so far with its count of retired pages. *)
Record scan_t := mk_scan { sc_prev : Z; sc_n : nat; sc_i : nat; sc_oldest : Z; sc_retired : Z }.

Definition sc_next (x : scan_t) : scan_t := mk_scan (sc_prev x) (sc_n x) (S (sc_i x)) (sc_oldest x) (sc_retired x).
Definition sc_found (x : scan_t) (txnid retired : Z) : scan_t := mk_scan (sc_prev x) (sc_n x) (sc_i x) txnid retired.

Inductive scan_pc :=
| O_begin | O_refresh (x : scan_t) | O_toggle (x : scan_t) | O_length (x : scan_t)
| O_pid (x : scan_t) | O_retired (x : scan_t) | O_txnid (x : scan_t) (retired : Z)
| O_retired_again (x : scan_t) (retired txnid : Z) | O_txnid_again (x : scan_t) (retired txnid : Z)
| O_kick (x : scan_t) (txnid : Z) | O_cas (x : scan_t) (txnid : Z)
| O_store (x : scan_t) | O_store_retired (x : scan_t).

(** [st] is the slot of an obstacle with its thread, [o] the oldest snapshot. *)
Inductive kick_pc :=
| K_refresh | K_decide (o : Z) | K_cleanup (o : Z)
| K_scan (o : Z) (i : nat) (st : option (nat * Z)) | K_txnid (o : Z) (i : nat) (st : option (nat * Z))
| K_pid (o : Z) (i : nat) (st : option (nat * Z)) | K_tid (o : Z) (i : nat) (st : option (nat * Z))
| K_cas (o : Z) (i : nat) (st : option (nat * Z)) | K_reset (o : Z) (i : nat) (st : option (nat * Z))
| K_pid_again (i : nat) (tid : Z) | K_txnid_again (i : nat) (tid pid : Z) | K_tid_again (i : nat) (tid pid txnid : Z).

(** What the scan returns to. *)
Inductive after_scan := To_detent | To_rescan | To_kick (retry : Z).

Inductive wpc_t :=
| W_idle | W_txn
| W_scan (p : scan_pc) (k : after_scan) | W_force
| W_kick (p : kick_pc) (retry : Z)
| W_meta (m : metas_t) (done : bool) | W_toggle (done : bool).

(** The writer: its copy of the meta pages, [gc.detent], and what the last
    [mvcc_kick_laggards] returned. *)
Record writer_t := mk_writer { w_pc : wpc_t; w_metas : metas_t; w_detent : Z; w_kicked : bool }.

Definition set_wpc (pc : wpc_t) (w : writer_t) : writer_t := mk_writer pc (w_metas w) (w_detent w) (w_kicked w).
Definition set_detent (o : Z) (w : writer_t) : writer_t := mk_writer (w_pc w) (w_metas w) o (w_kicked w).
Definition kick_returns (b : bool) (w : writer_t) : writer_t := mk_writer W_txn (w_metas w) (w_detent w) b.

Inductive wchoice :=
| WGo | WRet (err : Z)
| WBegin | WDetent | WRescan | WKick | WCommit (used retired : Z) (durable : bool) | WSync | WEnd | WDie.

Definition wstepped : Type := option (writer_t * effect).
Definition wgo (pc : wpc_t) (w : writer_t) (e : effect) : wstepped := Some (set_wpc pc w, e).

(** ** The scan (mvcc_shapshot_oldest_rw) *)

Definition scan_return (k : after_scan) (o : Z) (w : writer_t) : writer_t :=
  match k with
  | To_detent => set_wpc W_txn (set_detent o w)
  | To_rescan => set_wpc W_txn w
  | To_kick retry => set_wpc (W_kick (K_decide o) retry) w
  end.

(** What follows from a consistent reading of a slot. *)
Definition scan_take (x : scan_t) (retired txnid : Z) : scan_pc :=
  if decide (txnid < sc_prev x) then O_kick x txnid
  else if decide (txnid < sc_oldest x) then
    let x' := sc_found x txnid retired in
    if decide (txnid = sc_prev x) then O_refresh x' else O_pid (sc_next x')
  else O_pid (sc_next x).

Definition mvcc_shapshot_oldest_rw_step (g : lck_t) (w : writer_t) (p : scan_pc) (k : after_scan) : wstepped :=
  let next q e := wgo (W_scan q k) w e in
  let steady := mt_steady (w_metas w) in
  match p with
  | O_begin =>
      let prev := cached_oldest_txnid g in next (O_refresh (mk_scan prev 0 0 prev (cached_oldest_retired g))) Keep
  | O_refresh x =>
      if decide (rdt_refresh_flag g <> NOTHING_CHANGED_SIGNATURE) then next (O_toggle x) Keep
      else if decide (sc_oldest x <> sc_prev x) then next (O_store x) Keep
      else Some (scan_return k (sc_oldest x) w, Keep)
  | O_toggle x => next (O_length x) (Store_flag NOTHING_CHANGED_SIGNATURE)
  | O_length x => next (O_pid (mk_scan (sc_prev x) (rdt_length g) 0 (hd_txnid steady) (pages_retired steady))) Keep
  | O_pid x =>
      if decide (sc_i x < sc_n x)%nat then
        s ← rdt g !! sc_i x;
        if decide (sl_pid s = 0) then next (O_pid (sc_next x)) Keep else next (O_retired x) Keep
      else next (O_refresh x) Keep
  | O_retired x => s ← rdt g !! sc_i x; next (O_txnid x (snapshot_pages_retired s)) Keep
  | O_txnid x retired => s ← rdt g !! sc_i x; next (O_retired_again x retired (sl_txnid s)) Keep
  | O_retired_again x retired txnid =>
      s ← rdt g !! sc_i x;
      next (if decide (retired <> snapshot_pages_retired s) then O_pid x else O_txnid_again x retired txnid) Keep
  | O_txnid_again x retired txnid =>
      s ← rdt g !! sc_i x;
      next (if decide (txnid <> sl_txnid s) then O_pid x else scan_take x retired txnid) Keep
  | O_kick x txnid =>
      next (if decide (rdt_refresh_flag g = NOTHING_CHANGED_SIGNATURE) then O_cas x txnid else O_pid (sc_next x)) Keep
  | O_cas x txnid =>
      s ← rdt g !! sc_i x;
      next (O_pid (sc_next x)) (if decide (sl_txnid s = txnid) then Store_txnid (sc_i x) UINT64_MAX else Keep)
  | O_store x => next (O_store_retired x) (Store_oldest (sc_oldest x))
  | O_store_retired x => Some (scan_return k (sc_oldest x) w, Store_oldest_retired (sc_retired x))
  end.

(** ** The ousting of laggards (mvcc_kick_laggards) *)

Definition is_error (err : Z) : bool := bool_decide (err <> MDBX_SUCCESS /\ err <> MDBX_RESULT_TRUE).

Definition kick_again (retry : Z) (w : writer_t) : wstepped :=
  if decide (retry + 1 < 2 ^ 31 - 1) then wgo (W_kick K_refresh (retry + 1)) w Keep else Some (kick_returns false w, Keep).

Definition mvcc_kick_laggards_step (g : lck_t) (c : wchoice) (w : writer_t) (p : kick_pc) (retry : Z) : wstepped :=
  let next q e := wgo (W_kick q retry) w e in
  let straggler := w_detent w in
  match p, c with
  | K_refresh, WGo => wgo (W_scan O_begin (To_kick retry)) w (Store_flag 1)
  | K_decide o, WGo =>
      if decide (o = hd_txnid (mt_steady (w_metas w)) \/ straggler < o)
      then Some (kick_returns (bool_decide (straggler < o)) w, Keep) else next (K_cleanup o) Keep
  | K_cleanup o, WRet err => if is_error err then Some (kick_returns false w, Keep) else next (K_scan o 0 None) Keep
  | K_scan o i st, WGo =>
      if decide (i < rdt_length g)%nat then next (K_txnid o i st) Keep
      else match st with None => Some (kick_returns false w, Keep) | Some (j, tid) => next (K_pid_again j tid) Keep end
  | K_txnid o i st, WGo =>
      s ← rdt g !! i; next (if decide (sl_txnid s = o) then K_pid o i st else K_scan o (S i) st) Keep
  | K_pid o i st, WGo =>
      s ← rdt g !! i; next (if decide (sl_pid s <> 0) then K_tid o i st else K_scan o (S i) st) Keep
  | K_tid o i st, WGo =>
      s ← rdt g !! i;
      next (if decide (sl_tid s = MDBX_TID_TXN_PARKED) then K_cas o i st else K_scan o (S i) (Some (i, sl_tid s))) Keep
  | K_cas o i st, WGo =>
      s ← rdt g !! i;
      if decide (sl_tid s = MDBX_TID_TXN_PARKED) then next (K_reset o i st) (Store_tid i MDBX_TID_TXN_OUSTED)
      else next (K_txnid o i st) Keep
  | K_reset o i st, WGo =>
      s ← rdt g !! i;
      next (K_scan o (S i) st) (if decide (sl_txnid s = o) then Store_txnid i UINT64_MAX else Keep)
  | K_pid_again j tid, WGo => s ← rdt g !! j; next (K_txnid_again j tid (sl_pid s)) Keep
  | K_txnid_again j tid pid, WGo => s ← rdt g !! j; next (K_tid_again j tid pid (sl_txnid s)) Keep
  | K_tid_again j tid pid txnid, WGo =>
      s ← rdt g !! j;
      if decide (txnid <> straggler \/ sl_tid s <> tid \/ pid = 0) then kick_again retry w
      else Some (kick_returns false w, Keep)
  | _, _ => None
  end.

(** ** The write transaction *)

(** The meta pages after a commit and after a steady sync of the recent state. *)
Definition committed (m : metas_t) (used retired : Z) (durable : bool) : metas_t :=
  let recent := mk_snapshot (hd_txnid (mt_recent m) + 1) used retired in
  mk_metas recent (if durable then recent else mt_steady m).
Definition synced (m : metas_t) : metas_t := mk_metas (mt_recent m) (mt_recent m).

Definition write_txn_step (w : writer_t) (c : wchoice) : wstepped :=
  match c with
  | WDetent => wgo (W_scan O_begin To_detent) w Keep
  | WRescan => wgo W_force w Keep
  | WKick => wgo (W_kick K_refresh 0) w Keep
  | WCommit used retired durable => wgo (W_meta (committed (w_metas w) used retired durable) true) w Keep
  | WSync => wgo (W_meta (synced (w_metas w)) false) w Keep
  | WEnd => wgo W_idle w Keep
  | _ => None
  end.

Definition writer_step (g : lck_t) (c : wchoice) (w : writer_t) : wstepped :=
  match c with
  | WDie => wgo W_idle w Keep
  | _ =>
      match w_pc w, c with
      | W_idle, WBegin =>
          if decide (hd_txnid (mt_recent (metas g)) + 1 <= MAX_TXNID)
          then Some (mk_writer W_txn (metas g) (w_detent w) (w_kicked w), Keep) else None
      | W_txn, _ => write_txn_step w c
      | W_force, WGo => wgo (W_scan O_begin To_rescan) w (Store_flag 1)
      | W_scan p k, WGo => mvcc_shapshot_oldest_rw_step g w p k
      | W_kick p retry, _ => mvcc_kick_laggards_step g c w p retry
      | W_meta m done, WGo => Some (mk_writer (W_toggle done) m (w_detent w) (w_kicked w), Store_metas m)
      | W_toggle done, WGo => wgo (if done then W_idle else W_txn) w (Store_flag 0)
      | _, _ => None
      end
  end.

(** ** The world *)

Record world := mk_world { w_lck : lck_t; w_txns : list txn_t; w_writer : writer_t }.

(** Besides the steps of the readers and of the writer: a process dies, the slot of a
    dead process is cleared (mvcc_cleanup_dead), someone asks for a refresh. *)
Inductive action :=
| AReader (r : nat) (c : choice)
| AWriter (c : wchoice)
| ADie (pid : Z)
| AClear (s : nat)
| ARefresh.

Definition dead (t : txn_t) : bool := match tx_pc t with Dead => true | _ => false end.
Definition die (pid : Z) (t : txn_t) : txn_t := if decide (tx_pid t = pid) then set_pc Dead t else t.
Definition pid_dead (txns : list txn_t) (pid : Z) : bool := forallb (fun t => dead t || negb (tx_pid t =? pid)) txns.

Definition owner_dies (pid : Z) (txns : list txn_t) (lock : option nat) : bool :=
  match lock ≫= (fun r => txns !! r) with Some t => tx_pid t =? pid | None => false end.

Section World.
Context (txkey : bool) (max_readers : nat).

Definition act (w : world) (a : action) : option world :=
  let g := w_lck w in
  match a with
  | AReader r c =>
      t ← w_txns w !! r; '(t', e) ← reader_step txkey max_readers r (w_txns w) g c t;
      Some (mk_world (perform e g) (<[r := t']> (w_txns w)) (w_writer w))
  | AWriter c =>
      '(wr, e) ← writer_step g c (w_writer w); Some (mk_world (perform e g) (w_txns w) wr)
  | ADie pid =>
      Some (mk_world (if owner_dies pid (w_txns w) (rdt_lock g) then perform (Store_lock None) g else g)
        (die pid <$> w_txns w) (w_writer w))
  | AClear s =>
      x ← rdt g !! s;
      if pid_dead (w_txns w) (sl_pid x)
      then Some (mk_world (perform (Store_flag 1) (perform (Store_pid s 0) g)) (w_txns w) (w_writer w)) else None
  | ARefresh => Some (mk_world (perform (Store_flag 1) g) (w_txns w) (w_writer w))
  end.

Fixpoint run (w : world) (l : list action) : option world :=
  match l with [] => Some w | a :: l => w' ← act w a; run w' l end.

End World.
