(* ===== verification/ReadersInv.v ===== *)
(** * The invariant of the table of readers

    [winv] is what the writer keeps, [txn_ok] what a reading transaction keeps at each
    program counter, and [guarded] ties the two: while the writer scans, a validated
    snapshot is either not newer than the minimum so far or its slot is still ahead. *)

From S2P Require Import Prelude Readers ReadersWriter.

(** ** The writer *)

Definition metas_ok (m : metas_t) : Prop := hd_txnid (mt_steady m) <= hd_txnid (mt_recent m) <= MAX_TXNID.

Definition scan_bounds (x : scan_t) (g : lck_t) (m : metas_t) : Prop :=
  sc_prev x = cached_oldest_txnid g /\ sc_prev x <= sc_oldest x <= hd_txnid (mt_steady m).

Definition scan_inv (g : lck_t) (m : metas_t) (p : scan_pc) : Prop :=
  match p with
  | O_begin => True
  | O_toggle x | O_length x => sc_prev x = cached_oldest_txnid g
  | O_refresh x | O_pid x | O_retired x | O_txnid x _ | O_retired_again x _ _ | O_txnid_again x _ _ | O_store x =>
      scan_bounds x g m
  | O_kick x v | O_cas x v => scan_bounds x g m /\ v < sc_prev x
  | O_store_retired x => sc_oldest x = cached_oldest_txnid g
  end.

Definition kick_inv (m : metas_t) (p : kick_pc) : Prop :=
  match p with
  | K_refresh | K_pid_again _ _ | K_txnid_again _ _ _ | K_tid_again _ _ _ _ => True
  | K_decide o => o <= hd_txnid (mt_steady m)
  | K_cleanup o | K_scan o _ _ | K_txnid o _ _ | K_pid o _ _ | K_tid o _ _ | K_cas o _ _ | K_reset o _ _ =>
      o < hd_txnid (mt_steady m)
  end.

Definition wpc_inv (g : lck_t) (w : writer_t) : Prop :=
  let m := w_metas w in
  let in_txn := m = metas g /\ hd_txnid (mt_recent m) + 1 <= MAX_TXNID in
  match w_pc w with
  | W_idle => True
  | W_toggle true => True
  | W_txn | W_force | W_toggle false => in_txn
  | W_scan p _ => in_txn /\ scan_inv g m p
  | W_kick p _ => in_txn /\ kick_inv m p
  | W_meta m' done =>
      in_txn /\ metas_ok m' /\ hd_txnid (mt_steady m) <= hd_txnid (mt_steady m') /\
      (done = false -> hd_txnid (mt_recent m') + 1 <= MAX_TXNID)
  end.

Record winv (g : lck_t) (w : writer_t) : Prop := {
  winv_metas : metas_ok (metas g);
  winv_cached : cached_oldest_txnid g <= hd_txnid (mt_steady (metas g));
  winv_detent : w_detent w <= cached_oldest_txnid g;
  winv_pc : wpc_inv g w
}.

(** ** What protects a validated snapshot [h] of slot [s] *)

Definition scan_guard (p : scan_pc) (s : nat) (h : Z) : Prop :=
  match p with
  | O_begin | O_toggle _ | O_length _ | O_store_retired _ => True
  | O_refresh x | O_store x => sc_oldest x <= h \/ h < sc_prev x
  | O_pid x | O_retired x | O_txnid x _ | O_retired_again x _ _ | O_txnid_again x _ _ =>
      sc_oldest x <= h \/ h < sc_prev x \/ (sc_i x <= s < sc_n x)%nat
  | O_kick x _ | O_cas x _ => sc_oldest x <= h \/ h < sc_prev x \/ (sc_i x < s < sc_n x)%nat
  end.

Definition guarded (w : writer_t) (s : nat) (h : Z) : Prop :=
  match w_pc w with
  | W_scan p _ => scan_guard p s h
  | W_kick (K_reset o i _) _ => i = s -> o <> h
  | _ => True
  end.

(** ** The reading transactions *)

(** The slot that a live transaction or its thread has. *)
Definition held (t : txn_t) : option nat :=
  match tx_pc t with
  | Dead | Unregister X_flag => None
  | _ => match tx_slot t with Some s => Some s | None => tx_rthc t end
  end.

Section Views.
Context (cached : Z) (w : writer_t) (t : txn_t) (s : nat) (x : reader_slot_t).

Definition calm : Prop := sl_tid x = tx_self t /\ sl_txnid x = UINT64_MAX.
Definition begun : Prop := sl_tid x = tx_self t /\ tx_owner t = tx_self t /\ tx_finished t = false.
Definition protects (h : Z) : Prop := sl_txnid x = h /\ cached <= h <= MAX_TXNID /\ guarded w s h.

(** The snapshot of the transaction is protected. *)
Definition holds : Prop := begun /\ protects (tx_txnid t).

(** A parked transaction is ousted or still protected. *)
Definition ousted_or_holds : Prop :=
  tx_owner t = tx_self t /\ tx_finished t = false /\
  (sl_tid x = MDBX_TID_TXN_OUSTED \/ sl_tid x = MDBX_TID_TXN_PARKED /\ protects (tx_txnid t)).

Definition seize_view (p : seize_pc) : Prop :=
  match p with
  | S_owner => calm /\ tx_finished t = true
  | S_tap => calm /\ tx_finished t = true /\ tx_owner t = tx_self t
  | S_reset _ _ | S_used _ _ | S_retired _ _ | S_write _ _ | S_flag _ _ | S_should_retry _ _ => begun
  | S_fetch m _ => begun /\ hd_txnid (mt_recent m) <= MAX_TXNID /\
      (sl_txnid x = hd_txnid (mt_recent m) -> guarded w s (hd_txnid (mt_recent m)))
  | S_oldest _ _ => begun /\ tx_txnid t <= MAX_TXNID /\ (sl_txnid x = tx_txnid t -> guarded w s (tx_txnid t))
  | S_verify _ _ => begun /\ tx_txnid t <= MAX_TXNID /\ (sl_txnid x = tx_txnid t -> protects (tx_txnid t))
  | S_setup | S_ensure => holds
  end.

Definition park_view (p : park_pc) : Prop :=
  match p with
  | P_pid | P_store => holds /\ tx_parked t = false
  | P_tid pid => holds /\ tx_parked t = false /\ pid = tx_pid t
  | P_txnid pid tid => holds /\ tx_parked t = false /\ pid = tx_pid t /\ tid = tx_self t
  | P_flag => ousted_or_holds
  end.

(** A mark that was read stays, except that a parked transaction may be ousted. *)
Definition tid_read (tid : Z) : Prop :=
  tid = MDBX_TID_TXN_PARKED \/ tid = MDBX_TID_TXN_OUSTED /\ sl_tid x = MDBX_TID_TXN_OUSTED.

Definition unpark_view (p : unpark_pc) : Prop :=
  tx_parked t = true /\
  match p with
  | U_pid | U_cas => ousted_or_holds
  | U_tid pid => ousted_or_holds /\ pid = tx_pid t
  | U_txnid pid tid => ousted_or_holds /\ pid = tx_pid t /\ tid_read tid
  | U_txnid_again => holds
  | U_tid_again txnid => holds /\ txnid = tx_txnid t
  end.

Definition clean_start : Prop :=
  if tx_finished t then calm
  else tx_owner t = tx_self t /\
    (if tx_parked t then sl_tid x = tx_self t \/ sl_tid x = MDBX_TID_TXN_PARKED \/ sl_tid x = MDBX_TID_TXN_OUSTED else holds).

Definition clean_view (p : clean_pc) : Prop :=
  match p with
  | C_pid => clean_start
  | C_ensure => holds
  | C_tid | C_reset => tx_owner t = tx_self t
  | C_owner => tx_owner t = tx_self t /\ sl_txnid x = UINT64_MAX
  | C_txnid_again | C_tid_again => calm /\ tx_owner t = tx_self t
  | C_used | C_reset_again => sl_tid x = tx_self t
  | C_flag | C_finished => calm
  end.

(** An unparking that fails finds that the transaction was ousted. *)
Definition clean_for (p : clean_pc) (k : after_clean) : Prop :=
  match k with
  | To_unpark =>
      match p with
      | C_pid => sl_tid x = MDBX_TID_TXN_OUSTED /\ tx_finished t = false /\ tx_parked t = true
      | C_tid => sl_tid x = MDBX_TID_TXN_OUSTED
      | _ => tx_ousted t = true
      end
  | To_start err => err <> MDBX_SUCCESS
  | To_park | To_clone _ => False
  | _ => True
  end.

Definition view : Prop :=
  match tx_pc t with
  | Idle | Alloc _ | Unregister _ | Bind _ => calm
  | Ready | Get_pid => calm /\ tx_finished t = true
  | Active => holds /\ tx_parked t = false
  | Parked => ousted_or_holds /\ tx_parked t = true
  | Seize p => seize_view p
  | Park p => park_view p
  | Unpark p => unpark_view p
  | Clean p k => clean_view p /\ clean_for p k
  | Release _ => calm
  | Dead | Panic | Clone _ _ => False
  end.

End Views.

(** Which fields are set at a program counter. *)
Definition shape (txkey : bool) (t : txn_t) : Prop :=
  (txkey = false -> tx_rthc t = None) /\
  match tx_pc t with Bind _ | Alloc _ | Get_pid | Seize _ => tx_parked t = false | _ => True end /\
  match tx_pc t with
  | Dead => True
  | Panic | Clone _ _ => False
  | Idle | Unregister X_flag => tx_slot t = None
  | Unregister (X_pid s | X_txnid s | X_free s) => tx_slot t = None /\ tx_rthc t = Some s
  | Alloc (R_pid s | R_txnid s) => tx_finished t = true /\ tx_slot t = None /\ tx_rthc t = Some s
  | Bind (B_unlock err) =>
      tx_finished t = true /\ tx_rthc t = None /\ if decide (err = MDBX_SUCCESS) then exists s, tx_slot t = Some s else tx_slot t = None
  | Bind _ => tx_finished t = true /\ tx_slot t = None /\ tx_rthc t = None
  | Release F_free => txkey = false /\ exists s, tx_slot t = Some s
  | _ => exists s, tx_slot t = Some s /\ tx_rthc t = if txkey then Some s else None
  end.

Definition sane (t : txn_t) : Prop := tx_pid t <> 0 /\ tx_self t < MDBX_TID_TXN_OUSTED /\ tx_error t = false.

(** The slot that is being bound belongs to nobody. *)
Definition bind_slot_ok (g : lck_t) (t : txn_t) (p : bind_pc) : Prop :=
  match p with
  | B_lock | B_check | B_length | B_cleanup | B_unlock _ => True
  | B_scan n s => n = rdt_length g /\ (s <= n)%nat
  | B_pid n s =>
      n = rdt_length g /\ (s <= n)%nat /\ exists x, rdt g !! s = Some x /\ ((s < n)%nat -> sl_pid x = 0)
  | B_txnid n s => n = rdt_length g /\ (s <= n)%nat /\ exists x, rdt g !! s = Some x /\ sl_pid x = 0
  | B_append n s =>
      n = rdt_length g /\ (s <= n)%nat /\ exists x, rdt g !! s = Some x /\ sl_pid x = 0 /\ sl_txnid x = UINT64_MAX
  | B_tid s => (s < rdt_length g)%nat /\ exists x, rdt g !! s = Some x /\ sl_pid x = 0 /\ sl_txnid x = UINT64_MAX
  | B_publish s => (s < rdt_length g)%nat /\ exists x, rdt g !! s = Some x /\ sl_pid x = 0 /\ calm t x
  end.

Definition bind_ok (g : lck_t) (r : nat) (t : txn_t) : Prop :=
  match tx_pc t with
  | Bind B_lock => True
  | Bind p => rdt_lock g = Some r /\ bind_slot_ok g t p
  | _ => True
  end.

Definition slot_ok (g : lck_t) (w : writer_t) (t : txn_t) : Prop :=
  forall s, held t = Some s ->
  (s < rdt_length g)%nat /\
  exists x, rdt g !! s = Some x /\ sl_pid x = tx_pid t /\ view (cached_oldest_txnid g) w t s x.

Record txn_ok (txkey : bool) (g : lck_t) (w : writer_t) (r : nat) (t : txn_t) : Prop := {
  ok_sane : sane t;
  ok_shape : shape txkey t;
  ok_slot : slot_ok g w t;
  ok_bind : bind_ok g r t
}.

Record world_ok (txkey : bool) (max_readers : nat) (w : world) : Prop := {
  ok_writer : winv (w_lck w) (w_writer w);
  ok_length : (rdt_length (w_lck w) <= length (rdt (w_lck w)))%nat;
  ok_max : (max_readers <= length (rdt (w_lck w)))%nat;
  ok_txn : forall r t, w_txns w !! r = Some t -> txn_ok txkey (w_lck w) (w_writer w) r t;
  ok_apart : forall r1 r2 t1 t2 s,
    w_txns w !! r1 = Some t1 -> w_txns w !! r2 = Some t2 -> held t1 = Some s -> held t2 = Some s -> r1 = r2
}.

(** ** The invariant of the table of readers is kept by every step

    [winv_step] is about the writer; [writer_view] says that no step of the writer takes
    away the protection of a transaction; [reader_view] is the progress of a transaction
    through its own steps, and [frame] that the steps of others leave it alone. *)

(** ** Steps, by cases *)

Ltac inj :=
  repeat match goal with
  | H : Some _ = Some _ |- _ => injection H; clear H; intros; subst
  | H : None = Some _ |- _ => discriminate H
  | H : _ ≫= _ = Some _ |- _ => apply bind_Some in H; destruct H as (? & ? & H)
  end.

(** All branches of a step. *)
Ltac branches :=
  repeat (inj; first [case_decide | case_match]); inj; try discriminate.

Lemma perform_rdt e g : rdt (perform e g) = match slot_effect e with Some (s, f) => alter f s (rdt g) | None => rdt g end.
Proof. destruct g, e; reflexivity. Qed.

Lemma perform_slot e g s : rdt (perform e g) !! s =
  match slot_effect e with Some (s', f) => if decide (s = s') then f <$> (rdt g !! s) else rdt g !! s | None => rdt g !! s end.
Proof.
  rewrite perform_rdt. destruct (slot_effect e) as [[s' f]|]; [|done].
  case_decide; [subst; apply list_lookup_alter_eq | by apply list_lookup_alter_ne].
Qed.

(** ** The writer *)

Ltac unfold_inv := unfold wpc_inv, scan_inv, kick_inv, scan_bounds, metas_ok in *; cbn in *.

Lemma scan_winv g w p k w' e :
  winv g w -> w_pc w = W_scan p k -> mvcc_shapshot_oldest_rw_step g w p k = Some (w', e) -> winv (perform e g) w'.
Proof.
  intros [Hm Hc Hd Hp] Hpc H. destruct g as [m o r n f t l], w as [pc wm d kd]; cbn in *; subst pc.
  unfold mvcc_shapshot_oldest_rw_step, wgo, scan_return, scan_take in H.
  destruct p; branches; split; unfold_inv; try done; intuition (subst; cbn in *; lia).
Qed.

Lemma kick_winv g c w p retry w' e :
  winv g w -> w_pc w = W_kick p retry -> mvcc_kick_laggards_step g c w p retry = Some (w', e) -> winv (perform e g) w'.
Proof.
  intros [Hm Hc Hd Hp] Hpc H. destruct g as [m o r n f t l], w as [pc wm d kd]; cbn in *; subst pc.
  unfold mvcc_kick_laggards_step, kick_again, wgo in H.
  destruct p, c; branches; split; unfold_inv; try done; intuition (subst; cbn in *; lia).
Qed.

Lemma winv_step g c w w' e : winv g w -> writer_step g c w = Some (w', e) -> winv (perform e g) w'.
Proof.
  intros Hw H. unfold writer_step in H.
  destruct (w_pc w) as [| |p k| |p retry|m' done|done] eqn:Hpc, c; try discriminate;
    try (by eapply scan_winv); try (by eapply kick_winv);
    destruct Hw as [Hm Hc Hd Hp], g as [m o r n f t l], w as [pc wm d kd]; cbn in *; subst pc;
    unfold wgo in H; branches; split; unfold_inv; try done; try (intuition (subst; cbn in *; lia)).
  - destruct durable; cbn; intuition (try discriminate; subst; lia).
  - destruct done; intuition.
Qed.

(** ** The writer and a slot *)

(** What a step of the writer does to a slot: nothing, a reset, or an ousting. *)
Inductive touched (x : reader_slot_t) : reader_slot_t -> Prop :=
| Untouched : touched x x
| Reset : touched x (mk_slot UINT64_MAX (sl_tid x) (sl_pid x) (snapshot_pages_used x) (snapshot_pages_retired x))
| Ousted : sl_tid x = MDBX_TID_TXN_PARKED ->
    touched x (mk_slot (sl_txnid x) MDBX_TID_TXN_OUSTED (sl_pid x) (snapshot_pages_used x) (snapshot_pages_retired x)).

Lemma guard_fresh g w s : winv g w -> guarded w s (hd_txnid (mt_recent (metas g))).
Proof.
  intros [Hm Hc Hd Hp]. destruct g as [m o r n f t l], w as [pc wm d kd].
  unfold guarded, metas_ok, wpc_inv in *; cbn in *.
  destruct pc as [| |p k| |p retry|m' done0|done0]; try exact I.
  - destruct Hp as [[-> _] Hp]. destruct p; unfold scan_inv, scan_bounds in Hp; cbn in *; intuition lia.
  - destruct p; try done. cbn in *. intuition (subst; lia).
Qed.

(** The slot that the writer reads is [s] or another one. *)
Ltac same_slot s :=
  try match goal with
  | Hx : ?t !! s = Some _, H1 : ?t !! ?i = Some _ |- _ =>
      lazymatch i with s => fail | _ => destruct (decide (i = s)) as [Hi|Hi]; [rewrite Hi in *; simplify_eq|] end
  end.

Ltac touch := first [apply Untouched|apply Reset|by apply Ousted].

(** What holds of slot [s] after a step of the writer. *)
Definition kept (g g' : lck_t) (w w' : writer_t) (s : nat) (x x' : reader_slot_t) : Prop :=
  rdt g' !! s = Some x' /\ touched x x' /\
  (forall h, h <= MAX_TXNID -> sl_tid x' <> MDBX_TID_TXN_OUSTED -> sl_txnid x' = h -> guarded w s h -> guarded w' s h) /\
  (forall h, sl_tid x' <> MDBX_TID_TXN_OUSTED -> protects (cached_oldest_txnid g) w s x h ->
    protects (cached_oldest_txnid g') w' s x' h).

Lemma scan_touch g w p k w' e s x :
  winv g w -> w_pc w = W_scan p k -> mvcc_shapshot_oldest_rw_step g w p k = Some (w', e) ->
  rdt g !! s = Some x -> sl_pid x <> 0 -> (s < rdt_length g)%nat -> exists x', kept g (perform e g) w w' s x x'.
Proof.
  intros [Hm Hc Hd Hp] Hpc H Hx Hpid Hlen. unfold kept, protects, guarded. rewrite Hpc.
  unfold wpc_inv in Hp. rewrite Hpc in Hp. destruct Hp as [[Hwm _] Hp].
  unfold mvcc_shapshot_oldest_rw_step, wgo, scan_return, scan_take in H. rewrite perform_slot, Hx.
  destruct g as [m o r n f t l], w as [pc wm d kd]; cbn in *; subst pc wm.
  destruct p; branches; same_slot s; cbn in *; try case_decide; simplify_eq/=;
    (eexists; split; [reflexivity|split; [touch|split; intros; unfold scan_bounds in *; cbn in *; intuition (subst; lia)]]).
Qed.

Lemma kick_touch g c w p retry w' e s x :
  winv g w -> w_pc w = W_kick p retry -> mvcc_kick_laggards_step g c w p retry = Some (w', e) ->
  rdt g !! s = Some x -> sl_pid x <> 0 -> (s < rdt_length g)%nat -> exists x', kept g (perform e g) w w' s x x'.
Proof.
  intros [Hm Hc Hd Hp] Hpc H Hx Hpid Hlen. unfold kept, protects, guarded. rewrite Hpc.
  unfold wpc_inv in Hp. rewrite Hpc in Hp. destruct Hp as [[Hwm _] Hp].
  unfold mvcc_kick_laggards_step, kick_again, wgo in H. rewrite perform_slot, Hx.
  destruct g as [m o r n f t l], w as [pc wm d kd]; cbn in *; subst pc wm.
  destruct p, c; branches; same_slot s; cbn in *; try case_decide; simplify_eq/=;
    (eexists; split; [reflexivity|split; [touch|split; intros; cbn in *; intuition (subst; try congruence; lia)]]).
Qed.

Lemma writer_touch g c w w' e s x :
  winv g w -> writer_step g c w = Some (w', e) -> rdt g !! s = Some x -> sl_pid x <> 0 -> (s < rdt_length g)%nat ->
  exists x', kept g (perform e g) w w' s x x'.
Proof.
  intros Hw H Hx Hpid Hlen. unfold writer_step in H.
  destruct (w_pc w) as [| |p k| |p retry|m' d'|d'] eqn:Hpc, c; try discriminate;
    try (by eapply scan_touch); try (by eapply kick_touch);
    unfold write_txn_step, wgo in H; branches;
    exists x; unfold kept, protects, guarded; rewrite perform_slot, Hpc; destruct g; cbn in *;
    (split; [done|split; [touch|split; intros; intuition (subst; lia)]]).
Qed.

Lemma touched_pid x x' : touched x x' -> sl_pid x' = sl_pid x.
Proof. by destruct 1. Qed.

Lemma touched_mark x x' : touched x x' -> sl_tid x = MDBX_TID_TXN_OUSTED -> sl_tid x' = MDBX_TID_TXN_OUSTED.
Proof. by destruct 1. Qed.

Lemma touched_self x x' tid : touched x x' -> sl_tid x = tid -> tid < MDBX_TID_TXN_OUSTED -> sl_tid x' = tid.
Proof. destruct 1; cbn; [done|done|]. unfold MDBX_TID_TXN_OUSTED, MDBX_TID_TXN_PARKED in *. lia. Qed.

Lemma touched_invalid x x' : touched x x' -> sl_txnid x = UINT64_MAX -> sl_txnid x' = UINT64_MAX.
Proof. by destruct 1. Qed.

Section Writer_view.
Context (c c' : Z) (w w' : writer_t) (t : txn_t) (s : nat) (x x' : reader_slot_t).
Context (Hsane : sane t) (Htouch : touched x x').
Context (Hguard : forall h, h <= MAX_TXNID -> sl_tid x' <> MDBX_TID_TXN_OUSTED -> sl_txnid x' = h -> guarded w s h -> guarded w' s h).
Context (Hprot : forall h, sl_tid x' <> MDBX_TID_TXN_OUSTED -> protects c w s x h -> protects c' w' s x' h).

Lemma self_mark : sl_tid x = tx_self t -> sl_tid x' = tx_self t.
Proof. intros H. eapply touched_self; [done..|apply Hsane]. Qed.

Lemma self_unousted : sl_tid x = tx_self t -> sl_tid x' <> MDBX_TID_TXN_OUSTED.
Proof. intros H. rewrite self_mark by done. destruct Hsane as (_ & ? & _). lia. Qed.

Lemma calm_touched : calm t x -> calm t x'.
Proof. intros [H1 H2]. split; [by apply self_mark | by eapply touched_invalid]. Qed.

Lemma begun_touched : begun t x -> begun t x'.
Proof. intros (H1 & H2 & H3). repeat split; [by apply self_mark | done..]. Qed.

Lemma holds_touched : holds c w t s x -> holds c' w' t s x'.
Proof.
  intros [H1 H2]. split; [by apply begun_touched|]. apply Hprot; [apply self_unousted, H1 | done].
Qed.

Lemma ousted_or_holds_touched : ousted_or_holds c w t s x -> ousted_or_holds c' w' t s x'.
Proof.
  intros (H1 & H2 & H3). split; [done|split; [done|]]. destruct H3 as [H3|[H3 H4]].
  - left. by eapply touched_mark.
  - pose proof (Hprot (tx_txnid t)) as Hp. destruct Htouch as [| |]; cbn in *.
    + right. split; [done|]. apply Hp; [|done]. by rewrite H3.
    + right. split; [done|]. apply Hp; [|done]. by rewrite H3.
    + by left.
Qed.

Lemma tid_read_touched tid : tid_read x tid -> tid_read x' tid.
Proof. intros [H|[H1 H2]]; [by left | right; split; [done|by eapply touched_mark]]. Qed.

Lemma fetched_touched h : h <= MAX_TXNID -> sl_tid x = tx_self t ->
  (sl_txnid x = h -> guarded w s h) -> sl_txnid x' = h -> guarded w' s h.
Proof.
  intros Hh Hself H Hx'. apply Hguard; [done|by apply self_unousted|done|]. apply H.
  destruct Htouch; cbn in *; [done| |done]. subst h. unfold MAX_TXNID, SAFE64_INVALID_THRESHOLD, UINT64_MAX in *. lia.
Qed.

Lemma verified_touched h : h <= MAX_TXNID -> sl_tid x = tx_self t ->
  (sl_txnid x = h -> protects c w s x h) -> sl_txnid x' = h -> protects c' w' s x' h.
Proof.
  intros Hh Hself H Hx'. apply Hprot; [by apply self_unousted|]. apply H.
  destruct Htouch; cbn in *; [done| |done]. subst h. unfold MAX_TXNID, SAFE64_INVALID_THRESHOLD, UINT64_MAX in *. lia.
Qed.

Lemma clean_start_touched : clean_start c w t s x -> clean_start c' w' t s x'.
Proof.
  unfold clean_start. destruct (tx_finished t); [apply calm_touched|]. intros [H1 H2]. split; [done|].
  destruct (tx_parked t); [|by apply holds_touched].
  destruct H2 as [H2|[H2|H2]]; [left; by apply self_mark| |right; right; by eapply touched_mark].
  destruct Htouch; cbn; auto.
Qed.

Lemma view_touched : view c w t s x -> view c' w' t s x'.
Proof.
  pose proof calm_touched. pose proof begun_touched. pose proof holds_touched. pose proof ousted_or_holds_touched.
  pose proof tid_read_touched. pose proof clean_start_touched. pose proof fetched_touched. pose proof verified_touched.
  pose proof self_mark. pose proof (touched_mark _ _ Htouch). pose proof (touched_invalid _ _ Htouch).
  unfold view. destruct (tx_pc t) as [| | | | | |p|p| |p|p|p|p k|p|p|p o]; try (intuition; fail).
  - destruct p; unfold seize_view; try (intuition; fail).
    + unfold begun; naive_solver.
    + unfold begun; naive_solver.
    + unfold begun; naive_solver.
  - destruct p; unfold park_view; intuition.
  - destruct p; unfold unpark_view; naive_solver.
  - intros [Hc Hk]. split; [destruct p; cbn in *; intuition | destruct k; try done; destruct p; cbn in *; intuition].
Qed.

End Writer_view.
