(* ===== verification/ReadersSteps.v ===== *)
(** * The steps of the reading transactions

    Every step of a transaction keeps what its program counter promises
    ([reader_progress]) and touches nothing but its own slot; the binding of a slot,
    where there is no slot yet, is [bind_progress]. *)

From S2P Require Import Prelude Readers ReadersWriter ReadersInv.

(** Transactions without clones and without [mdbx_txn_break]. *)
Definition plain_choice (c : choice) : Prop :=
  match c with Call CallBreak | Call (CallClone _) => False | _ => True end.

(** A step that changes nothing but slot [s], the flag, or gives the lock back. *)
Definition own_effect (t : txn_t) (s : nat) (e : effect) : Prop :=
  match e with
  | Keep | Store_flag _ => True
  | Store_lock None => match tx_pc t with Bind (B_unlock _) => True | _ => False end
  | Store_txnid s' _ | Store_tid s' _ | Store_pid s' _ | Store_used s' _ | Store_retired s' _ => s' = s
  | _ => False
  end.

Definition slot_after (s : nat) (e : effect) (x : reader_slot_t) : reader_slot_t :=
  match slot_effect e with Some (s', f) => if decide (s = s') then f x else x | None => x end.

Definition unbound (t : txn_t) : Prop := match tx_pc t with Bind B_lock => True | Bind _ => False | _ => True end.

Definition progress (txkey : bool) (cached : Z) (w : writer_t) (s : nat) (x : reader_slot_t) (t t' : txn_t) (e : effect) : Prop :=
  sane t' /\ shape txkey t' /\ tx_pid t' = tx_pid t /\ own_effect t s e /\ unbound t' /\
  (held t' = None \/
    held t' = Some s /\ sl_pid (slot_after s e x) = tx_pid t' /\ view cached w t' s (slot_after s e x)).

(** The branches of a step [H]. *)
Ltac split_step H :=
  repeat (cbn in H; match type of H with
  | (if decide ?P then _ else _) = Some _ => destruct (decide P)
  | (match ?y with _ => _ end) = Some _ => destruct y eqn:?
  | _ ≫= _ = Some _ => apply bind_Some in H; destruct H as (? & ? & H)
  end); try discriminate H; try injection H as <- <-; cbn in *.

Ltac facts :=
  repeat match goal with
  | H : _ /\ _ |- _ => destruct H
  | H : exists _, _ |- _ => destruct H
  | H : ?b = ?b -> _ |- _ => specialize (H eq_refl)
  | H : true = false -> _ |- _ => clear H
  | H : Some _ = Some _ |- _ => injection H as H
  | H : Some _ = None |- _ => discriminate H
  | H : None = Some _ |- _ => discriminate H
  | H : true = false |- _ => discriminate H
  | H : false = true |- _ => discriminate H
  | H : False |- _ => destruct H
  | H1 : ?o = Some _, H2 : ?o = Some _ |- _ => rewrite H1 in H2; injection H2 as H2
  | _ => progress subst
  end; cbn in *.

Ltac plain := solve [assumption | reflexivity | exact I | repeat split; assumption || reflexivity].

Ltac easy_parts := repeat (split || lazymatch goal with |- _ -> _ => intros ? end); try plain; try congruence; try lia; try (left; plain); try (right; plain);
  try match goal with H : ?P -> ?Q |- ?Q => apply H; plain end.

Ltac views := unfold seize_view, park_view, unpark_view, clean_view, clean_for, clean_start, holds, ousted_or_holds, protects, begun, calm, tid_read in *; cbn in *.

Section Progress.
Context (txkey : bool) (g : lck_t) (w : writer_t) (t : txn_t) (s : nat) (x : reader_slot_t).
Context (Hw : winv g w) (Hsane : sane t) (Hshape : shape txkey t) (Hheld : held t = Some s).
Context (Hx : rdt g !! s = Some x) (Hpid : sl_pid x = tx_pid t) (Hview : view (cached_oldest_txnid g) w t s x).

Lemma problem_error : MDBX_PROBLEM <> MDBX_SUCCESS.
Proof. done. Qed.

Lemma marks_differ : MDBX_TID_TXN_PARKED <> MDBX_TID_TXN_OUSTED.
Proof. done. Qed.

Lemma txnid_valid : MAX_TXNID < SAFE64_INVALID_THRESHOLD.
Proof. done. Qed.

Lemma invalid_max : SAFE64_INVALID_THRESHOLD <= UINT64_MAX.
Proof. done. Qed.

#[local] Opaque UINT64_MAX MDBX_TID_TXN_PARKED MDBX_TID_TXN_OUSTED MAX_TXNID SAFE64_INVALID_THRESHOLD.

(** Unfolds the invariant at a program counter. *)
Ltac enter Hpc :=
  unfold progress, slot_after; destruct t as [a b sl rt d ow fi pk ou er pc rc]; cbn in Hpc; subst pc;
  unfold held, shape, view, sane, unbound in *; cbn in *;
  let E := fresh in destruct (Bool.bool_dec txkey true) as [E|E]; [|apply Bool.not_true_is_false in E]; rewrite E in *.

Ltac leave :=
  views; facts; repeat case_decide; facts; lazymatch goal with |- context [False] => try (exfalso; lia) | _ => idtac end;
  (split; [plain|split; [try (easy_parts; try eexists; easy_parts)|split; [plain|split; [plain|split; [plain|]]]]]);
  first [left; reflexivity | right; (split; [reflexivity|(split; [plain|views])])]; easy_parts.

Lemma alloc_progress c p t' e :
  tx_pc t = Alloc p -> slot_alloc_step g c t p = Some (t', e) -> progress txkey (cached_oldest_txnid g) w s x t t' e.
Proof.
  intros Hpc H. unfold slot_alloc_step, go in H. enter Hpc;
    destruct p, c; split_step H.
  all: leave.
Qed.

Lemma get_progress c t' e : tx_pc t = Get_pid -> slot_get_step g c t = Some (t', e) -> progress txkey (cached_oldest_txnid g) w s x t t' e.
Proof.
  intros Hpc H. unfold slot_get_step, go in H. enter Hpc; destruct c; split_step H.
  all: leave.
Qed.

Lemma unregister_progress c p t' e :
  tx_pc t = Unregister p -> thread_unregister_step g c t p = Some (t', e) -> progress txkey (cached_oldest_txnid g) w s x t t' e.
Proof.
  intros Hpc H. unfold thread_unregister_step, go in H. enter Hpc; destruct p, c; split_step H; try discriminate.
  all: leave.
Qed.

Lemma release_progress c p t' e :
  tx_pc t = Release p -> ro_slot_release_step txkey g c t s p = Some (t', e) -> progress txkey (cached_oldest_txnid g) w s x t t' e.
Proof.
  intros Hpc H. unfold ro_slot_release_step, go in H. enter Hpc; destruct p, c; split_step H; try discriminate.
  all: leave.
Qed.

Lemma park_progress c p t' e :
  tx_pc t = Park p -> ro_park_step g c t s p = Some (t', e) -> progress txkey (cached_oldest_txnid g) w s x t t' e.
Proof.
  intros Hpc H. unfold ro_park_step, go in H. rewrite Hx in H. enter Hpc; destruct p, c; split_step H; try discriminate.
  all: leave.
Qed.

Lemma unpark_progress c p t' e :
  tx_pc t = Unpark p -> ro_unpark_step g c t s p = Some (t', e) -> progress txkey (cached_oldest_txnid g) w s x t t' e.
Proof.
  intros Hpc H. pose proof marks_differ. pose proof txnid_valid. unfold ro_unpark_step, go in H. rewrite Hx in H. enter Hpc; destruct p, c; split_step H; try discriminate.
  all: leave.
  all: repeat match goal with H : _ \/ _ |- _ => destruct H end; facts; try plain; try congruence; try lia.
Qed.

Lemma clean_progress c p k t' e :
  tx_pc t = Clean p k -> ro_slot_clean_step g c t s p k = Some (t', e) -> progress txkey (cached_oldest_txnid g) w s x t t' e.
Proof.
  intros Hpc H. pose proof invalid_max. unfold ro_slot_clean_step, clean_return, txn_ended, go in H. rewrite Hx in H.
  enter Hpc; destruct p, c; try discriminate; destruct k; try (by destruct Hview); split_step H; try discriminate.
  all: leave.
Qed.

Lemma seize_progress c p t' e :
  tx_pc t = Seize p -> ro_seize_step g c t s p = Some (t', e) -> progress txkey (cached_oldest_txnid g) w s x t t' e.
Proof.
  intros Hpc H. pose proof (guard_fresh _ _ s Hw) as Hfresh. pose proof problem_error.
  assert (hd_txnid (mt_recent (metas g)) <= MAX_TXNID) by apply Hw.
  unfold ro_seize_step, seize_again, start_failed, go in H. rewrite Hx in H.
  enter Hpc; destruct p, c; split_step H; try discriminate.
  all: leave.
Qed.

Lemma unlock_progress mr me c err t' e :
  tx_pc t = Bind (B_unlock err) -> bind_slot_step txkey mr me g c t (B_unlock err) = Some (t', e) ->
  progress txkey (cached_oldest_txnid g) w s x t t' e.
Proof.
  intros Hpc H. unfold bind_slot_step, go in H.
  enter Hpc; destruct c; split_step H; try discriminate.
  all: leave.
Qed.

Lemma call_progress txns c t' :
  plain_choice (Call c) -> called txkey txns c t = Some t' -> progress txkey (cached_oldest_txnid g) w s x t t' Keep.
Proof.
  intros Hc H. unfold called, ro_slot_alloc in H. destruct (tx_pc t) eqn:Hpc; try discriminate.
  all: enter Hpc; destruct c; split_step H; try discriminate; try done.
  all: leave.
Qed.

(** All the steps of a transaction that has a slot. *)
Lemma reader_progress mr me txns c t' e :
  plain_choice c -> reader_step txkey mr me txns g c t = Some (t', e) ->
  progress txkey (cached_oldest_txnid g) w s x t t' e.
Proof.
  intros Hc H. unfold reader_step in H.
  assert (tx_slot t = Some s \/ tx_slot t = None) as Hslot.
  { clear - Hheld. unfold held in Hheld. destruct (tx_pc t) as [| | | | | |p|p| |p|p|p|p k|p|p|p o]; try destruct p; destruct (tx_slot t); try discriminate; auto; left; congruence. }
  destruct c as [|err|m|c].
  4: { apply bind_Some in H as (t1 & H & [= <- <-]). by eapply call_progress. }
  all: destruct (tx_pc t) as [| | | | | |p|p| |p|p|p|p k|p|p|p o] eqn:Hpc; try discriminate.
  all: try (eapply alloc_progress; [exact Hpc|exact H]); try (eapply get_progress; [exact Hpc|exact H]); try (eapply unregister_progress; [exact Hpc|exact H]).
  all: try (destruct p; try (eapply unlock_progress; [exact Hpc|exact H]);
    (unfold shape, held in Hshape, Hheld; rewrite Hpc in Hshape, Hheld; destruct Hshape as (_ & _ & _ & Hs1 & Hs2);
    rewrite Hs1, Hs2 in Hheld; discriminate)).
  all: destruct Hslot as [Hslot|Hslot]; rewrite Hslot in H; cbn in H; try discriminate.
  all: try first [eapply seize_progress; [exact Hpc|exact H] | eapply park_progress; [exact Hpc|exact H] | eapply unpark_progress; [exact Hpc|exact H] | eapply clean_progress; [exact Hpc|exact H]
    | eapply release_progress; [exact Hpc|exact H]].
  all: unfold shape in Hshape; rewrite Hpc in Hshape; by destruct Hshape as (_ & _ & []).
Qed.

End Progress.

(** ** Transactions without a slot *)

(** Binding changes only slots that belong to nobody, and the lock that it holds. *)
Definition bind_effect (g : lck_t) (r : nat) (e : effect) : Prop :=
  match e with
  | Keep | Store_flag _ => True
  | Store_lock (Some r') => r' = r /\ rdt_lock g = None
  | Store_lock None => rdt_lock g = Some r
  | Store_length n => n = S (rdt_length g) /\ (n <= length (rdt g))%nat /\ rdt_lock g = Some r
  | Store_txnid s _ | Store_tid s _ | Store_pid s _ =>
      rdt_lock g = Some r /\ (s < length (rdt g))%nat /\
      ((s < rdt_length g)%nat -> exists x, rdt g !! s = Some x /\ sl_pid x = 0)
  | _ => False
  end.

Definition bound (g : lck_t) (r : nat) (t t' : txn_t) (e : effect) : Prop :=
  sane t' /\ tx_pid t' = tx_pid t /\ bind_effect g r e /\ bind_ok (perform e g) r t' /\
  (held t' = None \/
    exists s, held t' = Some s /\ (s < rdt_length g)%nat /\ rdt_lock g = Some r /\
    exists x, rdt g !! s = Some x /\ sl_pid x = 0 /\
    exists x', rdt (perform e g) !! s = Some x' /\ sl_pid x' = tx_pid t' /\ calm t' x' /\
    exists err, tx_pc t' = Bind (B_unlock err)).

Lemma bind_progress txkey mr g me c t p t' e :
  (rdt_length g <= length (rdt g))%nat -> (mr <= length (rdt g))%nat ->
  sane t -> shape txkey t -> bind_ok g me t -> held t = None ->
  tx_pc t = Bind p -> bind_slot_step txkey mr me g c t p = Some (t', e) -> shape txkey t' /\ bound g me t t' e.
Proof.
  intros Hlen Hmr Hsane Hshape Hok Hheld Hpc H. unfold bound, shape, bind_ok, held in *. rewrite Hpc in *.
  destruct t as [a b sl rt d ow fi pk ou er pc rc]; cbn in Hpc; subst pc; cbn in *.
  destruct g as [m o r n f l k]; unfold bind_slot_step, slot_found, sane, calm, go in *; cbn in *.
  destruct p, c; try discriminate; split_step H; try discriminate; repeat case_decide; cbn in *; facts; try discriminate.
  all: try match goal with H1 : (?s < ?q)%nat, H2 : (?q <= length ?v)%nat |- _ => destruct (lookup_lt_is_Some_2 v s ltac:(lia)) end.
  all: try match goal with H : _ !! _ = Some _ |- _ => pose proof (lookup_lt_Some _ _ _ H) end.
  all: try match goal with H : calm _ _ |- _ => destruct H as [? ?] end; facts; try match goal with H : ?y <> ?y |- _ => by destruct H end.
  all: repeat match goal with
    | |- _ /\ _ => split
    | |- None = None \/ _ => left; reflexivity
    | |- _ \/ _ => right
    | |- exists _, _ => eexists
    end.
  all: rewrite ?list_lookup_alter_eq; repeat match goal with H : ?o = Some _ |- context [?o] => rewrite H end; cbn.
  all: eauto 3; try done; try lia; try (split; cbn; auto; fail); cbn; eauto 4; congruence.
Qed.

(** All the steps of a transaction without a slot. *)
Lemma lone_progress txkey mr g me txns c t t' e :
  (rdt_length g <= length (rdt g))%nat -> (mr <= length (rdt g))%nat ->
  sane t -> shape txkey t -> bind_ok g me t -> held t = None -> plain_choice c ->
  reader_step txkey mr me txns g c t = Some (t', e) -> shape txkey t' /\ bound g me t t' e.
Proof.
  intros Hlen Hmr Hsane Hshape Hok Hheld Hc H. unfold reader_step in H.
  destruct (tx_pc t) as [| | | | | |p|p| |p|p|p|p k|p|p|p o] eqn:Hpc.
  7: { destruct c as [|err|z|c]; try (by eapply bind_progress). unfold called in H. rewrite Hpc in H. discriminate. }
  all: unfold bound, shape, held, sane in *; rewrite Hpc in *.
  all: destruct t as [a b sl rt d ow fi pk ou er pc rc]; cbn in Hpc; subst pc; cbn in *.
  all: facts; try discriminate; destruct c as [|err|z|c]; try discriminate; try destruct p; facts; try discriminate.
  all: unfold called, ro_slot_alloc, thread_unregister_step in H; cbn in H; try destruct c; try discriminate; cbn in H; split_step H; facts; try discriminate.
  all: easy_parts; try (left; reflexivity).
Qed.
