(* ===== verification/ReadersWorld.v ===== *)
(** * The invariant of the table of readers is kept by the interleavings

    [world_step] assembles the steps of the transactions and of the writer with what
    they leave alone, and [world_run] follows for whole runs.  A measure shows that
    readers do not wait. *)

From S2P Require Import Prelude Readers ReadersWriter ReadersInv ReadersSteps.

Definition plain (a : action) : Prop := match a with AReader _ c => plain_choice c | _ => True end.

(** ** Frames *)

Lemma frame txkey g g' w r t :
  txn_ok txkey g w r t -> cached_oldest_txnid g' = cached_oldest_txnid g -> (rdt_length g <= rdt_length g')%nat ->
  (forall s, held t = Some s -> rdt g' !! s = rdt g !! s) -> bind_ok g' r t -> txn_ok txkey g' w r t.
Proof.
  intros [H1 H2 H3 H4] Hc Hl Hs Hb. split; [done..| |done].
  intros s Hheld. destruct (H3 s Hheld) as (Hlt & x & Hx & Hpid & Hview).
  split; [lia|]. exists x. by rewrite Hs, Hc.
Qed.

Lemma winv_frame g g' w :
  winv g w -> metas g' = metas g -> cached_oldest_txnid g' = cached_oldest_txnid g -> winv g' w.
Proof.
  intros [H1 H2 H3 H4] Hm Hc. split; rewrite ?Hm, ?Hc; try done.
  unfold wpc_inv, scan_inv, scan_bounds in *. by rewrite Hm, Hc.
Qed.

(** Binding looks at its lock, at the length, and at a slot of nobody. *)
Definition spared (g g' : lck_t) (s : nat) : Prop :=
  forall x, rdt g !! s = Some x -> sl_pid x = 0 ->
  exists x', rdt g' !! s = Some x' /\ sl_pid x' = 0 /\
  (sl_txnid x = UINT64_MAX -> sl_txnid x' = UINT64_MAX) /\
  (forall t, sane t -> calm t x -> calm t x').

Lemma bind_frame g g' r t :
  sane t -> bind_ok g r t -> rdt_lock g' = rdt_lock g -> rdt_length g' = rdt_length g ->
  length (rdt g') = length (rdt g) -> (forall s, spared g g' s) -> bind_ok g' r t.
Proof.
  intros Hsane H Hlock Hlen Hsize Hspare. unfold bind_ok in *. destruct (tx_pc t) as [| | | | | |p|p| |p|p|p|p k|p|p|p o]; try done.
  destruct p as [| | |n s| |n s|n s|n s|s|s|err]; try done;
    (split; [rewrite Hlock; apply H|]); destruct H as [_ H]; cbn in *; rewrite ?Hlen; try done.
  - destruct H as (H1 & H2 & x & Hx & H3). split; [done|split; [done|]].
    destruct (lookup_lt_is_Some_2 (rdt g') s) as [x' Hx'].
    { rewrite Hsize. by eapply lookup_lt_Some. }
    exists x'. split; [done|]. intros Hs. destruct (Hspare s x Hx (H3 Hs)) as (x2 & Hx2 & ? & _). congruence.
  - destruct H as (H1 & H2 & x & Hx & H3). destruct (Hspare s x Hx H3) as (x2 & ? & ? & _). eauto 10.
  - destruct H as (H1 & H2 & x & Hx & H3 & H4). destruct (Hspare s x Hx H3) as (x2 & ? & ? & ? & _). eauto 10.
  - destruct H as (H1 & x & Hx & H3 & H4). destruct (Hspare s x Hx H3) as (x2 & ? & ? & ? & _). eauto 10.
  - destruct H as (H1 & x & Hx & H3 & H4). destruct (Hspare s x Hx H3) as (x2 & ? & ? & ? & ?). eauto 10.
Qed.

(** ** The writer *)

Lemma writer_effect g c w w' e : writer_step g c w = Some (w', e) ->
  match e with
  | Store_length _ | Store_lock _ | Store_pid _ _ | Store_used _ _ | Store_retired _ _ => False
  | Store_txnid s v => v = UINT64_MAX
  | Store_tid s v => v = MDBX_TID_TXN_OUSTED /\ exists x, rdt g !! s = Some x /\ sl_tid x = MDBX_TID_TXN_PARKED
  | _ => True
  end.
Proof.
  intros H. unfold writer_step, write_txn_step, mvcc_shapshot_oldest_rw_step, mvcc_kick_laggards_step, kick_again, wgo in H.
  destruct (w_pc w) as [| |p k| |p retry|m b|b], c; try discriminate; try destruct p; split_step H; try case_decide; eauto 6.
Qed.

Lemma writer_frame g c w w' e : writer_step g c w = Some (w', e) ->
  rdt_lock (perform e g) = rdt_lock g /\ rdt_length (perform e g) = rdt_length g /\
  length (rdt (perform e g)) = length (rdt g) /\ forall s, spared g (perform e g) s.
Proof.
  intros H. apply writer_effect in H.
  split; [by destruct g, e|split; [by destruct g, e|split]].
  { rewrite perform_rdt. destruct (slot_effect e) as [[s f]|]; [apply length_alter|done]. }
  intros s x Hx Hpid. rewrite perform_slot, Hx. destruct e as [| | | | | | | | | | |]; try done; cbn; try (case_decide); eauto 10.
  - subst. exists (mk_slot UINT64_MAX (sl_tid x) (sl_pid x) (snapshot_pages_used x) (snapshot_pages_retired x)).
    unfold calm; cbn; naive_solver.
  - destruct H as (-> & x2 & Hx2 & Hmark). subst. eexists; split; [done|]. cbn. split; [done|split; [done|]].
    intros t (_ & Hself & _) [Ht1 Ht2]. exfalso. unfold MDBX_TID_TXN_OUSTED, MDBX_TID_TXN_PARKED in *.
    assert (x2 = x) as -> by congruence. lia.
Qed.

Section World_ok.
Context (txkey : bool) (max_readers : nat).
Abbreviation ok := (world_ok txkey max_readers).

Lemma writer_world w c w' : ok w -> act txkey max_readers w (AWriter c) = Some w' -> ok w'.
Proof.
  intros [Hw Hl Hmr Ht Ha] H. cbn in H. apply bind_Some in H as ([wr e] & H & [= <-]).
  pose proof (winv_step _ _ _ _ _ Hw H) as Hw'. destruct (writer_frame _ _ _ _ _ H) as (Hlock & Hlen & Hsize & Hspare).
  split; cbn; [done|by rewrite Hlen, Hsize|by rewrite Hsize| |done].
  intros r t Hr. destruct (Ht r t Hr) as [H1 H2 H3 H4]. split; [done..| |by eapply bind_frame].
  intros s Hheld. destruct (H3 s Hheld) as (Hlt & x & Hx & Hpid & Hview).
  destruct (writer_touch _ _ _ _ _ s x Hw H Hx) as (x' & Hx' & Htouch & Hguard & Hprot); [|done|].
  { rewrite Hpid. apply H1. }
  split; [by rewrite Hlen|]. exists x'. split; [done|]. split; [by rewrite (touched_pid _ _ Htouch)|].
  by eapply view_touched.
Qed.

Lemma apart_insert (txns : list txn_t) r t t' :
  txns !! r = Some t -> held t' = None \/ held t' = held t ->
  (forall r1 r2 t1 t2 s, txns !! r1 = Some t1 -> txns !! r2 = Some t2 -> held t1 = Some s -> held t2 = Some s -> r1 = r2) ->
  forall r1 r2 t1 t2 s,
  <[r := t']> txns !! r1 = Some t1 -> <[r := t']> txns !! r2 = Some t2 -> held t1 = Some s -> held t2 = Some s -> r1 = r2.
Proof.
  intros Hr Hk Ha r1 r2 t1 t2 s H1 H2 Hs1 Hs2.
  assert (forall q tq, <[r := t']> txns !! q = Some tq -> held tq = Some s -> exists tq', txns !! q = Some tq' /\ held tq' = Some s) as Hback.
  { intros q tq Hq Hs. destruct (decide (q = r)) as [->|Hne].
    - rewrite list_lookup_insert_eq in Hq by (by eapply lookup_lt_Some). injection Hq as <-.
      exists t. split; [done|]. destruct Hk as [Hk|Hk]; congruence.
    - rewrite list_lookup_insert_ne in Hq by done. eauto. }
  destruct (Hback _ _ H1 Hs1) as (u1 & ? & ?). destruct (Hback _ _ H2 Hs2) as (u2 & ? & ?). by eapply Ha.
Qed.

(** A slot of another transaction is not touched. *)
Lemma own_spares e g t s s2 : own_effect t s e -> s2 <> s -> rdt (perform e g) !! s2 = rdt g !! s2.
Proof. intros He Hne. rewrite perform_slot. destruct e; cbn in *; try done; subst; by case_decide. Qed.

Lemma bind_spares e g r s2 x :
  bind_effect g r e -> (s2 < rdt_length g)%nat -> rdt g !! s2 = Some x -> sl_pid x <> 0 ->
  rdt (perform e g) !! s2 = rdt g !! s2.
Proof.
  intros He Hlt Hx Hpid. rewrite perform_slot.
  destruct e as [|s v|s v|s v|s v|s v| | | | | |]; cbn in *; try done; case_decide; try done; subst;
    destruct He as (_ & _ & He); destruct (He Hlt) as (y & Hy & Hzero); congruence.
Qed.

(** A step on the own slot does not disturb the others. *)
Lemma own_frame g w r t s x e r2 t2 :
  txn_ok txkey g w r t -> held t = Some s -> rdt g !! s = Some x -> own_effect t s e ->
  txn_ok txkey g w r2 t2 -> r2 <> r -> held t2 <> Some s -> txn_ok txkey (perform e g) w r2 t2.
Proof.
  intros [H1 H2 H3 H4] Hheld Hx He Hok Hne Hh2. destruct (H3 s Hheld) as (Hlt & x2 & Hx2 & Hpid & _).
  assert (x2 = x) as -> by congruence.
  eapply frame; [done|by destruct g, e|destruct g, e; cbn in *; lia| |].
  - intros s2 Hs2. eapply own_spares; [done|congruence].
  - destruct Hok as [Hsane _ _ Hb].
    destruct e as [|s' v|s' v|s' v|s' v|s' v|n|v|v|v|m|[o|]]; cbn in He; try done; subst.
    8: { unfold bind_ok in *. destruct (tx_pc t) as [| | | | | |p|p| |p|p|p|p k|p|p|p o]; try done; destruct p; try done;
        destruct (tx_pc t2) as [| | | | | |q|q| |q|q|q|q k|q|q|q o]; try done; destruct q; try done; destruct H4, Hb; congruence. }
    all: eapply bind_frame; [done|done|by destruct g|by destruct g|rewrite perform_rdt; cbn; by rewrite ?length_alter|].
    all: intros s2 y Hy Hzero; rewrite perform_slot; cbn; try case_decide; subst; eauto 10.
    all: exfalso; destruct H1 as [? _]; congruence.
Qed.

Lemma bind_frame_other g w r e r2 t2 :
  (rdt_length g <= length (rdt g))%nat -> bind_effect g r e -> txn_ok txkey g w r2 t2 -> r2 <> r ->
  txn_ok txkey (perform e g) w r2 t2.
Proof.
  intros Hl He Hok Hne. pose proof Hok as [[Hsane _] _ H3 Hb].
  eapply frame; [done|by destruct g, e|destruct g, e; cbn in *; lia| |].
  - intros s2 Hs2. destruct (H3 s2 Hs2) as (Hlt & x & Hx & Hpid & _). eapply bind_spares; [done..|congruence].
  - unfold bind_ok in *. destruct (tx_pc t2) as [| | | | | |q|q| |q|q|q|q k|q|q|q o]; try done.
    destruct e as [|s v|s v|s v|s v|s v|n|v|v|v|m|[o|]]; cbn in He; try done; try (by destruct g);
      destruct q; try done; destruct Hb as [Hb _]; intuition congruence.
Qed.

(** What a step of a reader leaves of the shared memory. *)
Lemma reader_frame g e :
  match e with Store_oldest _ | Store_metas _ => False | _ => True end ->
  cached_oldest_txnid (perform e g) = cached_oldest_txnid g /\ metas (perform e g) = metas g /\
  length (rdt (perform e g)) = length (rdt g).
Proof.
  intros He. split; [by destruct g, e|split; [by destruct g, e|]].
  rewrite perform_rdt. destruct (slot_effect e) as [[? ?]|]; [apply length_alter|done].
Qed.

Lemma reader_world_own w r c t s t' e :
  ok w -> plain_choice c -> w_txns w !! r = Some t -> held t = Some s ->
  reader_step txkey max_readers r (w_txns w) (w_lck w) c t = Some (t', e) ->
  ok (mk_world (perform e (w_lck w)) (<[r := t']> (w_txns w)) (w_writer w)).
Proof.
  intros [Hw Hl Hmr Ht Ha] Hc Hr Hheld H. pose proof (Ht r t Hr) as [H1 H2 H3 H4].
  destruct (H3 s Hheld) as (Hlt & x & Hx & Hpid & Hview).
  destruct (reader_progress _ _ _ _ s x Hw H1 H2 Hheld Hx Hpid Hview _ _ _ _ _ _ Hc H) as (P1 & P2 & P3 & P4 & P5 & P6).
  destruct (reader_frame (w_lck w) e) as (Hcached & Hmetas & Hsize); [by destruct e|].
  assert (rdt_length (perform e (w_lck w)) = rdt_length (w_lck w)) as Hlen by (by destruct (w_lck w), e).
  split; cbn; [by eapply winv_frame|lia|lia| |].
  - intros r2 t2 Hr2. destruct (decide (r2 = r)) as [->|Hne].
    + rewrite list_lookup_insert_eq in Hr2 by (by eapply lookup_lt_Some). injection Hr2 as <-. split; [done..| |].
      * intros s2 Hs2. destruct P6 as [P6|(P6 & P7 & P8)]; [congruence|]. assert (s2 = s) as -> by congruence.
        split; [lia|]. exists (slot_after s e x). rewrite perform_slot, Hx, Hcached. split; [|done].
        unfold slot_after. destruct (slot_effect e) as [[? ?]|]; [by case_decide|done].
      * unfold bind_ok, unbound in *. destruct (tx_pc t') as [| | | | | |q|q| |q|q|q|q k|q|q|q o]; try done. by destruct q.
    + rewrite list_lookup_insert_ne in Hr2 by done. eapply (own_frame _ _ r t s x); eauto.
  - eapply apart_insert; [done| |done]. rewrite Hheld. destruct P6 as [P6|[P6 _]]; auto.
Qed.

(** A slot that is being bound comes to nobody else. *)
Lemma apart_bound (txns : list txn_t) g r t t' e :
  txns !! r = Some t -> bound g r t t' e ->
  (forall q u s, txns !! q = Some u -> held u = Some s -> exists y, rdt g !! s = Some y /\ sl_pid y <> 0) ->
  (forall r1 r2 t1 t2 s, txns !! r1 = Some t1 -> txns !! r2 = Some t2 -> held t1 = Some s -> held t2 = Some s -> r1 = r2) ->
  forall r1 r2 t1 t2 s,
  <[r := t']> txns !! r1 = Some t1 -> <[r := t']> txns !! r2 = Some t2 -> held t1 = Some s -> held t2 = Some s -> r1 = r2.
Proof.
  intros Hr (_ & _ & _ & _ & Hb) Hpid Ha r1 r2 t1 t2 s2 Hr1 Hr2 Hs1 Hs2.
  assert (forall q u, q <> r -> <[r := t']> txns !! q = Some u -> held u = Some s2 -> held t' = Some s2 -> False) as Hfresh.
  { intros q u Hq Hu Hs Hs'. rewrite list_lookup_insert_ne in Hu by done. destruct Hb as [Hb|(s & Hs3 & _ & _ & x & Hx & Hzero & _)].
    - congruence.
    - destruct (Hpid q u s2 Hu Hs) as (y & Hy & ?). congruence. }
  assert (forall q u, <[r := t']> txns !! q = Some u -> q = r -> u = t') as Hown.
  { intros q u Hu ->. rewrite list_lookup_insert_eq in Hu by (by eapply lookup_lt_Some). congruence. }
  destruct (decide (r1 = r)) as [E1|N1], (decide (r2 = r)) as [E2|N2]; [congruence| | |].
  - rewrite (Hown _ _ Hr1 E1) in Hs1. exfalso. by eapply (Hfresh r2).
  - rewrite (Hown _ _ Hr2 E2) in Hs2. exfalso. by eapply (Hfresh r1).
  - rewrite list_lookup_insert_ne in Hr1, Hr2 by done. by eapply Ha.
Qed.

Lemma reader_world_lone w r c t t' e :
  ok w -> plain_choice c -> w_txns w !! r = Some t -> held t = None ->
  reader_step txkey max_readers r (w_txns w) (w_lck w) c t = Some (t', e) ->
  ok (mk_world (perform e (w_lck w)) (<[r := t']> (w_txns w)) (w_writer w)).
Proof.
  intros [Hw Hl Hmr Ht Ha] Hc Hr Hheld H. pose proof (Ht r t Hr) as [H1 H2 H3 H4].
  destruct (lone_progress _ _ _ _ _ _ _ _ _ Hl Hmr H1 H2 H4 Hheld Hc H) as (P2 & Hbound).
  pose proof Hbound as (P1 & P3 & P4 & P5 & P6).
  destruct (reader_frame (w_lck w) e) as (Hcached & Hmetas & Hsize); [by destruct e|].
  assert (rdt_length (w_lck w) <= rdt_length (perform e (w_lck w)) <= length (rdt (w_lck w)))%nat as Hlen.
  { destruct (w_lck w), e; cbn in *; try lia; intuition lia. }
  split; cbn; [by eapply winv_frame|lia|lia| |].
  - intros r2 t2 Hr2. destruct (decide (r2 = r)) as [->|Hne].
    + rewrite list_lookup_insert_eq in Hr2 by (by eapply lookup_lt_Some). injection Hr2 as <-. split; [done..| |done].
      intros s2 Hs2. destruct P6 as [P6|(s & Hs & Hlt & _ & x & Hx & _ & x' & Hx' & Hpid & Hcalm & err & Hpc)]; [congruence|].
      assert (s2 = s) as -> by congruence. split; [lia|]. exists x'. split; [done|split; [done|]]. unfold view. by rewrite Hpc.
    + rewrite list_lookup_insert_ne in Hr2 by done. eapply bind_frame_other; eauto.
  - eapply apart_bound; eauto. intros q u s2 Hu Hs. destruct (Ht q u Hu) as [[Hpid _] _ Hsl _].
    destruct (Hsl s2 Hs) as (_ & y & Hy & ? & _). exists y. split; [done|congruence].
Qed.

Lemma reader_world w r c w' : ok w -> plain_choice c -> act txkey max_readers w (AReader r c) = Some w' -> ok w'.
Proof.
  intros Hok Hc H. cbn in H. apply bind_Some in H as (t & Hr & H).
  apply bind_Some in H as ([t' e] & H & [= <-]). destruct (held t) as [s|] eqn:Hheld.
  - by eapply reader_world_own.
  - by eapply reader_world_lone.
Qed.

(** *** Deaths and clearing *)

Lemma refresh_world w : ok w -> ok (mk_world (perform (Store_flag 1) (w_lck w)) (w_txns w) (w_writer w)).
Proof.
  intros [Hw Hl Hmr Ht Ha]. destruct (w_lck w) as [m o r n f l k] eqn:Hg. split; cbn in *; try done.
  - by eapply winv_frame.
  - intros r2 t2 Hr2. pose proof (Ht r2 t2 Hr2) as Hok2. eapply frame; [done|done|done|done|apply Hok2].
Qed.

Lemma dead_ok g w r t : sane t -> (txkey = false -> tx_rthc t = None) -> txn_ok txkey g w r (set_pc Dead t).
Proof. intros Hsane Hk. destruct t. split; try done. Qed.

Lemma die_world w pid w' : ok w -> act txkey max_readers w (ADie pid) = Some w' -> ok w'.
Proof.
  intros [Hw Hl Hmr Ht Ha] H. cbn in H. injection H as <-.
  set (g' := if owner_dies pid (w_txns w) (rdt_lock (w_lck w)) then perform (Store_lock None) (w_lck w) else w_lck w).
  assert (metas g' = metas (w_lck w) /\ cached_oldest_txnid g' = cached_oldest_txnid (w_lck w) /\
    rdt g' = rdt (w_lck w) /\ rdt_length g' = rdt_length (w_lck w)) as (Hm & Hc & Hs & Hn).
  { unfold g'. destruct (owner_dies _ _ _); [by destruct (w_lck w)|done]. }
  split; cbn; [by eapply winv_frame|by rewrite Hn, Hs|by rewrite Hs| |].
  - intros r t' Hr. apply list_lookup_fmap_Some in Hr as (t & -> & Hr). pose proof (Ht r t Hr) as Hok. unfold die.
    case_decide as Hpid; [apply dead_ok; apply Hok|].
    eapply frame; [done|done|lia|by rewrite Hs|]. destruct Hok as [_ _ _ Hb]. unfold bind_ok in *.
    destruct (tx_pc t) as [| | | | | |q|q| |q|q|q|q k|q|q|q o]; try done.
    assert (rdt_lock (w_lck w) = Some r -> rdt_lock g' = Some r) as Hlock.
    { intros Hk. unfold g', owner_dies. rewrite Hk; cbn. rewrite Hr. destruct (Z.eqb_spec (tx_pid t) pid); [done|done]. }
    destruct q; try done; destruct Hb as [Hb1 Hb2]; (split; [by apply Hlock|]); cbn in *; rewrite ?Hn, ?Hs; done.
  - intros r1 r2 t1 t2 s Hr1 Hr2 Hs1 Hs2. apply list_lookup_fmap_Some in Hr1 as (u1 & -> & Hr1).
    apply list_lookup_fmap_Some in Hr2 as (u2 & -> & Hr2). unfold die in *.
    assert (forall u, held (set_pc Dead u) = None) as Hdead by (by intros []).
    repeat case_decide; rewrite ?Hdead in Hs1; rewrite ?Hdead in Hs2; try discriminate. by eapply Ha.
Qed.

(** A process with a transaction that has a slot is not dead. *)
Lemma held_alive txns r t s : txns !! r = Some t -> held t = Some s -> pid_dead txns (tx_pid t) = true -> False.
Proof.
  intros Hr Hs Hdead. unfold pid_dead in Hdead. rewrite forallb_forall in Hdead.
  specialize (Hdead t). rewrite <- list_elem_of_In in Hdead. specialize (Hdead ltac:(by eapply list_elem_of_lookup_2)).
  rewrite Z.eqb_refl, orb_false_r in Hdead. unfold dead, held in *. by destruct (tx_pc t).
Qed.

Lemma clear_world w s w' : ok w -> act txkey max_readers w (AClear s) = Some w' -> ok w'.
Proof.
  intros Hok H. cbn -[perform] in H. apply bind_Some in H as (x & Hx & H). destruct (pid_dead (w_txns w) (sl_pid x)) eqn:Hdead; [|done].
  injection H as <-. apply (refresh_world (mk_world (perform (Store_pid s 0) (w_lck w)) (w_txns w) (w_writer w))). destruct Hok as [Hw Hl Hmr Ht Ha].
  assert (length (rdt (perform (Store_pid s 0) (w_lck w))) = length (rdt (w_lck w))) as Hsize.
  { rewrite perform_rdt. cbn. apply length_alter. }
  assert (rdt_length (perform (Store_pid s 0) (w_lck w)) = rdt_length (w_lck w)) as Hlen by (by destruct (w_lck w)).
  split; cbn -[perform]; [eapply winv_frame; [done|by destruct (w_lck w)..]|lia|lia| |done].
  intros r t Hr. pose proof (Ht r t Hr) as Hok. eapply frame; [done|by destruct (w_lck w)|by destruct (w_lck w)| |].
  - intros s2 Hs2. rewrite perform_slot. cbn. case_decide; [|done]. subst s2. exfalso.
    destruct Hok as [_ _ Hsl _]. destruct (Hsl s Hs2) as (_ & y & Hy & Hpid & _). assert (y = x) as -> by congruence.
    rewrite Hpid in Hdead. eapply held_alive; eauto.
  - eapply bind_frame; [apply Hok|apply Hok|by destruct (w_lck w)|done|done|].
    intros s2 y Hy Hzero. rewrite perform_slot, Hy. cbn. case_decide; [|eauto 10]. eexists; split; [done|]. cbn. eauto.
Qed.

(** What the steps of the others do to a slot: nothing, or what the writer may. *)
Lemma slot_kept w a w' r t s x :
  ok w -> plain a -> act txkey max_readers w a = Some w' -> (forall c, a <> AReader r c) ->
  w_txns w !! r = Some t -> held t = Some s -> rdt (w_lck w) !! s = Some x ->
  exists x', rdt (w_lck w') !! s = Some x' /\ touched x x'.
Proof.
  intros Hok Hp H Hne Hr Hheld Hx. pose proof Hok as [Hw Hl Hmr Ht Ha].
  destruct (Ht r t Hr) as [[Hpid _] _ Hsl _]. destruct (Hsl s Hheld) as (Hlt & y & Hy & Hown & _).
  assert (y = x) as -> by congruence.
  assert (rdt (w_lck w') !! s = rdt (w_lck w) !! s -> exists x', rdt (w_lck w') !! s = Some x' /\ touched x x') as Hsame.
  { intros ->. exists x. split; [done|constructor]. }
  destruct a as [r2 c|c|pid|s2|]; cbn -[perform] in H.
  - apply bind_Some in H as (t2 & Hr2 & H). apply bind_Some in H as ([t2' e] & H & [= <-]). apply Hsame; cbn.
    destruct (Ht r2 t2 Hr2) as [P1 P2 P3 P4]. assert (r2 <> r) as Hr12 by (intros ->; by destruct (Hne c)).
    destruct (held t2) as [s2|] eqn:Hheld2.
    + destruct (P3 s2 Hheld2) as (Hlt2 & x2 & Hx2 & Hpid2 & Hview).
      destruct (reader_progress _ _ _ _ s2 x2 Hw P1 P2 Hheld2 Hx2 Hpid2 Hview _ _ _ _ _ _ Hp H) as (_ & _ & _ & He & _).
      eapply own_spares; [done|]. intros ->. apply Hr12. by eapply Ha.
    + destruct (lone_progress _ _ _ _ _ _ _ _ _ Hl Hmr P1 P2 P4 Hheld2 Hp H) as (_ & _ & _ & He & _).
      eapply bind_spares; [done..|congruence].
  - apply bind_Some in H as ([wr e] & H & [= <-]).
    destruct (writer_touch _ _ _ _ _ s x Hw H Hx) as (x' & Hx' & Htouch & _); [congruence|done|]. by exists x'.
  - injection H as <-. apply Hsame; cbn. destruct (owner_dies _ _ _); [by destruct (w_lck w)|done].
  - apply bind_Some in H as (z & Hz & H). destruct (pid_dead (w_txns w) (sl_pid z)) eqn:Hdead; [|done]. injection H as <-.
    apply Hsame. cbn [w_lck]. rewrite !perform_slot. cbn. case_decide; [|done]. subst s2. exfalso.
    assert (z = x) as -> by congruence. rewrite Hown in Hdead. eapply held_alive; eauto.
  - injection H as <-. apply Hsame. by destruct (w_lck w).
Qed.

Lemma world_step w a w' : ok w -> plain a -> act txkey max_readers w a = Some w' -> ok w'.
Proof.
  destruct a as [r c|c|pid|s|].
  - apply reader_world.
  - intros Hok _. by apply writer_world.
  - intros Hok _. by apply die_world.
  - intros Hok _. by apply clear_world.
  - intros Hok _ [= <-]. by apply refresh_world.
Qed.

Lemma world_run w l w' : ok w -> Forall plain l -> run txkey max_readers w l = Some w' -> ok w'.
Proof.
  intros Hok Hl. revert w Hok. induction Hl as [|a l Ha Hl IH]; intros w Hok H; cbn in H; [by injection H as <-|].
  apply bind_Some in H as (w1 & H1 & H). eapply IH; [|done]. by eapply world_step.
Qed.

End World_ok.

(** ** The start *)

(** Nobody has a slot yet, and the cached oldest is a sound one. *)
Definition fresh_txn (pid self : Z) : txn_t :=
  mk_txn pid self None None INVALID_TXNID 0 true false false false Idle MDBX_SUCCESS.

Definition fresh_world (m : metas_t) (oldest retired : Z) (slots : list reader_slot_t) (ids : list (Z * Z)) (detent : Z) : world :=
  mk_world (mk_lck m oldest retired 0 1 slots None) ((fun '(pid, self) => fresh_txn pid self) <$> ids)
    (mk_writer W_idle m detent false).

Definition fresh_ok (m : metas_t) (oldest detent : Z) (ids : list (Z * Z)) : Prop :=
  metas_ok m /\ oldest <= hd_txnid (mt_steady m) /\ detent <= oldest /\
  Forall (fun '(pid, self) => pid <> 0 /\ self < MDBX_TID_TXN_OUSTED) ids.

Lemma fresh_world_ok txkey m oldest retired slots ids detent :
  fresh_ok m oldest detent ids -> world_ok txkey (length slots) (fresh_world m oldest retired slots ids detent).
Proof.
  intros (Hm & Ho & Hd & Hids).
  assert (forall r t, ((fun '(pid, self) => fresh_txn pid self) <$> ids) !! r = Some t ->
    exists pid self, t = fresh_txn pid self /\ pid <> 0 /\ self < MDBX_TID_TXN_OUSTED) as Hfresh.
  { intros r t Hr. apply list_lookup_fmap_Some in Hr as ([pid self] & -> & Hr). exists pid, self. split; [done|].
    rewrite Forall_lookup in Hids. apply (Hids r (pid, self) Hr). }
  split; cbn; [by split|lia|lia| |].
  - intros r t Hr. destruct (Hfresh r t Hr) as (pid & self & -> & Hpid & Hself). by split.
  - intros r1 r2 t1 t2 s Hr1 _ Hs1. by destruct (Hfresh r1 t1 Hr1) as (pid & self & -> & _).
Qed.

(** ** Readers do not wait

    A measure that every step of a transaction decreases and that no step of the others
    increases: apart from the binding of a slot, which takes a lock, the calls of a
    reader end after a bounded number of its own steps, whatever the others do. *)

(** ** The measure *)

Definition seize_left (p : seize_pc) : nat :=
  let turn l k := (20 + 9 * (41 - l) + k)%nat in
  match p with
  | S_owner => 400 | S_tap => 399
  | S_reset _ l => turn l 9 | S_used _ l => turn l 8 | S_retired _ l => turn l 7 | S_write _ l => turn l 6
  | S_flag _ l => turn l 5 | S_should_retry _ l => turn l 4 | S_fetch _ l => turn l 3 | S_oldest _ l => turn l 2
  | S_verify _ l => turn l 1
  | S_setup => 18 | S_ensure => 17
  end%nat.

Definition clean_left (p : clean_pc) : nat :=
  match p with
  | C_pid => 16 | C_tid => 14 | C_reset => 13 | C_owner => 12 | C_txnid_again => 11 | C_tid_again => 10
  | C_ensure => 9 | C_used => 8 | C_reset_again => 7 | C_flag => 6 | C_finished => 5
  end%nat.

(** [ousted] says that the slot is marked as ousted already. *)
Definition unpark_left (ousted : bool) (p : unpark_pc) : nat :=
  match p with
  | U_pid => if ousted then 20 else 24
  | U_tid _ => if ousted then 19 else 23
  | U_txnid _ tid => if decide (tid = MDBX_TID_TXN_OUSTED) then 18 else 22
  | U_cas => 21 | U_txnid_again => 18 | U_tid_again _ => 17
  end%nat.

(** How many steps a call may still take. *)
Definition steps_left (ousted : bool) (t : txn_t) : nat :=
  match tx_pc t with
  | Alloc (R_pid _) => 402 | Alloc (R_txnid _) | Get_pid => 401
  | Seize p => seize_left p
  | Park p => match p with P_pid => 20 | P_tid _ => 19 | P_txnid _ _ => 18 | P_store => 2 | P_flag => 1 end
  | Unpark p => unpark_left ousted p
  | Clean p _ => clean_left p
  | Release p => match p with F_pid => 3 | F_txnid => 2 | F_free => 1 end
  | Unregister p => match p with X_pid _ => 4 | X_txnid _ => 3 | X_free _ => 2 | X_flag => 1 end
  | Idle | Ready | Active | Parked | Dead | Panic | Bind _ | Clone _ _ => 0
  end%nat.

Definition marked (w : world) (t : txn_t) : bool :=
  match tx_slot t ≫= (fun s => rdt (w_lck w) !! s) with
  | Some x => bool_decide (sl_tid x = MDBX_TID_TXN_OUSTED)
  | None => false
  end.

Definition binding (t : txn_t) : Prop := match tx_pc t with Bind _ => True | _ => False end.

Lemma steps_left_bound ousted t : (steps_left ousted t <= 402)%nat.
Proof.
  unfold steps_left, seize_left, clean_left, unpark_left.
  destruct (tx_pc t) as [| | | | | |p|p| |p|p|p|p k|p|p|p o]; try lia; destruct p; try destruct ousted; try case_decide; lia.
Qed.

Lemma marked_le t b b' : (b = true -> b' = true) -> (steps_left b' t <= steps_left b t)%nat.
Proof.
  intros Hb. unfold steps_left, unpark_left. destruct (tx_pc t) as [| | | | | |p|p| |p|p|p|p k|p|p|p o]; try lia.
  destruct p; try lia; destruct b, b'; try lia; by specialize (Hb eq_refl).
Qed.

Section Live.
Context (txkey : bool) (n : nat).

(** ** Own steps *)

(** A transaction at a program counter that uses its slot. *)
Ltac use_slot Hshape Hslot :=
  let s := fresh "s" in let x := fresh "x" in
  destruct Hshape as (_ & _ & s & -> & _);
  destruct (Hslot s eq_refl) as (_ & x & Hx & Hpid & Hview); unfold view in Hview; cbn in Hview.

Ltac measured :=
  unfold steps_left, seize_left, clean_left, unpark_left, clean_return, txn_ended; cbn; repeat case_decide; lia.

Lemma own_decrease w r t c w' t' :
  world_ok txkey n w -> w_txns w !! r = Some t -> ~ binding t -> (forall c', c <> Call c') ->
  act txkey n w (AReader r c) = Some w' -> w_txns w' !! r = Some t' ->
  (steps_left (marked w' t') t' < steps_left (marked w t) t)%nat /\ ~ binding t'.
Proof.
  intros [Hw _ _ Ht _] Hr Hb Hc H Hr'. destruct (Ht r t Hr) as [Hsane Hshape Hslot _].
  pose proof invalid_max. cbn in H. rewrite Hr in H; cbn in H. apply bind_Some in H as ([t1 e] & H & [= <-]).
  cbn in Hr'. rewrite list_lookup_insert_eq in Hr' by (by eapply lookup_lt_Some). injection Hr' as <-.
  unfold reader_step, binding, marked, slot_ok, held, shape in *. clear Ht Hr.
  destruct t as [a b sl rt d ow fi pk ou er pc rc]; cbn in *.
  destruct pc as [| | | | | |p|p| |p|p|p|p k|p|p|p o]; try done; destruct c as [|err|z|c]; try (by destruct (Hc c)); try discriminate.
  all: try (unfold slot_alloc_step, thread_unregister_step, go in H; destruct p; try discriminate; split_step H;
    (split; [measured|by intros []]); fail).
  all: try (by destruct Hshape as (_ & _ & [])).
  all: try (destruct sl; unfold ro_slot_release_step, go in H; destruct p; try discriminate; split_step H;
    (split; [measured|by intros []]); fail).
  all: use_slot Hshape Hslot; cbn in H; rewrite ?Hx.
  all: try (unfold slot_get_step, ro_seize_step, seize_again, start_failed, ro_park_step, go in H; try destruct p; try discriminate;
    split_step H; (split; [measured|by intros []]); fail).
  - unfold ro_unpark_step, go in H. rewrite ?Hx in H. destruct p; split_step H; views; facts; (split; [|by intros []]); rewrite ?perform_slot; cbn; rewrite ?Hx; cbn;
      unfold steps_left, clean_left, unpark_left; cbn; repeat case_bool_decide; repeat case_decide; try lia; exfalso; tauto.
  - unfold ro_slot_clean_step, clean_return, txn_ended, go in H. rewrite ?Hx in H. destruct p; split_step H; views; facts;
      try (by exfalso; lia); try (by destruct k); destruct k; (split; [measured|by intros []]).
Qed.

(** ** The steps of the others *)

Lemma others_keep w a w' r t :
  world_ok txkey n w -> plain a -> act txkey n w a = Some w' -> (forall c, a <> AReader r c) -> w_txns w !! r = Some t ->
  exists t', w_txns w' !! r = Some t' /\ (t' = t \/ t' = set_pc Dead t).
Proof.
  intros Hok Hp H Hne Hr. destruct a as [r2 c|c|pid|s|]; cbn -[perform] in H.
  - apply bind_Some in H as (t2 & Hr2 & H). apply bind_Some in H as ([t2' e] & H & [= <-]). exists t. split; [|by left]. cbn.
    rewrite list_lookup_insert_ne; [done|]. intros ->. by apply (Hne c).
  - apply bind_Some in H as ([wr e] & H & [= <-]). exists t. auto.
  - injection H as <-. cbn. rewrite list_lookup_fmap, Hr. cbn. eexists; split; [done|]. unfold die. case_decide; auto.
  - apply bind_Some in H as (z & Hz & H). destruct (pid_dead _ _); [|done]. injection H as <-. exists t. auto.
  - injection H as <-. exists t. auto.
Qed.

Lemma others_decrease w a w' r t :
  world_ok txkey n w -> plain a -> act txkey n w a = Some w' -> (forall c, a <> AReader r c) -> w_txns w !! r = Some t ->
  ~ binding t ->
  exists t', w_txns w' !! r = Some t' /\ (steps_left (marked w' t') t' <= steps_left (marked w t) t)%nat /\ ~ binding t'.
Proof.
  intros Hok Hp H Hne Hr Hb. destruct (others_keep _ _ _ _ _ Hok Hp H Hne Hr) as (t' & Hr' & E). exists t'. split; [done|].
  destruct E as [E|E]; subst t'; [|destruct t; split; [cbn; lia|by intros []]]. split; [|done].
  destruct (held t) as [s'|] eqn:Hheld.
  - apply marked_le. unfold marked. destruct (tx_slot t) as [s|] eqn:Hs; [cbn|done].
    destruct (rdt (w_lck w) !! s) as [x|] eqn:Hx; [|done]. intros Hm. apply bool_decide_eq_true in Hm.
    assert (s' = s) as ->.
    { unfold held in Hheld. rewrite Hs in Hheld. destruct (tx_pc t) as [| | | | | |q|q| |q|q|q|q k|q|q|q o]; try destruct q; congruence. }
    destruct (slot_kept txkey n w a w' r t s x Hok Hp H Hne Hr Hheld Hx) as (x' & -> & Htouch).
    apply bool_decide_eq_true. by eapply touched_mark.
  - destruct (ok_txn _ _ _ Hok r t Hr) as [_ (_ & _ & Hshape) _ _]. unfold steps_left, held in *.
    destruct (tx_pc t) as [| | | | | |q|q| |q|q|q|q k|q|q|q o]; try lia.
    destruct q; try lia; destruct Hshape as (s & Hs & _); rewrite Hs in Hheld; discriminate.
Qed.

(** ** Runs *)

Definition own_action (r : nat) (a : action) : bool := match a with AReader r' _ => bool_decide (r' = r) | _ => false end.

(** No call of transaction [r] begins. *)
Definition quiet (r : nat) (a : action) : Prop := match a with AReader r' (Call _) => r' <> r | _ => True end.

Definition own_steps (r : nat) (l : list action) : nat := length (filter (fun a => own_action r a = true) l).

Lemma run_decrease w l w' r t :
  world_ok txkey n w -> Forall plain l -> Forall (quiet r) l -> run txkey n w l = Some w' -> w_txns w !! r = Some t ->
  ~ binding t -> (own_steps r l <= steps_left (marked w t) t)%nat.
Proof.
  intros Hok Hp. revert w t Hok. induction Hp as [|a l Ha Hp IH]; intros w t Hok Hq H Hr Hb; [cbn; lia|].
  cbn in H. apply bind_Some in H as (w1 & H1 & H). inversion Hq as [|? ? Hqa Hql]; subst.
  assert (world_ok txkey n w1) as Hok1 by (by eapply world_step). unfold own_steps. rewrite filter_cons.
  destruct (decide (own_action r a = true)) as [E|E].
  - destruct a as [r' c| | | |]; try discriminate. cbn in E. apply bool_decide_eq_true in E. subst r'.
    assert (exists t1, w_txns w1 !! r = Some t1) as [t1 Hr1].
    { pose proof H1 as H2. cbn in H2. rewrite Hr in H2; cbn in H2. apply bind_Some in H2 as ([t1 e] & _ & [= <-]). cbn.
      exists t1. apply list_lookup_insert_eq. by eapply lookup_lt_Some. }
    assert (forall c', c <> Call c') as Hc by (intros c' ->; by apply Hqa).
    destruct (own_decrease w r t c w1 t1 Hok Hr Hb Hc H1 Hr1) as [Hlt Hb1].
    specialize (IH w1 t1 Hok1 Hql H Hr1 Hb1). unfold own_steps in IH. cbn. lia.
  - assert (forall c, a <> AReader r c) as Hne.
    { intros c ->. apply E. cbn. by apply bool_decide_eq_true. }
    destruct (others_decrease w a w1 r t Hok Ha H1 Hne Hr Hb) as (t1 & Hr1 & Hle & Hb1).
    specialize (IH w1 t1 Hok1 Hql H Hr1 Hb1). unfold own_steps in IH. lia.
Qed.
End Live.
