(* ===== verification/ReadersProps.v ===== *)
(** * What the table of readers guarantees

    The claims about the readers: the snapshot of a running transaction is never given
    away, a parked one comes back protected or not at all, the oldest snapshot only
    advances, and no reader waits for anybody; then the runs that show where clones and
    broken transactions leave these guarantees. *)

From S2P Require Import Prelude Readers ReadersWriter ReadersInv ReadersSteps ReadersWorld.

(** ** Guarantees *)

(** The slot of transaction [t] publishes its snapshot, which is not older than what
    the writer takes for the oldest one in use ([gc.detent] bounds what it recycles). *)
Definition snapshot_kept (w : world) (t : txn_t) : Prop :=
  exists s x, tx_slot t = Some s /\ rdt (w_lck w) !! s = Some x /\
  sl_pid x = tx_pid t /\ sl_txnid x = tx_txnid t /\
  w_detent (w_writer w) <= cached_oldest_txnid (w_lck w) <= tx_txnid t.

Lemma held_slot txkey t s : shape txkey t -> held t = Some s -> tx_pc t = Active \/ tx_pc t = Parked -> tx_slot t = Some s.
Proof.
  intros (_ & _ & Hshape) Hheld Hpc. unfold held in Hheld. destruct Hpc as [Hpc|Hpc]; rewrite Hpc in *;
    destruct Hshape as (s' & Hs & _); by rewrite Hs in *.
Qed.

Lemma slot_at_index txkey t : shape txkey t -> tx_pc t = Active \/ tx_pc t = Parked -> exists s, held t = Some s.
Proof.
  intros (_ & _ & Hshape) [Hpc|Hpc]; unfold held; rewrite Hpc in *; destruct Hshape as (s & -> & _); eauto.
Qed.

(** The meaning of the invariant for a transaction that runs or is parked. *)
Lemma ok_active txkey n w r t :
  world_ok txkey n w -> w_txns w !! r = Some t -> tx_pc t = Active -> snapshot_kept w t.
Proof.
  intros [Hw _ _ Ht _] Hr Hpc. destruct (Ht r t Hr) as [_ Hshape Hslot _].
  destruct (slot_at_index _ t Hshape) as [s Hs]; [by left|]. destruct (Hslot s Hs) as (_ & x & Hx & Hpid & Hview).
  unfold view in Hview. rewrite Hpc in Hview. destruct Hview as [[_ (Htx & [Hc _] & _)] _].
  exists s, x. split; [eapply held_slot; eauto|]. split; [done|split; [done|split; [done|]]].
  split; [apply Hw|done].
Qed.

Lemma ok_parked txkey n w r t :
  world_ok txkey n w -> w_txns w !! r = Some t -> tx_pc t = Parked ->
  exists s x, tx_slot t = Some s /\ rdt (w_lck w) !! s = Some x /\
  (sl_tid x = MDBX_TID_TXN_OUSTED \/ sl_tid x = MDBX_TID_TXN_PARKED /\ snapshot_kept w t).
Proof.
  intros [Hw _ _ Ht _] Hr Hpc. destruct (Ht r t Hr) as [_ Hshape Hslot _].
  destruct (slot_at_index _ t Hshape) as [s Hs]; [by right|]. destruct (Hslot s Hs) as (_ & x & Hx & Hpid & Hview).
  unfold view in Hview. rewrite Hpc in Hview. destruct Hview as [(_ & _ & Hview) _].
  exists s, x. assert (tx_slot t = Some s) as Hts by (eapply held_slot; eauto). split; [done|split; [done|]].
  destruct Hview as [Hview|[Hview (Htx & [Hc _] & _)]]; [by left|right]. split; [done|].
  exists s, x. split; [done|split; [done|split; [done|split; [done|]]]]. split; [apply Hw|done].
Qed.

(** ** Returns of unparking *)

Definition unparking (t : txn_t) : Prop :=
  match tx_pc t with Unpark _ | Clean _ To_unpark => True | _ => False end.

(** Where a step of unparking may lead. *)
Definition unpark_outcome (t : txn_t) : Prop :=
  unparking t \/ tx_pc t = Active /\ tx_rc t = MDBX_SUCCESS \/
  tx_pc t = Ready /\ tx_rc t = MDBX_OUSTED /\ tx_finished t = true.

Lemma unpark_returns txkey n w r t c w' t' :
  world_ok txkey n w -> w_txns w !! r = Some t -> unparking t -> act txkey n w (AReader r c) = Some w' ->
  w_txns w' !! r = Some t' -> unpark_outcome t'.
Proof.
  intros [Hw _ _ Ht _] Hr Hu H Hr'. destruct (Ht r t Hr) as [_ Hshape Hslot _]. pose proof invalid_max.
  cbn in H. rewrite Hr in H; cbn in H. apply bind_Some in H as ([t1 e] & H & [= <-]).
  cbn in Hr'. rewrite list_lookup_insert_eq in Hr' by (by eapply lookup_lt_Some). injection Hr' as <-.
  unfold unpark_outcome, unparking, reader_step, shape, held, slot_ok, view in *.
  destruct t as [a b sl rt d ow fi pk ou er pc rc]; cbn in *.
  destruct pc as [| | | | | |p|p| |p|p|p|p k|p|p|p o]; try done; destruct Hshape as (_ & _ & s & -> & _);
    destruct (Hslot s eq_refl) as (_ & x & Hx & Hpid & Hview); unfold view in Hview; cbn in Hview;
    destruct c as [|err|m|c]; cbn in H; try (by destruct c); try discriminate.
  all: unfold ro_unpark_step, ro_slot_clean_step, clean_return, txn_ended, go in H; rewrite ?Hx in H.
  all: destruct p; try destruct k; try done; split_step H; views; facts; auto 10.
  lia.
Qed.

(** No call begins while a transaction is being unparked. *)
Lemma unparking_plain txkey n w r t c w' :
  w_txns w !! r = Some t -> unparking t -> act txkey n w (AReader r c) = Some w' -> plain_choice c.
Proof.
  intros Hr Hu H. cbn in H. rewrite Hr in H. destruct c as [| | |c]; [exact I..|]. cbn in H. unfold called, unparking in *.
  by destruct (tx_pc t) as [| | | | | |p|p| |p|p|p|p k|p|p|p o].
Qed.

(** ** The oldest snapshot *)

(** The step of a reader, of any kind, leaves the meta pages and the oldest snapshot. *)
Definition spares_oldest (e : effect) : Prop := match e with Store_oldest _ | Store_metas _ => False | _ => True end.

Lemma spared_oldest e g : spares_oldest e -> metas (perform e g) = metas g /\ cached_oldest_txnid (perform e g) = cached_oldest_txnid g.
Proof. destruct e, g; done. Qed.

Lemma reader_spares txkey n me txns g c t t' e : reader_step txkey n me txns g c t = Some (t', e) -> spares_oldest e.
Proof.
  unfold reader_step. destruct c as [|err|m|c]; [..|intros (t1 & _ & [= <- <-])%bind_Some; exact I].
  all: destruct (tx_pc t) as [| | | | | |p|p| |p|p|p|p k|p|p|p o]; try done.
  all: try (intros (s & _ & H)%bind_Some; revert H).
  all: unfold bind_slot_step, slot_found, slot_alloc_step, slot_get_step, ro_seize_step, seize_again, start_failed, ro_park_step,
    ro_unpark_step, ro_slot_clean_step, clean_return, txn_ended, ro_slot_release_step, thread_unregister_step, ro_clone_step, go.
  all: try destruct p; try done; intros H; split_step H; try done. by case_decide.
Qed.

Lemma writer_oldest g c w w' e :
  winv g w -> writer_step g c w = Some (w', e) -> cached_oldest_txnid g <= cached_oldest_txnid (perform e g).
Proof.
  intros [_ _ _ Hp] H. destruct g as [m o r n f t l], w as [pc wm d kd]. unfold wpc_inv in Hp.
  unfold writer_step, write_txn_step, mvcc_shapshot_oldest_rw_step, mvcc_kick_laggards_step, kick_again, wgo in H.
  destruct pc as [| |p k| |p retry|m' b|b], c; try discriminate; try destruct p; cbn in *; split_step H; try case_decide; cbn;
    unfold scan_bounds in *; cbn in *; intuition lia.
Qed.

(** [winv] needs nothing of the readers: it holds with clones and broken transactions. *)
Lemma act_oldest txkey n w a w' :
  winv (w_lck w) (w_writer w) -> act txkey n w a = Some w' ->
  winv (w_lck w') (w_writer w') /\ cached_oldest_txnid (w_lck w) <= cached_oldest_txnid (w_lck w').
Proof.
  intros Hw H.
  assert (forall e g, spares_oldest e -> winv g (w_writer w) -> winv (perform e g) (w_writer w) /\ cached_oldest_txnid g <= cached_oldest_txnid (perform e g)) as Hk.
  { intros e g [Hm Hc]%(spared_oldest e g) Hg. rewrite Hc. split; [by eapply winv_frame|lia]. }
  destruct a as [r c|c|pid|s|]; cbn -[perform] in H.
  - apply bind_Some in H as (t & _ & H). apply bind_Some in H as ([t' e] & H & [= <-]). apply Hk; [by eapply reader_spares|done].
  - apply bind_Some in H as ([wr e] & H & [= <-]). split; [by eapply winv_step|by eapply writer_oldest].
  - injection H as <-. cbn [w_lck w_writer]. destruct (owner_dies _ _ _); [by apply Hk|split; [done|lia]].
  - apply bind_Some in H as (z & _ & H). destruct (pid_dead _ _); [|done]. injection H as <-. cbn [w_lck w_writer].
    destruct (Hk (Store_pid s 0) (w_lck w) I Hw) as [H1 H2]. destruct (Hk (Store_flag 1) _ I H1) as [H3 H4]. split; [done|lia].
  - injection H as <-. by apply (Hk (Store_flag 1)).
Qed.

Lemma run_oldest txkey n l : forall w w',
  winv (w_lck w) (w_writer w) -> run txkey n w l = Some w' ->
  winv (w_lck w') (w_writer w') /\ cached_oldest_txnid (w_lck w) <= cached_oldest_txnid (w_lck w').
Proof.
  induction l as [|a l IH]; intros w w' Hw H; cbn in H; [injection H as <-; split; [done|lia]|].
  apply bind_Some in H as (w1 & H1 & H). destruct (act_oldest _ _ _ _ _ Hw H1) as [Hw1 Hle].
  destruct (IH w1 w' Hw1 H) as [Hw' Hle']. split; [done|lia].
Qed.

Section Guarantees.
Context (txkey : bool) (m : metas_t) (oldest retired detent : Z) (slots : list reader_slot_t) (ids : list (Z * Z)).
Context (Hstart : fresh_ok m oldest detent ids).
Context (l : list action) (w : world) (Hplain : Forall plain l).
Context (Hrun : run txkey (length slots) (fresh_world m oldest retired slots ids detent) l = Some w).

Lemma reached : world_ok txkey (length slots) w.
Proof. eapply world_run; [by apply fresh_world_ok|done|done]. Qed.

(** C2. In every history in which no transaction is cloned and none is broken with
    mdbx_txn_break, however the steps of the readers and of the writer interleave and
    whichever processes die, a transaction that runs has its snapshot published in its
    own slot, and neither the cached oldest snapshot nor the limit of recycling has passed
    it; a parked transaction is marked as ousted or its snapshot is kept just so. *)
Theorem readers_protected r t : w_txns w !! r = Some t ->
  (tx_pc t = Active -> snapshot_kept w t) /\
  (tx_pc t = Parked -> exists s x, tx_slot t = Some s /\ rdt (w_lck w) !! s = Some x /\
    (sl_tid x = MDBX_TID_TXN_OUSTED \/ sl_tid x = MDBX_TID_TXN_PARKED /\ snapshot_kept w t)).
Proof. intros Hr. split; intros Hpc; [eapply ok_active | eapply ok_parked]; eauto using reached. Qed.

(** C16. After a history in which no transaction is cloned and none is broken with
    mdbx_txn_break: while a transaction is being unparked, each of its steps either goes
    on or returns in one of two ways: the transaction runs again, its snapshot still kept, and
    the call succeeds; or the transaction is finished and the caller is told that it was
    ousted. *)
Theorem unpark_correct r t c w' t' : w_txns w !! r = Some t -> unparking t ->
  act txkey (length slots) w (AReader r c) = Some w' -> w_txns w' !! r = Some t' ->
  unpark_outcome t' /\ (tx_pc t' = Active -> snapshot_kept w' t').
Proof.
  intros Hr Hu H Hr'. pose proof (unparking_plain _ _ _ _ _ _ _ Hr Hu H) as Hc.
  split; [eapply unpark_returns; eauto using reached|].
  intros Hpc. eapply ok_active; [|done..]. eapply world_step; [apply reached| |done]. done.
Qed.

(** C17. In every history, with clones and broken transactions as well, the cached
    oldest snapshot never goes back, and it stays at or below the steady meta page, so
    that what a crash returns to is not recycled either; the limit of recycling never
    exceeds it. *)
Theorem oldest_advances l2 w2 : run txkey (length slots) w l2 = Some w2 ->
  cached_oldest_txnid (w_lck w) <= cached_oldest_txnid (w_lck w2) <= hd_txnid (mt_steady (metas (w_lck w2))) /\
  w_detent (w_writer w2) <= cached_oldest_txnid (w_lck w2).
Proof.
  clear Hplain. intros H. destruct (fresh_world_ok txkey m oldest retired slots ids detent Hstart) as [H0 _ _ _ _].
  destruct (run_oldest _ _ _ _ _ H0 Hrun) as [Hw _]. destruct (run_oldest _ _ _ _ _ Hw H) as [[_ H1 H2 _] Hle]. lia.
Qed.

(** C18. Among transactions none of which is cloned or broken with mdbx_txn_break, the
    calls of a reader are wait-free: between two calls a transaction makes at most 402
    steps of its own, however the steps of the others and of the writer come in between
    (the binding of a slot is left out, it waits for the lock of the table). *)
Theorem reader_wait_free r t l2 w2 : w_txns w !! r = Some t -> ~ binding t ->
  Forall plain l2 -> Forall (quiet r) l2 -> run txkey (length slots) w l2 = Some w2 -> (own_steps r l2 <= 402)%nat.
Proof.
  intros Hr Hb Hp Hq H. etransitivity; [eapply run_decrease; eauto using reached|apply steps_left_bound].
Qed.
End Guarantees.

(** ** Runs *)

Definition reader_go (r k : nat) : list action := replicate k (AReader r Go).
Definition writer_go (k : nat) : list action := replicate k (AWriter WGo).

(** Transaction [r] binds slot [s], the first one free, and starts. *)
Definition start_run (r s : nat) (m : metas_t) : list action :=
  [AReader r (Call CallStart); AReader r Go; AReader r (Ret MDBX_SUCCESS)] ++ reader_go r (s + 9) ++
    [AReader r (Tap m)] ++ reader_go r 6 ++ [AReader r (Ret MDBX_SUCCESS)] ++ reader_go r 2 ++
    [AReader r (Ret MDBX_SUCCESS); AReader r Go].

Definition metas_10 : metas_t := let h := mk_snapshot 10 100 5 in mk_metas h h.
Definition two_readers : world :=
  fresh_world metas_10 9 4 (replicate 3 (mk_slot 0 0 0 0 0)) [(7, 1); (7, 2)] 9.

Definition commit_run : list action := AWriter WBegin :: AWriter (WCommit 110 6 true) :: writer_go 2.
Definition park_run (r : nat) : list action := AReader r (Call CallPark) :: reader_go r 5.
Definition unpark_run (r : nat) : list action := AReader r (Call CallUnpark) :: reader_go r 12.
Definition detent_run (k : nat) : list action := AWriter WBegin :: AWriter WDetent :: writer_go k.
Definition kick_run : list action := AWriter WKick :: writer_go 12 ++ AWriter (WRet MDBX_SUCCESS) :: writer_go 7.

(** Transaction 0 starts and parks; a commit later it is in the way and is ousted. *)
Definition oust_run : list action := start_run 0 0 metas_10 ++ park_run 0 ++ commit_run ++ detent_run 13 ++ kick_run.

Definition after (l : list action) : world := default two_readers (run false 3 two_readers l).

Lemma two_readers_ok : fresh_ok metas_10 9 9 [(7, 1); (7, 2)].
Proof. split; [done|split; [done|split; [done|]]]. repeat constructor; done. Qed.

(** Both of the slots are used, transaction 1 reads the snapshot 10, and the writer of
    a later transaction has scanned the slot of transaction 0 already. *)
Definition half_scan_run : list action :=
  start_run 0 0 metas_10 ++ [AReader 0 (Call CallReset)] ++ reader_go 0 5 ++ start_run 1 1 metas_10 ++ commit_run ++ detent_run 9.

(** A clone takes over the snapshot, and its origin ends while the scan goes on. *)
Definition clone_run : list action := AReader 0 (Call (CallClone 1)) :: reader_go 0 9.
Definition origin_ends_run : list action := AReader 1 (Call CallReset) :: reader_go 1 4 ++ writer_go 9.

(** C36. A clone does not raise the flag that makes the writer scan again.  There is a
    run in which the clone has just been made, with success and with its snapshot kept,
    and in which that snapshot is given away to recycling by steps that any execution
    without clones may contain, while the clone goes on reading it. *)
Theorem clone_loses_snapshot : exists l1 l2 w1 w2 t,
  run false 3 two_readers l1 = Some w1 /\ w_txns w1 !! 0%nat = Some t /\ tx_pc t = Active /\ tx_rc t = MDBX_SUCCESS /\
  snapshot_kept w1 t /\
  Forall plain l2 /\ Forall (quiet 0) l2 /\ run false 3 w1 l2 = Some w2 /\ w_txns w2 !! 0%nat = Some t /\
  tx_txnid t < w_detent (w_writer w2).
Proof.
  exists (half_scan_run ++ clone_run), origin_ends_run. do 3 eexists.
  split; [vm_compute; reflexivity|split; [reflexivity|split; [reflexivity|split; [reflexivity|]]]].
  split; [exists 0%nat; eexists; split; [reflexivity|split; [reflexivity|done]]|].
  split; [repeat constructor; done|split; [repeat constructor; done|]].
  split; [vm_compute; reflexivity|split; [reflexivity|done]].
Qed.

(** C37. The clone of a parked transaction writes the mark of parking where the id of
    its snapshot belongs: the clone protects nothing from the start, and unparking it,
    alone in the world, returns success with the transaction finished. *)
Theorem parked_clone_unparks_to_nothing : exists l w t s x w2 t2,
  run false 3 two_readers l = Some w /\ w_txns w !! 0%nat = Some t /\ tx_pc t = Parked /\ tx_rc t = MDBX_SUCCESS /\
  tx_slot t = Some s /\ rdt (w_lck w) !! s = Some x /\ sl_txnid x = MDBX_TID_TXN_PARKED /\ sl_tid x = tx_self t /\
  run false 3 w (unpark_run 0) = Some w2 /\ w_txns w2 !! 0%nat = Some t2 /\
  tx_pc t2 = Ready /\ tx_rc t2 = MDBX_SUCCESS /\ tx_finished t2 = true.
Proof.
  exists (start_run 0 0 metas_10 ++ [AReader 0 (Call CallReset)] ++ reader_go 0 5 ++ start_run 1 1 metas_10 ++ park_run 1 ++
    AReader 0 (Call (CallClone 1)) :: reader_go 0 8). do 6 eexists.
  split; [vm_compute; reflexivity|]. do 7 (split; [reflexivity|]).
  split; [vm_compute; reflexivity|]. do 3 (split; [reflexivity|]). reflexivity.
Qed.

(** A broken transaction that is parked gives its snapshot back, with success, and is
    not finished; when the oldest snapshot has passed it, its reset runs into an
    assertion of the code. *)
Lemma broken_park_panics : exists l w t w2 t2,
  run false 3 two_readers l = Some w /\ w_txns w !! 0%nat = Some t /\
  tx_rc t = MDBX_SUCCESS /\ tx_finished t = false /\ tx_parked t = false /\ sl_txnid <$> rdt (w_lck w) !! 0%nat = Some UINT64_MAX /\
  run false 3 w (commit_run ++ detent_run 13 ++ [AReader 0 (Call CallReset)] ++ reader_go 0 2) = Some w2 /\
  w_txns w2 !! 0%nat = Some t2 /\ tx_pc t2 = Panic.
Proof.
  exists (start_run 0 0 metas_10 ++ [AReader 0 (Call CallBreak); AReader 0 (Call CallPark)] ++ reader_go 0 8). do 4 eexists.
  split; [vm_compute; reflexivity|]. do 5 (split; [reflexivity|]).
  split; [vm_compute; reflexivity|]. split; reflexivity.
Qed.

(** ** Witnesses *)

Lemma readers_protected_witness : let w := after (start_run 0 0 metas_10) in
  exists t, w_txns w !! 0%nat = Some t /\ tx_pc t = Active /\ snapshot_kept w t.
Proof.
  cbv zeta. eexists. split; [vm_compute; reflexivity|split; [reflexivity|]].
  eapply (readers_protected false metas_10 9 4 9 (replicate 3 (mk_slot 0 0 0 0 0)) [(7, 1); (7, 2)] two_readers_ok (start_run 0 0 metas_10) _) with (r := 0%nat).
  - repeat constructor; done.
  - vm_compute; reflexivity.
  - vm_compute; reflexivity.
  - reflexivity.
Defined.

Lemma unpark_correct_witness : exists t', w_txns (after (oust_run ++ unpark_run 0)) !! 0%nat = Some t' /\ tx_rc t' = MDBX_OUSTED /\ unpark_outcome t'.
Proof.
  eexists. split; [vm_compute; reflexivity|split; [reflexivity|]].
  eapply (unpark_correct false metas_10 9 4 9 (replicate 3 (mk_slot 0 0 0 0 0)) [(7, 1); (7, 2)] two_readers_ok
    (oust_run ++ AReader 0 (Call CallUnpark) :: reader_go 0 11) (after (oust_run ++ AReader 0 (Call CallUnpark) :: reader_go 0 11))) with (c := Go) (r := 0%nat).
  - repeat constructor; done.
  - vm_compute; reflexivity.
  - vm_compute; reflexivity.
  - exact I.
  - vm_compute; reflexivity.
  - vm_compute; reflexivity.
Defined.

Lemma oldest_advances_witness :
  let w := after (half_scan_run ++ clone_run) in let w2 := after ((half_scan_run ++ clone_run) ++ origin_ends_run) in
  cached_oldest_txnid (w_lck w) = 9 /\ cached_oldest_txnid (w_lck w2) = 11 /\
  cached_oldest_txnid (w_lck w) <= cached_oldest_txnid (w_lck w2) <= hd_txnid (mt_steady (metas (w_lck w2))) /\
  w_detent (w_writer w2) <= cached_oldest_txnid (w_lck w2).
Proof.
  cbv zeta. split; [vm_compute; reflexivity|split; [vm_compute; reflexivity|]].
  apply (oldest_advances false metas_10 9 4 9 (replicate 3 (mk_slot 0 0 0 0 0)) [(7, 1); (7, 2)] two_readers_ok (half_scan_run ++ clone_run)
    (after (half_scan_run ++ clone_run))) with (l2 := origin_ends_run).
  - vm_compute; reflexivity.
  - vm_compute; reflexivity.
Defined.

Lemma reader_wait_free_witness : own_steps 0 (AWriter WBegin :: reader_go 0 5) = 5%nat /\
  (own_steps 0 (AWriter WBegin :: reader_go 0 5) <= 402)%nat.
Proof.
  split; [reflexivity|].
  eapply (reader_wait_free false metas_10 9 4 9 (replicate 3 (mk_slot 0 0 0 0 0)) [(7, 1); (7, 2)] two_readers_ok
    (start_run 0 0 metas_10 ++ [AReader 0 (Call CallReset)]) (after (start_run 0 0 metas_10 ++ [AReader 0 (Call CallReset)])))
    with (r := 0%nat).
  - repeat constructor; done.
  - vm_compute; reflexivity.
  - vm_compute; reflexivity.
  - intros [].
  - repeat constructor; done.
  - repeat constructor; done.
  - vm_compute; reflexivity.
Defined.
