(* ===== verification/Reaper.v ===== *)
(** * Clearing the slots of dead readers

    [mvcc_cleanup_dead] of mdbx.c goes over the table of readers, asks once for each
    process whether it is alive, and clears the slots of the dead ones.  The processes
    already asked about are kept in a sorted array by [pid_insert].  The check of a
    process and the lock of the table belong to the operating system: [rpid_check] has
    the number of the call and the process, [rdt_lock_result] is what locking returns. *)

From S2P Require Import Prelude Readers ReadersWriter.

Definition i32 (x : Z) : Z := (x + 2 ^ 31) mod 2 ^ 32 - 2 ^ 31.

(** ** The array of processes: the count in the first cell, then the sorted ids *)

(** Where the search ends: a duplicate, or the last position with its comparison. *)
Inductive pid_found := Duplicate | Position (cursor : nat) (val : Z).

Fixpoint pid_search (fuel : nat) (buf : list Z) (pid : Z) (base cursor : nat) (val : Z) (n : nat) : option pid_found :=
  match fuel with
  | O => None
  | S fuel =>
      if decide (0 < n)%nat then
        let pivot := half n in
        let cursor := (base + pivot + 1)%nat in
        x ← rd buf cursor;
        let val := i32 (pid - x) in
        if decide (val < 0) then pid_search fuel buf pid base cursor val pivot
        else if decide (val > 0) then pid_search fuel buf pid cursor cursor val (n - (pivot + 1))
        else Some Duplicate
      else Some (Position cursor val)
  end.

(** [for (n = list[0]; n > cursor; n--) list[n] = list[n - 1];] *)
Fixpoint pid_shift (buf : list Z) (n cursor : nat) : option (list Z) :=
  match n with
  | O => Some buf
  | S n' => if decide (cursor < n)%nat then x ← rd buf n'; buf ← wr buf n x; pid_shift buf n' cursor else Some buf
  end.

Definition pid_insert (buf : list Z) (pid : Z) : option (bool * list Z) :=
  len ← rd buf 0;
  r ← pid_search (S (Z.to_nat len)) buf pid 0 1 0 (Z.to_nat len);
  match r with
  | Duplicate => Some (false, buf)
  | Position cursor val =>
      let cursor := if decide (val > 0) then S cursor else cursor in
      buf ← wr buf 0 (len + 1);
      buf ← pid_shift buf (Z.to_nat (len + 1)) cursor;
      buf ← wr buf (Nat.min (Z.to_nat (len + 1)) cursor) pid;
      Some (true, buf)
  end.

(** ** The table *)

Definition set_pid (pid : Z) (x : reader_slot_t) : reader_slot_t :=
  mk_slot (sl_txnid x) (sl_tid x) pid (snapshot_pages_used x) (snapshot_pages_retired x).

(** Clears the slots of [pid] from index [i] on and counts them. *)
Fixpoint clean_pid (slots : list reader_slot_t) (pid : Z) : list reader_slot_t * nat :=
  match slots with
  | [] => ([], 0%nat)
  | x :: slots =>
      let '(slots', k) := clean_pid slots pid in
      if decide (sl_pid x = pid) then (set_pid 0 x :: slots', S k) else (x :: slots', k)
  end.

Record reaping := mk_reaping {
  rp_rc : Z;
  rp_count : nat;
  rp_pids : list Z;
  rp_slots : list reader_slot_t;
  rp_refresh : bool;
  rp_locked : Z;
  rp_calls : nat
}.

Section Cleanup.
Context (rpid_check : nat -> Z -> Z) (rdt_lock_result : Z) (meanwhile : list reader_slot_t -> list reader_slot_t).
Context (self : Z).

Definition rp_set_rc (rc : Z) (st : reaping) : reaping :=
  mk_reaping rc (rp_count st) (rp_pids st) (rp_slots st) (rp_refresh st) (rp_locked st) (rp_calls st).
Definition rp_set_pids (l : list Z) (st : reaping) : reaping :=
  mk_reaping (rp_rc st) (rp_count st) l (rp_slots st) (rp_refresh st) (rp_locked st) (rp_calls st).
Definition rp_ask (st : reaping) : reaping :=
  mk_reaping (rp_rc st) (rp_count st) (rp_pids st) (rp_slots st) (rp_refresh st) (rp_locked st) (S (rp_calls st)).
Definition rp_lock (st : reaping) : reaping :=
  mk_reaping (rp_rc st) (rp_count st) (rp_pids st) (meanwhile (rp_slots st)) (rp_refresh st) (-1) (rp_calls st).

Definition clean_from (i n : nat) (pid : Z) (st : reaping) : reaping :=
  let '(cleaned, k) := clean_pid (drop i (take n (rp_slots st))) pid in
  mk_reaping (rp_rc st) (rp_count st + k) (rp_pids st) (take i (rp_slots st) ++ cleaned ++ drop n (rp_slots st))
    (rp_refresh st || bool_decide (0 < k)%nat) (rp_locked st) (rp_calls st).

(** A process found dead: if the lock had to be taken it is asked about again.  The
    result says whether the loop goes on. *)
Definition stale_found (i n : nat) (pid : Z) (st : reaping) : option (bool * reaping) :=
  if decide (rp_locked st = 0) then
    if is_error rdt_lock_result then Some (false, rp_set_rc rdt_lock_result st)
    else
      let st := rp_lock st in
      if decide (rdt_lock_result = MDBX_RESULT_TRUE) then Some (false, rp_set_rc MDBX_RESULT_TRUE st)
      else
        x ← rp_slots st !! i;
        if decide (sl_pid x <> pid) then Some (true, st)
        else
          let err := rpid_check (rp_calls st) pid in
          let st := rp_ask st in
          if is_error err then Some (false, rp_set_rc err st)
          else if decide (err <> MDBX_SUCCESS) then Some (true, st)
          else Some (true, clean_from i n pid st)
  else Some (true, clean_from i n pid st).

(** The loop over the slots [i], …, [n - 1]; [k] of them are left. *)
Fixpoint cleanup_loop (k i n : nat) (st : reaping) : option reaping :=
  match k with
  | O => Some st
  | S k =>
      x ← rp_slots st !! i;
      let pid := sl_pid x in
      if decide (pid = 0) then cleanup_loop k (S i) n st
      else if decide (pid = self) then cleanup_loop k (S i) n st
      else
        '(fresh, pids) ← pid_insert (rp_pids st) pid;
        let st := rp_set_pids pids st in
        if negb fresh then cleanup_loop k (S i) n st
        else
          let err := rpid_check (rp_calls st) pid in
          let st := rp_ask st in
          if decide (err = MDBX_RESULT_TRUE) then cleanup_loop k (S i) n st
          else if decide (err <> MDBX_SUCCESS) then Some (rp_set_rc err st)
          else
            '(goes_on, st) ← stale_found i n pid st;
            if goes_on : bool then cleanup_loop k (S i) n st else Some st
  end.

(** [check_rc] is the result of [check_env]; [table] is [None] without a lock file,
    otherwise the slots and the length of the table; [memory] says whether the array for
    a long table can be allocated.  The array has 142 cells, or one more than the table. *)
Definition mvcc_cleanup_dead (check_rc : Z) (memory : bool) (table : option (list reader_slot_t * nat)) (rdt_locked : Z) :
  option reaping :=
    let start rc pids slots := mk_reaping rc 0 pids slots false rdt_locked 0 in
  if decide (check_rc <> MDBX_SUCCESS) then Some (start check_rc [] (default [] (fst <$> table)))
  else
    match table with
    | None => Some (start MDBX_SUCCESS [] [])
    | Some (slots, n) =>
        if (bool_decide (142 <= n)%nat && negb memory)%bool then Some (start MDBX_ENOMEM [] slots)
        else
          let room := if decide (n < 142)%nat then 142%nat else S n in
          cleanup_loop n 0 n (start MDBX_SUCCESS (replicate room 0) slots)
    end.

End Cleanup.
