(* ===== verification/ReaperProps.v ===== *)
(** * Theorems on the clearing of dead readers *)

From S2P Require Import Prelude Readers ReadersWriter ReadersInv ReadersSteps ReadersWorld Reaper.

(** ** The sorted array of processes *)

Definition pid_fits (pid : Z) : Prop := 0 < pid < 2 ^ 31.

(** The array holds the ids [ids], sorted, with the count in front and free cells behind. *)
Definition pids_hold (buf ids : list Z) : Prop :=
  (exists free, buf = Z.of_nat (length ids) :: ids ++ free) /\ StronglySorted Z.lt ids /\ Forall pid_fits ids.

Lemma i32_small x : - 2 ^ 31 <= x < 2 ^ 31 -> i32 x = x.
Proof. intros ?. unfold i32. rewrite Z.mod_small; lia. Qed.

Lemma sorted_lookup_lt (ids : list Z) i j x y :
  StronglySorted Z.lt ids -> ids !! i = Some x -> ids !! j = Some y -> (i < j)%nat -> x < y.
Proof.
  intros Hs. revert i j. induction Hs as [|z ids Hs IH Hz]; intros i j Hi Hj Hij; [done|].
  destruct j as [|j]; [lia|]. destruct i as [|i]; simplify_eq/=.
  - rewrite Forall_lookup in Hz. eauto.
  - eapply IH; eauto; lia.
Qed.

Lemma pid_search_spec buf ids free pid fuel base cursor val n :
  buf = Z.of_nat (length ids) :: ids ++ free -> StronglySorted Z.lt ids -> Forall pid_fits ids -> pid_fits pid ->
  (n < fuel)%nat -> (base + n <= length ids)%nat ->
  (n = 0%nat -> (if decide (val > 0) then S cursor else cursor) = S base) ->
  Forall (fun x => x < pid) (take base ids) -> Forall (fun x => pid < x) (drop (base + n) ids) ->
  (pid ∈ ids /\ pid_search fuel buf pid base cursor val n = Some Duplicate) \/
  exists b cur v, pid_search fuel buf pid base cursor val n = Some (Position cur v) /\
  (if decide (v > 0) then S cur else cur) = S b /\ (b <= length ids)%nat /\
  Forall (fun x => x < pid) (take b ids) /\ Forall (fun x => pid < x) (drop b ids).
Proof.
  intros -> Hs Hf Hp. revert base cursor val n. induction fuel as [|fuel IH]; intros base cursor val n Hfu Hn Hc Hlo Hhi; [lia|].
  cbn [pid_search]. destruct (decide (0 < n)%nat) as [Hpos|Hz].
  - pose proof (half_lt n Hpos) as Hh. set (p := half n) in *. clearbody p. unfold rd.
    destruct (ids !! (base + p)%nat) as [x|] eqn:Hx; [|apply lookup_ge_None in Hx; lia].
    replace ((_ :: ids ++ free) !! (base + p + 1)%nat) with (Some x).
    2:{ replace (base + p + 1)%nat with (S (base + p)) by lia.
      rewrite lookup_cons_ne_0 by lia. cbn. by rewrite lookup_app, Hx. }
    cbn. assert (pid_fits x) as Hxf by (rewrite Forall_lookup in Hf; eauto).
    rewrite i32_small by (unfold pid_fits in *; lia).
    destruct (decide (pid - x < 0)) as [Hlt|Hge]; [|destruct (decide (pid - x > 0)) as [Hgt|Heq]].
    + apply IH; auto; try lia. { intros Hp0. rewrite decide_False by lia. lia. }
      apply Forall_lookup. intros k y. rewrite lookup_drop. intros Hy.
      destruct k as [|k]; [rewrite Nat.add_0_r in Hy; simplify_eq; lia|].
      pose proof (sorted_lookup_lt ids _ _ x y Hs Hx Hy ltac:(lia)). lia.
    + apply IH; auto; try lia.
      * intros _. rewrite decide_True by lia. lia.
      * apply Forall_lookup. intros k y Hy. apply lookup_take_Some in Hy as [Hy Hk].
        destruct (decide (k = base + p)%nat) as [->|]; [simplify_eq; lia|].
        pose proof (sorted_lookup_lt ids _ _ y x Hs Hy Hx ltac:(lia)). lia.
      * replace (base + p + 1 + (n - (p + 1)))%nat with (base + n)%nat by lia. done.
    + left. split; [|done]. replace pid with x by lia. by apply list_elem_of_lookup_2 with (base + p)%nat.
  - right. exists base, cursor, val. replace (base + n)%nat with base in * by lia.
    split; [done|]. split; [apply Hc; lia|]. split; [lia|done].
Qed.

Lemma pid_shift_spec (a b : list Z) x rest pid :
  exists buf, pid_shift (a ++ b ++ x :: rest) (length a + length b) (length a) = Some buf /\
  length buf = length (a ++ b ++ x :: rest) /\ <[length a := pid]> buf = a ++ pid :: b ++ rest.
Proof.
  revert x rest. induction b as [|z b IH] using rev_ind; intros x rest.
  - exists (a ++ x :: rest). cbn. rewrite Nat.add_0_r. split; [|split; [done|]].
    + destruct (length a) as [|n] eqn:E; cbn; [done|]. rewrite decide_False by lia. done.
    + rewrite insert_app_r_alt by done. by rewrite Nat.sub_diag.
  - rewrite length_app. cbn. replace (length a + (length b + 1))%nat with (S (length a + length b)) by lia.
    cbn. rewrite decide_True by lia. unfold rd.
    rewrite lookup_app_r, lookup_app_l, lookup_app_r by (rewrite ?length_app; cbn; lia).
    replace (length a + length b - length a - length b)%nat with 0%nat by lia. cbn.
    rewrite wr_Some by (rewrite !length_app; cbn; lia). cbn.
    destruct (IH z (z :: rest)) as (buf & H1 & H2 & H3). exists buf.
    split; [|split].
    + rewrite <- H1. f_equal.
      replace (a ++ (b ++ [z]) ++ x :: rest) with ((a ++ b ++ [z]) ++ x :: rest) by (by rewrite <- !app_assoc).
      replace (S (length a + length b)) with (length (a ++ b ++ [z]) + 0)%nat by (rewrite !length_app; cbn; lia).
      rewrite insert_app_r. cbn. by rewrite <- !app_assoc.
    + rewrite H2, !length_app. cbn. rewrite ?length_app. cbn. rewrite ?length_app. cbn. lia.
    + rewrite H3. by rewrite <- !app_assoc.
Qed.

Lemma sorted_around (lo hi : list Z) pid :
  StronglySorted Z.lt (lo ++ hi) -> Forall (fun x => x < pid) lo -> Forall (fun x => pid < x) hi ->
  StronglySorted Z.lt (lo ++ pid :: hi).
Proof.
  intros Hs Hlo Hhi. induction lo as [|x lo IH]; cbn in *; [by constructor|].
  inversion Hs as [|? ? Hs' Hx]; subst. inversion Hlo; subst.
  constructor; [by apply IH|]. apply Forall_app in Hx as [? ?]. apply Forall_app. split; [done|by constructor].
Qed.

Lemma pid_insert_spec buf ids pid :
  pids_hold buf ids -> pid_fits pid -> (S (length ids) < length buf)%nat ->
  (pid ∈ ids /\ pid_insert buf pid = Some (false, buf)) \/
  ((pid ∉ ids) /\ exists buf' ids', pid_insert buf pid = Some (true, buf') /\ pids_hold buf' ids' /\
    ids' ≡ₚ pid :: ids /\ length buf' = length buf).
Proof.
  intros ((free & Hbuf) & Hs & Hf) Hp Hroom. unfold pid_insert.
  replace (rd buf 0) with (Some (Z.of_nat (length ids))) by (by rewrite Hbuf). cbn -[pid_search pid_shift Z.of_nat].
  rewrite Nat2Z.id.
  destruct (pid_search_spec buf ids free pid (S (length ids)) 0 1 0 (length ids)) as [[Hin ->]|(b & cur & v & -> & Hc & Hb & Hlo & Hhi)];
    try done; try lia.
  { by rewrite Nat.add_0_l, drop_all. }
  { by left. }
  right. cbn -[pid_shift Z.of_nat]. rewrite Hc. split.
  { intros Hin. rewrite <- (take_drop b ids), elem_of_app in Hin. rewrite !Forall_forall in *.
    destruct Hin as [Hin|Hin]; [apply Hlo in Hin|apply Hhi in Hin]; lia. }
  destruct free as [|y free]; [rewrite Hbuf in Hroom; cbn in Hroom; rewrite app_nil_r in Hroom; lia|].
  rewrite wr_Some by lia. cbn -[pid_shift Z.of_nat].
  replace (Z.to_nat (Z.of_nat (length ids) + 1)) with (S (length ids)) by lia.
  assert (Hsplit : <[0%nat := Z.of_nat (length ids) + 1]> buf =
    ((Z.of_nat (length ids) + 1) :: take b ids) ++ drop b ids ++ y :: free).
  { rewrite Hbuf. cbn -[Z.of_nat]. by rewrite app_assoc, take_drop. }
  rewrite Hsplit. destruct (pid_shift_spec ((Z.of_nat (length ids) + 1) :: take b ids) (drop b ids) y free pid) as (buf' & H1 & H2 & H3).
  assert (Hla : length ((Z.of_nat (length ids) + 1) :: take b ids) = S b) by (cbn; rewrite length_take; lia).
  rewrite Hla in *. replace (S b + length (drop b ids))%nat with (S (length ids)) in H1 by (rewrite length_drop; lia).
  rewrite H1. cbn -[Z.of_nat].
  assert (Hlen : length buf' = length buf) by (rewrite H2, <- Hsplit; apply length_insert).
  replace (Nat.min (length ids) b) with b by lia. rewrite wr_Some by lia. cbn -[Z.of_nat].
  exists (<[S b := pid]> buf'), (take b ids ++ pid :: drop b ids). rewrite H3.
  split; [done|]. split; [split; [|split]|split].
  - exists free. rewrite length_app. cbn -[Z.of_nat]. rewrite <- app_assoc. cbn -[Z.of_nat]. f_equal.
    rewrite length_take, length_drop. lia.
  - apply sorted_around; [by rewrite take_drop|done..].
  - rewrite <- (take_drop b ids) in Hf. apply Forall_app in Hf as [? ?]. apply Forall_app. split; [done|by constructor].
  - by rewrite <- (take_drop b ids) at 3; rewrite Permutation_middle.
  - by rewrite <- H3, length_insert.
Qed.

(** ** Clearing *)

(** The clearing of a slot, if [p] holds for its process. *)
Definition cleared (p : Z -> bool) (x : reader_slot_t) : reader_slot_t := if p (sl_pid x) then set_pid 0 x else x.
Definition count (p : Z -> bool) (l : list reader_slot_t) : nat := length (filter (fun x => p (sl_pid x)) l).

Lemma count_cons p x l : count p (x :: l) = if p (sl_pid x) then S (count p l) else count p l.
Proof. unfold count. rewrite filter_cons. by destruct (p (sl_pid x)). Qed.

Lemma clean_pid_spec l pid :
  clean_pid l pid = (cleared (fun q => bool_decide (q = pid)) <$> l, count (fun q => bool_decide (q = pid)) l).
Proof.
  induction l as [|x l IH]; [done|]. cbn [clean_pid]. rewrite IH, fmap_cons, count_cons. unfold cleared at 3.
  destruct (decide (sl_pid x = pid)) as [E|E].
  - by rewrite bool_decide_eq_true_2.
  - by rewrite bool_decide_eq_false_2.
Qed.

Lemma cleared_none p l : (forall x, x ∈ l -> p (sl_pid x) = false) -> cleared p <$> l = l /\ count p l = 0%nat.
Proof.
  induction l as [|x l IH]; intros H; [done|]. rewrite fmap_cons, count_cons. unfold cleared at 1.
  rewrite H by constructor. destruct IH as [-> ->]; [|done]. intros y Hy. apply H. by constructor.
Qed.

Lemma cleared_ext p q l :
  (forall x, x ∈ l -> p (sl_pid x) = q (sl_pid x)) -> cleared p <$> l = cleared q <$> l /\ count p l = count q l.
Proof.
  induction l as [|x l IH]; intros H; [done|]. rewrite !fmap_cons, !count_cons. unfold cleared at 1 3.
  rewrite H by constructor. destruct IH as [-> ->]; [|done]. intros y Hy. apply H. by constructor.
Qed.

(** Clearing a process after others is clearing all of them. *)
Lemma cleared_more p q l :
  p q = false -> q <> 0 ->
  cleared (fun z => bool_decide (z = q)) <$> (cleared p <$> l) = cleared (fun z => (bool_decide (z = q) || p z)%bool) <$> l /\
  (count p l + count (fun z => bool_decide (z = q)) (cleared p <$> l) = count (fun z => (bool_decide (z = q) || p z)%bool) l)%nat.
Proof.
  intros Hp Hq. induction l as [|x l [IH1 IH2]]; [done|]. rewrite !fmap_cons, !count_cons, IH1.
  destruct (p (sl_pid x)) eqn:E.
  - assert (cleared p x = set_pid 0 x) as -> by (unfold cleared; by rewrite E).
    rewrite orb_true_r. unfold cleared at 1 3. cbn. rewrite E, orb_true_r, bool_decide_eq_false_2 by lia. split; [done|lia].
  - assert (cleared p x = x) as -> by (unfold cleared; by rewrite E).
    rewrite orb_false_r. unfold cleared at 1 3. rewrite E, orb_false_r. destruct (bool_decide _); split; (done || lia).
Qed.

Lemma count_app p l1 l2 : count p (l1 ++ l2) = (count p l1 + count p l2)%nat.
Proof. unfold count. by rewrite filter_app, length_app. Qed.

(** Clearing from [i] on suffices for a process that no earlier slot has. *)
Lemma clean_from_spec i n q st l tl :
  rp_slots st = l ++ tl -> length l = n -> (i <= n)%nat -> (forall x, x ∈ take i l -> sl_pid x <> q) ->
  let k := count (fun z => bool_decide (z = q)) l in
  clean_from i n q st =
    mk_reaping (rp_rc st) (rp_count st + k) (rp_pids st) ((cleared (fun z => bool_decide (z = q)) <$> l) ++ tl)
    (rp_refresh st || bool_decide (0 < k)%nat) (rp_locked st) (rp_calls st).
Proof.
  intros Hl Hn Hi Hno k. unfold clean_from. rewrite clean_pid_spec, Hl, take_app_length', drop_app_length' by done.
  rewrite take_app_le by lia.
  destruct (cleared_none (fun z => bool_decide (z = q)) (take i l)) as [Hc H0].
  { intros x Hx. apply bool_decide_eq_false_2. by apply Hno. }
  assert (k = count (fun z => bool_decide (z = q)) (drop i l)) as <-.
  { unfold k. rewrite <- (take_drop i l) at 1. rewrite count_app, H0. done. }
  f_equal. rewrite <- (take_drop i l) at 3. rewrite fmap_app, Hc. by rewrite <- app_assoc.
Qed.

Section Sweep.
Context (rpid_check : nat -> Z -> Z) (lock_result : Z) (meanwhile : list reader_slot_t -> list reader_slot_t).
Context (self locked : Z) (dead : Z -> bool) (slots : list reader_slot_t) (n : nat).
Context (Hcheck : forall k p, rpid_check k p = if dead p then MDBX_SUCCESS else MDBX_RESULT_TRUE).
Context (Hlock : locked = 0 -> lock_result = MDBX_SUCCESS /\ forall l, meanwhile l = l).
Context (Hn : (n <= length slots)%nat) (Hfit : forall x, x ∈ slots -> sl_pid x = 0 \/ pid_fits (sl_pid x)).

Definition found_dead (ids : list Z) (z : Z) : bool := (bool_decide (z ∈ ids) && dead z)%bool.

Record swept (i : nat) (ids : list Z) (st : reaping) : Prop := mk_swept {
  sw_pids : pids_hold (rp_pids st) ids;
  sw_room : (n < length (rp_pids st))%nat;
  sw_few : (length ids <= i)%nat;
  sw_slots : rp_slots st = (cleared (found_dead ids) <$> take n slots) ++ drop n slots;
  sw_count : rp_count st = count (found_dead ids) (take n slots);
  sw_refresh : rp_refresh st = bool_decide (0 < rp_count st)%nat;
  sw_rc : rp_rc st = MDBX_SUCCESS;
  sw_locked : rp_locked st <> 0 \/ rp_locked st = locked;
  sw_seen : forall x, x ∈ take i slots -> sl_pid x = 0 \/ sl_pid x = self \/ sl_pid x ∈ ids;
  sw_others : forall z, z ∈ ids -> z <> 0 /\ z <> self
}.

Lemma take_step i x : slots !! i = Some x -> forall y, y ∈ take (S i) slots -> y ∈ take i slots \/ y = x.
Proof. intros Hx y. rewrite (take_S_r slots i x Hx), elem_of_app, list_elem_of_singleton. done. Qed.

(** A slot that is passed over. *)
Lemma swept_skip i ids st x :
  slots !! i = Some x -> (sl_pid x = 0 \/ sl_pid x = self \/ sl_pid x ∈ ids) -> swept i ids st -> swept (S i) ids st.
Proof.
  intros Hx Hp []. constructor; auto.
  intros y Hy. by destruct (take_step i x Hx y Hy) as [?| ->]; auto.
Qed.

(** The state after the insertion of a process and the call that asks about it. *)
Lemma swept_new i ids ids' pids st x :
  slots !! i = Some x -> (i < n)%nat -> swept i ids st -> sl_pid x <> 0 -> sl_pid x <> self ->
  pids_hold pids ids' -> ids' ≡ₚ sl_pid x :: ids -> length pids = length (rp_pids st) -> sl_pid x ∉ ids ->
  let st' := rp_ask (rp_set_pids pids st) in
  (dead (sl_pid x) = false -> swept (S i) ids' st') /\
  (dead (sl_pid x) = true -> forall st'', st'' = st' \/ st'' = rp_ask (rp_lock meanwhile st') /\ (forall l, meanwhile l = l) ->
    swept (S i) ids' (clean_from i n (sl_pid x) st'')).
Proof.
  intros Hx Hi [] H0 Hself Hp Hperm Hlen Hnew st'.
  assert (Hin : forall z, z ∈ ids' <-> z = sl_pid x \/ z ∈ ids) by (intros z; by rewrite Hperm, elem_of_cons).
  assert (Hseen : forall y, y ∈ take (S i) slots -> sl_pid y = 0 \/ sl_pid y = self \/ sl_pid y ∈ ids').
  { intros y Hy. rewrite Hin. destruct (take_step i x Hx y Hy) as [Hy'| ->]; [|auto].
    destruct (sw_seen0 y Hy') as [?|[?|?]]; auto. }
  assert (Hoth : forall z, z ∈ ids' -> z <> 0 /\ z <> self) by (intros z Hz; apply Hin in Hz as [->|Hz]; auto).
  assert (Hfew : (length ids' <= S i)%nat) by (rewrite Hperm; cbn; lia).
  split.
  - intros Hd. assert (Hsame : forall z, found_dead ids z = found_dead ids' z).
    { intros z. unfold found_dead. destruct (decide (z = sl_pid x)) as [->|Hz]; [by rewrite Hd, !andb_false_r|].
      f_equal. apply bool_decide_ext. rewrite Hin. tauto. }
    destruct (cleared_ext (found_dead ids) (found_dead ids') (take n slots)) as [E1 E2]; [auto|].
    constructor; cbn; auto; try lia; congruence.
  - intros Hd st'' Hst.
    assert (Hs : rp_slots st'' = (cleared (found_dead ids) <$> take n slots) ++ drop n slots)
      by (destruct Hst as [->|[-> Hm]]; cbn; rewrite ?Hm; done).
    assert (rp_pids st'' = pids /\ rp_count st'' = rp_count st /\ rp_refresh st'' = rp_refresh st /\ rp_rc st'' = rp_rc st /\
      (rp_locked st'' <> 0 \/ rp_locked st'' = locked)) as (E1 & E2 & E3 & E4 & E5)
      by (destruct Hst as [->|[-> Hm]]; cbn; repeat split; auto; left; lia).
    assert (Hfalse : found_dead ids (sl_pid x) = false) by (unfold found_dead; by rewrite bool_decide_eq_false_2).
    destruct (cleared_more (found_dead ids) (sl_pid x) (take n slots)) as [C1 C2]; [done..|].
    destruct (cleared_ext (fun z => (bool_decide (z = sl_pid x) || found_dead ids z)%bool) (found_dead ids') (take n slots)) as [X1 X2].
    { intros y _. unfold found_dead. destruct (decide (sl_pid y = sl_pid x)) as [->|Hz].
      - rewrite Hd, (bool_decide_eq_true_2 (sl_pid x = sl_pid x)), (bool_decide_eq_true_2 (sl_pid x ∈ ids')) by (rewrite ?Hin; auto). done.
      - rewrite (bool_decide_eq_false_2 (sl_pid y = sl_pid x)) by done. cbn. f_equal. apply bool_decide_ext. rewrite Hin. tauto. }
    assert (Hno : forall y, y ∈ take i (cleared (found_dead ids) <$> take n slots) -> sl_pid y <> sl_pid x).
    { intros y Hy E. rewrite <- fmap_take, take_take, Nat.min_l in Hy by lia.
      apply list_elem_of_fmap in Hy as (y' & -> & Hy'). unfold cleared in E.
      destruct (found_dead ids (sl_pid y')); [by cbn in E; congruence|].
      destruct (sw_seen0 y' Hy') as [?|[?|?]]; congruence. }
    rewrite (clean_from_spec i n (sl_pid x) st'' _ _ Hs) by (done || rewrite ?length_fmap, ?length_take; lia).
    constructor; cbn; auto; rewrite ?E1, ?E2, ?E3, ?E4; auto; try congruence; try lia.
    rewrite sw_refresh0. apply eq_true_iff_eq. rewrite orb_true_iff, !bool_decide_eq_true. lia.
Qed.

(** A dead process stays dead when it is asked about again. *)
Lemma stale_found_dead i st x :
  rp_slots st !! i = Some x -> dead (sl_pid x) = true -> rp_locked st <> 0 \/ rp_locked st = locked ->
  exists st', (st' = st \/ st' = rp_ask (rp_lock meanwhile st) /\ (forall l, meanwhile l = l)) /\
  stale_found rpid_check lock_result meanwhile i n (sl_pid x) st = Some (true, clean_from i n (sl_pid x) st').
Proof.
  intros Hx Hd Hl. unfold stale_found. destruct (decide (rp_locked st = 0)) as [H0|H0]; [|by eauto].
  destruct Hl as [?|Hl]; [done|]. destruct Hlock as [-> Hm]; [lia|]. exists (rp_ask (rp_lock meanwhile st)). split; [by auto|].
  assert (rp_slots (rp_lock meanwhile st) !! i = Some x) as -> by (cbn; by rewrite Hm).
  change (is_error MDBX_SUCCESS) with false. cbn -[clean_from].
  rewrite (decide_False (P := sl_pid x <> sl_pid x)), Hcheck, Hd by tauto. done.
Qed.

Lemma swept_loop k : forall i ids st,
  (i + k = n)%nat -> swept i ids st ->
  exists ids' st', cleanup_loop rpid_check lock_result meanwhile self k i n st = Some st' /\ swept n ids' st'.
Proof.
  induction k as [|k IH]; intros i ids st Hk Hw; cbn [cleanup_loop].
  { replace n with i in * by lia. eauto. }
  destruct (slots !! i) as [y|] eqn:Hy; [|apply lookup_ge_None in Hy; lia].
  assert (Hcur : rp_slots st !! i = Some (cleared (found_dead ids) y)).
  { rewrite (sw_slots _ _ _ Hw), lookup_app_l, list_lookup_fmap, lookup_take_lt, Hy by
      (rewrite ?length_fmap, ?length_take; lia). done. }
  rewrite Hcur. cbn [mbind option_bind]. unfold cleared. destruct (found_dead ids (sl_pid y)) eqn:Hf.
  { cbn. apply (IH (S i) ids); [lia|]. apply (swept_skip i ids st y); auto.
    unfold found_dead in Hf. apply andb_true_iff in Hf as [Hf _]. apply bool_decide_eq_true in Hf. auto. }
  destruct (decide (sl_pid y = 0)); [apply (IH (S i) ids); [lia|]; apply (swept_skip i ids st y); auto|].
  destruct (decide (sl_pid y = self)); [apply (IH (S i) ids); [lia|]; apply (swept_skip i ids st y); auto|].
  assert (Hpf : pid_fits (sl_pid y)) by (destruct (Hfit y); [by apply list_elem_of_lookup_2 with i|done..]).
  destruct (pid_insert_spec (rp_pids st) ids (sl_pid y)) as [[Hin ->]|(Hnew & pids & ids' & -> & Hp & Hperm & Hlen)];
    [apply Hw|done|pose proof (sw_few _ _ _ Hw); pose proof (sw_room _ _ _ Hw); lia|..]; cbn.
  { apply (IH (S i) ids); [lia|]. apply (swept_skip i ids _ y); auto. by destruct st, Hw. }
  destruct (swept_new i ids ids' pids st y) as [Hlive Hdead]; auto; [lia|].
  rewrite Hcheck. destruct (dead (sl_pid y)) eqn:Hd; cbn; [|apply (IH (S i) ids'); [lia|by apply Hlive]].
  destruct (stale_found_dead i (rp_ask (rp_set_pids pids st)) y) as (st'' & Hst & ->); auto.
  { cbn. rewrite Hcur. unfold cleared. by rewrite Hf. }
  { cbn. apply Hw. }
  cbn [mbind option_bind]. apply (IH (S i) ids'); [lia|by apply Hdead].
Qed.

Lemma sweep :
  exists st, mvcc_cleanup_dead rpid_check lock_result meanwhile self MDBX_SUCCESS true (Some (slots, n)) locked = Some st /\
  rp_rc st = MDBX_SUCCESS /\
  rp_slots st = (cleared (fun z => (negb (bool_decide (z = 0 \/ z = self)) && dead z)%bool) <$> take n slots) ++ drop n slots /\
  rp_count st = count (fun z => (negb (bool_decide (z = 0 \/ z = self)) && dead z)%bool) (take n slots) /\
  rp_refresh st = bool_decide (0 < rp_count st)%nat.
Proof.
  unfold mvcc_cleanup_dead. rewrite decide_False by tauto. rewrite andb_false_r.
  set (room := if decide _ then _ else _).
  assert (Hroom : (n < room)%nat) by (unfold room; destruct (decide _); lia).
  destruct (cleared_none (found_dead []) (take n slots)) as [C1 C2]; [done|].
  destruct (swept_loop n 0 [] (mk_reaping MDBX_SUCCESS 0 (replicate room 0) slots false locked 0)) as (ids & st & E & Hw); [lia|..].
  { constructor; cbn; auto; rewrite ?length_replicate; try done.
    - split; [|split; constructor]. destruct room as [|room']; [lia|]. by exists (replicate room' 0).
    - by rewrite C1, take_drop.
    - intros x Hx. by apply elem_of_nil in Hx.
    - intros z Hz. by apply elem_of_nil in Hz. }
  exists st. split; [done|]. split; [apply Hw|].
  destruct (cleared_ext (found_dead ids) (fun z => (negb (bool_decide (z = 0 \/ z = self)) && dead z)%bool) (take n slots)) as [E1 E2].
  { intros x Hx. unfold found_dead. destruct (dead (sl_pid x)); [|by rewrite !andb_false_r]. rewrite !andb_true_r.
    rewrite <- bool_decide_not. apply bool_decide_ext. split; [intros Hz; apply (sw_others _ _ _ Hw) in Hz; tauto|].
    intros Hz. destruct (sw_seen _ _ _ Hw x Hx) as [?|[?|?]]; tauto. }
  rewrite <- E1, <- E2. split; [apply Hw|]. split; apply Hw.
Qed.

End Sweep.

(** Under the lock there is no way to the result MDBX_RESULT_TRUE. *)
Lemma locked_result rpid_check lock_result meanwhile self k : forall i n st st',
  rp_locked st <> 0 -> rp_rc st <> MDBX_RESULT_TRUE ->
  cleanup_loop rpid_check lock_result meanwhile self k i n st = Some st' -> rp_rc st' <> MDBX_RESULT_TRUE.
Proof.
  induction k as [|k IH]; intros i n st st' Hl Hr; cbn [cleanup_loop]; [by intros [= <-]|].
  destruct (rp_slots st !! i) as [x|]; [|done]. cbn [mbind option_bind].
  destruct (decide (sl_pid x = 0)); [by apply IH|]. destruct (decide (sl_pid x = self)); [by apply IH|].
  destruct (pid_insert (rp_pids st) (sl_pid x)) as [[[] pids]|]; [| |done]; cbn [mbind option_bind negb]; [|by apply IH].
  cbn [rp_calls rp_set_pids]. set (err := rpid_check _ _).
  destruct (decide (err = MDBX_RESULT_TRUE)); [by apply IH|]. destruct (decide (err <> MDBX_SUCCESS)); [by intros [= <-]|].
  unfold stale_found. rewrite decide_False by done. cbn [mbind option_bind].
  apply IH; unfold clean_from; by destruct (clean_pid _ _).
Qed.

(** ** Claims *)

(** [pid_insert] keeps the array of processes a sorted set: it finds a process that
    is in the array and leaves the array alone, and puts a new one at its place, the count
    and the order being kept, as long as a cell is free. *)
Theorem pid_insert_correct buf ids pid :
  pids_hold buf ids -> pid_fits pid -> (S (length ids) < length buf)%nat ->
  (pid ∈ ids /\ pid_insert buf pid = Some (false, buf)) \/
  ((pid ∉ ids) /\ exists buf' ids', pid_insert buf pid = Some (true, buf') /\ pids_hold buf' ids' /\
    ids' ≡ₚ pid :: ids /\ length buf' = length buf).
Proof. apply pid_insert_spec. Qed.

Lemma pid_insert_correct_witness :
  pid_insert [3; 10; 20; 30; 0; 0] 25 = Some (true, [4; 10; 20; 25; 30; 0]) /\
  (25 ∈ [10; 20; 30] /\ pid_insert [3; 10; 20; 30; 0; 0] 25 = Some (false, [3; 10; 20; 30; 0; 0]) \/
    (25 ∉ [10; 20; 30]) /\ exists buf' ids', pid_insert [3; 10; 20; 30; 0; 0] 25 = Some (true, buf') /\ pids_hold buf' ids' /\
    ids' ≡ₚ [25; 10; 20; 30] /\ length buf' = length [3; 10; 20; 30; 0; 0]).
Proof.
  split; [vm_compute; reflexivity|].
  apply (pid_insert_correct [3; 10; 20; 30; 0; 0] [10; 20; 30] 25).
  - split; [by exists [0; 0]|]. split; repeat constructor; lia.
  - unfold pid_fits. lia.
  - cbn. lia.
Defined.

(** The clearing of dead readers: when the system answers for each process whether
    it is dead (and the lock, if it has to be taken, is got without a change of the table),
    exactly the slots of dead processes other than the caller lose their process, all of
    them, whatever the order of the slots; the count is theirs, a refresh of the oldest
    snapshot is asked for just when there is one, the array of processes never runs out
    of cells, and the result is MDBX_SUCCESS. *)
Theorem cleanup_dead_correct rpid_check lock_result meanwhile self locked (dead : Z -> bool) slots n :
  (forall k p, rpid_check k p = if dead p then MDBX_SUCCESS else MDBX_RESULT_TRUE) ->
  (locked = 0 -> lock_result = MDBX_SUCCESS /\ forall l, meanwhile l = l) ->
  (n <= length slots)%nat -> (forall x, x ∈ slots -> sl_pid x = 0 \/ pid_fits (sl_pid x)) ->
  let gone z := (negb (bool_decide (z = 0 \/ z = self)) && dead z)%bool in
  exists st, mvcc_cleanup_dead rpid_check lock_result meanwhile self MDBX_SUCCESS true (Some (slots, n)) locked = Some st /\
  rp_rc st = MDBX_SUCCESS /\ rp_slots st = (cleared gone <$> take n slots) ++ drop n slots /\
  rp_count st = count gone (take n slots) /\ rp_refresh st = bool_decide (0 < rp_count st)%nat.
Proof. intros. by apply sweep. Qed.

Definition taken_by (pid : Z) : reader_slot_t := mk_slot 7 1 pid 0 0.
Definition check_by (dead : Z -> bool) (k : nat) (p : Z) : Z := if dead p then MDBX_SUCCESS else MDBX_RESULT_TRUE.

Lemma cleanup_dead_correct_witness :
  let dead z := bool_decide (z = 5 \/ z = 9) in
  let slots := taken_by <$> [5; 3; 9; 5; 0; 8; 9] in
  let gone z := (negb (bool_decide (z = 0 \/ z = 8)) && dead z)%bool in
  (exists st, mvcc_cleanup_dead (check_by dead) MDBX_SUCCESS (fun l => l) 8 MDBX_SUCCESS true (Some (slots, 6%nat)) 0 = Some st /\
    sl_pid <$> rp_slots st = [0; 3; 0; 0; 0; 8; 9] /\ rp_count st = 3%nat) /\
  exists st, mvcc_cleanup_dead (check_by dead) MDBX_SUCCESS (fun l => l) 8 MDBX_SUCCESS true (Some (slots, 6%nat)) 0 = Some st /\
  rp_rc st = MDBX_SUCCESS /\ rp_slots st = (cleared gone <$> take 6 slots) ++ drop 6 slots /\
  rp_count st = count gone (take 6 slots) /\ rp_refresh st = bool_decide (0 < rp_count st)%nat.
Proof.
  intros dead slots gone. split.
  - eexists. split; [vm_compute; reflexivity|]. vm_compute. split; reflexivity.
  - apply (cleanup_dead_correct (check_by dead) MDBX_SUCCESS (fun l => l) 8 0 dead slots 6).
    + done.
    + done.
    + cbn. lia.
    + intros x Hx. apply list_elem_of_fmap in Hx as (p & -> & Hp). cbn. unfold pid_fits.
      repeat (apply elem_of_cons in Hp as [->|Hp]; [lia|]). by apply elem_of_nil in Hp.
Defined.

(** C39. A full table of readers stays full for the caller of [mvcc_bind_slot]: that
    function looks for a slot again only after MDBX_RESULT_TRUE, and the clearing of dead
    readers under the lock, whatever the system answers, never returns this.  So the call
    fails, with MDBX_READERS_FULL when the clearing succeeded, however many slots were
    freed. *)
Theorem freed_slots_not_taken rpid_check lock_result meanwhile self check_rc memory table st txkey mr me g t :
  check_rc <> MDBX_RESULT_TRUE ->
  mvcc_cleanup_dead rpid_check lock_result meanwhile self check_rc memory table 1 = Some st ->
  exists err, err <> MDBX_SUCCESS /\ (rp_rc st = MDBX_SUCCESS -> err = MDBX_READERS_FULL) /\
  bind_slot_step txkey mr me g (Ret (rp_rc st)) t B_cleanup = Some (set_pc (Bind (B_unlock err)) t, Keep).
Proof.
  intros Hc H. assert (Hr : rp_rc st <> MDBX_RESULT_TRUE).
  { unfold mvcc_cleanup_dead in H. destruct (decide (check_rc <> MDBX_SUCCESS)); [by injection H as <-|].
    destruct table as [[slots len]|]; [|by injection H as <-].
    destruct (_ && _)%bool; [by injection H as <-|]. by eapply locked_result in H. }
  exists (if decide (rp_rc st = MDBX_SUCCESS) then MDBX_READERS_FULL else rp_rc st).
  split; [destruct (decide _); done|]. split; [intros E; by rewrite decide_True|].
  cbn [bind_slot_step]. by rewrite (decide_False (P := rp_rc st = MDBX_RESULT_TRUE)).
Qed.

Lemma freed_slots_not_taken_witness :
  let dead z := bool_decide (z = 5) in
  let g := mk_lck (let h := mk_snapshot 10 100 5 in mk_metas h h) 0 0 2 0 (taken_by <$> [5; 3]) (Some 0%nat) in
  exists st, mvcc_cleanup_dead (check_by dead) MDBX_SUCCESS (fun l => l) 8 MDBX_SUCCESS true (Some (rdt g, 2%nat)) 1 = Some st /\
  rp_rc st = MDBX_SUCCESS /\ sl_pid <$> rp_slots st = [0; 3] /\
  exists err, err <> MDBX_SUCCESS /\ (rp_rc st = MDBX_SUCCESS -> err = MDBX_READERS_FULL) /\
  bind_slot_step true 2 0 g (Ret (rp_rc st)) (fresh_txn 8 1) B_cleanup = Some (set_pc (Bind (B_unlock err)) (fresh_txn 8 1), Keep).
Proof.
  intros dead g. eexists. split; [vm_compute; reflexivity|]. split; [reflexivity|]. split; [reflexivity|].
  eapply (freed_slots_not_taken (check_by dead) MDBX_SUCCESS (fun l => l) 8 MDBX_SUCCESS true (Some (rdt g, 2%nat))).
  - done.
  - vm_compute. reflexivity.
Defined.
