(* ===== verification/Loose.v ===== *)
(** * Loose, reusable and retired pages of a write transaction

    The life of a page inside a write transaction, of mdbx.c: a new page is taken
    from the loose pages or from [repnl] and put on the list of dirty pages
    ([page_dirty]); a page that is no longer needed is retired, put on the chain
    of loose pages, returned to [repnl], or given back to the space behind
    [first_unallocated] ([page_retire_ex]); and [txn_refund] lowers
    [first_unallocated] over the pages in front of it that are loose or in
    [repnl].  The headers of pages are a map from their addresses, and the chain
    of loose pages is linked through them, as in the source; the chain of the
    pages kept for reuse is the list of the file Dpl.  The address of a null
    pointer is [None].  [MDBX_PAGEPERTURB] is off, so [page_kill] is not called. *)

From S2P Require Import Prelude Search Sort Radix Meta Page Pnl Dpl Repnl.

Definition P_BAD : Z := 0x10.
Definition P_LOOSE : Z := 0x4000.
Definition P_FROZEN : Z := 0x8000.
Definition INT_MAX : Z := 2 ^ 31 - 1.

Record page_head := mk_head { h_txnid : Z; h_flags : Z; h_pgno : Z; h_pages : Z; page_next : option page_ptr }.

(** What a parent transaction is asked for: its dirty and its spilled pages. *)
Record parent_txn := mk_parent { p_dirtylist : dpl_t; p_spilled : option (list Z) }.

Record wr_txn := mk_wr {
  dirty : dtxn;
  heads : page_ptr -> page_head;
  txnid : Z;
  front_txnid : Z;
  txn_error : bool;
  first_unallocated : Z;
  repnl : pnl_t;
  retired_pages : option pnl_t;
  spilled_list : option (list Z);
  least_removed : Z;
  loose_pages : option page_ptr;
  loose_count : Z;
  loose_refund_wl : Z;
  dp_loose_limit : Z;
  parents : list parent_txn
}.

Definition dlist (t : wr_txn) : dpl_t := dirtylist (dirty t).

(** ** Assignments to the fields *)

Definition with_dirty (t : wr_txn) (d : dtxn) : wr_txn :=
  mk_wr d (heads t) (txnid t) (front_txnid t) (txn_error t) (first_unallocated t) (repnl t) (retired_pages t)
    (spilled_list t) (least_removed t) (loose_pages t) (loose_count t) (loose_refund_wl t) (dp_loose_limit t) (parents t).
Definition with_dlist (t : wr_txn) (dl : dpl_t) : wr_txn := with_dirty t (with_dirtylist (dirty t) dl).
Definition with_head (t : wr_txn) (p : page_ptr) (h : page_head) : wr_txn :=
  mk_wr (dirty t) (fun q => if decide (q = p) then h else heads t q) (txnid t) (front_txnid t) (txn_error t)
    (first_unallocated t) (repnl t) (retired_pages t) (spilled_list t) (least_removed t) (loose_pages t)
    (loose_count t) (loose_refund_wl t) (dp_loose_limit t) (parents t).
Definition with_error (t : wr_txn) : wr_txn :=
  mk_wr (dirty t) (heads t) (txnid t) (front_txnid t) true (first_unallocated t) (repnl t) (retired_pages t)
    (spilled_list t) (least_removed t) (loose_pages t) (loose_count t) (loose_refund_wl t) (dp_loose_limit t) (parents t).
Definition with_unallocated (t : wr_txn) (fu : Z) : wr_txn :=
  mk_wr (dirty t) (heads t) (txnid t) (front_txnid t) (txn_error t) fu (repnl t) (retired_pages t)
    (spilled_list t) (least_removed t) (loose_pages t) (loose_count t) (loose_refund_wl t) (dp_loose_limit t) (parents t).
Definition with_repnl (t : wr_txn) (p : pnl_t) : wr_txn :=
  mk_wr (dirty t) (heads t) (txnid t) (front_txnid t) (txn_error t) (first_unallocated t) p (retired_pages t)
    (spilled_list t) (least_removed t) (loose_pages t) (loose_count t) (loose_refund_wl t) (dp_loose_limit t) (parents t).
Definition with_retired (t : wr_txn) (p : option pnl_t) : wr_txn :=
  mk_wr (dirty t) (heads t) (txnid t) (front_txnid t) (txn_error t) (first_unallocated t) (repnl t) p
    (spilled_list t) (least_removed t) (loose_pages t) (loose_count t) (loose_refund_wl t) (dp_loose_limit t) (parents t).
Definition with_spilled (t : wr_txn) (sl : list Z) (least : Z) : wr_txn :=
  mk_wr (dirty t) (heads t) (txnid t) (front_txnid t) (txn_error t) (first_unallocated t) (repnl t) (retired_pages t)
    (Some sl) least (loose_pages t) (loose_count t) (loose_refund_wl t) (dp_loose_limit t) (parents t).
Definition with_loose (t : wr_txn) (lp : option page_ptr) (count : Z) : wr_txn :=
  mk_wr (dirty t) (heads t) (txnid t) (front_txnid t) (txn_error t) (first_unallocated t) (repnl t) (retired_pages t)
    (spilled_list t) (least_removed t) lp count (loose_refund_wl t) (dp_loose_limit t) (parents t).
Definition with_refund_wl (t : wr_txn) (wl : Z) : wr_txn :=
  mk_wr (dirty t) (heads t) (txnid t) (front_txnid t) (txn_error t) (first_unallocated t) (repnl t) (retired_pages t)
    (spilled_list t) (least_removed t) (loose_pages t) (loose_count t) wl (dp_loose_limit t) (parents t).
Definition with_parents (t : wr_txn) (ps : list parent_txn) : wr_txn :=
  mk_wr (dirty t) (heads t) (txnid t) (front_txnid t) (txn_error t) (first_unallocated t) (repnl t) (retired_pages t)
    (spilled_list t) (least_removed t) (loose_pages t) (loose_count t) (loose_refund_wl t) (dp_loose_limit t) ps.

Definition set_head_txnid (t : wr_txn) (p : page_ptr) (v : Z) : wr_txn :=
  let h := heads t p in with_head t p (mk_head v (h_flags h) (h_pgno h) (h_pages h) (page_next h)).
Definition set_head_flags (t : wr_txn) (p : page_ptr) (v : Z) : wr_txn :=
  let h := heads t p in with_head t p (mk_head (h_txnid h) v (h_pgno h) (h_pages h) (page_next h)).
Definition set_page_next (t : wr_txn) (p : page_ptr) (v : option page_ptr) : wr_txn :=
  let h := heads t p in with_head t p (mk_head (h_txnid h) (h_flags h) (h_pgno h) (h_pages h) v).

(** [page_shadow_release] with the environment of the transaction *)
Definition shadow_release (t : wr_txn) (p : page_ptr) (n_pages : Z) : wr_txn :=
  let d := dirty t in
  with_dirty t (mk_dtxn (dirtylist d) (dirtylru d) (dirtyroom d) (lru_stamp d) (page_shadow_release (txn_env d) p n_pages)).

(** [dirtyroom += n] *)
Definition add_dirtyroom (t : wr_txn) (n : Z) : wr_txn :=
  let d := dirty t in with_dirty t (mk_dtxn (dirtylist d) (dirtylru d) (u64 (dirtyroom d + n)) (lru_stamp d) (txn_env d)).
Definition with_pages (dl : dpl_t) (pages : Z) : dpl_t :=
  mk_dpl (sorted dl) (dl_length dl) pages (detent dl) (items dl).

(** [page_wash] with the header of the page *)
Definition wash (t : wr_txn) (di : nat) (mp : page_ptr) (n_pages : Z) : option wr_txn :=
  let t := set_head_flags (set_head_txnid t mp INVALID_TXNID) mp P_BAD in
  d ← page_wash (dirty t) di mp n_pages; Some (with_dirty t d).

(** ** The state of a page *)

Definition is_frozen (t : wr_txn) (mp : page_ptr) : bool := h_txnid (heads t mp) <? txnid t.
Definition is_spilled (t : wr_txn) (mp : page_ptr) : bool := h_txnid (heads t mp) =? txnid t.
Definition is_shadowed (t : wr_txn) (mp : page_ptr) : bool := h_txnid (heads t mp) >? txnid t.
Definition is_modifable (t : wr_txn) (mp : page_ptr) : bool := h_txnid (heads t mp) =? front_txnid t.

Definition suitable4loose (t : wr_txn) (pgno : Z) : bool :=
  bool_decide (loose_count t < dp_loose_limit t) &&
    (bool_decide (first_unallocated t > u32 (pgno + dp_loose_limit t)) ||
      bool_decide (first_unallocated t <= dp_loose_limit t)).

Inductive page_status := frozen | spilled | shadowed | modifable.

#[export] Instance page_status_eq_dec : EqDecision page_status.
Proof. solve_decision. Defined.

Section ops.
Context (malloc : Z -> option Z) (have_cmov : bool).

(** ** Spilled pages

    [2 * pgno] for a spilled page, with the lowest bit set when it is no longer
    spilled. *)

Definition spill_search (spilled : option (list Z)) (pgno : Z) : option nat :=
  match spilled with
  | None => Some O
  | Some pnl =>
      let pgno := u32 (Z.shiftl pgno 1) in
      n ← pnl_search have_cmov pnl pgno;
      if decide (n <= pnl_size pnl)%nat then x ← rd pnl n; Some (if decide (x = pgno) then n else O) else Some O
  end.

(** [spilled.list[idx] |= 1], and the last cell is dropped. *)
Definition spill_mark (sl : list Z) (idx : nat) : option (list Z) :=
  x ← rd sl idx;
  sl ← wr sl idx (Z.lor x 1);
  pnl_setsize sl (pnl_size sl - (if decide (idx = pnl_size sl) then 1 else 0)).

(** The loop over the other pages of a large one, [n] is [npages - 1]. *)
Fixpoint spill_remove_loop (n : nat) (sl : list Z) (least : Z) (idx : nat) : option (list Z * Z) :=
  match n with
  | O => Some (sl, least)
  | S n =>
      x ← rd sl idx;
      let pgno := u32 (Z.shiftr x 1 + 1) in
      let idx := Nat.pred idx in
      if decide (idx < 1)%nat then Some (sl, least)
      else
        y ← rd sl idx;
        if decide (Z.shiftr y 1 <> pgno) then Some (sl, least)
        else
          let least := Z.min (Z.of_nat idx) least in
          sl ← spill_mark sl idx;
          spill_remove_loop n sl least idx
  end.

Definition spill_remove (t : wr_txn) (idx : nat) (npages : Z) : option wr_txn :=
  sl ← spilled_list t;
  let least := Z.min (Z.of_nat idx) (least_removed t) in
  sl ← spill_mark sl idx;
  '(sl, least) ← spill_remove_loop (Z.to_nat (npages - 1)) sl least idx;
  Some (with_spilled t sl least).

(** [for (w = r = least_removed; r <= len; ++r)], [n] times *)
Fixpoint purge_loop (n : nat) (sl : list Z) (w r : nat) : option (list Z * nat) :=
  match n with
  | O => Some (sl, w)
  | S n =>
      x ← rd sl r;
      sl ← wr sl w x;
      purge_loop n sl (w + 1 - Z.to_nat (Z.land x 1)) (S r)
  end.

Definition spill_purge (t : wr_txn) : option wr_txn :=
  sl ← spilled_list t;
  if decide (least_removed t <> INT_MAX) then
    let len := pnl_size sl in
    let r := Z.to_nat (least_removed t) in
    '(sl, w) ← purge_loop (S len - r) sl r r;
    sl ← pnl_setsize sl (w - 1);
    Some (with_spilled t sl INT_MAX)
  else Some t.

(** ** Refund *)

(** [while (--first_unallocated, ++i <= len && pnl[i] == first_unallocated - 1)] *)
Fixpoint reclaimed_run (fuel : nat) (c : list Z) (i len : nat) (fu : Z) : option (nat * Z) :=
  match fuel with
  | O => None
  | S fuel =>
      let fu := u32 (fu - 1) in
      let i := S i in
      if decide (i <= len)%nat then
        x ← rd c i; if decide (x = u32 (fu - 1)) then reclaimed_run fuel c i len fu else Some (i, fu)
      else Some (i, fu)
  end.

Definition refund_reclaimed (t : wr_txn) : option wr_txn :=
  let c := cells (repnl t) in
  let len := pnl_size c in
  '(i, fu) ← reclaimed_run (S len) c 1 len (first_unallocated t);
  let len := (len - (i - 1))%nat in
  c ← pnl_setsize c len;
  c ← shift_cells len c 1 (i - 1);
  Some (with_unallocated (with_repnl t (mk_pnl (pnl_alloclen (repnl t)) c)) fu).

(** The array on the stack of [refund_loose]. *)
Definition onstack_bytes : Z := MDBX_CACHELINE_SIZE * 8.
Definition onstack : pnl_t := mk_pnl (pnl_bytes2size onstack_bytes) (replicate (Z.to_nat (onstack_bytes / 4)) 0).

(** The loose pages that may be refunded, and the largest of them. *)
Fixpoint collect_loose (fuel : nat) (hs : page_ptr -> page_head) (fu count : Z) (lp : option page_ptr)
  (c : list Z) (w : nat) (most : Z) : option (list Z * nat * Z) :=
    match fuel, lp with
    | _, None => Some (c, w, most)
    | O, Some _ => None
    | S fuel, Some p =>
        let pgno := h_pgno (hs p) in
        if decide (u64 (fu - count) <= pgno) then
          c ← wr c (S w) pgno;
          collect_loose fuel hs fu count (page_next (hs p)) c (S w) (if decide (pgno > most) then pgno else most)
        else collect_loose fuel hs fu count (page_next (hs p)) c w most
    end.

(** [for (i = begin + step; i != end; i += step)], [n] times *)
Fixpoint tail_run (n : nat) (c : list Z) (i : nat) (most : Z) : option Z :=
  match n with
  | O => Some most
  | S n => x ← rd c i; if decide (x <> u32 (most - 1)) then Some most else tail_run n c (S i) (u32 (most - 1))
  end.

(** The filter of the dirty list: [n] cells behind [r]. *)
Fixpoint keep_below (n : nat) (c : list dp_t) (w r : nat) (most : Z) : option (list dp_t * nat) :=
  match n with
  | O => Some (c, w)
  | S n =>
      let r := S r in
      x ← rd c r;
      if decide (pgno x < most) then
        let w := S w in
        c ← (if decide (w <> r) then wr c w x else Some c);
        keep_below n c w r most
      else keep_below n c w r most
  end.

Definition dpl_keep_below (dl : dpl_t) (most : Z) : option dpl_t :=
  '(c, w) ← keep_below (sorted dl) (items dl) 0 0 most;
  let s := if decide (sorted dl <> 0)%nat then w else sorted dl in
  '(c, w) ← keep_below (dl_length dl - sorted dl) c w (sorted dl) most;
  dpl_setlen (with_sorted (with_items dl c) s) w.

(** [loose_count -= n; dirtyroom += n; pages_including_loose -= n] *)
Definition account_refund (t : wr_txn) (n : Z) : wr_txn :=
  let t := add_dirtyroom (with_loose t (loose_pages t) (u64 (loose_count t - n))) n in
  with_dlist t (with_pages (dlist t) (u64 (pages_including_loose (dlist t) - n))).

(** The loop at [unlink_loose]; [None] as the link is [&txn->wr.loose_pages], and
    [Some p] is [&page_next(p)]. *)
Definition read_link (t : wr_txn) (link : option page_ptr) : option page_ptr :=
  match link with None => loose_pages t | Some p => page_next (heads t p) end.
Definition write_link (t : wr_txn) (link : option page_ptr) (v : option page_ptr) : wr_txn :=
  match link with None => with_loose t v (loose_count t) | Some p => set_page_next t p v end.

Fixpoint unlink_loose (fuel : nat) (t : wr_txn) (link : option page_ptr) : option wr_txn :=
  match fuel with
  | O => None
  | S fuel =>
      match read_link t link with
      | None => Some t
      | Some dp =>
          if decide (first_unallocated t > h_pgno (heads t dp)) then unlink_loose fuel t (Some dp)
          else unlink_loose fuel (shadow_release (write_link t link (page_next (heads t dp))) dp 1) link
      end
  end.

(** The case of a list of dirty pages with a long unsorted part. *)
Definition refund_loose_unsorted (suitable : pnl_t) (t : wr_txn) : option wr_txn :=
  let fuel := S (dl_length (dlist t)) in
  let fu := first_unallocated t in
  '(c, w, most) ← collect_loose fuel (heads t) fu (loose_count t) (loose_pages t) (cells suitable) 0 MIN_PAGENO;
  if decide (u32 (most + 1) = fu) then
    c ← pnl_setsize c w;
    c ← pnl_sort_nochk c;
    most ← tail_run (pnl_size c - 1) c 2 most;
    let t := account_refund (with_unallocated t most) (u32 (fu - most)) in
    dl ← dpl_keep_below (dlist t) most;
    unlink_loose fuel (with_dlist t dl) None
  else Some t.

(** The scan of the sorted list of dirty pages from its end. *)
Fixpoint cut_tail (n : nat) (hs : page_ptr -> page_head) (c : list dp_t) (fu : Z) : option (nat * Z) :=
  x ← rd c n;
  if bool_decide (pgno x = u32 (fu - 1)) && bool_decide (h_flags (hs (ptr x)) = P_LOOSE) then
    match n with
    | O => None
    | S n => cut_tail n hs c (u32 (fu - 1))
    end
  else Some (n, fu).

Definition refund_loose_sorted (t : wr_txn) : option wr_txn :=
  let fuel := S (dl_length (dlist t)) in
  dl ← txn_dpl_sort (dlist t);
  '(n, fu) ← cut_tail (dl_length dl) (heads t) (items dl) (first_unallocated t);
  dl ← dpl_setlen dl n;
  let t := with_unallocated (with_dlist t dl) fu in
  if decide (sorted dl <> dl_length dl) then
    let refunded := Z.of_nat (sorted dl - dl_length dl) in
    unlink_loose fuel (account_refund (with_dlist t (with_sorted dl (dl_length dl))) refunded) None
  else Some t.

Definition refund_loose (t : wr_txn) : option wr_txn :=
  let dl := dlist t in
  if decide (Z.of_nat (dl_length dl - sorted dl) > loose_count t) then
    match (if decide (pnl_bytes2size onstack_bytes < loose_count t) then pnl_alloc malloc (loose_count t)
           else Some onstack) with
    | None => Some t
    | Some suitable =>
        t ← refund_loose_unsorted suitable t;
        Some (with_refund_wl t (first_unallocated t))
    end
  else
    t ← refund_loose_sorted t;
    Some (with_refund_wl t (first_unallocated t)).

(** [loose_pages && loose_refund_wl > first_unallocated] *)
Definition may_refund_loose (t : wr_txn) : bool :=
  bool_decide (loose_pages t <> None) && bool_decide (loose_refund_wl t > first_unallocated t).

(** The pages at the begin of [repnl] are in front of [first_unallocated]. *)
Definition repnl_at_end (t : wr_txn) : option bool :=
  if decide (pnl_size (cells (repnl t)) = 0)%nat then Some false
  else x ← rd (cells (repnl t)) 1; Some (bool_decide (x = u32 (first_unallocated t - 1))).

Fixpoint refund_loop (fuel : nat) (t : wr_txn) : option wr_txn :=
  match fuel with
  | O => None
  | S fuel =>
      at_end ← repnl_at_end t;
      if at_end : bool then
        t ← refund_reclaimed t;
        if may_refund_loose t then
          let memo := first_unallocated t in
          t ← refund_loose t;
          if decide (memo = first_unallocated t) then Some t else refund_loop fuel t
        else Some t
      else Some t
  end.

Definition txn_refund (t : wr_txn) : option (bool * wr_txn) :=
  let before := first_unallocated t in
  t ← (if may_refund_loose t then refund_loose t else Some t);
  t ← refund_loop (S (pnl_size (cells (repnl t)))) t;
  if decide (before = first_unallocated t) then Some (false, t)
  else
    t ← (if spilled_list t then spill_purge t else Some t);
    Some (true, t).

(** ** Retiring a page *)

(** The counters of pages of a tree and, for a nested tree, of the outer one. *)
Record retire_cursor := mk_rc { rc_inner : bool; rc_tree : tree_t; rc_outer : tree_t }.

Definition uncount_page (tree : tree_t) (is_branch : Z) : tree_t :=
  mk_tree (t_flags tree) (height tree) (dupfix_size tree) (root tree) (u32 (branch_pages tree - is_branch))
    (u32 (leaf_pages tree - (1 - is_branch))) (large_pages tree) (sequence tree) (t_items tree) (mod_txnid tree).
Definition uncount_large (tree : tree_t) (npages : Z) : tree_t :=
  mk_tree (t_flags tree) (height tree) (dupfix_size tree) (root tree) (branch_pages tree) (leaf_pages tree)
    (u32 (large_pages tree - npages)) (sequence tree) (t_items tree) (mod_txnid tree).

Definition uncount (mc : retire_cursor) (pageflags npages : Z) : retire_cursor :=
  if decide (Z.land pageflags P_LARGE = 0) then
    let is_branch := if decide (Z.land pageflags P_BRANCH = 0) then 0 else 1 in
    mk_rc (rc_inner mc) (uncount_page (rc_tree mc) is_branch)
      (if rc_inner mc then uncount_page (rc_outer mc) is_branch else rc_outer mc)
  else mk_rc (rc_inner mc) (uncount_large (rc_tree mc) npages) (rc_outer mc).

(** The search in the lists of the parents, which it may sort. *)
Fixpoint parents_status (ps : list parent_txn) (id : Z) : option (page_status * list parent_txn) :=
  match ps with
  | [] => Some (frozen, [])
  | p :: rest =>
      '(di, dl) ← txn_dpl_exist have_cmov (p_dirtylist p) id;
      let p := mk_parent dl (p_spilled p) in
      if decide (di <> 0)%nat then Some (shadowed, p :: rest)
      else
        si ← spill_search (p_spilled p) id;
        if decide (si <> 0)%nat then Some (spilled, p :: rest)
        else '(st, rest) ← parents_status rest id; Some (st, p :: rest)
  end.

Fixpoint parents_dirty (ps : list parent_txn) (id : Z) : option (bool * list parent_txn) :=
  match ps with
  | [] => Some (false, [])
  | p :: rest =>
      '(di, dl) ← txn_dpl_exist have_cmov (p_dirtylist p) id;
      let p := mk_parent dl (p_spilled p) in
      if decide (di <> 0)%nat then Some (true, p :: rest)
      else '(b, rest) ← parents_dirty rest id; Some (b, p :: rest)
  end.

(** What is known of the page: its state, the cells in the lists of dirty and of
    spilled pages, its address if there is one, and its flags. *)
Definition known : Type := page_status * nat * nat * option page_ptr * Z.

Definition page_known (t : wr_txn) (id : Z) (mp : page_ptr) (pageflags : Z) : option (known * wr_txn) :=
  if is_frozen t mp then Some ((frozen, O, O, Some mp, pageflags), t)
  else if is_modifable t mp then
    '(di, dl) ← txn_dpl_exist have_cmov (dlist t) id;
    Some ((modifable, di, O, Some mp, pageflags), with_dlist t dl)
  else if is_shadowed t mp then Some ((shadowed, O, O, Some mp, pageflags), t)
  else si ← spill_search (spilled_list t) id; Some ((spilled, O, si, Some mp, pageflags), t).

(** [fetched] is what [page_retire_page_get] gives, a page or an error. *)
Definition retire_status (fetched : Z + page_ptr) (t : wr_txn) (id : Z) (mp : option page_ptr) (pageflags : Z)
  : option (Z + known * wr_txn) :=
  match mp with
  | Some mp => res ← page_known t id mp pageflags; Some (inr res)
  | None =>
      if decide (Z.land pageflags P_FROZEN <> 0) then Some (inr ((frozen, O, O, None, pageflags), t))
      else if decide (pageflags <> 0) then
        '(di, dl) ← txn_dpl_exist have_cmov (dlist t) id;
        let t := with_dlist t dl in
        if decide (di <> 0)%nat then
          x ← rd (items dl) di; Some (inr ((modifable, di, O, Some (ptr x), pageflags), t))
        else
          si ← spill_search (spilled_list t) id;
          if decide (si <> 0)%nat then Some (inr ((spilled, O, si, None, pageflags), t))
          else
            '(st, ps) ← parents_status (parents t) id;
            Some (inr ((st, O, O, None, pageflags), with_parents t ps))
      else
        match fetched with
        | inl err => Some (inl err)
        | inr p => res ← page_known t id p (h_flags (heads t p)); Some (inr res)
        end
  end.

(** The label [retire]. *)
Definition retire (t : wr_txn) (id npages : Z) : option (Z * wr_txn) :=
  '(rc, p) ← pnl_append_span malloc (retired_pages t) id (Z.to_nat npages);
  Some (rc, with_retired t p).

Definition insert_repnl (t : wr_txn) (id npages : Z) : option (Z * wr_txn) :=
  '(rc, p) ← pnl_insert_span malloc (Some (repnl t)) id (Z.to_nat npages);
  p ← p;
  Some (rc, with_repnl t p).

(** The label [reclaim]. *)
Definition reclaim (t : wr_txn) (id npages : Z) : option (Z * wr_txn) :=
  '(rc, t) ← insert_repnl t id npages;
  most ← rd (cells (repnl t)) 1;
  if decide (most = u32 (first_unallocated t - 1)) then '(_, t) ← txn_refund t; Some (rc, t) else Some (rc, t).

(** A dirty page becomes the first of the chain. *)
Definition loosen (t : wr_txn) (id : Z) (mp : page_ptr) : wr_txn :=
  let t := set_head_flags (set_head_txnid t mp INVALID_TXNID) mp P_LOOSE in
  let t := with_loose (set_page_next t mp (loose_pages t)) (Some mp) (u64 (loose_count t + 1)) in
  let wl := u32 (id + 2) in
  with_refund_wl t (if decide (wl > loose_refund_wl t) then wl else loose_refund_wl t).

(** What is done with the page, behind [status_done]. *)
Definition retire_known (t : wr_txn) (id : Z) (k : known) (npages : Z) : option (Z * wr_txn) :=
  let '(status, di, si, mp, pageflags) := k in
  if decide (status = frozen) then retire t id npages
  else if decide (u64 (id + npages) = first_unallocated t) then
    t ← (if decide (status = modifable) then mp ← mp; wash t di mp npages
         else if decide (si <> 0)%nat then spill_remove t si npages else Some t);
    '(_, t) ← txn_refund (with_unallocated t id);
    Some (MDBX_SUCCESS, t)
  else if decide (status = modifable) then
    mp ← mp;
    if bool_decide (npages = 1) && suitable4loose t id && bool_decide (di <> 0)%nat then Some (MDBX_SUCCESS, loosen t id mp)
    else t ← wash t di mp npages; reclaim t id npages
  else if decide (si <> 0)%nat then
    t ← spill_remove t si npages;
    '(b, ps) ← parents_dirty (parents t) id;
    let t := with_parents t ps in
    if b : bool then retire t id npages else reclaim t id npages
  else if decide (status = shadowed) then reclaim t id npages
  else retire t id npages.

Definition page_retire_ex (fetched : Z + page_ptr) (t : wr_txn) (mc : retire_cursor) (id : Z) (mp : option page_ptr)
  (pageflags : Z) : option (Z * wr_txn * retire_cursor) :=
    res ← retire_status fetched t id mp pageflags;
  match res with
  | inl err => Some (err, t, mc)
  | inr (k, t) =>
      let '(_, _, _, mp, pageflags) := k in
      npages ← (if decide (Z.land pageflags P_LARGE = 0) then Some 1 else mp ← mp; Some (h_pages (heads t mp)));
      '(rc, t) ← retire_known t id k npages;
      Some (rc, t, uncount mc pageflags npages)
  end.

Definition page_retire (t : wr_txn) (mc : retire_cursor) (mp : page_ptr) : option (Z * wr_txn * retire_cursor) :=
  page_retire_ex (inl MDBX_EINVAL) t mc (h_pgno (heads t mp)) (Some mp) (h_flags (heads t mp)).

(** ** Dirty and new pages *)

(** The part of [page_dirty] for a list of dirty pages without room: the first
    loose page goes to [repnl]. *)
Definition reclaim_loose (t : wr_txn) (lp : page_ptr) : option (Z * wr_txn) :=
  '(rc, t) ← insert_repnl t (h_pgno (heads t lp)) 1;
  if decide (rc <> MDBX_SUCCESS) then Some (rc, t)
  else
    '(di, dl) ← txn_dpl_search have_cmov (dlist t) (h_pgno (heads t lp));
    dl ← txn_dpl_remove dl di;
    let t := with_loose (with_dlist t dl) (page_next (heads t lp)) (u64 (loose_count t - 1)) in
    let t := shadow_release (add_dirtyroom t 1) lp 1 in
    at_end ← repnl_at_end t;
    if at_end : bool then '(_, t) ← txn_refund t; Some (MDBX_SUCCESS, t) else Some (MDBX_SUCCESS, t).

(** The part from [txn_dpl_append] on *)
Definition append_dirty (t : wr_txn) (mp : page_ptr) (npages : Z) : option (Z * wr_txn) :=
  '(rc, d) ← txn_dpl_append have_cmov malloc (dirty t) (h_pgno (heads t mp)) mp npages;
  let t := with_dirty t d in
  if decide (rc <> MDBX_SUCCESS) then Some (rc, with_error t) else Some (MDBX_SUCCESS, add_dirtyroom t (-1)).

Definition page_dirty (t : wr_txn) (mp : page_ptr) (npages : Z) : option (Z * wr_txn) :=
  let t := set_head_txnid t mp (front_txnid t) in
  if decide (dirtyroom (dirty t) = 0) then
    if decide (loose_count t <> 0) then
      lp ← loose_pages t;
      '(rc, t) ← reclaim_loose t lp;
      if decide (rc <> MDBX_SUCCESS) then Some (rc, with_error t) else append_dirty t mp npages
    else Some (MDBX_TXN_FULL, shadow_release t mp npages)
  else append_dirty t mp npages.

(** [page_alloc_finalize]; [fresh] is what [osal_malloc] gives when there is no
    page kept for reuse.  The contents of the page are not modelled. *)
Definition page_alloc_finalize (t : wr_txn) (fresh : option page_ptr) (id num : Z) : option (Z * option page_ptr * wr_txn) :=
  let d := dirty t in
  let '(np, e) := page_shadow_alloc (txn_env d) num fresh in
  let t := with_dirty t (mk_dtxn (dirtylist d) (dirtylru d) (dirtyroom d) (lru_stamp d) e) in
  match np with
  | None => Some (MDBX_ENOMEM, None, t)
  | Some np =>
      let h := heads t np in
      let t := with_head t np (mk_head (h_txnid h) 0 id (h_pages h) (page_next h)) in
      '(rc, t) ← page_dirty t np num;
      Some (rc, Some np, t)
  end.

(** The part of [gc_alloc_single] in front of [gc_alloc_ex]; [None] inside is the
    need to search the GC. *)
Definition gc_alloc_single (t : wr_txn) (fresh : option page_ptr) : option (option (Z * option page_ptr) * wr_txn) :=
  t ← (if may_refund_loose t then '(_, t) ← txn_refund t; Some t else Some t);
  match loose_pages t with
  | Some lp =>
      let t := with_loose t (page_next (heads t lp)) (u64 (loose_count t - 1)) in
      Some (Some (MDBX_SUCCESS, Some lp), set_head_txnid t lp (front_txnid t))
  | None =>
      let c := cells (repnl t) in
      if decide (0 < pnl_size c)%nat then
        '(id, c) ← repnl_get_single c;
        '(rc, np, t) ← page_alloc_finalize (with_repnl t (mk_pnl (pnl_alloclen (repnl t)) c)) fresh id 1;
        Some (Some (rc, np), t)
      else Some (None, t)
  end.

(** The part of [page_new] that marks the page. *)
Definition page_new_txn (t : wr_txn) (fresh : option page_ptr) (flags : Z) : option (option (Z * option page_ptr) * wr_txn) :=
  '(res, t) ← gc_alloc_single t fresh;
  match res with
  | Some (rc, Some np) =>
      if decide (rc <> MDBX_SUCCESS) then Some (res, t) else Some (res, set_head_flags t np (u16 flags))
  | _ => Some (res, t)
  end.

(** ** Merging the loose pages into the other lists *)

Fixpoint append_loose (fuel : nat) (hs : page_ptr -> page_head) (lp : option page_ptr) (c : list Z) : option (list Z) :=
  match fuel, lp with
  | _, None => Some c
  | O, Some _ => None
  | S fuel, Some p => c ← pnl_append_prereserved c (h_pgno (hs p)); append_loose fuel hs (page_next (hs p)) c
  end.

(** [loose[++count] = lp->pgno] for the list [loose] that begins in the cell [base]. *)
Fixpoint copy_loose (fuel : nat) (hs : page_ptr -> page_head) (lp : option page_ptr) (c : list Z) (base count : nat)
  : option (list Z * nat) :=
  match fuel, lp with
  | _, None => Some (c, count)
  | O, Some _ => None
  | S fuel, Some p => c ← wr c (base + S count) (h_pgno (hs p)); copy_loose fuel hs (page_next (hs p)) c base (S count)
  end.

Definition merge_into_retired (t : wr_txn) : option (Z * wr_txn) :=
  let '(err, p) := pnl_need malloc (retired_pages t) (loose_count t) in
  if decide (err <> MDBX_SUCCESS) then Some (err, with_retired t p)
  else
    p ← p;
    c ← append_loose (S (dl_length (dlist t))) (heads t) (loose_pages t) (cells p);
    Some (MDBX_SUCCESS, with_retired t (Some (mk_pnl (pnl_alloclen p) c))).

(** The list [loose] is in the space behind the data of [repnl], from the cell
    [base] on; it is sorted there and merged. *)
Definition merge_into_repnl (t : wr_txn) : option (Z * wr_txn) :=
  let '(err, p) := pnl_need malloc (Some (repnl t)) (2 * loose_count t + 2) in
  p ← p;
  if decide (err <> MDBX_SUCCESS) then Some (err, with_repnl t p)
  else
    let base := Z.to_nat (pnl_alloclen p - loose_count t - 1) in
    '(c, count) ← copy_loose (S (dl_length (dlist t))) (heads t) (loose_pages t) (cells p) base 0;
    loose ← pnl_setsize (drop base c) count;
    loose ← pnl_sort_nochk loose;
    '(c, _) ← pnl_merge have_cmov (take base c ++ loose) loose;
    Some (MDBX_SUCCESS, with_repnl t (mk_pnl (pnl_alloclen p) c)).

(** The loop over the list of dirty pages, [n] cells behind [r]; the loose ones
    are released, and those of the sorted part are counted. *)
Fixpoint drop_loose (n : nat) (hs : page_ptr -> page_head) (t : wr_txn) (c : list dp_t) (w r sorted_out : nat)
  : option (wr_txn * list dp_t * nat * nat) :=
  match n with
  | O => Some (t, c, w, sorted_out)
  | S n =>
      let r := S r in
      x ← rd c r;
      if decide (Z.land (h_flags (hs (ptr x))) P_LOOSE = 0) then
        let w := S w in
        c ← (if decide (w <> r) then wr c w x else Some c);
        drop_loose n hs t c w r sorted_out
      else
        drop_loose n hs (shadow_release t (ptr x) 1) c w r
          (sorted_out + (if decide (r <= sorted (dlist t))%nat then 1 else 0))
  end.

Definition filter_out_loose (t : wr_txn) : option wr_txn :=
  let dl := dlist t in
  '(t, c, w, sorted_out) ← drop_loose (dl_length dl) (heads t) t (items dl) 0 0 0;
  dl ← dpl_setlen (with_sorted (with_items dl c) (sorted dl - sorted_out)) w;
  let t := add_dirtyroom (with_dlist t (with_pages dl (u64 (pages_including_loose dl - loose_count t)))) (loose_count t) in
  Some (with_refund_wl (with_loose t None 0) 0).

Definition gc_merge_loose (gc_dirty : bool) (gc_height : Z) (t : wr_txn) : option (Z * wr_txn) :=
  '(err, t) ← (if negb gc_dirty && bool_decide (loose_count t < u32 (3 + u32 (gc_height * 2))) then merge_into_retired t
               else merge_into_repnl t);
  if decide (err <> MDBX_SUCCESS) then Some (err, t)
  else t ← filter_out_loose t; Some (MDBX_SUCCESS, t).
End ops.
