(* ===== verification/LooseFacts.v ===== *)
(** * Loose pages: the invariant of the pages of a write transaction

    [pool_ok] says which page is where: the entries [D] of the dirty pages, the
    reusable pages [R] and the chain [L] of loose pages, all in front of
    [first_unallocated] and apart from each other.  [wr_ok] adds that the lists,
    the counters and the chain of the transaction hold them. *)

From S2P Require Import Prelude Search Sort Radix Meta Page Pnl PnlFacts PnlMerge PnlCut Dpl DplFacts DplOps Repnl Loose.

(** ** The chain *)

Fixpoint chain (hs : page_ptr -> page_head) (lp : option page_ptr) (L : list page_ptr) : Prop :=
  match L with
  | [] => lp = None
  | p :: L => lp = Some p /\ chain hs (page_next (hs p)) L
  end.

Lemma chain_ext hs hs' L : forall lp,
  (forall p, p ∈ L -> page_next (hs' p) = page_next (hs p)) -> chain hs lp L -> chain hs' lp L.
Proof.
  induction L as [|p L IH]; intros lp H; [done|]. cbn [chain]. intros [-> Hc]. split; [done|].
  rewrite H by by left. apply IH; [|done]. intros q Hq. apply H. by right.
Qed.

(** A header without the link. *)
Definition same_head (h h' : page_head) : Prop :=
  h_txnid h' = h_txnid h /\ h_flags h' = h_flags h /\ h_pgno h' = h_pgno h /\ h_pages h' = h_pages h.

Lemma same_head_refl h : same_head h h.
Proof. by split_and!. Qed.

Lemma filter_iff_in {A} (P Q : A -> Prop) `{!forall x, Decision (P x), !forall x, Decision (Q x)} (l : list A) :
  (forall x, x ∈ l -> P x <-> Q x) -> filter P l = filter Q l.
Proof.
  induction l as [|x l IH]; intros HPQ; [done|]. rewrite !filter_cons, IH by (intros y Hy; apply HPQ; by right).
  specialize (HPQ x ltac:(by left)). by repeat case_decide; try tauto.
Qed.

(** ** Which page is where *)

Definition loose_entry (hs : page_ptr -> page_head) (x : dp_t) : Prop := h_flags (hs (ptr x)) = P_LOOSE.
#[export] Instance loose_entry_dec hs x : Decision (loose_entry hs x).
Proof. unfold loose_entry. apply _. Defined.

Definition pgnos_of (hs : page_ptr -> page_head) (L : list page_ptr) : list Z := (fun p => h_pgno (hs p)) <$> L.

Definition page_in (x : dp_t) (p : Z) : Prop := pgno x <= p < pgno x + npages x.

Record pool_ok (hs : page_ptr -> page_head) (fu : Z) (D : list dp_t) (R : list Z) (L : list page_ptr) : Prop := {
  po_end : NUM_METAS <= fu <= MAX_PAGENO + 1;
  po_pages : forall x, x ∈ D ->
    h_pgno (hs (ptr x)) = pgno x /\ NUM_METAS <= pgno x /\ 1 <= npages x /\ pgno x + npages x <= fu;
  po_ptrs : NoDup (ptr <$> D);
  po_unique : NoDup (pgnos D);
  po_disjoint : disjoint_pages D;
  po_repnl : descending R /\ Forall (fun y => NUM_METAS <= y < fu) R;
  po_apart : forall x y, x ∈ D -> y ∈ R -> ~ page_in x y;
  po_loose : L ≡ₚ ptr <$> filter (loose_entry hs) D;
  po_single : forall x, x ∈ D -> loose_entry hs x -> npages x = 1
}.

Lemma pool_ok_perm hs fu D D' R L : D ≡ₚ D' -> pool_ok hs fu D R L -> pool_ok hs fu D' R L.
Proof.
  intros HD [H1 H2 H3 H4 H5 H6 H7 H8 H9]. split; try done.
  - intros x Hx. apply H2. by rewrite HD.
  - by rewrite <- HD.
  - by rewrite <- HD.
  - intros x y Hx Hy. apply H5; by rewrite HD.
  - intros x y Hx. apply H7. by rewrite HD.
  - by rewrite <- HD.
  - intros x Hx. apply H9. by rewrite HD.
Qed.

Lemma pool_ok_heads hs hs' fu D R L :
  (forall x, x ∈ D -> same_head (hs (ptr x)) (hs' (ptr x))) -> pool_ok hs fu D R L -> pool_ok hs' fu D R L.
Proof.
  intros Hh [H1 H2 H3 H4 H5 H6 H7 H8 H9].
  assert (forall x, x ∈ D -> loose_entry hs x <-> loose_entry hs' x) as Hl.
  { intros x Hx. unfold loose_entry. by destruct (Hh x Hx) as (_ & -> & _). }
  split; try done.
  - intros x Hx. destruct (Hh x Hx) as (_ & _ & -> & _). by apply H2.
  - by rewrite H8, (filter_iff_in (loose_entry hs) (loose_entry hs')).
  - intros x Hx. rewrite <- Hl by done. by apply H9.
Qed.

Lemma descending_filter (P : Z -> Prop) `{!forall x, Decision (P x)} (R : list Z) : descending R -> descending (filter P R).
Proof.
  induction R as [|y R IH]; [done|]. intros [Hy Hd]%descending_cons. rewrite filter_cons.
  case_decide; [|by apply IH]. apply descending_cons. split; [|by apply IH].
  apply Forall_forall. intros z [_ Hz]%list_elem_of_filter. rewrite Forall_forall in Hy. by apply Hy.
Qed.

Lemma filter_ptrs hs f (D : list dp_t) :
  (forall x, x ∈ D -> h_pgno (hs (ptr x)) = pgno x) ->
  filter (fun p => h_pgno (hs p) < f) (ptr <$> filter (loose_entry hs) D) =
  ptr <$> filter (loose_entry hs) (filter (fun x => pgno x < f) D).
Proof.
  induction D as [|x D IH]; intros H; [done|]. pose proof (H x ltac:(by left)) as E.
  specialize (IH ltac:(intros y Hy; apply H; by right)). rewrite !filter_cons.
  destruct (decide (loose_entry hs x)), (decide (pgno x < f)); rewrite ?fmap_cons, ?filter_cons, ?E;
    repeat (case_decide; try done); by rewrite ?fmap_cons, IH.
Qed.

Section pool.
Context (hs : page_ptr -> page_head) (fu : Z) (D : list dp_t) (R : list Z) (L : list page_ptr) (Hp : pool_ok hs fu D R L).

Lemma loose_is_dirty p : p ∈ L -> exists x, x ∈ D /\ ptr x = p /\ loose_entry hs x /\ pgno x = h_pgno (hs p).
Proof.
  rewrite (po_loose _ _ _ _ _ Hp). intros (x & -> & [Hl Hx]%list_elem_of_filter)%list_elem_of_fmap.
  exists x. split_and!; try done. symmetry. by apply (po_pages _ _ _ _ _ Hp).
Qed.

Lemma dirty_is_loose x : x ∈ D -> loose_entry hs x -> ptr x ∈ L.
Proof. intros Hx Hl. rewrite (po_loose _ _ _ _ _ Hp). apply list_elem_of_fmap_2. by apply list_elem_of_filter. Qed.

Lemma loose_numbers : pgnos_of hs L ≡ₚ pgnos (filter (loose_entry hs) D).
Proof.
  unfold pgnos_of. rewrite (po_loose _ _ _ _ _ Hp), <- list_fmap_compose.
  erewrite list_fmap_ext; [done|]. intros i x [_ Hx]%list_elem_of_lookup_2%list_elem_of_filter. simpl. by apply (po_pages _ _ _ _ _ Hp).
Qed.

Lemma elem_of_loose_numbers n : n ∈ pgnos_of hs L <-> exists x, x ∈ D /\ loose_entry hs x /\ pgno x = n.
Proof.
  rewrite loose_numbers, list_elem_of_fmap. split.
  - intros (x & -> & [Hl Hx]%list_elem_of_filter). eauto.
  - intros (x & Hx & Hl & <-). exists x. split; [done|]. by apply list_elem_of_filter.
Qed.

Lemma loose_numbers_NoDup : NoDup (pgnos_of hs L).
Proof.
  rewrite loose_numbers. pose proof (po_unique _ _ _ _ _ Hp) as Hu.
  eapply sublist_NoDup; [exact Hu|]. apply fmap_sublist, sublist_filter.
Qed.

Lemma loose_NoDup : NoDup L.
Proof.
  rewrite (po_loose _ _ _ _ _ Hp). pose proof (po_ptrs _ _ _ _ _ Hp) as Hu.
  eapply sublist_NoDup; [exact Hu|]. apply fmap_sublist, sublist_filter.
Qed.

Lemma loose_number_bounds n : n ∈ pgnos_of hs L -> NUM_METAS <= n < fu.
Proof. intros (x & Hx & Hl & <-)%elem_of_loose_numbers. pose proof (po_pages _ _ _ _ _ Hp x Hx). lia. Qed.

Lemma repnl_bounds n : n ∈ R -> NUM_METAS <= n < fu.
Proof. intros Hn. destruct (po_repnl _ _ _ _ _ Hp) as [_ H]. rewrite Forall_forall in H. by apply H. Qed.

Lemma same_entry x y : x ∈ D -> y ∈ D -> pgno x = pgno y -> x = y.
Proof.
  intros [i Hi]%list_elem_of_lookup_1 [j Hj]%list_elem_of_lookup_1 E. pose proof (po_unique _ _ _ _ _ Hp) as Hu.
  assert (i = j) as ->; [|congruence].
  apply (NoDup_lookup _ _ _ (pgno x) Hu); rewrite list_lookup_fmap, ?Hi, ?Hj; simpl; congruence.
Qed.

(** ** Giving back the pages in front of the end *)

Definition stock (p : Z) : Prop := p ∈ R \/ p ∈ pgnos_of hs L.

Lemma stock_bounds p : stock p -> NUM_METAS <= p < fu.
Proof. intros [H|H]; [by apply repnl_bounds|by apply loose_number_bounds]. Qed.

(** A dirty page that begins in front of [f] ends there, when everything from [f]
    on can be given back. *)
Lemma dirty_ends f x : (forall p, f <= p < fu -> stock p) -> x ∈ D -> pgno x < f -> pgno x + npages x <= f.
Proof.
  intros Hs Hx Hlt. destruct (po_pages _ _ _ _ _ Hp x Hx) as (_ & _ & H1 & Hend).
  destruct (decide (pgno x + npages x <= f)); [done|]. exfalso.
  destruct (Hs (pgno x + npages x - 1)) as [H|(y & Hy & Hl & E)%elem_of_loose_numbers]; [lia| |].
  - apply (po_apart _ _ _ _ _ Hp x _ Hx H). unfold page_in. lia.
  - pose proof (po_disjoint _ _ _ _ _ Hp x y Hx Hy). lia.
Qed.

Lemma pool_refund f :
  f <= fu -> (forall p, f <= p < fu -> stock p) ->
  pool_ok hs f (filter (fun x => pgno x < f) D) (filter (fun p => p < f) R) (filter (fun p => h_pgno (hs p) < f) L).
Proof.
  intros Hf Hs. split.
  - pose proof (po_end _ _ _ _ _ Hp) as He. destruct (decide (f = fu)); [lia|].
    pose proof (stock_bounds f (Hs f ltac:(lia))). lia.
  - intros x [Hlt Hx]%list_elem_of_filter. destruct (po_pages _ _ _ _ _ Hp x Hx) as (? & ? & ? & _).
    split_and!; try done. by apply dirty_ends.
  - eapply sublist_NoDup; [exact (po_ptrs _ _ _ _ _ Hp)|]. apply fmap_sublist, sublist_filter.
  - eapply sublist_NoDup; [exact (po_unique _ _ _ _ _ Hp)|]. apply fmap_sublist, sublist_filter.
  - intros x y [_ Hx]%list_elem_of_filter [_ Hy]%list_elem_of_filter. by apply (po_disjoint _ _ _ _ _ Hp).
  - destruct (po_repnl _ _ _ _ _ Hp) as [Hd Hb]. split.
    + by apply descending_filter.
    + apply Forall_forall. intros y [Hlt Hy]%list_elem_of_filter. rewrite Forall_forall in Hb. specialize (Hb y Hy). simpl in Hb. lia.
  - intros x y [_ Hx]%list_elem_of_filter [_ Hy]%list_elem_of_filter. by apply (po_apart _ _ _ _ _ Hp).
  - rewrite (po_loose _ _ _ _ _ Hp) at 1. rewrite filter_ptrs; [done|]. intros x Hx. by apply (po_pages _ _ _ _ _ Hp).
  - intros x [_ Hx]%list_elem_of_filter. by apply (po_single _ _ _ _ _ Hp).
Qed.
End pool.

(** ** The transaction *)

(** The pages kept for reuse are none of the dirty ones. *)
Definition reserve (t : wr_txn) : list page_ptr := shadow_reserve (txn_env (dirty t)).
Definition reserve_ok (K : list page_ptr) (D : list dp_t) : Prop := NoDup K /\ forall p, p ∈ K -> p ∉ ptr <$> D.

Lemma reserve_ok_sub K D D' : D' ⊆ D -> reserve_ok K D -> reserve_ok K D'.
Proof.
  intros Hs [Hn Hd]. split; [done|]. intros p Hp (x & -> & Hx)%list_elem_of_fmap. apply (Hd _ Hp).
  apply list_elem_of_fmap_2. by apply Hs.
Qed.

#[export] Instance reserve_ok_Permutation K : Proper ((≡ₚ) ==> iff) (reserve_ok K).
Proof.
  intros D D' HD. unfold reserve_ok. f_equiv. apply forall_proper. intros p. apply forall_proper. intros _.
  rewrite (fmap_Permutation ptr D D' HD). done.
Qed.

(** A page that was dirty is kept for reuse, or freed. *)
Lemma reserve_ok_release K K' x D :
  reserve_ok K (x :: D) -> NoDup (ptr <$> x :: D) -> K' = K \/ K' = ptr x :: K -> reserve_ok K' D.
Proof.
  intros [Hn Hd] Hu HK. rewrite fmap_cons in Hu. apply NoDup_cons in Hu as [Hx _].
  assert (reserve_ok K D) as HKD by (apply (reserve_ok_sub K (x :: D)); [intros y Hy; by right|done]).
  destruct HK as [->| ->]; [done|]. destruct HKD as [_ Hd']. split.
  - constructor; [|done]. intros Hin. apply (Hd _ Hin). rewrite fmap_cons. by left.
  - intros p [->|Hp]%elem_of_cons; [done|by apply Hd'].
Qed.

Lemma reserve_release t p n : reserve (shadow_release t p n) = reserve t \/ reserve (shadow_release t p n) = p :: reserve t.
Proof. unfold reserve, shadow_release, page_shadow_release. cbn. destruct (_ && _); [by right|by left]. Qed.

Record wr_ok (lim : Z) (t : wr_txn) (D : list dp_t) (R : list Z) (L : list page_ptr) : Prop := {
  wo_dirty : exists S U, dpl_holds (dlist t) S U /\ S ++ U ≡ₚ D;
  wo_repnl : pnl_holds (repnl t) R;
  wo_pool : pool_ok (heads t) (first_unallocated t) D R L;
  wo_chain : chain (heads t) (loose_pages t) L;
  wo_count : loose_count t = Z.of_nat (length L);
  wo_wl : Forall (fun p => h_pgno (heads t p) + 2 <= loose_refund_wl t) L;
  wo_room : 0 <= dirtyroom (dirty t) /\ dirtyroom (dirty t) + Z.of_nat (length D) = lim /\ lim <= PAGELIST_LIMIT;
  wo_reserve : reserve_ok (reserve t) D
}.

(** What stays when pages are given back: everything but the lists of pages, the
    links, the end and the counters. *)
Record framed (t t' : wr_txn) : Prop := {
  fr_heads : forall p, same_head (heads t p) (heads t' p);
  fr_ids : txnid t' = txnid t /\ front_txnid t' = front_txnid t /\ txn_error t' = txn_error t;
  fr_lists : retired_pages t' = retired_pages t /\ parents t' = parents t /\ dp_loose_limit t' = dp_loose_limit t;
  fr_lru : dirtylru (dirty t') = dirtylru (dirty t) /\ lru_stamp (dirty t') = lru_stamp (dirty t)
}.

Definition same_spilled (t t' : wr_txn) : Prop := spilled_list t' = spilled_list t /\ least_removed t' = least_removed t.

Lemma framed_refl t : framed t t.
Proof. split; [intros p; apply same_head_refl|done..]. Qed.

Lemma framed_trans t1 t2 t3 : framed t1 t2 -> framed t2 t3 -> framed t1 t3.
Proof.
  intros [H1 (? & ? & ?) (? & ? & ?) [? ?]] [H1' (? & ? & ?) (? & ? & ?) [? ?]]. split; [|split_and!; congruence..].
  intros p. destruct (H1 p) as (? & ? & ? & ?), (H1' p) as (? & ? & ? & ?). split_and!; congruence.
Qed.

Lemma wr_ok_length lim t D R L : wr_ok lim t D R L -> dl_length (dlist t) = length D.
Proof. intros H. destruct (wo_dirty _ _ _ _ _ H) as (S & U & Hdl & HD). by rewrite (dh_length _ _ _ Hdl), <- HD, length_app. Qed.

Lemma loose_count_bound lim t D R L : wr_ok lim t D R L -> (length L <= length D)%nat.
Proof.
  intros H. rewrite (po_loose _ _ _ _ _ (wo_pool _ _ _ _ _ H)), length_fmap. apply length_filter.
Qed.

(** Only pages that were dirty are new among those kept for reuse. *)
Definition keeps_pages (t t' : wr_txn) (D : list dp_t) : Prop := forall p, p ∈ reserve t' -> p ∈ reserve t \/ p ∈ ptr <$> D.

Lemma keeps_pages_trans t1 t2 t3 D D2 : keeps_pages t1 t2 D -> keeps_pages t2 t3 D2 -> D2 ⊆ D -> keeps_pages t1 t3 D.
Proof.
  intros H1 H2 Hs p [Hp|(x & -> & Hx)%list_elem_of_fmap]%H2; [by apply H1|right]. apply list_elem_of_fmap_2. by apply Hs.
Qed.

(** The lists of [t'] are those of [t], less the pages from
    the new end on; all of these could be given back. *)
Record refunds (lim : Z) (t t' : wr_txn) (D : list dp_t) (R : list Z) (L : list page_ptr) : Prop := {
  rf_end : first_unallocated t' <= first_unallocated t;
  rf_stock : forall p, first_unallocated t' <= p < first_unallocated t -> stock (heads t) R L p;
  rf_ok : wr_ok lim t' (filter (fun x => pgno x < first_unallocated t') D)
    (filter (fun p => p < first_unallocated t') R) (filter (fun p => h_pgno (heads t p) < first_unallocated t') L);
  rf_frame : framed t t';
  rf_reserve : keeps_pages t t' D
}.

Lemma filter_below_again {A} (f : A -> Z) (a b : Z) (l : list A) :
  a <= b -> filter (fun x => f x < a) (filter (fun x => f x < b) l) = filter (fun x => f x < a) l.
Proof. intros Hab. apply list_filter_filter_l. lia. Qed.

Lemma filter_below_all {A} (f : A -> Z) (b : Z) (l : list A) : (forall x, x ∈ l -> f x < b) -> filter (fun x => f x < b) l = l.
Proof.
  induction l as [|x l IH]; intros Hl; [done|]. rewrite filter_cons, decide_True by (apply Hl; by left).
  f_equal. apply IH. intros y Hy. apply Hl. by right.
Qed.

Lemma filter_below_none {A} (f : A -> Z) (b : Z) (l : list A) : (forall x, x ∈ l -> b <= f x) -> filter (fun x => f x < b) l = [].
Proof.
  induction l as [|x l IH]; intros Hl; [done|]. rewrite filter_cons, decide_False by (specialize (Hl x ltac:(by left)); lia).
  apply IH. intros y Hy. apply Hl. by right.
Qed.

Lemma refunds_refl lim t D R L : wr_ok lim t D R L -> refunds lim t t D R L.
Proof.
  intros H. pose proof (wo_pool _ _ _ _ _ H) as Hp. split; [lia|intros; lia| |apply framed_refl|by left].
  rewrite (filter_below_all pgno), (filter_below_all (fun p => p)), (filter_below_all (fun p => h_pgno (heads t p))); try done.
  - intros p Hl. apply (loose_number_bounds _ _ _ _ _ Hp). by apply (list_elem_of_fmap_2 (fun p => h_pgno (heads t p))).
  - intros p Hpr. by apply (repnl_bounds _ _ _ _ _ Hp).
  - intros x Hx. pose proof (po_pages _ _ _ _ _ Hp x Hx). lia.
Qed.

Lemma refunds_trans lim t1 t2 t3 D R L :
  refunds lim t1 t2 D R L ->
  refunds lim t2 t3 (filter (fun x => pgno x < first_unallocated t2) D) (filter (fun p => p < first_unallocated t2) R)
  (filter (fun p => h_pgno (heads t1 p) < first_unallocated t2) L) ->
  refunds lim t1 t3 D R L.
Proof.
  intros [He Hs Hok Hf Hk] [He' Hs' Hok' Hf' Hk']. assert (forall p, h_pgno (heads t2 p) = h_pgno (heads t1 p)) as Eh.
  { intros p. apply (fr_heads _ _ Hf p). }
  split; [lia| | |by eapply framed_trans|eapply keeps_pages_trans; [exact Hk|exact Hk'|intros x; rewrite list_elem_of_filter; tauto]].
  - intros p Hp. destruct (decide (p < first_unallocated t2)); [|apply Hs; lia].
    destruct (Hs' p ltac:(lia)) as [[_ H]%list_elem_of_filter|(q & -> & [_ Hq]%list_elem_of_filter)%list_elem_of_fmap]; [by left|].
    right. rewrite Eh. by apply (list_elem_of_fmap_2 (fun p => h_pgno (heads t1 p))).
  - rewrite (filter_below_again pgno), (filter_below_again (fun p => p)) in Hok' by done.
    rewrite (filter_iff_in _ (fun p => h_pgno (heads t1 p) < first_unallocated t3)) in Hok' by (intros; by rewrite Eh).
    by rewrite (filter_below_again (fun p => h_pgno (heads t1 p))) in Hok'.
Qed.
