(* ===== verification/LooseSpill.v ===== *)
(** * The list of spilled pages

    [spill_search], [spill_remove] and [spill_purge]: the entries [X] are twice the
    page numbers, in descending order, with the lowest bit set for the pages that
    are no longer spilled; [live X] are the others. *)

From S2P Require Import Prelude Search Sort Radix Meta Page Pnl PnlFacts Dpl DplFacts Repnl Loose LooseFacts.

Definition removed (x : Z) : bool := Z.odd x.
Definition live (X : list Z) : list Z := Z.div2 <$> filter (fun x => removed x = false) X.

(** The list with the smallest cell of a removed entry. *)
Record spill_holds (sl : list Z) (least : Z) (X : list Z) : Prop := {
  sh_cells : holding sl X;
  sh_room : (length X + 2 <= length sl)%nat;
  sh_order : descending (Z.div2 <$> X);
  sh_bound : Forall (fun x => 0 <= x < 2 ^ 32) X;
  sh_least : least = INT_MAX \/ 1 <= least <= Z.of_nat (length X) + 1;
  sh_clean : forall i x, X !! i = Some x -> Z.of_nat (S i) < least -> removed x = false;
  sh_limit : Z.of_nat (length X) < INT_MAX
}.

Definition spill_ok (t : wr_txn) (X : list Z) : Prop :=
  match spilled_list t with Some sl => spill_holds sl (least_removed t) X | None => X = [] end.

Lemma removed_land x : Z.land x 1 = if removed x then 1 else 0.
Proof.
  unfold removed. change (Z.land x 1) with (Z.land x (Z.ones 1)). rewrite Z.land_ones by lia.
  change (2 ^ 1) with 2. by rewrite Zmod_odd.
Qed.

Lemma div2_lor x : Z.div2 (Z.lor x 1) = Z.div2 x.
Proof. rewrite !Z.div2_spec, Z.shiftr_lor. change (Z.shiftr 1 1) with 0. apply Z.lor_0_r. Qed.

Lemma removed_lor x : removed (Z.lor x 1) = true.
Proof. unfold removed. rewrite <- Z.bit0_odd, Z.lor_spec. simpl. apply orb_true_r. Qed.

Lemma even_double x : removed x = false -> x = 2 * Z.div2 x.
Proof. unfold removed. intros E. pose proof (Z.div2_odd x) as H. rewrite E in H. simpl in H. lia. Qed.

Lemma live_app X Y : live (X ++ Y) = live X ++ live Y.
Proof. unfold live. by rewrite filter_app, fmap_app. Qed.

(** ** Searching *)

Lemma descending_inj (f : Z -> Z) (l : list Z) x y : descending (f <$> l) -> x ∈ l -> y ∈ l -> f x = f y -> x = y.
Proof.
  intros Hd [i Hi]%list_elem_of_lookup_1 [j Hj]%list_elem_of_lookup_1 E. apply descending_NoDup in Hd.
  assert (i = j) as ->; [|congruence]. apply (NoDup_lookup _ _ _ (f x) Hd); rewrite list_lookup_fmap, ?Hi, ?Hj; simpl; congruence.
Qed.

Lemma descending_of_halves X : descending (Z.div2 <$> X) -> descending X.
Proof.
  induction X as [|x X IH]; [done|]. rewrite fmap_cons. intros [Hx Hd]%descending_cons. apply descending_cons. split; [|by apply IH].
  rewrite Forall_fmap in Hx. eapply Forall_impl; [exact Hx|]. intros y Hy. simpl in Hy.
  pose proof (Z.div2_odd x). pose proof (Z.div2_odd y). destruct (Z.odd x), (Z.odd y); simpl in *; lia.
Qed.

Lemma spill_search_spec have_cmov t X id :
  spill_ok t X -> 0 <= id < 2 ^ 31 ->
  exists i, spill_search have_cmov (spilled_list t) id = Some i /\
  match i with
  | O => 2 * id ∉ X
  | S k => X !! k = Some (2 * id)
  end.
Proof.
  unfold spill_ok, spill_search. destruct (spilled_list t) as [sl|]; intros Hok Hid.
  2: { subst X. exists O. split; [done|]. apply not_elem_of_nil. }
  destruct Hok as [Hc Hroom Ho _ _ _ _]. apply descending_of_halves in Ho.
  rewrite Z.shiftl_mul_pow2 by lia. change (2 ^ 1) with 2. rewrite u32_small by (unfold UINT32_MAX; lia). rewrite (Z.mul_comm id).
  destruct (descending_split X (2 * id) Ho) as (A & B & E & HA & HB).
  rewrite (pnl_search_spec have_cmov sl X Hc Hroom A B _ E HA HB). cbn [mbind option_bind]. rewrite (holding_size _ _ Hc).
  rewrite Forall_forall in HA, HB. assert (forall x, x ∈ X -> x = 2 * id -> exists B', B = x :: B') as Hfirst.
  { intros x Hx Ex. rewrite E in Hx. apply elem_of_app in Hx as [Hx|Hx]; [specialize (HA x Hx); simpl in HA; lia|].
    destruct B as [|b B]; [by apply elem_of_nil in Hx|]. exists B. apply elem_of_cons in Hx as [->|Hx]; [done|].
    rewrite E in Ho. apply descending_app in Ho as (_ & Ho & _). apply descending_cons in Ho as [Hb _]. rewrite Forall_forall in Hb.
    specialize (Hb x Hx). specialize (HB b ltac:(by left)). simpl in *. lia. }
  case_decide as Hlen.
  - destruct (lookup_lt_is_Some_2 X (length A)) as [y Hy]; [lia|]. rewrite (holding_rd_nth _ _ _ _ Hc Hy). cbn [mbind option_bind].
    eexists. split; [done|]. case_decide as Ey; [by rewrite Hy, Ey|]. intros Hin. destruct (Hfirst _ Hin eq_refl) as [B' EB].
    rewrite E, EB, lookup_app_r, Nat.sub_diag in Hy by lia. simpl in Hy. congruence.
  - exists O. split; [done|]. intros Hin. destruct (Hfirst _ Hin eq_refl) as [B' EB]. rewrite E, EB, length_app in Hlen. simpl in Hlen. lia.
Qed.

Lemma live_iff X id : descending (Z.div2 <$> X) -> id ∈ live X <-> 2 * id ∈ X.
Proof.
  intros _. unfold live. rewrite list_elem_of_fmap. split.
  - intros (x & -> & [He Hx]%list_elem_of_filter). by rewrite <- even_double.
  - intros Hx. exists (2 * id). split; [by rewrite Z.div2_div, Z.mul_comm, Z.div_mul|]. apply list_elem_of_filter. split; [|done].
    unfold removed. by rewrite Z.odd_mul.
Qed.

(** ** Squashing *)

Abbreviation kept_entries := (filter (fun x : Z => removed x = false)).

Lemma purge_loop_spec Y : forall K G V w r,
  length K = w -> (length K + length G = r)%nat ->
  exists G', purge_loop (length Y) (K ++ G ++ Y ++ V) w r = Some (K ++ kept_entries Y ++ G' ++ V, (w + length (kept_entries Y))%nat) /\
  length G' = (length G + length Y - length (kept_entries Y))%nat.
Proof.
  induction Y as [|y Y IH]; intros K G V w r HK HG; cbn [purge_loop length].
  - exists G. rewrite Nat.add_0_r. split; [done|]. simpl. lia.
  - replace (K ++ G ++ (y :: Y) ++ V) with ((K ++ G) ++ y :: Y ++ V) by by app_norm.
    rewrite rd_app_at by (rewrite length_app; lia). cbn [mbind option_bind].
    assert (exists G1, wr ((K ++ G) ++ y :: Y ++ V) w y = Some (K ++ y :: G1 ++ Y ++ V) /\ length G1 = length G) as (G1 & -> & HG1).
    { destruct G as [|g G].
      - exists []. rewrite app_nil_r, wr_app_at by done. done.
      - exists (G ++ [y]). replace ((K ++ g :: G) ++ y :: Y ++ V) with (K ++ g :: G ++ y :: Y ++ V) by by app_norm.
        rewrite wr_app_at by done. split; [by app_norm|]. rewrite length_app. simpl. lia. }
    cbn [mbind option_bind]. rewrite removed_land, filter_cons. pose proof (length_filter (fun x : Z => removed x = false) Y) as HY.
    destruct (removed y) eqn:Er.
    + rewrite decide_False by done. replace (w + 1 - Z.to_nat 1)%nat with w by lia.
      replace (K ++ y :: G1 ++ Y ++ V) with (K ++ (y :: G1) ++ Y ++ V) by by app_norm.
      destruct (IH K (y :: G1) V w (S r)) as (G' & -> & HG'); [done|simpl; lia|]. exists G'. split; [done|]. simpl in *. lia.
    + rewrite decide_True by done. replace (w + 1 - Z.to_nat 0)%nat with (S w) by lia.
      replace (K ++ y :: G1 ++ Y ++ V) with ((K ++ [y]) ++ G1 ++ Y ++ V) by by app_norm.
      destruct (IH (K ++ [y]) G1 V (S w) (S r)) as (G' & -> & HG'); [rewrite length_app; simpl; lia..|].
      exists G'. simpl. rewrite <- (app_assoc K), Nat.add_succ_r. split; [done|lia].
Qed.

Lemma kept_all (X : list Z) : (forall x, x ∈ X -> removed x = false) -> kept_entries X = X.
Proof.
  induction X as [|x X IH]; intros HX; [done|]. rewrite filter_cons, decide_True by (apply HX; by left).
  f_equal. apply IH. intros y Hy. apply HX. by right.
Qed.

Lemma spill_holds_kept sl least X sl' :
  spill_holds sl least X -> holding sl' (kept_entries X) -> length sl' = length sl -> spill_holds sl' INT_MAX (kept_entries X).
Proof.
  intros [Hc Hroom Ho Hb Hl Hcl Hlim] Hc' Hlen. pose proof (length_filter (fun x : Z => removed x = false) X) as HlX.
  split; [done|lia| | |by left| |lia].
  - clear -Ho. induction X as [|x X IH]; [done|]. rewrite fmap_cons in Ho. apply descending_cons in Ho as [Hx Ho].
    rewrite filter_cons. case_decide; [|by apply IH]. rewrite fmap_cons. apply descending_cons. split; [|by apply IH].
    rewrite Forall_fmap, Forall_forall in *. intros y [_ Hy]%list_elem_of_filter. by apply Hx.
  - apply Forall_forall. intros x [_ Hx]%list_elem_of_filter. rewrite Forall_forall in Hb. by apply Hb.
  - intros i x Hx _. apply list_elem_of_lookup_2, list_elem_of_filter in Hx. tauto.
Qed.

Lemma spill_purge_spec t X :
  spill_ok t X -> spilled_list t <> None ->
  exists t' sl, spill_purge t = Some t' /\ spilled_list t' = Some sl /\ spill_ok t' (kept_entries X) /\
  (t' = t \/ t' = with_spilled t sl INT_MAX).
Proof.
  unfold spill_ok, spill_purge. destruct (spilled_list t) as [sl|] eqn:Esl; [|done]. intros Hok _.
  cbn [mbind option_bind]. pose proof Hok as [[W Ec] Hroom Ho Hb Hl Hcl Hlim]. case_decide as Hleast.
  - destruct Hl as [Hl|Hl]; [done|]. rewrite Ec, pnl_size_cons. set (r := Z.to_nat (least_removed t)).
    assert (kept_entries (take (r - 1) X) = take (r - 1) X) as Etake.
    { apply kept_all. intros x (i & Hi & Hlt)%elem_of_take. apply (Hcl i x Hi). lia. }
    destruct (purge_loop_spec (drop (r - 1) X) (Z.of_nat (length X) :: take (r - 1) X) [] W r r) as (G & E & HG).
    { simpl. rewrite length_take. lia. }
    { simpl. rewrite length_take. lia. }
    rewrite length_drop in E, HG. replace (S (length X) - r)%nat with (length X - (r - 1))%nat by lia.
    replace (Z.of_nat (length X) :: X ++ W) with ((Z.of_nat (length X) :: take (r - 1) X) ++ [] ++ drop (r - 1) X ++ W).
    2: { simpl. by rewrite app_assoc, take_drop. }
    rewrite E. cbn [mbind option_bind].
    assert (kept_entries X = take (r - 1) X ++ kept_entries (drop (r - 1) X)) as EX.
    { rewrite <- (take_drop (r - 1) X) at 1. by rewrite filter_app, Etake. }
    simpl ((_ :: _) ++ _). rewrite app_assoc, <- EX, pnl_setsize_spec. cbn [mbind option_bind].
    assert (length (kept_entries X) = (r + length (kept_entries (drop (r - 1) X)) - 1)%nat) as Elen by (rewrite EX, length_app, length_take; lia).
    eexists _, _. split; [done|]. split; [done|]. split; [|by right]. cbn [spilled_list least_removed with_spilled].
    eapply spill_holds_kept; [exact Hok|eexists; by rewrite Elen|]. rewrite Ec. simpl.
    pose proof (length_filter (fun x : Z => removed x = false) (drop (r - 1) X)) as Hf. rewrite length_drop in Hf.
    rewrite !length_app. simpl in HG. lia.
  - exists t, sl. split; [done|]. split; [done|]. rewrite Esl. split; [|by left].
    assert (kept_entries X = X) as ->; [|done]. apply kept_all. intros x [i Hi]%list_elem_of_lookup. apply (Hcl i x Hi).
    pose proof (lookup_lt_Some _ _ _ Hi). lia.
Qed.

(** ** Removing *)

Lemma spill_mark_spec s A x C :
  (S (length A) <= s)%nat ->
  spill_mark (Z.of_nat s :: A ++ x :: C) (S (length A)) =
  Some (Z.of_nat (if decide (S (length A) = s) then length A else s) :: A ++ Z.lor x 1 :: C).
Proof.
  intros Hs. unfold spill_mark. replace (Z.of_nat s :: A ++ x :: C) with ((Z.of_nat s :: A) ++ x :: C) by done.
  rewrite rd_app_at by done. cbn [mbind option_bind]. rewrite wr_app_at by done. cbn [mbind option_bind].
  simpl ((_ :: _) ++ _). rewrite pnl_size_cons, pnl_setsize_spec. do 3 f_equal. repeat case_decide; lia.
Qed.

(** The cells [run] are the other pages of a large page. *)
Lemma spill_remove_loop_spec m : forall A0 x s C least,
  (length A0 + m <= s)%nat -> 0 <= Z.div2 x -> Z.div2 x + Z.of_nat m < 2 ^ 31 ->
  exists M, spill_remove_loop m (Z.of_nat s :: (A0 ++ steps_down (2 * (Z.div2 x + 1)) 2 m) ++ x :: C) least (S (length A0 + m)) =
  Some (Z.of_nat (if decide (s = length A0 + m)%nat then length A0 else s) :: A0 ++ M ++ x :: C,
    if decide (m = 0)%nat then least else Z.min (Z.of_nat (S (length A0))) least) /\
  Forall (fun y => removed y = true) M /\ Z.div2 <$> M = Z.div2 <$> steps_down (2 * (Z.div2 x + 1)) 2 m.
Proof.
  induction m as [|m IH]; intros A0 x s C least Hs Hx Hmax; cbn [spill_remove_loop].
  - exists []. rewrite Nat.add_0_r, app_nil_r. simpl. split_and!; [|constructor|done].
    replace (if decide (s = _) then length A0 else s) with s by (case_decide; lia). done.
  - rewrite steps_down_S. set (A := A0 ++ steps_down (2 * (Z.div2 x + 1) + 2) 2 m). set (y := 2 * (Z.div2 x + 1)).
    assert (length A = (length A0 + m)%nat) as HA by (unfold A; by rewrite length_app, length_steps_down).
    replace (Z.of_nat s :: (A0 ++ steps_down (y + 2) 2 m ++ [y]) ++ x :: C) with ((Z.of_nat s :: A ++ [y]) ++ x :: C).
    2: { unfold A. by app_norm. }
    rewrite (rd_app_at _ x C (S (length A0 + S m))) by (cbn [length]; rewrite length_app; cbn [length]; lia). cbn [mbind option_bind].
    replace (Nat.pred (S (length A0 + S m))) with (S (length A)) by lia. rewrite decide_False by lia.
    replace ((Z.of_nat s :: A ++ [y]) ++ x :: C) with ((Z.of_nat s :: A) ++ y :: x :: C) by by app_norm.
    rewrite (rd_app_at (Z.of_nat s :: A) y) by done. cbn [mbind option_bind].
    assert (Z.div2 y = Z.div2 x + 1) as Ey by (unfold y; by rewrite (Z.div2_div (2 * _)), Z.mul_comm, Z.div_mul).
    rewrite <- !Z.div2_spec, Ey, u32_small by (unfold UINT32_MAX; lia). rewrite decide_False by (intros []; done).
    simpl ((_ :: _) ++ _). rewrite spill_mark_spec by lia. cbn [mbind option_bind].
    destruct (IH A0 (Z.lor y 1) (if decide (S (length A) = s) then length A else s) (x :: C) (Z.min (Z.of_nat (S (length A))) least))
      as (M & E & HM & EM); [clear IH; case_decide; lia|rewrite div2_lor, Ey; lia..|]. rewrite div2_lor, Ey in E, EM.
    exists (M ++ [Z.lor y 1]). replace (2 * (Z.div2 x + 1 + 1)) with (y + 2) in * by (unfold y; lia). rewrite <- HA in E. change (A0 ++ steps_down (y + 2) 2 m) with A in E.
    rewrite E. split_and!.
    + clear IH. f_equal. f_equal; [|repeat case_decide; lia]. f_equal; [repeat case_decide; lia|by app_norm].
    + apply Forall_app. split; [done|]. constructor; [apply removed_lor|constructor].
    + rewrite !fmap_app, EM. simpl. by rewrite div2_lor.
Qed.

Lemma live_removed M : Forall (fun y => removed y = true) M -> live M = [].
Proof.
  unfold live. induction 1 as [|y M Hy HM IH]; [done|]. rewrite filter_cons, decide_False by (by rewrite Hy). done.
Qed.

(** A spilled page of [n] pages is no longer in the list, and the other pages are
    as before; the cells of the last page of the list are given up. *)
Lemma spill_remove_spec t X A0 B p m :
  spill_ok t X -> X = A0 ++ steps_down (2 * (p + 1)) 2 m ++ (2 * p) :: B ->
  exists t' sl X', spill_remove t (S (length A0 + m)) (Z.of_nat (S m)) = Some t' /\ t' = with_spilled t sl (least_removed t') /\
  spill_ok t' X' /\ live X' = live A0 ++ live B.
Proof.
  unfold spill_ok, spill_remove. destruct (spilled_list t) as [sl|] eqn:Esl; [|intros -> E%(f_equal length); rewrite !length_app in E; simpl in E; lia].
  intros [[W Ec] Hroom Ho Hb Hl Hcl Hlim] EX. cbn [mbind option_bind]. set (run := steps_down (2 * (p + 1)) 2 m) in *.
  assert (length run = m) as Hrun by apply length_steps_down. pose proof (f_equal length EX) as ElX. rewrite !length_app in ElX. simpl in ElX.
  rewrite Ec, EX. rewrite Ec, EX in Hroom. simpl in Hroom. rewrite !length_app in Hroom.
  assert (0 <= p < 2 ^ 31) as Hp.
  { rewrite Forall_forall in Hb. specialize (Hb (2 * p)). rewrite EX in Hb. specialize (Hb ltac:(rewrite !elem_of_app; right; right; by left)). lia. }
  assert (p + Z.of_nat m < 2 ^ 31) as Hpm.
  { destruct m as [|m']; [lia|]. assert (2 * (p + 1) + 2 * Z.of_nat m' ∈ X) as Hin.
    { rewrite EX. rewrite !elem_of_app. right. left. apply elem_of_steps_down. exists (Z.of_nat m'). lia. }
    rewrite Forall_forall in Hb. specialize (Hb _ Hin). lia. }
  replace (Z.of_nat (length (A0 ++ run ++ 2 * p :: B)) :: (A0 ++ run ++ 2 * p :: B) ++ W) with
    (Z.of_nat (length X) :: (A0 ++ run) ++ 2 * p :: B ++ W) by (rewrite EX; by app_norm).
  replace (S (length A0 + m)) with (S (length (A0 ++ run))) by (rewrite length_app; lia).
  rewrite spill_mark_spec by (rewrite length_app; lia). cbn [mbind option_bind].
  replace (Z.to_nat (Z.of_nat (S m) - 1)) with m by lia.
  set (s := if decide _ then _ else _).
  assert (Z.div2 (Z.lor (2 * p) 1) = p) as Ep by (rewrite div2_lor, Z.div2_div, Z.mul_comm, Z.div_mul; lia).
  destruct (spill_remove_loop_spec m A0 (Z.lor (2 * p) 1) s (B ++ W) (Z.min (Z.of_nat (S (length (A0 ++ run)))) (least_removed t)))
    as (M & E & HM & EM).
  { unfold s. rewrite length_app. case_decide; lia. }
  { lia. }
  { lia. }
  rewrite Ep in E, EM. fold run in E, EM. rewrite <- Hrun, <- (length_app A0 run) in E.
  rewrite Hrun in E. rewrite E. cbn [mbind option_bind]. rewrite <- Hrun in E.
  set (least := if decide (m = 0)%nat then _ else _).
  assert (length M = m) as HlM by (apply (f_equal length) in EM; rewrite !length_fmap in EM; lia).
  assert (least = Z.min (Z.of_nat (S (length A0))) (least_removed t)) as Eleast.
  { unfold least. rewrite length_app. destruct (decide (m = 0)%nat) as [->|]; simpl in Hrun |- *; rewrite ?Hrun; lia. }
  assert (exists X' V, (if decide (s = length (A0 ++ run)) then length A0 else s) = length X' /\
    A0 ++ M ++ Z.lor (2 * p) 1 :: B ++ W = X' ++ V /\ live X' = live A0 ++ live B /\ (X' = A0 \/ X' = A0 ++ M ++ Z.lor (2 * p) 1 :: B)) as
    (X' & V & Es & EV & Hlive & HX').
  { unfold s. destruct B as [|b B].
    - exists A0, (M ++ Z.lor (2 * p) 1 :: W). split_and!; [|done|by rewrite app_nil_r|by left]. rewrite length_app. simpl in ElX.
      repeat case_decide; lia.
    - exists (A0 ++ M ++ Z.lor (2 * p) 1 :: b :: B), W. split_and!; [|by app_norm| |by right].
      + rewrite !length_app in *. simpl in *. repeat case_decide; lia.
      + rewrite !live_app, (live_removed M HM). change (Z.lor (2 * p) 1 :: b :: B) with ([Z.lor (2 * p) 1] ++ b :: B).
        rewrite live_app, (live_removed [_]); [done|]. constructor; [apply removed_lor|constructor]. }
  eexists _, _, X'. split; [done|]. split; [done|]. split; [|done]. cbn [spilled_list least_removed with_spilled].
  assert (length X' <= length X)%nat as HlX' by (destruct HX' as [->| ->]; rewrite ?length_app; simpl; lia).
  assert (Z.div2 <$> A0 ++ M ++ Z.lor (2 * p) 1 :: B = Z.div2 <$> X) as Ediv.
  { rewrite EX, !fmap_app, !fmap_cons, EM, div2_lor. done. }
  split; [|simpl|..|lia].
  - exists V. by rewrite EV, Es.
  - rewrite !length_app in *. simpl in *. rewrite length_app in *. lia.
  - destruct HX' as [->| ->]; [|by rewrite Ediv]. rewrite <- Ediv, fmap_app in Ho. by apply descending_app in Ho as (? & _).
  - apply Forall_forall. intros x Hx. assert (Z.div2 x ∈ Z.div2 <$> X) as Hd.
    { rewrite <- Ediv. destruct HX' as [->| ->]; [rewrite fmap_app, elem_of_app; left|]; by apply list_elem_of_fmap_2. }
    apply list_elem_of_fmap in Hd as (y & Ey & Hy). rewrite Forall_forall in Hb. specialize (Hb y Hy). simpl in Hb.
    pose proof (Z.div2_odd x). pose proof (Z.div2_odd y). destruct (Z.odd x), (Z.odd y); simpl in *; lia.
  - right. rewrite Eleast. unfold INT_MAX in *. destruct HX' as [->| ->]; rewrite ?length_app; simpl; lia.
  - intros i x Hx Hi. rewrite Eleast in Hi. apply (Hcl i x); [|lia].
    assert (i < length A0)%nat as Hi' by lia. rewrite EX, lookup_app_l by lia.
    destruct HX' as [->| ->]; [done|]. by rewrite lookup_app_l in Hx by lia.
Qed.
