(* ===== verification/LooseRefund.v ===== *)
(** * Loose pages: giving pages back to the space behind the end

    The routines of [txn_refund]: the pages of [repnl] at the end, the filter of
    the list of dirty pages, the chain of loose pages, and the two ways to find
    the loose pages at the end. *)

From S2P Require Import Prelude Search Sort Radix Meta Page Pnl PnlFacts PnlMerge PnlCut Dpl DplFacts DplOps Repnl.
From S2P Require Import Loose LooseFacts.

(** ** Reusable pages at the end *)

Lemma descending_below L f : descending L -> exists A B, L = A ++ B /\ Forall (fun y => f <= y) A /\ filter (fun y => y < f) L = B.
Proof.
  induction L as [|y L IH]; intros Hd; [by exists [], []|]. apply descending_cons in Hd as [Hy Hd].
  rewrite filter_cons. case_decide as Hlt.
  - exists [], (y :: L). split_and!; [done|constructor|]. f_equal. apply (filter_below_all (fun p => p)).
    intros x Hx. rewrite Forall_forall in Hy. specialize (Hy x Hx). simpl in Hy. lia.
  - destruct (IH Hd) as (A & B & -> & HA & HB). exists (y :: A), B. split_and!; [done| |done]. constructor; [lia|done].
Qed.

Section reclaimed.
Context (c R : list Z) (Hc : holding c R) (Hd : descending R) (Hok : Forall (fun y => NUM_METAS <= y < 2 ^ 32) R).

Lemma reclaimed_run_spec fuel : forall i fu,
  (0 < i <= length R)%nat -> (length R - i < fuel)%nat -> R !! (i - 1)%nat = Some (fu - 1) ->
  exists i' fu', reclaimed_run fuel c i (length R) fu = Some (i', fu') /\ fu' < fu /\ (i < i' <= S (length R))%nat /\
  R !! (i' - 2)%nat = Some fu' /\ (forall x, R !! (i' - 1)%nat = Some x -> x < fu' - 1) /\
  (forall p, fu' <= p < fu -> p ∈ R).
Proof.
  induction fuel as [|fuel IH]; intros i fu Hi Hf Hx; [lia|]. cbn [reclaimed_run].
  pose proof (Forall_lookup_1 _ _ _ _ Hok Hx) as Hb. unfold NUM_METAS in Hb. simpl in Hb.
  rewrite (u32_small (fu - 1)), (u32_small (fu - 1 - 1)) by (unfold UINT32_MAX; lia).
  assert (forall p, fu - 1 <= p < fu -> p ∈ R) as Hin.
  { intros p Hp. assert (p = fu - 1) as -> by lia. by eapply list_elem_of_lookup_2. }
  case_decide as Hlen.
  - destruct (lookup_lt_is_Some_2 R i) as [y Hy]; [lia|]. rewrite (holding_rd_nth _ _ _ _ Hc Hy). cbn [mbind option_bind].
    case_decide as E.
    + destruct (IH (S i) (fu - 1)) as (i' & fu' & -> & H1 & H2 & H3 & H4 & H5); [lia|lia| |].
      { replace (S i - 1)%nat with i by lia. by rewrite Hy, E. }
      exists i', fu'. split_and!; try done; [lia|lia|lia|]. intros p Hp.
      destruct (decide (p = fu - 1)); [apply Hin; lia|apply H5; lia].
    + exists (S i), (fu - 1). split_and!; [done|lia|lia|lia| | |done].
      * replace (S i - 2)%nat with (i - 1)%nat by lia. done.
      * intros x. replace (S i - 1)%nat with i by lia. rewrite Hy. intros [= <-].
        pose proof (descending_lookup R (i - 1) i _ _ Hd ltac:(lia) Hx Hy). lia.
  - exists (S i), (fu - 1). split_and!; [done|lia|lia|lia| | |done].
    + replace (S i - 2)%nat with (i - 1)%nat by lia. done.
    + intros x Hx'. apply lookup_lt_Some in Hx'. lia.
Qed.
End reclaimed.

Lemma refund_reclaimed_spec lim t D R L :
  wr_ok lim t D R L -> first_unallocated t - 1 ∈ R ->
  exists t', refund_reclaimed t = Some t' /\ refunds lim t t' D R L /\ first_unallocated t' < first_unallocated t /\
  first_unallocated t' - 1 ∉ R /\ same_spilled t t' /\ loose_pages t' = loose_pages t /\ loose_refund_wl t' = loose_refund_wl t.
Proof.
  intros H Hin. pose proof (wo_pool _ _ _ _ _ H) as Hp. pose proof (wo_repnl _ _ _ _ _ H) as Hr.
  destruct (po_repnl _ _ _ _ _ Hp) as [Hd Hb]. pose proof (po_end _ _ _ _ _ Hp) as He.
  set (fu := first_unallocated t) in *.
  assert (R !! 0%nat = Some (fu - 1)) as H0.
  { destruct R as [|y R']; [by apply elem_of_nil in Hin|]. apply elem_of_cons in Hin as [<-|Hin]; [done|].
    apply descending_cons in Hd as [Hy _]. rewrite Forall_forall in Hy, Hb. specialize (Hy _ Hin). specialize (Hb y ltac:(by left)).
    simpl in *. lia. }
  destruct Hr as [[W Ec] Hcap Hroom Hlim].
  assert (Forall (fun y => NUM_METAS <= y < 2 ^ 32) R) as Hb'.
  { eapply Forall_impl; [exact Hb|]. simpl. unfold MAX_PAGENO in He. lia. }
  assert (holding (cells (repnl t)) R) as Hc by (by exists W).
  assert (0 < length R)%nat by (destruct R; [by apply elem_of_nil in Hin|simpl; lia]).
  destruct (reclaimed_run_spec _ R Hc Hd Hb' (S (length R)) 1 fu) as (i & f & E & Hf & Hi & Hfi & Hn & Hs); [lia|lia|done|].
  unfold refund_reclaimed. fold fu. rewrite (holding_size _ _ Hc), E. cbn [mbind option_bind].
  assert (filter (fun y => y < f) R = drop (i - 1) R) as Efilter.
  { rewrite <- (take_drop (i - 1) R) at 1. rewrite filter_app, (filter_below_none (fun p => p)), (filter_below_all (fun p => p)); [done| |].
    - intros y (j & Hj)%list_elem_of_lookup. rewrite lookup_drop in Hj.
      destruct (decide (j = 0)%nat) as [->|]; [rewrite Nat.add_0_r in Hj; specialize (Hn _ Hj); lia|].
      pose proof (descending_lookup R (i - 2) (i - 1 + j) _ _ Hd ltac:(lia) Hfi Hj). lia.
    - intros y (j & Hj & Hlt)%elem_of_take.
      destruct (decide (j = i - 2)%nat) as [->|]; [rewrite Hfi in Hj; simplify_eq; lia|].
      pose proof (descending_lookup R j (i - 2) _ _ Hd ltac:(lia) Hj Hfi). lia. }
  assert (forall x, x ∈ D -> pgno x < f) as HD.
  { intros x Hx. destruct (decide (pgno x < f)); [done|]. exfalso. destruct (po_pages _ _ _ _ _ Hp x Hx) as (_ & _ & Hn1 & Hn2).
    fold fu in Hn2. apply (po_apart _ _ _ _ _ Hp x (pgno x) Hx); [apply Hs; lia|unfold page_in; lia]. }
  assert (forall p, p ∈ L -> h_pgno (heads t p) < f) as HL.
  { intros p (x & Hx & _ & _ & <-)%(loose_is_dirty _ _ _ _ _ Hp). by apply HD. }
  pose proof (pool_refund _ _ _ _ _ Hp f ltac:(lia) ltac:(intros p Hpr; left; by apply Hs)) as Hp'.
  rewrite (filter_below_all pgno), (filter_below_all (fun p => h_pgno (heads t p))), Efilter in Hp' by done.
  rewrite Ec, pnl_setsize_spec. cbn [mbind option_bind].
  destruct (shift_cells_spec (drop (i - 1) R) [Z.of_nat (length R - (i - 1))] (take (i - 1) R) W 1 (i - 1)) as (G & HG & Esh);
    [done|rewrite length_take; lia|..].
  rewrite length_drop in Esh. rewrite (app_assoc (take (i - 1) R)), take_drop in Esh. simpl in Esh. rewrite Esh. cbn [mbind option_bind].
  eexists. split; [done|]. split; [|split_and!; try done].
  - split; cbn [first_unallocated heads with_unallocated with_repnl]; [fold fu; lia| | | |by left].
    + intros p Hpr. left. apply Hs. fold fu in Hpr. lia.
    + rewrite (filter_below_all pgno), (filter_below_all (fun p => h_pgno (heads t p))), Efilter by done.
      destruct H as [K1 _ _ K4 K5 K6 K7 K8]. split; try done. cbn [repnl with_unallocated with_repnl].
      rewrite Ec in Hroom. simpl in Hroom. rewrite length_app in Hroom. rewrite length_take in HG.
      split; cbn [cells pnl_alloclen]; [exists (G ++ W); by rewrite length_drop|rewrite length_drop; lia| |done].
      simpl. rewrite !length_app, length_drop. lia.
    + split; [intros p; apply same_head_refl|done..].
  - cbn [first_unallocated with_unallocated]. intros Hf'. assert (f - 1 ∈ filter (fun y => y < f) R) as Hf2 by (apply list_elem_of_filter; split; [lia|done]).
    rewrite Efilter in Hf2. apply list_elem_of_lookup in Hf2 as [j Hj]. rewrite lookup_drop in Hj.
    destruct (decide (j = 0)%nat) as [->|]; [rewrite Nat.add_0_r in Hj; specialize (Hn _ Hj); lia|].
    destruct (lookup_lt_is_Some_2 R (i - 1)) as [y Hy]; [apply lookup_lt_Some in Hj; lia|]. specialize (Hn _ Hy).
    pose proof (descending_lookup R (i - 1) (i - 1 + j) _ _ Hd ltac:(lia) Hy Hj). lia.
Qed.

(** ** The filter of the list of dirty pages *)

Section filter.
Implicit Types (K G Y Z S U W : list dp_t).

Abbreviation below f := (filter (fun x : dp_t => pgno x < f)).

(** A kept entry closes the gap behind the ones kept before. *)
Lemma gap_move K G y Z w r :
  length K = S w -> (length K + length G = S r)%nat ->
  exists G1, (if decide (S w <> S r) then wr ((K ++ G) ++ y :: Z) (S w) y else Some ((K ++ G) ++ y :: Z)) =
  Some ((K ++ [y]) ++ G1 ++ Z) /\ length G1 = length G.
Proof.
  intros HK HG. destruct G as [|g G].
  - rewrite decide_False by (simpl in HG; lia). exists []. split; [by app_norm|done].
  - rewrite decide_True by (simpl in HG; lia). replace ((K ++ g :: G) ++ y :: Z) with (K ++ g :: G ++ y :: Z) by by app_norm.
    rewrite wr_app_at' by lia. exists (G ++ [y]). split; [by app_norm|]. rewrite length_app. simpl. lia.
Qed.

Lemma keep_below_spec f Y : forall K G Z w r,
  length K = S w -> (length K + length G = S r)%nat ->
  exists G', keep_below (length Y) (K ++ G ++ Y ++ Z) w r f = Some (K ++ below f Y ++ G' ++ Z, (w + length (below f Y))%nat) /\
  length G' = (length G + length Y - length (below f Y))%nat.
Proof.
  induction Y as [|y Y IH]; intros K G Z w r HK HG; cbn [keep_below length].
  - exists G. rewrite Nat.add_0_r. split; [done|]. simpl. lia.
  - replace (K ++ G ++ (y :: Y) ++ Z) with ((K ++ G) ++ y :: Y ++ Z) by by app_norm.
    rewrite rd_app_at' by (rewrite length_app; lia). cbn [mbind option_bind]. rewrite filter_cons.
    pose proof (length_filter (fun x : dp_t => pgno x < f) Y) as HY. case_decide.
    + destruct (gap_move K G y (Y ++ Z) w r HK HG) as (G1 & -> & HG1). cbn [mbind option_bind].
      destruct (IH (K ++ [y]) G1 Z (S w) (S r)) as (G' & -> & HG'); [rewrite length_app; simpl; lia..|].
      exists G'. simpl. split; [|lia]. do 2 f_equal; [by app_norm|lia].
    + replace ((K ++ G) ++ y :: Y ++ Z) with (K ++ (G ++ [y]) ++ Y ++ Z) by by app_norm.
      destruct (IH K (G ++ [y]) Z w (S r)) as (G' & -> & HG'); [done|rewrite length_app; simpl; lia|].
      exists G'. split; [done|]. rewrite length_app in HG'. simpl in *. lia.
Qed.

(** The list of dirty pages when a part of its entries was kept. *)
Lemma filtered_holds dl S U W (P : dp_t -> Prop) `{!forall x, Decision (P x)} G pages :
  dpl_holds dl S U -> items dl = dpl_stubB :: S ++ U ++ dpl_stubE :: W ->
  length G = (length S + length U - length (filter P S) - length (filter P U))%nat -> pages = u64 (pages_of (filter P (S ++ U))) ->
  exists dl', dpl_setlen (mk_dpl (length (filter P S)) (dl_length dl) pages (detent dl)
    ((dpl_stubB :: filter P S) ++ filter P U ++ G ++ dpl_stubE :: W)) (length (filter P S) + length (filter P U)) = Some dl' /\
  dpl_holds dl' (filter P S) (filter P U).
Proof.
  intros [_ Hs Hl Ha Hu Ho Hp Hcap Hroom Hlim] Hi HG ->. unfold dpl_setlen. cbn [items].
  pose proof (length_filter P S) as HfS. pose proof (length_filter P U) as HfU.
  assert (exists W', wr ((dpl_stubB :: filter P S) ++ filter P U ++ G ++ dpl_stubE :: W) (length (filter P S) + length (filter P U) + 1) dpl_stubE =
    Some (dpl_stubB :: filter P S ++ filter P U ++ dpl_stubE :: W') /\ length W' = (length G + length W)%nat) as (W' & -> & HW').
  { exists (tail (G ++ dpl_stubE :: W)). split; [|destruct G; simpl; rewrite ?length_app; simpl; lia].
    destruct (G ++ dpl_stubE :: W) as [|g Q] eqn:EQ; [by destruct G|].
    replace ((dpl_stubB :: filter P S) ++ filter P U ++ g :: Q) with ((dpl_stubB :: filter P S ++ filter P U) ++ g :: Q) by by app_norm.
    rewrite wr_app_at' by (simpl; rewrite length_app; lia). by app_norm. }
  cbn [mbind option_bind sorted dl_length pages_including_loose detent].
  assert (filter P (S ++ U) = filter P S ++ filter P U) as EF by apply filter_app.
  assert (forall Q : list Z -> Prop, (forall l l' : list Z, l' `sublist_of` l -> Q l -> Q l') -> Q (pgnos (S ++ U)) -> Q (pgnos (filter P S ++ filter P U))) as Hsub.
  { intros Q HQ. apply HQ. rewrite <- EF. apply fmap_sublist, sublist_filter. }
  eexists. split; [done|]. split; cbn [sorted dl_length pages_including_loose detent items].
  - eauto.
  - done.
  - done.
  - assert (ascending (pgnos (filter P S))) as HaS; [|exact HaS].
    clear -Ha. induction S as [|x S IH]; [done|]. rewrite fmap_cons, ascending_cons in Ha. destruct Ha as [Hx Ha]. rewrite filter_cons.
    case_decide; [|by apply IH]. rewrite fmap_cons, ascending_cons. split; [|by apply IH].
    rewrite Forall_fmap in Hx |- *. apply Forall_forall. intros z [_ Hz]%list_elem_of_filter. rewrite Forall_forall in Hx. by apply Hx.
  - apply Hsub; [|done]. intros l l' Hl' Hnd. by eapply sublist_NoDup.
  - apply Hsub; [|done]. intros l l' Hl' Hfa. rewrite Forall_forall in Hfa |- *. intros z Hz. apply Hfa.
    by eapply elem_of_subseteq; [apply sublist_subseteq|].
  - by rewrite EF.
  - lia.
  - simpl. repeat (rewrite length_app; simpl). rewrite Hi in Hroom. simpl in Hroom. repeat (rewrite length_app in Hroom; simpl in Hroom). lia.
  - done.
Qed.

(** The entries in front of [f] stay; [n] is the number of pages of the others. *)
Lemma dpl_keep_below_spec dl S U f n :
  dpl_holds dl S U -> n = pages_of (S ++ U) - pages_of (below f (S ++ U)) ->
  exists dl', dpl_keep_below (with_pages dl (u64 (pages_including_loose dl - n))) f = Some dl' /\
  dpl_holds dl' (below f S) (below f U).
Proof.
  intros Hdl ->. pose proof Hdl as [[W Hi] Hs Hl _ _ _ Hp _ _ _]. unfold dpl_keep_below.
  cbn [with_pages sorted dl_length items pages_including_loose detent]. rewrite Hi, Hs, Hl.
  destruct (keep_below_spec f S [dpl_stubB] [] (U ++ dpl_stubE :: W) 0 0) as (G1 & E1 & HG1); [done..|].
  simpl in E1. rewrite E1. cbn [mbind option_bind].
  replace (length S + length U - length S)%nat with (length U) by lia.
  pose proof (length_filter (fun x : dp_t => pgno x < f) S) as HfS. simpl in HG1.
  destruct (keep_below_spec f U (dpl_stubB :: below f S) G1 (dpl_stubE :: W) (length (below f S)) (length S)) as (G2 & E2 & HG2);
    [done|simpl; lia|].
  replace (dpl_stubB :: below f S ++ G1 ++ U ++ dpl_stubE :: W) with ((dpl_stubB :: below f S) ++ G1 ++ U ++ dpl_stubE :: W) by done.
  rewrite E2. cbn [mbind option_bind].
  replace (if decide (length S <> 0%nat) then length (below f S) else length S) with (length (below f S)).
  2: { case_decide as E; [done|]. assert (S = []) as -> by (destruct S; [done|simpl in E; lia]). done. }
  unfold with_sorted, with_items, with_pages. cbn [sorted dl_length items pages_including_loose detent].
  apply (filtered_holds dl S U W (fun x => pgno x < f) G2); [done|done|lia|].
  rewrite Hp. unfold u64. rewrite Zminus_mod_idemp_l. f_equal. lia.
Qed.
End filter.

(** ** Unlinking *)

(** All that [unlink_loose] does not change, but the headers. *)
Record same_lists (t t' : wr_txn) : Prop := {
  sl_dirty : dlist t' = dlist t /\ dirtyroom (dirty t') = dirtyroom (dirty t);
  sl_end : first_unallocated t' = first_unallocated t;
  sl_repnl : repnl t' = repnl t;
  sl_loose : loose_count t' = loose_count t /\ loose_refund_wl t' = loose_refund_wl t;
  sl_spilled : same_spilled t t';
  sl_frame : framed t t'
}.

Lemma same_lists_refl t : same_lists t t.
Proof. split; [done..|by split|apply framed_refl]. Qed.

Lemma same_lists_trans t1 t2 t3 : same_lists t1 t2 -> same_lists t2 t3 -> same_lists t1 t3.
Proof.
  intros [[? ?] ? ? [? ?] [? ?] Hfr] [[? ?] ? ? [? ?] [? ?] Hfr']. split; try (split; congruence); try congruence. by eapply framed_trans.
Qed.

Lemma same_lists_set_next t p v : same_lists t (set_page_next t p v).
Proof.
  split; try done. split; try done. intros q. cbn. case_decide as E; [rewrite E; by split_and!|apply same_head_refl].
Qed.

Lemma same_lists_release t p n : same_lists t (shadow_release t p n).
Proof. by split. Qed.

Lemma same_lists_write_link t link v : same_lists t (write_link t link v).
Proof. destruct link; [apply same_lists_set_next|by split]. Qed.

Lemma write_link_other t link v p : Some p <> link -> heads (write_link t link v) p = heads t p.
Proof. destruct link as [q|]; [|done]. cbn. intros Hp. by rewrite decide_False by congruence. Qed.

Lemma read_write_link t link v : read_link (write_link t link v) link = v.
Proof. destruct link as [q|]; [|done]. cbn. by rewrite decide_True. Qed.

Abbreviation kept t := (filter (fun p => h_pgno (heads t p) < first_unallocated t)).

Lemma unlink_loose_spec fuel : forall B t link,
  (length B < fuel)%nat -> NoDup B -> (forall q, link = Some q -> q ∉ B) -> chain (heads t) (read_link t link) B ->
  NoDup (reserve t) -> (forall p, p ∈ B -> p ∉ reserve t) ->
  exists t', unlink_loose fuel t link = Some t' /\ chain (heads t') (read_link t' link) (kept t B) /\ same_lists t t' /\
  (forall p, p ∉ B -> Some p <> link -> heads t' p = heads t p) /\ (link <> None -> loose_pages t' = loose_pages t) /\
  NoDup (reserve t') /\ (forall p, p ∈ reserve t' -> p ∈ reserve t \/ (p ∈ B /\ first_unallocated t <= h_pgno (heads t p))).
Proof.
  induction fuel as [|fuel IH]; intros B t link Hf Hnd Hlink Hc Hres HBres; [lia|]. cbn [unlink_loose].
  destruct B as [|dp B]; cbn [chain] in Hc.
  { rewrite Hc. exists t. split_and!; [done|done|apply same_lists_refl|done|done|done|by left]. }
  destruct Hc as [El Hc]. rewrite El. apply NoDup_cons in Hnd as [Hdp Hnd]. cbn [length] in Hf.
  assert (Some dp <> link) as Hne by (intros <-; apply (Hlink dp eq_refl); left).
  rewrite filter_cons. case_decide as Hlt.
  - rewrite decide_True by lia.
    destruct (IH B t (Some dp)) as (t' & -> & Hc' & Hs & Hh & Hl & Hr1 & Hr2);
      [lia|done|by intros q [= <-]|done|done|intros p Hp; apply HBres; by right|].
    exists t'. split_and!; [done| |done| | |done|].
    + split; [|done]. rewrite <- El. destruct link as [q|]; cbn [read_link]; [|by apply Hl].
      rewrite Hh; [done| |congruence]. intros Hq. apply (Hlink q eq_refl). by right.
    + intros p [Hp1 Hp2]%not_elem_of_cons Hpl. apply Hh; [done|congruence].
    + intros Hn. by apply Hl.
    + intros p [?|[? ?]]%Hr2; [by left|right; split; [by right|done]].
  - rewrite decide_False by lia. set (t1 := shadow_release _ dp 1).
    assert (same_lists t t1) as Hs1 by (eapply same_lists_trans; [apply same_lists_write_link|apply same_lists_release]).
    assert (forall p, Some p <> link -> heads t1 p = heads t p) as Hh1 by (intros p; apply write_link_other).
    assert (forall p, p ∈ B -> Some p <> link) as HBl by (intros p Hp <-; apply (Hlink p eq_refl); by right).
    assert (reserve t1 = reserve t \/ reserve t1 = dp :: reserve t) as Hres1.
    { replace (reserve t) with (reserve (write_link t link (page_next (heads t dp)))) by by destruct link. apply reserve_release. }
    assert (dp ∉ reserve t) as Hdpres by (apply HBres; by left).
    destruct (IH B t1 link) as (t' & -> & Hc' & Hs & Hh & Hl & Hr1 & Hr2); [lia|done| | | | |].
    + intros q Eq Hq. apply (Hlink q Eq). by right.
    + change (chain (heads t1) (read_link (write_link t link (page_next (heads t dp))) link) B).
      rewrite read_write_link. eapply chain_ext; [|exact Hc]. intros p Hp. by rewrite Hh1 by by apply HBl.
    + destruct Hres1 as [->| ->]; [done|by constructor].
    + intros p Hp Hin. assert (p ∉ reserve t) as Hp' by (apply HBres; by right).
      destruct Hres1 as [E|E]; rewrite E in Hin; [done|]. apply elem_of_cons in Hin as [->|Hin]; done.
    + exists t'. split_and!; [done| |by eapply same_lists_trans| | |done|].
      * rewrite (filter_iff_in _ (fun p => h_pgno (heads t1 p) < first_unallocated t1)); [done|].
        intros p Hp. by rewrite Hh1, (sl_end _ _ Hs1) by by apply HBl.
      * intros p [Hp1 Hp2]%not_elem_of_cons Hpl. rewrite Hh by done. by apply Hh1.
      * intros Hn. rewrite Hl by done. destruct link; [done|]. by destruct Hn.
      * intros p [Hin|[Hp Hle]]%Hr2.
        -- destruct Hres1 as [E|E]; rewrite E in Hin; [by left|]. apply elem_of_cons in Hin as [->|Hin]; [right|by left].
          split; [by left|lia].
        -- right. rewrite (sl_end _ _ Hs1), Hh1 in Hle by by apply HBl. split; [by right|done].
Qed.

(** ** Counting the pages at the end *)

Lemma filter_not_below {A} (g : A -> Z) f (l : list A) :
  l ≡ₚ filter (fun x => g x < f) l ++ filter (fun x => f <= g x) l.
Proof.
  rewrite <- (filter_iff_in (fun x => ~ g x < f) (fun x => f <= g x)) by (intros; lia). symmetry. apply filter_app_complement.
Qed.

Lemma numbers_of_tail {A} (g : A -> Z) f fu (l : list A) :
  f <= fu -> NoDup (g <$> l) -> (forall x, x ∈ l -> g x < fu) -> (forall p, f <= p < fu -> p ∈ g <$> l) ->
  g <$> filter (fun x => f <= g x) l ≡ₚ seqZ f (fu - f).
Proof.
  intros Hf Hnd Hlt Hin. apply NoDup_Permutation; [|apply NoDup_seqZ|].
  - eapply sublist_NoDup; [exact Hnd|]. apply fmap_sublist, sublist_filter.
  - intros p. rewrite elem_of_seqZ, list_elem_of_fmap. split.
    + intros (x & -> & [Hx1 Hx2]%list_elem_of_filter). specialize (Hlt x Hx2). lia.
    + intros Hp. destruct (proj1 (list_elem_of_fmap _ _ _) (Hin p ltac:(lia))) as (x & -> & Hx). exists x. split; [done|].
      apply list_elem_of_filter. split; [lia|done].
Qed.

Lemma length_of_tail {A} (g : A -> Z) f fu (l : list A) :
  f <= fu -> NoDup (g <$> l) -> (forall x, x ∈ l -> g x < fu) -> (forall p, f <= p < fu -> p ∈ g <$> l) ->
  Z.of_nat (length (filter (fun x => f <= g x) l)) = fu - f.
Proof.
  intros Hf Hnd Hlt Hin. pose proof (Permutation_length (numbers_of_tail g f fu l Hf Hnd Hlt Hin)) as E.
  rewrite length_fmap, length_seqZ in E. lia.
Qed.

Lemma pages_of_ones (l : list dp_t) : (forall x, x ∈ l -> npages x = 1) -> pages_of l = Z.of_nat (length l).
Proof.
  induction l as [|x l IH]; intros H1; [done|]. simpl. rewrite IH by (intros y Hy; apply H1; by right).
  rewrite (H1 x) by by left. lia.
Qed.

Section tail.
Context (hs : page_ptr -> page_head) (fu : Z) (D : list dp_t) (R : list Z) (L : list page_ptr) (Hp : pool_ok hs fu D R L).
Context (f : Z) (Hf : f <= fu) (Hs : forall p, f <= p < fu -> p ∈ pgnos_of hs L).

Lemma tail_is_loose x : x ∈ D -> f <= pgno x -> loose_entry hs x.
Proof.
  intros Hx Hle. destruct (po_pages _ _ _ _ _ Hp x Hx) as (_ & _ & ? & ?).
  destruct (proj1 (elem_of_loose_numbers _ _ _ _ _ Hp (pgno x)) (Hs (pgno x) ltac:(lia))) as (y & Hy & Hl & E).
  by rewrite (same_entry _ _ _ _ _ Hp x y).
Qed.

Lemma tail_of_dirty :
  Z.of_nat (length (filter (fun x => f <= pgno x) D)) = fu - f /\
  pages_of D - pages_of (filter (fun x => pgno x < f) D) = fu - f.
Proof.
  assert (Z.of_nat (length (filter (fun x => f <= pgno x) D)) = fu - f) as E.
  { apply (length_of_tail pgno); [done|apply (po_unique _ _ _ _ _ Hp)| |].
    - intros x Hx. destruct (po_pages _ _ _ _ _ Hp x Hx) as (_ & _ & ? & ?). lia.
    - intros p (x & Hx & _ & <-)%Hs%(elem_of_loose_numbers _ _ _ _ _ Hp). by apply list_elem_of_fmap_2. }
  split; [done|]. rewrite (pages_of_perm _ _ (filter_not_below pgno f D)) at 1. rewrite pages_of_app.
  rewrite (pages_of_ones (filter (fun x => f <= pgno x) D)); [lia|].
  intros x [Hle Hx]%list_elem_of_filter. apply (po_single _ _ _ _ _ Hp); [done|]. by apply tail_is_loose.
Qed.

Lemma tail_of_loose : Z.of_nat (length (filter (fun p => f <= h_pgno (hs p)) L)) = fu - f.
Proof.
  apply (length_of_tail (fun p => h_pgno (hs p))); [done|apply (loose_numbers_NoDup _ _ _ _ _ Hp)| |done].
  intros p Hl. apply (loose_number_bounds _ _ _ _ _ Hp). by apply (list_elem_of_fmap_2 (fun p => h_pgno (hs p))).
Qed.
End tail.

(** ** The end of [refund_loose] *)

(** [t1] has the new end [f], the counters and the list of dirty pages for it; the
    chain is still that of [t]. *)
Record cut_down (t t1 : wr_txn) (D : list dp_t) (f : Z) : Prop := {
  cd_dirty : exists S U, dpl_holds (dlist t1) S U /\ S ++ U ≡ₚ filter (fun x => pgno x < f) D;
  cd_heads : heads t1 = heads t;
  cd_end : first_unallocated t1 = f;
  cd_repnl : repnl t1 = repnl t;
  cd_chain : loose_pages t1 = loose_pages t;
  cd_count : loose_count t1 = u64 (loose_count t - (first_unallocated t - f));
  cd_room : dirtyroom (dirty t1) = u64 (dirtyroom (dirty t) + (first_unallocated t - f));
  cd_spilled : same_spilled t t1;
  cd_reserve : reserve t1 = reserve t;
  cd_frame : framed t t1
}.

Lemma refund_finish lim t D R L f t1 fuel :
  wr_ok lim t D R L -> f <= first_unallocated t ->
  (forall p, f <= p < first_unallocated t -> p ∈ pgnos_of (heads t) L) -> f - 1 ∉ pgnos_of (heads t) L ->
  cut_down t t1 D f -> (length D < fuel)%nat ->
  exists t', unlink_loose fuel t1 None = Some t' /\ first_unallocated t' = f /\ repnl t' = repnl t /\ same_spilled t t' /\
  refunds lim t (with_refund_wl t' f) D R L.
Proof.
  intros H Hf Hs Hbelow [Hd Hh He Hr Hc Hn Hroom Hsp Hres Hfr] Hfuel. pose proof (wo_pool _ _ _ _ _ H) as Hp.
  pose proof (loose_count_bound _ _ _ _ _ H) as HlL. pose proof (wo_count _ _ _ _ _ H) as Ecount.
  destruct (wo_room _ _ _ _ _ H) as (Hr1 & Hr2 & Hr3). unfold PAGELIST_LIMIT, MAX_PAGENO in Hr3.
  destruct (tail_of_dirty _ _ _ _ _ Hp f Hf Hs) as [HtD _]. pose proof (tail_of_loose _ _ _ _ _ Hp f Hf Hs) as HtL.
  pose proof (Permutation_length (filter_not_below pgno f D)) as HlD. rewrite length_app in HlD.
  pose proof (Permutation_length (filter_not_below (fun p => h_pgno (heads t p)) f L)) as HlL2. rewrite length_app in HlL2.
  destruct (wo_reserve _ _ _ _ _ H) as [Hres1 Hres2].
  destruct (unlink_loose_spec fuel L t1 None) as (t' & -> & Hchain & Hsl & Hheads & _ & Hres3 & Hres4).
  - lia.
  - by eapply loose_NoDup.
  - done.
  - cbn [read_link]. rewrite Hh, Hc. apply (wo_chain _ _ _ _ _ H).
  - by rewrite Hres.
  - rewrite Hres. intros p Hpl Hpr. apply (Hres2 p Hpr). destruct (loose_is_dirty _ _ _ _ _ Hp p Hpl) as (x & Hx & <- & _).
    by apply list_elem_of_fmap_2.
  - destruct Hsl as [[Sd Sr] Se Srep [Sc Sw] Ssp Sfr]. cbn [read_link] in Hchain.
    assert (framed t t') as Hfr' by by eapply framed_trans.
    assert (kept t1 L = filter (fun p => h_pgno (heads t p) < f) L) as Ekept by by rewrite Hh, He.
    assert (filter (fun p => p < f) R = R) as ER.
    { apply (filter_below_all (fun p => p)). intros y Hy. destruct (decide (y < f)); [done|]. exfalso.
      pose proof (repnl_bounds _ _ _ _ _ Hp y Hy).
      destruct (proj1 (elem_of_loose_numbers _ _ _ _ _ Hp y) (Hs y ltac:(lia))) as (x & Hx & _ & <-).
      apply (po_apart _ _ _ _ _ Hp x (pgno x) Hx Hy). destruct (po_pages _ _ _ _ _ Hp x Hx) as (_ & _ & ? & _). unfold page_in. lia. }
    exists t'. split_and!; [done|congruence|congruence|by destruct Hsp, Ssp; split; congruence|].
    split; cbn [first_unallocated with_refund_wl]; rewrite ?Se, ?He; [done| | | |].
    + intros p Hpr. right. by apply Hs.
    + rewrite ER. split; cbn [dirty heads first_unallocated repnl loose_pages loose_count loose_refund_wl with_refund_wl].
      * change (dlist (with_refund_wl t' f)) with (dlist t'). by rewrite Sd.
      * rewrite Srep, Hr. apply (wo_repnl _ _ _ _ _ H).
      * rewrite Se, He. eapply pool_ok_heads; [intros x _; apply (fr_heads _ _ Hfr')|].
        pose proof (pool_refund _ _ _ _ _ Hp f Hf ltac:(intros p Hpr; right; by apply Hs)) as Hp'. by rewrite ER in Hp'.
      * by rewrite <- Ekept.
      * rewrite Sc, Hn, Ecount, u64_small by (unfold UINT64_MAX; lia). lia.
      * apply Forall_forall. intros p [Hlt Hin]%list_elem_of_filter.
        destruct (fr_heads _ _ Hfr' p) as (_ & _ & -> & _). enough (h_pgno (heads t p) <> f - 1) by lia.
        intros E. apply Hbelow. rewrite <- E. by apply (list_elem_of_fmap_2 (fun p => h_pgno (heads t p))).
      * rewrite Sr, Hroom, u64_small by (unfold UINT64_MAX; lia). split_and!; [lia|lia|exact Hr3].
      * split; [done|]. intros p Hin (y & -> & [Hlt Hy]%list_elem_of_filter)%list_elem_of_fmap. destruct (Hres4 _ Hin) as [Hold|[_ Hle]].
        -- rewrite Hres in Hold. apply (Hres2 _ Hold). by apply list_elem_of_fmap_2.
        -- rewrite Hh, He in Hle. destruct (po_pages _ _ _ _ _ Hp y Hy) as (Ey & _). lia.
    + eapply framed_trans; [exact Hfr'|]. by split.
    + intros p Hin. destruct (Hres4 p Hin) as [Hold|[Hpl _]]; [left; by rewrite <- Hres|right].
      destruct (loose_is_dirty _ _ _ _ _ Hp p Hpl) as (x & Hx & <- & _). by apply list_elem_of_fmap_2.
Qed.

Lemma refund_none lim t D R L t1 :
  wr_ok lim t D R L -> first_unallocated t - 1 ∉ pgnos_of (heads t) L -> cut_down t t1 D (first_unallocated t) ->
  refunds lim t (with_refund_wl t1 (first_unallocated t)) D R L.
Proof.
  intros H Hbelow [Hd Hh He Hr Hc Hn Hroom Hsp Hres Hfr]. pose proof (rf_ok _ _ _ _ _ _ (refunds_refl _ _ _ _ _ H)) as H0.
  pose proof (wo_pool _ _ _ _ _ H) as Hp. pose proof (wo_count _ _ _ _ _ H) as Ec. destruct (wo_room _ _ _ _ _ H) as (Hr1 & Hr2 & Hr3).
  unfold PAGELIST_LIMIT, MAX_PAGENO in Hr3. pose proof (loose_count_bound _ _ _ _ _ H) as HlL.
  rewrite Z.sub_diag, Z.sub_0_r, u64_small in Hn by (unfold UINT64_MAX; lia).
  rewrite Z.sub_diag, Z.add_0_r, u64_small in Hroom by (unfold UINT64_MAX; lia).
  split; cbn [first_unallocated with_refund_wl]; rewrite ?He; [lia|intros; lia| |eapply framed_trans; [exact Hfr|by split]|intros p Hin; left; by rewrite <- Hres].
  destruct H0 as [H1 H2 H3 H4 H5 H6 H7 H8]. split; cbn [dirty heads first_unallocated repnl loose_pages loose_count loose_refund_wl with_refund_wl];
    rewrite ?Hh, ?Hr, ?Hc, ?Hn, ?Hroom, ?He; try done; [|by rewrite <- Hres in H8].
  apply Forall_forall. intros p [Hlt Hin]%list_elem_of_filter. enough (h_pgno (heads t p) <> first_unallocated t - 1) by lia.
  intros E. apply Hbelow. rewrite <- E. by apply (list_elem_of_fmap_2 (fun p => h_pgno (heads t p))).
Qed.

(** ** The sorted list of dirty pages *)

Lemma cut_tail_spec hs A : forall Q fu,
  NUM_METAS <= fu <= 2 ^ 31 -> (forall x, x ∈ A -> NUM_METAS <= pgno x) ->
  exists A1 A2, A = A1 ++ A2 /\
  cut_tail (length A) hs (dpl_stubB :: A ++ Q) fu = Some (length A1, fu - Z.of_nat (length A2)) /\
  (forall x, x ∈ A2 -> fu - Z.of_nat (length A2) <= pgno x) /\
  (forall p, fu - Z.of_nat (length A2) <= p < fu -> exists x, x ∈ A2 /\ pgno x = p /\ loose_entry hs x) /\
  (forall A0 x, A1 = A0 ++ [x] -> pgno x = fu - Z.of_nat (length A2) - 1 -> ~ loose_entry hs x).
Proof.
  induction A as [|x A IH] using rev_ind; intros Q fu Hfu HA.
  - exists [], []. cbn [cut_tail length rd mbind option_bind lookup list_lookup]. unfold rd. simpl. unfold NUM_METAS in *.
    rewrite u32_small by (unfold UINT32_MAX; lia). rewrite bool_decide_eq_false_2 by lia. rewrite Z.sub_0_r.
    split_and!; try done; [intros ? []%elem_of_nil|intros; lia|by intros []].
  - rewrite length_app, Nat.add_1_r. cbn [cut_tail]. rewrite <- (app_assoc A [x] Q). simpl ([x] ++ Q).
    rewrite rd_cons_app_at by done. cbn [mbind option_bind].
    assert (NUM_METAS <= pgno x) as Hx by (apply HA, elem_of_app; right; by left). unfold NUM_METAS in *.
    rewrite u32_small by (unfold UINT32_MAX; lia). destruct (bool_decide (pgno x = fu - 1) && _) eqn:E.
    + apply andb_true_iff in E as [E1%bool_decide_eq_true E2%bool_decide_eq_true].
      destruct (IH (x :: Q) (fu - 1)) as (A1 & A2 & -> & Ec & H1 & H2 & H3); [lia|intros y Hy; apply HA, elem_of_app; by left|].
      exists A1, (A2 ++ [x]). rewrite (length_app A2 [x]). cbn [length].
      replace (fu - Z.of_nat (length A2 + 1)) with (fu - 1 - Z.of_nat (length A2)) by lia. split_and!; [by rewrite <- app_assoc|exact Ec| | |exact H3].
      * intros y [Hy| ->%list_elem_of_singleton]%elem_of_app; [by apply H1|lia].
      * intros p Hpr. destruct (decide (p = fu - 1)) as [->|].
        -- exists x. split_and!; [apply elem_of_app; right; by left|done|done].
        -- destruct (H2 p) as (y & Hy & ? & ?); [lia|]. exists y. split_and!; [apply elem_of_app; by left|done|done].
    + exists (A ++ [x]), []. cbn [length]. rewrite Z.sub_0_r, app_nil_r. split_and!; try done.
      * rewrite length_app, Nat.add_1_r. done.
      * intros ? []%elem_of_nil.
      * intros; lia.
      * intros A0 y Ey Epy Hl. apply app_inj_tail in Ey as [_ <-]. unfold loose_entry in Hl.
        rewrite !bool_decide_eq_true_2 in E by done. done.
Qed.

(** What [refund_loose] does, in either of its two ways. *)
Definition loose_refunded lim t D R L (t' : wr_txn) : Prop :=
  refunds lim t (with_refund_wl t' (first_unallocated t')) D R L /\ repnl t' = repnl t /\ same_spilled t t'.

Lemma dpl_setlen_cut dl A1 A2 :
  dpl_holds dl (A1 ++ A2) [] ->
  exists dl1, dpl_setlen dl (length A1) = Some dl1 /\ sorted dl1 = length (A1 ++ A2) /\ dl_length dl1 = length A1 /\
  pages_including_loose dl1 = pages_including_loose dl /\ forall n, n = pages_of A2 ->
  dpl_holds (with_pages (with_sorted dl1 (dl_length dl1)) (u64 (pages_including_loose dl1 - n))) A1 [].
Proof.
  intros [[W Hi] Hs Hl Ha Hu Ho Hp Hcap Hroom Hlim]. rewrite app_nil_r in *. unfold dpl_setlen.
  assert (exists W', wr (items dl) (length A1 + 1) dpl_stubE = Some (dpl_stubB :: A1 ++ dpl_stubE :: W') /\
    length (dpl_stubB :: A1 ++ dpl_stubE :: W') = length (items dl)) as (W' & -> & HW').
  { rewrite Hi. destruct A2 as [|a A2].
    - exists W. replace (dpl_stubB :: (A1 ++ []) ++ [] ++ dpl_stubE :: W) with ((dpl_stubB :: A1) ++ dpl_stubE :: W) by by app_norm.
      rewrite wr_app_at' by (simpl; lia). split; [by app_norm|]. simpl. by rewrite !length_app.
    - exists (A2 ++ dpl_stubE :: W). replace (dpl_stubB :: (A1 ++ a :: A2) ++ [] ++ dpl_stubE :: W)
        with ((dpl_stubB :: A1) ++ a :: A2 ++ dpl_stubE :: W) by by app_norm.
      rewrite wr_app_at' by (simpl; lia). split; [by app_norm|]. simpl. by rewrite !length_app. }
  cbn [mbind option_bind]. eexists. split; [done|]. cbn [sorted dl_length]. split_and!; [done|done|done|]. intros n ->.
  rewrite length_app in Hl. apply ascending_pgnos_app in Ha as (Ha & _ & _).
  split; cbn [with_pages with_sorted sorted dl_length pages_including_loose detent items]; rewrite ?app_nil_r; try done.
  - by exists W'.
  - rewrite fmap_app in Hu. by apply NoDup_app in Hu as (? & _).
  - rewrite fmap_app in Ho. by apply Forall_app in Ho as [? _].
  - rewrite Hp, pages_of_app. unfold u64. rewrite Zminus_mod_idemp_l. f_equal. lia.
  - simpl in Hl. lia.
  - lia.
Qed.

Lemma refund_loose_sorted_spec lim t D R L :
  wr_ok lim t D R L -> exists t', refund_loose_sorted t = Some t' /\ loose_refunded lim t D R L t'.
Proof.
  intros H. pose proof (wo_pool _ _ _ _ _ H) as Hp. pose proof (po_end _ _ _ _ _ Hp) as He. unfold refund_loose_sorted.
  destruct (wo_dirty _ _ _ _ _ H) as (S & U & Hdl & HD).
  destruct (txn_dpl_sort_spec _ _ _ Hdl) as (dl & N & -> & HN & HpN). rewrite HD in HpN. clear Hdl.
  assert (pool_ok (heads t) (first_unallocated t) N R L) as HpoolN by by eapply pool_ok_perm.
  cbn [mbind option_bind]. set (fu := first_unallocated t) in *.
  destruct (dh_items _ _ _ HN) as [W Ei]. rewrite Ei, (dh_length _ _ _ HN), Nat.add_0_r. simpl ([] ++ _).
  destruct (cut_tail_spec (heads t) N (dpl_stubE :: W) fu) as (A1 & A2 & EN & -> & H1 & H2 & H3).
  { unfold MAX_PAGENO in He. lia. }
  { intros x Hx. by apply (po_pages _ _ _ _ _ HpoolN). }
  cbn [mbind option_bind]. set (f := fu - Z.of_nat (length A2)) in *.
  pose proof (dh_ascending _ _ _ HN) as Ha. rewrite EN in Ha. apply ascending_pgnos_app in Ha as (HaA1 & _ & H12).
  assert (forall p, f <= p < fu -> p ∈ pgnos_of (heads t) L) as Hs.
  { intros p Hpr. destruct (H2 p Hpr) as (x & Hx & Ex & Hl). apply (elem_of_loose_numbers _ _ _ _ _ HpoolN).
    exists x. split; [|done]. rewrite EN. apply elem_of_app. by right. }
  assert (forall x, x ∈ A1 -> pgno x < f) as HA1.
  { intros x Hx. destruct A2 as [|y A2].
    - pose proof (po_pages _ _ _ _ _ HpoolN x ltac:(rewrite EN; apply elem_of_app; by left)). unfold f. simpl. lia.
    - destruct (H2 f) as (z & Hz & <- & _); [unfold f; simpl; lia|]. by apply H12. }
  assert (filter (fun x => pgno x < f) N = A1) as EA1.
  { rewrite EN, filter_app, (filter_below_all pgno), (filter_below_none pgno), app_nil_r; done. }
  assert (f - 1 ∉ pgnos_of (heads t) L) as Hbelow.
  { intros (z & Hz & Hl & Ez)%(elem_of_loose_numbers _ _ _ _ _ HpoolN). rewrite EN in Hz. apply elem_of_app in Hz as [Hz|Hz].
    - destruct A1 as [|x A0 _] using rev_ind; [by apply elem_of_nil in Hz|].
      apply elem_of_app in Hz as [Hz| ->%list_elem_of_singleton]; [|by apply (H3 A0 x)].
      apply ascending_pgnos_app in HaA1 as (_ & _ & HA0). specialize (HA0 z x Hz ltac:(by left)).
      specialize (HA1 x ltac:(apply elem_of_app; right; by left)). lia.
    - specialize (H1 z Hz). lia. }
  rewrite EN in HN. destruct (dpl_setlen_cut dl A1 A2 HN) as (dl1 & -> & Es1 & El1 & Ep1 & Hdl1). cbn [mbind option_bind].
  assert (filter (fun x => pgno x < f) D ≡ₚ A1) as HDf by (by rewrite <- HpN, EA1).
  pose proof (wo_count _ _ _ _ _ H) as Ecount. destruct (wo_room _ _ _ _ _ H) as (Hr1 & Hr2 & Hr3). unfold PAGELIST_LIMIT, MAX_PAGENO in Hr3.
  pose proof (loose_count_bound _ _ _ _ _ H) as HlL. rewrite Es1, El1, length_app.
  case_decide as Hcut.
  - destruct (tail_of_dirty _ _ _ _ _ HpoolN f ltac:(unfold f; lia) Hs) as [_ Hpages].
    rewrite EA1, EN, pages_of_app in Hpages. set (t1 := account_refund _ _).
    assert (cut_down t t1 D f) as Hcd.
    { split; [|done|done|done|done| | |by split|done|by split].
      - exists A1, []. rewrite app_nil_r. split; [|done].
        replace (Z.of_nat (length A1 + length A2 - length A1)) with (fu - f) in t1 by (unfold f; lia).
        rewrite El1 in Hdl1. apply Hdl1. lia.
      - cbn. do 2 f_equal. unfold f. lia.
      - cbn. do 2 f_equal. unfold f. lia. }
    destruct (refund_finish lim t D R L f t1 (Datatypes.S (dl_length (dlist t))) H) as (t' & -> & E1 & E2 & E3 & E4); try done.
    + unfold f. lia.
    + rewrite (wr_ok_length _ _ _ _ _ H). lia.
    + exists t'. split; [done|]. split_and!; [by rewrite E1|done|done].
  - assert (A2 = []) as -> by (destruct A2; [done|simpl in Hcut; lia]).
    eexists. split; [done|]. split_and!; [|done|by split]. cbn [first_unallocated with_unallocated].
    unfold f in *. simpl in *. rewrite Z.sub_0_r in *. apply refund_none; [done|done|]. fold fu.
    split; [|done|done|done|done| | |by split|done|by split].
    + exists A1, []. rewrite app_nil_r. split; [|done]. specialize (Hdl1 0 eq_refl). rewrite app_nil_r in Es1.
      rewrite Z.sub_0_r in Hdl1. destruct Hdl1 as [K1 K2 K3 K4 K5 K6 K7 K8 K9 K10]. split; try done.
      rewrite !app_nil_r in *. cbn. by rewrite Ep1, (dh_pages _ _ _ HN), !app_nil_r.
    + cbn. rewrite u64_small by (unfold UINT64_MAX; lia). lia.
    + cbn. rewrite u64_small by (unfold UINT64_MAX; lia). lia.
Qed.

(** ** The unsorted list of dirty pages *)

Section collecting.
Context (hs : page_ptr -> page_head) (fu count lo : Z) (Hlo : lo = u64 (fu - count)).

(** The numbers in the window at the end. *)
Abbreviation window L := (filter (fun p => lo <= p) (pgnos_of hs L)).

Lemma collect_loose_spec L : forall fuel lp (x0 : Z) V W w most,
  chain hs lp L -> (length L <= fuel)%nat -> (length L <= length W)%nat -> length V = w ->
  exists W', collect_loose fuel hs fu count lp (x0 :: V ++ W) w most =
  Some (x0 :: (V ++ window L) ++ W', (w + length (window L))%nat, foldl Z.max most (window L)) /\
  (length (window L) + length W' = length W)%nat.
Proof.
  induction L as [|p L IH]; intros fuel lp x0 V W w most Hc Hf HW HV; cbn [chain] in Hc.
  - subst lp. exists W. destruct fuel; cbn; by rewrite app_nil_r, Nat.add_0_r.
  - destruct Hc as [-> Hc]. cbn [length] in *. destruct fuel as [|fuel]; [lia|]. cbn [collect_loose]. rewrite <- Hlo.
    unfold pgnos_of. rewrite fmap_cons, filter_cons. fold (pgnos_of hs L). destruct W as [|g W]; [simpl in HW; lia|]. simpl in HW.
    case_decide.
    + replace (x0 :: V ++ g :: W) with ((x0 :: V) ++ g :: W) by done. rewrite wr_app_at by (simpl; lia). cbn [mbind option_bind].
      replace ((x0 :: V) ++ h_pgno (hs p) :: W) with (x0 :: (V ++ [h_pgno (hs p)]) ++ W) by by app_norm.
      replace (if decide (h_pgno (hs p) > most) then h_pgno (hs p) else most) with (Z.max most (h_pgno (hs p))) by (case_decide; lia).
      destruct (IH fuel (page_next (hs p)) x0 (V ++ [h_pgno (hs p)]) W (S w) (Z.max most (h_pgno (hs p)))) as (W' & -> & HW'); [done|lia|lia|rewrite length_app; simpl; lia|].
      exists W'. simpl. split; [|lia]. rewrite <- (app_assoc V), Nat.add_succ_r. done.
    + destruct (IH fuel (page_next (hs p)) x0 V (g :: W) w most) as (W' & -> & HW'); [done|lia|simpl; lia|done|].
      exists W'. simpl in *. split; [done|lia].
Qed.
End collecting.

Lemma foldl_max_spec N : forall m, m <= foldl Z.max m N /\ (forall x, x ∈ N -> x <= foldl Z.max m N) /\
  (foldl Z.max m N = m \/ foldl Z.max m N ∈ N).
Proof.
  induction N as [|x N IH]; intros m; simpl; [split_and!; [lia|by intros ? []%elem_of_nil|by left]|].
  destruct (IH (Z.max m x)) as (H1 & H2 & H3). split_and!; [lia| |].
  - intros y [->|Hy]%elem_of_cons; [lia|by apply H2].
  - destruct H3 as [H3|H3]; [|by right; right]. rewrite H3. destruct (Z.max_spec m x) as [[_ ->]|[_ ->]]; [by right; left|by left].
Qed.

Lemma tail_run_spec c B : forall A0 most,
  holding c (A0 ++ most :: B) -> descending (A0 ++ most :: B) -> Forall (fun x => NUM_METAS <= x < 2 ^ 32) (A0 ++ most :: B) ->
  exists f, tail_run (length B) c (S (S (length A0))) most = Some f /\ f <= most /\
  (forall p, f <= p <= most -> p ∈ A0 ++ most :: B) /\ f - 1 ∉ A0 ++ most :: B.
Proof.
  induction B as [|b B IH]; intros A0 most Hc Hd Hok; cbn [tail_run length].
  - exists most. split_and!; [done|done| |].
    + intros p Hp. assert (p = most) as -> by lia. apply elem_of_app. right. by left.
    + apply descending_app in Hd as (_ & _ & Hd). intros [Hi|Hi]%elem_of_app.
      * specialize (Hd _ most Hi ltac:(by left)). lia.
      * apply list_elem_of_singleton in Hi. lia.
  - assert ((A0 ++ most :: b :: B) !! S (length A0) = Some b) as Hb.
    { rewrite lookup_app_r by lia. by replace (S (length A0) - length A0)%nat with 1%nat by lia. }
    rewrite (holding_rd_nth _ _ _ _ Hc Hb). cbn [mbind option_bind].
    assert (NUM_METAS <= most < 2 ^ 32) as Hm.
    { rewrite Forall_forall in Hok. apply Hok, elem_of_app. right. by left. }
    unfold NUM_METAS in Hm. rewrite u32_small by (unfold UINT32_MAX; lia).
    pose proof (proj1 (descending_app _ _) Hd) as (_ & Hd2 & Hd3). apply descending_cons in Hd2 as [Hmost Hd2].
    apply Forall_cons in Hmost as [Hbm _].
    case_decide as E.
    + exists most. split_and!; [done|done| |].
      * intros p Hp. assert (p = most) as -> by lia. apply elem_of_app. right. by left.
      * intros [Hi|Hi]%elem_of_app; [specialize (Hd3 _ most Hi ltac:(by left)); lia|].
        apply elem_of_cons in Hi as [Hi|Hi]; [lia|]. apply elem_of_cons in Hi as [Hi|Hi]; [lia|].
        apply descending_cons in Hd2 as [Hd2 _]. rewrite Forall_forall in Hd2. specialize (Hd2 _ Hi). simpl in Hd2. lia.
    + replace (A0 ++ most :: b :: B) with ((A0 ++ [most]) ++ b :: B) in * by by app_norm.
      destruct (IH (A0 ++ [most]) b) as (f & Ef & Hf & Hin & Hout); [done..|].
      replace (most - 1) with b by lia. rewrite length_app, Nat.add_1_r in Ef. exists f. split_and!; [done|lia| |done].
      intros p Hp. destruct (decide (p = most)) as [->|]; [apply elem_of_app; left; apply elem_of_app; right; by left|apply Hin; lia].
Qed.

Lemma loose_count_end hs fu D R L : pool_ok hs fu D R L -> Z.of_nat (length L) <= fu - NUM_METAS.
Proof.
  intros Hp. assert (length (pgnos_of hs L) <= length (seqZ NUM_METAS (fu - NUM_METAS)))%nat as H.
  { apply submseteq_length, NoDup_submseteq; [apply (loose_numbers_NoDup _ _ _ _ _ Hp)|].
    intros p Hpl. apply elem_of_seqZ. pose proof (loose_number_bounds _ _ _ _ _ Hp p Hpl). lia. }
  unfold pgnos_of in H. rewrite length_fmap, length_seqZ in H. pose proof (po_end _ _ _ _ _ Hp). lia.
Qed.

(** A run of loose pages at the end is in the window. *)
Lemma window_of_run hs fu D R L f :
  pool_ok hs fu D R L -> f <= fu -> (forall p, f <= p < fu -> p ∈ pgnos_of hs L) -> fu - Z.of_nat (length L) <= f.
Proof.
  intros Hp Hf Hs. pose proof (tail_of_loose _ _ _ _ _ Hp f Hf Hs) as E.
  pose proof (length_filter (fun p => f <= h_pgno (hs p)) L). lia.
Qed.

Lemma cut_down_refl lim t D R L : wr_ok lim t D R L -> cut_down t t D (first_unallocated t).
Proof.
  intros H. pose proof (wo_count _ _ _ _ _ H) as Ec. destruct (wo_room _ _ _ _ _ H) as (Hr1 & Hr2 & Hr3).
  unfold PAGELIST_LIMIT, MAX_PAGENO in Hr3. pose proof (loose_count_bound _ _ _ _ _ H) as HlL.
  split; [|done..| | |by split|done|apply framed_refl].
  - apply (wo_dirty _ _ _ _ _ (rf_ok _ _ _ _ _ _ (refunds_refl _ _ _ _ _ H))).
  - rewrite Z.sub_diag, Z.sub_0_r, u64_small; [done|unfold UINT64_MAX; lia].
  - rewrite Z.sub_diag, Z.add_0_r, u64_small; [done|unfold UINT64_MAX; lia].
Qed.

Lemma sorted_head N most : descending N -> most ∈ N -> (forall p, p ∈ N -> p <= most) -> exists B, N = most :: B.
Proof.
  intros Hd Hin Hmax. destruct N as [|n N]; [by apply elem_of_nil in Hin|]. exists N.
  apply elem_of_cons in Hin as [->|Hin]; [done|]. apply descending_cons in Hd as [Hn _]. rewrite Forall_forall in Hn.
  specialize (Hn _ Hin). specialize (Hmax n ltac:(by left)). simpl in Hn. lia.
Qed.

Lemma refund_loose_unsorted_spec lim t D R L suitable :
  wr_ok lim t D R L -> L <> [] -> (2 * length L + 1 <= length (cells suitable))%nat ->
  exists t', refund_loose_unsorted suitable t = Some t' /\ loose_refunded lim t D R L t'.
Proof.
  intros H HL Hroom. pose proof (wo_pool _ _ _ _ _ H) as Hp. pose proof (po_end _ _ _ _ _ Hp) as He. unfold refund_loose_unsorted.
  set (fu := first_unallocated t) in *. pose proof (wo_count _ _ _ _ _ H) as Ec. pose proof (loose_count_end _ _ _ _ _ Hp) as HlL.
  unfold MAX_PAGENO, NUM_METAS in *.
  assert (fu - Z.of_nat (length L) = u64 (fu - loose_count t)) as Elo.
  { rewrite Ec, u64_small; [done|unfold UINT64_MAX; lia]. }
  destruct (cells suitable) as [|x0 W] eqn:Es; [simpl in Hroom; lia|]. simpl in Hroom.
  destruct (collect_loose_spec (heads t) fu (loose_count t) _ Elo L (S (dl_length (dlist t))) (loose_pages t) x0 [] W 0 MIN_PAGENO)
    as (W' & E & HW'); [apply (wo_chain _ _ _ _ _ H)| |lia|done|].
  { rewrite (wr_ok_length _ _ _ _ _ H). pose proof (loose_count_bound _ _ _ _ _ H). lia. }
  simpl ([] ++ W) in E. simpl ([] ++ filter _ _) in E. rewrite E. cbn [mbind option_bind]. clear E.
  set (lo := fu - Z.of_nat (length L)) in *. set (N := filter (fun p => lo <= p) (pgnos_of (heads t) L)) in *.
  destruct (foldl_max_spec N MIN_PAGENO) as (Hm1 & Hm2 & Hm3). set (most := foldl Z.max MIN_PAGENO N) in *.
  assert (forall p, p ∈ N -> NUM_METAS <= p < fu) as HN.
  { intros p [_ Hin]%list_elem_of_filter. by apply (loose_number_bounds _ _ _ _ _ Hp). }
  assert (most < fu \/ N = []) as Hmost by (destruct Hm3 as [->|Hin]; [destruct N as [|n N'] eqn:EN; [by right|left]|left; by apply HN];
    specialize (HN n ltac:(by left)); unfold MIN_PAGENO, NUM_METAS in *; lia).
  assert (length N <= length L)%nat as HlN.
  { unfold N. rewrite length_filter. unfold pgnos_of. by rewrite length_fmap. }
  case_decide as Eend.
  - assert (most = fu - 1) as Emost.
    { rewrite u32_small in Eend by (destruct Hmost as [?|E]; [|unfold most; rewrite E; simpl]; unfold UINT32_MAX, MIN_PAGENO, NUM_METAS in *; lia). lia. }
    assert (most ∈ N) as HmN.
    { destruct Hm3 as [E|]; [|done]. destruct L as [|q L0]; [done|].
      assert (h_pgno (heads t q) ∈ pgnos_of (heads t) (q :: L0)) as Hq by (by left).
      pose proof (loose_number_bounds _ _ _ _ _ Hp _ Hq) as Hqb. unfold MIN_PAGENO, NUM_METAS in *. fold fu in Hqb.
      replace most with (h_pgno (heads t q)) by lia. apply list_elem_of_filter. split; [|done]. unfold lo. simpl. lia. }
    rewrite pnl_setsize_spec. cbn [mbind option_bind Nat.add].
    destruct (pnl_sort_nochk_spec N W') as (N' & W2 & -> & HpN & HdN & HW2).
    + apply Forall_forall. intros p Hin. specialize (HN p Hin). unfold pgno_ok, P_INVALID, UINT32_MAX, NUM_METAS in *. lia.
    + eapply sublist_NoDup; [apply (loose_numbers_NoDup _ _ _ _ _ Hp)|]. apply sublist_filter.
    + lia.
    + lia.
    + cbn [mbind option_bind]. rewrite pnl_size_cons.
      destruct (sorted_head N' most HdN ltac:(by rewrite HpN)) as [B ->].
      { intros p Hin. rewrite HpN in Hin. by apply Hm2. }
      cbn [length]. rewrite Nat.sub_succ, Nat.sub_0_r.
      destruct (tail_run_spec (Z.of_nat (S (length B)) :: (most :: B) ++ W2) B [] most) as (f & Ef & Hf & Hin & Hout);
        [by exists W2|done| |].
      { apply Forall_forall. intros p Hpin. rewrite app_nil_l, HpN in Hpin. specialize (HN p Hpin). unfold NUM_METAS in *. lia. }
      change (length (@nil Z)) with 0%nat in Ef. rewrite Ef. cbn [mbind option_bind]. rewrite app_nil_l in Hin, Hout. rewrite HpN in Hout.
      assert (forall p, f <= p < fu -> p ∈ pgnos_of (heads t) L) as Hs.
      { intros p Hpr. specialize (Hin p ltac:(lia)). rewrite HpN in Hin. by apply list_elem_of_filter in Hin as [_ ?]. }
      assert (f - 1 ∉ pgnos_of (heads t) L) as Hbelow.
      { intros Hb. apply Hout. apply list_elem_of_filter. split; [|done].
        pose proof (window_of_run _ _ _ _ _ (f - 1) Hp ltac:(fold fu; lia)) as Hw. fold fu in Hw. unfold lo. apply Hw.
        intros p Hpr. destruct (decide (p = f - 1)) as [->|]; [done|apply Hs; lia]. }
      pose proof (window_of_run _ _ _ _ _ f Hp ltac:(lia) Hs) as Hfl. fold fu in Hfl.
      rewrite (u32_small (fu - f)) by (unfold UINT32_MAX; lia).
      destruct (wo_dirty _ _ _ _ _ H) as (S & U & Hdl & HD).
      pose proof (pool_ok_perm _ _ D (S ++ U) _ _ (symmetry HD) Hp) as HpSU.
      destruct (tail_of_dirty _ _ _ _ _ HpSU f ltac:(lia) Hs) as [_ Hpages].
      destruct (dpl_keep_below_spec (dlist t) S U f (fu - f) Hdl ltac:(by rewrite Hpages)) as (dl' & Edl & Hdl').
      change (dlist (account_refund (with_unallocated t f) (fu - f))) with
        (with_pages (dlist t) (u64 (pages_including_loose (dlist t) - (fu - f)))).
      rewrite Edl. cbn [mbind option_bind]. set (t1 := with_dlist _ dl').
      assert (cut_down t t1 D f) as Hcd.
      { split; [|done|done|done|done|done|done|by split|done|by split]. exists (filter (fun x => pgno x < f) S), (filter (fun x => pgno x < f) U).
        split; [done|]. by rewrite <- filter_app, HD. }
      destruct (refund_finish lim t D R L f t1 (Datatypes.S (dl_length (dlist t))) H) as (t' & -> & E1 & E2 & E3 & E4); try done.
      * fold fu. lia.
      * rewrite (wr_ok_length _ _ _ _ _ H). lia.
      * exists t'. split; [done|]. split_and!; [by rewrite E1|done|done].
  - exists t. split; [done|]. split_and!; [|done|by split]. apply refund_none; [done| |by eapply cut_down_refl].
    intros Hin. apply Eend. assert (fu - 1 ∈ N) as HinN.
    { apply list_elem_of_filter. split; [|done]. destruct L; [done|]. unfold lo. simpl. lia. }
    specialize (Hm2 _ HinN). destruct Hmost as [Hmost|E]; [|rewrite E in HinN; by apply elem_of_nil in HinN].
    rewrite u32_small by (unfold UINT32_MAX, MIN_PAGENO, NUM_METAS in *; lia). fold fu. lia.
Qed.
