(* ===== verification/LooseTxn.v ===== *)
(** * Loose pages: the refund of a transaction

    [refund_loose], the loop of [txn_refund], and the list of spilled pages that
    [txn_refund] squashes at the end; and how [pool_ok] changes when a page moves. *)

From S2P Require Import Prelude Search Sort Radix Meta Page Pnl PnlFacts PnlMerge PnlCut Dpl DplFacts DplOps Repnl.
From S2P Require Import Loose LooseFacts LooseSpill LooseRefund.

Lemma filter_shorter x f (R : list Z) : x ∈ R -> f <= x -> (length (filter (fun p => (p < f)%Z) R) < length R)%nat.
Proof.
  intros Hin Hf. pose proof (Permutation_length (filter_not_below (fun p => p) f R)) as E. rewrite length_app in E.
  enough (filter (fun p => f <= p) R <> []) as Hne by (destruct (filter (fun p => f <= p) R); [done|simpl in E; lia]).
  intros En. assert (x ∈ filter (fun p => f <= p) R) as Hc by (by apply list_elem_of_filter). rewrite En in Hc. by apply elem_of_nil in Hc.
Qed.

Section refund.
Context (malloc : Z -> option Z) (Hmalloc : malloc_ok malloc).

Definition malloc_fails : Prop := exists bytes, malloc bytes = None.

(** No loose page is at the end, or memory for the search was missing. *)
Definition settled (t : wr_txn) : Prop := may_refund_loose t = false \/ malloc_fails.

Lemma refund_loose_spec lim t D R L :
  wr_ok lim t D R L -> L <> [] ->
  exists t', refund_loose malloc t = Some t' /\ refunds lim t t' D R L /\ repnl t' = repnl t /\ same_spilled t t' /\ settled t'.
Proof.
  intros H HL. unfold refund_loose.
  assert (forall t', loose_refunded lim t D R L t' -> exists t2, Some (with_refund_wl t' (first_unallocated t')) = Some t2 /\
    refunds lim t t2 D R L /\ repnl t2 = repnl t /\ same_spilled t t2 /\ settled t2) as Hfin.
  { intros t' (Hr & E & Hs). eexists. split; [done|]. split_and!; [done|done|done|]. left. unfold may_refund_loose.
    cbn [loose_refund_wl first_unallocated with_refund_wl]. rewrite (bool_decide_eq_false_2 (first_unallocated t' > _)) by lia. apply andb_false_r. }
  pose proof (wo_count _ _ _ _ _ H) as Ec. assert (0 < length L)%nat by (destruct L; [done|simpl; lia]).
  destruct (wo_room _ _ _ _ _ H) as (Hr1 & Hr2 & Hr3). pose proof (loose_count_bound _ _ _ _ _ H) as HlL.
  case_decide as Hun.
  - match goal with |- context [match ?x with Some _ => _ | None => _ end] => destruct x as [suitable|] eqn:Es end.
    + destruct (refund_loose_unsorted_spec lim t D R L suitable H HL) as (t' & -> & Ht').
      * case_decide as Hbig.
        -- apply (pnl_alloc_spec malloc Hmalloc) in Es as [[_ _ Hroom _] Hlen]; [|lia]. lia.
        -- injection Es as <-. change (pnl_bytes2size onstack_bytes) with 62 in Hbig.
          change (length (cells onstack)) with 128%nat. lia.
      * cbn [mbind option_bind]. by apply Hfin.
    + exists t. split_and!; [done|by apply refunds_refl|done|by split|]. right. case_decide; [|done]. unfold pnl_alloc in Es.
      destruct (malloc (pnl_size2bytes (loose_count t))) eqn:Em; [done|]. by eexists.
  - destruct (refund_loose_sorted_spec lim t D R L H) as (t' & -> & Ht'). cbn [mbind option_bind]. by apply Hfin.
Qed.

Lemma may_refund_chain lim t D R L : wr_ok lim t D R L -> may_refund_loose t = true -> L <> [].
Proof.
  intros H [E%bool_decide_eq_true _]%andb_true_iff ->. apply E. apply (wo_chain _ _ _ _ _ H).
Qed.

Lemma settled_tight lim t D R L :
  wr_ok lim t D R L -> may_refund_loose t = false -> first_unallocated t - 1 ∉ pgnos_of (heads t) L.
Proof.
  intros H [E|E]%andb_false_iff; apply bool_decide_eq_false in E.
  - pose proof (wo_chain _ _ _ _ _ H) as Hc. destruct L as [|p L]; [by intros ?%elem_of_nil|]. cbn [chain] in Hc.
    destruct Hc as [Hc _]. destruct E. by rewrite Hc.
  - intros (p & Ep & Hp)%list_elem_of_fmap. pose proof (wo_wl _ _ _ _ _ H) as Hw. rewrite Forall_forall in Hw.
    specialize (Hw p Hp). simpl in Hw. lia.
Qed.

Lemma repnl_at_end_spec lim t D R L : wr_ok lim t D R L -> repnl_at_end t = Some (bool_decide (first_unallocated t - 1 ∈ R)).
Proof.
  intros H. pose proof (wo_pool _ _ _ _ _ H) as Hp. destruct (po_repnl _ _ _ _ _ Hp) as [Hd Hb]. pose proof (po_end _ _ _ _ _ Hp) as He.
  unfold MAX_PAGENO, NUM_METAS in He.
  unfold repnl_at_end. pose proof (ph_cells _ _ (wo_repnl _ _ _ _ _ H)) as Hc. rewrite (holding_size _ _ Hc).
  destruct R as [|y R'].
  - by rewrite decide_True.
  - rewrite decide_False by done. rewrite (holding_rd_nth _ _ 0 y Hc eq_refl). cbn [mbind option_bind]. f_equal.
    rewrite u32_small by (unfold UINT32_MAX; lia). apply bool_decide_ext. rewrite elem_of_cons. split; [intros ->; by left|].
    intros [->|Hin]; [done|]. apply descending_cons in Hd as [Hy _]. rewrite Forall_forall in Hy, Hb.
    specialize (Hy _ Hin). specialize (Hb y ltac:(by left)). simpl in *. lia.
Qed.

Lemma wr_ok_spilled lim t D R L sl least : wr_ok lim t D R L -> wr_ok lim (with_spilled t sl least) D R L.
Proof. intros [H1 H2 H3 H4 H5 H6 H7]. by split. Qed.

Lemma refunds_spilled lim t t' D R L sl least : refunds lim t t' D R L -> refunds lim t (with_spilled t' sl least) D R L.
Proof. intros [H1 H2 H3 H4 H5]. split; [done|done|by apply wr_ok_spilled| |done]. eapply framed_trans; [exact H4|by split]. Qed.

Lemma spill_ok_same t t' X : same_spilled t t' -> spill_ok t X -> spill_ok t' X.
Proof. unfold spill_ok. by intros [-> ->]. Qed.

Lemma live_kept X : live (kept_entries X) = live X.
Proof. unfold live. by rewrite (kept_all (kept_entries X)) by (by intros x [? _]%list_elem_of_filter). Qed.

Lemma refund_loop_spec lim fuel : forall t D R L,
  (length R < fuel)%nat -> wr_ok lim t D R L -> settled t ->
  exists t', refund_loop malloc fuel t = Some t' /\ refunds lim t t' D R L /\ same_spilled t t' /\ settled t' /\
  first_unallocated t' - 1 ∉ R.
Proof.
  induction fuel as [|fuel IH]; intros t D R L Hf H Hset; [lia|]. cbn [refund_loop].
  rewrite (repnl_at_end_spec _ _ _ _ _ H). cbn [mbind option_bind]. case_bool_decide as Hin.
  2: { exists t. split_and!; [done|by apply refunds_refl|by split|done|done]. }
  destruct (refund_reclaimed_spec lim t D R L H Hin) as (t1 & -> & H1 & Hlt1 & Hout1 & Hs1 & _). cbn [mbind option_bind].
  pose proof (rf_ok _ _ _ _ _ _ H1) as Hok1.
  destruct (may_refund_loose t1) eqn:Em.
  2: { exists t1. split_and!; [done|done|done|by left|done]. }
  destruct (refund_loose_spec lim t1 _ _ _ Hok1 (may_refund_chain _ _ _ _ _ Hok1 Em)) as (t2 & -> & H2 & Er2 & Hs2 & Hset2).
  cbn [mbind option_bind]. pose proof (refunds_trans _ _ _ _ _ _ _ H1 H2) as H12.
  assert (same_spilled t t2) as Hs12 by (destruct Hs1, Hs2; split; congruence).
  case_decide as E.
  - exists t2. split_and!; [done|done|done|done|by rewrite <- E].
  - pose proof (rf_ok _ _ _ _ _ _ H12) as Hok2.
    pose proof (rf_end _ _ _ _ _ _ H2) as He2. pose proof (filter_shorter _ (first_unallocated t2) R Hin ltac:(lia)) as Hshort.
    destruct (IH t2 _ _ _ ltac:(apply Nat.lt_le_trans with (1 := Hshort); lia) Hok2 Hset2) as (t3 & -> & H3 & Hs3 & Hset3 & Hout3).
    exists t3. split_and!; [done|by eapply refunds_trans|destruct Hs12, Hs3; split; congruence|done|].
    + intros Hc. apply Hout3. apply list_elem_of_filter. split; [|done]. pose proof (rf_end _ _ _ _ _ _ H3). lia.
Qed.

(** [txn_refund] as a whole: the pages from the new end on were all loose or
    reusable, the lists lose exactly these, and the page in front of the new end is
    not reusable, nor loose. *)
Lemma txn_refund_spec lim t D R L X :
  wr_ok lim t D R L -> spill_ok t X ->
  exists b t' X', txn_refund malloc t = Some (b, t') /\ refunds lim t t' D R L /\
  b = bool_decide (first_unallocated t' <> first_unallocated t) /\
  first_unallocated t' - 1 ∉ R /\ (first_unallocated t' - 1 ∉ pgnos_of (heads t) L \/ malloc_fails) /\
  spill_ok t' X' /\ live X' = live X.
Proof.
  intros H Hsp. unfold txn_refund.
  assert (exists t1, (if may_refund_loose t then refund_loose malloc t else Some t) = Some t1 /\ refunds lim t t1 D R L /\
    same_spilled t t1 /\ settled t1) as (t1 & -> & H1 & Hs1 & Hset1).
  { destruct (may_refund_loose t) eqn:Em.
    - destruct (refund_loose_spec lim t D R L H (may_refund_chain _ _ _ _ _ H Em)) as (t1 & -> & H1 & _ & Hs1 & Hset1). by exists t1.
    - exists t. split_and!; [done|by apply refunds_refl|by split|by left]. }
  cbn [mbind option_bind]. pose proof (rf_ok _ _ _ _ _ _ H1) as Hok1.
  rewrite (holding_size _ _ (ph_cells _ _ (wo_repnl _ _ _ _ _ Hok1))).
  destruct (refund_loop_spec lim _ t1 _ _ _ (Nat.lt_succ_diag_r _) Hok1 Hset1) as (t2 & -> & H2 & Hs2 & Hset2 & Hout2).
  cbn [mbind option_bind]. pose proof (refunds_trans _ _ _ _ _ _ _ H1 H2) as H12.
  assert (same_spilled t t2) as Hs by (destruct Hs1, Hs2; split; congruence).
  pose proof (rf_ok _ _ _ _ _ _ H12) as Hok2. pose proof (rf_end _ _ _ _ _ _ H2) as He2.
  assert (first_unallocated t2 - 1 ∉ R) as HR.
  { intros Hc. apply Hout2. apply list_elem_of_filter. split; [lia|done]. }
  assert (first_unallocated t2 - 1 ∉ pgnos_of (heads t) L \/ malloc_fails) as HL.
  { destruct Hset2 as [Hset2|]; [left|by right]. pose proof (settled_tight _ _ _ _ _ Hok2 Hset2) as Ht. intros (p & Ep & Hp)%list_elem_of_fmap.
    apply Ht. rewrite Ep. destruct (fr_heads _ _ (rf_frame _ _ _ _ _ _ H12) p) as (_ & _ & <- & _).
    apply (list_elem_of_fmap_2 (fun p => h_pgno (heads t2 p))). apply list_elem_of_filter. split; [lia|done]. }
  pose proof (spill_ok_same _ _ _ Hs Hsp) as Hsp2.
  case_decide as E.
  - exists false, t2, X. split_and!; [done|done| |done|done|done|done]. by rewrite bool_decide_eq_false_2 by congruence.
  - destruct (spilled_list t2) as [sl|] eqn:Esl.
    + destruct (spill_purge_spec t2 X Hsp2) as (t3 & sl' & -> & E3 & Hsp3 & Ht3); [congruence|]. cbn [mbind option_bind].
      exists true, t3, (kept_entries X). destruct Ht3 as [->| ->]; (split_and!; [done|try done; by apply refunds_spilled| |done|done|done|apply live_kept]);
        by rewrite bool_decide_eq_true_2 by (cbn; congruence).
    + cbn [mbind option_bind]. exists true, t2, X. split_and!; [done|done| |done|done|done|done]. by rewrite bool_decide_eq_true_2 by congruence.
Qed.
End refund.

(** ** Loose pages: moving a page from one place to another

    How [pool_ok] changes when a dirty page goes away, when its pages become
    reusable, loose, or part of the space behind the end, and when a reusable page
    becomes dirty. *)

(** The pages that a transaction may hand out, or that are behind the end. *)
Definition free (t : wr_txn) (R : list Z) (L : list page_ptr) (p : Z) : Prop :=
  stock (heads t) R L p \/ first_unallocated t <= p.

(** The entries of the pages in use. *)
Definition in_use (hs : page_ptr -> page_head) (D : list dp_t) : list dp_t := filter (fun x => ~ loose_entry hs x) D.

Section moves.
Context (hs : page_ptr -> page_head) (fu : Z) (D : list dp_t) (R : list Z) (L : list page_ptr).
Implicit Types (x y : dp_t) (p z id : Z).

Lemma pool_remove x : pool_ok hs fu (x :: D) R L -> ~ loose_entry hs x -> pool_ok hs fu D R L.
Proof.
  intros [H1 H2 H3 H4 H5 H6 H7 H8 H9] Hx. rewrite fmap_cons in H3. rewrite fmap_cons in H4. apply NoDup_cons in H3 as [_ H3]. apply NoDup_cons in H4 as [_ H4].
  split; try done.
  - intros y Hy. apply H2. by right.
  - intros y z Hy Hz. apply H5; by right.
  - intros y z Hy. apply H7. by right.
  - rewrite H8, filter_cons, decide_False by done. done.
  - intros y Hy. apply H9. by right.
Qed.

(** The pages of [x] are nowhere else. *)
Lemma pool_apart x p : pool_ok hs fu (x :: D) R L -> page_in x p -> NUM_METAS <= p < fu /\ p ∉ R /\ forall y, y ∈ D -> ~ page_in y p.
Proof.
  intros Hp Hin. destruct (po_pages _ _ _ _ _ Hp x ltac:(by left)) as (_ & Hx1 & Hx2 & Hx3). split_and!; [unfold page_in in Hin; lia..| |].
  - intros HR. by apply (po_apart _ _ _ _ _ Hp x p ltac:(by left) HR).
  - intros y Hy Hin'. pose proof (po_unique _ _ _ _ _ Hp) as Hu. rewrite fmap_cons in Hu. apply NoDup_cons in Hu as [Hu _].
    assert (pgno x <> pgno y) as Hne by (intros E; apply Hu; rewrite E; by apply list_elem_of_fmap_2).
    pose proof (po_disjoint _ _ _ _ _ Hp x y ltac:(by left) ltac:(by right)) as H1.
    pose proof (po_disjoint _ _ _ _ _ Hp y x ltac:(by right) ltac:(by left)) as H2. unfold page_in in *. lia.
Qed.

(** The page at the end: the end moves to its begin. *)
Lemma pool_end x : pool_ok hs fu (x :: D) R L -> ~ loose_entry hs x -> pgno x + npages x = fu -> pool_ok hs (pgno x) D R L.
Proof.
  intros Hp Hx He. pose proof (pool_remove x Hp Hx) as [H1 H2 H3 H4 H5 H6 H7 H8 H9].
  destruct (po_pages _ _ _ _ _ Hp x ltac:(by left)) as (_ & Hx1 & Hx2 & Hx3). split; try done.
  - lia.
  - intros y Hy. destruct (H2 y Hy) as (? & ? & ? & ?). split_and!; [done..|].
    destruct (decide (pgno y + npages y <= pgno x)); [done|]. exfalso.
    apply (proj2 (proj2 (pool_apart x (Z.max (pgno x) (pgno y)) Hp ltac:(unfold page_in; lia))) y Hy). unfold page_in. lia.
  - split; [apply H6|]. destruct H6 as [_ H6]. rewrite Forall_forall in H6 |- *. intros p Hpr. specialize (H6 p Hpr). simpl in H6.
    destruct (decide (p < pgno x)); [lia|]. exfalso. by apply (proj1 (proj2 (pool_apart x p Hp ltac:(unfold page_in; lia)))).
Qed.

(** Pages that are nowhere become reusable. *)
Lemma pool_reuse A B (id : Z) (n : nat) :
  pool_ok hs fu D (A ++ B) L -> Forall (fun z => id < z) A -> Forall (fun z => z <= id) B -> (0 < n)%nat ->
  (forall p, id <= p < id + Z.of_nat n -> NUM_METAS <= p < fu /\ p ∉ A ++ B /\ forall y, y ∈ D -> ~ page_in y p) ->
  pool_ok hs fu D (A ++ steps_down id 1 n ++ B) L.
Proof.
  intros [H1 H2 H3 H4 H5 [H6 H6'] H7 H8 H9] HA HB Hn Hout. split; try done.
  - split.
    + apply descending_insert_span; try done. intros y Hy. by apply Hout.
    + rewrite !Forall_app in *. destruct H6' as [HA' HB']. split_and!; [done| |done].
      apply Forall_forall. intros y (i & Hi & ->)%elem_of_steps_down. apply Hout. lia.
  - intros x y Hx Hy. rewrite !elem_of_app in Hy. destruct Hy as [Hy|[(i & Hi & ->)%elem_of_steps_down|Hy]].
    + apply H7; [done|]. apply elem_of_app. by left.
    + apply Hout; [lia|done].
    + apply H7; [done|]. apply elem_of_app. by right.
Qed.

(** Pages that are nowhere become dirty. *)
Lemma pool_add x :
  pool_ok hs fu D R L -> 1 <= npages x -> h_pgno (hs (ptr x)) = pgno x -> ~ loose_entry hs x -> ptr x ∉ ptr <$> D ->
  (forall p, page_in x p -> NUM_METAS <= p < fu /\ p ∉ R /\ forall y, y ∈ D -> ~ page_in y p) -> pool_ok hs fu (x :: D) R L.
Proof.
  intros [H1 H2 H3 H4 H5 H6 H7 H8 H9] Hn Eh Hl Hptr Hout.
  destruct (Hout (pgno x) ltac:(unfold page_in; lia)) as (Hb & _ & _).
  destruct (Hout (pgno x + npages x - 1) ltac:(unfold page_in; lia)) as (He & _ & _).
  assert (forall y p, y ∈ D -> page_in x p -> ~ page_in y p) as Hdis by (intros y p Hy Hin; by apply Hout).
  split; try done.
  - intros y [->|Hy]%elem_of_cons; [split_and!; (done || lia)|by apply H2].
  - rewrite fmap_cons. by constructor.
  - rewrite fmap_cons. constructor; [|done]. intros (y & Ey & Hy)%list_elem_of_fmap. destruct (H2 y Hy) as (_ & _ & ? & _).
    apply (Hdis y (pgno x) Hy); unfold page_in; lia.
  - intros y w [->|Hy]%elem_of_cons [->|Hw]%elem_of_cons Hlt; [lia| | |by apply H5].
    + destruct (H2 w Hw) as (_ & _ & ? & _). destruct (decide (pgno x + npages x <= pgno w)); [done|]. exfalso.
      apply (Hdis w (pgno w) Hw); unfold page_in; lia.
    + destruct (H2 y Hy) as (_ & _ & ? & _). destruct (decide (pgno y + npages y <= pgno x)); [done|]. exfalso.
      apply (Hdis y (pgno x) Hy); unfold page_in; lia.
  - intros y p [->|Hy]%elem_of_cons Hp; [intros Hin; by apply (Hout p Hin)|by apply H7].
  - by rewrite filter_cons, decide_False by done.
  - intros y [->|Hy]%elem_of_cons; [done|by apply H9].
Qed.

(** A dirty page becomes loose, or a loose one is in use again: the header of [x] is
    another one. *)
Lemma other_ptr x y : NoDup (ptr <$> x :: D) -> y ∈ D -> ptr y <> ptr x.
Proof. rewrite fmap_cons. intros [Hx _]%NoDup_cons Hy E. apply Hx. rewrite <- E. by apply list_elem_of_fmap_2. Qed.

Lemma pool_rehead hs' x L' :
  pool_ok hs fu (x :: D) R L -> (forall q, q <> ptr x -> same_head (hs q) (hs' q)) -> h_pgno (hs' (ptr x)) = pgno x ->
  (loose_entry hs' x -> npages x = 1) ->
  L' ≡ₚ (if decide (loose_entry hs' x) then [ptr x] else []) ++ (ptr <$> filter (loose_entry hs) D) ->
  pool_ok hs' fu (x :: D) R L'.
Proof.
  intros [H1 H2 H3 H4 H5 H6 H7 H8 H9] Hq Ep En HL.
  assert (forall y, y ∈ D -> same_head (hs (ptr y)) (hs' (ptr y))) as Hh by (intros y Hy; apply Hq; by apply other_ptr).
  split; try done.
  - intros y [->|Hy]%elem_of_cons; [destruct (H2 x ltac:(by left)) as (_ & ? & ? & ?); by split_and!|].
    destruct (Hh y Hy) as (_ & _ & -> & _). apply H2. by right.
  - rewrite HL, filter_cons. rewrite (filter_iff_in (loose_entry hs') (loose_entry hs)).
    + by case_decide.
    + intros y Hy. unfold loose_entry. by destruct (Hh y Hy) as (_ & -> & _).
  - intros y [->|Hy]%elem_of_cons; [done|]. unfold loose_entry. destruct (Hh y Hy) as (_ & -> & _). apply H9. by right.
Qed.
End moves.

Lemma refunds_free lim t t' D R L :
  refunds lim t t' D R L -> forall p,
  free t' (filter (fun p => p < first_unallocated t') R) (filter (fun p => h_pgno (heads t p) < first_unallocated t') L) p <->
  free t R L p.
Proof.
  intros [He Hs Hok Hfr _] p. assert (forall q, h_pgno (heads t' q) = h_pgno (heads t q)) as Eh by (intros q; apply (fr_heads _ _ Hfr q)).
  unfold free, stock, pgnos_of. rewrite !list_elem_of_fmap, list_elem_of_filter. split.
  - intros [[[_ HR]|(q & -> & [_ Hq]%list_elem_of_filter)]|Hp]; [by left; left|left; right; eauto|].
    destruct (decide (first_unallocated t <= p)); [by right|left]. destruct (Hs p ltac:(lia)) as [?|(q & -> & Hq)%list_elem_of_fmap]; [by left|right; eauto].
  - destruct (decide (first_unallocated t' <= p)); [by right|]. intros [[HR|(q & -> & Hq)]|Hp]; [left; left; split; [lia|done]| |lia].
    left. right. exists q. rewrite Eh. split; [done|]. apply list_elem_of_filter. split; [lia|done].
Qed.

Lemma refunds_in_use lim t t' D R L :
  wr_ok lim t D R L -> refunds lim t t' D R L ->
  in_use (heads t') (filter (fun x => pgno x < first_unallocated t') D) = in_use (heads t) D.
Proof.
  intros H [He Hs _ Hfr _]. pose proof (wo_pool _ _ _ _ _ H) as Hp. unfold in_use.
  rewrite (filter_iff_in (fun x => ~ loose_entry (heads t') x) (fun x => ~ loose_entry (heads t) x)).
  2: { intros x _. unfold loose_entry. by destruct (fr_heads _ _ Hfr (ptr x)) as (_ & -> & _). }
  rewrite list_filter_filter. apply filter_iff_in. intros x Hx. split; [tauto|]. intros Hl. split; [done|].
  destruct (decide (pgno x < first_unallocated t')); [done|]. exfalso. destruct (po_pages _ _ _ _ _ Hp x Hx) as (_ & _ & ? & ?).
  destruct (Hs (pgno x) ltac:(lia)) as [HR|(y & Hy & Hly & E)%(elem_of_loose_numbers _ _ _ _ _ Hp)].
  - apply (po_apart _ _ _ _ _ Hp x _ Hx HR). unfold page_in. lia.
  - apply Hl. by rewrite (same_entry _ _ _ _ _ Hp x y).
Qed.
