(* ===== verification/LooseRetire.v ===== *)
(** * Loose pages: retiring a page

    The steps of [page_retire_ex] for a dirty page of a transaction without
    parents: the page is washed, loosened, made reusable or given back. *)

From S2P Require Import Prelude Search Sort Radix Meta Page Pnl PnlFacts PnlMerge PnlCut Dpl DplFacts DplOps Repnl.
From S2P Require Import Loose LooseFacts LooseSpill LooseRefund LooseTxn.

Lemma wr_ok_perm lim t D D' R L : D ≡ₚ D' -> wr_ok lim t D R L -> wr_ok lim t D' R L.
Proof.
  intros HD [H1 H2 H3 H4 H5 H6 H7 H8]. split; try done.
  - destruct H1 as (S & U & Hdl & E). exists S, U. by rewrite <- HD.
  - by eapply pool_ok_perm.
  - by rewrite <- (Permutation_length HD).
  - eapply reserve_ok_sub; [|exact H8]. intros y. by rewrite HD.
Qed.

(** A search that rearranges the list of dirty pages. *)
Lemma wr_ok_dlist lim t D R L dl S U : wr_ok lim t D R L -> dpl_holds dl S U -> S ++ U ≡ₚ D -> wr_ok lim (with_dlist t dl) D R L.
Proof. intros [H1 H2 H3 H4 H5 H6 H7] Hdl HD. split; try done. by exists S, U. Qed.

Lemma wr_ok_repnl lim t D R R' L p :
  wr_ok lim t D R L -> pnl_holds p R' -> pool_ok (heads t) (first_unallocated t) D R' L -> wr_ok lim (with_repnl t p) D R' L.
Proof. intros [H1 H2 H3 H4 H5 H6 H7] Hp Hpool. by split. Qed.

Lemma wr_ok_end lim t D R L fu :
  wr_ok lim t D R L -> pool_ok (heads t) fu D R L -> wr_ok lim (with_unallocated t fu) D R L.
Proof. intros [H1 H2 H3 H4 H5 H6 H7] Hpool. by split. Qed.

Lemma pgnos_of_ext hs hs' L : (forall p, p ∈ L -> h_pgno (hs' p) = h_pgno (hs p)) -> pgnos_of hs' L = pgnos_of hs L.
Proof. intros H. apply list_fmap_ext. intros i p Hp. apply H. by eapply list_elem_of_lookup_2. Qed.

(** ** Washing *)

(** The header of one page is another, which is no longer dirty. *)
Record washed (t t' : wr_txn) (mp : page_ptr) : Prop := {
  wa_heads : forall p, p <> mp -> heads t' p = heads t p;
  wa_end : first_unallocated t' = first_unallocated t;
  wa_lists : retired_pages t' = retired_pages t /\ parents t' = parents t /\ repnl t' = repnl t;
  wa_loose : loose_pages t' = loose_pages t /\ loose_count t' = loose_count t /\ loose_refund_wl t' = loose_refund_wl t;
  wa_spilled : same_spilled t t'
}.

Lemma set_heads_washed t mp v w : washed t (set_head_flags (set_head_txnid t mp v) mp w) mp.
Proof. split; try done. intros p Hp. cbn. by rewrite !decide_False by done. Qed.

Lemma wash_spec lim t D R L x S U k :
  wr_ok lim t (x :: D) R L -> ~ loose_entry (heads t) x -> dpl_holds (dlist t) S U -> S ++ U ≡ₚ x :: D -> (S ++ U) !! k = Some x ->
  exists t', wash t (Datatypes.S k) (ptr x) (npages x) = Some t' /\ washed t t' (ptr x) /\ wr_ok lim t' D R L /\
  (pgno x + npages x = first_unallocated t -> pool_ok (heads t') (pgno x) D R L).
Proof.
  intros H Hx Hdl HD Hk. pose proof (wo_pool _ _ _ _ _ H) as Hp. unfold wash, page_wash.
  destruct (txn_dpl_remove_spec (dlist t) S U k x Hdl Hk) as (dl' & S' & U' & _ & Hdl' & E' & _ & Er).
  cbn [dirty set_head_flags set_head_txnid with_head]. change (dirtylist (dirty t)) with (dlist t). rewrite Er. cbn [mbind option_bind].
  eexists. split; [done|]. set (t' := with_dirty _ _). assert (washed t t' (ptr x)) as Hw.
  { split; try done. intros p Hpx. cbn. by rewrite !decide_False by done. }
  assert (forall y, y ∈ D -> same_head (heads t (ptr y)) (heads t' (ptr y))) as Hh.
  { intros y Hy. rewrite (wa_heads _ _ _ Hw); [apply same_head_refl|]. by eapply other_ptr; [apply (po_ptrs _ _ _ _ _ Hp)|]. }
  assert (S' ++ U' ≡ₚ D) as HD'.
  { rewrite E'. destruct (list_split_at _ _ _ Hk) as (L1 & L2 & EL & <-). rewrite EL in HD |- *. rewrite delete_middle.
    apply (Permutation_cons_inv (a := x)). rewrite <- HD. solve_Permutation. }
  assert (forall p, p ∈ L -> p <> ptr x) as HLx.
  { intros p Hpl ->. destruct (loose_is_dirty _ _ _ _ _ Hp _ Hpl) as (y & Hy & Ey & Hl & _).
    apply elem_of_cons in Hy as [->|Hy]; [done|]. by eapply other_ptr; [apply (po_ptrs _ _ _ _ _ Hp)|..]. }
  split; [done|]. split.
  - destruct (wo_room _ _ _ _ _ H) as (Hr1 & Hr2 & Hr3). cbn [length] in Hr2. split.
    + exists S', U'. by split.
    + apply (wo_repnl _ _ _ _ _ H).
    + eapply pool_ok_heads; [exact Hh|]. by apply (pool_remove _ _ _ _ _ x).
    + eapply chain_ext; [|apply (wo_chain _ _ _ _ _ H)]. intros p Hpl. by rewrite (wa_heads _ _ _ Hw) by by apply HLx.
    + apply (wo_count _ _ _ _ _ H).
    + pose proof (wo_wl _ _ _ _ _ H) as Hwl. rewrite Forall_forall in Hwl |- *. intros p Hpl.
      rewrite (wa_heads _ _ _ Hw) by by apply HLx. by apply Hwl.
    + cbn. unfold PAGELIST_LIMIT, MAX_PAGENO in *. rewrite u64_small by (unfold UINT64_MAX; lia). lia.
    + eapply reserve_ok_release; [apply (wo_reserve _ _ _ _ _ H)|apply (po_ptrs _ _ _ _ _ Hp)|].
      unfold reserve, t', page_shadow_release. cbn. destruct (_ && _); [by right|by left].
  - intros He. eapply pool_ok_heads; [exact Hh|]. by apply (pool_end _ _ _ _ _ x Hp).
Qed.

(** ** Making pages reusable *)

Section reclaiming.
Context (malloc : Z -> option Z) (Hmalloc : malloc_ok malloc).

Definition no_memory (err : Z) : Prop := err = MDBX_ENOMEM \/ err = MDBX_TXN_FULL.

(** The span is in none of the lists. *)
Definition nowhere (fu : Z) (D : list dp_t) (R : list Z) (id : Z) (n : nat) : Prop :=
  forall p, id <= p < id + Z.of_nat n -> NUM_METAS <= p < fu /\ p ∉ R /\ forall y, y ∈ D -> ~ page_in y p.

Lemma insert_repnl_spec lim t D R L id n :
  wr_ok lim t D R L -> (0 < n)%nat -> nowhere (first_unallocated t) D R id n ->
  exists rc p R', insert_repnl malloc t id (Z.of_nat n) = Some (rc, with_repnl t p) /\ wr_ok lim (with_repnl t p) D R' L /\
  ((rc = MDBX_SUCCESS /\ forall q, q ∈ R' <-> q ∈ R \/ id <= q < id + Z.of_nat n) \/ (no_memory rc /\ R' = R)).
Proof.
  intros H Hn Hout. pose proof (wo_pool _ _ _ _ _ H) as Hp. destruct (po_repnl _ _ _ _ _ Hp) as [Hd _].
  pose proof (po_end _ _ _ _ _ Hp) as He. unfold MAX_PAGENO in He.
  destruct (Hout id ltac:(lia)) as (Hid & Hid' & _). destruct (Hout (id + Z.of_nat n - 1) ltac:(lia)) as (Hend & _).
  destruct (descending_split R id Hd) as (A & B & -> & HA & HB). unfold insert_repnl. rewrite Nat2Z.id.
  assert (pool_ok (heads t) (first_unallocated t) D (A ++ steps_down id 1 n ++ B) L) as Hp' by by apply pool_reuse.
  destruct (pnl_insert_span_spec malloc Hmalloc (Some (repnl t)) A B id n) as [(q & -> & Hq)|(err & -> & Herr)];
    try done; try (unfold PAGELIST_LIMIT, MAX_PAGENO, NUM_METAS in *; lia).
  - apply (wo_repnl _ _ _ _ _ H).
  - cbn [mbind option_bind]. exists MDBX_SUCCESS, q, (A ++ steps_down id 1 n ++ B). split; [done|].
    split; [by eapply wr_ok_repnl|]. left. split; [done|]. intros z. rewrite !elem_of_app, elem_of_steps_down. split.
    + intros [?|[(i & Hi & ->)|?]]; [tauto|right; lia|tauto].
    + intros [[?|?]|Hz]; [tauto|tauto|]. right. left. exists (z - id). lia.
  - cbn [mbind option_bind]. exists err, (repnl t), (A ++ B). split; [done|]. split; [|by right].
    eapply wr_ok_repnl; [exact H|apply (wo_repnl _ _ _ _ _ H)|done].
Qed.

Lemma repnl_first lim t D R L :
  wr_ok lim t D R L -> exists x, rd (cells (repnl t)) 1 = Some x /\ (forall y R', R = y :: R' -> x = y).
Proof.
  intros H. pose proof (wo_repnl _ _ _ _ _ H) as [[W Ec] Hcap Hroom _]. rewrite Ec in *. simpl in Hroom. rewrite length_app in Hroom.
  destruct (rd_Some (Z.of_nat (length R) :: R ++ W) 1) as [x Hx]; [simpl; rewrite length_app; lia|].
  exists x. split; [done|]. intros y R' ->. by injection Hx.
Qed.

Lemma reclaim_spec lim t D R L X id n :
  wr_ok lim t D R L -> spill_ok t X -> (0 < n)%nat -> nowhere (first_unallocated t) D R id n ->
  exists rc p R' t' X', reclaim malloc t id (Z.of_nat n) = Some (rc, t') /\
  wr_ok lim (with_repnl t p) D R' L /\ refunds lim (with_repnl t p) t' D R' L /\ spill_ok t' X' /\ live X' = live X /\
  ((rc = MDBX_SUCCESS /\ (forall q, q ∈ R' <-> q ∈ R \/ id <= q < id + Z.of_nat n) /\ first_unallocated t' - 1 ∉ R') \/
    (no_memory rc /\ R' = R /\ (first_unallocated t - 1 ∉ R -> first_unallocated t' - 1 ∉ R))).
Proof.
  intros H Hsp Hn Hout. unfold reclaim. destruct (insert_repnl_spec lim t D R L id n H Hn Hout) as (rc & p & R' & -> & H' & Hrc).
  cbn [mbind option_bind]. destruct (repnl_first _ _ _ _ _ H') as (most & -> & Hmost). cbn [mbind option_bind].
  pose proof (wo_pool _ _ _ _ _ H') as Hp'. pose proof (po_end _ _ _ _ _ Hp') as He.
  unfold MAX_PAGENO, NUM_METAS in He. cbn [first_unallocated with_repnl] in He.
  cbn [first_unallocated with_repnl]. rewrite u32_small by (unfold UINT32_MAX; lia).
  exists rc, p, R'. case_decide as E.
  - destruct (txn_refund_spec malloc Hmalloc lim _ D R' L X H' Hsp) as (b & t' & X' & -> & Hr & _ & HR & _ & Hsp' & HX').
    exists t', X'. cbn [mbind option_bind]. split_and!; try done. destruct Hrc as [[-> Hrc]|[Hrc ->]]; [left|right]; by split_and!.
  - exists (with_repnl t p), X. split_and!; [done|done|by apply refunds_refl|done|done|].
    destruct Hrc as [[-> Hrc]|[Hrc ->]]; [left|by right]. split_and!; [done|done|]. cbn [first_unallocated with_repnl]. intros Hin.
    destruct (po_repnl _ _ _ _ _ Hp') as [Hd Hb]. destruct R' as [|y R2]; [by apply elem_of_nil in Hin|].
    rewrite (Hmost y R2 eq_refl) in E. apply elem_of_cons in Hin as [Hin|Hin]; [by apply E|].
    apply descending_cons in Hd as [Hy _]. rewrite Forall_forall in Hy, Hb. specialize (Hy _ Hin). specialize (Hb y ltac:(by left)).
    cbn [first_unallocated with_repnl] in Hb. simpl in *. lia.
Qed.
End reclaiming.

(** ** Retiring a dirty page *)

(** What is left when the page [x] was taken out of use: the other pages in use are
    the same, and [freed] are the pages that became free. *)
Record retired (lim : Z) (t t' : wr_txn) (D : list dp_t) (R : list Z) (L : list page_ptr) (live_pages : list Z)
  (freed : Z -> Prop) : Prop := {
    rt_ok : exists D' R' L', wr_ok lim t' D' R' L' /\ in_use (heads t') D' ≡ₚ in_use (heads t) D /\
      (forall p, free t' R' L' p <-> free t R L p \/ freed p) /\
      (first_unallocated t - 1 ∉ R -> first_unallocated t' - 1 ∉ R');
    rt_lists : retired_pages t' = retired_pages t /\ parents t' = parents t;
    rt_spilled : exists X', spill_ok t' X' /\ live X' = live_pages
  }.

Lemma free_ext t t' R L p :
  (forall q, q ∈ L -> h_pgno (heads t' q) = h_pgno (heads t q)) -> first_unallocated t' = first_unallocated t ->
  free t' R L p <-> free t R L p.
Proof. intros Hq Ee. unfold free, stock. by rewrite (pgnos_of_ext (heads t)), Ee. Qed.

Lemma in_use_ext hs hs' D : (forall x, x ∈ D -> h_flags (hs' (ptr x)) = h_flags (hs (ptr x))) -> in_use hs' D = in_use hs D.
Proof. intros H. apply filter_iff_in. intros x Hx. unfold loose_entry. by rewrite H. Qed.

Section retiring.
Context (have_cmov : bool).
Context (lim : Z) (t : wr_txn) (x : dp_t) (D : list dp_t) (R : list Z) (L : list page_ptr) (X : list Z).
Context (H : wr_ok lim t (x :: D) R L) (Hsp : spill_ok t X) (Hx : ~ loose_entry (heads t) x).

Lemma others_not_mp : (forall y, y ∈ D -> ptr y <> ptr x) /\ (forall p, p ∈ L -> p <> ptr x).
Proof.
  clear Hsp. pose proof (wo_pool _ _ _ _ _ H) as Hp. pose proof (po_ptrs _ _ _ _ _ Hp) as Hptrs. split.
  - intros y Hy. by eapply other_ptr.
  - intros p Hpl ->. destruct (loose_is_dirty _ _ _ _ _ Hp _ Hpl) as (y & Hy & Ey & Hl & _).
    apply elem_of_cons in Hy as [->|Hy]; [done|]. by eapply other_ptr.
Qed.

Lemma nowhere_page n : npages x = Z.of_nat n -> nowhere (first_unallocated t) D R (pgno x) n.
Proof.
  clear Hsp Hx. intros En p Hpr. apply (pool_apart _ _ _ _ _ x p (wo_pool _ _ _ _ _ H)). unfold page_in. lia.
Qed.

(** A page is in the list of dirty pages, in the cell that a search finds. *)
Lemma found_entry :
  exists k dl S U, txn_dpl_exist have_cmov (dlist t) (pgno x) = Some (Datatypes.S k, dl) /\ dpl_holds dl S U /\ S ++ U ≡ₚ x :: D /\
  (S ++ U) !! k = Some x.
Proof.
  clear Hsp Hx. pose proof (wo_pool _ _ _ _ _ H) as Hp. destruct (wo_dirty _ _ _ _ _ H) as (S & U & Hdl & HD).
  destruct (po_pages _ _ _ _ _ Hp x ltac:(by left)) as (_ & Hx1 & Hx2 & Hx3). pose proof (po_end _ _ _ _ _ Hp) as He.
  destruct (txn_dpl_exist_spec have_cmov (dlist t) S U (pgno x) Hdl) as (i & dl & S' & U' & E & Hdl' & Hperm & Hi).
  { unfold pgno_used, P_INVALID, UINT32_MAX, NUM_METAS, MAX_PAGENO in *. lia. }
  assert (x ∈ S ++ U) as Hin by (rewrite HD; by left).
  destruct i as [|k]; [by destruct (Hi x Hin)|]. destruct Hi as (y & Hy & Ey).
  assert (y = x) as ->.
  { apply (same_entry _ _ _ _ _ Hp); [|by left|done]. rewrite <- HD, <- Hperm. by eapply list_elem_of_lookup_2. }
  exists k, dl, S', U'. split_and!; [done|done|by rewrite Hperm|done].
Qed.

Lemma loosen_retired :
  npages x = 1 -> retired lim t (loosen t (pgno x) (ptr x)) D R L (live X) (page_in x).
Proof.
  intros En. pose proof (wo_pool _ _ _ _ _ H) as Hp. destruct others_not_mp as [HDx HLx].
  destruct (po_pages _ _ _ _ _ Hp x ltac:(by left)) as (Eh & Hx1 & Hx2 & Hx3). pose proof (po_end _ _ _ _ _ Hp) as He.
  pose proof (loose_count_bound _ _ _ _ _ H) as HlL. pose proof (wo_count _ _ _ _ _ H) as Ec. destruct (wo_room _ _ _ _ _ H) as (Hr1 & Hr2 & Hr3).
  unfold PAGELIST_LIMIT, MAX_PAGENO, NUM_METAS in *. set (t' := loosen t (pgno x) (ptr x)).
  assert (forall p, p <> ptr x -> heads t' p = heads t p) as Hh by (intros p Hne; cbn; by rewrite !decide_False by done).
  assert (heads t' (ptr x) = mk_head INVALID_TXNID P_LOOSE (pgno x) (h_pages (heads t (ptr x))) (loose_pages t)) as Ehx.
  { cbn. rewrite !decide_True by done. cbn. by rewrite Eh. }
  assert (loose_refund_wl t' = Z.max (pgno x + 2) (loose_refund_wl t)) as Ewl.
  { cbn. rewrite u32_small by (unfold UINT32_MAX; lia). case_decide; lia. }
  split; [|done|exists X; split; [exact Hsp|done]].
  exists (x :: D), R, (ptr x :: L). split; [split|split_and!].
  - apply (wo_dirty _ _ _ _ _ H).
  - apply (wo_repnl _ _ _ _ _ H).
  - apply (pool_rehead (heads t) _ _ _ L); [exact Hp| |by rewrite Ehx|done|].
    + intros q Hq. rewrite Hh by done. apply same_head_refl.
    + rewrite decide_True by (unfold loose_entry; by rewrite Ehx). simpl. f_equiv.
      rewrite (po_loose _ _ _ _ _ Hp) at 1. by rewrite filter_cons, decide_False by done.
  - cbn [chain]. split; [done|]. rewrite Ehx. cbn [page_next]. eapply chain_ext; [|apply (wo_chain _ _ _ _ _ H)].
    intros p Hpl. by rewrite Hh by by apply HLx.
  - cbn [length]. cbn. rewrite Ec, u64_small by (unfold UINT64_MAX; simpl in *; lia). lia.
  - rewrite Ewl. constructor; [rewrite Ehx; cbn [h_pgno]; lia|]. pose proof (wo_wl _ _ _ _ _ H) as Hwl. rewrite Forall_forall in Hwl |- *.
    intros p Hpl. rewrite Hh by by apply HLx. specialize (Hwl p Hpl). simpl in Hwl. lia.
  - apply (wo_room _ _ _ _ _ H).
  - apply (wo_reserve _ _ _ _ _ H).
  - unfold in_use. rewrite filter_cons, decide_False by (unfold loose_entry; rewrite Ehx; tauto).
    change (in_use (heads t') D ≡ₚ in_use (heads t) D). erewrite in_use_ext; [done|]. intros y Hy. by rewrite Hh by by apply HDx.
  - intros p. unfold free, stock. change (first_unallocated t') with (first_unallocated t). unfold pgnos_of. rewrite fmap_cons, elem_of_cons, Ehx.
    cbn [h_pgno]. fold (pgnos_of (heads t') L). rewrite (pgnos_of_ext (heads t)) by (intros q Hq; by rewrite Hh by by apply HLx).
    fold (pgnos_of (heads t) L). unfold page_in. rewrite En. assert (p = pgno x <-> pgno x <= p < pgno x + 1) by lia. tauto.
  - done.
Qed.
End retiring.

Section dirty_page.
Context (malloc : Z -> option Z) (Hmalloc : malloc_ok malloc) (have_cmov : bool).
Context (lim : Z) (t : wr_txn) (x : dp_t) (D : list dp_t) (R : list Z) (L : list page_ptr) (X : list Z).
Context (H : wr_ok lim t (x :: D) R L) (Hsp : spill_ok t X) (Hx : ~ loose_entry (heads t) x).

(** [retired] for what [txn_refund] makes of a state. *)
Lemma retired_refund t1 t2 R1 X' freed :
  wr_ok lim t1 D R1 L -> refunds lim t1 t2 D R1 L -> (forall y, y ∈ D -> h_flags (heads t1 (ptr y)) = h_flags (heads t (ptr y))) ->
  retired_pages t1 = retired_pages t -> parents t1 = parents t ->
  (forall p, free t1 R1 L p <-> free t R L p \/ freed p) ->
  (first_unallocated t - 1 ∉ R -> first_unallocated t2 - 1 ∉ filter (fun p => p < first_unallocated t2) R1) ->
  spill_ok t2 X' -> retired lim t t2 D R L (live X') freed.
Proof.
  clear H Hsp Hx. intros H1 H2 Hfl Er Ep Hfree Htight Hsp'. pose proof (fr_lists _ _ (rf_frame _ _ _ _ _ _ H2)) as (Er2 & Ep2 & _).
  split; [|split; congruence|by exists X'].
  eexists _, _, _. split; [apply (rf_ok _ _ _ _ _ _ H2)|]. split_and!.
  - rewrite (refunds_in_use _ _ _ _ _ _ H1 H2). by rewrite (in_use_ext (heads t)).
  - intros p. by rewrite (refunds_free _ _ _ _ _ _ H2).
  - done.
Qed.

(** The cases of [retire_known] for the dirty page [x]. *)
Lemma retire_dirty_spec k S U dl pageflags :
  dpl_holds dl S U -> S ++ U ≡ₚ x :: D -> (S ++ U) !! k = Some x ->
  exists rc t', retire_known malloc have_cmov (with_dlist t dl) (pgno x) (modifable, Datatypes.S k, O, Some (ptr x), pageflags) (npages x) = Some (rc, t') /\
  ((rc = MDBX_SUCCESS /\ retired lim t t' D R L (live X) (page_in x)) \/
    (no_memory rc /\ retired lim t t' D R L (live X) (fun _ => False))).
Proof.
  intros Hdl HD Hk. pose proof (wo_pool _ _ _ _ _ H) as Hp. destruct (others_not_mp lim t x D R L H Hx) as [HDx HLx].
  destruct (po_pages _ _ _ _ _ Hp x ltac:(by left)) as (Eh & Hx1 & Hx2 & Hx3). pose proof (po_end _ _ _ _ _ Hp) as He.
  unfold retire_known. rewrite decide_False by done. cbn [first_unallocated with_dlist with_dirty].
  set (t0 := with_dlist t dl). assert (wr_ok lim t0 (x :: D) R L) as H0 by by eapply wr_ok_dlist.
  destruct (wash_spec lim t0 D R L x S U k H0 Hx Hdl HD Hk) as (t1 & Ew & Hw & H1 & Hend).
  assert (forall y, y ∈ D -> h_flags (heads t1 (ptr y)) = h_flags (heads t (ptr y))) as Hfl.
  { intros y Hy. by rewrite (wa_heads _ _ _ Hw) by by apply HDx. }
  assert (forall q, q ∈ L -> h_pgno (heads t1 q) = h_pgno (heads t q)) as Hnum.
  { intros q Hq. by rewrite (wa_heads _ _ _ Hw) by by apply HLx. }
  destruct (wa_lists _ _ _ Hw) as (Er1 & Ep1 & Erepnl). pose proof (wa_end _ _ _ Hw) as Ee1. cbn [first_unallocated t0 with_dlist with_dirty] in Ee1.
  assert (spill_ok t1 X) as Hsp1 by by eapply spill_ok_same; [apply (wa_spilled _ _ _ Hw)|].
  unfold MAX_PAGENO, NUM_METAS in He, Hx1. rewrite u64_small by (unfold UINT64_MAX; lia). case_decide as Ee; [|case_decide; [|done]].
  - (* the page at the end *)
    rewrite decide_True by done. cbn [mbind option_bind]. rewrite Ew. cbn [mbind option_bind].
    assert (wr_ok lim (with_unallocated t1 (pgno x)) D R L) as H2 by (apply wr_ok_end; [done|by apply Hend]).
    destruct (txn_refund_spec malloc Hmalloc lim _ D R L X H2 Hsp1) as (b & t2 & X' & -> & Hr & _ & HR & _ & Hsp2 & <-).
    cbn [mbind option_bind]. eexists _, _. split; [done|]. left. split; [done|].
    eapply (retired_refund _ _ R); try done.
    + intros p. unfold free, stock. cbn [heads first_unallocated with_unallocated].
      rewrite (pgnos_of_ext (heads t)) by done. unfold page_in. split.
      * intros [?|?]; [by left; left|]. destruct (decide (p < pgno x + npages x)); [right; lia|left; right; lia].
      * intros [[?|?]|?]; [by left|right; lia|right; lia].
    + intros _ [_ Hc]%list_elem_of_filter. done.
  - cbn [mbind option_bind]. destruct (bool_decide (npages x = 1) && _ && _) eqn:El.
    + apply andb_true_iff in El as [[En%bool_decide_eq_true _]%andb_true_iff _]. eexists _, _. split; [done|]. left. split; [done|].
      destruct (loosen_retired lim t0 x D R L X H0 Hsp Hx En) as [K1 K2 K3]. by split.
    + rewrite Ew. cbn [mbind option_bind]. assert (exists n, npages x = Z.of_nat n /\ (0 < n)%nat) as (n & En & Hn) by (exists (Z.to_nat (npages x)); lia).
      assert (nowhere (first_unallocated t1) D R (pgno x) n) as Hnw by (rewrite Ee1; exact (nowhere_page lim t x D R L H n En)).
      rewrite En. destruct (reclaim_spec malloc Hmalloc lim t1 D R L X (pgno x) n H1 Hsp1 Hn Hnw) as (rc & p & R' & t2 & X' & -> & Hok2 & Hr & Hsp2 & <- & Hrc).
      exists rc, t2. split; [done|]. destruct Hrc as [(-> & HR' & HR)|(Herr & -> & Htight)]; [left|right]; (split; [done|]).
      * eapply (retired_refund _ _ R'); try done.
        -- intros q. unfold free, stock. cbn [heads first_unallocated with_repnl]. rewrite (pgnos_of_ext (heads t)) by done. rewrite HR', Ee1.
          unfold page_in. rewrite En. tauto.
        -- intros _ [_ Hc]%list_elem_of_filter. done.
      * eapply (retired_refund _ _ R); try done.
        -- intros q. unfold free, stock. cbn [heads first_unallocated with_repnl]. rewrite (pgnos_of_ext (heads t)) by done. rewrite Ee1. tauto.
        -- intros HR [_ Hc]%list_elem_of_filter. revert Hc. apply Htight. by rewrite Ee1.
Qed.
End dirty_page.

(** ** Retiring a spilled page *)

Lemma pool_end_span hs fu D R L id n :
  pool_ok hs fu D R L -> (0 < n)%nat -> nowhere fu D R id n -> id + Z.of_nat n = fu -> pool_ok hs id D R L.
Proof.
  intros [H1 H2 H3 H4 H5 H6 H7 H8 H9] Hn Hout He. destruct (Hout id ltac:(lia)) as (Hid & _). split; try done.
  - lia.
  - intros y Hy. destruct (H2 y Hy) as (? & ? & ? & ?). split_and!; [done..|].
    destruct (decide (pgno y + npages y <= id)); [done|]. exfalso.
    destruct (Hout (Z.max id (pgno y)) ltac:(lia)) as (_ & _ & Hc). apply (Hc y Hy). unfold page_in. lia.
  - split; [apply H6|]. destruct H6 as [_ H6]. rewrite Forall_forall in H6 |- *. intros p Hp. specialize (H6 p Hp). simpl in H6.
    destruct (decide (p < id)); [lia|]. exfalso. destruct (Hout p ltac:(lia)) as (_ & Hc & _). by apply Hc.
Qed.

Lemma retire_spilled_spec malloc have_cmov lim t D R L X A0 B id m mp pageflags :
  malloc_ok malloc -> wr_ok lim t D R L -> spill_ok t X -> X = A0 ++ steps_down (2 * (id + 1)) 2 m ++ (2 * id) :: B ->
  parents t = [] -> nowhere (first_unallocated t) D R id (S m) ->
  exists rc t', retire_known malloc have_cmov t id (spilled, O, S (length A0 + m), mp, pageflags) (Z.of_nat (S m)) = Some (rc, t') /\
  let freed := fun p => id <= p < id + Z.of_nat (S m) in
  ((rc = MDBX_SUCCESS /\ retired lim t t' D R L (live A0 ++ live B) freed) \/
    (no_memory rc /\ retired lim t t' D R L (live A0 ++ live B) (fun _ => False))).
Proof.
  intros Hm H Hsp EX Hpar Hout. pose proof (wo_pool _ _ _ _ _ H) as Hp. pose proof (po_end _ _ _ _ _ Hp) as He.
  destruct (Hout id ltac:(lia)) as (Hid & _). destruct (Hout (id + Z.of_nat m) ltac:(lia)) as (Hlast & _).
  unfold MAX_PAGENO, NUM_METAS in *. unfold retire_known. rewrite decide_False by done. rewrite u64_small by (unfold UINT64_MAX; lia).
  destruct (spill_remove_spec t X A0 B id m Hsp EX) as (t1 & sl & X' & Er & Et1 & Hsp1 & Hlive).
  assert (wr_ok lim t1 D R L) as H1 by (rewrite Et1; by apply wr_ok_spilled).
  assert (heads t1 = heads t /\ first_unallocated t1 = first_unallocated t /\ retired_pages t1 = retired_pages t /\ parents t1 = parents t)
    as (Eh & Ee & Eret & Epar) by (by rewrite Et1).
  case_decide as Hend.
  - rewrite decide_False by done. rewrite decide_True by done. rewrite Er. cbn [mbind option_bind].
    assert (wr_ok lim (with_unallocated t1 id) D R L) as H2.
    { apply wr_ok_end; [done|]. rewrite Eh. apply (pool_end_span _ _ _ _ _ _ (S m) Hp); [lia|done|lia]. }
    destruct (txn_refund_spec malloc Hm lim _ D R L X' H2 Hsp1) as (b & t2 & X2 & -> & Hr & _ & HR & _ & Hsp2 & EX2).
    cbn [mbind option_bind]. eexists _, _. split; [done|]. left. split; [done|]. rewrite <- Hlive, <- EX2.
    eapply (retired_refund lim t _ _ _ (with_unallocated t1 id) _ R); try done; try congruence.
    + intros y _. cbn. by rewrite Eh.
    + intros p. unfold free, stock. cbn [heads first_unallocated with_unallocated]. rewrite Eh. split.
      * intros [?|?]; [by left; left|]. destruct (decide (p < id + Z.of_nat (S m))); [right; lia|left; right; lia].
      * intros [[?|?]|?]; [by left|right; lia|right; lia].
    + intros _ [_ Hc]%list_elem_of_filter. done.
  - rewrite !decide_False by done. rewrite decide_True by done. rewrite Er. cbn [mbind option_bind]. rewrite Epar, Hpar.
    cbn [parents_dirty mbind option_bind]. set (t1' := with_parents t1 []).
    assert (wr_ok lim t1' D R L) as H1' by (destruct H1; by split).
    assert (nowhere (first_unallocated t1') D R id (S m)) as Hnw by (by rewrite <- Ee in Hout).
    destruct (reclaim_spec malloc Hm lim t1' D R L X' id (S m) H1' Hsp1 ltac:(lia) Hnw) as (rc & p & R' & t2 & X2 & -> & H2 & Hr & Hsp2 & EX2 & Hrc).
    exists rc, t2. split; [done|]. rewrite <- Hlive, <- EX2.
    assert (forall freed, (forall q, q ∈ R' <-> q ∈ R \/ freed q) -> (first_unallocated t - 1 ∉ R -> first_unallocated t2 - 1 ∉ R') ->
      retired lim t t2 D R L (live X2) freed) as Hfin.
    { intros freed HR' Htight. eapply (retired_refund lim t _ _ _ (with_repnl t1' p) _ R'); try done; try congruence.
      - intros y _. cbn. by rewrite Eh.
      - intros q. unfold free, stock. cbn [heads first_unallocated with_repnl with_parents t1']. rewrite Eh, Ee, HR'. tauto.
      - intros HR [_ Hc]%list_elem_of_filter. by apply Htight. }
    destruct Hrc as [(-> & HR' & HR)|(Herr & -> & Htight)]; [left|right]; (split; [done|]); apply Hfin; try done.
    + intros q. tauto.
    + intros HR. apply Htight. cbn. by rewrite Ee.
Qed.
