(* ===== verification/LooseNew.v ===== *)
(** * Loose pages: dirty and new pages, and the allocation of a single page

    [page_dirty] and [gc_alloc_single] with [page_alloc_finalize]: a page comes into
    use, from the chain of loose pages or from [repnl]. *)

From S2P Require Import Prelude Search Sort Radix Meta Page Pnl PnlFacts PnlMerge PnlCut Dpl DplFacts DplOps Repnl.
From S2P Require Import Loose LooseFacts LooseSpill LooseRefund LooseTxn LooseRetire.

Definition same_ids (t t' : wr_txn) : Prop := txnid t' = txnid t /\ front_txnid t' = front_txnid t.

(** The pages in use and the free pages of [t'] are those of [t]. *)
Record evolves (lim : Z) (t t' : wr_txn) (D : list dp_t) (R : list Z) (L : list page_ptr) (X : list Z)
  (D' : list dp_t) (R' : list Z) (L' : list page_ptr) : Prop := {
    ev_ok : wr_ok lim t' D' R' L';
    ev_sub : D' ⊆ D;
    ev_use : in_use (heads t') D' ≡ₚ in_use (heads t) D;
    ev_free : forall p, free t' R' L' p <-> free t R L p;
    ev_heads : forall p, same_head (heads t p) (heads t' p);
    ev_spilled : exists X', spill_ok t' X' /\ live X' = live X;
    ev_reserve : keeps_pages t t' D;
    ev_ids : same_ids t t'
  }.

Lemma evolves_refl lim t D R L X : wr_ok lim t D R L -> spill_ok t X -> evolves lim t t D R L X D R L.
Proof. intros H Hsp. split; [done..|intros p; apply same_head_refl|by exists X|by left|done]. Qed.

Lemma evolves_trans lim t1 t2 t3 D1 R1 L1 X D2 R2 L2 X2 D3 R3 L3 :
  evolves lim t1 t2 D1 R1 L1 X D2 R2 L2 -> spill_ok t2 X2 -> live X2 = live X -> evolves lim t2 t3 D2 R2 L2 X2 D3 R3 L3 ->
  evolves lim t1 t3 D1 R1 L1 X D3 R3 L3.
Proof.
  intros [A1 A2 A3 A4 A6 A7 A10 [A8 A9]] _ EX [B1 B2 B3 B4 B6 B7 B10 [B8 B9]]. split; try done.
  - by etrans.
  - by rewrite B3.
  - intros p. by rewrite B4.
  - intros p. destruct (A6 p) as (? & ? & ? & ?), (B6 p) as (? & ? & ? & ?). split_and!; congruence.
  - destruct B7 as (X' & ? & ?). exists X'. split; [done|congruence].
  - by eapply keeps_pages_trans.
  - split; congruence.
Qed.

Lemma refund_evolves malloc lim t D R L X :
  malloc_ok malloc -> wr_ok lim t D R L -> spill_ok t X ->
  exists b t' D' R' L', txn_refund malloc t = Some (b, t') /\ evolves lim t t' D R L X D' R' L' /\ first_unallocated t' - 1 ∉ R' /\
  dirtyroom (dirty t) <= dirtyroom (dirty t') /\ first_unallocated t' <= first_unallocated t /\
  R' = filter (fun p => p < first_unallocated t') R /\ L' = filter (fun p => h_pgno (heads t p) < first_unallocated t') L.
Proof.
  intros Hm H Hsp. destruct (txn_refund_spec malloc Hm lim t D R L X H Hsp) as (b & t' & X' & E & Hr & _ & HR & _ & Hsp' & HX).
  exists b, t'. eexists _, _, _. split; [done|].
  assert (first_unallocated t' - 1 ∉ filter (fun p => p < first_unallocated t') R) as HR' by by intros [_ Hc]%list_elem_of_filter.
  split; [|split; [done|split; [|split; [apply (rf_end _ _ _ _ _ _ Hr)|done]]]].
  - split; [apply (rf_ok _ _ _ _ _ _ Hr)| | | |apply (fr_heads _ _ (rf_frame _ _ _ _ _ _ Hr))|by exists X'|apply (rf_reserve _ _ _ _ _ _ Hr)|].
    + intros x. rewrite list_elem_of_filter. tauto.
    + by rewrite (refunds_in_use _ _ _ _ _ _ H Hr).
    + by apply refunds_free with (1 := Hr).
    + destruct (fr_ids _ _ (rf_frame _ _ _ _ _ _ Hr)) as (? & ? & _). done.
  - destruct (wo_room _ _ _ _ _ H) as (_ & H1 & _), (wo_room _ _ _ _ _ (rf_ok _ _ _ _ _ _ Hr)) as (_ & H2 & _).
    pose proof (length_filter (fun x => pgno x < first_unallocated t') D). lia.
Qed.

(** ** A header that no list refers to *)

Lemma wr_ok_head lim t D R L mp h : wr_ok lim t D R L -> mp ∉ ptr <$> D -> wr_ok lim (with_head t mp h) D R L.
Proof.
  intros H Hmp. pose proof (wo_pool _ _ _ _ _ H) as Hp.
  assert (forall p, p <> mp -> heads (with_head t mp h) p = heads t p) as Hh by (intros p Hne; cbn; by rewrite decide_False).
  assert (forall x, x ∈ D -> ptr x <> mp) as HD by (intros x Hx <-; apply Hmp; by apply list_elem_of_fmap_2).
  assert (forall p, p ∈ L -> p <> mp) as HL.
  { intros p Hpl. destruct (loose_is_dirty _ _ _ _ _ Hp p Hpl) as (x & Hx & <- & _). by apply HD. }
  split; try apply H.
  - eapply pool_ok_heads; [|exact Hp]. intros x Hx. rewrite Hh by by apply HD. apply same_head_refl.
  - eapply chain_ext; [|apply (wo_chain _ _ _ _ _ H)]. intros p Hpl. by rewrite Hh by by apply HL.
  - pose proof (wo_wl _ _ _ _ _ H) as Hwl. rewrite Forall_forall in Hwl |- *. intros p Hpl. rewrite Hh by by apply HL. by apply Hwl.
Qed.

(** ** A loose page becomes reusable *)

Lemma pool_drop_loose hs fu D R L x :
  pool_ok hs fu (x :: D) R (ptr x :: L) -> loose_entry hs x -> pool_ok hs fu D R L.
Proof.
  intros [H1 H2 H3 H4 H5 H6 H7 H8 H9] Hx. rewrite fmap_cons in H3. apply NoDup_cons in H3 as [_ H3].
  rewrite fmap_cons in H4. apply NoDup_cons in H4 as [_ H4]. split; try done.
  - intros y Hy. apply H2. by right.
  - intros y z Hy Hz. apply H5; by right.
  - intros y z Hy. apply H7. by right.
  - rewrite filter_cons, decide_True in H8 by done. simpl in H8. by apply Permutation_cons_inv in H8.
  - intros y Hy. apply H9. by right.
Qed.

Section dirtying.
Context (malloc : Z -> option Z) (Hmalloc : malloc_ok malloc) (have_cmov : bool).

Lemma search_entry lim t x D R L :
  wr_ok lim t (x :: D) R L ->
  exists k dl S U, txn_dpl_search have_cmov (dlist t) (pgno x) = Some (Datatypes.S k, dl) /\ dpl_holds dl S U /\ S ++ U ≡ₚ x :: D /\
  (S ++ U) !! k = Some x.
Proof.
  intros H. pose proof (wo_pool _ _ _ _ _ H) as Hp. destruct (wo_dirty _ _ _ _ _ H) as (S & U & Hdl & HD).
  destruct (po_pages _ _ _ _ _ Hp x ltac:(by left)) as (_ & Hx1 & Hx2 & Hx3). pose proof (po_end _ _ _ _ _ Hp) as He.
  destruct (txn_dpl_search_spec have_cmov (dlist t) S U (pgno x) Hdl) as (i & dl & S' & U' & y & E & Hdl' & Hperm & Hi & Hy & H1 & H2).
  assert (y = x) as -> by (apply H1; [rewrite HD; by left|done]).
  destruct i as [|k]; [lia|]. exists k, dl, S', U'. split_and!; [done|done|by rewrite Hperm|].
  destruct (H2 eq_refl) as [Hk|E']; [done|]. exfalso. unfold P_INVALID, UINT32_MAX, MAX_PAGENO in *. lia.
Qed.

Lemma insert_repnl_same t t1 id n rc p :
  repnl t1 = repnl t -> insert_repnl malloc t1 id n = Some (rc, with_repnl t1 p) -> insert_repnl malloc t id n = Some (rc, with_repnl t p).
Proof.
  unfold insert_repnl. intros ->. destruct (pnl_insert_span _ _ _ _) as [[rc' [q|]]|]; cbn [mbind option_bind]; [|done..].
  by intros [= -> ->].
Qed.

Lemma reclaim_loose_spec lim t x D R L X :
  wr_ok lim t (x :: D) R (ptr x :: L) -> loose_entry (heads t) x -> spill_ok t X ->
  exists rc t' D' R' L', reclaim_loose malloc have_cmov t (ptr x) = Some (rc, t') /\ evolves lim t t' (x :: D) R (ptr x :: L) X D' R' L' /\
  (first_unallocated t - 1 ∉ R -> first_unallocated t' - 1 ∉ R') /\
  ((rc = MDBX_SUCCESS /\ dirtyroom (dirty t) < dirtyroom (dirty t')) \/ no_memory rc).
Proof.
  intros H Hx Hsp. pose proof (wo_pool _ _ _ _ _ H) as Hp. destruct (wo_chain _ _ _ _ _ H) as [Elp Hchain].
  destruct (po_pages _ _ _ _ _ Hp x ltac:(by left)) as (Eh & Hx1 & Hx2 & Hx3). pose proof (po_single _ _ _ _ _ Hp x ltac:(by left) Hx) as En.
  destruct (search_entry _ _ _ _ _ _ H) as (k & dl & S & U & Es & Hdl & HD & Hk).
  destruct (txn_dpl_remove_spec dl S U k x Hdl Hk) as (dl' & S' & U' & Erm & Hdl' & E' & _ & _).
  set (t1 := shadow_release (add_dirtyroom (with_loose (with_dlist t dl') (page_next (heads t (ptr x))) (u64 (loose_count t - 1))) 1) (ptr x) 1).
  assert (S' ++ U' ≡ₚ D) as HD'.
  { rewrite E'. destruct (list_split_at _ _ _ Hk) as (L1 & L2 & EL & <-). rewrite EL in HD |- *. rewrite delete_middle.
    apply (Permutation_cons_inv (a := x)). rewrite <- HD. solve_Permutation. }
  assert (wr_ok lim t1 D R L) as H1.
  { destruct (wo_room _ _ _ _ _ H) as (Hr1 & Hr2 & Hr3). pose proof (wo_count _ _ _ _ _ H) as Ec. cbn [length] in Hr2, Ec.
    pose proof (loose_count_bound _ _ _ _ _ H) as HlL. cbn [length] in HlL. unfold PAGELIST_LIMIT, MAX_PAGENO in *. split.
    - by exists S', U'.
    - apply (wo_repnl _ _ _ _ _ H).
    - by eapply pool_drop_loose.
    - done.
    - cbn. rewrite Ec, u64_small by (unfold UINT64_MAX; lia). lia.
    - pose proof (wo_wl _ _ _ _ _ H) as Hwl. by apply Forall_cons in Hwl as [_ Hwl].
    - cbn. unfold PAGELIST_LIMIT, MAX_PAGENO. rewrite u64_small by (unfold UINT64_MAX; lia). lia.
    - eapply reserve_ok_release; [apply (wo_reserve _ _ _ _ _ H)|apply (po_ptrs _ _ _ _ _ Hp)|].
      unfold reserve, t1, shadow_release, page_shadow_release. cbn. destruct (_ && _); [by right|by left]. }
  assert (dirtyroom (dirty t1) = dirtyroom (dirty t) + 1) as Eroom.
  { destruct (wo_room _ _ _ _ _ H) as (Hr1 & Hr2 & Hr3), (wo_room _ _ _ _ _ H1) as (_ & Hr2' & _). cbn [length] in Hr2. lia. }
  assert (nowhere (first_unallocated t1) D R (pgno x) 1) as Hnw.
  { intros p Hpr. apply (pool_apart _ _ _ _ _ x p Hp). unfold page_in. lia. }
  destruct (insert_repnl_spec malloc Hmalloc lim t1 D R L (pgno x) 1 H1 ltac:(lia) Hnw) as (rc & p & R' & Ei & H2 & Hrc).
  unfold reclaim_loose. rewrite Eh. change (Z.of_nat 1) with 1 in Ei, Hrc. rewrite (insert_repnl_same t t1 _ _ _ _ eq_refl Ei). cbn [mbind option_bind].
  destruct Hrc as [[-> HR']|[Herr ->]].
  2: { rewrite decide_True by (destruct Herr as [->| ->]; done). exists rc, (with_repnl t p), (x :: D), R, (ptr x :: L).
    split; [done|]. split; [|split; [done|by right]].
    split; [|done..|intros q; apply same_head_refl|by exists X|by left|done].
    eapply wr_ok_repnl; [exact H|apply (wo_repnl _ _ _ _ _ H2)|exact Hp]. }
  rewrite decide_False by (intros []; done). change (dlist (with_repnl t p)) with (dlist t). cbn [heads with_repnl]. rewrite Eh, Es. cbn [mbind option_bind].
  rewrite Erm. cbn [mbind option_bind]. change (shadow_release _ (ptr x) 1) with (with_repnl t1 p).
  assert (evolves lim t (with_repnl t1 p) (x :: D) R (ptr x :: L) X D R' L) as Hev.
  { split; [exact H2| | | |intros q; apply same_head_refl|by exists X| |done].
    - intros y Hy. by right.
    - unfold in_use. by rewrite filter_cons, decide_False by tauto.
    - intros q. unfold free, stock, pgnos_of. rewrite fmap_cons, elem_of_cons, Eh, HR'. change (heads (with_repnl t1 p)) with (heads t).
      change (first_unallocated (with_repnl t1 p)) with (first_unallocated t). assert (q = pgno x <-> pgno x <= q < pgno x + 1) by lia. tauto.
    - intros q Hq. change (reserve (with_repnl t1 p)) with (reserve t1) in Hq. unfold reserve, t1, shadow_release, page_shadow_release in Hq. cbn in Hq.
      destruct (_ && _) in Hq; [apply elem_of_cons in Hq as [->|Hq]; [right; rewrite fmap_cons; by left|by left]|by left]. }
  rewrite (repnl_at_end_spec _ _ _ _ _ H2). cbn [mbind option_bind]. case_bool_decide as Hend.
  - destruct (refund_evolves malloc lim _ _ _ _ X Hmalloc H2 Hsp) as (b & t3 & D3 & R3 & L3 & -> & Hev3 & Htight & Hroom & _).
    cbn [mbind option_bind]. exists MDBX_SUCCESS, t3, D3, R3, L3. split; [done|]. split; [by eapply evolves_trans|]. split; [done|].
    left. split; [done|]. change (dirtyroom (dirty (with_repnl t1 p))) with (dirtyroom (dirty t1)) in Hroom. lia.
  - exists MDBX_SUCCESS, (with_repnl t1 p), D, R', L. split; [done|]. split; [done|]. split; [done|]. left. split; [done|].
    change (dirtyroom (dirty (with_repnl t1 p))) with (dirtyroom (dirty t1)). lia.
Qed.

(** ** The list of dirty pages gets an entry *)

Lemma txn_dpl_append_frame t id page n rc t' :
  txn_dpl_append have_cmov malloc t id page n = Some (rc, t') -> dirtyroom t' = dirtyroom t /\ txn_env t' = txn_env t.
Proof.
  unfold txn_dpl_append. cbn [dirtylist]. intros E. repeat (case_decide; simplify_eq/=; try done).
  - destruct (txn_dpl_reserve _ _ _); simplify_eq/=; [|done]. destruct (dpl_put _ _ _); by simplify_eq/=.
  - destruct (txn_dpl_reserve _ _ _); simplify_eq/=; [|done]. destruct (dpl_put _ _ _); by simplify_eq/=.
  - destruct (dpl_put _ _ _); by simplify_eq/=.
Qed.

Lemma append_dirty_spec lim t D R L X mp id n :
  wr_ok lim t D R L -> spill_ok t X -> 0 < dirtyroom (dirty t) -> 0 < n < 2 ^ 32 -> mp ∉ ptr <$> D -> mp ∉ reserve t ->
  h_pgno (heads t mp) = id -> h_flags (heads t mp) <> P_LOOSE -> nowhere (first_unallocated t) D R id (Z.to_nat n) ->
  exists rc t', append_dirty malloc have_cmov t mp n = Some (rc, t') /\ heads t' = heads t /\ same_ids t t' /\
  first_unallocated t' = first_unallocated t /\ spill_ok t' X /\
  ((rc = MDBX_SUCCESS /\ wr_ok lim t' (mk_dp mp id n :: D) R L) \/ (no_memory rc /\ wr_ok lim t' D R L)).
Proof.
  intros H Hsp Hroom Hn Hmp Hmpr Eid Hfl Hout. pose proof (wo_pool _ _ _ _ _ H) as Hp. pose proof (po_end _ _ _ _ _ Hp) as He.
  destruct (wo_dirty _ _ _ _ _ H) as (S & U & Hdl & HD). set (x := mk_dp mp id n).
  assert (forall p, page_in x p -> NUM_METAS <= p < first_unallocated t /\ p ∉ R /\ forall y, y ∈ D -> ~ page_in y p) as Hout'.
  { intros p Hin. apply Hout. unfold page_in in Hin. simpl in Hin. lia. }
  destruct (Hout' id ltac:(unfold page_in; simpl; lia)) as (Hid & _ & Hid').
  unfold append_dirty. rewrite Eid.
  destruct (txn_dpl_append_spec have_cmov malloc (dirty t) S U id mp n Hmalloc Hdl) as [(d & S' & U' & E & Hdl' & HD' & _ & Er & _)|(err & d & E & Ed & Herr)].
  - unfold pgno_used, P_INVALID, UINT32_MAX, NUM_METAS, MAX_PAGENO in *. lia.
  - rewrite HD. intros (y & Ey & Hy)%list_elem_of_fmap. apply (Hid' y Hy). destruct (po_pages _ _ _ _ _ Hp y Hy) as (_ & _ & ? & _).
    unfold page_in. lia.
  - rewrite E. cbn [mbind option_bind]. rewrite decide_False by (intros []; done). eexists _, _. split; [done|]. split_and!; [done..|].
    left. split; [done|]. rewrite u32_small in HD' by (unfold UINT32_MAX; lia). rewrite HD in HD'.
    destruct (wo_room _ _ _ _ _ H) as (Hr1 & Hr2 & Hr3). unfold PAGELIST_LIMIT, MAX_PAGENO in *. destruct H as [H1 H2 H3 H4 H5 H6 H7 H8].
    split; try done.
    + by exists S', U'.
    + cbn [heads first_unallocated add_dirtyroom with_dirty]. apply pool_add; try done. simpl. lia.
    + cbn. rewrite Er, u64_small by (unfold UINT64_MAX; lia). unfold PAGELIST_LIMIT, MAX_PAGENO. lia.
    + unfold reserve. cbn. rewrite (proj2 (txn_dpl_append_frame _ _ _ _ _ _ E)). fold (reserve t). destruct H8 as [Hn1 Hn2]. split; [done|].
      intros p Hin. rewrite fmap_cons. intros [->|Hc]%elem_of_cons; [done|by apply (Hn2 p Hin)].
  - rewrite E. cbn [mbind option_bind]. assert (no_memory err) as Hnm by (destruct Herr as [->|[-> _]]; [by left|by right]).
    rewrite decide_True by (destruct Hnm as [->| ->]; done). eexists _, _. split; [done|]. split_and!; [done..|]. right. split; [done|].
    destruct (txn_dpl_append_frame _ _ _ _ _ _ E) as [Er Ee].
    destruct H as [H1 H2 H3 H4 H5 H6 H7 H8]. split; try done.
    + unfold dlist. cbn. rewrite Ed. done.
    + cbn. by rewrite Er.
    + unfold reserve. cbn. by rewrite Ee.
Qed.

(** What [page_dirty] leaves: the new page is in use, or an error tells that it is
    not; the free pages are the same. *)
Definition dirtied (lim : Z) (t : wr_txn) (D : list dp_t) (R : list Z) (L : list page_ptr) (X : list Z) (x : dp_t) (rc : Z) (t' : wr_txn) : Prop :=
  exists D' R' L', wr_ok lim t' D' R' L' /\ (forall p, free t' R' L' p <-> free t R L p) /\ same_ids t t' /\
  (first_unallocated t - 1 ∉ R -> first_unallocated t' - 1 ∉ R') /\ (exists X', spill_ok t' X' /\ live X' = live X) /\
  ((rc = MDBX_SUCCESS /\ in_use (heads t') D' ≡ₚ x :: in_use (heads t) D /\ h_txnid (heads t' (ptr x)) = front_txnid t) \/
    (no_memory rc /\ in_use (heads t') D' ≡ₚ in_use (heads t) D)).

Lemma append_dirtied lim t t1 D R L X D1 R1 L1 mp id n :
  evolves lim t t1 D R L X D1 R1 L1 -> (first_unallocated t - 1 ∉ R -> first_unallocated t1 - 1 ∉ R1) ->
  wr_ok lim t D R L -> 0 < dirtyroom (dirty t1) -> 0 < n < 2 ^ 32 -> mp ∉ ptr <$> D -> mp ∉ reserve t ->
  h_pgno (heads t mp) = id -> h_flags (heads t mp) <> P_LOOSE -> h_txnid (heads t mp) = front_txnid t ->
  nowhere (first_unallocated t) D R id (Z.to_nat n) ->
  exists rc t', append_dirty malloc have_cmov t1 mp n = Some (rc, t') /\ dirtied lim t D R L X (mk_dp mp id n) rc t'.
Proof.
  intros [E1 E2 E3 E4 E6 (X1 & Hsp1 & EX1) E10 [E8 E9]] Htight H Hroom Hn Hmp Hmpr Eid Hfl Htx Hout. destruct (E6 mp) as (Ht & Hf & Hg & _).
  pose proof (wo_pool _ _ _ _ _ H) as Hp.
  destruct (append_dirty_spec lim t1 D1 R1 L1 X1 mp id n) as (rc & t' & Ea & Eh & [Ei Ef] & Ee & Hsp' & Hrc); try done; try congruence.
  - intros Hin. apply Hmp. apply list_elem_of_fmap in Hin as (y & -> & Hy). apply list_elem_of_fmap_2. by apply E2.
  - intros Hin. by destruct (E10 mp Hin).
  - intros p Hpr. destruct (Hout p Hpr) as (Hb & HR & HD). assert (~ free t R L p) as Hnf.
    { intros [[?|(y & Hy & Hl & Ey)%(elem_of_loose_numbers _ _ _ _ _ Hp)]|?]; [done| |lia]. apply (HD y Hy). unfold page_in.
      destruct (po_pages _ _ _ _ _ Hp y Hy) as (_ & _ & ? & _). lia. }
    rewrite <- E4 in Hnf. split_and!; [lia| | |].
    + destruct (decide (p < first_unallocated t1)); [done|]. exfalso. apply Hnf. right. lia.
    + intros HR1. apply Hnf. by left; left.
    + intros y Hy. apply HD. by apply E2.
  - exists rc, t'. split; [done|].
    assert (forall D' , wr_ok lim t' D' R1 L1 -> forall p, free t' R1 L1 p <-> free t R L p) as Hfree.
    { intros D' _ p. rewrite <- E4. apply free_ext; [intros q _; by rewrite Eh|done]. }
    destruct Hrc as [[-> Hok]|[Herr Hok]].
    + exists (mk_dp mp id n :: D1), R1, L1. split_and!; [done|by eapply Hfree|by split; congruence|by rewrite Ee|by exists X1|]. left. split; [done|].
      rewrite Eh. split; [|cbn [ptr]; congruence]. unfold in_use. rewrite filter_cons, decide_True by (unfold loose_entry; cbn [ptr]; congruence).
      f_equiv. exact E3.
    + exists D1, R1, L1. split_and!; [done|by eapply Hfree|by split; congruence|by rewrite Ee|by exists X1|]. right. split; [done|]. by rewrite Eh.
Qed.

Lemma page_dirty_spec lim t D R L X mp id n :
  wr_ok lim t D R L -> spill_ok t X -> 0 < n < 2 ^ 32 -> mp ∉ ptr <$> D -> mp ∉ reserve t ->
  h_pgno (heads t mp) = id -> h_flags (heads t mp) <> P_LOOSE -> nowhere (first_unallocated t) D R id (Z.to_nat n) ->
  exists rc t', page_dirty malloc have_cmov t mp n = Some (rc, t') /\ dirtied lim t D R L X (mk_dp mp id n) rc t'.
Proof.
  intros H Hsp Hn Hmp Hmpr Eid Hfl Hout. unfold page_dirty. set (t1 := set_head_txnid t mp (front_txnid t)).
  assert (wr_ok lim t1 D R L) as H1 by (by apply wr_ok_head).
  assert (heads t1 mp = mk_head (front_txnid t) (h_flags (heads t mp)) id (h_pages (heads t mp)) (page_next (heads t mp))) as Emp.
  { cbn. rewrite decide_True by done. by rewrite Eid. }
  assert (forall p, p <> mp -> heads t1 p = heads t p) as Hoth by (intros p Hne; cbn; by rewrite decide_False).
  assert (forall x rc t', dirtied lim t1 D R L X x rc t' -> dirtied lim t D R L X x rc t') as Hfin.
  { intros x rc t' (D' & R' & L' & K1 & K2 & K6 & K3 & K4 & K5). pose proof (wo_pool _ _ _ _ _ H) as Hp.
    assert (in_use (heads t1) D = in_use (heads t) D) as EU.
    { apply in_use_ext. intros y Hy. rewrite Hoth; [done|]. intros <-. apply Hmp. by apply list_elem_of_fmap_2. }
    exists D', R', L'. rewrite EU in K5. split_and!; [done| |done|done|done|done]. intros p. rewrite K2. apply free_ext; [|done].
    intros q Hq. rewrite Hoth; [done|]. intros ->. destruct (loose_is_dirty _ _ _ _ _ Hp _ Hq) as (y & Hy & <- & _).
    apply Hmp. by apply list_elem_of_fmap_2. }
  change (dirtyroom (dirty t1)) with (dirtyroom (dirty t)). change (loose_count t1) with (loose_count t).
  change (loose_pages t1) with (loose_pages t). destruct (wo_room _ _ _ _ _ H) as (Hr1 & Hr2 & Hr3). pose proof (wo_count _ _ _ _ _ H) as Ec.
  case_decide as E0.
  - case_decide as EL.
    + destruct L as [|lp L]; [simpl in Ec; lia|]. destruct (wo_chain _ _ _ _ _ H) as [Elp _]. rewrite Elp. cbn [mbind option_bind].
      pose proof (wo_pool _ _ _ _ _ H1) as Hp1. destruct (loose_is_dirty _ _ _ _ _ Hp1 lp ltac:(by left)) as (x & Hx & <- & Hl & _).
      apply elem_of_Permutation in Hx as [D0 HD0]. pose proof (wr_ok_perm _ _ _ _ _ _ HD0 H1) as H1'.
      destruct (reclaim_loose_spec lim t1 x D0 R L X H1' Hl Hsp) as (rc & t2 & D2 & R2 & L2 & -> & Hev & Htight & Hrc).
      cbn [mbind option_bind].
      assert (evolves lim t1 t2 D R (ptr x :: L) X D2 R2 L2) as Hev'.
      { destruct Hev as [V1 V2 V3 V4 V5 V6 V7 V8]. split; try done.
        - intros y Hy. rewrite HD0. by apply V2.
        - unfold in_use in *. by rewrite HD0.
        - intros p Hin. rewrite HD0. by apply V7. }
      destruct Hrc as [[-> Hroom]|Hnm].
      * rewrite decide_False by (intros []; done).
        destruct (append_dirtied lim t1 t2 D R (ptr x :: L) X D2 R2 L2 mp id n) as (rc & t' & -> & Hd); try done; try (by rewrite Emp).
        -- change (dirtyroom (dirty t1)) with (dirtyroom (dirty t)) in Hroom. lia.
        -- exists rc, t'. split; [done|]. by apply Hfin.
      * rewrite decide_True by (destruct Hnm as [->| ->]; done). eexists _, _. split; [done|]. apply Hfin.
        destruct Hev' as [V1 V2 V3 V4 V5 V6 V7 V8]. exists D2, R2, L2. split_and!; try done; [by destruct V1; split|by right].
    + eexists _, _. split; [done|]. apply Hfin. exists D, R, L.
      split_and!; [|done|done|done|by exists X|right; split; [by right|done]].
      destruct H1 as [K1 K2 K3 K4 K5 K6 K7 [K8 K9]]. split; try done.
      destruct (reserve_release t1 mp n) as [->| ->]; (split; [|intros p Hin]); [done|by apply K9|by constructor|].
      apply elem_of_cons in Hin as [->|Hin]; [done|by apply K9].
  - destruct (append_dirtied lim t1 t1 D R L X D R L mp id n) as (rc & t' & -> & Hd); try done; try (by rewrite Emp).
    + by apply evolves_refl.
    + change (dirtyroom (dirty t1)) with (dirtyroom (dirty t)). lia.
    + exists rc, t'. split; [done|]. by apply Hfin.
Qed.
End dirtying.

(** ** Loose pages: allocation of a single page

    [gc_alloc_single] and [page_new]: the first loose page, or the smallest page of
    [repnl], comes into use; only a transaction without both has to search the GC. *)

(** ** The header of a page in use *)

Lemma mark_in_use lim t x D R L h :
  wr_ok lim t (x :: D) R L -> ~ loose_entry (heads t) x -> h_pgno h = pgno x -> h_flags h <> P_LOOSE ->
  wr_ok lim (with_head t (ptr x) h) (x :: D) R L.
Proof.
  intros H Hx Eh Hfl. pose proof (wo_pool _ _ _ _ _ H) as Hp. destruct (others_not_mp lim t x D R L H Hx) as [HDx HLx].
  assert (forall p, p <> ptr x -> heads (with_head t (ptr x) h) p = heads t p) as Hh by (intros p Hne; cbn; by rewrite decide_False).
  assert (heads (with_head t (ptr x) h) (ptr x) = h) as Ex by (cbn; by rewrite decide_True).
  split; try apply H.
  - apply (pool_rehead (heads t) _ _ _ L); [exact Hp| |by rewrite Ex|unfold loose_entry; by rewrite Ex|].
    + intros q Hq. rewrite Hh by done. apply same_head_refl.
    + rewrite decide_False by (unfold loose_entry; by rewrite Ex). simpl.
      rewrite (po_loose _ _ _ _ _ Hp) at 1. by rewrite filter_cons, decide_False by done.
  - eapply chain_ext; [|apply (wo_chain _ _ _ _ _ H)]. intros p Hpl. by rewrite Hh by by apply HLx.
  - pose proof (wo_wl _ _ _ _ _ H) as Hwl. rewrite Forall_forall in Hwl |- *. intros p Hpl. rewrite Hh by by apply HLx. by apply Hwl.
Qed.

(** The first page of the chain comes into use. *)
Definition take_loose (t : wr_txn) (lp : page_ptr) (flags : Z) : wr_txn :=
  set_head_flags (set_head_txnid (with_loose t (page_next (heads t lp)) (u64 (loose_count t - 1))) lp (front_txnid t)) lp flags.

Lemma take_loose_spec lim t x D R L flags :
  wr_ok lim t (x :: D) R (ptr x :: L) -> loose_entry (heads t) x -> flags <> P_LOOSE ->
  let t' := take_loose t (ptr x) flags in
  wr_ok lim t' (x :: D) R L /\ in_use (heads t') (x :: D) = x :: in_use (heads t) (x :: D) /\
  (forall p, free t' R L p <-> free t R (ptr x :: L) p /\ p <> pgno x).
Proof.
  intros H Hx Hfl t'. pose proof (wo_pool _ _ _ _ _ H) as Hp. pose proof (po_ptrs _ _ _ _ _ Hp) as Hptrs.
  destruct (po_pages _ _ _ _ _ Hp x ltac:(by left)) as (Eh & Hx1 & Hx2 & Hx3). destruct (wo_chain _ _ _ _ _ H) as [_ Hchain].
  pose proof (loose_NoDup _ _ _ _ _ Hp) as Hnd. apply NoDup_cons in Hnd as [HxL _].
  pose proof (loose_numbers_NoDup _ _ _ _ _ Hp) as Hnum. unfold pgnos_of in Hnum. rewrite fmap_cons in Hnum. apply NoDup_cons in Hnum as [HxN _].
  assert (forall p, p <> ptr x -> heads t' p = heads t p) as Hh by (intros p Hne; cbn; by rewrite !decide_False by done).
  assert (h_flags (heads t' (ptr x)) = flags /\ h_pgno (heads t' (ptr x)) = pgno x) as [Efl Epg] by (cbn; by rewrite !decide_True by done).
  assert (forall p, p ∈ L -> p <> ptr x) as HLx by (intros p Hpl ->; done).
  assert (forall y, y ∈ D -> ptr y <> ptr x) as HDx by (intros y Hy; by eapply other_ptr).
  assert (pgnos_of (heads t') L = pgnos_of (heads t) L) as EN by (apply pgnos_of_ext; intros q Hq; by rewrite Hh by by apply HLx).
  pose proof (wo_count _ _ _ _ _ H) as Ec. cbn [length] in Ec.
  pose proof (loose_count_bound _ _ _ _ _ H) as HlL. cbn [length] in HlL. destruct (wo_room _ _ _ _ _ H) as (Hr1 & Hr2 & Hr3). cbn [length] in Hr2.
  split; [|split].
  - split.
    + apply (wo_dirty _ _ _ _ _ H).
    + apply (wo_repnl _ _ _ _ _ H).
    + apply (pool_rehead (heads t) _ _ _ (ptr x :: L)); [exact Hp| |done|unfold loose_entry; by rewrite Efl|].
      * intros q Hq. rewrite Hh by done. apply same_head_refl.
      * rewrite decide_False by (unfold loose_entry; by rewrite Efl). simpl. pose proof (po_loose _ _ _ _ _ Hp) as HL.
        rewrite filter_cons, decide_True in HL by done. simpl in HL. by apply Permutation_cons_inv in HL.
    + eapply chain_ext; [|exact Hchain]. intros p Hpl. by rewrite Hh by by apply HLx.
    + cbn. unfold PAGELIST_LIMIT, MAX_PAGENO in *. rewrite Ec, u64_small by (unfold UINT64_MAX; lia). lia.
    + pose proof (wo_wl _ _ _ _ _ H) as Hwl. apply Forall_cons in Hwl as [_ Hwl]. rewrite Forall_forall in Hwl |- *.
      intros p Hpl. rewrite Hh by by apply HLx. by apply Hwl.
    + apply (wo_room _ _ _ _ _ H).
    + apply (wo_reserve _ _ _ _ _ H).
  - unfold in_use. rewrite !filter_cons, decide_True by (unfold loose_entry; by rewrite Efl). rewrite decide_False by tauto. f_equal.
    apply in_use_ext. intros y Hy. by rewrite Hh by by apply HDx.
  - intros p. unfold free, stock. rewrite EN. change (first_unallocated t') with (first_unallocated t).
    unfold pgnos_of at 2. rewrite fmap_cons, elem_of_cons, Eh. fold (pgnos_of (heads t) L). rewrite Eh in HxN.
    assert (pgno x ∉ R) as HxR by (intros HR; apply (po_apart _ _ _ _ _ Hp x _ ltac:(by left) HR); unfold page_in; lia).
    split.
    + intros [[HR|HN]|He]; (split; [|intros ->]); [tauto|done|tauto|by apply HxN|tauto|lia].
    + intros [[[HR|[->|HN]]|He] Hne]; [tauto|done|tauto|tauto].
Qed.

(** ** The smallest reusable page *)

Lemma pool_take hs fu D R id L : pool_ok hs fu D (R ++ [id]) L -> pool_ok hs fu D R L /\ nowhere fu D R id 1.
Proof.
  intros [H1 H2 H3 H4 H5 [H6 H6'] H7 H8 H9]. apply descending_app in H6 as (Hd & _ & Hlt). apply Forall_app in H6' as [Hb Hid].
  rewrite Forall_singleton in Hid. split.
  - split; try done. intros x y Hx Hy. apply H7; [done|]. apply elem_of_app. by left.
  - intros p Hp. assert (p = id) as -> by lia. split_and!; [lia|lia| |].
    + intros Hin. specialize (Hlt id id Hin ltac:(by left)). lia.
    + intros y Hy. apply H7; [done|]. apply elem_of_app. right. by left.
Qed.

Lemma repnl_get_single_spec p R id :
  pnl_holds p (R ++ [id]) ->
  exists c, repnl_get_single (cells p) = Some (id, c) /\ pnl_holds (mk_pnl (pnl_alloclen p) c) R.
Proof.
  intros [Hc Hcap Hroom Hlim]. unfold repnl_get_single. rewrite (holding_size _ _ Hc), length_app, Nat.add_1_r.
  rewrite (holding_rd_nth _ _ (length R) id Hc) by by rewrite lookup_app_r, Nat.sub_diag.
  cbn [mbind option_bind]. destruct Hc as [W Ec]. rewrite Ec, pnl_setsize_spec. cbn [mbind option_bind]. rewrite Nat.sub_1_r. cbn [Nat.pred].
  eexists. split; [done|]. rewrite length_app in Hcap. cbn [length] in Hcap. rewrite Ec in Hroom. split.
  - exists (id :: W). cbn [cells]. by rewrite <- app_assoc.
  - cbn [pnl_alloclen]. lia.
  - exact Hroom.
  - exact Hlim.
Qed.

(** ** The page in memory *)

Lemma shadow_alloc_spec e D fresh :
  reserve_ok (shadow_reserve e) D -> (forall p, fresh = Some p -> p ∉ ptr <$> D) ->
  exists np e', page_shadow_alloc e 1 fresh = (np, e') /\ reserve_ok (shadow_reserve e') D /\
  (forall p, np = Some p -> p ∉ ptr <$> D /\ p ∉ shadow_reserve e') /\ (np = None -> fresh = None).
Proof.
  intros Hk Hf. unfold page_shadow_alloc. destruct (shadow_reserve e) as [|np rest] eqn:Er.
  - exists fresh, e. rewrite Er. split_and!; try done. intros p Hp. split; [by apply Hf|]. by intros ?%elem_of_nil.
  - rewrite decide_True by done. eexists _, _. split; [done|]. cbn [shadow_reserve]. destruct Hk as [Hnd Hk].
    apply NoDup_cons in Hnd as [Hnp Hnd]. split_and!; [|intros p [= <-]; split; [apply Hk; by left|done]|done].
    split; [done|]. intros p Hp. apply Hk. by right.
Qed.

Section allocation.
Context (malloc : Z -> option Z) (Hmalloc : malloc_ok malloc) (have_cmov : bool).

(** A page [id] of the stock is in use, at [np]; or it is lost, with an error. *)
Record allocated (lim : Z) (t t' : wr_txn) (D : list dp_t) (R : list Z) (L : list page_ptr) (X : list Z) (id : Z)
  (use : list dp_t) : Prop := {
    al_ok : exists D' R' L', wr_ok lim t' D' R' L' /\ in_use (heads t') D' ≡ₚ use ++ in_use (heads t) D /\
      (forall p, free t' R' L' p <-> free t R L p /\ p <> id);
    al_stock : stock (heads t) R L id;
    al_spilled : exists X', spill_ok t' X' /\ live X' = live X;
    al_ids : same_ids t t'
  }.

Definition in_hands (t t' : wr_txn) (np : page_ptr) (id : Z) : Prop :=
  h_txnid (heads t' np) = front_txnid t /\ h_pgno (heads t' np) = id.

Lemma finalize_spec lim t D R L X id fresh :
  wr_ok lim t D R L -> spill_ok t X -> nowhere (first_unallocated t) D R id 1 -> (forall p, fresh = Some p -> p ∉ ptr <$> D) ->
  exists rc np t', page_alloc_finalize malloc have_cmov t fresh id 1 = Some (rc, np, t') /\
  exists D' R' L', wr_ok lim t' D' R' L' /\ (forall p, free t' R' L' p <-> free t R L p) /\ same_ids t t' /\ (exists X', spill_ok t' X' /\ live X' = live X) /\
  ((rc = MDBX_SUCCESS /\ exists p, np = Some p /\ in_use (heads t') D' ≡ₚ mk_dp p id 1 :: in_use (heads t) D /\ in_hands t t' p id) \/
    (no_memory rc /\ in_use (heads t') D' ≡ₚ in_use (heads t) D)).
Proof.
  intros H Hsp Hout Hf. unfold page_alloc_finalize.
  destruct (shadow_alloc_spec (txn_env (dirty t)) D fresh (wo_reserve _ _ _ _ _ H) Hf) as (np & e & -> & Hk & Hnp & _).
  set (t1 := with_dirty t _).
  assert (wr_ok lim t1 D R L) as H1 by (destruct H as [H1 H2 H3 H4 H5 H6 H7 H8]; by split).
  destruct np as [np|].
  2: { eexists _, _, _. split; [done|]. exists D, R, L. split_and!; [done|done|done|by exists X|right; split; [by left|done]]. }
  destruct (Hnp np eq_refl) as [Hnp1 Hnp2]. set (h := mk_head _ _ _ _ _). set (t2 := with_head t1 np h).
  assert (wr_ok lim t2 D R L) as H2 by by apply wr_ok_head.
  assert (heads t2 np = h) as Eh by (cbn; by rewrite decide_True).
  destruct (page_dirty_spec malloc Hmalloc have_cmov lim t2 D R L X np id 1 H2) as (rc & t' & -> & D' & R' & L' & K1 & K2 & K0 & _ & K4 & K5);
    try done; try (by rewrite Eh).
  cbn [mbind option_bind]. eexists _, _, _. split; [done|]. exists D', R', L'.
  assert (forall q, q ∈ ptr <$> D -> heads t2 q = heads t q) as Hoth.
  { intros q Hq. cbn. rewrite decide_False; [done|]. by intros ->. }
  assert (in_use (heads t2) D = in_use (heads t) D) as EU.
  { apply in_use_ext. intros y Hy. by rewrite Hoth by by apply list_elem_of_fmap_2. }
  rewrite EU in K5. split_and!; [done| |done|done|].
  - intros p. rewrite K2. apply free_ext; [|done]. intros q Hq. rewrite Hoth; [done|].
    destruct (loose_is_dirty _ _ _ _ _ (wo_pool _ _ _ _ _ H) q Hq) as (y & Hy & <- & _). by apply list_elem_of_fmap_2.
  - destruct K5 as [(-> & Kp & Kt)|[Hnm Kp]]; [left|by right]. split; [done|]. exists np. split_and!; [done|done|]. split; [done|].
    destruct (po_pages _ _ _ _ _ (wo_pool _ _ _ _ _ K1) (mk_dp np id 1)) as [E _]; [|done].
    assert (mk_dp np id 1 ∈ in_use (heads t') D') as [_ Hin]%list_elem_of_filter by (rewrite Kp; by left). done.
Qed.

(** The pages in use are all that is dirty when no page is loose. *)
Lemma in_use_all lim t D R : wr_ok lim t D R [] -> in_use (heads t) D = D.
Proof.
  intros H. assert (forall x, x ∈ D -> ~ loose_entry (heads t) x) as Hall.
  { intros x Hx Hl. pose proof (dirty_is_loose _ _ _ _ _ (wo_pool _ _ _ _ _ H) x Hx Hl) as Hc. by apply elem_of_nil in Hc. }
  clear H. unfold in_use. induction D as [|x D IH]; [done|]. rewrite filter_cons, decide_True by (apply Hall; by left). f_equal.
  apply IH. intros y Hy. apply Hall. by right.
Qed.

(** [set_head_flags] on a page in use *)
Lemma mark_in_hands lim t D R L np id flags :
  wr_ok lim t D R L -> mk_dp np id 1 ∈ in_use (heads t) D -> flags <> P_LOOSE ->
  let t' := set_head_flags t np flags in
  wr_ok lim t' D R L /\ in_use (heads t') D = in_use (heads t) D /\ (forall p, free t' R L p <-> free t R L p).
Proof.
  intros H [Hl Hin]%list_elem_of_filter Hfl t'. destruct (po_pages _ _ _ _ _ (wo_pool _ _ _ _ _ H) _ Hin) as [Eh _]. cbn [ptr pgno] in Eh.
  assert (forall p, h_pgno (heads t' p) = h_pgno (heads t p)) as Hp by (intros p; cbn; by case_decide; subst).
  split_and!.
  - apply elem_of_Permutation in Hin as [D0 HD]. apply (wr_ok_perm _ _ _ _ _ _ (symmetry HD)). pose proof (wr_ok_perm _ _ _ _ _ _ HD H) as H0.
    by apply (mark_in_use lim t (mk_dp np id 1) D0 R L).
  - apply filter_iff_in. intros y Hy. unfold loose_entry in *. cbn [ptr] in Hl. cbn. case_decide as E; [|done]. cbn. rewrite E. tauto.
  - intros p. apply free_ext; [intros q _; apply Hp|done].
Qed.

(** Without loose pages the end does not move. *)
Lemma finalize_end t fresh id num rc np t' :
  loose_count t = 0 -> page_alloc_finalize malloc have_cmov t fresh id num = Some (rc, np, t') -> first_unallocated t' = first_unallocated t.
Proof.
  clear Hmalloc. intros Ec. unfold page_alloc_finalize. destruct (page_shadow_alloc _ _ _) as [[q|] e]; [|by intros [= _ _ <-]].
  intros ([rc' t1] & E & [= _ _ <-])%bind_Some. revert E. unfold page_dirty. cbn [loose_count set_head_txnid with_head with_dirty]. rewrite Ec.
  unfold append_dirty. case_decide; [rewrite decide_False by (intros []; done); by intros [= _ <-]|].
  intros ([rc2 d] & _ & E)%bind_Some. revert E. case_decide; by intros [= _ <-].
Qed.

(** Which page is handed out: the first of the loose pages in front of the end, or,
    without any, the smallest one of the reusable pages. *)
Definition smallest (R : list Z) (id : Z) : Prop := id ∈ R /\ forall y, y ∈ R -> id <= y.
Definition loose_in_front (t t' : wr_txn) (L : list page_ptr) : list page_ptr :=
  filter (fun q => h_pgno (heads t q) < first_unallocated t') L.
Definition handed_out (t t' : wr_txn) (R : list Z) (L : list page_ptr) (p : page_ptr) (id : Z) : Prop :=
  match loose_in_front t t' L with q :: _ => p = q /\ id = h_pgno (heads t q) | [] => smallest R id end.

(** The end of [t'] is the one after the refund with which [gc_alloc_single] begins,
    if the transaction may refund its loose pages. *)
Definition refunded_end (t t' : wr_txn) : Prop :=
  exists t1, (if may_refund_loose t then '(_, t1) ← txn_refund malloc t; Some t1 else Some t) = Some t1 /\ first_unallocated t' = first_unallocated t1.

Lemma smallest_last R f R1 id : descending R -> filter (fun p => p < f) R = R1 ++ [id] -> smallest R id.
Proof.
  intros Hd E. assert (id ∈ filter (fun p => p < f) R) as [Hid Hin]%list_elem_of_filter by (rewrite E; apply elem_of_app; right; by left).
  split; [done|]. intros y Hy. destruct (decide (y < f)) as [Hlt|]; [|lia].
  assert (y ∈ R1 ++ [id]) as Hy1 by (rewrite <- E; by apply list_elem_of_filter). pose proof (descending_filter (fun p => p < f) R Hd) as Hd1.
  rewrite E in Hd1. apply descending_app in Hd1 as (_ & _ & Hlt1).
  apply elem_of_app in Hy1 as [Hy1|Hy1]; [|apply list_elem_of_singleton in Hy1; lia]. specialize (Hlt1 y id Hy1 ltac:(by left)). lia.
Qed.

Lemma page_new_spec lim t D R L X fresh flags :
  wr_ok lim t D R L -> spill_ok t X -> u16 flags <> P_LOOSE -> (forall p, fresh = Some p -> p ∉ ptr <$> in_use (heads t) D) ->
  exists res t', page_new_txn malloc have_cmov t fresh flags = Some (res, t') /\
  match res with
  | None => exists D', evolves lim t t' D R L X D' [] []
  | Some (rc, np) =>
      (rc = MDBX_SUCCESS /\ exists p id, np = Some p /\ handed_out t t' R L p id /\
        allocated lim t t' D R L X id [mk_dp p id 1] /\ in_hands t t' p id /\ h_flags (heads t' p) = u16 flags) \/
      (no_memory rc /\ loose_in_front t t' L = [] /\ exists id, smallest R id /\ allocated lim t t' D R L X id [])
  end /\ refunded_end t t'.
Proof.
  intros H Hsp Hfl Hf. unfold page_new_txn, gc_alloc_single.
  assert (exists t1 D1 R1 L1, (if may_refund_loose t then '(_, t) ← txn_refund malloc t; Some t else Some t) = Some t1 /\
    evolves lim t t1 D R L X D1 R1 L1 /\ first_unallocated t1 <= first_unallocated t /\
    R1 = filter (fun p => p < first_unallocated t1) R /\ L1 = loose_in_front t t1 L /\
    refunded_end t t1) as (t1 & D1 & R1 & L1 & -> & Hev & Hend & ER & EL & Estay).
  { unfold refunded_end. destruct (may_refund_loose t).
    - destruct (refund_evolves malloc lim t D R L X Hmalloc H Hsp) as (b & t1 & D1 & R1 & L1 & -> & Hev & _ & _ & Hend & ER & EL).
      cbn [mbind option_bind]. exists t1, D1, R1, L1. split_and!; [done..|by exists t1].
    - exists t, D, R, L. split_and!; [done|by apply evolves_refl|done|..|by exists t]; symmetry.
      + apply (filter_below_all (fun p => p)). intros p Hin. apply (stock_bounds _ _ _ _ _ (wo_pool _ _ _ _ _ H)). by left.
      + apply (filter_below_all (fun q => h_pgno (heads t q))). intros p Hin. apply (stock_bounds _ _ _ _ _ (wo_pool _ _ _ _ _ H)). right. by apply (list_elem_of_fmap_2 (fun q => h_pgno (heads t q))). }
  cbn [mbind option_bind]. pose proof Hev as [V1 V2 V3 V4 V5 (X1 & Hsp1 & EX1) V7 [V8 V9]]. pose proof (wo_pool _ _ _ _ _ V1) as Hp1.
  assert (forall id, stock (heads t1) R1 L1 id -> stock (heads t) R L id) as Hstock.
  { intros id Hid. pose proof (stock_bounds _ _ _ _ _ Hp1 id Hid). destruct (proj1 (V4 id) (or_introl Hid)) as [?|?]; [done|lia]. }
  destruct L1 as [|lp L1].
  - pose proof (wo_chain _ _ _ _ _ V1) as Elp. cbn [chain] in Elp. rewrite Elp. cbn [mbind option_bind]. pose proof (wo_repnl _ _ _ _ _ V1) as Hr. rewrite (holding_size _ _ (ph_cells _ _ Hr)).
    destruct R1 as [|id R1 _] using rev_ind.
    + rewrite decide_False by (simpl; lia). eexists _, _. split; [done|split; [by exists D1|exact Estay]].
    + pose proof (smallest_last _ _ _ _ (proj1 (po_repnl _ _ _ _ _ (wo_pool _ _ _ _ _ H))) (symmetry ER)) as Hsm.
      rewrite decide_True by (rewrite length_app; simpl; lia).
      destruct (repnl_get_single_spec _ _ _ Hr) as (c & -> & Hc). cbn [mbind option_bind].
      set (t2 := with_repnl t1 _). destruct (pool_take _ _ _ _ _ _ Hp1) as [Hp2 Hout].
      assert (wr_ok lim t2 D1 R1 []) as H2 by by eapply wr_ok_repnl.
      destruct (finalize_spec lim t2 D1 R1 [] X1 id fresh H2 Hsp1 Hout) as (rc & np & t3 & Efin & D3 & R3 & L3 & K1 & K2 & [K8 K9] & (X3 & Hsp3 & EX3) & K4).
      { intros p Ep. specialize (Hf p Ep). by rewrite <- V3, (in_use_all _ _ _ _ V1) in Hf. }
      assert (first_unallocated t3 = first_unallocated t1) as E3 by exact (finalize_end t2 _ _ _ _ _ _ (wo_count _ _ _ _ _ V1) Efin).
      rewrite Efin. cbn [mbind option_bind]. change (heads t2) with (heads t1) in *.
      assert (loose_in_front t t3 L = []) as Enone by (unfold loose_in_front; by rewrite E3).
      assert (forall p, free t3 R3 L3 p <-> free t R L p /\ p <> id) as Hfree.
      { intros p. rewrite K2, <- V4. unfold free, stock. rewrite elem_of_app, list_elem_of_singleton. change (first_unallocated t2) with (first_unallocated t1).
        destruct (Hout id ltac:(lia)) as (Hb & HR & _). split.
        - intros [[?|?]|?]; [|by apply elem_of_nil in H0|]; (split; [tauto|]); intros ->; [done|lia].
        - intros [[[[?|?]|?]|?] ?]; tauto. }
      assert (stock (heads t) R L id) as Hst by (apply Hstock; left; apply elem_of_app; right; by left).
      destruct K4 as [(-> & p & -> & K4 & K5)|[Hnm K4]].
      * rewrite decide_False by (intros []; done). eexists _, _. split; [done|]. split; [|destruct Estay as (t0 & E0 & Eend); exists t0; split; [done|]; by rewrite <- Eend, <- E3].
        left. split; [done|]. exists p, id.
        destruct (mark_in_hands lim t3 D3 R3 L3 p id (u16 flags) K1) as (M1 & M2 & M3); [rewrite K4; by left|done|].
        split_and!; [done|unfold handed_out; change (loose_in_front t _ L) with (loose_in_front t t3 L); by rewrite Enone| | |by cbn; rewrite decide_True].
        -- split; [exists D3, R3, L3|done|exists X3; split; [exact Hsp3|congruence]|split; cbn in *; congruence]. split_and!; [done|rewrite M2, K4; simpl; by rewrite V3|].
          intros q. by rewrite M3.
        -- destruct K5 as [K5 K6]. split; cbn; rewrite decide_True by done; cbn; [by rewrite K5|done].
      * assert (allocated lim t t3 D R L X id []) as Hal.
        { split; [exists D3, R3, L3|done|exists X3; split; [exact Hsp3|congruence]|split; cbn in *; congruence]. split_and!; [done|rewrite K4; simpl; by rewrite V3|done]. }
        assert (rc <> MDBX_SUCCESS) as Hne by (destruct Hnm as [->| ->]; done).
        assert (refunded_end t t3) as Estay3 by (destruct Estay as (t0 & E0 & Eend); exists t0; split; [done|congruence]).
        destruct np as [np|]; [rewrite decide_True by done|]; (eexists _, _; split; [done|]; split; [|exact Estay3]; right; split_and!; [done|done|by exists id]).
  - destruct (wo_chain _ _ _ _ _ V1) as [Elp _]. rewrite Elp. cbn [mbind option_bind]. rewrite decide_False by (intros []; done).
    destruct (loose_is_dirty _ _ _ _ _ Hp1 lp ltac:(by left)) as (x & Hx & <- & Hl & Ex).
    pose proof (po_single _ _ _ _ _ Hp1 x Hx Hl) as En. apply elem_of_Permutation in Hx as [D0 HD0].
    pose proof (wr_ok_perm _ _ _ _ _ _ HD0 V1) as H1.
    destruct (take_loose_spec lim t1 x D0 R1 L1 (u16 flags) H1 Hl Hfl) as (T1 & T2 & T3).
    eexists _, _. split; [done|]. split; [|exact Estay]. left. split; [done|]. exists (ptr x), (pgno x).
    match goal with |- context [allocated lim t ?u] => change u with (take_loose t1 (ptr x) (u16 flags)) end.
    split_and!; [done| | | |by cbn; rewrite decide_True].
    + unfold handed_out. change (loose_in_front t _ L) with (loose_in_front t t1 L). rewrite <- EL. split; [done|].
      destruct (V5 (ptr x)) as (_ & _ & Eg & _). congruence.
    + split; [| | |done].
      * exists (x :: D0), R1, L1. split_and!; [done| |].
        -- rewrite T2. replace (mk_dp (ptr x) (pgno x) 1) with x by (rewrite <- En; by destruct x). simpl. f_equiv. rewrite <- V3.
          unfold in_use. by rewrite HD0.
        -- intros p. by rewrite T3, V4.
      * apply Hstock. right. rewrite Ex. unfold pgnos_of. rewrite fmap_cons. by left.
      * by exists X1.
    + split; cbn; rewrite !decide_True by done; cbn; [done|by rewrite Ex].
Qed.
End allocation.
