(* ===== verification/LooseMerge.v ===== *)
(** * Loose pages: merging them into the other lists

    [gc_merge_loose], which a commit calls: the numbers of the loose pages go to
    the list of retired pages or to [repnl], and the pages leave the list of dirty
    pages. *)

From S2P Require Import Prelude Search Sort Radix Meta Page Pnl PnlFacts PnlMerge PnlCut Dpl DplFacts DplOps Repnl.
From S2P Require Import Loose LooseFacts LooseSpill LooseRefund LooseTxn LooseRetire.

(** ** The walks over the chain *)

Lemma append_loose_spec hs L : forall fuel lp A W,
  chain hs lp L -> (length L < fuel)%nat -> (length L <= length W)%nat ->
  exists W', append_loose fuel hs lp (Z.of_nat (length A) :: A ++ W) =
  Some (Z.of_nat (length (A ++ pgnos_of hs L)) :: (A ++ pgnos_of hs L) ++ W') /\ (length W' + length L = length W)%nat.
Proof.
  induction L as [|p L IH]; intros fuel lp A W Hc Hf HW.
  - cbn [chain] in Hc. subst lp. exists W. rewrite app_nil_r. split; [by destruct fuel|simpl; lia].
  - destruct Hc as [-> Hc]. cbn [length] in Hf, HW. destruct fuel as [|fuel]; [lia|]. cbn [append_loose].
    destruct (append_prereserved_spec A W (h_pgno (hs p)) ltac:(lia)) as (W1 & -> & HW1). cbn [mbind option_bind].
    destruct (IH fuel _ (A ++ [h_pgno (hs p)]) W1 Hc ltac:(lia) ltac:(lia)) as (W2 & -> & HW2). exists W2.
    unfold pgnos_of. rewrite fmap_cons. split; [by app_norm|simpl; lia].
Qed.

Lemma copy_loose_spec hs L : forall fuel lp P V base count,
  chain hs lp L -> (length L < fuel)%nat -> (length L <= length V)%nat -> length P = (base + S count)%nat ->
  exists V', copy_loose fuel hs lp (P ++ V) base count = Some (P ++ pgnos_of hs L ++ V', (count + length L)%nat) /\
  (length V' + length L = length V)%nat.
Proof.
  induction L as [|p L IH]; intros fuel lp P V base count Hc Hf HV HP.
  - cbn [chain] in Hc. subst lp. exists V. split; [|simpl; lia]. rewrite Nat.add_0_r. by destruct fuel.
  - destruct Hc as [-> Hc]. cbn [length] in Hf, HV. destruct fuel as [|fuel]; [lia|]. destruct V as [|v V]; [simpl in HV; lia|].
    cbn [copy_loose]. rewrite wr_app_at by lia. cbn [mbind option_bind length] in *.
    destruct (IH fuel _ (P ++ [h_pgno (hs p)]) V base (S count) Hc ltac:(lia) ltac:(lia)) as (V' & E & HV');
      [rewrite length_app; simpl; lia|].
    exists V'. rewrite <- app_assoc in E. simpl in E. rewrite E. unfold pgnos_of. rewrite fmap_cons. split; [|lia]. do 2 f_equal; [by app_norm|lia].
Qed.

(** ** The loose pages leave the list of dirty pages *)

Section dropping.
Context (hs : page_ptr -> page_head).
Implicit Types (Y K G Z : list dp_t).

Definition kept_flag (x : dp_t) : Prop := Z.land (h_flags (hs (ptr x))) P_LOOSE = 0.
#[export] Instance kept_flag_dec x : Decision (kept_flag x).
Proof. unfold kept_flag. apply _. Defined.

(** The pages that were dropped are kept for reuse, or freed. *)
Record released (t t' : wr_txn) (Y : list dp_t) : Prop := {
  re_same : exists e, t' = with_dirty t (mk_dtxn (dirtylist (dirty t)) (dirtylru (dirty t)) (dirtyroom (dirty t)) (lru_stamp (dirty t)) e);
  re_reserve : forall Q, reserve_ok (reserve t) (Y ++ Q) -> NoDup (ptr <$> Y ++ Q) -> reserve_ok (reserve t') (filter kept_flag Y ++ Q)
}.

Lemma drop_loose_spec Y : forall t K G Z w r so (in_sorted : bool),
  length K = S w -> (length K + length G = S r)%nat ->
  (if in_sorted then r + length Y <= sorted (dlist t) else sorted (dlist t) <= r)%nat ->
  exists t' G', drop_loose (length Y) hs t (K ++ G ++ Y ++ Z) w r so =
  Some (t', K ++ filter kept_flag Y ++ G' ++ Z, (w + length (filter kept_flag Y))%nat,
    (so + if in_sorted then length Y - length (filter kept_flag Y) else 0)%nat) /\
  released t t' Y /\ length G' = (length G + length Y - length (filter kept_flag Y))%nat.
Proof.
  induction Y as [|y Y IH]; intros t K G Z w r so b HK HG Hb; cbn [drop_loose length].
  - exists t, G. rewrite Nat.add_0_r. split_and!; [by destruct b; rewrite Nat.add_0_r| |simpl; lia]. split; [|done].
    exists (txn_env (dirty t)). destruct t as [[]]. done.
  - replace (K ++ G ++ (y :: Y) ++ Z) with ((K ++ G) ++ y :: Y ++ Z) by by app_norm.
    rewrite rd_app_at' by (rewrite length_app; lia). cbn [mbind option_bind]. pose proof (length_filter kept_flag Y) as HY.
    assert (filter kept_flag (y :: Y) = if decide (kept_flag y) then y :: filter kept_flag Y else filter kept_flag Y) as -> by apply filter_cons.
    destruct (decide (Z.land (h_flags (hs (ptr y))) P_LOOSE = 0)) as [Hk|Hk].
    + rewrite (decide_True (P := kept_flag y)) by done. destruct (gap_move K G y (Y ++ Z) w r HK HG) as (G1 & -> & HG1). cbn [mbind option_bind].
      destruct (IH t (K ++ [y]) G1 Z (S w) (S r) so b) as (t' & G' & -> & Hre & HG'); [rewrite length_app; simpl; lia..|destruct b; cbn [length] in Hb; lia|].
      exists t', G'. cbn [length app]. split_and!; [|split|lia].
      * do 3 f_equal; [by app_norm|lia].
      * apply Hre.
      * intros Q HR Hnd. destruct Hre as [_ Hre]. specialize (Hre (y :: Q)).
        assert (Y ++ y :: Q ≡ₚ y :: Y ++ Q) as HP by solve_Permutation. rewrite HP in Hre.
        eapply reserve_ok_sub; [|by apply Hre].
        intros z. rewrite !elem_of_app, !elem_of_cons, !list_elem_of_filter, elem_of_cons. tauto.
    + rewrite (decide_False (P := kept_flag y)) by done.
      replace ((K ++ G) ++ y :: Y ++ Z) with (K ++ (G ++ [y]) ++ Y ++ Z) by by app_norm.
      destruct (IH (shadow_release t (ptr y) 1) K (G ++ [y]) Z w (S r) (so + (if decide (S r <= sorted (dlist t))%nat then 1 else 0))%nat b)
        as (t' & G' & -> & [[e ->] Hre] & HG'); [done|rewrite length_app; simpl; lia|change (dlist (shadow_release t (ptr y) 1)) with (dlist t); destruct b; cbn [length] in Hb; lia|].
      eexists _, G'. split_and!; [|split|rewrite length_app in HG'; simpl in *; lia].
      * do 2 f_equal. destruct b; [rewrite decide_True by (cbn [length] in Hb; lia); lia|rewrite decide_False by (cbn [length] in Hb; lia); lia].
      * by exists e.
      * intros Q HR Hnd. rewrite filter_cons, decide_False by done. apply Hre; [|rewrite fmap_app in *; simpl in *; by apply NoDup_cons in Hnd as [_ Hnd]].
        eapply reserve_ok_release; [exact HR|exact Hnd|apply reserve_release].
Qed.

Lemma drop_loose_plus n : forall k t c w r so,
  drop_loose (n + k) hs t c w r so = ('(t, c, w, so) ← drop_loose n hs t c w r so; drop_loose k hs t c w (r + n) so).
Proof.
  induction n as [|n IH]; intros k t c w r so; cbn [drop_loose Nat.add]; [by rewrite Nat.add_0_r|].
  destruct (rd c (S r)); [|done]. cbn [mbind option_bind]. case_decide.
  - destruct (if decide _ then _ else _); [|done]. cbn [mbind option_bind]. by rewrite IH, <- plus_n_Sm.
  - by rewrite IH, <- plus_n_Sm.
Qed.
End dropping.

(** The invariant when the loose pages were dropped, [R'] being the reusable pages
    that are left. *)
Lemma pool_merged hs fu D R L R' :
  pool_ok hs fu D R L -> descending R' -> (forall p, p ∈ R' -> p ∈ R \/ p ∈ pgnos_of hs L) -> pool_ok hs fu (in_use hs D) R' [].
Proof.
  intros Hp Hd HR'. pose proof Hp as [H1 H2 H3 H4 H5 H6 H7 H8 H9]. split; try done.
  - intros x [_ Hx]%list_elem_of_filter. by apply H2.
  - eapply sublist_NoDup; [exact H3|]. apply fmap_sublist, sublist_filter.
  - eapply sublist_NoDup; [exact H4|]. apply fmap_sublist, sublist_filter.
  - intros x y [_ Hx]%list_elem_of_filter [_ Hy]%list_elem_of_filter. by apply H5.
  - split; [done|]. apply Forall_forall. intros p [Hr|Hl]%HR'; [by apply (repnl_bounds _ _ _ _ _ Hp)|by apply (loose_number_bounds _ _ _ _ _ Hp)].
  - intros x p [Hl Hx]%list_elem_of_filter [Hr|(y & Hy & Hly & <-)%(elem_of_loose_numbers _ _ _ _ _ Hp)]%HR'; [by apply H7|].
    intros Hin. destruct (decide (pgno x = pgno y)) as [E|Hne].
    + apply Hl. by rewrite (same_entry _ _ _ _ _ Hp x y Hx Hy E).
    + unfold page_in in Hin. pose proof (H5 x y Hx Hy). lia.
  - unfold in_use. rewrite list_filter_filter. induction D as [|x D IH]; [done|]. clear. induction (x :: D) as [|z l IHl]; [done|].
    rewrite filter_cons. case_decide; [tauto|done].
  - intros x [_ Hx]%list_elem_of_filter. by apply H9.
Qed.

Section merging.
Context (malloc : Z -> option Z) (Hmalloc : malloc_ok malloc) (have_cmov : bool).
Context (lim : Z) (t : wr_txn) (D : list dp_t) (R : list Z) (L : list page_ptr) (A : list Z).
Context (H : wr_ok lim t D R L) (HL : L <> []) (HA : opnl_holds (retired_pages t) A).

Lemma loose_count_pos : 0 < loose_count t <= PAGELIST_LIMIT /\ (length L < S (dl_length (dlist t)))%nat.
Proof.
  clear HA. pose proof (wo_count _ _ _ _ _ H) as Ec. pose proof (loose_count_bound _ _ _ _ _ H) as HlL. destruct (wo_room _ _ _ _ _ H) as (Hr1 & Hr2 & Hr3).
  rewrite (wr_ok_length _ _ _ _ _ H), Ec. destruct L; [done|]. simpl in *. lia.
Qed.

Lemma merge_into_retired_spec :
  (exists q, merge_into_retired malloc t = Some (MDBX_SUCCESS, with_retired t (Some q)) /\ pnl_holds q (A ++ pgnos_of (heads t) L)) \/
  (exists rc, merge_into_retired malloc t = Some (rc, with_retired t (retired_pages t)) /\ no_memory rc).
Proof.
  destruct loose_count_pos as [Hlc Hfuel]. pose proof (wo_count _ _ _ _ _ H) as Ec. unfold merge_into_retired.
  destruct (pnl_need_spec malloc Hmalloc (retired_pages t) A (loose_count t) HA Hlc) as [(q & -> & Hq & Hlen)|(err & -> & Herr)].
  - left. rewrite decide_False by (intros []; done). cbn [mbind option_bind]. destruct Hq as [[W EW] Hcap Hroom Hlim]. rewrite EW in *.
    simpl in Hroom. rewrite length_app in Hroom.
    destruct (append_loose_spec (heads t) L _ (loose_pages t) A W (wo_chain _ _ _ _ _ H) Hfuel ltac:(lia)) as (W' & -> & HW').
    cbn [mbind option_bind]. eexists. split; [done|]. assert (length (pgnos_of (heads t) L) = length L) as EL by apply length_fmap. split; cbn [cells pnl_alloclen].
    + by exists W'.
    + rewrite length_app, EL. lia.
    + simpl. rewrite !length_app, EL. lia.
    + done.
  - right. exists err. rewrite decide_True by (destruct Herr as [->| ->]; done). done.
Qed.

Lemma merge_into_repnl_spec :
  (exists q R', merge_into_repnl malloc have_cmov t = Some (MDBX_SUCCESS, with_repnl t q) /\ pnl_holds q R' /\ descending R' /\
    R' ≡ₚ R ++ pgnos_of (heads t) L) \/
  (exists rc, merge_into_repnl malloc have_cmov t = Some (rc, with_repnl t (repnl t)) /\ no_memory rc).
Proof.
  destruct loose_count_pos as [Hlc Hfuel]. pose proof (wo_count _ _ _ _ _ H) as Ec. pose proof (wo_pool _ _ _ _ _ H) as Hp. pose proof (po_end _ _ _ _ _ Hp) as He.
  destruct (po_repnl _ _ _ _ _ Hp) as [HdR _]. unfold merge_into_repnl. unfold PAGELIST_LIMIT, MAX_PAGENO in *.
  pose proof (wo_repnl _ _ _ _ _ H) as Hr.
  assert (grown R (Z.of_nat (length R) + (2 * loose_count t + 2)) (Some (repnl t)) (pnl_need malloc (Some (repnl t)) (2 * loose_count t + 2)))
    as [(q & -> & Hq & Hlen)|(err & -> & Herr)].
  { unfold pnl_need. rewrite (holding_size _ _ (ph_cells _ _ Hr)). rewrite (Z.add_comm (2 * _ + 2)).
    case_decide; [left; exists (repnl t); split_and!; (done || lia)|]. apply (pnl_reserve_spec malloc Hmalloc); (done || lia). }
  2: { right. exists err. cbn [mbind option_bind]. rewrite decide_True by (destruct Herr as [->| ->]; done). done. }
  left. cbn [mbind option_bind]. rewrite decide_False by (intros []; done). destruct Hq as [[W EW] Hcap Hroom Hlim].
  set (base := Z.to_nat (pnl_alloclen q - loose_count t - 1)).
  assert (length R + length L + 1 <= base)%nat as Hbase by (unfold base; lia).
  assert (2 * base + 2 * length L + 4 <= length (cells q))%nat as Hroom' by (unfold base; lia).
  (* the cells in front of and behind [base] *)
  assert (exists W1 x W2, cells q = (Z.of_nat (length R) :: R ++ W1) ++ x :: W2 /\ length (Z.of_nat (length R) :: R ++ W1) = base)
    as (W1 & x & W2 & EW2 & Hbase1).
  { assert (base - S (length R) < length W)%nat as HW by (rewrite EW in Hroom'; simpl in Hroom'; rewrite length_app in Hroom'; lia).
    destruct (lookup_lt_is_Some_2 W _ HW) as [x Hx]. destruct (list_split_at _ _ _ Hx) as (W1 & W2 & -> & E1). exists W1, x, W2.
    rewrite EW. split; [by app_norm|simpl; rewrite length_app; lia]. }
  set (P := Z.of_nat (length R) :: R ++ W1) in *. rewrite EW2 in Hroom', Hroom |- *. rewrite length_app, Hbase1 in Hroom', Hroom. cbn [length] in Hroom', Hroom.
  replace (P ++ x :: W2) with ((P ++ [x]) ++ W2) by by app_norm.
  destruct (copy_loose_spec (heads t) L _ (loose_pages t) (P ++ [x]) W2 base 0 (wo_chain _ _ _ _ _ H) Hfuel ltac:(lia)) as (W3 & -> & HW3);
    [rewrite length_app, Hbase1; cbn [length]; lia|]. cbn [mbind option_bind Nat.add]. rewrite <- Hbase1, <- app_assoc, drop_app_length, take_app_length.
  change ([x] ++ pgnos_of (heads t) L ++ W3) with (x :: pgnos_of (heads t) L ++ W3). rewrite pnl_setsize_spec. cbn [mbind option_bind].
  set (N := pgnos_of (heads t) L). assert (length N = length L) as EN by apply length_fmap. rewrite <- EN.
  destruct (pnl_sort_nochk_spec N W3) as (N' & W4 & -> & HpN & HdN & HW4).
  - apply Forall_forall. intros p Hpl. pose proof (loose_number_bounds _ _ _ _ _ Hp p Hpl). unfold pgno_ok, P_INVALID, UINT32_MAX, NUM_METAS in *. lia.
  - by apply (loose_numbers_NoDup _ _ _ _ _ Hp).
  - lia.
  - lia.
  - cbn [mbind option_bind]. pose proof (Permutation_length HpN) as EN'.
    destruct (pnl_merge_spec have_cmov (P ++ Z.of_nat (length N') :: N' ++ W4) (Z.of_nat (length N') :: N' ++ W4) R N'
      (W1 ++ Z.of_nat (length N') :: N' ++ W4)) as (M & W5 & -> & [HpM HdM] & HW5); [by unfold P; app_norm|by exists W4| |done|done| | |].
    + rewrite !length_app. simpl. rewrite length_app. simpl in Hbase1. rewrite length_app in Hbase1. lia.
    + intros p HR HN. rewrite HpN in HN. apply (elem_of_loose_numbers _ _ _ _ _ Hp) in HN as (y & Hy & _ & <-).
      destruct (po_pages _ _ _ _ _ Hp y Hy) as (_ & _ & Hn1 & _). apply (po_apart _ _ _ _ _ Hp y _ Hy HR). unfold page_in. lia.
    + apply Forall_forall. intros p HN. rewrite HpN in HN. pose proof (loose_number_bounds _ _ _ _ _ Hp p HN).
      unfold pgno_ok, P_INVALID, UINT32_MAX, NUM_METAS in *. lia.
    + cbn [mbind option_bind]. eexists _, M. split; [done|]. split_and!; [|done|by rewrite HpM, HpN].
      pose proof (Permutation_length HpM) as EM. rewrite length_app in EM. split; cbn [cells pnl_alloclen].
      * by exists W5.
      * lia.
      * simpl. rewrite length_app. rewrite length_app in HW5. simpl in HW5. rewrite length_app in HW5. simpl in Hbase1. rewrite length_app in Hbase1.
        lia.
      * done.
Qed.
End merging.

(** ** The whole function *)

(** The flags of a page in use say that it is not loose. *)
Definition flags_ok (hs : page_ptr -> page_head) (D : list dp_t) : Prop := forall x, x ∈ in_use hs D -> kept_flag hs x.

Lemma kept_in_use hs D Y : flags_ok hs D -> Y ⊆ D -> filter (kept_flag hs) Y = in_use hs Y.
Proof.
  intros Hf Hs. apply filter_iff_in. intros x Hx. split.
  - unfold kept_flag, loose_entry. intros Hk Hl. by rewrite Hl in Hk.
  - intros Hl. apply Hf, list_elem_of_filter. split; [done|by apply Hs].
Qed.

Lemma in_use_pages hs fu D R L : pool_ok hs fu D R L ->
  pages_of (in_use hs D) = pages_of D - Z.of_nat (length L) /\ (length (in_use hs D) + length L = length D)%nat.
Proof.
  intros Hp. assert (length L = length (filter (loose_entry hs) D)) as -> by (rewrite (po_loose _ _ _ _ _ Hp); apply length_fmap).
  pose proof (po_single _ _ _ _ _ Hp) as Hs. clear Hp. unfold in_use. induction D as [|x D IH]; [done|].
  destruct IH as [IH1 IH2]; [intros y Hy; apply Hs; by right|]. rewrite !filter_cons.
  destruct (decide (loose_entry hs x)) as [Hl|Hl]; [rewrite decide_False by tauto|rewrite decide_True by done]; simpl.
  - specialize (Hs x ltac:(by left) Hl). split; [|lia]. unfold pages_of in *. simpl. lia.
  - split; [|lia]. unfold pages_of in *. simpl. lia.
Qed.

Section whole.
Context (malloc : Z -> option Z) (Hmalloc : malloc_ok malloc) (have_cmov : bool).

Lemma setlen_pages dl pages n dl' :
  dpl_setlen (with_pages dl pages) n = Some dl' -> exists dl0, dpl_setlen dl n = Some dl0 /\ with_pages dl0 pages = dl' /\
  pages_including_loose dl0 = pages_including_loose dl.
Proof. unfold dpl_setlen. cbn [with_pages items sorted dl_length detent]. destruct (wr _ _ _); [|done]. intros [= <-]. by eexists. Qed.

(** The part behind the merge, for a transaction with the new lists. *)
Lemma filter_out_loose_spec lim t q0 D R L R' :
  wr_ok lim (with_repnl t q0) D R L -> flags_ok (heads t) D -> pnl_holds (repnl t) R' -> descending R' ->
  (forall p, p ∈ R' -> p ∈ R \/ p ∈ pgnos_of (heads t) L) ->
  exists t', filter_out_loose t = Some t' /\
  wr_ok lim t' (in_use (heads t) D) R' [] /\ heads t' = heads t /\ first_unallocated t' = first_unallocated t /\
  repnl t' = repnl t /\ retired_pages t' = retired_pages t /\ same_spilled t t'.
Proof.
  intros H Hfl HR' Hd Hsub. unfold filter_out_loose. destruct (wo_dirty _ _ _ _ _ H) as (S & U & Hdl & HD).
  assert (pool_ok (heads t) (first_unallocated t) D R L) as Hp by apply (wo_pool _ _ _ _ _ H).
  assert (loose_count t = Z.of_nat (length L)) as Ec by apply (wo_count _ _ _ _ _ H).
  assert (reserve_ok (reserve t) D) as HK0 by apply (wo_reserve _ _ _ _ _ H). change (dlist (with_repnl t q0)) with (dlist t) in Hdl.
  assert (0 <= dirtyroom (dirty t) /\ dirtyroom (dirty t) + Z.of_nat (length D) = lim /\ lim <= PAGELIST_LIMIT) as (Hr1 & Hr2 & Hr3) by apply (wo_room _ _ _ _ _ H).
  pose proof Hdl as [[W Hi] Hs Hl _ _ _ Hpg _ _ _]. rewrite Hl, Hi, drop_loose_plus.
  destruct (drop_loose_spec (heads t) S t [dpl_stubB] [] (U ++ dpl_stubE :: W) 0 0 0 true) as (t1 & G1 & E1 & Hre1 & HG1); [done|done|simpl; lia|].
  simpl in E1. rewrite E1. cbn [mbind option_bind]. clear E1. set (hs := heads t) in *. simpl in HG1.
  assert (S ⊆ D /\ U ⊆ D) as [HSD HUD] by (split; intros y Hy; rewrite <- HD, elem_of_app; tauto).
  assert (filter (kept_flag hs) S = in_use hs S /\ filter (kept_flag hs) U = in_use hs U) as [ES EU] by (split; by apply (kept_in_use hs D)).
  pose proof (length_filter (kept_flag hs) S) as HkS. pose proof (length_filter (kept_flag hs) U) as HkU. pose proof Hre1 as [[e1 Et1] _].
  destruct (drop_loose_spec hs U t1 (dpl_stubB :: filter (kept_flag hs) S) G1 (dpl_stubE :: W) (length (filter (kept_flag hs) S)) (length S)
    (length S - length (filter (kept_flag hs) S)) false) as (t2 & G2 & E2 & Hre2 & HG2); [done|simpl; lia|rewrite Et1; cbn; fold (dlist t); lia|].
  simpl in E2 |- *. rewrite E2. cbn [mbind option_bind]. clear E2. pose proof Hre2 as [[e2 Et2] _].
  assert (in_use hs (S ++ U) ≡ₚ in_use hs D) as HD' by (unfold in_use; by rewrite HD).
  assert (in_use hs (S ++ U) = in_use hs S ++ in_use hs U) as EA by apply filter_app.
  destruct (in_use_pages _ _ _ _ _ Hp) as [Epages Elen]. rewrite ES, EU in *.
  destruct (filtered_holds (dlist t) S U W (fun x => ~ loose_entry hs x) G2 (u64 (pages_including_loose (dlist t) - loose_count t)))
    as (dl' & E' & Hdl'); [done|done|unfold in_use in *; lia| |].
  { rewrite Hpg. unfold u64. rewrite Zminus_mod_idemp_l. f_equal. fold (in_use hs (S ++ U)). rewrite (pages_of_perm _ _ HD'), Epages.
    by rewrite Ec, (pages_of_perm _ _ HD). }
  set (dl1 := mk_dpl _ _ _ _ _) in E'.
  change dl1 with (with_pages (with_sorted (with_items (dlist t) (items dl1)) (sorted dl1)) (u64 (pages_including_loose (dlist t) - loose_count t))) in E'.
  apply setlen_pages in E' as (dl2 & E2 & <- & Epl). cbn [dl1 items sorted] in E2.
  assert (sorted (dlist t) - (length S - length (in_use hs S) + 0) = length (in_use hs S))%nat as -> by lia.
  match goal with |- context [dpl_setlen ?a ?b] => assert (dpl_setlen a b = Some dl2) as -> by exact E2 end.
  cbn [mbind option_bind]. eexists. split; [done|].
  assert (pages_including_loose dl2 = pages_including_loose (dlist t)) as -> by exact Epl.
  assert (reserve_ok (reserve t2) (in_use hs D)) as HK.
  { rewrite <- HD in HK0. pose proof (po_ptrs _ _ _ _ _ Hp) as Hnd. rewrite <- HD in Hnd.
    pose proof (re_reserve _ _ _ _ Hre1 U HK0 Hnd) as HK1. rewrite ES in HK1.
    assert (NoDup (ptr <$> U ++ in_use hs S)) as Hnd2.
    { rewrite (Permutation_app_comm U). eapply sublist_NoDup; [exact Hnd|]. apply fmap_sublist, sublist_app; [apply sublist_filter|done]. }
    rewrite (Permutation_app_comm (in_use hs S)) in HK1. pose proof (re_reserve _ _ _ _ Hre2 _ HK1 Hnd2) as HK2. rewrite EU in HK2.
    rewrite (Permutation_app_comm (in_use hs U)) in HK2. by rewrite <- HD', EA. }
  rewrite Et2, Et1 in *. split_and!; try done.
  unfold PAGELIST_LIMIT, MAX_PAGENO in *. split; try done.
  - exists (in_use hs S), (in_use hs U). split; [exact Hdl'|]. by rewrite <- HD', EA.
  - by eapply pool_merged.
  - cbn. rewrite Ec, u64_small by (unfold UINT64_MAX; lia). unfold PAGELIST_LIMIT, MAX_PAGENO. lia.
Qed.

Lemma gc_merge_loose_spec lim t D R L A X gc_dirty gc_height :
  wr_ok lim t D R L -> L <> [] -> opnl_holds (retired_pages t) A -> flags_ok (heads t) D -> spill_ok t X ->
  exists rc t', gc_merge_loose malloc have_cmov gc_dirty gc_height t = Some (rc, t') /\ heads t' = heads t /\
  first_unallocated t' = first_unallocated t /\ spill_ok t' X /\
  ((rc = MDBX_SUCCESS /\ exists R' A', wr_ok lim t' (in_use (heads t) D) R' [] /\ opnl_holds (retired_pages t') A' /\
    ((R' = R /\ A' = A ++ pgnos_of (heads t) L) \/ (R' ≡ₚ R ++ pgnos_of (heads t) L /\ A' = A))) \/
    (no_memory rc /\ wr_ok lim t' D R L /\ opnl_holds (retired_pages t') A)).
Proof.
  intros H HL HA Hfl Hsp. pose proof (wo_pool _ _ _ _ _ H) as Hp. unfold gc_merge_loose. case_match.
  - destruct (merge_into_retired_spec malloc Hmalloc lim t D R L A H HL HA) as [(q & -> & Hq)|(rc & -> & Herr)]; cbn [mbind option_bind].
    + rewrite decide_False by (intros []; done).
      destruct (filter_out_loose_spec lim (with_retired t (Some q)) (repnl t) D R L R) as (t' & -> & Hok & Eh & Ee & _ & Er & Hss); try done.
      * by destruct H; split.
      * apply (wo_repnl _ _ _ _ _ H).
      * apply (po_repnl _ _ _ _ _ Hp).
      * tauto.
      * exists MDBX_SUCCESS, t'. split_and!; try done; [by eapply spill_ok_same|]. left. split; [done|]. exists R, (A ++ pgnos_of (heads t) L).
        split_and!; [done|by rewrite Er|by left].
    + rewrite decide_True by (destruct Herr as [->| ->]; done). eexists _, _. split; [done|]. split_and!; try done.
      right. split_and!; [done|by destruct H; split|done].
  - destruct (merge_into_repnl_spec malloc Hmalloc have_cmov lim t D R L H HL) as [(q & R' & -> & Hq & Hd & HP)|(rc & -> & Herr)]; cbn [mbind option_bind].
    + rewrite decide_False by (intros []; done).
      destruct (filter_out_loose_spec lim (with_repnl t q) (repnl t) D R L R') as (t' & -> & Hok & Eh & Ee & _ & Er & Hss); try done.
      * by destruct H; split.
      * intros p Hin. rewrite HP in Hin. by apply elem_of_app in Hin.
      * exists MDBX_SUCCESS, t'. split_and!; try done; [by eapply spill_ok_same|]. left. split; [done|]. exists R', A.
        split_and!; [done|by rewrite Er|by right].
    + rewrite decide_True by (destruct Herr as [->| ->]; done). eexists _, _. split; [done|]. split_and!; try done.
      right. split_and!; [done|by destruct H; split|done].
Qed.
End whole.
