(* ===== verification/LooseProps.v ===== *)
(** * Loose, reusable and retired pages: properties

    [wr_ok] holds before and after each operation, and which pages are in use and
    which are free is said for the operations that a transaction calls. *)

From S2P Require Import Prelude Search Sort Radix Meta Page Pnl PnlFacts PnlMerge PnlCut PnlProps Dpl DplFacts DplOps DplProps Repnl.
From S2P Require Import Loose LooseFacts LooseSpill LooseRefund LooseTxn LooseRetire LooseNew LooseMerge.

(** ** Retiring by the header of the page *)

(** The number of pages that [page_retire_ex] finds. *)
Definition retired_pages_of (h : page_head) : Z := if decide (Z.land (h_flags h) P_LARGE = 0) then 1 else h_pages h.

Section retire_by_head.
Context (malloc : Z -> option Z) (Hmalloc : malloc_ok malloc) (have_cmov : bool).

(** What [page_retire] does with a page of which the header is known. *)
Lemma page_retire_known t mc mp st di si t1 rc t2 :
  page_known have_cmov t (h_pgno (heads t mp)) mp (h_flags (heads t mp)) = Some ((st, di, si, Some mp, h_flags (heads t mp)), t1) ->
  heads t1 = heads t ->
  retire_known malloc have_cmov t1 (h_pgno (heads t mp)) (st, di, si, Some mp, h_flags (heads t mp)) (retired_pages_of (heads t mp)) = Some (rc, t2) ->
  page_retire malloc have_cmov t mc mp = Some (rc, t2, uncount mc (h_flags (heads t mp)) (retired_pages_of (heads t mp))).
Proof.
  intros Ek Eh Er. unfold page_retire, page_retire_ex, retire_status. rewrite Ek. cbn [mbind option_bind]. rewrite Eh.
  unfold retired_pages_of in *. case_decide; cbn [mbind option_bind]; rewrite Er; reflexivity.
Qed.

Lemma page_retire_dirty_spec lim t x D R L X mc :
  wr_ok lim t (x :: D) R L -> spill_ok t X -> ~ loose_entry (heads t) x ->
  h_txnid (heads t (ptr x)) = front_txnid t -> txnid t <= front_txnid t -> retired_pages_of (heads t (ptr x)) = npages x ->
  exists rc t', page_retire malloc have_cmov t mc (ptr x) = Some (rc, t', uncount mc (h_flags (heads t (ptr x))) (npages x)) /\
  ((rc = MDBX_SUCCESS /\ retired lim t t' D R L (live X) (page_in x)) \/
    (no_memory rc /\ retired lim t t' D R L (live X) (fun _ => False))).
Proof.
  intros H Hsp Hx Ef Hle En. destruct (po_pages _ _ _ _ _ (wo_pool _ _ _ _ _ H) x ltac:(by left)) as (Ep & _).
  destruct (found_entry have_cmov lim t x D R L H) as (k & dl & S & U & E & Hdl & HD & Hk).
  destruct (retire_dirty_spec malloc Hmalloc have_cmov lim t x D R L X H Hsp Hx k S U dl (h_flags (heads t (ptr x))) Hdl HD Hk)
    as (rc & t' & Er & Ht'). exists rc, t'. split; [|done]. rewrite <- En.
  eapply page_retire_known with (t1 := with_dlist t dl); [|done|by rewrite Ep, En].
  unfold page_known, is_frozen, is_modifable. rewrite Ef, Ep. replace (front_txnid t <? txnid t) with false by lia. rewrite Z.eqb_refl, E. done.
Qed.

Lemma page_retire_frozen_spec t mp A mc :
  h_txnid (heads t mp) < txnid t -> opnl_holds (retired_pages t) A ->
  let h := heads t mp in let n := retired_pages_of h in
  0 < n <= PAGELIST_LIMIT -> 0 <= h_pgno h -> h_pgno h + n <= 2 ^ 32 ->
  exists rc q, page_retire malloc have_cmov t mc mp = Some (rc, with_retired t q, uncount mc (h_flags h) n) /\
  ((rc = MDBX_SUCCESS /\ opnl_holds q (A ++ steps_down (h_pgno h) 1 (Z.to_nat n))) \/ (no_memory rc /\ q = retired_pages t)).
Proof.
  intros Hf HA h n Hn Hid Hend.
  assert (adds (A ++ steps_down (h_pgno h) 1 (Z.to_nat n)) (retired_pages t) (pnl_append_span malloc (retired_pages t) (h_pgno h) (Z.to_nat n))) as Ha.
  { apply (pnl_append_stepped_spec malloc Hmalloc 1); (done || lia). }
  assert (forall rc q, pnl_append_span malloc (retired_pages t) (h_pgno h) (Z.to_nat n) = Some (rc, q) ->
    page_retire malloc have_cmov t mc mp = Some (rc, with_retired t q, uncount mc (h_flags h) n)) as Hgo.
  { intros rc q E. apply page_retire_known with (st := frozen) (di := O) (si := O) (t1 := t); [|done|].
    - unfold page_known, is_frozen. by replace (h_txnid (heads t mp) <? txnid t) with true by lia.
    - unfold retire_known. rewrite decide_True by done. unfold retire. fold h n. by rewrite E. }
  destruct Ha as [(q & E & Hq)|(err & E & Herr)]; (eexists _, _; split; [by apply Hgo|]); [left|right]; by split.
Qed.

Lemma page_retire_spilled_spec lim t D R L A0 B id m mp mc :
  wr_ok lim t D R L -> spill_ok t (A0 ++ steps_down (2 * (id + 1)) 2 m ++ (2 * id) :: B) -> parents t = [] ->
  h_txnid (heads t mp) = txnid t -> txnid t <> front_txnid t -> h_pgno (heads t mp) = id ->
  retired_pages_of (heads t mp) = Z.of_nat (S m) -> nowhere (first_unallocated t) D R id (S m) ->
  exists rc t', page_retire malloc have_cmov t mc mp = Some (rc, t', uncount mc (h_flags (heads t mp)) (Z.of_nat (S m))) /\
  let freed := fun p => id <= p < id + Z.of_nat (S m) in
  ((rc = MDBX_SUCCESS /\ retired lim t t' D R L (live A0 ++ live B) freed) \/
    (no_memory rc /\ retired lim t t' D R L (live A0 ++ live B) (fun _ => False))).
Proof.
  intros H Hsp Hpar Et Hne Eid En Hout. pose proof (po_end _ _ _ _ _ (wo_pool _ _ _ _ _ H)) as He. set (X := A0 ++ _) in *.
  destruct (Hout id ltac:(lia)) as (Hb & _). unfold MAX_PAGENO, NUM_METAS in *.
  destruct (spill_search_spec have_cmov t X id Hsp ltac:(lia)) as (i & Es & Hi).
  assert (i = S (length A0 + m)) as ->.
  { destruct i as [|k].
    - exfalso. apply Hi. unfold X. rewrite !elem_of_app, elem_of_cons. tauto.
    - f_equal. assert (NoDup X) as Hnd.
      { unfold spill_ok in Hsp. destruct (spilled_list t); [|unfold X in Hsp; by destruct A0, (steps_down _ _ _)].
        apply (NoDup_fmap_1 Z.div2), descending_NoDup, (sh_order _ _ _ Hsp). }
      apply (NoDup_lookup _ _ _ (2 * id) Hnd Hi). unfold X. rewrite lookup_app_r by lia. rewrite lookup_app_r by (rewrite length_steps_down; lia).
      rewrite length_steps_down. by replace (length A0 + m - length A0 - m)%nat with 0%nat by lia. }
  destruct (retire_spilled_spec malloc have_cmov lim t D R L X A0 B id m (Some mp) (h_flags (heads t mp)) Hmalloc H Hsp eq_refl Hpar Hout)
    as (rc & t' & Er & Ht'). exists rc, t'. split; [|done]. rewrite <- En.
  eapply page_retire_known with (t1 := t); [|done|by rewrite Eid, En].
  unfold page_known, is_frozen, is_modifable, is_shadowed. rewrite Et, Eid, Z.ltb_irrefl, (proj2 (Z.eqb_neq _ _) Hne).
  replace (txnid t >? txnid t) with false by lia. by rewrite Es.
Qed.

(** ** A page that comes into use and is retired again *)

Lemma new_then_retire lim t D R L X t1 id p mc :
  allocated lim t t1 D R L X id [mk_dp p id 1] -> in_hands t t1 p id -> txnid t <= front_txnid t ->
  h_flags (heads t1 p) <> P_LOOSE -> Z.land (h_flags (heads t1 p)) P_LARGE = 0 ->
  exists rc t2, page_retire malloc have_cmov t1 mc p = Some (rc, t2, uncount mc (h_flags (heads t1 p)) 1) /\
  ((rc = MDBX_SUCCESS /\ exists D' R' L' X', wr_ok lim t2 D' R' L' /\ in_use (heads t2) D' ≡ₚ in_use (heads t) D /\
    (forall q, free t2 R' L' q <-> free t R L q) /\ spill_ok t2 X' /\ live X' = live X) \/ no_memory rc).
Proof.
  intros [(D1 & R1 & L1 & H1 & Huse & Hfree) Hst (X1 & Hsp1 & EX1) [Ei Ef]] [Et Ep] Hle Hl Hlarge.
  assert (mk_dp p id 1 ∈ in_use (heads t1) D1) as [Hx Hin]%list_elem_of_filter by (rewrite Huse; by left).
  apply elem_of_Permutation in Hin as [D2 HD]. pose proof (wr_ok_perm _ _ _ _ _ _ HD H1) as H2.
  assert (retired_pages_of (heads t1 p) = 1) as En by (unfold retired_pages_of; by rewrite decide_True).
  destruct (page_retire_dirty_spec lim t1 (mk_dp p id 1) D2 R1 L1 X1 mc H2 Hsp1 Hx) as (rc & t2 & E & Hrc); [cbn; congruence|lia|done|].
  exists rc, t2. split; [exact E|]. destruct Hrc as [[-> [(D' & R' & L' & K1 & K2 & K3 & _) _ (X' & Hsp' & EX')]]|[Hnm _]]; [left|by right].
  split; [done|]. exists D', R', L', X'. split_and!; [done| | |done|congruence].
  - rewrite K2. apply (Permutation_cons_inv (a := mk_dp p id 1)). change (in_use (heads t) D) with ([] ++ in_use (heads t) D).
    rewrite <- Huse. unfold in_use. by rewrite HD, filter_cons, decide_True by done.
  - intros q. rewrite K3, Hfree. unfold page_in. cbn [pgno npages].
    assert (q = id <-> id <= q < id + 1) as <- by lia. destruct (decide (q = id)) as [->|]; [|tauto].
    split; [intros _; by left|by right].
Qed.
End retire_by_head.

(** ** A small transaction

    Page 5 is in use, page 11 is loose, 12 and 7 are in [repnl], page 6 is of an
    older snapshot and page 8 is spilled. *)

Definition small_heads (p : page_ptr) : page_head :=
  if decide (p = shadow_page 1) then mk_head 9 P_LEAF 5 0 None
  else if decide (p = shadow_page 2) then mk_head INVALID_TXNID P_LOOSE 11 0 None
  else if decide (p = shadow_page 3) then mk_head 4 P_LEAF 6 0 None
  else mk_head 8 P_LEAF 8 0 None.
Definition small_wr : wr_txn :=
  mk_wr (mk_dtxn (small_dpl [page 1 5 1; page 2 11 1] [] 30) 7 100 (fun _ => 5) no_env) small_heads 8 9 false 13
    (mk_pnl 40 (2 :: 12 :: 7 :: replicate 90 0)) None (Some [1; 16; 0; 0]) INT_MAX (Some (shadow_page 2)) 1 13 64 [].
Definition small_cursor : retire_cursor :=
  mk_rc false (mk_tree 0 2 0 4 1 5 0 0 100 8) (mk_tree 0 2 0 4 1 5 0 0 100 8).

Lemma small_wr_ok : wr_ok 102 small_wr [page 1 5 1; page 2 11 1] [12; 7] [shadow_page 2].
Proof.
  assert (forall x, x ∈ [page 1 5 1; page 2 11 1] -> x = page 1 5 1 \/ x = page 2 11 1) as HD.
  { intros x [->|[->|[]%elem_of_nil]%elem_of_cons]%elem_of_cons; tauto. }
  split.
  - exists [page 1 5 1; page 2 11 1], []. split; [|done]. apply small_holds. vm_compute. reflexivity.
  - split; [by exists (replicate 90 0)|vm_compute; discriminate..|by vm_compute].
  - split.
    + unfold NUM_METAS, MAX_PAGENO. cbn. lia.
    + intros x [->| ->]%HD; cbn; unfold NUM_METAS; (split; [done|lia]).
    + apply (bool_decide_unpack _). vm_compute. exact I.
    + apply (bool_decide_unpack _). vm_compute. exact I.
    + intros x y [->| ->]%HD [->| ->]%HD; cbn; lia.
    + split; [by apply descending_check|]. unfold NUM_METAS. cbn. repeat constructor; lia.
    + intros x y [->| ->]%HD; unfold page_in; cbn; intros [->|[->|[]%elem_of_nil]%elem_of_cons]%elem_of_cons; lia.
    + done.
    + intros x [->| ->]%HD; done.
  - done.
  - done.
  - constructor; [vm_compute; discriminate|constructor].
  - unfold PAGELIST_LIMIT, MAX_PAGENO. cbn. lia.
  - split; [constructor|]. intros p []%elem_of_nil.
Qed.

Lemma small_spill_ok : spill_ok small_wr [16].
Proof.
  split; [by exists [0; 0]|cbn; lia|by apply descending_check|repeat constructor; lia|by left| |by vm_compute].
  intros [|i] x; [|done]. intros [= <-] _. done.
Qed.

(** ** The properties *)

(** C12. [txn_refund] gives back only pages of the stock of the transaction, the
    loose ones and those in [repnl]: all pages between the new and the old end of
    the allocated space were in stock; the lists of the pages in use, of the
    reusable and of the loose pages are the old ones without the pages behind the
    new end, and the invariant of the transaction holds; the pages in use are the
    same.  The result tells whether the end has moved, the last page is then not
    reusable, nor loose unless memory for the search was missing, and the spilled
    pages stay. *)
Theorem txn_refund_correct malloc lim t D R L X :
  malloc_ok malloc -> wr_ok lim t D R L -> spill_ok t X ->
  exists b t' X', txn_refund malloc t = Some (b, t') /\
  let fu := first_unallocated t' in
  b = bool_decide (fu <> first_unallocated t) /\ fu <= first_unallocated t /\
  (forall p, fu <= p < first_unallocated t -> stock (heads t) R L p) /\
  wr_ok lim t' (filter (fun x => pgno x < fu) D) (filter (fun p => p < fu) R) (filter (fun p => h_pgno (heads t p) < fu) L) /\
  in_use (heads t') (filter (fun x => pgno x < fu) D) = in_use (heads t) D /\
  fu - 1 ∉ R /\ (fu - 1 ∉ pgnos_of (heads t) L \/ malloc_fails malloc) /\ spill_ok t' X' /\ live X' = live X.
Proof.
  intros Hm H Hsp. destruct (txn_refund_spec malloc Hm lim t D R L X H Hsp) as (b & t' & X' & E & Hr & Hb & HR & HL & Hsp' & HX).
  exists b, t', X'. split; [done|]. cbv zeta. split_and!; try done.
  - apply (rf_end _ _ _ _ _ _ Hr).
  - apply (rf_stock _ _ _ _ _ _ Hr).
  - apply (rf_ok _ _ _ _ _ _ Hr).
  - by apply (refunds_in_use _ _ _ _ _ _ H Hr).
Qed.

Lemma txn_refund_correct_witness :
  (exists t', txn_refund generous small_wr = Some (true, t') /\ first_unallocated t' = 11 /\ loose_count t' = 0) /\
  exists b t' X', txn_refund generous small_wr = Some (b, t') /\ spill_ok t' X' /\ live X' = live [16].
Proof.
  split; [eexists; split_and!; [vm_compute; reflexivity|reflexivity|reflexivity]|].
  destruct (txn_refund_correct generous 102 small_wr _ _ _ [16] generous_ok small_wr_ok small_spill_ok)
    as (b & t' & X' & E & _ & _ & _ & _ & _ & _ & _ & H1 & H2). exists b, t', X'. exact (conj E (conj H1 H2)).
Defined.

(** C11. Retiring a dirty page [x] of a transaction, on all its branches (the page
    is the last one, it becomes loose, or it goes to [repnl]): on success exactly
    its pages have become free, the other pages in use stay, the invariant of the
    transaction holds and the counters of the trees are lowered; an error says that
    memory or room for [repnl] was missing, and then [x] is lost but everything
    else is as said.  The retired pages of older snapshots and the spilled pages
    are not touched, and the end of the allocated space is not left in front of a
    reusable page. *)
Theorem page_retire_correct malloc have_cmov lim t x D R L X mc :
  malloc_ok malloc -> wr_ok lim t (x :: D) R L -> spill_ok t X -> ~ loose_entry (heads t) x ->
  h_txnid (heads t (ptr x)) = front_txnid t -> txnid t <= front_txnid t -> retired_pages_of (heads t (ptr x)) = npages x ->
  exists rc t', page_retire malloc have_cmov t mc (ptr x) = Some (rc, t', uncount mc (h_flags (heads t (ptr x))) (npages x)) /\
  ((rc = MDBX_SUCCESS /\ retired lim t t' D R L (live X) (page_in x)) \/
    (no_memory rc /\ retired lim t t' D R L (live X) (fun _ => False))).
Proof. intros Hm. by apply page_retire_dirty_spec. Qed.

Lemma page_retire_correct_witness :
  (exists t' mc', page_retire generous true small_wr small_cursor (shadow_page 1) = Some (MDBX_SUCCESS, t', mc') /\
    loose_pages t' = Some (shadow_page 1) /\ page_next (heads t' (shadow_page 1)) = Some (shadow_page 2) /\ leaf_pages (rc_tree mc') = 4) /\
  exists rc t', page_retire generous true small_wr small_cursor (shadow_page 1) = Some (rc, t', uncount small_cursor P_LEAF 1) /\
  ((rc = MDBX_SUCCESS /\ retired 102 small_wr t' [page 2 11 1] [12; 7] [shadow_page 2] (live [16]) (page_in (page 1 5 1))) \/
    (no_memory rc /\ retired 102 small_wr t' [page 2 11 1] [12; 7] [shadow_page 2] (live [16]) (fun _ => False))).
Proof.
  split; [eexists _, _; split_and!; [vm_compute; reflexivity|reflexivity|reflexivity|reflexivity]|].
  exact (page_retire_correct generous true 102 small_wr (page 1 5 1) [page 2 11 1] [12; 7] [shadow_page 2] [16] small_cursor
    generous_ok small_wr_ok small_spill_ok ltac:(discriminate) eq_refl ltac:(discriminate) eq_refl).
Defined.

(** C15. A page of an older snapshot is never reused by the transaction that
    retires it: [page_retire] appends its pages, and nothing else, to the list of
    the retired pages, which is published for the GC, and changes nothing else of
    the transaction; without memory the list stays as it was. *)
Theorem page_retire_frozen_correct malloc have_cmov t mp A mc :
  malloc_ok malloc -> h_txnid (heads t mp) < txnid t -> opnl_holds (retired_pages t) A ->
  let h := heads t mp in let n := retired_pages_of h in
  0 < n <= PAGELIST_LIMIT -> 0 <= h_pgno h -> h_pgno h + n <= 2 ^ 32 ->
  exists rc q, page_retire malloc have_cmov t mc mp = Some (rc, with_retired t q, uncount mc (h_flags h) n) /\
  ((rc = MDBX_SUCCESS /\ opnl_holds q (A ++ steps_down (h_pgno h) 1 (Z.to_nat n))) \/ (no_memory rc /\ q = retired_pages t)).
Proof. intros Hm. by apply page_retire_frozen_spec. Qed.

Lemma page_retire_frozen_correct_witness :
  exists rc q, page_retire generous true small_wr small_cursor (shadow_page 3) = Some (rc, with_retired small_wr q, uncount small_cursor P_LEAF 1) /\
  ((rc = MDBX_SUCCESS /\ opnl_holds q ([] ++ [6])) \/ (no_memory rc /\ q = None)).
Proof.
  destruct (page_retire_frozen_correct generous true small_wr (shadow_page 3) [] small_cursor generous_ok eq_refl eq_refl)
    as (rc & q & E & H); [split; vm_compute; [reflexivity|discriminate]|vm_compute; discriminate|vm_compute; discriminate|].
  exists rc, q. refine (conj E _). destruct H as [[H1 H2]|H]; [left; exact (conj H1 H2)|right; exact H].
Defined.

(** Retiring a spilled page of a transaction without parents: its entries
    leave the list of the spilled pages and no others do, its pages become free,
    and everything else is as for a dirty page. *)
Theorem page_retire_spilled_correct malloc have_cmov lim t D R L A0 B id m mp mc :
  malloc_ok malloc -> wr_ok lim t D R L -> spill_ok t (A0 ++ steps_down (2 * (id + 1)) 2 m ++ (2 * id) :: B) -> parents t = [] ->
  h_txnid (heads t mp) = txnid t -> txnid t <> front_txnid t -> h_pgno (heads t mp) = id ->
  retired_pages_of (heads t mp) = Z.of_nat (S m) -> nowhere (first_unallocated t) D R id (S m) ->
  exists rc t', page_retire malloc have_cmov t mc mp = Some (rc, t', uncount mc (h_flags (heads t mp)) (Z.of_nat (S m))) /\
  let freed := fun p => id <= p < id + Z.of_nat (S m) in
  ((rc = MDBX_SUCCESS /\ retired lim t t' D R L (live A0 ++ live B) freed) \/
    (no_memory rc /\ retired lim t t' D R L (live A0 ++ live B) (fun _ => False))).
Proof. intros Hm. by apply page_retire_spilled_spec. Qed.

Lemma page_retire_spilled_correct_witness :
  (exists t' mc', page_retire generous true small_wr small_cursor (shadow_page 4) = Some (MDBX_SUCCESS, t', mc') /\
    take 3 (cells (repnl t')) = [2; 8; 7] /\ hd 1 (default [] (spilled_list t')) = 0) /\
  exists rc t', page_retire generous true small_wr small_cursor (shadow_page 4) = Some (rc, t', uncount small_cursor P_LEAF 1) /\
  (rc = MDBX_SUCCESS \/ no_memory rc).
Proof.
  split; [eexists _, _; split_and!; [vm_compute; reflexivity|vm_compute; reflexivity|vm_compute; reflexivity]|].
  destruct (page_retire_spilled_correct generous true 102 small_wr [page 1 5 1; page 2 11 1] [12; 7] [shadow_page 2] [] [] 8 0 (shadow_page 4)
    small_cursor generous_ok small_wr_ok small_spill_ok eq_refl eq_refl ltac:(discriminate) eq_refl eq_refl) as (rc & t' & E & Hrc).
  - intros p Hp. unfold NUM_METAS. cbn in *. split_and!; [lia|lia|rewrite !elem_of_cons, elem_of_nil; lia|].
    intros y [->|[->|[]%elem_of_nil]%elem_of_cons]%elem_of_cons; unfold page_in; cbn; lia.
  - exists rc, t'. refine (conj E _). destruct Hrc as [[H _]|[H _]]; [left|right]; exact H.
Defined.

(** C13. Which page becomes the new one: with [L] the loose pages in the order of
    their chain and [R] the reusable pages, it is the first page of [L] in front of
    the end of the allocated space, at its place in memory, or, when there is none,
    the smallest page of [R]; the end is where
    the refund leaves it with which the allocation begins, if the transaction may
    refund its loose pages.  Only a transaction
    with neither has to search the GC.  The page is loose or reusable no longer, has
    the number, the transaction id and the flags it is to have, and is the only
    change to the pages in use; no other page leaves the stock, and the invariant
    holds.  An error says that memory was missing or the transaction is full; there
    was no loose page then, and only the smallest reusable one is lost. *)
Theorem page_new_correct malloc have_cmov lim t D R L X fresh flags :
  malloc_ok malloc -> wr_ok lim t D R L -> spill_ok t X -> u16 flags <> P_LOOSE ->
  (forall p, fresh = Some p -> p ∉ ptr <$> in_use (heads t) D) ->
  exists res t', page_new_txn malloc have_cmov t fresh flags = Some (res, t') /\
  match res with
  | None => exists D', evolves lim t t' D R L X D' [] []
  | Some (rc, np) =>
      (rc = MDBX_SUCCESS /\ exists p id, np = Some p /\ handed_out t t' R L p id /\
        allocated lim t t' D R L X id [mk_dp p id 1] /\ in_hands t t' p id /\ h_flags (heads t' p) = u16 flags) \/
      (no_memory rc /\ loose_in_front t t' L = [] /\ exists id, smallest R id /\ allocated lim t t' D R L X id [])
  end /\ refunded_end malloc t t'.
Proof. intros Hm. by apply page_new_spec. Qed.

Lemma page_new_correct_witness :
  (exists t', page_new_txn generous true small_wr None P_LEAF = Some (Some (MDBX_SUCCESS, Some (shadow_page 2)), t') /\
    first_unallocated t' = 13 /\ h_txnid (heads t' (shadow_page 2)) = 9) /\
  exists res t', page_new_txn generous true small_wr None P_LEAF = Some (res, t') /\ res <> None.
Proof.
  assert (exists t', page_new_txn generous true small_wr None P_LEAF = Some (Some (MDBX_SUCCESS, Some (shadow_page 2)), t') /\
    first_unallocated t' = 13 /\ h_txnid (heads t' (shadow_page 2)) = 9) as H
    by (eexists; split_and!; [vm_compute; reflexivity|reflexivity|reflexivity]).
  refine (conj H _).
  destruct (page_new_correct generous true 102 small_wr _ _ _ [16] None P_LEAF generous_ok small_wr_ok small_spill_ok) as (res & t' & E & _);
    [discriminate|discriminate|].
  exists res, t'. refine (conj E _). intros ->. destruct H as (t2 & E2 & _). rewrite E2 in E. discriminate.
Defined.

(** C10. A page that is taken with [page_new] and retired again leaves the
    transaction as it was, up to the order of the lists and the place of the end:
    the pages in use are the same, a page is free if and only if it was free
    before, and the invariant holds.  The only other result is an error for lack of
    memory. *)
Theorem page_new_retire_roundtrip malloc have_cmov lim t D R L X fresh flags t1 p mc :
  malloc_ok malloc -> wr_ok lim t D R L -> spill_ok t X -> txnid t <= front_txnid t -> u16 flags <> P_LOOSE ->
  Z.land (u16 flags) P_LARGE = 0 -> (forall p, fresh = Some p -> p ∉ ptr <$> in_use (heads t) D) ->
  page_new_txn malloc have_cmov t fresh flags = Some (Some (MDBX_SUCCESS, Some p), t1) ->
  exists rc t2, page_retire malloc have_cmov t1 mc p = Some (rc, t2, uncount mc (u16 flags) 1) /\
  ((rc = MDBX_SUCCESS /\ exists D' R' L' X', wr_ok lim t2 D' R' L' /\ in_use (heads t2) D' ≡ₚ in_use (heads t) D /\
    (forall q, free t2 R' L' q <-> free t R L q) /\ spill_ok t2 X' /\ live X' = live X) \/ no_memory rc).
Proof.
  intros Hm H Hsp Hle Hfl Hlarge Hf E.
  destruct (page_new_spec malloc Hm have_cmov lim t D R L X fresh flags H Hsp Hfl Hf) as (res & t1' & E' & Hres).
  rewrite E in E'. injection E' as <- <-. destruct Hres as [[(_ & p' & id & [= <-] & _ & Ha & Hh & Efl)|[[?|?] _]] _]; [|done..].
  rewrite <- Efl. eapply new_then_retire; try done; by rewrite Efl.
Qed.

Lemma page_new_retire_roundtrip_witness :
  exists t1 rc t2 mc', page_new_txn generous true small_wr None P_LEAF = Some (Some (MDBX_SUCCESS, Some (shadow_page 2)), t1) /\
  page_retire generous true t1 small_cursor (shadow_page 2) = Some (rc, t2, mc') /\ (rc = MDBX_SUCCESS \/ no_memory rc).
Proof.
  assert (exists t1, page_new_txn generous true small_wr None P_LEAF = Some (Some (MDBX_SUCCESS, Some (shadow_page 2)), t1)) as [t1 E]
    by (eexists; vm_compute; reflexivity).
  destruct (page_new_retire_roundtrip generous true 102 small_wr _ _ _ [16] None P_LEAF t1 (shadow_page 2) small_cursor generous_ok small_wr_ok
    small_spill_ok ltac:(discriminate) ltac:(discriminate) eq_refl ltac:(discriminate) E) as (rc & t2 & E2 & Hrc).
  exists t1, rc, t2, (uncount small_cursor (u16 P_LEAF) 1). refine (conj E (conj E2 _)). destruct Hrc as [[H _]|H]; [left|right]; exact H.
Defined.

(** C14. Merging the loose pages for a commit: their numbers are appended to the
    retired pages, or merged into [repnl], which stays in order, with the temporary
    list in the tail of the same buffer; the loose pages leave the list of dirty
    pages, and exactly the pages in use stay there; no page is loose any more, and
    the invariant of the transaction holds.  Without memory nothing has changed. *)
Theorem gc_merge_loose_correct malloc have_cmov lim t D R L A X gc_dirty gc_height :
  malloc_ok malloc -> wr_ok lim t D R L -> L <> [] -> opnl_holds (retired_pages t) A -> flags_ok (heads t) D -> spill_ok t X ->
  exists rc t', gc_merge_loose malloc have_cmov gc_dirty gc_height t = Some (rc, t') /\ heads t' = heads t /\
  first_unallocated t' = first_unallocated t /\ spill_ok t' X /\
  ((rc = MDBX_SUCCESS /\ exists R' A', wr_ok lim t' (in_use (heads t) D) R' [] /\ opnl_holds (retired_pages t') A' /\
    ((R' = R /\ A' = A ++ pgnos_of (heads t) L) \/ (R' ≡ₚ R ++ pgnos_of (heads t) L /\ A' = A))) \/
    (no_memory rc /\ wr_ok lim t' D R L /\ opnl_holds (retired_pages t') A)).
Proof. intros Hm. by apply gc_merge_loose_spec. Qed.

Lemma gc_merge_loose_correct_witness :
  (exists t', gc_merge_loose generous true true 1 small_wr = Some (MDBX_SUCCESS, t') /\ take 4 (cells (repnl t')) = [3; 12; 11; 7] /\
    dl_length (dlist t') = 1%nat) /\
  exists rc t', gc_merge_loose generous true true 1 small_wr = Some (rc, t') /\ spill_ok t' [16] /\ (rc = MDBX_SUCCESS \/ no_memory rc).
Proof.
  split; [eexists; split_and!; [vm_compute; reflexivity|vm_compute; reflexivity|vm_compute; reflexivity]|].
  destruct (gc_merge_loose_correct generous true 102 small_wr _ _ _ [] [16] true 1 generous_ok small_wr_ok ltac:(discriminate) eq_refl)
    as (rc & t' & E & _ & _ & Hs & Hrc); [|apply small_spill_ok|].
  - intros x [Hl [->|[->|[]%elem_of_nil]%elem_of_cons]%elem_of_cons]%list_elem_of_filter; [reflexivity|]. destruct Hl. reflexivity.
  - exists rc, t'. refine (conj E (conj Hs _)). destruct Hrc as [[H _]|[H _]]; [left|right]; exact H.
Defined.
